(* ===== verification/_CoqProject ===== *)
-Q . S2P
Prelude.v
Ptrace.v
Debugger.v
Tracer.v
RbTree.v
RbShape.v
RbInsert.v
RbBalance.v
RbSearch.v
RbMap.v
Pstree.v
PstreeTree.v
PstreeIds.v
Sessions.v
PidTree.v
KcmpIds.v
KcmpObjects.v
TaskIds.v
FileIds.v
Seccomp.v
SeccompView.v
SeccompCollect.v
SeccompImage.v
SeccompRestore.v
ServiceFd.v
SessionHelpers.v
CloneFlags.v
SessionBirths.v
SessionGroups.v
SessionsRestored.v
PstreeImage.v
TreeMigration.v
Bitmap.v
Vma.v
AddrSpace.v
PagePipe.v
Pagemap.v
MemRestore.v
CowVmas.v
Premap.v
Content.v
PageXfer.v
Predump.v
PagemapCache.v
AsyncRead.v
Drain.v
LazyIovs.v
LazyPages.v
LazyOpen.v
LazyLocal.v
LazyServe.v
LazyDaemon.v
LazyRun.v
Chunk.v
Shmem.v
Mem.v
ShmemDump.v
ShmemRestore.v
Restorer.v
Restored.v
TaskMemory.v
Migration.v
