(* ===== verification/Prelude.v ===== *)
(** * The memory subsystem and the process tree of CRIU 3.15, as TransProc uses them

    TransProc migrates a running process between architectures: it stops the process with the
    checkpoint/restore tool CRIU (src/criu-3.15), transforms the images CRIU wrote, and restores
    them elsewhere.  This library models TransProc's own tracers, which stop a process where it can be
    transformed, and these parts of CRIU: the one that carries the contents of memory from a task to its images and
    back, the one that carries the tree of tasks, the one that finds out which objects of the kernel tasks share, and
    the one that carries seccomp filters.

    ** How the parts interact

    - Before a dump, a tracer (src/tools/tracer.c, tracer2.c, attach_pid.c, debugger.c) writes breakpoints into
      the text of the process, brings every thread to a migration point, takes the breakpoints out again and
      sends SIGSTOP.
    - A dump writes the tree of tasks to an image; a restore reads it, works out what every task shares with its
      parent and in which session it was born, adds helper tasks for leaders that are dead, and forks the tree
      from its root (criu/pstree.c, criu/files.c, criu/cr-restore.c).
    - Before that, every task and every open file gets an id: two of them have the same one when kcmp(2) says that
      they are the same object (criu/kcmp-ids.c, criu/file-ids.c, criu/cr-dump.c).  The trees of ids and that of
      pids are red-black trees (criu/rbtree.c).
    - The seccomp filters of all threads go to one image, and are followed from there when a task is restored
      (criu/seccomp.c, criu/pie/restorer.c).
    - A dump ([parasite_dump_pages_seized], criu/mem.c) walks the memory areas of a task, asks the
      pagemap cache (criu/pagemap-cache.c) which pages are there and changed, and records them in a
      page pipe (criu/page-pipe.c): pages to be written, and holes, which the parent snapshot has.
      Areas of shared memory are collected in a table instead (criu/shmem.c) and dumped once per
      segment.
    - Code injected into the task (criu/pie/parasite.c) fills the pipes with vmsplice(2); the
      transfer (criu/page-xfer.c) takes the pages from the pipes into the images, directly
      or through a page server, and writes a pagemap that says what the pages image holds.  In read
      mode a pre-dump copies the pages with process_vm_readv(2) instead.
    - A restore opens the pagemaps (criu/pagemap.c) with their chain of parent snapshots and
      reads pages from the first snapshot of the chain that has them; remote pages are asked
      from a page server.  It reads the areas of each task, finds those a task may share with its
      parent, maps the private ones one after the other in a temporary place and fills them; areas
      that share nothing may be left to be mapped and read in place later (criu/mem.c).  The restorer
      (criu/pie/restorer.c) then unmaps everything else, moves the areas to their addresses, maps and
      reads what was left, and gives every area its protection.
    - A lazy restore leaves pages out.  The lazy-pages daemon (criu/uffd.c) collects what is missing from
      the pagemap and the areas, is told by the kernel of every access to a missing page and of every
      change of the memory, fills pages on demand and all others in the background.

    ** Files

    - [Prelude]: outcomes of C code ([res], the state monad [M]), machine integers, pages, the
      tactics [plia] and [pdiv].
    - [Ptrace]: words, registers and breakpoints.  [Debugger]: the tools that trace one thread.  [Tracer]: tracer.c,
      its threads and those of the process as a step relation ([tracer_step] is [trace_thread], a point of it at a
      time; [tracee_step] is what the process may do meanwhile).
    - [Pstree]: the data of pstree.c, the walk over the tree, its dump and its reading.  [PstreeIds]: the
      preparation of the tree, and the forking ([restore_task] is restore_task_with_children down to
      create_children_and_session).  [PstreeTree]: the links between items as a tree; the rule for loops over the
      tree that change it.  [Sessions]: what the forking needs of a tree; [SessionHelpers], [SessionBirths],
      [SessionGroups]: the three loops of prepare_pstree_ids; [SessionsRestored]: the whole of it.
      [CloneFlags]: prepare_pstree_kobj_ids.  [PstreeImage]: a dumped tree is read; [TreeMigration]: and forked.
    - [RbTree]: rbtree.c on a heap of nodes.  [RbShape]: which tree a heap represents; [RbInsert]: rotations and
      rb_insert_color on trees; [RbBalance]: order and colours; [RbSearch]: searches and walks; [RbMap]: a tree with
      keys is a finite map, the interface that [PidTree] (pid_root_rb of pstree.c) and [KcmpObjects] use.
    - [KcmpIds]: kcmp-ids.c.  [KcmpObjects]: the ids tell objects apart.  [TaskIds]: the ids of tasks, cr-dump.c.
      [FileIds]: file-ids.c.
    - [Seccomp]: seccomp.c and the installing of filters.  [SeccompView]: its entries as a map; [SeccompCollect]: the
      fetching of all filters; [SeccompImage]: the image; [SeccompRestore]: the whole way.
    - [Bitmap]: bit maps (bitmap.c, include/common/asm-generic/bitops.h).
    - [Vma]: memory areas and the predicates on areas and pagemap entries (include/vma.h,
      include/image.h, include/mem.h, mem.c).
    - [AddrSpace]: the address space of a task and the system calls that change it.
    - [PagePipe]: [struct page_pipe] as a heap of buffers and an array of iovecs; every operation of
      page-pipe.c.
    - [Pagemap]: [struct page_read] and the chain of snapshots as a list; every operation of
      pagemap.c on local images.
    - [MemRestore]: the restore side of mem.c.  [CowVmas]: the matching of areas with the parent's;
      [Premap]: the list of areas and their temporary places; [Content]: their contents.
    - [Restorer]: the memory part of pie/restorer.c, and the moving of areas; [Restored]: the whole of it;
      [TaskMemory]: a task's private memory through all the stages of a restore; [Migration]: dumped and
      restored.
    - [PageXfer]: the two transfer engines behind the interface [XferOps], [page_xfer_dump_pages] for any
      engine, the protocol and the loop of the page server.
    - [Predump]: fill_userbuf and page_xfer_predump_pages of page-xfer.c.
    - [PagemapCache]: pagemap-cache.c.
    - [AsyncRead]: the client side of remote reads in page-xfer.c.
    - [Drain]: drain_pages (mem.c), the parasite's dump_pages (pie/parasite.c), the vmsplice loop of
      shmem.c.
    - [Chunk]: the invariant that the two users of a page pipe in chunk mode share.
    - [Shmem], [ShmemDump], [ShmemRestore]: shmem.c; the table of segments, their dump and the
      restore of their contents.
    - [LazyIovs]: the lists of ranges of uffd.c.  [LazyPages]: what the daemon does for one task; [LazyOpen]: the
      ranges it starts from; [LazyLocal]: every operation with local images; [LazyServe]: the steps of a task and
      of the daemon as a relation.  [LazyDaemon]: the tasks, their reference counts and the epoll loop (of
      util.c); [LazyRun]: the daemon from its start to its end.
    - [Mem]: the dump side of mem.c up to [parasite_dump_pages_seized], with mprotect_vmas and
      parasite_cleanup of the parasite.

    ** How C is modelled

    A C function is a function from the state it reads to [Done] with its result and the new
    state, [Bug] (BUG_ON, or an access outside an array) or [NoFuel].  Integers are [Z] with the
    wrap-around of their width written out ([u32], [u64], [s32]).  System calls, allocations and
    whatever else is outside the sources are classes of functions of a clock that counts the calls
    made ([PipeKernel], [ReadKernel], [XferKernel], [SpliceKernel], [PmKernel], [ShmKernel], [MmKernel],
    [RstKernel], [UffdKernel], ...), so that nothing ties an answer to an earlier one; what a proof needs of them is a class of
    laws ([...Ok]: what the manual pages promise, e.g. that at most the requested bytes are
    transferred; [...Live]: a kernel that makes progress), each with an instance.  Memory is a
    function from addresses to bytes, a pipe or socket a stream with its read and write positions.  The items of the
    process tree are records in a map from pids, and pointers between them are pids.

    ** Fuel

    Structural recursion is used where the C loop walks a list.  Other loops take fuel, and their
    theorems show that it is enough: a seek needs a turn per entry, a read a turn per byte at
    worst, the page server a turn per request, the scan of an area a turn per page and one per
    emptied page pipe, a loop over the process tree a turn per pid that was ever seen, a loop along a path of a red-black tree
    twice the logarithm of its size ([turns] gives more), a shared page is recorded after at most one flush, and the lazy-pages daemon needs a
    round per page that is left and two more.

    ** What is proved

    - End to end: the private memory of a task that is dumped and restored is what it was
      ([private_memory_migrated]); after a full dump of a task's private memory the images hold the bytes of exactly
      the selected pages ([parasite_dump_pages_seized_spec]); a shared segment that is dumped and
      restored has its bytes ([shmem_roundtrip]); pages that went through a dump are read back
      ([dump_restore_roundtrip]); the page server writes the same images as a local dump
      ([page_server_session_spec]).
    - Restore of private memory: the areas are placed in the reservation without overlap
      ([premap_priv_vmas_spec]), and then hold the bytes of the first snapshot that has them, whether
      they were read, queued, left to the restorer or found in the parent
      ([restore_priv_vma_content_spec]).  The restorer moves them to their addresses ([vma_remap_spec],
      [restore_memory_spec]).  All the stages together leave every private area at its addresses, with
      its protection and its bytes ([private_memory_restored]).
    - Lazy restore: whatever the task and its children do, a byte that is missing is in the daemon's list for its
      place in the images or holds what it held ([no_page_is_lost]); the daemon ends with every task complete and
      everything freed ([daemon_serves_all]).
    - Process tree: a tree that is dumped and read again is forked with every task in its session, or refused for a
      stated reason ([process_tree_migrated]); prepare_pstree_ids never runs into its BUG_ONs and what it leaves is
      a well formed tree that can be forked ([sessions_restored], [prepare_keeps_tree]) and in which process groups
      have leaders ([groups_led]); the clone flags ([kobj_ids_spec]).  How the tasks came to be is a hypothesis
      ([history], [lived]): a task is in the session it was born in or leads its own.
    - Red-black trees: insertion keeps order and colours ([insert_keeps_red_black]), a search is logarithmic
      ([search_is_logarithmic]), and the tree of pids is the finite map that the process tree is modelled with
      ([pid_tree_is_a_map], [get_free_pid_same]).
    - Ids: equal ids mean the same object ([ids_tell_objects_apart]), whatever is shared between tasks is found or the
      dump is refused ([collected_ids_tell_what_is_shared]), and files are written once ([every_id_is_new_once]).  That
      kcmp compares by an order of the kernel's objects is a hypothesis ([kcmp_by]).
    - Seccomp: every thread is given the filters it had, or the leader those of all ([seccomp_roundtrip]).
    - Tracers: when the multi-threaded tracer suspends the process, every thread is at its migration point and the
      text is what it was ([suspended_at_migration_points]), in every interleaving; and it can always get there
      ([tracer_completes]).  The single-threaded ones stop at one of their breakpoints ([trace_to_point_spec]).
    - Components: functional correctness of every operation above on every branch, with the
      well-formedness of page pipes, readers, queues, the table of segments and the images kept;
      termination of the loops; the memory protections of the task restored.
    - Defects: theorems that exhibit an array overrun, an endless loop, a double close or a lost
      error, or a task that is not restored on a concrete input of the modelled code.

    ** Not modelled

    Of the tracers, the reading of /proc and of the symbols and sections of the binary is left out; that
    check_migrate, once resumed, returns to its caller is part of [tracee_step].  Of the red-black trees, the removal of
    nodes, which CRIU never uses, is left out; of the ids, those of namespaces; of seccomp, the packing of the image, the allocator of the restorer and the
    suspension of filters while CRIU works.  Of the process tree, real pids, core entries, the ids
    of a task and what a task does between fork and its children are left out, as is a shell job in the theorems.
    The hand-over of shared segments between restored tasks (collect_shmem, open_shmem) is left out.  Of the
    lazy-pages daemon, the polling of replies from a page server, the sockets and the restorer's side (setup_uffd)
    are not modelled; requests in flight are, but the invariants are those of local images.  Of the restorer, the vdso, AIO rings, madvise(2) and the
    rest of the task's state are left out.  The image streamer, TLS, the daemon set-up of the page server and
    everything that is a sequence of system calls with little state of its own (files,
    sockets, mounts, namespaces, terminals, the drivers of dump and restore), protobuf and other
    generated code, and the Python tools are left out. *)
From Stdlib Require Export ZArith Lia.
From stdpp Require Export base gmap list numbers.
#[global] Open Scope Z_scope.

(** ** Outcomes of C code

    A modelled C function is a state transformer.  [Done] carries the returned
    value and the new state; [Bug] is the process dying in [BUG()]/[BUG_ON()] or
    leaving the bounds of an array; [NoFuel] is a loop that was not given enough
    iterations, so that theorems about loops show that it does not arise. *)
Inductive res (A : Type) : Type :=
| Done (a : A)
| Bug
| NoFuel.
Arguments Done {A} a.
Arguments Bug {A}.
Arguments NoFuel {A}.

Definition M (S A : Type) : Type := S -> res (A * S).

Definition ret {S A} (a : A) : M S A := fun s => Done (a, s).
Definition bind {S A B} (m : M S A) (k : A -> M S B) : M S B :=
  fun s => match m s with
           | Done (a, s') => k a s'
           | Bug => Bug
           | NoFuel => NoFuel
           end.
Definition getS {S} : M S S := fun s => Done (s, s).
Definition putS {S} (s : S) : M S unit := fun _ => Done (tt, s).
Definition bug {S A} : M S A := fun _ => Bug.

(** the same without a state *)
Definition rbind {A B} (m : res A) (k : A -> res B) : res B :=
  match m with Done a => k a | Bug => Bug | NoFuel => NoFuel end.
Notation "'let*' p := m 'in' k" := (rbind m (fun p => k))
  (at level 10, p strict pattern, m at level 200, k at level 200).

(** an access that fails when [o] is [None] *)
Definition deref {A} (o : option A) : res A := match o with Some a => Done a | None => Bug end.

Declare Scope cmon_scope.
Delimit Scope cmon_scope with cmon.
Notation "x <~ m ;; k" := (bind m (fun x => k))
  (at level 100, m at next level, right associativity) : cmon_scope.
Notation "m ;;; k" := (bind m (fun _ => k))
  (at level 100, right associativity) : cmon_scope.

(** [BUG_ON(c)] of include/criu/bug.h. *)
Definition bug_on {S} (c : bool) : M S unit :=
  fun s => if c then Bug else Done (tt, s).

(** ** Machine integers *)
Definition u64 (x : Z) : Z := x mod 2 ^ 64.
Definition u32 (x : Z) : Z := x mod 2 ^ 32.
(** conversion to [int] *)
Definition s32 (x : Z) : Z := (x + 2 ^ 31) mod 2 ^ 32 - 2 ^ 31.
(** a C flag test [x & m] used as a condition *)
Definition has (x m : Z) : bool := negb (Z.land x m =? 0).

(** include/common/arch/x86/asm/page.h: [PAGE_SHIFT] is 12. *)
Definition PAGE_SHIFT : Z := 12.
Definition PAGE_SIZE : Z := 4096.
Definition EAGAIN : Z := 11.

Record iovec := mk_iovec { iov_base : Z; iov_len : Z }.

#[global] Instance iovec_eq_dec : EqDecision iovec.
Proof. solve_decision. Defined.

(** [calls] counts the system calls made so far: the answers of the kernel are a
    function of it, so that nothing is assumed about repeated requests. *)
Abbreviation clock := nat (only parsing).

Lemma u64_id x : 0 <= x < 2 ^ 64 -> u64 x = x.
Proof. intros. apply Z.mod_small; lia. Qed.
Lemma u32_id x : 0 <= x < 2 ^ 32 -> u32 x = x.
Proof. intros. apply Z.mod_small; lia. Qed.

Lemma s32_id x : - 2 ^ 31 <= x < 2 ^ 31 -> s32 x = x.
Proof. intros. unfold s32. rewrite Z.mod_small; lia. Qed.

(** the test of one bit *)
Lemma has_bit w j : 0 <= j -> has w (Z.shiftl 1 j) = Z.testbit w j.
Proof.
  intros Hj. unfold has. rewrite Z.shiftl_1_l. destruct (Z.testbit w j) eqn:E.
  - apply negb_true_iff, Z.eqb_neq. intros H.
    assert (Hb : Z.testbit (Z.land w (2 ^ j)) j = true) by (by rewrite Z.land_spec, E, Z.pow2_bits_true).
    by rewrite H, Z.bits_0 in Hb.
  - apply negb_false_iff, Z.eqb_eq. apply Z.bits_inj'. intros n Hn. rewrite Z.land_spec, Z.bits_0.
    destruct (Z.eq_dec j n) as [<-|Hne]; [by rewrite E|]. rewrite Z.pow2_bits_false by lia. by rewrite andb_false_r.
Qed.

(** ** Lists *)
Lemma bind_ext_in {A B} (f g : A -> list B) (l : list A) :
  (forall x, x ∈ l -> f x = g x) -> l ≫= f = l ≫= g.
Proof.
  induction l as [|x l IH]; intros H; [done|]. simpl.
  rewrite (H x) by set_solver. f_equal. apply IH. set_solver.
Qed.

Lemma take_drop_insert_ge {A} (l : list A) i j k v :
  (j + k <= i)%nat -> take k (drop j (<[i := v]> l)) = take k (drop j l).
Proof.
  intros H. apply list_eq. intros n.
  destruct (decide (n < k)%nat); [|by rewrite !lookup_take_ge by lia].
  rewrite !lookup_take_lt, !lookup_drop, list_lookup_insert_ne by lia. done.
Qed.

Lemma take_drop_snoc {A} (l : list A) j k v :
  l !! (j + k)%nat = Some v ->
  take (S k) (drop j l) = take k (drop j l) ++ [v].
Proof. intros H. rewrite (take_S_r _ _ v); [done|]. by rewrite lookup_drop. Qed.

Lemma Forall_snoc {A} (P : A -> Prop) (l : list A) (x : A) :
  Forall P (l ++ [x]) <-> Forall P l /\ P x.
Proof. by rewrite Forall_app, Forall_singleton. Qed.

(** ** Arithmetic of pages *)
Definition aligned (x : Z) : Prop := x mod PAGE_SIZE = 0.

#[global] Instance aligned_dec x : Decision (aligned x).
Proof. unfold aligned. apply _. Defined.

Lemma aligned_add x y : aligned x -> aligned y -> aligned (x + y).
Proof. unfold aligned. intros. rewrite Z.add_mod, H, H0 by done. done. Qed.
Lemma aligned_page : aligned PAGE_SIZE.
Proof. done. Qed.
Lemma aligned_mul n : aligned (n * PAGE_SIZE).
Proof. unfold aligned. by rewrite Z.mod_mul. Qed.

(** the page addresses an iovec covers *)
Definition iov_pages (v : iovec) : list Z :=
  (fun i => iov_base v + Z.of_nat i * PAGE_SIZE) <$> seq 0 (Z.to_nat (iov_len v / PAGE_SIZE)).

(** the bytes a list of iovecs covers *)
Definition bytes_of (l : list iovec) : Z := foldr (fun v n => iov_len v + n) 0 l.

Lemma bytes_of_app l k : bytes_of (l ++ k) = bytes_of l + bytes_of k.
Proof. induction l; simpl; lia. Qed.

(** an iovec of whole pages that does not wrap around the address space *)
Definition iov_ok (v : iovec) : Prop :=
  0 <= iov_base v /\ 0 < iov_len v /\ iov_base v + iov_len v < 2 ^ 64 /\
  aligned (iov_base v) /\ aligned (iov_len v).

(** addresses of pages that are recorded *)
Definition addr_ok (a : Z) : Prop := 0 <= a /\ a + PAGE_SIZE < 2 ^ 64 /\ aligned a.

Lemma iov_pages_grow b n :
  0 <= n -> aligned n ->
  iov_pages (mk_iovec b (n + PAGE_SIZE)) = iov_pages (mk_iovec b n) ++ [b + n].
Proof.
  unfold iov_pages, aligned, PAGE_SIZE. simpl. intros Hn Ha.
  replace ((n + 4096) / 4096) with (n / 4096 + 1) by (Z.div_mod_to_equations; lia).
  rewrite Z2Nat.inj_add by (Z.div_mod_to_equations; lia).
  rewrite seq_app, fmap_app. simpl. do 2 f_equal.
  rewrite Z2Nat.id by (Z.div_mod_to_equations; lia). Z.div_mod_to_equations; lia.
Qed.

Lemma iov_pages_single b : iov_pages (mk_iovec b PAGE_SIZE) = [b].
Proof. unfold iov_pages. simpl. f_equal. lia. Qed.

Lemma iov_pages_length v :
  0 <= iov_len v -> aligned (iov_len v) ->
  Z.of_nat (length (iov_pages v)) * PAGE_SIZE = iov_len v.
Proof.
  unfold iov_pages, aligned, PAGE_SIZE. rewrite length_fmap, length_seq. intros.
  rewrite Z2Nat.id; Z.div_mod_to_equations; lia.
Qed.

Lemma elem_of_iov_pages a v :
  iov_ok v -> (a ∈ iov_pages v <-> iov_base v <= a < iov_base v + iov_len v /\ aligned a).
Proof.
  unfold iov_ok, aligned, iov_pages, PAGE_SIZE. intros (Hb & Hl & _ & Ab & Al).
  rewrite list_elem_of_fmap. split.
  - intros (i & -> & Hi%elem_of_seq).
    assert (Z.of_nat i < iov_len v / 4096) by lia.
    Z.div_mod_to_equations; lia.
  - intros ([H1 H2] & Ha). exists (Z.to_nat ((a - iov_base v) / 4096)).
    rewrite elem_of_seq. Z.div_mod_to_equations; lia.
Qed.

(** ** Words in memory, little endian *)
Definition le_byte (v i : Z) : Z := Z.shiftr v (8 * i) mod 256.
Fixpoint le_word (n : nat) (f : Z -> Z) (off : Z) : Z :=
  match n with
  | O => 0
  | S n => f off + 256 * le_word n f (off + 1)
  end.

Lemma le_byte_ext v i : 0 <= i -> le_byte v i = v / 256 ^ i mod 256.
Proof.
  intros. unfold le_byte. rewrite Z.shiftr_div_pow2 by lia. do 2 f_equal.
  change 256 with (2 ^ 8). rewrite <-Z.pow_mul_r by lia. f_equal.
Qed.

Lemma le_word_bytes n f off v k :
  0 <= k -> (forall i, 0 <= i < Z.of_nat n -> f (off + i) = le_byte v (k + i)) ->
  le_word n f off = v / 256 ^ k mod 256 ^ Z.of_nat n.
Proof.
  revert off k. induction n as [|n IH]; intros off k Hk Hf.
  - simpl. by rewrite Z.mod_1_r.
  - cbn [le_word]. rewrite (IH (off + 1) (k + 1)).
    + specialize (Hf 0 ltac:(lia)). rewrite Z.add_0_r in Hf. rewrite Hf, le_byte_ext by lia.
      rewrite Z.add_0_r. rewrite Nat2Z.inj_succ, Z.pow_succ_r by lia.
      rewrite (Z.pow_add_r 256 k 1), <-Z.div_div by lia.
      change (256 ^ 1) with 256. rewrite (Z.rem_mul_r _ 256 (256 ^ Z.of_nat n)) by lia. done.
    + lia.
    + intros i Hi. rewrite <-Z.add_assoc, (Hf (1 + i)) by lia. f_equal. lia.
Qed.

(** ** Monadic reasoning *)
Lemma bind_Done {S A B} (m : M S A) (k : A -> M S B) s a s' :
  m s = Done (a, s') -> bind m k s = k a s'.
Proof. intros H. unfold bind. by rewrite H. Qed.

Lemma run_Done {A} (r : res A) (P : A -> Prop) :
  match r with Done a => P a | _ => False end -> exists a, r = Done a /\ P a.
Proof. destruct r; [eauto|done|done]. Qed.

Create HintDb pages.
#[export] Hint Resolve aligned_add aligned_page aligned_mul : pages.

(** [lia] with the page size in sight; [pdiv] also opens divisions and remainders *)
Ltac plia := unfold PAGE_SIZE in *; lia.
Ltac pdiv := unfold aligned, PAGE_SIZE in *; Z.div_mod_to_equations; lia.
