(* ===== verification/Ptrace.v ===== *)
(** * Words, registers and breakpoints of a traced process (src/tools)

    The tools of TransProc stop a process at a program point before CRIU dumps it.  They write trap instructions into its
    text with ptrace(2), which reads and writes words of eight bytes. *)
From S2P Require Import Prelude.

Module Ptrace.

(** ** Memory and registers *)
(** the memory of the process, a byte for every address *)
Definition memory : Type := Z -> Z.
Definition bytes_ok (m : memory) : Prop := forall a, 0 <= m a < 256.

(** PTRACE_PEEKTEXT, PTRACE_PEEKDATA and their counterparts *)
Definition peek (m : memory) (addr : Z) : Z := le_word 8 m addr.
Definition poke (m : memory) (addr data : Z) : memory := fun a => if (addr <=? a) && (a <? addr + 8) then le_byte data (a - addr) else m a.

(** the sources are compiled for either *)
Inductive arch := X86_64 | Aarch64.

(** what the tools use of [struct user_regs_struct]: rip or pc, rbp, and x[30] *)
Record user_regs := mk_regs { pc : Z; frame : Z; link : Z }.
Definition set_pc (r : user_regs) (a : Z) : user_regs := mk_regs a (frame r) (link r).

(** ** Breakpoints *)
(** the constant 0xFFFFFF00 is an [unsigned int] *)
Definition trap_word (ar : arch) (data : Z) : Z :=
  match ar with X86_64 => Z.lor (Z.land data 0xFFFFFF00) 0xCC | Aarch64 => 0xd4200000 end.

(** the word that was there, and the memory *)
Definition set_breakpoint (ar : arch) (m : memory) (addr : Z) : Z * memory :=
  let data := peek m addr in (data, poke m addr (trap_word ar data)).

(** of tracer.c *)
Definition remove_trap (ar : arch) (m : memory) (addr : Z) : memory :=
  let d := peek m addr in
  poke m addr (match ar with
               | X86_64 => Z.lor (Z.land d 0xFFFFFFFFFFFFFF00) 0x90
               | Aarch64 => Z.lor (Z.land d 0xFFFFFFFF00000000) 0xd503201f
               end).
(** of tracer.c, debugger.c and attach_pid.c; on aarch64 the latter two read and write the registers with PTRACE_GETREGSET and
    PTRACE_SETREGSET of a register set 0, which there is none of, so that neither does anything *)
Definition remove_breakpoint (ar : arch) (m : memory) (addr data : Z) (regs : user_regs) : memory * user_regs :=
  (poke m addr data, match ar with X86_64 => set_pc regs (u64 (pc regs - 1)) | Aarch64 => regs end).

(** of tracer2.c *)
Definition update_regs (ar : arch) (regs : user_regs) : user_regs :=
  match ar with X86_64 => set_pc regs (u64 (pc regs - 1)) | Aarch64 => set_pc regs (u64 (pc regs - 4)) end.

(** ** What the processor does *)
(** the instruction at [a] is int3, or brk with any immediate; it is nop *)
Definition traps (ar : arch) (m : memory) (a : Z) : bool :=
  match ar with X86_64 => m a =? 0xCC | Aarch64 => Z.land (le_word 4 m a) 0xFFE0001F =? 0xd4200000 end.
Definition is_nop (ar : arch) (m : memory) (a : Z) : bool :=
  match ar with X86_64 => m a =? 0x90 | Aarch64 => le_word 4 m a =? 0xd503201f end.
(** the program counter that is reported for a trap at [a] *)
Definition trap_pc (ar : arch) (a : Z) : Z := match ar with X86_64 => u64 (a + 1) | Aarch64 => a end.
(** how many bytes the trap of the compiler takes *)
Definition trap_len (ar : arch) : Z := match ar with X86_64 => 1 | Aarch64 => 4 end.

(** ** Words *)
Definition in_word (addr a : Z) : Prop := addr <= a < addr + 8.

Lemma poke_in m addr w a : in_word addr a -> poke m addr w a = le_byte w (a - addr).
Proof. intros [H1 H2]. unfold poke. by rewrite (proj2 (Z.leb_le _ _)), (proj2 (Z.ltb_lt _ _)). Qed.
Lemma poke_out m addr w a : ~ in_word addr a -> poke m addr w a = m a.
Proof.
  intros H. unfold poke. destruct ((addr <=? a) && (a <? addr + 8)) eqn:E; [|done].
  apply andb_true_iff in E as [?%Z.leb_le ?%Z.ltb_lt]. by destruct H.
Qed.

Lemma le_word_ext n m m' a : (forall i, 0 <= i < Z.of_nat n -> m (a + i) = m' (a + i)) -> le_word n m a = le_word n m' a.
Proof.
  revert a. induction n as [|n IH]; intros a H; [done|]. cbn [le_word]. rewrite (IH (a + 1)).
  - specialize (H 0 ltac:(lia)). rewrite Z.add_0_r in H. by rewrite H.
  - intros i Hi. rewrite <-!Z.add_assoc. apply H. lia.
Qed.

Lemma le_word_range n m a : (forall i, 0 <= i < Z.of_nat n -> 0 <= m (a + i) < 256) -> 0 <= le_word n m a < 256 ^ Z.of_nat n.
Proof.
  revert a. induction n as [|n IH]; intros a H; [done|]. cbn [le_word]. rewrite Nat2Z.inj_succ, Z.pow_succ_r by lia.
  pose proof (H 0 ltac:(lia)) as H0. rewrite Z.add_0_r in H0. specialize (IH (a + 1)).
  assert (0 <= le_word n m (a + 1) < 256 ^ Z.of_nat n) by (apply IH; intros i Hi; rewrite <-Z.add_assoc; apply H; lia). lia.
Qed.

(** the bytes of a word are those it was read from *)
Lemma le_byte_word n : forall m a i, (forall j, 0 <= j < Z.of_nat n -> 0 <= m (a + j) < 256) -> 0 <= i < Z.of_nat n -> le_byte (le_word n m a) i = m (a + i).
Proof.
  induction n as [|n IH]; intros m a i H Hi; [lia|]. cbn [le_word]. rewrite le_byte_ext by lia. pose proof (H 0 ltac:(lia)) as H0. rewrite Z.add_0_r in H0.
  destruct (decide (i = 0)) as [->|Hn].
  - rewrite Z.pow_0_r, Z.div_1_r, Z.add_0_r, Z.mul_comm, Z.mod_add by lia. apply Z.mod_small. lia.
  - replace i with (1 + (i - 1)) by lia. rewrite Z.pow_add_r, <-Z.div_div by (try apply Z.pow_pos_nonneg; lia). rewrite Z.pow_1_r.
    replace ((m a + 256 * le_word n m (a + 1)) / 256) with (le_word n m (a + 1)) by (rewrite (Z.mul_comm 256), Z.div_add, Z.div_small by lia; lia).
    rewrite <-le_byte_ext by lia. rewrite (IH m (a + 1) (i - 1)); [f_equal; lia| |lia]. intros j Hj. rewrite <-Z.add_assoc. apply H. lia.
Qed.

Lemma peek_poke m addr w : 0 <= w < 2 ^ 64 -> peek (poke m addr w) addr = w.
Proof.
  intros Hw. unfold peek. rewrite (le_word_bytes 8 _ _ w 0); [|lia|].
  - rewrite Z.pow_0_r, Z.div_1_r. apply Z.mod_small. done.
  - intros i Hi. rewrite poke_in by (unfold in_word; lia). by replace (addr + i - addr) with (0 + i) by lia.
Qed.

Lemma peek_ext m m' addr : (forall a, in_word addr a -> m a = m' a) -> peek m addr = peek m' addr.
Proof. intros H. apply le_word_ext. intros i Hi. apply H. unfold in_word. lia. Qed.

Lemma poke_peek m addr a : (forall b, in_word addr b -> 0 <= m b < 256) -> poke m addr (peek m addr) a = m a.
Proof.
  intros Hm. destruct (decide (addr <= a < addr + 8)) as [Ha|Ha]; [|by rewrite poke_out].
  rewrite poke_in by done. unfold peek. rewrite (le_byte_word 8); [f_equal; lia| |lia]. intros j Hj. apply Hm. unfold in_word. lia.
Qed.

Lemma le_byte_lor a b i : 0 <= i -> le_byte (Z.lor a b) i = Z.lor (le_byte a i) (le_byte b i).
Proof.
  intros Hi. unfold le_byte. rewrite Z.shiftr_lor. change 256 with (2 ^ 8). rewrite <-!Z.land_ones by lia. apply Z.land_lor_distr_l.
Qed.
Lemma le_byte_land a b i : 0 <= i -> le_byte (Z.land a b) i = Z.land (le_byte a i) (le_byte b i).
Proof.
  intros Hi. unfold le_byte. rewrite Z.shiftr_land. change 256 with (2 ^ 8). rewrite <-!Z.land_ones by lia.
  apply Z.bits_inj'. intros n Hn. rewrite !Z.land_spec. destruct (Z.testbit (Z.ones 8) n); [|by rewrite !andb_false_r]. by rewrite !andb_true_r.
Qed.
Lemma le_byte_range w i : 0 <= le_byte w i < 256.
Proof. unfold le_byte. apply Z.mod_pos_bound. done. Qed.

(** ** Breakpoints set and removed *)
Definition word_ok (m : memory) (addr : Z) : Prop := forall a, in_word addr a -> 0 <= m a < 256.

Lemma bytes_word_ok m addr : bytes_ok m -> word_ok m addr.
Proof. intros H a _. apply H. Qed.

Lemma word_of_bytes n m addr w : (n <= 8)%nat -> 0 <= w < 256 ^ Z.of_nat n -> le_word n (poke m addr w) addr = w.
Proof.
  intros Hn Hw. rewrite (le_word_bytes n _ _ w 0); [|lia|].
  - rewrite Z.pow_0_r, Z.div_1_r. by apply Z.mod_small.
  - intros i Hi. rewrite poke_in by (unfold in_word; lia). by replace (addr + i - addr) with (0 + i) by lia.
Qed.

Lemma le_byte_peek m addr i : word_ok m addr -> 0 <= i < 8 -> le_byte (peek m addr) i = m (addr + i).
Proof. intros Hm Hi. unfold peek. apply (le_byte_word 8); [|lia]. intros j Hj. apply Hm. unfold in_word. lia. Qed.

(** a case for each byte of a word *)
Ltac each_byte i Hi :=
  let H := fresh in assert (H : i = 0 \/ i = 1 \/ i = 2 \/ i = 3 \/ i = 4 \/ i = 5 \/ i = 6 \/ i = 7) by lia;
  clear Hi; repeat destruct H as [->|H]; try (subst i).

Lemma byte_land_255 b : 0 <= b < 256 -> Z.land b 255 = b.
Proof. intros H. change 255 with (Z.ones 8). rewrite Z.land_ones by lia. by apply Z.mod_small. Qed.

(** on x86-64 the mask also clears the upper half of the word *)
Lemma trap_word_x86 m addr i : word_ok m addr -> 0 <= i < 8 ->
  le_byte (trap_word X86_64 (peek m addr)) i = if decide (i = 0) then 0xCC else if decide (i < 4) then m (addr + i) else 0.
Proof.
  intros Hm Hi. unfold trap_word. rewrite le_byte_lor, le_byte_land, le_byte_peek by (try done; lia).
  assert (Hb : 0 <= m (addr + i) < 256) by (apply Hm; unfold in_word; lia). revert Hb. generalize (m (addr + i)). intros b Hb. each_byte i Hi;
    match goal with |- context [le_byte 0xFFFFFF00 ?i] => let x := eval vm_compute in (le_byte 0xFFFFFF00 i) in change (le_byte 0xFFFFFF00 i) with x;
      let y := eval vm_compute in (le_byte 0xCC i) in change (le_byte 0xCC i) with y end; cbn [decide]; rewrite ?Z.land_0_r, ?byte_land_255, ?Z.lor_0_r by done; done.
Qed.

Lemma set_breakpoint_out ar m addr a : ~ in_word addr a -> snd (set_breakpoint ar m addr) a = m a.
Proof. intros H. by apply poke_out. Qed.

Lemma set_breakpoint_traps ar m addr : word_ok m addr -> traps ar (snd (set_breakpoint ar m addr)) addr = true.
Proof.
  intros Hm. destruct ar; cbn [set_breakpoint snd traps].
  - rewrite poke_in by (unfold in_word; lia). rewrite Z.sub_diag, trap_word_x86 by (try done; lia). done.
  - cbn [trap_word]. rewrite word_of_bytes; [done|lia|done].
Qed.

(** writing the word back undoes whatever was done to it *)
Lemma restore_word m m' addr a : word_ok m addr -> (forall b, ~ in_word addr b -> m' b = m b) -> poke m' addr (peek m addr) a = m a.
Proof.
  intros Hm H. destruct (decide (addr <= a < addr + 8)) as [Ha|Ha]; [|by rewrite poke_out, H].
  rewrite poke_in by done. rewrite le_byte_peek by (try done; lia). f_equal. lia.
Qed.

Lemma remove_trap_out ar m addr a : word_ok m addr -> ~ (addr <= a < addr + trap_len ar) -> remove_trap ar m addr a = m a.
Proof.
  intros Hm Ha. unfold remove_trap. destruct (decide (addr <= a < addr + 8)) as [Hw|Hw]; [|by rewrite poke_out]. rewrite poke_in by done.
  assert (Hi : 0 <= a - addr < 8) by lia. assert (Hb : 0 <= m a < 256) by (by apply Hm).
  destruct ar; cbn [trap_len] in Ha; rewrite le_byte_lor, le_byte_land, le_byte_peek by (try done; lia); replace (addr + (a - addr)) with a by lia.
  - assert (Hn : 0 < a - addr) by lia. revert Hi Hn. generalize (a - addr). intros i Hi Hn. each_byte i Hi; try lia;
      match goal with |- context [le_byte 0x90 ?i] => change (le_byte 0xFFFFFFFFFFFFFF00 i) with 255; change (le_byte 0x90 i) with 0 end; by rewrite byte_land_255, Z.lor_0_r.
  - assert (Hn : 4 <= a - addr) by lia. revert Hi Hn. generalize (a - addr). intros i Hi Hn. each_byte i Hi; try lia;
      match goal with |- context [le_byte 0xd503201f ?i] => change (le_byte 0xFFFFFFFF00000000 i) with 255; change (le_byte 0xd503201f i) with 0 end; by rewrite byte_land_255, Z.lor_0_r.
Qed.

Lemma remove_trap_nop ar m addr : word_ok m addr -> is_nop ar (remove_trap ar m addr) addr = true.
Proof.
  intros Hm. assert (Hb : forall i, 0 <= i < 8 -> 0 <= le_byte (peek m addr) i < 256) by (intros; apply le_byte_range).
  destruct ar; cbn [is_nop]; unfold remove_trap.
  - rewrite poke_in by (unfold in_word; lia). rewrite Z.sub_diag, le_byte_lor, le_byte_land by lia. change (le_byte 0xFFFFFFFFFFFFFF00 0) with 0. by rewrite Z.land_0_r.
  - apply Z.eqb_eq. rewrite (le_word_bytes 4 _ _ 0xd503201f 0); [done|lia|]. intros i Hi. rewrite poke_in by (unfold in_word; lia).
    replace (addr + i - addr) with (0 + i) by lia. rewrite le_byte_lor, le_byte_land by lia. assert (Hi8 : 0 <= i < 8) by lia. each_byte i Hi8; try lia;
      match goal with |- context [le_byte 0xFFFFFFFF00000000 ?i] => change (le_byte 0xFFFFFFFF00000000 i) with 0 end; by rewrite Z.land_0_r.
Qed.
End Ptrace.
