(* ===== verification/Debugger.v ===== *)
(** * The single-threaded tools: debugger.c, attach_pid.c and tracer2.c (src/tools)

    All of them write trap instructions, let the process run into one, take the traps out again, turn the program counter
    back and leave the process stopped. *)
From Stdlib Require Import Sorted.
From S2P Require Import Prelude.
From S2P Require Import Ptrace.
Import Ptrace.Ptrace.

Module Debugger.

Record process := mk_process { p_mem : memory; p_regs : user_regs }.

Section Ops.
(** what the process is when it stops again after PTRACE_CONT *)
Variable run : process -> process.
Variable ar : arch.

(** [run_debugger], between the first stop and the SIGSTOP that ends it *)
Definition run_debugger (p : process) (addr : Z) : process :=
  let (data, m) := set_breakpoint ar (p_mem p) addr in
  let p := run (mk_process m (p_regs p)) in
  let (m, regs) := remove_breakpoint ar (p_mem p) addr data (p_regs p) in
  mk_process m regs.

(** ** tracer2.c: a breakpoint at every equivalence point *)
Fixpoint insert_all (m : memory) (addrs : list Z) : list Z * memory :=
  match addrs with
  | [] => ([], m)
  | a :: addrs => let (data, m) := set_breakpoint ar m a in let (l, m) := insert_all m addrs in (data :: l, m)
  end.

Fixpoint remove_all (m : memory) (addrs datas : list Z) : memory :=
  match addrs, datas with
  | a :: addrs, d :: datas => remove_all (poke m a d) addrs datas
  | _, _ => m
  end.

(** [main] of tracer2.c, from the first stop to the SIGSTOP *)
Definition trace_to_point (p : process) (addrs : list Z) : process :=
  let (datas, m) := insert_all (p_mem p) addrs in
  let p := run (mk_process m (p_regs p)) in
  mk_process (remove_all (p_mem p) addrs datas) (update_regs ar (p_regs p)).
End Ops.

(** ** Breakpoints at many addresses *)
Definition spaced (addrs : list Z) : Prop := ForallOrdPairs (fun a b => 8 <= Z.abs (a - b)) addrs.
Definition in_words (addrs : list Z) (x : Z) : Prop := exists a, a ∈ addrs /\ in_word a x.

Lemma in_words_cons a addrs x : in_words (a :: addrs) x <-> in_word a x \/ in_words addrs x.
Proof.
  split.
  - intros (b & [->|Hb]%elem_of_cons & H); [by left|right; by exists b].
  - intros [H|(b & Hb & H)]; [exists a; split; [left|done]|exists b; split; [by right|done]].
Qed.

Lemma spaced_out a addrs x : Forall (fun b => 8 <= Z.abs (a - b)) addrs -> in_word a x -> ~ in_words addrs x.
Proof. intros Hf Hx (b & Hb & H). rewrite list.Forall_forall in Hf. specialize (Hf b Hb). unfold in_word in *. lia. Qed.

Lemma insert_all_out ar addrs : forall m x, ~ in_words addrs x -> snd (insert_all ar m addrs) x = m x.
Proof.
  induction addrs as [|a addrs IH]; intros m x Hx; [done|]. cbn [insert_all]. destruct (set_breakpoint ar m a) as [data m1] eqn:E.
  specialize (IH m1 x). destruct (insert_all ar m1 addrs) as [l m2]. cbn [snd] in *. rewrite in_words_cons in Hx.
  rewrite IH by tauto. replace m1 with (snd (set_breakpoint ar m a)) by (by rewrite E). apply set_breakpoint_out. tauto.
Qed.

Lemma remove_all_out addrs : forall m datas x, ~ in_words addrs x -> remove_all m addrs datas x = m x.
Proof.
  induction addrs as [|a addrs IH]; intros m [|d datas] x Hx; [done..|]. cbn [remove_all]. rewrite in_words_cons in Hx.
  rewrite IH by tauto. apply poke_out. tauto.
Qed.

Lemma set_breakpoint_ok ar m a : bytes_ok m -> bytes_ok (snd (set_breakpoint ar m a)).
Proof.
  intros Hm x. destruct (decide (a <= x < a + 8)) as [Hx|Hx]; [|by rewrite set_breakpoint_out].
  cbn [set_breakpoint snd]. rewrite poke_in by done. apply le_byte_range.
Qed.

Lemma insert_all_words ar addrs : forall m m', spaced addrs -> bytes_ok m -> (forall x, in_words addrs x -> m' x = m x) ->
  fst (insert_all ar m' addrs) = fst (insert_all ar m addrs).
Proof.
  induction addrs as [|a addrs IH]; intros m m' Hs Hm Heq; [done|]. inversion_clear Hs as [|? ? Hf Hs']. cbn [insert_all].
  assert (Hp : peek m' a = peek m a) by (apply peek_ext; intros x Hx; apply Heq, in_words_cons; by left).
  cbn [set_breakpoint]. rewrite Hp. specialize (IH (poke m a (trap_word ar (peek m a))) (poke m' a (trap_word ar (peek m a))) Hs').
  destruct (insert_all ar (poke m' a _) addrs) as [l1 m1], (insert_all ar (poke m a _) addrs) as [l2 m2]. cbn [fst] in *. f_equal. apply IH.
  - apply (set_breakpoint_ok ar m a Hm).
  - intros x Hx. assert (Hn : ~ in_word a x) by (intros Ha; by apply (spaced_out a addrs x)). rewrite !poke_out by done. apply Heq, in_words_cons. by right.
Qed.

(** the traps are taken out in the order in which they were put in *)
Lemma remove_insert ar addrs : forall m m', spaced addrs -> bytes_ok m -> (forall x, ~ in_words addrs x -> m' x = m x) ->
  forall x, remove_all m' addrs (fst (insert_all ar m addrs)) x = m x.
Proof.
  induction addrs as [|a addrs IH]; intros m m' Hs Hm Heq x; [cbn; apply Heq; by intros (b & Hb%elem_of_nil & _)|].
  inversion_clear Hs as [|? ? Hf Hs']. cbn [insert_all]. cbn [set_breakpoint].
  set (m1 := poke m a (trap_word ar (peek m a))). assert (Hw : fst (insert_all ar m1 addrs) = fst (insert_all ar m addrs)).
  { apply insert_all_words; [done..|]. intros y Hy. apply poke_out. intros Ha. by apply (spaced_out a addrs y). }
  destruct (insert_all ar m1 addrs) as [l m2]. cbn [fst] in *. subst l. cbn [remove_all]. apply IH; [done..|].
  intros y Hy. destruct (decide (a <= y < a + 8)) as [Hin|Hout].
  - rewrite poke_in by done. rewrite le_byte_peek by (try (intros b _; apply Hm); lia). f_equal. lia.
  - rewrite poke_out by done. apply Heq. rewrite in_words_cons. unfold in_word in *. tauto.
Qed.

Lemma insert_all_traps ar addrs : forall m a, spaced addrs -> bytes_ok m -> a ∈ addrs -> traps ar (snd (insert_all ar m addrs)) a = true.
Proof.
  induction addrs as [|b addrs IH]; intros m a Hs Hm Ha; [by apply elem_of_nil in Ha|]. inversion_clear Hs as [|? ? Hf Hs']. cbn [insert_all].
  destruct (set_breakpoint ar m b) as [d m1] eqn:E. assert (E1 : m1 = snd (set_breakpoint ar m b)) by (by rewrite E).
  assert (Hm1 : bytes_ok m1) by (rewrite E1; by apply set_breakpoint_ok).
  specialize (IH m1). destruct (insert_all ar m1 addrs) as [l m2] eqn:E2. cbn [snd] in *. apply elem_of_cons in Ha as [->|Ha]; [|by apply IH].
  assert (Hsame : forall x, in_word b x -> m2 x = m1 x).
  { intros x Hx. pose proof (insert_all_out ar addrs m1 x) as H. rewrite E2 in H. apply H. by apply (spaced_out b). }
  pose proof (set_breakpoint_traps ar m b (bytes_word_ok m b Hm)) as Ht. rewrite <-E1 in Ht. destruct ar; cbn [traps] in *.
  - rewrite Hsame by (unfold in_word; lia). done.
  - rewrite (le_word_ext 4 m2 m1); [done|]. intros i Hi. apply Hsame. unfold in_word. lia.
Qed.

Lemma insert_all_in ar addrs : forall m a y, spaced addrs -> bytes_ok m -> a ∈ addrs -> in_word a y ->
  snd (insert_all ar m addrs) y = le_byte (trap_word ar (peek m a)) (y - a).
Proof.
  induction addrs as [|b addrs IH]; intros m a y Hs Hm Ha Hy; [by apply elem_of_nil in Ha|]. inversion_clear Hs as [|? ? Hf Hs']. cbn [insert_all].
  destruct (set_breakpoint ar m b) as [d m1] eqn:E. assert (E1 : m1 = snd (set_breakpoint ar m b)) by (by rewrite E).
  assert (Hm1 : bytes_ok m1) by (rewrite E1; by apply set_breakpoint_ok).
  pose proof (insert_all_out ar addrs m1 y) as Hout. specialize (IH m1 a y Hs' Hm1). destruct (insert_all ar m1 addrs) as [l m2]. cbn [snd] in *.
  apply elem_of_cons in Ha as [->|Ha].
  - rewrite Hout by (by apply (spaced_out b)). rewrite E1. cbn [set_breakpoint snd]. by apply poke_in.
  - rewrite IH by done. do 2 f_equal. apply peek_ext. intros x Hx. rewrite E1. apply set_breakpoint_out. intros Hbx.
    apply (spaced_out b addrs x Hf Hbx). by exists a.
Qed.

(** The text of a process: [starts] are the addresses of its instructions, [code] its bytes. *)
Record text_ok (ar : arch) (m : memory) (starts code : Z -> Prop) (addrs : list Z) : Prop := {
  tx_bytes : bytes_ok m;
  tx_addrs : forall a, a ∈ addrs -> starts a /\ 0 <= a < 2 ^ 64 - 1 /\ forall x, in_word a x -> code x;
  tx_no_trap : forall a, starts a -> traps ar m a = false;
  tx_aligned : ar = Aarch64 -> forall a, starts a -> a mod 4 = 0;
}.

(** the only traps are those that were put in *)
Lemma inserted_traps ar m starts code addrs x : text_ok ar m starts code addrs -> spaced addrs -> starts x ->
  traps ar (snd (insert_all ar m addrs)) x = true -> x ∈ addrs.
Proof.
  intros [Hm Ha Hn Hal] Hs Hx Ht. specialize (Hn x Hx).
  destruct (decide (Exists (fun a => a <= x < a + 8) addrs)) as [Hin|Hout].
  - apply list.Exists_exists in Hin as (a & Haa & Hw). destruct (decide (x = a)) as [->|Hne]; [done|]. exfalso. destruct ar; cbn [traps] in *.
    + rewrite (insert_all_in X86_64 addrs m a x) in Ht by done. rewrite trap_word_x86 in Ht by (try (intros b _; apply Hm); lia).
      rewrite decide_False in Ht by lia. replace (a + (x - a)) with x in Ht by lia. destruct (decide (x - a < 4)); [congruence|done].
    + assert (Hx4 : x = a + 4).
      { pose proof (Hal eq_refl x Hx). pose proof (Hal eq_refl a (proj1 (Ha a Haa))). Z.div_mod_to_equations. lia. }
      rewrite (le_word_bytes 4 _ _ 0xd4200000 4) in Ht; [done|lia|]. intros i Hi. rewrite (insert_all_in Aarch64 addrs m a) by (try done; unfold in_word; lia).
      cbn [trap_word]. f_equal. lia.
  - assert (Ho : forall i, 0 <= i < 4 -> ar = Aarch64 \/ i = 0 -> ~ in_words addrs (x + i)).
    { intros i Hi Hor (a & Haa & Hw). apply Hout, list.Exists_exists. exists a. split; [done|]. unfold in_word in Hw. destruct Hor as [->| ->]; [|lia].
      pose proof (Hal eq_refl x Hx). pose proof (Hal eq_refl a (proj1 (Ha a Haa))). Z.div_mod_to_equations. lia. }
    exfalso. destruct ar; cbn [traps] in *.
    + rewrite insert_all_out in Ht by (rewrite <-(Z.add_0_r x); apply Ho; [lia|by right]). congruence.
    + rewrite (le_word_ext 4 _ m) in Ht by (intros i Hi; apply insert_all_out, Ho; [lia|by left]). congruence.
Qed.

(** A process that is continued runs into a trap of its text, if it has any, and leaves its text alone. *)
Definition runs_to_trap (ar : arch) (run : process -> process) (starts code : Z -> Prop) : Prop :=
  forall p, (exists a, starts a /\ traps ar (p_mem p) a = true) ->
    exists a, starts a /\ traps ar (p_mem p) a = true /\ pc (p_regs (run p)) = trap_pc ar a /\ forall x, code x -> p_mem (run p) x = p_mem p x.

Lemma stop_at_trap ar run starts code m regs addrs : runs_to_trap ar run starts code -> text_ok ar m starts code addrs -> spaced addrs -> addrs <> [] ->
  exists a, a ∈ addrs /\ pc (p_regs (run (mk_process (snd (insert_all ar m addrs)) regs))) = trap_pc ar a /\
    forall x, code x -> p_mem (run (mk_process (snd (insert_all ar m addrs)) regs)) x = snd (insert_all ar m addrs) x.
Proof.
  intros Hrun Htx Hs Hne. destruct addrs as [|a0 addrs']; [done|]. set (addrs := a0 :: addrs') in *.
  destruct (Hrun (mk_process (snd (insert_all ar m addrs)) regs)) as (a & H1 & H2 & H3 & H4).
  { exists a0. split; [apply (tx_addrs _ _ _ _ _ Htx); left|]. apply insert_all_traps; [done|apply Htx|left]. }
  exists a. split; [|by split]. by apply (inserted_traps ar m starts code addrs a Htx).
Qed.

Lemma text_restored ar m m' starts code addrs : text_ok ar m starts code addrs -> spaced addrs -> (forall x, code x -> m' x = snd (insert_all ar m addrs) x) ->
  forall x, code x -> remove_all m' addrs (fst (insert_all ar m addrs)) x = m x.
Proof.
  intros Htx Hs Hm' x Hx. destruct (decide (Exists (fun a => a <= x < a + 8) addrs)) as [Hin|Hout].
  - apply list.Exists_exists in Hin as (a & Ha & Hw).
    set (m2 := fun y => if decide (Exists (fun a => a <= y < a + 8) addrs) then m' y else m y).
    rewrite <-(remove_insert ar addrs m m2 Hs (tx_bytes _ _ _ _ _ Htx)).
    + assert (Hg : forall l d f g, f x = g x -> remove_all f l d x = remove_all g l d x).
      { intros l. induction l as [|b l IH]; intros [|d ds] f g Hfg; [done..|]. cbn [remove_all]. apply IH. unfold poke. by rewrite Hfg. }
      apply Hg. unfold m2. rewrite decide_True; [done|]. apply list.Exists_exists. by exists a.
    + intros y Hy. unfold m2. rewrite decide_False; [done|]. intros (b & Hb & Hyb)%list.Exists_exists. apply Hy. by exists b.
  - assert (Ho : ~ in_words addrs x) by (intros (a & Ha & Hw); apply Hout, list.Exists_exists; by exists a).
    rewrite remove_all_out, Hm', insert_all_out by done. done.
Qed.

(** tracer2 leaves the process stopped at one of the equivalence points, with its text as it was, when no two points are closer
    than a word; on aarch64 the program counter is an instruction before the point. *)
Theorem trace_to_point_spec ar run starts code p addrs : runs_to_trap ar run starts code -> text_ok ar (p_mem p) starts code addrs -> spaced addrs -> addrs <> [] ->
  exists a, a ∈ addrs /\ pc (p_regs (trace_to_point run ar p addrs)) = match ar with X86_64 => a | Aarch64 => u64 (a - 4) end /\
    forall x, code x -> p_mem (trace_to_point run ar p addrs) x = p_mem p x.
Proof.
  intros Hrun Htx Hs Hne. destruct (stop_at_trap ar run starts code (p_mem p) (p_regs p) addrs Hrun Htx Hs Hne) as (a & Ha & Hpc & Hmem).
  exists a. split; [done|]. pose proof (text_restored ar (p_mem p) _ starts code addrs Htx Hs Hmem) as Hrest. unfold trace_to_point.
  destruct (insert_all ar (p_mem p) addrs) as [datas m]. cbn [fst snd p_mem p_regs] in *. split; [|done].
  destruct (tx_addrs _ _ _ _ _ Htx a Ha) as (_ & Hr & _). unfold update_regs. rewrite Hpc. destruct ar; cbn [trap_pc pc set_pc]; [|done].
  rewrite (u64_id (a + 1)) by lia. replace (a + 1 - 1) with a by lia. apply u64_id. lia.
Qed.

(** debugger leaves the process stopped at the address it was given, with its text as it was. *)
Theorem run_debugger_spec ar run starts code p addr : runs_to_trap ar run starts code -> text_ok ar (p_mem p) starts code [addr] ->
  pc (p_regs (run_debugger run ar p addr)) = addr /\
  forall x, code x -> p_mem (run_debugger run ar p addr) x = p_mem p x.
Proof.
  intros Hrun Htx. assert (Hs : spaced [addr]) by repeat constructor.
  destruct (stop_at_trap ar run starts code (p_mem p) (p_regs p) [addr] Hrun Htx Hs) as (a & Ha%list_elem_of_singleton & Hpc & Hmem); [done|].
  subst a. pose proof (text_restored ar (p_mem p) _ starts code [addr] Htx Hs Hmem) as Hrest. destruct (tx_addrs _ _ _ _ _ Htx addr) as (_ & Hr & _); [by left|].
  unfold run_debugger, remove_breakpoint. cbn [insert_all] in *. destruct (set_breakpoint ar (p_mem p) addr) as [d m]. cbn [fst snd p_mem p_regs remove_all pc set_pc] in *.
  split; [|done]. rewrite Hpc. destruct ar; cbn [trap_pc]; [|done]. rewrite (u64_id (addr + 1)) by lia. replace (addr + 1 - 1) with addr by lia. apply u64_id. lia.
Qed.

(** When tracer2 meets two equivalence points less than a word apart, the higher one first, it writes the trap of the higher one
    back with the word of the lower one: the process is dumped with a trap in its text. *)
Theorem close_points_leave_trap m m' a d : bytes_ok m -> 0 < d < 8 ->
  remove_all m' [a + d; a] (fst (insert_all X86_64 m [a + d; a])) (a + d) = 0xCC.
Proof.
  intros Hm Hd. cbn [insert_all set_breakpoint fst snd remove_all]. rewrite poke_in by (unfold in_word; lia).
  set (m1 := poke m (a + d) (trap_word X86_64 (peek m (a + d)))).
  rewrite le_byte_peek by (try (intros b _; apply (set_breakpoint_ok X86_64 m (a + d) Hm)); lia). replace (a + (a + d - a)) with (a + d) by lia.
  unfold m1. rewrite poke_in by (unfold in_word; lia). rewrite Z.sub_diag, trap_word_x86 by (try (intros b _; apply Hm); lia). done.
Qed.

(** ** A program of two instructions, of eight bytes each *)
Definition two_starts (a : Z) : Prop := a = 0x1000 \/ a = 0x1008.
Definition two_code (x : Z) : Prop := 0x1000 <= x < 0x1010.
Definition two_run (p : process) : process :=
  mk_process (p_mem p) (set_pc (p_regs p) (if p_mem p 0x1000 =? 0xCC then 0x1001 else 0x1009)).
Definition two_proc : process := mk_process (fun _ => 0x90) (mk_regs 0x2000 0 0).

Lemma two_runs : runs_to_trap X86_64 two_run two_starts two_code.
Proof.
  intros p (a & Hs & Ht). unfold two_run. cbn [traps p_mem p_regs pc set_pc] in *. destruct (p_mem p 0x1000 =? 0xCC) eqn:E.
  - exists 0x1000. by split_and!; [left|..].
  - exists 0x1008. destruct Hs as [->| ->]; [congruence|]. by split_and!; [right|..].
Qed.

Lemma two_text addrs : Forall two_starts addrs -> text_ok X86_64 (p_mem two_proc) two_starts two_code addrs.
Proof.
  intros H. rewrite list.Forall_forall in H. split; [done| |done|done].
  intros a Ha. specialize (H a Ha). unfold two_starts, two_code, in_word in *. split_and!; [done|lia..|]. intros x Hx. lia.
Qed.

Lemma trace_to_point_spec_witness : exists a, a ∈ [0x1008; 0x1000] /\ pc (p_regs (trace_to_point two_run X86_64 two_proc [0x1008; 0x1000])) = a /\
  forall x, two_code x -> p_mem (trace_to_point two_run X86_64 two_proc [0x1008; 0x1000]) x = p_mem two_proc x.
Proof.
  apply (trace_to_point_spec X86_64 two_run two_starts two_code two_proc [0x1008; 0x1000]).
  - exact two_runs.
  - apply two_text. repeat (constructor; [unfold two_starts; lia|]). constructor.
  - repeat constructor; lia.
  - done.
Defined.

Lemma run_debugger_spec_witness : pc (p_regs (run_debugger two_run X86_64 two_proc 0x1008)) = 0x1008 /\
  forall x, two_code x -> p_mem (run_debugger two_run X86_64 two_proc 0x1008) x = p_mem two_proc x.
Proof.
  apply (run_debugger_spec X86_64 two_run two_starts two_code two_proc 0x1008).
  - exact two_runs.
  - apply two_text. repeat (constructor; [unfold two_starts; lia|]). constructor.
Defined.

Lemma close_points_leave_trap_witness :
  remove_all (p_mem two_proc) [0x1003; 0x1000] (fst (insert_all X86_64 (p_mem two_proc) [0x1003; 0x1000])) 0x1003 = 0xCC.
Proof. apply (close_points_leave_trap (p_mem two_proc) (p_mem two_proc) 0x1000 3); [done|lia]. Defined.
End Debugger.
