(* ===== verification/Tracer.v ===== *)
(** * The multi-threaded tracer: tracer.c (src/tools)

    A tracer thread for every thread of the process.  The main one attaches to the process and sets the variable on which
    check_migrate of the program runs into a trap of the compiler.  When all threads of the process have stopped there, the trap is
    replaced by a nop, and the tracers take turns, under a mutex, to bring their threads to the return address of check_migrate,
    which is the migration point.  The main one then suspends the process and all of them leave. *)
From stdpp Require Import relations functions.
From S2P Require Import Prelude.
From S2P Require Import Ptrace.
Import Ptrace.Ptrace.

Module Tracer.

(** ** The state *)
(** where [trace_thread] is.  What it does with [lock] held is a single step when it does not block there. *)
Inductive point :=
  | Attach | PokeIndicator | ContFirst                             (* the main thread *)
  | Seize                                                          (* the others *)
  | WaitTrap | GetRegs
  | RemoveTrap | RestoreIndicator | SetFlag                        (* the main thread *)
  | SpinFlag | SetRegs | LockTurn | SetBreakpoint | ContTurn | WaitTurn | GetRegsTurn | RemoveBreakpoint | CountDone | SpinDone
  | SpinSuspended                                                  (* the others *)
  | Suspend | ClearFlag                                            (* the main thread *)
  | Exit.
#[export] Instance point_eq_dec : EqDecision point.
Proof. solve_decision. Defined.

(** the variables of [trace_thread] that are read in a later step: regs, brk_addr, ret_addr and data *)
Record local := mk_local { l_regs : user_regs; l_brk : Z; l_ret : Z; l_data : Z }.

(** A thread of the process.  [Returning a]: it was resumed at the nop of check_migrate, which returns to [a];
    [Stopped w r]: [w] says if waitpid has reported it. *)
Inductive tracee := InProgram (r : user_regs) | Returning (a : Z) | Stopped (waited : bool) (r : user_regs).

(** The threads are numbered, the main one is 0. *)
Record state := mk_state {
  points : nat -> point;
  locals : nat -> local;
  tracees : nat -> tracee;
  traced : nat -> bool;
  mem : memory;
  lock : option nat;
  flag : Z;
  trace_done : Z;
  suspended : bool;
  killed : bool;
}.

Definition set_point (t : nat) (p : point) (s : state) : state :=
  mk_state (<[t := p]> (points s)) (locals s) (tracees s) (traced s) (mem s) (lock s) (flag s) (trace_done s) (suspended s) (killed s).
Definition set_local (t : nat) (l : local) (s : state) : state :=
  mk_state (points s) (<[t := l]> (locals s)) (tracees s) (traced s) (mem s) (lock s) (flag s) (trace_done s) (suspended s) (killed s).
Definition set_tracee (t : nat) (c : tracee) (s : state) : state :=
  mk_state (points s) (locals s) (<[t := c]> (tracees s)) (traced s) (mem s) (lock s) (flag s) (trace_done s) (suspended s) (killed s).
Definition set_traced (t : nat) (b : bool) (s : state) : state :=
  mk_state (points s) (locals s) (tracees s) (<[t := b]> (traced s)) (mem s) (lock s) (flag s) (trace_done s) (suspended s) (killed s).
Definition set_mem (m : memory) (s : state) : state :=
  mk_state (points s) (locals s) (tracees s) (traced s) m (lock s) (flag s) (trace_done s) (suspended s) (killed s).
Definition set_lock (o : option nat) (s : state) : state :=
  mk_state (points s) (locals s) (tracees s) (traced s) (mem s) o (flag s) (trace_done s) (suspended s) (killed s).
Definition set_flag (f : Z) (s : state) : state :=
  mk_state (points s) (locals s) (tracees s) (traced s) (mem s) (lock s) f (trace_done s) (suspended s) (killed s).
Definition set_done (d : Z) (s : state) : state :=
  mk_state (points s) (locals s) (tracees s) (traced s) (mem s) (lock s) (flag s) d (suspended s) (killed s).
Definition set_suspended (s : state) : state :=
  mk_state (points s) (locals s) (tracees s) (traced s) (mem s) (lock s) (flag s) (trace_done s) true (killed s).
Definition set_killed (s : state) : state :=
  mk_state (points s) (locals s) (tracees s) (traced s) (mem s) (lock s) (flag s) (trace_done s) (suspended s) true.

(** what [main] starts [trace_thread] with: a thread whose registers are [regs t] for every [t] *)
Definition init (m : memory) (regs : nat -> user_regs) (l : local) : state :=
  mk_state (fun t => match t with O => Attach | S _ => Seize end) (fun _ => l) (fun t => InProgram (regs t)) (fun _ => false) m None 0 0 false false.

Section Steps.
Variables (ar : arch) (num_threads : nat).
(** the address of __indicator, and of the trap in check_migrate *)
Variables (indicator trap_addr : Z).
(** what no thread of the process writes *)
Variable fixed : Z -> Prop.

(** where check_migrate returns to *)
Definition return_addr (m : memory) (r : user_regs) : Z := match ar with X86_64 => peek m (u64 (frame r + 8)) | Aarch64 => link r end.

(** a thread that is continued *)
Definition resume (m : memory) (r : user_regs) : tracee :=
  if (pc r =? trap_addr) && is_nop ar m trap_addr then Returning (return_addr m r) else InProgram r.

(** ** The tracer *)
(** A tracer that exits lets its thread go; a suspended process stays stopped. *)
Definition tracer_exit (t : nat) (s : state) : state :=
  let s := set_point t Exit s in
  if traced s t then
    set_traced t false (match tracees s t with Stopped _ r => if suspended s then s else set_tracee t (resume (mem s) r) s | _ => s end)
  else s.

(** A step of [trace_thread] for thread [t]; [ok] tells if the system call that is checked succeeds, and nothing is returned by a step
    that has to wait. *)
Definition tracer_step (ok : bool) (t : nat) (s : state) : option state :=
  let l := locals s t in
  match points s t with
  | Attach =>
      match ok, tracees s t with
      | true, InProgram r => Some (set_point t PokeIndicator (set_traced t true (set_tracee t (Stopped true r) s)))
      | _, _ => Some (tracer_exit t s)
      end
  | PokeIndicator => Some (set_point t ContFirst (set_mem (poke (mem s) indicator 1) s))
  | ContFirst =>
      match ok, tracees s t with
      | true, Stopped _ r => Some (set_point t WaitTrap (set_tracee t (resume (mem s) r) s))
      | _, _ => Some (set_point t WaitTrap s)
      end
  | Seize => Some (set_point t WaitTrap (if ok then set_traced t true s else s))    (* ptrace < 0 is false for the address of a function *)
  | WaitTrap =>
      if traced s t then
        match tracees s t with
        | Stopped false r => Some (set_point t GetRegs (set_tracee t (Stopped true r) s))
        | _ => None
        end
      else Some (set_point t GetRegs s)
  | GetRegs =>
      match ok && traced s t, tracees s t with
      | true, Stopped _ r =>
          let r' := match ar with X86_64 => set_pc r (u64 (pc r - 1)) | Aarch64 => r end in
          Some (set_point t (match t with O => RemoveTrap | S _ => SpinFlag end)
                  (set_local t (mk_local r' (pc r') (return_addr (mem s) r) (l_data l)) s))
      | _, _ => Some (tracer_exit t s)
      end
  | RemoveTrap => Some (set_point t RestoreIndicator (set_mem (remove_trap ar (mem s) (l_brk l)) s))
  | RestoreIndicator =>
      if ok then Some (set_point t SetFlag (set_mem (poke (mem s) indicator (u64 (-1))) s)) else Some (tracer_exit t s)
  | SetFlag => match lock s with Some _ => None | None => Some (set_point t SpinFlag (set_flag 1 s)) end
  | SpinFlag => match lock s with Some _ => None | None => Some (if flag s =? 0 then s else set_point t SetRegs s) end
  | SetRegs =>
      match ok, tracees s t with
      | true, Stopped w _ => Some (set_point t LockTurn (set_tracee t (Stopped w (l_regs l)) s))
      | _, _ => Some (tracer_exit t s)
      end
  | LockTurn => match lock s with Some _ => None | None => Some (set_point t SetBreakpoint (set_lock (Some t) s)) end
  | SetBreakpoint =>
      let (data, m) := set_breakpoint ar (mem s) (l_ret l) in
      Some (set_point t ContTurn (set_local t (mk_local (l_regs l) (l_brk l) (l_ret l) data) (set_mem m s)))
  | ContTurn =>
      match ok, tracees s t with
      | true, Stopped _ r => Some (set_point t WaitTurn (set_tracee t (resume (mem s) r) s))
      | _, _ => Some (tracer_exit t s)                                               (* the mutex is kept *)
      end
  | WaitTurn =>
      match tracees s t with
      | Stopped false r => Some (set_point t GetRegsTurn (set_tracee t (Stopped true r) s))
      | _ => None
      end
  | GetRegsTurn =>
      match ok, tracees s t with
      | true, Stopped _ r => Some (set_point t RemoveBreakpoint (set_local t (mk_local r (l_brk l) (l_ret l) (l_data l)) s))
      | _, _ => Some (tracer_exit t (set_lock None s))
      end
  | RemoveBreakpoint =>
      let (m, r) := remove_breakpoint ar (mem s) (l_ret l) (l_data l) (l_regs l) in
      Some (set_point t CountDone (set_tracee t (match tracees s t with Stopped w _ => Stopped w r | c => c end) (set_mem m s)))
  | CountDone => Some (set_point t SpinDone (set_lock None (set_done (trace_done s + 1) s)))
  | SpinDone =>
      match lock s with
      | Some _ => None
      | None => Some (if trace_done s <? Z.of_nat num_threads then s else set_point t (match t with O => Suspend | S _ => SpinSuspended end) s)
      end
  | SpinSuspended => match lock s with Some _ => None | None => Some (if flag s =? 1 then s else tracer_exit t s) end
  | Suspend => Some (set_point t ClearFlag (set_suspended s))
  | ClearFlag => match lock s with Some _ => None | None => Some (tracer_exit t (set_flag 0 s)) end
  | Exit => None
  end.

(** ** The process *)
(** A trap stops a thread that is traced, and is fatal otherwise. *)
Definition trapped_at (t : nat) (r : user_regs) (s : state) : state :=
  if traced s t then set_tracee t (Stopped false r) s else set_killed s.

Inductive tracee_step (t : nat) (s : state) : state -> Prop :=
  | runs r r' x v : tracees s t = InProgram r -> suspended s = false -> ~ fixed x -> 0 <= v < 256 ->
      tracee_step t s (set_tracee t (InProgram r') (set_mem (fun y => if decide (y = x) then v else mem s y) s))
  | runs_into_trap r r' a : tracees s t = InProgram r -> suspended s = false -> traps ar (mem s) a = true -> pc r' = trap_pc ar a ->
      tracee_step t s (trapped_at t r' s)
  | returning a x v : tracees s t = Returning a -> suspended s = false -> ~ fixed x -> 0 <= v < 256 ->
      tracee_step t s (set_mem (fun y => if decide (y = x) then v else mem s y) s)
  | returns_to_trap a r' : tracees s t = Returning a -> suspended s = false -> traps ar (mem s) a = true -> pc r' = trap_pc ar a ->
      tracee_step t s (trapped_at t r' s)
  | returns a r' : tracees s t = Returning a -> suspended s = false -> traps ar (mem s) a = false ->
      tracee_step t s (set_tracee t (InProgram r') s).

Inductive step (s s' : state) : Prop :=
  | step_tracer ok t : (t < num_threads)%nat -> tracer_step ok t s = Some s' -> step s s'
  | step_tracee t : (t < num_threads)%nat -> tracee_step t s s' -> step s s'.
End Steps.

(** ** Counting threads *)
Fixpoint count (P : point -> bool) (n : nat) (f : nat -> point) : Z :=
  match n with O => 0 | S n => Z.b2z (P (f n)) + count P n f end.

Lemma count_above P n f t p : (n <= t)%nat -> count P n (<[t := p]> f) = count P n f.
Proof. induction n as [|n IH]; intros H; [done|]. cbn [count]. rewrite fn_lookup_insert_ne by lia. by rewrite IH by lia. Qed.
Lemma count_insert P n f t p : (t < n)%nat -> count P n (<[t := p]> f) = count P n f - Z.b2z (P (f t)) + Z.b2z (P p).
Proof.
  induction n as [|n IH]; intros H; [lia|]. cbn [count]. destruct (decide (t = n)) as [->|Hne].
  - rewrite fn_lookup_insert, count_above by lia. lia.
  - rewrite fn_lookup_insert_ne by done. rewrite IH by lia. lia.
Qed.
Lemma count_le P n f : 0 <= count P n f <= Z.of_nat n.
Proof. induction n as [|n IH]; [done|]. cbn [count]. destruct (P (f n)); cbn [Z.b2z]; lia. Qed.
Lemma count_lt P n f t : (t < n)%nat -> P (f t) = false -> count P n f < Z.of_nat n.
Proof.
  induction n as [|n IH]; intros H Hf; [lia|]. cbn [count]. pose proof (count_le P n f). destruct (decide (t = n)) as [->|Hne].
  - rewrite Hf. cbn [Z.b2z]. lia.
  - specialize (IH ltac:(lia) Hf). destruct (P (f n)); cbn [Z.b2z]; lia.
Qed.
Lemma count_zero P n f : (forall t, (t < n)%nat -> P (f t) = false) -> count P n f = 0.
Proof. induction n as [|n IH]; intros H; [done|]. cbn [count]. rewrite H, IH by (try intros; try apply H; lia). done. Qed.

(** ** What depends only on some words *)
Lemma traps_ext ar m m' a : (forall x, in_word a x -> m x = m' x) -> traps ar m a = traps ar m' a.
Proof.
  intros H. destruct ar; cbn [traps]; [rewrite H; [done|unfold in_word; lia]|].
  rewrite (le_word_ext 4 m m'); [done|]. intros i Hi. apply H. unfold in_word. lia.
Qed.
Lemma is_nop_ext ar m m' a : (forall x, in_word a x -> m x = m' x) -> is_nop ar m a = is_nop ar m' a.
Proof.
  intros H. destruct ar; cbn [is_nop]; [rewrite H; [done|unfold in_word; lia]|].
  rewrite (le_word_ext 4 m m'); [done|]. intros i Hi. apply H. unfold in_word. lia.
Qed.
Lemma poke_ext m m' a w x : m x = m' x -> poke m a w x = poke m' a w x.
Proof. intros H. unfold poke. by destruct (_ && _). Qed.
Lemma remove_trap_ext ar m m' a x : (forall y, in_word a y -> m y = m' y) -> m x = m' x -> remove_trap ar m a x = remove_trap ar m' a x.
Proof. intros Hw Hx. unfold remove_trap. rewrite (peek_ext m m') by done. by apply poke_ext. Qed.
Lemma set_breakpoint_ext ar m m' a x : (forall y, in_word a y -> m y = m' y) -> m x = m' x ->
  snd (set_breakpoint ar m a) x = snd (set_breakpoint ar m' a) x.
Proof. intros Hw Hx. cbn [set_breakpoint snd]. rewrite (peek_ext m m') by done. by apply poke_ext. Qed.
Lemma poke_ok m a w : bytes_ok m -> bytes_ok (poke m a w).
Proof. intros H x. destruct (decide (a <= x < a + 8)) as [Hx|Hx]; [rewrite poke_in by done; apply le_byte_range|by rewrite poke_out]. Qed.

(** ** The threads have all trapped *)
Section Safety.
Variables (ar : arch) (n : nat) (indicator trap_addr : Z).
Variable fixed : Z -> Prop.
(** the memory and the registers of the threads at the traps *)
Variables (m0 : memory) (R : nat -> user_regs).

Definition ret (t : nat) : Z := return_addr ar m0 (R t).
Definition slot (t : nat) : Z := u64 (frame (R t) + 8).
(** no word of these overlaps another *)
Definition apart (a b : Z) : Prop := 8 <= Z.abs (a - b).

(** What the tracer relies on: every thread stopped at the trap of check_migrate, the words that it reads and writes are not written by the
    program meanwhile, and they do not overlap. *)
Record layout : Prop := {
  ly_threads : (0 < n)%nat;
  ly_bytes : bytes_ok m0;
  ly_trap : 0 <= trap_addr < 2 ^ 64 - 1;
  ly_pc : forall t, (t < n)%nat -> pc (R t) = trap_pc ar trap_addr;
  ly_ret : forall t, (t < n)%nat -> 0 <= ret t < 2 ^ 64 - 1;
  ly_fixed_trap : forall x, in_word trap_addr x -> fixed x;
  ly_fixed_indicator : forall x, in_word indicator x -> fixed x;
  ly_fixed_ret : forall t x, (t < n)%nat -> in_word (ret t) x -> fixed x;
  ly_indicator_trap : apart indicator trap_addr;
  ly_ret_trap : forall t, (t < n)%nat -> apart (ret t) trap_addr;
  ly_ret_indicator : forall t, (t < n)%nat -> apart (ret t) indicator;
  ly_slot : ar = X86_64 -> forall t, (t < n)%nat -> (forall x, in_word (slot t) x -> fixed x) /\
    apart (slot t) trap_addr /\ apart (slot t) indicator /\ forall u, (u < n)%nat -> apart (slot t) (ret u);
}.

Record trapped (s : state) : Prop := {
  tr_points : forall t, (t < n)%nat -> points s t = WaitTrap;
  tr_tracees : forall t, (t < n)%nat -> tracees s t = Stopped false (R t);
  tr_traced : forall t, (t < n)%nat -> traced s t = true;
  tr_mem : forall x, fixed x -> mem s x = m0 x;
  tr_rest : lock s = None /\ flag s = 0 /\ trace_done s = 0 /\ suspended s = false /\ killed s = false;
}.

(** ** The memory at every point *)
Definition untrapped : memory := remove_trap ar m0 trap_addr.
Definition restored : memory := poke untrapped indicator (u64 (-1)).
Definition base (p : point) : memory :=
  match p with WaitTrap | GetRegs | RemoveTrap => m0 | RestoreIndicator => untrapped | _ => restored end.
Definition has_break (p : point) : bool := match p with ContTurn | WaitTurn | GetRegsTurn | RemoveBreakpoint => true | _ => false end.
Definition expected (o : option nat) (f : nat -> point) : memory :=
  match o with
  | Some t => if has_break (f t) then snd (set_breakpoint ar (base (f O)) (ret t)) else base (f O)
  | None => base (f O)
  end.

Section Memory.
Context (Hly : layout).

Lemma word_apart a b x : apart a b -> in_word a x -> ~ in_word b x.
Proof using. unfold apart, in_word. lia. Qed.

Lemma untrapped_ok : bytes_ok untrapped.
Proof using Hly. unfold untrapped, remove_trap. apply poke_ok, Hly. Qed.
Lemma restored_ok : bytes_ok restored.
Proof using Hly. unfold restored. apply poke_ok, untrapped_ok. Qed.

Lemma untrapped_out x : ~ in_word trap_addr x -> untrapped x = m0 x.
Proof using Hly.
  intros H. unfold untrapped. apply remove_trap_out; [apply bytes_word_ok, Hly|]. unfold in_word in H. destruct ar; cbn [trap_len]; lia.
Qed.
Lemma base_out p x : ~ in_word trap_addr x -> ~ in_word indicator x -> base p x = m0 x.
Proof using Hly. intros H1 H2. destruct p; cbn [base]; try done; unfold restored; rewrite ?poke_out by done; by apply untrapped_out. Qed.

(** the words from which the tracer takes the migration points *)
Lemma expected_slot o f t x : (forall u, o = Some u -> (u < n)%nat) -> ar = X86_64 -> (t < n)%nat -> in_word (slot t) x -> expected o f x = m0 x.
Proof using Hly.
  intros Ho Har Ht Hx. destruct (ly_slot Hly Har t Ht) as (_ & H1 & H2 & H3).
  assert (Hb : forall p, base p x = m0 x) by (intros p; apply base_out; by eapply word_apart).
  unfold expected. destruct o as [u|]; [|done]. destruct (has_break _); [|done]. rewrite set_breakpoint_out; [done|].
  by apply (word_apart (slot t)); [apply H3, Ho|].
Qed.
Lemma expected_return o f t r m : (forall u, o = Some u -> (u < n)%nat) -> (forall x, fixed x -> m x = expected o f x) -> (t < n)%nat ->
  frame r = frame (R t) -> link r = link (R t) -> return_addr ar m r = ret t.
Proof using Hly.
  intros Ho Hm Ht Hf Hl. unfold ret, return_addr. destruct ar eqn:Har; [|done]. rewrite Hf. apply peek_ext. intros x Hx.
  destruct (ly_slot Hly Har t Ht) as (Hfix & _). rewrite Hm by (by apply Hfix). by apply (expected_slot o f t).
Qed.

(** the nop is there when a thread is taken to its migration point, and so is the breakpoint *)
Lemma restored_nop m t : (t < n)%nat -> (forall x, fixed x -> m x = snd (set_breakpoint ar restored (ret t)) x) -> is_nop ar m trap_addr = true.
Proof using Hly.
  intros Ht Hm. rewrite (is_nop_ext ar m untrapped); [apply remove_trap_nop, bytes_word_ok, Hly|]. intros x Hx.
  rewrite Hm by (by apply Hly). pose proof (ly_ret_trap Hly t Ht). pose proof (ly_indicator_trap Hly). unfold apart, in_word in *.
  rewrite set_breakpoint_out by (unfold in_word; lia). unfold restored. apply poke_out. unfold in_word. lia.
Qed.
Lemma restored_break m t : (t < n)%nat -> (forall x, fixed x -> m x = snd (set_breakpoint ar restored (ret t)) x) -> traps ar m (ret t) = true.
Proof using Hly.
  intros Ht Hm. rewrite (traps_ext ar m (snd (set_breakpoint ar restored (ret t)))); [apply set_breakpoint_traps, bytes_word_ok, restored_ok|].
  intros x Hx. apply Hm. by apply (ly_fixed_ret Hly t).
Qed.
End Memory.

(** ** The invariant *)
Definition holds (p : point) : bool :=
  match p with SetBreakpoint | ContTurn | WaitTurn | GetRegsTurn | RemoveBreakpoint | CountDone => true | _ => false end.
Definition counted (p : point) : bool := match p with SpinDone | SpinSuspended | Suspend | ClearFlag | Exit => true | _ => false end.
Definition ended (p : point) : bool := match p with SpinSuspended | Suspend | ClearFlag | Exit => true | _ => false end.
(** of the main thread: the flag has been set *)
Definition started (p : point) : bool :=
  match p with Attach | PokeIndicator | ContFirst | Seize | WaitTrap | GetRegs | RemoveTrap | RestoreIndicator | SetFlag => false | _ => true end.
(** it has seen the flag *)
Definition released (p : point) : bool := started p && negb (bool_decide (p = SpinFlag)).
Definition role (t : nat) (p : point) : Prop :=
  match p with
  | RemoveTrap | RestoreIndicator | SetFlag | Suspend | ClearFlag => t = O
  | SpinSuspended => t <> O
  | _ => True
  end.

(** thread [t] of the process, and what its tracer knows of it *)
Definition local_ok (t : nat) (p : point) (l : local) (c : tracee) : Prop :=
  match p with
  | WaitTrap => c = Stopped false (R t)
  | GetRegs => c = Stopped true (R t)
  | RemoveTrap | RestoreIndicator | SetFlag | SpinFlag | SetRegs =>
      c = Stopped true (R t) /\ l_regs l = set_pc (R t) trap_addr /\ l_brk l = trap_addr /\ l_ret l = ret t
  | LockTurn | SetBreakpoint => c = Stopped true (set_pc (R t) trap_addr) /\ l_ret l = ret t
  | ContTurn => c = Stopped true (set_pc (R t) trap_addr) /\ l_ret l = ret t /\ l_data l = peek restored (ret t)
  | WaitTurn =>
      (c = Returning (ret t) \/ exists r, c = Stopped false r /\ pc r = trap_pc ar (ret t)) /\ l_ret l = ret t /\ l_data l = peek restored (ret t)
  | GetRegsTurn => (exists r, c = Stopped true r /\ pc r = trap_pc ar (ret t)) /\ l_ret l = ret t /\ l_data l = peek restored (ret t)
  | RemoveBreakpoint =>
      (exists r, c = Stopped true r /\ l_regs l = r /\ pc r = trap_pc ar (ret t)) /\ l_ret l = ret t /\ l_data l = peek restored (ret t)
  | CountDone | SpinDone | SpinSuspended | Suspend | ClearFlag | Exit => exists w r, c = Stopped w r /\ pc r = ret t
  | Attach | PokeIndicator | ContFirst | Seize => False
  end.

Record inv (s : state) : Prop := {
  iv_local : forall t, (t < n)%nat -> local_ok t (points s t) (locals s t) (tracees s t);
  iv_role : forall t, (t < n)%nat -> role t (points s t);
  iv_released : forall t, (t < n)%nat -> released (points s t) = true -> started (points s O) = true;
  iv_traced : forall t, (t < n)%nat -> points s t <> Exit -> traced s t = true;
  iv_mem : forall x, fixed x -> mem s x = expected (lock s) (points s) x;
  iv_lock : forall t, (t < n)%nat -> lock s = Some t <-> holds (points s t) = true;
  iv_owner : forall t, lock s = Some t -> (t < n)%nat;
  iv_flag : flag s = if started (points s O) && negb (bool_decide (points s O = Exit)) then 1 else 0;
  iv_done : trace_done s = count counted n (points s);
  iv_ended : forall t, (t < n)%nat -> ended (points s t) = true -> trace_done s = Z.of_nat n;
  iv_suspended : suspended s = bool_decide (points s O = ClearFlag \/ points s O = Exit);
  iv_exit : forall t, (t < n)%nat -> points s t = Exit -> points s O = Exit;
  iv_alive : killed s = false;
}.

(** A tracer has failed before its thread was brought to its migration point: it will not be counted. *)
Record failed (s : state) : Prop := {
  fl_done : trace_done s < count counted n (points s);
  fl_point : forall t, (t < n)%nat -> points s t <> Suspend;
  fl_suspended : suspended s = false;
}.

(** ** A tracer moves *)
Lemma expected_same o f t p' : (t = O -> base p' = base (f O)) -> (o = Some t -> has_break p' = has_break (f t)) ->
  expected o (<[t := p']> f) = expected o f.
Proof using.
  intros Hb Hk. assert (HO : base (<[t := p']> f O) = base (f O)).
  { destruct (decide (t = O)) as [->|Hne]; [rewrite fn_lookup_insert; auto|by rewrite fn_lookup_insert_ne]. }
  unfold expected. rewrite HO. destruct o as [u|]; [|done]. destruct (decide (t = u)) as [->|Hne]; [rewrite fn_lookup_insert, Hk by done; done|].
  by rewrite fn_lookup_insert_ne.
Qed.

Record moves (s s' : state) (t : nat) (p p' : point) : Prop := {
  mv_points : points s' = <[t := p']> (points s);
  mv_others : forall u, u <> t -> locals s' u = locals s u /\ tracees s' u = tracees s u;
  mv_traced : traced s' = traced s;
  mv_killed : killed s' = killed s;
  mv_local : local_ok t p' (locals s' t) (tracees s' t);
  mv_role : role t p';
  mv_started : t = O -> started p = true -> started p' = true;
  mv_released : released p' = true -> started (if decide (t = O) then p' else points s O) = true;
  mv_mem : forall x, fixed x -> mem s' x = expected (lock s') (points s') x;
  mv_lock : if holds p then (if holds p' then lock s' = lock s else lock s' = None)
            else if holds p' then lock s = None /\ lock s' = Some t else lock s' = lock s;
  mv_flag : flag s' = if started (points s' O) && negb (bool_decide (points s' O = Exit)) then 1 else 0;
  mv_done : trace_done s' = trace_done s - Z.b2z (counted p) + Z.b2z (counted p');
  mv_counted : counted p = true -> counted p' = true;
  mv_ended : ended p' = true -> trace_done s' = Z.of_nat n;
  mv_suspended : suspended s' = bool_decide (points s' O = ClearFlag \/ points s' O = Exit);
}.

Lemma inv_moves s s' t p p' : inv s -> (t < n)%nat -> points s t = p -> p <> Exit -> p' <> Exit -> moves s s' t p p' -> inv s'.
Proof using.
  intros Hi Ht Hp HpE HpE' [Hpts Hoth Htr Hk Hloc Hrole Hst Hrel Hmem Hlk Hfl Hd Hc He Hsu].
  assert (HO : points s' O = if decide (t = O) then p' else points s O).
  { rewrite Hpts. destruct (decide (t = O)) as [->|Hne]; [by rewrite fn_lookup_insert|by rewrite fn_lookup_insert_ne]. }
  assert (Hlt : forall u, (u < n)%nat -> u <> t -> points s' u = points s u) by (intros u _ Hu; rewrite Hpts; by apply fn_lookup_insert_ne).
  assert (Hpt : points s' t = p') by (rewrite Hpts; apply fn_lookup_insert).
  split; try done.
  - intros u Hu. destruct (decide (u = t)) as [->|Hne]; [by rewrite Hpt|]. destruct (Hoth u Hne) as [-> ->]. rewrite Hlt by done. by apply Hi.
  - intros u Hu. destruct (decide (u = t)) as [->|Hne]; [by rewrite Hpt|]. rewrite Hlt by done. by apply Hi.
  - intros u Hu Hr. rewrite HO. destruct (decide (u = t)) as [->|Hne]; [rewrite Hpt in Hr; by apply Hrel|]. rewrite Hlt in Hr by done.
    pose proof (iv_released s Hi u Hu Hr) as Hs. destruct (decide (t = O)) as [->|]; [|done]. apply Hst; [done|]. by rewrite <-Hp.
  - intros u Hu Hne. rewrite Htr. destruct (decide (u = t)) as [->|Hut]; [apply Hi; congruence|]. apply Hi; [done|]. by rewrite <-Hlt.
  - intros u Hu. pose proof (iv_lock s Hi u Hu) as Hlu. pose proof (iv_lock s Hi t Ht) as Hlt'. rewrite Hp in Hlt'.
    destruct (decide (u = t)) as [->|Hne]; [rewrite Hpt|rewrite Hlt by done]; destruct (holds p), (holds p'); naive_solver congruence.
  - intros u Hu. destruct (holds p), (holds p'); [rewrite Hlk in Hu; by eapply iv_owner|congruence|destruct Hlk; congruence|rewrite Hlk in Hu; by eapply iv_owner].
  - rewrite Hd, (iv_done s Hi), Hpts, count_insert by done. by rewrite Hp.
  - intros u Hu Hen. destruct (decide (u = t)) as [->|Hne]; [rewrite Hpt in Hen; auto|]. rewrite Hlt in Hen by done.
    pose proof (iv_ended s Hi u Hu Hen) as Hdn. destruct (counted p) eqn:Hcp; [rewrite Hd, Hc by done; cbn; lia|].
    pose proof (count_lt counted n (points s) t Ht). rewrite Hp, <-(iv_done s Hi) in H. specialize (H Hcp). lia.
  - intros u Hu HuE. destruct (decide (u = t)) as [->|Hne]; [congruence|]. rewrite Hlt in HuE by done. pose proof (iv_exit s Hi u Hu HuE) as HE.
    rewrite HO. destruct (decide (t = O)) as [->|]; [congruence|done].
  - rewrite Hk. by apply Hi.
Qed.

(** a step that touches only the tracer's own variables and its thread *)
Record quiet (s s' : state) (t : nat) (p p' : point) : Prop := {
  qu_points : points s' = <[t := p']> (points s);
  qu_others : forall u, u <> t -> locals s' u = locals s u /\ tracees s' u = tracees s u;
  qu_same : traced s' = traced s /\ mem s' = mem s /\ lock s' = lock s /\ flag s' = flag s /\ trace_done s' = trace_done s /\
    suspended s' = suspended s /\ killed s' = killed s;
  qu_class : holds p' = holds p /\ has_break p' = has_break p /\ counted p' = counted p;
  qu_main : t = O -> base p' = base p /\ started p' = started p /\ p <> ClearFlag /\ p' <> ClearFlag /\ p <> Exit /\ p' <> Exit;
}.

Lemma quiet_moves s s' t p p' : inv s -> (t < n)%nat -> points s t = p -> quiet s s' t p p' -> role t p' ->
  local_ok t p' (locals s' t) (tracees s' t) -> (released p' = true -> started (points s O) = true) ->
  (ended p' = true -> trace_done s = Z.of_nat n) -> moves s s' t p p'.
Proof using.
  intros Hi Ht Hp [Hpts Hoth (Htr & Hm & Hl & Hf & Hd & Hsu & Hk) (Hh & Hb & Hc) Hmain] Hr Hloc Hrel Hen.
  assert (HO : t <> O \/ t = O) by lia.
  assert (Hpt : t <> O -> points s' O = points s O) by (intros H; rewrite Hpts; by apply fn_lookup_insert_ne).
  assert (HpO : t = O -> points s' O = p') by (intros H; rewrite Hpts, H; apply fn_lookup_insert).
  split; try done.
  - intros H0 H1. by destruct (Hmain H0) as (_ & -> & _).
  - intros H1. destruct (decide (t = O)) as [E|E]; [|auto]. destruct (Hmain E) as (_ & -> & _). specialize (Hrel H1). by rewrite <-Hp, E.
  - intros x Hx. rewrite Hm, Hl, Hpts, expected_same; [by apply Hi| |by rewrite Hp].
    intros E. destruct (Hmain E) as (-> & _). by rewrite <-Hp, E.
  - rewrite Hh. destruct (holds p); done.
  - rewrite Hf, (iv_flag s Hi). destruct HO as [H|H]; [by rewrite Hpt|]. rewrite HpO by done. destruct (Hmain H) as (_ & -> & _ & _ & HE & HE').
    rewrite <-Hp, H in HE |- *. by rewrite !bool_decide_eq_false_2.
  - rewrite Hd, Hc. lia.
  - by rewrite Hc.
  - by rewrite Hd.
  - rewrite Hsu, (iv_suspended s Hi). destruct HO as [H|H]; [by rewrite Hpt|]. rewrite HpO by done. destruct (Hmain H) as (_ & _ & H1 & H2 & H3 & H4).
    rewrite <-Hp, H in H1, H3. rewrite !bool_decide_eq_false_2; naive_solver.
Qed.

Lemma inv_quiet s s' t p p' : inv s -> (t < n)%nat -> points s t = p -> p <> Exit -> p' <> Exit -> quiet s s' t p p' -> role t p' ->
  local_ok t p' (locals s' t) (tracees s' t) -> (released p' = true -> started (points s O) = true) ->
  (ended p' = true -> trace_done s = Z.of_nat n) -> inv s'.
Proof using. intros. eapply (inv_moves s s' t p p'); try done. by eapply quiet_moves. Qed.

(** a tracer that has not been released leaves no breakpoint: before the flag is set there is none *)
Lemma not_started_free s : inv s -> started (points s O) = false -> lock s = None.
Proof using.
  intros Hi Hs. destruct (lock s) as [t|] eqn:Hl; [|done]. pose proof (iv_owner s Hi t Hl) as Ht.
  pose proof (proj1 (iv_lock s Hi t Ht) Hl) as Hh. assert (released (points s t) = true) by (by destruct (points s t)).
  pose proof (iv_released s Hi t Ht H). congruence.
Qed.
Lemma holder s t : inv s -> (t < n)%nat -> holds (points s t) = true -> lock s = Some t.
Proof using. intros Hi Ht. by apply Hi. Qed.
Lemma released_base s t : inv s -> (t < n)%nat -> released (points s t) = true -> base (points s O) = restored.
Proof using. intros Hi Ht Hr. pose proof (iv_released s Hi t Ht Hr). by destruct (points s O). Qed.
Lemma main_point s : inv s -> (0 < n)%nat -> points s O <> Attach /\ points s O <> PokeIndicator /\ points s O <> ContFirst /\ points s O <> Seize.
Proof using. intros Hi Hn. pose proof (iv_local s Hi O Hn) as H. destruct (points s O); done. Qed.

(** ** Every step of a tracer *)
Section Step.
Context (Hly : layout).

Ltac others := intros u Hu; cbn; rewrite ?fn_lookup_insert_ne by done; done.
Ltac quiet_step p p' :=
  match goal with
  | Hi : inv ?s, Ht : (?t < n)%nat, Hp : points ?s ?t = _ |- inv ?s' =>
      apply (inv_quiet s s' t p p' Hi Ht Hp); [done|done|split; [done|others|done|done|try done]|try done| | |]; cbn -[peek]; rewrite ?fn_lookup_insert; try done
  end.

Lemma trapped_regs t : (t < n)%nat -> match ar with X86_64 => set_pc (R t) (u64 (pc (R t) - 1)) | Aarch64 => R t end = set_pc (R t) trap_addr.
Proof using Hly.
  intros Ht. pose proof (ly_trap Hly) as Hr. pose proof (ly_pc Hly t Ht) as Hpc. destruct ar; cbn [trap_pc] in Hpc.
  - rewrite Hpc, (u64_id (trap_addr + 1)) by lia. replace (trap_addr + 1 - 1) with trap_addr by lia. by rewrite u64_id by lia.
  - destruct (R t) as [a f l]. cbn in Hpc. by subst a.
Qed.

Lemma step_get_regs ok t s s' : inv s -> (t < n)%nat -> points s t = GetRegs -> tracer_step ar n indicator trap_addr ok t s = Some s' ->
  inv s' \/ ok = false /\ s' = tracer_exit ar trap_addr t s.
Proof using Hly.
  intros Hi Ht Hp Hs. pose proof (iv_local s Hi t Ht) as Hloc. unfold tracer_step in Hs. rewrite Hp in *. cbn in Hloc. rewrite Hloc in Hs.
  rewrite (iv_traced s Hi t Ht) in Hs by (by rewrite Hp). destruct ok; cbn [andb] in Hs; [|right; split; [done|]; congruence]. injection Hs as <-. left.
  assert (Hret : return_addr ar (mem s) (R t) = ret t).
  { apply (expected_return Hly (lock s) (points s) t); [apply Hi|apply Hi|done..]. }
  rewrite trapped_regs, Hret by done. destruct t as [|t]; [quiet_step GetRegs RemoveTrap|quiet_step GetRegs SpinFlag].
Qed.

Lemma step_remove_trap ok s s' : inv s -> points s O = RemoveTrap -> tracer_step ar n indicator trap_addr ok O s = Some s' -> inv s'.
Proof using Hly.
  intros Hi Hp Hs. pose proof (ly_threads Hly) as Hn. pose proof (iv_local s Hi O Hn) as Hloc. unfold tracer_step in Hs. rewrite Hp in *. injection Hs as <-.
  destruct Hloc as (Hc & Hl & Hb & Hret). assert (Hfree : lock s = None) by (apply not_started_free; [done|by rewrite Hp]).
  apply (inv_moves s _ O RemoveTrap RestoreIndicator Hi Hn Hp); [done..|]. split; cbn; rewrite ?fn_lookup_insert; try done.
  - intros x Hx. rewrite Hfree. cbn. rewrite fn_lookup_insert. cbn. unfold untrapped. rewrite Hb.
    assert (Hm : forall y, fixed y -> mem s y = m0 y) by (intros y Hy; rewrite (iv_mem s Hi y Hy), Hfree; cbn; by rewrite Hp).
    apply remove_trap_ext; [|by apply Hm]. intros y Hy. by apply Hm, Hly.
  - rewrite (iv_flag s Hi), Hp. done.
  - rewrite (iv_done s Hi). lia.
  - rewrite (iv_suspended s Hi), Hp. by rewrite !bool_decide_eq_false_2 by naive_solver.
Qed.

Lemma step_restore_indicator s s' : inv s -> points s O = RestoreIndicator -> tracer_step ar n indicator trap_addr true O s = Some s' -> inv s'.
Proof using Hly.
  intros Hi Hp Hs. pose proof (ly_threads Hly) as Hn. pose proof (iv_local s Hi O Hn) as Hloc. unfold tracer_step in Hs. rewrite Hp in *. injection Hs as <-.
  assert (Hfree : lock s = None) by (apply not_started_free; [done|by rewrite Hp]).
  apply (inv_moves s _ O RestoreIndicator SetFlag Hi Hn Hp); [done..|]. split; cbn; rewrite ?fn_lookup_insert; try done.
  - intros x Hx. rewrite Hfree. cbn. rewrite fn_lookup_insert. cbn. unfold restored. apply poke_ext. rewrite (iv_mem s Hi x Hx), Hfree. cbn. by rewrite Hp.
  - rewrite (iv_flag s Hi), Hp. done.
  - rewrite (iv_done s Hi). lia.
  - rewrite (iv_suspended s Hi), Hp. by rewrite !bool_decide_eq_false_2 by naive_solver.
Qed.

Lemma step_set_flag ok s s' : inv s -> points s O = SetFlag -> tracer_step ar n indicator trap_addr ok O s = Some s' -> inv s'.
Proof using Hly.
  intros Hi Hp Hs. pose proof (ly_threads Hly) as Hn. pose proof (iv_local s Hi O Hn) as Hloc. unfold tracer_step in Hs. rewrite Hp in *.
  destruct (lock s) eqn:Hfree; [done|]. injection Hs as <-.
  apply (inv_moves s _ O SetFlag SpinFlag Hi Hn Hp); [done..|]. split; cbn; rewrite ?fn_lookup_insert; try done.
  - intros x Hx. rewrite Hfree. cbn. rewrite fn_lookup_insert, (iv_mem s Hi x Hx), Hfree. cbn. by rewrite Hp.
  - rewrite (iv_done s Hi). lia.
  - rewrite (iv_suspended s Hi), Hp. by rewrite !bool_decide_eq_false_2 by naive_solver.
Qed.

(** a thread that has been released works on the memory without the trap *)
Lemma turn_same s t p' : inv s -> (t < n)%nat -> released (points s t) = true -> released p' = true -> points s t <> ClearFlag -> points s t <> Exit ->
  p' <> Exit -> p' <> ClearFlag ->
  base (<[t := p']> (points s) O) = restored /\ started (if decide (t = O) then p' else points s O) = true /\
  started (<[t := p']> (points s) O) && negb (bool_decide (<[t := p']> (points s) O = Exit)) = started (points s O) && negb (bool_decide (points s O = Exit)) /\
  bool_decide (<[t := p']> (points s) O = ClearFlag \/ <[t := p']> (points s) O = Exit) = suspended s.
Proof using Hly.
  intros Hi Ht Hr Hr' H1 H2 H3 H4. pose proof (released_base s t Hi Ht Hr) as Hb. pose proof (iv_released s Hi t Ht Hr) as Hst.
  rewrite (iv_suspended s Hi). assert (Hst' : started p' = true) by (by destruct p'). destruct (decide (t = O)) as [->|Hne].
  - rewrite fn_lookup_insert, Hst, Hst'. split_and!; [by destruct p'|done|by rewrite !bool_decide_eq_false_2|].
    rewrite !bool_decide_eq_false_2; naive_solver.
  - by rewrite fn_lookup_insert_ne by done.
Qed.

Lemma step_lock_turn ok t s s' : inv s -> (t < n)%nat -> points s t = LockTurn -> tracer_step ar n indicator trap_addr ok t s = Some s' -> inv s'.
Proof using Hly.
  intros Hi Ht Hp Hs. pose proof (iv_local s Hi t Ht) as Hloc. unfold tracer_step in Hs. rewrite Hp in *.
  destruct (lock s) eqn:Hfree; [done|]. injection Hs as <-.
  destruct (turn_same s t SetBreakpoint Hi Ht) as (H1 & H2 & H3 & H4); [by rewrite Hp|done|by rewrite Hp..|done|done|].
  apply (inv_moves s _ t LockTurn SetBreakpoint Hi Ht Hp); [done..|]. split; cbn; rewrite ?fn_lookup_insert; try done.
  - intros x Hx. rewrite H1, (iv_mem s Hi x Hx), Hfree. cbn. by rewrite (released_base s t) by (rewrite ?Hp; done).
  - by rewrite H3, (iv_flag s Hi).
  - rewrite (iv_done s Hi). lia.
Qed.

Lemma turn_memory s t : inv s -> (t < n)%nat -> holds (points s t) = true ->
  forall x, fixed x -> mem s x = if has_break (points s t) then snd (set_breakpoint ar restored (ret t)) x else restored x.
Proof using Hly.
  intros Hi Ht Hh x Hx. assert (Hr : released (points s t) = true) by (by destruct (points s t)).
  rewrite (iv_mem s Hi x Hx), (holder s t) by done. cbn [expected]. rewrite (released_base s t) by done. by destruct (has_break _).
Qed.

Lemma step_set_breakpoint ok t s s' : inv s -> (t < n)%nat -> points s t = SetBreakpoint -> tracer_step ar n indicator trap_addr ok t s = Some s' -> inv s'.
Proof using Hly.
  intros Hi Ht Hp Hs. pose proof (iv_local s Hi t Ht) as Hloc. unfold tracer_step in Hs.
  assert (Hh : holds (points s t) = true) by (by rewrite Hp). pose proof (turn_memory s t Hi Ht Hh) as Hm. rewrite Hp in *. cbn in Hm.
  destruct Hloc as [Hc Hret]. injection Hs as <-. rewrite Hret in *.
  destruct (turn_same s t ContTurn Hi Ht) as (H1 & H2 & H3 & H4); [by rewrite Hp|done|by rewrite Hp..|done|done|].
  assert (Hw : peek (mem s) (ret t) = peek restored (ret t)) by (apply peek_ext; intros y Hy; by apply Hm, (ly_fixed_ret Hly t)).
  apply (inv_moves s _ t SetBreakpoint ContTurn Hi Ht Hp); [done..|]. split; cbn -[peek]; rewrite ?fn_lookup_insert; try done.
  - others.
  - intros x Hx. rewrite (holder s t) by (rewrite ?Hp; done). cbn -[peek]. rewrite fn_lookup_insert. cbn -[peek]. rewrite H1, Hw. apply poke_ext. by apply Hm.
  - by rewrite H3, (iv_flag s Hi).
  - rewrite (iv_done s Hi). lia.
Qed.

Lemma step_remove_breakpoint ok t s s' : inv s -> (t < n)%nat -> points s t = RemoveBreakpoint -> tracer_step ar n indicator trap_addr ok t s = Some s' -> inv s'.
Proof using Hly.
  intros Hi Ht Hp Hs. pose proof (iv_local s Hi t Ht) as Hloc. unfold tracer_step in Hs.
  assert (Hh : holds (points s t) = true) by (by rewrite Hp). pose proof (turn_memory s t Hi Ht Hh) as Hm. rewrite Hp in *. cbn [has_break] in Hm.
  destruct Hloc as ((r & Hc & Hl & Hpc) & Hret & Hd). injection Hs as <-. rewrite Hret, Hd, Hl, Hc in *.
  destruct (turn_same s t CountDone Hi Ht) as (H1 & H2 & H3 & H4); [by rewrite Hp|done|by rewrite Hp..|done|done|].
  apply (inv_moves s _ t RemoveBreakpoint CountDone Hi Ht Hp); [done..|]. split; cbn -[peek]; rewrite ?fn_lookup_insert; try done.
  - others.
  - eexists _, _. split; [done|]. pose proof (ly_ret Hly t Ht). destruct ar; cbn [trap_pc set_pc pc] in *; [|done].
    rewrite Hpc, (u64_id (ret t + 1)) by lia. replace (ret t + 1 - 1) with (ret t) by lia. by rewrite u64_id by lia.
  - intros x Hx. rewrite (holder s t) by (rewrite ?Hp; done). cbn -[peek]. rewrite fn_lookup_insert. cbn -[peek]. rewrite H1.
    rewrite (poke_ext (mem s) (snd (set_breakpoint ar restored (ret t)))) by (by apply Hm).
    apply restore_word; [apply bytes_word_ok, (restored_ok Hly)|]. intros b Hb. by apply set_breakpoint_out.
  - by rewrite H3, (iv_flag s Hi).
  - rewrite (iv_done s Hi). lia.
Qed.

Lemma step_count_done ok t s s' : inv s -> (t < n)%nat -> points s t = CountDone -> tracer_step ar n indicator trap_addr ok t s = Some s' -> inv s'.
Proof using Hly.
  intros Hi Ht Hp Hs. pose proof (iv_local s Hi t Ht) as Hloc. unfold tracer_step in Hs.
  assert (Hh : holds (points s t) = true) by (by rewrite Hp). pose proof (turn_memory s t Hi Ht Hh) as Hm. rewrite Hp in *. injection Hs as <-.
  destruct (turn_same s t SpinDone Hi Ht) as (H1 & H2 & H3 & H4); [by rewrite Hp|done|by rewrite Hp..|done|done|].
  apply (inv_moves s _ t CountDone SpinDone Hi Ht Hp); [done..|]. split; cbn; rewrite ?fn_lookup_insert; try done.
  - intros x Hx. rewrite H1. by apply Hm.
  - by rewrite H3, (iv_flag s Hi).
  - lia.
Qed.

Lemma step_suspend ok s s' : inv s -> points s O = Suspend -> tracer_step ar n indicator trap_addr ok O s = Some s' -> inv s'.
Proof using Hly.
  intros Hi Hp Hs. pose proof (ly_threads Hly) as Hn. pose proof (iv_local s Hi O Hn) as Hloc. unfold tracer_step in Hs. rewrite Hp in *. injection Hs as <-.
  apply (inv_moves s _ O Suspend ClearFlag Hi Hn Hp); [done..|]. split; cbn; rewrite ?fn_lookup_insert; try done.
  - intros x Hx. rewrite expected_same; [by apply Hi|by rewrite Hp|by rewrite Hp].
  - by rewrite (iv_flag s Hi), Hp.
  - rewrite (iv_done s Hi). lia.
  - intros _. apply (iv_ended s Hi O Hn). by rewrite Hp.
Qed.

(** ** Leaving *)
Lemma exit_fields t s : points (tracer_exit ar trap_addr t s) = <[t := Exit]> (points s) /\
  trace_done (tracer_exit ar trap_addr t s) = trace_done s /\ suspended (tracer_exit ar trap_addr t s) = suspended s /\
  lock (tracer_exit ar trap_addr t s) = lock s.
Proof using.
  unfold tracer_exit. cbn. destruct (traced s t); [|done]. destruct (tracees s t); [done..|]. destruct (suspended s) eqn:E; split_and!; done.
Qed.

Lemma not_counted_running s t : inv s -> (t < n)%nat -> counted (points s t) = false -> (forall u, (u < n)%nat -> ended (points s u) = false) /\ suspended s = false.
Proof using Hly.
  intros Hi Ht Hc. assert (He : forall u, (u < n)%nat -> ended (points s u) = false).
  { intros u Hu. destruct (ended (points s u)) eqn:E; [|done]. pose proof (iv_ended s Hi u Hu E). pose proof (count_lt counted n (points s) t Ht Hc).
    rewrite <-(iv_done s Hi) in H0. lia. }
  split; [done|]. rewrite (iv_suspended s Hi). specialize (He O (ly_threads Hly)). apply bool_decide_eq_false_2. intros [H|H]; by rewrite H in He.
Qed.

Lemma exit_failed s s1 t : inv s -> (t < n)%nat -> counted (points s t) = false -> points s1 = points s -> trace_done s1 = trace_done s ->
  suspended s1 = suspended s -> failed (tracer_exit ar trap_addr t s1).
Proof using Hly.
  intros Hi Ht Hc Hp Hd Hsu. destruct (exit_fields t s1) as (E1 & E2 & E3 & _). destruct (not_counted_running s t Hi Ht Hc) as [He Hs].
  split; rewrite ?E1, ?E2, ?E3, ?Hp, ?Hd, ?Hsu.
  - rewrite count_insert, Hc, (iv_done s Hi) by done. cbn. lia.
  - intros u Hu. destruct (decide (u = t)) as [->|Hne]; [by rewrite fn_lookup_insert|]. rewrite fn_lookup_insert_ne by done.
    specialize (He u Hu). intros E. by rewrite E in He.
  - done.
Qed.

(** the end of a tracer after the process has been suspended *)
Lemma exit_inv s s1 t : inv s -> (t < n)%nat -> ended (points s t) = true -> suspended s = true -> holds (points s t) = false -> points s t <> Exit ->
  (t = O \/ points s O = Exit) -> s1 = set_flag (if decide (t = O) then 0 else flag s) s -> inv (tracer_exit ar trap_addr t s1).
Proof using Hly.
  intros Hi Ht He Hsu Hh HE HO ->. pose proof (iv_traced s Hi t Ht HE) as Htr. pose proof (iv_local s Hi t Ht) as Hloc.
  assert (Hc : exists w r, tracees s t = Stopped w r /\ pc r = ret t) by (by destruct (points s t)). destruct Hc as (w & r & Hc & Hpc).
  assert (H0 : <[t := Exit]> (points s) O = Exit).
  { destruct HO as [->|H0]; [apply fn_lookup_insert|]. destruct (decide (t = O)) as [->|Hne]; [apply fn_lookup_insert|by rewrite fn_lookup_insert_ne]. }
  assert (Hct : counted (points s t) = true) by (by destruct (points s t)).
  assert (Hbase : started (points s O) = true /\ base (points s O) = restored).
  { assert (Hr : released (points s t) = true) by (by destruct (points s t)). split; [by apply (iv_released s Hi t)|by apply (released_base s t)]. }
  unfold tracer_exit. cbn [traced set_point set_flag tracees suspended]. rewrite Htr, Hc, Hsu. split; cbn.
  - intros u Hu. destruct (decide (u = t)) as [->|Hne]; [rewrite fn_lookup_insert; by exists w, r|]. rewrite fn_lookup_insert_ne by done. by apply Hi.
  - intros u Hu. destruct (decide (u = t)) as [->|Hne]; [by rewrite fn_lookup_insert|]. rewrite fn_lookup_insert_ne by done. by apply Hi.
  - intros u Hu _. by rewrite H0.
  - intros u Hu Hue. destruct (decide (u = t)) as [->|Hne]; [by rewrite fn_lookup_insert in Hue|]. rewrite fn_lookup_insert_ne in Hue by done. rewrite fn_lookup_insert_ne by done. by apply Hi.
  - intros x Hx. rewrite expected_same; [by apply Hi| |].
    + intros ->. by destruct Hbase as [_ ->].
    + intros Hl. apply (iv_lock s Hi t Ht) in Hl. congruence.
  - intros u Hu. rewrite (iv_lock s Hi u Hu). destruct (decide (u = t)) as [->|Hne]; [rewrite fn_lookup_insert, Hh; done|]. by rewrite fn_lookup_insert_ne by done.
  - apply Hi.
  - rewrite H0. cbn. destruct (decide (t = O)) as [|Hne]; [done|]. rewrite (iv_flag s Hi). destruct HO as [| ->]; [done|]. done.
  - rewrite count_insert, Hct by done. rewrite (iv_done s Hi). cbn. lia.
  - intros u Hu _. by apply (iv_ended s Hi t).
  - rewrite H0, Hsu. symmetry. apply bool_decide_eq_true_2. by right.
  - intros u Hu _. done.
  - apply Hi.
Qed.

(** ** All steps *)
Lemma step_cont_turn ok t s s' : inv s -> (t < n)%nat -> points s t = ContTurn -> tracer_step ar n indicator trap_addr ok t s = Some s' -> inv s' \/ ok = false /\ failed s'.
Proof using Hly.
  intros Hi Ht Hp Hs. pose proof (iv_local s Hi t Ht) as Hloc. unfold tracer_step in Hs.
  assert (Hh : holds (points s t) = true) by (by rewrite Hp). pose proof (turn_memory s t Hi Ht Hh) as Hm. rewrite Hp in *. cbn [has_break] in Hm.
  destruct Hloc as (Hc & Hret & Hd). rewrite Hc in Hs. assert (Hr : released (points s t) = true) by (by rewrite Hp).
  destruct ok; injection Hs as <-; [left|right; split; [done|]; eapply exit_failed; try done; by rewrite Hp].
  assert (Hres : resume ar trap_addr (mem s) (set_pc (R t) trap_addr) = Returning (ret t)).
  { unfold resume. cbn [set_pc pc]. rewrite Z.eqb_refl, (restored_nop Hly _ t) by done. cbn [andb]. f_equal.
    apply (expected_return Hly (lock s) (points s) t); [apply Hi|apply Hi|done..]. }
  rewrite Hres. quiet_step ContTurn WaitTurn; [split_and!; auto|..]; intros _; by apply (iv_released s Hi t).
Qed.

Lemma step_waits ok t s s' : inv s -> (t < n)%nat -> points s t = WaitTrap \/ points s t = WaitTurn \/ points s t = GetRegsTurn \/ points s t = SetRegs ->
  tracer_step ar n indicator trap_addr ok t s = Some s' -> inv s' \/ ok = false /\ failed s'.
Proof using Hly.
  intros Hi Ht Hp Hs. pose proof (iv_local s Hi t Ht) as Hloc. pose proof (iv_traced s Hi t Ht) as Htr. pose proof (iv_released s Hi t Ht) as Hrel.
  unfold tracer_step in Hs. destruct Hp as [Hp|[Hp|[Hp|Hp]]]; rewrite Hp in *; cbn -[peek] in Hloc.
  - rewrite Htr, Hloc in Hs by done. injection Hs as <-. left. quiet_step WaitTrap GetRegs.
  - destruct Hloc as ([Hc|(r & Hc & Hpc)] & Hret & Hd); rewrite Hc in Hs; [done|]. injection Hs as <-. left. quiet_step WaitTurn GetRegsTurn. split_and!; eauto.
  - destruct Hloc as ((r & Hc & Hpc) & Hret & Hd). rewrite Hc in Hs. destruct ok; injection Hs as <-; [left|right; split; [done|]; eapply exit_failed; try done; by rewrite Hp].
    quiet_step GetRegsTurn RemoveBreakpoint. split_and!; eauto.
  - destruct Hloc as (Hc & Hl & Hb & Hret). rewrite Hc in Hs. destruct ok; injection Hs as <-; [left|right; split; [done|]; eapply exit_failed; try done; by rewrite Hp].
    quiet_step SetRegs LockTurn. by rewrite Hl.
Qed.

Lemma step_spins ok t s s' : inv s -> (t < n)%nat -> points s t = SpinFlag \/ points s t = SpinDone \/ points s t = SpinSuspended \/ points s t = ClearFlag ->
  tracer_step ar n indicator trap_addr ok t s = Some s' -> inv s'.
Proof using Hly.
  intros Hi Ht Hp Hs. pose proof (iv_local s Hi t Ht) as Hloc. pose proof (iv_released s Hi t Ht) as Hrel. pose proof (iv_role s Hi t Ht) as Hrole.
  pose proof (iv_flag s Hi) as Hf. unfold tracer_step in Hs. destruct (lock s) eqn:Hfree; [destruct Hp as [Hp|[Hp|[Hp|Hp]]]; by rewrite Hp in Hs|].
  destruct Hp as [Hp|[Hp|[Hp|Hp]]]; rewrite Hp in *.
  - destruct (flag s =? 0) eqn:E; injection Hs as <-; [done|]. quiet_step SpinFlag SetRegs. intros _.
    destruct (started (points s O)) eqn:Es; [done|]. rewrite Hf in E. done.
  - destruct (trace_done s <? Z.of_nat n) eqn:E; injection Hs as <-; [done|]. apply Z.ltb_ge in E. pose proof (count_le counted n (points s)) as Hle.
    rewrite <-(iv_done s Hi) in Hle. destruct t as [|t]; [quiet_step SpinDone Suspend|quiet_step SpinDone SpinSuspended]; intros _; try lia; by apply Hrel.
  - destruct (flag s =? 1) eqn:E; injection Hs as <-; [done|]. rewrite Hf, (Hrel eq_refl) in E.
    assert (HE : points s O = Exit) by (destruct (decide (points s O = Exit)) as [|Hne]; [done|]; by rewrite bool_decide_eq_false_2 in E by done).
    apply (exit_inv s s t Hi Ht); rewrite ?Hp; try done; [|by right|].
    + rewrite (iv_suspended s Hi). apply bool_decide_eq_true_2. by right.
    + rewrite decide_False by done. by destruct s.
  - cbn in Hrole. subst t. injection Hs as <-. apply (exit_inv s _ O Hi Ht); rewrite ?Hp; try done; [|by left].
    rewrite (iv_suspended s Hi). apply bool_decide_eq_true_2. by left.
Qed.

Lemma tracer_inv ok t s s' : inv s -> (t < n)%nat -> tracer_step ar n indicator trap_addr ok t s = Some s' -> inv s' \/ ok = false /\ failed s'.
Proof using Hly.
  intros Hi Ht Hs. pose proof (iv_local s Hi t Ht) as Hloc. pose proof (iv_role s Hi t Ht) as Hrole. destruct (points s t) eqn:Hp; cbn in Hloc, Hrole; try done; try subst t.
  - eapply step_waits; eauto.
  - destruct (step_get_regs ok t s s' Hi Ht Hp Hs) as [|[-> ->]]; [by left|right]. split; [done|]. eapply exit_failed; try done. by rewrite Hp.
  - left. by eapply step_remove_trap.
  - destruct ok; [left; by eapply step_restore_indicator|right]. unfold tracer_step in Hs. rewrite Hp in Hs. injection Hs as <-.
    split; [done|]. eapply exit_failed; try done. by rewrite Hp.
  - left. by eapply step_set_flag.
  - left. eapply step_spins; eauto.
  - eapply step_waits; eauto.
  - left. by eapply step_lock_turn.
  - left. by eapply step_set_breakpoint.
  - by eapply step_cont_turn.
  - eapply step_waits; eauto.
  - eapply step_waits; eauto 6.
  - left. by eapply step_remove_breakpoint.
  - left. by eapply step_count_done.
  - left. eapply step_spins; eauto.
  - left. eapply step_spins; eauto.
  - left. by eapply step_suspend.
  - left. eapply step_spins; eauto 6.
  - unfold tracer_step in Hs. by rewrite Hp in Hs.
Qed.

(** ** Every step of the process *)
Lemma inv_set_mem s m : inv s -> (forall x, fixed x -> m x = mem s x) -> inv (set_mem m s).
Proof using. intros [] Hm. split; try done. intros x Hx. cbn. rewrite Hm by done. auto. Qed.

Lemma tracee_inv t s s' : inv s -> (t < n)%nat -> tracee_step ar fixed t s s' -> inv s'.
Proof using Hly.
  intros Hi Ht Hs. pose proof (iv_local s Hi t Ht) as Hloc.
  assert (Hin : forall r, tracees s t <> InProgram r) by (intros r E; rewrite E in Hloc; destruct (points s t); naive_solver).
  assert (Hrt : forall a, tracees s t = Returning a -> points s t = WaitTurn /\ a = ret t).
  { intros a E. rewrite E in Hloc. destruct (points s t); cbn -[peek] in Hloc; naive_solver. }
  assert (Htrap : forall a, tracees s t = Returning a -> traps ar (mem s) (ret t) = true).
  { intros a E. destruct (Hrt a E) as [Hp ->]. apply (restored_break Hly (mem s) t Ht). intros x Hx. rewrite (turn_memory s t) by (rewrite ?Hp; done). by rewrite Hp. }
  inversion Hs as [? ? ? ? E|? ? ? E|? ? ? E ? Hx|a r E ? ? Hpc|a ? E ? Hn]; subst; try by destruct (Hin _ E).
  - apply inv_set_mem; [done|]. intros y Hy. rewrite decide_False; [done|]. by intros ->.
  - destruct (Hrt a E) as [Hp ->]. unfold trapped_at. rewrite (iv_traced s Hi t Ht) by (by rewrite Hp). rewrite Hp in Hloc. destruct Hloc as (_ & Hret & Hd).
    destruct Hi. split; try done. intros u Hu. cbn. destruct (decide (u = t)) as [->|Hne].
    + rewrite fn_lookup_insert, Hp. split_and!; [|done..]. right. eauto.
    + rewrite fn_lookup_insert_ne by done. auto.
  - destruct (Hrt a E) as [_ ->]. rewrite (Htrap _ E) in Hn. done.
Qed.

(** ** After a failure *)
Lemma failed_goto s s' t p' : failed s -> (t < n)%nat -> points s' = <[t := p']> (points s) -> suspended s' = suspended s -> p' <> Suspend ->
  trace_done s' + Z.b2z (counted (points s t)) <= trace_done s + Z.b2z (counted p') -> failed s'.
Proof using.
  intros [Hd Hp Hs] Ht Hpts Hsu Hp' Hc. split.
  - rewrite Hpts, count_insert by done. lia.
  - intros u Hu. rewrite Hpts. destruct (decide (u = t)) as [->|Hne]; [by rewrite fn_lookup_insert|]. rewrite fn_lookup_insert_ne by done. auto.
  - congruence.
Qed.

Lemma failed_exit s s1 t : failed s -> (t < n)%nat -> points s1 = points s -> trace_done s1 = trace_done s -> suspended s1 = suspended s ->
  failed (tracer_exit ar trap_addr t s1).
Proof using.
  intros Hf Ht Hp Hd Hsu. destruct (exit_fields t s1) as (E1 & E2 & E3 & _). apply (failed_goto s _ t Exit); [done..| | |done|].
  - by rewrite E1, Hp.
  - congruence.
  - rewrite E2, Hd. destruct (counted (points s t)); cbn; lia.
Qed.

Lemma failed_tracer ok t s s' : failed s -> (t < n)%nat -> tracer_step ar n indicator trap_addr ok t s = Some s' -> failed s'.
Proof using.
  intros Hf Ht Hs. pose proof (count_le counted n (points s)) as Hle. pose proof (fl_done s Hf) as Hd. pose proof (fl_point s Hf t Ht) as Hns.
  unfold tracer_step in Hs. destruct (points s t) eqn:Hp; try done;
    repeat match goal with H : context [match ?x with _ => _ end] |- _ => destruct x eqn:? end; try done; injection Hs as <-;
    first [done | (eapply failed_exit; done) | (eapply failed_goto; [exact Hf|exact Ht|reflexivity|done|done|rewrite Hp; cbn; lia]) | lia].
Qed.

Lemma tracee_points t s s' : tracee_step ar fixed t s s' -> points s' = points s /\ trace_done s' = trace_done s /\ suspended s' = suspended s.
Proof using. intros []; unfold trapped_at; try destruct (traced s t); done. Qed.

Lemma steps_inv s s' : rtc (step ar n indicator trap_addr fixed) s s' -> inv s \/ failed s -> inv s' \/ failed s'.
Proof using Hly.
  induction 1 as [s|s s1 s2 Hst _ IH]; [done|]. intros H. apply IH. destruct H as [H|H], Hst as [ok t Ht Hs|t Ht Hs].
  - destruct (tracer_inv ok t s s1 H Ht Hs) as [|[_ ?]]; [by left|by right].
  - left. by eapply tracee_inv.
  - right. by eapply failed_tracer.
  - right. destruct (tracee_points _ _ _ Hs) as (E1 & E2 & E3). destruct H as [H1 H2 H3]. split; rewrite ?E1, ?E2, ?E3; done.
Qed.

Lemma trapped_inv s : trapped s -> inv s.
Proof using Hly.
  intros [Hp Hc Htr Hm (Hl & Hf & Hd & Hsu & Hk)]. pose proof (Hp O (ly_threads Hly)) as HO. split.
  - intros t Ht. rewrite Hp, Hc by done. done.
  - intros t Ht. by rewrite Hp.
  - intros t Ht. by rewrite Hp.
  - intros t Ht _. auto.
  - intros x Hx. rewrite Hl. cbn. rewrite HO. auto.
  - intros t Ht. by rewrite Hl, Hp.
  - by rewrite Hl.
  - by rewrite HO.
  - rewrite Hd, count_zero; [done|]. intros t Ht. by rewrite Hp.
  - intros t Ht. by rewrite Hp.
  - rewrite HO, Hsu. symmetry. apply bool_decide_eq_false_2. naive_solver.
  - intros t Ht. by rewrite Hp.
  - done.
Qed.

(** ** Progress *)
(** the steps when no system call of the tracer fails *)
Inductive good_step (s s' : state) : Prop :=
  | good_tracer t : (t < n)%nat -> tracer_step ar n indicator trap_addr true t s = Some s' -> good_step s s'
  | good_tracee t : (t < n)%nat -> tracee_step ar fixed t s s' -> good_step s s'.

Lemma good_inv s s' : rtc good_step s s' -> inv s -> inv s'.
Proof using Hly.
  induction 1 as [s|s s1 s2 Hst _ IH]; [done|]. intros H. apply IH. destruct Hst as [t Ht Hs|t Ht Hs].
  - by destruct (tracer_inv true t s s1 H Ht Hs) as [|[? _]].
  - by eapply tracee_inv.
Qed.

(** how far a tracer is from its end *)
Definition left_to_do (p : point) (c : tracee) : nat :=
  match p with
  | Attach | PokeIndicator | ContFirst | Seize => 20
  | WaitTrap => 19 | GetRegs => 18 | RemoveTrap => 17 | RestoreIndicator => 16 | SetFlag => 15 | SpinFlag => 14 | SetRegs => 13 | LockTurn => 12
  | SetBreakpoint => 11 | ContTurn => 10 | WaitTurn => match c with Returning _ => 9 | _ => 8 end
  | GetRegsTurn => 7 | RemoveBreakpoint => 6 | CountDone => 5 | SpinDone => 4 | SpinSuspended => 3 | Suspend => 2 | ClearFlag => 1 | Exit => 0
  end.
Fixpoint total (k : nat) (s : state) : nat := match k with O => 0 | S k => left_to_do (points s k) (tracees s k) + total k s end.

Lemma total_less k t s s' : (t < k)%nat -> (forall u, u <> t -> points s' u = points s u /\ tracees s' u = tracees s u) ->
  (left_to_do (points s' t) (tracees s' t) < left_to_do (points s t) (tracees s t))%nat -> (total k s' < total k s)%nat.
Proof using.
  intros Ht Ho Hl. assert (Hle : forall j, (j <= t)%nat -> total j s' = total j s).
  { induction j as [|j IH]; intros Hj; [done|]. cbn [total]. destruct (Ho j) as [-> ->]; [lia|]. rewrite IH by lia. done. }
  induction k as [|k IH]; [lia|]. cbn [total]. destruct (decide (k = t)) as [->|Hne]; [rewrite Hle by lia; lia|].
  destruct (Ho k Hne) as [-> ->]. specialize (IH ltac:(lia)). lia.
Qed.

(** the tracer does not have to wait *)
Definition can_go (s : state) (t : nat) : Prop :=
  match points s t with
  | SetFlag | LockTurn | ClearFlag => lock s = None
  | SpinFlag => lock s = None /\ flag s = 1
  | WaitTurn => exists r, tracees s t = Stopped false r
  | SpinDone => lock s = None /\ trace_done s = Z.of_nat n
  | SpinSuspended => lock s = None /\ flag s = 0
  | Exit => False
  | _ => True
  end.

Lemma exit_others t s u : u <> t -> points (tracer_exit ar trap_addr t s) u = points s u /\ tracees (tracer_exit ar trap_addr t s) u = tracees s u.
Proof using.
  intros Hu. destruct (exit_fields t s) as (-> & _). rewrite fn_lookup_insert_ne by done. split; [done|]. unfold tracer_exit. cbn.
  destruct (traced s t); [|done]. cbn. destruct (tracees s t) eqn:E; [done..|]. destruct (suspended s); [done|]. cbn. by rewrite fn_lookup_insert_ne.
Qed.

Lemma advance s t : inv s -> (t < n)%nat -> can_go s t -> exists s', good_step s s' /\ (total n s' < total n s)%nat.
Proof using Hly.
  intros Hi Ht Hg. pose proof (iv_local s Hi t Ht) as Hloc. pose proof (iv_role s Hi t Ht) as Hrole. pose proof (iv_traced s Hi t Ht) as Htr.
  enough (exists s', tracer_step ar n indicator trap_addr true t s = Some s' /\ (forall u, u <> t -> points s' u = points s u /\ tracees s' u = tracees s u) /\
    (left_to_do (points s' t) (tracees s' t) < left_to_do (points s t) (tracees s t))%nat) as (s' & H1 & H2 & H3).
  { exists s'. split; [by eapply good_tracer|]. by eapply total_less. }
  unfold tracer_step, can_go in *.
  destruct (points s t) eqn:Hp; try done; cbn -[peek] in Hloc, Hrole; try (rewrite Htr by done); repeat match goal with H : exists _, _ |- _ => destruct H | H : _ /\ _ |- _ => destruct H end; subst;
    repeat match goal with
    | H : tracees s t = _ |- _ => rewrite H in *; clear H
    | H : lock s = None |- _ => rewrite H
    | H : flag s = _ |- _ => rewrite H
    | H : trace_done s = _ |- _ => rewrite H, Z.ltb_irrefl
    end.
  all: cbn -[peek].
  all: eexists; split; [reflexivity|]; split;
    [intros u Hu; first [match goal with |- context [tracer_exit _ _ ?t ?s1] => exact (exit_others t s1 u Hu) end|cbn; rewrite ?fn_lookup_insert_ne by done; done]
    |match goal with |- context [tracer_exit _ _ ?t ?s1] => destruct (exit_fields t s1) as (-> & _) | _ => cbn end; rewrite ?fn_lookup_insert; try (cbn; lia)].
  - destruct t; cbn; lia.
  - destruct (resume _ _ _ _); cbn; lia.
  - destruct t; cbn; lia.
Qed.

(** a thread that is on its way to the migration point gets there *)
Lemma arrive s t : inv s -> (t < n)%nat -> points s t = WaitTurn -> tracees s t = Returning (ret t) -> exists s', good_step s s' /\ (total n s' < total n s)%nat.
Proof using Hly.
  intros Hi Ht Hp Hc. destruct (not_counted_running s t Hi Ht) as [_ Hsu]; [by rewrite Hp|].
  assert (Hb : traps ar (mem s) (ret t) = true).
  { apply (restored_break Hly (mem s) t Ht). intros x Hx. rewrite (turn_memory s t) by (rewrite ?Hp; done). by rewrite Hp. }
  exists (trapped_at t (set_pc (R t) (trap_pc ar (ret t))) s). split.
  - apply (good_tracee _ _ t Ht). by eapply returns_to_trap.
  - unfold trapped_at. rewrite (iv_traced s Hi t Ht) by (by rewrite Hp). apply (total_less n t); [done| |].
    + intros u Hu. cbn. by rewrite fn_lookup_insert_ne.
    + cbn. rewrite fn_lookup_insert, Hp, Hc. cbn. lia.
Qed.

Lemma count_full P k f : count P k f < Z.of_nat k -> exists t, (t < k)%nat /\ P (f t) = false.
Proof using.
  induction k as [|k IH]; intros H; cbn [count] in H; [lia|]. destruct (P (f k)) eqn:E; [|by exists k; split; [lia|]].
  destruct IH as (t & Ht & Hf); [cbn [Z.b2z] in H; lia|]. exists t. split; [lia|done].
Qed.

(** while one tracer is not finished, one of them can move, or its thread *)
Lemma progress s t : inv s -> (t < n)%nat -> points s t <> Exit -> exists s', good_step s s' /\ (total n s' < total n s)%nat.
Proof using Hly.
  intros Hi Ht HE. pose proof (ly_threads Hly) as Hn. destruct (lock s) as [u|] eqn:Hl.
  - pose proof (iv_owner s Hi u Hl) as Hu. pose proof (proj1 (iv_lock s Hi u Hu) Hl) as Hh. pose proof (iv_local s Hi u Hu) as Hloc.
    destruct (points s u) eqn:Hp; try done; try (apply (advance s u Hi Hu); unfold can_go; by rewrite Hp).
    destruct Hloc as ([Hc|(r & Hc & _)] & _); [by apply (arrive s u)|]. apply (advance s u Hi Hu). unfold can_go. rewrite Hp. eauto.
  - assert (Hnh : forall u, (u < n)%nat -> holds (points s u) = false).
    { intros u Hu. destruct (holds (points s u)) eqn:E; [|done]. apply (iv_lock s Hi u Hu) in E. congruence. }
    assert (Hgo : forall u, (u < n)%nat -> points s u <> Exit -> (points s u = SpinFlag -> flag s = 1) -> (points s u = SpinDone -> trace_done s = Z.of_nat n) ->
      (points s u = SpinSuspended -> flag s = 0) -> exists s', good_step s s' /\ (total n s' < total n s)%nat).
    { intros u Hu H1 H2 H3 H4. apply (advance s u Hi Hu). unfold can_go. specialize (Hnh u Hu). destruct (points s u); try done; auto. }
    pose proof (iv_flag s Hi) as Hf. pose proof (iv_role s Hi O Hn) as Hr.
    destruct (decide (points s O = SpinDone /\ trace_done s <> Z.of_nat n)) as [[Hp Hd]|Hm].
    + pose proof (count_le counted n (points s)). pose proof (iv_done s Hi). destruct (count_full counted n (points s)) as (u & Hu & Hc); [lia|].
      apply (Hgo u Hu); intros Eu; rewrite Eu in Hc; try done. by rewrite Hf, Hp.
    + destruct (decide (points s O = Exit)) as [HO|HO].
      * apply (Hgo t Ht HE); [|intros _; apply (iv_ended s Hi O Hn); by rewrite HO|by rewrite Hf, HO].
        intros Et. assert (trace_done s = Z.of_nat n) by (apply (iv_ended s Hi O Hn); by rewrite HO).
        pose proof (count_lt counted n (points s) t Ht) as Hc. rewrite Et, <-(iv_done s Hi) in Hc. specialize (Hc eq_refl). lia.
      * apply (Hgo O Hn HO); intros E0; [by rewrite Hf, E0| |by rewrite E0 in Hr]. destruct (decide (trace_done s = Z.of_nat n)); [done|tauto].
Qed.

Lemma completes s : inv s -> exists s', rtc good_step s s' /\ inv s' /\ forall t, (t < n)%nat -> points s' t = Exit.
Proof using Hly.
  remember (total n s) as k eqn:Hk. revert s Hk. induction (lt_wf k) as [k _ IH]. intros s -> Hi.
  destruct (decide (Forall (fun t => points s t = Exit) (seq 0 n))) as [Hall|Hnot].
  - exists s. split; [done|]. split; [done|]. intros t Ht. rewrite list.Forall_forall in Hall. apply Hall, elem_of_seq. lia.
  - apply not_Forall_Exists in Hnot; [|apply _]. apply list.Exists_exists in Hnot as (t & Hin%elem_of_seq & Hne).
    destruct (progress s t Hi) as (s1 & Hs & Hlt); [lia|done|]. destruct (IH (total n s1) Hlt s1 eq_refl) as (s' & H1 & H2).
    { eapply good_inv; [|done]. by apply rtc_once. }
    exists s'. split; [by eapply rtc_l|done].
Qed.

Lemma good_steps s s' : rtc good_step s s' -> rtc (step ar n indicator trap_addr fixed) s s'.
Proof using.
  intros H. eapply rtc_subrel; [|exact H]. intros x y [t Ht Hs|t Ht Hs]; [by eapply step_tracer|by eapply step_tracee].
Qed.

(** a tracer has left with the mutex *)
Record stuck (t : nat) (s : state) : Prop := {
  sk_lock : lock s = Some t;
  sk_point : forall u, (u < n)%nat -> points s u <> Suspend /\ holds (points s u) = false;
  sk_suspended : suspended s = false;
}.

Lemma stuck_goto t s s' u p' : stuck t s -> (u < n)%nat -> points s' = <[u := p']> (points s) -> lock s' = lock s -> suspended s' = suspended s ->
  p' <> Suspend -> holds p' = false -> stuck t s'.
Proof using.
  intros [H1 H2 H3] Hu Hp Hl Hs Hn Hh. split; [congruence| |congruence]. intros v Hv. rewrite Hp.
  destruct (decide (v = u)) as [->|Hne]; [by rewrite fn_lookup_insert|]. rewrite fn_lookup_insert_ne by done. auto.
Qed.

Lemma stuck_tracer ok t u s s' : stuck t s -> (u < n)%nat -> tracer_step ar n indicator trap_addr ok u s = Some s' -> stuck t s'.
Proof using.
  intros Hk Hu Hs. pose proof (sk_lock t s Hk) as Hl. destruct (sk_point t s Hk u Hu) as [Hns Hnh].
  assert (Hexit : forall s1, points s1 = points s -> lock s1 = lock s -> suspended s1 = suspended s -> stuck t (tracer_exit ar trap_addr u s1)).
  { intros s1 E1 E2 E3. destruct (exit_fields u s1) as (F1 & _ & F3 & F4). apply (stuck_goto t s _ u Exit Hk Hu); try done; congruence. }
  unfold tracer_step in Hs. rewrite Hl in Hs. destruct (points s u) eqn:Hp; try done;
    repeat match goal with H : context [match ?x with _ => _ end] |- _ => destruct x eqn:? end; try done; injection Hs as <-;
    first [done | by apply Hexit | (eapply stuck_goto; [exact Hk|exact Hu|reflexivity|done..])].
Qed.

Lemma tracee_lock t s s' : tracee_step ar fixed t s s' -> lock s' = lock s.
Proof using. intros []; unfold trapped_at; try destruct (traced s t); done. Qed.

Lemma steps_stuck t s s' : rtc (step ar n indicator trap_addr fixed) s s' -> stuck t s -> stuck t s'.
Proof using.
  induction 1 as [s|s s1 s2 Hst _ IH]; [done|]. intros H. apply IH. destruct Hst as [ok u Hu Hs|u Hu Hs]; [by eapply stuck_tracer|].
  destruct (tracee_points _ _ _ Hs) as (E1 & _ & E3). pose proof (tracee_lock _ _ _ Hs). destruct H as [H1 H2 H3].
  split; [congruence| |congruence]. by rewrite E1.
Qed.

Lemma cont_fails s s1 t : inv s -> (t < n)%nat -> points s t = ContTurn -> tracer_step ar n indicator trap_addr false t s = Some s1 -> stuck t s1.
Proof using Hly.
  intros Hi Ht Hp Hs. unfold tracer_step in Hs. rewrite Hp in Hs. destruct (not_counted_running s t Hi Ht) as [He Hsu]; [by rewrite Hp|].
  injection Hs as <-. destruct (exit_fields t s) as (E1 & _ & E3 & E4). pose proof (holder s t Hi Ht) as Hl. rewrite Hp in Hl. split.
  - rewrite E4. auto.
  - intros u Hu. rewrite E1. destruct (decide (u = t)) as [->|Hne]; [by rewrite fn_lookup_insert|]. rewrite fn_lookup_insert_ne by done. split.
    + intros E. specialize (He u Hu). by rewrite E in He.
    + destruct (holds (points s u)) eqn:Eh; [|done]. apply (iv_lock s Hi u Hu) in Eh. rewrite Hl in Eh by done. congruence.
  - congruence.
Qed.
End Step.
End Safety.



(** C35: When PTRACE_CONT fails in a tracer's turn, it returns with the mutex locked: no other tracer gets its turn, and the process is never suspended. *)
Theorem cont_failure_keeps_mutex ar n indicator trap_addr fixed m0 R s s1 s2 s3 t : layout ar n indicator trap_addr fixed m0 R -> trapped n fixed m0 R s ->
  rtc (good_step ar n indicator trap_addr fixed) s s1 -> (t < n)%nat -> points s1 t = ContTurn -> tracer_step ar n indicator trap_addr false t s1 = Some s2 ->
  rtc (step ar n indicator trap_addr fixed) s2 s3 -> points s2 t = Exit /\ lock s3 = Some t /\ suspended s3 = false.
Proof.
  intros Hly Htr Hst Ht Hp Hs Hst'. pose proof (trapped_inv ar n indicator trap_addr fixed m0 R Hly s Htr) as Hi0.
  pose proof (good_inv ar n indicator trap_addr fixed m0 R Hly s s1 Hst Hi0) as Hi.
  pose proof (cont_fails ar n indicator trap_addr fixed m0 R Hly s1 s2 t Hi Ht Hp Hs) as Hk.
  pose proof (steps_stuck ar n indicator trap_addr fixed t s2 s3 Hst' Hk) as [H1 _ H3]. split; [|done].
  unfold tracer_step in Hs. rewrite Hp in Hs. injection Hs as <-. destruct (exit_fields ar trap_addr t s1) as (-> & _). apply fn_lookup_insert.
Qed.

(** ** The order of PTRACE_SEIZE *)
(** The indicator is set when the main thread has been attached to, and not when all threads are seized: a thread that runs into the trap before its
    tracer has seized it kills the process. *)
Lemma unseized_thread_dies ar n indicator trap_addr fixed m regs l : (1 < n)%nat -> bytes_ok m -> apart indicator trap_addr -> traps ar m trap_addr = true ->
  exists s, rtc (step ar n indicator trap_addr fixed) (init m regs l) s /\ points s O = WaitTrap /\ points s 1%nat = Seize /\
    peek (mem s) indicator = 1 /\ exists s', tracee_step ar fixed 1%nat s s' /\ killed s' = true.
Proof.
  intros Hn Hm Hap Ht. set (s0 := init m regs l).
  set (s1 := set_point O PokeIndicator (set_traced O true (set_tracee O (Stopped true (regs O)) s0))).
  set (s2 := set_point O ContFirst (set_mem (poke m indicator 1) s1)). set (m2 := poke m indicator 1).
  set (s3 := set_point O WaitTrap (set_tracee O (resume ar trap_addr m2 (regs O)) s2)). exists s3. split_and!; [|done|done|by apply peek_poke|].
  - eapply rtc_l; [by apply (step_tracer _ _ _ _ _ s0 s1 true O); [lia|]|]. eapply rtc_l; [by apply (step_tracer _ _ _ _ _ s1 s2 true O); [lia|]|].
    apply rtc_once. by apply (step_tracer _ _ _ _ _ s2 s3 true O); [lia|].
  - exists (trapped_at 1%nat (set_pc (regs 1%nat) (trap_pc ar trap_addr)) s3). split; [|done].
    apply (runs_into_trap ar fixed 1%nat s3 (regs 1%nat) _ trap_addr); [done|done| |done].
    rewrite <-Ht. apply traps_ext. intros x Hx. apply poke_out. unfold apart, in_word in *. lia.
Qed.

(** ** Two threads *)
Definition two_mem (x : Z) : Z :=
  if x =? 0x1000 then 0xCC else if x =? 0x3008 then 0x10 else if x =? 0x3009 then 0x10 else if x =? 0x4008 then 0x20 else if x =? 0x4009 then 0x10 else 0.
Definition two_fixed (x : Z) : Prop := 0x1000 <= x < 0x1030 \/ 0x2000 <= x < 0x2008 \/ 0x3008 <= x < 0x3010 \/ 0x4008 <= x < 0x4010.
Definition two_regs (t : nat) : user_regs := match t with O => mk_regs 0x1001 0x3000 0 | S _ => mk_regs 0x1001 0x4000 0 end.
Definition two_trapped : state :=
  mk_state (fun _ => WaitTrap) (fun _ => mk_local (two_regs 0) 0 0 0) (fun t => Stopped false (two_regs t)) (fun _ => true) two_mem None 0 0 false false.

Lemma two_layout : layout X86_64 2 0x2000 0x1000 two_fixed two_mem two_regs.
Proof.
  assert (H2 : forall t, (t < 2)%nat -> t = O \/ t = 1%nat) by lia.
  assert (R0 : ret X86_64 two_mem two_regs 0 = 0x1010) by reflexivity. assert (R1 : ret X86_64 two_mem two_regs 1 = 0x1020) by reflexivity.
  assert (S0 : slot two_regs 0 = 0x3008) by reflexivity. assert (S1 : slot two_regs 1 = 0x4008) by reflexivity.
  split; try (intros t Ht; destruct (H2 t Ht) as [->| ->]); unfold apart, in_word, two_fixed; try lia; try done.
  - intros x. unfold two_mem. repeat case_match; lia.
  - intros t x Ht. destruct (H2 t Ht) as [->| ->]; rewrite ?R0, ?R1; lia.
  - intros _ t Ht. destruct (H2 t Ht) as [->| ->]; rewrite ?S0, ?S1; (split_and!; [lia..|]); intros u Hu; destruct (H2 u Hu) as [->| ->]; rewrite ?R0, ?R1; lia.
Qed.

Lemma two_all_trapped : trapped 2 two_fixed two_mem two_regs two_trapped.
Proof. by split. Qed.

(** tracers that take successful steps in the given order *)
Fixpoint tracer_run (ts : list nat) (s : state) : option state :=
  match ts with [] => Some s | t :: ts => match tracer_step X86_64 2 0x2000 0x1000 true t s with Some s => tracer_run ts s | None => None end end.

Lemma tracer_run_steps ts : forall s s', Forall (fun t => (t < 2)%nat) ts -> tracer_run ts s = Some s' -> rtc (good_step X86_64 2 0x2000 0x1000 two_fixed) s s'.
Proof.
  induction ts as [|t ts IH]; intros s s' Hf H; cbn [tracer_run] in H; [by injection H as ->|]. inversion_clear Hf as [|? ? Ht Hts].
  destruct (tracer_step _ _ _ _ true t s) as [s1|] eqn:E; [|done]. eapply rtc_l; [by eapply good_tracer|]. by apply IH.
Qed.



Lemma cont_failure_keeps_mutex_witness : exists s1 s2, rtc (good_step X86_64 2 0x2000 0x1000 two_fixed) two_trapped s1 /\
  tracer_step X86_64 2 0x2000 0x1000 false 0 s1 = Some s2 /\ points s2 O = Exit /\ lock s2 = Some O /\ suspended s2 = false.
Proof.
  assert (E : option_map (fun s => points s O) (tracer_run (replicate 9 O) two_trapped) = Some ContTurn) by (vm_compute; reflexivity).
  destruct (tracer_run (replicate 9 O) two_trapped) as [s1|] eqn:Er; [|discriminate E]. injection E as E.
  assert (Hr : rtc (good_step X86_64 2 0x2000 0x1000 two_fixed) two_trapped s1) by (apply (tracer_run_steps (replicate 9 O)); [repeat constructor; lia|exact Er]).
  exists s1. destruct (tracer_step X86_64 2 0x2000 0x1000 false 0 s1) as [s2|] eqn:Es; [|unfold tracer_step in Es; rewrite E in Es; discriminate Es].
  exists s2. split; [exact Hr|]. split; [reflexivity|].
  apply (cont_failure_keeps_mutex X86_64 2 0x2000 0x1000 two_fixed two_mem two_regs two_trapped s1 s2 s2 O); try assumption;
    [exact two_layout|exact two_all_trapped|lia|apply rtc_refl].
Defined.
End Tracer.
