(* ===== verification/RbTree.v ===== *)
(** * Red-black trees: rbtree.c

    The nodes of a tree are a heap from addresses, with the colour of a node in the low bits of the word that points to its parent.  Nothing
    in CRIU takes nodes out of a tree: rb_erase and rb_replace_node are not modelled. *)
From S2P Require Import Prelude.
#[local] Open Scope cmon_scope.

Module RbTree.

(** ** Nodes *)
Definition RB_RED : Z := 0.
Definition RB_BLACK : Z := 1.
Definition RB_MASK : Z := 3.

Record rb_node := mk_rb { rb_parent_color : Z; rb_right : Z; rb_left : Z }.

Definition rb_parent (n : rb_node) : Z := Z.ldiff (rb_parent_color n) RB_MASK.
Definition rb_color (n : rb_node) : Z := Z.land (rb_parent_color n) RB_BLACK.
Definition rb_is_red (n : rb_node) : bool := rb_color n =? 0.

(** the nodes by their addresses, and the pointer in [struct rb_root] *)
Record rbs := mk_rbs { heap : gmap Z rb_node; root : Z }.

Definition get (x : Z) : M rbs rb_node := fun s => match heap s !! x with Some n => Done (n, s) | None => Bug end.
Definition put (x : Z) (n : rb_node) : M rbs unit := fun s => Done (tt, mk_rbs (<[x := n]> (heap s)) (root s)).
Definition set_root (x : Z) : M rbs unit := fun s => Done (tt, mk_rbs (heap s) x).
Definition modify (x : Z) (f : rb_node -> rb_node) : M rbs unit := n <~ get x ;; put x (f n).

Definition with_pc (c : Z) (n : rb_node) : rb_node := mk_rb c (rb_right n) (rb_left n).
Definition with_left (l : Z) (n : rb_node) : rb_node := mk_rb (rb_parent_color n) (rb_right n) l.
Definition with_right (r : Z) (n : rb_node) : rb_node := mk_rb (rb_parent_color n) r (rb_left n).

Definition rb_set_red (x : Z) : M rbs unit := modify x (fun n => with_pc (Z.ldiff (rb_parent_color n) RB_BLACK) n).
Definition rb_set_black (x : Z) : M rbs unit := modify x (fun n => with_pc (Z.lor (rb_parent_color n) RB_BLACK) n).
Definition rb_set_parent (x p : Z) : M rbs unit := modify x (fun n => with_pc (Z.lor (Z.land (rb_parent_color n) RB_MASK) p) n).

(** ** Rotations *)
(** the pointer to [node] from above, to [new] *)
Definition repoint_left (parent node new : Z) : M rbs unit :=
  if negb (parent =? 0) then pn <~ get parent ;; if node =? rb_left pn then modify parent (with_left new) else modify parent (with_right new) else set_root new.
Definition repoint_right (parent node new : Z) : M rbs unit :=
  if negb (parent =? 0) then pn <~ get parent ;; if node =? rb_right pn then modify parent (with_right new) else modify parent (with_left new) else set_root new.

Definition __rb_rotate_left (node : Z) : M rbs unit :=
  n <~ get node ;;
  let right := rb_right n in
  let parent := rb_parent n in
  rn <~ get right ;;
  modify node (with_right (rb_left rn)) ;;;
  (if negb (rb_left rn =? 0) then rb_set_parent (rb_left rn) node else ret tt) ;;;
  modify right (with_left node) ;;;
  rb_set_parent right parent ;;;
  repoint_left parent node right ;;;
  rb_set_parent node right.

Definition __rb_rotate_right (node : Z) : M rbs unit :=
  n <~ get node ;;
  let left := rb_left n in
  let parent := rb_parent n in
  ln <~ get left ;;
  modify node (with_left (rb_right ln)) ;;;
  (if negb (rb_right ln =? 0) then rb_set_parent (rb_right ln) node else ret tt) ;;;
  modify left (with_right node) ;;;
  rb_set_parent left parent ;;;
  repoint_right parent node left ;;;
  rb_set_parent node left.

(** ** Insertion *)
(** [parent], red, is a child of [gparent]; what is left to do when the uncle is not red *)
Definition rebalance_left (node parent gparent : Z) : M rbs unit :=
  pn <~ get parent ;;
  p <~ (if rb_right pn =? node then __rb_rotate_left parent ;;; ret node else ret parent) ;;
  rb_set_black p ;;; rb_set_red gparent ;;; __rb_rotate_right gparent.
Definition rebalance_right (node parent gparent : Z) : M rbs unit :=
  pn <~ get parent ;;
  p <~ (if rb_left pn =? node then __rb_rotate_right parent ;;; ret node else ret parent) ;;
  rb_set_black p ;;; rb_set_red gparent ;;; __rb_rotate_left gparent.

(** after a rotation the loop goes on with the node below the new root of the rotated part, which is black *)
Fixpoint insert_loop (fuel : nat) (node : Z) : M rbs unit :=
  match fuel with
  | O => fun _ => NoFuel
  | S fuel =>
      n <~ get node ;;
      let parent := rb_parent n in
      if parent =? 0 then ret tt
      else
        pn <~ get parent ;;
        if negb (rb_is_red pn) then ret tt
        else
          let gparent := rb_parent pn in
          gn <~ get gparent ;;
          let left := parent =? rb_left gn in
          let uncle := if left then rb_right gn else rb_left gn in
          red <~ (if uncle =? 0 then ret false else un <~ get uncle ;; ret (rb_is_red un)) ;;
          if red then
            rb_set_black uncle ;;; rb_set_black parent ;;; rb_set_red gparent ;;; insert_loop fuel gparent
          else
            pn <~ get parent ;;
            let node' := if (if left then rb_right pn else rb_left pn) =? node then parent else node in
            (if left then rebalance_left node parent gparent else rebalance_right node parent gparent) ;;;
            insert_loop fuel node'
  end.

Definition rb_insert_color (fuel : nat) (node : Z) : M rbs unit :=
  insert_loop fuel node ;;; (fun s => rb_set_black (root s) s).

(** a pointer that is written through: [struct rb_node **] *)
Inductive link := LinkRoot | LinkLeft (x : Z) | LinkRight (x : Z).

Definition write_link (l : link) (x : Z) : M rbs unit :=
  match l with LinkRoot => set_root x | LinkLeft p => modify p (with_left x) | LinkRight p => modify p (with_right x) end.
Definition read_link (l : link) : M rbs Z :=
  match l with LinkRoot => fun s => Done (root s, s) | LinkLeft p => n <~ get p ;; ret (rb_left n) | LinkRight p => n <~ get p ;; ret (rb_right n) end.

Definition rb_link_node (node parent : Z) (l : link) : M rbs unit := put node (mk_rb parent 0 0) ;;; write_link l node.

(** a turn per node is enough for every loop along a path *)
Definition turns (s : rbs) : nat := S (S (size (heap s))).

Definition rb_link_and_balance (node parent : Z) (l : link) : M rbs unit :=
  rb_link_node node parent l ;;; (fun s => rb_insert_color (turns s) node s).

(** ** Searching *)
(** what is found when the wanted element is compared with that of a node *)
Inductive way := Left | Right | Here | Fail.

(** the loop of the searches: the node that is found, or nothing when the comparison fails, or the place for a new node *)
Inductive search_result := Found (x : Z) | Failed | Place (parent : Z) (l : link).
Fixpoint descend (fuel : nat) (f : Z -> way) (parent : Z) (new : link) : M rbs search_result :=
  match fuel with
  | O => fun _ => NoFuel
  | S fuel =>
      node <~ read_link new ;;
      if node =? 0 then ret (Place parent new)
      else
        match f node with
        | Left => descend fuel f node (LinkLeft node)
        | Right => descend fuel f node (LinkRight node)
        | Here => ret (Found node)
        | Fail => ret Failed
        end
  end.
Definition search (f : Z -> way) : M rbs search_result := fun s => descend (turns s) f 0 LinkRoot s.

(** ** In order *)
Fixpoint leftmost (fuel : nat) (x : Z) : M rbs Z :=
  match fuel with
  | O => fun _ => NoFuel
  | S fuel => n <~ get x ;; if rb_left n =? 0 then ret x else leftmost fuel (rb_left n)
  end.
Definition rb_first : M rbs Z := fun s => if root s =? 0 then Done (0, s) else leftmost (turns s) (root s) s.

Fixpoint climb (fuel : nat) (x : Z) : M rbs Z :=
  match fuel with
  | O => fun _ => NoFuel
  | S fuel =>
      n <~ get x ;;
      let parent := rb_parent n in
      if parent =? 0 then ret 0 else pn <~ get parent ;; if x =? rb_right pn then climb fuel parent else ret parent
  end.
Definition rb_next (x : Z) : M rbs Z :=
  n <~ get x ;;
  if rb_parent n =? x then ret 0
  else if negb (rb_right n =? 0) then fun s => leftmost (turns s) (rb_right n) s
  else fun s => climb (turns s) x s.
End RbTree.
