(* ===== verification/RbShape.v ===== *)
(** * The shape of a red-black tree

    What a heap of nodes represents: a tree, or a place in a tree with the way up to its root. *)
From S2P Require Import Prelude.
From S2P Require Import RbTree.
Import RbTree.RbTree.
#[local] Open Scope cmon_scope.

Module RbShape.

(** ** Trees and places in them *)
Inductive color := Red | Black.
Definition bit (c : color) : Z := match c with Red => 0 | Black => 1 end.

Inductive rbt := E | N (c : color) (l : rbt) (x : Z) (r : rbt).
Definition ptr (t : rbt) : Z := match t with E => 0 | N _ _ x _ => x end.
Fixpoint inorder (t : rbt) : list Z := match t with E => [] | N _ l x r => inorder l ++ x :: inorder r end.

(** a node above the place: its colour and what is on its other side *)
Inductive frame := FL (c : color) (x : Z) (r : rbt) | FR (c : color) (l : rbt) (x : Z).
Definition fx (f : frame) : Z := match f with FL _ x _ => x | FR _ _ x => x end.
Definition up (k : list frame) : Z := match k with [] => 0 | f :: _ => fx f end.
Definition plug1 (f : frame) (t : rbt) : rbt := match f with FL c x r => N c t x r | FR c l x => N c l x t end.
Fixpoint plug (k : list frame) (t : rbt) : rbt := match k with [] => t | f :: k => plug k (plug1 f t) end.
Fixpoint around (k : list frame) : list Z :=
  match k with [] => [] | FL _ x r :: k => x :: inorder r ++ around k | FR _ l x :: k => x :: inorder l ++ around k end.

(** the pointer that the place hangs from *)
Definition link_of (k : list frame) : link := match k with [] => LinkRoot | FL _ x _ :: _ => LinkLeft x | FR _ _ x :: _ => LinkRight x end.

Lemma inorder_plug k t : inorder (plug k t) ≡ₚ inorder t ++ around k.
Proof.
  revert t. induction k as [|[c x r|c l x] k IH]; intros t; cbn; [by rewrite app_nil_r|..]; rewrite IH; cbn; [by rewrite <-app_assoc|].
  rewrite <-app_assoc. cbn. rewrite <-!Permutation_middle. f_equiv. rewrite !app_assoc. f_equiv. apply Permutation_app_comm.
Qed.

(** ** The words of a node *)
Definition aligned (x : Z) : Prop := x mod 4 = 0.
(** an address *)
Definition addr (x : Z) : Prop := 0 < x /\ aligned x.

Ltac dlia := Z.div_mod_to_equations; lia.

Lemma parent_bit p c r l : aligned p -> rb_parent (mk_rb (p + bit c) r l) = p.
Proof.
  unfold aligned, rb_parent, RB_MASK. cbn [rb_parent_color]. intros Hp. change 3 with (Z.ones 2). rewrite Z.ldiff_ones_r by lia. rewrite Z.shiftl_mul_pow2, Z.shiftr_div_pow2 by lia.
  change (2 ^ 2) with 4. destruct c; cbn [bit]; dlia.
Qed.
Lemma red_bit p c r l : aligned p -> rb_is_red (mk_rb (p + bit c) r l) = match c with Red => true | Black => false end.
Proof.
  unfold aligned, rb_is_red, rb_color, RB_BLACK. cbn [rb_parent_color]. intros Hp. change 1 with (Z.ones 1) at 1. rewrite Z.land_ones by lia. change (2 ^ 1) with 2.
  destruct c; cbn [bit]; [apply Z.eqb_eq|apply Z.eqb_neq]; dlia.
Qed.
Lemma lor_one a : a mod 2 = 0 -> Z.lor a 1 = a + 1.
Proof. intros H. rewrite Z.add_nocarry_lxor, <-Z.lxor_lor; [done|..]; change 1 with (Z.ones 1); rewrite Z.land_ones by lia; exact H. Qed.
Lemma set_red_bit p c : aligned p -> Z.ldiff (p + bit c) RB_BLACK = p + bit Red.
Proof.
  unfold aligned, RB_BLACK. intros Hp. change 1 with (Z.ones 1). rewrite Z.ldiff_ones_r by lia. rewrite Z.shiftl_mul_pow2, Z.shiftr_div_pow2 by lia. change (2 ^ 1) with 2. destruct c; cbn [bit]; dlia.
Qed.
Lemma set_black_bit p c : aligned p -> Z.lor (p + bit c) RB_BLACK = p + bit Black.
Proof.
  unfold aligned, RB_BLACK. intros Hp. destruct c; cbn [bit].
  - rewrite Z.add_0_r. apply lor_one. dlia.
  - rewrite <-(lor_one p) at 1 by dlia. rewrite <-Z.lor_assoc, Z.lor_diag. apply lor_one. dlia.
Qed.
Lemma set_parent_bit p c q : aligned p -> aligned q -> Z.lor (Z.land (p + bit c) RB_MASK) q = q + bit c.
Proof.
  unfold aligned, RB_MASK. intros Hp Hq. change 3 with (Z.ones 2). rewrite Z.land_ones by lia. change (2 ^ 2) with 4.
  assert ((p + bit c) mod 4 = bit c) as -> by (destruct c; cbn [bit]; dlia). destruct c; cbn [bit]; [by rewrite Z.lor_0_l, Z.add_0_r|]. rewrite Z.lor_comm. apply lor_one. dlia.
Qed.

(** ** What a heap represents *)
Fixpoint repr (h : gmap Z rb_node) (p : Z) (t : rbt) : Prop :=
  match t with
  | E => True
  | N c l x r => addr x /\ h !! x = Some (mk_rb (p + bit c) (ptr r) (ptr l)) /\ repr h x l /\ repr h x r
  end.
Fixpoint repr_up (h : gmap Z rb_node) (rt : Z) (k : list frame) (p : Z) : Prop :=
  match k with
  | [] => rt = p
  | FL c x r :: k => addr x /\ h !! x = Some (mk_rb (up k + bit c) (ptr r) p) /\ repr h x r /\ repr_up h rt k x
  | FR c l x :: k => addr x /\ h !! x = Some (mk_rb (up k + bit c) p (ptr l)) /\ repr h x l /\ repr_up h rt k x
  end.

(** the place with the tree [t] and [k] above it *)
Record at_place (s : rbs) (k : list frame) (t : rbt) : Prop := {
  ap_tree : repr (heap s) (up k) t;
  ap_up : repr_up (heap s) (root s) k (ptr t);
  ap_nodup : NoDup (inorder t ++ around k);
}.

Lemma repr_ext h h' p t : (forall z, z ∈ inorder t -> h' !! z = h !! z) -> repr h p t -> repr h' p t.
Proof.
  revert p. induction t as [|c l IHl x r IHr]; intros p He; cbn [repr inorder] in *; [done|]. intros (H1 & H2 & H3 & H4). split_and!; [done| |apply IHl; [|done]|apply IHr; [|done]].
  - rewrite He; [done|]. apply elem_of_app. right. left.
  - intros z Hz. apply He, elem_of_app. by left.
  - intros z Hz. apply He, elem_of_app. right. by right.
Qed.
Lemma repr_up_ext h h' rt k p : (forall z, z ∈ around k -> h' !! z = h !! z) -> repr_up h rt k p -> repr_up h' rt k p.
Proof.
  revert p. induction k as [|[c x r|c l x] k IH]; intros p He; cbn [repr_up around] in *; [done|..]; intros (H1 & H2 & H3 & H4).
  all: split_and!; [done|rewrite He; [done|left]|eapply repr_ext; [|done]; intros z Hz; apply He; right; apply elem_of_app; by left|apply IH; [|done]; intros z Hz; apply He; right; apply elem_of_app; by right].
Qed.

Lemma up_aligned h rt k p : repr_up h rt k p -> aligned (up k).
Proof. destruct k as [|[] k]; cbn; [done|..]; by intros [[_ H] _]. Qed.
Lemma ptr_addr h p t : repr h p t -> t <> E -> addr (ptr t).
Proof. destruct t; [done|]. by intros [H _]. Qed.
Lemma ptr_zero h p t : repr h p t -> (ptr t =? 0) = match t with E => true | _ => false end.
Proof. destruct t as [|c l x r]; [done|]. intros [[H _] _]. cbn. apply Z.eqb_neq. lia. Qed.

(** ** Moving the place *)
Lemma down_left s k c l x r : at_place s k (N c l x r) <-> at_place s (FL c x r :: k) l.
Proof.
  split.
  - intros [(H1 & H2 & H3 & H4) Hu Hn]. split; [done|by split_and!|]. cbn in *. by rewrite <-app_assoc in Hn.
  - intros [H3 (H1 & H2 & H4 & Hu) Hn]. split; [by split_and!|done|]. cbn in *. by rewrite <-app_assoc.
Qed.
Lemma down_right s k c l x r : at_place s k (N c l x r) <-> at_place s (FR c l x :: k) r.
Proof.
  assert (Hp : inorder (N c l x r) ++ around k ≡ₚ inorder r ++ around (FR c l x :: k)).
  { cbn. rewrite <-app_assoc. cbn. rewrite <-!Permutation_middle. f_equiv. rewrite !app_assoc. f_equiv. apply Permutation_app_comm. }
  split.
  - intros [(H1 & H2 & H3 & H4) Hu Hn]. split; [done|by split_and!|]. by rewrite <-Hp.
  - intros [H3 (H1 & H2 & H4 & Hu) Hn]. split; [by split_and!|done|]. by rewrite Hp.
Qed.
Lemma at_plug1 s k f t : at_place s (f :: k) t <-> at_place s k (plug1 f t).
Proof. destruct f; cbn [plug1]; symmetry; [apply down_left|apply down_right]. Qed.
Lemma at_plug s k t : at_place s k t <-> at_place s [] (plug k t).
Proof. revert t. induction k as [|f k IH]; intros t; [done|]. cbn [plug]. by rewrite at_plug1, IH. Qed.
End RbShape.
