(* ===== verification/RbInsert.v ===== *)
(** * Insertion into a red-black tree

    What the rotations and rb_insert_color do to the tree that a heap represents. *)
From S2P Require Import Prelude.
From S2P Require Import RbTree.
From S2P Require Import RbShape.
Import RbTree.RbTree RbShape.RbShape.
#[local] Open Scope cmon_scope.

Module RbInsert.

(** ** Single writes *)
Definition only (S : list Z) (s s' : rbs) : Prop := forall z, z ∉ S -> heap s' !! z = heap s !! z.

Lemma get_at s x n : heap s !! x = Some n -> get x s = Done (n, s).
Proof. unfold get. by intros ->. Qed.
Lemma modify_at s x n f : heap s !! x = Some n -> modify x f s = Done (tt, mk_rbs (<[x := f n]> (heap s)) (root s)).
Proof. intros H. unfold modify, bind. by rewrite (get_at s x n H). Qed.

Lemma upd_same (h : gmap Z rb_node) x n : <[x := n]> h !! x = Some n.
Proof. by rewrite lookup_insert, decide_True. Qed.
Lemma upd_other (h : gmap Z rb_node) x n z : z <> x -> <[x := n]> h !! z = h !! z.
Proof. intros H. by apply lookup_insert_ne. Qed.

(** a tree that hangs below another node *)
Lemma set_parent_at s p t q : repr (heap s) p t -> NoDup (inorder t) -> aligned p -> aligned q -> t <> E ->
  exists h', rb_set_parent (ptr t) q s = Done (tt, mk_rbs h' (root s)) /\ repr h' q t /\ (forall z, z <> ptr t -> h' !! z = heap s !! z).
Proof.
  destruct t as [|c l x r]; [done|]. intros (Ha & Hx & Hl & Hr) Hn Hp Hq _. cbn [ptr]. unfold rb_set_parent. rewrite (modify_at s x _ _ Hx). eexists. split; [done|].
  cbn [inorder] in Hn. apply list.NoDup_app in Hn as (_ & Hn1 & Hn2). apply list.NoDup_cons in Hn2 as [Hn2 _]. split.
  - cbn [repr]. split_and!; [done| | |].
    + rewrite upd_same. unfold with_pc. cbn. by rewrite set_parent_bit.
    + eapply repr_ext; [|done]. intros z Hz. apply upd_other. intros ->. apply (Hn1 x Hz). left.
    + eapply repr_ext; [|done]. intros z Hz. apply upd_other. by intros ->.
  - intros z Hz. by apply upd_other.
Qed.

(** the pointer from above is turned to another node *)
Lemma repoint_at s k p q : repr_up (heap s) (root s) k p -> p ∉ around k -> 0 < p -> NoDup (around k) ->
  exists s', repoint_left (up k) p q s = Done (tt, s') /\ repoint_right (up k) p q s = Done (tt, s') /\ repr_up (heap s') (root s') k q /\ only (around k) s s'.
Proof.
  intros Hu Hp Hpos Hn. unfold repoint_left, repoint_right. destruct k as [|f k]; [by exists (mk_rbs (heap s) q)|].
  assert (Hx : exists n n', heap s !! fx f = Some n /\ n' = (match f with FL _ _ _ => with_left q n | FR _ _ _ => with_right q n end) /\
      (p =? rb_left n) = (match f with FL _ _ _ => true | _ => false end) /\ (p =? rb_right n) = (match f with FL _ _ _ => false | _ => true end) /\ 0 < fx f /\
      repr_up (<[fx f := n']> (heap s)) (root s) (f :: k) q).
  { assert (Hne : forall z t, repr (heap s) z t -> (forall y, y ∈ inorder t -> y ∈ around (f :: k)) -> (p =? ptr t) = false).
    { intros z t Ht Hin. apply Z.eqb_neq. destruct t as [|c' l x r]; cbn; [lia|]. intros ->. apply Hp, Hin. cbn. apply elem_of_app. right. left. }
    destruct f as [c x r|c l x]; cbn [repr_up around fx] in *; destruct Hu as ([Ha Hal] & Hx & Ht & Hu); eexists _, _; (split; [exact Hx|]); (split; [done|]); cbn [rb_left rb_right];
      pose proof (Hne _ _ Ht ltac:(intros y Hy; right; apply elem_of_app; by left)) as E; rewrite Z.eqb_refl, E.
    all: apply list.NoDup_cons in Hn as [Hn _]; split_and!; [done..|exact (conj Ha Hal)|by rewrite upd_same| |].
    all: first [eapply repr_ext; [|exact Ht]; intros z Hz; apply upd_other; intros ->; apply Hn, elem_of_app; by left
               |eapply repr_up_ext; [|exact Hu]; intros z Hz; apply upd_other; intros ->; apply Hn, elem_of_app; by right]. }
  destruct Hx as (n & n' & Hx & -> & E1 & E2 & Hf & Hr). cbn [up]. assert ((fx f =? 0) = false) as -> by (apply Z.eqb_neq; lia). cbn [negb]. unfold bind. rewrite (get_at s _ n Hx), E1, E2.
  exists (mk_rbs (<[fx f := match f with FL _ _ _ => with_left q n | FR _ _ _ => with_right q n end]> (heap s)) (root s)).
  destruct f as [c x r|c l x]; cbn [fx] in *; rewrite !(modify_at s _ n _ Hx); split_and!; try done; intros z Hz; apply upd_other; intros ->; apply Hz; left.
Qed.

(** ** Rotations *)
(** the parts of a tree have no node in common *)
Record apart (x y : Z) (l1 l2 l3 l4 : list Z) : Prop := {
  aq_ne : x <> y;
  aq_nodup : NoDup l1 /\ NoDup l2 /\ NoDup l3 /\ NoDup l4;
  aq_1 : forall z, z ∈ l1 -> z <> x /\ z <> y /\ (z ∉ l2) /\ (z ∉ l3) /\ z ∉ l4;
  aq_2 : forall z, z ∈ l2 -> z <> x /\ z <> y /\ (z ∉ l1) /\ (z ∉ l3) /\ z ∉ l4;
  aq_3 : forall z, z ∈ l3 -> z <> x /\ z <> y /\ (z ∉ l1) /\ (z ∉ l2) /\ z ∉ l4;
  aq_4 : forall z, z ∈ l4 -> z <> x /\ z <> y /\ (z ∉ l1) /\ (z ∉ l2) /\ z ∉ l3;
}.
Lemma apart_parts x y l1 l2 l3 l4 : NoDup (x :: y :: l1 ++ l2 ++ l3 ++ l4) -> apart x y l1 l2 l3 l4.
Proof.
  rewrite !list.NoDup_cons, !list.NoDup_app. setoid_rewrite elem_of_cons. repeat setoid_rewrite elem_of_app.
  intros (Hx & Hy & H1 & H1' & H2 & H2' & H3 & H3' & H4). split; [intros ->; tauto|tauto|..]; intros z Hz; specialize (H1' z); specialize (H2' z); specialize (H3' z);
    split_and!; first [intros ->; tauto|tauto].
Qed.

(** one step of a rotation: what it writes, and what stays *)
Lemma reparent_at s p t q : repr (heap s) p t -> NoDup (inorder t) -> aligned p -> aligned q ->
  exists h', (if negb (ptr t =? 0) then rb_set_parent (ptr t) q else ret tt) s = Done (tt, mk_rbs h' (root s)) /\ repr h' q t /\ forall z, z ∉ inorder t -> h' !! z = heap s !! z.
Proof.
  intros Ht Hn Hp Hq. rewrite (ptr_zero _ _ _ Ht). destruct t as [|c l x r]; [by exists (heap s); destruct s|].
  destruct (set_parent_at s p (N c l x r) q Ht Hn Hp Hq ltac:(done)) as (h' & E & Hr & Ho). exists h'. split_and!; [done|done|]. intros z Hz. apply Ho. intros ->. apply Hz. cbn. apply elem_of_app. right. left.
Qed.
Lemma set_parent_node s x p q c r l : heap s !! x = Some (mk_rb (p + bit c) r l) -> aligned p -> aligned q ->
  rb_set_parent x q s = Done (tt, mk_rbs (<[x := mk_rb (q + bit c) r l]> (heap s)) (root s)).
Proof. intros H Hp Hq. unfold rb_set_parent. rewrite (modify_at s x _ _ H). unfold with_pc. cbn. by rewrite set_parent_bit. Qed.

Section Rotate.
Variables (s : rbs) (k : list frame) (c c' : color) (x y : Z) (a b d : rbt).

Lemma rotate_left_at : at_place s k (N c a x (N c' b y d)) ->
  exists s', __rb_rotate_left x s = Done (tt, s') /\ at_place s' k (N c' (N c a x b) y d).
Proof.
  intros [(Hax & Hx & Ha & Hay & Hy & Hb & Hd) Hu Hn]. pose proof (up_aligned _ _ _ _ Hu) as Hup. cbn [ptr] in *.
  assert (Hap : apart x y (inorder a) (inorder b) (inorder d) (around k)).
  { apply apart_parts. assert (Hp : inorder (N c a x (N c' b y d)) ++ around k ≡ₚ x :: y :: inorder a ++ inorder b ++ inorder d ++ around k); [|by rewrite <-Hp].
    cbn. rewrite <-!app_assoc. cbn. rewrite <-!app_assoc. cbn. by rewrite <-!Permutation_middle. }
  destruct Hap as [Hxy (_ & Hnb & _ & Hnk) Q1 Q2 Q3 Q4]. unfold __rb_rotate_left. unfold bind at 1. rewrite (get_at s x _ Hx). cbn [rb_right]. rewrite (parent_bit (up k)) by done.
  unfold bind at 1. rewrite (get_at s y _ Hy). cbn [rb_left]. unfold bind at 1. rewrite (modify_at s x _ _ Hx). unfold with_right at 1. cbn [rb_parent_color rb_left]. set (s1 := mk_rbs _ _).
  assert (O1 : forall z, z <> x -> heap s1 !! z = heap s !! z) by (intros z Hz; by apply upd_other).
  destruct (reparent_at s1 y b x) as (h2 & E2 & Hb2 & O2); [eapply repr_ext; [|exact Hb]; intros z Hz; apply O1; by destruct (Q2 z Hz)|done|apply Hay|apply Hax|].
  unfold bind at 1. rewrite E2. set (s2 := mk_rbs h2 _). assert (Hyb : y ∉ inorder b) by (intros Hz; by destruct (Q2 y Hz) as (_ & ? & _)). assert (Hxb : x ∉ inorder b) by (intros Hz; by destruct (Q2 x Hz)).
  assert (Hy2 : heap s2 !! y = Some (mk_rb (x + bit c') (ptr d) (ptr b))) by (cbn; rewrite O2, O1; done).
  assert (Hx2 : heap s2 !! x = Some (mk_rb (up k + bit c) (ptr b) (ptr a))) by (cbn; rewrite O2 by done; apply upd_same).
  unfold bind at 1. rewrite (modify_at s2 y _ _ Hy2). unfold with_left at 1. cbn [rb_parent_color rb_right]. set (s3 := mk_rbs _ _).
  unfold bind at 1. rewrite (set_parent_node s3 y x (up k) c' (ptr d) x) by (try apply upd_same; try apply Hax; done). set (s4 := mk_rbs _ _).
  assert (O4 : forall z, z <> y -> heap s4 !! z = heap s2 !! z) by (intros z Hz; cbn; by rewrite !upd_other).
  destruct (repoint_at s4 k x y) as (s5 & E5 & _ & Hu5 & O5); [|intros Hz; by destruct (Q4 x Hz)|apply Hax|done|].
  { cbn. eapply repr_up_ext; [|exact Hu]. intros z Hz. destruct (Q4 z Hz) as (H1 & H2 & H3 & H4 & H5). change (heap s4 !! z = heap s !! z). rewrite O4 by done. cbn. rewrite O2 by done. by apply O1. }
  unfold bind. rewrite E5. assert (Hxk : x ∉ around k) by (intros Hz; by destruct (Q4 x Hz)). assert (Hyk : y ∉ around k) by (intros Hz; by destruct (Q4 y Hz) as (_ & ? & _)).
  assert (Hx5 : heap s5 !! x = Some (mk_rb (up k + bit c) (ptr b) (ptr a))) by (rewrite O5, O4; done).
  rewrite (set_parent_node s5 x (up k) y c (ptr b) (ptr a) Hx5) by (try apply Hay; done). eexists. split; [done|]. set (s6 := mk_rbs _ _).
  assert (O6 : forall z, z <> x -> (z ∉ around k) -> z <> y -> heap s6 !! z = heap s2 !! z) by (intros z H1 H2 H3; cbn; rewrite upd_other, O5, O4; done).
  split.
  - cbn [repr ptr]. split_and!; [done| |done| | | |].
    + cbn. rewrite upd_other, O5 by done. cbn. by rewrite upd_same.
    + cbn. by rewrite upd_same.
    + eapply repr_ext; [|exact Ha]. intros z Hz. destruct (Q1 z Hz) as (H1 & H2 & H3 & H4 & H5). rewrite O6 by done. cbn. rewrite O2 by done. by apply O1.
    + eapply repr_ext; [|exact Hb2]. intros z Hz. destruct (Q2 z Hz) as (H1 & H2 & H3 & H4 & H5). by rewrite O6.
    + eapply repr_ext; [|exact Hd]. intros z Hz. destruct (Q3 z Hz) as (H1 & H2 & H3 & H4 & H5). rewrite O6 by done. cbn. rewrite O2 by done. by apply O1.
  - cbn [ptr]. eapply repr_up_ext; [|exact Hu5]. intros z Hz. cbn. apply upd_other. by intros ->.
  - cbn [inorder] in *. rewrite <-!app_assoc in *. cbn in *. by rewrite <-!app_assoc in *.
Qed.
End Rotate.

(** ** The mirror image *)
Definition mirror_node (n : rb_node) : rb_node := mk_rb (rb_parent_color n) (rb_left n) (rb_right n).
Definition mirror (s : rbs) : rbs := mk_rbs (mirror_node <$> heap s) (root s).
Fixpoint mirror_tree (t : rbt) : rbt := match t with E => E | N c l x r => N c (mirror_tree r) x (mirror_tree l) end.
Definition mirror_frame (f : frame) : frame := match f with FL c x r => FR c (mirror_tree r) x | FR c l x => FL c x (mirror_tree l) end.

(** [m'] does in the mirror what [m] does *)
Definition mirrors {A} (m m' : M rbs A) : Prop :=
  forall s, m' (mirror s) = match m s with Done (a, s') => Done (a, mirror s') | Bug => Bug | NoFuel => NoFuel end.

Lemma mirrors_ret {A} (a : A) : mirrors (ret a) (ret a).
Proof. by intros s. Qed.
Lemma mirrors_bind {A B} (m m' : M rbs A) (f f' : A -> M rbs B) : mirrors m m' -> (forall a, mirrors (f a) (f' a)) -> mirrors (bind m f) (bind m' f').
Proof. intros Hm Hf s. unfold bind. rewrite Hm. destruct (m s) as [[a s']| |]; [apply Hf|done..]. Qed.
Lemma mirrors_get {B} x (f f' : rb_node -> M rbs B) : (forall n, mirrors (f n) (f' (mirror_node n))) -> mirrors (bind (get x) f) (bind (get x) f').
Proof. intros Hf s. unfold bind, get. cbn. rewrite lookup_fmap. destruct (heap s !! x) as [n|]; [apply Hf|done]. Qed.
Lemma mirrors_modify x f f' : (forall n, f' (mirror_node n) = mirror_node (f n)) -> mirrors (modify x f) (modify x f').
Proof. intros Hf. apply mirrors_get. intros n s. unfold put, mirror. cbn. by rewrite Hf, fmap_insert. Qed.
Lemma mirrors_set_root x : mirrors (RbTree.set_root x) (RbTree.set_root x).
Proof. by intros s. Qed.
#[local] Hint Resolve mirrors_ret mirrors_set_root : core.
Lemma mirrors_set_parent x p : mirrors (rb_set_parent x p) (rb_set_parent x p).
Proof. by apply mirrors_modify. Qed.
Lemma mirrors_set_red x : mirrors (rb_set_red x) (rb_set_red x).
Proof. by apply mirrors_modify. Qed.
Lemma mirrors_set_black x : mirrors (rb_set_black x) (rb_set_black x).
Proof. by apply mirrors_modify. Qed.
Lemma mirrors_if {A} (b : bool) (m m' n n' : M rbs A) : mirrors m m' -> mirrors n n' -> mirrors (if b then m else n) (if b then m' else n').
Proof. by destruct b. Qed.
Lemma mirrors_repoint p x q : mirrors (repoint_left p x q) (repoint_right p x q) /\ mirrors (repoint_right p x q) (repoint_left p x q).
Proof. split; apply mirrors_if; try done; apply mirrors_get; intros n; apply mirrors_if; by apply mirrors_modify. Qed.

Lemma mirrors_rotate x : mirrors (__rb_rotate_left x) (__rb_rotate_right x) /\ mirrors (__rb_rotate_right x) (__rb_rotate_left x).
Proof.
  split; apply mirrors_get; intros n; apply mirrors_get; intros m;
    repeat first [apply mirrors_set_parent|by apply mirrors_modify|apply mirrors_repoint|apply mirrors_if; [apply mirrors_set_parent|done]|apply mirrors_bind; [|intros _]].
Qed.

Lemma mirror_mirror s : mirror (mirror s) = s.
Proof. destruct s as [h r]. unfold mirror. cbn. f_equal. rewrite <-map_fmap_compose. rewrite <-(map_fmap_id h) at 2. apply map_fmap_ext. by intros i []. Qed.
Lemma mirror_tree_twice t : mirror_tree (mirror_tree t) = t.
Proof. induction t as [|c l IHl x r IHr]; cbn; congruence. Qed.
Lemma mirror_up_twice k : map mirror_frame (map mirror_frame k) = k.
Proof. induction k as [|[c x r|c l x] k IH]; cbn; by rewrite ?mirror_tree_twice, ?IH. Qed.
Lemma mirror_inorder t : inorder (mirror_tree t) ≡ₚ inorder t.
Proof. induction t as [|c l IHl x r IHr]; [done|]. cbn. rewrite IHl, IHr. rewrite <-!Permutation_middle. f_equiv. apply Permutation_app_comm. Qed.
Lemma mirror_around k : around (map mirror_frame k) ≡ₚ around k.
Proof. induction k as [|[c x r|c l x] k IH]; [done|..]; cbn; by rewrite mirror_inorder, IH. Qed.
Lemma mirror_ptr t : ptr (mirror_tree t) = ptr t.
Proof. by destruct t. Qed.
Lemma mirror_above k : up (map mirror_frame k) = up k.
Proof. by destruct k as [|[]]. Qed.

Lemma mirror_repr s p t : repr (heap s) p t -> repr (heap (mirror s)) p (mirror_tree t).
Proof.
  revert p. induction t as [|c l IHl x r IHr]; intros p; [done|]. intros (H1 & H2 & H3 & H4). cbn [mirror_tree repr]. split_and!; [done| |by apply IHr|by apply IHl].
  cbn. rewrite lookup_fmap, H2. cbn. by rewrite !mirror_ptr.
Qed.
Lemma mirror_repr_up s k p : repr_up (heap s) (root s) k p -> repr_up (heap (mirror s)) (root s) (map mirror_frame k) p.
Proof.
  revert p. induction k as [|[c x r|c l x] k IH]; intros p; [done|..]; intros (H1 & H2 & H3 & H4); cbn [map mirror_frame repr_up].
  all: split_and!; [done|cbn; rewrite lookup_fmap, H2; cbn; by rewrite mirror_above, mirror_ptr|by apply mirror_repr|by apply IH].
Qed.
Lemma at_mirror s k t : at_place s k t -> at_place (mirror s) (map mirror_frame k) (mirror_tree t).
Proof.
  intros [H1 H2 H3]. split; [rewrite mirror_above; by apply mirror_repr|rewrite mirror_ptr; exact (mirror_repr_up s _ _ H2)|]. by rewrite mirror_inorder, mirror_around.
Qed.

(** what holds of [m] on trees holds of its mirror image *)
Lemma at_mirrored (m m' : M rbs unit) s k t t' : mirrors m m' ->
  (forall k0 s0, k0 = map mirror_frame k -> at_place s0 k0 (mirror_tree t) -> exists s1, m s0 = Done (tt, s1) /\ at_place s1 k0 (mirror_tree t')) ->
  at_place s k t -> exists s', m' s = Done (tt, s') /\ at_place s' k t'.
Proof.
  intros Hm Hat H. destruct (Hat _ (mirror s) eq_refl (at_mirror s k t H)) as (s1 & E & H1). exists (mirror s1). split; [by rewrite <-(mirror_mirror s), Hm, E|].
  apply at_mirror in H1. by rewrite mirror_up_twice, mirror_tree_twice in H1.
Qed.

Lemma rotate_right_at s k c c' x y a b d : at_place s k (N c (N c' a y b) x d) ->
  exists s', __rb_rotate_right x s = Done (tt, s') /\ at_place s' k (N c' a y (N c b x d)).
Proof. apply (at_mirrored (__rb_rotate_left x)); [apply mirrors_rotate|]. intros k0 s0 _. cbn [mirror_tree]. apply rotate_left_at. Qed.

(** ** What an insertion makes of the tree *)
Definition blacken (t : rbt) : rbt := match t with E => E | N _ l x r => N Black l x r end.
Definition is_red (t : rbt) : bool := match t with N Red _ _ _ => true | _ => false end.
Definition colour (f : frame) : color := match f with FL c _ _ => c | FR c _ _ => c end.
(** the tree on the other side, and the frame with other colours *)
Definition other (f : frame) : rbt := match f with FL _ _ r => r | FR _ l _ => l end.
Definition with_other (t : rbt) (f : frame) : frame := match f with FL c x _ => FL c x t | FR c _ x => FR c t x end.
Definition coloured (c : color) (f : frame) : frame := match f with FL _ x r => FL c x r | FR _ l x => FR c l x end.

(** the tree of the grandparent [g], the parent [f] and the node [t] when the uncle is black: two rotations at most *)
Definition rotated (g f : frame) (t : rbt) : rbt :=
  match g, f with
  | FL _ gx u, FL _ p r => N Black t p (N Red r gx u)
  | FR _ u gx, FR _ l p => N Black (N Red u gx l) p t
  | FL _ gx u, FR _ l p => match t with N _ a x b => N Black (N Red l p a) x (N Red b gx u) | E => E end
  | FR _ u gx, FL _ p r => match t with N _ a x b => N Black (N Red u gx a) x (N Red b p r) | E => E end
  end.

Fixpoint fixup (k : list frame) (t : rbt) : rbt :=
  match k with
  | [] => t
  | f :: k1 =>
      match colour f, k1 with
      | Red, g :: k2 =>
          if is_red (other g) then fixup k2 (plug1 (coloured Red (with_other (blacken (other g)) g)) (blacken (plug1 f t)))
          else plug k2 (rotated g f t)
      | _, _ => plug k1 (plug1 f t)
      end
  end.

(** ** Colours *)
Lemma recolour_at s k c c' l x r f : at_place s k (N c l x r) -> (forall p, aligned p -> f (p + bit c) = p + bit c') ->
  exists s', modify x (fun n => with_pc (f (rb_parent_color n)) n) s = Done (tt, s') /\ at_place s' k (N c' l x r).
Proof.
  intros [(Ha & Hx & Hl & Hr) Hu Hn] Hf. pose proof (up_aligned _ _ _ _ Hu) as Hup. rewrite (modify_at s x _ _ Hx). eexists. split; [done|]. cbn [inorder] in Hn. pose proof Hn as Hn0.
  assert (Hp : (inorder l ++ x :: inorder r) ++ around k ≡ₚ x :: inorder l ++ inorder r ++ around k) by (rewrite <-app_assoc; cbn; by rewrite <-Permutation_middle).
  rewrite Hp in Hn. apply list.NoDup_cons in Hn as [Hn _]. rewrite !not_elem_of_app in Hn. destruct Hn as (N1 & N2 & N3). split.
  - cbn [repr]. split_and!; [done| | |].
    + cbn. rewrite upd_same. unfold with_pc. cbn. by rewrite Hf.
    + eapply repr_ext; [|exact Hl]. intros z Hz. apply upd_other. by intros ->.
    + eapply repr_ext; [|exact Hr]. intros z Hz. apply upd_other. by intros ->.
  - cbn [ptr] in *. eapply repr_up_ext; [|exact Hu]. intros z Hz. apply upd_other. by intros ->.
  - exact Hn0.
Qed.
Lemma set_black_at s k c l x r : at_place s k (N c l x r) -> exists s', rb_set_black x s = Done (tt, s') /\ at_place s' k (N Black l x r).
Proof. intros H. apply (recolour_at s k c Black l x r (fun w => Z.lor w RB_BLACK) H). intros p Hp. by apply set_black_bit. Qed.
Lemma set_red_at s k c l x r : at_place s k (N c l x r) -> exists s', rb_set_red x s = Done (tt, s') /\ at_place s' k (N Red l x r).
Proof. intros H. apply (recolour_at s k c Red l x r (fun w => Z.ldiff w RB_BLACK) H). intros p Hp. by apply set_red_bit. Qed.

Lemma set_black_top s k t : at_place s k t -> t <> E -> exists s', rb_set_black (ptr t) s = Done (tt, s') /\ at_place s' k (blacken t).
Proof. destruct t as [|c l x r]; [done|]. intros H _. by eapply set_black_at. Qed.
Lemma set_black_other s g k t : at_place s (g :: k) t -> other g <> E -> exists s', rb_set_black (ptr (other g)) s = Done (tt, s') /\ at_place s' (with_other (blacken (other g)) g :: k) t.
Proof.
  intros H Ho. apply at_plug1 in H. destruct g as [c x r|c l x]; cbn [plug1 other with_other] in *.
  - apply down_right in H. destruct (set_black_top s _ r H Ho) as (s' & E & H'). exists s'. split; [done|]. by apply down_left, down_right.
  - apply down_left in H. destruct (set_black_top s _ l H Ho) as (s' & E & H'). exists s'. split; [done|]. by apply down_right, down_left.
Qed.
Lemma set_red_up s g k t : at_place s (g :: k) t -> exists s', rb_set_red (fx g) s = Done (tt, s') /\ at_place s' (coloured Red g :: k) t.
Proof.
  intros H. apply at_plug1 in H. destruct g as [c x r|c l x]; cbn [plug1 fx coloured] in *; destruct (set_red_at s _ _ _ _ _ H) as (s' & E & H'); exists s'; (split; [done|]).
  - by apply down_left.
  - by apply down_right.
Qed.

(** ** Reading the nodes above *)
Definition frame_node (f : frame) (k : list frame) (p : Z) : rb_node :=
  match f with FL c x r => mk_rb (up k + bit c) (ptr r) p | FR c l x => mk_rb (up k + bit c) p (ptr l) end.
Lemma above_at s f k t : at_place s (f :: k) t ->
  heap s !! fx f = Some (frame_node f k (ptr t)) /\ addr (fx f) /\ rb_parent (frame_node f k (ptr t)) = up k /\ rb_is_red (frame_node f k (ptr t)) = match colour f with Red => true | Black => false end.
Proof.
  intros [_ Hu _]. destruct f as [c x r|c l x]; destruct Hu as (Ha & Hx & _ & Hu); apply up_aligned in Hu; cbn; split_and!; try done; by rewrite ?parent_bit, ?red_bit.
Qed.

(** a child is the left one or the right one *)
Lemma side_at s g k t : at_place s (g :: k) t -> t <> E -> (ptr t =? rb_left (frame_node g k (ptr t))) = match g with FL _ _ _ => true | FR _ _ _ => false end.
Proof.
  intros [Ht Hu Hn] Ht0. pose proof (ptr_addr _ _ _ Ht Ht0) as [Hpos _]. destruct g as [c x r|c l x]; cbn; [by rewrite Z.eqb_refl|]. apply Z.eqb_neq. intros E.
  destruct t as [|c1 l1 y r1]; [done|]. destruct l as [|c2 l2 z r2]; cbn in *; [lia|]. subst z. apply list.NoDup_app in Hn as (_ & Hn & _). apply (Hn y); [apply elem_of_app; right; left|].
  right. apply elem_of_app. left. apply elem_of_app. right. left.
Qed.

(** the colour of the uncle *)
Lemma uncle_at s g k t : at_place s (g :: k) t ->
  (if ptr (other g) =? 0 then ret false else un <~ get (ptr (other g)) ;; ret (rb_is_red un)) s = Done (is_red (other g), s).
Proof.
  intros [_ Hu _]. assert (Ho : repr (heap s) (fx g) (other g) /\ aligned (fx g)).
  { destruct g; destruct Hu as ([_ Ha] & _ & Ho & _); by split. }
  destruct Ho as [Ho Ha]. rewrite (ptr_zero _ _ _ Ho). destruct (other g) as [|c l x r]; [done|]. destruct Ho as (_ & Hx & _). cbn [ptr]. unfold bind. rewrite (get_at s x _ Hx). unfold ret.
  rewrite red_bit by done. by destruct c.
Qed.

(** ** One turn of the loop *)
Lemma child_is s f k t (b : bool) : at_place s (f :: k) t -> t <> E ->
  ((if b then rb_right (frame_node f k (ptr t)) else rb_left (frame_node f k (ptr t))) =? ptr t) = match f with FL _ _ _ => negb b | FR _ _ _ => b end.
Proof.
  intros H Ht. destruct b; [|rewrite Z.eqb_sym, (side_at s f k t H Ht); by destruct f]. apply at_mirror in H. assert (Hm : mirror_tree t <> E) by by destruct t.
  pose proof (side_at _ _ _ _ H Hm) as Hs. rewrite Z.eqb_sym, mirror_ptr in Hs. destruct f as [c x r|c l x]; cbn in *; rewrite ?mirror_ptr in Hs; by rewrite Hs.
Qed.

(** the node that the loop goes on with after the rotations *)
Definition next_node (g f : frame) (t : rbt) : Z :=
  match g, f with FL _ _ _, FR _ _ p | FR _ _ _, FL _ p _ => p | _, _ => ptr t end.

Lemma rebalance_left_at s k c gx u f t : at_place s (f :: FL c gx u :: k) t -> colour f = Red -> is_red t = true ->
  exists s', rebalance_left (ptr t) (fx f) gx s = Done (tt, s') /\ at_place s' k (rotated (FL c gx u) f t).
Proof.
  intros H Hf Ht. assert (Ht0 : t <> E) by by intros ->. destruct (above_at s f _ t H) as (Hx & _). unfold rebalance_left. unfold bind at 1. rewrite (get_at s _ _ Hx), (child_is s f _ t true H Ht0).
  assert (Hp : exists l p r s1, (if match f with FL _ _ _ => negb true | FR _ _ _ => true end then __rb_rotate_left (fx f) ;;; ret (ptr t) else ret (fx f)) s = Done (p, s1) /\
      at_place s1 (FL c gx u :: k) (N Red l p r) /\ rotated (FL c gx u) f t = N Black l p (N Red r gx u)).
  { destruct f as [cf p r|cf l p]; cbn in Hf; subst cf; apply at_plug1 in H; cbn [plug1 fx negb] in *; [by exists t, p, r, s|]. destruct t as [|[] a x b]; try done.
    destruct (rotate_left_at s _ _ _ _ _ _ _ _ H) as (s1 & E & H1). exists (N Red l p a), x, b, s1. unfold bind. by rewrite E. }
  destruct Hp as (l & p & r & s1 & E1 & H1 & ->). unfold bind at 1. rewrite E1. destruct (set_black_at s1 _ _ _ _ _ H1) as (s2 & E2 & H2). unfold bind at 1. rewrite E2.
  destruct (set_red_up s2 _ _ _ H2) as (s3 & E3 & H3). cbn [fx] in E3. unfold bind. rewrite E3. apply at_plug1 in H3. by eapply rotate_right_at.
Qed.

Lemma mirrors_rebalance x p g : mirrors (rebalance_left x p g) (rebalance_right x p g).
Proof.
  apply mirrors_get. intros n. apply mirrors_bind; [apply mirrors_if; [apply mirrors_bind; [apply mirrors_rotate|done]|done]|]. intros y.
  apply mirrors_bind; [apply mirrors_set_black|intros _]. apply mirrors_bind; [apply mirrors_set_red|intros _; apply mirrors_rotate].
Qed.
Lemma rebalance_right_at s k c gx u f t : at_place s (f :: FR c u gx :: k) t -> colour f = Red -> is_red t = true ->
  exists s', rebalance_right (ptr t) (fx f) gx s = Done (tt, s') /\ at_place s' k (rotated (FR c u gx) f t).
Proof.
  intros H Hf Ht. apply at_mirror in H. assert (Hm : is_red (mirror_tree t) = true) by by destruct t.
  destruct (rebalance_left_at _ (map mirror_frame k) c gx (mirror_tree u) (mirror_frame f) (mirror_tree t) H ltac:(by destruct f) Hm) as (s1 & E & H1). exists (mirror s1).
  rewrite mirror_ptr in E. split; [rewrite <-(mirror_mirror s), (mirrors_rebalance _ _ _ (mirror s)); replace (fx f) with (fx (mirror_frame f)) by (by destruct f); by rewrite E|].
  apply at_mirror in H1. rewrite mirror_up_twice in H1. destruct f, t; cbn in *; rewrite ?mirror_tree_twice in H1; done.
Qed.

Lemma loop_top s t fuel : at_place s [] t -> t <> E -> insert_loop (S fuel) (ptr t) s = Done (tt, s).
Proof. intros [Ht Hu Hn] Ht0. destruct t as [|c l x r]; [done|]. destruct Ht as (_ & Hx & _). cbn. unfold bind. rewrite (get_at s _ _ Hx). by rewrite parent_bit. Qed.
Lemma loop_black s f k t fuel : at_place s (f :: k) t -> t <> E -> colour f = Black -> insert_loop (S fuel) (ptr t) s = Done (tt, s).
Proof.
  intros H Ht0 Hf. destruct (above_at s f k t H) as (Hfx & [Hpos _] & _ & Hred). pose proof (ap_tree _ _ _ H) as Ht. pose proof (up_aligned _ _ _ _ (ap_up _ _ _ H)) as Hal.
  destruct t as [|c l x r]; [done|]. destruct Ht as (_ & Hx & _). cbn [insert_loop ptr]. unfold bind. rewrite (get_at s _ _ Hx), (parent_bit _ _ _ _ Hal). cbn [up].
  assert ((fx f =? 0) = false) as -> by (apply Z.eqb_neq; lia). cbn [ptr] in *. by rewrite (get_at s _ _ Hfx), Hred, Hf.
Qed.

(** where the loop is after the rotations *)
Lemma rotated_place s k g f t : at_place s k (rotated g f t) -> is_red t = true -> exists f' t', at_place s (f' :: k) t' /\ ptr t' = next_node g f t /\ t' <> E /\ colour f' = Black.
Proof.
  intros H Ht. destruct t as [|c a x b]; [done|]. destruct g as [cg gx u|cg u gx], f as [cf p r|cf l p]; cbn in *.
  - apply down_left in H. by eexists _, _.
  - apply down_left in H. by eexists _, _.
  - apply down_right in H. by eexists _, _.
  - apply down_right in H. by eexists _, _.
Qed.

(** ** The loop *)
Fixpoint top_black (k : list frame) : Prop := match k with [] => True | f :: k' => match k' with [] => colour f = Black | _ :: _ => top_black k' end end.

Lemma insert_loop_at n : forall k, (length k <= n)%nat -> forall s t fuel, at_place s k t -> is_red t = true -> top_black k -> (length k + 2 <= fuel)%nat ->
  exists s', insert_loop fuel (ptr t) s = Done (tt, s') /\ at_place s' [] (fixup k t).
Proof.
  induction n as [|n IH]; intros k Hk s t fuel H Ht Htop Hfuel; (destruct fuel as [|fuel]; [lia|]); assert (Ht0 : t <> E) by (by intros ->).
  { destruct k; [|cbn in Hk; lia]. exists s. split; [by apply loop_top|done]. }
  destruct k as [|f k1]; [exists s; split; [by apply loop_top|done]|]. destruct (colour f) eqn:Hf.
  2: { exists s. split; [by eapply loop_black|]. cbn [fixup]. rewrite Hf. apply at_plug1 in H. by apply at_plug in H. }
  destruct k1 as [|g k2]; [by cbn in Htop; congruence|]. cbn [fixup length] in *. rewrite Hf. destruct (above_at s f _ t H) as (Hfx & [Hpos _] & Hpar & Hred). rewrite Hf in Hred.
  pose proof (proj1 (at_plug1 s (g :: k2) f t) H) as H'. assert (Hf0 : plug1 f t <> E) by by destruct f. assert (Hfp : ptr (plug1 f t) = fx f) by by destruct f.
  destruct (above_at s g k2 _ H') as (Hgx & [Hgpos _] & _). pose proof (ap_tree _ _ _ H) as Htr. pose proof (up_aligned _ _ _ _ (ap_up _ _ _ H)) as Hal. rewrite Hfp in Hgx.
  cbn [insert_loop]. assert (Hn : exists nd, heap s !! ptr t = Some nd /\ rb_parent nd = fx f).
  { destruct t as [|c l x r]; [done|]. destruct Htr as (_ & Hx & _). eexists. split; [exact Hx|]. by rewrite (parent_bit _ _ _ _ Hal). }
  destruct Hn as (nd & Hnd & Hpn). unfold bind at 1. rewrite (get_at s _ _ Hnd), Hpn. assert ((fx f =? 0) = false) as -> by (apply Z.eqb_neq; lia).
  unfold bind at 1. rewrite (get_at s _ _ Hfx), Hred. cbn [negb]. rewrite Hpar. cbn [up]. unfold bind at 1. rewrite (get_at s _ _ Hgx).
  pose proof (side_at s g k2 _ H' Hf0) as Hside. rewrite Hfp in Hside. rewrite Hside. pose proof (uncle_at s g k2 _ H') as Hun.
  assert (Hou : (if match g with FL _ _ _ => true | FR _ _ _ => false end then rb_right (frame_node g k2 (fx f)) else rb_left (frame_node g k2 (fx f))) = ptr (other g)) by by destruct g.
  rewrite Hou. unfold bind at 1. rewrite Hun. destruct (is_red (other g)) eqn:Hog.
  - assert (Hog0 : other g <> E) by (intros E0; by rewrite E0 in Hog). destruct (set_black_other s g k2 _ H' Hog0) as (s1 & E1 & H1). unfold bind at 1. rewrite E1.
    destruct (set_black_top s1 _ _ H1 Hf0) as (s2 & E2 & H2). rewrite Hfp in E2. unfold bind at 1. rewrite E2. destruct (set_red_up s2 _ _ _ H2) as (s3 & E3 & H3).
    assert (Hg3 : fx (with_other (blacken (other g)) g) = fx g) by (clear; by destruct g). rewrite Hg3 in E3. unfold bind. rewrite E3. apply at_plug1 in H3.
    set (t' := plug1 (coloured Red _) _) in *. assert (Hp' : ptr t' = fx g) by (subst t'; clear; by destruct g). rewrite <-Hp'. apply IH; [lia|done|subst t'; clear; by destruct g| |lia].
    cbn in Htop. by destruct k2.
  - unfold bind at 1. rewrite (get_at s _ _ Hfx). set (nx := if _ =? _ then _ else _). assert (Hnx : nx = next_node g f t).
    { unfold nx. pose proof (child_is s f (g :: k2) t (match g with FL _ _ _ => true | _ => false end) H Ht0) as Hc. rewrite Hc. by destruct f, g. }
    clearbody nx. subst nx. assert (Hreb : exists s1, (if match g with FL _ _ _ => true | FR _ _ _ => false end then rebalance_left (ptr t) (fx f) (fx g) else rebalance_right (ptr t) (fx f) (fx g)) s = Done (tt, s1) /\
        at_place s1 k2 (rotated g f t)).
    { destruct g as [cg gx u|cg u gx]; [by apply rebalance_left_at|by apply rebalance_right_at]. }
    destruct Hreb as (s1 & E1 & H1). unfold bind. rewrite E1. destruct (rotated_place s1 k2 g f t H1 Ht) as (f' & t' & H2 & <- & Ht' & Hb). exists s1.
    destruct fuel as [|fuel]; [lia|]. split; [by eapply loop_black|]. by apply at_plug in H1.
Qed.

Lemma size_covers s k t : at_place s k t -> (length k <= size (heap s))%nat.
Proof.
  intros H. assert (Hsub : forall z, z ∈ around k -> z ∈ dom (heap s)).
  { intros z Hz. destruct H as [_ Hu _]. revert Hu. generalize (ptr t). clear t. assert (Hr : forall p t y, repr (heap s) p t -> y ∈ inorder t -> y ∈ dom (heap s)).
    { intros p t. revert p. induction t as [|c l IHl x r IHr]; intros p y; cbn; [set_solver|]. intros (_ & Hx & Hl & Hr) Hy. apply elem_of_app in Hy as [Hy|Hy]; [by eapply IHl|]. apply elem_of_cons in Hy as [->|Hy]; [by eapply elem_of_dom_2|by eapply IHr]. }
    induction k as [|[c x r|c l x] k IH]; cbn in *; [set_solver|..]; intros p (_ & Hx & Ho & Hu); apply elem_of_cons in Hz as [->|Hz]; try (by eapply elem_of_dom_2); apply elem_of_app in Hz as [Hz|Hz]; eauto. }
  assert (Hle : (length (around k) <= size (dom (heap s)))%nat).
  { assert (Hnd : NoDup (around k)) by (destruct H as [_ _ Hn]; by apply list.NoDup_app in Hn as (_ & _ & ?)). rewrite <-(size_list_to_set (C := gset Z) (around k) Hnd). apply subseteq_size. intros z Hz. apply Hsub. by apply elem_of_list_to_set in Hz. }
  rewrite size_dom in Hle. etrans; [|exact Hle]. clear. induction k as [|[] k IH]; cbn; rewrite ?length_app; lia.
Qed.

Theorem insert_color_at s k t : at_place s k t -> is_red t = true -> top_black k ->
  exists s', rb_insert_color (turns s) (ptr t) s = Done (tt, s') /\ at_place s' [] (blacken (fixup k t)).
Proof.
  intros H Ht Htop. pose proof (size_covers s k t H) as Hsz. destruct (insert_loop_at (length k) k ltac:(lia) s t (turns s) H Ht Htop ltac:(unfold turns; lia)) as (s1 & E1 & H1).
  unfold rb_insert_color, bind. rewrite E1. assert (Hne : fixup k t <> E).
  { clear -Ht. assert (Hp : forall k t, t <> E -> plug k t <> E) by (intros k0; induction k0 as [|f k0 IH]; [done|]; intros t0 _; apply IH; by destruct f).
    revert t Ht. assert (Hn : forall n k t, (length k <= n)%nat -> t <> E -> is_red t = true -> fixup k t <> E).
    { induction n as [|n IH]; intros k0 t Hl Ht0 Ht; (destruct k0 as [|f k1]; [done|cbn in Hl]); [lia|]. cbn. destruct (colour f), k1 as [|g k2]; try (apply Hp; by destruct f). cbn in Hl.
      destruct (is_red (other g)); [apply IH; [lia|by destruct g|by destruct g]|]. apply Hp. destruct t as [|c a x b]; [done|]. by destruct g, f. }
    intros t Ht. apply (Hn (length k)); [lia|by intros ->|done]. }
  pose proof (ap_up _ _ _ H1) as Hr. cbn in Hr. rewrite Hr. by apply set_black_top.
Qed.

(** a node that is new, linked in at an empty place *)
Theorem link_and_balance_at s k x : at_place s k E -> addr x -> (x ∉ around k) -> top_black k ->
  exists s', rb_link_and_balance x (up k) (link_of k) s = Done (tt, s') /\ at_place s' [] (blacken (fixup k (N Red E x E))).
Proof.
  intros H Ha Hxk Htop. set (s1 := mk_rbs (<[x := mk_rb (up k) 0 0]> (heap s)) (root s)). destruct H as [_ Hu Hn]. cbn in Hn.
  assert (Hl : exists s2, write_link (link_of k) x s1 = Done (tt, s2) /\ at_place s2 k (N Red E x E)).
  { assert (Hu1 : repr_up (heap s1) (root s1) k 0) by (eapply repr_up_ext; [|exact Hu]; intros z Hz; apply upd_other; by intros ->). assert (Hx1 : heap s1 !! x = Some (mk_rb (up k + bit Red) 0 0)) by (cbn [bit]; rewrite Z.add_0_r; apply upd_same).
    clearbody s1. assert (Hnd : NoDup (inorder (N Red E x E) ++ around k)) by (cbn; by apply list.NoDup_cons).
    destruct k as [|[c y r|c l y] k]; cbn [link_of write_link]; [eexists; split; [done|]; by split|..]; destruct Hu1 as (Hay & Hy & Ho & Hu1); rewrite (modify_at s1 y _ _ Hy); eexists; (split; [done|]).
    all: cbn in Hn, Hxk; apply list.NoDup_cons in Hn as [Hn _]; rewrite elem_of_app in Hn; rewrite elem_of_cons in Hxk.
    all: split; [|cbn [repr_up ptr]; split_and!; [done|apply upd_same| |]|done].
    all: try (split_and!; [done| |done|done]; cbn; rewrite upd_other; [exact Hx1|]; intros ->; tauto).
    all: first [eapply repr_ext; [|exact Ho]; intros z Hz; apply upd_other; intros ->; tauto|eapply repr_up_ext; [|exact Hu1]; intros z Hz; apply upd_other; intros ->; tauto]. }
  destruct Hl as (s2 & E2 & H2). unfold rb_link_and_balance, rb_link_node, put, bind. fold s1. rewrite E2. by apply (insert_color_at s2 k (N Red E x E)).
Qed.
End RbInsert.
