(* ===== verification/RbBalance.v ===== *)
(** * The balance of a red-black tree

    What insertion makes of the tree keeps the order of the nodes and the rules of the colours, so no path is longer than twice the
    logarithm of the number of nodes. *)
From S2P Require Import Prelude.
From S2P Require Import RbTree.
From S2P Require Import RbShape.
From S2P Require Import RbInsert.
Import RbTree.RbTree RbShape.RbShape RbInsert.RbInsert.

Module RbBalance.

(** ** The order of the nodes *)
Fixpoint before (k : list frame) : list Z := match k with [] => [] | FL _ _ _ :: k => before k | FR _ l x :: k => before k ++ inorder l ++ [x] end.
Fixpoint following (k : list frame) : list Z := match k with [] => [] | FL _ x r :: k => x :: inorder r ++ following k | FR _ _ _ :: k => following k end.

Lemma plug_inorder k t : inorder (plug k t) = before k ++ inorder t ++ following k.
Proof.
  revert t. induction k as [|[c x r|c l x] k IH]; intros t; cbn; [by rewrite app_nil_r|..]; rewrite IH; cbn; rewrite <-!app_assoc; cbn; [done|]. by rewrite <-?app_assoc.
Qed.
Lemma blacken_inorder t : inorder (blacken t) = inorder t.
Proof. by destruct t. Qed.
Lemma rotated_inorder g f t : is_red t = true -> inorder (rotated g f t) = inorder (plug1 g (plug1 f t)).
Proof. intros Ht. destruct t as [|c a x b]; [done|]. destruct g, f; cbn; rewrite <-?app_assoc; cbn; rewrite <-?app_assoc; cbn; by rewrite <-?app_assoc. Qed.
Lemma recolour_inorder g f t : inorder (plug1 (coloured Red (with_other (blacken (other g)) g)) (blacken (plug1 f t))) = inorder (plug1 g (plug1 f t)).
Proof. destruct g as [c x r|c l x]; cbn; by rewrite !blacken_inorder. Qed.

(** an induction that goes two nodes up *)
Lemma two_up (P : list frame -> Prop) : P [] -> (forall f, P [f]) -> (forall f g k, P k -> P (f :: g :: k)) -> forall k, P k.
Proof. intros H0 H1 H2. fix IH 1. intros [|f [|g k]]; [done|done|]. apply H2, IH. Qed.

Lemma fixup_inorder k t : is_red t = true -> inorder (fixup k t) = inorder (plug k t).
Proof.
  revert t. induction k as [|f|f g k IH] using two_up; intros t Ht; [done|cbn; by destruct (colour f)|]. cbn [fixup plug]. destruct (colour f); [|done]. destruct (is_red (other g)).
  - rewrite IH by by destruct g. by rewrite !plug_inorder, recolour_inorder.
  - by rewrite !plug_inorder, rotated_inorder.
Qed.

(** ** The rules of the colours: a red node has black children, and all paths down have [n] black nodes *)
Fixpoint rb_rules (n : nat) (t : rbt) : Prop :=
  match t with
  | E => n = O
  | N Red l _ r => is_red l = false /\ is_red r = false /\ rb_rules n l /\ rb_rules n r
  | N Black l _ r => match n with O => False | S n => rb_rules n l /\ rb_rules n r end
  end.
(** a tree of the program: the root is black as well *)
Definition red_black (t : rbt) : Prop := is_red t = false /\ exists n, rb_rules n t.

Definition above_colour (k : list frame) : color := match k with [] => Black | f :: _ => colour f end.
(** a tree with [n] black nodes on its paths fits in the place *)
Fixpoint rb_fits (n : nat) (k : list frame) : Prop :=
  match k with
  | [] => True
  | f :: k => rb_rules n (other f) /\ match colour f with Red => is_red (other f) = false /\ above_colour k = Black /\ rb_fits n k | Black => rb_fits (S n) k end
  end.

Lemma plug1_rules n f k t : rb_fits n (f :: k) -> rb_rules n t -> (is_red t = true -> colour f = Black) ->
  exists m, rb_rules m (plug1 f t) /\ rb_fits m k /\ (is_red (plug1 f t) = true -> above_colour k = Black).
Proof.
  intros [Ho Hf] Ht Hr. assert (Hcf : colour f = Red -> is_red t = false) by (intros E; destruct (is_red t); [by specialize (Hr eq_refl); congruence|done]).
  destruct f as [[] x r|[] l x]; cbn in *.
  - destruct Hf as (H1 & H2 & H3). exists n. split_and!; auto.
  - exists (S n). by split_and!.
  - destruct Hf as (H1 & H2 & H3). exists n. split_and!; auto.
  - exists (S n). by split_and!.
Qed.
Lemma plug_rules k : forall n t, rb_fits n k -> rb_rules n t -> (is_red t = true -> above_colour k = Black) -> exists m, rb_rules m (plug k t).
Proof.
  induction k as [|f k IH]; intros n t Hk Ht Hr; [by exists n|]. destruct (plug1_rules n f k t Hk Ht Hr) as (m & H1 & H2 & H3). exact (IH m _ H2 H1 H3).
Qed.

Lemma blacken_rules n t : rb_rules n t -> exists m, rb_rules m (blacken t).
Proof. destruct t as [|[] l x r]; intros H; [by exists n|destruct H as (_ & _ & H1 & H2); exists (S n); by split|by exists n]. Qed.
Lemma blacken_red_rules n t : is_red t = true -> rb_rules n t -> rb_rules (S n) (blacken t).
Proof. destruct t as [|[] l x r]; [done| |done]. by intros _ (_ & _ & H1 & H2). Qed.
Lemma blacken_not_red t : is_red (blacken t) = false.
Proof. by destruct t. Qed.

Lemma rotated_rules n g f t k : rb_rules n t -> is_red t = true -> colour f = Red -> is_red (other f) = false -> rb_rules n (other f) -> colour g = Black -> is_red (other g) = false -> rb_rules n (other g) ->
  rb_fits (S n) k -> exists m, rb_rules m (plug k (rotated g f t)).
Proof.
  intros Ht Hred Hf Hfo Hfr Hg Hgo Hgr Hk. apply (plug_rules k (S n)); [done| |by destruct g, f, t].
  destruct t as [|[] a x b]; try done. destruct Ht as (H1 & H2 & H3 & H4). destruct g as [cg gx u|cg u gx], f as [cf p r|cf l p]; cbn in *; by split_and!.
Qed.

Lemma fixup_rules k : forall n t, rb_fits n k -> rb_rules n t -> is_red t = true -> top_black k -> exists m, rb_rules m (fixup k t).
Proof.
  induction k as [|f|f g k IH] using two_up; intros n t Hk Ht Hr Htop; [by exists n|..].
  - cbn in *. rewrite Htop. destruct Hk as [Ho Hk]. rewrite Htop in Hk. apply (plug_rules [f] n t); [|done|by intros _]. cbn. by rewrite Htop.
  - cbn [fixup]. destruct (colour f) eqn:Hf; [|by apply (plug_rules (f :: g :: k) n t)]. destruct Hk as [Hfr Hk]. rewrite Hf in Hk. destruct Hk as (Hfo & Hg & Hgr & Hk). cbn in Hg. rewrite Hg in Hk.
    destruct (is_red (other g)) eqn:Hgo; [|by apply (rotated_rules n g f t k)]. apply (IH (S n)); [done| |by destruct g|cbn in Htop; by destruct k].
    assert (H1 : rb_rules (S n) (blacken (plug1 f t))) by (destruct f; by split). pose proof (blacken_red_rules n _ Hgo Hgr) as H2. destruct g as [cg gx u|cg u gx]; cbn in *; by rewrite !blacken_not_red.
Qed.

(** ** The place for a new node *)
(** going down in a tree of the program *)
Record good_place (n : nat) (k : list frame) (t : rbt) : Prop := {
  gp_rules : rb_rules n t;
  gp_fits : rb_fits n k;
  gp_red : is_red t = true -> above_colour k = Black;
  gp_top : top_black k;
  gp_root : k = [] -> is_red t = false;
}.
Lemma good_top t : red_black t -> exists n, good_place n [] t.
Proof. intros [Hr [n Hn]]. exists n. split; [done..|by rewrite Hr|done|done]. Qed.
Lemma good_down n k f t : good_place n k (plug1 f t) -> exists m, good_place m (f :: k) t.
Proof.
  intros [H1 H2 H3 H4 H5]. assert (Htop : top_black (f :: k)).
  { destruct k as [|g k]; [|exact H4]. cbn in *. destruct (colour f) eqn:Hf; [|done]. destruct f as [c x r|c l x]; cbn in Hf; subst c; by specialize (H5 eq_refl). }
  destruct f as [[] x r|[] l x]; cbn in *.
  - destruct H1 as (A1 & A2 & A3 & A4). exists n. split; try done; cbn; [split_and!; auto|]. by rewrite A1.
  - destruct n as [|n]; [done|]. destruct H1 as (A1 & A2). exists n. by split.
  - destruct H1 as (A1 & A2 & A3 & A4). exists n. split; try done; cbn; [split_and!; auto|]. by rewrite A2.
  - destruct n as [|n]; [done|]. destruct H1 as (A1 & A2). exists n. by split.
Qed.
Lemma good_insert n k x : good_place n k E -> red_black (blacken (fixup k (N Red E x E))).
Proof.
  intros [H1 H2 H3 H4 _]. cbn in H1. subst n. split; [apply blacken_not_red|]. destruct (fixup_rules k 0 (N Red E x E) H2 ltac:(done) eq_refl H4) as [m Hm]. by apply (blacken_rules m).
Qed.
Lemma insert_inorder k x : inorder (blacken (fixup k (N Red E x E))) = before k ++ x :: following k.
Proof. by rewrite blacken_inorder, fixup_inorder, plug_inorder. Qed.

(** ** Paths are short *)
Fixpoint height (t : rbt) : nat := match t with E => O | N _ l _ r => S (Nat.max (height l) (height r)) end.

Lemma rules_size n t : rb_rules n t -> (2 ^ n <= S (length (inorder t)))%nat.
Proof.
  revert n. induction t as [|c l IHl x r IHr]; intros n H; [cbn in H; subst n; cbn; lia|]. cbn [inorder]. rewrite length_app. cbn [length].
  destruct c; [destruct H as (_ & _ & H1 & H2); specialize (IHl _ H1); lia|]. destruct n as [|n]; [done|]. destruct H as [H1 H2]. specialize (IHl _ H1). specialize (IHr _ H2). cbn. lia.
Qed.
Lemma rules_height n t : rb_rules n t -> (height t <= 2 * n + (if is_red t then 1 else 0))%nat.
Proof.
  revert n. induction t as [|c l IHl x r IHr]; intros n H; [cbn; lia|]. destruct c; cbn [height is_red].
  - destruct H as (R1 & R2 & H1 & H2). specialize (IHl _ H1). specialize (IHr _ H2). rewrite R1 in IHl. rewrite R2 in IHr. lia.
  - destruct n as [|n]; [done|]. destruct H as [H1 H2]. specialize (IHl _ H1). specialize (IHr _ H2). assert ((height l <= 2 * n + 1 /\ height r <= 2 * n + 1)%nat) as [Hl Hr] by (destruct (is_red l), (is_red r); lia). lia.
Qed.
Lemma red_black_height t : red_black t -> (height t <= 2 * Nat.log2 (S (length (inorder t))))%nat.
Proof.
  intros [Hr [n Hn]]. pose proof (rules_size n t Hn) as H1. pose proof (rules_height n t Hn) as H2. rewrite Hr in H2. apply Nat.log2_le_mono in H1. rewrite Nat.log2_pow2 in H1 by lia. lia.
Qed.
Lemma plug_height k t : (length k + height t <= height (plug k t))%nat.
Proof. revert t. induction k as [|f k IH]; intros t; [done|]. cbn. specialize (IH (plug1 f t)). destruct f; cbn in *; lia. Qed.
End RbBalance.
