(* ===== verification/RbSearch.v ===== *)
(** * Searches and walks in a red-black tree

    A tree is known by the list of its nodes in order: a search goes down to where an order puts what is wanted, an insertion there keeps
    the order, and rb_first and rb_next walk along the list. *)
From Stdlib Require Import Sorted.
From S2P Require Import Prelude.
From S2P Require Import RbTree.
From S2P Require Import RbShape.
From S2P Require Import RbInsert.
From S2P Require Import RbBalance.
Import RbTree.RbTree RbShape.RbShape RbInsert.RbInsert RbBalance.RbBalance.
#[local] Open Scope cmon_scope.

Module RbSearch.

(** the heap is a red-black tree with the nodes [l] in order *)
Definition holds (s : rbs) (l : list Z) : Prop := exists t, at_place s [] t /\ red_black t /\ inorder t = l.

Lemma repr_pos h t x : x ∈ inorder t -> forall p, repr h p t -> 0 < x.
Proof.
  induction t as [|c l IHl y r IHr]; intros Hx p; [by apply not_elem_of_nil in Hx|]. intros ([Hy _] & _ & H1 & H2). cbn in Hx. apply elem_of_app in Hx as [Hx|Hx]; [by apply (IHl Hx y)|].
  apply elem_of_cons in Hx as [->|Hx]; [done|by apply (IHr Hx y)].
Qed.
Lemma holds_pos s l x : holds s l -> x ∈ l -> 0 < x.
Proof. intros (t & H & _ & <-) Hx. eapply repr_pos; [exact Hx|]. apply (ap_tree _ _ _ H). Qed.

(** ** Going down *)
Lemma read_link_at s k t : at_place s k t -> read_link (link_of k) s = Done (ptr t, s).
Proof.
  intros [_ Hu _]. destruct k as [|[c x r|c l x] k]; cbn in *; [by rewrite Hu|..]; destruct Hu as (_ & Hx & _); unfold bind; by rewrite (get_at s x _ Hx).
Qed.

Section Search.
Variable f : Z -> way.

(** the way down to a place is the one that [f] shows *)
Definition shown (g : frame) : Prop := match g with FL _ x _ => f x = Left | FR _ _ x => f x = Right end.

(** how a search in the tree [t] ends *)
Definition ends (t : rbt) (r : search_result) : Prop :=
  match r with
  | Found x => x ∈ inorder t /\ f x = Here
  | Failed => exists x, x ∈ inorder t /\ f x = Fail
  | Place p l => exists k, p = up k /\ l = link_of k /\ plug k E = t /\ Forall shown k
  end.

Lemma descend_at : forall t s k fuel, at_place s k t -> Forall shown k -> (height t < fuel)%nat ->
  exists r, descend fuel f (up k) (link_of k) s = Done (r, s) /\ ends (plug k t) r.
Proof.
  assert (Hin : forall k c l x r, x ∈ inorder (plug k (N c l x r))) by (intros; rewrite plug_inorder; cbn; rewrite !elem_of_app, elem_of_cons; tauto).
  induction t as [|c l IHl x r IHr]; intros s k fuel H Hk Hf; (destruct fuel as [|fuel]; [lia|]); cbn [descend]; unfold bind; rewrite (read_link_at s k _ H); cbn [ptr].
  - exists (Place (up k) (link_of k)). split; [done|]. by exists k.
  - destruct (ap_tree _ _ _ H) as ([Hpos _] & _). assert ((x =? 0) = false) as -> by (apply Z.eqb_neq; lia). cbn [height] in Hf. destruct (f x) eqn:Hx.
    + destruct (IHl s (FL c x r :: k) fuel (proj1 (down_left _ _ _ _ _ _) H) ltac:(by constructor) ltac:(lia)) as (res & E & Hr). by exists res.
    + destruct (IHr s (FR c l x :: k) fuel (proj1 (down_right _ _ _ _ _ _) H) ltac:(by constructor) ltac:(lia)) as (res & E & Hr). by exists res.
    + exists (Found x). by split.
    + exists Failed. split; [done|]. by exists x.
Qed.

(** ** The order that the comparisons show *)
Definition rank (w : way) : nat := match w with Right => 0 | Here => 1 | Left => 2 | Fail => 3 end.
Definition sorts (l : list Z) : Prop := StronglySorted (fun x y => (rank (f x) <= rank (f y))%nat) l /\ Forall (fun x => f x <> Fail) l.

Lemma sorted_app {A} (R : A -> A -> Prop) l1 l2 : StronglySorted R (l1 ++ l2) -> StronglySorted R l1 /\ StronglySorted R l2 /\ forall x y, x ∈ l1 -> y ∈ l2 -> R x y.
Proof.
  induction l1 as [|a l1 IH]; cbn; intros H; [split_and!; [constructor|done|set_solver]|]. inversion H as [|? ? Hs Hall]; subst. destruct (IH Hs) as (H1 & H2 & H3). rewrite list.Forall_forall in Hall.
  split_and!; [constructor; [done|]; apply list.Forall_forall; intros x Hx; apply Hall, elem_of_app; by left|done|]. intros x y Hx Hy. apply elem_of_cons in Hx as [->|Hx]; [apply Hall, elem_of_app; by right|by apply H3].
Qed.

Lemma place_sorted k : sorts (before k ++ following k) -> Forall shown k -> Forall (fun x => f x = Right) (before k) /\ Forall (fun x => f x = Left) (following k).
Proof.
  intros [Hs Hf] Hk. rewrite !list.Forall_forall. rewrite list.Forall_forall in Hf. apply sorted_app in Hs as (Hs1 & Hs2 & _). assert (Hf1 : forall x, x ∈ before k -> f x <> Fail) by (intros x Hx; apply Hf, elem_of_app; by left).
  assert (Hf2 : forall x, x ∈ following k -> f x <> Fail) by (intros x Hx; apply Hf, elem_of_app; by right). clear Hf. split.
  - clear Hs2 Hf2. induction k as [|[c x r|c l x] k IH]; cbn in *; [set_solver|..]; inversion Hk as [|? ? Hx Hk']; subst; [by apply IH|]. cbn in Hx. intros y Hy. rewrite app_assoc in Hs1, Hy. apply sorted_app in Hs1 as (_ & _ & H).
    specialize (Hf1 y). rewrite app_assoc in Hf1. specialize (Hf1 Hy). apply elem_of_app in Hy as [Hy|Hy]; [|by apply list_elem_of_singleton in Hy as ->]. specialize (H y x Hy ltac:(left)). rewrite Hx in H. by destruct (f y); cbn in H; try lia.
  - clear Hs1 Hf1. induction k as [|[c x r|c l x] k IH]; cbn in *; [set_solver|..]; inversion Hk as [|? ? Hx Hk']; subst; [|by apply IH]. cbn in Hx. inversion Hs2 as [|? ? _ Hall]; subst. rewrite list.Forall_forall in Hall.
    intros y Hy. specialize (Hf2 y Hy). apply elem_of_cons in Hy as [->|Hy]; [done|]. specialize (Hall y Hy). rewrite Hx in Hall. by destruct (f y); cbn in Hall; try lia.
Qed.
End Search.

Lemma good_plug n k t : good_place n [] (plug k t) -> exists m, good_place m k t.
Proof. revert n t. induction k as [|g k IH]; intros n t H; [by exists n|]. cbn in H. destruct (IH n _ H) as (m & Hm). by eapply good_down. Qed.

Lemma height_size s t : at_place s [] t -> (height t <= size (heap s))%nat.
Proof.
  intros H. assert (Hp : exists k, plug k E = t /\ length k = height t).
  { clear H. enough (Hg : forall k, exists k', plug k' E = plug k t /\ length k' = (length k + height t)%nat) by (destruct (Hg []) as (k & H1 & H2); by exists k).
    induction t as [|c l IHl x r IHr]; intros k; [exists k; cbn; by rewrite Nat.add_0_r|]. cbn [height]. destruct (decide (height r <= height l)%nat).
    - destruct (IHl (FL c x r :: k)) as (k' & H1 & H2). exists k'. split; [done|]. cbn in H2. lia.
    - destruct (IHr (FR c l x :: k)) as (k' & H1 & H2). exists k'. split; [done|]. cbn in H2. lia. }
  destruct Hp as (k & <- & <-). apply at_plug in H. by eapply size_covers.
Qed.

(** a place in the tree [l], with what comes before it and after it *)
Definition gap (s : rbs) (p : Z) (lk : link) (l1 l2 : list Z) : Prop :=
  forall x, addr x -> (x ∉ l1 ++ l2) -> exists s', rb_link_and_balance x p lk s = Done (tt, s') /\ holds s' (l1 ++ x :: l2).

Lemma empty_gap s t k : at_place s [] t -> red_black t -> plug k E = t -> gap s (up k) (link_of k) (before k) (following k) /\ inorder t = before k ++ following k.
Proof.
  intros H Hrb <-. split; [|by rewrite plug_inorder]. destruct (good_top _ Hrb) as [n Hn]. destruct (good_plug n k E Hn) as [m Hm]. apply at_plug in H. intros x Ha Hx.
  assert (Hxk : x ∉ around k). { pose proof (inorder_plug k E) as Hp. rewrite plug_inorder in Hp. cbn in Hp. by rewrite <-Hp. }
  destruct (link_and_balance_at s k x H Ha Hxk (gp_top _ _ _ Hm)) as (s' & E & H'). exists s'. split; [done|]. eexists. split; [exact H'|]. split; [by eapply good_insert|apply insert_inorder].
Qed.

(** what is searched for is found, or there is a place for it *)
Lemma search_at f s l : holds s l -> sorts f l ->
  (exists x, x ∈ l /\ f x = Here /\ search f s = Done (Found x, s)) \/
  (exists p lk l1 l2, search f s = Done (Place p lk, s) /\ l = l1 ++ l2 /\ gap s p lk l1 l2 /\ Forall (fun x => f x = Right) l1 /\ Forall (fun x => f x = Left) l2).
Proof.
  intros (t & H & Hrb & <-) Hs. destruct (descend_at f t s [] (turns s) H ltac:(constructor)) as (r & E & Hr); [pose proof (height_size s t H); unfold turns; lia|]. unfold search. cbn [up link_of plug] in E, Hr. rewrite E.
  destruct r as [x| |p lk]; cbn in Hr.
  - left. exists x. by destruct Hr.
  - destruct Hr as (x & Hx & Hf). destruct Hs as [_ Hs]. rewrite list.Forall_forall in Hs. exfalso. exact (Hs x Hx Hf).
  - right. destruct Hr as (k & -> & -> & Hk & Hp). destruct (empty_gap s t k H Hrb Hk) as [Hg El]. rewrite El in Hs. exists (up k), (link_of k), (before k), (following k). destruct (place_sorted f k Hs Hp). by split_and!.
Qed.

(** ** In order *)
Lemma leftmost_at : forall t s k fuel, at_place s k t -> t <> E -> (height t <= fuel)%nat -> exists x l, leftmost fuel (ptr t) s = Done (x, s) /\ inorder t = x :: l.
Proof.
  induction t as [|c l IHl x r _]; intros s k fuel H Ht Hf; [done|]. cbn [height] in Hf. destruct fuel as [|fuel]; [lia|]. pose proof (ap_tree _ _ _ H) as (_ & Hx & Hl & _). cbn [leftmost ptr]. unfold bind. rewrite (get_at s x _ Hx). cbn [rb_left].
  rewrite (ptr_zero _ _ _ Hl). destruct l as [|c' l1 y l2]; [by exists x, (inorder r)|]. destruct (IHl s (FL c x r :: k) fuel (proj1 (down_left _ _ _ _ _ _) H) ltac:(done) ltac:(lia)) as (z & l & E & El).
  exists z, (l ++ x :: inorder r). split; [done|]. cbn [inorder] in *. by rewrite El.
Qed.

Lemma climb_at : forall k s t fuel, at_place s k t -> t <> E -> (length k < fuel)%nat -> climb fuel (ptr t) s = Done (hd 0 (following k), s).
Proof.
  induction k as [|f k IH]; intros s t fuel H Ht Hf; (destruct fuel as [|fuel]; [lia|]).
  - destruct t as [|c l x r]; [done|]. destruct (ap_tree _ _ _ H) as (_ & Hx & _). cbn. unfold bind. rewrite (get_at s x _ Hx). by rewrite parent_bit.
  - destruct (above_at s f k t H) as (Hfx & [Hpos _] & _). pose proof (ap_tree _ _ _ H) as Htr. pose proof (up_aligned _ _ _ _ (ap_up _ _ _ H)) as Hal. pose proof (child_is s f k t true H Ht) as Hc.
    cbn [climb]. assert (Hn : exists nd, heap s !! ptr t = Some nd /\ rb_parent nd = fx f).
    { destruct t as [|c l x r]; [done|]. destruct Htr as (_ & Hx & _). eexists. split; [exact Hx|]. by rewrite (parent_bit _ _ _ _ Hal). }
    destruct Hn as (nd & Hnd & Hp). unfold bind. rewrite (get_at s _ _ Hnd), Hp. assert ((fx f =? 0) = false) as -> by (apply Z.eqb_neq; lia). rewrite (get_at s _ _ Hfx). rewrite Z.eqb_sym, Hc.
    destruct f as [c x r|c l x]; cbn [negb fx following]; [done|]. apply (IH s (N c l x t) fuel); [exact (proj1 (at_plug1 _ _ _ _) H)|done|cbn in Hf; lia].
Qed.

Lemma focus t x : x ∈ inorder t -> exists k c l r, plug k (N c l x r) = t.
Proof.
  intros Hx. enough (Hg : forall k, exists k' c l r, plug k' (N c l x r) = plug k t) by apply (Hg []). induction t as [|c l IHl y r IHr]; intros k; [set_solver|]. cbn in Hx. apply elem_of_app in Hx as [Hx|Hx]; [apply (IHl Hx (FL c y r :: k))|].
  apply elem_of_cons in Hx as [->|Hx]; [by exists k, c, l, r|apply (IHr Hx (FR c l y :: k))].
Qed.
Lemma unique_cut {A} (l1 l2 m1 m2 : list A) x : NoDup (l1 ++ x :: l2) -> l1 ++ x :: l2 = m1 ++ x :: m2 -> l2 = m2.
Proof.
  revert m1. induction l1 as [|a l1 IH]; intros [|b m1] Hn E; cbn in *; simplify_eq; [done|..].
  - apply list.NoDup_cons in Hn as [Hn _]. destruct Hn. apply elem_of_app. right. left.
  - apply list.NoDup_cons in Hn as [Hn _]. destruct Hn. apply elem_of_app. right. left.
  - apply (IH m1); [by apply list.NoDup_cons in Hn as [_ ?]|done].
Qed.

Lemma rb_first_at s l : holds s l -> rb_first s = Done (hd 0 l, s).
Proof.
  intros (t & H & _ & <-). unfold rb_first. pose proof (ap_up _ _ _ H) as Hr. cbn in Hr. rewrite Hr, (ptr_zero _ _ _ (ap_tree _ _ _ H)). destruct t as [|c l1 x l2]; [done|].
  destruct (leftmost_at (N c l1 x l2) s [] (turns s) H) as (y & l & E & El); [done|pose proof (height_size s _ H); unfold turns; lia|]. by rewrite E, El.
Qed.

Lemma rb_next_at s l1 x l2 : holds s (l1 ++ x :: l2) -> rb_next x s = Done (hd 0 l2, s).
Proof.
  intros (t & H & _ & El). assert (Hx : x ∈ inorder t) by (rewrite El; apply elem_of_app; right; left). destruct (focus t x Hx) as (k & c & l & r & <-). rewrite plug_inorder in El. cbn in El.
  assert (Hnd : NoDup (inorder (plug k (N c l x r)))) by (pose proof (ap_nodup _ _ _ H) as Hn; cbn in Hn; by rewrite app_nil_r in Hn). assert (E2 : inorder r ++ following k = l2).
  { rewrite plug_inorder in Hnd. cbn in Hnd. apply (unique_cut (before k ++ inorder l) _ l1 _ x); rewrite <-!app_assoc in *; cbn in *; [done|exact El]. }
  pose proof (height_size s _ H) as Hh. pose proof (plug_height k (N c l x r)) as Hph. apply at_plug in H. destruct (ap_tree _ _ _ H) as ([Hpos _] & Hnx & _ & Hr). pose proof (up_aligned _ _ _ _ (ap_up _ _ _ H)) as Hal.
  unfold rb_next, bind. rewrite (get_at s x _ Hnx), (parent_bit _ _ _ _ Hal). cbn [rb_right]. assert ((up k =? x) = false) as ->.
  { apply Z.eqb_neq. intros E. pose proof (ap_nodup _ _ _ H) as Hn. destruct k as [|f k]; cbn in E; [lia|]. apply list.NoDup_app in Hn as (_ & Hn & _). apply (Hn x); [cbn; apply elem_of_app; right; left|]. destruct f; cbn in *; subst; left. }
  rewrite (ptr_zero _ _ _ Hr). subst l2. destruct r as [|c' r1 y r2]; cbn [negb].
  - apply (climb_at k s (N c l x E) (turns s)); [done..|unfold turns; cbn in Hph; lia].
  - destruct (leftmost_at (N c' r1 y r2) s (FR c l x :: k) (turns s)) as (z & m & E & Em); [exact (proj1 (down_right _ _ _ _ _ _) H)|done|unfold turns; cbn [height] in *; lia|]. by rewrite E, Em.
Qed.

(** ** The promises of the tree *)
(** C32: insertion with a search keeps a red-black tree in order: when the nodes l are in the order that the comparisons show and none is the
    wanted one, the search ends at a place, and linking a new node there and rebalancing gives a red-black tree with the nodes l in the
    same order and the new one after those that were passed to the right and before those that were passed to the left. *)
Theorem insert_keeps_red_black f s l x (Hl : holds s l) (Hs : sorts f l) (Hn : Forall (fun y => f y <> Here) l) (Ha : addr x) (Hx : x ∉ l) :
  exists p lk s' l1 l2, search f s = Done (Place p lk, s) /\ rb_link_and_balance x p lk s = Done (tt, s') /\ holds s' (l1 ++ x :: l2) /\
    l = l1 ++ l2 /\ Forall (fun y => f y = Right) l1 /\ Forall (fun y => f y = Left) l2.
Proof.
  destruct (search_at f s l Hl Hs) as [(y & Hy & Ey & _)|(p & lk & l1 & l2 & E & -> & Hg & H1 & H2)]; [rewrite list.Forall_forall in Hn; by destruct (Hn y Hy)|].
  destruct (Hg x Ha Hx) as (s' & E' & H'). exists p, lk, s', l1, l2. by split_and!.
Qed.

(** C33: a search in a red-black tree with n nodes makes at most 2 log2 (n + 1) comparisons, whatever they say, and ends with a node of the tree
    that was found, with a failure of the comparison of a node, or with a place for a new node. *)
Theorem search_is_logarithmic f s l (Hl : holds s l) : exists r, descend (2 * Nat.log2 (S (length l)) + 1) f 0 LinkRoot s = Done (r, s) /\
  match r with Found x => x ∈ l /\ f x = Here | Failed => exists x, x ∈ l /\ f x = Fail | Place p lk => exists l1 l2, l = l1 ++ l2 /\ gap s p lk l1 l2 end.
Proof.
  destruct Hl as (t & H & Hrb & <-). destruct (descend_at f t s [] (2 * Nat.log2 (S (length (inorder t))) + 1) H ltac:(constructor)) as (r & E & Hr); [pose proof (red_black_height t Hrb); lia|]. exists r. split; [exact E|].
  destruct r as [x| |p lk]; try exact Hr. destruct Hr as (k & -> & -> & Hk & _). destruct (empty_gap s t k H Hrb Hk) as [Hg Eg]. by exists (before k), (following k).
Qed.

(** a tree with three nodes *)
Definition three : rbs := mk_rbs (<[32 := mk_rb 1 48 16]> (<[16 := mk_rb 32 0 0]> (<[48 := mk_rb 32 0 0]> ∅))) 32.
Lemma three_holds : holds three [16; 32; 48].
Proof.
  exists (N Black (N Red E 16 E) 32 (N Red E 48 E)). split; [split|]; [cbn; split_and!; done|done|cbn; apply (bool_decide_unpack _); by vm_compute|]. split; [split; [done|by exists 1%nat]|done].
Qed.
Definition below_40 (x : Z) : way := if 40 <? x then Left else Right.
Lemma insert_keeps_red_black_witness : exists p lk s' l1 l2, search below_40 three = Done (Place p lk, three) /\ rb_link_and_balance 64 p lk three = Done (tt, s') /\ holds s' (l1 ++ 64 :: l2) /\
    [16; 32; 48] = l1 ++ l2 /\ Forall (fun y => below_40 y = Right) l1 /\ Forall (fun y => below_40 y = Left) l2.
Proof.
  apply (insert_keeps_red_black below_40 three [16; 32; 48] 64 three_holds).
  - split; [repeat constructor; vm_compute; lia|repeat constructor; by vm_compute].
  - repeat constructor; by vm_compute.
  - by split.
  - apply (bool_decide_unpack _). by vm_compute.
Defined.
Lemma search_is_logarithmic_witness : exists r, descend 5 below_40 0 LinkRoot three = Done (r, three) /\
  match r with Found x => x ∈ [16; 32; 48] /\ below_40 x = Here | Failed => exists x, x ∈ [16; 32; 48] /\ below_40 x = Fail | Place p lk => exists l1 l2, [16; 32; 48] = l1 ++ l2 /\ gap three p lk l1 l2 end.
Proof. exact (search_is_logarithmic below_40 three [16; 32; 48] three_holds). Defined.
End RbSearch.
