(* ===== verification/RbMap.v ===== *)
(** * A tree with keys is a finite map

    The searches of CRIU compare a number of the node with the wanted one.  A tree in the order of such keys stands for the map from the
    keys to the nodes: what the callers of rbtree.c rely on. *)
From Stdlib Require Import Sorted.
From S2P Require Import Prelude.
From S2P Require Import RbTree.
From S2P Require Import RbSearch.
From S2P Require Import RbShape.
Import RbTree.RbTree RbSearch.RbSearch RbShape.RbShape.
#[local] Open Scope cmon_scope.

Module RbMap.

(** [if (key < this->key) left; else if (key > this->key) right; else this] *)
Definition key_way (keys : gmap Z Z) (k x : Z) : way :=
  match keys !! x with Some v => if k <? v then Left else if v <? k then Right else Here | None => Fail end.

Definition key_lt (keys : gmap Z Z) (x y : Z) : Prop := exists a b, keys !! x = Some a /\ keys !! y = Some b /\ a < b.

(** the nodes of the tree, in the order of their keys, are those of the map *)
Definition maps (s : rbs) (keys m : gmap Z Z) : Prop :=
  exists l, holds s l /\ StronglySorted (key_lt keys) l /\ (forall x, x ∈ l -> is_Some (keys !! x)) /\ forall k x, m !! k = Some x <-> x ∈ l /\ keys !! x = Some k.

Lemma way_right keys k x : key_way keys k x = Right <-> exists v, keys !! x = Some v /\ v < k.
Proof.
  unfold key_way. destruct (keys !! x) as [v|]; [|split; [done|by intros (v & ? & _)]]. destruct (Z.ltb_spec k v), (Z.ltb_spec v k); split; try done; try (by intros (w & E & Hw); simplify_eq; lia); intros _; exists v; by split.
Qed.
Lemma way_left keys k x : key_way keys k x = Left <-> exists v, keys !! x = Some v /\ k < v.
Proof.
  unfold key_way. destruct (keys !! x) as [v|]; [|split; [done|by intros (v & ? & _)]]. destruct (Z.ltb_spec k v), (Z.ltb_spec v k); split; try done; try (by intros (w & E & Hw); simplify_eq; lia); intros _; exists v; by split.
Qed.
Lemma way_here keys k x : key_way keys k x = Here <-> keys !! x = Some k.
Proof.
  unfold key_way. destruct (keys !! x) as [v|]; [|split; done]. destruct (Z.ltb_spec k v), (Z.ltb_spec v k); split; try done; try (intros E; simplify_eq; lia); intros _; f_equal; lia.
Qed.

Lemma strongly_mono {A} (R Q : A -> A -> Prop) l : (forall x y, x ∈ l -> y ∈ l -> R x y -> Q x y) -> StronglySorted R l -> StronglySorted Q l.
Proof.
  induction l as [|a l IH]; intros H Hs; [constructor|]. inversion Hs as [|? ? Hs' Ha]; subst. constructor; [apply IH; [|done]; intros x y Hx Hy; apply H; by right|].
  rewrite list.Forall_forall in *. intros x Hx. apply H; [left|by right|by apply Ha].
Qed.

Lemma keys_sort keys k l : StronglySorted (key_lt keys) l -> (forall x, x ∈ l -> is_Some (keys !! x)) -> sorts (key_way keys k) l.
Proof.
  intros Hs Hk. split.
  - eapply strongly_mono; [|exact Hs]. intros x y _ _ (a & b & Ex & Ey & Hab). unfold key_way. rewrite Ex, Ey. destruct (Z.ltb_spec k a), (Z.ltb_spec k b), (Z.ltb_spec a k), (Z.ltb_spec b k); cbn; lia.
  - apply list.Forall_forall. intros x Hx. destruct (Hk x Hx) as [v Hv]. unfold key_way. rewrite Hv. by destruct (k <? v), (v <? k).
Qed.

(** one node per key *)
Lemma key_unique keys l x y k : StronglySorted (key_lt keys) l -> x ∈ l -> y ∈ l -> keys !! x = Some k -> keys !! y = Some k -> x = y.
Proof.
  intros Hs Hx Hy Ex Ey. induction l as [|z l IH]; [by apply not_elem_of_nil in Hx|]. inversion Hs as [|? ? Hs' Hz]; subst. rewrite list.Forall_forall in Hz.
  apply elem_of_cons in Hx as [->|Hx], Hy as [->|Hy]; [done| | |by apply IH].
  - destruct (Hz y Hy) as (a & b & E1 & E2 & Hab). simplify_eq. lia.
  - destruct (Hz x Hx) as (a & b & E1 & E2 & Hab). simplify_eq. lia.
Qed.

Lemma sorted_insert {A} (R : A -> A -> Prop) l1 x l2 : StronglySorted R (l1 ++ l2) -> (forall y, y ∈ l1 -> R y x) -> (forall y, y ∈ l2 -> R x y) -> StronglySorted R (l1 ++ x :: l2).
Proof.
  induction l1 as [|a l1 IH]; cbn; intros Hs H1 H2; [constructor; [done|by apply list.Forall_forall]|]. inversion Hs as [|? ? Hs' Ha]; subst. constructor; [apply IH; [done| |done]; intros y Hy; apply H1; by right|].
  rewrite list.Forall_forall in *. intros y Hy. apply elem_of_app in Hy as [Hy|Hy]; [apply Ha, elem_of_app; by left|]. apply elem_of_cons in Hy as [->|Hy]; [apply H1; left|apply Ha, elem_of_app; by right].
Qed.

(** ** Looking up and inserting *)
Lemma search_found s keys m k x : maps s keys m -> m !! k = Some x -> search (key_way keys k) s = Done (Found x, s).
Proof.
  intros (l & Hl & Hs & Hk & Hm) H. apply Hm in H as [Hx Ex]. destruct (search_at (key_way keys k) s l Hl (keys_sort keys k l Hs Hk)) as [(y & Hy & Ey & E)|(p & lk & l1 & l2 & E & -> & _ & H1 & H2)].
  - apply way_here in Ey. by rewrite (key_unique keys l x y k).
  - exfalso. apply way_here in Ex. rewrite list.Forall_forall in H1, H2. apply elem_of_app in Hx as [Hx|Hx]; [rewrite (H1 x Hx) in Ex|rewrite (H2 x Hx) in Ex]; done.
Qed.

Lemma maps_insert s' keys m k x l1 l2 : holds s' (l1 ++ x :: l2) -> StronglySorted (key_lt keys) (l1 ++ l2) -> (forall y, y ∈ l1 ++ l2 -> is_Some (keys !! y)) ->
  (forall j y, m !! j = Some y <-> y ∈ l1 ++ l2 /\ keys !! y = Some j) -> m !! k = None -> (x ∉ l1 ++ l2) ->
  Forall (fun y => key_way keys k y = Right) l1 -> Forall (fun y => key_way keys k y = Left) l2 -> maps s' (<[x := k]> keys) (<[k := x]> m).
Proof.
  intros Hl Hs Hk Hm Hnone Hx H1 H2. rewrite list.Forall_forall in H1, H2. exists (l1 ++ x :: l2).
  assert (Hne : forall y, y ∈ l1 ++ l2 -> <[x := k]> keys !! y = keys !! y) by (intros y Hy; apply lookup_insert_ne; by intros ->).
  assert (Hnew : <[x := k]> keys !! x = Some k) by (by rewrite lookup_insert, decide_True). assert (Hin : forall y, y ∈ l1 ++ x :: l2 <-> y = x \/ y ∈ l1 ++ l2) by (intros y; rewrite !elem_of_app, elem_of_cons; tauto).
  split_and!; [done| | |].
  - apply sorted_insert.
    + eapply strongly_mono; [|exact Hs]. intros y z Hy Hz (a & b & E1 & E2 & Hab). exists a, b. by rewrite !Hne.
    + intros y Hy. destruct (proj1 (way_right keys k y) (H1 y Hy)) as (v & Ev & Hv). exists v, k. rewrite (Hne y) by (apply elem_of_app; by left). by split_and!.
    + intros y Hy. destruct (proj1 (way_left keys k y) (H2 y Hy)) as (v & Ev & Hv). exists k, v. rewrite (Hne y) by (apply elem_of_app; by right). by split_and!.
  - intros y Hy. apply Hin in Hy as [->|Hy]; [by rewrite Hnew|]. rewrite Hne by done. by apply Hk.
  - intros j y. rewrite Hin. destruct (decide (j = k)) as [->|Hj].
    + rewrite lookup_insert, decide_True by done. split; [intros [= <-]; split; [by left|done]|]. intros [[->|Hy] E]; [done|]. rewrite Hne in E by done. exfalso. assert (m !! k = Some y) by (by apply Hm). congruence.
    + rewrite lookup_insert_ne by done. rewrite Hm. split; [intros [Hy E]; split; [by right|by rewrite Hne]|]. intros [[->|Hy] E]; [rewrite Hnew in E; congruence|]. rewrite Hne in E by done. by split.
Qed.

Lemma search_place s keys m k : maps s keys m -> m !! k = None ->
  exists p lk, search (key_way keys k) s = Done (Place p lk, s) /\
    forall x, addr x -> (forall j, m !! j <> Some x) -> exists s', rb_link_and_balance x p lk s = Done (tt, s') /\ maps s' (<[x := k]> keys) (<[k := x]> m).
Proof.
  intros (l & Hl & Hs & Hk & Hm) Hnone. destruct (search_at (key_way keys k) s l Hl (keys_sort keys k l Hs Hk)) as [(y & Hy & Ey & E)|(p & lk & l1 & l2 & E & -> & Hg & H1 & H2)].
  - apply way_here in Ey. assert (m !! k = Some y) by (by apply Hm). congruence.
  - exists p, lk. split; [done|]. intros x Ha Hx. assert (Hxl : x ∉ l1 ++ l2) by (intros Hin; destruct (Hk x Hin) as [j Hj]; apply (Hx j), Hm; by split).
    destruct (Hg x Ha Hxl) as (s' & E' & Hl'). exists s'. split; [done|]. by apply (maps_insert s' keys m k x l1 l2).
Qed.

(** ** The smallest key and the next one *)
Lemma maps_first s keys m : maps s keys m -> exists x, rb_first s = Done (x, s) /\
  ((x = 0 /\ m = ∅) \/ (exists k, m !! k = Some x /\ 0 < x /\ forall j, is_Some (m !! j) -> k <= j)).
Proof.
  intros (l & Hl & Hs & Hk & Hm). exists (hd 0 l). split; [by apply rb_first_at|]. destruct l as [|x l].
  - left. split; [done|]. apply map_empty. intros k. destruct (m !! k) as [x|] eqn:E; [|done]. apply Hm in E as [E _]. by apply not_elem_of_nil in E.
  - right. cbn. destruct (Hk x ltac:(left)) as [k Ek]. exists k. split_and!; [apply Hm; split; [left|done]| |].
    + apply (holds_pos s (x :: l)); [done|left].
    + intros j [y Hy]. apply Hm in Hy as [Hy Ey]. apply elem_of_cons in Hy as [->|Hy]; [simplify_eq; lia|]. inversion Hs as [|? ? _ Hall]; subst. rewrite list.Forall_forall in Hall. destruct (Hall y Hy) as (a & b & E1 & E2 & Hab). simplify_eq. lia.
Qed.

Lemma maps_next s keys m k x : maps s keys m -> m !! k = Some x -> exists y, rb_next x s = Done (y, s) /\
  ((y = 0 /\ (forall j, is_Some (m !! j) -> j <= k)) \/ (exists j, m !! j = Some y /\ 0 < y /\ k < j /\ forall i, is_Some (m !! i) -> k < i -> j <= i)).
Proof.
  intros (l & Hl & Hs & Hk & Hm) H. apply Hm in H as [Hx Ex]. apply list_elem_of_split in Hx as (l1 & l2 & ->). exists (hd 0 l2). split; [by eapply rb_next_at|].
  assert (Hsplit : forall j y, m !! j = Some y -> (y ∈ l1 /\ j < k) \/ (y = x /\ j = k) \/ (y ∈ l2 /\ k < j)).
  { intros j y Hy. apply Hm in Hy as [Hy Ey]. apply sorted_app in Hs as (_ & Hs2 & H12). apply elem_of_app in Hy as [Hy|Hy].
    - left. split; [done|]. destruct (H12 y x Hy ltac:(left)) as (a & b & E1 & E2 & Hab). simplify_eq. done.
    - right. apply elem_of_cons in Hy as [->|Hy]; [left; split; congruence|]. right. split; [done|]. inversion Hs2 as [|? ? _ Hall]; subst. rewrite list.Forall_forall in Hall. destruct (Hall y Hy) as (a & b & E1 & E2 & Hab). by simplify_eq. }
  destruct l2 as [|y l2]; cbn.
  - left. split; [done|]. intros j [y Hy]. destruct (Hsplit j y Hy) as [[_ ?]|[[_ ->]|[Hin _]]]; [lia|lia|by apply not_elem_of_nil in Hin].
  - right. destruct (Hk y ltac:(apply elem_of_app; right; right; left)) as [j Ej]. assert (Hj : m !! j = Some y) by (apply Hm; split; [apply elem_of_app; right; right; left|done]). exists j.
    pose proof Hs as Hs0. apply sorted_app in Hs as (_ & Hs2 & _). inversion Hs2 as [|? ? Hs3 Hall]; subst. rewrite list.Forall_forall in Hall. destruct (Hall y ltac:(left)) as (a & b & E1 & E2 & Hab). simplify_eq. split_and!; [done| |done|].
    + apply (holds_pos s _ y Hl). apply elem_of_app. right. right. left.
    + intros i [z Hz] Hki. destruct (Hsplit i z Hz) as [[_ ?]|[[_ ->]|[Hin _]]]; [lia|lia|]. apply Hm in Hz as [_ Ez]. apply elem_of_cons in Hin as [->|Hin]; [simplify_eq; lia|]. inversion Hs3 as [|? ? _ Hall2]; subst. rewrite list.Forall_forall in Hall2.
      destruct (Hall2 z Hin) as (a' & b' & E3 & E4 & Hab'). simplify_eq. lia.
Qed.

(** the keys of other nodes do not matter *)
Lemma maps_keys s keys keys' m : maps s keys m -> (forall k x, m !! k = Some x -> keys' !! x = Some k) -> maps s keys' m.
Proof.
  intros (l & Hl & Hs & Hk & Hm) Hk'. assert (Hin : forall x, x ∈ l -> exists k, keys !! x = Some k /\ keys' !! x = Some k).
  { intros x Hx. destruct (Hk x Hx) as [k Ek]. exists k. split; [done|]. apply Hk', Hm. by split. }
  exists l. split_and!; [done| | |].
  - eapply strongly_mono; [|exact Hs]. intros x y Hx Hy (a & b & E1 & E2 & Hab). destruct (Hin x Hx) as (a' & E3 & E4), (Hin y Hy) as (b' & E5 & E6). assert (a' = a) as -> by congruence. assert (b' = b) as -> by congruence. by exists a, b.
  - intros x Hx. destruct (Hin x Hx) as (k & _ & E). by eexists.
  - intros k x. rewrite Hm. split; intros [Hx E]; (split; [done|]); destruct (Hin x Hx) as (j & E1 & E2); congruence.
Qed.
Lemma maps_node s keys m k x : maps s keys m -> m !! k = Some x -> keys !! x = Some k.
Proof. intros (l & _ & _ & _ & Hm) H. by apply Hm in H as [_ ?]. Qed.
Lemma maps_root s keys m : maps s keys m -> m <> ∅ -> root s <> 0.
Proof.
  intros (l & (t & Ht & _ & <-) & _ & _ & Hm) Hne Hr. pose proof (ap_up _ _ _ Ht) as Hu. cbn in Hu. rewrite Hu in Hr. destruct t as [|c l x r]; [|destruct (ap_tree _ _ _ Ht) as ([Hx _] & _); cbn in Hr; lia].
  apply Hne, map_empty. intros k. destruct (m !! k) as [x|] eqn:E; [|done]. apply Hm in E as [E _]. by apply not_elem_of_nil in E.
Qed.

Lemma maps_empty : maps (mk_rbs ∅ 0) ∅ ∅.
Proof.
  exists []. split_and!; [|constructor|by intros x Hx%not_elem_of_nil|].
  - exists E. split_and!; [|by split; [done|exists 0%nat]|done]. split; [done|done|constructor].
  - intros k x. rewrite lookup_empty. split; [done|]. by intros [Hx%not_elem_of_nil _].
Qed.
(** the first node of a tree *)
Lemma maps_single x k : addr x -> exists s', rb_link_and_balance x 0 LinkRoot (mk_rbs ∅ 0) = Done (tt, s') /\ maps s' (<[x := k]> ∅) (<[k := x]> ∅).
Proof.
  intros Ha. destruct (search_place _ _ _ k maps_empty (lookup_empty k)) as (p & lk & E & H). injection E as <- <-. apply H; [done|]. intros j. by rewrite lookup_empty.
Qed.

(** a search depends on what is compared *)
Lemma search_ext f g s : (forall x, f x = g x) -> search f s = search g s.
Proof.
  intros He. unfold search. generalize (turns s), 0, LinkRoot. intros n. revert s. induction n as [|n IH]; intros s p l; [done|]. cbn [descend]. unfold bind. destruct (read_link l s) as [[x s']| |]; [|done..].
  destruct (x =? 0); [done|]. rewrite He. by destruct (g x).
Qed.
End RbMap.
