(* ===== verification/Pstree.v ===== *)
(** * The process tree: pstree.c

    Tasks are known by the pid they have in the images.  A restore reads the tree from its image, gives every task the flags its clone
    needs, and adds helper tasks where the leader of a session or of a process group is dead.  The pointers between tasks are pids, the
    red-black tree of pids is a finite map, and allocations succeed. *)
From S2P Require Import Prelude.
#[local] Open Scope cmon_scope.

Module Pstree.

(** ** Data *)
Inductive task_state := TASK_UNDEF | TASK_ALIVE | TASK_HELPER.
#[export] Instance task_state_eq_dec : EqDecision task_state.
Proof. solve_decision. Defined.

(** TaskKobjIdsEntry, the ids that decide how a task is cloned *)
Record kobj_ids := mk_kobj_ids { files_id : Z; pid_ns_id : Z; net_ns_id : Z; ipc_ns_id : Z; uts_ns_id : Z; time_ns_id : Z; mnt_ns_id : Z; user_ns_id : Z }.

(** [struct pstree_item] with what [struct rst_info] adds to it; [fdt] is the pid of the task whose table of descriptors it shares *)
Record pstree_item := mk_item {
  parent : option Z;
  children : list Z;
  pgid : Z;
  sid : Z;
  born_sid : Z;
  threads : list Z;
  state : task_state;
  ids : option kobj_ids;
  clone_flags : Z;
  fdt : option Z;
  service_fd_id : Z;
  pgrp_leader : option Z;
}.

(** [struct pid]: a thread, which belongs to no item, or the leader of a task *)
Inductive pid_node := Thread | Item (i : pstree_item).

(** PstreeEntry *)
Record pstree_entry := mk_entry { e_pid : Z; e_ppid : Z; e_pgid : Z; e_sid : Z; e_threads : list Z }.

(** pid_root_rb, root_item, the variable prev of get_free_pid, the descriptor tables by their first owner, task_entries, pid_max of
    prepare_pstree and root_ns_mask *)
Record ps := mk_ps {
  pids : gmap Z pid_node;
  root_item : option Z;
  prev_pid : option Z;
  fdts : gmap Z Z;
  nr_tasks : Z;
  nr_threads : Z;
  nr_helpers : Z;
  pid_max : Z;
  root_ns_mask : Z;
}.

Definition ps_init : ps := mk_ps ∅ None None ∅ 0 0 0 0 0.

(** [__alloc_pstree_item] *)
Definition new_item : pstree_item := mk_item None [] 0 0 (-1) [] TASK_UNDEF None 0 None 0 None.

(** ** Setters *)
Definition set_pids (m : gmap Z pid_node) (s : ps) : ps :=
  mk_ps m (root_item s) (prev_pid s) (fdts s) (nr_tasks s) (nr_threads s) (nr_helpers s) (pid_max s) (root_ns_mask s).
Definition set_item (x : Z) (i : pstree_item) (s : ps) : ps := set_pids (<[x := Item i]> (pids s)) s.
Definition set_root (r : option Z) (s : ps) : ps :=
  mk_ps (pids s) r (prev_pid s) (fdts s) (nr_tasks s) (nr_threads s) (nr_helpers s) (pid_max s) (root_ns_mask s).
Definition set_prev (p : option Z) (s : ps) : ps :=
  mk_ps (pids s) (root_item s) p (fdts s) (nr_tasks s) (nr_threads s) (nr_helpers s) (pid_max s) (root_ns_mask s).
Definition set_fdts (f : gmap Z Z) (s : ps) : ps :=
  mk_ps (pids s) (root_item s) (prev_pid s) f (nr_tasks s) (nr_threads s) (nr_helpers s) (pid_max s) (root_ns_mask s).
Definition count_task (threads : Z) (s : ps) : ps :=
  mk_ps (pids s) (root_item s) (prev_pid s) (fdts s) (nr_tasks s + 1) (nr_threads s + threads) (nr_helpers s) (pid_max s) (root_ns_mask s).
Definition count_helper (s : ps) : ps :=
  mk_ps (pids s) (root_item s) (prev_pid s) (fdts s) (nr_tasks s) (nr_threads s) (nr_helpers s + 1) (pid_max s) (root_ns_mask s).
Definition set_pid_max (m : Z) (s : ps) : ps :=
  mk_ps (pids s) (root_item s) (prev_pid s) (fdts s) (nr_tasks s) (nr_threads s) (nr_helpers s) m (root_ns_mask s).
Definition set_root_ns_mask (m : Z) (s : ps) : ps :=
  mk_ps (pids s) (root_item s) (prev_pid s) (fdts s) (nr_tasks s) (nr_threads s) (nr_helpers s) (pid_max s) m.

Definition with_parent (p : option Z) (i : pstree_item) : pstree_item :=
  mk_item p (children i) (pgid i) (sid i) (born_sid i) (threads i) (state i) (ids i) (clone_flags i) (fdt i) (service_fd_id i) (pgrp_leader i).
Definition with_children (l : list Z) (i : pstree_item) : pstree_item :=
  mk_item (parent i) l (pgid i) (sid i) (born_sid i) (threads i) (state i) (ids i) (clone_flags i) (fdt i) (service_fd_id i) (pgrp_leader i).
Definition with_groups (g n : Z) (i : pstree_item) : pstree_item :=
  mk_item (parent i) (children i) g n (born_sid i) (threads i) (state i) (ids i) (clone_flags i) (fdt i) (service_fd_id i) (pgrp_leader i).
Definition with_born_sid (b : Z) (i : pstree_item) : pstree_item :=
  mk_item (parent i) (children i) (pgid i) (sid i) b (threads i) (state i) (ids i) (clone_flags i) (fdt i) (service_fd_id i) (pgrp_leader i).
Definition with_threads (l : list Z) (i : pstree_item) : pstree_item :=
  mk_item (parent i) (children i) (pgid i) (sid i) (born_sid i) l (state i) (ids i) (clone_flags i) (fdt i) (service_fd_id i) (pgrp_leader i).
Definition with_state (st : task_state) (i : pstree_item) : pstree_item :=
  mk_item (parent i) (children i) (pgid i) (sid i) (born_sid i) (threads i) st (ids i) (clone_flags i) (fdt i) (service_fd_id i) (pgrp_leader i).
Definition with_ids (k : option kobj_ids) (i : pstree_item) : pstree_item :=
  mk_item (parent i) (children i) (pgid i) (sid i) (born_sid i) (threads i) (state i) k (clone_flags i) (fdt i) (service_fd_id i) (pgrp_leader i).
Definition with_clone_flags (f : Z) (i : pstree_item) : pstree_item :=
  mk_item (parent i) (children i) (pgid i) (sid i) (born_sid i) (threads i) (state i) (ids i) f (fdt i) (service_fd_id i) (pgrp_leader i).
Definition with_fdt (f : option Z) (n : Z) (i : pstree_item) : pstree_item :=
  mk_item (parent i) (children i) (pgid i) (sid i) (born_sid i) (threads i) (state i) (ids i) (clone_flags i) f n (pgrp_leader i).
Definition with_pgrp_leader (l : option Z) (i : pstree_item) : pstree_item :=
  mk_item (parent i) (children i) (pgid i) (sid i) (born_sid i) (threads i) (state i) (ids i) (clone_flags i) (fdt i) (service_fd_id i) l.

(** ** Looking up *)
(** a pointer to an item is followed *)
Definition item (x : Z) : M ps pstree_item := fun s => match pids s !! x with Some (Item i) => Done (i, s) | _ => Bug end.
Definition update (x : Z) (f : pstree_item -> pstree_item) : M ps unit :=
  i <~ item x ;; fun s => Done (tt, set_item x (f i) s).

Definition lookup_create_item (pid : Z) : M ps Z := fun s =>
  match pids s !! pid with
  | Some Thread => Bug
  | Some (Item _) => Done (pid, s)
  | None => Done (pid, set_item pid new_item s)
  end.

Definition pstree_pid_by_virt (s : ps) (pid : Z) : option pid_node := pids s !! pid.

Definition pstree_item_by_virt (virt : Z) : M ps (option Z) := fun s =>
  match pids s !! virt with
  | None => Done (None, s)
  | Some Thread => Bug
  | Some (Item _) => Done (Some virt, s)
  end.

(** ** Walking *)
(** the element after [x] *)
Fixpoint after (x : Z) (l : list Z) : list Z :=
  match l with [] => [] | y :: l => if y =? x then l else after x l end.

Fixpoint next_up (fuel : nat) (x : Z) : M ps (option Z) :=
  match fuel with
  | O => fun _ => NoFuel
  | S fuel =>
      i <~ item x ;;
      match parent i with
      | None => ret None
      | Some p => ip <~ item p ;; match after x (children ip) with y :: _ => ret (Some y) | [] => next_up fuel p end
      end
  end.

(** enough turns for whatever goes along the tree *)
Definition turns (s : ps) : nat := S (size (pids s)).

Definition pstree_item_next (x : Z) : M ps (option Z) :=
  i <~ item x ;; match children i with y :: _ => ret (Some y) | [] => fun s => next_up (turns s) x s end.

(** [for_each_pstree_item] with a body that may return from the function *)
Fixpoint for_each (fuel : nat) (body : Z -> M ps (option Z)) (x : Z) : M ps (option Z) :=
  match fuel with
  | O => fun _ => NoFuel
  | S fuel =>
      r <~ body x ;;
      match r with
      | Some e => ret (Some e)
      | None => y <~ pstree_item_next x ;; match y with Some y => for_each fuel body y | None => ret None end
      end
  end.

Definition for_each_pstree_item (body : Z -> M ps (option Z)) : M ps (option Z) := fun s =>
  match root_item s with Some r => for_each (turns s) body r s | None => Done (None, s) end.

(** ** Dump *)
Section Dump.
(** --shell-job; whether an entry is written to the image *)
Variables (shell_job : bool) (writes : pstree_entry -> bool).

Definition entry_of (x : Z) (i : pstree_item) : pstree_entry :=
  mk_entry x (match parent i with Some p => p | None => 0 end) (pgid i) (sid i) (threads i).

Fixpoint dump_items (fuel : nat) (x : Z) : M ps (Z * list pstree_entry) :=
  match fuel with
  | O => fun _ => NoFuel
  | S fuel =>
      i <~ item x ;;
      if negb (writes (entry_of x i)) then ret (-1, [])
      else
        y <~ pstree_item_next x ;;
        match y with
        | Some y => r <~ dump_items fuel y ;; ret (fst r, entry_of x i :: snd r)
        | None => ret (0, [entry_of x i])
        end
  end.

Definition dump_pstree (root : Z) : M ps (Z * list pstree_entry) :=
  i <~ item root ;;
  if negb (root =? sid i) && negb shell_job then ret (-1, []) else fun s => dump_items (turns s) root s.
End Dump.

(** ** Reading the image *)
Section Read.
(** what read_pstree_ids finds for a task: nothing when it fails *)
Variable read_pstree_ids : Z -> option (option kobj_ids).

Fixpoint threads_loop (pid : Z) (l : list Z) : M ps bool :=
  match l with
  | [] => ret true
  | t :: l => fun s => match pids s !! t with Some _ => Done (false, s) | None => threads_loop pid l (set_pids (<[t := Thread]> (pids s)) s) end
  end.

(** the part of the link to the parent *)
Definition read_parent (e : pstree_entry) : M ps bool :=
  if e_ppid e =? 0 then fun s =>
    match root_item s with Some _ => Done (false, s) | None => Done (true, set_root (Some (e_pid e)) s) end
  else fun s =>
    match pids s !! e_ppid e with
    | Some (Item ip) =>
        if bool_decide (state ip = TASK_UNDEF) then Done (false, s)
        else (update (e_pid e) (with_parent (Some (e_ppid e))) ;;; update (e_ppid e) (fun ip => with_children (e_pid e :: children ip) ip) ;;; ret true) s
    | _ => Done (false, s)
    end.

Definition read_one_pstree_item (e : pstree_entry) : M ps Z :=
  _ <~ lookup_create_item (e_pid e) ;;
  pi <~ item (e_pid e) ;;
  bug_on (negb (bool_decide (state pi = TASK_UNDEF))) ;;;
  _ <~ lookup_create_item (e_pgid e) ;;
  _ <~ lookup_create_item (e_sid e) ;;
  update (e_pid e) (fun i => with_state TASK_ALIVE (with_groups (e_pgid e) (e_sid e) i)) ;;;
  (fun s => Done (tt, set_pid_max (Z.max (Z.max (Z.max (pid_max s) (e_pid e)) (e_pgid e)) (e_sid e)) s)) ;;;
  ok <~ read_parent e ;;
  if negb ok then ret (-1) else
  update (e_pid e) (with_threads (e_threads e)) ;;;
  ok <~ threads_loop (e_pid e) (tail (e_threads e)) ;;
  if negb ok then ret (-1) else
  (fun s => Done (tt, count_task (Z.of_nat (length (e_threads e))) s)) ;;;
  match read_pstree_ids (e_pid e) with
  | None => ret (-1)
  | Some k => update (e_pid e) (with_ids k) ;;; ret 1
  end.

Fixpoint read_pstree_image (img : list pstree_entry) : M ps Z :=
  match img with
  | [] => ret 0
  | e :: img => r <~ read_one_pstree_item e ;; if 0 <? r then read_pstree_image img else ret r
  end.
End Read.
End Pstree.
