(* ===== verification/PstreeTree.v ===== *)
(** * The shape of the process tree

    The links between the items of a [ps] as a tree, and the walk over it. *)
From S2P Require Import Prelude.
From S2P Require Import Pstree.
Import Pstree.Pstree.
#[local] Open Scope cmon_scope.
#[local] Set Warnings "-register-all".

Module PstreeTree.

(** ** Trees of pids *)
Inductive tree := T (x : Z) (ts : list tree).

Definition troot (t : tree) : Z := match t with T x _ => x end.
Fixpoint preorder (t : tree) : list Z := match t with T x ts => x :: flat_map preorder ts end.
Definition preorders (ts : list tree) : list Z := flat_map preorder ts.

Lemma tree_induction (P : tree -> Prop) : (forall x ts, Forall P ts -> P (T x ts)) -> forall t, P t.
Proof. intros H. fix IH 1. intros [x ts]. apply H. induction ts as [|t ts IHts]; constructor; [apply IH|exact IHts]. Qed.

Lemma preorder_root t : exists l, preorder t = troot t :: l.
Proof. destruct t as [x ts]. by eexists. Qed.
Lemma preorders_app ts us : preorders (ts ++ us) = preorders ts ++ preorders us.
Proof. apply flat_map_app. Qed.

(** ** Items and links *)
Definition it (s : ps) (x : Z) (i : pstree_item) : Prop := pids s !! x = Some (Item i).

Lemma it_fun s x i j : it s x i -> it s x j -> i = j.
Proof. unfold it. congruence. Qed.
Lemma item_it s x i : it s x i -> item x s = Done (i, s).
Proof. unfold it, item. by intros ->. Qed.
Lemma update_it s x i f : it s x i -> update x f s = Done (tt, set_item x (f i) s).
Proof. intros H. unfold update, bind. by rewrite (item_it s x i H). Qed.
Lemma it_set s x i j : it (set_item x i s) x j <-> j = i.
Proof. unfold it. cbn. rewrite lookup_insert. rewrite decide_True by done. split; intros H; congruence. Qed.
Lemma it_set_ne s x y i j : x <> y -> it (set_item x i s) y j <-> it s y j.
Proof. intros H. unfold it. cbn. by rewrite lookup_insert_ne. Qed.

(** [x] is [n] steps below the root *)
Inductive depth (s : ps) (r : Z) : nat -> Z -> Prop :=
  | depth_root i : it s r i -> parent i = None -> depth s r O r
  | depth_child x i p n : it s x i -> parent i = Some p -> depth s r n p -> depth s r (S n) x.

(** [hs] are helpers that have the root for a parent and are not yet among its children. *)
Record linked (s : ps) (r : Z) (hs : list Z) : Prop := {
  lk_root : exists i, it s r i /\ parent i = None;
  lk_down : forall x i y, it s x i -> y ∈ children i -> exists j, it s y j /\ parent j = Some x;
  lk_up : forall y j p, it s y j -> parent j = Some p -> exists i, it s p i /\ (y ∈ children i \/ p = r /\ y ∈ hs);
  lk_nodup : forall x i, it s x i -> NoDup (children i);
  lk_depth : forall y j p, it s y j -> parent j = Some p -> exists n, depth s r n y;
  lk_helpers : forall y, y ∈ hs -> exists j, it s y j /\ parent j = Some r;
  lk_helpers_nodup : NoDup hs;
  lk_helpers_apart : forall i y, it s r i -> y ∈ hs -> y ∉ children i;
  lk_free : forall x i, it s x i -> parent i = None -> x <> r -> children i = [];
}.

Lemma depth_fun s r n x : depth s r n x -> forall m, depth s r m x -> n = m.
Proof.
  induction 1 as [i Hi Hp|x i p n Hi Hp _ IH]; intros m Hm.
  - inversion Hm as [|? j q ? Hj Hq]; subst; [done|]. rewrite (it_fun _ _ _ _ Hj Hi) in Hq. congruence.
  - inversion Hm as [j Hj Hq|? j q ? Hj Hq Hd]; subst; rewrite (it_fun _ _ _ _ Hj Hi) in Hq; [congruence|].
    rewrite Hp in Hq. injection Hq as <-. by rewrite (IH _ Hd).
Qed.

(** the pids from [x] up to the root *)
Lemma depth_path s r n x : depth s r n x -> exists l, length l = S n /\ NoDup l /\ (forall y, y ∈ l -> exists m, (m <= n)%nat /\ depth s r m y).
Proof.
  induction 1 as [i Hi Hp|x i p n Hi Hp Hd (l & Hl & Hn & Ha)].
  - exists [r]. split_and!; [done|apply NoDup_singleton|]. intros y ->%list_elem_of_singleton. exists O. split; [done|by eapply depth_root].
  - exists (x :: l). split_and!; [cbn; lia| |].
    + apply list.NoDup_cons. split; [|done]. intros (m & Hm & Hx)%Ha. pose proof (depth_child s r x i p n Hi Hp Hd) as Hx'.
      pose proof (depth_fun _ _ _ _ Hx _ Hx'). lia.
    + intros y [->|Hy]%elem_of_cons; [exists (S n); split; [done|by eapply depth_child]|]. destruct (Ha y Hy) as (m & Hm & Hd'). exists m. split; [lia|done].
Qed.

Lemma depth_parent s r n x i p : depth s r n x -> it s x i -> parent i = Some p -> exists m, depth s r m p.
Proof.
  intros Hd Hi Hp. inversion Hd as [j Hj Hq|? j q m Hj Hq Hd']; subst; rewrite (it_fun _ _ _ _ Hj Hi) in Hq; [congruence|]. assert (q = p) as -> by congruence. by exists m.
Qed.
Lemma depth_none s r n x i : depth s r n x -> it s x i -> parent i = None -> x = r.
Proof. intros Hd Hi Hp. inversion Hd as [j Hj Hq|? j q m Hj Hq Hd']; subst; [done|]. rewrite (it_fun _ _ _ _ Hj Hi) in Hq. congruence. Qed.

Lemma depth_item s r n x : depth s r n x -> exists i, it s x i.
Proof. intros []; eauto. Qed.

Lemma depth_size s r n x : depth s r n x -> (n < size (pids s))%nat.
Proof.
  intros (l & Hl & Hn & Ha)%depth_path. assert (Hs : list_to_set l ⊆@{gset Z} dom (pids s)).
  { intros y Hy%elem_of_list_to_set. destruct (Ha y Hy) as (m & _ & (i & Hi)%depth_item). apply elem_of_dom. eexists. apply Hi. }
  apply subseteq_size in Hs. rewrite size_list_to_set, size_dom in Hs by done. lia.
Qed.

(** ** The tree below an item *)
Inductive repr (s : ps) : option Z -> tree -> Prop :=
  | repr_T par x i ts : it s x i -> parent i = par -> children i = map troot ts -> Forall (repr s (Some x)) ts -> repr s par (T x ts).

Lemma repr_item s par t : repr s par t -> exists i, it s (troot t) i /\ parent i = par.
Proof. intros [par' x i ts Hi Hp _ _]. eauto. Qed.

Lemma linked_repr s r hs x : linked s r hs -> forall n i, depth s r n x -> it s x i -> exists t, troot t = x /\ repr s (parent i) t.
Proof.
  intros Hlk n. remember (size (pids s) - n)%nat as f eqn:Hf. revert n x Hf. induction f as [|f IH]; intros n x Hf i Hd Hi.
  - pose proof (depth_size _ _ _ _ Hd). lia.
  - assert (Hts : forall l, (forall y, y ∈ l -> y ∈ children i) -> exists ts, map troot ts = l /\ Forall (repr s (Some x)) ts).
    { induction l as [|y l IHl]; intros Hl; [by exists []|]. destruct IHl as (ts & H1 & H2); [intros z Hz; apply Hl; by right|].
      destruct (lk_down s r hs Hlk x i y Hi) as (j & Hj & Hp); [apply Hl; left|].
      destruct (IH (S n) y ltac:(lia) j) as (t & H3 & H4); [by eapply depth_child|done|]. exists (t :: ts). rewrite Hp in H4. split; [cbn; by f_equal|by constructor]. }
    destruct (Hts (children i)) as (ts & H1 & H2); [done|]. exists (T x ts). split; [done|]. by econstructor.
Qed.

(** what is in the tree of an item *)
Lemma repr_depth s r hs par t n : linked s r hs -> repr s par t -> depth s r n (troot t) -> forall y, y ∈ preorder t -> exists m, (n <= m)%nat /\ depth s r m y.
Proof.
  intros Hlk. revert par n. induction t as [x ts IH] using tree_induction. intros par n Hr Hd y Hy. inversion Hr as [? ? i ? Hi Hp Hc Hts]; subst. cbn [preorder troot] in *.
  apply elem_of_cons in Hy as [->|Hy]; [by exists n|]. apply list_elem_of_In, in_flat_map in Hy as (t & Ht & Hy).
  apply list_elem_of_In in Ht, Hy. rewrite list.Forall_forall in IH, Hts. pose proof (Hts t Ht) as Hrt. destruct (repr_item _ _ _ Hrt) as (j & Hj & Hpj).
  destruct (IH t Ht (Some x) (S n) Hrt) with (y := y) as (m & Hm & Hdm); [by eapply depth_child|done|]. exists m. split; [lia|done].
Qed.

(** [k] steps up *)
Inductive ups (s : ps) : nat -> Z -> Z -> Prop :=
  | ups_here y : ups s O y y
  | ups_step y j p k a : it s y j -> parent j = Some p -> ups s k p a -> ups s (S k) y a.

Lemma ups_fun s k y a b : ups s k y a -> ups s k y b -> a = b.
Proof.
  intros H. revert b. induction H as [y|y j p k a Hj Hp _ IH]; intros b Hb; inversion Hb as [|? j' p' ? ? Hj' Hp' Hu]; subst; [done|].
  rewrite (it_fun _ _ _ _ Hj' Hj) in Hp'. rewrite Hp in Hp'. injection Hp' as <-. by apply IH.
Qed.
Lemma ups_trans s k l x y z : ups s k x y -> ups s l y z -> ups s (k + l) x z.
Proof. induction 1; intros H'; [done|]. cbn. econstructor; eauto. Qed.
Lemma ups_depth s r k y a n : ups s k y a -> depth s r n a -> depth s r (k + n) y.
Proof. induction 1; intros H'; [done|]. cbn. econstructor; eauto. Qed.

Lemma repr_ups s par t y : repr s par t -> y ∈ preorder t -> exists k, ups s k y (troot t).
Proof.
  revert par. induction t as [x ts IH] using tree_induction. intros par Hr Hy. inversion Hr as [? ? i ? Hi Hp Hc Hts]; subst. cbn [preorder troot] in *.
  apply elem_of_cons in Hy as [->|Hy]; [exists O; constructor|]. apply list_elem_of_In, in_flat_map in Hy as (t & Ht & Hy).
  apply list_elem_of_In in Ht, Hy. rewrite list.Forall_forall in IH, Hts. pose proof (Hts t Ht) as Hrt. destruct (repr_item _ _ _ Hrt) as (j & Hj & Hpj).
  destruct (IH t Ht (Some x) Hrt Hy) as (k & Hk). exists (k + 1)%nat. eapply ups_trans; [done|]. econstructor; [done..|constructor].
Qed.

(** a tree has its items once *)
Lemma repr_nodup s r hs par t n : linked s r hs -> repr s par t -> depth s r n (troot t) -> NoDup (preorder t).
Proof.
  intros Hlk. revert par n. induction t as [x ts IH] using tree_induction. intros par n Hr Hd. pose proof Hr as Hr0. inversion Hr as [? ? i ? Hi Hp Hc Hts]; subst. cbn [preorder troot] in *.
  assert (Hd1 : forall t, t ∈ ts -> depth s r (S n) (troot t)).
  { intros t Ht. rewrite list.Forall_forall in Hts. destruct (repr_item _ _ _ (Hts t Ht)) as (j & Hj & Hpj). by eapply depth_child. }
  apply list.NoDup_cons. split.
  - intros Hy. apply list_elem_of_In, in_flat_map in Hy as (t & Ht & Hy). apply list_elem_of_In in Ht, Hy. rewrite list.Forall_forall in Hts.
    destruct (repr_depth s r hs (Some x) t (S n) Hlk (Hts t Ht) (Hd1 t Ht) x Hy) as (m & Hm & Hdm). pose proof (depth_fun _ _ _ _ Hd _ Hdm). lia.
  - assert (Hnd : NoDup (map troot ts)) by (rewrite <-Hc; by apply (lk_nodup s r hs Hlk x)). clear Hc Hr Hr0.
    induction ts as [|t ts IHts]; [constructor|]. cbn [flat_map map] in *. inversion_clear IH as [|? ? IHt IH']. inversion_clear Hts as [|? ? Ht Hts'].
    apply list.NoDup_cons in Hnd as [Hn Hnd]. apply list.NoDup_app. split_and!.
    + apply (IHt (Some x) (S n) Ht). apply Hd1. left.
    + intros y Hy Hy'. apply list_elem_of_In, in_flat_map in Hy' as (u & Hu & Hy'). apply list_elem_of_In in Hu, Hy'. rewrite list.Forall_forall in Hts'.
      destruct (repr_ups _ _ _ _ Ht Hy) as (k & Hk), (repr_ups _ _ _ _ (Hts' u Hu) Hy') as (l & Hl).
      pose proof (ups_depth _ _ _ _ _ _ Hk (Hd1 t ltac:(left))) as D1. pose proof (ups_depth _ _ _ _ _ _ Hl (Hd1 u ltac:(by right))) as D2.
      pose proof (depth_fun _ _ _ _ D1 _ D2). assert (k = l) as <- by lia. pose proof (ups_fun _ _ _ _ _ Hk Hl) as E. apply Hn. rewrite E. apply list_elem_of_fmap. by exists u.
    + apply IHts; [done|done| |done]. intros u Hu. apply Hd1. by right.
Qed.

(** whoever is a child of an item of the tree is in it *)
Lemma repr_closed s par t p i y : repr s par t -> p ∈ preorder t -> it s p i -> y ∈ children i -> y ∈ preorder t.
Proof.
  revert par. induction t as [x ts IH] using tree_induction. intros par Hr Hp Hi Hy. inversion Hr as [? ? ix ? Hx Hpx Hc Hts]; subst. cbn [preorder] in *.
  rewrite list.Forall_forall in IH, Hts. right. apply list_elem_of_In, in_flat_map. apply elem_of_cons in Hp as [->|Hp].
  - rewrite (it_fun _ _ _ _ Hi Hx), Hc in Hy. apply list_elem_of_fmap in Hy as (t & -> & Ht). exists t. split; [by apply list_elem_of_In|].
    apply list_elem_of_In. destruct (preorder_root t) as (l & ->). left.
  - apply list_elem_of_In, in_flat_map in Hp as (t & Ht & Hp). exists t. split; [done|]. apply list_elem_of_In. apply list_elem_of_In in Ht, Hp. exact (IH t Ht (Some x) (Hts t Ht) Hp Hi Hy).
Qed.

Lemma linked_root_repr s r hs : linked s r hs -> exists t, troot t = r /\ repr s None t /\ NoDup (preorder t).
Proof.
  intros Hlk. destruct (lk_root s r hs Hlk) as (i & Hi & Hp). destruct (linked_repr s r hs r Hlk O i) as (t & Ht & Hr); [by eapply depth_root|done|].
  exists t. rewrite Hp in Hr. split_and!; [done|done|]. apply (repr_nodup s r hs None t O Hlk Hr). rewrite Ht. by eapply depth_root.
Qed.

(** all that is linked is in the tree of the root, but for what is below the helpers *)
Lemma linked_in_tree s r hs t n y : linked s r hs -> troot t = r -> repr s None t -> depth s r n y ->
  y ∈ preorder t \/ exists h k, h ∈ hs /\ ups s k y h.
Proof.
  intros Hlk Ht Hr. induction 1 as [i Hi Hp|x i p n Hi Hp _ IH].
  - left. destruct (preorder_root t) as (l & ->). rewrite Ht. left.
  - destruct (lk_up s r hs Hlk x i p Hi Hp) as (ip & Hip & [Hc|[-> Hh]]).
    + destruct IH as [IH|(h & k & Hh & Hk)]; [left; by eapply repr_closed|]. right. exists h, (S k). split; [done|by econstructor].
    + right. exists x, O. split; [done|constructor].
Qed.

(** ** The walk *)
(** The way from [x] up to the root, with the siblings to the right of every item on it *)
Inductive path (s : ps) : Z -> list (list tree) -> Prop :=
  | path_root x i : it s x i -> parent i = None -> path s x []
  | path_up x i p ip ts k : it s x i -> parent i = Some p -> it s p ip -> NoDup (children ip) -> after x (children ip) = map troot ts ->
      Forall (repr s (Some p)) ts -> path s p k -> path s x (ts :: k).

(** at [x]: the trees of its children, and the way up *)
Record focus (s : ps) (x : Z) (cs : list tree) (k : list (list tree)) : Prop := {
  fc_item : exists i, it s x i /\ children i = map troot cs /\ NoDup (children i);
  fc_children : Forall (repr s (Some x)) cs;
  fc_path : path s x k;
}.

(** what the walk visits after [x] *)
Definition remaining (cs : list tree) (k : list (list tree)) : list Z := preorders cs ++ flat_map preorders k.

Lemma after_head x l : NoDup (x :: l) -> after x (x :: l) = l.
Proof. intros _. cbn. by rewrite Z.eqb_refl. Qed.
Lemma after_next x l y l' : NoDup l -> after x l = y :: l' -> after y l = l'.
Proof.
  revert x. induction l as [|z l IH]; intros x Hn Ha; [done|]. cbn [after] in *. apply list.NoDup_cons in Hn as [Hz Hn].
  destruct (z =? x) eqn:E.
  - subst l. assert ((z =? y) = false) as -> by (apply Z.eqb_neq; intros ->; apply Hz; left). cbn. by rewrite Z.eqb_refl.
  - assert (Hy : y ∈ l).
    { clear IH Hn Hz E. revert Ha. induction l as [|w l IHl]; cbn; [done|]. destruct (w =? x); [intros ->; right; left|]. intros H. right. by apply IHl. }
    assert ((z =? y) = false) as -> by (apply Z.eqb_neq; by intros ->). by apply (IH x).
Qed.

Lemma next_up_spec s x k fuel : path s x k -> (length k < fuel)%nat ->
  match flat_map preorders k with
  | [] => next_up fuel x s = Done (None, s)
  | y :: l => exists cs k', next_up fuel x s = Done (Some y, s) /\ (length k' <= length k)%nat /\ path s y k' /\ remaining cs k' = l /\
      (exists i, it s y i /\ children i = map troot cs) /\ Forall (repr s (Some y)) cs
  end.
Proof.
  intros Hp. revert fuel. induction Hp as [x i Hi Hpar|x i p ip ts k Hi Hpar Hip Hn Ha Hts Hk IH]; intros [|fuel] Hf; try (cbn in Hf; lia); cbn [next_up flat_map].
  - unfold bind. by rewrite (item_it s x i Hi), Hpar.
  - unfold bind. rewrite (item_it s x i Hi), Hpar, (item_it s p ip Hip), Ha. destruct ts as [|[y cs] ts]; cbn [map troot preorders flat_map app].
    + specialize (IH fuel ltac:(cbn in Hf; lia)). destruct (flat_map preorders k) as [|y l]; [done|].
      destruct IH as (cs & k' & H1 & H2 & H3). exists cs, k'. cbn. split; [done|]. split; [lia|done].
    + inversion_clear Hts as [|? ? Ht Hts']. inversion Ht as [? ? iy ? Hiy Hpy Hcy Hcs]; subst. exists cs, (ts :: k).
      split; [done|]. split; [done|]. split; [by eapply path_up; [done|done|done|done|by eapply after_next|..]|].
      split; [unfold remaining; cbn; by rewrite app_assoc|]. split; [by exists iy|done].
Qed.

Lemma path_depth s r x k n : path s x k -> depth s r n x -> length k = n.
Proof.
  intros Hp. revert n. induction Hp as [x i Hi Hpar|x i p ip ts k Hi Hpar _ _ _ _ _ IH]; intros n Hd.
  - inversion Hd as [j Hj Hq|? j q m Hj Hq Hd']; subst; [done|]. rewrite (it_fun _ _ _ _ Hj Hi) in Hq. congruence.
  - inversion Hd as [j Hj Hq|? j q m Hj Hq Hd']; subst; rewrite (it_fun _ _ _ _ Hj Hi) in Hq; [congruence|].
    assert (q = p) as -> by congruence. cbn. by rewrite (IH m Hd').
Qed.

Lemma focus_size s r hs x cs k : linked s r hs -> focus s x cs k -> (exists n, depth s r n x) -> (length k < size (pids s))%nat.
Proof. intros Hlk [_ _ Hp] (n & Hd). rewrite (path_depth s r x k n Hp Hd). by eapply depth_size. Qed.

(** a step of the walk *)
Lemma next_spec s r hs x cs k : linked s r hs -> focus s x cs k -> (exists n, depth s r n x) ->
  match remaining cs k with
  | [] => pstree_item_next x s = Done (None, s)
  | y :: l => exists cs' k', pstree_item_next x s = Done (Some y, s) /\ focus s y cs' k' /\ remaining cs' k' = l
  end.
Proof.
  intros Hlk Hf Hd. pose proof (focus_size s r hs x cs k Hlk Hf Hd) as Hs. destruct Hf as [(i & Hi & Hc & Hn) Hcs Hp].
  unfold pstree_item_next, bind. rewrite (item_it s x i Hi), Hc. destruct cs as [|[y cs] ts]; cbn [map troot remaining].
  - unfold remaining. cbn [preorders flat_map app]. pose proof (next_up_spec s x k (turns s) Hp) as H. unfold turns in H at 1. specialize (H ltac:(lia)).
    destruct (flat_map preorders k) as [|y l]; [done|]. destruct H as (cs & k' & H1 & H2 & H3 & H4 & (j & Hj & Hcj) & H5). exists cs, k'. split; [done|]. split; [|done].
    split; [|done..]. exists j. split; [done|]. split; [done|]. by eapply lk_nodup.
  - unfold remaining. cbn [preorders flat_map preorder app]. inversion_clear Hcs as [|? ? Ht Hts]. inversion Ht as [? ? iy ? Hiy Hpy Hcy Hcs']; subst.
    assert (Hpath : path s y (ts :: k)).
    { eapply path_up; [done|done|done|done| |done|done]. rewrite Hc. cbn. by rewrite Z.eqb_refl. }
    exists cs, (ts :: k). split; [done|]. split; [|unfold remaining; cbn; by rewrite app_assoc]. split; [|done..]. exists iy. split; [done|]. split; [done|]. by eapply lk_nodup.
Qed.

Lemma remaining_in_tree s r t : linked s r [] -> troot t = r -> repr s None t -> forall n y, depth s r n y -> y ∈ preorder t.
Proof.
  intros Hlk Ht Hr n y Hd. destruct (linked_in_tree s r [] t n y Hlk Ht Hr Hd) as [|(h & _ & Hh & _)]; [done|]. by apply elem_of_nil in Hh.
Qed.

(** ** A rule for loops over the tree *)
(** [P n l s]: with [n] turns left and [l] still to visit.  The body may add leaves below the item that it is at. *)
Lemma for_each_rule (body : Z -> M ps (option Z)) (P : nat -> list Z -> ps -> Prop) (Q : Z -> ps -> Prop) :
  (forall x l s, ~ P O (x :: l) s) ->
  (forall n s x cs k, focus s x cs k -> P (S n) (x :: remaining cs k) s ->
     exists e s', body x s = Done (e, s') /\
       match e with
       | Some e => Q e s'
       | None => exists cs' r hs, focus s' x cs' k /\ P n (remaining cs' k) s' /\ linked s' r hs /\ exists d, depth s' r d x
       end) ->
  forall n s x cs k, focus s x cs k -> P n (x :: remaining cs k) s ->
    exists e s', for_each n body x s = Done (e, s') /\ match e with Some e => Q e s' | None => exists n, P n [] s' end.
Proof.
  intros H0 Hstep. induction n as [|n IH]; intros s x cs k Hf HP; [by apply H0 in HP|].
  destruct (Hstep n s x cs k Hf HP) as (e & s' & Hb & Hres). cbn [for_each]. unfold bind at 1. rewrite Hb. destruct e as [e|]; [by exists (Some e), s'|].
  destruct Hres as (cs' & r & hs & Hf' & HP' & Hlk & Hd). unfold bind. pose proof (next_spec s' r hs x cs' k Hlk Hf' Hd) as Hn.
  destruct (remaining cs' k) as [|y l]; [rewrite Hn; exists None, s'; eauto|]. destruct Hn as (cs2 & k2 & -> & Hf2 & <-). by apply (IH s' y cs2 k2).
Qed.

(** the loop starts at the root *)
Lemma root_focus s r hs : linked s r hs -> exists t cs, repr s None t /\ troot t = r /\ NoDup (preorder t) /\ preorder t = r :: remaining cs [] /\ focus s r cs [].
Proof.
  intros Hlk. destruct (linked_root_repr s r hs Hlk) as ([x cs] & Ht & Hr & Hn). cbn in Ht. subst x. exists (T r cs), cs. split_and!; [done..| |].
  - unfold remaining. cbn. by rewrite app_nil_r.
  - inversion Hr as [? ? i ? Hi Hp Hc Hcs]; subst. split; [|done|by eapply path_root]. exists i. split_and!; [done|done|]. by eapply lk_nodup.
Qed.

Lemma repr_in_pids s par t y : repr s par t -> y ∈ preorder t -> exists i, it s y i.
Proof.
  revert par. induction t as [x ts IH] using tree_induction. intros par Hr Hy. inversion Hr as [? ? ix ? Hx Hpx Hc Hts]; subst. cbn [preorder] in Hy.
  apply elem_of_cons in Hy as [->|Hy]; [by exists ix|]. apply list_elem_of_In, in_flat_map in Hy as (t & Ht & Hy). apply list_elem_of_In in Ht, Hy.
  rewrite list.Forall_forall in IH, Hts. exact (IH t Ht (Some x) (Hts t Ht) Hy).
Qed.

Lemma preorder_size s par t : repr s par t -> NoDup (preorder t) -> (length (preorder t) <= size (pids s))%nat.
Proof.
  intros Hr Hn. assert (Hs : list_to_set (preorder t) ⊆@{gset Z} dom (pids s)).
  { intros y Hy%elem_of_list_to_set. destruct (repr_in_pids s par t y Hr Hy) as (i & Hi). apply elem_of_dom. eexists. apply Hi. }
  apply subseteq_size in Hs. by rewrite size_list_to_set, size_dom in Hs by done.
Qed.

(** ** Links that change *)
Definition links (s : ps) (x : Z) : option (option Z * list Z) :=
  match pids s !! x with Some (Item i) => Some (parent i, children i) | _ => None end.

Lemma links_it s x p c : links s x = Some (p, c) <-> exists i, it s x i /\ parent i = p /\ children i = c.
Proof.
  unfold links, it. split.
  - destruct (pids s !! x) as [[|i]|]; try done. intros [= <- <-]. by exists i.
  - by intros (i & -> & <- & <-).
Qed.
Lemma it_links s x i : it s x i -> links s x = Some (parent i, children i).
Proof. intros H. apply links_it. by exists i. Qed.
Lemma links_none s x : links s x = None <-> forall i, ~ it s x i.
Proof.
  unfold links, it. destruct (pids s !! x) as [[|i]|]; split; try done; intros H; try (intros j Hj; done). exfalso. by apply (H i).
Qed.

(** the same conditions on the function [links] *)
Record linked_by (l : Z -> option (option Z * list Z)) (r : Z) (hs : list Z) : Prop := {
  lb_root : exists c, l r = Some (None, c);
  lb_down : forall x p c y, l x = Some (p, c) -> y ∈ c -> exists d, l y = Some (Some x, d);
  lb_up : forall y p d, l y = Some (Some p, d) -> exists q c, l p = Some (q, c) /\ (y ∈ c \/ p = r /\ y ∈ hs);
  lb_nodup : forall x p c, l x = Some (p, c) -> NoDup c;
  lb_helpers : forall y, y ∈ hs -> exists d, l y = Some (Some r, d);
  lb_helpers_nodup : NoDup hs;
  lb_helpers_apart : forall p c y, l r = Some (p, c) -> y ∈ hs -> y ∉ c;
  lb_free : forall x c, l x = Some (None, c) -> x <> r -> c = [];
}.

(** the way up in [links] *)
Inductive up_to (l : Z -> option (option Z * list Z)) (r : Z) : Z -> Prop :=
  | up_root c : l r = Some (None, c) -> up_to l r r
  | up_child x p c : l x = Some (Some p, c) -> up_to l r p -> up_to l r x.

Lemma up_depth s r x : up_to (links s) r x <-> exists n, depth s r n x.
Proof.
  split.
  - induction 1 as [c (i & Hi & Hp & _)%links_it|x p c (i & Hi & Hp & _)%links_it _ (n & IH)]; [exists O; by eapply depth_root|exists (S n); by eapply depth_child].
  - intros (n & Hd). induction Hd as [i Hi Hp|x i p n Hi Hp _ IH].
    + apply (up_root _ _ (children i)). by rewrite (it_links _ _ _ Hi), Hp.
    + apply (up_child _ _ x p (children i)); [by rewrite (it_links _ _ _ Hi), Hp|done].
Qed.

Lemma linked_links s r hs : linked s r hs <-> linked_by (links s) r hs /\ forall y p d, links s y = Some (Some p, d) -> up_to (links s) r y.
Proof.
  split.
  - intros H. split; [split|].
    + destruct (lk_root _ _ _ H) as (i & Hi & Hp). exists (children i). by rewrite (it_links _ _ _ Hi), Hp.
    + intros x p c y (i & Hi & <- & <-)%links_it Hy. destruct (lk_down _ _ _ H x i y Hi Hy) as (j & Hj & Hpj). exists (children j). by rewrite (it_links _ _ _ Hj), Hpj.
    + intros y p d (j & Hj & Hp & <-)%links_it. destruct (lk_up _ _ _ H y j p Hj Hp) as (i & Hi & Hc). exists (parent i), (children i). by rewrite (it_links _ _ _ Hi).
    + intros x p c (i & Hi & <- & <-)%links_it. by eapply lk_nodup.
    + intros y Hy. destruct (lk_helpers _ _ _ H y Hy) as (j & Hj & Hp). exists (children j). by rewrite (it_links _ _ _ Hj), Hp.
    + apply H.
    + intros p c y (i & Hi & <- & <-)%links_it Hy. by eapply lk_helpers_apart.
    + intros x c (i & Hi & Hp & <-)%links_it Hx. by eapply lk_free.
    + intros y p d (j & Hj & Hp & <-)%links_it. apply up_depth. by eapply lk_depth.
  - intros [H Hup]. split.
    + destruct (lb_root _ _ _ H) as (c & (i & Hi & Hp & _)%links_it). by exists i.
    + intros x i y Hi Hy. destruct (lb_down _ _ _ H x (parent i) (children i) y) as (d & (j & Hj & Hp & _)%links_it); [by apply it_links|done|]. by exists j.
    + intros y j p Hj Hp. destruct (lb_up _ _ _ H y p (children j)) as (q & c & (i & Hi & _ & <-)%links_it & Hc); [by rewrite (it_links _ _ _ Hj), Hp|]. by exists i.
    + intros x i Hi. by eapply lb_nodup, it_links.
    + intros y j p Hj Hp. apply up_depth. apply (Hup y p (children j)). by rewrite (it_links _ _ _ Hj), Hp.
    + intros y Hy. destruct (lb_helpers _ _ _ H y Hy) as (d & (j & Hj & Hp & _)%links_it). by exists j.
    + apply H.
    + intros i y Hi Hy. by eapply (lb_helpers_apart _ _ _ H (parent i) (children i)); [apply it_links|].
    + intros x i Hi Hp Hx. eapply (lb_free _ _ _ H x); [|done]. by rewrite (it_links _ _ _ Hi), Hp.
Qed.

Lemma linked_ext s s' r hs : (forall x, links s' x = links s x) -> linked s r hs -> linked s' r hs.
Proof.
  intros He [H Hup]%linked_links. apply linked_links.
  assert (Hu : forall x, up_to (links s) r x -> up_to (links s') r x).
  { induction 1 as [c Hc|x p c Hc _ IH]; [eapply up_root|eapply up_child]; try done; by rewrite He. }
  split; [|intros y p d Hy; apply Hu; eapply Hup; by rewrite <-He]. destruct H as [A1 A2 A3 A4 A5 A6 A7 A8]. split; try done.
  - destruct A1 as (c & Hc). exists c. by rewrite He.
  - intros x p c y Hx Hy. rewrite He in Hx. destruct (A2 x p c y Hx Hy) as (d & Hd). exists d. by rewrite He.
  - intros y p d Hy. rewrite He in Hy. destruct (A3 y p d Hy) as (q & c & Hp & Hc). exists q, c. by rewrite He.
  - intros x p c Hx. rewrite He in Hx. eauto.
  - intros y Hy. destruct (A5 y Hy) as (d & Hd). exists d. by rewrite He.
  - intros p c y Hr. rewrite He in Hr. eauto.
  - intros x c Hx. rewrite He in Hx. eauto.
Qed.

(** the way up stays when the parents on it do *)
Lemma up_to_keep (l l' : Z -> option (option Z * list Z)) r x (K : Z -> Prop) : up_to l r x -> K x -> (forall y p c, K y -> l y = Some (Some p, c) -> K p) ->
  (forall y p c, K y -> l y = Some (p, c) -> exists c', l' y = Some (p, c')) -> up_to l' r x.
Proof.
  intros Hu Hx Hk Hl. induction Hu as [c Hc|x p c Hc _ IH].
  - destruct (Hl r None c Hx Hc) as (c' & Hc'). by eapply up_root.
  - destruct (Hl x (Some p) c Hx Hc) as (c' & Hc'). eapply up_child; [done|]. apply IH. by eapply Hk.
Qed.

(** a new leaf *)
Lemma linked_add s s' r hs h x p c : linked s r hs -> links s x = Some (p, c) -> up_to (links s) r x -> h <> r -> h <> x ->
  (links s h = None \/ links s h = Some (None, [])) -> links s' h = Some (Some x, []) -> links s' x = Some (p, h :: c) ->
  (forall y, y <> h -> y <> x -> links s' y = links s y) -> linked s' r hs.
Proof.
  intros [H Hup]%linked_links Hx Hux Hhr Hhx Hh Hh' Hx' He. apply linked_links.
  assert (Hnh : forall y q d, links s y = Some (q, d) -> h ∉ d).
  { intros y q d Hy Hd. destruct (lb_down _ _ _ H y q d h Hy Hd) as (e & E). destruct Hh as [Hh|Hh]; congruence. }
  assert (Hget : forall y q d, y <> h -> links s y = Some (q, d) -> links s' y = Some (q, if decide (y = x) then h :: d else d)).
  { intros y q d Hy Hl. destruct (decide (y = x)) as [->|Hyx]; [congruence|]. by rewrite He. }
  assert (Hput : forall y q d, y <> h -> links s' y = Some (q, d) -> exists d0, links s y = Some (q, d0) /\ (d = d0 \/ y = x /\ d = h :: d0)).
  { intros y q d Hy Hl. destruct (decide (y = x)) as [->|Hyx]; [exists c; split; [congruence|right; split; [done|congruence]]|]. exists d. rewrite He in Hl by done. auto. }
  assert (Hu : forall y, up_to (links s) r y -> up_to (links s') r y).
  { intros y Hy. apply (up_to_keep (links s) (links s') r y (fun y => y <> h)); [done| | |].
    - intros ->. inversion Hy; subst; destruct Hh as [Hh|Hh]; congruence.
    - intros z q d _ Hz ->. destruct (lb_up _ _ _ H z h d Hz) as (q' & e & E & [E'|[-> _]]); [by destruct Hh; rewrite E in *; simplify_eq; apply elem_of_nil in E'|done].
    - intros z q d Hz Hl. by eexists; apply Hget. }
  destruct H as [A1 A2 A3 A4 A5 A6 A7 A8].
  assert (Hhs : h ∉ hs) by (intros E; destruct (A5 h E) as (d & Hd); destruct Hh; congruence).
  split; [split|].
  - destruct A1 as (d & Hd). eexists. apply (Hget r None d); [done|exact Hd].
  - intros y q d z Hy Hz. destruct (decide (y = h)) as [->|Hyh]; [rewrite Hh' in Hy; simplify_eq; by apply elem_of_nil in Hz|].
    destruct (Hput y q d Hyh Hy) as (d0 & Hd0 & Hd). assert (Hzd : z ∈ d0 \/ z = h /\ y = x) by (destruct Hd as [->|[-> ->]]; [by left|apply elem_of_cons in Hz as [->|]; auto]).
    destruct Hzd as [Hzd|[-> ->]]; [|by eexists]. destruct (A2 y q d0 z Hd0 Hzd) as (e & E).
    eexists. apply Hget; [|done]. intros ->. destruct Hh; congruence.
  - intros y q d Hy. destruct (decide (y = h)) as [->|Hyh].
    + rewrite Hh' in Hy. injection Hy as <- <-. exists p, (h :: c). split; [done|]. left. left.
    + destruct (Hput y _ d Hyh Hy) as (d0 & Hd0 & _). destruct (A3 y q d0 Hd0) as (q' & e & Hq & Hc). assert (Hqh : q <> h).
      { intros ->. destruct Hc as [Hc|[-> _]]; [|done]. destruct Hh as [Hh|Hh]; rewrite Hh in Hq; simplify_eq. by apply elem_of_nil in Hc. }
      exists q'. eexists. split; [by apply Hget|]. destruct Hc as [Hc|Hc]; [left|by right]. destruct (decide (q = x)); [by right|done].
  - intros y q d Hy. destruct (decide (y = h)) as [->|Hyh]; [rewrite Hh' in Hy; simplify_eq; constructor|].
    destruct (Hput y q d Hyh Hy) as (d0 & Hd0 & [->|[-> ->]]); [by eapply A4|]. apply list.NoDup_cons. split; [by eapply Hnh|by eapply A4].
  - intros y Hy. destruct (A5 y Hy) as (d & Hd). eexists. apply Hget; [|done]. by intros ->.
  - done.
  - intros q d y Hr Hy. destruct (Hput r q d (not_eq_sym Hhr) Hr) as (d0 & Hd0 & [->|[-> ->]]); [by eapply A7|]. intros [->|E]%elem_of_cons; [done|]. by eapply A7.
  - intros y d Hy Hyr. destruct (decide (y = h)) as [->|Hyh]; [congruence|]. destruct (Hput y _ d Hyh Hy) as (d0 & Hd0 & [->|[-> ->]]); [by eapply A8|].
    exfalso. rewrite Hx in Hd0. injection Hd0 as -> ->. inversion Hux; subst; congruence.
  - intros y q d Hy. destruct (decide (y = h)) as [->|Hyh]; [eapply up_child; [exact Hh'|by apply Hu]|].
    destruct (Hput y _ d Hyh Hy) as (d0 & Hd0 & _). apply Hu. by eapply Hup.
Qed.

(** a helper that has the root for a parent, to be added to its children later *)
Lemma linked_helper s s' r hs h : linked s r hs -> h <> r -> links s h = Some (None, []) -> links s' h = Some (Some r, []) ->
  (forall y, y <> h -> links s' y = links s y) -> linked s' r (hs ++ [h]).
Proof.
  intros [H Hup]%linked_links Hhr Hh Hh' He. apply linked_links.
  assert (Hu : forall y, up_to (links s) r y -> up_to (links s') r y).
  { intros y Hy. apply (up_to_keep (links s) (links s') r y (fun y => y <> h)); [done| | |].
    - intros ->. inversion Hy; subst; congruence.
    - intros z q d _ Hz ->. destruct (lb_up _ _ _ H z h d Hz) as (q' & e & E & [E'|[-> _]]); [|done]. rewrite Hh in E. simplify_eq. by apply elem_of_nil in E'.
    - intros z q d Hz Hl. exists d. by rewrite He. }
  destruct H as [A1 A2 A3 A4 A5 A6 A7 A8].
  assert (Hhs : h ∉ hs) by (intros E; destruct (A5 h E) as (d & Hd); congruence).
  split; [split|].
  - destruct A1 as (d & Hd). exists d. by rewrite He.
  - intros y q d z Hy Hz. destruct (decide (y = h)) as [->|Hyh]; [rewrite Hh' in Hy; simplify_eq; by apply elem_of_nil in Hz|].
    rewrite He in Hy by done. destruct (A2 y q d z Hy Hz) as (e & E). exists e. rewrite He; [done|]. intros ->. congruence.
  - intros y q d Hy. destruct (decide (y = h)) as [->|Hyh].
    + rewrite Hh' in Hy. injection Hy as <- <-. destruct A1 as (e & E). exists None, e. rewrite He by done. split; [done|]. right. split; [done|]. apply elem_of_app. right. left.
    + rewrite He in Hy by done. destruct (A3 y q d Hy) as (q' & e & Hq & Hc). exists q', e. split.
      * rewrite He; [done|]. intros ->. rewrite Hh in Hq. simplify_eq. destruct Hc as [Hc|[-> _]]; [by apply elem_of_nil in Hc|done].
      * destruct Hc as [Hc|[-> Hc]]; [by left|right]. split; [done|]. apply elem_of_app. by left.
  - intros y q d Hy. destruct (decide (y = h)) as [->|Hyh]; [rewrite Hh' in Hy; simplify_eq; constructor|]. rewrite He in Hy by done. eauto.
  - intros y [Hy| ->%list_elem_of_singleton]%elem_of_app; [|by eexists]. destruct (A5 y Hy) as (d & Hd). exists d. rewrite He; [done|]. by intros ->.
  - apply list.NoDup_app. split_and!; [done| |apply NoDup_singleton]. intros y Hy ->%list_elem_of_singleton. done.
  - intros q d y Hr [Hy| ->%list_elem_of_singleton]%elem_of_app; rewrite He in Hr by done; [by eapply A7|].
    intros E. destruct (A2 r q d h Hr E) as (e & E'). congruence.
  - intros y d Hy Hyr. destruct (decide (y = h)) as [->|Hyh]; [congruence|]. rewrite He in Hy by done. eauto.
  - intros y q d Hy. destruct (decide (y = h)) as [->|Hyh]; [|rewrite He in Hy by done; apply Hu; by eapply Hup].
    eapply up_child; [exact Hh'|]. destruct A1 as (e & E). eapply up_root. rewrite He; [exact E|done].
Qed.

(** the helpers become children *)
Lemma linked_splice s s' r hs c : linked s r hs -> links s r = Some (None, c) -> links s' r = Some (None, hs ++ c) -> (forall y, y <> r -> links s' y = links s y) ->
  linked s' r [].
Proof.
  intros [H Hup]%linked_links Hr Hr' He. apply linked_links.
  assert (Hu : forall y, up_to (links s) r y -> up_to (links s') r y).
  { intros y Hy. apply (up_to_keep (links s) (links s') r y (fun _ => True)); [done..|]. intros z q d _ Hl.
    destruct (decide (z = r)) as [->|Hz]; [rewrite Hr in Hl; simplify_eq; by eexists|]. exists d. by rewrite He. }
  destruct H as [A1 A2 A3 A4 A5 A6 A7 A8]. split; [split|].
  - by eexists.
  - intros y q d z Hy Hz. assert (Hd : exists e, links s z = Some (Some y, e)).
    { destruct (decide (y = r)) as [->|Hyr]; [|rewrite He in Hy by done; by eapply A2]. rewrite Hr' in Hy. simplify_eq. apply elem_of_app in Hz as [Hz|Hz]; [by apply A5|by eapply A2]. }
    destruct Hd as (e & E). exists e. rewrite He; [done|]. intros ->. congruence.
  - intros y q d Hy. assert (Hyr : y <> r) by (intros ->; congruence). rewrite He in Hy by done. destruct (A3 y q d Hy) as (q' & e & Hq & Hc).
    destruct (decide (q = r)) as [->|Hqr].
    + exists None, (hs ++ c). split; [done|]. left. rewrite Hr in Hq. simplify_eq. apply elem_of_app. destruct Hc as [Hc|[_ Hc]]; auto.
    + exists q', e. rewrite He by done. split; [done|]. destruct Hc as [Hc|[-> _]]; [by left|done].
  - intros y q d Hy. destruct (decide (y = r)) as [->|Hyr]; [|rewrite He in Hy by done; by eapply A4]. rewrite Hr' in Hy. simplify_eq.
    apply list.NoDup_app. split_and!; [done| |by eapply A4]. intros z Hz. by eapply A7.
  - intros y Hy. by apply elem_of_nil in Hy.
  - constructor.
  - intros q d y _ Hy. by apply elem_of_nil in Hy.
  - intros y d Hy Hyr. rewrite He in Hy by done. eauto.
  - intros y q d Hy. assert (Hyr : y <> r) by (intros ->; congruence). rewrite He in Hy by done. apply Hu. by eapply Hup.
Qed.

(** a child of the root is moved below [h], which is not below it *)
Lemma linked_move s s' r hs x h cr cx p ch : linked s r hs -> links s r = Some (None, cr) -> x ∈ cr -> links s x = Some (Some r, cx) -> links s h = Some (p, ch) ->
  h <> r -> h <> x -> up_to (fun y => if decide (y = x) then None else links s y) r h ->
  links s' x = Some (Some h, cx) -> links s' r = Some (None, filter (fun c => c <> x) cr) -> links s' h = Some (p, x :: ch) ->
  (forall y, y <> x -> y <> r -> y <> h -> links s' y = links s y) -> linked s' r hs.
Proof.
  intros [H Hup]%linked_links Hr Hx Hlx Hh Hhr Hhx Hav Hx' Hr' Hh' He. apply linked_links. destruct H as [A1 A2 A3 A4 A5 A6 A7 A8].
  assert (Hxr : x <> r) by (intros ->; congruence).
  set (new y d := if decide (y = r) then filter (fun c => c <> x) d else if decide (y = h) then x :: d else d).
  assert (Hget : forall y q d, y <> x -> links s y = Some (q, d) -> links s' y = Some (q, new y d)).
  { intros y q d Hy Hl. unfold new. destruct (decide (y = r)) as [->|Hyr]; [congruence|]. destruct (decide (y = h)) as [->|Hyh]; [congruence|]. by rewrite He. }
  assert (Hput : forall y q d, y <> x -> links s' y = Some (q, d) -> exists d0, links s y = Some (q, d0) /\ d = new y d0).
  { intros y q d Hy Hl. unfold new. destruct (decide (y = r)) as [->|Hyr]; [exists cr; split; congruence|]. destruct (decide (y = h)) as [->|Hyh]; [exists ch; split; congruence|].
    exists d. by rewrite He in Hl. }
  assert (Huh : up_to (links s') r h).
  { assert (Hall : forall z, up_to (fun y => if decide (y = x) then None else links s y) r z -> up_to (links s') r z); [|by apply Hall].
    induction 1 as [d Hd|y q d Hd _ IH]; destruct (decide _) in Hd; try done.
    - eapply up_root. by apply Hget.
    - eapply up_child; [by apply Hget|]. done. }
  assert (Hu : forall y, up_to (links s) r y -> up_to (links s') r y).
  { induction 1 as [d Hd|y q d Hd _ IH]; [eapply up_root; by apply Hget|]. destruct (decide (y = x)) as [->|Hyx]; [by eapply up_child|]. eapply up_child; [by apply Hget|done]. }
  assert (Hnx : forall y q d, links s y = Some (q, d) -> x ∈ d -> y = r) by (intros y q d Hy Hd; destruct (A2 y q d x Hy Hd); congruence).
  split; [split|].
  - by eexists.
  - intros y q d z Hy Hz. destruct (decide (y = x)) as [->|Hyx].
    + rewrite Hx' in Hy. simplify_eq. destruct (A2 x (Some r) d z Hlx Hz) as (e & E). eexists. apply Hget; [|done]. intros ->. by pose proof (Hnx x (Some r) d Hlx Hz).
    + destruct (Hput y q d Hyx Hy) as (d0 & Hd0 & ->). unfold new in Hz. destruct (decide (y = r)) as [->|Hyr].
      * apply list_elem_of_filter in Hz as [Hzx Hz]. destruct (A2 r q d0 z Hd0 Hz) as (e & E). eexists. by apply Hget.
      * destruct (decide (y = h)) as [->|Hyh]; [apply elem_of_cons in Hz as [->|Hz]; [by eexists|]|];
          (destruct (A2 _ q d0 z Hd0 Hz) as (e & E); eexists; apply Hget; [|done]; intros ->; by pose proof (Hnx _ q d0 Hd0 Hz)).
  - intros y q d Hy. destruct (decide (y = x)) as [->|Hyx].
    + rewrite Hx' in Hy. injection Hy as <- <-. exists p, (x :: ch). split; [done|]. left. left.
    + destruct (Hput y _ d Hyx Hy) as (d0 & Hd0 & ->). destruct (A3 y q d0 Hd0) as (q' & e & Hq & Hc). destruct (decide (q = x)) as [->|Hqx].
      * exists (Some h), e. rewrite Hlx in Hq. injection Hq as <- <-. split; [done|]. destruct Hc as [Hc|[-> _]]; [by left|done].
      * exists q', (new q e). split; [by apply Hget|]. destruct Hc as [Hc|Hc]; [left|by right]. unfold new.
        destruct (decide (q = r)); [by apply list_elem_of_filter|]. destruct (decide (q = h)); [by right|done].
  - intros y q d Hy. destruct (decide (y = x)) as [->|Hyx]; [rewrite Hx' in Hy; simplify_eq; by eapply A4|].
    destruct (Hput y q d Hyx Hy) as (d0 & Hd0 & ->). unfold new. pose proof (A4 y q d0 Hd0). destruct (decide (y = r)); [by apply list.NoDup_filter|].
    destruct (decide (y = h)) as [->|]; [|done]. apply list.NoDup_cons. split; [|done]. intros E. by apply Hhr, (Hnx h q d0).
  - intros y Hy. destruct (A5 y Hy) as (d & Hd). eexists. apply Hget; [|done]. intros ->. by eapply (A7 None cr x).
  - done.
  - intros q d y Hrr Hy. rewrite Hr' in Hrr. injection Hrr as <- <-. intros [_ E]%list_elem_of_filter. by eapply (A7 None cr y).
  - intros y d Hy Hyr. destruct (decide (y = x)) as [->|Hyx]; [congruence|]. destruct (Hput y _ d Hyx Hy) as (d0 & Hd0 & ->). unfold new. rewrite decide_False by done.
    destruct (decide (y = h)) as [->|Hyh]; [|by eapply A8]. exfalso. inversion Huh; subst; congruence.
  - intros y q d Hy. apply Hu. destruct (decide (y = x)) as [->|Hyx]; [by eapply Hup|]. destruct (Hput y _ d Hyx Hy) as (d0 & Hd0 & _). by eapply Hup.
Qed.

(** ** The focus stays *)
Lemma repr_keep s s' par t : (forall y, y ∈ preorder t -> links s' y = links s y) -> repr s par t -> repr s' par t.
Proof.
  revert par. induction t as [x ts IH] using tree_induction. intros par He Hr. inversion Hr as [? ? i ? Hi Hp Hc Hts]; subst. cbn [preorder] in He.
  pose proof (He x ltac:(left)) as Hx. rewrite (it_links _ _ _ Hi) in Hx. apply links_it in Hx as (i' & Hi' & Hp' & Hc').
  rewrite <-Hp'. econstructor; [done|done|congruence|]. rewrite list.Forall_forall in IH, Hts |- *. intros t Ht. apply (IH t Ht); [|by apply Hts].
  intros y Hy. apply He. right. apply list_elem_of_In, in_flat_map. exists t. split; by apply list_elem_of_In.
Qed.

Lemma path_keep s s' x k : path s x k -> (forall y, y ∈ flat_map preorders k -> links s' y = links s y) ->
  (forall j y, ups s (S j) x y -> links s' y = links s y) -> (exists i i', it s x i /\ it s' x i' /\ parent i' = parent i) -> path s' x k.
Proof.
  induction 1 as [x i Hi Hp|x i p ip ts k Hi Hp Hip Hn Ha Hts Hk IH]; intros Hrem Hup (i0 & i' & Hi0 & Hi' & Hp'); rewrite (it_fun _ _ _ _ Hi0 Hi) in Hp'.
  - apply (path_root s' x i'); [done|congruence].
  - assert (Hup1 : ups s 1 x p) by exact (ups_step s x i p O p Hi Hp (ups_here s p)). pose proof (Hup O p Hup1) as Hl. rewrite (it_links _ _ _ Hip) in Hl. apply links_it in Hl as (ip' & Hip' & Epp & Epc).
    cbn [flat_map] in Hrem. eapply (path_up s' x i' p ip'); [done|congruence|done|congruence|congruence| |].
    + rewrite list.Forall_forall in Hts |- *. intros t Ht. apply (repr_keep s); [|by apply Hts]. intros y Hy. apply Hrem, elem_of_app. left.
      apply list_elem_of_In, in_flat_map. exists t. split; by apply list_elem_of_In.
    + apply IH; [intros y Hy; apply Hrem, elem_of_app; by right| |by exists ip, ip'].
      intros j y Hj. apply (Hup (S j)). change (S (S j)) with (1 + S j)%nat. by eapply ups_trans.
Qed.

Lemma focus_ext s s' x cs k : (forall y, links s' y = links s y) -> focus s x cs k -> focus s' x cs k.
Proof.
  intros He [(i & Hi & Hc & Hn) Hcs Hp]. pose proof (He x) as Hx. rewrite (it_links _ _ _ Hi) in Hx. apply links_it in Hx as (i' & Hi' & Hpi & Hci). split.
  - exists i'. split_and!; [done|congruence..].
  - eapply list.Forall_impl; [exact Hcs|]. intros t. by apply repr_keep.
  - apply (path_keep s); [done..|]. by exists i, i'.
Qed.

Lemma repr_child s par t y : repr s (Some par) t -> y ∈ preorder t -> exists q d, links s y = Some (Some q, d).
Proof.
  revert par. induction t as [z ts IH] using tree_induction. intros par Hr Hy. inversion Hr as [? ? j ? Hj Hpj Hcj Hts]; subst. cbn [preorder] in Hy.
  apply elem_of_cons in Hy as [->|Hy]; [exists par, (children j); by rewrite (it_links _ _ _ Hj), Hpj|].
  apply list_elem_of_In, in_flat_map in Hy as (t & Ht & Hy). apply list_elem_of_In in Ht, Hy. rewrite list.Forall_forall in IH, Hts. exact (IH t Ht z (Hts t Ht) Hy).
Qed.
Lemma path_child s x k y : path s x k -> y ∈ flat_map preorders k -> exists q d, links s y = Some (Some q, d).
Proof.
  induction 1 as [|z iz q iq ts k0 _ _ _ _ _ Hts _ IH]; cbn; intros Hy; [by apply elem_of_nil in Hy|].
  apply elem_of_app in Hy as [Hy|Hy]; [|by apply IH]. apply list_elem_of_In, in_flat_map in Hy as (t & Ht & Hy). apply list_elem_of_In in Ht, Hy.
  rewrite list.Forall_forall in Hts. exact (repr_child s q t y (Hts t Ht) Hy).
Qed.
Lemma ups_parent s r hs j x y : linked s r hs -> ups s (S j) x y -> y <> r -> exists i, it s y i /\ children i <> [].
Proof.
  intros Hlk Hu Hyr. remember (S j) as m eqn:Em. revert j Em. induction Hu as [y|x i p m a Hi Hp Hu IH]; intros j Em; [done|]. injection Em as ->.
  inversion Hu as [|? ? ? ? ? Hi2 Hp2 Hu2]; subst; [|by eapply IH]. destruct (lk_up _ _ _ Hlk x i a Hi Hp) as (ia & Hia & [Hc|[-> _]]); [|done].
  exists ia. split; [done|]. intros E. rewrite E in Hc. by apply elem_of_nil in Hc.
Qed.

(** a leaf [h] below [x], where the walk is *)
Lemma focus_add s s' r hs x n cs k h p c : linked s r hs -> depth s r n x -> focus s x cs k -> NoDup (x :: remaining cs k) -> h <> r -> h <> x ->
  (links s h = None \/ links s h = Some (None, [])) -> links s x = Some (p, c) -> links s' h = Some (Some x, []) -> links s' x = Some (p, h :: c) ->
  (forall y, y <> h -> y <> x -> links s' y = links s y) -> focus s' x (T h [] :: cs) k.
Proof.
  intros Hlk Hd [(i & Hi & Hc & Hn) Hcs Hp] [Hnx _]%list.NoDup_cons Hhr Hhx Hh Hx Hh' Hx' He.
  assert (Hne : forall y, (exists q d, links s y = Some (Some q, d)) -> y <> h) by (intros y (q & d & E) ->; destruct Hh; congruence).
  assert (Hin : forall t y, t ∈ cs -> y ∈ preorder t -> y ∈ remaining cs k).
  { intros t y Ht Hy. apply elem_of_app. left. apply list_elem_of_In, in_flat_map. exists t. split; by apply list_elem_of_In. }
  rewrite (it_links _ _ _ Hi) in Hx. injection Hx as Hpi Hci. apply links_it in Hx' as (i' & Hi' & Hpi' & Hci'). split.
  - exists i'. split; [done|]. cbn [map troot]. split; [congruence|]. rewrite Hci'. apply list.NoDup_cons. split; [|congruence]. intros E. rewrite <-Hci in E.
    destruct (lk_down _ _ _ Hlk x i h Hi E) as (j & Hj & Hpj). rewrite (it_links _ _ _ Hj) in Hh. destruct Hh; congruence.
  - constructor; [apply links_it in Hh' as (ih & Hih & Hpih & Hcih); by econstructor|]. rewrite list.Forall_forall in Hcs |- *. intros t Ht.
    apply (repr_keep s); [|by apply Hcs]. intros y Hy. apply He; [apply Hne; eapply repr_child; [by apply Hcs|done]|]. intros ->. by apply Hnx, (Hin t).
  - apply (path_keep s); [done| | |by exists i, i'; split_and!; [..|congruence]].
    + intros y Hy. apply He; [apply Hne; by eapply path_child|]. intros ->. apply Hnx, elem_of_app. by right.
    + intros j y Hj. apply He; intros ->.
      * destruct (ups_parent s r hs j x h Hlk Hj Hhr) as (ih & Hih & E). rewrite (it_links _ _ _ Hih) in Hh. destruct Hh; congruence.
      * pose proof (depth_fun _ _ _ _ Hd _ (ups_depth s r (S j) x x n Hj Hd)). lia.
Qed.
End PstreeTree.
