(* ===== verification/PstreeIds.v ===== *)
(** * Sessions, groups and clone flags: the preparation of the tree (pstree.c) and the forking of the tasks (cr-restore.c)

    The tree that was read is completed by helper tasks, so that every task can be born in its session, and then forked from its root. *)
From S2P Require Import Prelude.
From S2P Require Import Pstree.
Import Pstree.Pstree.
#[local] Open Scope cmon_scope.

Module PstreeIds.

Definition CLONE_FS : Z := 0x200.
Definition CLONE_FILES : Z := 0x400.
Definition CLONE_NEWNS : Z := 0x20000.
Definition CLONE_NEWCGROUP : Z := 0x02000000.
Definition CLONE_NEWTIME : Z := 0x80.
Definition CLONE_NEWUTS : Z := 0x04000000.
Definition CLONE_NEWIPC : Z := 0x08000000.
Definition CLONE_NEWUSER : Z := 0x10000000.
Definition CLONE_NEWPID : Z := 0x20000000.
Definition CLONE_NEWNET : Z := 0x40000000.
Definition CLONE_ALLNS : Z :=
  Z.lor CLONE_NEWPID (Z.lor CLONE_NEWNET (Z.lor CLONE_NEWIPC (Z.lor CLONE_NEWUTS (Z.lor CLONE_NEWNS (Z.lor CLONE_NEWUSER (Z.lor CLONE_NEWCGROUP CLONE_NEWTIME)))))).
Definition CLONE_SUBNS : Z := Z.lor CLONE_NEWNS CLONE_NEWNET.
Definition RESERVED_PIDS : Z := 300.
Definition INIT_PID : Z := 1.

(** ** Shared descriptor tables: [shared_fdt_prepare] of files.c *)
Definition shared_fdt_prepare (x : Z) : M ps Z :=
  i <~ item x ;;
  match parent i with
  | None => bug
  | Some p =>
      ip <~ item p ;;
      owner <~ match fdt ip with
               | Some owner => ret owner
               | None => update p (with_fdt (Some p) (service_fd_id ip)) ;;; (fun s => Done (p, set_fdts (<[p := 1]> (fdts s)) s))
               end ;;
      fun s => match fdts s !! owner with
               | None => Bug
               | Some nr => (update x (with_fdt (Some owner) nr) ;;; (fun s => Done (0, set_fdts (<[owner := nr + 1]> (fdts s)) s))) s
               end
  end.

Definition init_pstree_helper (x : Z) : M ps Z :=
  i <~ item x ;;
  bug_on (bool_decide (parent i = None)) ;;;
  update x (fun i => with_clone_flags (Z.lor CLONE_FILES CLONE_FS) (with_state TASK_HELPER i)) ;;;
  r <~ shared_fdt_prepare x ;;
  if r <? 0 then ret (-1) else fun s => Done (0, count_helper s).

(** ** A shell job takes the session and the group of the restoring task *)
Section ShellJob.
Variables (shell_job : bool) (current_sid current_gid : Z).

Definition replace_sid (old : Z) (x : Z) : M ps (option Z) :=
  i <~ item x ;; (if sid i =? old then update x (fun i => with_groups (pgid i) current_sid i) else ret tt) ;;; ret None.
Definition replace_pgid (old : Z) (x : Z) : M ps (option Z) :=
  i <~ item x ;; (if pgid i =? old then update x (fun i => with_groups current_gid (sid i) i) else ret tt) ;;; ret None.

Definition prepare_pstree_for_shell_job : M ps Z := fun s =>
  match root_item s with
  | None => Bug
  | Some r =>
      (if negb shell_job then ret 0 else
       ir <~ item r ;;
       if sid ir =? r then ret 0 else
       for_each_pstree_item (replace_sid (sid ir)) ;;;
       ir <~ item r ;;
       if pgid ir =? r then ret 0 else
       _ <~ lookup_create_item current_sid ;;
       for_each_pstree_item (replace_pgid (pgid ir)) ;;;
       _ <~ lookup_create_item current_gid ;;
       ret 0) s
  end.
End ShellJob.

(** ** Clone flags *)
Definition get_clone_mask (i p : kobj_ids) : Z :=
  let bit (b : bool) f := if b then f else 0 in
  Z.lor (bit (files_id i =? files_id p) CLONE_FILES)
  (Z.lor (bit (negb (pid_ns_id i =? pid_ns_id p)) CLONE_NEWPID)
  (Z.lor (bit (negb (net_ns_id i =? net_ns_id p)) CLONE_NEWNET)
  (Z.lor (bit (negb (ipc_ns_id i =? ipc_ns_id p)) CLONE_NEWIPC)
  (Z.lor (bit (negb (uts_ns_id i =? uts_ns_id p)) CLONE_NEWUTS)
  (Z.lor (bit (negb (time_ns_id i =? time_ns_id p)) CLONE_NEWTIME)
  (Z.lor (bit (negb (mnt_ns_id i =? mnt_ns_id p)) CLONE_NEWNS)
         (bit (negb (user_ns_id i =? user_ns_id p)) CLONE_NEWUSER))))))).

Section KobjIds.
Variable root_ids : option kobj_ids.

Definition kobj_ids_step (r x : Z) : M ps (option Z) :=
  i <~ item x ;;
  match ids i with
  | None => ret (if x =? r then Some (-1) else None)
  | Some k =>
      kp <~ match parent i with Some p => ip <~ item p ;; ret (ids ip) | None => ret root_ids end ;;
      match kp with
      | None => ret (Some (-1))
      | Some kp =>
          let cflags := get_clone_mask k kp in
          e <~ (if has cflags CLONE_FILES then
                  match parent i with
                  | None => ret (Some (-1))
                  | Some _ => rc <~ shared_fdt_prepare x ;; ret (if rc =? 0 then None else Some rc)
                  end
                else ret None) ;;
          match e with
          | Some e => ret (Some e)
          | None =>
              update x (with_clone_flags (match parent i with Some _ => Z.ldiff cflags CLONE_NEWNS | None => cflags end)) ;;;
              let cflags := Z.land cflags CLONE_ALLNS in
              if x =? r then (fun s => Done (None, set_root_ns_mask cflags s))
              else fun s => Done (if Z.ldiff cflags (Z.land (root_ns_mask s) CLONE_SUBNS) =? 0 then None else Some (-1), s)
          end
      end
  end.

Definition prepare_pstree_kobj_ids : M ps Z := fun s =>
  match root_item s with
  | None => Bug
  | Some r => (e <~ for_each_pstree_item (kobj_ids_step r) ;; ret (match e with Some e => e | None => 0 end)) s
  end.
End KobjIds.

(** ** A pid for a helper *)
Definition min_pid (l : list Z) : option Z :=
  match l with [] => None | x :: l => Some (foldr Z.min x l) end.
Definition rb_first (s : ps) : option Z := min_pid (map fst (map_to_list (pids s))).
Definition rb_next (s : ps) (p : Z) : option Z := min_pid (filter (fun x => p < x) (map fst (map_to_list (pids s)))).

Fixpoint free_pid_loop (fuel : nat) (prev : Z) (s : ps) : res (Z * ps) :=
  match fuel with
  | O => NoFuel
  | S fuel =>
      let pid := prev + 1 in
      let pid := if pid <? RESERVED_PIDS then RESERVED_PIDS + 1 else pid in
      match rb_next s prev with
      | None => Done (pid, set_prev (Some prev) s)
      | Some next => if pid <? next then Done (pid, set_prev (Some prev) s) else free_pid_loop fuel next s
      end
  end.

Definition get_free_pid : M ps Z := fun s =>
  match (match prev_pid s with Some p => Some p | None => rb_first s end) with
  | None => Bug
  | Some prev => free_pid_loop (turns s) prev s
  end.

(** ** Helpers for sessions *)
(** [list_move] *)
Definition move_child (child from to : Z) : M ps unit :=
  update from (fun i => with_children (filter (fun c => c <> child) (children i)) i) ;;;
  update child (with_parent (Some to)) ;;;
  update to (fun i => with_children (child :: children i) i).

Fixpoint stack_loop (root helper : Z) (l : list Z) : M ps unit :=
  match l with
  | [] => ret tt
  | child :: l =>
      ic <~ item child ;; ih <~ item helper ;;
      (if negb (sid ic =? sid ih) || (sid ic =? child) then ret tt else move_child child root helper) ;;;
      stack_loop root helper l
  end.

(** the helper for the session of [i], a child of the root, and the list of helpers that are leaders themselves *)
Definition session_helper (root : Z) (i : pstree_item) (helpers : list Z) : M ps (option (Z * list Z)) :=
  leader <~ pstree_item_by_virt (sid i) ;;
  match leader with
  | None => bug
  | Some leader =>
      il <~ item leader ;;
      if negb (bool_decide (state il = TASK_UNDEF)) then
        pid <~ get_free_pid ;;
        if pid <? 0 then ret None else
        helper <~ lookup_create_item pid ;;
        update helper (fun h => with_parent (Some leader) (with_ids (ids il) (with_groups (pgid il) (sid i) h))) ;;;
        update leader (fun l => with_children (helper :: children l) l) ;;;
        ret (Some (helper, helpers))
      else
        ir <~ item root ;;
        update leader (fun h => with_ids (ids ir) (with_parent (Some root) (with_groups (sid i) (sid i) h))) ;;;
        ret (Some (leader, helpers ++ [leader]))
  end.

(** [list_entry(x->sibling.prev)]: the element before [x]; nothing is the head of the list *)
Fixpoint before (prev : option Z) (x : Z) (l : list Z) : option Z :=
  match l with [] => prev | y :: l => if y =? x then prev else before (Some y) x l end.

(** the first loop of [prepare_pstree_ids]: [prev] is the child before the one that is looked at *)
Fixpoint helpers_loop (fuel : nat) (root : Z) (prev : option Z) (helpers : list Z) : M ps (Z * list Z) :=
  match fuel with
  | O => fun _ => NoFuel
  | S fuel =>
      ir <~ item root ;;
      match (match prev with Some p => after p (children ir) | None => children ir end) with
      | [] => ret (0, helpers)
      | x :: rest =>
          i <~ item x ;;
          if (sid i =? sid ir) || (sid i =? x) then helpers_loop fuel root (Some x) helpers
          else
            h <~ session_helper root i helpers ;;
            match h with
            | None => ret (0, helpers)
            | Some (helper, helpers) =>
                r <~ init_pstree_helper helper ;;
                if negb (r =? 0) then ret (-1, helpers)
                else
                  ir <~ item root ;;
                  let prev := before None x (children ir) in
                  stack_loop root helper (x :: rest) ;;; helpers_loop fuel root prev helpers
            end
      end
  end.

(** ** Tasks that were forked before their parent left the session *)
Fixpoint born_loop (fuel : nat) (s0 : Z) (p : option Z) : M ps (option Z) :=
  match fuel with
  | O => fun _ => NoFuel
  | S fuel =>
      match p with
      | None => ret (Some (-1))
      | Some p =>
          if p =? s0 then ret None
          else
            ip <~ item p ;;
            if negb (born_sid ip =? -1) && negb (born_sid ip =? s0) then ret (Some (-1))
            else update p (with_born_sid s0) ;;; born_loop fuel s0 (parent ip)
      end
  end.

Definition born_step (x : Z) : M ps (option Z) :=
  i <~ item x ;;
  match parent i with
  | None => ret None
  | Some p =>
      if bool_decide (state i = TASK_HELPER) then ret None
      else if sid i =? x then ret None
      else
        ip <~ item p ;;
        if sid ip =? sid i then ret None else fun s => born_loop (turns s) (sid i) (Some p) s
  end.

(** ** Helpers for process groups *)
Definition group_step (current_pgid : Z) (x : Z) : M ps (option Z) :=
  i <~ item x ;;
  if (pgid i =? 0) || (x =? pgid i) then ret None
  else fun s =>
    match pstree_pid_by_virt s (pgid i) with
    | None => Bug
    | Some Thread => Bug
    | Some (Item ig) =>
        (if negb (bool_decide (state ig = TASK_UNDEF)) then update x (with_pgrp_leader (Some (pgid i))) ;;; ret None
         else if current_pgid =? pgid i then ret None
         else
           let helper := pgid i in
           update helper (fun h => with_ids (ids i) (with_parent (Some x) (with_groups (pgid i) (sid i) h))) ;;;
           r <~ init_pstree_helper helper ;;
           if negb (r =? 0) then ret (Some (-1))
           else
             update x (fun i => with_pgrp_leader (Some helper) (with_children (helper :: children i) i)) ;;; ret None) s
    end.

Definition prepare_pstree_ids (current_pgid : Z) : M ps Z := fun s =>
  match root_item s with
  | None => Bug
  | Some r =>
      (h <~ (fun s => helpers_loop (turns s) r None [] s) ;;
       if negb (fst h =? 0) then ret (-1) else
       e <~ for_each_pstree_item born_step ;;
       match e with
       | Some e => ret e
       | None =>
           update r (fun i => with_children (snd h ++ children i) i) ;;;
           e <~ for_each_pstree_item (group_step current_pgid) ;;
           ret (match e with Some e => e | None => 0 end)
       end) s
  end.

(** ** The whole preparation *)
Section PreparePstree.
(** the ids of the tasks and of the restoring task, --shell-job, session and group of the restoring task, pid_max of the kernel and whether it can be raised *)
Variables (read_pstree_ids : Z -> option (option kobj_ids)) (root_ids : option kobj_ids) (shell_job : bool) (current_sid current_gid kpid_max : Z) (set_kpid_max : Z -> bool).

Definition push_pid_max (r : Z) : M ps Z := fun s =>
  Done (if (r =? 0) && negb (kpid_max =? 0) && (kpid_max <? pid_max s) && negb (set_kpid_max (pid_max s + 1)) then -1 else r, s).

Definition prepare_pstree (img : list pstree_entry) : M ps Z :=
  r <~ read_pstree_image read_pstree_ids img ;;
  r <~ push_pid_max r ;;
  r <~ (if r =? 0 then prepare_pstree_for_shell_job shell_job current_sid current_gid else ret r) ;;
  r <~ (if r =? 0 then prepare_pstree_kobj_ids root_ids else ret r) ;;
  if r =? 0 then prepare_pstree_ids current_gid else ret r.
End PreparePstree.

(** ** The forking of the tree (cr-restore.c) *)
Definition restore_before_setsid (i child : pstree_item) : bool :=
  let csid := if born_sid child =? -1 then sid child else born_sid child in
  born_sid i =? csid.

Section Fork.
Variable s : ps.

(** The session of task [x], which was born in the session [cur]: nothing when the task exits with an error. *)
Definition restore_sid (x : Z) (i : pstree_item) (cur : Z) : option Z :=
  if x =? sid i then Some x
  else if cur =? sid i then Some cur
  else if bool_decide (root_item s = Some x) && negb (x =? INIT_PID) then Some cur
  else None.

Definition get_item (x : Z) : res pstree_item := match pids s !! x with Some (Item i) => Done i | _ => Bug end.

(** the children that are forked before or after the task has its session; [f] is [restore_task] *)
Fixpoint fork_loop (f : Z -> res (option (list (Z * Z)))) (i : pstree_item) (before : bool) (cur : Z) (l : list Z) : res (option (list (Z * Z))) :=
  match l with
  | [] => Done (Some [])
  | c :: l =>
      let* ic := get_item c in
      if negb (Bool.eqb (restore_before_setsid i ic) before) then fork_loop f i before cur l
      else if before && negb (born_sid ic =? -1) && negb (cur =? born_sid ic) then Bug
      else
        let* a := f c in
        let* b := fork_loop f i before cur l in
        Done (match a, b with Some a, Some b => Some (a ++ b) | _, _ => None end)
  end.

(** [restore_task_with_children] and [create_children_and_session]: the sessions of the task and of all tasks below it *)
Fixpoint restore_task (fuel : nat) (x cur : Z) : res (option (list (Z * Z))) :=
  match fuel with
  | O => NoFuel
  | S fuel =>
      let* i := get_item x in
      match (match parent i with None => restore_sid x i cur | Some _ => Some cur end) with
      | None => Done None
      | Some cur =>
          let* a := fork_loop (fun c => restore_task fuel c cur) i true cur (children i) in
          match (match parent i with Some _ => restore_sid x i cur | None => Some cur end) with
          | None => Done None
          | Some mine =>
              let* b := fork_loop (fun c => restore_task fuel c mine) i false mine (children i) in
              Done (match a, b with Some a, Some b => Some ((x, mine) :: a ++ b) | _, _ => None end)
          end
      end
  end.
End Fork.
End PstreeIds.
