(* ===== verification/Sessions.v ===== *)
(** * Every task is born in its session

    What prepare_pstree_ids makes of a tree, and what the forking of the tree makes of that. *)
From S2P Require Import Prelude.
From S2P Require Import Pstree.
From S2P Require Import PstreeTree.
From S2P Require Import PstreeIds.
Import Pstree.Pstree PstreeTree.PstreeTree PstreeIds.PstreeIds.
#[local] Open Scope cmon_scope.

Module Sessions.

(** ** A free pid *)
Lemma min_pid_spec l m : min_pid l = Some m -> m ∈ l /\ forall x, x ∈ l -> m <= x.
Proof.
  destruct l as [|y l]; [done|]. cbn. intros [= <-]. induction l as [|z l IH]; cbn [foldr].
  - split; [left|]. intros x ->%list_elem_of_singleton. lia.
  - destruct IH as [IH1 IH2]. split.
    + destruct (Z.min_spec z (foldr Z.min y l)) as [[_ ->]|[_ ->]]; [right; left|]. apply elem_of_cons in IH1 as [->|]; [left|by do 2 right].
    + intros x [->|[->|Hx]%elem_of_cons]%elem_of_cons; [|lia|]; [specialize (IH2 y ltac:(left)); lia|]. specialize (IH2 x ltac:(by right)). lia.
Qed.
Lemma min_pid_none l : min_pid l = None -> l = [].
Proof. by destruct l. Qed.

Lemma in_keys s x : x ∈ map fst (map_to_list (pids s)) <-> is_Some (pids s !! x).
Proof.
  rewrite list_elem_of_fmap. split.
  - intros ([y n] & -> & H). apply elem_of_map_to_list in H. by eexists.
  - intros [n H]. exists (x, n). split; [done|]. by apply elem_of_map_to_list.
Qed.

Lemma rb_next_spec s p : match rb_next s p with
  | None => forall x, is_Some (pids s !! x) -> x <= p
  | Some q => p < q /\ is_Some (pids s !! q) /\ forall x, is_Some (pids s !! x) -> p < x -> q <= x
  end.
Proof.
  unfold rb_next. destruct (min_pid _) as [q|] eqn:E.
  - apply min_pid_spec in E as [[Hq Hin]%list_elem_of_filter Hmin]. split; [done|]. split; [by apply in_keys|]. intros x Hx Hp. apply Hmin, list_elem_of_filter. split; [done|]. by apply in_keys.
  - apply min_pid_none in E. intros x Hx. destruct (decide (p < x)); [|lia]. assert (H : x ∈ @nil Z); [|by apply elem_of_nil in H]. rewrite <-E. apply list_elem_of_filter. split; [done|]. by apply in_keys.
Qed.

Definition above (s : ps) (p : Z) : nat := length (filter (fun x => p < x) (map fst (map_to_list (pids s)))).

Lemma above_next s p q : rb_next s p = Some q -> (above s q < above s p)%nat.
Proof.
  intros H. pose proof (rb_next_spec s p) as Hs. rewrite H in Hs. destruct Hs as (Hpq & Hq & _). apply in_keys in Hq. unfold above. revert Hq. clear H.
  induction (map fst (map_to_list (pids s))) as [|x l IH]; intros Hq; [by apply elem_of_nil in Hq|]. rewrite !filter_cons.
  assert (Hle : (length (filter (fun x => (q < x)%Z) l) <= length (filter (fun x => (p < x)%Z) l))%nat).
  { clear IH Hq. induction l as [|y l IH]; [done|]. rewrite !filter_cons. destruct (decide (q < y)), (decide (p < y)); cbn; lia. }
  apply elem_of_cons in Hq as [<-|Hq].
  - rewrite decide_False by lia. rewrite decide_True by done. cbn. lia.
  - specialize (IH Hq). destruct (decide (q < x)), (decide (p < x)); cbn; lia.
Qed.

Lemma free_pid_loop_spec fuel : forall prev s, (above s prev < fuel)%nat -> is_Some (pids s !! prev) ->
  exists pid p, free_pid_loop fuel prev s = Done (pid, set_prev (Some p) s) /\ pids s !! pid = None /\ RESERVED_PIDS <= pid /\ is_Some (pids s !! p).
Proof.
  induction fuel as [|fuel IH]; intros prev s Hf Hp; [lia|]. cbn [free_pid_loop]. set (pid := if prev + 1 <? RESERVED_PIDS then RESERVED_PIDS + 1 else prev + 1).
  assert (Hpid : prev < pid /\ RESERVED_PIDS <= pid).
  { unfold pid, RESERVED_PIDS. destruct (prev + 1 <? 300) eqn:E; [apply Z.ltb_lt in E|apply Z.ltb_ge in E]; lia. }
  pose proof (rb_next_spec s prev) as Hn. destruct (rb_next s prev) as [next|] eqn:E.
  - destruct Hn as (H1 & H2 & H3). destruct (pid <? next) eqn:El.
    + apply Z.ltb_lt in El. exists pid, prev. split_and!; [done| |lia|done]. destruct (pids s !! pid) eqn:Ep; [|done].
      specialize (H3 pid (mk_is_Some _ _ Ep) ltac:(lia)). lia.
    + apply IH; [|done]. pose proof (above_next s prev next E). lia.
  - exists pid, prev. split_and!; [done| |lia|done]. destruct (pids s !! pid) eqn:Ep; [|done]. specialize (Hn pid (mk_is_Some _ _ Ep)). lia.
Qed.

(** the pid of a helper is taken by nobody in the images and is not one of the reserved ones *)
Definition prev_ok (s : ps) : Prop := match prev_pid s with Some p => is_Some (pids s !! p) | None => pids s <> ∅ end.

Lemma get_free_pid_spec s : prev_ok s -> exists pid p, get_free_pid s = Done (pid, set_prev (Some p) s) /\ pids s !! pid = None /\ RESERVED_PIDS <= pid /\ is_Some (pids s !! p).
Proof.
  intros Hp. unfold get_free_pid, prev_ok in *.
  assert (Hprev : exists p, match prev_pid s with Some p => Some p | None => rb_first s end = Some p /\ is_Some (pids s !! p)).
  { destruct (prev_pid s) as [p|]; [by exists p|]. unfold rb_first. destruct (min_pid _) as [p|] eqn:E.
    - exists p. split; [done|]. apply min_pid_spec in E as [E _]. by apply in_keys.
    - apply min_pid_none in E. exfalso. apply Hp, map_to_list_empty_iff. by destruct (map_to_list (pids s)). }
  destruct Hprev as (p & -> & Hin). apply free_pid_loop_spec; [|done]. unfold turns, above.
  assert (length (filter (fun x => (p < x)%Z) (map fst (map_to_list (pids s)))) <= length (map fst (map_to_list (pids s))))%nat by apply length_filter.
  rewrite length_map, length_map_to_list in H. lia.
Qed.

(** ** Forking *)
Definition sid_of (s : ps) (x : Z) : Z := match pids s !! x with Some (Item i) => sid i | _ => 0 end.
(** every task of a tree with the session the images have for it *)
Definition sessions (s : ps) (t : tree) : list (Z * Z) := map (fun y => (y, sid_of s y)) (preorder t).

Lemma sid_of_it s x i : it s x i -> sid_of s x = sid i.
Proof. unfold it, sid_of. by intros ->. Qed.
Lemma get_item_it s x i : it s x i -> get_item s x = Done i.
Proof. unfold it, get_item. by intros ->. Qed.

(** What the forking needs of a task and its parent: a task that has to be born in another session than its own is a child of a task that was born
    there as well or is in it, and is a session leader. *)
Record forkable (s : ps) (r : Z) : Prop := {
  fk_root : forall i, it s r i -> born_sid i = -1;
  fk_sid : forall x i, it s x i -> (parent i <> None \/ x = r) -> sid i <> -1;
  fk_born : forall x i y j, it s x i -> it s y j -> parent j = Some x -> born_sid j <> -1 -> born_sid i = born_sid j \/ sid i = born_sid j;
  fk_same : forall x i y j, it s x i -> it s y j -> parent j = Some x -> born_sid j = -1 -> sid j <> y -> sid i = sid j \/ born_sid i = sid j;
  fk_leader : forall x y j, it s y j -> parent j = Some x -> born_sid j <> -1 -> sid j = y \/ sid j = born_sid j;
}.

Section Fork.
Variables (s : ps) (r : Z).
Context (Hlk : linked s r []) (Hf : forkable s r) (Hroot : root_item s = Some r).

(** the session in which a task has to be born *)
Definition born_ok (x cur : Z) : Prop := forall i, it s x i -> (born_sid i <> -1 -> cur = born_sid i) /\ (born_sid i = -1 -> sid i <> x -> cur = sid i).

Lemma restore_sid_ok x i p cur : it s x i -> parent i = Some p -> born_ok x cur -> restore_sid s x i cur = Some (sid i).
Proof using Hf.
  intros Hi Hp Hb. unfold restore_sid. destruct (x =? sid i) eqn:E; [apply Z.eqb_eq in E; by rewrite <-E|]. apply Z.eqb_neq in E.
  destruct (Hb i Hi) as [Hb1 Hb2]. assert (cur = sid i) as ->; [|by rewrite Z.eqb_refl]. destruct (decide (born_sid i = -1)) as [En|En]; [by apply Hb2; congruence|].
  rewrite Hb1 by done. by destruct (fk_leader s r Hf p x i Hi Hp En).
Qed.

Lemma child_before x i y j cur : it s x i -> it s y j -> parent j = Some x -> born_ok x cur -> restore_before_setsid i j = true ->
  born_ok y cur /\ (born_sid j <> -1 -> cur = born_sid j).
Proof using Hf.
  intros Hi Hj Hp Hb Hr. unfold restore_before_setsid in Hr. apply Z.eqb_eq in Hr. destruct (Hb i Hi) as [Hb1 _].
  assert (Hni : born_sid i <> -1).
  { rewrite Hr. destruct (born_sid j =? -1) eqn:E; [|by apply Z.eqb_neq in E]. apply (fk_sid s r Hf y j Hj). left. by rewrite Hp. }
  specialize (Hb1 Hni). split.
  - intros j' Hj'. rewrite (it_fun _ _ _ _ Hj' Hj). destruct (born_sid j =? -1) eqn:E; [apply Z.eqb_eq in E|apply Z.eqb_neq in E]; split; intros; congruence.
  - intros Hn. apply Z.eqb_neq in Hn. rewrite Hn in Hr. congruence.
Qed.

Lemma child_after x i y j : it s x i -> it s y j -> parent j = Some x -> restore_before_setsid i j = false -> born_ok y (sid i).
Proof using Hf.
  intros Hi Hj Hp Hr j' Hj'. rewrite (it_fun _ _ _ _ Hj' Hj). unfold restore_before_setsid in Hr. apply Z.eqb_neq in Hr.
  destruct (born_sid j =? -1) eqn:E; [apply Z.eqb_eq in E|apply Z.eqb_neq in E]; split; intros H; try done.
  - intros Hn. by destruct (fk_same s r Hf x i y j Hi Hj Hp E Hn).
  - by destruct (fk_born s r Hf x i y j Hi Hj Hp H).
Qed.

(** one of the two loops over the children *)
Lemma fork_loop_ok f x i bf cur ts : it s x i ->
  Forall (fun t => exists j, it s (troot t) j /\ parent j = Some x) ts ->
  (bf = true -> born_ok x cur) -> 
  Forall (fun t => forall j, it s (troot t) j -> restore_before_setsid i j = bf -> exists l, f (troot t) = Done (Some l) /\ l ≡ₚ sessions s t) ts ->
  exists l, fork_loop s f i bf cur (map troot ts) = Done (Some l) /\
    l ≡ₚ flat_map (fun t => if Bool.eqb (match get_item s (troot t) with Done j => restore_before_setsid i j | _ => false end) bf then sessions s t else []) ts.
Proof using Hf.
  intros Hi Hts Hb Hfs. induction ts as [|t ts IH]; [by exists []|]. inversion_clear Hts as [|? ? (j & Hj & Hpj) Hts']. inversion_clear Hfs as [|? ? Ht Hfs'].
  destruct (IH Hts' Hfs') as (m & Hl & Hperm). cbn [map fork_loop flat_map]. rewrite (get_item_it s _ j Hj). cbn [rbind].
  destruct (Bool.eqb (restore_before_setsid i j) bf) eqn:E; cbn [negb].
  - apply Bool.eqb_prop in E. destruct (Ht j Hj E) as (a & Ha & Hpa).
    assert ((bf && negb (born_sid j =? -1) && negb (cur =? born_sid j)) = false) as ->.
    { destruct bf; [|done]. destruct (child_before x i (troot t) j cur Hi Hj Hpj (Hb eq_refl) E) as [_ Hc]. destruct (born_sid j =? -1) eqn:En; [done|]. apply Z.eqb_neq in En.
      cbn. rewrite (Hc En), Z.eqb_refl. done. }
    rewrite Ha. cbn [rbind]. rewrite Hl. cbn [rbind]. exists (a ++ m). split; [done|]. by f_equiv.
  - exists m. by split.
Qed.

Lemma flat_map_split {A B} (f : A -> list B) (P : A -> bool) l :
  flat_map (fun x => if P x then f x else []) l ++ flat_map (fun x => if P x then [] else f x) l ≡ₚ flat_map f l.
Proof using.
  induction l as [|x l IH]; [done|]. cbn [flat_map]. destruct (P x).
  - rewrite <-app_assoc. cbn [app]. by rewrite IH.
  - cbn [app]. rewrite Permutation_app_swap_app. by rewrite IH.
Qed.

Lemma restore_task_ok t : forall par fuel cur, repr s par t -> par <> None -> (length (preorder t) <= fuel)%nat -> born_ok (troot t) cur ->
  exists l, restore_task s fuel (troot t) cur = Done (Some l) /\ l ≡ₚ sessions s t.
Proof using Hf.
  induction t as [x ts IH] using tree_induction. intros par [|fuel] cur Hr Hpar Hfu Hb; [cbn in Hfu; lia|]. inversion Hr as [? ? i ? Hi Hp Hc Hts]; subst. cbn [troot] in *.
  destruct (parent i) as [p|] eqn:Hpi; [|done]. cbn [restore_task]. rewrite (get_item_it s x i Hi). cbn [rbind]. rewrite Hpi, Hc.
  assert (Hch : Forall (fun t => exists j, it s (troot t) j /\ parent j = Some x) ts) by (eapply list.Forall_impl; [exact Hts|]; intros t; apply repr_item).
  assert (Hrec : forall bf c, (forall t j, it s (troot t) j -> parent j = Some x -> restore_before_setsid i j = bf -> born_ok (troot t) c) ->
    Forall (fun t => forall j, it s (troot t) j -> restore_before_setsid i j = bf -> exists l, restore_task s fuel (troot t) c = Done (Some l) /\ l ≡ₚ sessions s t) ts).
  { intros bf c Hbc. rewrite list.Forall_forall in IH, Hts, Hch |- *. intros t Ht j Hj Hbf. destruct (Hch t Ht) as (j' & Hj' & Hpj'). rewrite (it_fun _ _ _ _ Hj' Hj) in Hpj'.
    apply (IH t Ht (Some x) fuel c (Hts t Ht)); [done| |exact (Hbc t j Hj Hpj' Hbf)]. cbn [preorder length] in Hfu.
    assert (length (preorder t) <= length (flat_map preorder ts))%nat; [|lia]. apply list_elem_of_In, in_split in Ht as (l1 & l2 & ->). rewrite flat_map_app. cbn. rewrite !length_app. lia. }
  destruct (fork_loop_ok (fun c => restore_task s fuel c cur) x i true cur ts Hi Hch (fun _ => Hb)) as (a & -> & Hpa).
  { apply Hrec. intros t j Hj Hpj Hbf. exact (proj1 (child_before x i (troot t) j cur Hi Hj Hpj Hb Hbf)). }
  cbn [rbind]. rewrite (restore_sid_ok x i p cur Hi Hpi Hb).
  destruct (fork_loop_ok (fun c => restore_task s fuel c (sid i)) x i false (sid i) ts Hi Hch) as (b & -> & Hpb); [done| |].
  { apply Hrec. intros t j Hj Hpj Hbf. exact (child_after x i (troot t) j Hi Hj Hpj Hbf). }
  cbn [rbind]. eexists. split; [done|]. unfold sessions. cbn [preorder map]. rewrite (sid_of_it s x i Hi). f_equiv. rewrite Hpa, Hpb.
  assert (Hm : map (fun y => (y, sid_of s y)) (flat_map preorder ts) = flat_map (sessions s) ts).
  { clear. induction ts as [|t ts IHt]; [done|]. cbn [flat_map]. rewrite map_app. by rewrite IHt. }
  rewrite Hm, <-(flat_map_split (sessions s) (fun t => Bool.eqb (match get_item s (troot t) with Done j => restore_before_setsid i j | _ => false end) true)).
  f_equiv. apply reflexive_eq. clear. induction ts as [|t ts IHt]; [done|]. cbn [flat_map]. rewrite IHt. f_equal. by destruct (match get_item s (troot t) with Done _ => _ | _ => _ end).
Qed.

(** ... and so is the root *)
Lemma restore_root_ok t i cur : troot t = r -> repr s None t -> it s r i -> (sid i = r \/ cur = sid i) ->
  exists l, restore_task s (turns s) r cur = Done (Some l) /\ l ≡ₚ sessions s t.
Proof using Hf Hlk Hroot.
  intros Ht Hr Hi Hcur. destruct t as [x ts]. cbn in Ht. subst x. pose proof Hr as Hr0. inversion_clear Hr as [? ? i' ? Hi' Hp Hc Hts].
  pose proof (it_fun _ _ _ _ Hi' Hi) as ->. clear Hi'.
  assert (Hsz : (length (preorder (T r ts)) <= size (pids s))%nat).
  { destruct (linked_root_repr s r [] Hlk) as (t' & _ & _ & _). eapply preorder_size; [exact Hr0|]. eapply (repr_nodup s r [] None _ O); [done|exact Hr0|by eapply depth_root]. }
  unfold turns. cbn [restore_task]. rewrite (get_item_it s r i Hi). cbn [rbind]. rewrite Hp, Hc.
  assert (Hsid : restore_sid s r i cur = Some (sid i)).
  { unfold restore_sid. destruct (r =? sid i) eqn:E; [apply Z.eqb_eq in E; by rewrite <-E|]. apply Z.eqb_neq in E. destruct Hcur as [Hcur| ->]; [congruence|]. by rewrite Z.eqb_refl. }
  rewrite Hsid. assert (Hch : Forall (fun t => exists j, it s (troot t) j /\ parent j = Some r) ts) by (eapply list.Forall_impl; [exact Hts|]; intros t; apply repr_item).
  assert (Hno : forall j y, it s y j -> parent j = Some r -> restore_before_setsid i j = false).
  { intros j y Hj Hpj. unfold restore_before_setsid. rewrite (fk_root s r Hf i Hi). apply Z.eqb_neq. destruct (born_sid j =? -1) eqn:E; [|apply Z.eqb_neq in E; congruence].
    intros E'. apply (fk_sid s r Hf y j Hj); [left; by rewrite Hpj|done]. }
  destruct (fork_loop_ok (fun c => restore_task s (size (pids s)) c (sid i)) r i true (sid i) ts Hi Hch) as (a & -> & Hpa).
  { intros _ i' Hi''. rewrite (it_fun _ _ _ _ Hi'' Hi). rewrite (fk_root s r Hf i Hi). done. }
  { rewrite list.Forall_forall in Hch |- *. intros t Ht j Hj Hbf. destruct (Hch t Ht) as (j' & Hj' & Hpj'). rewrite (it_fun _ _ _ _ Hj' Hj) in Hpj'. rewrite (Hno j _ Hj Hpj') in Hbf. done. }
  cbn [rbind].
  destruct (fork_loop_ok (fun c => restore_task s (size (pids s)) c (sid i)) r i false (sid i) ts Hi Hch) as (b & -> & Hpb); [done| |].
  { rewrite list.Forall_forall in Hch, Hts |- *. intros t Ht j Hj Hbf. destruct (Hch t Ht) as (j' & Hj' & Hpj'). rewrite (it_fun _ _ _ _ Hj' Hj) in Hpj'.
    apply (restore_task_ok t (Some r)); [by apply Hts|done| |exact (child_after r i (troot t) j Hi Hj Hpj' (Hno j _ Hj Hpj'))]. cbn [preorder length] in Hsz.
    assert (length (preorder t) <= length (flat_map preorder ts))%nat; [|lia]. apply list_elem_of_In, in_split in Ht as (l1 & l2 & ->). rewrite flat_map_app. cbn. rewrite !length_app. lia. }
  cbn [rbind]. eexists. split; [done|]. unfold sessions. cbn [preorder map]. rewrite (sid_of_it s r i Hi). f_equiv.
  assert (Ha : forall l, Forall (fun t => exists j, it s (troot t) j /\ parent j = Some r) l ->
    flat_map (fun t => if Bool.eqb (match get_item s (troot t) with Done j => restore_before_setsid i j | _ => false end) true then sessions s t else []) l = [] /\
    flat_map (fun t => if Bool.eqb (match get_item s (troot t) with Done j => restore_before_setsid i j | _ => false end) false then sessions s t else []) l =
      map (fun y => (y, sid_of s y)) (flat_map preorder l)).
  { induction 1 as [|t l (j & Hj & Hpj) _ [IH1 IH2]]; [done|]. cbn [flat_map]. rewrite (get_item_it s _ j Hj), (Hno j _ Hj Hpj), IH1, IH2, map_app. done. }
  destruct (Ha ts Hch) as [E1 E2]. rewrite E1 in Hpa. rewrite E2 in Hpb. by rewrite Hpa, Hpb.
Qed.
End Fork.
End Sessions.
