(* ===== verification/PidTree.v ===== *)
(** * The tree of pids: pid_root_rb of pstree.c

    The struct pid of every task and thread are in a red-black tree in the order of their pids.  The operations on it do what the process
    tree says of its finite map of pids. *)
From S2P Require Import Prelude.
From S2P Require Import RbTree.
From S2P Require Import RbShape.
From S2P Require Import RbSearch.
From S2P Require Import RbMap.
From S2P Require Import Pstree.
From S2P Require Import PstreeIds.
From S2P Require Import Sessions.
Import RbTree.RbTree RbShape.RbShape RbSearch.RbSearch RbMap.RbMap.
#[local] Open Scope cmon_scope.

Module PidTree.

(** pid_root_rb, the field ns[0].virt of every struct pid by the address of its node, and the variable prev of get_free_pid *)
Record pid_tree := mk_pt { tree : rbs; virts : gmap Z Z; prev : Z }.

Definition on_tree {A} (m : M rbs A) : M pid_tree A := fun s =>
  match m (tree s) with Done (a, t) => Done (a, mk_pt t (virts s) (prev s)) | Bug => Bug | NoFuel => NoFuel end.
Definition virt (x : Z) : M pid_tree Z := fun s => match virts s !! x with Some v => Done (v, s) | None => Bug end.

(** [alloc] is the node of the new item, or nothing when the allocation fails *)
Definition lookup_create_pid (alloc : option Z) (pid : Z) (pid_node : option Z) : M pid_tree (option Z) :=
  r <~ (fun s => on_tree (search (key_way (virts s) pid)) s) ;;
  match r with
  | Found this => ret (Some this)
  | Failed => bug
  | Place parent new =>
      x <~ match pid_node with
           | Some x => ret (Some x)
           | None => match alloc with None => ret None | Some x => fun s => Done (Some x, mk_pt (tree s) (<[x := pid]> (virts s)) (prev s)) end
           end ;;
      match x with None => ret None | Some x => on_tree (rb_link_and_balance x parent new) ;;; ret (Some x) end
  end.

Definition pstree_insert_pid (alloc : option Z) (pid_node : Z) : M pid_tree unit :=
  v <~ virt pid_node ;; n <~ lookup_create_pid alloc v (Some pid_node) ;; bug_on (negb (bool_decide (n = Some pid_node))).

Definition pstree_pid_by_virt (pid : Z) : M pid_tree (option Z) :=
  r <~ (fun s => on_tree (search (key_way (virts s) pid)) s) ;;
  match r with Found this => ret (Some this) | Failed => bug | Place _ _ => ret None end.

Fixpoint free_pid_loop (fuel : nat) (p : Z) : M pid_tree Z :=
  match fuel with
  | O => fun _ => NoFuel
  | S fuel =>
      v <~ virt p ;;
      let pid := if v + 1 <? PstreeIds.PstreeIds.RESERVED_PIDS then PstreeIds.PstreeIds.RESERVED_PIDS + 1 else v + 1 in
      let out := fun s => Done (pid, mk_pt (tree s) (virts s) p) in
      node <~ on_tree (rb_next p) ;;
      if node =? 0 then out else next <~ virt node ;; if pid <? next then out else free_pid_loop fuel node
  end.
Definition get_free_pid (fuel : nat) : M pid_tree Z := fun s =>
  (p <~ (if prev s =? 0 then on_tree rb_first else ret (prev s)) ;; free_pid_loop fuel p) s.

(** ** The finite map *)
(** the tree stands for the map [m] from pids to nodes *)
Definition stands_for (s : pid_tree) (m : gmap Z Z) : Prop := maps (tree s) (virts s) m.

Lemma on_tree_at {A} (m : M rbs A) s a t : m (tree s) = Done (a, t) -> on_tree m s = Done (a, mk_pt t (virts s) (prev s)).
Proof. unfold on_tree. by intros ->. Qed.

Lemma node_has_pid s m x v : stands_for s m -> m !! v = Some x -> virts s !! x = Some v.
Proof. intros (l & _ & _ & _ & Hm) H. by apply Hm in H as [_ ?]. Qed.
Lemma eta s : mk_pt (tree s) (virts s) (prev s) = s.
Proof. by destruct s. Qed.
Lemma reset_same s x v : virts s !! x = Some v -> <[x := v]> (virts s) = virts s.
Proof. intros H. by rewrite insert_id. Qed.

(** the lookups *)
Theorem lookup_create_found s m alloc pid node x : stands_for s m -> m !! pid = Some x -> lookup_create_pid alloc pid node s = Done (Some x, s).
Proof. intros Hs Hx. unfold lookup_create_pid, bind. rewrite (on_tree_at _ _ _ _ (search_found _ _ _ _ _ Hs Hx)). by rewrite eta. Qed.

Theorem lookup_create_new s m alloc pid node : stands_for s m -> m !! pid = None -> 
  match (match node with Some x => Some x | None => alloc end) with
  | None => lookup_create_pid alloc pid node s = Done (None, s)
  | Some x => addr x -> (forall j, m !! j <> Some x) -> (node = Some x -> virts s !! x = Some pid) ->
      exists s', lookup_create_pid alloc pid node s = Done (Some x, s') /\ stands_for s' (<[pid := x]> m) /\ prev s' = prev s /\ virts s' = <[x := pid]> (virts s)
  end.
Proof.
  intros Hs Hn. unfold lookup_create_pid, bind. destruct (search_place _ _ _ _ Hs Hn) as (p & lk & E & Hins). rewrite (on_tree_at _ _ _ _ E), eta. destruct node as [x|]; [|destruct alloc as [x|]; [|done]]; intros Ha Hx Hv.
  all: destruct (Hins x Ha Hx) as (t' & Et & Hm').
  - eexists. cbn [ret]. unfold ret. rewrite (on_tree_at _ _ _ _ Et). split; [done|]. unfold stands_for. cbn. specialize (Hv eq_refl). rewrite (reset_same s x pid Hv) in *. by split_and!.
  - eexists. cbn [ret]. unfold ret. erewrite on_tree_at by exact Et. split; [done|]. by split_and!.
Qed.

Theorem pid_by_virt_at s m pid : stands_for s m -> pstree_pid_by_virt pid s = Done (m !! pid, s).
Proof.
  intros Hs. unfold pstree_pid_by_virt, bind. destruct (m !! pid) as [x|] eqn:Ex.
  - by rewrite (on_tree_at _ _ _ _ (search_found _ _ _ _ _ Hs Ex)), eta.
  - destruct (search_place _ _ _ _ Hs Ex) as (p & lk & E & _). by rewrite (on_tree_at _ _ _ _ E), eta.
Qed.

(** ** A free pid *)
(** the same pids in the tree and in the state of the process tree, and the same prev *)
Definition same_prev (s : pid_tree) (m : gmap Z Z) (p : option Z) : Prop := match p with None => prev s = 0 | Some v => m !! v = Some (prev s) /\ 0 < prev s end.
Record refines (s : pid_tree) (m : gmap Z Z) (q : Pstree.Pstree.ps) : Prop := {
  rf_map : stands_for s m;
  rf_dom : forall v, is_Some (m !! v) <-> is_Some (Pstree.Pstree.pids q !! v);
  rf_prev : same_prev s m (Pstree.Pstree.prev_pid q);
}.

Lemma next_same s m q v x : refines s m q -> m !! v = Some x ->
  exists y, on_tree (rb_next x) s = Done (y, s) /\ match PstreeIds.PstreeIds.rb_next q v with None => y = 0 | Some n => m !! n = Some y /\ 0 < y end.
Proof.
  intros [Hm Hd _] Hx. destruct (maps_next _ _ _ v x Hm Hx) as (y & E & Hy). exists y. rewrite (on_tree_at _ _ _ _ E), eta. split; [done|]. pose proof (Sessions.Sessions.rb_next_spec q v) as Hn.
  destruct (PstreeIds.PstreeIds.rb_next q v) as [n|].
  - destruct Hn as (H1 & H2 & H3). destruct Hy as [[-> Hy]|(j & Hj & Hpos & Hvj & Hmin)]; [apply Hd, Hy in H2; lia|]. assert (j = n) as ->; [|done].
    assert (j <= n) by (apply Hmin; [by apply Hd|done]). assert (n <= j); [|lia]. apply H3; [|done]. by apply Hd; eexists.
  - destruct Hy as [[-> _]|(j & Hj & _ & Hvj & _)]; [done|]. assert (j <= v); [|lia]. apply Hn, Hd. by eexists.
Qed.

Lemma first_same s m q : refines s m q -> match PstreeIds.PstreeIds.rb_first q with None => True | Some v => exists x, on_tree rb_first s = Done (x, s) /\ m !! v = Some x /\ 0 < x end.
Proof.
  intros [Hm Hd _]. unfold PstreeIds.PstreeIds.rb_first. destruct (PstreeIds.PstreeIds.min_pid _) as [v|] eqn:Ev; [|done]. apply Sessions.Sessions.min_pid_spec in Ev as [Hv Hmin]. apply Sessions.Sessions.in_keys in Hv.
  destruct (maps_first _ _ _ Hm) as (x & E & Hx). exists x. rewrite (on_tree_at _ _ _ _ E), eta. split; [done|]. destruct Hx as [[_ ->]|(k & Hk & Hpos & Hleast)]; [apply Hd in Hv; rewrite lookup_empty in Hv; by destruct Hv|].
  assert (k = v) as ->; [|done]. assert (k <= v) by by apply Hleast, Hd. assert (v <= k); [|lia]. apply Hmin, Sessions.Sessions.in_keys, Hd. by eexists.
Qed.

Lemma free_loop_same fuel : forall s m q v x pid q', refines s m q -> m !! v = Some x -> 0 < x -> PstreeIds.PstreeIds.free_pid_loop fuel v q = Done (pid, q') ->
  exists s', free_pid_loop fuel x s = Done (pid, s') /\ tree s' = tree s /\ virts s' = virts s /\ same_prev s' m (Pstree.Pstree.prev_pid q').
Proof.
  induction fuel as [|fuel IH]; intros s m q v x pid q' H Hx Hpos E; [done|]. cbn [free_pid_loop PstreeIds.PstreeIds.free_pid_loop] in *. pose proof (node_has_pid s m x v (rf_map _ _ _ H) Hx) as Hv.
  unfold bind at 1, virt at 1. rewrite Hv. destruct (next_same s m q v x H Hx) as (y & En & Hy). unfold bind at 1. rewrite En. destruct (PstreeIds.PstreeIds.rb_next q v) as [n|].
  - destruct Hy as [Hn Hy]. assert ((y =? 0) = false) as -> by (apply Z.eqb_neq; lia). unfold bind, virt. rewrite (node_has_pid s m y n (rf_map _ _ _ H) Hn). destruct (_ <? n) in E |- *; [|by apply (IH s m q n y)].
    injection E as <- <-. eexists. split; [done|]. cbn. by split_and!.
  - subst y. cbn. injection E as <- <-. eexists. split; [done|]. cbn. by split_and!.
Qed.
(** C34: get_free_pid on the red-black tree of pids (rb_first, rb_next and the variable prev that it keeps between calls) finds the pid that
    the search in the finite map of pids finds, leaves the tree as it is and remembers the same place for the next call; the pid is not in
    the tree and not one of the reserved ones. *)
Theorem get_free_pid_same s m q (H : refines s m q) (Hok : Sessions.Sessions.prev_ok q) :
  exists pid s' q', get_free_pid (Pstree.Pstree.turns q) s = Done (pid, s') /\ PstreeIds.PstreeIds.get_free_pid q = Done (pid, q') /\ refines s' m q' /\
    tree s' = tree s /\ virts s' = virts s /\ m !! pid = None /\ PstreeIds.PstreeIds.RESERVED_PIDS <= pid.
Proof.
  destruct (Sessions.Sessions.get_free_pid_spec q Hok) as (pid & p & E & Hfree & Hres & _). pose proof E as E0. unfold PstreeIds.PstreeIds.get_free_pid in E.
  assert (Hst : exists v x, (match Pstree.Pstree.prev_pid q with Some p => Some p | None => PstreeIds.PstreeIds.rb_first q end) = Some v /\ m !! v = Some x /\ 0 < x /\ (if prev s =? 0 then on_tree rb_first else ret (prev s)) s = Done (x, s)).
  { pose proof (rf_prev _ _ _ H) as Hp. destruct (Pstree.Pstree.prev_pid q) as [v|]; cbn in Hp.
    - destruct Hp as [Hp Hpos]. exists v, (prev s). assert ((prev s =? 0) = false) as -> by (apply Z.eqb_neq; lia). by split_and!.
    - rewrite Hp. pose proof (first_same s m q H) as Hf. destruct (PstreeIds.PstreeIds.rb_first q) as [v|]; [|done]. destruct Hf as (x & E1 & Hx & Hpos). by exists v, x. }
  destruct Hst as (v & x & Ev & Hx & Hpos & Es). rewrite Ev in E. destruct (free_loop_same _ s m q v x pid _ H Hx Hpos E) as (s' & Es' & Ht & Hvs & Hp).
  exists pid, s', (Pstree.Pstree.set_prev (Some p) q). unfold get_free_pid, bind. rewrite Es. split_and!; try done.
  - split; [unfold stands_for; rewrite Ht, Hvs; apply H|exact (rf_dom _ _ _ H)|exact Hp].
  - destruct (m !! pid) eqn:Em; [|done]. assert (is_Some (Pstree.Pstree.pids q !! pid)) as [n Hn] by (apply (rf_dom _ _ _ H); by eexists). congruence.
Qed.

(** C31: the red-black tree of pids is a finite map: in a tree that stands for the map m, pstree_pid_by_virt finds what m has for the pid;
    lookup_create_pid gives the node that is there and changes nothing, or links the given node (or that of a new item) in and rebalances
    the tree, which then stands for m with that pid; a failed allocation changes nothing. *)
Theorem pid_tree_is_a_map s m pid node alloc x (H : stands_for s m) (Hx : (match node with Some x => Some x | None => alloc end) = Some x) (Ha : addr x) (Hnew : forall j, m !! j <> Some x)
    (Hv : node = Some x -> virts s !! x = Some pid) :
  pstree_pid_by_virt pid s = Done (m !! pid, s) /\
  match m !! pid with
  | Some y => lookup_create_pid alloc pid node s = Done (Some y, s)
  | None => (node = None -> lookup_create_pid None pid node s = Done (None, s)) /\
      exists s', lookup_create_pid alloc pid node s = Done (Some x, s') /\ stands_for s' (<[pid := x]> m) /\ prev s' = prev s /\ pstree_pid_by_virt pid s' = Done (Some x, s')
  end.
Proof.
  split; [by apply pid_by_virt_at|]. destruct (m !! pid) as [y|] eqn:E; [by eapply lookup_create_found|]. split.
  - intros ->. by apply (lookup_create_new s m None pid None).
  - pose proof (lookup_create_new s m alloc pid node H E) as Hl. rewrite Hx in Hl. destruct (Hl Ha Hnew Hv) as (s' & E1 & Hs' & Hp & _). exists s'. split_and!; [done..|].
    rewrite (pid_by_virt_at s' _ pid Hs'). by rewrite lookup_insert, decide_True.
Qed.

(** pids 100, 300 and 301 *)
Definition some_virts : gmap Z Z := <[16 := 100]> (<[32 := 300]> (<[48 := 301]> ∅)).
Definition some_pids : gmap Z Z := <[100 := 16]> (<[300 := 32]> (<[301 := 48]> ∅)).
Lemma some_tree p : stands_for (mk_pt three some_virts p) some_pids.
Proof.
  exists [16; 32; 48]. split_and!; [apply three_holds| | |].
  - repeat constructor; eexists _, _; (split_and!; [by vm_compute|by vm_compute|lia]).
  - intros x Hx. rewrite !elem_of_cons, elem_of_nil in Hx. destruct Hx as [->|[->|[->|[]]]]; by eexists.
  - intros k x. unfold some_pids, some_virts. rewrite !lookup_insert_Some, lookup_empty. rewrite !elem_of_cons, elem_of_nil. split.
    + intros [[<- <-]|[? [[<- <-]|[? [[<- <-]|[? ?]]]]]]; try done; (split; [tauto|by vm_compute]).
    + intros [[->|[->|[->|[]]]] E]; vm_compute in E; injection E as <-; [by left|right; split; [lia|by left]|right; split; [lia|right; split; [lia|by left]]].
Qed.

Lemma pid_tree_is_a_map_witness : let s := mk_pt three some_virts 0 in
  pstree_pid_by_virt 200 s = Done (None, s) /\
  exists s', lookup_create_pid (Some 64) 200 None s = Done (Some 64, s') /\ stands_for s' (<[200 := 64]> some_pids) /\ pstree_pid_by_virt 200 s' = Done (Some 64, s').
Proof.
  intros s. destruct (pid_tree_is_a_map s some_pids 200 None (Some 64) 64 (some_tree 0) eq_refl) as (H1 & _ & s' & E & Hs & _ & H2).
  - by split.
  - intros j. unfold some_pids. rewrite !lookup_insert_Some, lookup_empty. intros [[_ ?]|[? [[_ ?]|[? [[_ ?]|[? ?]]]]]]; done.
  - done.
  - split; [exact H1|]. by exists s'.
Defined.

Definition some_ps : Pstree.Pstree.ps := Pstree.Pstree.set_pids (<[100 := Pstree.Pstree.Thread]> (<[300 := Pstree.Pstree.Thread]> (<[301 := Pstree.Pstree.Thread]> ∅))) Pstree.Pstree.ps_init.
Lemma get_free_pid_same_witness : exists pid s' q', get_free_pid 4 (mk_pt three some_virts 0) = Done (pid, s') /\ PstreeIds.PstreeIds.get_free_pid some_ps = Done (pid, q') /\ refines s' some_pids q' /\
    tree s' = three /\ virts s' = some_virts /\ some_pids !! pid = None /\ PstreeIds.PstreeIds.RESERVED_PIDS <= pid.
Proof.
  apply (get_free_pid_same (mk_pt three some_virts 0) some_pids some_ps).
  - split; [apply some_tree| |done]. intros v. unfold some_pids. cbn. rewrite !lookup_insert_is_Some', !lookup_empty. by rewrite !is_Some_alt.
  - cbn. intros E. apply (f_equal (fun m => m !! 100)) in E. done.
Defined.
End PidTree.
