(* ===== verification/KcmpIds.v ===== *)
(** * Ids of shared kernel objects: kcmp-ids.c, file-ids.c and dump_task_kobj_ids of cr-dump.c

    The objects that tasks share are told apart with kcmp, which compares two of them in an order of the kernel: a red-black tree in the
    order of a number that is known of the object, and below each of its nodes one in the order of kcmp.  What kcmp answers is a
    parameter. *)
From S2P Require Import Prelude.
From S2P Require Import RbTree.
From S2P Require Import RbMap.
From S2P Require Import Pstree.
Import RbTree.RbTree RbMap.RbMap.
#[local] Open Scope cmon_scope.

Module KcmpIds.

Definition U32 : Z := 2 ^ 32.
Definition U64 : Z := 2 ^ 64.

Record kid_elem := mk_elem { pid : Z; genid : Z; idx : Z }.

(** [struct kid_entry]: the heap of a subtree are the nodes subtree_node of its entries; an entry is known by its address *)
Record kid_entry := mk_kid { subtree_root : rbs; subid : Z; elem : kid_elem }.

(** [struct kid_tree], with the entries that were allocated for it *)
Record kid_tree := mk_kt { root : rbs; next_subid : Z; entries : gmap Z kid_entry }.

Definition DECLARE_KCMP_TREE : kid_tree := mk_kt (mk_rbs ∅ 0) 1 ∅.

Definition entry (x : Z) : M kid_tree kid_entry := fun s => match entries s !! x with Some e => Done (e, s) | None => Bug end.
Definition set_entry (x : Z) (e : kid_entry) : M kid_tree unit := fun s => Done (tt, mk_kt (root s) (next_subid s) (<[x := e]> (entries s))).
Definition on_root {A} (m : M rbs A) : M kid_tree A := fun s =>
  match m (root s) with Done (a, t) => Done (a, mk_kt t (next_subid s) (entries s)) | Bug => Bug | NoFuel => NoFuel end.
Definition on_subtree {A} (x : Z) (m : M rbs A) : M kid_tree A :=
  e <~ entry x ;;
  match m (subtree_root e) with
  | Done (a, t) => set_entry x (mk_kid t (subid e) (elem e)) ;;; ret a
  | Bug => bug
  | NoFuel => fun _ => NoFuel
  end.

(** [alloc] is the address of the new entry, or nothing when the allocation fails *)
Definition alloc_kid_entry (alloc : option Z) (el : kid_elem) : M kid_tree (option Z) :=
  match alloc with
  | None => ret None
  | Some x => fun s =>
      let id := next_subid s mod U32 in
      (set_entry x (mk_kid (mk_rbs ∅ 0) id el) ;;;
       (fun s => Done (tt, mk_kt (root s) ((next_subid s + 1) mod U64) (entries s))) ;;;
       bug_on (id =? 0) ;;;
       on_subtree x (rb_link_and_balance x 0 LinkRoot) ;;;
       ret (Some x)) s
  end.

Section Kcmp.
(** what the system call answers when the object of the first element is compared with that of the second *)
Variable kcmp : kid_elem -> kid_elem -> Z.

Definition kcmp_way (es : gmap Z kid_entry) (el : kid_elem) (x : Z) : way :=
  match es !! x with
  | Some this => let r := kcmp (elem this) el in if r =? 1 then Left else if r =? 2 then Right else if r =? 0 then Here else Fail
  | None => Fail
  end.

(** the id, or 0, and whether it is new *)
Definition kid_generate_sub (alloc : option Z) (e : Z) (el : kid_elem) : M kid_tree (Z * bool) :=
  en <~ entry e ;;
  bug_on (RbTree.root (subtree_root en) =? 0) ;;;
  r <~ (fun s => on_subtree e (search (kcmp_way (entries s) el)) s) ;;
  match r with
  | Found this => th <~ entry this ;; ret (subid th, false)
  | Failed => ret (0, false)
  | Place parent new =>
      sub <~ alloc_kid_entry alloc el ;;
      match sub with
      | None => ret (0, false)
      | Some sub => on_subtree e (rb_link_and_balance sub parent new) ;;; se <~ entry sub ;; ret (subid se, true)
      end
  end.

Definition genids (es : gmap Z kid_entry) : gmap Z Z := (fun e => genid (elem e)) <$> es.

Definition kid_generate_gen (alloc : option Z) (el : kid_elem) : M kid_tree (Z * bool) :=
  r <~ (fun s => on_root (search (key_way (genids (entries s)) (genid el))) s) ;;
  match r with
  | Found this => kid_generate_sub alloc this el
  | Failed => bug
  | Place parent new =>
      e <~ alloc_kid_entry alloc el ;;
      match e with
      | None => ret (0, false)
      | Some e => on_root (rb_link_and_balance e parent new) ;;; en <~ entry e ;; ret (subid en, true)
      end
  end.
End Kcmp.

(** the look-up for a descriptor that an epoll descriptor waits for: [slot_kcmp] compares with the slot *)
Section Epoll.
Variable slot_kcmp : kid_elem -> Z.
Definition slot_way (es : gmap Z kid_entry) (x : Z) : way :=
  match es !! x with Some this => let r := slot_kcmp (elem this) in if r =? 1 then Left else if r =? 2 then Right else if r =? 0 then Here else Fail | None => Fail end.
Definition kid_lookup_epoll_tfd_sub (e : Z) : M kid_tree (option kid_elem) :=
  en <~ entry e ;;
  bug_on (RbTree.root (subtree_root en) =? 0) ;;;
  r <~ (fun s => on_subtree e (search (slot_way (entries s))) s) ;;
  match r with Found this => th <~ entry this ;; ret (Some (elem th)) | _ => ret None end.
Definition kid_lookup_epoll_tfd (el : kid_elem) : M kid_tree (option kid_elem) :=
  r <~ (fun s => on_root (search (key_way (genids (entries s)) (genid el))) s) ;;
  match r with Found this => kid_lookup_epoll_tfd_sub this | Failed => bug | Place _ _ => ret None end.
End Epoll.
End KcmpIds.
