(* ===== verification/KcmpObjects.v ===== *)
(** * The ids tell the objects apart

    kid_generate_gen gives two elements the same id when kcmp says that their objects are the same one, and only then. *)
From S2P Require Import Prelude.
From S2P Require Import RbTree.
From S2P Require Import RbShape.
From S2P Require Import RbMap.
From S2P Require Import KcmpIds.
Import RbTree.RbTree RbShape.RbShape RbMap.RbMap KcmpIds.KcmpIds.
#[local] Open Scope cmon_scope.

Module KcmpObjects.

(** kcmp compares by an order of the kernel's objects: [ptr] is the place of the element's object in it *)
Definition kcmp_by (ptr : kid_elem -> Z) (a b : kid_elem) : Z := if ptr a =? ptr b then 0 else if ptr a <? ptr b then 1 else 2.

Section Objects.
Variable ptr : kid_elem -> Z.

Definition objs (es : gmap Z kid_entry) : gmap Z Z := (fun e => - ptr (elem e)) <$> es.

Lemma kcmp_way_key es el x : kcmp_way (kcmp_by ptr) es el x = key_way (objs es) (- ptr el) x.
Proof.
  unfold kcmp_way, key_way, objs, kcmp_by. rewrite lookup_fmap. destruct (es !! x) as [this|]; [|done]. cbn.
  destruct (Z.eqb_spec (ptr (elem this)) (ptr el)), (Z.ltb_spec (ptr (elem this)) (ptr el)), (Z.ltb_spec (- ptr el) (- ptr (elem this))), (Z.ltb_spec (- ptr (elem this)) (- ptr el)); try done; lia.
Qed.

(** ** The two trees *)
(** the entry [e] has in its subtree the entries with the number [g] *)
Definition sub_ok (es : gmap Z kid_entry) (g e : Z) : Prop :=
  exists en m, es !! e = Some en /\ maps (subtree_root en) (objs es) m /\ forall k x, m !! k = Some x <-> exists ex, es !! x = Some ex /\ genid (elem ex) = g /\ - ptr (elem ex) = k.

Record inv (s : kid_tree) (mg : gmap Z Z) : Prop := {
  i_root : maps (root s) (genids (entries s)) mg;
  i_all : forall x ex, entries s !! x = Some ex -> is_Some (mg !! genid (elem ex));
  i_sub : forall g e, mg !! g = Some e -> sub_ok (entries s) g e;
  i_ids : forall x y ex ey, entries s !! x = Some ex -> entries s !! y = Some ey -> subid ex = subid ey -> x = y;
  i_range : forall x ex, entries s !! x = Some ex -> 1 <= subid ex < next_subid s;
  i_next : 1 <= next_subid s <= U32;
}.
Definition kid_ok (s : kid_tree) : Prop := exists mg, inv s mg.

(** the object of [el] has the id [i] *)
Definition knows (s : kid_tree) (el : kid_elem) (i : Z) : Prop :=
  exists x ex, entries s !! x = Some ex /\ genid (elem ex) = genid el /\ ptr (elem ex) = ptr el /\ subid ex = i.

Lemma kid_ok_empty : kid_ok DECLARE_KCMP_TREE.
Proof.
  exists ∅. split; cbn [entries DECLARE_KCMP_TREE root next_subid]; [exact maps_empty|..]; try (intros *; rewrite ?lookup_empty; done).
Qed.

Lemma one_entry s mg x y ex ey : inv s mg -> entries s !! x = Some ex -> entries s !! y = Some ey -> genid (elem ex) = genid (elem ey) -> ptr (elem ex) = ptr (elem ey) -> x = y.
Proof.
  intros H Hx Hy Hg Hp. destruct (i_all _ _ H x ex Hx) as [e He]. destruct (i_sub _ _ H _ e He) as (en & m & _ & _ & Hm).
  assert (H1 : m !! (- ptr (elem ex)) = Some x) by (apply Hm; by exists ex). assert (H2 : m !! (- ptr (elem ex)) = Some y) by (apply Hm; exists ey; split_and!; [done|done|lia]). congruence.
Qed.

(** an entry that was just allocated *)
Lemma alloc_at s x el : entries s !! x = None -> addr x -> 1 <= next_subid s < U32 ->
  exists t, alloc_kid_entry (Some x) el s = Done (Some x, mk_kt (root s) (next_subid s + 1) (<[x := mk_kid t (next_subid s) el]> (entries s))) /\
    maps t (objs (<[x := mk_kid t (next_subid s) el]> (entries s))) (<[- ptr el := x]> ∅).
Proof.
  intros Hx Ha Hn. destruct (maps_single x (- ptr el) Ha) as (t & Et & Hm). exists t. assert (HU : U32 < U64) by by vm_compute. unfold alloc_kid_entry, bind, set_entry. rewrite (Z.mod_small (next_subid s)) by lia.
  assert ((next_subid s =? 0) = false) as -> by (apply Z.eqb_neq; lia). cbn [bug_on negb]. unfold on_subtree, bind, entry. cbn [next_subid root entries]. rewrite (Z.mod_small (next_subid s + 1)) by lia. cbn [entries]. rewrite lookup_insert, decide_True by done. cbn [subtree_root]. rewrite Et. unfold set_entry, ret. cbn. split; [by rewrite insert_insert, decide_True|].
  eapply maps_keys; [exact Hm|]. intros k y. rewrite lookup_insert_Some, lookup_empty. intros [[<- <-]|[_ ?]]; [|done]. unfold objs. by rewrite lookup_fmap, lookup_insert, decide_True.
Qed.

(** a new entry [x]; of the others only the subtrees may change *)
Record grown (es es' : gmap Z kid_entry) (x : Z) (el : kid_elem) (id : Z) : Prop := {
  gr_new : exists t, es' !! x = Some (mk_kid t id el);
  gr_fresh : es !! x = None;
  gr_back : forall y a, es !! y = Some a -> exists b, es' !! y = Some b /\ elem b = elem a /\ subid b = subid a;
  gr_old : forall y b, es' !! y = Some b -> y <> x -> exists a, es !! y = Some a /\ elem b = elem a /\ subid b = subid a;
}.
Lemma grown_insert es x t el id : es !! x = None -> grown es (<[x := mk_kid t id el]> es) x el id.
Proof.
  intros Hx. split; [exists t; by rewrite lookup_insert, decide_True|done|..].
  - intros y a Hy. exists a. rewrite lookup_insert_ne by (intros ->; congruence). by split_and!.
  - intros y b Hy Hne. rewrite lookup_insert_ne in Hy by done. by exists b.
Qed.
Lemma grown_subtree es es' x el id e en t : grown es es' x el id -> es' !! e = Some en -> grown es (<[e := mk_kid t (subid en) (elem en)]> es') x el id.
Proof.
  intros [[t0 H1] H2 H3 H4] He. split.
  - destruct (decide (e = x)) as [->|Hne]; [rewrite He in H1; simplify_eq; exists t; by rewrite lookup_insert, decide_True|exists t0; by rewrite lookup_insert_ne].
  - done.
  - intros y a Hy. destruct (H3 y a Hy) as (b & Hb & E1 & E2). destruct (decide (e = y)) as [<-|Hne]; [|exists b; by rewrite lookup_insert_ne]. rewrite lookup_insert, decide_True by done. eexists. split; [done|]. cbn. by simplify_eq.
  - intros y b Hy Hne. destruct (decide (e = y)) as [<-|Hey]; [|rewrite lookup_insert_ne in Hy by done; by apply (H4 y b)]. rewrite lookup_insert, decide_True in Hy by done. injection Hy as <-. by apply (H4 e en).
Qed.
Lemma grown_keys es es' x el id : grown es es' x el id -> (forall y k, objs es !! y = Some k -> objs es' !! y = Some k) /\ genids es' = <[x := genid el]> (genids es).
Proof.
  intros [[t0 H1] H2 H3 H4]. split.
  - intros y k. unfold objs. rewrite !lookup_fmap. destruct (es !! y) as [a|] eqn:E; [|done]. destruct (H3 y a E) as (b & -> & Eb & _). cbn. by rewrite Eb.
  - apply map_eq. intros y. unfold genids. destruct (decide (x = y)) as [<-|Hne]; [by rewrite lookup_insert, decide_True, lookup_fmap, H1|]. rewrite lookup_insert_ne, !lookup_fmap by done.
    destruct (es !! y) as [a|] eqn:E; [destruct (H3 y a E) as (b & -> & Eb & _); cbn; by rewrite Eb|]. destruct (es' !! y) as [b|] eqn:E'; [|done]. destruct (H4 y b E') as (a & Ha & _); congruence.
Qed.

(** the subtrees of other numbers *)
Lemma grown_other es es' x el id g e : grown es es' x el id -> sub_ok es g e -> g <> genid el -> es' !! e = es !! e -> sub_ok es' g e.
Proof.
  intros Hg (en & m & He & Hm & Hin) Hne Hsame. pose proof (grown_keys es es' x el id Hg) as [Hk _]. destruct Hg as [[t0 H1] H2 H3 H4]. exists en, m. split_and!; [by rewrite Hsame| |].
  - eapply maps_keys; [exact Hm|]. intros k y Hy. eapply Hk, maps_node; done.
  - intros k y. rewrite Hin. split; intros (a & Ha & Eg & Ek).
    + destruct (H3 y a Ha) as (b & Hb & Eb & _). exists b. by rewrite Eb.
    + destruct (decide (y = x)) as [->|Hyx]; [rewrite H1 in Ha; by simplify_eq|]. destruct (H4 y a Ha Hyx) as (b & Hb & Eb & _). exists b. by rewrite <-Eb.
Qed.
(** the subtree that has the new entry *)
Lemma grown_sub es es' x el id e en m t : grown es es' x el id ->
  (forall k y, m !! k = Some y <-> exists ex, es !! y = Some ex /\ genid (elem ex) = genid el /\ - ptr (elem ex) = k) -> m !! (- ptr el) = None ->
  es' !! e = Some en -> subtree_root en = t -> maps t (objs es') (<[- ptr el := x]> m) -> sub_ok es' (genid el) e.
Proof.
  intros [[t0 H1] H2 H3 H4] Hin Hnone He Ht Hm. exists en, (<[- ptr el := x]> m). split_and!; [done|by rewrite Ht|]. intros k y. rewrite lookup_insert_Some, Hin. split.
  - intros [[<- <-]|[Hk (a & Ha & Eg & Ek)]]; [by eexists|]. destruct (H3 y a Ha) as (b & Hb & Eb & _). exists b. by rewrite Eb.
  - intros (b & Hb & Eg & Ek). destruct (decide (y = x)) as [->|Hyx]; [rewrite H1 in Hb; simplify_eq; by left|]. destruct (H4 y b Hb Hyx) as (a & Ha & Eb & _). rewrite Eb in *. right. split; [|by exists a].
    intros E. assert (m !! (- ptr el) = Some y) by (apply Hin; exists a; split_and!; [done|done|congruence]). congruence.
Qed.

(** what is known after that *)
Definition learned (s s' : kid_tree) (el : kid_elem) : Prop :=
  forall b i, knows s' b i <-> knows s b i \/ (genid b = genid el /\ ptr b = ptr el /\ i = next_subid s).
Lemma grown_learned s s' x el : grown (entries s) (entries s') x el (next_subid s) -> learned s s' el.
Proof.
  intros [[t0 H1] H2 H3 H4] b i. split.
  - intros (y & a & Hy & Eg & Ep & Ei). destruct (decide (y = x)) as [->|Hne]; [rewrite H1 in Hy; simplify_eq; cbn in *; right; by split_and!|]. destruct (H4 y a Hy Hne) as (c & Hc & E1 & E2). left. exists y, c. by rewrite <-E1, <-E2.
  - intros [(y & a & Hy & Eg & Ep & Ei)|(Eg & Ep & ->)]; [|by eexists x, _].
    destruct (H3 y a Hy) as (c & Hc & E1 & E2). exists y, c. by rewrite E1, E2.
Qed.
Lemma grown_inv s s' mg mg' x el : inv s mg -> grown (entries s) (entries s') x el (next_subid s) -> next_subid s < U32 -> next_subid s' = next_subid s + 1 ->
  maps (root s') (genids (entries s')) mg' -> (forall g, is_Some (mg !! g) -> is_Some (mg' !! g)) -> is_Some (mg' !! genid el) -> (forall g e, mg' !! g = Some e -> sub_ok (entries s') g e) -> inv s' mg'.
Proof.
  intros [_ H1 _ H2 H3 H4] [[t0 G1] G2 G3 G4] Hn Hn' Hr Hmg Hel Hsub.
  assert (Hold : forall y b, entries s' !! y = Some b -> (y = x /\ elem b = el /\ subid b = next_subid s) \/ exists a, entries s !! y = Some a /\ elem b = elem a /\ subid b = subid a).
  { intros y b Hy. destruct (decide (y = x)) as [->|Hne]; [left; rewrite G1 in Hy; by simplify_eq|right; by apply G4]. }
  split; [done| |done| | |lia].
  - intros y b Hy. destruct (Hold y b Hy) as [(_ & -> & _)|(a & Ha & -> & _)]; [done|by eapply Hmg, H1].
  - intros y z a b Hy Hz E. destruct (Hold y a Hy) as [(-> & _ & E1)|(a' & Ha & _ & E1)], (Hold z b Hz) as [(-> & _ & E2)|(b' & Hb & _ & E2)]; [done| | |].
    + pose proof (H3 z b' Hb). lia.
    + pose proof (H3 y a' Ha). lia.
    + apply (H2 y z a' b' Ha Hb). congruence.
  - intros y b Hy. destruct (Hold y b Hy) as [(_ & _ & ->)|(a & Ha & _ & ->)]; [lia|]. pose proof (H3 y a Ha). lia.
Qed.

(** ** One call *)
Lemma on_root_at {A} (m : M rbs A) s a t : m (root s) = Done (a, t) -> on_root m s = Done (a, mk_kt t (next_subid s) (entries s)).
Proof. unfold on_root. by intros ->. Qed.
Lemma on_subtree_at {A} (m : M rbs A) s e en a t : entries s !! e = Some en -> m (subtree_root en) = Done (a, t) ->
  on_subtree e m s = Done (a, mk_kt (root s) (next_subid s) (<[e := mk_kid t (subid en) (elem en)]> (entries s))).
Proof. intros He Hm. unfold on_subtree, bind, entry. by rewrite He, Hm. Qed.
Lemma kt_eta s : mk_kt (root s) (next_subid s) (entries s) = s.
Proof. by destruct s. Qed.
Lemma same_subtree s e en : entries s !! e = Some en -> mk_kt (root s) (next_subid s) (<[e := mk_kid (subtree_root en) (subid en) (elem en)]> (entries s)) = s.
Proof. intros He. rewrite insert_id; [by destruct s|]. by destruct en. Qed.

(** the search below an entry *)
Lemma search_sub s e en el m : entries s !! e = Some en -> maps (subtree_root en) (objs (entries s)) m ->
  match m !! (- ptr el) with
  | Some x => on_subtree e (search (kcmp_way (kcmp_by ptr) (entries s) el)) s = Done (Found x, s)
  | None => exists p lk, on_subtree e (search (kcmp_way (kcmp_by ptr) (entries s) el)) s = Done (Place p lk, s) /\
      forall x, addr x -> (forall j, m !! j <> Some x) -> exists t, rb_link_and_balance x p lk (subtree_root en) = Done (tt, t) /\ maps t (<[x := - ptr el]> (objs (entries s))) (<[- ptr el := x]> m)
  end.
Proof.
  intros He Hm. pose proof (search_ext (kcmp_way (kcmp_by ptr) (entries s) el) (key_way (objs (entries s)) (- ptr el)) (subtree_root en) (kcmp_way_key (entries s) el)) as Hext. destruct (m !! (- ptr el)) as [x|] eqn:E.
  - erewrite on_subtree_at; [|exact He|rewrite Hext; by eapply search_found]. by rewrite same_subtree.
  - destruct (search_place _ _ _ _ Hm E) as (p & lk & Es & Hins). exists p, lk. split; [|exact Hins]. erewrite on_subtree_at; [|exact He|rewrite Hext; exact Es]. by rewrite same_subtree.
Qed.

Lemma sub_not_empty s mg g e en m : inv s mg -> mg !! g = Some e -> entries s !! e = Some en -> maps (subtree_root en) (objs (entries s)) m ->
  (forall k x, m !! k = Some x <-> exists ex, entries s !! x = Some ex /\ genid (elem ex) = g /\ - ptr (elem ex) = k) -> RbTree.root (subtree_root en) <> 0.
Proof.
  intros H Hg He Hm Hin. apply (maps_root _ _ _ Hm). intros ->. assert (Hx : (∅ : gmap Z Z) !! (- ptr (elem en)) = Some e); [|by rewrite lookup_empty in Hx].
  apply Hin. exists en. split_and!; [done| |done]. pose proof (maps_node _ _ _ _ _ (i_root _ _ H) Hg) as Hk. unfold genids in Hk. rewrite lookup_fmap, He in Hk. by injection Hk.
Qed.
Lemma unknown s el (m : gmap Z Z) : (forall i, ~ knows s el i) ->
  (forall k x, m !! k = Some x <-> exists ex, entries s !! x = Some ex /\ genid (elem ex) = genid el /\ - ptr (elem ex) = k) -> m !! (- ptr el) = None.
Proof.
  intros Hno Hin. destruct (m !! (- ptr el)) as [x|] eqn:E; [|done]. apply Hin in E as (ex & Hx & Eg & Ep). exfalso. apply (Hno (subid ex)). exists x, ex. split_and!; [done|done|lia|done].
Qed.

Theorem known_id s el i alloc : kid_ok s -> knows s el i -> kid_generate_gen (kcmp_by ptr) alloc el s = Done (i, false, s).
Proof.
  intros [mg H] (x & ex & Hx & Eg & Ep & Ei). destruct (i_all _ _ H x ex Hx) as [e He]. rewrite Eg in He. destruct (i_sub _ _ H _ _ He) as (en & m & Hen & Hm & Hin).
  assert (Hmx : m !! (- ptr el) = Some x) by (apply Hin; exists ex; split_and!; [done|done|lia]). unfold kid_generate_gen, bind at 1. rewrite (on_root_at _ _ _ _ (search_found _ _ _ _ _ (i_root _ _ H) He)), kt_eta.
  unfold kid_generate_sub, bind at 1, entry at 1. rewrite Hen. pose proof (sub_not_empty s mg _ e en m H He Hen Hm Hin) as Hr. apply Z.eqb_neq in Hr. rewrite Hr. unfold bind, bug_on. cbn [negb].
  pose proof (search_sub s e en el m Hen Hm) as Hs. rewrite Hmx in Hs. unfold ret at 1. rewrite Hs. unfold entry. rewrite Hx. unfold ret. by rewrite Ei.
Qed.

(** an object that is not known: in a subtree that is there, or as a new node of the main tree *)
Lemma new_in_subtree s mg el e x : inv s mg -> (forall i, ~ knows s el i) -> mg !! genid el = Some e -> entries s !! x = None -> addr x -> next_subid s < U32 ->
  exists s', kid_generate_sub (kcmp_by ptr) (Some x) e el s = Done (next_subid s, true, s') /\ kid_ok s' /\ grown (entries s) (entries s') x el (next_subid s) /\ next_subid s' = next_subid s + 1.
Proof.
  intros H Hno He Hx Ha Hn. destruct (i_sub _ _ H _ _ He) as (en & m & Hen & Hm & Hin). pose proof (unknown s el m Hno Hin) as Hnone. pose proof (i_next _ _ H) as Hnx.
  unfold kid_generate_sub, bind at 1, entry at 1. rewrite Hen. pose proof (sub_not_empty s mg _ e en m H He Hen Hm Hin) as Hr. apply Z.eqb_neq in Hr. rewrite Hr. unfold bind at 1, bug_on. cbn [negb]. unfold ret at 1.
  pose proof (search_sub s e en el m Hen Hm) as Hs. rewrite Hnone in Hs. destruct Hs as (p & lk & Es & Hins). unfold bind at 1. rewrite Es. destruct (alloc_at s x el Hx Ha ltac:(lia)) as (t0 & Eal & _). unfold bind at 1. rewrite Eal.
  set (s1 := mk_kt _ _ _). destruct (Hins x Ha) as (t & Et & Hmt).
  { intros j Hj. apply Hin in Hj as (ex & Hex & _). congruence. }
  assert (Hex : e <> x) by congruence. assert (Hen1 : entries s1 !! e = Some en) by (cbn; by rewrite lookup_insert_ne). unfold bind at 1. rewrite (on_subtree_at _ s1 e en tt t Hen1 Et).
  unfold bind, entry, s1. cbn [entries root next_subid]. rewrite lookup_insert_ne, lookup_insert, decide_True by done. eexists. split; [done|]. cbn [entries next_subid].
  pose proof (grown_insert (entries s) x t0 el (next_subid s) Hx) as G1. cbn [entries s1] in Hen1. pose proof (grown_subtree _ _ _ _ _ e en t G1 Hen1) as G2. split_and!; [|exact G2|done].
  exists mg. pose proof (grown_keys _ _ _ _ _ G2) as [Hk Hgk]. eapply (grown_inv s _ mg mg x el H); [exact G2|exact Hn|reflexivity| |done|by eexists|].
  - cbn [root entries]. rewrite Hgk. eapply maps_keys; [exact (i_root _ _ H)|]. intros k y Hy. rewrite lookup_insert_ne; [by eapply maps_node; [exact (i_root _ _ H)|]|]. intros <-. destruct (i_sub _ _ H _ _ Hy) as (a & b & Ha' & _). congruence.
  - cbn [entries]. intros g e' Hg. destruct (decide (g = genid el)) as [->|Hne].
    + rewrite He in Hg. injection Hg as <-. eapply (grown_sub _ _ x el _ e _ m t G2 Hin Hnone); [by rewrite lookup_insert, decide_True|done|]. eapply maps_keys; [exact Hmt|]. intros k y. rewrite lookup_insert_Some. unfold objs at 1.
      intros [[<- <-]|[_ Hy]]; [|by eapply Hk, maps_node]. rewrite lookup_fmap, lookup_insert_ne, lookup_insert, decide_True by done. done.
    + apply (grown_other _ _ _ _ _ g e' G2 (i_sub _ _ H _ _ Hg) Hne). destruct (i_sub _ _ H _ _ Hg) as (a & b & Ha' & _). rewrite !lookup_insert_ne; [done|intros <-; congruence|].
      intros <-. pose proof (maps_node _ _ _ _ _ (i_root _ _ H) Hg) as K1. pose proof (maps_node _ _ _ _ _ (i_root _ _ H) He) as K2. congruence.
Qed.

Lemma new_in_root s mg el x : inv s mg -> mg !! genid el = None -> entries s !! x = None -> addr x -> next_subid s < U32 ->
  exists s', kid_generate_gen (kcmp_by ptr) (Some x) el s = Done (next_subid s, true, s') /\ kid_ok s' /\ grown (entries s) (entries s') x el (next_subid s) /\ next_subid s' = next_subid s + 1.
Proof.
  intros H He Hx Ha Hn. pose proof (i_next _ _ H) as Hnx. destruct (search_place _ _ _ _ (i_root _ _ H) He) as (p & lk & Es & Hins). unfold kid_generate_gen, bind at 1. rewrite (on_root_at _ _ _ _ Es), kt_eta.
  destruct (alloc_at s x el Hx Ha ltac:(lia)) as (t0 & Eal & Hm0). unfold bind at 1. rewrite Eal. destruct (Hins x Ha) as (t & Et & Hmt).
  { intros j Hj. destruct (i_sub _ _ H _ _ Hj) as (a & b & Ha' & _). congruence. }
  unfold bind, on_root. cbn [root next_subid entries]. rewrite Et. unfold entry. cbn [entries]. rewrite lookup_insert, decide_True by done. eexists. split; [done|]. cbn [entries next_subid].
  pose proof (grown_insert (entries s) x t0 el (next_subid s) Hx) as G. split_and!; [|exact G|done]. exists (<[genid el := x]> mg). pose proof (grown_keys _ _ _ _ _ G) as [Hk Hgk].
  eapply (grown_inv s _ mg _ x el H); [exact G|exact Hn|reflexivity|..].
  - cbn [root entries]. by rewrite Hgk.
  - intros g Hg. destruct (decide (genid el = g)) as [<-|Hne]; [by rewrite lookup_insert, decide_True|by rewrite lookup_insert_ne].
  - by rewrite lookup_insert, decide_True.
  - cbn [entries]. intros g e'. rewrite lookup_insert_Some. intros [[<- <-]|[Hne Hg]].
    + apply (grown_sub _ _ x el _ x (mk_kid t0 (next_subid s) el) ∅ t0 G); [|done|by rewrite lookup_insert, decide_True|done|exact Hm0]. intros k y. rewrite lookup_empty. split; [done|]. intros (a & Hy & Eg & _). destruct (i_all _ _ H y a Hy) as [z Hz]. congruence.
    + apply (grown_other _ _ _ _ _ g e' G (i_sub _ _ H _ _ Hg) ltac:(congruence)). destruct (i_sub _ _ H _ _ Hg) as (a & b & Ha' & _). rewrite lookup_insert_ne; [done|intros <-; congruence].
Qed.

Theorem new_id s el x : kid_ok s -> (forall i, ~ knows s el i) -> entries s !! x = None -> addr x -> next_subid s < U32 ->
  exists s', kid_generate_gen (kcmp_by ptr) (Some x) el s = Done (next_subid s, true, s') /\ kid_ok s' /\ grown (entries s) (entries s') x el (next_subid s) /\ next_subid s' = next_subid s + 1.
Proof.
  intros [mg H] Hno Hx Ha Hn. destruct (mg !! genid el) as [e|] eqn:He; [|by apply (new_in_root s mg)]. destruct (new_in_subtree s mg el e x H Hno He Hx Ha Hn) as (s' & E & Hs'). exists s'. split; [|done].
  unfold kid_generate_gen, bind at 1. by rewrite (on_root_at _ _ _ _ (search_found _ _ _ _ _ (i_root _ _ H) He)), kt_eta.
Qed.

(** the search of kid_generate_gen for an object that is not known ends with an allocation *)
Lemma no_new_id s el alloc : kid_ok s -> (forall i, ~ knows s el i) -> (alloc = None \/ next_subid s = U32) ->
  kid_generate_gen (kcmp_by ptr) alloc el s = match alloc with None => Done (0, false, s) | Some _ => Bug end.
Proof.
  intros [mg H] Hno Hal. assert (Halloc : alloc_kid_entry alloc el s = match alloc with None => Done (None, s) | Some _ => Bug end).
  { destruct alloc as [x|]; [|done]. destruct Hal as [?|Hn]; [done|]. unfold alloc_kid_entry, bind, set_entry. by rewrite Hn. }
  unfold kid_generate_gen, bind at 1. destruct (mg !! genid el) as [e|] eqn:He.
  - rewrite (on_root_at _ _ _ _ (search_found _ _ _ _ _ (i_root _ _ H) He)), kt_eta. destruct (i_sub _ _ H _ _ He) as (en & m & Hen & Hm & Hin). pose proof (unknown s el m Hno Hin) as Hnone.
    unfold kid_generate_sub, bind at 1, entry at 1. rewrite Hen. pose proof (sub_not_empty s mg _ e en m H He Hen Hm Hin) as Hr. apply Z.eqb_neq in Hr. rewrite Hr. unfold bind at 1, bug_on. cbn [negb]. unfold ret at 1.
    pose proof (search_sub s e en el m Hen Hm) as Hs. rewrite Hnone in Hs. destruct Hs as (p & lk & Es & _). unfold bind at 1. rewrite Es. unfold bind at 1. rewrite Halloc. by destruct alloc.
  - destruct (search_place _ _ _ _ (i_root _ _ H) He) as (p & lk & Es & _). rewrite (on_root_at _ _ _ _ Es), kt_eta. unfold bind at 1. rewrite Halloc. by destruct alloc.
Qed.

(** what is known is known once *)
Lemma knows_once s a b i j : kid_ok s -> knows s a i -> knows s b j -> (i = j <-> genid a = genid b /\ ptr a = ptr b).
Proof.
  intros [mg H] (x & ex & Hx & Gx & Px & <-) (y & ey & Hy & Gy & Py & <-). split.
  - intros E. assert (x = y) as -> by by eapply (i_ids _ _ H). by simplify_eq; split; congruence.
  - intros [Eg Ep]. assert (x = y) as -> by (apply (one_entry s mg x y ex ey H Hx Hy); congruence). by simplify_eq.
Qed.
Lemma knows_range s el i : kid_ok s -> knows s el i -> 1 <= i < next_subid s.
Proof. intros [mg H] (x & ex & Hx & _ & _ & <-). by eapply (i_range _ _ H). Qed.
Lemma knows_dec s el : kid_ok s -> (exists i, knows s el i) \/ (forall i, ~ knows s el i).
Proof.
  intros [mg H]. destruct (mg !! genid el) as [e|] eqn:He.
  - destruct (i_sub _ _ H _ _ He) as (en & m & Hen & Hm & Hin). destruct (m !! (- ptr el)) as [x|] eqn:Ex.
    + apply Hin in Ex as (ex & Hx & Eg & Ep). left. exists (subid ex), x, ex. split_and!; [done|done|lia|done].
    + right. intros i (x & ex & Hx & Eg & Ep & _). assert (m !! (- ptr el) = Some x); [|congruence]. apply Hin. exists ex. split_and!; [done|done|lia].
  - right. intros i (x & ex & Hx & Eg & _). destruct (i_all _ _ H x ex Hx) as [z Hz]. congruence.
Qed.

(** a call that can allocate *)
Record call (s : kid_tree) (el : kid_elem) (x i : Z) (new : bool) (s' : kid_tree) : Prop := {
  cl_ok : kid_ok s';
  cl_id : knows s' el i;
  cl_new : new = true <-> forall j, ~ knows s el j;
  cl_keeps : forall b j, knows s b j -> knows s' b j;
  cl_only : forall b j, knows s' b j -> knows s b j \/ (genid b = genid el /\ ptr b = ptr el);
  cl_next : next_subid s <= next_subid s' <= next_subid s + 1;
  cl_fresh : forall y, y <> x -> entries s !! y = None -> entries s' !! y = None;
}.
Lemma generate_call s el x : kid_ok s -> entries s !! x = None -> addr x -> next_subid s < U32 -> exists i new s', kid_generate_gen (kcmp_by ptr) (Some x) el s = Done (i, new, s') /\ call s el x i new s'.
Proof.
  intros H Hx Ha Hn. destruct (knows_dec s el H) as [[i Hi]|Hno].
  - exists i, false, s. split; [by apply known_id|]. split; try done; [|by left|lia]. split; [done|]. intros Hno. by destruct (Hno i).
  - destruct (new_id s el x H Hno Hx Ha Hn) as (s' & E & Hok & Hg & Hnext). pose proof (grown_learned s s' x el Hg) as Hl. exists (next_subid s), true, s'. split; [done|]. split; try done; [| | |lia|].
    + apply Hl. right. by split_and!.
    + intros b j Hj. apply Hl. by left.
    + intros b j Hj. apply Hl in Hj as [Hj|(? & ? & _)]; [by left|by right].
    + intros y Hy Hnone. destruct (entries s' !! y) as [b|] eqn:E'; [|done]. destruct (gr_old _ _ _ _ _ Hg y b E' Hy) as (a & Ha' & _). congruence.
Qed.

(** ** A sequence of calls *)
Fixpoint ids_of_all (l : list (kid_elem * Z)) : M kid_tree (list (Z * bool)) :=
  match l with [] => ret [] | (el, x) :: l => r <~ kid_generate_gen (kcmp_by ptr) (Some x) el ;; rs <~ ids_of_all l ;; ret (r :: rs) end.

Definition same_object (a b : kid_elem) : Prop := genid a = genid b /\ ptr a = ptr b.

Lemma ids_of_all_at l : forall s, kid_ok s -> NoDup (map snd l) -> (forall x, x ∈ map snd l -> addr x /\ entries s !! x = None) -> next_subid s + Z.of_nat (length l) <= U32 ->
  exists rs s', ids_of_all l s = Done (rs, s') /\ kid_ok s' /\ length rs = length l /\ (forall b j, knows s b j -> knows s' b j) /\
    forall n el x, l !! n = Some (el, x) -> exists i new, rs !! n = Some (i, new) /\ knows s' el i /\
      (new = true <-> (forall j, ~ knows s el j) /\ forall n' el' x', (n' < n)%nat -> l !! n' = Some (el', x') -> ~ same_object el' el).
Proof.
  induction l as [|[el x] l IH]; intros s H Hnd Hx Hn; [by exists [], s|]. cbn [map] in Hnd. apply list.NoDup_cons in Hnd as [Hxl Hnd]. cbn [length map] in *. destruct (Hx x ltac:(left)) as [Ha Hfr].
  destruct (generate_call s el x H Hfr Ha ltac:(lia)) as (i & new & s1 & E1 & H1). destruct (IH s1 (cl_ok _ _ _ _ _ _ H1) Hnd) as (rs & s2 & E2 & H2 & Hlen & Hk2 & Hres).
  { intros y Hy. destruct (Hx y ltac:(by right)) as [Hay Hny]. split; [done|]. apply (cl_fresh _ _ _ _ _ _ H1); [by intros ->|done]. }
  { pose proof (cl_next _ _ _ _ _ _ H1). lia. }
  exists ((i, new) :: rs), s2. cbn [ids_of_all]. unfold bind. rewrite E1, E2. split; [done|]. split; [done|]. split; [cbn; lia|]. split; [intros b j Hb; apply Hk2, (cl_keeps _ _ _ _ _ _ H1), Hb|].
  intros [|n] el' x' Hl; cbn in Hl.
  - injection Hl as -> ->. exists i, new. split; [done|]. split; [apply Hk2, H1|]. rewrite (cl_new _ _ _ _ _ _ H1). split; [intros Hno; split; [done|lia]|by intros [? _]].
  - destruct (Hres n el' x' Hl) as (i' & new' & Hr & Hi' & Hnew). exists i', new'. split; [done|]. split; [done|]. rewrite Hnew. split.
    + intros [Hno Hprev]. split; [intros j Hj; apply (Hno j), (cl_keeps _ _ _ _ _ _ H1), Hj|]. intros [|n'] el'' x'' Hlt Hl''; cbn in Hl''; [|apply (Hprev n' el'' x''); [lia|done]].
      injection Hl'' as -> ->. intros [Eg Ep]. apply (Hno i). destruct (cl_id _ _ _ _ _ _ H1) as (y & ey & Hy & Gy & Py & Iy). exists y, ey. split_and!; congruence.
    + intros [Hno Hprev]. split; [|intros n' el'' x'' Hlt Hl''; apply (Hprev (S n') el'' x''); [lia|done]]. intros j Hj. apply (cl_only _ _ _ _ _ _ H1) in Hj as [Hj|[Eg Ep]]; [by apply (Hno j)|]. by apply (Hprev 0%nat el x ltac:(lia) eq_refl).
Qed.
End Objects.

(** C16: the ids tell the objects apart: when kcmp compares by an order of the kernel's objects, calls of kid_generate_gen for the elements of a
    list give two elements the same id exactly when they have the same number and the same object, an id is called new exactly for the
    first element of an object, no id is 0, and every call returns (as long as the counter of 32 bits does not run over). *)
Theorem ids_tell_objects_apart ptr l (Hnd : NoDup (map snd l)) (Ha : Forall (fun p => addr (snd p)) l) (Hn : Z.of_nat (length l) < U32) :
  exists rs s', ids_of_all ptr l DECLARE_KCMP_TREE = Done (rs, s') /\ length rs = length l /\
    (forall n el x i new, l !! n = Some (el, x) -> rs !! n = Some (i, new) -> 1 <= i < U32 /\ (new = true <-> forall n' el' x', (n' < n)%nat -> l !! n' = Some (el', x') -> ~ same_object ptr el' el)) /\
    (forall n n' el el' x x' i i' new new', l !! n = Some (el, x) -> l !! n' = Some (el', x') -> rs !! n = Some (i, new) -> rs !! n' = Some (i', new') -> i = i' <-> same_object ptr el el').
Proof.
  rewrite list.Forall_forall in Ha. assert (Hx : forall x, x ∈ map snd l -> addr x /\ entries DECLARE_KCMP_TREE !! x = None).
  { intros x Hx. apply list_elem_of_fmap in Hx as ([el y] & -> & Hy). split; [exact (Ha _ Hy)|done]. }
  destruct (ids_of_all_at ptr l DECLARE_KCMP_TREE (kid_ok_empty ptr) Hnd Hx) as (rs & s' & E & Hok & Hlen & _ & Hres); [cbn; lia|]. exists rs, s'. split_and!; [done|done|..].
  - intros n el x i new Hl Hr. destruct (Hres n el x Hl) as (i1 & new1 & Hr1 & Hi & Hnew). rewrite Hr in Hr1. injection Hr1 as <- <-. split.
    + destruct Hok as [mg Hinv]. destruct (knows_range ptr s' el i (ex_intro _ mg Hinv) Hi). pose proof (i_next _ _ _ Hinv). lia.
    + rewrite Hnew. split; [by intros [_ ?]|]. intros Hp. split; [|done]. intros j (y & ey & Hy & _). cbn in Hy. by rewrite lookup_empty in Hy.
  - intros n n' el el' x x' i i' new new' Hl Hl' Hr Hr'. destruct (Hres n el x Hl) as (i1 & new1 & Hr1 & Hi & _), (Hres n' el' x' Hl') as (i2 & new2 & Hr2 & Hi2 & _). simplify_eq. by apply (knows_once ptr s').
Qed.

(** descriptors 3 and 5 of task 1 have the same open file, and 3 of task 2 another one with the same number *)
Definition some_ptr (e : kid_elem) : Z := if (pid e =? 1) && (idx e =? 5) then 13 else pid e * 10 + idx e.
Definition some_elems : list (kid_elem * Z) := [(mk_elem 1 77 3, 16); (mk_elem 2 77 3, 32); (mk_elem 1 77 5, 48); (mk_elem 2 78 4, 64)].
Lemma ids_tell_objects_apart_witness : exists rs s', ids_of_all some_ptr some_elems DECLARE_KCMP_TREE = Done (rs, s') /\ length rs = length some_elems /\
    (forall n el x i new, some_elems !! n = Some (el, x) -> rs !! n = Some (i, new) -> 1 <= i < U32 /\ (new = true <-> forall n' el' x', (n' < n)%nat -> some_elems !! n' = Some (el', x') -> ~ same_object some_ptr el' el)) /\
    (forall n n' el el' x x' i i' new new', some_elems !! n = Some (el, x) -> some_elems !! n' = Some (el', x') -> rs !! n = Some (i, new) -> rs !! n' = Some (i', new') -> i = i' <-> same_object some_ptr el el').
Proof.
  apply (ids_tell_objects_apart some_ptr some_elems).
  - apply (bool_decide_unpack _). by vm_compute.
  - repeat constructor.
  - by vm_compute.
Defined.
Example some_ids : match ids_of_all some_ptr some_elems DECLARE_KCMP_TREE with Done (rs, _) => rs | _ => [] end = [(1, true); (2, true); (1, false); (3, true)].
Proof. by vm_compute. Qed.
End KcmpObjects.
