(* ===== verification/TaskIds.v ===== *)
(** * The ids of the tasks: dump_task_kobj_ids, get_task_ids and collect_pstree_ids of cr-dump.c

    Every task gets ids for its memory, its file system information, its table of descriptors and its signal handlers.  Only the table may be
    shared, and only with the parent: what the clone flags of a restore can say. *)
From S2P Require Import Prelude.
From S2P Require Import RbTree.
From S2P Require Import RbShape.
From S2P Require Import KcmpIds.
From S2P Require Import KcmpObjects.
From S2P Require Import Pstree.
From S2P Require Import PstreeIds.
Import RbShape.RbShape KcmpIds.KcmpIds KcmpObjects.KcmpObjects.
#[local] Open Scope cmon_scope.

Module TaskIds.

Inductive kind := KCMP_VM | KCMP_FS | KCMP_FILES | KCMP_SIGHAND.

(** vm_tree, fs_tree, files_tree and sighand_tree *)
Record trees := mk_trees { vm_tree : kid_tree; fs_tree : kid_tree; files_tree : kid_tree; sighand_tree : kid_tree }.
Definition trees_init : trees := mk_trees DECLARE_KCMP_TREE DECLARE_KCMP_TREE DECLARE_KCMP_TREE DECLARE_KCMP_TREE.
Definition tree_of (k : kind) (s : trees) : kid_tree := match k with KCMP_VM => vm_tree s | KCMP_FS => fs_tree s | KCMP_FILES => files_tree s | KCMP_SIGHAND => sighand_tree s end.
Definition set_tree (k : kind) (t : kid_tree) (s : trees) : trees :=
  match k with
  | KCMP_VM => mk_trees t (fs_tree s) (files_tree s) (sighand_tree s)
  | KCMP_FS => mk_trees (vm_tree s) t (files_tree s) (sighand_tree s)
  | KCMP_FILES => mk_trees (vm_tree s) (fs_tree s) t (sighand_tree s)
  | KCMP_SIGHAND => mk_trees (vm_tree s) (fs_tree s) (files_tree s) t
  end.

(** the part of TaskKobjIdsEntry that is found here *)
Record task_ids := mk_ids { vm_id : Z; fs_id : Z; files_id : Z; sighand_id : Z }.

(** a task of the tree: [a_vm] and the others are the addresses that an allocation for the task gives *)
Record dumped_task := mk_dumped { real : Z; dead : bool; parent : option Z; addr_of : kind -> option Z }.

Section Dump.
Variable kcmp : kind -> kid_elem -> kid_elem -> Z.

Definition generate (k : kind) (t : dumped_task) : M trees (Z * bool) := fun s =>
  match kid_generate_gen (kcmp k) (addr_of t k) (mk_elem (real t) 0 0) (tree_of k s) with
  | Done (r, kt) => Done (r, set_tree k kt s) | Bug => Bug | NoFuel => NoFuel
  end.

(** [ids] has the ids of the tasks that were visited *)
Definition shared_fdtable (ids : gmap Z task_ids) (t : dumped_task) (files : Z) : M trees bool :=
  match parent t with
  | None => ret false
  | Some p => match ids !! p with Some ip => ret (files =? files_id ip) | None => bug end
  end.

Definition dump_task_kobj_ids (ids : gmap Z task_ids) (t : dumped_task) : M trees (option task_ids) :=
  vm <~ generate KCMP_VM t ;;
  if (fst vm =? 0) || negb (snd vm) then ret None else
  fs <~ generate KCMP_FS t ;;
  if (fst fs =? 0) || negb (snd fs) then ret None else
  files <~ generate KCMP_FILES t ;;
  bad <~ (if fst files =? 0 then ret true else if snd files then ret false else b <~ shared_fdtable ids t (fst files) ;; ret (negb b)) ;;
  if (bad : bool) then ret None else
  sighand <~ generate KCMP_SIGHAND t ;;
  if (fst sighand =? 0) || negb (snd sighand) then ret None else ret (Some (mk_ids (fst vm) (fst fs) (fst files) (fst sighand))).

(** what dump_task_ns_ids returns for the task *)
Variable dump_task_ns_ids : Z -> bool.

Definition get_task_ids (ids : gmap Z task_ids) (t : dumped_task) : M trees (option task_ids) :=
  if dead t then ret (Some (mk_ids 0 0 0 0))
  else r <~ dump_task_kobj_ids ids t ;; ret (match r with Some i => if dump_task_ns_ids (real t) then Some i else None | None => None end).

(** the tasks in the order of for_each_pstree_item *)
Fixpoint collect_pstree_ids (ids : gmap Z task_ids) (l : list dumped_task) : M trees (option (gmap Z task_ids)) :=
  match l with
  | [] => ret (Some ids)
  | t :: l => r <~ get_task_ids ids t ;; match r with Some i => collect_pstree_ids (<[real t := i]> ids) l | None => ret None end
  end.
End Dump.

(** ** The objects of the tasks *)
Section Shared.
(** the object of a task, in the order by which kcmp compares *)
Variable ptr : kind -> Z -> Z.
Variable ns_ok : Z -> bool.

Definition order (k : kind) (e : kid_elem) : Z := ptr k (pid e).
Definition by_order (k : kind) : kid_elem -> kid_elem -> Z := kcmp_by (order k).
Definition el (t : dumped_task) : kid_elem := mk_elem (real t) 0 0.
Definition id_of (k : kind) (i : task_ids) : Z := match k with KCMP_VM => vm_id i | KCMP_FS => fs_id i | KCMP_FILES => files_id i | KCMP_SIGHAND => sighand_id i end.
Definition shares (k : kind) (t u : dumped_task) : Prop := ptr k (real t) = ptr k (real u).

(** none of the live tasks before has the object *)
Definition own (seen : list dumped_task) (k : kind) (t : dumped_task) : Prop := forall u, u ∈ seen -> dead u = false -> ~ shares k u t.
(** what can be dumped: own objects, but a table of descriptors can be that of the parent *)
Definition can_share (seen : list dumped_task) (t : dumped_task) : Prop :=
  dead t = true \/
  (own seen KCMP_VM t /\ own seen KCMP_FS t /\ own seen KCMP_SIGHAND t /\ ns_ok (real t) = true /\
   (own seen KCMP_FILES t \/ exists u, u ∈ seen /\ dead u = false /\ parent t = Some (real u) /\ shares KCMP_FILES u t)).
Fixpoint all_can_share (seen : list dumped_task) (l : list dumped_task) : Prop := match l with [] => True | t :: l => can_share seen t /\ all_can_share (t :: seen) l end.

(** the tasks that are still to come: parents before children, no pid twice, addresses that are fresh *)
Record to_come (seen : list dumped_task) (l : list dumped_task) : Prop := {
  tc_pids : NoDup (map real (l ++ seen));
  tc_parents : forall l1 t l2 p, l = l1 ++ t :: l2 -> parent t = Some p -> exists u, u ∈ l1 ++ seen /\ real u = p;
  tc_addrs : forall k, exists xs, map (fun t => addr_of t k) l = map Some xs /\ Forall addr xs /\ NoDup xs;
}.

Record collected (s : trees) (ids : gmap Z task_ids) (seen : list dumped_task) : Prop := {
  co_ok : forall k, kid_ok (order k) (tree_of k s);
  co_next : forall k, next_subid (tree_of k s) <= 1 + Z.of_nat (length seen);
  co_ids : forall t, t ∈ seen -> exists i, ids !! real t = Some i /\ if dead t then i = mk_ids 0 0 0 0 else forall k, knows (order k) (tree_of k s) (el t) (id_of k i);
  co_only : forall k b i, knows (order k) (tree_of k s) b i -> exists t, t ∈ seen /\ dead t = false /\ order k b = ptr k (real t);
}.
Definition fresh (s : trees) (l : list dumped_task) : Prop := forall t k x, t ∈ l -> addr_of t k = Some x -> entries (tree_of k s) !! x = None.

Lemma own_knows s ids seen k t : collected s ids seen -> own seen k t <-> forall j, ~ knows (order k) (tree_of k s) (el t) j.
Proof.
  intros H. split.
  - intros Hown j Hj. destruct (co_only _ _ _ H k _ j Hj) as (u & Hu & Hd & E). apply (Hown u Hu Hd). symmetry. exact E.
  - intros Hno u Hu Hd E. destruct (co_ids _ _ _ H u Hu) as (i & _ & Hi). rewrite Hd in Hi. destruct (Hi k) as (x & ex & Hx & Eg & Ep & _). apply (Hno (subid ex)). exists x, ex. split_and!; [done|done| |done]. rewrite Ep. exact E.
Qed.

Lemma generate_at s ids seen t k x : collected s ids seen -> addr_of t k = Some x -> addr x -> entries (tree_of k s) !! x = None -> 1 + Z.of_nat (length seen) < U32 ->
  exists i new kt, kid_generate_gen (by_order k) (addr_of t k) (el t) (tree_of k s) = Done (i, new, kt) /\ call (order k) (tree_of k s) (el t) x i new kt /\ i <> 0 /\ (new = true <-> own seen k t).
Proof.
  intros H Hx Ha Hf Hn. pose proof (co_next _ _ _ H k) as Hnk. destruct (generate_call (order k) (tree_of k s) (el t) x (co_ok _ _ _ H k) Hf Ha ltac:(lia)) as (i & new & kt & E & Hc). exists i, new, kt. rewrite Hx. split_and!; [exact E|exact Hc| |].
  - pose proof (knows_range _ _ _ _ (cl_ok _ _ _ _ _ _ _ Hc) (cl_id _ _ _ _ _ _ _ Hc)). lia.
  - rewrite (own_knows s ids seen k t H). apply Hc.
Qed.

(** the answer of shared_fdtable *)
Lemma shared_at s ids seen t i kt x new : collected s ids seen -> call (order KCMP_FILES) (files_tree s) (el t) x i new kt -> (forall p, parent t = Some p -> exists u, u ∈ seen /\ real u = p) -> NoDup (map real seen) ->
  forall st, exists b, shared_fdtable ids t i st = Done (b, st) /\ (b = true <-> exists u, u ∈ seen /\ dead u = false /\ parent t = Some (real u) /\ shares KCMP_FILES u t).
Proof.
  intros H Hc Hp Hnd st. unfold shared_fdtable. destruct (parent t) as [p|]; [|exists false; split; [done|]; by split; [|intros (u & _ & _ & ? & _)]]. destruct (Hp p eq_refl) as (u & Hu & <-). destruct (co_ids _ _ _ H u Hu) as (iu & Eu & Hiu). rewrite Eu.
  assert (Hu' : forall v, v ∈ seen -> Some (real u) = Some (real v) -> v = u).
  { intros v Hv [= E]. clear -Hu Hv E Hnd. induction seen as [|w l IH]; [by apply elem_of_nil in Hu|]. cbn in Hnd. apply list.NoDup_cons in Hnd as [Hw Hnd].
    apply elem_of_cons in Hu as [->|Hu], Hv as [->|Hv]; [done| | |by apply IH]; exfalso; apply Hw; apply list_elem_of_fmap; eexists; split; [|exact Hv| |exact Hu]; congruence. }
  exists (i =? files_id iu). split; [done|]. pose proof (knows_range _ _ _ _ (cl_ok _ _ _ _ _ _ _ Hc) (cl_id _ _ _ _ _ _ _ Hc)) as Hr. destruct (dead u) eqn:Hd.
  - subst iu. cbn. rewrite Z.eqb_eq. split; [lia|]. intros (v & Hv & Hdv & Ev & _). rewrite (Hu' v Hv Ev) in Hdv. congruence.
  - pose proof (knows_once _ _ _ _ _ _ (cl_ok _ _ _ _ _ _ _ Hc) (cl_id _ _ _ _ _ _ _ Hc) (cl_keeps _ _ _ _ _ _ _ Hc _ _ (Hiu KCMP_FILES))) as Ho. rewrite Z.eqb_eq. change (id_of KCMP_FILES iu) with (files_id iu) in Ho. rewrite Ho. split.
    + intros [_ E]. exists u. by split_and!.
    + intros (v & Hv & _ & Ev & E). rewrite (Hu' v Hv Ev) in E. by split.
Qed.

(** ** One task *)
Definition step_ok (s : trees) (t : dumped_task) (s' : trees) (i : task_ids) : Prop :=
  forall k, exists x new, addr_of t k = Some x /\ call (order k) (tree_of k s) (el t) x (id_of k i) new (tree_of k s').

Lemma dump_step s ids seen t : collected s ids seen -> (forall k, exists x, addr_of t k = Some x /\ addr x /\ entries (tree_of k s) !! x = None) -> 1 + Z.of_nat (length seen) < U32 ->
  (forall p, parent t = Some p -> exists u, u ∈ seen /\ real u = p) -> NoDup (map real seen) -> dead t = false ->
  exists r s', get_task_ids by_order ns_ok ids t s = Done (r, s') /\ match r with Some i => can_share seen t /\ step_ok s t s' i | None => ~ can_share seen t end.
Proof.
  intros H Ha Hn Hp Hnd Hd. assert (Hg : forall k, exists i new x kt, kid_generate_gen (by_order k) (addr_of t k) (el t) (tree_of k s) = Done (i, new, kt) /\ addr_of t k = Some x /\
      call (order k) (tree_of k s) (el t) x i new kt /\ (i =? 0) = false /\ (new = true <-> own seen k t)).
  { intros k. destruct (Ha k) as (x & Ex & Hax & Hf). destruct (generate_at s ids seen t k x H Ex Hax Hf Hn) as (i & new & kt & E & Hc & Hi & Hnew). exists i, new, x, kt. split_and!; [done..|by apply Z.eqb_neq|done]. }
  destruct (Hg KCMP_VM) as (i1 & n1 & x1 & k1 & E1 & X1 & C1 & I1 & N1), (Hg KCMP_FS) as (i2 & n2 & x2 & k2 & E2 & X2 & C2 & I2 & N2), (Hg KCMP_FILES) as (i3 & n3 & x3 & k3 & E3 & X3 & C3 & I3 & N3), (Hg KCMP_SIGHAND) as (i4 & n4 & x4 & k4 & E4 & X4 & C4 & I4 & N4).
  clear Hg. cbn [tree_of] in *. destruct (shared_at s ids seen t i3 k3 x3 n3 H C3 Hp Hnd (mk_trees k1 k2 k3 (sighand_tree s))) as (b & Eb & Hb).
  unfold get_task_ids. rewrite Hd. unfold bind at 1. unfold dump_task_kobj_ids. assert (Hcan : can_share seen t <-> n1 = true /\ n2 = true /\ n4 = true /\ ns_ok (real t) = true /\ (n3 = true \/ b = true)).
  { unfold can_share. rewrite N1, N2, N3, N4, Hb, Hd. split; [by intros [?|?]|by right]. }
  unfold bind at 1, generate at 1. cbn [tree_of]. fold (el t). rewrite E1. cbn [fst snd]. rewrite I1. destruct n1; cbn [negb orb]; [|eexists None, _; split; [done|]; rewrite Hcan; by intros [? _]].
  unfold bind at 1, generate at 1. cbn [tree_of set_tree vm_tree fs_tree files_tree sighand_tree]. fold (el t). rewrite E2. cbn [fst snd]. rewrite I2. destruct n2; cbn [negb orb]; [|eexists None, _; split; [done|]; rewrite Hcan; by intros (_ & ? & _)].
  unfold bind at 1, generate at 1. cbn [tree_of set_tree vm_tree fs_tree files_tree sighand_tree]. fold (el t). rewrite E3. cbn [fst snd]. rewrite I3.
  assert (Eb' : (if n3 then ret false else b <~ shared_fdtable ids t i3 ;; ret (negb b)) (mk_trees k1 k2 k3 (sighand_tree s)) = Done (negb (n3 || b), mk_trees k1 k2 k3 (sighand_tree s))) by (destruct n3; [done|unfold bind; by rewrite Eb]).
  unfold bind at 1. cbn [set_tree vm_tree fs_tree files_tree sighand_tree]. rewrite Eb'. destruct (n3 || b) eqn:Enb; cbn [negb].
  2: { eexists None, _. split; [done|]. rewrite Hcan. apply orb_false_iff in Enb as [-> ->]. intros (_ & _ & _ & _ & [?|?]); done. }
  unfold bind at 1, generate at 1. cbn [tree_of set_tree vm_tree fs_tree files_tree sighand_tree]. fold (el t). rewrite E4. cbn [fst snd]. rewrite I4. destruct n4; cbn [negb orb]; [|eexists None, _; split; [done|]; rewrite Hcan; by intros (_ & _ & ? & _)].
  unfold ret. cbn. destruct (ns_ok (real t)) eqn:Hns; [|eexists None, _; split; [done|]; rewrite Hcan; by intros (_ & _ & _ & ? & _)]. eexists (Some (mk_ids i1 i2 i3 i4)), _. split; [done|]. apply orb_true_iff in Enb. split; [apply Hcan; by split_and!|].
  intros []; cbn [tree_of id_of vm_id fs_id files_id sighand_id vm_tree fs_tree files_tree sighand_tree]; by eexists _, _.
Qed.

(** what is known after a task *)
Lemma collected_dead s ids seen t : collected s ids seen -> (real t ∉ map real seen) -> dead t = true -> collected s (<[real t := mk_ids 0 0 0 0]> ids) (t :: seen).
Proof.
  intros [H1 H2 H3 H4] Hn Hd. split; [done|intros k; specialize (H2 k); cbn [length]; lia| |].
  - intros u [->|Hu]%elem_of_cons; [eexists; split; [by rewrite lookup_insert, decide_True|by rewrite Hd]|]. rewrite lookup_insert_ne; [by apply H3|]. intros E. apply Hn, list_elem_of_fmap. by exists u.
  - intros k b i Hk. destruct (H4 k b i Hk) as (u & Hu & ?). exists u. split; [by right|done].
Qed.
Lemma collected_step s ids seen t s' i : collected s ids seen -> (real t ∉ map real seen) -> dead t = false -> step_ok s t s' i -> collected s' (<[real t := i]> ids) (t :: seen).
Proof.
  intros [H1 H2 H3 H4] Hn Hd Hs. split.
  - intros k. destruct (Hs k) as (x & new & _ & Hc). apply Hc.
  - intros k. destruct (Hs k) as (x & new & _ & Hc). pose proof (cl_next _ _ _ _ _ _ _ Hc). specialize (H2 k). cbn [length]. lia.
  - intros u [->|Hu]%elem_of_cons; [exists i; split; [by rewrite lookup_insert, decide_True|rewrite Hd; intros k; destruct (Hs k) as (x & new & _ & Hc); apply Hc]|].
    rewrite lookup_insert_ne; [|intros E; apply Hn, list_elem_of_fmap; by exists u]. destruct (H3 u Hu) as (j & Ej & Hj). exists j. split; [done|]. destruct (dead u); [done|]. intros k. destruct (Hs k) as (x & new & _ & Hc). by apply Hc.
  - intros k b j Hk. destruct (Hs k) as (x & new & _ & Hc). apply (cl_only _ _ _ _ _ _ _ Hc) in Hk as [Hk|[_ E]]; [destruct (H4 k b j Hk) as (u & Hu & ?); exists u; split; [by right|done]|].
    exists t. split_and!; [left|done|exact E].
Qed.

(** ** All tasks *)
Lemma to_come_step seen t l : to_come seen (t :: l) -> to_come (t :: seen) l /\ (real t ∉ map real seen) /\ (forall p, parent t = Some p -> exists u, u ∈ seen /\ real u = p) /\ NoDup (map real seen) /\
  forall k, exists x, addr_of t k = Some x /\ addr x /\ forall u y, u ∈ l -> addr_of u k = Some y -> y <> x.
Proof.
  intros [H1 H2 H3]. cbn [app map] in H1. pose proof H1 as H1'. apply list.NoDup_cons in H1' as [Hn Hnd]. rewrite map_app, elem_of_app in Hn. split_and!.
  - split.
    + assert (Hp : map real (l ++ t :: seen) ≡ₚ map real (t :: l ++ seen)) by (apply Permutation_map; symmetry; apply Permutation_middle). by rewrite Hp.
    + intros l1 u l2 p -> Hp. destruct (H2 (t :: l1) u l2 p eq_refl Hp) as (v & Hv & E). exists v. split; [|done]. rewrite elem_of_app, elem_of_cons. cbn in Hv. rewrite elem_of_cons, elem_of_app in Hv. tauto.
    + intros k. destruct (H3 k) as ([|x xs] & E & Ha & Hd); [done|]. cbn in E. injection E as Ex E. exists xs. split_and!; [done|by apply list.Forall_cons in Ha as [_ ?]|by apply list.NoDup_cons in Hd as [_ ?]].
  - tauto.
  - intros p Hp. destruct (H2 [] t l p eq_refl Hp) as (u & Hu & E). by exists u.
  - rewrite map_app in Hnd. by apply list.NoDup_app in Hnd as (_ & _ & ?).
  - intros k. destruct (H3 k) as ([|x xs] & E & Ha & Hd); [done|]. cbn in E. injection E as Ex E. exists x. apply list.Forall_cons in Ha as [Hax _]. split_and!; [done|done|]. intros u y Hu Hy ->. apply list.NoDup_cons in Hd as [Hx _]. apply Hx.
    assert (Hin : Some x ∈ map (fun t => addr_of t k) l) by (apply list_elem_of_fmap; by exists u). rewrite E in Hin. apply list_elem_of_fmap in Hin as (z & [= ->] & ?). done.
Qed.

Theorem collect_at l : forall s ids seen, collected s ids seen -> to_come seen l -> fresh s l -> 1 + Z.of_nat (length l + length seen) <= U32 ->
  match collect_pstree_ids by_order ns_ok ids l s with
  | Done (Some ids', s') => all_can_share seen l /\ collected s' ids' (rev l ++ seen)
  | Done (None, _) => ~ all_can_share seen l
  | _ => False
  end.
Proof.
  induction l as [|t l IH]; intros s ids seen H Htc Hf Hn; [by cbn|]. destruct (to_come_step seen t l Htc) as (Htc' & Hnew & Hpar & Hnd & Haddr). cbn [length] in Hn. cbn [collect_pstree_ids all_can_share rev]. rewrite <-app_assoc. cbn [app]. destruct (dead t) eqn:Hd.
  - unfold bind, get_task_ids. rewrite Hd. unfold ret. specialize (IH s (<[real t := mk_ids 0 0 0 0]> ids) (t :: seen) (collected_dead s ids seen t H Hnew Hd) Htc'). assert (Hc : can_share seen t) by by left.
    assert (IH' := IH ltac:(intros u k x Hu; apply Hf; by right) ltac:(cbn [length]; lia)). destruct (collect_pstree_ids _ _ _ _ _) as [[[ids'|] s']| |]; [by destruct IH'|by intros [_ ?]|done..].
  - destruct (dump_step s ids seen t H) as (r & s' & E & Hr); [|lia|done..|].
    { intros k. destruct (Haddr k) as (x & Ex & Hax & _). exists x. split_and!; [done..|]. apply (Hf t k x); [left|done]. }
    unfold bind. rewrite E. destruct r as [i|]; [|by intros [? _]]. destruct Hr as [Hcan Hstep]. specialize (IH s' (<[real t := i]> ids) (t :: seen) (collected_step s ids seen t s' i H Hnew Hd Hstep) Htc').
    assert (IH' := IH ltac:(intros u k x Hu Hx; destruct (Hstep k) as (y & new & Ey & Hc); destruct (Haddr k) as (z & Ez & _ & Hz); apply (cl_fresh _ _ _ _ _ _ _ Hc); [specialize (Hz u x Hu Hx); congruence|apply (Hf u k x); [by right|done]]) ltac:(cbn [length]; lia)).
    destruct (collect_pstree_ids _ _ _ _ _) as [[[ids'|] s'']| |]; [by destruct IH'|by intros [_ ?]|done..].
Qed.
End Shared.

Lemma init_collected ptr : collected ptr trees_init ∅ [].
Proof.
  split.
  - intros []; apply kid_ok_empty.
  - by intros [].
  - intros t Ht. by apply elem_of_nil in Ht.
  - intros k b i (x & ex & Hx & _). destruct k; cbn in Hx; by rewrite lookup_empty in Hx.
Qed.

(** the bit of CLONE_FILES *)
Lemma clone_files_bit i p : Z.testbit (PstreeIds.PstreeIds.get_clone_mask i p) 10 = (Pstree.Pstree.files_id i =? Pstree.Pstree.files_id p).
Proof.
  unfold PstreeIds.PstreeIds.get_clone_mask. rewrite !Z.lor_spec. assert (H : forall (b : bool) f, Z.testbit f 10 = false -> Z.testbit (if b then f else 0) 10 = false) by by intros [].
  rewrite (H _ PstreeIds.PstreeIds.CLONE_NEWPID), (H _ PstreeIds.PstreeIds.CLONE_NEWNET), (H _ PstreeIds.PstreeIds.CLONE_NEWIPC), (H _ PstreeIds.PstreeIds.CLONE_NEWUTS), (H _ PstreeIds.PstreeIds.CLONE_NEWTIME), (H _ PstreeIds.PstreeIds.CLONE_NEWNS), (H _ PstreeIds.PstreeIds.CLONE_NEWUSER) by done. rewrite !orb_false_r. by destruct (_ =? _).
Qed.

(** C15: collecting the ids of all tasks, in an order with parents first, always returns; it succeeds exactly when no two live tasks share their memory, their
    file system information or their signal handlers, when a table of descriptors that was seen before is that of the parent, and the ids of the namespaces are found;
    then two live tasks have the same id for their tables exactly when they share the table, so that a restore clones a task with CLONE_FILES from another one
    exactly when they share it, and all other ids are different. *)
Theorem collected_ids_tell_what_is_shared ptr ns_ok l (Hl : to_come [] l) (Hn : Z.of_nat (length l) < U32) :
  match collect_pstree_ids (by_order ptr) ns_ok ∅ l trees_init with
  | Done (Some ids, _) => all_can_share ptr ns_ok [] l /\
      (forall t, t ∈ l -> dead t = true -> ids !! real t = Some (mk_ids 0 0 0 0)) /\
      forall t u, t ∈ l -> u ∈ l -> dead t = false -> dead u = false -> exists i j, ids !! real t = Some i /\ ids !! real u = Some j /\
        (forall k, 1 <= id_of k i < U32 /\ (id_of k i = id_of k j <-> shares ptr k t u)) /\
        (forall kt ku, Pstree.Pstree.files_id kt = files_id i -> Pstree.Pstree.files_id ku = files_id j ->
          Z.testbit (PstreeIds.PstreeIds.get_clone_mask kt ku) 10 = true <-> shares ptr KCMP_FILES t u)
  | Done (None, _) => ~ all_can_share ptr ns_ok [] l
  | _ => False
  end.
Proof.
  assert (Hf : fresh trees_init l) by (intros t [] x _ _; apply lookup_empty). pose proof (collect_at ptr ns_ok l trees_init ∅ [] (init_collected ptr) Hl Hf ltac:(cbn [length]; lia)) as H. destruct (collect_pstree_ids _ _ _ _ _) as [[[ids|] s']| |]; try done.
  destruct H as [Hc H]. rewrite app_nil_r in H. assert (Hin : forall t, t ∈ l -> t ∈ rev l) by (intros t Ht; apply list_elem_of_In, in_rev; rewrite rev_involutive; by apply list_elem_of_In). split; [done|]. split.
  { intros t Ht Hd. destruct (co_ids _ _ _ _ H t (Hin t Ht)) as (i & Ei & Hi). rewrite Hd in Hi. by subst i. }
  intros t u Ht Hu Hdt Hdu. destruct (co_ids _ _ _ _ H t (Hin t Ht)) as (i & Ei & Hi), (co_ids _ _ _ _ H u (Hin u Hu)) as (j & Ej & Hj). rewrite Hdt in Hi. rewrite Hdu in Hj.
  assert (Ho : forall k, id_of k i = id_of k j <-> shares ptr k t u) by (intros k; rewrite (knows_once _ _ _ _ _ _ (co_ok _ _ _ _ H k) (Hi k) (Hj k)); split; [by intros [_ ?]|by split]).
  exists i, j. split; [done|]. split; [done|]. split.
  - intros k. split; [|apply Ho]. pose proof (knows_range _ _ _ _ (co_ok _ _ _ _ H k) (Hi k)). pose proof (co_next _ _ _ _ H k) as Hnk. rewrite length_rev in Hnk. lia.
  - intros kt ku Et Eu. rewrite clone_files_bit, Et, Eu, Z.eqb_eq. apply (Ho KCMP_FILES).
Qed.

(** task 12 shares the table of its parent 10, task 13 is a zombie, task 14 has its own *)
Definition some_objects (k : kind) (p : Z) : Z := match k with KCMP_FILES => if p =? 12 then 100 else p * 10 | KCMP_VM => - p | _ => p end.
Definition some_task (p : Z) (d : bool) (par : option Z) : dumped_task := mk_dumped p d par (fun _ => Some (p * 16)).
Definition some_tasks : list dumped_task := [some_task 10 false None; some_task 12 false (Some 10); some_task 13 true (Some 12); some_task 14 false (Some 10)].
Lemma some_tasks_to_come : to_come [] some_tasks.
Proof.
  split.
  - apply (bool_decide_unpack _). by vm_compute.
  - unfold some_tasks. intros l1 t l2 p E Hp. rewrite app_nil_r. destruct l1 as [|a [|b [|c [|d l1]]]]; cbn in E; simplify_eq; cbn in Hp; simplify_eq; [exists (some_task 10 false None)|exists (some_task 12 false (Some 10))|exists (some_task 10 false None)|]; try (split; [set_solver|done]).
    exfalso. by destruct l1.
  - intros k. exists [160; 192; 208; 224]. split_and!; [done|repeat constructor|apply (bool_decide_unpack _); by vm_compute].
Qed.
Lemma collected_ids_tell_what_is_shared_witness :
  match collect_pstree_ids (by_order some_objects) (fun _ => true) ∅ some_tasks trees_init with
  | Done (Some ids, _) => all_can_share some_objects (fun _ => true) [] some_tasks /\
      (forall t, t ∈ some_tasks -> dead t = true -> ids !! real t = Some (mk_ids 0 0 0 0)) /\
      forall t u, t ∈ some_tasks -> u ∈ some_tasks -> dead t = false -> dead u = false -> exists i j, ids !! real t = Some i /\ ids !! real u = Some j /\
        (forall k, 1 <= id_of k i < U32 /\ (id_of k i = id_of k j <-> shares some_objects k t u)) /\
        (forall kt ku, Pstree.Pstree.files_id kt = files_id i -> Pstree.Pstree.files_id ku = files_id j ->
          Z.testbit (PstreeIds.PstreeIds.get_clone_mask kt ku) 10 = true <-> shares some_objects KCMP_FILES t u)
  | Done (None, _) => ~ all_can_share some_objects (fun _ => true) [] some_tasks
  | _ => False
  end.
Proof. apply (collected_ids_tell_what_is_shared some_objects (fun _ => true) some_tasks some_tasks_to_come). by vm_compute. Defined.
Example some_task_ids : match collect_pstree_ids (by_order some_objects) (fun _ => true) ∅ some_tasks trees_init with Done (Some ids, _) => map (fun t => match ids !! real t with Some i => (real t, vm_id i, files_id i) | None => (0, 0, 0) end) some_tasks | _ => [] end =
  [(10, 1, 1); (12, 2, 1); (13, 0, 0); (14, 3, 2)].
Proof. by vm_compute. Qed.
End TaskIds.
