(* ===== verification/FileIds.v ===== *)
(** * Ids of open files: file-ids.c

    The descriptors of all tasks get the ids of their open files from kcmp, and files that are no descriptors of a task, such as its
    executable, get one from the same counter.  A cache from inodes to ids lets such a file share the image of an open one. *)
From S2P Require Import Prelude.
From S2P Require Import RbShape.
From S2P Require Import KcmpIds.
From S2P Require Import KcmpObjects.
Import RbShape.RbShape KcmpIds.KcmpIds KcmpObjects.KcmpObjects.
#[local] Open Scope cmon_scope.

Module FileIds.

(** what is looked at of struct fd_parms: the device and inode of [stat], and the mount *)
Record fd_parms := mk_parms { st_dev : Z; st_ino : Z; mnt_id : Z }.
Record fd_id := mk_fd_id { fi_mnt_id : Z; fi_dev : Z; fi_ino : Z; fi_id : Z }.

(** fd_tree and fd_id_cache *)
Record fd_ids := mk_fds { fd_tree : kid_tree; fd_id_cache : gmap Z (list fd_id) }.
Definition fds_init : fd_ids := mk_fds DECLARE_KCMP_TREE ∅.

Definition FDID_MASK : Z := 31.
Definition fdid_hashfn (s_dev i_ino : Z) : Z := Z.land (s_dev mod U32 + i_ino) FDID_MASK.

Definition bucket (c : gmap Z (list fd_id)) (h : Z) : list fd_id := match c !! h with Some l => l | None => [] end.

(** [ok] is false when the allocation fails: the file is not cached *)
Definition fd_id_cache_one (ok : bool) (id : Z) (p : fd_parms) (c : gmap Z (list fd_id)) : gmap Z (list fd_id) :=
  if ok then let hv := fdid_hashfn (st_dev p) (st_ino p) in <[hv := mk_fd_id (mnt_id p) (st_dev p mod U32) (st_ino p) id :: bucket c hv]> c else c.

Fixpoint cache_loop (l : list fd_id) (p : fd_parms) : option fd_id :=
  match l with
  | [] => None
  | fi :: l => if (fi_dev fi =? st_dev p) && (fi_ino fi =? st_ino p) && (fi_mnt_id fi =? mnt_id p) then Some fi else cache_loop l p
  end.
Definition fd_id_cache_lookup (c : gmap Z (list fd_id)) (p : fd_parms) : option fd_id := cache_loop (bucket c (fdid_hashfn (st_dev p) (st_ino p))) p.

(** the id, and whether it is new *)
Definition fd_id_generate_special (ok : bool) (p : option fd_parms) : M fd_ids (Z * Z) := fun s =>
  match (match p with Some p => fd_id_cache_lookup (fd_id_cache s) p | None => None end) with
  | Some fi => Done ((fi_id fi, 0), s)
  | None =>
      let t := fd_tree s in
      let id := next_subid t mod U32 in
      Done ((id, 1), mk_fds (mk_kt (KcmpIds.root t) ((next_subid t + 1) mod U64) (entries t)) (match p with Some p => fd_id_cache_one ok id p (fd_id_cache s) | None => fd_id_cache s end))
  end.

Definition make_gen_id (st_dev st_ino pos : Z) : Z :=
  let pos_hi := (Z.shiftr pos 32) mod U32 in
  let pos_low := Z.land pos 0xffffffff in
  Z.lxor (Z.lxor (Z.lxor (st_dev mod U32) (st_ino mod U32)) pos_hi) pos_low.

Definition ENOMEM : Z := 12.
Definition fd_id_generate (kcmp : kid_elem -> kid_elem -> Z) (alloc : option Z) (ok : bool) (e : kid_elem) (p : fd_parms) : M fd_ids (Z * Z) := fun s =>
  match kid_generate_gen kcmp alloc e (fd_tree s) with
  | Done ((id, new_id), t) =>
      if id =? 0 then Done ((id, - ENOMEM), mk_fds t (fd_id_cache s))
      else Done ((id, if new_id : bool then 1 else 0), mk_fds t (if new_id : bool then fd_id_cache_one ok id p (fd_id_cache s) else fd_id_cache s))
  | Bug => Bug
  | NoFuel => NoFuel
  end.

(** ** Every id is handed out as new once *)
(** the calls that a dump makes *)
Inductive request := Special (ok : bool) (p : option fd_parms) | Generate (e : kid_elem) (x : Z) (ok : bool) (p : fd_parms).

Section Run.
Variable ptr : kid_elem -> Z.

Definition serve (r : request) : M fd_ids (Z * Z) :=
  match r with Special ok p => fd_id_generate_special ok p | Generate e x ok p => fd_id_generate (kcmp_by ptr) (Some x) ok e p end.
Fixpoint serve_all (l : list request) : M fd_ids (list (Z * Z)) :=
  match l with [] => ret [] | r :: l => a <~ serve r ;; rs <~ serve_all l ;; ret (a :: rs) end.

(** the ids that were handed out as new *)
Definition issued (rs : list (Z * Z)) : list Z := map fst (filter (fun a => a.2 = 1) rs).
Definition addr_of (r : request) : option Z := match r with Special _ _ => None | Generate _ x _ _ => Some x end.

Record ids_ok (s : fd_ids) (out : list Z) : Prop := {
  io_tree : kid_ok ptr (fd_tree s);
  io_cache : forall h fi, fi ∈ bucket (fd_id_cache s) h -> fi_id fi ∈ out;
  io_known : forall e i, knows ptr (fd_tree s) e i -> i ∈ out;
  io_out : forall i, i ∈ out -> 1 <= i < next_subid (fd_tree s);
}.

Lemma cache_loop_in l p fi : cache_loop l p = Some fi -> fi ∈ l /\ fi_dev fi = st_dev p /\ fi_ino fi = st_ino p /\ fi_mnt_id fi = mnt_id p.
Proof.
  induction l as [|a l IH]; [done|]. cbn. destruct (_ && _) eqn:E; [|intros H; destruct (IH H); split; [by right|done]]. intros [= <-]. apply andb_true_iff in E as [E E3]. apply andb_true_iff in E as [E1 E2].
  apply Z.eqb_eq in E1, E2, E3. split; [left|done].
Qed.
Lemma cached_ids ok id p c h fi : fi ∈ bucket (fd_id_cache_one ok id p c) h -> fi_id fi = id \/ fi ∈ bucket c h.
Proof.
  unfold fd_id_cache_one. destruct ok; [|by right]. unfold bucket at 1. destruct (decide (fdid_hashfn (st_dev p) (st_ino p) = h)) as [<-|Hne]; [|rewrite lookup_insert_ne by done; by right].
  rewrite lookup_insert, decide_True by done. intros [->|H]%elem_of_cons; [by left|by right].
Qed.

(** the counter goes on without an entry *)
Lemma skip_id t : kid_ok ptr t -> next_subid t < U32 -> kid_ok ptr (mk_kt (KcmpIds.root t) (next_subid t + 1) (entries t)).
Proof. intros [mg [H1 H2 H3 H4 H5 H6]] Hn. exists mg. split; cbn; [done..| |lia]. intros x ex Hx. specialize (H5 x ex Hx). lia. Qed.

Lemma serve_at r s out : ids_ok s out -> next_subid (fd_tree s) < U32 -> (forall x, addr_of r = Some x -> addr x /\ entries (fd_tree s) !! x = None) ->
  exists i n s', serve r s = Done ((i, n), s') /\ ids_ok s' (if n =? 1 then i :: out else out) /\ ((n = 1 /\ i ∉ out) \/ (n = 0 /\ i ∈ out)) /\ next_subid (fd_tree s') <= next_subid (fd_tree s) + 1 /\
    (forall y, addr_of r <> Some y -> entries (fd_tree s) !! y = None -> entries (fd_tree s') !! y = None).
Proof.
  intros H Hn Hx. pose proof (io_tree _ _ H) as [mg Hinv]. pose proof (i_next _ _ _ Hinv) as Hnx. assert (HU : U32 < U64) by by vm_compute. destruct r as [ok p|e x ok p]; cbn [serve].
  - unfold fd_id_generate_special. destruct (match p with Some p => _ | None => None end) as [fi|] eqn:E.
    + destruct p as [p|]; [|done]. apply cache_loop_in in E as (Hfi & _). exists (fi_id fi), 0, s. split; [done|]. split; [done|]. split; [right; split; [done|by eapply io_cache]|]. split; [lia|done].
    + cbv zeta. rewrite (Z.mod_small (next_subid (fd_tree s))), (Z.mod_small (next_subid (fd_tree s) + 1)) by lia. eexists _, 1, _. split; [done|]. cbn [Z.eqb Pos.eqb fd_tree fd_id_cache next_subid entries]. split; [|split; [left; split; [done|]|split; [lia|done]]].
      * split; cbn [fd_tree fd_id_cache].
        -- by apply skip_id; [apply H|].
        -- intros h fi Hfi. rewrite elem_of_cons. destruct p as [p|]; [apply cached_ids in Hfi as [?|Hfi]; [by left|right; by eapply io_cache]|right; by eapply io_cache].
        -- intros e i Hi. right. apply (io_known _ _ H e i). exact Hi.
        -- intros i [->|Hi]%elem_of_cons; cbn; [lia|]. pose proof (io_out _ _ H i Hi). lia.
      * intros Hi. pose proof (io_out _ _ H _ Hi). lia.
  - destruct (Hx x eq_refl) as [Ha Hf]. destruct (generate_call ptr (fd_tree s) e x (io_tree _ _ H) Hf Ha Hn) as (i & new & t & E & Hc). unfold fd_id_generate. rewrite E. pose proof (knows_range _ _ _ _ (cl_ok _ _ _ _ _ _ _ Hc) (cl_id _ _ _ _ _ _ _ Hc)) as Hr.
    assert ((i =? 0) = false) as -> by (apply Z.eqb_neq; lia). assert (Hfresh : forall y, Some x <> Some y -> entries (fd_tree s) !! y = None -> entries t !! y = None) by (intros y Hy; apply (cl_fresh _ _ _ _ _ _ _ Hc); congruence).
    destruct new.
    + assert (Hno : forall j, ~ knows ptr (fd_tree s) e j) by by apply (cl_new _ _ _ _ _ _ _ Hc). destruct (new_id ptr (fd_tree s) e x (io_tree _ _ H) Hno Hf Ha Hn) as (t' & E' & Hok & Hg & Hnext).
      rewrite E in E'. injection E' as Ei Et. subst i t'. pose proof (grown_learned ptr (fd_tree s) t x e Hg) as Hl. eexists _, 1, _. split; [done|]. cbn [Z.eqb Pos.eqb fd_tree fd_id_cache]. split; [|split; [left; split; [done|]|split; [lia|exact Hfresh]]].
      * split; cbn [fd_tree fd_id_cache].
        -- done.
        -- intros h fi Hfi. rewrite elem_of_cons. apply cached_ids in Hfi as [?|Hfi]; [by left|right; by eapply io_cache].
        -- intros b j Hj. apply Hl in Hj as [Hj|(_ & _ & ->)]; [right; by eapply io_known|left].
        -- intros j [->|Hj]%elem_of_cons; [lia|]. pose proof (io_out _ _ H j Hj). lia.
      * intros Hi. pose proof (io_out _ _ H _ Hi). lia.
    + destruct (knows_dec ptr (fd_tree s) e (io_tree _ _ H)) as [[j Hj]|Hno]; [|apply (cl_new _ _ _ _ _ _ _ Hc) in Hno; done]. rewrite (known_id ptr (fd_tree s) e j (Some x) (io_tree _ _ H) Hj) in E. injection E as <- <-.
      exists j, 0, s. split; [by destruct s|]. split; [done|]. split; [right; split; [done|by eapply (io_known _ _ H)]|]. split; [lia|done].
Qed.

Lemma issued_cons i n rs : issued ((i, n) :: rs) = if n =? 1 then i :: issued rs else issued rs.
Proof. unfold issued. rewrite filter_cons. cbn. destruct (Z.eqb_spec n 1) as [->|Hn]; [by rewrite decide_True|by rewrite decide_False]. Qed.

Lemma serve_all_at l : forall s out, ids_ok s out -> next_subid (fd_tree s) + Z.of_nat (length l) <= U32 -> NoDup (omap addr_of l) -> (forall x, x ∈ omap addr_of l -> addr x /\ entries (fd_tree s) !! x = None) ->
  exists rs s', serve_all l s = Done (rs, s') /\ length rs = length l /\ NoDup (issued rs) /\ (forall i, i ∈ issued rs -> i ∉ out) /\
    forall n i f, rs !! n = Some (i, f) -> 1 <= i < U32 /\ (f = 1 \/ (f = 0 /\ (i ∈ out \/ exists n', (n' < n)%nat /\ rs !! n' = Some (i, 1)))).
Proof.
  induction l as [|r l IH]; intros s out H Hn Hnd Hx.
  { exists [], s. split; [done|]. split; [done|]. split; [constructor|]. split; [intros i Hi; by apply elem_of_nil in Hi|done]. }
  cbn [length omap list_omap] in Hn, Hnd, Hx. destruct (serve_at r s out H ltac:(lia)) as (i & n & s1 & E1 & H1 & Hin & Hn1 & Hf1).
  { intros x Hr. apply Hx. rewrite Hr. left. }
  assert (Hnd' : NoDup (omap addr_of l)) by (destruct (addr_of r); [by apply list.NoDup_cons in Hnd as [_ ?]|done]).
  destruct (IH s1 _ H1 ltac:(lia) Hnd') as (rs & s2 & E2 & Hlen & Hdis & Hnew & Hres).
  { intros y Hy. destruct (addr_of r) as [x|] eqn:Er.
    - destruct (Hx y ltac:(by right)) as [Ha Hno]. split; [done|]. apply Hf1; [|done]. intros [= ->]. by apply list.NoDup_cons in Hnd as [? _].
    - destruct (Hx y Hy) as [Ha Hno]. split; [done|]. by apply Hf1. }
  exists ((i, n) :: rs), s2. cbn [serve_all]. unfold bind. rewrite E1, E2. split; [done|]. split; [cbn; lia|]. rewrite issued_cons. assert (Hi : 1 <= i < U32).
  { destruct Hin as [[-> Hi]|[-> Hi]]; cbn in H1; [pose proof (io_out _ _ H1 i ltac:(left))|pose proof (io_out _ _ H1 i Hi)]; lia. }
  destruct Hin as [[-> Hio]|[-> Hio]]; cbn [Z.eqb Pos.eqb] in *.
  - split; [apply list.NoDup_cons; split; [intros Hi2; apply (Hnew i Hi2); left|done]|]. split; [intros j [->|Hj]%elem_of_cons; [done|]; intros Hjo; apply (Hnew j Hj); by right|].
    intros [|m] j f Hm; cbn in Hm; [injection Hm as <- <-; split; [done|by left]|]. destruct (Hres m j f Hm) as [Hj [->|[-> [[->|Ho]%elem_of_cons|(n' & Hlt & Hn')]]]]; (split; [done|]); [by left|right; split; [done|]; right; exists 0%nat; split; [lia|done]| |].
    + right. split; [done|by left].
    + right. split; [done|]. right. exists (S n'). split; [lia|done].
  - split; [done|]. split; [done|]. intros [|m] j f Hm; cbn in Hm; [injection Hm as <- <-; split; [done|right; split; [done|by left]]|]. destruct (Hres m j f Hm) as [Hj [->|[-> [Ho|(n' & Hlt & Hn')]]]]; (split; [done|]); [by left|right; split; [done|by left]|].
    right. split; [done|]. right. exists (S n'). split; [lia|done].
Qed.

Lemma fds_init_ok : ids_ok fds_init [].
Proof.
  split; cbn.
  - apply kid_ok_empty.
  - intros h fi Hfi. unfold bucket in Hfi. rewrite lookup_empty in Hfi. by apply elem_of_nil in Hfi.
  - intros e i (x & ex & Hx & _). cbn in Hx. by rewrite lookup_empty in Hx.
  - intros i Hi. by apply elem_of_nil in Hi.
Qed.
End Run.

(** C17: the ids of open files and of files that are no descriptors come from one counter and do not clash: over any sequence of calls of fd_id_generate and
    fd_id_generate_special, every call returns an id that is not 0, no id is called new twice, and an id that is not called new was called new by an earlier
    call, so that every file is written to the images once and before it is used (as long as the counter of 32 bits does not run over). *)
Theorem every_id_is_new_once ptr l (Hn : Z.of_nat (length l) < U32) (Hnd : NoDup (omap addr_of l)) (Ha : Forall addr (omap addr_of l)) :
  exists rs s', serve_all ptr l fds_init = Done (rs, s') /\ length rs = length l /\ NoDup (issued rs) /\
    forall n i f, rs !! n = Some (i, f) -> 1 <= i < U32 /\ (f = 1 \/ (f = 0 /\ exists n', (n' < n)%nat /\ rs !! n' = Some (i, 1))).
Proof.
  rewrite list.Forall_forall in Ha. destruct (serve_all_at ptr l fds_init [] (fds_init_ok ptr)) as (rs & s' & E & Hlen & Hdis & _ & Hres); [cbn [fds_init fd_tree next_subid DECLARE_KCMP_TREE]; lia|done|intros x Hx; split; [by apply Ha|apply lookup_empty]|].
  exists rs, s'. split; [done|]. split; [done|]. split; [done|]. intros n i f Hr. destruct (Hres n i f Hr) as [Hi [->|[-> [Ho|Hp]]]]; (split; [done|]); [by left|by apply elem_of_nil in Ho|by right].
Qed.

(** a descriptor, its inode again as an executable, another executable twice and a file without an inode *)
Definition some_requests : list request :=
  [Generate (mk_elem 1 77 3) 16 true (mk_parms 8 77 20); Special true (Some (mk_parms 8 77 20)); Special true (Some (mk_parms 8 78 20)); Special true (Some (mk_parms 8 78 20)); Special true None; Generate (mk_elem 2 77 3) 32 true (mk_parms 8 77 20)].
Lemma every_id_is_new_once_witness : exists rs s', serve_all some_ptr some_requests fds_init = Done (rs, s') /\ length rs = length some_requests /\ NoDup (issued rs) /\
    forall n i f, rs !! n = Some (i, f) -> 1 <= i < U32 /\ (f = 1 \/ (f = 0 /\ exists n', (n' < n)%nat /\ rs !! n' = Some (i, 1))).
Proof.
  apply (every_id_is_new_once some_ptr some_requests).
  - by vm_compute.
  - apply (bool_decide_unpack _). by vm_compute.
  - repeat constructor.
Defined.
Example some_file_ids : match serve_all some_ptr some_requests fds_init with Done (rs, _) => rs | _ => [] end = [(1, 1); (1, 0); (2, 1); (2, 0); (3, 1); (4, 1)].
Proof. by vm_compute. Qed.
(** the counter of fd_id_generate_special runs over without being noticed: kid_generate_gen stops, this call gives the id 0 *)
Example special_wraps : match fd_id_generate_special true None (mk_fds (mk_kt (KcmpIds.root (fd_tree fds_init)) U32 ∅) ∅) with Done (r, _) => r | _ => (1, 0) end = (0, 1).
Proof. by vm_compute. Qed.
End FileIds.
