(* ===== verification/Seccomp.v ===== *)
(** * Seccomp filters: seccomp.c, and restore_seccomp_filter of pie/restorer.c

    Every thread has a mode and, when it filters, a chain of filters.  A dump fetches the chains, keeps one for all threads of a task that
    have the same one, and writes them to one image where every filter says which one is next in its chain.  A restore follows the chains
    and installs the filters.  The chain of an entry is a list from its head; memory is there when it is asked for, except where
    a parameter says otherwise. *)
From S2P Require Import Prelude.
From S2P Require Import RbTree.
From S2P Require Import RbMap.
Import RbTree.RbTree RbMap.RbMap.
#[local] Open Scope cmon_scope.

Module Seccomp.

Definition SECCOMP_MODE_DISABLED : Z := 0.
Definition SECCOMP_MODE_STRICT : Z := 1.
Definition SECCOMP_MODE_FILTER : Z := 2.
Definition SECCOMP_FILTER_FLAG_TSYNC : Z := 1.
Definition SOCK_FILTER : Z := 8.

(** SeccompFilter: the bytes of the program, the flags, and [prev] when it has one *)
Record sfilter := mk_sf { sf_data : list Z; sf_flags : Z; sf_prev : option Z }.

Record seccomp_entry := mk_se { tid_real : Z; img_filter_pos : Z; se_mode : Z; chain : list sfilter; nr_chains : Z }.

(** seccomp_tid_rb_root, the entries by their addresses, and the list from seccomp_tid_entry_root *)
Record sc := mk_sc { tid_tree : rbs; entries : gmap Z seccomp_entry; entry_root : list Z }.
Definition sc_init : sc := mk_sc (mk_rbs ∅ 0) ∅ [].

Definition on_tree {A} (m : M rbs A) : M sc A := fun s =>
  match m (tid_tree s) with Done (a, t) => Done (a, mk_sc t (entries s) (entry_root s)) | Bug => Bug | NoFuel => NoFuel end.
Definition entry (x : Z) : M sc seccomp_entry := fun s => match entries s !! x with Some e => Done (e, s) | None => Bug end.
Definition set_entry (x : Z) (e : seccomp_entry) : M sc unit := fun s => Done (tt, mk_sc (tid_tree s) (<[x := e]> (entries s)) (entry_root s)).
Definition tids (es : gmap Z seccomp_entry) : gmap Z Z := tid_real <$> es.

(** ** The entries *)
(** [alloc] is the address of a new entry, or nothing when the allocation fails *)
Definition seccomp_lookup (alloc : option Z) (tid : Z) (create : bool) : M sc (option Z) :=
  r <~ (fun s => on_tree (search (key_way (tids (entries s)) tid)) s) ;;
  match r with
  | Found x => ret (Some x)
  | Failed => bug
  | Place parent new =>
      if create then
        match alloc with
        | None => ret None
        | Some x =>
            set_entry x (mk_se tid 0 0 [] 0) ;;;
            (fun s => Done (tt, mk_sc (tid_tree s) (entries s) (x :: entry_root s))) ;;;
            on_tree (rb_link_and_balance x parent new) ;;; ret (Some x)
        end
      else ret None
  end.
Definition seccomp_find_entry (tid : Z) : M sc (option Z) := seccomp_lookup None tid false.

Definition with_mode (m : Z) (e : seccomp_entry) : seccomp_entry := mk_se (tid_real e) (img_filter_pos e) m (chain e) (nr_chains e).
Definition with_chain (c : list sfilter) (n : Z) (e : seccomp_entry) : seccomp_entry := mk_se (tid_real e) (img_filter_pos e) (se_mode e) c n.
Definition with_pos (p : Z) (e : seccomp_entry) : seccomp_entry := mk_se (tid_real e) p (se_mode e) (chain e) (nr_chains e).
Definition update (x : Z) (f : seccomp_entry -> seccomp_entry) : M sc unit := e <~ entry x ;; set_entry x (f e).

Definition seccomp_collect_entry (alloc : option Z) (tid mode : Z) : M sc Z :=
  x <~ seccomp_lookup alloc tid true ;;
  match x with None => ret (-1) | Some x => update x (with_mode mode) ;;; ret 0 end.

Definition seccomp_free_chain (x : Z) : M sc unit := update x (with_chain [] 0).
Fixpoint free_loop (l : list Z) : M sc unit := match l with [] => ret tt | x :: l => seccomp_free_chain x ;;; free_loop l end.
Definition seccomp_free_entries : M sc unit := fun s => (free_loop (entry_root s) ;;; (fun _ => Done (tt, sc_init))) s.

(** ** Fetching *)
(** the answers of PTRACE_SECCOMP_GET_FILTER and PTRACE_SECCOMP_GET_METADATA *)
Inductive got := GotFilter (data : list Z) | GotENOENT | GotError.
Inductive meta := Flags (f : Z) | MetaEIO | MetaError.

Section Fetch.
Variables (get_filter : Z -> nat -> got) (get_metadata : Z -> nat -> meta).

Fixpoint fetch_loop (fuel : nat) (x : Z) (tid : Z) (i : nat) (has_meta : bool) : M sc Z :=
  match fuel with
  | O => fun _ => NoFuel
  | S fuel =>
      match get_filter tid i with
      | GotENOENT => ret 0
      | GotError => ret (-1)
      | GotFilter data =>
          match (if has_meta then get_metadata tid i else MetaEIO) with
          | MetaError => ret (-1)
          | m =>
              let flags := match m with Flags f => f | _ => 0 end in
              update x (fun e => with_chain (mk_sf data flags None :: chain e) (nr_chains e + 1) e) ;;;
              fetch_loop fuel x tid (S i) (match m with Flags _ => true | _ => false end)
          end
      end
  end.
Definition collect_filter (fuel : nat) (x : Z) : M sc Z :=
  e <~ entry x ;; if negb (se_mode e =? SECCOMP_MODE_FILTER) then ret 0 else fetch_loop fuel x (tid_real e) 0 true.
End Fetch.

(** the programs of two chains are compared, [n] of each *)
Fixpoint same_chains (n : nat) (a b : list sfilter) : res bool :=
  match n with
  | O => Done true
  | S n =>
      match a, b with
      | fa :: a, fb :: b =>
          if negb (Z.of_nat (length (sf_data fa)) =? Z.of_nat (length (sf_data fb))) then Done false
          else if negb (bool_decide (sf_data fa = sf_data fb)) then Done false
          else same_chains n a b
      | _, _ => Bug
      end
  end.

(** whether all threads have the chain of the leader *)
Fixpoint compare_loop (leader : Z) (l : list Z) : M sc bool :=
  match l with
  | [] => ret true
  | t :: l =>
      x <~ seccomp_find_entry t ;;
      match x with
      | None => bug
      | Some x =>
          if x =? leader then compare_loop leader l
          else
            e <~ entry x ;; le <~ entry leader ;;
            if negb (se_mode e =? se_mode le) || negb (nr_chains e =? nr_chains le) then ret false
            else
              match same_chains (Z.to_nat (nr_chains le)) (chain le) (chain e) with
              | Done true => compare_loop leader l
              | Done false => ret false
              | Bug => bug
              | NoFuel => fun _ => NoFuel
              end
      end
  end.
Definition set_tsync (f : sfilter) : sfilter := mk_sf (sf_data f) (Z.lor (sf_flags f) SECCOMP_FILTER_FLAG_TSYNC) (sf_prev f).
Fixpoint disable_loop (leader : Z) (l : list Z) : M sc unit :=
  match l with
  | [] => ret tt
  | t :: l =>
      x <~ seccomp_find_entry t ;;
      match x with
      | None => bug
      | Some x => (if x =? leader then ret tt else update x (with_mode SECCOMP_MODE_DISABLED) ;;; seccomp_free_chain x) ;;; disable_loop leader l
      end
  end.
Definition try_use_tsync (leader : Z) (threads : list Z) : M sc unit :=
  le <~ entry leader ;;
  if negb (se_mode le =? SECCOMP_MODE_FILTER) then ret tt
  else
    same <~ compare_loop leader threads ;;
    if negb same then ret tt
    else update leader (fun e => with_chain (map set_tsync (chain e)) (nr_chains e) e) ;;; disable_loop leader threads.

(** a task: the leader, the threads, and whether it is TASK_DEAD *)
Record sc_task := mk_st { st_pid : Z; st_threads : list Z; st_dead : bool }.

Section Collect.
Variables (get_filter : Z -> nat -> got) (get_metadata : Z -> nat -> meta) (fuel : nat).

Fixpoint filter_loop (l : list Z) : M sc Z :=
  match l with
  | [] => ret 0
  | t :: l =>
      x <~ seccomp_find_entry t ;;
      match x with
      | None => ret (-1)
      | Some x => r <~ collect_filter get_filter get_metadata fuel x ;; if negb (r =? 0) then ret (-1) else filter_loop l
      end
  end.
Definition collect_filters (t : sc_task) : M sc Z :=
  if st_dead t then ret 0
  else
    leader <~ seccomp_find_entry (st_pid t) ;;
    match leader with
    | None => ret (-1)
    | Some leader => r <~ filter_loop (st_threads t) ;; if r <? 0 then ret (-1) else try_use_tsync leader (st_threads t) ;;; ret 0
    end.
(** preorder_pstree_traversal over the tasks *)
Fixpoint collect_tasks (l : list sc_task) : M sc Z :=
  match l with [] => ret 0 | t :: l => r <~ collect_filters t ;; if r <? 0 then ret (-1) else collect_tasks l end.
End Collect.

(** ** The image *)
(** [for (node = rb_first(..); node; node = rb_next(node))] with a body that may return from the function *)
Fixpoint node_loop {B} (fuel : nat) (body : Z -> B -> M sc (option B)) (x : Z) (b : B) : M sc (option B) :=
  match fuel with
  | O => fun _ => NoFuel
  | S fuel => if x =? 0 then ret (Some b) else r <~ body x b ;; match r with None => ret None | Some b => y <~ on_tree (rb_next x) ;; node_loop fuel body y b end
  end.
Definition for_each_node {B} (body : Z -> B -> M sc (option B)) (b : B) : M sc (option B) := fun s =>
  (x <~ on_tree rb_first ;; node_loop (turns (tid_tree s)) body x b) s.

Definition count_body (x : Z) (n : Z) : M sc (option Z) := e <~ entry x ;; ret (Some (n + nr_chains e)).

(** the filters of a chain go to the image from the position on: each but the first has the one before as [prev] *)
Fixpoint chain_loop (nr : Z) (first : bool) (c : list sfilter) (pos : Z) (img : list sfilter) : option (Z * list sfilter) :=
  match c with
  | [] => Some (pos, img)
  | f :: c => if nr <=? pos then None else chain_loop nr false c (pos + 1) (img ++ [mk_sf (sf_data f) (sf_flags f) (if first then sf_prev f else Some (pos - 1))])
  end.
Definition write_body (nr : Z) (x : Z) (b : Z * list sfilter) : M sc (option (Z * list sfilter)) :=
  e <~ entry x ;;
  if nr_chains e =? 0 then ret (Some b)
  else
    match chain_loop nr true (chain e) (fst b) (snd b) with
    | None => ret None
    | Some (pos, img) => update x (with_pos (pos - 1)) ;;; ret (Some (pos, img))
    end.
Definition free_body (x : Z) (_ : unit) : M sc (option unit) := seccomp_free_chain x ;;; ret (Some tt).

(** [pb_ok] says whether the image can be written *)
Definition dump_seccomp_filters (pb_ok : bool) : M sc (Z * list sfilter) :=
  n <~ for_each_node count_body 0 ;;
  match n with
  | None => ret (-1, [])
  | Some n =>
      r <~ for_each_node (write_body n) (0, []) ;;
      match r with
      | None => ret (-1, [])
      | Some (_, img) => _ <~ for_each_node free_body tt ;; ret (if pb_ok then (0, img) else (-1, []))
      end
  end.

Definition seccomp_collect_dump_filters (get_filter : Z -> nat -> got) (get_metadata : Z -> nat -> meta) (fuel : nat) (pb_ok : bool) (tasks : list sc_task) : M sc (Z * list sfilter) :=
  r <~ collect_tasks get_filter get_metadata fuel tasks ;;
  if r <? 0 then ret (-1, []) else
  d <~ dump_seccomp_filters pb_ok ;; ret (if fst d =? 0 then d else (-1, [])).

(** ThreadCoreEntry *)
Record thread_core := mk_core { seccomp_mode : option Z; seccomp_filter : option Z }.
Definition seccomp_dump_thread (tid : Z) (core : thread_core) : M sc (Z * thread_core) :=
  x <~ seccomp_find_entry tid ;;
  match x with
  | None => ret (-1, core)
  | Some x =>
      e <~ entry x ;;
      ret (0, if se_mode e =? SECCOMP_MODE_DISABLED then core
              else mk_core (Some (se_mode e)) (if se_mode e =? SECCOMP_MODE_FILTER then Some (img_filter_pos e) else seccomp_filter core))
  end.

(** ** Restore *)
Definition ENOMEM : Z := 12.
(** struct thread_seccomp_filter: the length, the place of the program in the data, and the flags *)
Record thread_filter := mk_tf { tf_len : Z; tf_off : Z; tf_flags : Z }.
(** the part of struct thread_restore_args; [seccomp_filters_data] are the bytes after the filters *)
Record thread_args := mk_args { a_mode : Z; a_n : Z; a_filters : list thread_filter; a_data : list Z }.
Definition no_filters (m : Z) : thread_args := mk_args m 0 [] [].

(** SeccompEntry: nothing when the image is empty *)
Definition filter_at (img : list sfilter) (i : Z) : option sfilter := if (0 <=? i) && (i <? Z.of_nat (length img)) then img !! Z.to_nat i else None.

(** the loop that counts: the size and the number of the filters; an error is the value -1 *)
Fixpoint size_loop (fuel : nat) (img : list sfilter) (sf : sfilter) (size n : Z) : res (option (Z * Z)) :=
  match fuel with
  | O => NoFuel
  | S fuel =>
      match sf_prev sf with
      | None => Done (Some (size, n))
      | Some p =>
          match filter_at img p with
          | None => Done None
          | Some sf => if negb (Z.of_nat (length (sf_data sf)) mod SOCK_FILTER =? 0) then Done None else size_loop fuel img sf (size + Z.of_nat (length (sf_data sf))) (n + 1)
          end
      end
  end.

(** the loop that copies; [prev] that is not there is 0 *)
Fixpoint copy_loop (n : nat) (img : list sfilter) (sf : sfilter) (off : Z) (data : list Z) : res (list thread_filter * list Z) :=
  match n with
  | O => Done ([], data)
  | S n =>
      let f := mk_tf ((Z.of_nat (length (sf_data sf)) / SOCK_FILTER) mod 2 ^ 16) off (sf_flags sf) in
      match img !! Z.to_nat (match sf_prev sf with Some p => p | None => 0 end) with
      | None => Bug
      | Some sf' =>
          match copy_loop n img sf' (off + Z.of_nat (length (sf_data sf))) (data ++ sf_data sf) with
          | Done (fs, data) => Done (f :: fs, data)
          | Bug => Bug
          | NoFuel => NoFuel
          end
      end
  end.

(** one turn of the loop over threads; [mem_ok] says whether rst_mem_alloc gives memory of a size *)
Definition prepare_thread (fuel : nat) (mem_ok : Z -> bool) (img : option (list sfilter)) (core : thread_core) : res (Z * thread_args) :=
  let mode := match seccomp_mode core with Some m => m | None => SECCOMP_MODE_DISABLED end in
  if negb (mode =? SECCOMP_MODE_FILTER) then Done (0, no_filters mode)
  else
    match img with
    | None => Bug
    | Some img =>
        match filter_at img (match seccomp_filter core with Some f => f | None => 0 end) with
        | None => Done (-1, no_filters mode)
        | Some sf =>
            if negb (Z.of_nat (length (sf_data sf)) mod SOCK_FILTER =? 0) then Done (-1, no_filters mode)
            else
              match size_loop fuel img sf (Z.of_nat (length (sf_data sf))) 1 with
              | Done None => Done (-1, no_filters mode)
              | Done (Some (size, n)) =>
                  if negb (mem_ok (size + n * 24)) then Done (- ENOMEM, mk_args mode n [] [])
                  else match copy_loop (Z.to_nat n) img sf 0 [] with Done (fs, data) => Done (0, mk_args mode n fs data) | Bug => Bug | NoFuel => NoFuel end
              | Bug => Bug
              | NoFuel => NoFuel
              end
        end
    end.

Fixpoint seccomp_prepare_threads (fuel : nat) (mem_ok : Z -> bool) (img : option (list sfilter)) (cores : list thread_core) : res (Z * list thread_args) :=
  match cores with
  | [] => Done (0, [])
  | c :: cores =>
      match prepare_thread fuel mem_ok img c with
      | Done (r, a) => if r =? 0 then match seccomp_prepare_threads fuel mem_ok img cores with Done (r, l) => Done (r, a :: l) | e => e end else Done (r, [a])
      | Bug => Bug
      | NoFuel => NoFuel
      end
  end.

(** the addresses are computed again in the restorer *)
Fixpoint reloc_loop (fs : list thread_filter) (off : Z) : list thread_filter :=
  match fs with [] => [] | f :: fs => mk_tf (tf_len f) off (tf_flags f) :: reloc_loop fs (off + tf_len f * SOCK_FILTER) end.
Definition seccomp_rst_reloc (a : thread_args) : thread_args := if a_n a =? 0 then a else mk_args (a_mode a) (a_n a) (reloc_loop (a_filters a) 0) (a_data a).

(** the programs and flags that are given to seccomp(2), as long as it succeeds *)
Section Install.
Variables (force_tsync : bool) (sys_seccomp : list Z -> Z -> Z) (sys_prctl : list Z -> Z).
Definition ENOSYS : Z := 38.
Definition program (a : thread_args) (f : thread_filter) : list Z := take (Z.to_nat (tf_len f * SOCK_FILTER)) (drop (Z.to_nat (tf_off f)) (a_data a)).
Fixpoint install_loop (a : thread_args) (fs : list thread_filter) : Z * list (list Z * Z) :=
  match fs with
  | [] => (0, [])
  | f :: fs =>
      let flags := Z.lor (tf_flags f) (if force_tsync then SECCOMP_FILTER_FLAG_TSYNC else 0) in
      let r := sys_seccomp (program a f) flags in
      let r := if r <? 0 then (if r =? - ENOSYS then (if sys_prctl (program a f) =? 0 then 0 else -1) else -1) else 0 in
      if r <? 0 then (-1, []) else let (r, l) := install_loop a fs in (r, (program a f, flags) :: l)
  end.
Definition restore_seccomp_filter (a : thread_args) : Z * list (list Z * Z) := install_loop a (a_filters a).
(** [strict] is what prctl returns for the strict mode *)
Definition restore_seccomp (strict : Z) (a : thread_args) : Z * list (list Z * Z) :=
  if a_mode a =? SECCOMP_MODE_DISABLED then (0, [])
  else if a_mode a =? SECCOMP_MODE_STRICT then (strict, [])
  else if a_mode a =? SECCOMP_MODE_FILTER then restore_seccomp_filter a
  else (-1, []).
End Install.
End Seccomp.
