(* ===== verification/SeccompView.v ===== *)
(** * The entries of seccomp.c as a map from threads

    The red-black tree and the heap of entries stand for a finite map from the threads to what is known of them; what the collection of the
    filters does to that map. *)
From S2P Require Import Prelude.
From S2P Require Import RbTree.
From S2P Require Import RbShape.
From S2P Require Import RbSearch.
From S2P Require Import RbMap.
From S2P Require Import Seccomp.
Import RbTree.RbTree RbShape.RbShape RbSearch.RbSearch RbMap.RbMap Seccomp.Seccomp.
#[local] Open Scope cmon_scope.

Module SeccompView.

(** [m] has the address of each thread's entry, [V] the entry *)
Record view (s : sc) (m : gmap Z Z) (V : gmap Z seccomp_entry) : Prop := {
  vw_tree : maps (tid_tree s) (tids (entries s)) m;
  vw_entry : forall t, V !! t = m !! t ≫= (fun x => entries s !! x);
}.

Lemma view_at s m V t e : view s m V -> V !! t = Some e -> exists x, m !! t = Some x /\ entries s !! x = Some e /\ tid_real e = t.
Proof.
  intros H He. rewrite (vw_entry _ _ _ H) in He. destruct (m !! t) as [x|] eqn:Ex; [|done]. cbn in He. exists x. split_and!; [done|done|]. pose proof (maps_node _ _ _ _ _ (vw_tree _ _ _ H) Ex) as Hk.
  unfold tids in Hk. rewrite lookup_fmap, He in Hk. by injection Hk.
Qed.
Lemma view_none s m V t : view s m V -> V !! t = None -> m !! t = None.
Proof.
  intros H He. rewrite (vw_entry _ _ _ H) in He. destruct (m !! t) as [x|] eqn:Ex; [|done]. cbn in He. pose proof (maps_node _ _ _ _ _ (vw_tree _ _ _ H) Ex) as Hk. unfold tids in Hk. by rewrite lookup_fmap, He in Hk.
Qed.

Lemma on_tree_same {A} (m : M rbs A) s a : m (tid_tree s) = Done (a, tid_tree s) -> on_tree m s = Done (a, s).
Proof. unfold on_tree. intros ->. by destruct s. Qed.
Lemma entry_at s x e : entries s !! x = Some e -> entry x s = Done (e, s).
Proof. unfold entry. by intros ->. Qed.

Lemma find_at s m V t : view s m V -> seccomp_find_entry t s = Done (m !! t, s).
Proof.
  intros H. unfold seccomp_find_entry, seccomp_lookup, bind. destruct (m !! t) as [x|] eqn:Ex.
  - by rewrite (on_tree_same _ s _ (search_found _ _ _ _ _ (vw_tree _ _ _ H) Ex)).
  - destruct (search_place _ _ _ _ (vw_tree _ _ _ H) Ex) as (p & lk & E & _). by rewrite (on_tree_same _ s _ E).
Qed.

(** a change of an entry *)
Lemma update_at s m V t x e f : view s m V -> m !! t = Some x -> V !! t = Some e -> tid_real (f e) = tid_real e ->
  exists s', update x f s = Done (tt, s') /\ view s' m (<[t := f e]> V) /\ tid_tree s' = tid_tree s /\ entry_root s' = entry_root s.
Proof.
  intros H Hx He Hf. destruct (view_at s m V t e H He) as (x' & Hx' & Hex & Ht). rewrite Hx in Hx'. injection Hx' as <-. unfold update, bind. rewrite (entry_at s x e Hex). unfold set_entry. eexists. split; [done|]. split; [|done]. split; cbn [tid_tree entries].
  - assert (Hk : tids (<[x := f e]> (entries s)) = tids (entries s)); [|rewrite Hk; apply H]. unfold tids. apply map_eq. intros y. destruct (decide (x = y)) as [<-|Hne]; [|by rewrite !lookup_fmap, lookup_insert_ne].
    rewrite !lookup_fmap, lookup_insert, decide_True by done. rewrite Hex. cbn. by rewrite Hf.
  - intros t'. destruct (decide (t = t')) as [<-|Hne]; [by rewrite lookup_insert, decide_True, Hx; cbn; rewrite ?lookup_insert, ?decide_True|]. rewrite lookup_insert_ne by done. rewrite (vw_entry _ _ _ H).
    destruct (m !! t') as [y|] eqn:Ey; [|done]. cbn. rewrite lookup_insert_ne; [done|]. intros ->. pose proof (maps_node _ _ _ _ _ (vw_tree _ _ _ H) Ey) as H1. pose proof (maps_node _ _ _ _ _ (vw_tree _ _ _ H) Hx) as H2. congruence.
Qed.

(** ** Collecting the modes *)
Lemma collect_entry_at s m V t mode a : view s m V -> addr a -> entries s !! a = None -> exists s' m', seccomp_collect_entry (Some a) t mode s = Done (0, s') /\
  view s' m' (<[t := match V !! t with Some e => with_mode mode e | None => mk_se t 0 mode [] 0 end]> V) /\ (forall b, b <> a -> entries s !! b = None -> entries s' !! b = None).
Proof.
  intros H Ha Hf. assert (Hupd : forall st mm VV x e, view st mm VV -> mm !! t = Some x -> VV !! t = Some e -> exists s', (update x (with_mode mode) ;;; ret 0) st = Done (0, s') /\ view s' mm (<[t := with_mode mode e]> VV) /\
      (forall b, entries st !! b = None -> entries s' !! b = None)).
  { intros st mm VV x e Hv Hx He. destruct (update_at st mm VV t x e (with_mode mode) Hv Hx He eq_refl) as (s' & E & Hv' & _). exists s'. unfold bind. rewrite E. split_and!; [done|done|]. intros b Hb.
    destruct (view_at st mm VV t e Hv He) as (x' & Hx' & Hex & _). assert (x' = x) as -> by congruence. unfold update, bind in E. rewrite (entry_at st x e Hex) in E. injection E as <-. cbn. rewrite lookup_insert_ne; [done|]. intros ->. congruence. }
  unfold seccomp_collect_entry. destruct (V !! t) as [e|] eqn:He.
  - destruct (view_at s m V t e H He) as (x & Hx & _). unfold bind at 1, seccomp_lookup, bind at 1. rewrite (on_tree_same _ s _ (search_found _ _ _ _ _ (vw_tree _ _ _ H) Hx)). unfold ret at 1.
    destruct (Hupd s m V x e H Hx He) as (s' & E & Hv & Hb). exists s', m. split_and!; [exact E|done|]. intros b _. apply Hb.
  - pose proof (view_none s m V t H He) as Hn. destruct (search_place _ _ _ _ (vw_tree _ _ _ H) Hn) as (p & lk & E & Hins). destruct (Hins a Ha) as (tr & Et & Hm).
    { intros j Hj. pose proof (maps_node _ _ _ _ _ (vw_tree _ _ _ H) Hj) as Hk. unfold tids in Hk. by rewrite lookup_fmap, Hf in Hk. }
    set (s1 := mk_sc tr (<[a := mk_se t 0 0 [] 0]> (entries s)) (a :: entry_root s)). assert (Hv1 : view s1 (<[t := a]> m) (<[t := mk_se t 0 0 [] 0]> V)).
    { split; cbn [s1 tid_tree entries].
      - assert (Hk : tids (<[a := mk_se t 0 0 [] 0]> (entries s)) = <[a := t]> (tids (entries s))) by (unfold tids; by rewrite fmap_insert). by rewrite Hk.
      - intros t'. destruct (decide (t = t')) as [<-|Hne]; [rewrite !lookup_insert, !decide_True by done; cbn; by rewrite lookup_insert, decide_True|]. rewrite !lookup_insert_ne by done. rewrite (vw_entry _ _ _ H).
        destruct (m !! t') as [y|] eqn:Ey; [|done]. cbn. rewrite lookup_insert_ne; [done|]. intros ->. pose proof (maps_node _ _ _ _ _ (vw_tree _ _ _ H) Ey) as Hk. unfold tids in Hk. by rewrite lookup_fmap, Hf in Hk. }
    destruct (Hupd s1 _ _ a (mk_se t 0 0 [] 0) Hv1) as (s' & E' & Hv & Hb); [by rewrite lookup_insert, decide_True|by rewrite lookup_insert, decide_True|]. exists s', (<[t := a]> m). split_and!.
    + unfold bind at 1, seccomp_lookup. unfold bind at 1. rewrite (on_tree_same _ s _ E). unfold bind, set_entry, on_tree. cbn [tid_tree entries entry_root]. rewrite Et. exact E'.
    + by rewrite insert_insert, decide_True in Hv.
    + intros b Hne Hbn. apply Hb. cbn. by rewrite lookup_insert_ne.
Qed.
End SeccompView.
