(* ===== verification/SeccompCollect.v ===== *)
(** * Fetching the filters of all tasks

    What collect_filters makes of the entries: the chain of every filtering thread, newest answer first, or one chain for the whole task. *)
From S2P Require Import Prelude.
From S2P Require Import Seccomp.
From S2P Require Import SeccompView.
Import Seccomp.Seccomp SeccompView.SeccompView.
#[local] Open Scope cmon_scope.

Module SeccompCollect.

(** what the threads have: the programs and flags of each, by their index for ptrace *)
Definition filters := Z -> list (list Z * Z).
(** the answers of the kernel; an old one knows no metadata and the flags are lost *)
Record kernel_tells (fs : filters) (old : bool) (get_filter : Z -> nat -> got) (get_metadata : Z -> nat -> meta) : Prop := {
  kt_filter : forall t i, get_filter t i = match fs t !! i with Some (d, _) => GotFilter d | None => GotENOENT end;
  kt_meta : forall t i d f, fs t !! i = Some (d, f) -> get_metadata t i = (if old then MetaEIO else Flags f) /\ (old = true -> f = 0);
}.

Definition as_filter (p : list Z * Z) : sfilter := mk_sf p.1 p.2 None.

Section Fetch.
Context {fs : filters} {old : bool} {get_filter : Z -> nat -> got} {get_metadata : Z -> nat -> meta} (Hk : kernel_tells fs old get_filter get_metadata).

Definition fetched (e : seccomp_entry) (l : list (list Z * Z)) : seccomp_entry := with_chain (rev (map as_filter l) ++ chain e) (nr_chains e + Z.of_nat (length l)) e.

Lemma fetched_nil e : fetched e [] = e.
Proof. destruct e. unfold fetched, with_chain. cbn. by rewrite Z.add_0_r. Qed.
Lemma fetched_cons e p l : fetched (fetched e [p]) l = fetched e (p :: l).
Proof. unfold fetched, with_chain. cbn [tid_real img_filter_pos se_mode chain nr_chains map rev length app]. rewrite <-app_assoc. cbn. f_equal. lia. Qed.

Lemma fetch_at fuel : forall l i has_meta s m V t x e, view s m V -> m !! t = Some x -> V !! t = Some e -> (forall j, l !! j = fs t !! (i + j)%nat) -> (length l < fuel)%nat -> (has_meta = false -> old = true) ->
  exists s', fetch_loop get_filter get_metadata fuel x t i has_meta s = Done (0, s') /\ view s' m (<[t := fetched e l]> V).
Proof.
  induction fuel as [|fuel IH]; intros l i has_meta s m V t x e H Hx He Hl Hf Hold; [lia|]. cbn [fetch_loop]. rewrite (kt_filter _ _ _ _ Hk). pose proof (Hl 0%nat) as Hi. rewrite Nat.add_0_r in Hi. destruct l as [|[d f] l]; cbn in Hi; rewrite <-Hi.
  - exists s. split; [done|]. rewrite fetched_nil. by rewrite insert_id.
  - destruct (kt_meta _ _ _ _ Hk t i d f (eq_sym Hi)) as [Hm Ho].
    assert (Hmeta : (if has_meta then get_metadata t i else MetaEIO) = if old then MetaEIO else Flags f) by (destruct has_meta; [exact Hm|by rewrite (Hold eq_refl)]). rewrite Hmeta.
    destruct (update_at s m V t x e (fun e => with_chain (mk_sf d f None :: chain e) (nr_chains e + 1) e) H Hx He eq_refl) as (s1 & E1 & H1 & _).
    destruct (IH l (S i) (negb old) s1 m _ t x (fetched e [(d, f)]) H1 Hx) as (s' & E' & H').
    + rewrite lookup_insert, decide_True by done. done.
    + intros j. assert (Hj : l !! j = fs t !! (i + S j)%nat) by exact (Hl (S j)). rewrite Hj. f_equal. lia.
    + cbn in Hf. lia.
    + by destruct old.
    + exists s'. rewrite insert_insert, decide_True, fetched_cons in H' by done. split; [|exact H']. destruct old.
      * rewrite (Ho eq_refl) in E1. unfold bind. rewrite E1. exact E'.
      * unfold bind. rewrite E1. exact E'.
Qed.

(** the entry of a thread after its filters were fetched *)
Definition with_filters (e : seccomp_entry) : seccomp_entry := if se_mode e =? SECCOMP_MODE_FILTER then fetched e (fs (tid_real e)) else e.
Lemma with_filters_tid e : tid_real (with_filters e) = tid_real e.
Proof. unfold with_filters. by destruct (_ =? _). Qed.

Lemma collect_filter_at fuel s m V t x e : view s m V -> m !! t = Some x -> V !! t = Some e -> (length (fs t) < fuel)%nat ->
  exists s', collect_filter get_filter get_metadata fuel x s = Done (0, s') /\ view s' m (<[t := with_filters e]> V).
Proof.
  intros H Hx He Hf. destruct (view_at s m V t e H He) as (x' & Hx' & Hex & Ht). assert (x' = x) as -> by congruence. unfold collect_filter, bind. rewrite (entry_at s x e Hex). unfold with_filters. destruct (se_mode e =? SECCOMP_MODE_FILTER); cbn [negb].
  - rewrite Ht. by apply (fetch_at fuel (fs t) 0 true s m V t x e H Hx He).
  - exists s. split; [done|]. by rewrite insert_id.
Qed.

(** all threads of a task *)
Definition fetch_all (l : list Z) (V : gmap Z seccomp_entry) : gmap Z seccomp_entry := foldl (fun V t => match V !! t with Some e => <[t := with_filters e]> V | None => V end) V l.
Lemma filter_loop_at fuel l : forall s m V, view s m V -> (forall t, t ∈ l -> is_Some (V !! t) /\ (length (fs t) < fuel)%nat) ->
  exists s', filter_loop get_filter get_metadata fuel l s = Done (0, s') /\ view s' m (fetch_all l V).
Proof.
  induction l as [|t l IH]; intros s m V H Hl; [by exists s|]. destruct (Hl t ltac:(left)) as [[e He] Hf]. destruct (view_at s m V t e H He) as (x & Hx & _). cbn [filter_loop]. unfold bind at 1. rewrite (find_at s m V t H), Hx.
  destruct (collect_filter_at fuel s m V t x e H Hx He Hf) as (s1 & E1 & H1). unfold bind. rewrite E1. cbn [Z.eqb negb]. change (fetch_all (t :: l) V) with (fetch_all l (match V !! t with Some e => <[t := with_filters e]> V | None => V end)). rewrite He. apply IH; [exact H1|].
  intros u Hu. destruct (Hl u ltac:(by right)) as [Hs Hfu]. split; [|done]. destruct (decide (t = u)) as [<-|Hne]; [by rewrite lookup_insert, decide_True|by rewrite lookup_insert_ne].
Qed.
Lemma fetch_all_lookup l V u : NoDup l -> fetch_all l V !! u = if bool_decide (u ∈ l) then with_filters <$> V !! u else V !! u.
Proof.
  revert V. induction l as [|t l IH]; intros V Hnd; [by rewrite bool_decide_eq_false_2 by apply not_elem_of_nil|]. apply list.NoDup_cons in Hnd as [Ht Hnd]. change (fetch_all (t :: l) V) with (fetch_all l (match V !! t with Some e => <[t := with_filters e]> V | None => V end)). rewrite (IH _ Hnd). destruct (decide (u = t)) as [->|Hne].
  - rewrite bool_decide_eq_false_2 by done. rewrite bool_decide_eq_true_2 by left. destruct (V !! t) as [e|] eqn:E; [by rewrite lookup_insert, decide_True|by rewrite E].
  - assert (Hv : (match V !! t with Some e => <[t := with_filters e]> V | None => V end) !! u = V !! u) by (destruct (V !! t); [by rewrite lookup_insert_ne|done]). rewrite Hv.
    assert (Hd : bool_decide (u ∈ l) = bool_decide (u ∈ t :: l)) by (apply bool_decide_ext; rewrite elem_of_cons; tauto). by rewrite Hd.
Qed.
End Fetch.

(** ** One chain for all threads *)
Definition data_of (c : list sfilter) : list (list Z) := map sf_data c.
Definition counted (e : seccomp_entry) : Prop := nr_chains e = Z.of_nat (length (chain e)).

Lemma same_chains_at a : forall b, length a = length b -> same_chains (length a) a b = Done (bool_decide (data_of a = data_of b)).
Proof.
  induction a as [|f a IH]; intros [|g b] Hl; try done. cbn in Hl. cbn [same_chains length data_of map]. destruct (decide (sf_data f = sf_data g)) as [E|E].
  - rewrite E, Z.eqb_refl. cbn [negb]. rewrite bool_decide_eq_true_2 by done. cbn [negb]. rewrite IH by lia. f_equal. apply bool_decide_ext. unfold data_of. split; [by intros ->|by intros [= ?]].
  - assert (Hb : bool_decide (sf_data f :: map sf_data a = sf_data g :: map sf_data b) = false) by (apply bool_decide_eq_false_2; by intros [= ? ?]). rewrite Hb. destruct (_ =? _); [|done]. cbn [negb]. by rewrite bool_decide_eq_false_2.
Qed.

(** the thread has the mode and the programs of the leader *)
Definition agrees (le e : seccomp_entry) : Prop := se_mode e = se_mode le /\ data_of (chain e) = data_of (chain le).
#[export] Instance agrees_dec le e : Decision (agrees le e).
Proof. unfold agrees. apply _. Defined.

Lemma same_address s m V t u x : view s m V -> m !! t = Some x -> m !! u = Some x -> t = u.
Proof. intros H Ht Hu. pose proof (RbMap.RbMap.maps_node _ _ _ _ _ (vw_tree _ _ _ H) Ht). pose proof (RbMap.RbMap.maps_node _ _ _ _ _ (vw_tree _ _ _ H) Hu). congruence. Qed.

Lemma compare_at l : forall s m V lt leader le, view s m V -> m !! lt = Some leader -> V !! lt = Some le -> counted le -> (forall t, t ∈ l -> exists e, V !! t = Some e /\ counted e) ->
  exists b, compare_loop leader l s = Done (b, s) /\ (b = true <-> forall t e, t ∈ l -> t <> lt -> V !! t = Some e -> agrees le e).
Proof.
  induction l as [|t l IH]; intros s m V lt leader le H Hx Hle Hc Hl; [exists true; split; [done|]; split; [intros _ t e Ht; by apply elem_of_nil in Ht|done]|].
  destruct (IH s m V lt leader le H Hx Hle Hc) as (b & Eb & Hb); [intros u Hu; apply Hl; by right|]. destruct (Hl t ltac:(left)) as (e & He & Hce). destruct (view_at s m V t e H He) as (x & Hxt & Hex & _). destruct (view_at s m V lt le H Hle) as (x' & Hx' & Hlx & _). assert (x' = leader) as -> by congruence.
  cbn [compare_loop]. unfold bind at 1. rewrite (find_at s m V t H), Hxt. destruct (Z.eqb_spec x leader) as [->|Hne].
  - exists b. split; [done|]. rewrite Hb. assert (t = lt) as -> by by eapply same_address. split; [intros Ha u eu [->|Hu]%elem_of_cons Hn; [done|by apply Ha]|intros Ha u eu Hu; apply Ha; by right].
  - assert (Htl : t <> lt) by (intros ->; congruence). unfold bind at 1. rewrite (entry_at s x e Hex). unfold bind at 1. rewrite (entry_at s leader le Hlx).
    assert (Hagree : forall q : bool, (q = true <-> agrees le e) -> exists r, (if q then b else false) = r /\ (r = true <-> forall u eu, u ∈ t :: l -> u <> lt -> V !! u = Some eu -> agrees le eu)).
    { intros q Hq. exists (if q then b else false). split; [done|]. destruct q.
      - rewrite Hb. split; [intros Ha u eu [->|Hu]%elem_of_cons Hn Hu'; [assert (eu = e) as -> by congruence; by apply Hq|by apply (Ha u)]|intros Ha u eu Hu; apply Ha; by right].
      - split; [done|]. intros Ha. apply Hq, (Ha t e); [left|done..]. }
    destruct (negb (se_mode e =? se_mode le) || negb (nr_chains e =? nr_chains le)) eqn:Eg.
    + exists false. split; [done|]. destruct (Hagree false) as (r & <- & Hr); [|exact Hr]. split; [done|]. intros [Hm Hd]. exfalso. rewrite Hce, Hc, Hm, Z.eqb_refl in Eg. cbn in Eg. apply negb_true_iff, Z.eqb_neq in Eg. apply Eg. f_equal.
      apply (f_equal length) in Hd. unfold data_of in Hd. by rewrite !length_map in Hd.
    + apply orb_false_iff in Eg as [E1 E2]. apply negb_false_iff, Z.eqb_eq in E1, E2. assert (Hlen : length (chain le) = length (chain e)) by (unfold counted in *; lia). rewrite Hc, Nat2Z.id, (same_chains_at _ _ Hlen).
      destruct (Hagree (bool_decide (data_of (chain le) = data_of (chain e)))) as (r & <- & Hr); [unfold agrees; rewrite bool_decide_eq_true; split; [by intros ->|by intros [_ ->]]|].
      destruct (bool_decide _) eqn:Ebd; [exists b; by split|exists false; by split].
Qed.

Definition disabled (e : seccomp_entry) : seccomp_entry := with_chain [] 0 (with_mode SECCOMP_MODE_DISABLED e).
Definition tsynced (e : seccomp_entry) : seccomp_entry := with_chain (map set_tsync (chain e)) (nr_chains e) e.
Definition disable_all (lt : Z) (l : list Z) (V : gmap Z seccomp_entry) : gmap Z seccomp_entry :=
  foldl (fun V t => if decide (t = lt) then V else match V !! t with Some e => <[t := disabled e]> V | None => V end) V l.
Lemma disable_cons lt t l V : disable_all lt (t :: l) V = disable_all lt l (if decide (t = lt) then V else match V !! t with Some e => <[t := disabled e]> V | None => V end).
Proof. done. Qed.

Lemma disable_at lt leader l : forall s m V, view s m V -> m !! lt = Some leader -> (forall t, t ∈ l -> is_Some (V !! t)) -> exists s', disable_loop leader l s = Done (tt, s') /\ view s' m (disable_all lt l V).
Proof.
  induction l as [|t l IH]; intros s m V H Hx Hl; [by exists s|]. destruct (Hl t ltac:(left)) as [e He]. destruct (view_at s m V t e H He) as (x & Hxt & _). cbn [disable_loop]. unfold bind at 1. rewrite (find_at s m V t H), Hxt, disable_cons. destruct (Z.eqb_spec x leader) as [->|Hne].
  - assert (t = lt) as -> by by eapply same_address. rewrite decide_True by done. unfold bind, ret. apply IH; [done|done|]. intros u Hu. apply Hl. by right.
  - rewrite decide_False by (intros ->; congruence). rewrite He. destruct (update_at s m V t x e (with_mode SECCOMP_MODE_DISABLED) H Hxt He eq_refl) as (s1 & E1 & H1 & _).
    destruct (update_at s1 m _ t x (with_mode SECCOMP_MODE_DISABLED e) (with_chain [] 0) H1 Hxt) as (s2 & E2 & H2 & _); [by rewrite lookup_insert, decide_True|done|]. rewrite insert_insert, decide_True in H2 by done. unfold seccomp_free_chain, bind. rewrite E1, E2. apply IH; [exact H2|done|].
    intros u Hu. destruct (decide (t = u)) as [<-|Htu]; [by rewrite lookup_insert, decide_True|rewrite lookup_insert_ne by done; apply Hl; by right].
Qed.
Lemma disable_all_lookup lt l V u : NoDup l -> disable_all lt l V !! u = if bool_decide (u ∈ l /\ u <> lt) then disabled <$> V !! u else V !! u.
Proof.
  revert V. induction l as [|t l IH]; intros V Hnd; [rewrite bool_decide_eq_false_2; [done|]; intros [Hu _]; by apply elem_of_nil in Hu|]. apply list.NoDup_cons in Hnd as [Ht Hnd]. rewrite disable_cons, (IH _ Hnd). destruct (decide (u = t)) as [->|Hne].
  - rewrite bool_decide_eq_false_2 by (by intros [? _]). destruct (decide (t = lt)) as [->|Htl]; [by rewrite bool_decide_eq_false_2 by (by intros [_ ?])|]. rewrite bool_decide_eq_true_2 by (split; [left|done]). destruct (V !! t) as [e|] eqn:E; [by rewrite lookup_insert, decide_True|by rewrite E].
  - assert (Hv : (if decide (t = lt) then V else match V !! t with Some e => <[t := disabled e]> V | None => V end) !! u = V !! u) by (destruct (decide (t = lt)); [done|]; destruct (V !! t); [by rewrite lookup_insert_ne|done]). rewrite Hv.
    assert (Hd : bool_decide (u ∈ l /\ u <> lt) = bool_decide (u ∈ t :: l /\ u <> lt)) by (apply bool_decide_ext; rewrite elem_of_cons; tauto). by rewrite Hd.
Qed.

(** whether one chain is kept for all threads *)
Definition in_sync (V : gmap Z seccomp_entry) (lt : Z) (l : list Z) : Prop :=
  exists le, V !! lt = Some le /\ se_mode le = SECCOMP_MODE_FILTER /\ forall t e, t ∈ l -> t <> lt -> V !! t = Some e -> agrees le e.

Lemma try_use_tsync_at s m V lt leader le l : view s m V -> m !! lt = Some leader -> V !! lt = Some le -> counted le -> (forall t, t ∈ l -> exists e, V !! t = Some e /\ counted e) ->
  exists s' V', try_use_tsync leader l s = Done (tt, s') /\ view s' m V' /\ ((in_sync V lt l /\ V' = disable_all lt l (<[lt := tsynced le]> V)) \/ (~ in_sync V lt l /\ V' = V)).
Proof.
  intros H Hx Hle Hc Hl. destruct (view_at s m V lt le H Hle) as (x' & Hx' & Hlx & _). assert (x' = leader) as -> by congruence. unfold try_use_tsync, bind at 1. rewrite (entry_at s leader le Hlx). destruct (Z.eqb_spec (se_mode le) SECCOMP_MODE_FILTER) as [Em|Em]; cbn [negb].
  2: { exists s, V. split_and!; [done|done|]. right. split; [|done]. intros (le' & Hle' & Em' & _). congruence. }
  destruct (compare_at l s m V lt leader le H Hx Hle Hc Hl) as (b & Eb & Hb). unfold bind at 1. rewrite Eb. destruct b; cbn [negb].
  - destruct (update_at s m V lt leader le (fun e => with_chain (map set_tsync (chain e)) (nr_chains e) e) H Hx Hle eq_refl) as (s1 & E1 & H1 & _). unfold bind at 1. rewrite E1. destruct (disable_at lt leader l s1 m _ H1 Hx) as (s2 & E2 & H2).
    { intros t Ht. destruct (Hl t Ht) as (e & He & _). destruct (decide (lt = t)) as [<-|Hne]; [by rewrite lookup_insert, decide_True|rewrite lookup_insert_ne by done; by eexists]. }
    exists s2, (disable_all lt l (<[lt := tsynced le]> V)). split_and!; [done|exact H2|]. left. split; [|done]. exists le. split_and!; [done..|by apply Hb].
  - exists s, V. split_and!; [done|done|]. right. split; [|done]. intros (le' & Hle' & _ & Ha). assert (le' = le) as -> by congruence. apply Hb in Ha. done.
Qed.

(** ** All tasks *)
Section Tasks.
Context {fs : filters} {old : bool} {get_filter : Z -> nat -> got} {get_metadata : Z -> nat -> meta} (Hk : kernel_tells fs old get_filter get_metadata).
Variable fuel : nat.
Hypothesis Hfuel : forall t, (length (fs t) < fuel)%nat.

(** an entry as it is before its filters are fetched *)
Definition unfetched (e : seccomp_entry) : Prop := chain e = [] /\ nr_chains e = 0.

Definition kept (sync : bool) (lt t : Z) (e : seccomp_entry) : seccomp_entry :=
  let e := with_filters (fs := fs) e in if sync then if decide (t = lt) then tsynced e else disabled e else e.
(** what becomes of the threads of a live task: [sync] when one chain is kept *)
Definition outcome (V V' : gmap Z seccomp_entry) (k : sc_task) (sync : bool) : Prop :=
  forall t, t ∈ st_threads k -> exists e, V !! t = Some e /\ V' !! t = Some (kept sync (st_pid k) t e) /\ (sync = true -> se_mode e = SECCOMP_MODE_FILTER /\ map fst (fs t) = map fst (fs (st_pid k))).

Lemma fetched_counted e : unfetched e -> counted (with_filters (fs := fs) e).
Proof. intros [Hc Hn]. unfold with_filters, counted. destruct (_ =? _); [|by rewrite Hc, Hn]. cbn. rewrite Hc, Hn, app_nil_r, length_rev, length_map. lia. Qed.
Lemma fetched_data e : unfetched e -> se_mode e = SECCOMP_MODE_FILTER -> data_of (chain (with_filters (fs := fs) e)) = rev (map fst (fs (tid_real e))).
Proof. intros [Hc Hn] Hm. unfold with_filters. rewrite Hm, Z.eqb_refl. cbn. rewrite Hc, app_nil_r. unfold data_of. rewrite map_rev, map_map. done. Qed.
Lemma with_filters_mode e : se_mode (with_filters (fs := fs) e) = se_mode e.
Proof. unfold with_filters. by destruct (_ =? _). Qed.

Lemma collect_task_at s m V k : view s m V -> NoDup (st_threads k) -> st_pid k ∈ st_threads k -> (forall t, t ∈ st_threads k -> exists e, V !! t = Some e /\ unfetched e) -> st_dead k = false ->
  exists s' V' sync, collect_filters get_filter get_metadata fuel k s = Done (0, s') /\ view s' m V' /\ outcome V V' k sync /\ forall u, u ∉ st_threads k -> V' !! u = V !! u.
Proof.
  intros H Hnd Hlt Hl Hd. destruct k as [lt l d]. cbn in *. destruct (Hl lt Hlt) as (le & Hle & Hlu). destruct (view_at s m V lt le H Hle) as (leader & Hx & _). unfold collect_filters. cbn. rewrite Hd. unfold bind at 1. rewrite (find_at s m V lt H), Hx.
  destruct (filter_loop_at Hk fuel l s m V H) as (s1 & E1 & H1); [intros t Ht; destruct (Hl t Ht) as (e & He & _); split; [by eexists|apply Hfuel]|]. unfold bind at 1. rewrite E1. cbn [Z.ltb Z.compare].
  set (V1 := fetch_all (fs := fs) l V) in *. assert (HV1 : forall t, t ∈ l -> exists e, V !! t = Some e /\ unfetched e /\ V1 !! t = Some (with_filters (fs := fs) e)).
  { intros t Ht. destruct (Hl t Ht) as (e & He & Hu). exists e. split_and!; [done..|]. unfold V1. rewrite fetch_all_lookup by done. by rewrite bool_decide_eq_true_2, He by done. }
  assert (HV1' : forall t, (t ∉ l) -> V1 !! t = V !! t) by (intros t Ht; unfold V1; rewrite fetch_all_lookup by done; by rewrite bool_decide_eq_false_2).
  destruct (HV1 lt Hlt) as (le' & Hle' & _ & H1le). assert (le' = le) as -> by congruence.
  destruct (try_use_tsync_at s1 m V1 lt leader _ l H1 Hx H1le (fetched_counted le Hlu)) as (s2 & V2 & E2 & H2 & Hcase); [intros t Ht; destruct (HV1 t Ht) as (e & _ & Hu & He); eexists; split; [exact He|by apply fetched_counted]|].
  unfold bind. rewrite E2. destruct Hcase as [[Hs ->]|[_ ->]].
  - eexists _, _, true. split; [done|]. split; [exact H2|]. split.
    + intros t Ht. cbn in *. destruct (HV1 t Ht) as (e & He & Hu & He1). exists e. split; [done|]. rewrite disable_all_lookup by done. unfold kept. split.
      * destruct (decide (t = lt)) as [->|Hne]; [rewrite bool_decide_eq_false_2 by (by intros [_ ?]); rewrite lookup_insert, decide_True by done; congruence|]. rewrite bool_decide_eq_true_2 by done. rewrite lookup_insert_ne by done. by rewrite He1.
      * intros _. destruct Hs as (le1 & Hle1 & Hm & Ha). assert (le1 = with_filters (fs := fs) le) as -> by congruence. rewrite with_filters_mode in Hm. pose proof (fetched_data le Hlu Hm) as Hdl. destruct (view_at s m V lt le H Hle) as (_ & _ & _ & Htl).
        destruct (decide (t = lt)) as [->|Hne]; [assert (e = le) as -> by congruence; by split|]. destruct (Ha t _ Ht Hne He1) as [Hme Hde]. rewrite !with_filters_mode in Hme. split; [congruence|].
        rewrite (fetched_data e Hu), Hdl in Hde by congruence. destruct (view_at s m V t e H He) as (_ & _ & _ & Ht'). rewrite Ht', Htl in Hde. apply (f_equal (@rev _)) in Hde. by rewrite !rev_involutive in Hde.
    + intros u Hu. rewrite disable_all_lookup by done. rewrite bool_decide_eq_false_2 by (by intros [? _]). rewrite lookup_insert_ne by (intros ->; done). by apply HV1'.
  - eexists _, _, false. split; [done|]. split; [exact H2|]. split; [|exact HV1']. intros t Ht. cbn in *. destruct (HV1 t Ht) as (e & He & _ & He1). exists e. by split_and!.
Qed.

(** the threads of different tasks are different ones *)
Definition live_threads (l : list sc_task) : list Z := concat (map st_threads (filter (fun k => st_dead k = false) l)).

Lemma live_thread l k t : k ∈ l -> st_dead k = false -> t ∈ st_threads k -> t ∈ live_threads l.
Proof. intros Hj Hdj Ht. unfold live_threads. apply list_elem_of_In, in_concat. exists (st_threads k). split; [|by apply list_elem_of_In]. apply in_map, list_elem_of_In, list_elem_of_filter. by split. Qed.

Lemma collect_tasks_at l : forall s m V, view s m V -> NoDup (live_threads l) -> (forall k, k ∈ l -> st_dead k = false -> st_pid k ∈ st_threads k) -> (forall t, t ∈ live_threads l -> exists e, V !! t = Some e /\ unfetched e) ->
  exists s' V', collect_tasks get_filter get_metadata fuel l s = Done (0, s') /\ view s' m V' /\ (forall k, k ∈ l -> st_dead k = false -> exists sync, outcome V V' k sync) /\ forall u, u ∉ live_threads l -> V' !! u = V !! u.
Proof.
  induction l as [|k l IH]; intros s m V H Hnd Hlt Hl; [exists s, V; split_and!; [done|done|intros k Hk'; by apply elem_of_nil in Hk'|done]|]. unfold live_threads in Hnd, Hl |- *. rewrite filter_cons in Hnd, Hl |- *. cbn [collect_tasks]. destruct (st_dead k) eqn:Hd.
  - rewrite decide_False in Hnd, Hl |- * by done. destruct (IH s m V H Hnd ltac:(intros j Hj; apply Hlt; by right) Hl) as (s' & V' & E & H' & Ho & Hu). exists s', V'. unfold bind, collect_filters. rewrite Hd. unfold ret. cbn. split_and!; [exact E|done| |done].
    intros j [->|Hj]%elem_of_cons Hdj; [congruence|by apply Ho].
  - rewrite decide_True in Hnd, Hl |- * by done. cbn [map concat] in Hnd, Hl |- *. apply list.NoDup_app in Hnd as (Hn1 & Hn12 & Hn2).
    destruct (collect_task_at s m V k H Hn1 (Hlt k ltac:(left) Hd) ltac:(intros t Ht; apply Hl, elem_of_app; by left) Hd) as (s1 & V1 & sync & E1 & H1 & Ho1 & Hu1). unfold bind. rewrite E1. cbn [Z.ltb Z.compare].
    destruct (IH s1 m V1 H1 Hn2 ltac:(intros j Hj; apply Hlt; by right)) as (s' & V' & E & H' & Ho & Hu).
    { intros t Ht. rewrite Hu1; [apply Hl, elem_of_app; by right|]. intros Htk. by apply (Hn12 t Htk). }
    exists s', V'. split_and!; [exact E|done| |].
    + intros j [->|Hj]%elem_of_cons Hdj.
      * exists sync. intros t Ht. destruct (Ho1 t Ht) as (e & He & He' & Hs). exists e. split_and!; [done| |done]. rewrite Hu; [exact He'|]. by apply Hn12.
      * destruct (Ho j Hj Hdj) as (sy & Hoj). exists sy. intros t Ht. destruct (Hoj t Ht) as (e & He & He' & Hs). exists e. split_and!; [|done|done]. rewrite <-Hu1; [done|]. intros Htk. apply (Hn12 t Htk). by apply (live_thread l j).
    + intros u Hn. rewrite elem_of_app in Hn. rewrite Hu by tauto. apply Hu1. tauto.
Qed.
End Tasks.
End SeccompCollect.
