(* ===== verification/SeccompImage.v ===== *)
(** * The image of the seccomp filters, written and followed

    Every chain is a run of the image; a thread that starts at the end of its run finds its filters in the order in which ptrace gave them. *)
From S2P Require Import Prelude.
From S2P Require Import RbTree.
From S2P Require Import RbShape.
From S2P Require Import RbInsert.
From S2P Require Import RbSearch.
From S2P Require Import RbMap.
From S2P Require Import Seccomp.
From S2P Require Import SeccompView.
From S2P Require Import SeccompCollect.
Import RbTree.RbTree RbShape.RbShape RbSearch.RbSearch RbMap.RbMap Seccomp.Seccomp SeccompView.SeccompView SeccompCollect.SeccompCollect.
#[local] Open Scope cmon_scope.

Module SeccompImage.

(** ** Loops over the nodes in order *)
Fixpoint list_loop {B} (body : Z -> B -> M sc (option B)) (l : list Z) (b : B) : M sc (option B) :=
  match l with [] => ret (Some b) | x :: l => r <~ body x b ;; match r with None => ret None | Some b => list_loop body l b end end.

Lemma holds_length t l : holds t l -> (length l <= size (heap t))%nat.
Proof.
  intros (tr & H & _ & <-). assert (Hin : forall x, x ∈ inorder tr -> x ∈ dom (heap t)).
  { pose proof (ap_tree _ _ _ H) as Hr. revert Hr. generalize (up []). clear H. induction tr as [|c l1 IH1 y l2 IH2]; intros p; cbn; [set_solver|]. intros (_ & Hy & H1 & H2) x Hx.
    apply elem_of_app in Hx as [Hx|Hx]; [by eapply IH1|]. apply elem_of_cons in Hx as [->|Hx]; [by eapply elem_of_dom_2|by eapply IH2]. }
  assert (Hnd : NoDup (inorder tr)) by (pose proof (ap_nodup _ _ _ H) as Hn; cbn in Hn; by rewrite app_nil_r in Hn). rewrite <-(size_list_to_set (C := gset Z) _ Hnd), <-size_dom. apply subseteq_size. intros x Hx. apply Hin. by apply elem_of_list_to_set in Hx.
Qed.

Lemma node_loop_at {B} (body : Z -> B -> M sc (option B)) : (forall x b s r s', body x b s = Done (r, s') -> tid_tree s' = tid_tree s) ->
  forall l2 l1 fuel b s, holds (tid_tree s) (l1 ++ l2) -> (length l2 < fuel)%nat -> node_loop fuel body (hd 0 l2) b s = list_loop body l2 b s.
Proof.
  intros Hbody. induction l2 as [|x l2 IH]; intros l1 fuel b s H Hf; (destruct fuel as [|fuel]; [cbn in Hf; lia|]); cbn [node_loop hd list_loop]; [done|]. assert (Hpos : 0 < x) by (eapply holds_pos; [exact H|apply elem_of_app; right; left]).
  assert ((x =? 0) = false) as -> by (apply Z.eqb_neq; lia). unfold bind. destruct (body x b s) as [[[b'|] s']| |] eqn:E; [|done..]. pose proof (Hbody _ _ _ _ _ E) as Ht. rewrite <-Ht in H.
  rewrite (on_tree_same _ s' _ (rb_next_at (tid_tree s') l1 x l2 H)). apply (IH (l1 ++ [x])); [by rewrite <-app_assoc|cbn in Hf; lia].
Qed.
Lemma for_each_node_at {B} (body : Z -> B -> M sc (option B)) l b s : (forall x b s r s', body x b s = Done (r, s') -> tid_tree s' = tid_tree s) -> holds (tid_tree s) l -> for_each_node body b s = list_loop body l b s.
Proof.
  intros Hbody H. unfold for_each_node, bind. rewrite (on_tree_same _ s _ (rb_first_at _ _ H)). apply (node_loop_at body Hbody l [] _ b s H). pose proof (holds_length _ _ H). unfold turns. lia.
Qed.

Lemma update_tree x f s u s' : update x f s = Done (u, s') -> tid_tree s' = tid_tree s.
Proof. unfold update, bind, entry. destruct (entries s !! x); [|done]. by intros [= <- <-]. Qed.
Lemma count_tree x b s r s' : count_body x b s = Done (r, s') -> tid_tree s' = tid_tree s.
Proof. unfold count_body, bind, entry. destruct (entries s !! x); [|done]. by intros [= <- <-]. Qed.
Lemma free_tree x b s r s' : free_body x b s = Done (r, s') -> tid_tree s' = tid_tree s.
Proof. unfold free_body, bind, seccomp_free_chain. destruct (update x _ s) as [[u s1]| |] eqn:E; [|done..]. intros [= <- <-]. by eapply update_tree. Qed.
Lemma write_tree nr x b s r s' : write_body nr x b s = Done (r, s') -> tid_tree s' = tid_tree s.
Proof.
  unfold write_body, bind at 1, entry. destruct (entries s !! x) as [e|]; [|done]. destruct (nr_chains e =? 0); [by intros [= <- <-]|]. destruct (chain_loop _ _ _ _ _) as [[p i]|]; [|by intros [= <- <-]].
  unfold bind. destruct (update x _ s) as [[u s1]| |] eqn:E; [|done..]. intros [= <- <-]. by eapply update_tree.
Qed.

(** ** A run of the image *)
Fixpoint linked (first : bool) (pos : Z) (c : list sfilter) : list sfilter :=
  match c with [] => [] | f :: c => mk_sf (sf_data f) (sf_flags f) (if first then sf_prev f else Some (pos - 1)) :: linked false (pos + 1) c end.
Lemma linked_length first pos c : length (linked first pos c) = length c.
Proof. revert first pos. induction c as [|f c IH]; intros first pos; [done|]. cbn. by rewrite IH. Qed.

Lemma chain_loop_at nr c : forall first pos img, pos + Z.of_nat (length c) <= nr -> chain_loop nr first c pos img = Some (pos + Z.of_nat (length c), img ++ linked first pos c).
Proof.
  induction c as [|f c IH]; intros first pos img H; cbn [chain_loop linked length] in *; [by rewrite app_nil_r, Z.add_0_r|]. assert ((nr <=? pos) = false) as -> by (apply Z.leb_gt; lia). rewrite IH by lia. rewrite <-app_assoc. cbn. do 2 f_equal. lia.
Qed.

(** the chains of the threads in [L] *)
Fixpoint total (V : gmap Z seccomp_entry) (L : list Z) : Z := match L with [] => 0 | t :: L => match V !! t with Some e => Z.of_nat (length (chain e)) | None => 0 end + total V L end.
Lemma chains_nonneg V L : 0 <= total V L.
Proof. induction L as [|t L IH]; cbn; [lia|]. destruct (V !! t); lia. Qed.
Lemma total_ext V V' L : (forall t, t ∈ L -> V' !! t = V !! t) -> total V' L = total V L.
Proof. induction L as [|t L IH]; intros H; [done|]. cbn. rewrite (H t) by left. rewrite IH; [done|]. intros u Hu. apply H. by right. Qed.

Lemma count_at m : forall L l s V n, view s m V -> Forall2 (fun t x => m !! t = Some x) L l -> (forall t, t ∈ L -> exists e, V !! t = Some e /\ counted e) -> list_loop count_body l n s = Done (Some (n + total V L), s).
Proof.
  induction L as [|t L IH]; intros l s V n H Hl Hc; inversion Hl as [|? x ? l' Hx Hl']; subst; cbn [list_loop total]; [by rewrite Z.add_0_r|]. destruct (Hc t ltac:(left)) as (e & He & Hce). destruct (view_at s m V t e H He) as (x' & Hx' & Hex & _). assert (x' = x) as -> by congruence.
  unfold bind, count_body at 1, bind. rewrite (entry_at s x e Hex). unfold ret. rewrite (IH l' s V (n + nr_chains e) H Hl'); [|intros u Hu; apply Hc; by right]. rewrite He, Hce. do 3 f_equal. lia.
Qed.

(** where the chain of an entry is in the image *)
Definition at_run (img : list sfilter) (e e' : seccomp_entry) : Prop :=
  if decide (chain e = []) then e' = e else exists a b, img = a ++ linked true (Z.of_nat (length a)) (chain e) ++ b /\ e' = with_pos (Z.of_nat (length a) + Z.of_nat (length (chain e)) - 1) e.
Lemma at_run_more img img' e e' : at_run img e e' -> at_run (img ++ img') e e'.
Proof. unfold at_run. destruct (decide _); [done|]. intros (a & b & -> & ->). exists a, (b ++ img'). by rewrite <-!app_assoc. Qed.

Lemma write_at m nr : forall L l s V img, view s m V -> Forall2 (fun t x => m !! t = Some x) L l -> NoDup L -> (forall t, t ∈ L -> exists e, V !! t = Some e /\ counted e) -> Z.of_nat (length img) + total V L <= nr ->
  exists s' V' img', list_loop (write_body nr) l (Z.of_nat (length img), img) s = Done (Some (Z.of_nat (length img'), img'), s') /\ view s' m V' /\ (exists more, img' = img ++ more) /\
    (forall t e, t ∈ L -> V !! t = Some e -> exists e', V' !! t = Some e' /\ at_run img' e e') /\ forall u, u ∉ L -> V' !! u = V !! u.
Proof.
  induction L as [|t L IH]; intros l s V img H Hl Hnd Hc Hn; inversion Hl as [|? x ? l' Hx Hl']; subst.
  { exists s, V, img. split; [done|]. split; [done|]. split; [exists []; by rewrite app_nil_r|]. split; [intros t e Ht; by apply elem_of_nil in Ht|done]. }
  apply list.NoDup_cons in Hnd as [Ht Hnd]. destruct (Hc t ltac:(left)) as (e & He & Hce). destruct (view_at s m V t e H He) as (x' & Hx' & Hex & _). assert (x' = x) as -> by congruence. cbn [list_loop total] in Hn |- *. rewrite He in Hn.
  unfold bind at 1, write_body at 1, bind at 1. rewrite (entry_at s x e Hex), Hce. pose proof (chains_nonneg V L) as Htn. destruct (Z.eqb_spec (Z.of_nat (length (chain e))) 0) as [E0|E0].
  - assert (Hnil : chain e = []) by (destruct (chain e); [done|cbn in E0; lia]). destruct (IH l' s V img H Hl' Hnd ltac:(intros u Hu; apply Hc; by right) ltac:(lia)) as (s' & V' & img' & E & H' & Hm & Hr & Hu).
    exists s', V', img'. unfold ret at 1. split; [exact E|]. split; [done|]. split; [done|]. split; [|intros u Hnu; apply Hu; rewrite elem_of_cons in Hnu; tauto]. intros u eu [->|Hin]%elem_of_cons Heu; [|by apply Hr].
    rewrite Hu by done. exists e. split; [done|]. assert (eu = e) as -> by congruence. unfold at_run. by rewrite decide_True.
  - cbn [fst snd]. rewrite chain_loop_at by lia. destruct (update_at s m V t x e (with_pos (Z.of_nat (length img) + Z.of_nat (length (chain e)) - 1)) H Hx He eq_refl) as (s1 & E1 & H1 & _). unfold bind at 1. rewrite E1. unfold ret at 1.
    set (img1 := img ++ linked true (Z.of_nat (length img)) (chain e)). assert (Hlen : Z.of_nat (length img) + Z.of_nat (length (chain e)) = Z.of_nat (length img1)) by (unfold img1; rewrite length_app, linked_length; lia). rewrite Hlen.
    assert (Hext : forall u, u ∈ L -> <[t := with_pos (Z.of_nat (length img) + Z.of_nat (length (chain e)) - 1) e]> V !! u = V !! u) by (intros u Hu; apply lookup_insert_ne; by intros ->). rewrite Hlen in *.
    destruct (IH l' s1 _ img1 H1 Hl' Hnd) as (s' & V' & img' & E & H' & (more & ->) & Hr & Hu).
    { intros u Hu. rewrite Hext by done. apply Hc. by right. }
    { rewrite (total_ext _ _ _ Hext). lia. }
    exists s', V', (img1 ++ more). split; [exact E|]. split; [done|]. split; [exists (linked true (Z.of_nat (length img)) (chain e) ++ more); unfold img1; by rewrite <-app_assoc|]. split.
    + intros u eu [->|Hin]%elem_of_cons Heu; [|apply Hr; [done|by rewrite Hext]]. assert (eu = e) as -> by congruence. rewrite Hu by done. rewrite lookup_insert, decide_True by done. eexists. split; [done|]. unfold at_run.
      rewrite decide_False by (intros Hnil; by rewrite Hnil in E0). exists img, more. unfold img1. rewrite <-app_assoc. split; [done|]. f_equal. unfold img1 in Hlen. lia.
    + intros u Hnu. rewrite elem_of_cons in Hnu. rewrite Hu by tauto. apply lookup_insert_ne. intros ->. tauto.
Qed.

Lemma free_at m : forall L l s V, view s m V -> Forall2 (fun t x => m !! t = Some x) L l -> NoDup L -> (forall t, t ∈ L -> is_Some (V !! t)) ->
  exists s' V', list_loop free_body l tt s = Done (Some tt, s') /\ view s' m V' /\ (forall t e, t ∈ L -> V !! t = Some e -> V' !! t = Some (with_chain [] 0 e)) /\ forall u, u ∉ L -> V' !! u = V !! u.
Proof.
  induction L as [|t L IH]; intros l s V H Hl Hnd Hc; inversion Hl as [|? x ? l' Hx Hl']; subst; [exists s, V; split_and!; [done|done|intros t e Ht; by apply elem_of_nil in Ht|done]|]. apply list.NoDup_cons in Hnd as [Ht Hnd].
  destruct (Hc t ltac:(left)) as [e He]. destruct (update_at s m V t x e (with_chain [] 0) H Hx He eq_refl) as (s1 & E1 & H1 & _). cbn [list_loop]. unfold bind at 1, free_body at 1, seccomp_free_chain, bind at 1. rewrite E1. unfold ret at 1.
  assert (Hext : forall u, u ∈ L -> <[t := with_chain [] 0 e]> V !! u = V !! u) by (intros u Hu; apply lookup_insert_ne; by intros ->). destruct (IH l' s1 _ H1 Hl' Hnd) as (s' & V' & E & H' & Hr & Hu); [intros u Hu; rewrite Hext by done; apply Hc; by right|].
  exists s', V'. split; [exact E|]. split; [done|]. split.
  - intros u eu [->|Hin]%elem_of_cons Heu; [|apply Hr; [done|by rewrite Hext]]. assert (eu = e) as -> by congruence. rewrite Hu by done. by rewrite lookup_insert, decide_True.
  - intros u Hnu. rewrite elem_of_cons in Hnu. rewrite Hu by tauto. apply lookup_insert_ne. intros ->. tauto.
Qed.

(** ** The whole dump *)
Lemma threads_in_order s m V : view s m V -> exists L l, holds (tid_tree s) l /\ Forall2 (fun t x => m !! t = Some x) L l /\ NoDup L /\ forall t, t ∈ L <-> is_Some (V !! t).
Proof.
  intros H. pose proof (vw_tree _ _ _ H) as Hmaps. destruct Hmaps as (l & Hl & _ & Hk & Hm).
  assert (Hnd : NoDup l) by (destruct Hl as (tr & Htr & _ & <-); pose proof (ap_nodup _ _ _ Htr) as Hn; cbn in Hn; by rewrite app_nil_r in Hn).
  assert (HL : exists L, Forall2 (fun t x => m !! t = Some x) L l).
  { clear Hl Hnd. assert (Hall : forall x, x ∈ l -> exists t, m !! t = Some x) by (intros x Hx; destruct (Hk x Hx) as [t Ht]; exists t; apply Hm; by split). clear Hk Hm. induction l as [|x l IH]; [by exists []|].
    destruct (Hall x ltac:(left)) as [t Ht]. destruct IH as [L HL]; [intros y Hy; apply Hall; by right|]. exists (t :: L). by constructor. }
  destruct HL as [L HL]. exists L, l. split_and!; [done|done| |].
  - clear Hl Hk Hm. induction HL as [|t x L l Ht HL IH]; [constructor|]. apply list.NoDup_cons in Hnd as [Hx Hnd]. apply list.NoDup_cons. split; [|by apply IH]. intros Hin. apply Hx. clear IH Hnd Hx.
    induction HL as [|u y L l Hu HL IH]; [by apply elem_of_nil in Hin|]. apply elem_of_cons in Hin as [->|Hin]; [assert (x = y) as -> by congruence; left|right; by apply IH].
  - intros t. split.
    + intros Hin. assert (Hx : exists x, m !! t = Some x) by (clear -HL Hin; induction HL as [|u y L l Hu HL IH]; [by apply elem_of_nil in Hin|]; apply elem_of_cons in Hin as [->|Hin]; [by eexists|by apply IH]).
      destruct Hx as [x Hx]. rewrite (vw_entry _ _ _ H), Hx. cbn. pose proof (maps_node _ _ _ _ _ (vw_tree _ _ _ H) Hx) as Hkx. unfold tids in Hkx. rewrite lookup_fmap in Hkx. by destruct (entries s !! x).
    + intros [e He]. destruct (view_at s m V t e H He) as (x & Hx & _). pose proof Hx as Hx0. apply Hm in Hx as [Hin _]. clear -HL Hin Hx0 H. induction HL as [|u y L l Hu HL IH]; [by apply elem_of_nil in Hin|]. apply elem_of_cons in Hin as [->|Hin]; [|right; by apply IH].
      assert (u = t) as -> by by eapply same_address. left.
Qed.

Lemma dump_at s m V : view s m V -> (forall t e, V !! t = Some e -> counted e) ->
  exists s' V' img, dump_seccomp_filters true s = Done ((0, img), s') /\ view s' m V' /\ forall t e, V !! t = Some e -> exists e', V' !! t = Some (with_chain [] 0 e') /\ at_run img e e'.
Proof.
  intros H Hc. destruct (threads_in_order s m V H) as (L & l & Hl & HL & Hnd & HLV). assert (Hc' : forall t, t ∈ L -> exists e, V !! t = Some e /\ counted e) by (intros t Ht; apply HLV in Ht as [e He]; exists e; split; [done|by eapply Hc]).
  unfold dump_seccomp_filters, bind at 1. rewrite (for_each_node_at _ l 0 s count_tree Hl), (count_at m L l s V 0 H HL Hc'). destruct (write_at m (0 + total V L) L l s V [] H HL Hnd Hc' ltac:(cbn; lia)) as (s1 & V1 & img & E1 & H1 & _ & Hr1 & Hu1).
  unfold bind at 1. rewrite (for_each_node_at _ l _ s (write_tree _) Hl). cbn [length] in E1. change (Z.of_nat 0) with 0 in E1. rewrite E1. assert (Hl1 : holds (tid_tree s1) l).
  { assert (Ht : forall l b sx r sy, list_loop (write_body (0 + total V L)) l b sx = Done (r, sy) -> tid_tree sy = tid_tree sx); [|by rewrite (Ht _ _ _ _ _ E1)]. clear. induction l as [|x l IH]; intros b sx r sy; cbn [list_loop]; [by intros [= <- <-]|].
    unfold bind. destruct (write_body _ x b sx) as [[[b'|] sz]| |] eqn:E; [|by intros [= <- <-]; eapply write_tree|done..]. intros E2. rewrite (IH _ _ _ _ E2). by eapply write_tree. }
  destruct (free_at m L l s1 V1 H1 HL Hnd) as (s2 & V2 & E2 & H2 & Hr2 & Hu2). { intros t Ht. destruct (Hc' t Ht) as (e & He & _). destruct (Hr1 t e Ht He) as (e' & He' & _). by eexists. }
  unfold bind. rewrite (for_each_node_at _ l tt s1 free_tree Hl1), E2. exists s2, V2, img. split; [done|]. split; [done|]. intros t e He. assert (Ht : t ∈ L) by (apply HLV; by eexists). destruct (Hr1 t e Ht He) as (e' & He' & Hrun). exists e'. split; [by apply Hr2|done].
Qed.
End SeccompImage.
