(* ===== verification/SeccompRestore.v ===== *)
(** * Seccomp filters through dump and restore

    The threads of a task are given the programs that they had: each its own, or the leader those of all. *)
From S2P Require Import Prelude.
From S2P Require Import RbTree.
From S2P Require Import RbShape.
From S2P Require Import RbMap.
From S2P Require Import Seccomp.
From S2P Require Import SeccompView.
From S2P Require Import SeccompCollect.
From S2P Require Import SeccompImage.
Import RbShape.RbShape Seccomp.Seccomp SeccompView.SeccompView SeccompCollect.SeccompCollect SeccompImage.SeccompImage.
#[local] Open Scope cmon_scope.

Module SeccompRestore.

Definition pr (f : sfilter) : list Z * Z := (sf_data f, sf_flags f).

(** the filters that are met from [sf] on *)
Inductive follows (img : list sfilter) : sfilter -> list (list Z * Z) -> Prop :=
| f_last sf : sf_prev sf = None -> follows img sf [pr sf]
| f_next sf p sf' l : sf_prev sf = Some p -> filter_at img p = Some sf' -> follows img sf' l -> follows img sf (pr sf :: l).

Lemma linked_lookup c : forall first pos i f, c !! i = Some f -> linked first pos c !! i = Some (mk_sf (sf_data f) (sf_flags f) (match i with O => if first then sf_prev f else Some (pos - 1) | S j => Some (pos + Z.of_nat j) end)).
Proof.
  induction c as [|g c IH]; intros first pos [|i] f H; try done; [by injection H as ->|]. change (linked false (pos + 1) c !! i = Some (mk_sf (sf_data f) (sf_flags f) (Some (pos + Z.of_nat i)))). rewrite (IH false (pos + 1) i f H). do 2 f_equal. destruct i; cbn; f_equal; lia.
Qed.

Lemma run_at a c b i : (i < length (linked true (Z.of_nat (length a)) c))%nat -> filter_at (a ++ linked true (Z.of_nat (length a)) c ++ b) (Z.of_nat (length a) + Z.of_nat i) = linked true (Z.of_nat (length a)) c !! i.
Proof.
  intros Hi. unfold filter_at. rewrite !length_app. assert ((0 <=? Z.of_nat (length a) + Z.of_nat i) = true) as -> by (apply Z.leb_le; lia). assert ((Z.of_nat (length a) + Z.of_nat i <? Z.of_nat (length a + (length (linked true (Z.of_nat (length a)) c) + length b))) = true) as -> by (apply Z.ltb_lt; lia).
  cbn [andb]. rewrite lookup_app_r by lia. replace (Z.to_nat (Z.of_nat (length a) + Z.of_nat i) - length a)%nat with i by lia. by rewrite lookup_app_l.
Qed.
Lemma linked_follows a c b : (forall f, f ∈ c -> sf_prev f = None) -> forall i, (i < length c)%nat ->
  exists sf, filter_at (a ++ linked true (Z.of_nat (length a)) c ++ b) (Z.of_nat (length a) + Z.of_nat i) = Some sf /\ follows (a ++ linked true (Z.of_nat (length a)) c ++ b) sf (rev (map pr (take (S i) c))).
Proof.
  intros Hp. induction i as [|i IH]; intros Hi; destruct (lookup_lt_is_Some_2 c _ Hi) as [f Hf]; rewrite run_at by (by rewrite linked_length); rewrite (linked_lookup c true _ _ f Hf); (eexists; split; [done|]); rewrite (take_S_r c _ f Hf), map_app, rev_app_distr; cbn [map rev app take].
  - rewrite (Hp f) by by eapply list_elem_of_lookup_2. exact (f_last _ (mk_sf (sf_data f) (sf_flags f) None) eq_refl).
  - destruct IH as (sf' & E & H'); [lia|]. exact (f_next _ (mk_sf (sf_data f) (sf_flags f) (Some (Z.of_nat (length a) + Z.of_nat i))) _ sf' _ eq_refl E H').
Qed.

(** ** Preparing a thread *)
(** programs are whole instructions, and the kernel takes no more than 4096 *)
Definition program_ok (p : list Z * Z) : Prop := Z.of_nat (length p.1) mod SOCK_FILTER = 0 /\ Z.of_nat (length p.1) <= 4096 * SOCK_FILTER.
Definition sizes (l : list (list Z * Z)) : Z := foldr (fun p n => Z.of_nat (length p.1) + n) 0 l.
Fixpoint placed (off : Z) (l : list (list Z * Z)) : list thread_filter := match l with [] => [] | p :: l => mk_tf (Z.of_nat (length p.1) / SOCK_FILTER) off p.2 :: placed (off + Z.of_nat (length p.1)) l end.

Lemma follows_head img sf l : follows img sf l -> exists l', l = pr sf :: l'.
Proof. intros []; by eexists. Qed.

Lemma size_loop_at img sf l : follows img sf l -> Forall program_ok l -> forall fuel size n, (length l <= fuel)%nat -> size_loop fuel img sf size n = Done (Some (size + sizes (tail l), n + Z.of_nat (length (tail l)))).
Proof.
  induction 1 as [sf Hp|sf p sf' l Hp Hat Hf IH]; intros Hok fuel size n Hfuel; (destruct fuel as [|fuel]; [cbn in Hfuel; lia|]); cbn [size_loop tail]; rewrite Hp; [cbn; by rewrite !Z.add_0_r|]. rewrite Hat.
  apply list.Forall_cons in Hok as [_ Hok]. destruct (follows_head img sf' l Hf) as [l' ->]. pose proof Hok as [[Hm _] _]%list.Forall_cons. cbn in Hm. rewrite Hm. cbn [Z.eqb negb]. rewrite IH by (cbn in *; try done; lia). do 3 f_equal; cbn [tail sizes foldr length]; unfold sizes; cbn [fst pr]; lia.
Qed.

Lemma filter_at_in img p sf : filter_at img p = Some sf -> img !! Z.to_nat p = Some sf.
Proof. unfold filter_at. by destruct (_ && _). Qed.
Lemma copy_loop_at img sf l : follows img sf l -> Forall program_ok l -> img <> [] -> forall off data, copy_loop (length l) img sf off data = Done (placed off l, data ++ concat (map fst l)).
Proof.
  induction 1 as [sf Hp|sf p sf' l Hp Hat Hf IH]; intros Hok Hne off data; cbn [copy_loop length placed map concat]; rewrite Hp; apply list.Forall_cons in Hok as [[Hm Hle] Hok]; cbn [pr fst] in Hm, Hle.
  - destruct img as [|i0 img]; [done|]. cbn. rewrite app_nil_r. rewrite Z.mod_small; [done|]. unfold SOCK_FILTER in *. split; [apply Z.div_pos; lia|]. apply Z.div_lt_upper_bound; lia.
  - rewrite (filter_at_in _ _ _ Hat). rewrite (IH Hok Hne). cbn [pr fst snd]. rewrite <-app_assoc. rewrite Z.mod_small; [done|]. unfold SOCK_FILTER in *. split; [apply Z.div_pos; lia|]. apply Z.div_lt_upper_bound; lia.
Qed.

Lemma reloc_placed l : Forall program_ok l -> forall off, reloc_loop (placed off l) off = placed off l.
Proof.
  induction 1 as [|p l [Hm _] Hok IH]; intros off; [done|]. cbn [placed reloc_loop tf_len tf_flags]. f_equal. assert (E : Z.of_nat (length p.1) / SOCK_FILTER * SOCK_FILTER = Z.of_nat (length p.1)) by (unfold SOCK_FILTER in *; pose proof (Z.div_mod (Z.of_nat (length p.1)) 8 ltac:(lia)); lia).
  rewrite E. apply IH.
Qed.
Lemma install_placed m n l : Forall program_ok l -> forall pre data, data = pre ++ concat (map fst l) ->
  install_loop false (fun _ _ => 0) (fun _ => 0) (mk_args m n [] data) (placed (Z.of_nat (length pre)) l) = (0, l).
Proof.
  induction 1 as [|p l [Hm _] Hok IH]; intros pre data ->; [done|]. cbn [placed install_loop]. assert (E : Z.of_nat (length p.1) / SOCK_FILTER * SOCK_FILTER = Z.of_nat (length p.1)) by (unfold SOCK_FILTER in *; pose proof (Z.div_mod (Z.of_nat (length p.1)) 8 ltac:(lia)); lia).
  assert (Hprog : program (mk_args m n [] (pre ++ concat (map fst (p :: l)))) (mk_tf (Z.of_nat (length p.1) / SOCK_FILTER) (Z.of_nat (length pre)) p.2) = p.1).
  { unfold program. cbn [tf_len tf_off a_data]. rewrite E, !Nat2Z.id. rewrite drop_app_length. cbn [map concat]. by rewrite take_app_length. }
  rewrite Hprog. cbn [tf_flags]. rewrite Z.lor_0_r. cbn [Z.ltb Z.compare]. specialize (IH (pre ++ p.1) (pre ++ concat (map fst (p :: l)))). rewrite length_app, Nat2Z.inj_add in IH. rewrite IH; [by destruct p|]. cbn [map concat]. by rewrite app_assoc.
Qed.
Lemma install_filters fs m n l data : install_loop false (fun _ _ => 0) (fun _ => 0) (mk_args m n fs data) l = install_loop false (fun _ _ => 0) (fun _ => 0) (mk_args m n [] data) l.
Proof. induction l as [|f l IH]; [done|]. cbn. by rewrite IH. Qed.

(** what a thread is given: its mode and the calls of seccomp(2), which succeed *)
Definition restores (fuel : nat) (img : list sfilter) (s : sc) (t mode : Z) (calls : list (list Z * Z)) : Prop :=
  exists core a, seccomp_dump_thread t (mk_core None None) s = Done ((0, core), s) /\ prepare_thread fuel (fun _ => true) (Some img) core = Done (0, a) /\ a_mode a = mode /\
    restore_seccomp false (fun _ _ => 0) (fun _ => 0) 0 (seccomp_rst_reloc a) = (0, calls).

Lemma prepare_at fuel img l pos sf : filter_at img pos = Some sf -> follows img sf l -> Forall program_ok l -> (length l <= fuel)%nat ->
  exists a, prepare_thread fuel (fun _ => true) (Some img) (mk_core (Some SECCOMP_MODE_FILTER) (Some pos)) = Done (0, a) /\ a_mode a = SECCOMP_MODE_FILTER /\
    restore_seccomp false (fun _ _ => 0) (fun _ => 0) 0 (seccomp_rst_reloc a) = (0, l).
Proof.
  intros Hat Hf Hok Hfuel. assert (Hne : img <> []) by (intros ->; apply filter_at_in in Hat; by rewrite lookup_nil in Hat). destruct (follows_head img sf l Hf) as [l' El]. pose proof Hok as Hok'. rewrite El in Hok'. apply list.Forall_cons in Hok' as [[Hm _] _]. cbn in Hm.
  unfold prepare_thread. cbn [seccomp_mode seccomp_filter]. rewrite Z.eqb_refl. cbn [negb]. rewrite Hat, Hm. cbn [Z.eqb negb]. rewrite (size_loop_at img sf l Hf Hok) by done.
  assert (Hn : Z.to_nat (1 + Z.of_nat (length (tail l))) = length l) by (rewrite El; cbn; lia). rewrite Hn, (copy_loop_at img sf l Hf Hok Hne). eexists. split; [done|]. split; [done|].
  unfold seccomp_rst_reloc. cbn [a_n a_mode a_filters a_data]. assert ((1 + Z.of_nat (length (tail l)) =? 0) = false) as -> by (apply Z.eqb_neq; lia). rewrite reloc_placed by done. unfold restore_seccomp. cbn [a_mode]. cbn [Z.eqb Pos.eqb SECCOMP_MODE_FILTER SECCOMP_MODE_DISABLED SECCOMP_MODE_STRICT]. unfold restore_seccomp_filter. cbn [a_filters].
  rewrite install_filters. by apply (install_placed _ _ l Hok []).
Qed.

(** ** The whole way *)
(** seccomp_collect_entry for every thread that is seized: the thread, its mode and the address of its entry *)
Fixpoint collect_modes (l : list (Z * Z * Z)) : M sc Z :=
  match l with [] => ret 0 | (t, mode, a) :: l => r <~ seccomp_collect_entry (Some a) t mode ;; if negb (r =? 0) then ret (-1) else collect_modes l end.

Lemma collect_modes_at l : forall s m V, view s m V -> NoDup (map snd l) -> (forall a, a ∈ map snd l -> addr a /\ entries s !! a = None) -> NoDup (map (fun p => p.1.1) l) -> (forall p, p ∈ l -> V !! p.1.1 = None) ->
  exists s' m' V', collect_modes l s = Done (0, s') /\ view s' m' V' /\ (forall t mode a, (t, mode, a) ∈ l -> V' !! t = Some (mk_se t 0 mode [] 0)) /\ forall t, t ∉ map (fun p => p.1.1) l -> V' !! t = V !! t.
Proof.
  induction l as [|[[t mode] a] l IH]; intros s m V H Hnd Ha Ht HV; [exists s, m, V; split_and!; [done|done|intros t mode a Hin; by apply elem_of_nil in Hin|done]|]. cbn [map fst snd] in *. apply list.NoDup_cons in Hnd as [Hal Hnd]. apply list.NoDup_cons in Ht as [Htl Ht].
  destruct (Ha a ltac:(left)) as [Haa Hf]. destruct (collect_entry_at s m V t mode a H Haa Hf) as (s1 & m1 & E1 & H1 & Hfr). pose proof (HV (t, mode, a) ltac:(left)) as HVt. cbn in HVt. rewrite HVt in H1.
  assert (Hin : forall p, p ∈ l -> p.1.1 <> t) by (intros p Hp E; apply Htl, list_elem_of_fmap; by exists p). destruct (IH s1 m1 _ H1 Hnd) as (s' & m' & V' & E & H' & Hr & Hu).
  { intros b Hb. destruct (Ha b ltac:(by right)) as [Hab Hbn]. split; [done|]. apply Hfr; [by intros ->|done]. }
  { done. }
  { intros p Hp. rewrite lookup_insert_ne; [apply HV; by right|]. intros E0. by apply (Hin p Hp). }
  exists s', m', V'. cbn [collect_modes]. unfold bind. rewrite E1. split_and!; [exact E|done| |].
  - intros u mu b [[= -> -> ->]|Hub]%elem_of_cons; [|by eapply Hr]. rewrite Hu by done. by rewrite lookup_insert, decide_True.
  - intros u Hnu. rewrite elem_of_cons in Hnu. rewrite Hu by tauto. apply lookup_insert_ne. intros ->. tauto.
Qed.

Definition tsync_calls (l : list (list Z * Z)) : list (list Z * Z) := map (fun p => (p.1, Z.lor p.2 SECCOMP_FILTER_FLAG_TSYNC)) l.
(** what thread [t] of a task with the leader [lt] is given *)
Definition given (fs : filters) (sync : bool) (lt t mode : Z) : Z * list (list Z * Z) :=
  if mode =? SECCOMP_MODE_FILTER then
    if sync then if decide (t = lt) then (mode, tsync_calls (fs t)) else (SECCOMP_MODE_DISABLED, []) else (mode, fs t)
  else (mode, []).

Lemma dump_thread_at s m V t e : view s m V -> V !! t = Some e -> seccomp_dump_thread t (mk_core None None) s =
  Done ((0, if se_mode e =? SECCOMP_MODE_DISABLED then mk_core None None else mk_core (Some (se_mode e)) (if se_mode e =? SECCOMP_MODE_FILTER then Some (img_filter_pos e) else None)), s).
Proof. intros H He. destruct (view_at s m V t e H He) as (x & Hx & Hex & _). unfold seccomp_dump_thread, bind. rewrite (find_at s m V t H), Hx. by rewrite (entry_at s x e Hex). Qed.

(** a thread that has no chain in the image *)
Lemma restores_plain fuel img s m V t e : view s m V -> V !! t = Some e -> (se_mode e = SECCOMP_MODE_DISABLED \/ se_mode e = SECCOMP_MODE_STRICT) -> restores fuel img s t (se_mode e) [].
Proof.
  intros H He Hm. pose proof (dump_thread_at s m V t e H He) as Hd. destruct Hm as [E|E]; rewrite E in Hd |- *.
  - by exists (mk_core None None), (no_filters SECCOMP_MODE_DISABLED).
  - by exists (mk_core (Some SECCOMP_MODE_STRICT) None), (no_filters SECCOMP_MODE_STRICT).
Qed.
(** a thread with a chain *)
Lemma restores_chain fuel img s m V t e0 e l : view s m V -> V !! t = Some (with_chain [] 0 e0) -> at_run img e e0 -> chain e <> [] -> se_mode e = SECCOMP_MODE_FILTER -> (forall f, f ∈ chain e -> sf_prev f = None) ->
  rev (map pr (chain e)) = l -> Forall program_ok l -> (length l <= fuel)%nat -> restores fuel img s t SECCOMP_MODE_FILTER l.
Proof.
  intros H He Hrun Hne Hm Hp Hl Hok Hfuel. unfold at_run in Hrun. rewrite decide_False in Hrun by done. destruct Hrun as (a & b & Eimg & ->). pose proof (dump_thread_at s m V t _ H He) as Hd. cbn [with_chain with_pos se_mode img_filter_pos] in Hd. rewrite Hm in Hd.
  assert (Hlen : (0 < length (chain e))%nat) by (destruct (chain e); [done|cbn; lia]). destruct (linked_follows a (chain e) b Hp (length (chain e) - 1) ltac:(lia)) as (sf & Hat & Hf). rewrite <-Eimg in Hat, Hf.
  replace (S (length (chain e) - 1)) with (length (chain e)) in Hf by lia. rewrite firstn_all, Hl in Hf. replace (Z.of_nat (length a) + Z.of_nat (length (chain e) - 1)) with (Z.of_nat (length a) + Z.of_nat (length (chain e)) - 1) in Hat by lia.
  destruct (prepare_at fuel img l _ sf Hat Hf Hok Hfuel) as (x & Hx & Hmx & Hcx). eexists _, x. split; [exact Hd|]. split; [exact Hx|]. by split.
Qed.

Lemma kept_counted fs sync lt t e : unfetched e -> counted (kept (fs := fs) sync lt t e).
Proof.
  intros Hu. pose proof (fetched_counted (fs := fs) e Hu) as Hc. unfold kept. destruct sync; [|done]. destruct (decide _); [|done]. unfold counted, tsynced in *. cbn. by rewrite length_map.
Qed.

Lemma restores_kept fs fuel img s m V lt t mode sync e' : view s m V -> V !! t = Some (with_chain [] 0 e') -> at_run img (kept (fs := fs) sync lt t (mk_se t 0 mode [] 0)) e' ->
  (sync = true -> mode = SECCOMP_MODE_FILTER) -> 0 <= mode <= 2 -> (mode = SECCOMP_MODE_FILTER -> fs t <> [] /\ Forall program_ok (fs t) /\ (length (fs t) <= fuel)%nat) ->
  restores fuel img s t (given fs sync lt t mode).1 (given fs sync lt t mode).2.
Proof.
  intros H He Hrun Hsync Hmode Hfs. unfold given. destruct (Z.eqb_spec mode SECCOMP_MODE_FILTER) as [->|Hm].
  - destruct (Hfs eq_refl) as (Hne & Hok & Hlen). assert (Hw : with_filters (fs := fs) (mk_se t 0 SECCOMP_MODE_FILTER [] 0) = with_chain (rev (map as_filter (fs t))) (Z.of_nat (length (fs t))) (mk_se t 0 SECCOMP_MODE_FILTER [] 0)).
    { unfold with_filters. cbn [se_mode]. rewrite Z.eqb_refl. unfold fetched. cbn [chain nr_chains tid_real]. by rewrite app_nil_r, Z.add_0_l. }
    assert (Hpr : rev (map pr (rev (map as_filter (fs t)))) = fs t) by (rewrite map_rev, rev_involutive, map_map; rewrite <-(map_id (fs t)) at 2; apply map_ext; by intros []).
    assert (Hnil : rev (map as_filter (fs t)) <> []) by (intros E; apply (f_equal length) in E; rewrite length_rev, length_map in E; by destruct (fs t)).
    assert (Hprev : forall f, f ∈ rev (map as_filter (fs t)) -> sf_prev f = None) by (intros f Hf; apply list_elem_of_In, in_rev, list_elem_of_In, list_elem_of_fmap in Hf as (p & -> & _); done).
    unfold kept in Hrun. rewrite Hw in Hrun. destruct sync; [destruct (decide (t = lt))|].
    + apply (restores_chain fuel img s m V t e' _ (tsync_calls (fs t)) H He Hrun); [cbn; intros E; apply Hnil; by destruct (rev _)|done| |..].
      * cbn. intros f Hf. apply list_elem_of_fmap in Hf as (g & -> & Hg). cbn. by apply Hprev.
      * cbn. unfold tsync_calls. rewrite !map_rev, rev_involutive, !map_map. by apply map_ext.
      * unfold tsync_calls. apply list.Forall_forall. intros p Hp. apply list_elem_of_fmap in Hp as (q & -> & Hq). rewrite list.Forall_forall in Hok. exact (Hok q Hq).
      * unfold tsync_calls. by rewrite length_map.
    + unfold at_run in Hrun. rewrite decide_True in Hrun by done. subst e'. by apply (restores_plain fuel img s m V t _ H He); left.
    + by apply (restores_chain fuel img s m V t e' _ (fs t) H He Hrun).
  - assert (Hs : sync = false) by (destruct sync; [by specialize (Hsync eq_refl)|done]). subst sync. apply Z.eqb_neq in Hm. assert (Hw : with_filters (fs := fs) (mk_se t 0 mode [] 0) = mk_se t 0 mode [] 0) by (unfold with_filters; cbn [se_mode]; by rewrite Hm).
    unfold kept in Hrun. rewrite Hw in Hrun. unfold at_run in Hrun. rewrite decide_True in Hrun by done. subst e'. apply Z.eqb_neq in Hm. apply (restores_plain fuel img s m V t _ H He). cbn. unfold SECCOMP_MODE_FILTER, SECCOMP_MODE_DISABLED, SECCOMP_MODE_STRICT in *. lia.
Qed.

(** C14: seccomp filters survive dump and restore: when the modes of all threads were collected and the kernel tells their filters, the image is written, every
    thread of a live task is prepared from it without an error or an endless loop, and the restorer installs for it what the thread had, in the
    order of ptrace: its own programs with their flags, or, in a task all of whose threads filter by the same programs, those of the leader for all
    threads (SECCOMP_FILTER_FLAG_TSYNC) and nothing for the others; a thread that does not filter gets its mode. *)
Theorem seccomp_roundtrip fs old get_filter get_metadata fuel modes tasks (Hk : kernel_tells fs old get_filter get_metadata) (Hfuel : forall t, (length (fs t) < fuel)%nat)
    (Ha : Forall addr (map snd modes)) (Hna : NoDup (map snd modes)) (Hnt : NoDup (map (fun p => p.1.1) modes)) (Hlive : NoDup (live_threads tasks))
    (Hlead : forall k, k ∈ tasks -> st_dead k = false -> st_pid k ∈ st_threads k) (Hall : forall t, t ∈ live_threads tasks -> t ∈ map (fun p => p.1.1) modes)
    (Hmode : forall t mode a, (t, mode, a) ∈ modes -> 0 <= mode <= 2) (Hprog : forall t a, t ∈ live_threads tasks -> (t, SECCOMP_MODE_FILTER, a) ∈ modes -> fs t <> [] /\ Forall program_ok (fs t)) :
  exists s1 s2 img, collect_modes modes sc_init = Done (0, s1) /\ seccomp_collect_dump_filters get_filter get_metadata fuel true tasks s1 = Done ((0, img), s2) /\
    forall k, k ∈ tasks -> st_dead k = false -> exists sync : bool, forall t mode a, t ∈ st_threads k -> (t, mode, a) ∈ modes ->
      (sync = true -> mode = SECCOMP_MODE_FILTER /\ map fst (fs t) = map fst (fs (st_pid k))) /\
      restores fuel img s2 t (given fs sync (st_pid k) t mode).1 (given fs sync (st_pid k) t mode).2.
Proof.
  rewrite list.Forall_forall in Ha. assert (H0 : view sc_init ∅ ∅) by (split; [apply RbMap.RbMap.maps_empty|done]).
  destruct (collect_modes_at modes sc_init ∅ ∅ H0 Hna ltac:(intros a Hia; split; [by apply Ha|apply lookup_empty]) Hnt ltac:(done)) as (s1 & m & V & E1 & H1 & HV & HVn).
  assert (Hent : forall t, t ∈ live_threads tasks -> exists e, V !! t = Some e /\ unfetched e).
  { intros t Ht. apply Hall, list_elem_of_fmap in Ht as ([[t' mode] a] & -> & Hin). eexists. split; [by eapply HV|done]. }
  destruct (collect_tasks_at Hk fuel Hfuel tasks s1 m V H1 Hlive Hlead Hent) as (s2 & V2 & E2 & H2 & Hout & Hu2).
  assert (Hunf : forall t e, V !! t = Some e -> unfetched e).
  { intros t e He. destruct (decide (t ∈ map (fun p => p.1.1) modes)) as [Hin|Hn]; [|by rewrite (HVn t Hn), lookup_empty in He]. apply list_elem_of_fmap in Hin as ([[t' mode] a] & -> & Hin). cbn in He. rewrite (HV _ _ _ Hin) in He. by injection He as <-. }
  assert (Hc : forall t e, V2 !! t = Some e -> counted e).
  { intros t e He. destruct (decide (t ∈ live_threads tasks)) as [Hin|Hn].
    - unfold live_threads in Hin. apply list_elem_of_In, in_concat in Hin as (l & Hl & Ht). apply list_elem_of_In in Hl, Ht. apply list_elem_of_fmap in Hl as (k & -> & Hkin). apply list_elem_of_filter in Hkin as [Hd Hkin].
      destruct (Hout k Hkin Hd) as (sync & Ho). destruct (Ho t Ht) as (e0 & He0 & He2 & _). assert (e = kept (fs := fs) sync (st_pid k) t e0) as -> by congruence. apply kept_counted. by eapply Hunf.
    - rewrite (Hu2 t Hn) in He. destruct (Hunf t e He) as [Hch Hnr]. unfold counted. by rewrite Hch, Hnr. }
  destruct (dump_at s2 m V2 H2 Hc) as (s3 & V3 & img & E3 & H3 & Hrun). exists s1, s3, img. split; [done|]. split; [unfold seccomp_collect_dump_filters, bind; rewrite E2; cbn [Z.ltb Z.compare]; by rewrite E3|].
  intros k Hkin Hd. destruct (Hout k Hkin Hd) as (sync & Ho). exists sync. intros t mode a Ht Hin. destruct (Ho t Ht) as (e & He & He2 & Hs). rewrite (HV _ _ _ Hin) in He. injection He as <-. cbn [se_mode] in Hs. split; [exact Hs|].
  destruct (Hrun t _ He2) as (e' & He' & Hr). apply (restores_kept fs fuel img s3 m V3 (st_pid k) t mode sync e' H3 He' Hr); [intros E; by apply Hs|by eapply Hmode|]. intros ->. destruct (Hprog t a (live_thread tasks k t Hkin Hd Ht) Hin) as [Hne Hok]. split_and!; [done|done|]. specialize (Hfuel t). lia.
Qed.

(** ** A dump of three tasks *)
(** the threads 10 and 11 filter by the same program, 20 by two and 21 not at all; 30 is a zombie *)
Definition prog (b : Z) : list Z := [b; 0; 0; 0; 0; 0; 255; 127].
Definition some_filters (t : Z) : list (list Z * Z) := if (t =? 10) || (t =? 11) then [(prog 6, 0)] else if t =? 20 then [(prog 6, 0); (prog 21 ++ prog 6, 2)] else [].
Definition some_get (t : Z) (i : nat) : got := match some_filters t !! i with Some (d, _) => GotFilter d | None => GotENOENT end.
Definition some_meta (t : Z) (i : nat) : meta := match some_filters t !! i with Some (_, f) => Flags f | None => MetaError end.
Definition some_modes : list (Z * Z * Z) := [(20, 2, 32); (10, 2, 16); (30, 2, 80); (11, 2, 48); (21, 0, 64)].
Definition some_sc_tasks : list sc_task := [mk_st 10 [10; 11] false; mk_st 20 [20; 21] false; mk_st 30 [30] true].

Lemma some_kernel_tells : kernel_tells some_filters false some_get some_meta.
Proof. split; [done|]. intros t i d f H. unfold some_meta. by rewrite H. Qed.
Lemma some_live : live_threads some_sc_tasks = [10; 11; 20; 21].
Proof. by vm_compute. Qed.
Lemma some_filters_short t : (length (some_filters t) < 4)%nat.
Proof. unfold some_filters. destruct (_ || _); [cbn; lia|]. destruct (_ =? _); cbn; lia. Qed.

Lemma seccomp_roundtrip_witness : exists s1 s2 img, collect_modes some_modes sc_init = Done (0, s1) /\ seccomp_collect_dump_filters some_get some_meta 4 true some_sc_tasks s1 = Done ((0, img), s2) /\
    forall k, k ∈ some_sc_tasks -> st_dead k = false -> exists sync : bool, forall t mode a, t ∈ st_threads k -> (t, mode, a) ∈ some_modes ->
      (sync = true -> mode = SECCOMP_MODE_FILTER /\ map fst (some_filters t) = map fst (some_filters (st_pid k))) /\
      restores 4 img s2 t (given some_filters sync (st_pid k) t mode).1 (given some_filters sync (st_pid k) t mode).2.
Proof.
  apply (seccomp_roundtrip some_filters false some_get some_meta 4 some_modes some_sc_tasks some_kernel_tells some_filters_short).
  - repeat constructor.
  - apply (bool_decide_unpack _). by vm_compute.
  - apply (bool_decide_unpack _). by vm_compute.
  - apply (bool_decide_unpack _). by vm_compute.
  - intros k Hk Hd. unfold some_sc_tasks in Hk. rewrite !elem_of_cons, elem_of_nil in Hk. destruct Hk as [->|[->|[->|[]]]]; [left|left|done].
  - intros t Ht. rewrite some_live in Ht. apply (bool_decide_unpack _). rewrite !elem_of_cons, elem_of_nil in Ht. destruct Ht as [->|[->|[->|[->|[]]]]]; by vm_compute.
  - intros t mode a Hin. unfold some_modes in Hin. rewrite !elem_of_cons, elem_of_nil in Hin. repeat destruct Hin as [Hin|Hin]; try done; injection Hin as -> -> ->; lia.
  - intros t a Ht Hin. rewrite some_live in Ht. rewrite !elem_of_cons, elem_of_nil in Ht. destruct Ht as [->|[->|[->|[->|[]]]]]; [..|unfold some_modes in Hin; rewrite !elem_of_cons, elem_of_nil in Hin; by repeat destruct Hin as [Hin|Hin]].
    all: split; [done|]; unfold program_ok; repeat constructor; by vm_compute.
Defined.

(** the image has the two chains that are left, and thread 20 starts with its last filter *)
Example some_image : match collect_modes some_modes sc_init with Done (_, s1) => match seccomp_collect_dump_filters some_get some_meta 4 true some_sc_tasks s1 with Done ((_, img), _) => img | _ => [] end | _ => [] end =
  [mk_sf (prog 6) 1 None; mk_sf (prog 21 ++ prog 6) 2 None; mk_sf (prog 6) 0 (Some 1)].
Proof. by vm_compute. Qed.

(** the flags of the filters are not compared: thread 11 asked for its actions to be logged (2), and is left to the filter of thread 10 *)
Example flags_of_thread_lost :
  let fs t := if t =? 10 then [(prog 6, 0)] else if t =? 11 then [(prog 6, 2)] else [] in
  let get_filter t i := match fs t !! i with Some (d, _) => GotFilter d | None => GotENOENT end in
  let get_meta t i := match fs t !! i with Some (_, f) => Flags f | None => MetaError end in
  match collect_modes [(10, 2, 16); (11, 2, 32)] sc_init with
  | Done (_, s1) => match seccomp_collect_dump_filters get_filter get_meta 4 true [mk_st 10 [10; 11] false] s1 with Done ((_, img), _) => img | _ => [] end
  | _ => []
  end = [mk_sf (prog 6) 1 None].
Proof. by vm_compute. Qed.

(** a filter that is its own [prev] in the image is followed for ever *)
Lemma cyclic_image_never_ends fuel d f size n : Z.of_nat (length d) mod SOCK_FILTER = 0 -> size_loop fuel [mk_sf d f (Some 0)] (mk_sf d f (Some 0)) size n = NoFuel.
Proof. intros Hd. revert size n. induction fuel as [|fuel IH]; intros size n; [done|]. cbn [size_loop sf_prev]. change (filter_at [mk_sf d f (Some 0)] 0) with (Some (mk_sf d f (Some 0))). cbn [sf_data]. rewrite Hd. cbn [Z.eqb negb]. apply IH. Qed.
End SeccompRestore.
