(* ===== verification/ServiceFd.v ===== *)
(** * Service descriptors: servicefd.c

    CRIU keeps its own descriptors at the top of the table of a task that is being restored, out of the way of those of the task; tasks
    that share a table have theirs below one another. *)
From S2P Require Import Prelude.
#[local] Open Scope cmon_scope.

Module ServiceFd.

(** [enum sfd_type] is a number between these *)
Definition SERVICE_FD_MIN : Z := 0.
Definition LOG_FD_OFF : Z := 1.
Definition SERVICE_FD_MAX : Z := 14.
Definition ALIGN : Z := 128.

(** the table of descriptors, the limit of the kernel on them, sfd_map, sfd_arr, service_fd_base, service_fd_id and sfds_protected *)
Record sfds := mk_sfds { fds : gmap Z Z; nofile : Z; sfd_map : gset Z; sfd_arr : gmap Z Z; service_fd_base : Z; service_fd_id : Z; sfds_protected : bool }.

Definition set_fds (f : gmap Z Z) (s : sfds) : sfds := mk_sfds f (nofile s) (sfd_map s) (sfd_arr s) (service_fd_base s) (service_fd_id s) (sfds_protected s).
Definition set_map (m : gset Z) (s : sfds) : sfds := mk_sfds (fds s) (nofile s) m (sfd_arr s) (service_fd_base s) (service_fd_id s) (sfds_protected s).
Definition set_arr (a : gmap Z Z) (s : sfds) : sfds := mk_sfds (fds s) (nofile s) (sfd_map s) a (service_fd_base s) (service_fd_id s) (sfds_protected s).
Definition set_base (b i : Z) (s : sfds) : sfds := mk_sfds (fds s) (nofile s) (sfd_map s) (sfd_arr s) b i (sfds_protected s).
Definition test_bit (type : Z) (s : sfds) : bool := bool_decide (type ∈ sfd_map s).

(** ** System calls *)
Definition sys_close (fd : Z) : M sfds Z := fun s => match fds s !! fd with Some _ => Done (0, set_fds (delete fd (fds s)) s) | None => Done (-1, s) end.
Definition sys_dup2 (old new : Z) : M sfds Z := fun s =>
  match fds s !! old with
  | Some f => if (0 <=? new) && (new <? nofile s) then Done (new, set_fds (<[new := f]> (fds s)) s) else Done (-1, s)
  | None => Done (-1, s)
  end.
(** the lowest descriptor from [new] on that is free *)
Fixpoint lowest (fuel : nat) (t : gmap Z Z) (new : Z) : Z := match fuel with O => new | S fuel => match t !! new with Some _ => lowest fuel t (new + 1) | None => new end end.
Definition sys_dupfd (old new : Z) : M sfds Z := fun s =>
  match fds s !! old with
  | Some f => let n := lowest (S (size (fds s))) (fds s) new in if (0 <=? new) && (n <? nofile s) then Done (n, set_fds (<[n := f]> (fds s)) s) else Done (-1, s)
  | None => Done (-1, s)
  end.

(** ** Where a service descriptor is *)
Definition __get_service_fd (base type id : Z) : Z := base - type - SERVICE_FD_MAX * id.
Definition valid_type (type : Z) : bool := (SERVICE_FD_MIN <? type) && (type <? SERVICE_FD_MAX).

Definition service_fd (s : sfds) (type : Z) : Z :=
  if negb (test_bit type s) then -1
  else if service_fd_base s =? 0 then match sfd_arr s !! type with Some fd => fd | None => 0 end
  else __get_service_fd (service_fd_base s) type (service_fd_id s).
Definition get_service_fd (type : Z) : M sfds Z := bug_on (negb (valid_type type)) ;;; fun s => Done (service_fd s type, s).

Definition is_any_service_fd (s : sfds) (fd : Z) : bool :=
  let sfd_min_fd := __get_service_fd (service_fd_base s) SERVICE_FD_MAX (service_fd_id s) in
  let sfd_max_fd := __get_service_fd (service_fd_base s) SERVICE_FD_MIN (service_fd_id s) in
  if (sfd_min_fd <? fd) && (fd <? sfd_max_fd) then
    let type := SERVICE_FD_MAX - (fd - sfd_min_fd) in
    if (SERVICE_FD_MIN <? type) && (type <? SERVICE_FD_MAX) then test_bit type s else false
  else false.

(** [fdt_nr] is the number of tasks that share the table, when it is shared *)
Definition service_fd_min_fd (rlim : Z) (fdt_nr : option Z) : Z :=
  let id := match fdt_nr with Some nr => nr - 1 | None => 0 end in rlim - (SERVICE_FD_MAX - 1) - SERVICE_FD_MAX * id.

(** ** Installing and closing *)
Definition sfds_protection_bug : M sfds unit := bug.

Definition install_service_fd (type fd : Z) : M sfds Z := fun s0 =>
  (let sfd := __get_service_fd (service_fd_base s0) type (service_fd_id s0) in
   bug_on (negb (valid_type type)) ;;;
   (if sfds_protected s0 && negb (test_bit type s0) then sfds_protection_bug else ret tt) ;;;
   if service_fd_base s0 =? 0 then
     (if test_bit type s0 then _ <~ sys_close (match sfd_arr s0 !! type with Some fd => fd | None => 0 end) ;; ret tt else ret tt) ;;;
     (fun s => Done (tt, set_map ({[type]} ∪ sfd_map s) (set_arr (<[type := fd]> (sfd_arr s)) s))) ;;;
     ret fd
   else
     tmp <~ (if negb (test_bit type s0) then sys_dupfd fd sfd else sys_dup2 fd sfd) ;;
     if tmp <? 0 then _ <~ sys_close fd ;; ret (-1)
     else if negb (tmp =? sfd) then _ <~ sys_close tmp ;; _ <~ sys_close fd ;; ret (-1)
     else (fun s => Done (tt, set_map ({[type]} ∪ sfd_map s) s)) ;;; _ <~ sys_close fd ;; ret sfd) s0.

Definition close_service_fd (type : Z) : M sfds Z := fun s =>
  ((if sfds_protected s then sfds_protection_bug else ret tt) ;;;
   fd <~ get_service_fd type ;;
   if fd <? 0 then ret 0
   else r <~ sys_close fd ;; if r <? 0 then ret (-1) else (fun s => Done (tt, set_map (sfd_map s ∖ {[type]}) s)) ;;; ret 0) s.

(** ** Moving them all *)
(** [share] is CLONE_FILES *)
Definition move_service_fd (share : bool) (type new_id new_base : Z) : M sfds Z :=
  old <~ get_service_fd type ;;
  let new := new_base - type - SERVICE_FD_MAX * new_id in
  if old <? 0 then ret 0
  else
    r <~ (fun s => (if negb (test_bit type s) then sys_dupfd old new else sys_dup2 old new) s) ;;
    if r =? -1 then ret (-1)
    else if negb (r =? new) then ret (-1)
    else if share then ret 0 else _ <~ sys_close old ;; ret 0.

(** the results are not looked at *)
Fixpoint move_loop (share : bool) (new_id new_base : Z) (types : list Z) : M sfds unit :=
  match types with [] => ret tt | t :: types => _ <~ move_service_fd share t new_id new_base ;; move_loop share new_id new_base types end.

(** the bits of a positive number: 32 - __builtin_clz *)
Definition bit_length (n : Z) : Z := Z.log2 n + 1.

(** what is looked at of struct rst_info: the number of tasks that share the table, the id, the greatest descriptor of the task, if any *)
Record me := mk_me { fdt_nr : option Z; me_id : Z; last_fd : option Z }.

Definition choose_service_fd_base (rlim inh_fd_max base : Z) (m : me) : Z :=
  match fdt_nr m with
  | Some _ => if negb (me_id m =? 0) then base else
      let nr := Z.max (match last_fd m with Some fd => fd | None => -1 end) inh_fd_max in
      let real_nr := nr + (SERVICE_FD_MAX - SERVICE_FD_MIN) * (match fdt_nr m with Some n => n | None => 1 end) + 16 in
      let k := real_nr / ALIGN in
      let nr := (if negb (k =? 0) then Z.shiftl 1 (bit_length k) else 1) * ALIGN in
      if rlim <? nr then (let nr := rlim / ALIGN * ALIGN in if nr <? real_nr then -1 else nr) else nr
  | None =>
      let nr := Z.max (match last_fd m with Some fd => fd | None => -1 end) inh_fd_max in
      let real_nr := nr + (SERVICE_FD_MAX - SERVICE_FD_MIN) * 1 + 16 in
      let k := real_nr / ALIGN in
      let nr := (if negb (k =? 0) then Z.shiftl 1 (bit_length k) else 1) * ALIGN in
      if rlim <? nr then (let nr := rlim / ALIGN * ALIGN in if nr <? real_nr then -1 else nr) else nr
  end.

Definition up_types : list Z := [1; 2; 3; 4; 5; 6; 7; 8; 9; 10; 11; 12; 13].

Definition clone_service_fd (rlim inh_fd_max : Z) (share : bool) (m : me) : M sfds Z := fun s =>
  let new_base := choose_service_fd_base rlim inh_fd_max (service_fd_base s) m in
  let id := me_id m in
  if new_base =? -1 then Done (-1, s)
  else if (service_fd_base s =? new_base) && (service_fd_id s =? id) then Done (0, s)
  else
    (log <~ get_service_fd LOG_FD_OFF ;;
     (if log <? new_base - LOG_FD_OFF - SERVICE_FD_MAX * id then move_loop share id new_base up_types else move_loop share id new_base (rev up_types)) ;;;
     (fun s => Done (tt, set_base new_base id s)) ;;; ret 0) s.
End ServiceFd.
