(* ===== verification/SessionHelpers.v ===== *)
(** * The helper tasks for sessions

    The first loop of prepare_pstree_ids: children of the root that are in the session of another task are stacked on a helper. *)
From S2P Require Import Prelude.
From S2P Require Import Pstree.
From S2P Require Import PstreeTree.
From S2P Require Import PstreeIds.
From S2P Require Import Sessions.
Import Pstree.Pstree PstreeTree.PstreeTree PstreeIds.PstreeIds Sessions.Sessions.
#[local] Open Scope cmon_scope.

Module SessionHelpers.

(** ** What the loops depend on *)
Record core := mk_core { c_parent : option Z; c_children : list Z; c_sid : Z; c_pgid : Z; c_born : Z; c_state : task_state }.
Definition core_of (i : pstree_item) : core := mk_core (parent i) (children i) (sid i) (pgid i) (born_sid i) (state i).
Definition cores (s : ps) (x : Z) : option core := match pids s !! x with Some (Item i) => Some (core_of i) | _ => None end.

Lemma cores_it s x c : cores s x = Some c <-> exists i, it s x i /\ core_of i = c.
Proof.
  unfold cores, it. split.
  - destruct (pids s !! x) as [[|i]|]; try done. intros [= <-]. by exists i.
  - by intros (i & -> & <-).
Qed.
Lemma it_cores s x i : it s x i -> cores s x = Some (core_of i).
Proof. intros H. apply cores_it. by exists i. Qed.
Lemma cores_links s x : links s x = (fun c => (c_parent c, c_children c)) <$> cores s x.
Proof. unfold links, cores. by destruct (pids s !! x) as [[|i]|]. Qed.
Lemma cores_set s x i y : cores (set_item x i s) y = if decide (y = x) then Some (core_of i) else cores s y.
Proof.
  unfold cores. cbn. destruct (decide (y = x)) as [->|Hne]; [rewrite lookup_insert; by rewrite decide_True|by rewrite lookup_insert_ne by done].
Qed.

(** the state next to the items *)
Record same_rest (s s' : ps) : Prop := {
  sr_root : root_item s' = root_item s;
  sr_prev : prev_pid s' = prev_pid s;
  sr_pids : forall x, is_Some (pids s !! x) -> is_Some (pids s' !! x);
}.
#[export] Instance same_rest_preorder : PreOrder same_rest.
Proof. split; [by intros s|]. intros s1 s2 s3 [A1 A2 A3] [B1 B2 B3]. split; [congruence..|auto]. Qed.

Lemma same_rest_set s x i : same_rest s (set_item x i s).
Proof.
  split; [done..|]. intros y Hy. cbn. destruct (decide (x = y)) as [->|Hne]; [rewrite lookup_insert; by rewrite decide_True|by rewrite lookup_insert_ne].
Qed.

Lemma same_rest_fdts s s' f : same_rest s s' -> same_rest s (set_fdts f s').
Proof. by intros []. Qed.

(** every descriptor table has a count of its users *)
Definition fdt_ok (s : ps) : Prop := forall x i o, it s x i -> fdt i = Some o -> is_Some (fdts s !! o).

Lemma fdt_ok_set s x i : fdt_ok s -> (forall o, fdt i = Some o -> is_Some (fdts s !! o)) -> fdt_ok (set_item x i s).
Proof.
  intros H Hi y j o Hj Ho. destruct (decide (x = y)) as [->|Hne]; [apply it_set in Hj as ->; by apply Hi|]. apply it_set_ne in Hj; [|done]. by eapply H.
Qed.
Lemma fdt_ok_update s x i f : fdt_ok s -> it s x i -> fdt (f i) = fdt i -> fdt_ok (set_item x (f i) s).
Proof. intros H Hi Hf. apply fdt_ok_set; [done|]. intros o. rewrite Hf. by apply (H x). Qed.

(** what the cloning of a task depends on *)
Definition clones (s : ps) (x : Z) : option (option kobj_ids * Z) := match pids s !! x with Some (Item i) => Some (ids i, clone_flags i) | _ => None end.
Lemma it_clones s x i : it s x i -> clones s x = Some (ids i, clone_flags i).
Proof. unfold it, clones. by intros ->. Qed.
Lemma clones_set s x i y : clones (set_item x i s) y = if decide (y = x) then Some (ids i, clone_flags i) else clones s y.
Proof.
  unfold clones. cbn. destruct (decide (y = x)) as [->|Hne]; [rewrite lookup_insert; by rewrite decide_True|by rewrite lookup_insert_ne by done].
Qed.
(** the table of descriptors of an item changes *)
Lemma fdt_same s x i o n y : it s x i -> cores (set_item x (with_fdt o n i) s) y = cores s y /\ clones (set_item x (with_fdt o n i) s) y = clones s y.
Proof. intros H. rewrite cores_set, clones_set. destruct (decide (y = x)) as [->|]; [by rewrite (it_cores _ _ _ H), (it_clones _ _ _ H)|done]. Qed.

Lemma shared_fdt_prepare_spec s x i p ip : it s x i -> parent i = Some p -> it s p ip -> p <> x -> fdt_ok s ->
  exists s', shared_fdt_prepare x s = Done (0, s') /\ (forall y, cores s' y = cores s y /\ clones s' y = clones s y) /\ same_rest s s' /\ fdt_ok s' /\ root_ns_mask s' = root_ns_mask s.
Proof.
  intros Hi Hp Hip Hpx Hok. unfold shared_fdt_prepare, bind. rewrite (item_it s x i Hi), Hp, (item_it s p ip Hip).
  assert (Hstep : exists o nr s1, (match fdt ip with
      | Some owner => ret owner
      | None => fun s => match update p (with_fdt (Some p) (service_fd_id ip)) s with
                | Done (_, s') => Done (p, set_fdts (<[p:=1]> (fdts s')) s') | Bug => Bug | NoFuel => NoFuel end
      end) s = Done (o, s1) /\ fdts s1 !! o = Some nr /\ it s1 x i /\ (forall y, cores s1 y = cores s y /\ clones s1 y = clones s y) /\ same_rest s s1 /\ fdt_ok s1 /\ root_ns_mask s1 = root_ns_mask s).
  { destruct (fdt ip) as [o|] eqn:Ef.
    - destruct (Hok p ip o Hip Ef) as [nr Hnr]. by exists o, nr, s.
    - rewrite (update_it s p ip _ Hip). exists p, 1. eexists. split; [done|]. cbn. rewrite lookup_insert, decide_True by done. split; [done|]. split; [by apply it_set_ne|].
      split; [|split; [apply same_rest_fdts, same_rest_set|split; [|done]]].
      + intros y. exact (fdt_same s p ip (Some p) (service_fd_id ip) y Hip).
      + intros y j o Hj Ho. cbn. destruct (decide (p = o)) as [->|Hne]; [rewrite lookup_insert; by rewrite decide_True|]. rewrite lookup_insert_ne by done.
        destruct (decide (p = y)) as [->|Hpy].
        * apply (it_set s) in Hj. subst j. cbn in Ho. congruence.
        * apply (it_set_ne s) in Hj; [|done]. by eapply (Hok y j). }
  destruct Hstep as (o & nr & s1 & E & Hnr & Hi1 & Hc & Hsr & Hok1 & Hmask). unfold ret in E |- *. rewrite E, Hnr, (update_it s1 x i _ Hi1). eexists. split; [done|]. split; [|split; [|split; [|exact Hmask]]].
  - intros y. destruct (Hc y) as [<- <-]. exact (fdt_same s1 x i (Some o) nr y Hi1).
  - etransitivity; [exact Hsr|]. apply same_rest_fdts, same_rest_set.
  - intros y j q Hj Hq. cbn. destruct (decide (o = q)) as [->|Hne]; [rewrite lookup_insert; by rewrite decide_True|]. rewrite lookup_insert_ne by done.
    destruct (decide (x = y)) as [->|Hpy].
    + apply (it_set s1) in Hj. subst j. cbn in Hq. congruence.
    + apply (it_set_ne s1) in Hj; [|done]. by eapply (Hok1 y j).
Qed.

Definition with_core_state (st : task_state) (c : core) : core := mk_core (c_parent c) (c_children c) (c_sid c) (c_pgid c) (c_born c) st.

Lemma init_pstree_helper_spec s x i p ip : it s x i -> parent i = Some p -> it s p ip -> p <> x -> fdt_ok s ->
  exists s', init_pstree_helper x s = Done (0, s') /\
    (forall y, cores s' y = if decide (y = x) then Some (with_core_state TASK_HELPER (core_of i)) else cores s y) /\ same_rest s s' /\ fdt_ok s'.
Proof.
  intros Hi Hp Hip Hpx Hok. unfold init_pstree_helper, bind. rewrite (item_it s x i Hi), Hp. cbn [bug_on bool_decide]. unfold bug_on.
  rewrite bool_decide_eq_false_2 by done. rewrite (update_it s x i _ Hi). set (i1 := with_clone_flags _ _). set (s1 := set_item x i1 s).
  destruct (shared_fdt_prepare_spec s1 x i1 p ip) as (s2 & E & Hc & Hsr & Hok2 & _); [by apply it_set|done|by apply it_set_ne|done|by apply (fdt_ok_update s x i (fun _ => i1))|].
  rewrite E. cbn [Z.ltb Z.compare]. eexists. split; [done|]. split; [|split].
  - intros y. change (cores s2 y = if decide (y = x) then Some (with_core_state TASK_HELPER (core_of i)) else cores s y). rewrite (proj1 (Hc y)). unfold s1. by rewrite cores_set.
  - etransitivity; [apply (same_rest_set s x i1)|]. etransitivity; [exact Hsr|]. by split.
  - exact Hok2.
Qed.

Lemma prev_ok_rest s s' : same_rest s s' -> prev_ok s -> prev_ok s'.
Proof.
  intros [_ Hp Hin] H. unfold prev_ok in *. rewrite Hp. destruct (prev_pid s) as [p|]; [by apply Hin|]. intros E. apply H. apply map_empty. intros x.
  destruct (pids s !! x) eqn:Ex; [|done]. destruct (Hin x) as [n Hn]; [by eexists|]. rewrite E in Hn. by rewrite lookup_empty in Hn.
Qed.

(** ** How the tree came to be *)
(** [b]: the session in which a task was born; [age]: when.  A task is in the session in which it was born or leads its own; it was born in the session
    its parent was in, before or after the parent led its own, or it was left to the root when its parent died.  The leader of a session is older than
    the others in it, and a session has the pid of its leader. *)
Record history (C : Z -> option core) (r : Z) (b age : Z -> Z) : Prop := {
  hi_state : forall x c, C x = Some c -> (c_state c = TASK_UNDEF <-> c_parent c = None /\ x <> r);
  hi_age : forall y d x, C y = Some d -> c_parent d = Some x -> age x <= age y;
  hi_old : forall y d x c, C y = Some d -> c_state d = TASK_ALIVE -> C x = Some c -> c_state c <> TASK_UNDEF -> c_sid d = x -> x <> y -> age x < age y;
  hi_first : forall y d, C y = Some d -> c_state d = TASK_ALIVE -> y <> r -> age r < age y;
  hi_leader : forall y d x c, C y = Some d -> c_state d <> TASK_UNDEF -> C x = Some c -> c_state c <> TASK_UNDEF -> c_sid d = x -> c_sid c = x;
  hi_birth : forall y d x c, C y = Some d -> c_parent d = Some x -> x <> r -> C x = Some c -> b y = c_sid c \/ b y = b x;
  hi_nonleader : forall y d, C y = Some d -> c_state d <> TASK_UNDEF -> y <> r -> c_sid d <> y -> b y = c_sid d;
  hi_sid : forall y d, C y = Some d -> c_state d <> TASK_UNDEF -> c_sid d <> -1 /\ is_Some (C (c_sid d));
  hi_helper : forall y d, C y = Some d -> c_state d = TASK_HELPER -> c_sid d = y \/ c_parent d = Some (c_sid d) /\ c_sid d <> r;
  hi_unborn : forall y d, C y = Some d -> c_born d = -1;
}.

(** the children of the root that are in a session which is neither theirs nor the root's have a living leader *)
Definition orphans_led (C : Z -> option core) (r : Z) : Prop :=
  forall y d cr, C y = Some d -> C r = Some cr -> c_parent d = Some r -> c_sid d <> y -> c_sid d <> c_sid cr -> exists c, C (c_sid d) = Some c /\ c_state c <> TASK_UNDEF.
(** no task but these is in another session than its parent without leading it *)
Definition no_late (C : Z -> option core) (r : Z) : Prop :=
  forall y d x c, C y = Some d -> c_parent d = Some x -> x <> r -> C x = Some c -> c_sid d = y \/ c_sid d = c_sid c.

(** what stays of the tasks of the tree *)
Definition kept (C C' : Z -> option core) : Prop :=
  forall y c, C y = Some c -> exists c', C' y = Some c' /\
    (c_state c <> TASK_UNDEF -> c_sid c' = c_sid c /\ c_pgid c' = c_pgid c /\ c_state c' = c_state c).
#[export] Instance kept_preorder : PreOrder kept.
Proof.
  split; [intros C y c H; exists c; by split|]. intros C1 C2 C3 H1 H2 y c Hy. destruct (H1 y c Hy) as (c2 & Hy2 & E). destruct (H2 y c2 Hy2) as (c3 & Hy3 & F).
  exists c3. split; [done|]. intros Hc. destruct (E Hc) as (E1 & E2 & E3). rewrite <-E3 in Hc. destruct (F Hc) as (F1 & F2 & F3). split_and!; congruence.
Qed.

(** the process groups of the tasks have items *)
Definition groups_known (C : Z -> option core) : Prop :=
  forall y d, C y = Some d -> c_state d <> TASK_UNDEF -> c_pgid d <> 0 -> is_Some (C (c_pgid d)).
Lemma groups_kept C C' : groups_known C -> kept C C' ->
  (forall y d, C' y = Some d -> c_state d <> TASK_UNDEF -> (exists c, C y = Some c /\ c_state c <> TASK_UNDEF) \/ (c_pgid d <> 0 -> is_Some (C (c_pgid d)))) -> groups_known C'.
Proof.
  intros Hg Hk Hn y d Hy Hst Hp. assert (is_Some (C (c_pgid d))) as [c Hc]; [|destruct (Hk _ c Hc) as (c' & -> & _); by eexists].
  destruct (Hn y d Hy Hst) as [(c & Hc & Hcs)|H]; [|by apply H]. destruct (Hk y c Hc) as (c' & E & F). rewrite Hy in E. injection E as <-. destruct (F Hcs) as (_ & F2 & _).
  rewrite F2 in *. by eapply Hg.
Qed.

(** ** A child is moved to a helper *)
Definition with_core_parent (p : option Z) (c : core) : core := mk_core p (c_children c) (c_sid c) (c_pgid c) (c_born c) (c_state c).
Definition with_core_children (l : list Z) (c : core) : core := mk_core (c_parent c) l (c_sid c) (c_pgid c) (c_born c) (c_state c).

Lemma move_child_spec s x r h ix ir ih : it s x ix -> it s r ir -> it s h ih -> x <> r -> x <> h -> h <> r -> fdt_ok s ->
  exists s', move_child x r h s = Done (tt, s') /\ same_rest s s' /\ fdt_ok s' /\
    forall y, cores s' y = if decide (y = x) then Some (with_core_parent (Some h) (core_of ix))
      else if decide (y = r) then Some (with_core_children (filter (fun c => c <> x) (children ir)) (core_of ir))
      else if decide (y = h) then Some (with_core_children (x :: children ih) (core_of ih)) else cores s y.
Proof.
  intros Hx Hr Hh Hxr Hxh Hhr Hok. unfold move_child, bind. rewrite (update_it s r ir _ Hr). set (s1 := set_item r _ s).
  assert (Hx1 : it s1 x ix) by (by apply it_set_ne). rewrite (update_it s1 x ix _ Hx1). set (s2 := set_item x _ s1).
  assert (Hh2 : it s2 h ih) by (apply it_set_ne; [done|]; by apply it_set_ne). rewrite (update_it s2 h ih _ Hh2).
  eexists. split; [done|]. split; [|split].
  - etransitivity; [apply same_rest_set|]. etransitivity; apply same_rest_set.
  - apply (fdt_ok_update s2 h ih); [|done|done]. apply (fdt_ok_update s1 x ix); [|done|done]. by apply (fdt_ok_update s r ir).
  - intros y. rewrite cores_set. unfold s2. rewrite cores_set. unfold s1. rewrite cores_set.
    destruct (decide (y = x)) as [->|]; [by rewrite decide_False|]. destruct (decide (y = r)) as [->|]; [by rewrite decide_False|]. done.
Qed.

Section Move.
Variables (s : ps) (r : Z) (hs : list Z) (b age : Z -> Z).
Context (Hlk : linked s r hs) (Hhi : history (cores s) r b age) (Hok : fdt_ok s).
(** the helper [h], the child [x] of the root to be moved *)
Variables (x h : Z) (ir ix ih : pstree_item).
Context (Hr : it s r ir) (Hx : it s x ix) (Hh : it s h ih) (Hin : x ∈ children ir) (Hhh : state ih = TASK_HELPER).
Context (Hsid : sid ix = sid ih) (Hsx : sid ix <> x) (Hnr : sid ix <> sid ir).
(** the leader of the session is at [sid ih], perhaps the helper itself *)
Context (Hlead : exists c, cores s (sid ih) = Some c /\ c_state c <> TASK_UNDEF) (Hage : age h <= age (sid ih)) (Hhr : h <> r).

Lemma moved_parent : parent ix = Some r.
Proof using Hlk Hr Hx Hin. destruct (lk_down s r hs Hlk r ir x Hr Hin) as (j & Hj & Hp). by rewrite (it_fun _ _ _ _ Hx Hj). Qed.

Lemma moved_not_root : x <> r.
Proof using Hlk Hr Hx Hin. pose proof moved_parent as Hp. intros E. destruct (lk_root s r hs Hlk) as (i & Hi & Hpi). rewrite <-E in Hi. rewrite (it_fun _ _ _ _ Hi Hx) in Hpi. congruence. Qed.

Lemma moved_linked : state ix <> TASK_UNDEF.
Proof using Hlk Hhi Hr Hx Hin. intros E. destruct (proj1 (hi_state _ _ _ _ Hhi x _ (it_cores _ _ _ Hx)) E) as [Hp _]. cbn in Hp. pose proof moved_parent. congruence. Qed.

(** it is an orphan from the images *)
Lemma moved_alive : state ix = TASK_ALIVE.
Proof using Hlk Hhi Hr Hx Hin Hsx.
  pose proof moved_linked as Hu. destruct (state ix) eqn:E; [done|done|]. destruct (hi_helper _ _ _ _ Hhi x _ (it_cores _ _ _ Hx) E) as [H|[H1 H2]]; [done|].
  cbn in *. rewrite moved_parent in H1. congruence.
Qed.

Lemma moved_ne : x <> h.
Proof using Hlk Hhi Hr Hx Hh Hin Hhh Hsx. pose proof moved_alive as E. intros Exh. pose proof Hh as Hh'. rewrite <-Exh in Hh'. rewrite (it_fun _ _ _ _ Hx Hh') in E. congruence. Qed.

Lemma moved_younger : age h < age x.
Proof using Hlk Hhi Hr Hx Hin Hsx Hsid Hlead Hage.
  destruct Hlead as (c & Hc & Hcs). rewrite <-Hsid in *. eapply Z.le_lt_trans; [exact Hage|].
  by eapply (hi_old _ _ _ _ Hhi x _ (sid ix) c (it_cores _ _ _ Hx) moved_alive Hc Hcs).
Qed.

(** the helper is not below it *)
Lemma helper_apart : up_to (fun y => if decide (y = x) then None else links s y) r h.
Proof using Hlk Hhi Hr Hx Hh Hin Hhh Hsx Hsid Hlead Hage Hhr.
  pose proof moved_younger as Hy. apply (up_to_keep (links s) _ r h (fun y => age y <= age h)); [|lia| |].
  - assert (Hp : exists p, parent ih = Some p).
    { destruct (parent ih) as [p|] eqn:Ep; [by exists p|]. exfalso.
      pose proof (proj2 (hi_state _ _ _ _ Hhi h _ (it_cores _ _ _ Hh)) (conj Ep Hhr)) as E. cbn in E. congruence. }
    destruct Hp as (p & Hp). apply linked_links in Hlk as [_ Hup]. apply (Hup h p (children ih)). by rewrite (it_links _ _ _ Hh), Hp.
  - intros y p c Hy' (j & Hj & Hpj & _)%links_it. pose proof (hi_age _ _ _ _ Hhi y _ p (it_cores _ _ _ Hj) Hpj). lia.
  - intros y p c Hy' Hl. exists c. rewrite decide_False; [done|]. intros ->. lia.
Qed.

Lemma move_keeps s' : (forall y, cores s' y = if decide (y = x) then Some (with_core_parent (Some h) (core_of ix))
      else if decide (y = r) then Some (with_core_children (filter (fun c => c <> x) (children ir)) (core_of ir))
      else if decide (y = h) then Some (with_core_children (x :: children ih) (core_of ih)) else cores s y) ->
  linked s' r hs /\ history (cores s') r b age.
Proof using Hlk Hhi Hr Hx Hh Hin Hhh Hsx Hsid Hlead Hage Hhr.
  intros HC. pose proof moved_not_root as Hxr. pose proof moved_ne as Hxh. pose proof moved_parent as Hxp. split.
  - destruct (lk_root s r hs Hlk) as (i & Hi & Hpi). rewrite (it_fun _ _ _ _ Hi Hr) in Hpi.
    apply (linked_move s s' r hs x h (children ir) (children ix) (parent ih) (children ih)); try done.
    + by rewrite (it_links _ _ _ Hr), Hpi.
    + by rewrite (it_links _ _ _ Hx), Hxp.
    + by rewrite (it_links _ _ _ Hh).
    + exact helper_apart.
    + rewrite cores_links, HC, decide_True by done. done.
    + rewrite cores_links, HC, decide_False, decide_True by done. cbn. by rewrite Hpi.
    + rewrite cores_links, HC, decide_False, decide_False, decide_True by done. done.
    + intros y H1 H2 H3. rewrite !cores_links, HC. by rewrite !decide_False.
  - (* what is kept of every task *)
    assert (Hget : forall y d, cores s' y = Some d -> exists d0, cores s y = Some d0 /\ c_sid d = c_sid d0 /\ c_state d = c_state d0 /\ c_born d = c_born d0 /\
        (c_parent d = c_parent d0 \/ y = x /\ c_parent d = Some h)).
    { intros y d Hy. rewrite HC in Hy. destruct (decide (y = x)) as [->|]; [injection Hy as <-; eexists; split; [by apply it_cores|]; split_and!; auto|].
      destruct (decide (y = r)) as [->|]; [injection Hy as <-; eexists; split; [by apply it_cores|]; split_and!; auto|].
      destruct (decide (y = h)) as [->|]; [injection Hy as <-; eexists; split; [by apply it_cores|]; split_and!; auto|]. exists d. split_and!; auto. }
    assert (Hsome : forall y, is_Some (cores s y) -> is_Some (cores s' y)) by (intros y Hy; rewrite HC; repeat case_decide; done).
    destruct Hhi as [A1 A2 A3 A3' A4 A5 A6 A7 A8 A9]. split.
    + intros y d Hy. destruct (Hget y d Hy) as (d0 & H0 & E1 & E2 & E3 & [E4|[-> E4]]); rewrite E2; [rewrite E4; by apply A1|].
      rewrite (A1 _ _ H0), E4. pose proof (it_cores _ _ _ Hx) as Hc. rewrite Hc in H0. injection H0 as <-. cbn. rewrite Hxp. naive_solver.
    + intros y d z Hy Hz. destruct (Hget y d Hy) as (d0 & H0 & E1 & E2 & E3 & [E4|[-> E4]]); [rewrite E4 in Hz; eauto|]. pose proof moved_younger. assert (z = h) as -> by congruence. lia.
    + intros y d z c Hy Hst Hz Hzs. destruct (Hget y d Hy) as (d0 & H0 & E1 & E2 & _), (Hget z c Hz) as (c0 & G0 & _ & G2 & _). rewrite E1. rewrite E2 in Hst. rewrite G2 in Hzs. eauto.
    + intros y d Hy Hst. destruct (Hget y d Hy) as (d0 & H0 & _ & E2 & _). rewrite E2 in Hst. eauto.
    + intros y d z c Hy Hst Hz Hzs. destruct (Hget y d Hy) as (d0 & H0 & E1 & E2 & _), (Hget z c Hz) as (c0 & G0 & G1 & G2 & _). rewrite E1, G1. rewrite E2 in Hst. rewrite G2 in Hzs. eauto.
    + intros y d z c Hy Hp Hzr Hz. destruct (Hget y d Hy) as (d0 & H0 & E1 & E2 & _ & [E4|[-> E4]]), (Hget z c Hz) as (c0 & G0 & G1 & _); rewrite G1; [rewrite E4 in Hp; eauto|].
      left. assert (z = h) as -> by congruence. rewrite (it_cores _ _ _ Hh) in G0. injection G0 as <-. cbn. rewrite <-Hsid.
      eapply (A6 x _ (it_cores _ _ _ Hx)); [exact moved_linked|done|done].
    + intros y d Hy Hst. destruct (Hget y d Hy) as (d0 & H0 & E1 & E2 & _). rewrite E1. rewrite E2 in Hst. eauto.
    + intros y d Hy Hst. destruct (Hget y d Hy) as (d0 & H0 & E1 & E2 & _). rewrite E1. rewrite E2 in Hst. destruct (A7 y d0 H0 Hst) as [B1 B2]. auto.
    + intros y d Hy Hst. destruct (Hget y d Hy) as (d0 & H0 & E1 & E2 & _ & [E4|[-> E4]]); rewrite E1; rewrite E2 in Hst; [rewrite E4; eauto|].
      rewrite (it_cores _ _ _ Hx) in H0. injection H0 as <-. cbn in Hst. pose proof moved_alive. congruence.
    + intros y d Hy. destruct (Hget y d Hy) as (d0 & H0 & _ & _ & E3 & _). rewrite E3. eauto.
Qed.
End Move.

(** [lax]: tasks may be in another session than their parent without leading it *)
Section Lax.
Variable lax : Prop.

Record helpers_inv (s : ps) (r : Z) (hs : list Z) (b age : Z -> Z) : Prop := {
  hv_linked : linked s r hs;
  hv_history : history (cores s) r b age;
  hv_fdt : fdt_ok s;
  hv_root : root_item s = Some r;
  hv_prev : prev_ok s;
  hv_late : (lax /\ orphans_led (cores s) r /\ hs = []) \/ no_late (cores s) r;
  hv_leaders : forall y, y ∈ hs -> exists c, cores s y = Some c /\ c_sid c = y /\ c_state c = TASK_HELPER;
  hv_groups : groups_known (cores s);
}.

(** what moving a child does to each task *)
Definition moved (C C' : Z -> option core) (x h : Z) : Prop :=
  forall y, match C y with
  | None => C' y = None
  | Some c => exists c', C' y = Some c' /\ c_sid c' = c_sid c /\ c_pgid c' = c_pgid c /\ c_born c' = c_born c /\ c_state c' = c_state c /\
      c_parent c' = (if decide (y = x) then Some h else c_parent c)
  end.

Lemma moved_late C C' x h r (hs : list Z) cx ch : moved C C' x h -> C x = Some cx -> C h = Some ch -> c_sid cx = c_sid ch -> h <> r -> h <> x ->
  (lax /\ orphans_led C r /\ hs = []) \/ no_late C r -> (lax /\ orphans_led C' r /\ hs = []) \/ no_late C' r.
Proof.
  intros Hm Hx Hh Hs Hhr Hhx.
  assert (Hget : forall y d, C' y = Some d -> exists d0, C y = Some d0 /\ c_sid d = c_sid d0 /\ c_state d = c_state d0 /\ c_parent d = (if decide (y = x) then Some h else c_parent d0)).
  { intros y d Hy. specialize (Hm y). destruct (C y) as [c|]; [|congruence]. destruct Hm as (c' & E & E1 & E2 & E3 & E4 & E5). rewrite Hy in E. injection E as <-. exists c. by split_and!. }
  intros [(Hlx & Ho & Hhs)|Hn]; [left|right].
  - split; [done|]. split; [|done]. intros y d cr Hy Hr Hp Hsy Hsr. destruct (Hget y d Hy) as (d0 & H0 & E1 & E2 & E3), (Hget r cr Hr) as (r0 & G0 & G1 & _).
    destruct (decide (y = x)) as [->|Hyx]; [congruence|]. rewrite E1 in *. rewrite G1 in Hsr. rewrite E3 in Hp. destruct (Ho y d0 r0 H0 G0 Hp Hsy Hsr) as (c & Hc & Hcs).
    specialize (Hm (c_sid d0)). rewrite Hc in Hm. destruct Hm as (c' & F & _ & _ & _ & F4 & _). exists c'. split; [done|]. congruence.
  - intros y d z c Hy Hp Hzr Hz. destruct (Hget y d Hy) as (d0 & H0 & E1 & E2 & E3), (Hget z c Hz) as (c0 & G0 & G1 & _).
    rewrite E1, G1. destruct (decide (y = x)) as [->|Hyx].
    + right. rewrite E3 in Hp. injection Hp as <-. rewrite Hx in H0. injection H0 as <-. rewrite Hh in G0. injection G0 as <-. done.
    + rewrite E3 in Hp. by eapply Hn.
Qed.

Lemma moved_kept C C' x h : moved C C' x h -> kept C C'.
Proof. intros Hm y c Hy. specialize (Hm y). rewrite Hy in Hm. destruct Hm as (c' & E & E1 & E2 & E3 & E4 & _). exists c'. by split_and!. Qed.

Lemma sid_of_kept s s' x i : it s x i -> state i <> TASK_UNDEF -> kept (cores s) (cores s') -> sid_of s' x = sid i.
Proof.
  intros Hi Hst Hk. destruct (Hk x _ (it_cores _ _ _ Hi)) as (c & (j & Hj & <-)%cores_it & E). destruct (E Hst) as (E1 & _). by rewrite (sid_of_it s' x j Hj).
Qed.

(** whether a child is stacked on the helper for session [S] *)
Definition stays (s : ps) (S0 : Z) (c : Z) : Prop := sid_of s c <> S0 \/ S0 = c.
#[export] Instance stays_dec s S0 c : Decision (stays s S0 c).
Proof. unfold stays. apply _. Defined.

Lemma child_state s r hs b age ir x : linked s r hs -> history (cores s) r b age -> it s r ir -> x ∈ children ir ->
  exists ix, it s x ix /\ parent ix = Some r /\ state ix <> TASK_UNDEF.
Proof.
  intros Hlk Hhi Hr Hx. destruct (lk_down s r hs Hlk r ir x Hr Hx) as (ix & Hix & Hp). exists ix. split_and!; [done|done|]. intros E.
  destruct (proj1 (hi_state _ _ _ _ Hhi x _ (it_cores _ _ _ Hix)) E) as [Hp' _]. cbn in Hp'. congruence.
Qed.

Lemma filter_ne_all x (l : list Z) : x ∉ l -> filter (fun c => c <> x) l = l.
Proof. induction l as [|y l IH]; intros H; [done|]. rewrite filter_cons. apply not_elem_of_cons in H as [H1 H2]. rewrite decide_True by done. f_equal. by apply IH. Qed.

Lemma stack_loop_spec l : forall s r h hs b age dn ir ih, helpers_inv s r hs b age -> it s r ir -> it s h ih -> children ir = dn ++ l -> state ih = TASK_HELPER ->
  h <> r -> age h <= age (sid ih) -> (exists c, cores s (sid ih) = Some c /\ c_state c <> TASK_UNDEF) -> sid ih <> sid ir ->
  exists s', stack_loop r h l s = Done (tt, s') /\ helpers_inv s' r hs b age /\ same_rest s s' /\ kept (cores s) (cores s') /\
    exists ir', it s' r ir' /\ children ir' = dn ++ filter (stays s (sid ih)) l /\ sid ir' = sid ir.
Proof.
  induction l as [|x l IH]; intros s r h hs b age dn ir ih Hv Hr Hh Hc Hhh Hhr Hage Hlead Hnr.
  - exists s. split_and!; try done. by exists ir.
  - pose proof Hv as [Hlk Hhi Hok Hro Hpr Hlate Hld Hgr]. assert (Hin : x ∈ children ir) by (rewrite Hc; apply elem_of_app; right; left).
    destruct (child_state s r hs b age ir x Hlk Hhi Hr Hin) as (ix & Hx & Hpx & Hsx). cbn [stack_loop]. unfold bind at 1 2. rewrite (item_it s x ix Hx), (item_it s h ih Hh).
    rewrite filter_cons. destruct (negb (sid ix =? sid ih) || (sid ix =? x)) eqn:E.
    + assert (Hst : stays s (sid ih) x).
      { unfold stays. rewrite (sid_of_it s x ix Hx). apply orb_true_iff in E as [E|E]; [apply negb_true_iff, Z.eqb_neq in E; by left|].
        apply Z.eqb_eq in E. destruct (decide (sid ix = sid ih)); [right; congruence|by left]. }
      rewrite decide_True by done. unfold bind, ret.
      destruct (IH s r h hs b age (dn ++ [x]) ir ih Hv Hr Hh) as (s' & E1 & E2 & E3 & E4 & ir' & E5 & E6 & E7); [by rewrite <-app_assoc|done..|].
      exists s'. split_and!; [done..|]. exists ir'. split_and!; [done| |done]. by rewrite E6, <-app_assoc.
    + apply orb_false_iff in E as [Es%negb_false_iff%Z.eqb_eq Ex%Z.eqb_neq].
      assert (Hst : ~ stays s (sid ih) x) by (unfold stays; rewrite (sid_of_it s x ix Hx); intros [|]; congruence). rewrite decide_False by done.
      assert (Hnr' : sid ix <> sid ir) by congruence.
      pose proof (moved_not_root s r hs Hlk x ir ix Hr Hx Hin) as Hxr. pose proof (moved_ne s r hs b age Hlk Hhi x h ir ix ih Hr Hx Hh Hin Hhh Ex) as Hxh.
      destruct (move_child_spec s x r h ix ir ih Hx Hr Hh Hxr Hxh Hhr Hok) as (s1 & Em & Hsr & Hok1 & HC). unfold bind. rewrite Em.
      destruct (move_keeps s r hs b age Hlk Hhi x h ir ix ih Hr Hx Hh Hin Hhh Es Ex Hlead Hage Hhr s1 HC) as [Hlk1 Hhi1].
      assert (Hmv : moved (cores s) (cores s1) x h).
      { intros y. rewrite HC. destruct (decide (y = x)) as [->|]; [rewrite (it_cores _ _ _ Hx); by eexists|].
        destruct (decide (y = r)) as [->|]; [rewrite (it_cores _ _ _ Hr); by eexists|]. destruct (decide (y = h)) as [->|]; [rewrite (it_cores _ _ _ Hh); by eexists|].
        destruct (cores s y) as [c|]; [by exists c|done]. }
      assert (Hv1 : helpers_inv s1 r hs b age).
      { split; [done..| | | | |].
        - by rewrite (sr_root _ _ Hsr).
        - by eapply prev_ok_rest.
        - by eapply (moved_late (cores s) (cores s1) x h r hs); [done|by apply it_cores|by apply it_cores|done..].
        - intros y Hy. destruct (Hld y Hy) as (c & Hcy & E1 & E2). specialize (Hmv y). rewrite Hcy in Hmv. destruct Hmv as (c' & F & F1 & _ & _ & F4 & _).
          exists c'. split_and!; congruence.
        - apply (groups_kept (cores s)); [done|by eapply moved_kept|]. intros y d Hy Hyst. left. specialize (Hmv y). destruct (cores s y) as [c|]; [|congruence].
          destruct Hmv as (c' & F & _ & _ & _ & F4 & _). exists c. split; [done|congruence]. }
      pose proof (HC r) as Hr1. rewrite decide_False, decide_True in Hr1 by done. apply cores_it in Hr1 as (ir1 & Hr1 & Er1).
      pose proof (HC h) as Hh1. rewrite !decide_False, decide_True in Hh1 by done. apply cores_it in Hh1 as (ih1 & Hh1 & Eh1). injection Er1 as Er1 Er2 Er3 Er4 Er5 Er6. injection Eh1 as Eh1 Eh2 Eh3 Eh4 Eh5 Eh6.
      assert (Hnd : NoDup (dn ++ x :: l)) by (rewrite <-Hc; exact (lk_nodup s r hs Hlk r ir Hr)).
      apply list.NoDup_app in Hnd as (Hnd1 & Hnd2 & Hnd3). apply list.NoDup_cons in Hnd3 as [Hnd3 _].
      destruct (IH s1 r h hs b age dn ir1 ih1 Hv1 Hr1 Hh1) as (s' & E1 & E2 & E3 & E4 & ir' & E5 & E6 & E7).
      * rewrite Er2, Hc, list.filter_app, filter_cons, decide_False by (intros ?; done). rewrite !filter_ne_all; [done|done|]. intros Hx'. by eapply (Hnd2 x); [|left].
      * congruence.
      * done.
      * by rewrite Eh3.
      * rewrite Eh3. destruct Hlead as (c & Hcl & Hcs). pose proof (Hmv (sid ih)) as Hm. rewrite Hcl in Hm. destruct Hm as (c' & F & _ & _ & _ & F4 & _). exists c'. split; congruence.
      * congruence.
      * exists s'. split; [done|]. split; [done|]. split; [by etransitivity|]. split; [etransitivity; [by eapply moved_kept|done]|]. exists ir'. split; [done|]. split; [|congruence].
        rewrite E6, Eh3. f_equal.
        assert (Hsame : forall c, c ∈ l -> stays s1 (sid ih) c <-> stays s (sid ih) c).
        { intros c Hcl. unfold stays. assert (sid_of s1 c = sid_of s c) as ->; [|done].
          destruct (child_state s r hs b age ir c Hlk Hhi Hr) as (ic & Hic & _ & Hics); [rewrite Hc; apply elem_of_app; right; by right|].
          rewrite (sid_of_it s c ic Hic). by eapply sid_of_kept; [done|done|eapply moved_kept]. }
        clear -Hsame. induction l as [|c l IH]; [done|]. rewrite !filter_cons. pose proof (Hsame c ltac:(left)) as Hc.
        rewrite IH by (intros d Hd; apply Hsame; by right). destruct (decide (stays s1 (sid ih) c)), (decide (stays s (sid ih) c)); tauto.
Qed.

(** ** A new helper *)
Definition new_below (C : Z -> option core) (h : Z) (hc : core) (S0 : Z) (sc : core) : Z -> option core :=
  fun y => if decide (y = h) then Some hc else if decide (y = S0) then Some sc else C y.

Section NewHelper.
Variables (s s1 : ps) (r : Z) (hs : list Z) (b age : Z -> Z).
Context (Hv : helpers_inv s r hs b age).
(** [x] is a child of the root in the session of [S0] *)
Variables (x S0 : Z) (ir ix il : pstree_item).
Context (Hr : it s r ir) (Hx : it s x ix) (Hin : x ∈ children ir) (HS : sid ix = S0) (HSx : S0 <> x) (HSr : S0 <> sid ir) (Hl : it s S0 il).
Context (Hsr : same_rest s s1 \/ root_item s1 = root_item s) (Hok1 : fdt_ok s1) (Hpr1 : prev_ok s1).

Lemma orphan_linked : state ix <> TASK_UNDEF.
Proof using Hv Hr Hx Hin. eapply (moved_linked s r hs b age); [apply Hv|apply Hv|exact Hr|exact Hx|exact Hin]. Qed.

Lemma orphan_alive : state ix = TASK_ALIVE.
Proof using Hv Hr Hx Hin HS HSx. eapply (moved_alive s r hs b age); [apply Hv|apply Hv|exact Hr|exact Hx|exact Hin|congruence]. Qed.

Lemma session_not_root : S0 <> r.
Proof using Hv Hr Hx Hin HS HSr.
  intros E. destruct Hv as [_ Hhi _ _ _ _ _ _]. assert (Hrs : c_state (core_of ir) <> TASK_UNDEF).
  { intros Eu. destruct (proj1 (hi_state _ _ _ _ Hhi r _ (it_cores _ _ _ Hr)) Eu) as [_ Hn]. done. }
  pose proof (hi_leader _ _ _ _ Hhi x _ r _ (it_cores _ _ _ Hx) orphan_linked (it_cores _ _ _ Hr) Hrs) as H. cbn in H. rewrite HS in H. specialize (H E). congruence.
Qed.

Lemma session_pid : S0 <> -1 /\ is_Some (cores s S0).
Proof using Hv Hr Hx Hin HS.
  destruct Hv as [_ Hhi _ _ _ _ _ _]. pose proof (hi_sid _ _ _ _ Hhi x _ (it_cores _ _ _ Hx) orphan_linked) as H. cbn in H. by rewrite HS in H.
Qed.

Lemma root_kept : root_item s1 = Some r.
Proof using Hv Hsr. destruct Hsr as [H|H]; [rewrite (sr_root _ _ H)|rewrite H]; apply Hv. Qed.

(** the leader is alive: a helper [h] with a new pid below it *)
Lemma alive_helper h g : pids s !! h = None -> state il <> TASK_UNDEF -> (g <> 0 -> is_Some (cores s g)) ->
  (forall y, cores s1 y = new_below (cores s) h (mk_core (Some S0) [] S0 g (-1) TASK_HELPER) S0 (with_core_children (h :: children il) (core_of il)) y) ->
  helpers_inv s1 r hs (fun y => if decide (y = h) then S0 else b y) (fun y => if decide (y = h) then age S0 else age y).
Proof using Hv Hr Hx Hin HS HSx HSr Hl Hsr Hok1 Hpr1.
  intros Hfree Hlive Hg HC. pose proof Hv as [Hlk Hhi Hok Hro Hpr Hlate Hld Hgr]. pose proof session_not_root as HSr'.
  assert (Hch : cores s h = None) by (unfold cores; by rewrite Hfree).
  assert (HhS : h <> S0) by (intros ->; unfold it in Hl; congruence). assert (Hhr : h <> r) by (intros ->; unfold it in Hr; congruence).
  assert (Hsid : sid il = S0) by (exact (hi_leader _ _ _ _ Hhi x _ S0 _ (it_cores _ _ _ Hx) orphan_linked (it_cores _ _ _ Hl) Hlive HS)).
  assert (Hpl : exists p, parent il = Some p).
  { destruct (parent il) as [p|] eqn:E; [by exists p|]. exfalso. apply Hlive. by apply (proj2 (hi_state _ _ _ _ Hhi S0 _ (it_cores _ _ _ Hl))). }
  assert (Hget : forall y d, cores s1 y = Some d -> y = h /\ d = mk_core (Some S0) [] S0 g (-1) TASK_HELPER \/
      y <> h /\ exists d0, cores s y = Some d0 /\ c_sid d = c_sid d0 /\ c_state d = c_state d0 /\ c_born d = c_born d0 /\ c_parent d = c_parent d0).
  { intros y d Hy. rewrite HC in Hy. unfold new_below in Hy. destruct (decide (y = h)) as [->|Hyh]; [left; split; congruence|right; split; [done|]].
    destruct (decide (y = S0)) as [->|]; [injection Hy as <-; eexists; split; [by apply it_cores|done]|by exists d]. }
  assert (Hput : forall y d, cores s y = Some d -> exists d', cores s1 y = Some d' /\ c_sid d' = c_sid d /\ c_pgid d' = c_pgid d /\ c_state d' = c_state d).
  { intros y d Hy. rewrite HC. unfold new_below. rewrite decide_False by congruence. destruct (decide (y = S0)) as [->|]; [|by exists d].
    rewrite (it_cores _ _ _ Hl) in Hy. injection Hy as <-. by eexists. }
  assert (Hnop : forall y d, cores s y = Some d -> c_parent d <> Some h).
  { intros y d (j & Hj & <-)%cores_it Hp. destruct (lk_up _ _ _ Hlk y j h Hj Hp) as (i & Hi & _). unfold it in Hi. congruence. }
  assert (Hnos : forall y d, cores s y = Some d -> c_state d <> TASK_UNDEF -> c_sid d <> h).
  { intros y d Hy Hst E. destruct (hi_sid _ _ _ _ Hhi y d Hy Hst) as [_ Hs]. rewrite E, Hch in Hs. by destruct Hs. }
  split; [| |done|exact root_kept|done| | |].
  - destruct Hpl as (p & Hp). apply (linked_add s s1 r hs h S0 (Some p) (children il)); try done.
    + by rewrite (it_links _ _ _ Hl), Hp.
    + apply linked_links in Hlk as [_ Hup]. apply (Hup S0 p (children il)). by rewrite (it_links _ _ _ Hl), Hp.
    + left. rewrite cores_links, Hch. done.
    + rewrite cores_links, HC. unfold new_below. by rewrite decide_True.
    + rewrite cores_links, HC. unfold new_below. rewrite decide_False, decide_True by done. cbn. by rewrite Hp.
    + intros y H1 H2. rewrite !cores_links, HC. unfold new_below. by rewrite !decide_False.
  - destruct Hhi as [A1 A2 A3 A3' A4 A5 A6 A7 A8 A9]. split.
    + intros y d Hy. destruct (Hget y d Hy) as [[-> ->]|(Hyh & d0 & H0 & E1 & E2 & E3 & E4)]; [cbn; naive_solver|]. rewrite E2, E4. by apply A1.
    + intros y d z Hy Hz. destruct (Hget y d Hy) as [[-> ->]|(Hyh & d0 & H0 & E1 & E2 & E3 & E4)].
      * cbn in Hz. injection Hz as <-. rewrite decide_False, decide_True by done. lia.
      * rewrite E4 in Hz. pose proof (A2 y d0 z H0 Hz). rewrite !decide_False; [done|done|]. intros ->. by apply (Hnop y d0).
    + intros y d z c Hy Hst Hz Hzs E Hzy. destruct (Hget y d Hy) as [[-> ->]|(Hyh & d0 & H0 & E1 & E2 & E3 & E4)]; [done|]. rewrite E1 in E. rewrite E2 in Hst.
      assert (z <> h) by (intros ->; apply (Hnos y d0); [done|congruence|done]). destruct (Hget z c Hz) as [[-> _]|(_ & c0 & G0 & G1 & G2 & _)]; [done|].
      rewrite !decide_False by done. rewrite G2 in Hzs. eauto.
    + intros y d Hy Hst Hyr. destruct (Hget y d Hy) as [[-> ->]|(Hyh & d0 & H0 & E1 & E2 & E3 & E4)]; [done|]. rewrite !decide_False by done. rewrite E2 in Hst. eauto.
    + intros y d z c Hy Hst Hz Hzs E. destruct (Hget y d Hy) as [[-> ->]|(Hyh & d0 & H0 & E1 & E2 & E3 & E4)].
      * cbn in E. subst z. destruct (Hget S0 c Hz) as [[? _]|(_ & c0 & G0 & G1 & _)]; [congruence|]. rewrite (it_cores _ _ _ Hl) in G0. injection G0 as <-. by rewrite G1.
      * rewrite E1 in E. rewrite E2 in Hst. assert (z <> h) by (intros ->; by apply (Hnos y d0)). destruct (Hget z c Hz) as [[-> _]|(_ & c0 & G0 & G1 & G2 & _)]; [done|].
        rewrite G2 in Hzs. rewrite G1. eauto.
    + intros y d z c Hy Hp Hzr Hz. destruct (Hget y d Hy) as [[-> ->]|(Hyh & d0 & H0 & E1 & E2 & E3 & E4)].
      * cbn in Hp. injection Hp as <-. destruct (Hget S0 c Hz) as [[? _]|(_ & c0 & G0 & G1 & _)]; [congruence|]. rewrite (it_cores _ _ _ Hl) in G0. injection G0 as <-.
        rewrite decide_True by done. left. rewrite G1. by cbn.
      * rewrite E4 in Hp. assert (z <> h) by (intros ->; by apply (Hnop y d0)). destruct (Hget z c Hz) as [[-> _]|(_ & c0 & G0 & G1 & _)]; [done|].
        rewrite !decide_False by done. rewrite G1. eauto.
    + intros y d Hy Hst Hyr E. destruct (Hget y d Hy) as [[-> ->]|(Hyh & d0 & H0 & E1 & E2 & E3 & E4)]; [by rewrite decide_True|]. rewrite decide_False by done.
      rewrite E1 in *. rewrite E2 in Hst. eauto.
    + intros y d Hy Hst. destruct (Hget y d Hy) as [[-> ->]|(Hyh & d0 & H0 & E1 & E2 & E3 & E4)].
      * cbn. destruct session_pid as [B1 _]. split; [done|]. destruct (Hput S0 _ (it_cores _ _ _ Hl)) as (d' & -> & _). by eexists.
      * rewrite E1. rewrite E2 in Hst. destruct (A7 y d0 H0 Hst) as [B1 [c B2]]. split; [done|]. destruct (Hput _ _ B2) as (d' & -> & _). by eexists.
    + intros y d Hy Hst. destruct (Hget y d Hy) as [[-> ->]|(Hyh & d0 & H0 & E1 & E2 & E3 & E4)]; [right; by split|]. rewrite E1, E4. rewrite E2 in Hst. eauto.
    + intros y d Hy. destruct (Hget y d Hy) as [[-> ->]|(Hyh & d0 & H0 & E1 & E2 & E3 & E4)]; [done|]. rewrite E3. eauto.
  - destruct Hlate as [(Hlx & Ho & Hhs)|Hn]; [left|right].
    + split; [done|]. split; [|done]. intros y d cr Hy Hcr Hp Hsy Hsr'. destruct (Hget y d Hy) as [[-> ->]|(Hyh & d0 & H0 & E1 & E2 & E3 & E4)]; [cbn in Hp; congruence|].
      destruct (Hget r cr Hcr) as [[-> _]|(_ & r0 & G0 & G1 & _)]; [done|]. rewrite E1 in *. rewrite G1 in Hsr'. rewrite E4 in Hp.
      destruct (Ho y d0 r0 H0 G0 Hp Hsy Hsr') as (c & Hc & Hcs). destruct (Hput _ _ Hc) as (c' & Hc' & _ & _ & F). exists c'. split; [done|congruence].
    + intros y d z c Hy Hp Hzr Hz. destruct (Hget y d Hy) as [[-> ->]|(Hyh & d0 & H0 & E1 & E2 & E3 & E4)].
      * cbn in Hp. injection Hp as <-. right. destruct (Hget S0 c Hz) as [[? _]|(_ & c0 & G0 & G1 & _)]; [congruence|]. rewrite (it_cores _ _ _ Hl) in G0. injection G0 as <-. by rewrite G1.
      * rewrite E4 in Hp. assert (z <> h) by (intros ->; by apply (Hnop y d0)). destruct (Hget z c Hz) as [[-> _]|(_ & c0 & G0 & G1 & _)]; [done|]. rewrite E1, G1. eauto.
  - intros y Hy. destruct (Hld y Hy) as (c & Hc & E1 & E2). destruct (Hput y c Hc) as (c' & Hc' & F1 & _ & F2). exists c'. split_and!; congruence.
  - apply (groups_kept (cores s)); [done| |].
    + intros y c Hc. destruct (Hput y c Hc) as (c' & Hc' & F1 & F2 & F3). by exists c'.
    + intros y d Hy Hst. destruct (Hget y d Hy) as [[-> ->]|(_ & d0 & H0 & _ & E2 & _)]; [by right|left]. exists d0. split; [done|congruence].
Qed.

(** the leader is dead: it is the helper *)
Lemma dead_helper g : state il = TASK_UNDEF -> is_Some (cores s g) ->
  (forall y, cores s1 y = if decide (y = S0) then Some (mk_core (Some r) [] S0 g (-1) TASK_HELPER) else cores s y) ->
  helpers_inv s1 r (hs ++ [S0]) b (fun y => if decide (y = S0) then age r else age y).
Proof using Hv Hr Hx Hin HS HSx HSr Hl Hsr Hok1 Hpr1.
  intros Hdead Hg HC. pose proof Hv as [Hlk Hhi Hok Hro Hpr Hlate Hld Hgr]. pose proof session_not_root as HSr'. pose proof session_pid as [Hpos _].
  destruct (proj1 (hi_state _ _ _ _ Hhi S0 _ (it_cores _ _ _ Hl)) Hdead) as [Hpl _]. cbn in Hpl.
  assert (Hcl : children il = []) by (by eapply (lk_free _ _ _ Hlk S0)).
  assert (Hget : forall y d, cores s1 y = Some d -> y = S0 /\ d = mk_core (Some r) [] S0 g (-1) TASK_HELPER \/ y <> S0 /\ cores s y = Some d).
  { intros y d Hy. rewrite HC in Hy. destruct (decide (y = S0)) as [->|]; [left; split; congruence|by right]. }
  assert (Hsome : forall y, is_Some (cores s y) -> is_Some (cores s1 y)) by (intros y Hy; rewrite HC; case_decide; done).
  assert (Hnop : forall y d, cores s y = Some d -> c_parent d <> Some S0).
  { intros y d (j & Hj & <-)%cores_it Hp. destruct (lk_up _ _ _ Hlk y j S0 Hj Hp) as (i & Hi & [Hc|[-> _]]); [|done].
    rewrite (it_fun _ _ _ _ Hi Hl), Hcl in Hc. by apply elem_of_nil in Hc. }
  assert (Hrr : forall c, cores s r = Some c -> c_parent c = None).
  { intros c (j & Hj & <-)%cores_it. destruct (lk_root _ _ _ Hlk) as (i & Hi & Hp). by rewrite (it_fun _ _ _ _ Hj Hi). }
  split; [| |done|exact root_kept|done| | |].
  - apply (linked_helper s s1 r hs S0 Hlk HSr').
    + by rewrite (it_links _ _ _ Hl), Hpl, Hcl.
    + rewrite cores_links, HC, decide_True by done. done.
    + intros y Hy. rewrite !cores_links, HC. by rewrite decide_False.
  - destruct Hhi as [A1 A2 A3 A3' A4 A5 A6 A7 A8 A9]. split.
    + intros y d Hy. destruct (Hget y d Hy) as [[-> ->]|[Hyh H0]]; [cbn; naive_solver|by apply A1].
    + intros y d z Hy Hz. destruct (Hget y d Hy) as [[-> ->]|[Hyh H0]].
      * cbn in Hz. injection Hz as <-. repeat case_decide; lia.
      * rewrite !decide_False; [by eapply A2|done|]. intros ->. by apply (Hnop y d).
    + intros y d z c Hy Hst Hz Hzs E Hzy. destruct (Hget y d Hy) as [[-> ->]|[Hyh H0]]; [done|]. rewrite (decide_False (P := y = S0)) by done.
      destruct (Hget z c Hz) as [[-> ->]|[Hzh G0]].
      * rewrite decide_True by done. apply (A3' y d H0 Hst). intros ->. apply Hzy. rewrite <-E. exfalso.
        apply HSr. pose proof (it_cores _ _ _ Hr) as F. rewrite H0 in F. injection F as ->. by cbn in E.
      * rewrite decide_False by done. eauto.
    + intros y d Hy Hst Hyr. destruct (Hget y d Hy) as [[-> ->]|[Hyh H0]]; [done|]. rewrite (decide_False (P := y = S0)) by done. case_decide; [congruence|]. eauto.
    + intros y d z c Hy Hst Hz Hzs E. destruct (Hget z c Hz) as [[-> ->]|[Hzh G0]]; [done|]. destruct (Hget y d Hy) as [[-> ->]|[Hyh H0]]; [cbn in E; congruence|]. eauto.
    + intros y d z c Hy Hp Hzr Hz. destruct (Hget y d Hy) as [[-> ->]|[Hyh H0]]; [cbn in Hp; congruence|].
      destruct (Hget z c Hz) as [[-> ->]|[Hzh G0]]; [by destruct (Hnop y d H0)|]. eauto.
    + intros y d Hy Hst Hyr E. destruct (Hget y d Hy) as [[-> ->]|[Hyh H0]]; [done|]. eauto.
    + intros y d Hy Hst. destruct (Hget y d Hy) as [[-> ->]|[Hyh H0]]; [split; [done|]; rewrite HC; cbn; by rewrite decide_True|].
      destruct (A7 y d H0 Hst) as [B1 B2]. auto.
    + intros y d Hy Hst. destruct (Hget y d Hy) as [[-> ->]|[Hyh H0]]; [by left|]. eauto.
    + intros y d Hy. destruct (Hget y d Hy) as [[-> ->]|[Hyh H0]]; [done|]. eauto.
  - right. destruct Hlate as [(_ & Ho & _)|Hn].
    + exfalso. destruct (Ho x _ _ (it_cores _ _ _ Hx) (it_cores _ _ _ Hr)) as (c & Hc & Hcs).
      * cbn. eapply (moved_parent s r hs); [done|exact Hr|done|done].
      * cbn. congruence.
      * cbn. congruence.
      * cbn in Hc. rewrite HS, (it_cores _ _ _ Hl) in Hc. injection Hc as <-. done.
    + intros y d z c Hy Hp Hzr Hz. destruct (Hget y d Hy) as [[-> ->]|[Hyh H0]]; [by left|]. destruct (Hget z c Hz) as [[-> ->]|[Hzh G0]]; [by destruct (Hnop y d H0)|]. eauto.
  - intros y [Hy| ->%list_elem_of_singleton]%elem_of_app.
    + destruct (Hld y Hy) as (c & Hc & E1 & E2). exists c. rewrite HC, decide_False; [done|]. intros ->. rewrite (it_cores _ _ _ Hl) in Hc. injection Hc as <-. cbn in E2. congruence.
    + eexists. rewrite HC, decide_True by done. done.
  - apply (groups_kept (cores s)); [done| |].
    + intros y c Hc. rewrite HC. destruct (decide (y = S0)) as [->|]; [|by exists c]. eexists. split; [done|]. rewrite (it_cores _ _ _ Hl) in Hc. injection Hc as <-. done.
    + intros y d Hy Hst. destruct (Hget y d Hy) as [[-> ->]|[_ H0]]; [by right|left]. by exists d.
Qed.
End NewHelper.

(** ** [session_helper] *)
Lemma set_prev_inv s r hs b age p : helpers_inv s r hs b age -> is_Some (pids s !! p) -> helpers_inv (set_prev (Some p) s) r hs b age.
Proof.
  intros [H1 H2 H3 H4 H5 H6 H7 H8] Hp. split; [by apply (linked_ext s)|done|done|done|exact Hp|done|done|done].
Qed.

(** the helper for [x] is there, and initialised *)
Record helped (s s' : ps) (r x : Z) (ix : pstree_item) (hs hs' : list Z) (h : Z) (b age b' age' : Z -> Z) : Prop := {
  hd_inv : helpers_inv s' r hs' b' age';
  hd_kept : kept (cores s) (cores s');
  hd_helper : exists ih, it s' h ih /\ state ih = TASK_HELPER /\ sid ih = sid ix;
  hd_pid : h <> r;
  hd_age : age' h <= age' (sid ix);
  hd_leader : exists c, cores s' (sid ix) = Some c /\ c_state c <> TASK_UNDEF;
  hd_root : forall ir, it s r ir -> exists ir', it s' r ir' /\ children ir' = children ir /\ sid ir' = sid ir;
  hd_births : forall y, is_Some (cores s y) -> b' y = b y;
}.

Lemma helper_spec s r hs b age x ix ir : helpers_inv s r hs b age -> it s r ir -> it s x ix -> x ∈ children ir -> sid ix <> x -> sid ix <> sid ir ->
  exists h hs' b' age' s1 s', session_helper r ix hs s = Done (Some (h, hs'), s1) /\ init_pstree_helper h s1 = Done (0, s') /\ helped s s' r x ix hs hs' h b age b' age'.
Proof.
  intros Hv Hr Hx Hin Hsx Hsr. pose proof Hv as [Hlk Hhi Hok Hro Hpr Hlate Hld Hgr]. set (S0 := sid ix).
  pose proof (session_not_root s r hs b age Hv x S0 ir ix Hr Hx Hin eq_refl Hsr) as HSr. pose proof (session_pid s r hs b age Hv x S0 ir ix Hr Hx Hin eq_refl) as [Hpos [c Hcl]].
  apply cores_it in Hcl as (il & Hl & <-). unfold session_helper. unfold bind at 1. unfold pstree_item_by_virt. fold S0. rewrite Hl. unfold bind at 1. rewrite (item_it s S0 il Hl).
  destruct (decide (state il = TASK_UNDEF)) as [Hu|Hu].
  - rewrite bool_decide_eq_true_2 by done. cbn [negb]. unfold bind. rewrite (item_it s r ir Hr), (update_it s S0 il _ Hl). set (i1 := with_ids _ _). set (s1 := set_item S0 i1 s).
    assert (Hi1 : it s1 S0 i1) by (by apply it_set). assert (Hr1 : it s1 r ir) by (by apply it_set_ne).
    destruct (init_pstree_helper_spec s1 S0 i1 r ir) as (s' & Ei & HC & Hsr' & Hok'); [done|done|done|done|by apply (fdt_ok_update s S0 il (fun _ => i1))|].
    assert (Hsr2 : same_rest s s') by (etransitivity; [apply same_rest_set|exact Hsr']).
    destruct (proj1 (hi_state _ _ _ _ Hhi S0 _ (it_cores _ _ _ Hl)) Hu) as [Hpl _]. cbn in Hpl. assert (Hcl : children il = []) by (by eapply (lk_free _ _ _ Hlk S0)).
    assert (Hborn : born_sid il = -1) by (exact (hi_unborn _ _ _ _ Hhi S0 _ (it_cores _ _ _ Hl))).
    assert (HC' : forall y, cores s' y = if decide (y = S0) then Some (mk_core (Some r) [] S0 S0 (-1) TASK_HELPER) else cores s y).
    { intros y. rewrite HC. unfold s1. rewrite cores_set. destruct (decide (y = S0)); [|done]. unfold core_of, i1, with_core_state. cbn. by rewrite Hcl, Hborn. }
    pose proof (dead_helper s s' r hs b age Hv x S0 ir ix il Hr Hx Hin eq_refl Hsx Hsr Hl (or_introl Hsr2) Hok' (prev_ok_rest s s' Hsr2 Hpr) S0 Hu (mk_is_Some _ _ (it_cores _ _ _ Hl)) HC') as Hv'.
    exists S0, (hs ++ [S0]), b, (fun y => if decide (y = S0) then age r else age y), s1, s'. split; [done|]. split; [done|]. split; fold S0.
    + exact Hv'.
    + intros y d Hy. rewrite HC'. destruct (decide (y = S0)) as [->|]; [|by exists d]. eexists. split; [done|]. rewrite (it_cores _ _ _ Hl) in Hy. injection Hy as <-. done.
    + pose proof (HC' S0) as E. rewrite decide_True in E by done. apply cores_it in E as (ih & Hih & Ec). exists ih. unfold core_of in Ec. injection Ec as _ _ E3 _ _ E6. by split_and!.
    + done.
    + done.
    + rewrite HC', decide_True by done. by eexists.
    + intros ir0 Hr0. rewrite (it_fun _ _ _ _ Hr0 Hr). pose proof (HC' r) as E. rewrite decide_False, (it_cores _ _ _ Hr) in E by done. apply cores_it in E as (ir' & Hir' & Ec).
      unfold core_of in Ec. injection Ec as _ E2 E3 _ _ _. exists ir'. by split_and!.
    + done.
  - rewrite bool_decide_eq_false_2 by done. cbn [negb]. destruct (get_free_pid_spec s Hpr) as (h & p & Eg & Hfree & Hres & Hp). unfold bind. rewrite Eg.
    assert ((h <? 0) = false) as -> by (apply Z.ltb_ge; unfold RESERVED_PIDS in Hres; lia).
    set (s0 := set_prev (Some p) s). assert (Hv0 : helpers_inv s0 r hs b age) by (by apply set_prev_inv).
    unfold lookup_create_item. change (pids s0) with (pids s). rewrite Hfree. set (sa := set_item h new_item s0).
    assert (Hha : it sa h new_item) by (by apply it_set). rewrite (update_it sa h new_item _ Hha). set (ih := with_parent _ _). set (sb := set_item h ih sa).
    assert (HhS : h <> S0) by (intros ->; unfold it in Hl; congruence). assert (Hhr : h <> r) by (intros ->; unfold it in Hr; congruence).
    assert (Hlb : it sb S0 il) by (apply it_set_ne; [done|]; by apply it_set_ne). rewrite (update_it sb S0 il _ Hlb). set (il' := with_children _ _). set (sc := set_item S0 il' sb).
    unfold ret. assert (Hhc : it sc h ih) by (apply it_set_ne; [done|]; by apply it_set). assert (Hlc : it sc S0 il') by (by apply it_set).
    assert (Hokc : fdt_ok sc).
    { apply (fdt_ok_update sb S0 il (fun _ => il')); [|done|done]. apply (fdt_ok_update sa h new_item (fun _ => ih)); [|done|done]. apply fdt_ok_set; [exact Hok|done]. }
    destruct (init_pstree_helper_spec sc h ih S0 il') as (s' & Ei & HC & Hsr' & Hok'); [done|done|done|done|done|].
    assert (Hsr2 : same_rest s0 s').
    { etransitivity; [apply (same_rest_set s0 h new_item)|]. etransitivity; [apply (same_rest_set sa h ih)|]. etransitivity; [apply (same_rest_set sb S0 il')|exact Hsr']. }
    assert (HC' : forall y, cores s' y = new_below (cores s0) h (mk_core (Some S0) [] S0 (pgid il) (-1) TASK_HELPER) S0 (with_core_children (h :: children il) (core_of il)) y).
    { intros y. rewrite HC. unfold new_below, sc. rewrite cores_set. unfold sb. rewrite cores_set. unfold sa. rewrite cores_set. destruct (decide (y = h)) as [->|]; [done|]. by destruct (decide (y = S0)). }
    pose proof (alive_helper s0 s' r hs b age Hv0 x S0 ir ix il Hr Hx Hin eq_refl Hsx Hsr Hl (or_introl Hsr2) Hok' (prev_ok_rest s0 s' Hsr2 Hp) h (pgid il) Hfree Hu (hv_groups _ _ _ _ _ Hv S0 _ (it_cores _ _ _ Hl) Hu) HC') as Hv'.
    exists h, hs, (fun y => if decide (y = h) then S0 else b y), (fun y => if decide (y = h) then age S0 else age y), sc, s'. split; [done|]. split; [done|]. split; fold S0.
    + exact Hv'.
    + intros y d Hy. rewrite HC'. unfold new_below. change (cores s0) with (cores s). assert (y <> h) by (intros ->; unfold cores in Hy; by rewrite Hfree in Hy). rewrite decide_False by done.
      destruct (decide (y = S0)) as [->|]; [|by exists d]. rewrite (it_cores _ _ _ Hl) in Hy. injection Hy as <-. by eexists.
    + pose proof (HC' h) as E. unfold new_below in E. rewrite decide_True in E by done. apply cores_it in E as (ih' & Hih & Ec). exists ih'. unfold core_of in Ec. injection Ec as _ _ E3 _ _ E6. by split_and!.
    + done.
    + rewrite decide_True, decide_False by done. done.
    + rewrite HC'. unfold new_below. rewrite decide_False, decide_True by done. by eexists.
    + intros ir0 Hr0. rewrite (it_fun _ _ _ _ Hr0 Hr). pose proof (HC' r) as E. unfold new_below in E. rewrite !decide_False in E by done. change (cores s0) with (cores s) in E. rewrite (it_cores _ _ _ Hr) in E.
      apply cores_it in E as (ir' & Hir' & Ec). unfold core_of in Ec. injection Ec as _ E2 E3 _ _ _. exists ir'. by split_and!.
    + intros y [d Hd]. rewrite decide_False; [done|]. intros ->. unfold cores in Hd. by rewrite Hfree in Hd.
Qed.

(** ** The first loop *)
Lemma after_last p (dn rest : list Z) : NoDup (dn ++ rest) -> list.last dn = Some p -> after p (dn ++ rest) = rest.
Proof.
  intros Hn [dn' ->]%list.last_Some. rewrite <-app_assoc in *. cbn [app] in *. apply list.NoDup_app in Hn as (_ & Hp & _). revert Hp. induction dn' as [|y dn' IH]; intros Hp; cbn [app after].
  - by rewrite Z.eqb_refl.
  - assert ((y =? p) = false) as ->; [|apply IH; intros z Hz; apply Hp; by right]. apply Z.eqb_neq. intros ->. apply (Hp p); left.
Qed.
Lemma before_split x (dn rest : list Z) : NoDup (dn ++ x :: rest) -> before None x (dn ++ x :: rest) = list.last dn.
Proof.
  intros Hn. assert (Hg : forall prev, before prev x (dn ++ x :: rest) = match list.last dn with Some p => Some p | None => prev end).
  { apply list.NoDup_app in Hn as (_ & Hd & _). induction dn as [|y dn IH]; intros prev; cbn [app before].
    - by rewrite Z.eqb_refl.
    - assert ((y =? x) = false) as ->; [apply Z.eqb_neq; intros ->; apply (Hd x); left|]. rewrite IH by (intros z Hz; apply Hd; by right).
      rewrite list.last_cons. by destruct (list.last dn). }
  rewrite Hg. by destruct (list.last dn).
Qed.

Definition settled (s : ps) (r c : Z) : Prop := sid_of s c = c \/ sid_of s c = sid_of s r.

Lemma root_state s r hs b age ir : helpers_inv s r hs b age -> it s r ir -> state ir <> TASK_UNDEF.
Proof. intros Hv Hr E. destruct (proj1 (hi_state _ _ _ _ (hv_history _ _ _ _ _ Hv) r _ (it_cores _ _ _ Hr)) E) as [_ Hn]. done. Qed.

Lemma settled_kept s s' r hs b age ir c : helpers_inv s r hs b age -> it s r ir -> c ∈ children ir -> kept (cores s) (cores s') -> settled s r c -> settled s' r c.
Proof.
  intros Hv Hr Hc Hk. destruct (child_state s r hs b age ir c (hv_linked _ _ _ _ _ Hv) (hv_history _ _ _ _ _ Hv) Hr Hc) as (ic & Hic & _ & Hst).
  unfold settled. rewrite (sid_of_it s c ic Hic), (sid_of_it s r ir Hr), (sid_of_kept s s' c ic Hic Hst Hk), (sid_of_kept s s' r ir Hr (root_state s r hs b age ir Hv Hr) Hk). done.
Qed.

Lemma helpers_loop_spec n : forall fuel s r hs b age ir dn rest, (length rest <= n)%nat -> (length rest < fuel)%nat -> helpers_inv s r hs b age -> it s r ir -> children ir = dn ++ rest ->
  Forall (settled s r) dn ->
  exists s' hs' b' age' ir', helpers_loop fuel r (list.last dn) hs s = Done ((0, hs'), s') /\ helpers_inv s' r hs' b' age' /\ kept (cores s) (cores s') /\
    it s' r ir' /\ Forall (settled s' r) (children ir') /\ (forall y, is_Some (cores s y) -> b' y = b y).
Proof.
  induction n as [n IHn] using lt_wf_ind. intros [|fuel] s r hs b age ir dn rest Hn Hf Hv Hr Hc Hdn; [lia|].
  assert (Hnd : NoDup (dn ++ rest)) by (rewrite <-Hc; exact (lk_nodup s r hs (hv_linked _ _ _ _ _ Hv) r ir Hr)).
  cbn [helpers_loop]. unfold bind at 1. rewrite (item_it s r ir Hr), Hc.
  assert (Hpos : (match list.last dn with Some p => after p (dn ++ rest) | None => dn ++ rest end) = rest).
  { destruct (list.last dn) as [p|] eqn:E; [by apply after_last|]. apply list.last_None in E as ->. done. }
  rewrite Hpos. destruct rest as [|x rest].
  - exists s, hs, b, age, ir. split_and!; try done. by rewrite Hc, app_nil_r.
  - assert (Hin : x ∈ children ir) by (rewrite Hc; apply elem_of_app; right; left).
    destruct (child_state s r hs b age ir x (hv_linked _ _ _ _ _ Hv) (hv_history _ _ _ _ _ Hv) Hr Hin) as (ix & Hx & Hpx & Hst).
    unfold bind at 1. rewrite (item_it s x ix Hx). destruct ((sid ix =? sid ir) || (sid ix =? x)) eqn:E.
    + assert (Hset : settled s r x).
      { unfold settled. rewrite (sid_of_it s x ix Hx), (sid_of_it s r ir Hr). apply orb_true_iff in E as [E|E]; apply Z.eqb_eq in E; auto. }
      rewrite <-(list.last_snoc x dn). cbn [length] in *. apply (IHn (length rest) ltac:(lia) fuel s r hs b age ir (dn ++ [x]) rest); [lia|lia|done|done| |].
      * rewrite Hc, <-app_assoc. done.
      * apply Forall_app. split; [done|]. by constructor.
    + apply orb_false_iff in E as [Esr%Z.eqb_neq Esx%Z.eqb_neq].
      destruct (helper_spec s r hs b age x ix ir Hv Hr Hx Hin Esx Esr) as (h & hs1 & b1 & age1 & s0 & s1 & E1 & E2 & [Hv1 Hk1 (ih & Hih & Hsth & Hsidh) Hhr Hage1 Hlead1 Hroot1 Hb1]).
      unfold bind at 1. rewrite E1. unfold bind at 1. rewrite E2. cbn [negb Z.eqb]. destruct (Hroot1 ir Hr) as (ir1 & Hr1 & Hc1 & Hs1).
      unfold bind at 1. rewrite (item_it s1 r ir1 Hr1), Hc1, Hc, before_split by done. unfold bind at 1.
      rewrite <-Hsidh in Hage1, Hlead1.
      destruct (stack_loop_spec (x :: rest) s1 r h hs1 b1 age1 dn ir1 ih Hv1 Hr1 Hih) as (s2 & E3 & Hv2 & Hsr2 & Hk2 & ir2 & Hr2 & Hc2 & Hs2); try done; try congruence.
      rewrite E3. rewrite Hsidh in *.
      assert (Hx1 : sid_of s1 x = sid ix) by (by eapply sid_of_kept).
      assert (Hfl : filter (stays s1 (sid ix)) (x :: rest) = filter (stays s1 (sid ix)) rest).
      { rewrite filter_cons, decide_False; [done|]. unfold stays. rewrite Hx1. intros [|]; congruence. }
      rewrite Hfl in Hc2. assert (Hlen : (length (filter (stays s1 (sid ix)) rest) <= length rest)%nat) by apply length_filter.
      assert (Hk : kept (cores s) (cores s2)) by (by etransitivity).
      cbn [length] in *.
      destruct (IHn (length rest) ltac:(lia) fuel s2 r hs1 b1 age1 ir2 dn (filter (stays s1 (sid ix)) rest)) as (s' & hs' & b' & age' & ir' & F1 & F2 & F3 & F4 & F5 & F6); [lia|lia|done|done|done| |].
      { rewrite list.Forall_forall in Hdn |- *. intros c Hcd. eapply (settled_kept s s2 r hs b age ir); [done|done| |done|by apply Hdn]. rewrite Hc. apply elem_of_app. by left. }
      exists s', hs', b', age', ir'. split_and!; [done|done|by etransitivity|done|done|]. intros y Hy. destruct Hy as [d Hd].
      destruct (Hk y d Hd) as (d2 & Hd2 & _). rewrite F6 by (by eexists). apply Hb1. by eexists.
Qed.

Lemma history_ext C C' r b age : (forall y, C' y = C y) -> history C r b age -> history C' r b age.
Proof. intros He [A1 A2 A3 A3' A4 A5 A6 A7 A8 A9]. split; intros *; rewrite ?He; eauto. Qed.

Lemma helpers_inv_ext s s' r hs b age : (forall y, cores s' y = cores s y) -> same_rest s s' -> fdt_ok s' -> helpers_inv s r hs b age -> helpers_inv s' r hs b age.
Proof.
  intros He Hsr Hok [H1 H2 H3 H4 H5 H6 H7 H8]. split.
  - apply (linked_ext s); [|done]. intros y. by rewrite !cores_links, He.
  - by apply (history_ext (cores s)).
  - done.
  - by rewrite (sr_root _ _ Hsr).
  - by eapply prev_ok_rest.
  - destruct H6 as [(Hl & Ho & Hh)|Hn]; [left; split_and!; [done| |done]|right].
    + intros y d cr. rewrite !He. apply Ho.
    + intros y d x c. rewrite !He. apply Hn.
  - intros y. rewrite He. apply H7.
  - intros y d. rewrite !He. apply H8.
Qed.
End Lax.
End SessionHelpers.
