(* ===== verification/CloneFlags.v ===== *)
(** * The clone flags of the tasks

    What prepare_pstree_kobj_ids computes for every task of the tree, and which trees it refuses. *)
From S2P Require Import Prelude.
From S2P Require Import Pstree.
From S2P Require Import PstreeTree.
From S2P Require Import PstreeIds.
From S2P Require Import SessionHelpers.
Import Pstree.Pstree PstreeTree.PstreeTree PstreeIds.PstreeIds SessionHelpers.SessionHelpers.
#[local] Open Scope cmon_scope.

Module CloneFlags.

Section Flags.
Variables (s0 : ps) (r : Z) (hs : list Z) (root_ids : option kobj_ids).
Context (Hlk : linked s0 r hs) (Hok : fdt_ok s0) (Hroot : root_item s0 = Some r).

Definition parent_ids (i : pstree_item) : option kobj_ids :=
  match parent i with Some p => match pids s0 !! p with Some (Item ip) => ids ip | _ => None end | None => root_ids end.

(** what a task shares with its parent *)
Definition task_mask (i : pstree_item) : option Z := match ids i, parent_ids i with Some k, Some kp => Some (get_clone_mask k kp) | _, _ => None end.
Definition task_flags (i : pstree_item) : Z :=
  match task_mask i with Some m => match parent i with Some _ => Z.ldiff m CLONE_NEWNS | None => m end | None => clone_flags i end.
(** the namespaces of the root *)
Definition root_mask : Z := match pids s0 !! r with Some (Item i) => match task_mask i with Some m => Z.land m CLONE_ALLNS | None => 0 end | _ => 0 end.

(** the root has ids, and its own files; all others that have ids have a parent with ids, and namespaces of their own only if these may be nested *)
Definition fine (y : Z) (i : pstree_item) : bool :=
  match ids i with
  | None => negb (y =? r)
  | Some _ =>
      match task_mask i with
      | None => false
      | Some m =>
          match parent i with
          | None => negb (has m CLONE_FILES)
          | Some _ => Z.ldiff (Z.land m CLONE_ALLNS) (Z.land root_mask CLONE_SUBNS) =? 0
          end
      end
  end.

(** [v] was visited *)
Record flags_inv (v : list Z) (s : ps) : Prop := {
  fi_cores : forall y, cores s y = cores s0 y;
  fi_rest : same_rest s0 s;
  fi_fdt : fdt_ok s;
  fi_done : forall y i, y ∈ v -> it s0 y i -> fine y i = true /\ clones s y = Some (ids i, task_flags i);
  fi_todo : forall y, y ∉ v -> clones s y = clones s0 y;
  fi_mask : v <> [] -> root_ns_mask s = root_mask;
}.

Lemma fi_item v s y i : flags_inv v s -> it s0 y i -> exists j, it s y j /\ parent j = parent i /\ ids j = ids i.
Proof using.
  intros Hv Hi. pose proof (it_cores _ _ _ Hi) as Hc. rewrite <-(fi_cores _ _ Hv) in Hc. apply cores_it in Hc as (j & Hj & Ec). exists j. injection Ec as Ep _ _ _ _ _.
  split_and!; [done|done|]. pose proof (it_clones _ _ _ Hj) as Hcl. destruct (decide (y ∈ v)) as [Hy|Hy].
  - destruct (fi_done _ _ Hv y i Hy Hi) as [_ E]. rewrite E in Hcl. by injection Hcl as <- _.
  - rewrite (fi_todo _ _ Hv y Hy), (it_clones _ _ _ Hi) in Hcl. by injection Hcl as <- _.
Qed.

Lemma flags_inv_snoc v s s' x i : flags_inv v s -> (forall y, cores s' y = cores s y) -> same_rest s s' -> fdt_ok s' -> it s0 x i -> fine x i = true ->
  clones s' x = Some (ids i, task_flags i) -> (forall y, y <> x -> clones s' y = clones s y) -> root_ns_mask s' = root_mask -> flags_inv (v ++ [x]) s'.
Proof using.
  intros [A1 A2 A3 A4 A5 A6] Hc Hsr Hf Hi Hfi Hx Hne Hm. split.
  - intros y. by rewrite Hc.
  - by etransitivity.
  - done.
  - intros y j Hy Hj. destruct (decide (y = x)) as [->|Hyx]; [by rewrite (it_fun _ _ _ _ Hj Hi)|]. rewrite Hne by done. apply A4; [|done].
    apply elem_of_app in Hy as [Hy| ->%list_elem_of_singleton]; done.
  - intros y [Hy Hyx]%not_elem_of_app. rewrite Hne by (intros ->; apply Hyx; left). by apply A5.
  - done.
Qed.

Lemma kobj_ids_step_spec v s x i : flags_inv v s -> it s0 x i -> x ∉ v -> (x = r <-> v = []) -> (parent i = None <-> x = r) ->
  exists e s', kobj_ids_step root_ids r x s = Done (e, s') /\ if fine x i then e = None /\ flags_inv (v ++ [x]) s' else e = Some (-1).
Proof using Hlk.
  intros Hv Hi Hxv Hxr Hpr. destruct (fi_item v s x i Hv Hi) as (j & Hj & Ep & Eids). unfold kobj_ids_step, fine, task_mask. unfold bind at 1. rewrite (item_it s x j Hj), Eids, Ep.
  assert (Hmask : x <> r -> root_ns_mask s = root_mask) by (intros Hne; apply (fi_mask _ _ Hv); tauto).
  pose proof (fi_todo _ _ Hv x Hxv) as Hcl. rewrite (it_clones _ _ _ Hi) in Hcl.
  destruct (ids i) as [k|] eqn:Ek.
  2:{ exists (if x =? r then Some (-1) else None), s. split; [done|]. destruct (x =? r) eqn:E; [done|]. apply Z.eqb_neq in E. split; [done|].
      apply (flags_inv_snoc v s s x i Hv); try done; [apply Hv|unfold fine; rewrite Ek; by apply negb_true_iff, Z.eqb_neq| |by apply Hmask].
      rewrite Hcl. unfold task_flags, task_mask. by rewrite Ek. }
  assert (Hkp : (match parent i with Some p => ip <~ item p ;; ret (ids ip) | None => ret root_ids end) s = Done (parent_ids i, s)).
  { unfold parent_ids. destruct (parent i) as [p|] eqn:Epi; [|done]. destruct (lk_up _ _ _ Hlk x i p Hi Epi) as (ip & Hip & _). destruct (fi_item v s p ip Hv Hip) as (jp & Hjp & _ & E).
    unfold bind. rewrite (item_it s p jp Hjp), E. by rewrite Hip. }
  unfold bind at 1. rewrite Hkp. destruct (parent_ids i) as [kp|] eqn:Ekp; [|by exists (Some (-1)), s].
  set (m := get_clone_mask k kp). assert (Htm : task_mask i = Some m) by (unfold task_mask; by rewrite Ek, Ekp).
  (* the state after the table of descriptors is shared *)
  assert (Hsh : parent i <> None -> exists s1, (if has m CLONE_FILES then match parent i with Some _ => rc <~ shared_fdt_prepare x ;; ret (if rc =? 0 then None else Some rc) | None => ret (Some (-1)) end
      else ret None) s = Done (None, s1) /\ (forall y, cores s1 y = cores s y /\ clones s1 y = clones s y) /\ same_rest s s1 /\ fdt_ok s1 /\ root_ns_mask s1 = root_ns_mask s).
  { intros Hp. destruct (has m CLONE_FILES); [|by exists s; split_and!; [..|apply Hv|]]. destruct (parent i) as [p|] eqn:Epi; [|done].
    destruct (lk_up _ _ _ Hlk x i p Hi Epi) as (ip & Hip & _). destruct (fi_item v s p ip Hv Hip) as (jp & Hjp & _).
    assert (Hpx : p <> x). { intros ->. destruct (lk_depth _ _ _ Hlk x i x Hi Epi) as (n & Hd). pose proof (depth_child s0 r x i x n Hi Epi Hd) as Hd'. pose proof (depth_fun _ _ _ _ Hd _ Hd'). lia. }
    destruct (shared_fdt_prepare_spec s x j p jp Hj Ep Hjp Hpx (fi_fdt _ _ Hv)) as (s1 & E & H1 & H2 & H3 & H4). unfold bind. rewrite E. by exists s1. }
  destruct (parent i) as [p|] eqn:Epi.
  - destruct (Hsh ltac:(done)) as (s1 & E1 & HC & Hsr & Hf1 & Hm1). unfold bind at 1. rewrite E1. assert (Hxr' : x <> r) by (intros E; pose proof (proj2 Hpr E); done).
    assert (Hc1 : exists j1, it s1 x j1 /\ core_of j1 = core_of j /\ ids j1 = Some k).
    { pose proof (it_cores _ _ _ Hj) as H. rewrite <-(proj1 (HC x)) in H. apply cores_it in H as (j1 & Hj1 & E). exists j1. split_and!; [done..|].
      pose proof (it_clones _ _ _ Hj1) as Hcl1. rewrite (proj2 (HC x)), Hcl in Hcl1. by injection Hcl1 as <- _. }
    destruct Hc1 as (j1 & Hj1 & Ej1 & Ek1). unfold bind. rewrite (update_it s1 x j1 _ Hj1). assert ((x =? r) = false) as -> by (by apply Z.eqb_neq). cbn [root_ns_mask set_item set_pids]. rewrite Hm1, (Hmask Hxr').
    eexists _, _. split; [done|]. destruct (Z.ldiff _ _ =? 0) eqn:E; [|done]. split; [done|]. apply (flags_inv_snoc v s _ x i Hv); try done.
    + intros y. rewrite cores_set. destruct (decide (y = x)) as [->|]; [rewrite (it_cores _ _ _ Hj), <-Ej1; done|apply HC].
    + etransitivity; [exact Hsr|apply same_rest_set].
    + by apply (fdt_ok_update s1 x j1).
    + unfold fine. by rewrite Ek, Htm, Epi.
    + rewrite clones_set, decide_True by done. unfold task_flags. rewrite Htm, Epi. cbn. by rewrite Ek, Ek1.
    + intros y Hy. rewrite clones_set, decide_False by done. apply HC.
    + cbn. by rewrite Hm1, Hmask.
  - assert (x = r) as -> by tauto. destruct (has m CLONE_FILES) eqn:Eh; cbn [negb]; [by exists (Some (-1)), s|]. unfold bind, ret. rewrite (update_it s r j _ Hj), Z.eqb_refl.
    eexists None, _. split; [done|]. split; [done|]. apply (flags_inv_snoc v s _ r i Hv); try done.
    + intros y. change (cores (set_item r (with_clone_flags m j) s) y = cores s y). rewrite cores_set. destruct (decide (y = r)) as [->|]; [by rewrite (it_cores _ _ _ Hj)|done].
    + by destruct (same_rest_set s r (with_clone_flags m j)).
    + change (fdt_ok (set_item r (with_clone_flags m j) s)). apply (fdt_ok_update s r j); [apply Hv|done|done].
    + unfold fine. by rewrite Ek, Htm, Epi, Eh.
    + change (clones (set_item r (with_clone_flags m j) s) r = Some (ids i, task_flags i)). rewrite clones_set, decide_True by done. unfold task_flags. rewrite Htm, Epi. cbn. by rewrite Ek, Eids.
    + intros y Hy. change (clones (set_item r (with_clone_flags m j) s) y = clones s y). by rewrite clones_set, decide_False.
    + cbn. unfold root_mask. by rewrite Hi, Htm.
Qed.

(** every task of the tree is fine, and has its flags *)
Lemma kobj_ids_loop : exists t e s', repr s0 None t /\ troot t = r /\ prepare_pstree_kobj_ids root_ids s0 = Done (e, s') /\
  (e = 0 /\ flags_inv (preorder t) s' \/ e = -1 /\ exists y i, y ∈ preorder t /\ it s0 y i /\ fine y i = false).
Proof using Hlk Hok Hroot.
  destruct (root_focus s0 r hs Hlk) as (t & cs & Hr & Ht & Hnd & Hpre & Hfoc).
  assert (Hdep : forall y, y ∈ preorder t -> exists n, depth s0 r n y).
  { intros y Hy. destruct (lk_root _ _ _ Hlk) as (i & Hi & Hp). destruct (repr_depth s0 r hs None t O Hlk Hr) with (y := y) as (m & _ & Hm); [rewrite Ht; by eapply depth_root|done|eauto]. }
  set (P := fun (n : nat) (l : list Z) (s : ps) => (length l <= n)%nat /\ exists v, v ++ l = preorder t /\ flags_inv v s).
  unfold prepare_pstree_kobj_ids. rewrite Hroot. unfold bind, for_each_pstree_item. rewrite Hroot.
  destruct (for_each_rule (kobj_ids_step root_ids r) P (fun e _ => e = -1 /\ exists y i, y ∈ preorder t /\ it s0 y i /\ fine y i = false)) with (n := turns s0) (s := s0) (x := r) (cs := cs) (k := @nil (list tree)) as (e & s' & E & Hres).
  - intros x l s [H _]. cbn in H. lia.
  - intros n s x cs' k Hf (Hl & v & Hv & Hinv). assert (Hx : x ∈ preorder t) by (rewrite <-Hv; apply elem_of_app; right; left). destruct (Hdep x Hx) as (m & Hm). destruct (depth_item _ _ _ _ Hm) as (i & Hi).
    pose proof Hnd as Hnd'. rewrite <-Hv in Hnd'. apply list.NoDup_app in Hnd' as (_ & Hnd' & _).
    destruct (kobj_ids_step_spec v s x i Hinv Hi) as (e & s' & E & Hres).
    + intros Hxv. apply (Hnd' x Hxv). left.
    + rewrite Hpre in Hv. split.
      * intros ->. destruct v as [|y v]; [done|]. cbn in Hv. injection Hv as -> _. exfalso. apply (Hnd' r); left.
      * intros ->. cbn in Hv. by injection Hv as ->.
    + split; [|intros ->; destruct (lk_root _ _ _ Hlk) as (i' & Hi' & Hp); by rewrite (it_fun _ _ _ _ Hi Hi')].
      intros Hp. inversion Hm as [j Hj Hq|? j q m' Hj Hq _]; subst; [done|]. rewrite (it_fun _ _ _ _ Hj Hi) in Hq. congruence.
    + exists e, s'. split; [done|]. destruct (fine x i) eqn:Efi; [|subst e; split; [done|by exists x, i]]. destruct Hres as [-> Hinv'].
      assert (Hl' : forall y, links s' y = links s0 y) by (intros y; by rewrite !cores_links, (fi_cores _ _ Hinv')).
      exists cs', r, hs. split_and!.
      * apply (focus_ext s); [|done]. intros y. by rewrite Hl', cores_links, cores_links, (fi_cores _ _ Hinv).
      * split; [cbn in Hl; lia|]. exists (v ++ [x]). split; [by rewrite <-app_assoc|done].
      * by apply (linked_ext s0).
      * apply up_depth. apply (up_to_keep (links s0) (links s') r x (fun _ => True)); [by apply up_depth; exists m|done|done|]. intros y p c _ Hy. exists c. by rewrite Hl'.
  - done.
  - split; [rewrite <-Hpre; pose proof (preorder_size s0 None t Hr Hnd); unfold turns; lia|]. exists []. split; [done|]. split; try done; intros y i Hy; by apply elem_of_nil in Hy.
  - exists t. rewrite E. destruct e as [e|]; eexists _, s'; (split; [done|]); (split; [done|]); (split; [done|]).
    + right. exact Hres.
    + left. split; [done|]. destruct Hres as (n & _ & v & Hv & Hinv). rewrite app_nil_r in Hv. by rewrite <-Hv.
Qed.
End Flags.

(** C13: [prepare_pstree_kobj_ids] returns 0 exactly when every task of the tree can be cloned with the flags of [get_clone_mask]: the root has ids and does not share its files
    with the restoring task, a task that has ids has a parent that has some, and is in namespaces of its own only if these may be nested.  Then every task has these flags, but
    for the mount namespace, which tasks other than the root join later. *)
Theorem kobj_ids_spec (s : ps) (r : Z) (root_ids : option kobj_ids) :
  linked s r [] -> fdt_ok s -> root_item s = Some r ->
  exists e s', prepare_pstree_kobj_ids root_ids s = Done (e, s') /\
    (e = 0 /\ (forall y i n, depth s r n y -> it s y i -> fine s r root_ids y i = true /\ exists j, it s' y j /\ clone_flags j = task_flags s root_ids i) \/
     e = -1 /\ exists y i n, depth s r n y /\ it s y i /\ fine s r root_ids y i = false).
Proof.
  intros Hlk Hok Hroot. destruct (kobj_ids_loop s r [] root_ids Hlk Hok Hroot) as (t & e & s' & Hr & Ht & E & Hres). exists e, s'. split; [done|].
  destruct Hres as [[-> Hv]|(-> & y & i & Hy & Hi & Hf)]; [left|right]; (split; [done|]).
  - intros y i n Hd Hi. destruct (fi_done _ _ _ _ _ Hv y i (remaining_in_tree s r t Hlk Ht Hr n y Hd) Hi) as [Hf Hcl]. split; [done|].
    unfold clones in Hcl. destruct (pids s' !! y) as [[|j]|] eqn:Ej; [done| |done]. exists j. split; [done|]. by injection Hcl.
  - destruct (lk_root _ _ _ Hlk) as (ir & Hir & Hp). destruct (repr_depth s r [] None t O Hlk Hr) with (y := y) as (m & _ & Hm); [rewrite Ht; by eapply depth_root|done|]. by exists y, i, m.
Qed.
End CloneFlags.
