(* ===== verification/SessionBirths.v ===== *)
(** * Tasks that were born in another session than their own

    The second loop of prepare_pstree_ids: the tasks from a child in a foreign session up to the leader of that session were born in it. *)
From S2P Require Import Prelude.
From S2P Require Import Pstree.
From S2P Require Import PstreeTree.
From S2P Require Import PstreeIds.
From S2P Require Import Sessions.
From S2P Require Import SessionHelpers.
Import Pstree.Pstree PstreeTree.PstreeTree PstreeIds.PstreeIds Sessions.Sessions SessionHelpers.SessionHelpers.
#[local] Open Scope cmon_scope.

Module SessionBirths.

(** ** Only the sessions of birth change *)
Definition grows (C C' : Z -> option core) : Prop :=
  forall y, match C y with
  | None => C' y = None
  | Some c => exists bn, C' y = Some (mk_core (c_parent c) (c_children c) (c_sid c) (c_pgid c) bn (c_state c)) /\ (bn = c_born c \/ c_born c = -1)
  end.
#[export] Instance grows_preorder : PreOrder grows.
Proof.
  split.
  - intros C y. destruct (C y) as [[p l sd g bn st]|]; [|done]. exists bn. split; [done|by left].
  - intros C1 C2 C3 H1 H2 y. specialize (H1 y). specialize (H2 y). destruct (C1 y) as [c|]; [|by rewrite H1 in H2].
    destruct H1 as (b1 & E1 & F1). rewrite E1 in H2. destruct H2 as (b2 & E2 & F2). exists b2. split; [done|]. cbn in F2. destruct F2 as [->|F2]; [done|].
    destruct F1 as [F1|F1]; [right; congruence|by right].
Qed.

Lemma grows_links s s' x : grows (cores s) (cores s') -> links s' x = links s x.
Proof. intros H. specialize (H x). rewrite !cores_links. destruct (cores s x) as [c|]; [destruct H as (bn & -> & _); done|by rewrite H]. Qed.
Lemma grows_linked s s' r hs : grows (cores s) (cores s') -> linked s r hs -> linked s' r hs.
Proof. intros H. apply linked_ext. intros x. by apply grows_links. Qed.
Lemma grows_get C C' y c' : grows C C' -> C' y = Some c' -> exists c, C y = Some c /\ c_parent c' = c_parent c /\ c_sid c' = c_sid c /\ c_state c' = c_state c /\ c_pgid c' = c_pgid c /\
  (c_born c' = c_born c \/ c_born c = -1).
Proof. intros H Hy. specialize (H y). destruct (C y) as [c|]; [|congruence]. destruct H as (bn & E & F). rewrite Hy in E. injection E as ->. exists c. by split_and!. Qed.

(** from [p] up to the leader of [S0] every task was born in [S0] *)
Inductive chain (C : Z -> option core) (S0 : Z) : Z -> Prop :=
  | chain_leader : chain C S0 S0
  | chain_up p c q : C p = Some c -> c_born c = S0 -> c_parent c = Some q -> chain C S0 q -> chain C S0 p.

Lemma chain_grows C C' S0 p : S0 <> -1 -> grows C C' -> chain C S0 p -> chain C' S0 p.
Proof.
  intros Hs Hg. induction 1 as [|p c q Hc Hb Hp _ IH]; [constructor|]. specialize (Hg p). rewrite Hc in Hg. destruct Hg as (bn & E & [->|F]); [|congruence].
  by eapply chain_up.
Qed.

(** what one climb does: who gets a session of birth is below the chain that leads to the leader *)
Definition climbed (C C' : Z -> option core) (r S0 : Z) (b : Z -> Z) : Prop :=
  grows C C' /\ forall y c', C' y = Some c' -> C y = Some c' \/ y <> r /\ b y = S0 /\ c_born c' = S0 /\ exists q, c_parent c' = Some q /\ chain C' S0 q.

Section Climb.
Variables (s0 : ps) (r : Z) (b age : Z -> Z) (hs : list Z).
Context (Hlk : linked s0 r hs) (Hhi : history (cores s0) r b age).

Lemma linked_state x n : depth s0 r n x -> forall c, cores s0 x = Some c -> c_state c <> TASK_UNDEF.
Proof using Hhi Hlk.
  intros Hd c (i & Hi & <-)%cores_it E. destruct (proj1 (hi_state _ _ _ _ Hhi x _ (it_cores _ _ _ Hi)) E) as [Hp Hx]. cbn in Hp.
  inversion Hd as [j Hj Hq|? j q m Hj Hq _]; subst; [done|]. rewrite (it_fun _ _ _ _ Hj Hi) in Hq. congruence.
Qed.

(** who has a child that was born in [S0], and does not lead that session, was born in it *)
Lemma born_there p n S0 z d : depth s0 r n p -> p <> r -> p <> S0 -> cores s0 z = Some d -> c_parent d = Some p -> b z = S0 -> b p = S0.
Proof using Hhi Hlk.
  intros Hd Hpr HpS Hz Hp Hb. destruct (depth_item _ _ _ _ Hd) as (i & Hi). pose proof (linked_state p n Hd _ (it_cores _ _ _ Hi)) as Hst.
  destruct (hi_birth _ _ _ _ Hhi z d p _ Hz Hp Hpr (it_cores _ _ _ Hi)) as [E|E]; [|congruence]. cbn in E.
  rewrite (hi_nonleader _ _ _ _ Hhi p _ (it_cores _ _ _ Hi) Hst Hpr); cbn; congruence.
Qed.

Lemma born_loop_spec n : forall fuel p s S0 z d, grows (cores s0) (cores s) -> depth s0 r n p -> (n < fuel)%nat -> S0 <> -1 ->
  cores s0 z = Some d -> c_parent d = Some p -> b z = S0 ->
  exists e s', born_loop (S fuel) S0 (Some p) s = Done (e, s') /\
    match e with
    | Some e => e = -1
    | None => climbed (cores s) (cores s') r S0 b /\ chain (cores s') S0 p /\ same_rest s s' /\ (fdt_ok s -> fdt_ok s')
    end.
Proof using Hhi Hlk.
  induction n as [|n IH]; intros fuel p s S0 z d Hg Hd Hf Hpos Hz Hzp Hb; destruct fuel as [|fuel]; try lia; cbn [born_loop]; fold born_loop.
  all: destruct (p =? S0) eqn:E; [apply Z.eqb_eq in E as ->; exists None, s; split; [done|]; split; [split; [done|by left]|split; [constructor|by split]]|apply Z.eqb_neq in E].
  all: destruct (depth_item _ _ _ _ Hd) as (i0 & Hi0); pose proof (Hg p) as Hp; rewrite (it_cores _ _ _ Hi0) in Hp; destruct Hp as (bn & (ip & Hip & Ec)%cores_it & Hbn);
    unfold core_of in Ec; injection Ec as E1 E2 E3 E4 E5 E6.
  all: unfold bind at 1; rewrite (item_it s p ip Hip); destruct (negb (born_sid ip =? -1) && negb (born_sid ip =? S0)) eqn:Eb; [by exists (Some (-1)), s|].
  all: unfold bind at 1; rewrite (update_it s p ip _ Hip).
  - inversion Hd as [j Hj Hq|]; subst. rewrite (it_fun _ _ _ _ Hj Hi0) in Hq. rewrite E1, Hq. by exists (Some (-1)), (set_item p (with_born_sid (b z) ip) s).
  - inversion Hd as [|? j q m Hj Hq Hdq]; subst m. rewrite (it_fun _ _ _ _ Hj Hi0) in Hq. rewrite E1, Hq. set (s1 := set_item p (with_born_sid S0 ip) s).
    assert (Hpr : p <> r).
    { intros ->. inversion Hd as [|? j' q' ? Hj' Hq' Hd']; subst. pose proof (depth_fun _ _ _ _ Hd O) as H0. discriminate H0. destruct (lk_root _ _ _ Hlk) as (i & Hi & Hpi). by eapply depth_root. }
    assert (Hg1 : grows (cores s) (cores s1)).
    { intros y. unfold s1. rewrite cores_set. destruct (decide (y = p)) as [->|]; [|destruct (cores s y) as [[]|]; [eexists; split; [done|by left]|done]].
      rewrite (it_cores _ _ _ Hip). exists S0. split; [done|]. cbn. apply andb_false_iff in Eb as [Eb|Eb]; apply negb_false_iff, Z.eqb_eq in Eb; [by right|by left]. }
    pose proof (born_there p (S n) S0 z d Hd Hpr E Hz Hzp Hb) as Hbp.
    destruct (IH fuel q s1 S0 p (core_of i0)) as (e & s' & Eb' & Hres); [by etransitivity|done|lia|done|by apply it_cores|done|done|].
    exists e, s'. split; [done|]. destruct e as [e|]; [done|]. destruct Hres as ([Hg2 Hch] & Hq2 & Hsr & Hfd). split; [split|split; [|split]].
    + by etransitivity.
    + intros y c' Hy. destruct (Hch y c' Hy) as [Hy1|Hy1]; [|by right]. unfold s1 in Hy1. rewrite cores_set in Hy1. destruct (decide (y = p)) as [->|]; [|by left].
      right. injection Hy1 as <-. cbn. rewrite E1, Hq. split_and!; [done|done|done|]. by exists q.
    + pose proof (Hg2 p) as Hp2. unfold s1 in Hp2 at 1. rewrite cores_set, decide_True in Hp2 by done. destruct Hp2 as (bn2 & F & G). eapply chain_up; [exact F| |cbn; by rewrite E1, Hq|done].
      cbn in *. destruct G as [->|G]; [done|congruence].
    + etransitivity; [apply same_rest_set|exact Hsr].
    + intros Hok. apply Hfd. by apply (fdt_ok_update s p ip).
Qed.
(** ** The second loop *)
(** some task is in session [S0] *)
Definition used (S0 : Z) : Prop := exists z d, cores s0 z = Some d /\ c_state d <> TASK_UNDEF /\ c_sid d = S0.
(** every session of birth that was found is the one of the task, and leads up to the leader *)
Record born_inv (s : ps) : Prop := {
  bi_grows : grows (cores s0) (cores s);
  bi_rest : same_rest s0 s;
  bi_fdt : fdt_ok s0 -> fdt_ok s;
  bi_born : forall y c, cores s y = Some c -> c_born c <> -1 -> y <> r /\ b y = c_born c /\ used (c_born c) /\ exists q, c_parent c = Some q /\ chain (cores s) (c_born c) q;
}.

(** what is known of [y] after its turn *)
Definition visited (C : Z -> option core) (y : Z) : Prop :=
  forall c p d, cores s0 y = Some c -> c_parent c = Some p -> c_state c <> TASK_HELPER -> c_sid c <> y -> cores s0 p = Some d -> c_sid d = c_sid c \/ chain C (c_sid c) p.

(** a task in another session than its parent, which does not lead it *)
Definition late (y : Z) : Prop :=
  exists c p d, cores s0 y = Some c /\ c_parent c = Some p /\ c_state c <> TASK_HELPER /\ c_sid c <> y /\ cores s0 p = Some d /\ c_sid d <> c_sid c.

Lemma child_linked y c p : cores s0 y = Some c -> c_parent c = Some p -> c_state c <> TASK_UNDEF.
Proof using Hhi. intros Hy Hp E. destruct (proj1 (hi_state _ _ _ _ Hhi y c Hy) E). congruence. Qed.

Lemma child_not_root y c p : cores s0 y = Some c -> c_parent c = Some p -> y <> r.
Proof using Hlk. intros (i & Hi & <-)%cores_it Hp ->. destruct (lk_root _ _ _ Hlk) as (j & Hj & Hpj). rewrite (it_fun _ _ _ _ Hj Hi) in Hpj. cbn in Hp. congruence. Qed.

Lemma visited_grows C C' y : grows C C' -> visited C y -> visited C' y.
Proof using Hhi.
  intros Hg Hv c p d Hy Hp Hst Hs Hd. destruct (Hv c p d Hy Hp Hst Hs Hd) as [E|Hc]; [by left|right]. eapply chain_grows; [|done|done].
  by destruct (hi_sid _ _ _ _ Hhi y c Hy (child_linked y c p Hy Hp)).
Qed.

Lemma born_inv_climbed s s' S0 : born_inv s -> climbed (cores s) (cores s') r S0 b -> same_rest s s' -> (fdt_ok s -> fdt_ok s') -> S0 <> -1 -> used S0 -> born_inv s'.
Proof using.
  intros [H1 H2 H2' H3] [Hg Hch] Hsr Hfd HS Hus. split; [by etransitivity|by etransitivity|auto|]. intros y c' Hy Hb. destruct (Hch y c' Hy) as [Hy1|(F1 & F2 & F3 & q & F4 & F5)].
  - destruct (H3 y c' Hy1 Hb) as (E1 & E2 & E5 & q & E3 & E4). split_and!; [done..|]. exists q. split; [done|]. by eapply chain_grows.
  - rewrite F3. split_and!; [done..|]. exists q. by split.
Qed.

Lemma depth_links s s' n x : (forall y, links s' y = links s y) -> depth s r n x -> depth s' r n x.
Proof using.
  intros He. induction 1 as [i Hi Hp|x i p n Hi Hp _ IH].
  - pose proof (He r) as H. rewrite (it_links _ _ _ Hi) in H. apply links_it in H as (j & Hj & Hpj & _). apply (depth_root _ _ j); [done|congruence].
  - pose proof (He x) as H. rewrite (it_links _ _ _ Hi) in H. apply links_it in H as (j & Hj & Hpj & _). apply (depth_child _ _ x j p); [done|congruence|done].
Qed.

Lemma born_step_spec s x n : born_inv s -> depth s0 r n x ->
  exists e s', born_step x s = Done (e, s') /\ match e with
    | Some e => e = -1 /\ late x
    | None => born_inv s' /\ grows (cores s) (cores s') /\ visited (cores s') x
    end.
Proof using Hhi Hlk.
  intros Hb Hd. destruct (depth_item _ _ _ _ Hd) as (i0 & Hi0). pose proof (it_cores _ _ _ Hi0) as Hc0. pose proof (bi_grows _ Hb x) as Hg. rewrite Hc0 in Hg.
  destruct Hg as (bn & (i & Hi & Ec)%cores_it & _). injection Ec as E1 E2 E3 E4 E5 E6. cbn in *. unfold born_step. unfold bind at 1. rewrite (item_it s x i Hi), E1, E3, E6.
  assert (Hnone : visited (cores s) x -> exists e s', ret (S := ps) (None (A := Z)) s = Done (e, s') /\ match e with Some e => e = -1 /\ late x | None => born_inv s' /\ grows (cores s) (cores s') /\ visited (cores s') x end).
  { intros Hv. by exists None, s. }
  destruct (parent i0) as [p|] eqn:Ep; [|apply Hnone; intros c p d Hc; rewrite Hc0 in Hc; injection Hc as <-; cbn; congruence].
  case_bool_decide as Est; [apply Hnone; intros c q d Hc; rewrite Hc0 in Hc; by injection Hc as <-|].
  destruct (sid i0 =? x) eqn:Es; [apply Z.eqb_eq in Es; apply Hnone; intros c q d Hc; rewrite Hc0 in Hc; by injection Hc as <-|apply Z.eqb_neq in Es].
  destruct (lk_up _ _ _ Hlk x i0 p Hi0 Ep) as (ip0 & Hip0 & _). pose proof (bi_grows _ Hb p) as Hgp. rewrite (it_cores _ _ _ Hip0) in Hgp.
  destruct Hgp as (bp & (ip & Hip & Ecp)%cores_it & _). injection Ecp as _ _ F3 _ _ _. cbn in *. unfold bind at 1. rewrite (item_it s p ip Hip), F3.
  destruct (sid ip0 =? sid i0) eqn:Esp.
  { apply Z.eqb_eq in Esp. apply Hnone. intros c q d Hc Hq _ _ Hdq. rewrite Hc0 in Hc. injection Hc as <-. cbn in *. assert (q = p) as -> by congruence. left. rewrite (it_cores _ _ _ Hip0) in Hdq. by injection Hdq as <-. }
  apply Z.eqb_neq in Esp. assert (Hch : c_parent (core_of i0) = Some p) by done. pose proof (child_linked x _ p Hc0 Hch) as Hlin. destruct (hi_sid _ _ _ _ Hhi x _ Hc0 Hlin) as [Hpos _].
  assert (Hdp : exists m, depth s0 r m p). { inversion Hd as [j Hj Hq|? j q m Hj Hq Hdq]; subst; rewrite (it_fun _ _ _ _ Hj Hi0) in Hq; [congruence|]. assert (q = p) as -> by congruence. eauto. }
  destruct Hdp as (m & Hdp). assert (Hm : (m < size (pids s))%nat) by (eapply depth_size, depth_links; [|exact Hdp]; intros y; apply grows_links, Hb).
  destruct (born_loop_spec m (size (pids s)) p s (sid i0) x (core_of i0) (bi_grows _ Hb) Hdp Hm Hpos Hc0 Hch) as (e & s' & Eb & Hres).
  { exact (hi_nonleader _ _ _ _ Hhi x _ Hc0 Hlin (child_not_root x _ p Hc0 Hch) Es). }
  unfold turns. exists e, s'. split; [done|]. destruct e as [e|].
  { split; [done|]. exists (core_of i0), p, (core_of ip0). split_and!; [done..|by apply it_cores|done]. }
  destruct Hres as (Hcl & Hchain & Hsr & Hfd). split_and!.
  - eapply born_inv_climbed; [done..|]. exists x. by eexists.
  - apply Hcl.
  - intros c q d Hc Hq _ _ _. rewrite Hc0 in Hc. injection Hc as <-. cbn in *. right. by assert (q = p) as -> by congruence.
Qed.

Lemma births_spec : root_item s0 = Some r -> exists t e s', repr s0 None t /\ troot t = r /\ for_each_pstree_item born_step s0 = Done (e, s') /\
  match e with
  | Some e => e = -1 /\ exists y, y ∈ preorder t /\ late y
  | None => born_inv s' /\ forall y, y ∈ preorder t -> visited (cores s') y
  end.
Proof using Hhi Hlk.
  intros Hroot. destruct (root_focus s0 r hs Hlk) as (t & cs & Hr & Ht & Hnd & Hpre & Hfoc).
  assert (Hdep : forall y, y ∈ preorder t -> exists n, depth s0 r n y).
  { intros y Hy. destruct (lk_root _ _ _ Hlk) as (i & Hi & Hp). destruct (repr_depth s0 r hs None t O Hlk Hr) with (y := y) as (m & _ & Hm); [rewrite Ht; by eapply depth_root|done|eauto]. }
  set (P := fun (n : nat) (l : list Z) (s : ps) => born_inv s /\ (length l <= n)%nat /\ exists v, v ++ l = preorder t /\ forall y, y ∈ v -> visited (cores s) y).
  unfold for_each_pstree_item. rewrite Hroot. destruct (for_each_rule born_step P (fun e _ => e = -1 /\ exists y, y ∈ preorder t /\ late y)) with (n := turns s0) (s := s0) (x := r) (cs := cs) (k := @nil (list tree)) as (e & s' & E & Hres).
  - intros x l s (_ & H & _). cbn in H. lia.
  - intros n s x cs' k Hf (Hb & Hl & v & Hv & Hvis). assert (Hx : x ∈ preorder t) by (rewrite <-Hv; apply elem_of_app; right; left). destruct (Hdep x Hx) as (m & Hm).
    destruct (born_step_spec s x m Hb Hm) as (e & s' & E & Hres). exists e, s'. split; [done|]. destruct e as [e|]; [destruct Hres as [He Hl']; split; [done|by exists x]|]. destruct Hres as (Hb' & Hg & Hx').
    exists cs', r, hs. split_and!.
    + apply (focus_ext s); [|done]. intros y. by apply grows_links.
    + split; [done|]. split; [cbn in Hl; lia|]. exists (v ++ [x]). split; [by rewrite <-app_assoc|]. intros y [Hy| ->%list_elem_of_singleton]%elem_of_app; [|done]. by eapply visited_grows; [|apply Hvis].
    + eapply grows_linked; [apply Hb'|done].
    + exists m. eapply depth_links; [|exact Hm]. intros y. apply grows_links, Hb'.
  - done.
  - split_and!; [|rewrite <-Hpre; pose proof (preorder_size s0 None t Hr Hnd); unfold turns; lia|exists []; split; [done|]; intros y Hy; by apply elem_of_nil in Hy].
    split; [done..|]. intros y c Hy Hc. by rewrite (hi_unborn _ _ _ _ Hhi y c Hy) in Hc.
  - exists t, e, s'. split_and!; [done..|]. destruct e as [e|]; [done|]. destruct Hres as (n & Hb' & _ & v & Hv & Hvis). split; [done|]. rewrite app_nil_r in Hv. by subst v.
Qed.
End Climb.
End SessionBirths.
