(* ===== verification/SessionGroups.v ===== *)
(** * Process groups, and the whole preparation of the tree

    The third loop of prepare_pstree_ids gives the process groups without a leader a helper; what it leaves can be forked, with every task in its session. *)
From S2P Require Import Prelude.
From S2P Require Import Pstree.
From S2P Require Import PstreeTree.
From S2P Require Import PstreeIds.
From S2P Require Import Sessions.
From S2P Require Import SessionHelpers.
From S2P Require Import SessionBirths.
Import Pstree.Pstree PstreeTree.PstreeTree PstreeIds.PstreeIds Sessions.Sessions SessionHelpers.SessionHelpers SessionBirths.SessionBirths.
#[local] Open Scope cmon_scope.

Module SessionGroups.

(** ** After the second loop the tree can be forked *)
(** the conditions of [forkable] on what the loops depend on *)
Record forkable_by (C : Z -> option core) (r : Z) : Prop := {
  fb_root : forall c, C r = Some c -> c_born c = -1;
  fb_sid : forall x c, C x = Some c -> (c_parent c <> None \/ x = r) -> c_sid c <> -1;
  fb_born : forall x c y d, C x = Some c -> C y = Some d -> c_parent d = Some x -> c_born d <> -1 -> c_born c = c_born d \/ c_sid c = c_born d;
  fb_same : forall x c y d, C x = Some c -> C y = Some d -> c_parent d = Some x -> c_born d = -1 -> c_sid d <> y -> c_sid c = c_sid d \/ c_born c = c_sid d;
  fb_leader : forall x y d, C y = Some d -> c_parent d = Some x -> c_born d <> -1 -> c_sid d = y \/ c_sid d = c_born d;
}.

Lemma forkable_cores s r : forkable_by (cores s) r -> forkable s r.
Proof.
  intros [A1 A2 A3 A4 A5]. split.
  - intros i Hi. exact (A1 _ (it_cores _ _ _ Hi)).
  - intros x i Hi. exact (A2 x _ (it_cores _ _ _ Hi)).
  - intros x i y j Hi Hj. exact (A3 x _ y _ (it_cores _ _ _ Hi) (it_cores _ _ _ Hj)).
  - intros x i y j Hi Hj. exact (A4 x _ y _ (it_cores _ _ _ Hi) (it_cores _ _ _ Hj)).
  - intros x y j Hj. exact (A5 x y _ (it_cores _ _ _ Hj)).
Qed.

Section Ready.
Variables (lax : Prop) (s0 s1 : ps) (r : Z) (hs : list Z) (b age : Z -> Z) (t : tree).
Context (Hv : helpers_inv lax s0 r hs b age) (Ht : repr s0 None t) (Hroot : troot t = r).
Context (Hb : born_inv s0 r b s1) (Hvis : forall y, y ∈ preorder t -> visited s0 (cores s1) y).

(** whoever has children is linked *)
Lemma parent_linked y d x c : cores s0 y = Some d -> c_parent d = Some x -> cores s0 x = Some c -> c_state c <> TASK_UNDEF.
Proof using Hv.
  intros (j & Hj & <-)%cores_it Hp (i & Hi & <-)%cores_it E. destruct Hv as [Hlk Hhi _ _ _ _ _ _].
  destruct (proj1 (hi_state _ _ _ _ Hhi x _ (it_cores _ _ _ Hi)) E) as [Hpi Hxr]. cbn in *. destruct (lk_up _ _ _ Hlk y j x Hj Hp) as (i' & Hi' & [Hc|[-> _]]); [|done].
  rewrite (it_fun _ _ _ _ Hi' Hi), (lk_free _ _ _ Hlk x i Hi Hpi Hxr) in Hc. by apply elem_of_nil in Hc.
Qed.

(** a task that is no helper was visited, unless it is below a helper that is a leader of its own *)
Lemma all_visited y d x c : cores s0 y = Some d -> c_parent d = Some x -> cores s0 x = Some c -> c_state d <> TASK_HELPER -> c_sid d <> y ->
  c_sid c = c_sid d \/ chain (cores s1) (c_sid d) x.
Proof using All.
  intros Hy Hp Hx Hst Hs. assert (Hin : y ∈ preorder t \/ c_sid c = c_sid d); [|destruct Hin as [Hin|]; [by apply (Hvis y Hin d x c)|by left]].
  pose proof Hy as (j & Hj & Ec)%cores_it. destruct Hv as [Hlk Hhi _ _ _ Hlate Hld _].
  assert (Hpj : parent j = Some x) by (by rewrite <-Ec in Hp). destruct (lk_depth _ _ _ Hlk y j x Hj Hpj) as (n & Hn).
  destruct Hlate as [(_ & _ & Hhs)|Hn'].
  - left. destruct (linked_in_tree s0 r hs t n y Hlk Hroot Ht Hn) as [|(h & _ & Hh & _)]; [done|]. rewrite Hhs in Hh. by apply elem_of_nil in Hh.
  - destruct (decide (x = r)) as [Exr|Hxr]; [|right; destruct (Hn' y d x c Hy Hp Hxr Hx); congruence]. left.
    destruct (lk_up _ _ _ Hlk y j x Hj Hpj) as (i & Hi & [Hc|[_ Hh]]).
    + eapply repr_closed; [exact Ht| |exact Hi|done]. rewrite Exr, <-Hroot. destruct (preorder_root t) as (l & ->). left.
    + destruct (Hld y Hh) as (c' & Hc' & _ & E). congruence.
Qed.

Lemma chain_top S0 x c y d : chain (cores s1) S0 x -> cores s0 x = Some c -> cores s0 y = Some d -> c_parent d = Some x -> used s0 S0 ->
  c_sid c = S0 \/ exists c', cores s1 x = Some c' /\ c_born c' = S0.
Proof using Hv.
  intros Hc Hx Hy Hp (z & e & Hz & Hst & He). inversion Hc as [E|p c' q Hp' Hbn _ _]; [left|right; by exists c'].
  rewrite E in *. eapply (hi_leader _ _ _ _ (hv_history _ _ _ _ _ _ Hv) z e); [done|done|exact Hx|exact (parent_linked y d x c Hy Hp Hx)|done].
Qed.

Lemma forkable_ready : forkable_by (cores s1) r.
Proof using All.
  destruct Hb as [Hg _ _ Hbn]. pose proof (hv_history _ _ _ _ _ _ Hv) as Hhi.
  assert (Hlin : forall y d, cores s0 y = Some d -> c_parent d <> None \/ y = r -> c_state d <> TASK_UNDEF).
  { intros y d Hy Hor E. destruct (proj1 (hi_state _ _ _ _ Hhi y d Hy) E). naive_solver. }
  split.
  - intros c Hc. destruct (decide (c_born c = -1)) as [|Hn]; [done|]. by destruct (Hbn r c Hc Hn).
  - intros x c Hx Hor. destruct (grows_get _ _ _ _ Hg Hx) as (c0 & H0 & E1 & E2 & _). rewrite E2. rewrite E1 in Hor. by destruct (hi_sid _ _ _ _ Hhi x c0 H0 (Hlin x c0 H0 Hor)).
  - intros x c y d Hx Hy Hp Hn. destruct (Hbn y d Hy Hn) as (_ & _ & Hu & q & Hq & Hch). assert (q = x) as -> by congruence.
    destruct (grows_get _ _ _ _ Hg Hx) as (c0 & H0 & E1 & E2 & _), (grows_get _ _ _ _ Hg Hy) as (d0 & G0 & F1 & _). rewrite F1 in Hp.
    destruct (chain_top _ _ _ _ _ Hch H0 G0 Hp Hu) as [E|(c' & E & E')]; [right; congruence|left]. rewrite Hx in E. by injection E as <-.
  - intros x c y d Hx Hy Hp Hn Hs. destruct (grows_get _ _ _ _ Hg Hx) as (c0 & H0 & E1 & E2 & E3 & _), (grows_get _ _ _ _ Hg Hy) as (d0 & G0 & F1 & F2 & F3 & _).
    rewrite F1 in Hp. rewrite F2 in *. rewrite E2. assert (Hst : c_state d0 <> TASK_UNDEF) by (apply (Hlin y d0 G0); left; by rewrite Hp).
    destruct (decide (c_state d0 = TASK_HELPER)) as [Hh|Hh].
    + left. destruct (hi_helper _ _ _ _ Hhi y d0 G0 Hh) as [|[E _]]; [done|]. assert (x = c_sid d0) as -> by congruence.
      by eapply (hi_leader _ _ _ _ Hhi y d0 _ c0 G0 Hst H0); [eapply parent_linked|].
    + destruct (all_visited y d0 x c0 G0 Hp H0 Hh Hs) as [|Hch]; [by left|].
      destruct (chain_top _ _ _ _ _ Hch H0 G0 Hp) as [E|(c' & E & E')]; [by exists y, d0|by left|right]. rewrite Hx in E. by injection E as <-.
  - intros x y d Hy Hp Hn. destruct (Hbn y d Hy Hn) as (Hyr & Hby & _). destruct (grows_get _ _ _ _ Hg Hy) as (d0 & G0 & F1 & F2 & _). rewrite F1 in Hp. rewrite F2, <-Hby.
    destruct (decide (c_sid d0 = y)) as [|Hs]; [by left|right]. symmetry. apply (hi_nonleader _ _ _ _ Hhi y d0 G0); [apply (Hlin y d0 G0); left; by rewrite Hp|done|done].
Qed.
End Ready.

(** ** The third loop *)
Lemma forkable_by_ext C C' r : (forall y, C' y = C y) -> forkable_by C r -> forkable_by C' r.
Proof. intros He [A1 A2 A3 A4 A5]. split; intros *; rewrite !He; eauto. Qed.

Section Groups.
Variables (g r : Z) (s3 : ps).

Record group_inv (s : ps) : Prop := {
  gi_linked : linked s r [];
  gi_fork : forkable_by (cores s) r;
  gi_fdt : fdt_ok s;
  gi_root : root_item s = Some r;
  gi_state : forall y d, cores s y = Some d -> (c_state d = TASK_UNDEF <-> c_parent d = None /\ y <> r);
  gi_fresh : forall y d, cores s y = Some d -> c_state d = TASK_UNDEF -> c_born d = -1;
  gi_groups : groups_known (cores s);
  gi_old : forall y, is_Some (cores s y) -> is_Some (cores s3 y);
  gi_kept : kept (cores s3) (cores s);
}.

(** the group of [y] has a leader, or is the one of the restoring task, or none *)
Definition group_done (C : Z -> option core) (y : Z) : Prop :=
  forall d, C y = Some d -> c_pgid d = 0 \/ c_pgid d = y \/ c_pgid d = g \/ exists c, C (c_pgid d) = Some c /\ c_state c <> TASK_UNDEF.

Definition is_linked (C : Z -> option core) (y : Z) : Prop := exists d, C y = Some d /\ c_state d <> TASK_UNDEF.

Lemma group_done_kept C C' y : kept C C' -> is_linked C y -> group_done C y -> group_done C' y.
Proof.
  intros Hk (c & Hc & Hst) Hd d Hy. destruct (Hk y c Hc) as (c' & E & F). rewrite Hy in E. injection E as <-. destruct (F Hst) as (_ & -> & _).
  destruct (Hd c Hc) as [|[|[|(e & He & Hs)]]]; [auto..|]. do 3 right. destruct (Hk _ e He) as (e' & He' & G). exists e'. split; [done|]. destruct (G Hs) as (_ & _ & ->). done.
Qed.

Lemma group_inv_ext s s' : (forall y, cores s' y = cores s y) -> same_rest s s' -> fdt_ok s' -> group_inv s -> group_inv s'.
Proof.
  intros He Hsr Hok [A1 A2 A3 A4 A5 A6 A7 A8 A9]. split.
  - apply (linked_ext s); [|done]. intros y. by rewrite !cores_links, He.
  - by apply (forkable_by_ext (cores s)).
  - done.
  - by rewrite (sr_root _ _ Hsr).
  - intros y d. rewrite He. apply A5.
  - intros y d. rewrite He. apply A6.
  - intros y d. rewrite !He. apply A7.
  - intros y. rewrite He. apply A8.
  - intros y c Hy. rewrite He. by apply A9.
Qed.

Lemma linked_depth s x : group_inv s -> is_linked (cores s) x -> exists n, depth s r n x.
Proof.
  intros Hg (c & Hc & Hst). pose proof Hc as (i & Hi & Ei)%cores_it. destruct (parent i) as [p|] eqn:Ep.
  - exact (lk_depth _ _ _ (gi_linked _ Hg) x i p Hi Ep).
  - destruct (decide (x = r)) as [->|Hxr]; [exists O; by eapply depth_root|]. exfalso. apply Hst. apply (proj2 (gi_state _ Hg x c Hc)). by rewrite <-Ei.
Qed.

(** a helper [h] below [x] *)
Definition leaf_added (C C' : Z -> option core) (x h : Z) (cx : core) : Prop :=
  forall y, C' y = if decide (y = x) then Some (with_core_children (h :: c_children cx) cx)
    else if decide (y = h) then Some (mk_core (Some x) [] (c_sid cx) h (-1) TASK_HELPER) else C y.

Section Leaf.
Variables (s s' : ps) (x h : Z) (ix ih : pstree_item).
Context (Hg : group_inv s) (Hx : it s x ix) (Hxs : state ix <> TASK_UNDEF) (Hh : it s h ih) (Hhs : state ih = TASK_UNDEF).
Context (HC : leaf_added (cores s) (cores s') x h (core_of ix)) (Hsr : same_rest s s') (Hok : fdt_ok s').

Lemma leaf_ne : h <> x.
Proof using Hx Hxs Hh Hhs. intros E. rewrite E in Hh. rewrite (it_fun _ _ _ _ Hh Hx) in Hhs. done. Qed.
Lemma leaf_free : parent ih = None /\ h <> r /\ children ih = [].
Proof using Hg Hh Hhs.
  destruct (proj1 (gi_state _ Hg h _ (it_cores _ _ _ Hh)) Hhs) as [Hp Hr]. cbn in Hp. split_and!; [done|done|]. by eapply (lk_free _ _ _ (gi_linked _ Hg) h).
Qed.
Lemma leaf_up : up_to (links s) r x.
Proof using Hg Hx Hxs. apply up_depth, linked_depth; [done|]. exists (core_of ix). split; [by apply it_cores|done]. Qed.
Lemma leaf_links : links s' h = Some (Some x, []) /\ links s' x = Some (parent ix, h :: children ix) /\ forall y, y <> h -> y <> x -> links s' y = links s y.
Proof using HC Hx Hxs Hh Hhs.
  pose proof leaf_ne as Hne. rewrite !cores_links, !HC. rewrite (decide_True (P := x = x)), (decide_False (P := h = x)), decide_True by done. split_and!; [done|done|].
  intros y H1 H2. rewrite !cores_links, HC. by rewrite !decide_False.
Qed.

Lemma leaf_get y d : cores s' y = Some d -> y = h /\ d = mk_core (Some x) [] (sid ix) h (-1) TASK_HELPER \/
  y <> h /\ exists c, cores s y = Some c /\ c_parent d = c_parent c /\ c_sid d = c_sid c /\ c_pgid d = c_pgid c /\ c_born d = c_born c /\ c_state d = c_state c.
Proof using HC Hx Hxs Hh Hhs.
  rewrite HC. pose proof leaf_ne as Hne. destruct (decide (y = x)) as [->|]; [|destruct (decide (y = h)) as [->|]].
  - intros [= <-]. right. split; [done|]. exists (core_of ix). split; [by apply it_cores|done].
  - intros [= <-]. by left.
  - intros Hy. right. split; [done|]. exists d. by split_and!.
Qed.
Lemma leaf_kept : kept (cores s) (cores s').
Proof using HC Hx Hxs Hh Hhs.
  intros y c Hy. rewrite HC. destruct (decide (y = x)) as [->|]; [|destruct (decide (y = h)) as [->|]; [|by exists c]].
  - rewrite (it_cores _ _ _ Hx) in Hy. injection Hy as <-. by eexists.
  - rewrite (it_cores _ _ _ Hh) in Hy. injection Hy as <-. by eexists.
Qed.
Lemma leaf_no_parent y d : cores s y = Some d -> c_parent d <> Some h.
Proof using Hg Hh Hhs.
  intros (j & Hj & <-)%cores_it Hp. destruct leaf_free as (_ & Hr & Hc). destruct (lk_up _ _ _ (gi_linked _ Hg) y j h Hj Hp) as (i & Hi & [Hin|[E _]]); [|done].
  rewrite (it_fun _ _ _ _ Hi Hh), Hc in Hin. by apply elem_of_nil in Hin.
Qed.

Lemma leaf_inv : group_inv s'.
Proof using All.
  pose proof leaf_ne as Hne. destruct leaf_free as (Hp & Hr & Hc). destruct leaf_links as (L1 & L2 & L3). pose proof leaf_kept as Hk. pose proof (it_cores _ _ _ Hx) as Hcx.
  destruct Hg as [A1 [B1 B2 B3 B4 B5] A3 A4 A5 A6 A7 A8 A9]. split; [| |done| | | | | |by etransitivity].
  - apply (linked_add s s' r [] h x (parent ix) (children ix)); try done; [by apply it_links|exact leaf_up|]. right. by rewrite (it_links _ _ _ Hh), Hp, Hc.
  - split.
    + intros c Hy. destruct (leaf_get r c Hy) as [[-> _]|(_ & c0 & H0 & _ & _ & _ & -> & _)]; [done|eauto].
    + intros y c Hy Hor. destruct (leaf_get y c Hy) as [[-> ->]|(_ & c0 & H0 & E1 & -> & _)]; [cbn|rewrite E1 in Hor; eauto]. apply (B2 x _ Hcx).
      destruct (decide (x = r)) as [Exr|Hxr]; [by right|left]. intros E. apply Hxs. by apply (proj2 (A5 x _ Hcx)).
    + intros y c z d Hy Hz Hpz Hn. destruct (leaf_get z d Hz) as [[-> ->]|(_ & d0 & G0 & F1 & _ & _ & F2 & _)]; [done|]. rewrite F1 in Hpz. rewrite F2 in *.
      destruct (leaf_get y c Hy) as [[-> _]|(_ & c0 & H0 & _ & -> & _ & -> & _)]; [by apply leaf_no_parent in G0|eauto].
    + intros y c z d Hy Hz Hpz Hn Hs. destruct (leaf_get z d Hz) as [[-> ->]|(_ & d0 & G0 & F1 & F3 & _ & F2 & _)].
      * cbn in *. left. assert (y = x) as -> by congruence. destruct (leaf_get x c Hy) as [[E _]|(_ & c0 & H0 & _ & -> & _)]; [congruence|]. rewrite Hcx in H0. by injection H0 as <-.
      * rewrite F1 in Hpz. rewrite F2 in *. rewrite F3 in *. destruct (leaf_get y c Hy) as [[-> _]|(_ & c0 & H0 & _ & -> & _ & -> & _)]; [by apply leaf_no_parent in G0|eauto].
    + intros y z d Hz Hpz Hn. destruct (leaf_get z d Hz) as [[-> ->]|(_ & d0 & G0 & F1 & F3 & _ & F2 & _)]; [done|]. rewrite F1 in Hpz. rewrite F2 in *. rewrite F3. eauto.
  - by rewrite (sr_root _ _ Hsr).
  - intros y d Hy. destruct (leaf_get y d Hy) as [[-> ->]|(_ & d0 & G0 & F1 & _ & _ & _ & F2)]; [cbn; naive_solver|]. rewrite F1, F2. by apply A5.
  - intros y d Hy Hs. destruct (leaf_get y d Hy) as [[-> ->]|(_ & d0 & G0 & _ & _ & _ & F1 & F2)]; [done|]. rewrite F1. rewrite F2 in Hs. by apply (A6 y).
  - apply (groups_kept (cores s)); [done|done|]. intros y d Hy Hs. destruct (leaf_get y d Hy) as [[-> ->]|(_ & d0 & G0 & _ & _ & _ & _ & F2)].
    + right. intros _. cbn. by rewrite (it_cores _ _ _ Hh).
    + left. exists d0. split; [done|congruence].
  - intros y [d Hd]. apply A8. destruct (leaf_get y d Hd) as [[-> _]|(_ & d0 & G0 & _)]; [by rewrite (it_cores _ _ _ Hh)|by exists d0].
Qed.
End Leaf.

(** what a turn at [x] does to the tasks still to visit *)
Definition extended (s s' : ps) (cs cs' : list tree) : Prop :=
  cs' = cs /\ (forall y, cores s' y = cores s y) \/
  exists h ih, cs' = T h [] :: cs /\ it s h ih /\ state ih = TASK_UNDEF /\ forall y, is_linked (cores s') y <-> is_linked (cores s) y \/ y = h.

Lemma group_step_spec s x cs k : group_inv s -> is_linked (cores s) x -> focus s x cs k -> NoDup (x :: remaining cs k) ->
  exists s' cs', group_step g x s = Done (None, s') /\ group_inv s' /\ kept (cores s) (cores s') /\ focus s' x cs' k /\ group_done (cores s') x /\ extended s s' cs cs'.
Proof.
  intros Hg Hl Hf Hnd. destruct (linked_depth s x Hg Hl) as (n & Hd). destruct Hl as (c & Hc & Hst). pose proof Hc as (ix & Hx & <-)%cores_it. cbn in Hst.
  unfold group_step. unfold bind at 1. rewrite (item_it s x ix Hx).
  assert (Hsame : group_done (cores s) x -> exists s' cs', ret (S := ps) (None (A := Z)) s = Done (None, s') /\ group_inv s' /\ kept (cores s) (cores s') /\ focus s' x cs' k /\ group_done (cores s') x /\ extended s s' cs cs').
  { intros H. exists s, cs. split_and!; try done. by left. }
  destruct ((pgid ix =? 0) || (x =? pgid ix)) eqn:E.
  { apply Hsame. intros d Hdx. rewrite Hc in Hdx. injection Hdx as <-. apply orb_true_iff in E as [E|E]; apply Z.eqb_eq in E; auto. }
  apply orb_false_iff in E as [E0%Z.eqb_neq Ex%Z.eqb_neq]. destruct (gi_groups _ Hg x _ Hc Hst E0) as [cg (ig & Hig & <-)%cores_it]. cbn in Hig.
  unfold pstree_pid_by_virt. rewrite Hig. destruct (decide (state ig = TASK_UNDEF)) as [Hu|Hu].
  - rewrite bool_decide_eq_true_2 by done. cbn [negb]. destruct (g =? pgid ix) eqn:Eg.
    { apply Hsame. intros d Hdx. rewrite Hc in Hdx. injection Hdx as <-. apply Z.eqb_eq in Eg. cbn. auto. }
    assert (Hhx : pgid ix <> x) by congruence. unfold bind. rewrite (update_it s _ ig _ Hig). set (ih := with_ids _ _). set (s1 := set_item (pgid ix) ih s).
    assert (Hx1 : it s1 x ix) by (by apply it_set_ne). destruct (leaf_free s (pgid ix) ig Hg Hig Hu) as (Hpg & Hgr & Hcg).
    destruct (init_pstree_helper_spec s1 (pgid ix) ih x ix) as (s2 & Ei & HC2 & Hsr2 & Hok2); [by apply it_set|done|done|done|by apply (fdt_ok_update s _ ig (fun _ => ih)); [apply Hg|..]|].
    rewrite Ei. cbn [negb Z.eqb]. pose proof (HC2 x) as Hc2. rewrite decide_False in Hc2 by done. unfold s1 in Hc2. rewrite cores_set, decide_False, Hc in Hc2 by done.
    apply cores_it in Hc2 as (ix2 & Hx2 & Ec2). rewrite (update_it s2 x ix2 _ Hx2). set (i3 := with_pgrp_leader _ _). set (s' := set_item x i3 s2). unfold ret.
    assert (HC : leaf_added (cores s) (cores s') x (pgid ix) (core_of ix)).
    { intros y. unfold s'. rewrite cores_set, HC2. unfold s1. rewrite cores_set. destruct (decide (y = x)) as [->|]; [injection Ec2 as F1 F2 F3 F4 F5 F6; unfold core_of, with_core_children; cbn; congruence|].
      destruct (decide (y = pgid ix)) as [->|]; [|done]. unfold with_core_state, core_of. cbn. rewrite Hcg. pose proof (gi_fresh _ Hg _ _ (it_cores _ _ _ Hig) Hu) as Eb. cbn in Eb. by rewrite Eb. }
    assert (Hsr' : same_rest s s') by (etransitivity; [apply (same_rest_set s (pgid ix) ih)|]; etransitivity; [exact Hsr2|apply same_rest_set]).
    assert (Hok' : fdt_ok s') by (by apply (fdt_ok_update s2 x ix2 (fun _ => i3))).
    pose proof (leaf_inv s s' x (pgid ix) ix ig Hg Hx Hst Hig Hu HC Hsr' Hok') as Hg'. pose proof (leaf_kept s s' x (pgid ix) ix ig Hx Hst Hig Hu HC) as Hk.
    destruct (leaf_links s s' x (pgid ix) ix ig Hx Hst Hig Hu HC) as (L1 & L2 & L3).
    exists s', (T (pgid ix) [] :: cs). split_and!; [done|done|done| | |].
    + apply (focus_add s s' r [] x n cs k (pgid ix) (parent ix) (children ix)); try done; [apply Hg|right; by rewrite (it_links _ _ _ Hig), Hpg, Hcg|by apply it_links].
    + intros d Hdx. rewrite HC, decide_True in Hdx by done. injection Hdx as <-. cbn. do 3 right. rewrite HC, decide_False, decide_True by done. by eexists.
    + right. exists (pgid ix), ig. split_and!; [done..|]. intros y. unfold is_linked. rewrite HC. destruct (decide (y = x)) as [->|]; [|destruct (decide (y = pgid ix)) as [->|]].
      * split; [left; by eexists|]. intros _. by eexists.
      * split; [by right|]. intros _. by eexists.
      * naive_solver.
  - rewrite bool_decide_eq_false_2 by done. cbn [negb]. unfold bind. rewrite (update_it s x ix _ Hx). unfold ret. set (s' := set_item x _ s).
    assert (HC : forall y, cores s' y = cores s y) by (intros y; unfold s'; rewrite cores_set; destruct (decide (y = x)) as [->|]; [by rewrite Hc|done]).
    exists s', cs. split_and!; [done| | | | |by left].
    + apply (group_inv_ext s); [done|apply same_rest_set| |done]. by apply (fdt_ok_update s x ix); [apply Hg|..].
    + intros y d Hy. exists d. rewrite HC. by split.
    + apply (focus_ext s); [|done]. intros y. by rewrite !cores_links, HC.
    + intros d. rewrite !HC. intros Hdx. rewrite Hc in Hdx. injection Hdx as <-. do 3 right. exists (core_of ig). split; [by apply it_cores|done].
Qed.

Lemma depth_linked s n x : group_inv s -> depth s r n x -> is_linked (cores s) x.
Proof.
  intros Hg Hd. destruct (depth_item _ _ _ _ Hd) as (i & Hi). exists (core_of i). split; [by apply it_cores|]. intros E.
  destruct (proj1 (gi_state _ Hg x _ (it_cores _ _ _ Hi)) E) as [Hp Hr]. inversion Hd as [j Hj Hq|? j q m Hj Hq _]; subst; [done|]. rewrite (it_fun _ _ _ _ Hj Hi) in Hq. cbn in Hp. congruence.
Qed.

Lemma linked_bound s l : group_inv s -> NoDup l -> (forall y, y ∈ l -> is_linked (cores s) y) -> (length l <= size (pids s3))%nat.
Proof.
  intros Hg Hl Hin. assert (Hs : list_to_set l ⊆@{gset Z} dom (pids s3)).
  { intros y Hy%elem_of_list_to_set. destruct (Hin y Hy) as (c & Hc & _). destruct (gi_old _ Hg y (mk_is_Some _ _ Hc)) as [c3 (i & Hi & _)%cores_it]. apply elem_of_dom. by eexists. }
  apply subseteq_size in Hs. by rewrite size_list_to_set, size_dom in Hs by done.
Qed.

(** [v] was visited, [l] is to be *)
Record turn (n : nat) (l : list Z) (s : ps) (v : list Z) : Prop := {
  tn_inv : group_inv s;
  tn_nodup : NoDup (v ++ l);
  tn_all : forall y, y ∈ v ++ l <-> is_linked (cores s) y;
  tn_fuel : (size (pids s3) <= length v + n)%nat;
  tn_done : forall y, y ∈ v -> group_done (cores s) y;
}.

Lemma turn_step n s x cs k v : turn (S n) (x :: remaining cs k) s v -> focus s x cs k ->
  exists s' cs', group_step g x s = Done (None, s') /\ focus s' x cs' k /\ turn n (remaining cs' k) s' (v ++ [x]).
Proof.
  intros [Hg Hnd Hall Hfu Hdone] Hf. assert (Hx : is_linked (cores s) x) by (apply Hall, elem_of_app; right; left).
  destruct (group_step_spec s x cs k Hg Hx Hf) as (s' & cs' & E & Hg' & Hk & Hf' & Hd' & Hext); [by apply list.NoDup_app in Hnd as (_ & _ & ?)|].
  exists s', cs'. split_and!; [done..|]. assert (Hv : forall y, y ∈ v ++ [x] -> group_done (cores s') y).
  { intros y [Hy| ->%list_elem_of_singleton]%elem_of_app; [|done]. apply (group_done_kept (cores s)); [done| |by apply Hdone]. apply Hall, elem_of_app. by left. }
  assert (Hsplit : v ++ x :: remaining cs k = (v ++ [x]) ++ remaining cs k) by (by rewrite <-app_assoc).
  destruct Hext as [[-> He]|(h & ih & -> & Hh & Hhs & He)].
  - split; [done|by rewrite <-Hsplit| |rewrite length_app; cbn; lia|done]. intros y. rewrite <-Hsplit, Hall. unfold is_linked. by rewrite He.
  - assert (Hhn : h ∉ v ++ x :: remaining cs k).
    { rewrite Hall. intros (c & Hc & Hcs). rewrite (it_cores _ _ _ Hh) in Hc. injection Hc as <-. done. }
    assert (Hperm : (v ++ [x]) ++ remaining (T h [] :: cs) k ≡ₚ h :: v ++ x :: remaining cs k).
    { rewrite Hsplit. cbn. by rewrite <-Permutation_middle. }
    split; [done| | |rewrite length_app; cbn; lia|done].
    + rewrite Hperm. by apply list.NoDup_cons.
    + intros y. rewrite Hperm, elem_of_cons, Hall, He. tauto.
Qed.

Lemma groups_spec : group_inv s3 -> exists s', for_each_pstree_item (group_step g) s3 = Done (None, s') /\ group_inv s' /\
  forall y, is_linked (cores s') y -> group_done (cores s') y.
Proof.
  intros Hg. destruct (root_focus s3 r [] (gi_linked _ Hg)) as (t & cs & Hr & Ht & Hnd & Hpre & Hfoc).
  unfold for_each_pstree_item. rewrite (gi_root _ Hg).
  destruct (for_each_rule (group_step g) (fun n l s => exists v, turn n l s v) (fun _ _ => False)) with (n := turns s3) (s := s3) (x := r) (cs := cs) (k := @nil (list tree)) as (e & s' & E & Hres).
  - intros x l s (v & [Hg' Hnd' Hall Hfu _]). pose proof (linked_bound s (v ++ x :: l) Hg' Hnd' (fun y => proj1 (Hall y))) as H. rewrite length_app in H. cbn in H. lia.
  - intros n s x cs' k Hf (v & Hv). destruct (turn_step n s x cs' k v Hv Hf) as (s' & cs2 & E & Hf' & Hv'). exists None, s'. split; [done|]. exists cs2, r, []. split_and!; [done|by eexists|apply Hv'|].
    apply linked_depth; [apply Hv'|]. apply (tn_all _ _ _ _ Hv'). rewrite <-app_assoc. apply elem_of_app. right. left.
  - done.
  - exists []. cbn [app]. rewrite <-Hpre. split; [done|done| |unfold turns; cbn; lia|intros y Hy; by apply elem_of_nil in Hy]. intros y. split.
    + intros Hy. destruct (lk_root _ _ _ (gi_linked _ Hg)) as (i & Hi & Hp). destruct (repr_depth s3 r [] None t O (gi_linked _ Hg) Hr) with (y := y) as (m & _ & Hm); [rewrite Ht; by eapply depth_root|done|]. by eapply depth_linked.
    + intros Hy. destruct (linked_depth s3 y Hg Hy) as (m & Hm). exact (remaining_in_tree s3 r t (gi_linked _ Hg) Ht Hr m y Hm).
  - destruct e as [e|]; [done|]. destruct Hres as (n & v & [Hg' _ Hall _ Hdone]). exists s'. split_and!; [done|done|]. intros y Hy. apply Hdone. apply Hall in Hy. by rewrite app_nil_r in Hy.
Qed.
End Groups.
End SessionGroups.
