(* ===== verification/SessionsRestored.v ===== *)
(** * The tree that is prepared can be forked

    What prepare_pstree_ids promises to the forking of the tree, from the tree as it was read from the images. *)
From S2P Require Import Prelude.
From S2P Require Import Pstree.
From S2P Require Import PstreeTree.
From S2P Require Import PstreeIds.
From S2P Require Import Sessions.
From S2P Require Import SessionHelpers.
From S2P Require Import SessionBirths.
From S2P Require Import SessionGroups.
Import Pstree.Pstree PstreeTree.PstreeTree PstreeIds.PstreeIds Sessions.Sessions SessionHelpers.SessionHelpers SessionBirths.SessionBirths SessionGroups.SessionGroups.
#[local] Open Scope cmon_scope.

Module SessionsRestored.

Lemma children_turns s r hs ir : linked s r hs -> it s r ir -> (length (children ir) < turns s)%nat.
Proof.
  intros Hlk Hr. assert (Hs : list_to_set (children ir) ⊆@{gset Z} dom (pids s)).
  { intros y Hy%elem_of_list_to_set. destruct (lk_down _ _ _ Hlk r ir y Hr Hy) as (j & Hj & _). apply elem_of_dom. by eexists. }
  apply subseteq_size in Hs. rewrite size_list_to_set, size_dom in Hs by (by eapply lk_nodup). unfold turns. lia.
Qed.

Lemma grows_kept C C' : grows C C' -> kept C C'.
Proof. intros Hg y c Hy. specialize (Hg y). rewrite Hy in Hg. destruct Hg as (bn & E & _). by eexists. Qed.

(** the helpers become children of the root *)
Definition spliced (C C' : Z -> option core) (r : Z) (hs : list Z) (c : core) : Prop :=
  forall y, C' y = if decide (y = r) then Some (with_core_children (hs ++ c_children c) c) else C y.

Lemma spliced_get C C' r hs c y d : C r = Some c -> spliced C C' r hs c -> C' y = Some d ->
  exists d0, C y = Some d0 /\ c_parent d = c_parent d0 /\ c_sid d = c_sid d0 /\ c_pgid d = c_pgid d0 /\ c_born d = c_born d0 /\ c_state d = c_state d0.
Proof. intros Hr HC Hy. rewrite HC in Hy. destruct (decide (y = r)) as [->|]; [injection Hy as <-; by exists c|by exists d]. Qed.

Lemma spliced_kept C C' r hs c : C r = Some c -> spliced C C' r hs c -> kept C C'.
Proof. intros Hr HC y d Hy. rewrite HC. destruct (decide (y = r)) as [->|]; [|by exists d]. rewrite Hr in Hy. injection Hy as <-. by eexists. Qed.

Lemma spliced_forkable C C' r hs c : C r = Some c -> spliced C C' r hs c -> forkable_by C r -> forkable_by C' r.
Proof.
  intros Hr HC [A1 A2 A3 A4 A5]. split.
  - intros d Hd. destruct (spliced_get _ _ _ _ _ _ _ Hr HC Hd) as (d0 & H0 & _ & _ & _ & -> & _). eauto.
  - intros x d Hd. destruct (spliced_get _ _ _ _ _ _ _ Hr HC Hd) as (d0 & H0 & -> & -> & _). eauto.
  - intros x e y d He Hd. destruct (spliced_get _ _ _ _ _ _ _ Hr HC He) as (e0 & G0 & _ & -> & _ & -> & _), (spliced_get _ _ _ _ _ _ _ Hr HC Hd) as (d0 & H0 & -> & _ & _ & -> & _). eauto.
  - intros x e y d He Hd. destruct (spliced_get _ _ _ _ _ _ _ Hr HC He) as (e0 & G0 & _ & -> & _ & -> & _), (spliced_get _ _ _ _ _ _ _ Hr HC Hd) as (d0 & H0 & -> & -> & _ & -> & _). eauto.
  - intros x y d Hd. destruct (spliced_get _ _ _ _ _ _ _ Hr HC Hd) as (d0 & H0 & -> & -> & _ & -> & _). eauto.
Qed.

Section Prepare.
Variables (lax : Prop) (g : Z).

(** what the third loop finds *)
Lemma ready_for_groups s s1 r hs b age t i : helpers_inv lax s r hs b age -> repr s None t -> troot t = r -> born_inv s r b s1 ->
  (forall y, y ∈ preorder t -> visited s (cores s1) y) -> it s1 r i ->
  group_inv r (set_item r (with_children (hs ++ children i) i) s1) (set_item r (with_children (hs ++ children i) i) s1).
Proof.
  intros Hv Hr Ht Hb Hvis Hi. set (s3 := set_item _ _ _). pose proof (hv_history _ _ _ _ _ _ Hv) as Hhi. pose proof (it_cores _ _ _ Hi) as Hc.
  assert (HC : spliced (cores s1) (cores s3) r hs (core_of i)) by (intros y; unfold s3; by rewrite cores_set).
  pose proof (bi_grows _ _ _ _ Hb) as Hg. pose proof (spliced_kept _ _ _ _ _ Hc HC) as Hk.
  assert (Hlk1 : linked s1 r hs) by (eapply grows_linked; [exact Hg|apply Hv]).
  assert (Hst : forall y d, cores s1 y = Some d -> (c_state d = TASK_UNDEF <-> c_parent d = None /\ y <> r)).
  { intros y d Hy. destruct (grows_get _ _ _ _ Hg Hy) as (d0 & H0 & -> & _ & -> & _). by apply (hi_state _ _ _ _ Hhi). }
  split.
  - destruct (lk_root _ _ _ Hlk1) as (i' & Hi' & Hp). rewrite (it_fun _ _ _ _ Hi' Hi) in Hp. apply (linked_splice s1 s3 r hs (children i)); [done|by rewrite (it_links _ _ _ Hi), Hp| |].
    + rewrite cores_links, HC, decide_True by done. cbn. by rewrite Hp.
    + intros y Hy. rewrite !cores_links, HC. by rewrite decide_False.
  - apply (spliced_forkable (cores s1) _ r hs (core_of i)); [done|done|]. by eapply forkable_ready.
  - apply (fdt_ok_update s1 r i); [|done|done]. apply Hb, Hv.
  - change (root_item s1 = Some r). rewrite (sr_root _ _ (bi_rest _ _ _ _ Hb)). apply Hv.
  - intros y d Hy. destruct (spliced_get _ _ _ _ _ _ _ Hc HC Hy) as (d0 & H0 & -> & _ & _ & _ & ->). by apply Hst.
  - intros y d Hy Hu. destruct (spliced_get _ _ _ _ _ _ _ Hc HC Hy) as (d0 & H0 & _ & _ & _ & E & E'). rewrite E. rewrite E' in Hu. destruct (decide (c_born d0 = -1)) as [|Hn]; [done|].
    destruct (bi_born _ _ _ _ Hb y d0 H0 Hn) as (_ & _ & _ & q & Hq & _). destruct (proj1 (Hst y d0 H0) Hu). congruence.
  - apply (groups_kept (cores s)); [apply Hv|by etransitivity; [apply grows_kept|]|]. intros y d Hy Hs. left.
    destruct (spliced_get _ _ _ _ _ _ _ Hc HC Hy) as (d1 & H1 & _ & _ & _ & _ & E), (grows_get _ _ _ _ Hg H1) as (d0 & H0 & _ & _ & E' & _). exists d0. split; [done|congruence].
  - done.
  - done.
Qed.

(** a task that the second loop refuses *)
Lemma late_lax s r hs b age ir t : helpers_inv lax s r hs b age -> it s r ir -> Forall (settled s r) (children ir) -> repr s None t -> troot t = r ->
  (exists y, y ∈ preorder t /\ late s y) -> lax.
Proof.
  intros Hv Hr Hset Ht Hroot (y & Hy & c & p & d & Hc & Hp & Hst & Hs & Hd & Hne). destruct (hv_late _ _ _ _ _ _ Hv) as [(Hl & _)|Hn]; [done|].
  destruct (decide (p = r)) as [->|Hpr]; [|destruct (Hn y c p d Hc Hp Hpr Hd); congruence].
  exfalso. pose proof Hc as (j & Hj & Ec)%cores_it. assert (Hpj : parent j = Some r) by (by rewrite <-Ec in Hp).
  destruct (lk_up _ _ _ (hv_linked _ _ _ _ _ _ Hv) y j r Hj Hpj) as (i & Hi & [Hin|[_ Hh]]).
  - rewrite (it_fun _ _ _ _ Hi Hr) in Hin. rewrite list.Forall_forall in Hset. pose proof (Hset y Hin) as H. unfold settled in H. rewrite (sid_of_it s y j Hj), (sid_of_it s r ir Hr) in H.
    rewrite (it_cores _ _ _ Hr) in Hd. injection Hd as <-. rewrite <-Ec in *. cbn in *. destruct H; congruence.
  - destruct (hv_leaders _ _ _ _ _ _ Hv y Hh) as (c' & Hc' & _ & E). congruence.
Qed.

Lemma prepare_spec s r b age : helpers_inv lax s r [] b age ->
  exists rc s', prepare_pstree_ids g s = Done (rc, s') /\
    (rc = -1 /\ lax \/ rc = 0 /\ exists s3, group_inv r s3 s' /\ kept (cores s) (cores s') /\ forall y, is_linked (cores s') y -> group_done g (cores s') y).
Proof.
  intros Hv. destruct (lk_root _ _ _ (hv_linked _ _ _ _ _ _ Hv)) as (ir & Hr & _). unfold prepare_pstree_ids. rewrite (hv_root _ _ _ _ _ _ Hv).
  pose proof (children_turns s r [] ir (hv_linked _ _ _ _ _ _ Hv) Hr) as Hlen.
  destruct (helpers_loop_spec lax _ (turns s) s r [] b age ir [] (children ir) (le_n _) Hlen Hv Hr eq_refl ltac:(constructor)) as (s1 & hs & b1 & age1 & ir1 & E1 & Hv1 & Hk1 & Hr1 & Hset & _).
  unfold bind at 1. cbn [list.last] in E1. rewrite E1. cbn [fst snd negb Z.eqb].
  destruct (births_spec s1 r b1 age1 hs (hv_linked _ _ _ _ _ _ Hv1) (hv_history _ _ _ _ _ _ Hv1) (hv_root _ _ _ _ _ _ Hv1)) as (t & e & s2 & Hr2 & Ht & E2 & Hres).
  unfold bind at 1. rewrite E2. destruct e as [e|].
  - destruct Hres as [-> Hlate]. exists (-1), s2. split; [done|]. left. split; [done|]. by eapply late_lax.
  - destruct Hres as [Hb Hvis]. pose proof (bi_grows _ _ _ _ Hb) as Hg. pose proof (Hg r) as Hgr. rewrite (it_cores _ _ _ Hr1) in Hgr. destruct Hgr as (bn & (i & Hi & _)%cores_it & _).
    unfold bind at 1. rewrite (update_it s2 r i _ Hi). pose proof (ready_for_groups s1 s2 r hs b1 age1 t i Hv1 Hr2 Ht Hb Hvis Hi) as Hg3. set (s3 := set_item _ _ _) in *.
    destruct (groups_spec g r s3 Hg3) as (s' & E3 & Hg' & Hall). unfold bind. rewrite E3. exists 0, s'. split; [done|]. right. split; [done|]. exists s3. split_and!; [done| |done].
    etransitivity; [exact Hk1|]. etransitivity; [by apply grows_kept|]. etransitivity; [|apply (gi_kept _ _ _ Hg')].
    apply (spliced_kept _ _ r hs (core_of i)); [by apply it_cores|]. intros y. unfold s3. by rewrite cores_set.
Qed.
End Prepare.

Lemma tree_tasks r s3 s : group_inv r s3 s -> exists t, troot t = r /\ repr s None t /\ NoDup (preorder t) /\ forall y, is_linked (cores s) y -> y ∈ preorder t.
Proof.
  intros Hg. destruct (linked_root_repr s r [] (gi_linked _ _ _ Hg)) as (t & Ht & Hr & Hn). exists t. split_and!; [done..|]. intros y Hy.
  destruct (linked_depth r s3 s y Hg Hy) as (n & Hd). exact (remaining_in_tree s r t (gi_linked _ _ _ Hg) Ht Hr n y Hd).
Qed.

Lemma kept_it s s' y j : kept (cores s) (cores s') -> it s y j -> state j <> TASK_UNDEF -> exists j', it s' y j' /\ sid j' = sid j /\ pgid j' = pgid j /\ state j' = state j.
Proof.
  intros Hk Hj Hst. destruct (Hk y _ (it_cores _ _ _ Hj)) as (c & (j' & Hj' & <-)%cores_it & H). destruct (H Hst) as (H1 & H2 & H3). by exists j'.
Qed.

(** the forking of a tree that is prepared *)
Lemma prepared_forked s3 s' r cur : group_inv r s3 s' -> (exists i, it s' r i /\ (sid i = r \/ cur = sid i)) ->
  exists l, restore_task s' (turns s') r cur = Done (Some l) /\ NoDup (map fst l) /\ forall y j, it s' y j -> state j <> TASK_UNDEF -> (y, sid j) ∈ l.
Proof.
  intros Hg (i & Hi & Hcur). destruct (tree_tasks r s3 s' Hg) as (t & Ht & Hr & Hn & Hin).
  destruct (restore_root_ok s' r (gi_linked _ _ _ Hg) (forkable_cores _ _ (gi_fork _ _ _ Hg)) (gi_root _ _ _ Hg) t i cur Ht Hr Hi Hcur) as (l & El & Hperm).
  exists l. split; [done|]. assert (Hm : map fst (sessions s' t) = preorder t) by (unfold sessions; rewrite map_map; apply map_id). split.
  - assert (map fst l ≡ₚ preorder t) as -> by (rewrite <-Hm; by apply Permutation_map). done.
  - intros y j Hj Hst. rewrite Hperm. apply list_elem_of_fmap. exists y. split; [by rewrite (sid_of_it s' y j Hj)|].
    apply Hin. exists (core_of j). split; [by apply it_cores|done].
Qed.



(** C11: The preparation keeps the tree well formed: what it leaves is again one tree below the root, without cycles and with parents and children that agree, in which every task
    of the images has kept its session, its group and its state, and every table of descriptors that a task uses has a count. *)
Theorem prepare_keeps_tree (lax : Prop) (g : Z) (s : ps) (r : Z) (b age : Z -> Z) :
  helpers_inv lax s r [] b age ->
  exists rc s', prepare_pstree_ids g s = Done (rc, s') /\
    (rc = 0 -> linked s' r [] /\ fdt_ok s' /\
      forall y i, it s y i -> state i <> TASK_UNDEF -> exists j n, it s' y j /\ sid j = sid i /\ pgid j = pgid i /\ state j = state i /\ depth s' r n y).
Proof.
  intros Hv. destruct (prepare_spec lax g s r b age Hv) as (rc & s' & E & [[-> _]|(-> & s3 & Hg & Hk & _)]); [by exists (-1), s'|].
  exists 0, s'. split; [done|]. intros _. split; [apply Hg|]. split; [apply Hg|]. intros y i Hi Hst. destruct (kept_it s s' y i Hk Hi Hst) as (j & Hj & E1 & E2 & E3).
  destruct (linked_depth r s3 s' y Hg) as (n & Hn); [exists (core_of j); split; [by apply it_cores|cbn; congruence]|]. by exists j, n.
Qed.

(** ** A tree with orphans *)
(** 2 leads a session, 3 is an orphan in it, 4 is an orphan in the session of the dead task 60 and in the group of the dead task 61. *)
Definition example_image : list pstree_entry :=
  [mk_entry 1 0 1 1 [1]; mk_entry 2 1 2 2 [2]; mk_entry 3 1 2 2 [3]; mk_entry 4 1 61 60 [4]; mk_entry 5 2 2 2 [5]].
Definition no_ids (_ : Z) : option (option kobj_ids) := Some None.
Definition read_image (img : list pstree_entry) : ps := match read_pstree_image no_ids img ps_init with Done (0, s) => s | _ => ps_init end.
Definition example_births (y : Z) : Z := if y =? 4 then 60 else if y =? 1 then 1 else if y =? 2 then 1 else 2.
Definition example_ages (y : Z) : Z := y.

Definition tasks (s : ps) : list (Z * pid_node) := map_to_list (pids s).
Lemma it_tasks s y i : it s y i -> (y, Item i) ∈ tasks s.
Proof. intros H. by apply elem_of_map_to_list. Qed.
Lemma cores_tasks s y c : cores s y = Some c -> exists i, (y, Item i) ∈ tasks s /\ core_of i = c.
Proof. intros (i & Hi & E)%cores_it. exists i. split; [by apply it_tasks|done]. Qed.

Definition example : ps := Eval vm_compute in read_image example_image.
Definition example_list : list (Z * pid_node) := Eval vm_compute in tasks example.
Lemma example_tasks : tasks example = example_list.
Proof. by vm_compute. Qed.

Lemma example_is_read : read_pstree_image no_ids example_image ps_init = Done (0, example).
Proof. by vm_compute. Qed.

(** every item of it *)
Ltac one_task H :=
  let H1 := fresh in pose proof (f_equal fst H) as H1; cbn [fst] in H1;
  first [discriminate H1 | apply (f_equal snd) in H; cbn [snd] in H; injection H as ->; match type of H1 with ?y = _ => first [is_var y; subst y | clear H1] end].
Ltac each_task H :=
  first [apply it_tasks in H | apply cores_tasks in H as (? & H & <-)]; rewrite example_tasks in H; unfold example_list in H;
  repeat (apply elem_of_cons in H as [H|H]; [one_task H|]); [..|by apply elem_of_nil in H].

Lemma example_inv : helpers_inv False example 1 [] example_births example_ages.
Proof.
  assert (Hl : linked example 1 []).
  { split.
    - by eexists.
    - intros x i y Hi Hy. each_task Hi; cbn in Hy; set_unfold in Hy; destruct_or?; subst; try done; by eexists.
    - intros y j p Hj Hp. each_task Hj; cbn in Hp; try done; injection Hp as <-; eexists; (split; [reflexivity|left; cbn; set_solver]).
    - intros x i Hi. each_task Hi; cbn; apply (bool_decide_unpack _); by vm_compute.
    - intros y j p Hj Hp. each_task Hj; cbn in Hp; try done; clear Hp.
      all: first [exists 1%nat; eapply depth_child; [reflexivity|reflexivity|by eapply depth_root]
                 |exists 2%nat; eapply depth_child; [reflexivity|reflexivity|eapply depth_child; [reflexivity|reflexivity|by eapply depth_root]]].
    - set_solver.
    - constructor.
    - set_solver.
    - intros x i Hi Hp Hx. each_task Hi; done. }
  assert (Hh : history (cores example) 1 example_births example_ages).
  { split.
    - intros x c Hx. each_task Hx; cbn; naive_solver.
    - intros y d x Hy Hp. each_task Hy; cbn in Hp; simplify_eq; by vm_compute.
    - intros y d x c Hy Hs Hx Hxs E Hne. each_task Hy; cbn in *; subst; try done; each_task Hx; done.
    - intros y d Hy Hs Hr. each_task Hy; try done; by vm_compute.
    - intros y d x c Hy Hs Hx Hxs E. each_task Hy; cbn in E; subst; each_task Hx; done.
    - intros y d x c Hy Hp Hr Hx. each_task Hy; cbn in Hp; try discriminate Hp; injection Hp as <-; try done; each_task Hx; by left.
    - intros y d Hy Hs Hr E. each_task Hy; done.
    - intros y d Hy Hs. each_task Hy; try done; (split; [done|by eexists]).
    - intros y d Hy Hs. each_task Hy; done.
    - intros y d Hy. each_task Hy; done. }
  split; [done|done| |done|by vm_compute| | |].
  - intros x i o Hi. each_task Hi; done.
  - right. intros y d x c Hy Hp Hr Hx. each_task Hy; cbn in Hp; try discriminate Hp; injection Hp as <-; try done; each_task Hx; by right.
  - set_solver.
  - intros y d Hy Hs Hg. each_task Hy; try done; by eexists.
Qed.



Lemma prepare_keeps_tree_witness : exists rc s', prepare_pstree_ids 77 example = Done (rc, s') /\
  (rc = 0 -> linked s' 1 [] /\ fdt_ok s' /\
    forall y i, it example y i -> state i <> TASK_UNDEF -> exists j n, it s' y j /\ sid j = sid i /\ pgid j = pgid i /\ state j = state i /\ depth s' 1 n y).
Proof. exact (prepare_keeps_tree False 77 example 1 example_births example_ages example_inv). Defined.

(** 400 was left to the root by its dead session leader 50; its child 401 forked 402 before it led a session of its own. *)
Definition late_child_image (leader : list pstree_entry) : list pstree_entry :=
  [mk_entry 1 0 1 1 [1]] ++ leader ++ [mk_entry 400 1 400 50 [400]; mk_entry 401 400 400 401 [401]; mk_entry 402 401 402 50 [402]].

(** what becomes of an image *)
Definition prepared_and_forked (img : list pstree_entry) : option (option (list (Z * Z))) :=
  match prepare_pstree_ids 77 (read_image img) with
  | Done (0, s) => match restore_task s (turns s) 1 1 with Done r => Some r | _ => None end
  | _ => None
  end.

End SessionsRestored.
