(* ===== verification/PstreeImage.v ===== *)
(** * The image of the tree

    What dump_pstree writes and what read_pstree_image makes of it, up to the forking of the tree that was dumped. *)
From S2P Require Import Prelude.
From S2P Require Import Pstree.
From S2P Require Import PstreeTree.
From S2P Require Import PstreeIds.
From S2P Require Import Sessions.
From S2P Require Import SessionHelpers.
From S2P Require Import SessionsRestored.
Import Pstree.Pstree PstreeTree.PstreeTree PstreeIds.PstreeIds Sessions.Sessions SessionHelpers.SessionHelpers SessionsRestored.SessionsRestored.
#[local] Open Scope cmon_scope.

Module PstreeImage.

(** ** Dump *)
Definition entry (s : ps) (x : Z) : pstree_entry := match pids s !! x with Some (Item i) => entry_of x i | _ => mk_entry 0 0 0 0 [] end.

Lemma entry_it s x i : it s x i -> entry s x = entry_of x i.
Proof. unfold it, entry. by intros ->. Qed.

Section Dump.
Variables (s : ps) (r : Z) (writes : pstree_entry -> bool).
Context (Hlk : linked s r []).

Lemma dump_items_spec n : forall x cs k, focus s x cs k -> (exists d, depth s r d x) -> (length (remaining cs k) < n)%nat -> (forall y d, depth s r d y -> writes (entry s y) = true) ->
  (forall y, y ∈ remaining cs k -> exists d, depth s r d y) ->
  dump_items writes n x s = Done ((0, map (entry s) (x :: remaining cs k)), s).
Proof using Hlk.
  induction n as [|n IH]; intros x cs k Hf (d & Hd) Hn Hw Hall; [lia|]. destruct (depth_item _ _ _ _ Hd) as (i & Hi). pose proof (Hw x d Hd) as Hwx. rewrite (entry_it s x i Hi) in Hwx.
  cbn [dump_items]. unfold bind at 1. rewrite (item_it s x i Hi), Hwx. cbn [negb]. pose proof (next_spec s r [] x cs k Hlk Hf (ex_intro _ d Hd)) as Hnext.
  destruct (remaining cs k) as [|y l] eqn:E; unfold bind at 1.
  - rewrite Hnext. unfold ret. cbn [map]. by rewrite (entry_it s x i Hi).
  - destruct Hnext as (cs' & k' & -> & Hf' & Hl). unfold bind. rewrite (IH y cs' k' Hf'); [|apply Hall; left|rewrite Hl; cbn in Hn; lia|done|rewrite Hl; intros z Hz; apply Hall; by right].
    unfold ret. rewrite Hl. cbn [fst snd map]. by rewrite (entry_it s x i Hi).
Qed.

(** the entries are written in the order of the walk *)
Lemma dump_pstree_entries t i shell_job : repr s None t -> troot t = r -> it s r i -> shell_job = true \/ sid i = r -> (forall y d, depth s r d y -> writes (entry s y) = true) ->
  dump_pstree shell_job writes r s = Done ((0, map (entry s) (preorder t)), s).
Proof using Hlk.
  intros Hr Ht Hi Hsj Hw. unfold dump_pstree. unfold bind. rewrite (item_it s r i Hi).
  assert ((negb (r =? sid i) && negb shell_job) = false) as ->.
  { destruct Hsj as [-> | ->]; [by rewrite andb_false_r|by rewrite Z.eqb_refl]. }
  destruct (lk_root _ _ _ Hlk) as (i' & Hi' & Hp). rewrite (it_fun _ _ _ _ Hi' Hi) in Hp. assert (Hd : depth s r O (troot t)) by (rewrite Ht; exact (depth_root s r i Hi Hp)).
  pose proof (preorder_size s None t Hr (repr_nodup s r [] None t O Hlk Hr Hd)) as Hsz. pose proof (repr_depth s r [] None t O Hlk Hr Hd) as Hall.
  destruct t as [x cs]. cbn in Ht. subst x. inversion Hr as [? ? j ? Hj Hpj Hcj Hcs]; subst.
  assert (Hf : focus s r cs []).
  { split; [|done|by eapply path_root]. exists j. split_and!; [done|done|]. by eapply lk_nodup. }
  assert (Hpre : preorder (T r cs) = r :: remaining cs []) by (unfold remaining; cbn; by rewrite app_nil_r). rewrite Hpre in Hsz, Hall |- *. cbn [length] in Hsz.
  apply dump_items_spec; [done|by exists O|unfold turns; lia|done|]. intros y Hy. destruct (Hall y ltac:(by right)) as (m & _ & Hm). eauto.
Qed.
End Dump.

(** ** Reading one entry *)
(** [lookup_create_item] on the map *)
Definition created (m : gmap Z pid_node) (y : Z) : gmap Z pid_node := match m !! y with None => <[y := Item new_item]> m | Some _ => m end.

Lemma created_get m y z : created m y !! z = match m !! z with Some n => Some n | None => if decide (z = y) then Some (Item new_item) else None end.
Proof.
  unfold created. destruct (m !! y) eqn:E.
  - destruct (m !! z) eqn:Ez; [done|]. destruct (decide (z = y)) as [->|]; [congruence|done].
  - destruct (decide (z = y)) as [->|Hne]; [rewrite lookup_insert, decide_True by done; by rewrite E|]. rewrite lookup_insert_ne by done. by destruct (m !! z).
Qed.

Lemma created_three m x g n y :
  created (created (created m x) g) n !! y = match m !! y with Some n => Some n | None => if decide (y = x \/ y = g \/ y = n) then Some (Item new_item) else None end.
Proof.
  rewrite !created_get. destruct (m !! y); [done|]. destruct (decide (y = x)), (decide (y = g)), (decide (y = n)), (decide (y = x \/ y = g \/ y = n)); try done; tauto.
Qed.

Lemma set_pids_same s : set_pids (pids s) s = s.
Proof. by destruct s. Qed.

Lemma lookup_create_created s y : pids s !! y <> Some Thread -> lookup_create_item y s = Done (y, set_pids (created (pids s) y) s).
Proof.
  intros H. unfold lookup_create_item, created. destruct (pids s !! y) as [[|i]|] eqn:E; [done|by rewrite set_pids_same|done].
Qed.

Lemma threads_loop_spec pid l : forall s, NoDup l -> (forall q, q ∈ l -> pids s !! q = None) ->
  exists m, threads_loop pid l s = Done (true, set_pids m s) /\ forall y, m !! y = if decide (y ∈ l) then Some Thread else pids s !! y.
Proof.
  induction l as [|q l IH]; intros s Hn Hl.
  - exists (pids s). cbn. rewrite set_pids_same. split; [done|]. intros y. rewrite decide_False; [done|]. apply not_elem_of_nil.
  - apply list.NoDup_cons in Hn as [Hq Hn]. cbn [threads_loop]. rewrite (Hl q ltac:(left)). set (s1 := set_pids _ s).
    destruct (IH s1 Hn) as (m & E & Hm).
    { intros z Hz. cbn. rewrite lookup_insert_ne by (intros ->; done). apply Hl. by right. }
    exists m. split; [by rewrite E|]. intros y. rewrite Hm. cbn [pids s1 set_pids]. destruct (decide (y = q)) as [->|Hne].
    + rewrite (decide_False (P := q ∈ l)), (decide_True (P := q ∈ q :: l)) by (done || left). unfold s1. cbn. by rewrite lookup_insert, decide_True.
    + unfold s1. cbn. rewrite lookup_insert_ne by done. destruct (decide (y ∈ l)); [rewrite decide_True; [done|by right]|]. rewrite decide_False; [done|]. by intros [->|]%elem_of_cons.
Qed.

(** what is read for the task [x] of which [i] was dumped *)
Definition read_item (i : pstree_item) (k : option kobj_ids) : pstree_item := mk_item (parent i) [] (pgid i) (sid i) (-1) (threads i) TASK_ALIVE k 0 None 0 None.

Section ReadOne.
Variables (read_pstree_ids : Z -> option (option kobj_ids)) (s : ps) (x : Z) (i : pstree_item) (k : option kobj_ids).
Context (Hx : pids s !! x = None \/ pids s !! x = Some (Item new_item)) (Hg : pids s !! pgid i <> Some Thread) (Hs : pids s !! sid i <> Some Thread).
Context (Hp : match parent i with
  | None => root_item s = None
  | Some p => p <> 0 /\ p <> x /\ exists jp, it s p jp /\ state jp <> TASK_UNDEF
  end).
Context (Hnd : NoDup (tail (threads i))) (Hth : forall q, q ∈ tail (threads i) -> pids s !! q = None /\ q <> x /\ q <> pgid i /\ q <> sid i) (Hk : read_pstree_ids x = Some k).

(** the item [x] and its parent *)
Definition read_links (m : gmap Z pid_node) (y : Z) : option pid_node :=
  if decide (y ∈ tail (threads i)) then Some Thread
  else if decide (y = x) then Some (Item (read_item i k))
  else match m !! y with
       | Some (Item j) => Some (Item (if decide (parent i = Some y) then with_children (x :: children j) j else j))
       | Some Thread => Some Thread
       | None => if decide (y = pgid i \/ y = sid i) then Some (Item new_item) else None
       end.

Lemma read_one_spec : exists s', read_one_pstree_item read_pstree_ids (entry_of x i) s = Done (1, s') /\ (forall y, pids s' !! y = read_links (pids s) y) /\
  root_item s' = match parent i with None => Some x | Some _ => root_item s end /\ prev_pid s' = prev_pid s /\ fdts s' = fdts s.
Proof using All.
  unfold read_one_pstree_item. cbn [entry_of e_pid e_ppid e_pgid e_sid e_threads].
  assert (Hx' : pids s !! x <> Some Thread) by (destruct Hx; congruence).
  unfold bind at 1. rewrite (lookup_create_created s x Hx'). set (m1 := created (pids s) x).
  assert (H1 : it (set_pids m1 s) x new_item) by (unfold it, m1; cbn; rewrite created_get; destruct Hx as [-> | ->]; by rewrite ?decide_True).
  unfold bind at 1. rewrite (item_it _ x new_item H1). unfold bind at 1. unfold bug_on. cbn [negb]. rewrite bool_decide_eq_true_2 by done. cbn [negb].
  assert (Hthr : forall y (m : gmap Z pid_node), (forall z, m !! z = Some Thread -> pids s !! z = Some Thread) -> pids s !! y <> Some Thread -> m !! y <> Some Thread) by (intros y m Hm H E; by apply H, Hm).
  assert (Hcr : forall (m : gmap Z pid_node) z y, created m z !! y = Some Thread -> m !! y = Some Thread).
  { intros m z y. rewrite created_get. destruct (m !! y); [done|]. by case_decide. }
  unfold bind at 1. rewrite lookup_create_created by (cbn; apply (Hthr _ m1); [intros z; apply Hcr|done]). set (m2 := created (pids (set_pids m1 s)) (pgid i)).
  unfold bind at 1. rewrite lookup_create_created by (cbn; apply (Hthr _ m2); [intros z Hz; by apply Hcr, Hcr in Hz|done]). set (m3 := created (pids (set_pids m2 (set_pids m1 s))) (sid i)).
  cbn [pids set_pids] in *. set (s3 := set_pids m3 _).
  assert (Hm3 : forall y, pids s3 !! y = match pids s !! y with Some n => Some n | None => if decide (y = x \/ y = pgid i \/ y = sid i) then Some (Item new_item) else None end) by apply created_three.
  assert (H3 : it s3 x new_item) by (unfold it; rewrite Hm3; destruct Hx as [-> | ->]; [by rewrite decide_True by (by left)|done]).
  unfold bind at 1. rewrite (update_it s3 x _ _ H3). set (i4 := with_state _ _). set (s4 := set_item x i4 s3). unfold bind at 1. set (s5 := set_pid_max _ s4).
  assert (Hpar : exists s6, read_parent (entry_of x i) s5 = Done (true, s6) /\ it s6 x (with_parent (parent i) i4) /\
      (forall y, y <> x -> pids s6 !! y = match pids s3 !! y with Some (Item j) => Some (Item (if decide (parent i = Some y) then with_children (x :: children j) j else j)) | n => n end) /\
      root_item s6 = match parent i with None => Some x | Some _ => root_item s end /\ prev_pid s6 = prev_pid s /\ fdts s6 = fdts s).
  { unfold read_parent. cbn [entry_of e_pid e_ppid]. assert (H5 : it s5 x i4) by (by apply it_set). destruct (parent i) as [p|].
    - destruct Hp as (Hp0 & Hpx & jp & Hjp & Hst). assert ((p =? 0) = false) as -> by (by apply Z.eqb_neq).
      assert (Hjp5 : it s5 p jp) by (apply it_set_ne; [done|]; unfold it; rewrite Hm3; by rewrite Hjp). rewrite Hjp5. rewrite bool_decide_eq_false_2 by done.
      unfold bind. rewrite (update_it s5 x i4 _ H5). assert (Hjp6 : it (set_item x (with_parent (Some p) i4) s5) p jp) by (by apply it_set_ne). rewrite (update_it _ p jp _ Hjp6).
      eexists. split; [done|]. split_and!; [apply it_set_ne; [done|]; by apply it_set| |done|done|done].
      intros y Hy. cbn [pids set_item set_pids]. destruct (decide (y = p)) as [->|Hyp].
      + rewrite lookup_insert, decide_True by done. rewrite Hm3, Hjp. by rewrite decide_True.
      + rewrite !lookup_insert_ne by done. cbn. rewrite lookup_insert_ne by done. change (pids s3) with m3. destruct (m3 !! y) as [[|j]|]; [done| |done]. rewrite decide_False; [done|congruence].
    - rewrite Z.eqb_refl. assert (Hr5 : root_item s5 = None) by done. rewrite Hr5. eexists. split; [done|]. split_and!; [done| |done|done|done].
      intros y Hy. cbn. rewrite lookup_insert_ne by done. change (pids s3) with m3. by destruct (m3 !! y) as [[|j]|]. }
  destruct Hpar as (s6 & E6 & Hx6 & Hm6 & Hr6 & Hp6 & Hf6). unfold bind at 1. rewrite E6. cbn [negb].
  unfold bind at 1. rewrite (update_it s6 x _ _ Hx6). set (i7 := with_threads _ _). set (s7 := set_item x i7 s6).
  assert (Hxt : x ∉ tail (threads i)) by (intros E; by destruct (Hth x E) as (_ & ? & _)).
  destruct (threads_loop_spec x (tail (threads i)) s7 Hnd) as (m8 & E8 & Hm8).
  { intros q Hq. destruct (Hth q Hq) as (Hq0 & Hqx & Hqg & Hqs). cbn. rewrite lookup_insert_ne by done. rewrite Hm6 by done. rewrite Hm3, Hq0. rewrite decide_False; [done|tauto]. }
  unfold bind at 1. rewrite E8. cbn [negb]. unfold bind at 1. rewrite Hk. set (s9 := count_task _ _).
  assert (Hx9 : it s9 x i7) by (unfold it; cbn; rewrite Hm8, decide_False by done; cbn; by rewrite lookup_insert, decide_True).
  unfold bind. rewrite (update_it s9 x i7 _ Hx9). unfold ret. eexists. split; [done|]. split_and!; [|done|done|done].
  intros y. unfold read_links. cbn [pids set_item set_pids]. destruct (decide (y = x)) as [->|Hyx].
  - rewrite (decide_False (P := x ∈ _)) by done. by rewrite lookup_insert, decide_True.
  - rewrite lookup_insert_ne by done. change (pids s9) with m8. rewrite Hm8. destruct (decide (y ∈ tail (threads i))); [done|]. cbn [pids s7 set_item set_pids]. unfold s7. cbn.
    rewrite lookup_insert_ne by done. rewrite Hm6, Hm3 by done. destruct (pids s !! y) as [[|j]|] eqn:Ey; [done..|].
    destruct (decide (y = x \/ y = pgid i \/ y = sid i)) as [Hor|Hor].
    + rewrite (decide_True (P := y = pgid i \/ y = sid i)) by tauto. rewrite decide_False; [done|]. intros Ep. rewrite Ep in Hp. destruct Hp as (_ & _ & jp & Hjp & _). unfold it in Hjp. congruence.
    + rewrite decide_False; [done|tauto].
Qed.
End ReadOne.

(** ** Reading the image of a tree *)
(** what the tasks [U] of an image have to be: the threads of a task are told apart from the tasks, groups and sessions of the others *)
Record dumpable (s : ps) (read_pstree_ids : Z -> option (option kobj_ids)) (U : list Z) : Prop := {
  dp_pid : forall y, y ∈ U -> y <> 0;
  dp_threads : forall y i, y ∈ U -> it s y i -> NoDup (tail (threads i));
  dp_apart : forall y i q, y ∈ U -> it s y i -> q ∈ tail (threads i) -> (q ∉ U) /\ (forall z j, z ∈ U -> it s z j -> pgid j <> q /\ sid j <> q /\ (z <> y -> q ∉ tail (threads j)));
  dp_ids : forall y, y ∈ U -> is_Some (read_pstree_ids y);
}.

Section ReadTree.
Variables (s : ps) (r : Z) (read_pstree_ids : Z -> option (option kobj_ids)) (U : list Z).
Context (Hlk : linked s r []) (Hdp : dumpable s read_pstree_ids U).

(** a task that was read *)
Record same_task (v : list Z) (i j : pstree_item) : Prop := {
  st_parent : parent j = parent i;
  st_children : children j ≡ₚ filter (fun c => c ∈ v) (children i);
  st_pgid : pgid j = pgid i;
  st_sid : sid j = sid i;
  st_threads : threads j = threads i;
  st_state : state j = TASK_ALIVE;
  st_born : born_sid j = -1;
  st_fdt : fdt j = None;
}.

(** the tasks [v] were read *)
Record read_upto (v : list Z) (a : ps) : Prop := {
  ru_tasks : forall y, y ∈ v -> exists i j, it s y i /\ it a y j /\ same_task v i j;
  ru_others : forall y n, pids a !! y = Some n -> y ∉ v -> exists x i, x ∈ v /\ it s x i /\ (n = Item new_item /\ (y = pgid i \/ y = sid i) \/ n = Thread /\ y ∈ tail (threads i));
  ru_groups : forall y i, y ∈ v -> it s y i -> (exists j, it a (pgid i) j) /\ exists j, it a (sid i) j;
  ru_root : root_item a = match v with [] => None | _ => Some r end;
  ru_prev : prev_pid a = None;
}.

Lemma filter_snoc v x (l : list Z) : x ∉ v -> NoDup l -> filter (fun c => c ∈ v ++ [x]) l ≡ₚ (if decide (x ∈ l) then [x] else []) ++ filter (fun c => c ∈ v) l.
Proof using.
  intros Hx. induction l as [|y l IH]; intros Hn; [done|]. apply list.NoDup_cons in Hn as [Hy Hn]. specialize (IH Hn). rewrite !filter_cons.
  destruct (decide (y = x)) as [->|Hyx].
  - rewrite decide_True by (apply elem_of_app; right; left). rewrite (decide_False (P := x ∈ v)) by done. rewrite (decide_True (P := x ∈ x :: l)) by left. rewrite IH, decide_False by done. done.
  - destruct (decide (y ∈ v)) as [Hv|Hv].
    + rewrite decide_True by (apply elem_of_app; by left). rewrite IH. destruct (decide (x ∈ l)) as [Hl|Hl].
      * rewrite decide_True by (by right). cbn. apply perm_swap.
      * rewrite decide_False; [done|]. intros [->|]%elem_of_cons; done.
    + rewrite decide_False by (intros [|?%list_elem_of_singleton]%elem_of_app; done). rewrite IH. destruct (decide (x ∈ l)) as [Hl|Hl].
      * by rewrite decide_True by (by right).
      * rewrite decide_False; [done|]. intros [->|]%elem_of_cons; done.
Qed.

Lemma same_task_item v i k : (forall c, c ∈ children i -> c ∉ v) -> same_task v i (read_item i k).
Proof using.
  intros Hc. split; try done. cbn. symmetry. apply Permutation_nil_r. induction (children i) as [|y l IH]; [done|]. rewrite filter_cons, decide_False by (apply Hc; left).
  apply IH. intros c Hcl. apply Hc. by right.
Qed.

Lemma read_upto_step v x i k a a' : read_upto v a -> (forall y, y ∈ v ++ [x] -> y ∈ U) -> x ∉ v -> it s x i -> (forall c, c ∈ children i -> c ∉ v ++ [x]) ->
  match parent i with None => v = [] /\ x = r | Some p => p ∈ v end ->
  (forall q, q ∈ tail (threads i) -> pids a !! q = None) -> (forall y, pids a' !! y = read_links x i k (pids a) y) ->
  root_item a' = match parent i with None => Some x | Some _ => root_item a end -> prev_pid a' = prev_pid a -> read_upto (v ++ [x]) a'.
Proof using Hlk Hdp.
  intros Hv Hin Hxv Hi Hch Hpar Hfree Hm Hr Hp. assert (HxU : x ∈ U) by (apply Hin, elem_of_app; right; left).
  assert (HvU : forall y, y ∈ v -> y ∈ U) by (intros y Hy; apply Hin, elem_of_app; by left).
  assert (Hth : forall y, y ∈ U -> y ∉ tail (threads i)) by (intros y Hy Hq; by destruct (dp_apart _ _ _ Hdp x i y HxU Hi Hq)).
  assert (Hkeep : forall z j, it a z j -> exists j', it a' z j').
  { intros z j Hj. unfold it. rewrite Hm. unfold read_links. rewrite decide_False by (intros Hq; apply Hfree in Hq; unfold it in Hj; congruence).
    destruct (decide (z = x)); [by eexists|]. rewrite Hj. by eexists. }
  split.
  - intros y [Hy| ->%list_elem_of_singleton]%elem_of_app.
    + destruct (ru_tasks _ _ Hv y Hy) as (iy & jy & Hiy & Hjy & [S1 S2 S3 S4 S5 S6 S7 S8]). assert (Hyx : y <> x) by (by intros ->).
      eexists iy, _. split; [done|]. split; [unfold it; rewrite Hm; unfold read_links; rewrite decide_False by (by apply Hth, HvU); by rewrite decide_False, Hjy|].
      assert (Hc : x ∈ children iy <-> parent i = Some y).
      { split; intros H.
        - destruct (lk_down _ _ _ Hlk y iy x Hiy H) as (i' & Hi' & E). by rewrite (it_fun _ _ _ _ Hi Hi').
        - destruct (lk_up _ _ _ Hlk x i y Hi H) as (iy' & Hiy' & [H'|[_ H']]); [by rewrite (it_fun _ _ _ _ Hiy Hiy')|by apply elem_of_nil in H']. }
      pose proof (filter_snoc v x (children iy) Hxv (lk_nodup _ _ _ Hlk y iy Hiy)) as Hf. destruct (decide (parent i = Some y)) as [Ep|Ep].
      * rewrite decide_True in Hf by tauto. split; try done. cbn. by rewrite Hf, S2.
      * rewrite decide_False in Hf by tauto. split; try done. by rewrite Hf, S2.
    + exists i, (read_item i k). split; [done|]. split; [unfold it; rewrite Hm; unfold read_links; rewrite decide_False by (by apply Hth); by rewrite decide_True|]. by apply same_task_item.
  - intros y n Hy Hyv. apply not_elem_of_app in Hyv as [Hyv Hyx]. rewrite Hm in Hy. unfold read_links in Hy.
    destruct (decide (y ∈ tail (threads i))) as [Hq|Hq]; [injection Hy as <-; exists x, i; split_and!; [apply elem_of_app; right; left|done|by right]|].
    rewrite decide_False in Hy by (intros ->; apply Hyx; left). destruct (pids a !! y) as [n0|] eqn:En.
    + destruct (ru_others _ _ Hv y n0 En Hyv) as (z & j & Hz & Hj & Hor). exists z, j. split; [apply elem_of_app; by left|]. split; [done|].
      destruct Hor as [[-> Hor]|[-> Hor]]; [left|right; split; [congruence|done]]. split; [|done]. rewrite decide_False in Hy; [congruence|]. intros Ep. rewrite Ep in Hpar. done.
    + destruct (decide (y = pgid i \/ y = sid i)) as [Hor|]; [|done]. injection Hy as <-. exists x, i. split_and!; [apply elem_of_app; right; left|done|by left].
  - intros y j [Hy| ->%list_elem_of_singleton]%elem_of_app Hj.
    + destruct (ru_groups _ _ Hv y j Hy Hj) as [(j1 & H1) (j2 & H2)]. split; eauto.
    + rewrite (it_fun _ _ _ _ Hj Hi). assert (Hnew : forall z, z = pgid i \/ z = sid i -> exists j, it a' z j); [|split; apply Hnew; auto].
      intros z Hz. assert (Hzt : z ∉ tail (threads i)) by (intros Hq; destruct (dp_apart _ _ _ Hdp x i z HxU Hi Hq) as [_ H]; destruct (H x i HxU Hi) as (G1 & G2 & _); destruct Hz as [->| ->]; done).
      unfold it. rewrite Hm. unfold read_links. rewrite decide_False by done. destruct (decide (z = x)); [by eexists|]. destruct (pids a !! z) as [nz|] eqn:En; [|by rewrite decide_True; eauto].
      destruct (decide (z ∈ v)) as [Hzv|Hzv]; [destruct (ru_tasks _ _ Hv z Hzv) as (_ & jz & _ & Hjz & _); unfold it in Hjz; rewrite Hjz in En; injection En as <-; by eexists|].
      destruct (ru_others _ _ Hv z nz En Hzv) as (w & jw & Hw & Hjw & [[-> _]|[-> Hq]]); [by eexists|]. exfalso.
      destruct (dp_apart _ _ _ Hdp w jw z (HvU w Hw) Hjw Hq) as [_ H]. destruct (H x i HxU Hi) as (G1 & G2 & _). destruct Hz as [->| ->]; done.
  - rewrite Hr. destruct (parent i) as [p|]; [|destruct Hpar as [-> ->]; done]. rewrite (ru_root _ _ Hv). destruct v; [by apply elem_of_nil in Hpar|done].
  - rewrite Hp. apply Hv.
Qed.

Lemma read_task_step v x i a : read_upto v a -> (forall y, y ∈ v ++ [x] -> y ∈ U) -> x ∉ v -> it s x i -> (forall c, c ∈ children i -> c ∉ v ++ [x]) ->
  match parent i with None => v = [] /\ x = r | Some p => p ∈ v end ->
  exists a', read_one_pstree_item read_pstree_ids (entry s x) a = Done (1, a') /\ read_upto (v ++ [x]) a'.
Proof using Hlk Hdp.
  intros Hv Hin Hxv Hi Hch Hpar. assert (HxU : x ∈ U) by (apply Hin, elem_of_app; right; left). rewrite (entry_it s x i Hi).
  assert (HvU : forall y, y ∈ v -> y ∈ U) by (intros y Hy; apply Hin, elem_of_app; by left).
  assert (Hnothread : forall y, (exists z j, z ∈ U /\ it s z j /\ (y = z \/ y = pgid j \/ y = sid j)) -> pids a !! y <> Some Thread).
  { intros y (z & j & HzU & Hj & Hy) E. destruct (decide (y ∈ v)) as [Hyv|Hyv].
    - destruct (ru_tasks _ _ Hv y Hyv) as (i' & j' & _ & Hj' & _). unfold it in Hj'. congruence.
    - destruct (ru_others _ _ Hv y _ E Hyv) as (x' & i' & Hx' & Hi' & [[? _]|[_ Hq]]); [done|]. destruct (dp_apart _ _ _ Hdp x' i' y (HvU x' Hx') Hi' Hq) as [H1 H2].
      destruct (H2 z j HzU Hj) as (G1 & G2 & _). destruct Hy as [->|[->| ->]]; done. }
  destruct (dp_ids _ _ _ Hdp x HxU) as [k Hk].
  assert (Hfree : forall q, q ∈ tail (threads i) -> pids a !! q = None /\ q <> x /\ q <> pgid i /\ q <> sid i).
  { intros q Hq. destruct (dp_apart _ _ _ Hdp x i q HxU Hi Hq) as [Hq1 Hq2]. destruct (Hq2 x i HxU Hi) as (Hq3 & Hq4 & _). split_and!; [|by intros ->|done|done].
    destruct (pids a !! q) as [n|] eqn:En; [|done]. exfalso. assert (Hqv : q ∉ v) by (intros ?; by apply Hq1, HvU).
    destruct (ru_others _ _ Hv q n En Hqv) as (x' & i' & Hx' & Hi' & H). destruct (Hq2 x' i' (HvU x' Hx') Hi') as (G1 & G2 & G3).
    destruct H as [[_ [->| ->]]|[_ Hq']]; [done..|]. apply G3; [by intros ->|done]. }
  destruct (read_one_spec read_pstree_ids a x i k) as (a' & E & Hm & Hr & Hp & _).
  - destruct (pids a !! x) as [n|] eqn:En; [|by left]. right. destruct (ru_others _ _ Hv x n En Hxv) as (_ & _ & _ & _ & [[-> _]|[-> _]]); [done|]. exfalso. apply (Hnothread x); [|done]. exists x, i. tauto.
  - apply Hnothread. exists x, i. tauto.
  - apply Hnothread. exists x, i. tauto.
  - destruct (parent i) as [p|] eqn:Ep.
    + destruct (ru_tasks _ _ Hv p Hpar) as (ip & jp & _ & Hjp & Hst). split_and!; [by apply (dp_pid _ _ _ Hdp), HvU|by intros ->|]. exists jp. split; [done|]. by rewrite (st_state _ _ _ Hst).
    + destruct Hpar as [-> ->]. exact (ru_root _ _ Hv).
  - exact (dp_threads _ _ _ Hdp x i HxU Hi).
  - done.
  - done.
  - exists a'. split; [exact E|]. apply (read_upto_step v x i k a a'); try done. intros q Hq. by destruct (Hfree q Hq).
Qed.

Lemma read_image_step e img a a' : read_one_pstree_item read_pstree_ids e a = Done (1, a') -> read_pstree_image read_pstree_ids (e :: img) a = read_pstree_image read_pstree_ids img a'.
Proof using. intros E. cbn [read_pstree_image]. unfold bind at 1. by rewrite E. Qed.

Definition reads (t : tree) : Prop := forall par v a, repr s par t -> read_upto v a -> match par with None => v = [] /\ troot t = r | Some p => p ∈ v end ->
  NoDup (v ++ preorder t) -> (forall y, y ∈ v ++ preorder t -> y ∈ U) ->
  exists a', (forall img, read_pstree_image read_pstree_ids (map (entry s) (preorder t) ++ img) a = read_pstree_image read_pstree_ids img a') /\ read_upto (v ++ preorder t) a'.

Lemma read_trees x ts : Forall reads ts -> forall v a, Forall (repr s (Some x)) ts -> read_upto v a -> x ∈ v -> NoDup (v ++ preorders ts) -> (forall y, y ∈ v ++ preorders ts -> y ∈ U) ->
  exists a', (forall img, read_pstree_image read_pstree_ids (map (entry s) (preorders ts) ++ img) a = read_pstree_image read_pstree_ids img a') /\ read_upto (v ++ preorders ts) a'.
Proof using.
  induction 1 as [|t ts Ht _ IH]; intros v a Hr Hv Hx Hn Hin; [exists a; split; [done|by rewrite app_nil_r]|].
  cbn [preorders flat_map] in *. change (flat_map preorder ts) with (preorders ts) in *. rewrite app_assoc in Hn, Hin |- *. inversion_clear Hr as [|? ? Hrt Hrts].
  destruct (Ht (Some x) v a Hrt Hv Hx) as (a1 & E1 & Hv1); [by apply list.NoDup_app in Hn as (? & _)|intros y Hy; apply Hin, elem_of_app; by left|].
  destruct (IH (v ++ preorder t) a1 Hrts Hv1) as (a2 & E2 & Hv2); [apply elem_of_app; by left|done|done|].
  exists a2. split; [|done]. intros img. by rewrite map_app, <-app_assoc, E1, E2.
Qed.

Lemma read_tree t : reads t.
Proof using Hlk Hdp.
  induction t as [x ts IH] using tree_induction. intros par v a Hr Hv Hpar Hn Hin. inversion Hr as [? ? i ? Hi Hp Hc Hts]; subst. cbn [preorder] in *. change (flat_map preorder ts) with (preorders ts) in *.
  assert (Happ : v ++ x :: preorders ts = (v ++ [x]) ++ preorders ts) by (by rewrite <-app_assoc). rewrite Happ in *. pose proof Hn as (_ & Hdis & _)%list.NoDup_app.
  assert (Hxv : x ∉ v) by (apply list.NoDup_app in Hn as (Hn & _); apply list.NoDup_app in Hn as (_ & Hn & _); intros Hx; apply (Hn x Hx); left).
  destruct (read_task_step v x i a Hv) as (a1 & E1 & Hv1); [intros y Hy; apply Hin, elem_of_app; by left|done|done| |done|].
  { intros c Hcc Hcv. apply (Hdis c Hcv). rewrite Hc in Hcc. apply list_elem_of_fmap in Hcc as (t & -> & Ht). apply list_elem_of_In, in_flat_map. exists t. split; [by apply list_elem_of_In|].
    destruct (preorder_root t) as (l & ->). by left. }
  destruct (read_trees x ts IH (v ++ [x]) a1 Hts Hv1) as (a2 & E2 & Hv2); [apply elem_of_app; right; left|done|done|].
  exists a2. split; [|done]. intros img. cbn [map app]. by rewrite (read_image_step _ _ _ _ E1), E2.
Qed.
End ReadTree.

Lemma read_upto_init s r : read_upto s r [] ps_init.
Proof. split; [|intros y n H; cbn in H; by rewrite lookup_empty in H| |done|done]; intros y *; by intros ?%elem_of_nil. Qed.

Lemma entry_pids s par t : repr s par t -> map e_pid (map (entry s) (preorder t)) = preorder t.
Proof.
  intros Hr. rewrite map_map. transitivity (map id (preorder t)); [|apply map_id]. apply map_ext_in. intros y Hy%list_elem_of_In.
  destruct (repr_in_pids s par t y Hr Hy) as (i & Hi). by rewrite (entry_it s y i Hi).
Qed.

(** the state after the image of the tree [t] was read *)
Definition was_read (s a : ps) (r : Z) (t : tree) : Prop := read_upto s r (preorder t) a.

Lemma dump_read s r t read_pstree_ids shell_job writes i : linked s r [] -> repr s None t -> troot t = r -> it s r i -> shell_job = true \/ sid i = r ->
  (forall y d, depth s r d y -> writes (entry s y) = true) -> dumpable s read_pstree_ids (preorder t) ->
  exists a, dump_pstree shell_job writes r s = Done ((0, map (entry s) (preorder t)), s) /\ read_pstree_image read_pstree_ids (map (entry s) (preorder t)) ps_init = Done (0, a) /\
    was_read s a r t.
Proof.
  intros Hlk Hr Ht Hi Hsj Hw Hdp.
  destruct (lk_root _ _ _ Hlk) as (i' & Hi' & Hp). rewrite (it_fun _ _ _ _ Hi' Hi) in Hp. assert (Hn : NoDup (preorder t)) by (apply (repr_nodup s r [] None t O Hlk Hr); rewrite Ht; exact (depth_root s r i Hi Hp)).
  destruct (read_tree s r read_pstree_ids (preorder t) Hlk Hdp t None [] ps_init Hr (read_upto_init s r)) as (a & E & Hv); [by split|done|done|].
  exists a. split; [exact (dump_pstree_entries s r writes Hlk t i shell_job Hr Ht Hi Hsj Hw)|]. split; [|exact Hv]. specialize (E []). by rewrite app_nil_r in E.
Qed.
End PstreeImage.
