(* ===== verification/TreeMigration.v ===== *)
(** * The process tree, from dump to restore

    A tree that was dumped is read, prepared and forked again: every task is back in its session. *)
From S2P Require Import Prelude.
From S2P Require Import Pstree.
From S2P Require Import PstreeTree.
From S2P Require Import PstreeIds.
From S2P Require Import Sessions.
From S2P Require Import SessionHelpers.
From S2P Require Import CloneFlags.
From S2P Require Import SessionGroups.
From S2P Require Import SessionsRestored.
From S2P Require Import PstreeImage.
Import Pstree.Pstree PstreeTree.PstreeTree PstreeIds.PstreeIds Sessions.Sessions SessionHelpers.SessionHelpers CloneFlags.CloneFlags SessionGroups.SessionGroups SessionsRestored.SessionsRestored PstreeImage.PstreeImage.
#[local] Open Scope cmon_scope.

Module TreeMigration.

(** ** The tasks that are dumped *)
(** How the tasks of the tree [t] came to be: [b] is the session in which a task was born, [age] its age.  See [history]. *)
Record lived (s : ps) (r : Z) (t : tree) (b age : Z -> Z) : Prop := {
  lv_age : forall y j x, y ∈ preorder t -> it s y j -> parent j = Some x -> age x <= age y;
  lv_old : forall y j, y ∈ preorder t -> it s y j -> sid j ∈ preorder t -> sid j <> y -> age (sid j) < age y;
  lv_first : forall y, y ∈ preorder t -> y <> r -> age r < age y;
  lv_leader : forall y j k, y ∈ preorder t -> it s y j -> sid j ∈ preorder t -> it s (sid j) k -> sid k = sid j;
  lv_birth : forall y j x i, y ∈ preorder t -> it s y j -> parent j = Some x -> x <> r -> it s x i -> b y = sid i \/ b y = b x;
  lv_nonleader : forall y j, y ∈ preorder t -> it s y j -> y <> r -> sid j <> y -> b y = sid j;
  lv_sid : forall y j, y ∈ preorder t -> it s y j -> sid j <> -1;
}.

(** the children of the root that are in a session which is neither theirs nor the root's have a living leader *)
Definition leaders_live (s : ps) (r : Z) (t : tree) : Prop :=
  forall y j i, y ∈ preorder t -> it s y j -> it s r i -> parent j = Some r -> sid j <> y -> sid j <> sid i -> sid j ∈ preorder t.
(** the other tasks are in the session of their parent, or lead their own *)
Definition in_parents_session (s : ps) (r : Z) (t : tree) : Prop :=
  forall y j x i, y ∈ preorder t -> it s y j -> parent j = Some x -> x <> r -> it s x i -> sid j = y \/ sid j = sid i.

Section Read.
Variables (s a : ps) (r : Z) (t : tree) (b age : Z -> Z).
Context (Hlk : linked s r []) (Hr : repr s None t) (Ht : troot t = r) (Ha : was_read s a r t).

Lemma root_in : r ∈ preorder t.
Proof using Ht. destruct (preorder_root t) as (l & ->). rewrite Ht. left. Qed.

Lemma in_tree_depth y : y ∈ preorder t <-> exists n, depth s r n y.
Proof using Hlk Hr Ht.
  split; [|intros (n & Hn); exact (remaining_in_tree s r t Hlk Ht Hr n y Hn)]. intros Hy. destruct (lk_root _ _ _ Hlk) as (i & Hi & Hp).
  destruct (repr_depth s r [] None t O Hlk Hr) with (y := y) as (m & _ & Hm); [rewrite Ht; exact (depth_root s r i Hi Hp)|done|eauto].
Qed.

(** an item of the state that was read is a task of the tree or was made for a pid of a session or a group *)
Lemma read_cases y j : it a y j -> y ∈ preorder t /\ (exists i, it s y i /\ same_task (preorder t) i j) \/ (y ∉ preorder t) /\ j = new_item.
Proof using Ha.
  intros Hj. destruct (decide (y ∈ preorder t)) as [Hy|Hy].
  - left. split; [done|]. destruct (ru_tasks _ _ _ _ Ha y Hy) as (i & j' & Hi & Hj' & Hs). exists i. by rewrite (it_fun _ _ _ _ Hj Hj').
  - right. split; [done|]. destruct (ru_others _ _ _ _ Ha y _ Hj Hy) as (x & i & _ & _ & [[E _]|[E _]]); [by injection E|done].
Qed.
Lemma read_get y : y ∈ preorder t -> exists i j, it s y i /\ it a y j /\ same_task (preorder t) i j.
Proof using Ha. apply (ru_tasks _ _ _ _ Ha). Qed.

Lemma parent_in y i p : y ∈ preorder t -> it s y i -> parent i = Some p -> p ∈ preorder t /\ exists ip, it s p ip /\ y ∈ children ip.
Proof using Hlk Hr Ht.
  intros Hy Hi Hp. destruct (lk_up _ _ _ Hlk y i p Hi Hp) as (ip & Hip & [Hc|[_ Hc]]); [|by apply elem_of_nil in Hc]. split; [|by exists ip].
  apply in_tree_depth. apply in_tree_depth in Hy as (n & Hn). exact (depth_parent s r n y i p Hn Hi Hp).
Qed.

Lemma read_linked : linked a r [].
Proof using Hlk Hr Ht Ha.
  assert (Hdep : forall n y, depth s r n y -> depth a r n y).
  { intros n y Hd. pose proof Hd as Hd0. induction Hd as [i Hi Hp|x i p n Hi Hp Hd IH].
    - destruct (read_get r root_in) as (i' & j & Hi' & Hj & Hs). apply (depth_root a r j Hj). rewrite (st_parent _ _ _ Hs). by rewrite (it_fun _ _ _ _ Hi' Hi).
    - assert (Hx : x ∈ preorder t) by (apply in_tree_depth; eauto). destruct (read_get x Hx) as (i' & j & Hi' & Hj & Hs).
      apply (depth_child a r x j p n Hj); [rewrite (st_parent _ _ _ Hs); by rewrite (it_fun _ _ _ _ Hi' Hi)|by apply IH]. }
  split.
  - destruct (read_get r root_in) as (i & j & Hi & Hj & Hs). exists j. split; [done|]. rewrite (st_parent _ _ _ Hs). destruct (lk_root _ _ _ Hlk) as (i' & Hi' & Hp). by rewrite (it_fun _ _ _ _ Hi Hi').
  - intros x j y Hj Hy. destruct (read_cases x j Hj) as [(Hx & i & Hi & Hs)|[_ ->]]; [|by apply elem_of_nil in Hy].
    rewrite (st_children _ _ _ Hs) in Hy. apply list_elem_of_filter in Hy as [Hyt Hy]. destruct (read_get y Hyt) as (iy & jy & Hiy & Hjy & Hsy). exists jy. split; [done|].
    rewrite (st_parent _ _ _ Hsy). destruct (lk_down _ _ _ Hlk x i y Hi Hy) as (iy' & Hiy' & Hp). by rewrite (it_fun _ _ _ _ Hiy Hiy').
  - intros y j p Hj Hp. destruct (read_cases y j Hj) as [(Hy & i & Hi & Hs)|[_ ->]]; [|done]. rewrite (st_parent _ _ _ Hs) in Hp.
    destruct (parent_in y i p Hy Hi Hp) as (Hpt & ip & Hip & Hc). destruct (read_get p Hpt) as (ip' & jp & Hip' & Hjp & Hsp). rewrite (it_fun _ _ _ _ Hip' Hip) in Hsp.
    exists jp. split; [done|]. left. rewrite (st_children _ _ _ Hsp). by apply list_elem_of_filter.
  - intros x j Hj. destruct (read_cases x j Hj) as [(Hx & i & Hi & Hs)|[_ ->]]; [|constructor]. rewrite (st_children _ _ _ Hs). apply list.NoDup_filter. by eapply (lk_nodup _ _ _ Hlk x).
  - intros y j p Hj Hp. destruct (read_cases y j Hj) as [(Hy & i & Hi & Hs)|[_ ->]]; [|done]. apply in_tree_depth in Hy as (n & Hn). exists n. by apply Hdep.
  - intros y Hy. by apply elem_of_nil in Hy.
  - constructor.
  - intros i y _ Hy. by apply elem_of_nil in Hy.
  - intros x j Hj Hp Hxr. destruct (read_cases x j Hj) as [(Hx & i & Hi & Hs)|[_ ->]]; [|done]. exfalso. rewrite (st_parent _ _ _ Hs) in Hp. apply in_tree_depth in Hx as (n & Hn). by apply Hxr, (depth_none s r n x i).
Qed.

Lemma read_cores y c : cores a y = Some c ->
  y ∈ preorder t /\ (exists i, it s y i /\ c_parent c = parent i /\ c_sid c = sid i /\ c_pgid c = pgid i /\ c_state c = TASK_ALIVE /\ c_born c = -1) \/ (y ∉ preorder t) /\ c = core_of new_item.
Proof using Ha.
  intros (j & Hj & <-)%cores_it. destruct (read_cases y j Hj) as [(Hy & i & Hi & [S1 S2 S3 S4 S5 S6 S7 S8])|[Hy ->]]; [|by right]. left. split; [done|]. by exists i.
Qed.
(** whoever is linked is a task of the tree *)
Lemma read_live y c : cores a y = Some c -> c_state c <> TASK_UNDEF ->
  y ∈ preorder t /\ exists i, it s y i /\ c_parent c = parent i /\ c_sid c = sid i /\ c_pgid c = pgid i.
Proof using Ha. intros Hy Hs. destruct (read_cores y c Hy) as [(H & i & Hi & H1 & H2 & H3 & _)|[_ ->]]; [|done]. split; [done|]. by exists i. Qed.
Lemma read_child y c p : cores a y = Some c -> c_parent c = Some p -> y ∈ preorder t /\ exists i, it s y i /\ parent i = Some p /\ c_sid c = sid i.
Proof using Ha. intros Hy Hp. destruct (read_cores y c Hy) as [(H & i & Hi & H1 & H2 & _)|[_ ->]]; [|done]. split; [done|]. exists i. split_and!; congruence. Qed.

Lemma read_history : lived s r t b age -> history (cores a) r b age.
Proof using Hlk Hr Ht Ha.
  intros [L1 L2 L3 L4 L5 L6 L7]. split.
  - intros x c Hx. destruct (read_cores x c Hx) as [(Hin & i & Hi & -> & _ & _ & -> & _)|[Hin ->]].
    + split; [done|]. intros [Hp Hxr]. exfalso. apply Hxr. apply in_tree_depth in Hin as (n & Hn). by eapply depth_none.
    + split; [|done]. intros _. split; [done|]. intros ->. by apply Hin, root_in.
  - intros y d x Hy Hp. destruct (read_child y d x Hy Hp) as (Hin & i & Hi & Hpi & _). eauto.
  - intros y d x c Hy Hs Hx Hxs E Hxy. destruct (read_live y d Hy ltac:(congruence)) as (Hin & i & Hi & _ & Hsid & _), (read_live x c Hx Hxs) as (Hinx & _).
    assert (sid i = x) as <- by congruence. by apply (L2 y i).
  - intros y d Hy Hs Hyr. destruct (read_live y d Hy ltac:(congruence)) as (Hin & _). eauto.
  - intros y d x c Hy Hs Hx Hxs E. destruct (read_live y d Hy Hs) as (Hin & i & Hi & _ & Hsid & _), (read_live x c Hx Hxs) as (Hinx & k & Hk & _ & Hsk & _).
    rewrite Hsk. assert (sid i = x) as <- by congruence. by apply (L4 y i k).
  - intros y d x c Hy Hp Hxr Hx. destruct (read_child y d x Hy Hp) as (Hin & i & Hi & Hpi & _). destruct (parent_in y i x Hin Hi Hpi) as (Hinx & _).
    destruct (read_cores x c Hx) as [(_ & k & Hk & _ & Hsk & _)|[Hn _]]; [|done]. rewrite Hsk. by apply (L5 y i).
  - intros y d Hy Hs Hyr Hsy. destruct (read_live y d Hy Hs) as (Hin & i & Hi & _ & Hsid & _). rewrite Hsid in *. by apply L6.
  - intros y d Hy Hs. destruct (read_live y d Hy Hs) as (Hin & i & Hi & _ & Hsid & _). rewrite Hsid. split; [by apply (L7 y)|].
    destruct (ru_groups _ _ _ _ Ha y i Hin Hi) as [_ (j & Hj)]. exists (core_of j). by apply it_cores.
  - intros y d Hy Hs. destruct (read_cores y d Hy) as [(_ & i & _ & _ & _ & _ & E & _)|[_ ->]]; [congruence|done].
  - intros y d Hy. by destruct (read_cores y d Hy) as [(_ & i & _ & _ & _ & _ & _ & E)|[_ ->]].
Qed.

Lemma read_inv lax : lived s r t b age -> (lax /\ leaders_live s r t \/ in_parents_session s r t) -> helpers_inv lax a r [] b age.
Proof using Hlk Hr Ht Ha.
  intros Hl Hlate. split.
  - exact read_linked.
  - by apply read_history.
  - intros y j o Hj Ho. destruct (read_cases y j Hj) as [(_ & i & _ & Hs)|[_ ->]]; [|done]. rewrite (st_fdt _ _ _ Hs) in Ho. done.
  - rewrite (ru_root _ _ _ _ Ha). destruct (preorder_root t) as (l & ->). done.
  - unfold prev_ok. rewrite (ru_prev _ _ _ _ Ha). destruct (read_get r root_in) as (i & j & _ & Hj & _). intros E. unfold it in Hj. rewrite E in Hj. by rewrite lookup_empty in Hj.
  - destruct Hlate as [[Hx Hll]|Hn]; [left; split; [done|split; [|done]]|right].
    + intros y d cr Hy Hcr Hp Hsy Hsr. destruct (read_child y d r Hy Hp) as (Hin & i & Hi & Hpi & Hsid).
      destruct (read_cores r cr Hcr) as [(_ & ir & Hir & _ & Hsir & _)|[Hn _]]; [|by destruct Hn; apply root_in]. rewrite Hsid in *. rewrite Hsir in Hsr.
      destruct (read_get (sid i) (Hll y i ir Hin Hi Hir Hpi Hsy Hsr)) as (k & j & _ & Hj & Hs). exists (core_of j). split; [by apply it_cores|]. cbn. by rewrite (st_state _ _ _ Hs).
    + intros y d x c Hy Hp Hxr Hx. destruct (read_child y d x Hy Hp) as (Hin & i & Hi & Hpi & Hsid). destruct (parent_in y i x Hin Hi Hpi) as (Hinx & _).
      destruct (read_cores x c Hx) as [(_ & k & Hk & _ & Hsk & _)|[Hn' _]]; [|done]. rewrite Hsid, Hsk. by apply (Hn y i x k).
  - intros y Hy. by apply elem_of_nil in Hy.
  - intros y d Hy Hs Hg. destruct (read_live y d Hy Hs) as (Hin & i & Hi & _ & _ & Hgi). rewrite Hgi. destruct (ru_groups _ _ _ _ Ha y i Hin Hi) as [(j & Hj) _]. exists (core_of j). by apply it_cores.
Qed.
End Read.

(** ** From dump to restore *)
Section Migration.
Variables (lax : Prop) (shell_job : bool) (writes : pstree_entry -> bool).
Variables (read_pstree_ids : Z -> option (option kobj_ids)) (root_ids : option kobj_ids) (restore_shell_job : bool) (current_sid current_gid kpid_max : Z) (set_kpid_max : Z -> bool).

(** why a tree that was dumped is not prepared: a pid that the kernel does not have, a task that cannot be cloned, or tasks in a session that is neither theirs nor their parent's *)
Definition refused (a : ps) (r : Z) : Prop :=
  (kpid_max < pid_max a /\ set_kpid_max (pid_max a + 1) = false) \/ (exists y j, it a y j /\ fine a r root_ids y j = false) \/ lax.

Lemma not_from_the_shell sj cs cg a r i : root_item a = Some r -> it a r i -> sid i = r -> prepare_pstree_for_shell_job sj cs cg a = Done (0, a).
Proof.
  intros Hroot Hi Hsid. unfold prepare_pstree_for_shell_job. rewrite Hroot. destruct sj; [|done]. cbn [negb]. unfold bind at 1. by rewrite (item_it a r i Hi), Hsid, Z.eqb_refl.
Qed.

Lemma prepare_read a r img b age i : read_pstree_image read_pstree_ids img ps_init = Done (0, a) -> helpers_inv lax a r [] b age -> it a r i -> sid i = r ->
  exists rc s', prepare_pstree read_pstree_ids root_ids restore_shell_job current_sid current_gid kpid_max set_kpid_max img ps_init = Done (rc, s') /\
    (rc = -1 /\ refused a r \/ rc = 0 /\ exists s3, group_inv r s3 s' /\ kept (cores a) (cores s')).
Proof.
  intros E Hv Hi Hsid. unfold prepare_pstree. unfold bind at 1. rewrite E. unfold bind at 1, push_pid_max. cbn [Z.eqb andb].
  destruct (negb (kpid_max =? 0) && (kpid_max <? pid_max a) && negb (set_kpid_max (pid_max a + 1))) eqn:Ek.
  { exists (-1), a. split; [done|]. left. split; [done|]. left. apply andb_true_iff in Ek as [[_ Ek]%andb_true_iff Eset]. apply Z.ltb_lt in Ek. split; [done|]. by destruct (set_kpid_max _). }
  cbn [Z.eqb]. unfold bind at 1. rewrite (not_from_the_shell _ _ _ a r i (hv_root _ _ _ _ _ _ Hv) Hi Hsid). cbn [Z.eqb]. unfold bind at 1.
  destruct (kobj_ids_loop a r [] root_ids (hv_linked _ _ _ _ _ _ Hv) (hv_fdt _ _ _ _ _ _ Hv) (hv_root _ _ _ _ _ _ Hv)) as (t & e & a1 & _ & _ & E1 & Hres). rewrite E1.
  destruct Hres as [[-> Hf]|(-> & y & j & _ & Hj & Hfi)]; cbn [Z.eqb].
  - assert (Hv1 : helpers_inv lax a1 r [] b age) by (apply (helpers_inv_ext lax a); [apply Hf|apply Hf|apply Hf|done]).
    destruct (prepare_spec lax current_gid a1 r b age Hv1) as (rc & s' & E2 & [[-> Hl]|(-> & s3 & Hg & Hk & _)]); rewrite E2.
    + exists (-1), s'. split; [done|]. left. split; [done|]. by do 2 right.
    + exists 0, s'. split; [done|]. right. split; [done|]. exists s3. split; [done|]. intros y c Hy. apply Hk. by rewrite (fi_cores _ _ _ _ _ Hf).
  - exists (-1), a1. split; [done|]. left. split; [done|]. right. left. by exists y, j.
Qed.

End Migration.

(** ** A tree with orphans, from dump to restore *)
Definition example_tree : tree := T 1 [T 4 []; T 3 []; T 2 [T 5 []]].
Definition example_ids (n : Z) : kobj_ids := mk_kobj_ids n 1 1 1 1 1 1 1.
Definition own_files (x : Z) : option (option kobj_ids) := Some (Some (example_ids x)).

Lemma example_repr : repr example None example_tree.
Proof. repeat (econstructor; [reflexivity..|]); repeat (constructor; [repeat (econstructor; [reflexivity..|]); repeat constructor|]); repeat econstructor. Qed.

Lemma example_dumpable : dumpable example own_files (preorder example_tree).
Proof.
  split.
  - intros y Hy. cbn in Hy. set_solver.
  - intros y i Hy Hi. each_task Hi; constructor.
  - intros y i q Hy Hi Hq. exfalso. each_task Hi; by apply elem_of_nil in Hq.
  - intros y Hy. by eexists.
Qed.

Lemma example_lived : lived example 1 example_tree example_births example_ages.
Proof.
  split.
  - intros y j x Hy Hj Hp. each_task Hj; cbn in Hp; try discriminate Hp; injection Hp as <-; by vm_compute.
  - intros y j Hy Hj Hs Hne. each_task Hj; cbn in *; try done; set_solver.
  - intros y Hy Hr. cbn in Hy. unfold example_ages. set_unfold. lia.
  - intros y j k Hy Hj Hs Hk. each_task Hj; cbn in *; each_task Hk; try done; set_solver.
  - intros y j x i Hy Hj Hp Hr Hi. each_task Hj; cbn in Hp; try discriminate Hp; injection Hp as <-; try done; each_task Hi; by left.
  - intros y j Hy Hj Hr Hs. each_task Hj; try done; cbn in Hy; set_solver.
  - intros y j Hy Hj. each_task Hj; try done; cbn in Hy; set_solver.
Qed.


Lemma kobj_ids_spec_witness : exists a, read_pstree_image own_files (map (entry example) (preorder example_tree)) ps_init = Done (0, a) /\
  exists e s', prepare_pstree_kobj_ids (Some (example_ids 0)) a = Done (e, s') /\
    (e = 0 /\ (forall y i n, depth a 1 n y -> it a y i -> fine a 1 (Some (example_ids 0)) y i = true /\ exists j, it s' y j /\ clone_flags j = task_flags a (Some (example_ids 0)) i) \/
     e = -1 /\ exists y i n, depth a 1 n y /\ it a y i /\ fine a 1 (Some (example_ids 0)) y i = false).
Proof.
  destruct example_inv as [Hlk _ _ _ _ _ _ _].
  destruct (dump_read example 1 example_tree own_files false (fun _ => true) _ Hlk example_repr eq_refl (eq_refl : it example 1 _) (or_intror eq_refl) (fun _ _ _ => eq_refl) example_dumpable)
    as (a & _ & E & Ha).
  exists a. split; [exact E|]. apply (kobj_ids_spec a 1 (Some (example_ids 0))).
  - exact (read_linked example a 1 example_tree Hlk example_repr eq_refl Ha).
  - intros y j o Hj Ho. destruct (read_cases example a 1 example_tree Ha y j Hj) as [(_ & i & _ & Hs)|[_ ->]]; [|done]. rewrite (st_fdt _ _ _ Hs) in Ho. done.
  - exact (ru_root _ _ _ _ Ha).
Defined.
End TreeMigration.
