(* ===== verification/Bitmap.v ===== *)
(** * Bit maps (include/common/arch/x86/asm/bitops.h, include/common/asm-generic/bitops.h, criu/bitmap.c)

    A bit map is an array of 64-bit words. *)
From S2P Require Import Prelude.

Module Bitmap.

Definition BITS_PER_LONG : Z := 64.
Definition DIV_ROUND_UP (n d : Z) : Z := u64 (n + d - 1) / d.
Definition BITS_TO_LONGS (nr : Z) : Z := DIV_ROUND_UP nr BITS_PER_LONG.
Definition ALL_ONES : Z := 2 ^ 64 - 1.

(** ** Single bits; [None]: outside of the array *)

Definition word_at (m : list Z) (p : Z) : option Z := if p <? 0 then None else m !! Z.to_nat p.

Definition test_bit (nr : Z) (addr : list Z) : option bool :=
  w ← word_at addr (nr / BITS_PER_LONG); Some (has w (Z.shiftl 1 (nr mod BITS_PER_LONG))).

(** [f] applied to the word [p] *)
Definition update_word (addr : list Z) (p : Z) (f : Z -> Z) : option (list Z) :=
  w ← word_at addr p; Some (<[Z.to_nat p := f w]> addr).

(** the number of the bit is an [int] *)
Definition set_bit (nr : Z) (addr : list Z) : option (list Z) :=
  let nr := s32 nr in
  update_word addr (nr / BITS_PER_LONG) (fun w => Z.lor w (Z.shiftl 1 (nr mod BITS_PER_LONG))).

Definition clear_bit (nr : Z) (addr : list Z) : option (list Z) :=
  let nr := s32 nr in
  update_word addr (nr / BITS_PER_LONG) (fun w => Z.ldiff w (Z.shiftl 1 (nr mod BITS_PER_LONG))).

(** ** Ranges of bits (bitmap.c) *)

Definition BITMAP_FIRST_WORD_MASK (start : Z) : Z := u64 (Z.shiftl ALL_ONES (start mod BITS_PER_LONG)).
Definition BITMAP_LAST_WORD_MASK (nbits : Z) : Z :=
  if negb (nbits mod BITS_PER_LONG =? 0) then Z.shiftl 1 (nbits mod BITS_PER_LONG) - 1 else ALL_ONES.

(** the loop over the words; [f w mask]: what is done to a word.  The fuel: a turn per word. *)
Fixpoint range_loop (fuel : nat) (f : Z -> Z -> Z) (map : list Z) (p nr bits mask : Z)
  : res (list Z * Z * Z * Z) :=
  match fuel with
  | O => NoFuel
  | S fuel =>
    if 0 <=? nr - bits then
      match update_word map p (fun w => f w mask) with
      | None => Bug
      | Some map => range_loop fuel f map (p + 1) (nr - bits) BITS_PER_LONG ALL_ONES
      end
    else Done (map, p, nr, mask)
  end.

Definition bitmap_range (f : Z -> Z -> Z) (map : list Z) (start nr : Z) : res (list Z) :=
  let size := start + nr in
  let bits := BITS_PER_LONG - start mod BITS_PER_LONG in
  match range_loop (S (length map)) f map (start / BITS_PER_LONG) nr bits (BITMAP_FIRST_WORD_MASK start) with
  | Bug => Bug
  | NoFuel => NoFuel
  | Done (map, p, nr, mask) =>
    if nr =? 0 then Done map
    else
      match update_word map p (fun w => f w (Z.land mask (BITMAP_LAST_WORD_MASK size))) with
      | None => Bug
      | Some map => Done map
      end
  end.

Definition bitmap_set : list Z -> Z -> Z -> res (list Z) := bitmap_range Z.lor.
Definition bitmap_clear : list Z -> Z -> Z -> res (list Z) := bitmap_range Z.ldiff.

(** ** Searching *)

(** [__ffs]: the lowest bit set *)
Fixpoint ffs_from (n : nat) (i w : Z) : Z :=
  match n with
  | O => i
  | S n => if Z.testbit w i then i else ffs_from n (i + 1) w
  end.
Definition __ffs (w : Z) : Z := ffs_from 64 0 w.

Definition found_first (tmp result size : Z) : Z :=
  let tmp := Z.land tmp (Z.shiftr ALL_ONES (BITS_PER_LONG - size)) in
  if tmp =? 0 then result + size else result + __ffs tmp.

(** the loop over whole words and what follows it *)
Fixpoint find_loop (fuel : nat) (addr : list Z) (p size result : Z) : res Z :=
  match fuel with
  | O => NoFuel
  | S fuel =>
    if negb (Z.ldiff size (BITS_PER_LONG - 1) =? 0) then
      match word_at addr p with
      | None => Bug
      | Some tmp =>
        if negb (tmp =? 0) then Done (result + __ffs tmp)
        else find_loop fuel addr (p + 1) (size - BITS_PER_LONG) (result + BITS_PER_LONG)
      end
    else if size =? 0 then Done result
    else
      match word_at addr p with
      | None => Bug
      | Some tmp => Done (found_first tmp result size)
      end
  end.

Definition find_next_bit (addr : list Z) (size offset : Z) : res Z :=
  let p := offset / BITS_PER_LONG in
  let result := Z.ldiff offset (BITS_PER_LONG - 1) in
  if size <=? offset then Done size
  else
    let size := size - result in
    let offset := offset mod BITS_PER_LONG in
    if negb (offset =? 0) then
      match word_at addr p with
      | None => Bug
      | Some w =>
        let tmp := Z.land w (u64 (Z.shiftl ALL_ONES offset)) in
        if size <? BITS_PER_LONG then Done (found_first tmp result size)
        else if negb (tmp =? 0) then Done (result + __ffs tmp)
        else find_loop (S (length addr)) addr (p + 1) (size - BITS_PER_LONG) (result + BITS_PER_LONG)
      end
    else find_loop (S (length addr)) addr p size result.

(** ** What the operations mean *)

Definition bit (m : list Z) (n : Z) : bool := Z.testbit (default 0 (word_at m (n / BITS_PER_LONG))) (n mod BITS_PER_LONG).

(** the words fit their width *)
Definition words_ok (m : list Z) : Prop := Forall (fun w => 0 <= w < 2 ^ 64) m.

Lemma word_at_some m p : 0 <= p < Z.of_nat (length m) -> is_Some (word_at m p).
Proof. intros Hp. unfold word_at. rewrite (proj2 (Z.ltb_ge _ _)) by lia. apply lookup_lt_is_Some_2. lia. Qed.

Lemma test_bit_bit n m : 0 <= n < BITS_PER_LONG * Z.of_nat (length m) -> test_bit n m = Some (bit m n).
Proof.
  unfold test_bit, bit, BITS_PER_LONG. intros Hn.
  destruct (word_at_some m (n / 64)) as [w Hw]; [Z.div_mod_to_equations; lia|]. rewrite Hw. cbn.
  by rewrite has_bit by (Z.div_mod_to_equations; lia).
Qed.

Lemma update_word_bits m p f m' :
  update_word m p f = Some m' ->
  length m' = length m /\ (words_ok m -> (forall w, 0 <= w < 2 ^ 64 -> 0 <= f w < 2 ^ 64) -> words_ok m') /\
  forall n, 0 <= n -> bit m' n = if n / BITS_PER_LONG =? p then Z.testbit (f (default 0 (word_at m p))) (n mod BITS_PER_LONG) else bit m n.
Proof.
  unfold update_word. destruct (word_at m p) as [w|] eqn:Hw; [|done]. cbn. intros [= <-].
  unfold word_at in Hw. destruct (Z.ltb_spec p 0) as [|Hp]; [done|]. pose proof (lookup_lt_Some _ _ _ Hw) as Hl.
  split_and!; [apply length_insert|intros Hok Hf; apply Forall_insert; [done|]; apply Hf; by eapply (Forall_lookup_1 _ _ _ _ Hok)|].
  intros n Hn. unfold bit, word_at, BITS_PER_LONG. rewrite (proj2 (Z.ltb_ge (n / 64) 0)) by (apply Z.div_pos; lia).
  destruct (Z.eqb_spec (n / 64) p) as [<-|Hne]; [by rewrite list_lookup_insert_eq|].
  rewrite list_lookup_insert_ne; [done|]. assert (0 <= n / 64) by (apply Z.div_pos; lia). lia.
Qed.

Lemma bit_same_word m n p : n / BITS_PER_LONG = p -> Z.testbit (default 0 (word_at m p)) (n mod BITS_PER_LONG) = bit m n.
Proof. by intros <-. Qed.

Lemma set_bit_ok k m :
  0 <= k < 2 ^ 31 -> k < BITS_PER_LONG * Z.of_nat (length m) ->
  exists m', set_bit k m = Some m' /\ length m' = length m /\
    forall n, 0 <= n -> bit m' n = bit m n || (n =? k).
Proof.
  intros Hk Hl. unfold set_bit, BITS_PER_LONG in *. rewrite s32_id by lia.
  destruct (update_word m (k / 64) (fun w => Z.lor w (Z.shiftl 1 (k mod 64)))) as [m'|] eqn:E.
  2: { unfold update_word in E. destruct (word_at_some m (k / 64)) as [w Hw]; [Z.div_mod_to_equations; lia|]. by rewrite Hw in E. }
  destruct (update_word_bits _ _ _ _ E) as (H1 & _ & H3). exists m'. split_and!; [done|done|]. intros n Hn. rewrite H3 by done. unfold BITS_PER_LONG.
  destruct (Z.eqb_spec (n / 64) (k / 64)) as [He|Hne].
  - rewrite Z.lor_spec, Z.shiftl_1_l, Z.pow2_bits_eqb by (Z.div_mod_to_equations; lia).
    rewrite <-He. fold (BITS_PER_LONG). rewrite bit_same_word by done. f_equal. unfold BITS_PER_LONG.
    apply Bool.eq_iff_eq_true. rewrite !Z.eqb_eq. clear -He Hk Hn. Z.div_mod_to_equations; lia.
  - rewrite (proj2 (Z.eqb_neq n k)) by congruence. by rewrite orb_false_r.
Qed.

Lemma clear_bit_ok k m :
  0 <= k < 2 ^ 31 -> k < BITS_PER_LONG * Z.of_nat (length m) ->
  exists m', clear_bit k m = Some m' /\ length m' = length m /\
    forall n, 0 <= n -> bit m' n = bit m n && negb (n =? k).
Proof.
  intros Hk Hl. unfold clear_bit, BITS_PER_LONG in *. rewrite s32_id by lia.
  destruct (update_word m (k / 64) (fun w => Z.ldiff w (Z.shiftl 1 (k mod 64)))) as [m'|] eqn:E.
  2: { unfold update_word in E. destruct (word_at_some m (k / 64)) as [w Hw]; [Z.div_mod_to_equations; lia|]. by rewrite Hw in E. }
  destruct (update_word_bits _ _ _ _ E) as (H1 & _ & H3). exists m'. split_and!; [done|done|]. intros n Hn. rewrite H3 by done. unfold BITS_PER_LONG.
  destruct (Z.eqb_spec (n / 64) (k / 64)) as [He|Hne].
  - rewrite Z.ldiff_spec, Z.shiftl_1_l, Z.pow2_bits_eqb by (Z.div_mod_to_equations; lia).
    rewrite <-He. fold (BITS_PER_LONG). rewrite bit_same_word by done. do 2 f_equal. unfold BITS_PER_LONG.
    apply Bool.eq_iff_eq_true. rewrite !Z.eqb_eq. clear -He Hk Hn. Z.div_mod_to_equations; lia.
  - rewrite (proj2 (Z.eqb_neq n k)) by congruence. by rewrite andb_true_r.
Qed.

(** *** Ranges *)
Definition mask_from (off mask : Z) : Prop := forall j, 0 <= j < 64 -> Z.testbit mask j = (off <=? j).

Lemma all_ones_bit j : 0 <= j < 64 -> Z.testbit ALL_ONES j = true.
Proof. intros Hj. change ALL_ONES with (Z.ones 64). apply Z.ones_spec_low. lia. Qed.

Lemma shifted_ones off : 0 <= off < 64 -> mask_from off (u64 (Z.shiftl ALL_ONES off)).
Proof.
  intros Ho j Hj. unfold u64. rewrite Z.mod_pow2_bits_low by lia. rewrite Z.shiftl_spec by lia.
  destruct (Z.leb_spec off j); [apply all_ones_bit; lia|]. apply Z.testbit_neg_r. lia.
Qed.

Lemma mask_from_0 : mask_from 0 ALL_ONES.
Proof. intros j Hj. rewrite all_ones_bit by done. symmetry. apply Z.leb_le. lia. Qed.

Section Range.
Variables (f : Z -> Z -> Z) (op : bool -> bool -> bool).
Hypothesis Hf : forall w k j, 0 <= j -> Z.testbit (f w k) j = op (Z.testbit w j) (Z.testbit k j).
Hypothesis Hop : forall b, op b false = b.

Lemma update_mask map p mask lo hi :
  0 <= p < Z.of_nat (length map) ->
  (forall j, 0 <= j < 64 -> Z.testbit mask j = (lo <=? 64 * p + j) && (64 * p + j <? hi)) ->
  64 * p <= lo -> hi <= 64 * (p + 1) ->
  exists map', update_word map p (fun w => f w mask) = Some map' /\ length map' = length map /\
    forall n, 0 <= n -> bit map' n = op (bit map n) ((lo <=? n) && (n <? hi)).
Proof.
  intros Hp Hm Hlo Hhi. destruct (update_word map p (fun w => f w mask)) as [map'|] eqn:E.
  2: { unfold update_word in E. destruct (word_at_some map p Hp) as [w Hw]. by rewrite Hw in E. }
  destruct (update_word_bits _ _ _ _ E) as (H1 & _ & H3). exists map'. split_and!; [done|done|].
  intros n Hn. rewrite H3 by done. unfold BITS_PER_LONG. destruct (Z.eqb_spec (n / 64) p) as [He|Hne].
  - rewrite Hf, Hm by (Z.div_mod_to_equations; lia). rewrite <-He. fold BITS_PER_LONG. rewrite bit_same_word by done.
    by replace (BITS_PER_LONG * (n / BITS_PER_LONG) + n mod BITS_PER_LONG) with n by (unfold BITS_PER_LONG; Z.div_mod_to_equations; lia).
  - replace ((lo <=? n) && (n <? hi)) with false; [by rewrite Hop|]. symmetry. apply andb_false_iff.
    rewrite Z.leb_gt, Z.ltb_ge. Z.div_mod_to_equations; lia.
Qed.

Lemma range_loop_ok fuel : forall map p off nr mask,
  0 <= p -> 0 <= off < 64 -> 0 <= nr -> mask_from off mask -> 64 * p + off + nr <= 64 * Z.of_nat (length map) ->
  Z.of_nat (length map) - p < Z.of_nat fuel ->
  exists map' p' off' nr' mask',
    range_loop fuel f map p nr (64 - off) mask = Done (map', p', nr', mask') /\ length map' = length map /\
    0 <= p' /\ 0 <= off' < 64 /\ 0 <= nr' < 64 - off' /\ mask_from off' mask' /\ 64 * p' + off' + nr' = 64 * p + off + nr /\
    64 * p + off <= 64 * p' + off' /\
    forall n, 0 <= n -> bit map' n = op (bit map n) ((64 * p + off <=? n) && (n <? 64 * p' + off')).
Proof.
  induction fuel as [|fuel IH]; intros map p off nr mask Hp Ho Hn Hm Hlen Hfuel; [lia|]. cbn [range_loop].
  destruct (Z.leb_spec 0 (nr - (64 - off))) as [Hge|Hlt].
  - destruct (update_mask map p mask (64 * p + off) (64 * (p + 1))) as (map1 & -> & Hl1 & Hb1); try lia.
    { intros j Hj. rewrite Hm by done. rewrite (proj2 (Z.ltb_lt _ (64 * (p + 1)))) by lia. rewrite andb_true_r.
      apply Bool.eq_iff_eq_true. rewrite !Z.leb_le. lia. }
    change BITS_PER_LONG with (64 - 0).
    destruct (IH map1 (p + 1) 0 (nr - (64 - off)) ALL_ONES) as (map' & p' & off' & nr' & mask' & -> & Hl' & A1 & A2 & A3 & A4 & A5 & A6 & Hb');
      try lia; [apply mask_from_0|]. exists map', p', off', nr', mask'. split_and!; try done; try lia.
    intros n Hn'. rewrite Hb', Hb1 by done.
    destruct (Z.leb_spec (64 * (p + 1) + 0) n), (Z.ltb_spec n (64 * p' + off')), (Z.leb_spec (64 * p + off) n), (Z.ltb_spec n (64 * (p + 1)));
      cbn [andb]; rewrite ?Hop; lia || done.
  - exists map, p, off, nr, mask. split_and!; try done; try lia. intros n Hn'.
    replace ((64 * p + off <=? n) && (n <? 64 * p + off)) with false; [by rewrite Hop|]. lia.
Qed.

Lemma bitmap_range_ok map start nr :
  0 <= start -> 0 <= nr -> start + nr <= BITS_PER_LONG * Z.of_nat (length map) ->
  exists map', bitmap_range f map start nr = Done map' /\ length map' = length map /\
    forall n, 0 <= n -> bit map' n = op (bit map n) ((start <=? n) && (n <? start + nr)).
Proof.
  unfold bitmap_range, BITS_PER_LONG. intros Hs Hn Hl.
  assert (Hst : start = 64 * (start / 64) + start mod 64) by (apply Z.div_mod; lia).
  assert (Hsm : 0 <= start mod 64 < 64) by (apply Z.mod_pos_bound; lia).
  assert (Hsp : 0 <= start / 64) by (apply Z.div_pos; lia).
  destruct (range_loop_ok (S (length map)) map (start / 64) (start mod 64) nr (BITMAP_FIRST_WORD_MASK start))
    as (map1 & p & off & nr1 & mask & -> & Hl1 & A1 & A2 & A3 & A4 & A5 & A6 & Hb1); try lia.
  { by apply shifted_ones. }
  rewrite <-Hst in *.
  destruct (Z.eqb_spec nr1 0) as [->|Hnz].
  { exists map1. split_and!; try done. intros n Hn'. rewrite Hb1 by done. by replace (64 * p + off) with (start + nr) by lia. }
  assert (Hend : (start + nr) mod 64 = off + nr1).
  { replace (start + nr) with (off + nr1 + p * 64) by lia. rewrite Z.mod_add by lia. apply Z.mod_small. lia. }
  destruct (update_mask map1 p (Z.land mask (BITMAP_LAST_WORD_MASK (start + nr))) (64 * p + off) (64 * p + off + nr1)) as (map2 & -> & Hl2 & Hb2); try lia.
  { intros j Hj. rewrite Z.land_spec, A4 by done. unfold BITMAP_LAST_WORD_MASK, BITS_PER_LONG. rewrite Hend.
    rewrite (proj2 (Z.eqb_neq _ _)) by lia. cbn [negb]. rewrite Z.shiftl_1_l.
    replace (2 ^ (off + nr1) - 1) with (Z.ones (off + nr1)) by (rewrite Z.ones_equiv; lia).
    rewrite Z.testbit_ones_nonneg by lia. f_equal; apply Bool.eq_iff_eq_true; rewrite ?Z.leb_le, ?Z.ltb_lt; lia. }
  exists map2. split_and!; [done|congruence|]. intros n Hn'. rewrite Hb2, Hb1 by done.
  destruct (Z.leb_spec (64 * p + off) n), (Z.ltb_spec n (64 * p + off + nr1)), (Z.leb_spec start n), (Z.ltb_spec n (64 * p + off)), (Z.ltb_spec n (start + nr));
    cbn [andb]; rewrite ?Hop; lia || done.
Qed.
End Range.

Lemma bitmap_set_ok map start nr :
  0 <= start -> 0 <= nr -> start + nr <= BITS_PER_LONG * Z.of_nat (length map) ->
  exists map', bitmap_set map start nr = Done map' /\ length map' = length map /\
    forall n, 0 <= n -> bit map' n = bit map n || ((start <=? n) && (n <? start + nr)).
Proof. apply (bitmap_range_ok Z.lor orb); [intros; apply Z.lor_spec|apply orb_false_r]. Qed.

Lemma bitmap_clear_ok map start nr :
  0 <= start -> 0 <= nr -> start + nr <= BITS_PER_LONG * Z.of_nat (length map) ->
  exists map', bitmap_clear map start nr = Done map' /\ length map' = length map /\
    forall n, 0 <= n -> bit map' n = bit map n && negb ((start <=? n) && (n <? start + nr)).
Proof. apply (bitmap_range_ok Z.ldiff (fun a b => a && negb b)); [intros; by apply Z.ldiff_spec|intros b; apply andb_true_r]. Qed.

(** *** Searching *)
Definition first_bit (m : list Z) (lo hi r : Z) : Prop :=
  lo <= r <= hi /\ (forall n, lo <= n < r -> bit m n = false) /\ (r < hi -> bit m r = true).

Lemma ffs_from_ok n i w :
  i <= ffs_from n i w <= i + Z.of_nat n /\ (forall j, i <= j < ffs_from n i w -> Z.testbit w j = false) /\
  (ffs_from n i w < i + Z.of_nat n -> Z.testbit w (ffs_from n i w) = true).
Proof.
  revert i. induction n as [|n IH]; intros i; cbn [ffs_from]; [split_and!; intros; lia|].
  destruct (Z.testbit w i) eqn:E; [split_and!; [lia|lia|intros; lia|done]|].
  destruct (IH (i + 1)) as (H1 & H2 & H3). split_and!; [lia|lia| |intros; apply H3; lia].
  intros j Hj. destruct (Z.eq_dec j i) as [->|]; [done|]. apply H2. lia.
Qed.

Lemma ffs_ok w : 0 <= w < 2 ^ 64 -> w <> 0 ->
  0 <= __ffs w < 64 /\ Z.testbit w (__ffs w) = true /\ forall j, 0 <= j < __ffs w -> Z.testbit w j = false.
Proof.
  intros Hw Hnz. unfold __ffs. destruct (ffs_from_ok 64 0 w) as (H1 & H2 & H3).
  destruct (Z.eq_dec (ffs_from 64 0 w) 64) as [He|Hne].
  - exfalso. apply Hnz. apply Z.bits_inj'. intros n Hn. rewrite Z.bits_0. destruct (Z.lt_ge_cases n 64); [apply H2; lia|].
    rewrite <-(Z.mod_small w (2 ^ 64)) by lia. apply Z.mod_pow2_bits_high. lia.
  - split_and!; [lia|lia|apply H3; lia|intros; apply H2; lia].
Qed.

Lemma word_bit m p w j : word_at m p = Some w -> 0 <= j < 64 -> bit m (64 * p + j) = Z.testbit w j.
Proof.
  intros Hw Hj. unfold bit, BITS_PER_LONG. replace ((64 * p + j) / 64) with p by (Z.div_mod_to_equations; lia).
  replace ((64 * p + j) mod 64) with j by (Z.div_mod_to_equations; lia). by rewrite Hw.
Qed.

Lemma land_ones_word w mask : 0 <= w < 2 ^ 64 -> 0 <= Z.land w mask < 2 ^ 64.
Proof.
  intros Hw. assert (0 <= Z.land w mask) by (apply Z.land_nonneg; lia). split; [done|].
  destruct (Z.eq_dec (Z.land w mask) 0) as [->|Hnz]; [done|]. apply Z.log2_lt_pow2; [lia|].
  assert (Hb : Z.testbit (Z.land w mask) (Z.log2 (Z.land w mask)) = true) by (apply Z.bit_log2; lia).
  rewrite Z.land_spec in Hb. apply andb_true_iff in Hb as [Hb _].
  revert Hb. generalize (Z.log2 (Z.land w mask)). intros n Hb. destruct (Z.lt_ge_cases n 64); [done|exfalso].
  rewrite <-(Z.mod_small w (2 ^ 64)) in Hb by lia. by rewrite Z.mod_pow2_bits_high in Hb by lia.
Qed.

(** *** The words keep their width *)
Lemma word_bits w : 0 <= w -> (forall j, 64 <= j -> Z.testbit w j = false) -> w < 2 ^ 64.
Proof.
  intros Hw Hb. destruct (Z.eq_dec w 0) as [->|Hnz]; [done|]. apply Z.log2_lt_pow2; [lia|].
  destruct (Z.lt_ge_cases (Z.log2 w) 64) as [|Hge]; [done|]. specialize (Hb _ Hge). rewrite Z.bit_log2 in Hb by lia. done.
Qed.

Lemma word_high w j : 0 <= w < 2 ^ 64 -> 64 <= j -> Z.testbit w j = false.
Proof. intros Hw Hj. rewrite <-(Z.mod_small w (2 ^ 64)) by lia. apply Z.mod_pow2_bits_high. lia. Qed.

Definition fits (f : Z -> Z -> Z) : Prop := forall w mask, 0 <= w < 2 ^ 64 -> 0 <= mask < 2 ^ 64 -> 0 <= f w mask < 2 ^ 64.

Lemma fits_lor : fits Z.lor.
Proof.
  intros w m Hw Hm. assert (0 <= Z.lor w m) by (apply Z.lor_nonneg; lia). split; [done|]. apply word_bits; [done|].
  intros j Hj. by rewrite Z.lor_spec, !word_high.
Qed.

Lemma fits_ldiff : fits Z.ldiff.
Proof.
  intros w m Hw Hm. assert (0 <= Z.ldiff w m) by (apply Z.ldiff_nonneg; lia). split; [done|]. apply word_bits; [done|].
  intros j Hj. by rewrite Z.ldiff_spec, word_high by lia.
Qed.

Lemma one_bit j : 0 <= j < 64 -> 0 <= Z.shiftl 1 j < 2 ^ 64.
Proof. intros Hj. rewrite Z.shiftl_1_l. split; [lia|]. apply Z.pow_lt_mono_r; lia. Qed.

Lemma update_word_words m p f m' :
  update_word m p f = Some m' -> words_ok m -> (forall w, 0 <= w < 2 ^ 64 -> 0 <= f w < 2 ^ 64) -> words_ok m'.
Proof. intros H. by apply update_word_bits in H as (_ & ? & _). Qed.

Lemma set_bit_words k m m' : set_bit k m = Some m' -> words_ok m -> words_ok m'.
Proof.
  intros H Hm. eapply update_word_words; [exact H|done|]. intros w Hw. apply fits_lor; [done|]. apply one_bit, Z.mod_pos_bound. done.
Qed.

Lemma clear_bit_words k m m' : clear_bit k m = Some m' -> words_ok m -> words_ok m'.
Proof.
  intros H Hm. eapply update_word_words; [exact H|done|]. intros w Hw. apply fits_ldiff; [done|]. apply one_bit, Z.mod_pos_bound. done.
Qed.

Lemma range_loop_words f fuel : fits f -> forall map p nr bits mask map' p' nr' mask',
  words_ok map -> 0 <= mask < 2 ^ 64 -> range_loop fuel f map p nr bits mask = Done (map', p', nr', mask') ->
  words_ok map' /\ 0 <= mask' < 2 ^ 64.
Proof.
  intros Hf. induction fuel as [|fuel IH]; intros map p nr bits mask map' p' nr' mask' Hm Hk; cbn [range_loop]; [done|].
  destruct (0 <=? nr - bits); [|by intros [= <- <- <- <-]]. destruct (update_word map p (fun w => f w mask)) as [m1|] eqn:E; [|done].
  apply IH; [|done]. eapply update_word_words; [exact E|done|]. intros w Hw. by apply Hf.
Qed.

Lemma bitmap_range_words f map start nr map' : fits f -> words_ok map -> bitmap_range f map start nr = Done map' -> words_ok map'.
Proof.
  intros Hf Hm. unfold bitmap_range. destruct (range_loop _ _ _ _ _ _ _) as [[[[m1 p1] n1] k1]| |] eqn:E; [|done|done].
  apply (range_loop_words f _ Hf) in E as [H1 H2]; [|done|apply Z.mod_pos_bound; lia]. destruct (n1 =? 0); [by intros [= <-]|].
  destruct (update_word m1 p1 _) as [m2|] eqn:E2; [|done]. intros [= <-]. eapply update_word_words; [exact E2|done|].
  intros w Hw. apply Hf; [done|]. by apply land_ones_word.
Qed.

(** the part of word [p] from bit [off] on, below [off'] *)
Lemma masked_first m p w tmp off off' :
  word_at m p = Some w -> 0 <= w < 2 ^ 64 -> 0 <= off <= off' -> off' <= 64 -> 0 <= tmp < 2 ^ 64 ->
  (forall j, 0 <= j < 64 -> Z.testbit tmp j = Z.testbit w j && ((off <=? j) && (j <? off'))) ->
  if tmp =? 0 then forall n, 64 * p + off <= n < 64 * p + off' -> bit m n = false
  else 0 <= __ffs tmp < off' /\ first_bit m (64 * p + off) (64 * p + off') (64 * p + __ffs tmp).
Proof.
  intros Hw Hwr Ho Ho' Ht Hm.
  assert (Hb : forall n, 64 * p + off <= n < 64 * p + off' -> bit m n = Z.testbit tmp (n - 64 * p)).
  { intros n Hn. replace n with (64 * p + (n - 64 * p)) at 1 by lia. rewrite (word_bit m p w) by (done || lia).
    rewrite Hm by lia. rewrite (proj2 (Z.leb_le _ _)), (proj2 (Z.ltb_lt _ _)) by lia. by rewrite andb_true_r. }
  destruct (Z.eqb_spec tmp 0) as [->|Hnz]; [intros n Hn; rewrite Hb by done; apply Z.bits_0|].
  destruct (ffs_ok tmp Ht Hnz) as (F1 & F2 & F3). pose proof F2 as F2'. rewrite Hm in F2' by done.
  apply andb_true_iff in F2' as [_ F2'']. apply andb_true_iff in F2'' as [G1%Z.leb_le G2%Z.ltb_lt].
  split; [lia|]. split_and!; [lia|lia| |].
  - intros n Hn. rewrite Hb by lia. apply F3. lia.
  - intros _. rewrite Hb by lia. by replace (64 * p + __ffs tmp - 64 * p) with (__ffs tmp) by lia.
Qed.

Lemma found_first_ok m p w tmp off size :
  word_at m p = Some w -> 0 <= w < 2 ^ 64 -> 0 <= off <= size -> 0 < size < 64 -> 0 <= tmp < 2 ^ 64 ->
  (forall j, 0 <= j < 64 -> Z.testbit tmp j = Z.testbit w j && (off <=? j)) ->
  first_bit m (64 * p + off) (64 * p + size) (found_first tmp (64 * p) size).
Proof.
  intros Hw Hwr Ho Hs Ht Hm. unfold found_first, BITS_PER_LONG.
  pose proof (masked_first m p w (Z.land tmp (Z.shiftr ALL_ONES (64 - size))) off size Hw Hwr Ho ltac:(lia) (land_ones_word _ _ Ht)) as HM.
  destruct (Z.eqb_spec (Z.land tmp (Z.shiftr ALL_ONES (64 - size))) 0) as [He|He].
  - split_and!; [lia|lia| |intros; lia]. intros n Hn. apply HM; [|lia]. intros j Hj.
    rewrite Z.land_spec, Hm, Z.shiftr_spec by lia. rewrite <-andb_assoc. do 2 f_equal. change ALL_ONES with (Z.ones 64).
    rewrite Z.testbit_ones_nonneg by lia. apply Bool.eq_iff_eq_true. rewrite !Z.ltb_lt. lia.
  - apply HM. intros j Hj. rewrite Z.land_spec, Hm, Z.shiftr_spec by lia. rewrite <-andb_assoc. do 2 f_equal. change ALL_ONES with (Z.ones 64).
    rewrite Z.testbit_ones_nonneg by lia. apply Bool.eq_iff_eq_true. rewrite !Z.ltb_lt. lia.
Qed.

Lemma first_bit_after m lo mid hi r :
  lo <= mid -> (forall n, lo <= n < mid -> bit m n = false) -> first_bit m mid hi r -> first_bit m lo hi r.
Proof.
  intros Hl Hz (H1 & H2 & H3). split_and!; [lia|lia| |done]. intros n Hn.
  destruct (Z.lt_ge_cases n mid); [apply Hz; lia|apply H2; lia].
Qed.

Lemma first_bit_widen m lo hi hi' r : r < hi -> hi <= hi' -> first_bit m lo hi r -> first_bit m lo hi' r.
Proof. intros Hr Hh (H1 & H2 & H3). split_and!; [lia|lia|done|auto]. Qed.

Lemma ldiff_63 n : 0 <= n -> Z.ldiff n (BITS_PER_LONG - 1) = 64 * (n / 64).
Proof.
  intros Hn. change (BITS_PER_LONG - 1) with (Z.ones 6). rewrite Z.ldiff_ones_r by lia.
  rewrite Z.shiftl_mul_pow2, Z.shiftr_div_pow2 by lia. change (2 ^ 6) with 64. lia.
Qed.

Lemma word_in m p : words_ok m -> 0 <= p < Z.of_nat (length m) -> exists w, word_at m p = Some w /\ 0 <= w < 2 ^ 64.
Proof.
  intros Hok Hp. destruct (word_at_some m p Hp) as [w Hw]. exists w. split; [done|].
  unfold word_at in Hw. destruct (p <? 0); [done|]. by eapply (Forall_lookup_1 _ _ _ _ Hok).
Qed.

Lemma find_loop_ok fuel : forall m p size,
  words_ok m -> 0 <= p -> 0 <= size -> 64 * p + size <= 64 * Z.of_nat (length m) ->
  Z.of_nat (length m) - p < Z.of_nat fuel ->
  exists r, find_loop fuel m p size (64 * p) = Done r /\ first_bit m (64 * p) (64 * p + size) r.
Proof.
  induction fuel as [|fuel IH]; intros m p size Hok Hp Hs Hl Hf; [lia|]. cbn [find_loop]. rewrite ldiff_63 by done.
  destruct (Z.eqb_spec (64 * (size / 64)) 0) as [Hsm|Hbig]; cbn [negb].
  - assert (size < 64) by (Z.div_mod_to_equations; lia). destruct (Z.eqb_spec size 0) as [->|Hnz].
    { eexists. split; [done|]. split_and!; intros; lia. }
    destruct (word_in m p Hok ltac:(lia)) as (w & Hw & Hwr). rewrite Hw. eexists. split; [done|].
    pose proof (found_first_ok m p w w 0 size Hw Hwr) as HF. rewrite Z.add_0_r in HF. apply HF; try lia.
    intros j Hj. rewrite (proj2 (Z.leb_le 0 j)) by lia. by rewrite andb_true_r.
  - assert (64 <= size) by (Z.div_mod_to_equations; lia).
    destruct (word_in m p Hok ltac:(lia)) as (w & Hw & Hwr). rewrite Hw.
    pose proof (masked_first m p w w 0 64 Hw Hwr ltac:(lia) ltac:(lia) Hwr) as HM. rewrite Z.add_0_r in HM.
    assert (Hmask : forall j, 0 <= j < 64 -> Z.testbit w j = Z.testbit w j && ((0 <=? j) && (j <? 64))).
    { intros j Hj. rewrite (proj2 (Z.leb_le 0 j)), (proj2 (Z.ltb_lt j 64)) by lia. by rewrite andb_true_r. }
    specialize (HM Hmask). destruct (Z.eqb_spec w 0) as [Hz|Hz]; cbn [negb].
    + replace (64 * p + BITS_PER_LONG) with (64 * (p + 1)) by (unfold BITS_PER_LONG; lia).
      destruct (IH m (p + 1) (size - BITS_PER_LONG)) as (r & -> & Hr); try done; unfold BITS_PER_LONG; try lia.
      eexists. split; [done|]. apply (first_bit_after _ _ (64 * (p + 1))); [lia|intros; apply HM; lia|].
      by replace (64 * p + size) with (64 * (p + 1) + (size - BITS_PER_LONG)) by (unfold BITS_PER_LONG; lia).
    + destruct HM as [HM1 HM2]. eexists. split; [done|]. apply (first_bit_widen _ _ (64 * p + 64)); [lia|lia|done].
Qed.

Lemma find_next_bit_ok m size offset :
  words_ok m -> 0 <= offset -> 0 <= size <= BITS_PER_LONG * Z.of_nat (length m) ->
  exists r, find_next_bit m size offset = Done r /\
    if offset <=? size then first_bit m offset size r else r = size.
Proof.
  unfold find_next_bit. intros Hok Ho Hs. change BITS_PER_LONG with 64 in Hs. rewrite ldiff_63 by done. change BITS_PER_LONG with 64.
  destruct (Z.leb_spec size offset) as [Hge|Hlt].
  { eexists. split; [done|]. destruct (Z.leb_spec offset size); [|done]. split_and!; intros; lia. }
  rewrite (proj2 (Z.leb_le offset size)) by lia. set (p := offset / 64).
  assert (Hp : offset = 64 * p + offset mod 64) by (apply Z.div_mod; lia).
  assert (Hpm : 0 <= offset mod 64 < 64) by (apply Z.mod_pos_bound; lia).
  assert (Hp0 : 0 <= p) by (apply Z.div_pos; lia).
  destruct (Z.eqb_spec (offset mod 64) 0) as [Hz|Hz]; cbn [negb].
  { destruct (find_loop_ok (S (length m)) m p (size - 64 * p)) as (r & -> & Hr); try done; try lia.
    eexists. split; [done|]. replace (64 * p + (size - 64 * p)) with size in Hr by lia.
    by replace (64 * p) with offset in Hr by lia. }
  destruct (word_in m p Hok ltac:(lia)) as (w & Hw & Hwr). rewrite Hw. set (off := offset mod 64) in *.
  set (tmp := Z.land w (u64 (Z.shiftl ALL_ONES off))).
  assert (Ht : 0 <= tmp < 2 ^ 64) by (by apply land_ones_word).
  assert (Hbits : forall j, 0 <= j < 64 -> Z.testbit tmp j = Z.testbit w j && (off <=? j)).
  { intros j Hj. unfold tmp. rewrite Z.land_spec. f_equal. by apply shifted_ones. }
  unfold BITS_PER_LONG. destruct (Z.ltb_spec (size - 64 * p) 64) as [Hsm|Hbig].
  { eexists. split; [done|]. pose proof (found_first_ok m p w tmp off (size - 64 * p) Hw Hwr ltac:(lia) ltac:(lia) Ht Hbits) as HF.
    replace (64 * p + (size - 64 * p)) with size in HF by lia. by rewrite <-Hp in HF. }
  pose proof (masked_first m p w tmp off 64 Hw Hwr ltac:(lia) ltac:(lia) Ht) as HM. rewrite <-Hp in HM.
  assert (Hb2 : forall j, 0 <= j < 64 -> Z.testbit tmp j = Z.testbit w j && ((off <=? j) && (j <? 64))).
  { intros j Hj. rewrite Hbits, (proj2 (Z.ltb_lt j 64)) by lia. by rewrite andb_true_r. }
  specialize (HM Hb2). destruct (Z.eqb_spec tmp 0) as [Hz0|Hz0]; cbn [negb].
  - replace (64 * p + 64) with (64 * (p + 1)) in * by lia.
    destruct (find_loop_ok (S (length m)) m (p + 1) (size - 64 * p - 64)) as (r & -> & Hr); try done; try lia.
    eexists. split; [done|]. apply (first_bit_after _ _ (64 * (p + 1))); [lia|intros; apply HM; lia|].
    by replace size with (64 * (p + 1) + (size - 64 * p - 64)) by lia.
  - destruct HM as [HM1 HM2]. eexists. split; [done|]. apply (first_bit_widen _ _ (64 * p + 64)); [lia|lia|done].
Qed.

(** the search for the next bit, which walks the map a word at a time with masks for the first and the last
    one, finds the first bit set at or after the offset and below the size, or else returns the size, and stays
    within the map. *)
Theorem find_next_bit_spec m size offset :
  words_ok m -> 0 <= offset -> 0 <= size <= BITS_PER_LONG * Z.of_nat (length m) ->
  exists r, find_next_bit m size offset = Done r /\
    if offset <=? size then first_bit m offset size r else r = size.
Proof. apply find_next_bit_ok. Qed.

Lemma find_next_bit_witness :
  exists r, find_next_bit [0; 32; 0] 150 3 = Done r /\ first_bit [0; 32; 0] 3 150 r.
Proof.
  apply (find_next_bit_spec [0; 32; 0] 150 3); [repeat constructor; lia|lia|vm_compute; split; congruence].
Defined.
End Bitmap.
