(* ===== verification/Vma.v ===== *)
(** * Memory areas and their pages (criu/include/vma.h, criu/include/image.h,
    criu/include/mem.h, images/vma.proto and the predicates of criu/mem.c)

    What the dumper decides about an area from its entry and about a page from its
    entry of /proc/pid/pagemap. *)
From S2P Require Import Prelude.

Module Vma.

(** ** Areas *)
Record VmaEntry := mk_vma {
  v_start : Z;
  v_end : Z;
  v_pgoff : Z;
  v_shmid : Z;
  v_prot : Z;
  v_flags : Z;
  v_status : Z;
}.

(** include/image.h *)
Definition VMA_AREA_REGULAR : Z := Z.shiftl 1 0.
Definition VMA_AREA_VSYSCALL : Z := Z.shiftl 1 2.
Definition VMA_AREA_VDSO : Z := Z.shiftl 1 3.
Definition VMA_FILE_PRIVATE : Z := Z.shiftl 1 6.
Definition VMA_ANON_SHARED : Z := Z.shiftl 1 8.
Definition VMA_ANON_PRIVATE : Z := Z.shiftl 1 9.
Definition VMA_AREA_SYSVIPC : Z := Z.shiftl 1 10.
Definition VMA_AREA_VVAR : Z := Z.shiftl 1 12.
Definition VMA_AREA_AIORING : Z := Z.shiftl 1 13.

(** <sys/mman.h> on x86 *)
Definition PROT_READ : Z := 1.
Definition MAP_PRIVATE : Z := 2.
Definition MAP_ANONYMOUS : Z := 0x20.
Definition MAP_LOCKED : Z := 0x2000.

Definition vma_entry_is (vma : VmaEntry) (s : Z) : bool := Z.land (v_status vma) s =? s.
Definition vma_entry_len (vma : VmaEntry) : Z := u64 (v_end vma - v_start vma).

Definition vma_entry_is_private (e : VmaEntry) (task_size : Z) : bool :=
  (vma_entry_is e VMA_AREA_REGULAR &&
   (vma_entry_is e VMA_ANON_PRIVATE || vma_entry_is e VMA_FILE_PRIVATE) &&
   (v_end e <=? task_size)) ||
  vma_entry_is e VMA_AREA_AIORING.

Definition vma_entry_can_be_lazy (e : VmaEntry) : bool :=
  has (v_flags e) MAP_ANONYMOUS && has (v_flags e) MAP_PRIVATE &&
  negb (has (v_flags e) MAP_LOCKED) &&
  negb (vma_entry_is e VMA_AREA_VDSO) && negb (vma_entry_is e VMA_AREA_VSYSCALL).

(** ** Entries of /proc/pid/pagemap *)
Definition PME_PRESENT : Z := Z.shiftl 1 63.
Definition PME_SWAP : Z := Z.shiftl 1 62.
Definition PME_FILE : Z := Z.shiftl 1 61.
Definition PME_SOFT_DIRTY : Z := Z.shiftl 1 55.
Definition PME_PSHIFT_BITS : Z := 6.
Definition PME_STATUS_BITS : Z := 3.
Definition PME_STATUS_OFFSET : Z := 64 - PME_STATUS_BITS.
Definition PME_PSHIFT_OFFSET : Z := PME_STATUS_OFFSET - PME_PSHIFT_BITS.
Definition PME_PFRAME_MASK : Z := Z.shiftl 1 PME_PSHIFT_OFFSET - 1.

(** What the predicates read besides the page: the frame of the zero page
    ([kdat.zero_page_pfn]), [opts.track_mem] and whether [opts.img_parent] is set. *)
Record page_env := mk_page_env {
  zero_page_pfn : Z;
  track_mem : bool;
  img_parent : bool;
}.

Section Pages.
Variable env : page_env.

Definition page_is_zero (pme : Z) : bool := Z.land pme PME_PFRAME_MASK =? zero_page_pfn env.

Definition page_in_parent (dirty : bool) : bool := track_mem env && img_parent env && negb dirty.

Definition should_dump_page (vmae : VmaEntry) (pme : Z) : bool :=
  if vma_entry_is vmae VMA_AREA_VDSO then true
  else if vma_entry_is vmae VMA_AREA_VVAR then false
  else if vma_entry_is vmae VMA_FILE_PRIVATE && has pme PME_FILE then false
  else if vma_entry_is vmae VMA_AREA_AIORING then true
  else if has pme (Z.lor PME_PRESENT PME_SWAP) && negb (page_is_zero pme) then true
  else false.
End Pages.

End Vma.
