(* ===== verification/AddrSpace.v ===== *)
(** * The address space of a task that is being restored: mmap(2), mremap(2), munmap(2), mprotect(2), madvise(2)

    What the restore code relies on of the kernel.  The state is the contents of memory and, for every byte that is
    mapped, its protection; the answers of the kernel are a parameter. *)
From S2P Require Import Prelude.
From S2P Require Import Vma.

Module AddrSpace.
Export Vma.

Definition PROT_WRITE : Z := 2.
Definition PROT_NONE : Z := 0.
Definition MAP_SHARED : Z := 1.
Definition MAP_FIXED : Z := 0x10.
Definition MAP_GROWSDOWN : Z := 0x100.
Definition MAP_FAILED : Z := 2 ^ 64 - 1.

(** a system call returns the negated error number *)
Definition IS_ERR (r : Z) : bool := 2 ^ 64 - 4095 <=? r.

Record aspace := mk_as { as_mem : Z -> Z; as_prot : Z -> option Z }.

Definition within (lo len a : Z) : bool := (lo <=? a) && (a <? lo + len).

Definition map_at (s : aspace) (addr len prot : Z) (content : Z -> Z) : aspace :=
  mk_as (fun a => if within addr len a then content (a - addr) else as_mem s a)
        (fun a => if within addr len a then Some prot else as_prot s a).
Definition unmap_at (s : aspace) (addr len : Z) : aspace :=
  mk_as (as_mem s) (fun a => if within addr len a then None else as_prot s a).
Definition move_at (s : aspace) (src dst len : Z) : aspace :=
  mk_as (fun a => if within dst len a then as_mem s (src + (a - dst)) else as_mem s a)
        (fun a => if within dst len a then as_prot s (src + (a - dst))
                  else if within src len a then None else as_prot s a).
Definition protect_at (s : aspace) (addr len prot : Z) : aspace :=
  mk_as (as_mem s) (fun a => if within addr len a then (fun _ => prot) <$> as_prot s a else as_prot s a).
Definition set_mem (s : aspace) (m : Z -> Z) : aspace := mk_as m (as_prot s).

(** the answers: [k_mmap t s addr len prot flags], [k_mremap t s src len dst]; [k_content t flags] is what the new mapping
    holds, and [k_dropped t addr] what is read at [addr] after MADV_DONTNEED *)
Class MmKernel := {
  k_mmap : clock -> aspace -> Z -> Z -> Z -> Z -> Z;
  k_content : clock -> Z -> Z -> Z;
  k_mremap : clock -> aspace -> Z -> Z -> Z -> Z;
  k_munmap : clock -> Z -> Z -> Z;
  k_mprotect : clock -> Z -> Z -> Z -> Z;
  k_madvise : clock -> Z -> Z;
  k_dropped : clock -> Z -> Z;
}.

Definition free (s : aspace) (lo len : Z) : Prop := forall a, lo <= a < lo + len -> as_prot s a = None.
Definition mapped (s : aspace) (lo len : Z) : Prop := forall a, lo <= a < lo + len -> is_Some (as_prot s a).

(** What the manual pages promise: with MAP_FIXED the mapping is at the address asked for, else where nothing is
    mapped; an anonymous mapping is filled with zeros. *)
Class MmKernelOk (K : MmKernel) : Prop := {
  mmap_fixed : forall t s a len p f, has f MAP_FIXED = true ->
    k_mmap t s a len p f = a \/ IS_ERR (k_mmap t s a len p f) = true;
  mmap_free : forall t s a len p f, has f MAP_FIXED = false -> IS_ERR (k_mmap t s a len p f) = false ->
    0 <= k_mmap t s a len p f /\ free s (k_mmap t s a len p f) len;
  mremap_fixed : forall t s a len b, k_mremap t s a len b = b \/ IS_ERR (k_mremap t s a len b) = true;
  anonymous_zero : forall t f i, has f MAP_ANONYMOUS = true -> k_content t f i = 0;
}.

(** A kernel that does not refuse what it can do.  Mappings below [TASK_SIZE] leave room for one more of up to that
    size; a hint is followed when there is nothing; mremap refuses areas that overlap. *)
Definition TASK_SIZE : Z := 2 ^ 47.
Definition bounded (s : aspace) : Prop := forall a, is_Some (as_prot s a) -> 0 <= a < TASK_SIZE.

Class MmKernelLive (K : MmKernel) : Prop := {
  mmap_fixed_ok : forall t s a len p f, has f MAP_FIXED = true -> 0 <= a -> a + len <= TASK_SIZE -> k_mmap t s a len p f = a;
  mmap_hint_ok : forall t s a len p f, has f MAP_FIXED = false -> 0 < a -> aligned a -> a + len <= TASK_SIZE -> free s a len ->
    k_mmap t s a len p f = a;
  mmap_any_ok : forall t s len p f, has f MAP_FIXED = false -> bounded s -> 0 <= len <= TASK_SIZE ->
    IS_ERR (k_mmap t s 0 len p f) = false;
  mremap_ok : forall t s a len b, mapped s a len -> (a + len <= b \/ b + len <= a) -> k_mremap t s a len b = b;
  munmap_ok : forall t a len, 0 < len -> k_munmap t a len = 0;
  mprotect_ok : forall t a len p, k_mprotect t a len p = 0;
  madvise_ok : forall t a, k_madvise t a = 0;
}.

Section Calls.
Context {K : MmKernel}.
Definition astate : Type := clock * aspace.

Definition sys_mmap (addr len prot flags : Z) (st : astate) : Z * astate :=
  let (t, s) := st in
  let r := k_mmap t s addr len prot flags in
  (r, (S t, if IS_ERR r then s else map_at s r len prot (k_content t flags))).

(** the library's function *)
Definition mmap (addr len prot flags : Z) (st : astate) : Z * astate :=
  let (r, st) := sys_mmap addr len prot flags st in (if IS_ERR r then MAP_FAILED else r, st).

(** of equal sizes, MREMAP_FIXED | MREMAP_MAYMOVE *)
Definition sys_mremap (src len dst : Z) (st : astate) : Z * astate :=
  let (t, s) := st in
  let r := k_mremap t s src len dst in
  (r, (S t, if IS_ERR r then s else move_at s src r len)).

Definition sys_munmap (addr len : Z) (st : astate) : Z * astate :=
  let (t, s) := st in
  let r := k_munmap t addr len in
  (r, (S t, if r =? 0 then unmap_at s addr len else s)).

Definition sys_mprotect (addr len prot : Z) (st : astate) : Z * astate :=
  let (t, s) := st in
  let r := k_mprotect t addr len prot in
  (r, (S t, if r =? 0 then protect_at s addr len prot else s)).

(** MADV_DONTNEED of a page *)
Definition madvise_dontneed (addr : Z) (st : astate) : Z * astate :=
  let (t, s) := st in
  let r := k_madvise t addr in
  (r, (S t, if r =? 0 then set_mem s (fun a => if within addr PAGE_SIZE a then k_dropped t a else as_mem s a) else s)).
End Calls.

Lemma within_true lo len a : within lo len a = true <-> lo <= a < lo + len.
Proof. unfold within. rewrite andb_true_iff. lia. Qed.
Lemma within_false lo len a : within lo len a = false <-> ~ (lo <= a < lo + len).
Proof. unfold within. rewrite andb_false_iff. lia. Qed.

(** ** An instance *)
Definition is_free (s : aspace) (lo len : Z) : bool :=
  forallb (fun i => bool_decide (as_prot s (lo + Z.of_nat i) = None)) (seq 0 (Z.to_nat len)).

Lemma is_free_ok s lo len : is_free s lo len = true <-> free s lo len.
Proof.
  unfold is_free, free. rewrite forallb_forall. split.
  - intros H a Ha. specialize (H (Z.to_nat (a - lo))). rewrite bool_decide_eq_true in H.
    replace (lo + Z.of_nat (Z.to_nat (a - lo))) with a in H by lia. apply H, in_seq. lia.
  - intros H i Hi%in_seq. apply bool_decide_eq_true, H. lia.
Qed.

Definition demo_mm_kernel : MmKernel := {|
  k_mmap _ s a len p f :=
    if has f MAP_FIXED then a
    else
      let c := if a =? 0 then (if (2 ^ 46 + len <? TASK_SIZE) && is_free s (2 ^ 46) len then 2 ^ 46 else TASK_SIZE) else a in
      if (0 <=? c) && is_free s c len then c else 2 ^ 64 - 12;
  k_content _ _ _ := 0;
  k_mremap _ _ _ _ b := b;
  k_munmap _ _ _ := 0;
  k_mprotect _ _ _ _ := 0;
  k_madvise _ _ := 0;
  k_dropped _ _ := 0;
|}.

#[export] Instance demo_mm_kernel_ok : MmKernelOk demo_mm_kernel.
Proof.
  split; cbn.
  - intros ? ? ? ? ? ? ->. by left.
  - intros ? s a len ? ? ->. cbn zeta. set (c := if a =? 0 then _ else a). destruct ((0 <=? c) && is_free s c len) eqn:E; [|done].
    intros _. apply andb_true_iff in E as [? ?%is_free_ok]. split; [lia|done].
  - by left.
  - done.
Qed.

#[export] Instance demo_mm_kernel_live : MmKernelLive demo_mm_kernel.
Proof.
  split; cbn.
  - by intros ? ? ? ? ? ? ->.
  - intros ? s a len ? ? -> Ha _ Hl Hf. rewrite (proj2 (Z.eqb_neq a 0)), (proj2 (Z.leb_le 0 a)) by lia.
    by rewrite (proj2 (is_free_ok s a len)).
  - intros ? s len ? ? -> Hb Hl. assert (Hfree : is_free s TASK_SIZE len = true).
    { apply is_free_ok. intros a Ha. destruct (as_prot s a) eqn:Ep; [|done]. destruct (Hb a) as [_ Hx]; [by rewrite Ep|]. lia. }
    destruct ((2 ^ 46 + len <? TASK_SIZE) && is_free s (2 ^ 46) len) eqn:El.
    + apply andb_true_iff in El as [_ El]. change (0 =? 0) with true. cbn iota zeta. by rewrite El.
    + change (0 =? 0) with true. cbn iota zeta. by rewrite Hfree.
  - done.
  - done.
  - done.
  - done.
Qed.
End AddrSpace.
