(* ===== verification/PagePipe.v ===== *)
(** * Page pipes (criu/page-pipe.c, criu/include/page-pipe.h)

    A page pipe collects the addresses of the pages of a task that have to be
    dumped, grouped into buffers ([page_pipe_buf]) each of which owns, or shares,
    one pipe of bounded capacity; pages that are found in the parent snapshot are
    collected as holes.  The heap of buffers is explicit ([pp_heap]) because
    [prev[]] aliases buffers of the list [bufs], and every buffer's [iov] points
    into the one array [iovs] of the page pipe. *)
From S2P Require Import Prelude.

Module PagePipe.
Open Scope cmon_scope.

(** ** Constants *)
Definition PAGE_ALLOC_COSTLY_ORDER : Z := 3.
(** [sizeof(struct kernel_pipe_buffer)] on a 64-bit target: 8 + 2*4 + 8 + 4, padded, + 8 *)
Definition sizeof_kernel_pipe_buffer : Z := 40.
Definition PIPE_MAX_SIZE : Z :=
  Z.shiftl 1 PAGE_ALLOC_COSTLY_ORDER * PAGE_SIZE / sizeof_kernel_pipe_buffer.
Definition NR_PIPES_PER_CHUNK : Z := 8.
Definition PPB_LAZY : Z := 1.
Definition PP_HOLE_PARENT : Z := 1.
Definition PP_CHUNK_MODE : Z := 1.
Definition PP_OWN_IOVS : Z := 4.
Definition PP_HOLES_BATCH : Z := 32.

(** ** What the kernel and the allocator answer, call by call *)
Class PipeKernel := {
  k_malloc : clock -> bool;                 (* xmalloc/xrealloc succeed *)
  k_pipe : clock -> option (Z * Z);         (* pipe(2) *)
  k_setpipe : clock -> Z -> Z -> Z;         (* fcntl(fd, F_SETPIPE_SZ, bytes) *)
  k_getpipe : clock -> Z -> Z;              (* fcntl(fd, F_GETPIPE_SZ) *)
}.

(** fcntl(2), F_SETPIPE_SZ: "the actual capacity that was set is returned, which may be
    larger than the one requested"; both calls return an [int].  A pipe holds at least a page. *)
Class PipeKernelOk (K : PipeKernel) : Prop := {
  setpipe_ge : forall t fd sz, 0 <= k_setpipe t fd sz -> sz <= k_setpipe t fd sz;
  setpipe_int : forall t fd sz, k_setpipe t fd sz < 2 ^ 31;
  getpipe_page : forall t fd, PAGE_SIZE <= k_getpipe t fd < 2 ^ 31;
}.

(** ** Data *)
Record page_pipe_buf := mk_ppb {
  p0 : Z; p1 : Z;           (* int p[2] *)
  pipe_size : Z;
  pipe_off : Z;
  pages_in : Z;
  nr_segs : Z;
  ppb_flags : Z;
  ppb_iov : Z;              (* index of [iov[0]] in the page pipe's [iovs] *)
}.

Record page_pipe := mk_pp {
  nr_pipes : Z;
  bufs : list nat;
  free_bufs : list nat;
  prev0 : option nat; prev1 : option nat;     (* prev[PP_PIPE_TYPES] *)
  nr_iovs : Z;
  free_iov : Z;
  iovs : list iovec;
  nr_holes : Z;
  free_hole : Z;
  holes : list iovec;
  hole_flags : list Z;
  pp_flags : Z;
  pp_heap : gmap nat page_pipe_buf;           (* the allocated buffers *)
  pp_next : nat;                              (* next address the allocator returns *)
}.

Definition set_pipe_size (b : page_pipe_buf) (v : Z) : page_pipe_buf :=
  mk_ppb (p0 b) (p1 b) v (pipe_off b) (pages_in b) (nr_segs b) (ppb_flags b) (ppb_iov b).
Definition set_pages_in (b : page_pipe_buf) (v : Z) : page_pipe_buf :=
  mk_ppb (p0 b) (p1 b) (pipe_size b) (pipe_off b) v (nr_segs b) (ppb_flags b) (ppb_iov b).
Definition set_nr_segs (b : page_pipe_buf) (v : Z) : page_pipe_buf :=
  mk_ppb (p0 b) (p1 b) (pipe_size b) (pipe_off b) (pages_in b) v (ppb_flags b) (ppb_iov b).

Definition set_bufs (pp : page_pipe) (l f : list nat) : page_pipe :=
  mk_pp (nr_pipes pp) l f (prev0 pp) (prev1 pp) (nr_iovs pp) (free_iov pp) (iovs pp)
        (nr_holes pp) (free_hole pp) (holes pp) (hole_flags pp) (pp_flags pp)
        (pp_heap pp) (pp_next pp).
Definition set_prev (pp : page_pipe) (a b : option nat) : page_pipe :=
  mk_pp (nr_pipes pp) (bufs pp) (free_bufs pp) a b (nr_iovs pp) (free_iov pp) (iovs pp)
        (nr_holes pp) (free_hole pp) (holes pp) (hole_flags pp) (pp_flags pp)
        (pp_heap pp) (pp_next pp).
Definition set_iovs (pp : page_pipe) (v : list iovec) (fi : Z) : page_pipe :=
  mk_pp (nr_pipes pp) (bufs pp) (free_bufs pp) (prev0 pp) (prev1 pp) (nr_iovs pp) fi v
        (nr_holes pp) (free_hole pp) (holes pp) (hole_flags pp) (pp_flags pp)
        (pp_heap pp) (pp_next pp).
Definition set_holes (pp : page_pipe) (nh fh : Z) (h : list iovec) (hf : list Z) : page_pipe :=
  mk_pp (nr_pipes pp) (bufs pp) (free_bufs pp) (prev0 pp) (prev1 pp) (nr_iovs pp) (free_iov pp)
        (iovs pp) nh fh h hf (pp_flags pp) (pp_heap pp) (pp_next pp).
Definition set_heap (pp : page_pipe) (h : gmap nat page_pipe_buf) (n : nat) : page_pipe :=
  mk_pp (nr_pipes pp) (bufs pp) (free_bufs pp) (prev0 pp) (prev1 pp) (nr_iovs pp) (free_iov pp)
        (iovs pp) (nr_holes pp) (free_hole pp) (holes pp) (hole_flags pp) (pp_flags pp) h n.
Definition set_nr_pipes (pp : page_pipe) (v : Z) : page_pipe :=
  mk_pp v (bufs pp) (free_bufs pp) (prev0 pp) (prev1 pp) (nr_iovs pp) (free_iov pp)
        (iovs pp) (nr_holes pp) (free_hole pp) (holes pp) (hole_flags pp) (pp_flags pp)
        (pp_heap pp) (pp_next pp).

(** ** Operations on iovecs *)

(** The grown iovec, or [None] when the page does not continue it. *)
Definition iov_grow_page (iov : iovec) (addr : Z) : option iovec :=
  if u64 (iov_base iov + iov_len iov) =? addr
  then Some (mk_iovec (iov_base iov) (u64 (iov_len iov + PAGE_SIZE)))
  else None.

Definition iov_init (addr : Z) : iovec := mk_iovec addr PAGE_SIZE.

Section Ops.
Context {K : PipeKernel}.
(** [opts.lazy_pages] *)
Variable lazy_pages : bool.

(** ** Buffers: the state is the clock and the buffer *)
Definition __ppb_resize_pipe (new_size : Z) : M (clock * page_pipe_buf) Z :=
  fun '(t, ppb) =>
    let r := k_setpipe t (p0 ppb) (u64 (new_size * PAGE_SIZE)) in
    if r <? 0 then Done (-1, (S t, ppb))
    else
      let r := u64 r / PAGE_SIZE in
      if r <? pipe_size ppb then Bug
      else Done (0, (S t, set_pipe_size ppb r)).

Definition ppb_resize_pipe : M (clock * page_pipe_buf) Z :=
  fun '(t, ppb) =>
    let new_size := u32 (Z.shiftl (pipe_size ppb) 1) in
    if u32 (pages_in ppb + pipe_off ppb) <? pipe_size ppb then Done (0, (t, ppb))
    else if (PIPE_MAX_SIZE <? new_size) && negb (pipe_size ppb <? PIPE_MAX_SIZE)
    then Done (1, (t, ppb))
    else
      let ppb := if PIPE_MAX_SIZE <? new_size then set_pipe_size ppb PIPE_MAX_SIZE else ppb in
      (r <~ __ppb_resize_pipe new_size ;;
       ret (if r <? 0 then 1 else 0)) (t, ppb).

(** [type] of [pp_prev_ppb] and [pp_update_prev_ppb] *)
Definition prev_type (flags : Z) : bool := has flags PPB_LAZY && lazy_pages.

Definition pp_prev_ppb (pp : page_pipe) (flags : Z) : option nat :=
  if has (pp_flags pp) PP_CHUNK_MODE then None
  else match bufs pp with
       | [] => None
       | _ => if prev_type flags then prev1 pp else prev0 pp
       end.

Definition pp_update_prev_ppb (pp : page_pipe) (id : nat) (flags : Z) : page_pipe :=
  if prev_type flags then set_prev pp (prev0 pp) (Some id)
  else set_prev pp (Some id) (prev1 pp).

(** [list_add_tail(&ppb->l, &pp->bufs)] of a freshly allocated buffer *)
Definition link_ppb (pp : page_pipe) (b : page_pipe_buf) : page_pipe :=
  let id := pp_next pp in
  let pp := set_heap pp (<[id := b]> (pp_heap pp)) (S id) in
  set_bufs pp (bufs pp ++ [id]) (free_bufs pp).

(** [ppb_resize_pipe(prev) == 0], with the effect on [prev] *)
Definition resize_prev (prev : option nat) : M (clock * page_pipe) (option page_pipe_buf) :=
  fun '(t, pp) =>
    match prev with
    | None => Done (None, (t, pp))
    | Some id =>
      match pp_heap pp !! id with
      | None => Bug
      | Some b =>
        match ppb_resize_pipe (t, b) with
        | Done (r, (t, b)) =>
          Done (if r =? 0 then Some b else None,
                (t, set_heap pp (<[id := b]> (pp_heap pp)) (pp_next pp)))
        | Bug => Bug
        | NoFuel => NoFuel
        end
      end
    end.

(** The returned buffer's [pages_in], [nr_segs], [flags] and [iov] are set by [ppb_init]. *)
Definition ppb_alloc (flags : Z) : M (clock * page_pipe) (option nat) :=
  fun '(t, pp) =>
    let prev := pp_prev_ppb pp flags in
    if negb (k_malloc t) then Done (None, (S t, pp))
    else
      (shared <~ resize_prev prev ;;
       fun '(t, pp) =>
         let id := pp_next pp in
         match shared with
         | Some b =>
           let nb := mk_ppb (p0 b) (p1 b) (pipe_size b)
                            (u32 (pages_in b + pipe_off b)) 0 0 0 0 in
           Done (Some id, (t, pp_update_prev_ppb (link_ppb pp nb) id flags))
         | None =>
           match k_pipe t with
           | None => Done (None, (S t, pp))
           | Some (r, w) =>
             let sz := u32 (u64 (k_getpipe (S t) r) / PAGE_SIZE) in
             let nb := mk_ppb r w sz 0 0 0 0 0 in
             let pp := set_nr_pipes pp (u32 (nr_pipes pp + 1)) in
             Done (Some id, (S (S t), pp_update_prev_ppb (link_ppb pp nb) id flags))
           end
         end) (S t, pp).

Definition ppb_init (b : page_pipe_buf) (pages nsegs flags iov : Z) : page_pipe_buf :=
  mk_ppb (p0 b) (p1 b) (pipe_size b) (pipe_off b) pages nsegs flags iov.

(** the tail of [page_pipe_grow], label [out] *)
Definition grow_out (pp : page_pipe) (id : nat) (flags : Z) : res page_pipe :=
  match pp_heap pp !! id with
  | None => Bug
  | Some b =>
    Done (set_heap pp (<[id := ppb_init b 0 0 flags (free_iov pp)]> (pp_heap pp)) (pp_next pp))
  end.

Definition page_pipe_grow (flags : Z) : M (clock * page_pipe) Z :=
  fun '(t, pp) =>
    match free_bufs pp with
    | id :: rest =>
      match grow_out (set_bufs pp (bufs pp ++ [id]) rest) id flags with
      | Done pp => Done (0, (t, pp))
      | Bug => Bug
      | NoFuel => NoFuel
      end
    | [] =>
      if has (pp_flags pp) PP_CHUNK_MODE && (nr_pipes pp =? NR_PIPES_PER_CHUNK)
      then Done (- EAGAIN, (t, pp))
      else
        (o <~ ppb_alloc flags ;;
         fun '(t, pp) =>
           match o with
           | None => Done (-1, (t, pp))
           | Some id =>
             match grow_out pp id flags with
             | Done pp => Done (0, (t, pp))
             | Bug => Bug
             | NoFuel => NoFuel
             end
           end) (t, pp)
    end.

(** [xzalloc]ed page pipe over the array [iovs] *)
Definition empty_page_pipe (nsegs flags : Z) (v : list iovec) : page_pipe :=
  mk_pp 0 [] [] None None nsegs 0 v 0 0 [] [] flags ∅ 0%nat.

(** [iovs = None] is the NULL argument: the array is allocated (its content is
    indeterminate; zeroes here) and owned. *)
Definition create_page_pipe (nsegs : Z) (v : option (list iovec)) (flags : Z) (t : clock)
  : res (option page_pipe * clock) :=
  if negb (k_malloc t) then Done (None, S t)
  else
    match (match v with
           | Some l => Some (l, flags, S t)
           | None => if k_malloc (S t)
                     then Some (replicate (Z.to_nat nsegs) (mk_iovec 0 0),
                                Z.lor flags PP_OWN_IOVS, S (S t))
                     else None
           end) with
    | None => Done (None, S (S t))
    | Some (l, fl, t) =>
      match page_pipe_grow 0 (t, empty_page_pipe nsegs fl l) with
      | Done (r, (t, pp)) => Done (if r =? 0 then Some pp else None, t)
      | Bug => Bug
      | NoFuel => NoFuel
      end
    end.

(** the descriptors closed by [ppb_destroy] *)
Definition ppb_destroy (b : page_pipe_buf) : list Z :=
  if pipe_off b =? 0 then [p0 b; p1 b] else [].

(** the descriptors closed, in order; [None] when a listed buffer is not allocated *)
Definition destroy_page_pipe (pp : page_pipe) : option (list Z) :=
  l ← mapM (fun id => pp_heap pp !! id) (free_bufs pp ++ bufs pp);
  Some (l ≫= ppb_destroy).

(** every buffer is moved to the head of [free_bufs], in list order *)
Definition page_pipe_reinit : M (clock * page_pipe) unit :=
  fun '(t, pp) =>
    if negb (has (pp_flags pp) PP_CHUNK_MODE) then Bug
    else
      let pp := set_bufs pp [] (reverse (bufs pp) ++ free_bufs pp) in
      let pp := set_holes pp (nr_holes pp) 0 (holes pp) (hole_flags pp) in
      (r <~ page_pipe_grow 0 ;; if r =? 0 then ret tt else bug) (t, pp).

(** write [ppb->iov[i]]: out of the array is out of bounds *)
Definition write_iov (pp : page_pipe) (i : Z) (v : iovec) (fi : Z) : option page_pipe :=
  if (0 <=? i) && (i <? Z.of_nat (length (iovs pp)))
  then Some (set_iovs pp (<[Z.to_nat i := v]> (iovs pp)) fi)
  else None.

Definition read_iov (pp : page_pipe) (i : Z) : option iovec :=
  if 0 <=? i then iovs pp !! Z.to_nat i else None.

Definition store_ppb (pp : page_pipe) (id : nat) (b : page_pipe_buf) : page_pipe :=
  set_heap pp (<[id := b]> (pp_heap pp)) (pp_next pp).

(** [try_add_page_to] once the flags agree and the pipe has room *)
Definition ppb_add_page (pp : page_pipe) (id : nat) (ppb : page_pipe_buf) (addr : Z)
  : res page_pipe :=
  let last := ppb_iov ppb + nr_segs ppb - 1 in
  match (if nr_segs ppb =? 0 then None
         else iov ← read_iov pp last; iov_grow_page iov addr) with
  | Some iov =>
    match write_iov pp last iov (free_iov pp) with
    | None => Bug
    | Some pp => Done (store_ppb pp id (set_pages_in ppb (u32 (pages_in ppb + 1))))
    end
  | None =>
    match write_iov pp (ppb_iov ppb + nr_segs ppb) (iov_init addr)
                    (u32 (free_iov pp + 1)) with
    | None => Bug
    | Some pp =>
      if nr_iovs pp <? free_iov pp then Bug
      else
        let ppb := set_nr_segs ppb (u32 (nr_segs ppb + 1)) in
        Done (store_ppb pp id (set_pages_in ppb (u32 (pages_in ppb + 1))))
    end
  end.

Definition try_add_page_to (id : nat) (addr flags : Z) : M (clock * page_pipe) Z :=
  fun '(t, pp) =>
    match pp_heap pp !! id with
    | None => Bug
    | Some ppb =>
      if negb (ppb_flags ppb =? flags) then Done (1, (t, pp))
      else
        match ppb_resize_pipe (t, ppb) with
        | Bug => Bug
        | NoFuel => NoFuel
        | Done (r, (t, ppb)) =>
          if r =? 1 then Done (1, (t, store_ppb pp id ppb))
          else
            match ppb_add_page pp id ppb addr with
            | Done pp => Done (0, (t, pp))
            | Bug => Bug
            | NoFuel => NoFuel
            end
        end
    end.

Definition try_add_page (addr flags : Z) : M (clock * page_pipe) Z :=
  fun '(t, pp) =>
    match list.last (bufs pp) with
    | None => Bug
    | Some id => try_add_page_to id addr flags (t, pp)
    end.

Definition page_pipe_add_page (addr flags : Z) : M (clock * page_pipe) Z :=
  r <~ try_add_page addr flags ;;
  if r <=? 0 then ret r
  else
    r <~ page_pipe_grow flags ;;
    if r <? 0 then ret r
    else
      r <~ try_add_page addr flags ;;
      bug_on (0 <? r) ;;; ret r.

(** the two reallocs of [page_pipe_add_hole]; new slots are indeterminate *)
Definition grow_holes : M (clock * page_pipe) Z :=
  fun '(t, pp) =>
    if nr_holes pp <=? free_hole pp then
      let pad {A} (d : A) (l : list A) :=
          l ++ replicate (Z.to_nat (nr_holes pp + PP_HOLES_BATCH) - length l) d in
      if negb (k_malloc t) then Done (-1, (S t, pp))
      else
        let pp1 := set_holes pp (nr_holes pp) (free_hole pp)
                             (pad (mk_iovec 0 0) (holes pp)) (hole_flags pp) in
        if negb (k_malloc (S t)) then Done (-1, (S (S t), pp1))
        else
          Done (0, (S (S t),
                    set_holes pp1 (u32 (nr_holes pp + PP_HOLES_BATCH)) (free_hole pp)
                              (holes pp1) (pad 0 (hole_flags pp))))
    else Done (0, (t, pp)).

Definition page_pipe_add_hole (addr flags : Z) : M (clock * page_pipe) Z :=
  r <~ grow_holes ;;
  if negb (r =? 0) then ret r
  else
    fun '(t, pp) =>
      let n := Z.to_nat (free_hole pp) in
      let grown :=
          if free_hole pp =? 0 then None
          else f ← hole_flags pp !! (n - 1)%nat;
               if f =? flags
               then h ← holes pp !! (n - 1)%nat; iov_grow_page h addr
               else None in
      match grown with
      | Some h =>
        Done (0, (t, set_holes pp (nr_holes pp) (free_hole pp)
                               (<[(n - 1)%nat := h]> (holes pp)) (hole_flags pp)))
      | None =>
        if (n <? length (holes pp))%nat && (n <? length (hole_flags pp))%nat then
          Done (0, (t, set_holes pp (nr_holes pp) (u32 (free_hole pp + 1))
                                 (<[n := iov_init addr]> (holes pp))
                                 (<[n := flags]> (hole_flags pp))))
        else Bug
      end.


(** the inner loop of [get_ppb]: the iovec that contains [addr] and the bytes before it *)
Fixpoint find_seg (l : list iovec) (addr len : Z) : option (iovec * Z) :=
  match l with
  | [] => None
  | iov :: l =>
    let base := iov_base iov in
    if (addr <? base) || (u64 (base + iov_len iov) <=? addr)
    then find_seg l addr (u64 (len + iov_len iov))
    else Some (iov, u64 (len + (addr - base)))
  end.

(** the iovecs of a buffer as the loops over [nr_segs] see them *)
Definition segs (pp : page_pipe) (b : page_pipe_buf) : list iovec :=
  take (Z.to_nat (nr_segs b)) (drop (Z.to_nat (ppb_iov b)) (iovs pp)).

Fixpoint find_ppb (pp : page_pipe) (l : list nat) (addr : Z)
  : option (nat * page_pipe_buf * iovec * Z) :=
  match l with
  | [] => None
  | id :: l =>
    match pp_heap pp !! id with
    | None => None
    | Some b =>
      match find_seg (segs pp b) addr 0 with
      | Some (iov, len) => Some (id, b, iov, len)
      | None => find_ppb pp l addr
      end
    end
  end.

(** the buffer found becomes the first of the list *)
Definition get_ppb (pp : page_pipe) (addr : Z)
  : option (nat * page_pipe_buf * iovec * Z) * page_pipe :=
  match find_ppb pp (bufs pp) addr with
  | None => (None, pp)
  | Some (id, b, iov, len) =>
    (Some (id, b, iov, len),
     set_bufs pp (id :: filter (fun i => i <> id) (bufs pp)) (free_bufs pp))
  end.

(** The result, the number of pages left in [*nr_pages], and the bytes of the pipe
    of [ppb] that are left in [prd] (from, to), if the data was teed. *)
Definition page_pipe_read (tee splice : Z -> Z) (pp : page_pipe) (addr nr_pages flags : Z)
  : Z * Z * option (Z * Z * Z) * page_pipe :=
  match get_ppb pp addr with
  | (None, pp) => (0, 0, None, pp)
  | (Some (id, ppb, iov, skip), pp) =>
    if negb (has (ppb_flags ppb) flags) then (0, nr_pages, None, pp)
    else
      let len := Z.min (u64 (iov_base iov + iov_len iov - addr)) (u64 (nr_pages * PAGE_SIZE)) in
      let nr_pages := u32 (len / PAGE_SIZE) in
      let skip := u64 (skip + u64 (pipe_off ppb * PAGE_SIZE)) in
      let len := u64 (len + skip) in
      if negb (u64 (tee len) =? len) then (-1, nr_pages, None, pp)
      else if negb (u64 (splice skip) =? skip) then (-1, nr_pages, Some (p0 ppb, 0, len), pp)
      else (0, nr_pages, Some (p0 ppb, skip, len), pp)
  end.

(** [list_del] and the descriptors closed *)
Definition page_pipe_destroy_ppb (pp : page_pipe) (id : nat) : option (list Z * page_pipe) :=
  b ← pp_heap pp !! id;
  Some (ppb_destroy b,
        set_heap (set_bufs pp (filter (fun i => i <> id) (bufs pp)) (free_bufs pp))
                 (delete id (pp_heap pp)) (pp_next pp)).

(** ** What a page pipe holds *)

Definition buf_pages (pp : page_pipe) (id : nat) : list (Z * Z) :=
  match pp_heap pp !! id with
  | Some b => (fun a => (a, ppb_flags b)) <$> (segs pp b ≫= iov_pages)
  | None => []
  end.

(** the pages recorded, in the order in which they are transferred, with the
    flags of their buffer *)
Definition pp_pages (pp : page_pipe) : list (Z * Z) := bufs pp ≫= buf_pages pp.

(** the buffer fits its pipe *)
Definition cap_ok (b : page_pipe_buf) : Prop :=
  0 <= pages_in b /\ 0 <= pipe_off b < pipe_size b /\ pipe_size b < 2 ^ 31 /\
  pages_in b + pipe_off b <= pipe_size b.

Definition buf_ok (pp : page_pipe) (b : page_pipe_buf) : Prop :=
  0 <= nr_segs b /\ 0 <= ppb_iov b /\ ppb_iov b + nr_segs b <= free_iov pp /\
  Forall iov_ok (segs pp b) /\
  pages_in b = Z.of_nat (length (segs pp b ≫= iov_pages)) /\
  cap_ok b.

Record wf (pp : page_pipe) : Prop := {
  wf_alloc : forall id, id ∈ bufs pp ++ free_bufs pp ->
               is_Some (pp_heap pp !! id) /\ (id < pp_next pp)%nat;
  wf_nodup : NoDup (bufs pp ++ free_bufs pp);
  wf_len : Z.of_nat (length (iovs pp)) = nr_iovs pp /\
           0 <= free_iov pp <= nr_iovs pp /\ nr_iovs pp < 2 ^ 32;
  wf_bufs : forall id b, id ∈ bufs pp -> pp_heap pp !! id = Some b -> buf_ok pp b;
  wf_tail : forall l id b, bufs pp = l ++ [id] -> pp_heap pp !! id = Some b ->
              ppb_iov b + nr_segs b = free_iov pp /\
              forall id' b', id' ∈ l -> pp_heap pp !! id' = Some b' ->
                ppb_iov b' + nr_segs b' <= ppb_iov b;
  wf_free : forall id b, id ∈ free_bufs pp -> pp_heap pp !! id = Some b ->
              0 <= pipe_off b < pipe_size b /\ pipe_size b < 2 ^ 31;
  wf_prev : forall id, prev0 pp = Some id \/ prev1 pp = Some id ->
              id ∈ bufs pp ++ free_bufs pp;
  wf_chunk : has (pp_flags pp) PP_CHUNK_MODE = false -> free_bufs pp = [];
}.

Lemma pp_page_max : PIPE_MAX_SIZE = 819.
Proof. reflexivity. Qed.

Lemma ppb_resize_spec `{!PipeKernelOk K} t b :
  cap_ok b ->
  exists r t' sz,
    ppb_resize_pipe (t, b) = Done (r, (t', set_pipe_size b sz)) /\
    pipe_size b <= sz < 2 ^ 31 /\
    (r = 0 /\ pages_in b + pipe_off b < sz \/ r = 1 /\ pipe_size b <= pages_in b + pipe_off b).
Proof.
  intros (Hp & Ho & Hs & Hc). unfold ppb_resize_pipe.
  rewrite u32_id, Z.shiftl_mul_pow2, u32_id by lia.
  rewrite pp_page_max. change (2 ^ 1) with 2.
  assert (b = set_pipe_size b (pipe_size b)) as Heq by (by destruct b).
  destruct (Z.ltb_spec (pages_in b + pipe_off b) (pipe_size b)) as [Hlt|Hge].
  { exists 0, t, (pipe_size b). rewrite <-Heq. split_and!; [done|lia|lia|left; lia]. }
  destruct (Z.ltb_spec 819 (pipe_size b * 2)) as [Hm|Hm];
  destruct (Z.ltb_spec (pipe_size b) 819) as [Hm'|Hm']; simpl;
    try (exists 1, t, (pipe_size b); rewrite <-Heq; split_and!; [done|lia|lia|right; lia]).
  all: unfold bind, __ppb_resize_pipe; simpl; try lia.
  all: rewrite (u64_id (pipe_size b * 2 * PAGE_SIZE)) by (unfold PAGE_SIZE; lia).
  all: set (q := k_setpipe t (p0 b) (pipe_size b * 2 * PAGE_SIZE)).
  all: pose proof (setpipe_ge t (p0 b) (pipe_size b * 2 * PAGE_SIZE)) as Hge'.
  all: pose proof (setpipe_int t (p0 b) (pipe_size b * 2 * PAGE_SIZE)) as Hint.
  all: fold q in Hge', Hint.
  all: destruct (Z.ltb_spec q 0) as [Hq|Hq].
  - exists 1, (S t), 819. simpl. split_and!; [done|lia|lia|right; lia].
  - rewrite (u64_id q) by lia. specialize (Hge' Hq). unfold PAGE_SIZE in *.
    destruct (Z.ltb_spec (q / 4096) 819); [Z.div_mod_to_equations; lia|].
    exists 0, (S t), (q / 4096). simpl. split_and!; [done|lia| |left]; Z.div_mod_to_equations; lia.
  - exists 1, (S t), (pipe_size b). rewrite <-Heq. simpl. split_and!; [done|lia|lia|right; lia].
  - rewrite (u64_id q) by lia. specialize (Hge' Hq). unfold PAGE_SIZE in *.
    destruct (Z.ltb_spec (q / 4096) (pipe_size b)); [Z.div_mod_to_equations; lia|].
    exists 0, (S t), (q / 4096). simpl.
    split_and!; [done| | |left]; Z.div_mod_to_equations; lia.
Qed.

(** A buffer whose pipe size alone was raised. *)
Lemma wf_raise pp id b sz :
  wf pp -> id ∈ bufs pp -> pp_heap pp !! id = Some b ->
  pipe_size b <= sz < 2 ^ 31 ->
  let pp' := store_ppb pp id (set_pipe_size b sz) in
  wf pp' /\ pp_pages pp' = pp_pages pp.
Proof.
  intros W Hin Hb Hsz pp'. split.
  - destruct W. constructor; simpl; try done.
    + intros i Hi. destruct (wf_alloc0 i Hi) as [? ?]. split; [|done].
      destruct (decide (i = id)) as [->|]; simplify_map_eq; done.
    + intros i b' Hi Hl. apply lookup_insert_Some in Hl as [[<- <-]|[Hne Hl]].
      * destruct (wf_bufs0 _ _ Hin Hb) as (?&?&?&?&?&?&?&?&?).
        unfold buf_ok, cap_ok, segs in *. simpl. split_and!; try done; lia.
      * by apply (wf_bufs0 _ _ Hi Hl).
    + intros l i b' Hl Hi.
      assert (exists b0, pp_heap pp !! i = Some b0 /\ ppb_iov b0 = ppb_iov b' /\ nr_segs b0 = nr_segs b')
        as (b0 & H0 & H1 & H2).
      { apply lookup_insert_Some in Hi as [[<- <-]|[Hne Hi]]; eauto. }
      rewrite <-H1, <-H2. destruct (wf_tail0 l i b0 Hl H0) as [HA HB]. split; [done|].
      intros i' b'' Hi' Hl'. apply lookup_insert_Some in Hl' as [[<- <-]|[Hne Hl']]; simpl; eauto.
    + intros i b' Hi Hl. apply lookup_insert_Some in Hl as [[<- <-]|[Hne Hl]].
      * apply list.NoDup_app in wf_nodup0 as (_ & Hd & _). exfalso. by eapply Hd.
      * eauto.
  - unfold pp_pages. simpl. apply bind_ext_in. intros i Hi.
    unfold buf_pages. simpl. destruct (decide (i = id)) as [->|].
    + by rewrite lookup_insert_eq, Hb.
    + by rewrite lookup_insert_ne.
Qed.

(** Replacing the iovecs and one buffer: only the last buffer of the list moves. *)
Lemma wf_extend_last pp l id b b' v fi :
  wf pp -> bufs pp = l ++ [id] -> pp_heap pp !! id = Some b ->
  length v = length (iovs pp) -> free_iov pp <= fi <= nr_iovs pp ->
  ppb_iov b' = ppb_iov b -> ppb_iov b' + nr_segs b' = fi ->
  (forall j k, Z.of_nat (j + k) <= ppb_iov b -> take k (drop j v) = take k (drop j (iovs pp))) ->
  buf_ok (set_iovs pp v fi) b' ->
  wf (store_ppb (set_iovs pp v fi) id b') /\
  pp_pages (store_ppb (set_iovs pp v fi) id b') =
    (l ≫= buf_pages pp) ++
    ((fun a => (a, ppb_flags b')) <$> (segs (set_iovs pp v fi) b' ≫= iov_pages)).
Proof.
  intros W Hl Hb Hlen Hfi Hiov Hend Hsame Hok.
  destruct (wf_tail pp W _ _ _ Hl Hb) as [Htl Hsep].
  assert (Hnl : id ∉ l).
  { pose proof (wf_nodup pp W) as Hnd. rewrite Hl in Hnd.
    apply list.NoDup_app in Hnd as [Hnd _]. apply list.NoDup_app in Hnd as (_ & Hd & _).
    intros ?. eapply Hd; [done|set_solver]. }
  assert (Hsegs : forall i c, i ∈ l -> pp_heap pp !! i = Some c ->
             segs (set_iovs pp v fi) c = segs pp c).
  { intros i c Hi Hc. unfold segs. simpl. apply Hsame.
    pose proof (Hsep _ _ Hi Hc).
    destruct (wf_bufs pp W i c) as (?&?&_); [rewrite Hl; set_solver|done|lia]. }
  split.
  - destruct W. constructor; simpl; try done.
    + intros i Hi. destruct (wf_alloc0 i Hi) as [? ?]. split; [|done].
      destruct (decide (i = id)) as [->|]; simplify_map_eq; done.
    + rewrite Hlen. lia.
    + intros i c Hi Hc. apply lookup_insert_Some in Hc as [[<- <-]|[Hne Hc]]; [done|].
      assert (i ∈ l) by (rewrite Hl in Hi; set_solver).
      specialize (Hsegs i c H Hc). destruct (wf_bufs0 i c Hi Hc) as (?&?&?&?&?&?).
      unfold buf_ok, segs in *. simpl in *. rewrite Hsegs. split_and!; try done; lia.
    + intros l' i c Hl' Hc. rewrite Hl in Hl'. apply app_inj_tail in Hl' as [<- <-].
      rewrite lookup_insert_eq in Hc. injection Hc as <-.
      split; [done|]. intros i' c' Hi' Hc'.
      rewrite lookup_insert_ne in Hc' by (intros ->; done).
      specialize (Hsep _ _ Hi' Hc'). lia.
    + intros i c Hi Hc. apply lookup_insert_Some in Hc as [[<- <-]|[Hne Hc]]; [|eauto].
      exfalso. apply list.NoDup_app in wf_nodup0 as (_ & Hd & _).
      eapply Hd; [|done]. rewrite Hl. set_solver.
  - unfold pp_pages. simpl. rewrite Hl, bind_app. simpl. f_equal.
    + apply bind_ext_in. intros i Hi. unfold buf_pages. simpl.
      rewrite lookup_insert_ne by (intros ->; done).
      destruct (pp_heap pp !! i) as [c|] eqn:Hc; [|done].
      specialize (Hsegs i c Hi Hc). unfold segs in *. simpl in *. by rewrite Hsegs.
    + unfold buf_pages. simpl. rewrite lookup_insert_eq, app_nil_r. done.
Qed.
Lemma iov_grow_page_spec v a :
  iov_ok v -> addr_ok a ->
  match iov_grow_page v a with
  | Some v' => iov_ok v' /\ iov_pages v' = iov_pages v ++ [a]
  | None => True
  end.
Proof.
  intros (Hb & Hl & Hs & Ab & Al) (Ha & Ha' & Aa). unfold iov_grow_page.
  rewrite u64_id by lia. destruct (Z.eqb_spec (iov_base v + iov_len v) a) as [<-|]; [|done].
  rewrite u64_id by plia. destruct v as [b n]. simpl in *. split.
  - unfold iov_ok. simpl. unfold PAGE_SIZE in *. split_and!; try lia; auto with pages.
  - apply iov_pages_grow; [lia|done].
Qed.

Lemma bind_iov_init addr : [iov_init addr] ≫= iov_pages = [addr].
Proof.
  change (iov_pages (mk_iovec addr PAGE_SIZE) ++ [] = [addr]).
  by rewrite app_nil_r, iov_pages_single.
Qed.

Lemma ppb_add_page_spec pp l id b addr :
  wf pp -> bufs pp = l ++ [id] -> pp_heap pp !! id = Some b ->
  pages_in b + pipe_off b < pipe_size b -> addr_ok addr -> free_iov pp < nr_iovs pp ->
  exists pp',
    ppb_add_page pp id b addr = Done pp' /\ wf pp' /\
    pp_pages pp' = pp_pages pp ++ [(addr, ppb_flags b)] /\
    free_iov pp' <= free_iov pp + 1 /\ nr_iovs pp' = nr_iovs pp /\ bufs pp' = bufs pp.
Proof.
  intros W Hl Hb Hcap Ha Hfree.
  assert (Hin : id ∈ bufs pp) by (rewrite Hl; set_solver).
  destruct (wf_bufs pp W id b Hin Hb) as (Hn & Hi & Hend & Hiovs & Hpg & Hc).
  destruct Hc as (Hc1 & Hc2 & Hc3 & Hc4).
  destruct (wf_tail pp W _ _ _ Hl Hb) as [Htl _].
  destruct (wf_len pp W) as (Hlen & Hfi & Hmax).
  assert (Hpages : pp_pages pp = (l ≫= buf_pages pp) ++
            ((fun a => (a, ppb_flags b)) <$> (segs pp b ≫= iov_pages))).
  { unfold pp_pages. rewrite Hl, bind_app. simpl. unfold buf_pages at 2.
    by rewrite Hb, app_nil_r. }
  unfold ppb_add_page.
  destruct (nr_segs b =? 0) eqn:E0; [|
    destruct (read_iov pp (ppb_iov b + nr_segs b - 1)) as [v|] eqn:Ev; simpl].
  2: destruct (iov_grow_page v addr) as [v'|] eqn:Eg.
  (* the page continues the last iovec *)
  2: {
    unfold write_iov. rewrite (proj2 (andb_true_iff _ _)) by lia. simpl.
    apply Z.eqb_neq in E0. unfold read_iov in Ev. rewrite (proj2 (Z.leb_le _ _)) in Ev by lia.
    set (n := Z.to_nat (nr_segs b - 1)). set (i := Z.to_nat (ppb_iov b)).
    assert (Hidx : Z.to_nat (ppb_iov b + nr_segs b - 1) = (i + n)%nat) by lia.
    assert (Hns : Z.to_nat (nr_segs b) = S n) by lia.
    rewrite Hidx in *.
    assert (Hsegs : segs pp b = take n (drop i (iovs pp)) ++ [v]).
    { unfold segs. rewrite Hns. fold i. by apply take_drop_snoc. }
    assert (Hlt : (i + n < length (iovs pp))%nat) by lia.
    assert (Hvok : iov_ok v) by (rewrite Hsegs in Hiovs; by apply Forall_snoc in Hiovs as [_ ?]).
    pose proof (iov_grow_page_spec v addr Hvok Ha) as Hg. rewrite Eg in Hg. destruct Hg as [Hv' Hp'].
    assert (Hsegs' : segs (set_iovs pp (<[(i + n)%nat:=v']> (iovs pp)) (free_iov pp))
                          (set_pages_in b (u32 (pages_in b + 1))) = take n (drop i (iovs pp)) ++ [v']).
    { unfold segs. simpl. rewrite Hns. fold i. rewrite (take_drop_snoc _ _ _ v').
      - by rewrite take_drop_insert_ge by lia.
      - by apply list_lookup_insert_eq. }
    edestruct (wf_extend_last pp l id b (set_pages_in b (u32 (pages_in b + 1)))
                 (<[(i + n)%nat:=v']> (iovs pp)) (free_iov pp)) as [W' HP]; try done.
    - by rewrite length_insert.
    - lia.
    - intros j k Hjk. apply take_drop_insert_ge. lia.
    - rewrite u32_id by lia. unfold buf_ok, cap_ok. simpl.
      rewrite u32_id in Hsegs' by lia. rewrite Hsegs'.
      rewrite Hsegs in Hiovs. apply Forall_snoc in Hiovs as [Hf _].
      split_and!; try lia; try done.
      + by apply Forall_snoc.
      + rewrite Hpg, Hsegs, !bind_app, !length_app. simpl. rewrite !app_nil_r, Hp', length_app. simpl. lia.
    - eexists. split; [done|]. split; [exact W'|]. split; [|simpl; split_and!; [lia|done|done]].
      rewrite HP, Hpages, Hsegs', Hsegs, !bind_app. simpl. rewrite !app_nil_r, Hp'.
      rewrite !fmap_app. simpl. by rewrite <-!app_assoc. }
  (* the page starts an iovec *)
  all: match goal with |- context [write_iov _ ?k _ _] => assert (0 <= k < nr_iovs pp) by lia end.
  all: unfold write_iov; rewrite (proj2 (andb_true_iff _ _)) by lia; simpl.
  all: rewrite (u32_id (free_iov pp + 1)) by lia.
  all: rewrite (proj2 (Z.ltb_ge _ _)) by lia.
  all: set (n := Z.to_nat (nr_segs b)); set (i := Z.to_nat (ppb_iov b)).
  all: replace (Z.to_nat (ppb_iov b + nr_segs b)) with (i + n)%nat by lia.
  all: set (b' := set_pages_in _ _).
  all: assert (Hsegs' : segs (set_iovs pp (<[(i + n)%nat:=iov_init addr]> (iovs pp)) (free_iov pp + 1)) b'
            = segs pp b ++ [iov_init addr])
    by (unfold segs, b'; simpl; rewrite u32_id by lia;
        replace (Z.to_nat (nr_segs b + 1)) with (S n) by lia; fold i n;
        rewrite (take_drop_snoc _ _ _ (iov_init addr)) by (apply list_lookup_insert_eq; lia);
        by rewrite take_drop_insert_ge by lia).
  all: assert (Hnew : iov_ok (iov_init addr))
    by (destruct Ha as (?&?&?); unfold iov_ok, iov_init; simpl; unfold PAGE_SIZE in *;
        split_and!; try lia; auto with pages).
  all: edestruct (wf_extend_last pp l id b b' (<[(i + n)%nat:=iov_init addr]> (iovs pp)) (free_iov pp + 1))
    as [W' HP]; try done;
    [by rewrite length_insert | lia | unfold b'; simpl; rewrite u32_id by lia; lia
     | intros j k Hjk; apply take_drop_insert_ge; lia
     | unfold buf_ok; rewrite Hsegs'; unfold b', cap_ok; simpl; rewrite !u32_id by lia;
       split_and!; try lia; try done;
       [by apply Forall_snoc
       |rewrite Hpg, bind_app, bind_iov_init, length_app; simpl; lia]
     |].
  all: eexists; split; [done|]; split; [exact W'|]; split; [|simpl; split_and!; [lia|done|done]].
  all: rewrite HP, Hpages, Hsegs', bind_app, bind_iov_init, fmap_app; simpl;
    by rewrite <-!app_assoc.
Qed.

(** Appending an empty buffer to the list. *)
Lemma wf_push pp pp' id b :
  wf pp ->
  bufs pp' = bufs pp ++ [id] -> pp_heap pp' = <[id := b]> (pp_heap pp) ->
  NoDup (bufs pp' ++ free_bufs pp') -> (id < pp_next pp')%nat ->
  (forall i, i ∈ free_bufs pp' -> i ∈ free_bufs pp) ->
  (forall i, i ∈ bufs pp ++ free_bufs pp -> i ∈ bufs pp' ++ free_bufs pp') ->
  (pp_next pp <= pp_next pp')%nat ->
  iovs pp' = iovs pp -> free_iov pp' = free_iov pp -> nr_iovs pp' = nr_iovs pp ->
  pp_flags pp' = pp_flags pp ->
  (forall i, prev0 pp' = Some i \/ prev1 pp' = Some i ->
     i = id \/ prev0 pp = Some i \/ prev1 pp = Some i) ->
  pages_in b = 0 -> nr_segs b = 0 -> ppb_iov b = free_iov pp ->
  0 <= pipe_off b < pipe_size b -> pipe_size b < 2 ^ 31 ->
  wf pp' /\ pp_pages pp' = pp_pages pp.
Proof.
  intros W Hb Hh Hnd Hid Hfr Hin Hnx Hio Hfi Hni Hfl Hpv Hp Hs Hi Hc1 Hc2.
  pose proof Hnd as Hnd'. rewrite Hb in Hnd'.
  apply list.NoDup_app in Hnd' as (Hnd1 & Hd2 & _).
  apply list.NoDup_app in Hnd1 as (_ & Hd1 & _).
  assert (Hne : forall i, i ∈ bufs pp -> i <> id) by (intros i Hi' ->; apply (Hd1 id Hi'), list_elem_of_here).
  assert (Hnf : forall i, i ∈ free_bufs pp' -> i <> id) by (intros i Hi' ->; apply (Hd2 id); [|done]; rewrite elem_of_app; right; apply list_elem_of_here).
  assert (Hsegs : forall c, segs pp' c = segs pp c) by (intros c; unfold segs; by rewrite Hio).
  destruct W. split.
  - constructor.
    + intros i Hi'. rewrite Hh. destruct (decide (i = id)) as [->|Hx].
      * rewrite lookup_insert_eq. eauto.
      * rewrite lookup_insert_ne by done. rewrite Hb in Hi'.
        destruct (wf_alloc0 i) as [? ?]; [|split; [done|lia]].
        rewrite !elem_of_app, list_elem_of_singleton in Hi'.
        rewrite elem_of_app. destruct Hi' as [[?|?]|?]; [by left|done|right; by apply Hfr].
    + done.
    + rewrite Hio, Hni, Hfi. done.
    + intros i c Hi' Hc. rewrite Hh in Hc. unfold buf_ok. rewrite Hsegs, Hfi.
      apply lookup_insert_Some in Hc as [[<- <-]|[Hx Hc]].
      * unfold segs, cap_ok. rewrite Hs. simpl. split_and!; try lia. apply Forall_nil_2.
      * apply (wf_bufs0 i c); [|done].
        rewrite Hb, elem_of_app, list_elem_of_singleton in Hi'. by destruct Hi' as [?|<-].
    + intros l i c Hl Hc. rewrite Hb in Hl. apply app_inj_tail in Hl as [<- <-].
      rewrite Hh, lookup_insert_eq in Hc. injection Hc as <-. rewrite Hfi. split; [lia|].
      intros i' c' Hi' Hc'. rewrite Hh, lookup_insert_ne in Hc' by (by apply not_eq_sym, Hne).
      destruct (wf_bufs0 i' c' Hi' Hc') as (?&?&?&_). lia.
    + intros i c Hi' Hc. rewrite Hh, lookup_insert_ne in Hc by (by apply not_eq_sym, Hnf). eauto.
    + intros i Hi'. destruct (Hpv i Hi') as [->|Hx]; [|by auto].
      rewrite Hb, !elem_of_app, list_elem_of_singleton. auto.
    + rewrite Hfl. intros Hx. specialize (wf_chunk0 Hx). destruct (free_bufs pp') as [|i r] eqn:E; [done|].
      exfalso. specialize (Hfr i). rewrite wf_chunk0 in Hfr.
      by eapply elem_of_nil, Hfr, list_elem_of_here.
  - unfold pp_pages. rewrite Hb, bind_app. simpl. unfold buf_pages at 2.
    rewrite Hh, lookup_insert_eq. unfold segs. rewrite Hs. simpl. rewrite !app_nil_r.
    apply bind_ext_in. intros i Hi'. unfold buf_pages.
    rewrite Hh, lookup_insert_ne by (by apply not_eq_sym, Hne).
    destruct (pp_heap pp !! i); [|done]. by rewrite Hsegs.
Qed.

(** what [page_pipe_grow] leaves: same contents, and an empty last buffer with room *)
Definition grown (pp' : page_pipe) (flags : Z) : Prop :=
  exists l id b, bufs pp' = l ++ [id] /\ pp_heap pp' !! id = Some b /\
    ppb_flags b = flags /\ pages_in b = 0 /\ pipe_off b < pipe_size b.

Definition same_iovs (pp pp' : page_pipe) : Prop :=
  free_iov pp' = free_iov pp /\ nr_iovs pp' = nr_iovs pp /\ (bufs pp <> [] -> bufs pp' <> []).

Lemma pp_prev_in pp flags id :
  wf pp -> pp_prev_ppb pp flags = Some id -> id ∈ bufs pp.
Proof.
  intros W. unfold pp_prev_ppb.
  destruct (has (pp_flags pp) PP_CHUNK_MODE) eqn:E; [done|].
  pose proof (wf_prev pp W id) as Hp. rewrite (wf_chunk pp W E), app_nil_r in Hp.
  destruct (bufs pp); [done|]. destruct (prev_type flags); auto.
Qed.

Lemma resize_prev_spec `{!PipeKernelOk K} t pp flags :
  wf pp ->
  exists o t' pp',
    resize_prev (pp_prev_ppb pp flags) (t, pp) = Done (o, (t', pp')) /\
    wf pp' /\ pp_pages pp' = pp_pages pp /\ same_iovs pp pp' /\
    (forall b, o = Some b -> cap_ok b /\ pages_in b + pipe_off b < pipe_size b).
Proof.
  intros W. unfold resize_prev.
  destruct (pp_prev_ppb pp flags) as [id|] eqn:E.
  2: { exists None, t, pp. split_and!; done. }
  pose proof (pp_prev_in pp flags id W E) as Hin.
  destruct (wf_alloc pp W id) as [[b Hb] _]; [rewrite elem_of_app; by left|]. rewrite Hb.
  destruct (wf_bufs pp W id b Hin Hb) as (_&_&_&_&_&Hc).
  destruct (ppb_resize_spec t b Hc) as (r & t' & sz & -> & Hsz & Hr).
  destruct (wf_raise pp id b sz W Hin Hb Hsz) as [W' HP].
  eexists _, t', _. split; [done|]. split; [exact W'|]. split; [exact HP|]. split; [done|].
  intros c. destruct (Z.eqb_spec r 0); [|done]. intros [= <-].
  destruct Hc as (?&?&?&?). unfold cap_ok. simpl. lia.
Qed.

(** A fresh buffer [nb], linked and initialised. *)
Lemma push_fresh pp nb flags n :
  wf pp -> 0 <= pipe_off nb < pipe_size nb -> pipe_size nb < 2 ^ 31 ->
  let id := pp_next pp in
  let pp1 := pp_update_prev_ppb (link_ppb (set_nr_pipes pp n) nb) id flags in
  exists pp', grow_out pp1 id flags = Done pp' /\
    wf pp' /\ pp_pages pp' = pp_pages pp /\ same_iovs pp pp' /\ grown pp' flags.
Proof.
  intros W H1 H2 id pp1.
  assert (Hfresh : id ∉ bufs pp ++ free_bufs pp).
  { intros Hin%(wf_alloc pp W). subst id. lia. }
  assert (Hid : pp_heap pp1 !! id = Some nb).
  { unfold pp1, pp_update_prev_ppb. destruct (prev_type flags); simpl; apply lookup_insert_eq. }
  unfold grow_out. rewrite Hid. eexists. split; [done|].
  set (b := ppb_init nb 0 0 flags (free_iov pp1)).
  assert (Hf : free_iov pp1 = free_iov pp) by (unfold pp1, pp_update_prev_ppb; by destruct (prev_type flags)).
  assert (Hb1 : bufs pp1 = bufs pp ++ [id]) by (unfold pp1, pp_update_prev_ppb; by destruct (prev_type flags)).
  assert (Hb2 : free_bufs pp1 = free_bufs pp) by (unfold pp1, pp_update_prev_ppb; by destruct (prev_type flags)).
  assert (Hnx : pp_next pp1 = S id) by (unfold pp1, pp_update_prev_ppb; by destruct (prev_type flags)).
  edestruct (wf_push pp (store_ppb pp1 id b) id b) as [W' HP]; try done; simpl.
  - unfold pp1, pp_update_prev_ppb. destruct (prev_type flags); simpl; apply insert_insert_eq.
  - rewrite Hb1, Hb2. rewrite <-app_assoc. simpl.
    apply list.NoDup_app. pose proof (wf_nodup pp W) as Hnd.
    apply list.NoDup_app in Hnd as (Hn1 & Hn2 & Hn3). rewrite elem_of_app in Hfresh.
    split_and!; [done| |apply list.NoDup_cons; split; [tauto|done]].
    intros x Hx Hx'. apply elem_of_cons in Hx' as [->|Hx']; [tauto|by eapply Hn2].
  - lia.
  - by rewrite Hb2.
  - rewrite Hb1, Hb2. intros i. rewrite !elem_of_app. tauto.
  - subst id. lia.
  - unfold pp1, pp_update_prev_ppb. by destruct (prev_type flags).
  - unfold pp1, pp_update_prev_ppb. by destruct (prev_type flags).
  - unfold pp1, pp_update_prev_ppb. by destruct (prev_type flags).
  - unfold pp1, pp_update_prev_ppb. intros i. destruct (prev_type flags); simpl; naive_solver.
  - split_and!; [exact W'|exact HP| |].
    + unfold same_iovs. simpl. rewrite Hb1. unfold pp1, pp_update_prev_ppb.
      destruct (prev_type flags); simpl; split_and!; try done; intros _; apply not_eq_sym, app_cons_not_nil.
    + exists (bufs pp), id, b. simpl. rewrite Hb1, lookup_insert_eq. split_and!; try done. simpl. lia.
Qed.

Lemma push_free pp id rest flags :
  wf pp -> free_bufs pp = id :: rest ->
  exists pp', grow_out (set_bufs pp (bufs pp ++ [id]) rest) id flags = Done pp' /\
    wf pp' /\ pp_pages pp' = pp_pages pp /\ same_iovs pp pp' /\ grown pp' flags.
Proof.
  intros W Hf.
  assert (Hin : id ∈ free_bufs pp) by (rewrite Hf; apply list_elem_of_here).
  destruct (wf_alloc pp W id) as [[b Hb] Hlt]; [rewrite elem_of_app; by right|].
  destruct (wf_free pp W id b Hin Hb) as [Ho Hs].
  unfold grow_out. simpl. rewrite Hb. eexists. split; [done|].
  edestruct (wf_push pp (store_ppb (set_bufs pp (bufs pp ++ [id]) rest) id
               (ppb_init b 0 0 flags (free_iov pp))) id) as [W' HP]; try done; simpl.
  - rewrite <-app_assoc. simpl. rewrite <-Hf. apply (wf_nodup pp W).
  - intros i Hi. rewrite Hf. by apply list_elem_of_further.
  - intros i. rewrite Hf, <-app_assoc. done.
  - intros i. tauto.
  - split_and!; [exact W'|exact HP|split_and!; try done; intros _; apply not_eq_sym, app_cons_not_nil|].
    eexists (bufs pp), id, _. simpl. rewrite lookup_insert_eq. split_and!; try done. simpl. lia.
Qed.

Lemma set_nr_pipes_id pp : set_nr_pipes pp (nr_pipes pp) = pp.
Proof. by destruct pp. Qed.

Lemma page_pipe_grow_spec `{!PipeKernelOk K} t pp flags :
  wf pp ->
  exists r t' pp',
    page_pipe_grow flags (t, pp) = Done (r, (t', pp')) /\
    wf pp' /\ pp_pages pp' = pp_pages pp /\ same_iovs pp pp' /\
    (r = 0 /\ grown pp' flags \/ r = -1 \/
     r = - EAGAIN /\ has (pp_flags pp) PP_CHUNK_MODE = true).
Proof.
  intros W. unfold page_pipe_grow. destruct (free_bufs pp) as [|id rest] eqn:Ef.
  2: { destruct (push_free pp id rest flags W Ef) as (pp' & -> & ? & ? & ? & ?).
       eexists 0, t, pp'. split_and!; try done. by left. }
  destruct (has (pp_flags pp) PP_CHUNK_MODE && (nr_pipes pp =? NR_PIPES_PER_CHUNK)) eqn:Ec.
  { apply andb_true_iff in Ec as [Ec _]. eexists _, t, pp. split_and!; try done. auto. }
  unfold ppb_alloc, bind. destruct (k_malloc t); cbn [negb].
  2: { eexists _, _, pp. split_and!; try done. auto. }
  destruct (resize_prev_spec (S t) pp flags W) as (o & t1 & pp1 & -> & W1 & HP1 & HS1 & Ho).
  destruct HS1 as (HS1 & HS1' & HS1''). destruct o as [b|].
  - destruct (Ho b eq_refl) as [(?&?&?&?) ?].
    edestruct (push_fresh pp1 (mk_ppb (p0 b) (p1 b) (pipe_size b) (u32 (pages_in b + pipe_off b)) 0 0 0 0)
                 flags (nr_pipes pp1) W1) as (pp' & Hg & W' & HP & (? & ? & ?) & HG); simpl.
    1-2: try rewrite u32_id; lia.
    rewrite set_nr_pipes_id in Hg. rewrite Hg. eexists 0, _, pp'.
    split_and!; [done|done|congruence|split_and!; [congruence..|tauto]|by left].
  - destruct (k_pipe t1) as [[rd wr]|].
    2: { eexists (-1), _, pp1. split_and!; try done. auto. }
    set (sz := u32 (u64 (k_getpipe (S t1) rd) / PAGE_SIZE)).
    assert (1 <= sz < 2 ^ 31).
    { pose proof (getpipe_page (S t1) rd). unfold sz. rewrite u64_id by plia.
      rewrite u32_id; pdiv. }
    edestruct (push_fresh pp1 (mk_ppb rd wr sz 0 0 0 0 0) flags (u32 (nr_pipes pp1 + 1)) W1)
      as (pp' & Hg & W' & HP & (? & ? & ?) & HG); simpl; [lia|lia|].
    rewrite Hg. eexists 0, _, pp'.
    split_and!; [done|done|congruence|split_and!; [congruence..|tauto]|by left].
Qed.

Lemma ppb_add_page_store pp id x b addr :
  ppb_add_page (store_ppb pp id x) id b addr = ppb_add_page pp id b addr.
Proof.
  unfold ppb_add_page, write_iov.
  change (read_iov (store_ppb pp id x)) with (read_iov pp). simpl.
  destruct (if nr_segs b =? 0 then _ else _);
    match goal with |- context [if ?c then Some _ else None] => destruct c end; try done.
  - unfold store_ppb, set_heap. simpl. by rewrite insert_insert_eq.
  - simpl. case_match; [done|]. unfold store_ppb, set_heap. simpl. by rewrite insert_insert_eq.
Qed.

Lemma try_add_page_spec `{!PipeKernelOk K} t pp addr flags :
  wf pp -> bufs pp <> [] -> addr_ok addr -> free_iov pp < nr_iovs pp ->
  exists r t' pp',
    try_add_page addr flags (t, pp) = Done (r, (t', pp')) /\ wf pp' /\
    nr_iovs pp' = nr_iovs pp /\ bufs pp' = bufs pp /\
    ((r = 0 /\ pp_pages pp' = pp_pages pp ++ [(addr, flags)] /\ free_iov pp' <= free_iov pp + 1) \/
     (r = 1 /\ pp_pages pp' = pp_pages pp /\ free_iov pp' = free_iov pp /\ ~ grown pp flags)).
Proof.
  intros W Hne Ha Hfree. unfold try_add_page.
  destruct (list.last (bufs pp)) as [id|] eqn:El.
  2: { by apply list.last_None in El. }
  apply list.last_Some in El as [l Hl].
  assert (Hin : id ∈ bufs pp) by (rewrite Hl, elem_of_app; right; apply list_elem_of_here).
  destruct (wf_alloc pp W id) as [[b Hb] _]; [rewrite elem_of_app; by left|].
  destruct (wf_bufs pp W id b Hin Hb) as (_&_&_&_&_&Hc).
  unfold try_add_page_to. rewrite Hb.
  assert (Hlast : forall c, grown pp flags -> pp_heap pp !! id = Some c ->
            ppb_flags c = flags /\ pages_in c = 0 /\ pipe_off c < pipe_size c).
  { intros c (l' & id' & c' & Hl' & Hc' & ? & ? & ?) Hx.
    rewrite Hl in Hl'. apply app_inj_tail in Hl' as [_ <-]. simplify_eq. done. }
  destruct (Z.eqb_spec (ppb_flags b) flags) as [Hfl|Hfl]; cbn [negb].
  2: { eexists 1, t, pp. split_and!; try done. right. split_and!; try done.
       intros Hg. by destruct (Hlast b Hg Hb) as [? _]. }
  destruct (ppb_resize_spec t b Hc) as (r & t' & sz & -> & Hsz & Hr).
  destruct (wf_raise pp id b sz W Hin Hb Hsz) as [W' HP].
  destruct Hr as [[-> Hroom]|[-> Hfull]]; simpl.
  - destruct (ppb_add_page_spec (store_ppb pp id (set_pipe_size b sz)) l id (set_pipe_size b sz) addr)
      as (pp' & Hadd & W'' & HP' & Hf' & Hn' & Hbb); simpl; try done.
    { apply lookup_insert_eq. }
    rewrite ppb_add_page_store in Hadd. rewrite Hadd. eexists 0, t', pp'. split_and!; try done. left.
    split_and!; [done| |done]. rewrite HP', HP. simpl. by rewrite Hfl.
  - eexists 1, t', _. split; [done|]. split; [exact W'|]. split; [done|]. split; [done|]. right.
    split_and!; try done. intros Hg. destruct (Hlast b Hg Hb) as (_ & ? & ?).
    lia.
Qed.


(** Adding a page never reaches a [BUG], whatever the kernel answers: either the
    page is appended to the contents, or nothing changes and an error is returned. *)
Lemma add_page_ok `{!PipeKernelOk K} t pp addr flags :
  wf pp -> bufs pp <> [] -> addr_ok addr -> free_iov pp < nr_iovs pp ->
  exists r t' pp',
    page_pipe_add_page addr flags (t, pp) = Done (r, (t', pp')) /\ wf pp' /\
    bufs pp' <> [] /\ nr_iovs pp' = nr_iovs pp /\ free_iov pp' <= free_iov pp + 1 /\
    (r = 0 /\ pp_pages pp' = pp_pages pp ++ [(addr, flags)] \/
     (r = -1 \/ r = - EAGAIN) /\ pp_pages pp' = pp_pages pp).
Proof.
  intros W Hne Ha Hfree. unfold page_pipe_add_page.
  destruct (try_add_page_spec t pp addr flags W Hne Ha Hfree)
    as (r & t1 & pp1 & H1 & W1 & Hn1 & Hb1 & [(-> & HP1 & Hf1)|(-> & HP1 & Hf1 & _)]).
  all: rewrite (bind_Done _ _ _ _ _ H1); simpl.
  { exists 0, t1, pp1. split_and!; try done; [congruence|by left]. }
  destruct (page_pipe_grow_spec t1 pp1 flags W1)
    as (r & t2 & pp2 & H2 & W2 & HP2 & (Hf2 & Hn2 & Hb2) & Hr).
  rewrite (bind_Done _ _ _ _ _ H2).
  assert (Hne2 : bufs pp2 <> []) by (apply Hb2; congruence).
  destruct Hr as [[-> HG]|[-> |[-> _]]]; simpl.
  2-3: eexists _, t2, pp2; split; [done|]; split_and!; try done; [congruence|lia|right]; split; [tauto|congruence].
  destruct (try_add_page_spec t2 pp2 addr flags W2 Hne2 Ha ltac:(lia))
    as (r & t3 & pp3 & H3 & W3 & Hn3 & Hb3 & [(-> & HP3 & Hf3)|(-> & _ & _ & HG')]); [|done].
  rewrite (bind_Done _ _ _ _ _ H3). simpl.
  exists 0, t3, pp3. split; [done|]. split_and!; try done; [congruence|congruence|lia|left].
  split; [done|congruence].
Qed.

(** ** Holes *)

(** the pages recorded as holes, with their flags *)
Definition pp_hole_pages (pp : page_pipe) : list (Z * Z) :=
  let n := Z.to_nat (free_hole pp) in
  zip (take n (holes pp)) (take n (hole_flags pp)) ≫=
    fun '(v, f) => (fun a => (a, f)) <$> iov_pages v.

Record wf_holes (pp : page_pipe) : Prop := {
  wh_len : 0 <= free_hole pp <= nr_holes pp /\
           nr_holes pp <= Z.of_nat (length (holes pp)) /\
           nr_holes pp <= Z.of_nat (length (hole_flags pp));
  wh_ok : Forall iov_ok (take (Z.to_nat (free_hole pp)) (holes pp));
}.

Lemma wf_set_holes pp nh fh h hf :
  wf pp -> wf (set_holes pp nh fh h hf) /\ pp_pages (set_holes pp nh fh h hf) = pp_pages pp.
Proof. intros []. split; [by constructor|done]. Qed.

Lemma zip_snoc {A B} (l : list A) (k : list B) x y :
  length l = length k -> zip (l ++ [x]) (k ++ [y]) = zip l k ++ [(x, y)].
Proof. intros H. by rewrite zip_with_app. Qed.

Lemma grow_holes_spec t pp :
  wf_holes pp -> nr_holes pp + PP_HOLES_BATCH < 2 ^ 32 ->
  exists r t' nh h hf,
    grow_holes (t, pp) = Done (r, (t', set_holes pp nh (free_hole pp) h hf)) /\
    wf_holes (set_holes pp nh (free_hole pp) h hf) /\
    pp_hole_pages (set_holes pp nh (free_hole pp) h hf) = pp_hole_pages pp /\
    nh <= nr_holes pp + PP_HOLES_BATCH /\
    (r = 0 /\ free_hole pp < nh \/ r = -1).
Proof.
  intros [(H1 & H2 & H3) H4] Hb. unfold grow_holes, PP_HOLES_BATCH in *.
  destruct (Z.leb_spec (nr_holes pp) (free_hole pp)).
  2: { exists 0, t, (nr_holes pp), (holes pp), (hole_flags pp).
       replace (set_holes _ _ _ _ _) with pp by (by destruct pp).
       split_and!; [done|by constructor|done|lia|left; lia]. }
  assert (Htake : forall A (d : A) n l, nr_holes pp <= Z.of_nat (length l) ->
            take (Z.to_nat (free_hole pp)) (l ++ replicate n d) = take (Z.to_nat (free_hole pp)) l)
    by (intros; apply take_app_le; lia).
  destruct (k_malloc t); [destruct (k_malloc (S t))|]; simpl; unfold set_holes at 2; simpl.
  - eexists 0, _, _, _, _. split; [done|]. split; [|split]; [constructor; simpl| |].
    + rewrite !length_app, !length_replicate, u32_id by lia. lia.
    + by rewrite Htake.
    + unfold pp_hole_pages. simpl. by rewrite !Htake.
    + rewrite u32_id by lia. split; [lia|left; lia].
  - eexists (-1), _, _, _, _. split; [done|]. split; [|split]; [constructor; simpl| |].
    + rewrite !length_app, !length_replicate. lia.
    + by rewrite Htake.
    + unfold pp_hole_pages. simpl. by rewrite !Htake.
    + split; [lia|by right].
  - eexists (-1), _, (nr_holes pp), (holes pp), (hole_flags pp).
    replace (set_holes _ _ _ _ _) with pp by (by destruct pp).
    split; [done|]. split_and!; [by constructor|done|lia|by right].
Qed.

Lemma add_hole_ok t pp addr flags :
  wf pp -> wf_holes pp -> nr_holes pp + PP_HOLES_BATCH < 2 ^ 32 -> addr_ok addr ->
  exists r t' pp',
    page_pipe_add_hole addr flags (t, pp) = Done (r, (t', pp')) /\
    wf pp' /\ wf_holes pp' /\ pp_pages pp' = pp_pages pp /\
    (r = 0 /\ pp_hole_pages pp' = pp_hole_pages pp ++ [(addr, flags)] \/
     r = -1 /\ pp_hole_pages pp' = pp_hole_pages pp).
Proof.
  intros W Wh Hb Ha. unfold page_pipe_add_hole.
  destruct (grow_holes_spec t pp Wh Hb) as (r & t1 & nh & h & hf & H1 & W1 & HP1 & Hnh & Hr).
  rewrite (bind_Done _ _ _ _ _ H1).
  destruct (wf_set_holes pp nh (free_hole pp) h hf W) as [W2 HP2].
  destruct Hr as [[-> Hroom]| ->]; simpl.
  2: { eexists (-1), t1, _. split; [done|]. split_and!; [exact W2|exact W1|exact HP2|by right]. }
  destruct W1 as [(Hl1 & Hl2 & Hl3) Hok]. simpl in *.
  set (n := Z.to_nat (free_hole pp)) in *.
  assert (Hlen : forall A (l : list A), nh <= Z.of_nat (length l) -> length (take n l) = n)
    by (intros; rewrite length_take; lia).
  match goal with |- context [match ?x with Some _ => _ | None => _ end] => destruct x as [v'|] eqn:Eg end.
  - (* extended in place *)
    destruct (Z.eqb_spec (free_hole pp) 0); [done|].
    destruct (hf !! (n - 1)%nat) as [f|] eqn:Ef; [|done]. simpl in Eg.
    destruct (Z.eqb_spec f flags) as [->|]; [|done].
    destruct (h !! (n - 1)%nat) as [v|] eqn:Ev; [|done]. simpl in Eg.
    assert (Hn : n = S (n - 1)) by lia.
    assert (Ht : take n h = take (n - 1) h ++ [v]) by (rewrite Hn at 1; by apply take_S_r).
    assert (Ht' : take n (<[(n - 1)%nat := v']> h) = take (n - 1) h ++ [v']).
    { rewrite Hn at 1. rewrite (take_S_r _ _ v') by (apply list_lookup_insert_eq; lia).
      by rewrite take_insert_ge by lia. }
    assert (Hf : take n hf = take (n - 1) hf ++ [flags]) by (rewrite Hn at 1; by apply take_S_r).
    rewrite Ht in Hok. apply Forall_snoc in Hok as [Hok1 Hok2].
    pose proof (iov_grow_page_spec v addr Hok2 Ha) as Hg. rewrite Eg in Hg. destruct Hg as [Hg1 Hg2].
    eexists 0, t1, _. split; [done|]. split; [|split; [|split]].
    + by apply wf_set_holes.
    + constructor; simpl; [rewrite length_insert; lia|]. fold n. rewrite Ht'. by apply Forall_snoc.
    + done.
    + left. split; [done|]. rewrite <-HP1. unfold pp_hole_pages. simpl. fold n.
      rewrite Ht, Ht', Hf.
      assert (Hll : length (take (n - 1) h) = length (take (n - 1) hf)) by (rewrite !length_take; lia).
      rewrite !zip_snoc, !bind_app by done. simpl. rewrite !app_nil_r, Hg2, fmap_app. simpl.
      by rewrite app_assoc.
  - rewrite (proj2 (andb_true_iff _ _)) by (split; apply Nat.ltb_lt; lia).
    eexists 0, t1, _. split; [done|]. split; [|split; [|split]].
    + by apply wf_set_holes.
    + constructor; simpl; rewrite u32_id by (unfold PP_HOLES_BATCH in *; lia).
      * rewrite !length_insert. lia.
      * replace (Z.to_nat (free_hole pp + 1)) with (S n) by lia.
        rewrite (take_S_r _ _ (iov_init addr)) by (apply list_lookup_insert_eq; lia).
        rewrite take_insert_ge by lia. apply Forall_snoc. split; [done|].
        destruct Ha as (?&?&?). unfold iov_ok, iov_init. simpl. split_and!; try plia; auto with pages.
    + done.
    + left. split; [done|]. rewrite <-HP1. unfold pp_hole_pages. simpl.
      rewrite u32_id by (unfold PP_HOLES_BATCH in *; lia).
      replace (Z.to_nat (free_hole pp + 1)) with (S n) by lia. fold n.
      rewrite (take_S_r _ _ (iov_init addr)) by (apply list_lookup_insert_eq; lia).
      rewrite (take_S_r (<[n := flags]> hf) _ flags) by (apply list_lookup_insert_eq; lia).
      rewrite !take_insert_ge by lia. rewrite zip_snoc, bind_app by (rewrite !length_take; lia).
      f_equal. change ([(iov_init addr, flags)] ≫= _) with
        (((fun a => (a, flags)) <$> iov_pages (mk_iovec addr PAGE_SIZE)) ++ []).
      by rewrite iov_pages_single.
Qed.

(** ** Frames: what the operations leave alone *)

(** the holes and the mode *)
Definition keeps_holes (pp pp' : page_pipe) : Prop :=
  nr_holes pp' = nr_holes pp /\ free_hole pp' = free_hole pp /\ holes pp' = holes pp /\
  hole_flags pp' = hole_flags pp /\ pp_flags pp' = pp_flags pp.

Lemma keeps_holes_trans pp1 pp2 pp3 : keeps_holes pp1 pp2 -> keeps_holes pp2 pp3 -> keeps_holes pp1 pp3.
Proof. unfold keeps_holes. intuition congruence. Qed.

Lemma grow_frame t pp flags r t' pp' :
  page_pipe_grow flags (t, pp) = Done (r, (t', pp')) -> keeps_holes pp pp'.
Proof.
  unfold page_pipe_grow, grow_out, ppb_alloc, resize_prev, bind, pp_update_prev_ppb.
  intros H. repeat (case_match; simplify_eq; simpl in *; try done).
Qed.

Lemma try_add_frame t pp addr flags r t' pp' :
  try_add_page addr flags (t, pp) = Done (r, (t', pp')) ->
  keeps_holes pp pp' /\ bufs pp' = bufs pp /\ free_bufs pp' = free_bufs pp /\ nr_pipes pp' = nr_pipes pp.
Proof.
  unfold try_add_page, try_add_page_to, ppb_add_page, write_iov. intros H.
  repeat (case_match; simplify_eq; simpl in *; try done).
Qed.

Lemma add_page_frame t pp addr flags r t' pp' :
  page_pipe_add_page addr flags (t, pp) = Done (r, (t', pp')) -> keeps_holes pp pp'.
Proof.
  unfold page_pipe_add_page, bind. intros H.
  destruct (try_add_page _ _ _) as [[r1 [t1 pp1]]| |] eqn:H1; [|done|done].
  apply try_add_frame in H1 as (K1 & _).
  destruct (r1 <=? 0); [by injection H as <- <- <-|].
  destruct (page_pipe_grow _ _) as [[r2 [t2 pp2]]| |] eqn:H2; [|done|done].
  apply grow_frame in H2. destruct (r2 <? 0); [injection H as <- <- <-; by eapply keeps_holes_trans|].
  destruct (try_add_page _ _ (t2, _)) as [[r3 [t3 pp3]]| |] eqn:H3; [|done|done].
  apply try_add_frame in H3 as (K3 & _). unfold bug_on in H. destruct (0 <? r3); [done|].
  injection H as <- <- <-. by eapply keeps_holes_trans, keeps_holes_trans.
Qed.

(** the buffers and the iovecs *)
Definition keeps_bufs (pp pp' : page_pipe) : Prop :=
  nr_pipes pp' = nr_pipes pp /\ bufs pp' = bufs pp /\ free_bufs pp' = free_bufs pp /\
  nr_iovs pp' = nr_iovs pp /\ free_iov pp' = free_iov pp /\ iovs pp' = iovs pp /\
  pp_heap pp' = pp_heap pp /\ pp_flags pp' = pp_flags pp.

Lemma add_hole_frame t pp addr flags r t' pp' :
  page_pipe_add_hole addr flags (t, pp) = Done (r, (t', pp')) ->
  keeps_bufs pp pp' /\ nr_holes pp' <= Z.max (nr_holes pp) (u32 (nr_holes pp + PP_HOLES_BATCH)).
Proof.
  unfold page_pipe_add_hole, grow_holes, bind, ret. intros H.
  repeat (case_match; simplify_eq; simpl in *); unfold keeps_bufs; simpl; split_and!; try done; lia.
Qed.

(** *** Buffers lie one after the other in the array of iovecs *)
Definition extent (b : page_pipe_buf) : Z * Z := (ppb_iov b, nr_segs b).

Fixpoint layout (h : gmap nat page_pipe_buf) (l : list nat) (off : Z) : option Z :=
  match l with
  | [] => Some off
  | id :: l =>
    match h !! id with
    | Some b => if ppb_iov b =? off then layout h l (off + nr_segs b) else None
    | None => None
    end
  end.

(** the buffers in use take the iovecs from [off] to the first free one *)
Definition packed (off : Z) (pp : page_pipe) : Prop :=
  layout (pp_heap pp) (bufs pp) off = Some (free_iov pp).

Lemma layout_app h l k off : layout h (l ++ k) off = (o ← layout h l off; layout h k o).
Proof.
  revert off. induction l as [|id l IH]; intros off; [done|]. simpl.
  destruct (h !! id); [|done]. by case_match.
Qed.

Lemma layout_ext h h' l off :
  (forall id, id ∈ l -> extent <$> h' !! id = extent <$> h !! id) -> layout h' l off = layout h l off.
Proof.
  revert off. induction l as [|id l IH]; intros off H; [done|]. simpl.
  pose proof (H id (list_elem_of_here _ _)) as Hid.
  destruct (h' !! id) as [b'|], (h !! id) as [b|]; try done.
  injection Hid as -> ->. case_match; [|done]. apply IH. intros i Hi. apply H. by apply list_elem_of_further.
Qed.
(** what the resizing of the previous buffer changes *)
Lemma resize_prev_frame `{!PipeKernelOk K} t pp flags o t' pp' :
  wf pp -> resize_prev (pp_prev_ppb pp flags) (t, pp) = Done (o, (t', pp')) ->
  (exists h, pp' = set_heap pp h (pp_next pp) /\
     forall id, extent <$> h !! id = extent <$> pp_heap pp !! id) /\
  (has (pp_flags pp) PP_CHUNK_MODE = true -> o = None).
Proof.
  intros W H. unfold resize_prev in H.
  assert (Hc : has (pp_flags pp) PP_CHUNK_MODE = true -> pp_prev_ppb pp flags = None)
    by (unfold pp_prev_ppb; by intros ->).
  destruct (pp_prev_ppb pp flags) as [id|] eqn:E.
  2: { simplify_eq. split; [|done]. exists (pp_heap pp'). split; [by destruct pp'|done]. }
  pose proof (pp_prev_in pp flags id W E) as Hin.
  destruct (pp_heap pp !! id) as [b|] eqn:Hb; [|done].
  destruct (wf_bufs pp W id b Hin Hb) as (_&_&_&_&_&Hcap).
  destruct (ppb_resize_spec t b Hcap) as (r & t1 & sz & Hr & _). rewrite Hr in H. injection H as <- <- <-.
  split; [|intros Hm; by specialize (Hc Hm)]. eexists. split; [done|]. intros i.
  destruct (decide (i = id)) as [->|]; [by rewrite lookup_insert_eq, Hb|by rewrite lookup_insert_ne].
Qed.

Lemma packed_push off pp pp' id b h :
  packed off pp -> bufs pp' = bufs pp ++ [id] -> pp_heap pp' = <[id := b]> h ->
  (forall i, i ∈ bufs pp -> extent <$> h !! i = extent <$> pp_heap pp !! i) ->
  id ∉ bufs pp -> free_iov pp' = free_iov pp -> extent b = (free_iov pp, 0) -> packed off pp'.
Proof.
  unfold packed. intros H Hb Hh Hx Hid Hf He. injection He as He1 He2.
  rewrite Hb, Hh, layout_app, Hf. rewrite (layout_ext (pp_heap pp)), H.
  - simpl. rewrite lookup_insert_eq, He1, Z.eqb_refl, He2. f_equal. lia.
  - intros i Hi. rewrite lookup_insert_ne by (by intros ->). by apply Hx.
Qed.

(** in chunk mode every buffer has a pipe of its own *)
Definition chunk_ok (pp : page_pipe) : Prop :=
  has (pp_flags pp) PP_CHUNK_MODE = true /\
  nr_pipes pp = Z.of_nat (length (bufs pp ++ free_bufs pp)) /\ nr_pipes pp <= NR_PIPES_PER_CHUNK.

(** what holds whatever the outcome of an operation; [Q] of the result *)
Record grow_out_ok (off : Z) (pp pp' : page_pipe) : Prop := {
  go_packed : packed off pp -> packed off pp';
  go_chunk : chunk_ok pp -> chunk_ok pp';
}.

Lemma grow_packed `{!PipeKernelOk K} off t pp flags r t' pp' :
  wf pp -> page_pipe_grow flags (t, pp) = Done (r, (t', pp')) ->
  grow_out_ok off pp pp' /\ (chunk_ok pp -> r = - EAGAIN -> bufs pp' = bufs pp /\ (2 <= length (bufs pp))%nat) /\
  (free_bufs pp <> [] -> r = 0).
Proof.
  intros W H. unfold page_pipe_grow in H. destruct (free_bufs pp) as [|id rest] eqn:Ef.
  2: { unfold grow_out in H. simpl in H. destruct (pp_heap pp !! id) as [b|] eqn:Hb; [|done]. simplify_eq.
       assert (Hn : id ∉ bufs pp).
       { pose proof (wf_nodup pp W) as Hn. rewrite Ef in Hn. apply list.NoDup_app in Hn as (_ & Hd & _).
         intros Hi. apply (Hd id Hi), list_elem_of_here. }
       split; [|done]. split.
       - intros Hp. by eapply (packed_push off pp _ id (ppb_init b 0 0 flags (free_iov pp)) (pp_heap pp)).
       - unfold chunk_ok. simpl. rewrite Ef, <-app_assoc. done. }
  destruct (has (pp_flags pp) PP_CHUNK_MODE && (nr_pipes pp =? NR_PIPES_PER_CHUNK)) eqn:Ec.
  { simplify_eq. split; [by split|]. split; [|done]. intros (_ & Hn & _) _. split; [done|].
    apply andb_true_iff in Ec as [_ Ec%Z.eqb_eq]. rewrite Ef, app_nil_r, Ec in Hn.
    unfold NR_PIPES_PER_CHUNK in Hn. lia. }
  unfold ppb_alloc, bind in H. destruct (k_malloc t); cbn [negb] in H.
  2: { simplify_eq. split; [by split|]. split; [|done]. intros _. unfold EAGAIN. lia. }
  destruct (resize_prev (pp_prev_ppb pp flags) (S t, pp)) as [[o [t1 pp1]]| |] eqn:Hr; [|done|done].
  destruct (resize_prev_frame (S t) pp flags o t1 pp1 W Hr) as [(h & -> & Hx) Ho].
  assert (Hfresh : pp_next pp ∉ bufs pp).
  { intros Hin. destruct (wf_alloc pp W (pp_next pp)); [apply elem_of_app; by left|lia]. }
  assert (Hgo : forall nb n pp2, n = nr_pipes pp \/ n = u32 (nr_pipes pp + 1) ->
     (chunk_ok pp -> n = u32 (nr_pipes pp + 1)) ->
     grow_out (pp_update_prev_ppb (link_ppb (set_nr_pipes (set_heap pp h (pp_next pp)) n) nb)
        (pp_next pp) flags) (pp_next pp) flags = Done pp2 -> grow_out_ok off pp pp2).
  { intros nb n pp2 Hn Hn' Hg. unfold grow_out in Hg.
    assert (Hb : bufs pp2 = bufs pp ++ [pp_next pp] /\ pp_heap pp2 = <[pp_next pp := ppb_init nb 0 0 flags (free_iov pp)]> h
       /\ free_iov pp2 = free_iov pp /\ free_bufs pp2 = free_bufs pp /\ nr_pipes pp2 = n /\ pp_flags pp2 = pp_flags pp).
    { unfold pp_update_prev_ppb in Hg. destruct (prev_type flags); simpl in Hg; rewrite lookup_insert_eq in Hg;
        injection Hg as <-; simpl; rewrite insert_insert_eq; done. }
    destruct Hb as (B1 & B2 & B3 & B4 & B5 & B6). split.
    - intros Hp. by eapply (packed_push off pp pp2).
    - intros Hc. specialize (Hn' Hc). destruct Hc as (C1 & C2 & C3). unfold chunk_ok. rewrite B1, B4, B5, B6.
      unfold NR_PIPES_PER_CHUNK in *. rewrite C1 in Ec. cbn [andb] in Ec. apply Z.eqb_neq in Ec.
      rewrite Hn', u32_id by lia. rewrite Ef, app_nil_r in *. rewrite length_app. simpl. split_and!; [done|lia|lia]. }
  destruct o as [b|].
  - match type of H with match ?g with _ => _ end = _ => destruct g eqn:Hg; [|done|done] end.
    simpl in H. injection H as <- <- <-. split; [|split; [done|done]].
    eapply (Hgo _ (nr_pipes pp)); [by left| |exact Hg].
    intros (C1 & _). by specialize (Ho C1).
  - destruct (k_pipe t1) as [[rd wr]|].
    2: { simplify_eq. split; [|split; [|done]].
         + split; [unfold packed; simpl; by rewrite (layout_ext (pp_heap pp) h)|done].
         + intros _. unfold EAGAIN. lia. }
    match type of H with match ?g with _ => _ end = _ => destruct g eqn:Hg; [|done|done] end.
    simpl in H. injection H as <- <- <-. split; [|split; [done|done]].
    eapply Hgo; [by right|done|exact Hg].
Qed.
Lemma ppb_add_page_extent pp id b addr pp' :
  wf pp -> 0 <= nr_segs b < 2 ^ 32 - 1 -> ppb_add_page pp id b addr = Done pp' ->
  exists b', pp_heap pp' = <[id := b']> (pp_heap pp) /\ ppb_iov b' = ppb_iov b /\
    ((nr_segs b' = nr_segs b /\ free_iov pp' = free_iov pp) \/
     (nr_segs b' = nr_segs b + 1 /\ free_iov pp' = u32 (free_iov pp + 1))).
Proof.
  intros W Hn H. unfold ppb_add_page, write_iov in H.
  match type of H with match ?o with _ => _ end = _ => destruct o end;
    (match type of H with match (if ?c then _ else _) with _ => _ end = _ => destruct c; [|done] end).
  - injection H as <-. eexists. simpl. split; [done|]. simpl. auto.
  - simpl in H. case_match; [done|]. injection H as <-. eexists. simpl. split; [done|]. simpl.
    split; [done|]. right. split; [apply u32_id; lia|done].
Qed.

Lemma try_add_packed `{!PipeKernelOk K} off t pp addr flags r t' pp' :
  wf pp -> free_iov pp < nr_iovs pp ->
  try_add_page addr flags (t, pp) = Done (r, (t', pp')) -> grow_out_ok off pp pp'.
Proof.
  intros W Hfree H. destruct (try_add_frame _ _ _ _ _ _ _ H) as ((_&_&_&_&Hfl) & Hb & Hf & Hn).
  split; [|unfold chunk_ok; by rewrite Hfl, Hb, Hf, Hn].
  unfold try_add_page in H. destruct (list.last (bufs pp)) as [id|] eqn:El; [|done].
  apply list.last_Some in El as [l Hl].
  assert (Hin : id ∈ bufs pp) by (rewrite Hl, elem_of_app; right; apply list_elem_of_here).
  unfold try_add_page_to in H. destruct (pp_heap pp !! id) as [b|] eqn:Hid; [|done].
  destruct (wf_bufs pp W id b Hin Hid) as (Hs&Hs'&Hs''&_&_&Hcap). destruct (wf_len pp W) as (_ & ? & ?).
  assert (Hni : id ∉ l).
  { pose proof (wf_nodup pp W) as Hnd. rewrite Hl in Hnd.
    apply list.NoDup_app in Hnd as [Hnd _]. apply list.NoDup_app in Hnd as (_ & Hd & _).
    intros Hi. eapply Hd; [exact Hi|apply list_elem_of_here]. }
  unfold packed. rewrite Hb. destruct (negb _).
  { by injection H as <- <- <-. }
  destruct (ppb_resize_spec t b Hcap) as (r1 & t1 & sz & Hr & _). rewrite Hr in H.
  destruct (r1 =? 1).
  { injection H as <- <- <-. intros Hp. simpl. rewrite (layout_ext (pp_heap pp)); [done|]. intros i _.
    destruct (decide (i = id)) as [->|]; [by rewrite lookup_insert_eq, Hid|by rewrite lookup_insert_ne]. }
  destruct (ppb_add_page pp id _ addr) eqn:Ha; [|done|done]. injection H as <- <- <-.
  apply ppb_add_page_extent in Ha as (b' & Hh & Hi & Hx); [|done|simpl; lia]. simpl in Hi, Hx.
  rewrite Hh, Hl, !layout_app. intros Hp. rewrite (layout_ext (pp_heap pp)).
  2: { intros i Hi'. by rewrite lookup_insert_ne by (by intros ->). }
  destruct (layout (pp_heap pp) l off) as [o|]; [|done]. simpl in Hp |- *.
  rewrite Hid in Hp. rewrite lookup_insert_eq, Hi. destruct (ppb_iov b =? o); [|done].
  injection Hp as Hp. destruct Hx as [[-> ->]|[-> ->]]; [by rewrite Hp|].
  rewrite u32_id by lia. f_equal. lia.
Qed.

Lemma grow_out_ok_trans off pp1 pp2 pp3 :
  grow_out_ok off pp1 pp2 -> grow_out_ok off pp2 pp3 -> grow_out_ok off pp1 pp3.
Proof. intros [] []. split; auto. Qed.

Lemma add_page_packed `{!PipeKernelOk K} off t pp addr flags r t' pp' :
  wf pp -> bufs pp <> [] -> addr_ok addr -> free_iov pp < nr_iovs pp ->
  page_pipe_add_page addr flags (t, pp) = Done (r, (t', pp')) ->
  grow_out_ok off pp pp' /\
  (chunk_ok pp -> r = - EAGAIN -> (2 <= length (bufs pp'))%nat) /\ (free_bufs pp <> [] -> r = 0).
Proof.
  intros W Hne Ha Hfree H. unfold page_pipe_add_page in H.
  destruct (try_add_page_spec t pp addr flags W Hne Ha Hfree)
    as (r1 & t1 & pp1 & H1 & W1 & Hn1 & Hb1 & Hr1).
  pose proof (try_add_packed off _ _ _ _ _ _ _ W Hfree H1) as G1. rewrite (bind_Done _ _ _ _ _ H1) in H.
  destruct (try_add_frame _ _ _ _ _ _ _ H1) as (_ & _ & Hf1 & _).
  destruct Hr1 as [(-> & _ & _)|(-> & _ & Hfi & _)]; simpl in H.
  { injection H as <- <- <-. by split_and!. }
  destruct (page_pipe_grow_spec t1 pp1 flags W1) as (r2 & t2 & pp2 & H2 & W2 & _ & (Hf2 & Hn2 & Hb2) & Hr2).
  destruct (grow_packed off _ _ _ _ _ _ W1 H2) as (G2 & He & Hz). rewrite (bind_Done _ _ _ _ _ H2) in H.
  pose proof (grow_out_ok_trans _ _ _ _ G1 G2) as G.
  assert (Hz' : free_bufs pp <> [] -> r2 = 0) by (intros Hx; apply Hz; by rewrite Hf1).
  destruct (Z.ltb_spec r2 0).
  { injection H as <- <- <-. split; [exact G|]. split; [|intros Hx; by specialize (Hz' Hx)].
    intros Hc Hr. destruct (He (go_chunk _ _ _ G1 Hc) Hr) as [-> ?]. done. }
  destruct (try_add_page_spec t2 pp2 addr flags W2 (Hb2 ltac:(congruence)) Ha ltac:(lia))
    as (r3 & t3 & pp3 & H3 & W3 & Hn3 & Hb3 & Hr3).
  pose proof (try_add_packed off _ _ _ _ _ _ _ W2 ltac:(lia) H3) as G3. rewrite (bind_Done _ _ _ _ _ H3) in H.
  destruct Hr3 as [(-> & _ & _)|(-> & _)]; simpl in H; [|done].
  injection H as <- <- <-. split; [by eapply grow_out_ok_trans|]. split; [done|done].
Qed.

Lemma add_hole_packed off t pp addr flags r t' pp' :
  page_pipe_add_hole addr flags (t, pp) = Done (r, (t', pp')) -> grow_out_ok off pp pp'.
Proof.
  intros ((Hn & Hb & Hf & _ & Hi & _ & Hh & Hfl) & _)%add_hole_frame.
  split; [unfold packed; by rewrite Hb, Hh, Hi|unfold chunk_ok; by rewrite Hfl, Hn, Hb, Hf].
Qed.
(** a page that is refused takes no iovec *)
Lemma add_page_err_iov `{!PipeKernelOk K} t pp addr flags r t' pp' :
  wf pp -> bufs pp <> [] -> addr_ok addr -> free_iov pp < nr_iovs pp ->
  page_pipe_add_page addr flags (t, pp) = Done (r, (t', pp')) -> r <> 0 -> free_iov pp' = free_iov pp.
Proof.
  intros W Hne Ha Hfree H Hr. unfold page_pipe_add_page in H.
  destruct (try_add_page_spec t pp addr flags W Hne Ha Hfree)
    as (r1 & t1 & pp1 & H1 & W1 & Hn1 & Hb1 & Hr1). rewrite (bind_Done _ _ _ _ _ H1) in H.
  destruct Hr1 as [(-> & _ & _)|(-> & _ & Hf1 & _)]; simpl in H; [by injection H as <- <- <-|].
  destruct (page_pipe_grow_spec t1 pp1 flags W1) as (r2 & t2 & pp2 & H2 & W2 & _ & (Hf2 & Hn2 & Hb2) & Hr2).
  rewrite (bind_Done _ _ _ _ _ H2) in H. destruct (Z.ltb_spec r2 0); [injection H as <- <- <-; congruence|].
  destruct (try_add_page_spec t2 pp2 addr flags W2 (Hb2 ltac:(congruence)) Ha ltac:(lia))
    as (r3 & t3 & pp3 & H3 & _ & _ & _ & Hr3). rewrite (bind_Done _ _ _ _ _ H3) in H.
  destruct Hr3 as [(-> & _ & _)|(-> & _)]; simpl in H; [by injection H as <- <- <-|done].
Qed.

(** ** Reading pages back *)

Lemma bytes_of_pages l :
  Forall iov_ok l -> bytes_of l = Z.of_nat (length (l ≫= iov_pages)) * PAGE_SIZE.
Proof.
  induction 1 as [|v l (?&?&?&?&?) _ IH]; [done|]. csimpl. rewrite IH, length_app.
  pose proof (iov_pages_length v ltac:(lia) ltac:(done)). plia.
Qed.

Lemma bytes_of_nonneg l : Forall iov_ok l -> 0 <= bytes_of l.
Proof. induction 1 as [|v l (?&?&?&?&?) _ IH]; simpl; lia. Qed.

(** the iovec found holds the address, and the bytes before it are those of the pages
    in front of it *)
Lemma find_seg_spec l addr n v len :
  Forall iov_ok l -> 0 <= n -> n + bytes_of l < 2 ^ 64 ->
  find_seg l addr n = Some (v, len) ->
  exists l1 l2, l = l1 ++ v :: l2 /\ iov_ok v /\ iov_base v <= addr < iov_base v + iov_len v /\
    len = n + bytes_of l1 + (addr - iov_base v).
Proof.
  revert n. induction l as [|w l IH]; intros n Hf Hn Hb H; [done|].
  apply Forall_cons_1 in Hf as [Hw Hf]. pose proof Hw as (?&?&?&?&?).
  pose proof (bytes_of_nonneg l Hf). simpl in *.
  rewrite (u64_id (iov_base w + iov_len w)) in H by lia.
  destruct (Z.ltb_spec addr (iov_base w)), (Z.leb_spec (iov_base w + iov_len w) addr); simpl in H.
  4: { simplify_eq. exists [], l. simpl. rewrite u64_id by lia. split_and!; try done; lia. }
  all: rewrite u64_id in H by lia;
    destruct (IH (n + iov_len w)) as (l1 & l2 & -> & ? & ? & ->); try done; try lia;
    exists (w :: l1), l2; simpl; split_and!; try done; lia.
Qed.

Lemma find_seg_None l addr n :
  Forall iov_ok l -> aligned addr -> find_seg l addr n = None ->
  addr ∉ (l ≫= iov_pages).
Proof.
  revert n. induction l as [|w l IH]; intros n Hf Ha H; [apply not_elem_of_nil|].
  apply Forall_cons_1 in Hf as [Hw Hf]. csimpl in *.
  pose proof Hw as (?&?&?&?&?). rewrite (u64_id (iov_base w + iov_len w)) in H by lia.
  destruct ((addr <? iov_base w) || (iov_base w + iov_len w <=? addr)) eqn:E; [|done].
  rewrite elem_of_app, (elem_of_iov_pages addr w Hw). intros [[? _]|Hin]; [lia|].
  by eapply (IH _ Hf Ha H).
Qed.

Lemma find_ppb_spec pp l addr id b v len :
  find_ppb pp l addr = Some (id, b, v, len) ->
  id ∈ l /\ pp_heap pp !! id = Some b /\ find_seg (segs pp b) addr 0 = Some (v, len).
Proof.
  induction l as [|i l IH]; [done|]. simpl.
  destruct (pp_heap pp !! i) as [c|] eqn:Hc; [|done].
  destruct (find_seg (segs pp c) addr 0) as [[w n]|] eqn:Hs.
  - intros [= <- <- <- <-]. split_and!; try done. apply list_elem_of_here.
  - intros (?&?&?)%IH. split_and!; try done. by apply list_elem_of_further.
Qed.

Lemma iov_pages_lookup v addr i :
  iov_ok v -> aligned addr -> iov_base v <= addr ->
  0 <= i -> addr + i * PAGE_SIZE < iov_base v + iov_len v ->
  iov_pages v !! Z.to_nat ((addr - iov_base v) / PAGE_SIZE + i) = Some (addr + i * PAGE_SIZE).
Proof.
  intros (?&?&?&?&?) ????. unfold iov_pages. rewrite list_lookup_fmap.
  rewrite lookup_seq_lt by (unfold aligned, PAGE_SIZE in *; Z.div_mod_to_equations; lia).
  simpl. f_equal. pdiv.
Qed.

Lemma page_pipe_read_ok tee splice pp addr nr flags r nr' fd from to pp' :
  wf pp -> aligned addr -> 0 <= nr < 2 ^ 32 ->
  page_pipe_read tee splice pp addr nr flags = (r, nr', Some (fd, from, to), pp') ->
  r = 0 ->
  exists b id, id ∈ bufs pp /\ pp_heap pp !! id = Some b /\ fd = p0 b /\
    to - from = nr' * PAGE_SIZE /\ nr' <= nr /\ pipe_off b * PAGE_SIZE <= from /\
    forall i, 0 <= i < nr' ->
      (segs pp b ≫= iov_pages) !! Z.to_nat (from / PAGE_SIZE - pipe_off b + i) =
        Some (addr + i * PAGE_SIZE).
Proof.
  intros W Ha Hnr H ->. unfold page_pipe_read, get_ppb in H.
  destruct (find_ppb pp (bufs pp) addr) as [[[[id b] v] skip]|] eqn:Ef; [|done].
  destruct (find_ppb_spec _ _ _ _ _ _ _ Ef) as (Hin & Hb & Hs).
  destruct (wf_bufs pp W id b Hin Hb) as (_ & _ & _ & Hok & Hpg & (?&?&?&?)).
  pose proof (bytes_of_pages _ Hok) as Hbytes. rewrite <-Hpg in Hbytes.
  destruct (find_seg_spec (segs pp b) addr 0 v skip Hok ltac:(lia) ltac:(plia) Hs)
    as (l1 & l2 & Hl & Hv & Hva & Hlen).
  pose proof Hv as (?&?&?&?&?).
  assert (Hf1 : Forall iov_ok l1) by (rewrite Hl in Hok; by apply Forall_app in Hok as [? _]).
  pose proof (bytes_of_nonneg _ Hf1). pose proof (bytes_of_pages _ Hf1) as Hb1.
  destruct (has (ppb_flags b) flags); [|done]. cbn [negb] in H.
  rewrite (u64_id (iov_base v + iov_len v - addr)), (u64_id (nr * PAGE_SIZE)),
    (u64_id (pipe_off b * PAGE_SIZE)) in H by plia.
  set (len := Z.min (iov_base v + iov_len v - addr) (nr * PAGE_SIZE)) in *.
  assert (Hlim : skip <= pages_in b * PAGE_SIZE).
  { rewrite <-Hbytes, Hl, Hlen, bytes_of_app. simpl.
    rewrite Hl in Hok. apply Forall_app in Hok as [_ [_ Hf2]%Forall_cons_1].
    pose proof (bytes_of_nonneg _ Hf2). lia. }
  assert (0 <= len < 2 ^ 63) by (unfold len; plia).
  rewrite (u64_id (skip + pipe_off b * PAGE_SIZE)) in H by plia.
  rewrite (u64_id (len + (skip + pipe_off b * PAGE_SIZE))) in H by plia.
  destruct (u64 (tee _) =? _); [|done]. destruct (u64 (splice _) =? _); [|done]. simpl in H.
  injection H as <- <- <- <- <-.
  assert (Hlal : aligned len).
  { unfold len. destruct (Z.min_spec (iov_base v + iov_len v - addr) (nr * PAGE_SIZE)) as [[_ ->]|[_ ->]];
      [pdiv|apply aligned_mul]. }
  assert (Hnr' : u32 (len / PAGE_SIZE) = len / PAGE_SIZE) by (rewrite u32_id; [done|unfold len in *; pdiv]).
  rewrite Hnr'. exists b, id. split_and!; try done.
  - pdiv.
  - unfold len in *. pdiv.
  - lia.
  - intros i Hi. rewrite Hl, bind_app. csimpl.
    set (k := Z.to_nat ((addr - iov_base v) / PAGE_SIZE + i)).
    replace (Z.to_nat _) with (length (l1 ≫= iov_pages) + k)%nat
      by (unfold k; subst skip; unfold len in *; rewrite Hb1; pdiv).
    rewrite lookup_app_r, Nat.add_comm, Nat.add_sub by lia.
    rewrite lookup_app_l_Some with (x := addr + i * PAGE_SIZE); [done|].
    apply iov_pages_lookup; try done; try lia. unfold len in *. pdiv.
Qed.

(** ** Creation and reuse *)

Lemma wf_empty n flags v :
  Z.of_nat (length v) = n -> n < 2 ^ 32 -> wf (empty_page_pipe n flags v).
Proof.
  intros Hl Hn.
  constructor; simpl;
    first [ lia | apply base.NoDup_nil_2 | intros id Hid; by apply elem_of_nil in Hid
          | intros id b Hid; by apply elem_of_nil in Hid | intros [|? l] id b Hl'; by simplify_eq
          | by intros id [|] | done ].
Qed.

Lemma grown_nonempty pp flags : grown pp flags -> bufs pp <> [].
Proof. intros (l & id & b & -> & _). apply not_eq_sym, app_cons_not_nil. Qed.

Lemma grow_keeps_holes t pp flags r t' pp' :
  page_pipe_grow flags (t, pp) = Done (r, (t', pp')) ->
  free_hole pp' = free_hole pp /\ holes pp' = holes pp /\ hole_flags pp' = hole_flags pp /\
  nr_holes pp' = nr_holes pp.
Proof.
  unfold page_pipe_grow, grow_out, ppb_alloc, resize_prev, bind, pp_update_prev_ppb.
  intros H. repeat (case_match; simplify_eq; simpl in *; try done).
Qed.

Definition empty_contents (pp : page_pipe) : Prop :=
  wf pp /\ wf_holes pp /\ bufs pp <> [] /\ pp_pages pp = [] /\ pp_hole_pages pp = [].

Lemma grow_empty_contents `{!PipeKernelOk K} t pp :
  wf pp -> pp_pages pp = [] -> free_hole pp = 0 -> 0 <= nr_holes pp ->
  nr_holes pp <= Z.of_nat (length (holes pp)) -> nr_holes pp <= Z.of_nat (length (hole_flags pp)) ->
  exists r t' pp',
    page_pipe_grow 0 (t, pp) = Done (r, (t', pp')) /\
    free_iov pp' = free_iov pp /\ nr_iovs pp' = nr_iovs pp /\ (r = 0 -> empty_contents pp').
Proof.
  intros W HP Hh ???. destruct (page_pipe_grow_spec t pp 0 W)
    as (r & t' & pp' & Hg & W' & HP' & (? & ? & _) & Hr).
  destruct (grow_keeps_holes _ _ _ _ _ _ Hg) as (Hh1 & Hh2 & Hh3 & Hh4).
  exists r, t', pp'. split_and!; try done. intros ->.
  destruct Hr as [[_ HG]|[?|[? _]]]; [|done|done].
  split_and!; [done| |by eapply grown_nonempty|congruence|].
  - constructor; rewrite ?Hh1, ?Hh2, ?Hh3, ?Hh4, ?Hh; simpl; [lia|apply Forall_nil_2].
  - unfold pp_hole_pages. by rewrite Hh1, Hh.
Qed.

Lemma create_ok `{!PipeKernelOk K} n v flags t :
  0 <= n < 2 ^ 32 -> (forall l, v = Some l -> Z.of_nat (length l) = n) ->
  exists o t', create_page_pipe n v flags t = Done (o, t') /\
    forall pp, o = Some pp ->
      empty_contents pp /\ free_iov pp = 0 /\ nr_iovs pp = n.
Proof.
  intros Hn Hv. unfold create_page_pipe.
  destruct (k_malloc t); cbn [negb]; [|by eexists None, _].
  assert (Hgo : forall l fl t1, Z.of_nat (length l) = n ->
    exists o t', match page_pipe_grow 0 (t1, empty_page_pipe n fl l) with
      | Done (r, (t, pp)) => Done (if r =? 0 then Some pp else None, t)
      | Bug => Bug | NoFuel => NoFuel end = Done (o, t') /\
      forall pp, o = Some pp -> empty_contents pp /\ free_iov pp = 0 /\ nr_iovs pp = n).
  { intros l fl t1 Hl.
    destruct (grow_empty_contents t1 (empty_page_pipe n fl l)) as (r & t2 & pp & -> & Hf & Hi & He);
      try done; [apply wf_empty; lia|].
    eexists _, t2. split; [done|]. destruct (Z.eqb_spec r 0); [|done].
    intros ? [= <-]. by split_and!; [apply He| |]. }
  destruct v as [l|]; [by apply Hgo, Hv|].
  destruct (k_malloc (S t)); [|by eexists None, _]. apply Hgo.
  rewrite length_replicate. lia.
Qed.

Lemma reinit_ok `{!PipeKernelOk K} t pp :
  wf pp -> wf_holes pp -> bufs pp <> [] -> has (pp_flags pp) PP_CHUNK_MODE = true ->
  exists t' pp', page_pipe_reinit (t, pp) = Done (tt, (t', pp')) /\
    empty_contents pp' /\ free_iov pp' = free_iov pp /\ nr_iovs pp' = nr_iovs pp /\
    packed (free_iov pp) pp' /\ nr_holes pp' = nr_holes pp /\
    (chunk_ok pp -> chunk_ok pp' /\ ((2 <= length (bufs pp))%nat -> free_bufs pp' <> [])).
Proof.
  intros W [Hw _] Hne Hc. unfold page_pipe_reinit. rewrite Hc. cbn [negb].
  set (pp1 := set_holes _ _ _ _ _).
  assert (Hperm : forall i, i ∈ bufs pp1 ++ free_bufs pp1 <-> i ∈ bufs pp ++ free_bufs pp).
  { intros i. unfold pp1. simpl. rewrite !elem_of_app, elem_of_reverse. tauto. }
  assert (W1 : wf pp1).
  { destruct W. constructor; simpl; try done.
    - intros i Hi. apply wf_alloc0. by apply Hperm.
    - apply list.NoDup_app in wf_nodup0 as (?&Hd&?). apply list.NoDup_app.
      split_and!; [by rewrite reverse_Permutation| |done].
      intros x Hx. apply Hd. by rewrite <-elem_of_reverse.
    - intros i b Hi. by apply elem_of_nil in Hi.
    - intros l i b Hl. by destruct l.
    - intros i b Hi Hb. rewrite elem_of_app, elem_of_reverse in Hi. destruct Hi as [Hi|Hi].
      + destruct (wf_bufs0 i b Hi Hb) as (_&_&_&_&_&?&?&?&?). done.
      + eauto.
    - intros i Hi. apply Hperm. auto.
    - intros Hx. congruence. }
  destruct (grow_empty_contents t pp1) as (r & t2 & pp2 & Hg & Hf & Hi & He);
    try done; try (unfold pp1; simpl; lia).
  unfold bind. rewrite Hg.
  assert (Hr : r = 0 /\ S (length (free_bufs pp2)) = length (reverse (bufs pp) ++ free_bufs pp)).
  { unfold page_pipe_grow in Hg. unfold pp1 in Hg at 1. simpl in Hg.
    destruct (reverse (bufs pp) ++ free_bufs pp) as [|i rest] eqn:Er.
    - exfalso. apply Hne. apply (f_equal length) in Er. rewrite length_app, length_reverse in Er.
      destruct (bufs pp); [done|simpl in Er; lia].
    - unfold grow_out in Hg. simpl in Hg. destruct (pp_heap pp !! i); by simplify_eq. }
  destruct Hr as [-> Hlen]. destruct (grow_packed (free_iov pp) _ _ _ _ _ _ W1 Hg) as ([G1 G2] & _ & _).
  pose proof (grow_keeps_holes _ _ _ _ _ _ Hg) as (_ & _ & _ & Hnh).
  exists t2, pp2. split_and!; try done; [by apply He|by apply G1|].
  intros (C1 & C2 & C3). split.
  - apply G2. split_and!; [done| |done]. simpl. rewrite C2, !length_app, length_reverse. done.
  - intros H2 Hx. rewrite Hx, length_app, length_reverse in Hlen. simpl in Hlen. lia.
Qed.

Lemma create_packed `{!PipeKernelOk K} n v flags t pp t' :
  0 <= n < 2 ^ 32 -> (forall l, v = Some l -> Z.of_nat (length l) = n) ->
  create_page_pipe n v flags t = Done (Some pp, t') ->
  packed 0 pp /\ (has flags PP_CHUNK_MODE = true -> chunk_ok pp) /\ nr_holes pp = 0.
Proof.
  intros Hn Hv. unfold create_page_pipe. destruct (negb (k_malloc t)); [done|].
  assert (Hgo : forall l fl t1, Z.of_nat (length l) = n -> (has flags PP_CHUNK_MODE = true -> has fl PP_CHUNK_MODE = true) ->
    match page_pipe_grow 0 (t1, empty_page_pipe n fl l) with
      | Done (r, (t, pp)) => Done (if r =? 0 then Some pp else None, t)
      | Bug => Bug | NoFuel => NoFuel end = Done (Some pp, t') ->
    packed 0 pp /\ (has flags PP_CHUNK_MODE = true -> chunk_ok pp) /\ nr_holes pp = 0).
  { intros l fl t1 Hl Hf. destruct (page_pipe_grow _ _) as [[r [t2 pp2]]| |] eqn:Hg; [|done|done].
    destruct (r =? 0); [|done]. intros [= -> <-].
    destruct (grow_packed 0 _ _ _ _ _ _ (wf_empty n fl l Hl ltac:(lia)) Hg) as ([G1 G2] & _ & _).
    apply grow_keeps_holes in Hg as (_ & _ & _ & ->). split_and!; [by apply G1| |done].
    intros Hx. apply G2. split_and!; [by apply Hf|done|done]. }
  destruct v as [l|]; [apply Hgo; [by apply Hv|done]|].
  destruct (k_malloc (S t)); [|done]. apply Hgo; [rewrite length_replicate; lia|].
  unfold has. intros Hx%negb_true_iff%Z.eqb_neq. apply negb_true_iff, Z.eqb_neq. intros He. apply Hx.
  rewrite Z.land_lor_distr_l in He. by apply Z.lor_eq_0_iff in He as [He _].
Qed.

Lemma destroy_ok pp : wf pp -> exists fds, destroy_page_pipe pp = Some fds.
Proof.
  intros W. unfold destroy_page_pipe.
  assert (H : exists l, mapM (fun id => pp_heap pp !! id) (free_bufs pp ++ bufs pp) = Some l) .
  { apply mapM_is_Some, list.Forall_forall. intros id Hid. apply (wf_alloc pp W).
    rewrite elem_of_app in *. tauto. }
  destruct H as [l ->]. by eexists.
Qed.

End Ops.
(** ** A kernel to run the definitions on

    Pipes start with 16 pages; [F_SETPIPE_SZ] rounds up to a power of two pages, as
    the kernel does, and refuses what exceeds [max] pages. *)
Definition round_up_pow2 (x : Z) : Z := 2 ^ Z.log2_up x.

Definition demo_kernel (max : Z) : PipeKernel := {|
  k_malloc := fun _ => true;
  k_pipe := fun t => Some (100 + 2 * Z.of_nat t, 101 + 2 * Z.of_nat t);
  k_setpipe := fun _ _ sz =>
    if (max * PAGE_SIZE <? sz) || (sz <=? 0) || (2 ^ 30 <? sz) then -1 else round_up_pow2 sz;
  k_getpipe := fun _ _ => 65536;
|}.

#[export] Instance demo_kernel_ok max : PipeKernelOk (demo_kernel max).
Proof.
  constructor; simpl; unfold round_up_pow2.
  - intros _ _ sz. case_match; [lia|]. intros _.
    destruct (Z.eq_dec sz 1) as [->|]; [done|]. destruct (Z.log2_up_spec sz); lia.
  - intros _ _ sz. destruct ((max * PAGE_SIZE <? sz) || (sz <=? 0) || (2 ^ 30 <? sz)) eqn:E; [lia|].
    assert (Z.log2_up sz <= 30).
    { apply (Z.le_trans _ (Z.log2_up (2 ^ 30))); [apply Z.log2_up_le_mono; lia|].
      rewrite Z.log2_up_pow2; lia. }
    apply (Z.le_lt_trans _ (2 ^ 30)); [apply Z.pow_le_mono_r; lia|lia].
  - intros. unfold PAGE_SIZE. lia.
Qed.

(** [n] pages from [a], [step] apart *)
Fixpoint add_range {K : PipeKernel} (lazy : bool) (n : nat) (a step flags : Z)
  : M (clock * page_pipe) Z :=
  match n with
  | O => ret 0
  | S n => (r <~ page_pipe_add_page lazy a flags ;;
            if r =? 0 then add_range lazy n (a + step) step flags else ret r)%cmon
  end.

Definition demo_pp : page_pipe :=
  match @create_page_pipe (demo_kernel 1024) false 1024 None 0 0%nat with
  | Done (Some pp, _) => pp
  | _ => empty_page_pipe 0 0 []
  end.

Lemma demo_pp_created :
  exists t, @create_page_pipe (demo_kernel 1024) false 1024 None 0 0%nat = Done (Some demo_pp, t).
Proof. eexists. vm_compute. reflexivity. Qed.

Lemma demo_pp_ok : empty_contents demo_pp /\ free_iov demo_pp = 0 /\ nr_iovs demo_pp = 1024.
Proof.
  destruct demo_pp_created as [t Ht].
  destruct (@create_ok (demo_kernel 1024) false _ 1024 None 0 0%nat) as (o & t' & Hc & Ho);
    [lia|done|]. rewrite Ht in Hc. injection Hc as <- <-. by apply Ho.
Qed.

(** ** The properties *)

(** C26: adding a page to a well-formed page pipe never dies in a BUG, whatever the kernel
    answers about pipes: on 0 the page, with its flags, is appended to what the pipe holds; on an
    error (-1, or -EAGAIN) the contents are unchanged; the invariant (buffers disjoint in the
    iovec array, page counts right, every buffer within its pipe's size) is kept. *)
Theorem page_pipe_add_page_spec {K : PipeKernel} `{!PipeKernelOk K} lazy t pp addr flags :
  wf pp -> bufs pp <> [] -> addr_ok addr -> free_iov pp < nr_iovs pp ->
  exists r t' pp',
    page_pipe_add_page lazy addr flags (t, pp) = Done (r, (t', pp')) /\ wf pp' /\
    bufs pp' <> [] /\ nr_iovs pp' = nr_iovs pp /\ free_iov pp' <= free_iov pp + 1 /\
    (r = 0 /\ pp_pages pp' = pp_pages pp ++ [(addr, flags)] \/
     (r = -1 \/ r = - EAGAIN) /\ pp_pages pp' = pp_pages pp).
Proof. intros. by eapply add_page_ok. Qed.

Lemma page_pipe_add_page_witness :
  exists r t' pp',
    @page_pipe_add_page (demo_kernel 1024) false 8192 0 (5%nat, demo_pp) = Done (r, (t', pp')) /\
    wf pp' /\ bufs pp' <> [] /\ nr_iovs pp' = nr_iovs demo_pp /\
    free_iov pp' <= free_iov demo_pp + 1 /\
    (r = 0 /\ pp_pages pp' = pp_pages demo_pp ++ [(8192, 0)] \/
     (r = -1 \/ r = - EAGAIN) /\ pp_pages pp' = pp_pages demo_pp).
Proof.
  destruct demo_pp_ok as ((W & _ & Hne & _ & _) & Hf & Hn).
  apply page_pipe_add_page_spec; [exact W|exact Hne| |].
  - unfold addr_ok, aligned, PAGE_SIZE. split_and!; [lia|lia|reflexivity].
  - rewrite Hf, Hn. lia.
Defined.

(** adding a hole appends the page with its flags to the holes, leaves the pages alone and
    never leaves the bounds of the two hole arrays; when an allocation fails -1 is returned
    and the recorded holes are unchanged. *)
Theorem page_pipe_add_hole_spec {K : PipeKernel} t pp addr flags :
  wf pp -> wf_holes pp -> nr_holes pp + PP_HOLES_BATCH < 2 ^ 32 -> addr_ok addr ->
  exists r t' pp',
    page_pipe_add_hole addr flags (t, pp) = Done (r, (t', pp')) /\
    wf pp' /\ wf_holes pp' /\ pp_pages pp' = pp_pages pp /\
    (r = 0 /\ pp_hole_pages pp' = pp_hole_pages pp ++ [(addr, flags)] \/
     r = -1 /\ pp_hole_pages pp' = pp_hole_pages pp).
Proof. intros. by eapply add_hole_ok. Qed.

Lemma page_pipe_add_hole_witness :
  exists r t' pp',
    @page_pipe_add_hole (demo_kernel 1024) 8192 PP_HOLE_PARENT (5%nat, demo_pp) = Done (r, (t', pp')) /\
    wf pp' /\ wf_holes pp' /\ pp_pages pp' = pp_pages demo_pp /\
    (r = 0 /\ pp_hole_pages pp' = pp_hole_pages demo_pp ++ [(8192, PP_HOLE_PARENT)] \/
     r = -1 /\ pp_hole_pages pp' = pp_hole_pages demo_pp).
Proof.
  destruct demo_pp_ok as ((W & Wh & _) & _).
  apply page_pipe_add_hole_spec; [exact W|exact Wh|vm_compute; reflexivity|].
  unfold addr_ok, aligned, PAGE_SIZE. split_and!; [lia|lia|reflexivity].
Defined.

(** a page pipe that is created is well formed and empty, with its iovec array untouched. *)
Theorem create_page_pipe_spec {K : PipeKernel} `{!PipeKernelOk K} lazy n v flags t :
  0 <= n < 2 ^ 32 -> (forall l, v = Some l -> Z.of_nat (length l) = n) ->
  exists o t', create_page_pipe lazy n v flags t = Done (o, t') /\
    forall pp, o = Some pp -> empty_contents pp /\ free_iov pp = 0 /\ nr_iovs pp = n.
Proof. intros. by eapply create_ok. Qed.

Lemma create_page_pipe_witness :
  exists o t', @create_page_pipe (demo_kernel 64) true 7 None PP_CHUNK_MODE 0%nat = Done (o, t') /\
    forall pp, o = Some pp -> empty_contents pp /\ free_iov pp = 0 /\ nr_iovs pp = 7.
Proof.
  apply (@create_page_pipe_spec (demo_kernel 64) _ true 7 None PP_CHUNK_MODE 0%nat).
  - lia.
  - intros l Hl. discriminate Hl.
Defined.

(** in chunk mode, a page pipe that was drained is made empty again without an allocation
    that could fail (the BUG of [page_pipe_reinit] is unreachable); the iovecs already handed
    out stay used. *)
Theorem page_pipe_reinit_spec {K : PipeKernel} `{!PipeKernelOk K} lazy t pp :
  wf pp -> wf_holes pp -> bufs pp <> [] -> has (pp_flags pp) PP_CHUNK_MODE = true ->
  exists t' pp', page_pipe_reinit lazy (t, pp) = Done (tt, (t', pp')) /\
    empty_contents pp' /\ free_iov pp' = free_iov pp /\ nr_iovs pp' = nr_iovs pp.
Proof.
  intros W Wh Hne Hc. destruct (reinit_ok lazy t pp W Wh Hne Hc) as (t' & pp' & ? & ? & ? & ? & _).
  by exists t', pp'.
Qed.

Definition demo_chunk_pp : page_pipe :=
  match @create_page_pipe (demo_kernel 64) false 64 None PP_CHUNK_MODE 0%nat with
  | Done (Some pp, _) => pp
  | _ => empty_page_pipe 0 0 []
  end.

Lemma demo_chunk_pp_ok : empty_contents demo_chunk_pp.
Proof.
  destruct (@create_ok (demo_kernel 64) false _ 64 None PP_CHUNK_MODE 0%nat) as (o & t' & Hc & Ho);
    [lia|done|].
  assert (o = Some demo_chunk_pp) as ->.
  { revert Hc. vm_compute. intros [= <- _]. reflexivity. }
  by apply Ho.
Qed.

Lemma page_pipe_reinit_witness :
  exists t' pp', @page_pipe_reinit (demo_kernel 64) false (9%nat, demo_chunk_pp) = Done (tt, (t', pp')) /\
    empty_contents pp' /\ free_iov pp' = free_iov demo_chunk_pp /\ nr_iovs pp' = nr_iovs demo_chunk_pp.
Proof.
  destruct demo_chunk_pp_ok as (W & Wh & Hne & _).
  apply page_pipe_reinit_spec; [exact W|exact Wh|exact Hne|vm_compute; reflexivity].
Defined.

(** when pages are read back from the pipes (lazy migration), the bytes that
    [page_pipe_read] leaves in the destination pipe are exactly those of the requested pages:
    as many as are announced in [*nr_pages], never more than were asked for, and at the place
    of the pipe where the buffer put them. *)
Theorem page_pipe_read_spec tee splice pp addr nr flags nr' fd from to pp' :
  wf pp -> aligned addr -> 0 <= nr < 2 ^ 32 ->
  page_pipe_read tee splice pp addr nr flags = (0, nr', Some (fd, from, to), pp') ->
  exists b id, id ∈ bufs pp /\ pp_heap pp !! id = Some b /\ fd = p0 b /\
    to - from = nr' * PAGE_SIZE /\ nr' <= nr /\ pipe_off b * PAGE_SIZE <= from /\
    forall i, 0 <= i < nr' ->
      (segs pp b ≫= iov_pages) !! Z.to_nat (from / PAGE_SIZE - pipe_off b + i) =
        Some (addr + i * PAGE_SIZE).
Proof. intros. by eapply page_pipe_read_ok. Qed.

(** three pages in a row, then one more elsewhere *)
Definition demo_read_pp : page_pipe :=
  match (r <~ @add_range (demo_kernel 1024) false 3 8192 4096 0 ;;
         @add_range (demo_kernel 1024) false 2 65536 4096 PPB_LAZY)%cmon (5%nat, demo_pp) with
  | Done (_, (_, pp)) => pp
  | _ => empty_page_pipe 0 0 []
  end.

Lemma add_range_wf {K : PipeKernel} `{!PipeKernelOk K} lazy n a step flags t pp :
  wf pp -> bufs pp <> [] -> free_iov pp + Z.of_nat n <= nr_iovs pp ->
  (forall i, (i < n)%nat -> addr_ok (a + Z.of_nat i * step)) ->
  exists r t' pp', add_range lazy n a step flags (t, pp) = Done (r, (t', pp')) /\
    wf pp' /\ bufs pp' <> [] /\ free_iov pp' <= free_iov pp + Z.of_nat n /\ nr_iovs pp' = nr_iovs pp.
Proof.
  revert a t pp. induction n as [|n IH]; intros a t pp W Hne Hf Ha; simpl.
  { eexists 0, t, pp. split_and!; try done; lia. }
  destruct (add_page_ok lazy t pp a flags W Hne) as (r & t1 & pp1 & H1 & W1 & Hne1 & Hn1 & Hf1 & _).
  { specialize (Ha 0%nat ltac:(lia)). by rewrite Z.mul_0_l, Z.add_0_r in Ha. }
  { lia. }
  rewrite (bind_Done _ _ _ _ _ H1). destruct (r =? 0).
  - destruct (IH (a + step) t1 pp1 W1 Hne1) as (r2 & t2 & pp2 & -> & ? & ? & ? & ?).
    + lia.
    + intros i Hi. specialize (Ha (S i) ltac:(lia)).
      by replace (a + step + Z.of_nat i * step) with (a + Z.of_nat (S i) * step) by lia.
    + eexists r2, t2, pp2. split_and!; try done; lia.
  - eexists r, t1, pp1. split_and!; try done; lia.
Qed.

Lemma demo_read_pp_wf : wf demo_read_pp.
Proof.
  destruct demo_pp_ok as ((W & _ & Hne & _ & _) & Hf & Hn).
  assert (Hok : forall a n, 0 <= a < 2 ^ 40 -> aligned a -> 0 <= n < 2 ^ 20 -> addr_ok (a + n * 4096)).
  { intros a n ? ? ?. unfold addr_ok. split_and!; [lia|plia|]. apply aligned_add; [done|apply aligned_mul]. }
  destruct (@add_range_wf (demo_kernel 1024) _ false 3 8192 4096 0 5 demo_pp W Hne)
    as (r1 & t1 & pp1 & H1 & W1 & Hne1 & Hf1 & Hn1).
  { rewrite Hf, Hn. lia. }
  { intros i Hi. apply Hok; [lia|done|lia]. }
  destruct (@add_range_wf (demo_kernel 1024) _ false 2 65536 4096 PPB_LAZY t1 pp1 W1 Hne1)
    as (r2 & t2 & pp2 & H2 & W2 & _).
  { rewrite Hn1, Hn. rewrite Hf in Hf1. lia. }
  { intros i Hi. apply Hok; [lia|done|lia]. }
  unfold demo_read_pp. by rewrite (bind_Done _ _ _ _ _ H1), H2.
Qed.

Lemma page_pipe_read_witness :
  exists b id, id ∈ bufs demo_read_pp /\ pp_heap demo_read_pp !! id = Some b /\ 106 = p0 b /\
    20480 - 16384 = 1 * PAGE_SIZE /\ 1 <= 4 /\ pipe_off b * PAGE_SIZE <= 16384 /\
    forall i, 0 <= i < 1 ->
      (segs demo_read_pp b ≫= iov_pages) !! Z.to_nat (16384 / PAGE_SIZE - pipe_off b + i) =
        Some (69632 + i * PAGE_SIZE).
Proof.
  eapply (page_pipe_read_spec (fun l => l) (fun l => l) demo_read_pp 69632 4 PPB_LAZY 1 106 16384 20480).
  - apply demo_read_pp_wf.
  - reflexivity.
  - lia.
  - vm_compute. reflexivity.
Defined.

(** a full buffer of more than half of PIPE_MAX_SIZE pages whose pipe the kernel refuses to
    enlarge is left claiming PIPE_MAX_SIZE pages, although its pipe still has the old size
    (the new size is recorded before the resize is attempted). *)
Theorem resize_refused_overstates {K : PipeKernel} t b :
  cap_ok b -> pages_in b + pipe_off b = pipe_size b ->
  pipe_size b < PIPE_MAX_SIZE < 2 * pipe_size b ->
  k_setpipe t (p0 b) (2 * pipe_size b * PAGE_SIZE) < 0 ->
  ppb_resize_pipe (t, b) = Done (1, (S t, set_pipe_size b PIPE_MAX_SIZE)).
Proof.
  rewrite pp_page_max. intros (?&?&?&?) Hfull Hm Hk. unfold ppb_resize_pipe.
  rewrite u32_id, Z.shiftl_mul_pow2, u32_id, pp_page_max by lia. change (2 ^ 1) with 2.
  rewrite (proj2 (Z.ltb_ge _ _)), (proj2 (Z.ltb_lt 819 _)), (proj2 (Z.ltb_lt _ 819)) by lia.
  simpl. unfold bind, __ppb_resize_pipe. simpl. rewrite u64_id by plia.
  replace (pipe_size b * 2) with (2 * pipe_size b) by lia.
  by rewrite (proj2 (Z.ltb_lt _ _)) by lia.
Qed.

Lemma resize_refused_overstates_witness :
  @ppb_resize_pipe (demo_kernel 512) (3%nat, mk_ppb 5 6 512 0 512 1 0 0) =
    Done (1, (4%nat, mk_ppb 5 6 PIPE_MAX_SIZE 0 512 1 0 0)).
Proof.
  apply (@resize_refused_overstates (demo_kernel 512) 3%nat (mk_ppb 5 6 512 0 512 1 0 0)).
  - unfold cap_ok. simpl. lia.
  - reflexivity.
  - vm_compute. split; reflexivity.
  - vm_compute. reflexivity.
Defined.

(** with such a kernel 513 pages are put on one pipe that was never given more than 512
    pages: the second buffer shares the pipe of the first because of the overstated size. *)
Theorem overfull_pipe :
  exists t pp b0 b1,
    @add_range (demo_kernel 512) false 513 4096 4096 0 (5%nat, demo_pp) = Done (0, (t, pp)) /\
    pp_heap pp !! 0%nat = Some b0 /\ pp_heap pp !! 1%nat = Some b1 /\ bufs pp = [0%nat; 1%nat] /\
    p0 b0 = p0 b1 /\ pages_in b0 + pages_in b1 = 513 /\ pipe_size b1 = PIPE_MAX_SIZE /\
    (forall t fd sz, k_setpipe (PipeKernel := demo_kernel 512) t fd sz <= 512 * PAGE_SIZE).
Proof.
  do 4 eexists. split; [vm_compute; reflexivity|].
  split; [vm_compute; reflexivity|]. split; [vm_compute; reflexivity|].
  split_and!; try reflexivity.
  intros t fd sz. simpl. unfold round_up_pow2, PAGE_SIZE.
  destruct ((512 * 4096 <? sz) || (sz <=? 0) || (2 ^ 30 <? sz)) eqn:E; [lia|].
  change (512 * 4096) with (2 ^ 21) in *. apply Z.pow_le_mono_r; [lia|].
  apply (Z.le_trans _ (Z.log2_up (2 ^ 21))); [apply Z.log2_up_le_mono; lia|].
  rewrite Z.log2_up_pow2; lia.
Qed.

(** the pipe of a buffer grows past PIPE_MAX_SIZE (1024 pages, not 819), so that a buffer can
    hold more iovecs than the PIPE_MAX_SIZE entries of [aux_iov] in [page_xfer_predump_pages]. *)
Theorem buffer_exceeds_pipe_max :
  exists t pp b,
    @add_range (demo_kernel 1024) false 1024 4096 8192 0 (5%nat, demo_pp) = Done (0, (t, pp)) /\
    pp_heap pp !! 0%nat = Some b /\ PIPE_MAX_SIZE < nr_segs b /\ PIPE_MAX_SIZE < pipe_size b.
Proof.
  do 3 eexists. split; [vm_compute; reflexivity|].
  split; [vm_compute; reflexivity|]. split; vm_compute; reflexivity.
Qed.

(** without lazy pages, when the first page recorded may be lazy, two buffers share one
    pipe and both start at offset 0, so that [destroy_page_pipe] closes both ends twice. *)
Theorem destroy_closes_twice :
  exists t pp r w,
    @add_range (demo_kernel 1024) false 1 4096 4096 PPB_LAZY (5%nat, demo_pp) = Done (0, (t, pp)) /\
    destroy_page_pipe pp = Some [r; w; r; w].
Proof. do 4 eexists. split; vm_compute; reflexivity. Qed.

End PagePipe.
