(* ===== verification/Pagemap.v ===== *)
(** * Reading pages back (criu/pagemap.c, criu/include/pagemap.h)

    A [page_read] walks the pagemap entries of one snapshot and the pages image they
    describe; the pages that a snapshot leaves to its parent are read through the
    parent's [page_read].  The pointer [parent] makes a chain, so that the state is the
    list of the levels, the top-most snapshot first. *)
From S2P Require Import Prelude.

Module Pagemap.
Open Scope cmon_scope.

Definition MAX_BUNCH_SIZE : Z := 256.
Definition IOV_MAX : Z := 1024.
Definition PR_ASYNC : Z := 1.
Definition PR_ASAP : Z := 2.
Definition PE_PARENT : Z := 1.
Definition PE_LAZY : Z := 2.
Definition PE_PRESENT : Z := 4.
Definition PAGEMAP_ENTRY_SIZE_ESTIMATE : Z := 16.
Definition DUP_IDS_BASE : Z := 1000.

(** ** Data *)

(** images/pagemap.proto *)
Record PagemapEntry := mk_pe {
  vaddr : Z;
  nr_pages : Z;
  has_in_parent : bool; in_parent : bool;
  has_flags : bool; flags : Z;
}.

#[global] Instance PagemapEntry_eq_dec : EqDecision PagemapEntry.
Proof. solve_decision. Defined.

Definition pagemap_len (pe : PagemapEntry) : Z := u64 (nr_pages pe * PAGE_SIZE).
Definition pagemap_in_parent (pe : PagemapEntry) : bool := has (flags pe) PE_PARENT.
Definition pagemap_lazy (pe : PagemapEntry) : bool := has (flags pe) PE_LAZY.
Definition pagemap_present (pe : PagemapEntry) : bool := has (flags pe) PE_PRESENT.

(** one job for preadv(): [to] holds its [nr] iovecs *)
Record page_read_iov := mk_piov {
  from : Z;
  end_ : Z;
  to : list iovec;
}.

Record page_read := mk_pr {
  pe : option PagemapEntry;
  cvaddr : Z;
  pi_off : Z;
  bunch : iovec;
  pmes : list PagemapEntry;
  curr_pme : Z;
  async : list page_read_iov;
  pi : Z -> Z;                   (* the bytes of the pages image *)
  pr_id : Z;
  img_id : Z;
}.

Definition set_pos (pr : page_read) (e : option PagemapEntry) (cv off cur : Z) : page_read :=
  mk_pr e cv off (bunch pr) (pmes pr) cur (async pr) (pi pr) (pr_id pr) (img_id pr).
Definition set_bunch (pr : page_read) (b : iovec) : page_read :=
  mk_pr (pe pr) (cvaddr pr) (pi_off pr) b (pmes pr) (curr_pme pr) (async pr) (pi pr)
        (pr_id pr) (img_id pr).
Definition set_async (pr : page_read) (a : list page_read_iov) : page_read :=
  mk_pr (pe pr) (cvaddr pr) (pi_off pr) (bunch pr) (pmes pr) (curr_pme pr) a (pi pr)
        (pr_id pr) (img_id pr).
Definition set_pi (pr : page_read) (f : Z -> Z) : page_read :=
  mk_pr (pe pr) (cvaddr pr) (pi_off pr) (bunch pr) (pmes pr) (curr_pme pr) (async pr) f
        (pr_id pr) (img_id pr).

(** What the kernel answers, call by call.  [k_pread t n] and [k_preadv t n] are the
    results of reading [n] bytes. *)
Class ReadKernel := {
  k_fallocate : clock -> Z;
  k_pread : clock -> Z -> Z;
  k_preadv : clock -> Z -> Z;
  k_xmalloc : clock -> bool;
}.

(** pread(2), preadv(2): the number of bytes read is at most the number requested. *)
Class ReadKernelOk (K : ReadKernel) : Prop := {
  pread_le : forall t n, k_pread t n <= n;
  preadv_le : forall t n, k_preadv t n <= n;
}.

(** [len] bytes from [src], starting at its byte [off], stored at [dst] *)
Definition blit (mem : Z -> Z) (dst : Z) (src : Z -> Z) (off len : Z) : Z -> Z :=
  fun a => if (dst <=? a) && (a <? dst + len) then src (off + (a - dst)) else mem a.

(** [len] bytes from byte [off] of [src] scattered over the iovecs, as preadv does *)
Fixpoint scatter (mem : Z -> Z) (l : list iovec) (src : Z -> Z) (off len : Z) : Z -> Z :=
  match l with
  | [] => mem
  | v :: l =>
    if len <=? 0 then mem
    else scatter (blit mem (iov_base v) src off (Z.min len (iov_len v))) l src
                 (off + iov_len v) (len - iov_len v)
  end.

(** ** The position in the pagemap *)

Definition advance (pr : page_read) : bool * page_read :=
  let cur := curr_pme pr + 1 in
  if Z.of_nat (length (pmes pr)) <=? cur
  then (false, set_pos pr (pe pr) (cvaddr pr) (pi_off pr) cur)
  else
    match pmes pr !! Z.to_nat cur with
    | Some e => (true, set_pos pr (Some e) (vaddr e) (pi_off pr) cur)
    | None => (false, set_pos pr (pe pr) (cvaddr pr) (pi_off pr) cur)
    end.

(** [pr->pe] is dereferenced when there is something to skip *)
Definition skip_pagemap_pages (pr : page_read) (len : Z) : res page_read :=
  if len =? 0 then Done pr
  else
    match pe pr with
    | None => Bug
    | Some e =>
      Done (set_pos pr (Some e) (u64 (cvaddr pr + len))
                    (if pagemap_present e then pi_off pr + len else pi_off pr) (curr_pme pr))
    end.

Fixpoint seek_loop (fuel : nat) (pr : page_read) (va : Z) : res (bool * page_read) :=
  match fuel with
  | O => NoFuel
  | S fuel =>
    match pe pr with
    | None => Bug
    | Some e =>
      let start := vaddr e in
      let end_ := u64 (start + pagemap_len e) in
      if va <? cvaddr pr then Done (false, pr)
      else if (start <=? va) && (va <? end_) then
        match skip_pagemap_pages pr (u64 (va - cvaddr pr)) with
        | Done pr => Done (true, pr)
        | Bug => Bug
        | NoFuel => NoFuel
        end
      else
        match (if end_ <=? va then skip_pagemap_pages pr (u64 (end_ - cvaddr pr)) else Done pr) with
        | Done pr =>
          let (more, pr) := advance pr in
          if more then seek_loop fuel pr va else Done (false, pr)
        | Bug => Bug
        | NoFuel => NoFuel
        end
    end
  end.

(** one iteration per entry, and one more *)
Definition seek_fuel (pr : page_read) : nat := S (length (pmes pr)).

Definition seek_pagemap (pr : page_read) (va : Z) : res (bool * page_read) :=
  match pe pr with
  | Some _ => seek_loop (seek_fuel pr) pr va
  | None =>
    let (more, pr) := advance pr in
    if more then seek_loop (seek_fuel pr) pr va else Done (false, pr)
  end.

(** [true]: within bounds; otherwise BUG() *)
Definition pagemap_bound_check (e : PagemapEntry) (va nr : Z) : bool :=
  negb ((va <? vaddr e) || (nr_pages e <? u64 (u64 (va - vaddr e) / PAGE_SIZE + nr))).

(** [pr->parent] is reset too *)
Definition reset_one (pr : page_read) : page_read := set_pos pr None 0 0 (-1).
Definition reset_pagemap (chain : list page_read) : list page_read := reset_one <$> chain.

Section Ops.
Context {K : ReadKernel}.
(** [opts.auto_dedup], the fault FI_PARTIAL_PAGES, and the client's [io_complete] *)
Variable auto_dedup : bool.
Variable partial_pages : bool.
Variable io_complete : option (Z -> Z -> Z).

(** ** Punching holes *)

Definition can_extend_bunch (b : iovec) (off len : Z) : bool :=
  (u64 (iov_base b + iov_len b) =? off) &&
  ((iov_len b =? 0) || (u64 (iov_len b + len) <? MAX_BUNCH_SIZE * PAGE_SIZE)).

(** fallocate(FALLOC_FL_PUNCH_HOLE) zeroes the range *)
Definition punch (f : Z -> Z) (off len : Z) : Z -> Z :=
  fun i => if (off <=? i) && (i <? off + len) then 0 else f i.

Definition punch_hole (off len : Z) (cleanup : bool) : M (clock * page_read) Z :=
  fun '(t, pr) =>
    let b := bunch pr in
    if negb cleanup && can_extend_bunch b off len then
      Done (0, (t, set_bunch pr (mk_iovec (iov_base b) (u64 (iov_len b + len)))))
    else if 0 <? iov_len b then
      if k_fallocate t =? 0 then
        Done (0, (S t, set_bunch (set_pi pr (punch (pi pr) (iov_base b) (iov_len b)))
                                 (mk_iovec off len)))
      else Done (-1, (S t, pr))
    else Done (0, (t, set_bunch pr (mk_iovec off len))).

(** [dedup_one_iovec]: one level and the loop over its entries; [up] handles the
    parent, when there is one. *)
Fixpoint dedup_loop (fuel : nat) (up : Z -> Z -> M (clock * list page_read) Z)
         (off iov_end : Z) (t : clock) (pr : page_read) (parents : list page_read)
  : res (Z * (clock * list page_read)) :=
  match fuel with
  | O => NoFuel
  | S fuel =>
    match seek_pagemap pr off with
    | Bug => Bug
    | NoFuel => NoFuel
    | Done (found, pr) =>
      if negb found && negb ((off <? cvaddr pr) && (cvaddr pr <? iov_end))
      then Done (0, (t, pr :: parents))
      else
        let off := if found then off else cvaddr pr in
        match pe pr with
        | None => Done (-1, (t, pr :: parents))
        | Some e =>
          let piov_end := u64 (vaddr e + pagemap_len e) in
          let len := u64 (Z.min piov_end iov_end - off) in
          match (if pagemap_in_parent e then Done (0, (t, pr))
                 else punch_hole (pi_off pr) len false (t, pr)) with
          | Bug => Bug
          | NoFuel => NoFuel
          | Done (r, (t, pr)) =>
            if r =? -1 then Done (-1, (t, pr :: parents))
            else
              match (match parents with
                     | [] => Done (0, (t, parents))
                     | _ => up off len (t, parents)
                     end) with
              | Bug => Bug
              | NoFuel => NoFuel
              | Done (r, (t, parents)) =>
                if negb (r =? 0) then Done (-1, (t, pr :: parents))
                else if piov_end <? iov_end
                     then dedup_loop fuel up piov_end iov_end t pr parents
                     else Done (0, (t, pr :: parents))
              end
          end
        end
    end
  end.

Fixpoint dedup_one_iovec (depth : nat) (off len : Z) : M (clock * list page_read) Z :=
  fun '(t, chain) =>
    match depth, chain with
    | S depth, pr :: parents =>
      dedup_loop (seek_fuel pr + 1) (dedup_one_iovec depth) off (u64 (off + len)) t pr parents
    | _, _ => NoFuel
    end.

(** ** Asynchronous requests *)

Definition enqueue_async_iov (pr : page_read) (t : clock) (buf len : Z) (q : list page_read_iov)
  : Z * clock * list page_read_iov :=
  if negb (k_xmalloc t) then (-1, S t, q)
  else if negb (k_xmalloc (S t)) then (-1, S (S t), q)
  else (0, S (S t), q ++ [mk_piov (pi_off pr) (pi_off pr + len) [mk_iovec buf len]]).

Definition pagemap_enqueue_iovec (pr : page_read) (t : clock) (buf len : Z)
           (q : list page_read_iov) : Z * clock * list page_read_iov :=
  match list.last q with
  | None => enqueue_async_iov pr t buf len q
  | Some cur =>
    if negb (pi_off pr =? end_ cur) then enqueue_async_iov pr t buf len q
    else
      let rest := take (length q - 1) q in
      match list.last (to cur) with
      | Some iov =>
        if iov_base iov + iov_len iov =? buf then
          (0, t, rest ++ [mk_piov (from cur) (end_ cur + len)
                            (take (length (to cur) - 1) (to cur) ++
                             [mk_iovec (iov_base iov) (iov_len iov + len)])])
        else if IOV_MAX <=? Z.of_nat (length (to cur)) + 1 then enqueue_async_iov pr t buf len q
        else if k_xmalloc t then
          (0, S t, rest ++ [mk_piov (from cur) (end_ cur + len) (to cur ++ [mk_iovec buf len])])
        else (-1, S t, q)
      | None => (-1, t, q)          (* a queued request has at least one iovec *)
      end
  end.

(** [None]: past the end of the iovecs *)
Fixpoint advance_iovs (l : list iovec) (len : Z) : option (list iovec) :=
  if len =? 0 then Some l
  else
    match l with
    | [] => None
    | cur :: l =>
      if iov_len cur <=? len then advance_iovs l (len - iov_len cur)
      else Some (mk_iovec (iov_base cur + len) (iov_len cur - len) :: l)
    end.

Definition advance_piov (p : page_read_iov) (len : Z) : option page_read_iov :=
  l ← advance_iovs (to p) len; Some (mk_piov (from p + len) (end_ p) l).

(** the loop around label [more]: the last result of preadv and the memory *)
Fixpoint read_piov (fuel : nat) (t : clock) (f : Z -> Z) (mem : Z -> Z) (p : page_read_iov)
  : res (Z * clock * (Z -> Z)) :=
  match fuel with
  | O => NoFuel
  | S fuel =>
    let want := end_ p - from p in
    let r := k_preadv t want in
    let mem := scatter mem (to p) f (from p) r in
    let r := if partial_pages && (0 <? r) && (2 <=? Z.of_nat (length (to p))) then r / 2 else r in
    if r =? want then Done (r, S t, mem)
    else if r <? 0 then Done (-1, S t, mem)
    else
      match advance_piov p r with
      | None => Bug
      | Some p => read_piov fuel (S t) f mem p
      end
  end.

(** The requests of one level; [iofuel] bounds the reads of one request. *)
Fixpoint process_queue (iofuel : nat) (q : list page_read_iov) (t : clock) (mem : Z -> Z)
         (pr : page_read) : res (Z * (clock * (Z -> Z) * page_read)) :=
  match q with
  | [] => Done (0, (t, mem, set_async pr []))
  | p :: q =>
    match read_piov iofuel t (pi pr) mem p with
    | Bug => Bug
    | NoFuel => NoFuel
    | Done (r, t, mem) =>
      if r <? 0 then Done (-1, (t, mem, set_async pr (p :: q)))
      else
        match (if auto_dedup then punch_hole (from p) r false (t, pr) else Done (0, (t, pr))) with
        | Bug => Bug
        | NoFuel => NoFuel
        | Done (pr_ret, (t, pr)) =>
          if negb (pr_ret =? 0) then Done (-1, (t, mem, set_async pr (p :: q)))
          else if decide (is_Some io_complete) then Bug     (* BUG_ON(pr->io_complete) *)
          else process_queue iofuel q t mem pr
        end
    end
  end.

Fixpoint process_async_reads (iofuel : nat) (chain : list page_read) (t : clock) (mem : Z -> Z)
  : res (Z * (clock * (Z -> Z) * list page_read)) :=
  match chain with
  | [] => Done (0, (t, mem, []))
  | pr :: parents =>
    match process_queue iofuel (async pr) t mem pr with
    | Bug => Bug
    | NoFuel => NoFuel
    | Done (r, (t, mem, pr)) =>
      if negb (r =? 0) then Done (r, (t, mem, pr :: parents))
      else
        match process_async_reads iofuel parents t mem with
        | Bug => Bug
        | NoFuel => NoFuel
        | Done (r, (t, mem, parents)) => Done (r, (t, mem, pr :: parents))
        end
    end
  end.

(** ** Reading *)

(** the pread loop: [curr] bytes are there already *)
Fixpoint pread_loop (fuel : nat) (t : clock) (f : Z -> Z) (mem : Z -> Z) (buf off len curr : Z)
  : res (Z * clock * (Z -> Z)) :=
  match fuel with
  | O => NoFuel
  | S fuel =>
    let r := k_pread t (len - curr) in
    if r <? 1 then Done (-1, S t, mem)
    else
      let mem := blit mem (buf + curr) f (off + curr) r in
      if curr + r =? len then Done (r, S t, mem)
      else pread_loop fuel (S t) f mem buf off len (curr + r)
  end.

Definition rstate : Type := clock * (Z -> Z) * list page_read.

Definition read_local_page (iofuel : nat) (len buf : Z) : M rstate Z :=
  fun '(t, mem, chain) =>
    match process_async_reads iofuel chain t mem with
    | Bug => Bug
    | NoFuel => NoFuel
    | Done (r, (t, mem, chain)) =>
      if negb (r =? 0) then Done (-1, (t, mem, chain))
      else
        match chain with
        | [] => Bug
        | pr :: parents =>
          match pread_loop iofuel t (pi pr) mem buf (pi_off pr) len 0 with
          | Bug => Bug
          | NoFuel => NoFuel
          | Done (r, t, mem) =>
            if r <? 0 then Done (-1, (t, mem, pr :: parents))
            else if auto_dedup then
              match punch_hole (pi_off pr) len false (t, pr) with
              | Bug => Bug
              | NoFuel => NoFuel
              | Done (r, (t, pr)) => Done (if r =? -1 then -1 else 0, (t, mem, pr :: parents))
              end
            else Done (0, (t, mem, pr :: parents))
          end
        end
    end.

Definition add_pi_off (pr : page_read) (len : Z) : page_read :=
  set_pos pr (pe pr) (cvaddr pr) (pi_off pr + len) (curr_pme pr).

Definition maybe_read_page_local (iofuel : nat) (va nr buf fl : Z) : M rstate Z :=
  fun '(t, mem, chain) =>
    let len := u64 (nr * PAGE_SIZE) in
    if Z.land fl (Z.lor PR_ASYNC PR_ASAP) =? PR_ASYNC then
      match chain with
      | [] => Bug
      | pr :: parents =>
        let '(r, t, q) := pagemap_enqueue_iovec pr t buf len (async pr) in
        Done (r, (t, mem, add_pi_off (set_async pr q) len :: parents))
      end
    else
      match read_local_page iofuel len buf (t, mem, chain) with
      | Bug => Bug
      | NoFuel => NoFuel
      | Done (r, (t, mem, chain)) =>
        let r := match io_complete with
                 | Some f => if r =? 0 then f va nr else r
                 | None => r
                 end in
        match chain with
        | [] => Bug
        | pr :: parents => Done (r, (t, mem, add_pi_off pr len :: parents))
        end
      end.

(** [read_page_complete], called when the page server has answered *)
Definition read_page_complete (pr : page_read) (id va nr : Z) : Z :=
  if negb (img_id pr =? id) then -1
  else match io_complete with Some f => f va nr | None => 0 end.

(** [read_parent_page]: [rd] reads from the parents, whose first level is sought *)
Fixpoint parent_loop (fuel : nat) (rd : Z -> Z -> Z -> M rstate Z) (va nr buf : Z)
  : M rstate Z :=
  fun '(t, mem, parents) =>
    match fuel with
    | O => NoFuel
    | S fuel =>
      match parents with
      | [] => Done (-1, (t, mem, []))
      | ppr :: up =>
        match seek_pagemap ppr va with
        | Bug => Bug
        | NoFuel => NoFuel
        | Done (false, ppr) => Done (-1, (t, mem, ppr :: up))
        | Done (true, ppr) =>
          match pe ppr with
          | None => Bug
          | Some e =>
            let p_nr := Z.min (s32 (nr_pages e - u64 (va - vaddr e) / PAGE_SIZE)) nr in
            match rd va p_nr buf (t, mem, ppr :: up) with
            | Bug => Bug
            | NoFuel => NoFuel
            | Done (r, st) =>
              if r =? -1 then Done (r, st)
              else if nr - p_nr =? 0 then Done (0, st)
              else parent_loop fuel rd (u64 (va + p_nr * PAGE_SIZE)) (nr - p_nr)
                               (buf + p_nr * PAGE_SIZE) st
            end
          end
        end
      end
    end.

(** [read_pagemap_page]; only the top-most level may use another reader than
    [maybe_read_page_local].  [depth] bounds the chain. *)
Fixpoint read_pagemap_page (depth iofuel : nat) (fl va nr buf : Z) : M rstate Z :=
  fun '(t, mem, chain) =>
    match depth, chain with
    | S depth, pr :: parents =>
      match pe pr with
      | None => Bug
      | Some e =>
        if negb (pagemap_bound_check e va nr) then Bug
        else
          match (if pagemap_in_parent e then
                   match parent_loop (S (Z.to_nat nr)) (read_pagemap_page depth iofuel fl)
                                     va nr buf (t, mem, parents) with
                   | Bug => Bug
                   | NoFuel => NoFuel
                   | Done (r, (t, mem, parents)) => Done (r, (t, mem, pr :: parents))
                   end
                 else maybe_read_page_local iofuel va nr buf fl (t, mem, pr :: parents)) with
          | Bug => Bug
          | NoFuel => NoFuel
          | Done (r, (t, mem, chain)) =>
            if r <? 0 then Done (-1, (t, mem, chain))
            else
              match chain with
              | [] => Bug
              | pr :: parents =>
                Done (1, (t, mem,
                          set_pos pr (pe pr) (u64 (cvaddr pr + nr * PAGE_SIZE)) (pi_off pr)
                                  (curr_pme pr) :: parents))
              end
          end
      end
    | _, _ => NoFuel
    end.

(** [close_page_read]: flush the bunch of every level, until one cannot be punched *)
Fixpoint close_page_read (t : clock) (chain : list page_read) : res (clock * list page_read) :=
  match chain with
  | [] => Done (t, [])
  | pr :: parents =>
    if negb (bool_decide (async pr = [])) then Bug
    else
      match (if 0 <? iov_len (bunch pr) then punch_hole 0 0 true (t, pr) else Done (0, (t, pr))) with
      | Bug => Bug
      | NoFuel => NoFuel
      | Done (r, (t, pr)) =>
        if r =? -1 then Done (t, pr :: parents)
        else
          let pr := set_bunch pr (mk_iovec (iov_base (bunch pr)) 0) in
          match close_page_read t parents with
          | Done (t, parents) => Done (t, pr :: parents)
          | Bug => Bug
          | NoFuel => NoFuel
          end
      end
  end.

(** ** Opening *)

Definition init_compat_pagemap_entry (e : PagemapEntry) : PagemapEntry :=
  let fl := if has_in_parent e && in_parent e then Z.lor (flags e) PE_PARENT
            else if negb (has_flags e) then PE_PRESENT
            else flags e in
  mk_pe (vaddr e) (nr_pages e) (has_in_parent e) (in_parent e) (has_flags e) fl.

(** the entries are stored in an array of [cap] slots, enlarged by [step] when full *)
Fixpoint init_loop (l : list PagemapEntry) (acc : list PagemapEntry) (cap step : Z) (t : clock)
  : res (option (list PagemapEntry) * clock) :=
  if cap <=? Z.of_nat (length acc) then Bug       (* &pr->pmes[pr->nr_pmes] out of the array *)
  else
    match l with
    | [] => Done (Some acc, t)
    | e :: l =>
      let acc := acc ++ [init_compat_pagemap_entry e] in
      if cap <=? Z.of_nat (length acc) then
        if k_xmalloc t then init_loop l acc (cap + step) step (S t) else Done (None, S t)
      else init_loop l acc cap step t
    end.

(** [l]: the entries of the pagemap image; [fsize]: its size in bytes (1024 when streaming) *)
Definition init_pagemaps (fsize : Z) (l : list PagemapEntry) (t : clock)
  : res (option (list PagemapEntry) * clock) :=
  if fsize <? 0 then Done (None, t)
  else
    let nr := fsize / PAGEMAP_ENTRY_SIZE_ESTIMATE + 1 in
    if negb (k_xmalloc t) then Done (None, S t)
    else init_loop l [] nr (nr / 2) (S t).

(** One image directory: what opening its pagemap and pages images gives. *)
Inductive imgdir :=
| NoImage                                            (* open_image_at fails *)
| EmptyImage                                         (* empty_image() *)
| NoPages (l : list PagemapEntry)                    (* open_pages_image_at fails *)
| Images (fsize : Z) (l : list PagemapEntry) (pages : Z -> Z).

(** [dirs]: the directory and those reached by following the parent links.  Result
    -1, 0 or 1 as documented in pagemap.h, with the levels opened; [ids] numbers them. *)
Fixpoint open_page_read_at (stream : bool) (dirs : list imgdir) (id : Z) (ids : Z) (t : clock)
  : res (Z * list page_read * Z * clock) :=
  match dirs with
  | [] => Done (-1, [], ids, t)
  | d :: up =>
    match d with
    | NoImage => Done (-1, [], ids, t)
    | EmptyImage => Done (0, [], ids, t)
    | _ =>
      (* try_open_parent *)
      match (if stream then Done (0, [], ids, t)
             else match up with
                  | [] => Done (0, [], ids, t)
                  | _ => if k_xmalloc t
                         then match open_page_read_at stream up id ids (S t) with
                              | Done (r, ch, ids, t) =>
                                Done (if r <? 0 then -1 else 0,
                                      if r =? 0 then [] else ch, ids, t)
                              | Bug => Bug
                              | NoFuel => NoFuel
                              end
                         else Done (-1, [], ids, S t)
                  end) with
      | Bug => Bug
      | NoFuel => NoFuel
      | Done (r, parents, ids, t) =>
        if negb (r =? 0) then Done (-1, [], ids, t)
        else
          match d with
          | Images fsize l pages =>
            match init_pagemaps (if stream then 1024 else fsize) l t with
            | Bug => Bug
            | NoFuel => NoFuel
            | Done (None, t) => Done (-1, [], ids, t)
            | Done (Some l, t) =>
              Done (1, mk_pr None 0 0 (mk_iovec 0 0) l (-1) [] pages ids id :: parents,
                    ids + 1, t)
            end
          | _ => Done (-1, [], ids, t)
          end
      end
    end
  end.

(** The copy and the original share the pagemaps and the parent: the reset of the copy
    resets the levels above the original too. *)
Definition dup_page_read (chain : list page_read) (dup_ids : Z)
  : list page_read * list page_read * Z :=
  match chain with
  | [] => ([], [], dup_ids)
  | src :: parents =>
    let dst := mk_pr (pe src) (cvaddr src) (pi_off src) (bunch src) (pmes src) (curr_pme src) []
                     (pi src) (pr_id src + DUP_IDS_BASE * dup_ids) (img_id src) in
    (reset_pagemap (dst :: parents), src :: reset_pagemap parents, dup_ids + 1)
  end.

End Ops.

(** ** What a pagemap says *)

Definition pe_end (e : PagemapEntry) : Z := vaddr e + nr_pages e * PAGE_SIZE.
Definition covers (e : PagemapEntry) (a : Z) : Prop := vaddr e <= a < pe_end e.

Definition pe_ok (e : PagemapEntry) : Prop :=
  0 <= vaddr e /\ aligned (vaddr e) /\ 0 < nr_pages e < 2 ^ 31 /\ pe_end e < 2 ^ 63 /\
  (pagemap_in_parent e = true -> pagemap_present e = false).

(** entries in address order, without overlap *)
Inductive pm_sorted : list PagemapEntry -> Prop :=
| pm_nil : pm_sorted []
| pm_one e : pm_sorted [e]
| pm_cons e e' l : pe_end e <= vaddr e' -> pm_sorted (e' :: l) -> pm_sorted (e :: e' :: l).

(** bytes of the pages image that the entries describe *)
Definition present_bytes (e : PagemapEntry) : Z :=
  if pagemap_present e then nr_pages e * PAGE_SIZE else 0.
Definition pages_off (l : list PagemapEntry) : Z := foldr (fun e n => present_bytes e + n) 0 l.

(** [pr] is positioned consistently: [cvaddr] is in (or at the end of) the entry of index [k], and
    [pi_off] is the place in the pages image of the page at [cvaddr]. *)
Definition at_entry (pr : page_read) (k : nat) (e : PagemapEntry) : Prop :=
  pe pr = Some e /\ pmes pr !! k = Some e /\
  (curr_pme pr = Z.of_nat k \/
   k = (length (pmes pr) - 1)%nat /\ Z.of_nat (length (pmes pr)) <= curr_pme pr) /\
  vaddr e <= cvaddr pr <= pe_end e /\
  pi_off pr = pages_off (take k (pmes pr)) +
              (if pagemap_present e then cvaddr pr - vaddr e else 0).

Definition pos_ok (pr : page_read) : Prop :=
  (pe pr = None /\ cvaddr pr = 0 /\ pi_off pr = 0 /\
   (curr_pme pr = -1 \/ pmes pr = [] /\ -1 <= curr_pme pr)) \/
  (exists k e, at_entry pr k e).

Definition pm_ok (pr : page_read) : Prop :=
  Forall pe_ok (pmes pr) /\ pm_sorted (pmes pr).

Lemma pagemap_len_ok e : pe_ok e -> pagemap_len e = nr_pages e * PAGE_SIZE.
Proof. intros (?&?&?&?&?). unfold pagemap_len. apply u64_id. plia. Qed.

Lemma pagemap_end_ok e : pe_ok e -> u64 (vaddr e + pagemap_len e) = pe_end e.
Proof.
  intros H. rewrite (pagemap_len_ok e H). destruct H as (?&?&?&?&?).
  unfold pe_end in *. apply u64_id. plia.
Qed.

Lemma pe_ok_lt e : pe_ok e -> vaddr e < pe_end e.
Proof. intros (?&?&?&?&?). unfold pe_end. plia. Qed.

Lemma pm_sorted_before l i j e e' :
  Forall pe_ok l -> pm_sorted l -> (i < j)%nat ->
  l !! i = Some e -> l !! j = Some e' -> pe_end e <= vaddr e'.
Proof.
  intros Hok Hs. revert i j e e'. induction Hs as [|x|x y l Hxy Hs IH]; intros i j e e' Hij Hi Hj.
  - done.
  - destruct j as [|j]; [lia|]. done.
  - apply Forall_cons_1 in Hok as [Hx Hok]. destruct j as [|j]; [lia|]. simpl in Hj.
    destruct i as [|i]; simpl in Hi.
    + simplify_eq. destruct j as [|j]; simpl in Hj; [by simplify_eq|].
      specialize (IH Hok 0%nat (S j) y e' ltac:(lia) eq_refl Hj).
      apply Forall_cons_1 in Hok as [Hy _]. pose proof (pe_ok_lt _ Hy). lia.
    + by apply (IH Hok i j); [lia|..].
Qed.

Lemma pages_off_snoc l k e :
  l !! k = Some e -> pages_off (take (S k) l) = pages_off (take k l) + present_bytes e.
Proof.
  intros H. rewrite (take_S_r _ _ _ H). unfold pages_off. rewrite foldr_app. simpl.
  generalize (take k l). intros m. induction m; simpl; lia.
Qed.

Lemma pm_sorted_lookup_inj l i j e : Forall pe_ok l -> pm_sorted l -> l !! i = Some e -> l !! j = Some e -> i = j.
Proof.
  intros Hf Hs Hi Hj. assert (He : pe_ok e) by (by eapply Forall_lookup_1). pose proof (pe_ok_lt e He).
  destruct (Nat.lt_total i j) as [Hlt|[Heq|Hgt]]; [|done|].
  - pose proof (pm_sorted_before l i j e e Hf Hs Hlt Hi Hj). lia.
  - pose proof (pm_sorted_before l j i e e Hf Hs Hgt Hj Hi). lia.
Qed.

Lemma pages_off_nonneg l : Forall pe_ok l -> 0 <= pages_off l.
Proof.
  induction 1 as [|e l (?&?&?&?&?) _ IH]; simpl; [done|]. fold (pages_off l).
  unfold present_bytes. case_match; plia.
Qed.

Lemma pages_off_take l k e :
  Forall pe_ok l -> l !! k = Some e -> pages_off (take k l) + present_bytes e <= pages_off l.
Proof.
  revert k. induction l as [|d l IH]; intros k Hf Hk; [done|]. apply Forall_cons_1 in Hf as [Hd Hf].
  pose proof (pages_off_nonneg l Hf). destruct k as [|k]; simpl in *; fold (pages_off l).
  - simplify_eq. lia.
  - specialize (IH k Hf Hk). fold (pages_off (take k l)). lia.
Qed.

(** ** Seeking *)

(** [va] is in no entry: it is before entry [k], where the reader stands, and after the ones
    before; or it is after all of them *)
Definition passed (pr pr' : page_read) (k : nat) (e : PagemapEntry) (va : Z) : Prop :=
  (va < cvaddr pr' /\ cvaddr pr' = vaddr e /\
   forall j d, (j < k)%nat -> pmes pr !! j = Some d -> pe_end d <= va) \/
  (forall d, d ∈ pmes pr -> pe_end d <= va).

(** From a consistent position at an entry, the loop either finds the address, or has passed
    every entry that could hold it. *)
Lemma seek_loop_spec va fuel pr k e :
  pm_ok pr -> at_entry pr k e -> curr_pme pr = Z.of_nat k \/ (length (pmes pr) <= S k)%nat ->
  cvaddr pr <= va < 2 ^ 63 -> (length (pmes pr) - k < fuel)%nat ->
  exists r pr', seek_loop fuel pr va = Done (r, pr') /\
    pmes pr' = pmes pr /\ async pr' = async pr /\ pi pr' = pi pr /\ bunch pr' = bunch pr /\
    (exists k' e', at_entry pr' k' e' /\ (k <= k')%nat /\
      if r then covers e' va /\ cvaddr pr' = va
      else passed pr pr' k' e' va).
Proof.
  intros Hok. revert pr k e Hok. induction fuel as [|fuel IH]; intros pr k e Hok Hat Hcur Hva Hfuel.
  { lia. }
  pose proof Hok as [Hf Hs].
  pose proof Hat as (Hpe & Hk & Hc & Hcv & Hoff). simpl. rewrite Hpe.
  assert (Heok : pe_ok e) by (by eapply Forall_lookup_1).
  rewrite (pagemap_end_ok e Heok). pose proof (pe_ok_lt e Heok). pose proof Heok as (?&?&?&?&?).
  rewrite (proj2 (Z.ltb_ge _ _)) by lia.
  rewrite (proj2 (Z.leb_le (vaddr e) va)) by lia. simpl.
  destruct (Z.ltb_spec va (pe_end e)) as [Hin|Hout].
  - (* found *)
    rewrite u64_id by lia.
    assert (Hskip : exists pr', skip_pagemap_pages pr (va - cvaddr pr) = Done pr' /\
              pmes pr' = pmes pr /\ async pr' = async pr /\ pi pr' = pi pr /\ bunch pr' = bunch pr /\
              at_entry pr' k e /\ cvaddr pr' = va).
    { unfold skip_pagemap_pages. destruct (Z.eqb_spec (va - cvaddr pr) 0).
      - exists pr. split_and!; try done. lia.
      - rewrite Hpe. eexists. split; [done|]. simpl. rewrite u64_id by lia.
        split_and!; try done; [|lia]. unfold at_entry. simpl. split_and!; try done; try lia.
        destruct (pagemap_present e); lia. }
    destruct Hskip as (pr' & -> & ? & ? & ? & ? & ? & ?).
    exists true, pr'. split_and!; try done. exists k, e.
    split; [done|]. split; [lia|]. split; [unfold covers; lia|done].
  - rewrite (proj2 (Z.leb_le _ _)) by lia. rewrite u64_id by lia.
    (* [pr1]: at the end of the entry *)
    assert (Hskip : exists pr1, skip_pagemap_pages pr (pe_end e - cvaddr pr) = Done pr1 /\
              pmes pr1 = pmes pr /\ async pr1 = async pr /\ pi pr1 = pi pr /\ bunch pr1 = bunch pr /\
              at_entry pr1 k e /\ cvaddr pr1 = pe_end e /\ curr_pme pr1 = curr_pme pr).
    { unfold skip_pagemap_pages. destruct (Z.eqb_spec (pe_end e - cvaddr pr) 0).
      - exists pr. split_and!; try done. lia.
      - rewrite Hpe. eexists. split; [done|]. simpl. rewrite u64_id by lia.
        split_and!; try done; [|lia]. unfold at_entry. simpl. split_and!; try done; try lia.
        destruct (pagemap_present e); lia. }
    destruct Hskip as (pr1 & -> & Hp1 & ? & ? & ? & Hat1 & Hcv1 & Hcur1).
    pose proof Hat1 as (Hpe1 & Hk1 & Hc1 & _ & Hoff1).
    assert (Hbefore : forall j d, (j <= k)%nat -> pmes pr !! j = Some d -> pe_end d <= va).
    { intros j d Hj Hd. destruct (decide (j = k)) as [->|]; [simplify_eq; lia|].
      pose proof (pm_sorted_before _ (j) (k) _ _ Hf Hs ltac:(lia) Hd Hk). lia. }
    unfold advance. rewrite Hp1, Hcur1.
    pose proof (lookup_lt_Some _ _ _ Hk) as Hlt.
    destruct (Z.leb_spec (Z.of_nat (length (pmes pr))) (curr_pme pr + 1)) as [Hend|Hmore].
    + (* no more entries *)
      assert (Hkl : k = (length (pmes pr) - 1)%nat) by lia.
      eexists false, _. split; [done|]. simpl. split_and!; try done.
      exists k, e. split; [|split; [lia|right]].
      * unfold at_entry in *. simpl. rewrite Hp1. split_and!; try done; try lia.
        rewrite Hp1 in *. tauto.
      * intros d [j Hd]%list_elem_of_lookup. apply (Hbefore j d); [|done].
        apply lookup_lt_Some in Hd. lia.
    + assert (Hck : curr_pme pr = Z.of_nat k) by lia.
      rewrite Hck. replace (Z.to_nat (Z.of_nat k + 1)) with (S k) by lia.
      destruct (lookup_lt_is_Some_2 (pmes pr) (S k)) as [e' He']; [lia|]. rewrite He'.
      set (pr2 := set_pos pr1 (Some e') (vaddr e') (pi_off pr1) (Z.of_nat k + 1)).
      assert (He'ok : pe_ok e') by (by eapply Forall_lookup_1).
      pose proof (pe_ok_lt e' He'ok). pose proof He'ok as (?&?&?&?&?).
      assert (Hat2 : at_entry pr2 (S k) e').
      { unfold at_entry, pr2. simpl. rewrite Hp1. split_and!; try done; try lia.
        rewrite (pages_off_snoc _ _ _ Hk). rewrite Hp1 in Hoff1. rewrite Hoff1, Hcv1.
        unfold present_bytes, pe_end. destruct (pagemap_present e), (pagemap_present e'); lia. }
      pose proof (pm_sorted_before _ (k) (S k) _ _ Hf Hs ltac:(lia) Hk He') as Hnext.
      destruct (Z.le_gt_cases (vaddr e') va) as [Hle|Hgt].
      * destruct (IH pr2 (S k) e') as (r & pr' & Hrun & HA & HB & HC & HD & k' & e'' & Hat' & Hk' & Hr).
        -- unfold pr2, pm_ok. simpl. by rewrite Hp1.
        -- done.
        -- left. unfold pr2. simpl. lia.
        -- unfold pr2. simpl. lia.
        -- unfold pr2. simpl. rewrite Hp1. lia.
        -- exists r, pr'. rewrite Hrun. unfold pr2 in HA, HB, HC, HD, Hr. simpl in HA, HB, HC, HD, Hr.
           rewrite Hp1 in *. split_and!; try congruence.
           exists k', e''. split; [done|]. split; [lia|]. destruct r; [done|].
           unfold passed in *. simpl in Hr. by rewrite Hp1 in Hr.
      * (* the address lies before the next entry *)
        assert (Hrun : seek_loop fuel pr2 va = Done (false, pr2)).
        { destruct fuel as [|fuel']; [lia|]. simpl. 
          by rewrite (proj2 (Z.ltb_lt _ _)) by lia. }
        exists false, pr2. rewrite Hrun. do 5 (split; [done|]).
        exists (S k), e'. split; [done|]. split; [lia|]. left. unfold pr2. simpl.
        split_and!; [lia|done|]. intros j d Hj Hd. apply (Hbefore j d); [lia|done].
Qed.

(** the images behind a level do not change *)
Definition same_img (pr pr' : page_read) : Prop :=
  pmes pr' = pmes pr /\ pi pr' = pi pr /\ async pr' = async pr.

#[export] Instance same_img_refl : Reflexive same_img.
Proof. by intros pr. Qed.
#[export] Instance same_img_trans : Transitive same_img.
Proof. intros a b c (?&?&?) (?&?&?). unfold same_img. split_and!; congruence. Qed.

Lemma same_chain_refl c : Forall2 same_img c c.
Proof. induction c; by constructor. Qed.
Lemma same_chain_trans c1 c2 c3 :
  Forall2 same_img c1 c2 -> Forall2 same_img c2 c3 -> Forall2 same_img c1 c3.
Proof.
  intros H. revert c3. induction H; intros c3 H'; inversion H'; subst; constructor; [by etrans|auto].
Qed.

Lemma at_entry_pos pr k e : at_entry pr k e -> pos_ok pr.
Proof. intros. right. eauto. Qed.

Lemma seek_ok pr va :
  pm_ok pr -> pos_ok pr -> cvaddr pr <= va < 2 ^ 63 ->
  exists r pr', seek_pagemap pr va = Done (r, pr') /\ same_img pr pr' /\ pos_ok pr' /\
    bunch pr' = bunch pr /\
    if r then exists k e, at_entry pr' k e /\ covers e va /\ cvaddr pr' = va
    else (pe pr' = None /\ pmes pr = []) \/
         exists k e, at_entry pr' k e /\ pmes pr' = pmes pr /\ passed pr pr' k e va.
Proof.
  intros Hok Hpos Hva. unfold seek_pagemap, seek_fuel.
  assert (Hloop : forall q k e, pmes q = pmes pr -> pi q = pi pr -> async q = async pr ->
    bunch q = bunch pr -> at_entry q k e -> cvaddr q <= va ->
    exists r pr', seek_loop (S (length (pmes q))) q va = Done (r, pr') /\ same_img pr pr' /\ pos_ok pr' /\
    bunch pr' = bunch pr /\
    if r then exists k e, at_entry pr' k e /\ covers e va /\ cvaddr pr' = va
    else (pe pr' = None /\ pmes pr = []) \/
         exists k e, at_entry pr' k e /\ pmes pr' = pmes pr /\ passed pr pr' k e va).
  { intros q k e Hq1 Hq2 Hq3 Hq4 Hat Hcv.
    destruct (seek_loop_spec va (S (length (pmes q))) q k e)
      as (r & pr' & Hrun & HA & HB & HC & HD & k' & e' & Hat' & Hk' & Hr).
    - unfold pm_ok. by rewrite Hq1.
    - done.
    - destruct Hat as (_ & _ & [?|[? ?]] & _); [by left|right; lia].
    - lia.
    - lia.
    - exists r, pr'. split; [done|]. split; [unfold same_img; split_and!; congruence|].
      split; [by eapply at_entry_pos|]. split; [congruence|].
      destruct r; [by exists k', e'|]. right. exists k', e'. split; [done|]. split; [congruence|].
      unfold passed in *. by rewrite Hq1 in Hr. }
  destruct Hpos as [(Hpe & Hc & Ho & Hcur)|(k & e & Hat)].
  2: { pose proof Hat as (Hpe & _). rewrite Hpe. apply (Hloop pr k e); try done. lia. }
  rewrite Hpe. unfold advance.
  destruct (pmes pr) as [|e l] eqn:Hl.
  - rewrite (proj2 (Z.leb_le _ _)) by (simpl; destruct Hcur as [->|[_ ?]]; lia).
    eexists false, _. split; [done|]. split; [done|]. split; [|split; [done|by left]].
    left. simpl. split_and!; try done. right. split; [done|]. destruct Hcur as [->|[_ ?]]; lia.
  - destruct Hcur as [->|[Hx _]]; [|done].
    rewrite (proj2 (Z.leb_gt _ _)) by (simpl; lia). cbv beta iota.
    change ((e :: l) !! Z.to_nat (-1 + 1)) with (Some e). cbv beta iota.
    set (q := set_pos pr (Some e) _ _ _).
    assert (Hat : at_entry q 0 e).
    { unfold at_entry, q. simpl. rewrite Hl. unfold pages_off. simpl.
      destruct Hok as [Hf _]. rewrite Hl in Hf. apply Forall_cons_1 in Hf as [He _].
      pose proof (pe_ok_lt e He). split_and!; try done; try lia.
      destruct (pagemap_present e); lia. }
    destruct (Z.le_gt_cases (vaddr e) va).
    + unfold q in *. apply (Hloop _ 0%nat e); try done.
    + assert (Hrun : seek_loop (S (length (pmes q))) q va = Done (false, q)).
      { cbn [seek_loop]. destruct Hat as (-> & _). by rewrite (proj2 (Z.ltb_lt va (cvaddr q))) by (unfold q; simpl; lia). }
      exists false, q. split; [done|]. split; [unfold same_img, q; simpl; by rewrite Hl|].
      split; [by eapply at_entry_pos|]. split; [done|]. right. exists 0%nat, e. split; [done|].
      split; [done|]. left. unfold q. simpl. split_and!; [lia|done|]. intros j d Hj. lia.
Qed.

Lemma passed_not_covered pr pr' va :
  pm_ok pr ->
  (pe pr' = None /\ pmes pr = []) \/ (exists k e, at_entry pr' k e /\ pmes pr' = pmes pr /\ passed pr pr' k e va) ->
  forall d, d ∈ pmes pr -> ~ covers d va.
Proof.
  intros [Hf Hs] [[_ ->]|(k & e & (_ & Hk & _) & Hp & [(H1 & H2 & H3)|H])] d Hd [Hc1 Hc2].
  - by apply elem_of_nil in Hd.
  - rewrite Hp in Hk. apply list_elem_of_lookup in Hd as [j Hj]. destruct (decide (j < k)%nat).
    + specialize (H3 j d ltac:(done) Hj). lia.
    + destruct (decide (j = k)) as [->|]; [simplify_eq; lia|].
      pose proof (pm_sorted_before _ k j _ _ Hf Hs ltac:(lia) Hk Hj).
      assert (pe_ok e) as ?%pe_ok_lt by (by eapply Forall_lookup_1). lia.
  - specialize (H d Hd). lia.
Qed.

(** ** The reference: where the byte at an address comes from *)

Fixpoint find_entry (l : list PagemapEntry) (off a : Z) : option (PagemapEntry * Z) :=
  match l with
  | [] => None
  | e :: l => if (vaddr e <=? a) && (a <? pe_end e) then Some (e, off)
              else find_entry l (off + present_bytes e) a
  end.

(** the byte at address [a]: in the pages image of the first snapshot of the chain that has it *)
Fixpoint ref_byte (chain : list page_read) (a : Z) : option Z :=
  match chain with
  | [] => None
  | pr :: up =>
    match find_entry (pmes pr) 0 a with
    | None => None
    | Some (e, off) =>
      if pagemap_in_parent e then ref_byte up a
      else if pagemap_present e then Some (pi pr (off + (a - vaddr e)))
      else None
    end
  end.

Lemma find_entry_at l k e off a :
  Forall pe_ok l -> pm_sorted l -> l !! k = Some e -> covers e a ->
  find_entry l off a = Some (e, off + pages_off (take k l)).
Proof.
  revert k off. induction l as [|d l IH]; intros k off Hf Hs Hk Hc; [done|]. simpl.
  destruct k as [|k]; simpl in Hk.
  - simplify_eq. destruct Hc. rewrite (proj2 (andb_true_iff _ _)) by lia.
    unfold pages_off. simpl. by rewrite Z.add_0_r.
  - pose proof (pm_sorted_before _ 0 (S k) d e Hf Hs ltac:(lia) eq_refl Hk). destruct Hc as [Hc1 Hc2].
    rewrite (proj2 (Z.ltb_ge _ _)), andb_false_r by lia.
    apply Forall_cons_1 in Hf as [_ Hf].
    rewrite (IH k (off + present_bytes d)); try done.
    + f_equal. f_equal. unfold pages_off. simpl. lia.
    + inversion Hs; subst; [by destruct k|done].
Qed.

Lemma ref_byte_same c c' a : Forall2 same_img c c' -> ref_byte c' a = ref_byte c a.
Proof.
  induction 1 as [|pr pr' c c' (H1 & H2 & _) _ IH]; [done|]. simpl. rewrite H1, H2.
  destruct (find_entry _ _ _) as [[e off]|]; [|done]. by rewrite IH.
Qed.

(** a level that can serve requests from [va] on *)
Definition level_ok (va : Z) (pr : page_read) : Prop :=
  pm_ok pr /\ pos_ok pr /\ async pr = [] /\ cvaddr pr <= va.

Definition resolvable (chain : list page_read) (va len : Z) : Prop :=
  forall a, va <= a < va + len -> is_Some (ref_byte chain a).

Definition read_post (chain chain' : list page_read) (mem mem' : Z -> Z) (va len buf : Z) : Prop :=
  Forall2 same_img chain chain' /\ Forall (level_ok (va + len)) chain' /\
  (forall a, va <= a < va + len -> ref_byte chain a = Some (mem' (buf + (a - va)))) /\
  (forall b, ~ (buf <= b < buf + len) -> mem' b = mem b).

(** ** Reading delivers the reference bytes *)

(** a kernel that always makes progress on a read of at least a byte *)
Class ReadKernelLive (K : ReadKernel) : Prop := {
  pread_pos : forall t n, 1 <= n -> 1 <= k_pread t n;
  preadv_pos : forall t n, 1 <= n -> 1 <= k_preadv t n;
}.

Section Reading.
Context {K : ReadKernel} `{!ReadKernelOk K} `{!ReadKernelLive K}.

Lemma pread_loop_ok fuel t f mem buf off len curr :
  0 <= curr < len -> (Z.to_nat (len - curr) <= fuel)%nat ->
  exists r t' mem', pread_loop fuel t f mem buf off len curr = Done (r, t', mem') /\ 1 <= r /\
    (forall i, curr <= i < len -> mem' (buf + i) = f (off + i)) /\
    (forall b, ~ (buf + curr <= b < buf + len) -> mem' b = mem b).
Proof.
  revert t mem curr. induction fuel as [|fuel IH]; intros t mem curr Hc Hf; [lia|]. simpl.
  pose proof (pread_pos t (len - curr) ltac:(lia)) as H1.
  pose proof (pread_le t (len - curr)) as H2. set (r := k_pread t (len - curr)) in *.
  rewrite (proj2 (Z.ltb_ge _ _)) by lia.
  assert (Hb1 : forall i, curr <= i < curr + r ->
    blit mem (buf + curr) f (off + curr) r (buf + i) = f (off + i)).
  { intros i Hi. unfold blit. rewrite (proj2 (andb_true_iff _ _)) by lia. f_equal. lia. }
  assert (Hb2 : forall b, ~ (buf + curr <= b < buf + curr + r) ->
    blit mem (buf + curr) f (off + curr) r b = mem b).
  { intros b Hb. unfold blit. rewrite (proj2 (andb_false_iff _ _)) by lia. done. }
  destruct (Z.eqb_spec (curr + r) len) as [He|He].
  - eexists _, _, _. split; [done|]. split_and!; [lia| |].
    + intros i Hi. apply Hb1. lia.
    + intros b Hb. apply Hb2. lia.
  - destruct (IH (S t) (blit mem (buf + curr) f (off + curr) r) (curr + r)) as (r' & t' & mem' & -> & ? & Hm1 & Hm2);
      [lia|lia|].
    eexists _, _, _. split; [done|]. split_and!; [done| |].
    + intros i Hi. destruct (Z.lt_ge_cases i (curr + r)).
      * rewrite Hm2 by lia. apply Hb1. lia.
      * apply Hm1. lia.
    + intros b Hb. rewrite Hm2 by lia. apply Hb2. lia.
Qed.

Lemma process_async_idle pp io fuel chain t mem :
  Forall (fun pr => async pr = []) chain ->
  process_async_reads false pp io fuel chain t mem = Done (0, (t, mem, chain)).
Proof.
  induction 1 as [|pr c Ha _ IH]; [done|]. simpl. rewrite Ha. simpl. rewrite IH.
  do 4 f_equal. destruct pr. simpl in *. by subst.
Qed.

(** the levels of [chain] are positioned at or before [va] *)
Lemma level_ok_mono va va' pr : va <= va' -> level_ok va pr -> level_ok va' pr.
Proof. intros ? (?&?&?&?). unfold level_ok. split_and!; try done. lia. Qed.

Lemma at_entry_read pr k e va n :
  at_entry pr k e -> cvaddr pr = va -> 0 <= n -> va + n <= pe_end e -> pe_end e < 2 ^ 63 -> 0 <= va ->
  let off := if pagemap_present e then n else 0 in
  at_entry (set_pos pr (pe pr) (u64 (cvaddr pr + n)) (pi_off pr + off) (curr_pme pr)) k e.
Proof.
  intros (Hpe & Hk & Hc & Hcv & Hoff) <- Hn Hend Hlt H0 off. unfold at_entry, off. simpl.
  rewrite u64_id by lia. split_and!; try done; try lia. destruct (pagemap_present e); lia.
Qed.

Lemma resolvable_covers pr up va :
  is_Some (ref_byte (pr :: up) va) -> exists d, d ∈ pmes pr /\ covers d va.
Proof.
  simpl. intros H. assert (Hx : exists e o, find_entry (pmes pr) 0 va = Some (e, o)).
  { destruct (find_entry _ _ _) as [[e o]|]; [eauto|by destruct H]. }
  clear H. destruct Hx as (e & o & Hx). revert Hx. generalize 0.
  induction (pmes pr) as [|d l IH]; intros off; simpl; [done|].
  destruct ((vaddr d <=? va) && (va <? pe_end d)) eqn:E.
  - intros _. exists d. split; [apply list_elem_of_here|]. unfold covers. lia.
  - intros (d' & ? & ?)%IH. exists d'. split; [by apply list_elem_of_further|done].
Qed.

End Reading.

(** ** Asynchronous requests mean the reads they stand for *)

(** where the byte at [b] comes from when [l] is filled from file offset [off] on *)
Fixpoint target_off (l : list iovec) (off b : Z) : option Z :=
  match l with
  | [] => None
  | v :: l =>
    match target_off l (off + iov_len v) b with
    | Some o => Some o
    | None => if (iov_base v <=? b) && (b <? iov_base v + iov_len v)
              then Some (off + (b - iov_base v)) else None
    end
  end.

Definition fill (f : Z -> Z) (l : list iovec) (off : Z) (mem : Z -> Z) : Z -> Z :=
  fun b => match target_off l off b with Some o => f o | None => mem b end.

(** the memory once every queued request is done *)
Definition queue_mem (f : Z -> Z) (q : list page_read_iov) (mem : Z -> Z) : Z -> Z :=
  foldl (fun m p => fill f (to p) (from p) m) mem q.

Definition piov_ok (p : page_read_iov) : Prop :=
  to p <> [] /\ Forall (fun v => 0 < iov_len v) (to p) /\ end_ p = from p + bytes_of (to p).

Lemma target_off_snoc l v off b :
  target_off (l ++ [v]) off b =
    if (iov_base v <=? b) && (b <? iov_base v + iov_len v)
    then Some (off + bytes_of l + (b - iov_base v)) else target_off l off b.
Proof.
  revert off. induction l as [|w l IH]; intros off; simpl.
  - destruct (_ && _); [f_equal; lia|done].
  - rewrite IH. destruct ((iov_base v <=? b) && _); [f_equal; lia|done].
Qed.

Lemma scatter_miss mem l f off n off' b :
  Forall (fun v => 0 < iov_len v) l -> target_off l off' b = None -> scatter mem l f off n b = mem b.
Proof.
  intros Hl. revert mem off n off'. induction Hl as [|v l Hv _ IH]; intros mem off n off' H; [done|].
  simpl in *. destruct (n <=? 0) eqn:En; [done|].
  destruct (target_off l (off' + iov_len v) b) as [?|] eqn:Ht; [done|].
  rewrite (IH _ _ _ _ Ht). unfold blit.
  destruct ((iov_base v <=? b) && (b <? iov_base v + iov_len v)) eqn:E; [done|].
  rewrite (proj2 (andb_false_iff _ _)) by lia. done.
Qed.

(** Reading [r0] bytes and then, from byte [r <= r0] on, everything that is left, is the same
    as reading everything. *)
Lemma scatter_advance mem l f off r r0 l' b :
  Forall (fun v => 0 < iov_len v) l -> 0 <= r <= r0 -> r0 <= bytes_of l ->
  advance_iovs l r = Some l' ->
  fill f l' (off + r) (scatter mem l f off r0) b = fill f l off mem b.
Proof.
  intros Hl. revert mem off r r0 l'. induction Hl as [|v l Hv Hl IH]; intros mem off r r0 l' Hr Hr0 Ha.
  - simpl in *. assert (r = 0) as -> by lia. simpl in Ha. by simplify_eq.
  - simpl in Hr0. fold (bytes_of l) in Hr0. unfold fill. simpl.
    destruct (Z.eqb_spec r 0) as [->|Hne].
    { simpl in Ha. simplify_eq. simpl. rewrite Z.add_0_r.
      destruct (target_off l (off + iov_len v) b) eqn:Ht; [done|].
      destruct ((iov_base v <=? b) && (b <? iov_base v + iov_len v)) eqn:Ec; [done|].
      destruct (r0 <=? 0); [done|]. rewrite (scatter_miss _ _ _ _ _ _ _ Hl Ht). unfold blit.
      rewrite (proj2 (andb_false_iff _ _)) by lia. done. }
    simpl in Ha. rewrite (proj2 (Z.eqb_neq _ _)) in Ha by done.
    rewrite (proj2 (Z.leb_gt _ _)) by lia.
    destruct (Z.leb_spec (iov_len v) r) as [Hle|Hgt].
    + rewrite Z.min_r by lia.
      specialize (IH (blit mem (iov_base v) f off (iov_len v)) (off + iov_len v) (r - iov_len v)
                     (r0 - iov_len v) l' ltac:(lia) ltac:(lia) Ha).
      replace (off + iov_len v + (r - iov_len v)) with (off + r) in IH by lia.
      unfold fill in IH. rewrite IH. unfold blit.
      destruct (target_off l (off + iov_len v) b); [done|].
      by destruct ((iov_base v <=? b) && (b <? iov_base v + iov_len v)).
    + simplify_eq. simpl. replace (off + r + (iov_len v - r)) with (off + iov_len v) by lia.
      destruct (target_off l (off + iov_len v) b) eqn:Ht; [done|].
      rewrite (scatter_miss _ _ _ _ _ _ _ Hl Ht). unfold blit.
      destruct ((iov_base v <=? b) && (b <? iov_base v + iov_len v)) eqn:E1;
      destruct ((iov_base v + r <=? b) && (b <? iov_base v + r + (iov_len v - r))) eqn:E2; try lia.
      * f_equal. lia.
      * rewrite (proj2 (andb_true_iff _ _)) by lia. done.
      * rewrite (proj2 (andb_false_iff _ _)) by lia. done.
Qed.

Lemma advance_iovs_ok l r :
  Forall (fun v => 0 < iov_len v) l -> 0 <= r < bytes_of l ->
  exists l', advance_iovs l r = Some l' /\ l' <> [] /\ Forall (fun v => 0 < iov_len v) l' /\
    bytes_of l' = bytes_of l - r.
Proof.
  intros Hl. revert r. induction Hl as [|v l Hv Hl IH]; intros r Hr; simpl in *; [lia|].
  fold (bytes_of l) in *. destruct (Z.eqb_spec r 0) as [->|].
  - eexists. split; [done|]. split_and!; [done|by constructor|simpl; fold (bytes_of l); lia].
  - destruct (Z.leb_spec (iov_len v) r).
    + destruct (IH (r - iov_len v)) as (l' & -> & ? & ? & ?); [lia|]. exists l'. split_and!; try done; lia.
    + eexists. split; [done|]. split_and!; [done|constructor; simpl; [lia|done]|].
      simpl. fold (bytes_of l). lia.
Qed.

Lemma bytes_nonneg l : Forall (fun v => 0 < iov_len v) l -> 0 <= bytes_of l.
Proof. induction 1; simpl; lia. Qed.

Lemma bytes_pos l : l <> [] -> Forall (fun v => 0 < iov_len v) l -> 0 < bytes_of l.
Proof.
  intros Hne H. destruct l as [|v k]; [done|]. apply Forall_cons_1 in H as [Hv Hk].
  pose proof (bytes_nonneg k Hk). simpl. fold (bytes_of k). lia.
Qed.

Lemma scatter_all mem l f off b :
  Forall (fun v => 0 < iov_len v) l -> scatter mem l f off (bytes_of l) b = fill f l off mem b.
Proof.
  intros Hl. revert mem off. induction Hl as [|v l Hv Hl IH]; intros mem off; [done|].
  pose proof (bytes_nonneg l Hl).
  simpl. fold (bytes_of l). rewrite (proj2 (Z.leb_gt _ _)), Z.min_r by lia.
  replace (iov_len v + bytes_of l - iov_len v) with (bytes_of l) by lia.
  rewrite IH. unfold fill. simpl. destruct (target_off l (off + iov_len v) b); [done|].
  unfold blit. by destruct ((iov_base v <=? b) && (b <? iov_base v + iov_len v)).
Qed.

Section Async.
Context {K : ReadKernel} `{!ReadKernelOk K} `{!ReadKernelLive K}.

Lemma read_piov_ok fuel t f mem p :
  piov_ok p -> (Z.to_nat (end_ p - from p) <= fuel)%nat ->
  exists r t' mem', read_piov false fuel t f mem p = Done (r, t', mem') /\ 0 <= r /\
    forall b, mem' b = fill f (to p) (from p) mem b.
Proof.
  revert t mem p. induction fuel as [|fuel IH]; intros t mem p (Hne & Hl & He) Hf.
  { exfalso. pose proof (bytes_pos _ Hne Hl). lia. }
  pose proof (bytes_pos _ Hne Hl) as Hpos.
  simpl. set (want := end_ p - from p).
  pose proof (preadv_pos t want ltac:(lia)) as H1. pose proof (preadv_le t want) as H2.
  set (r := k_preadv t want) in *. destruct (Z.eqb_spec r want) as [Hr|Hr].
  - eexists _, _, _. split; [done|]. split; [lia|]. intros b. rewrite Hr. unfold want.
    replace (end_ p - from p) with (bytes_of (to p)) by lia. by apply scatter_all.
  - rewrite (proj2 (Z.ltb_ge _ _)) by lia.
    destruct (advance_iovs_ok (to p) r Hl ltac:(lia)) as (l' & Hadv & Hne' & Hl' & Hb').
    unfold advance_piov. rewrite Hadv. simpl.
    destruct (IH (S t) (scatter mem (to p) f (from p) r) (mk_piov (from p + r) (end_ p) l'))
      as (r' & t' & mem' & -> & ? & Hm).
    + split_and!; simpl; try done; lia.
    + simpl. lia.
    + eexists _, _, _. split; [done|]. split; [done|]. intros b. rewrite Hm. simpl.
      apply scatter_advance; try done; lia.
Qed.

Lemma queue_mem_ext f q m1 m2 b :
  (forall b, m1 b = m2 b) -> queue_mem f q m1 b = queue_mem f q m2 b.
Proof.
  revert m1 m2. induction q as [|p q IH]; intros m1 m2 H; simpl; [done|].
  apply IH. intros b'. unfold fill. by rewrite H.
Qed.

Lemma process_queue_ok iofuel q t mem pr :
  Forall piov_ok q -> Forall (fun p => (Z.to_nat (end_ p - from p) <= iofuel)%nat) q ->
  exists t' mem', process_queue false false None iofuel q t mem pr =
      Done (0, (t', mem', set_async pr [])) /\
    forall b, mem' b = queue_mem (pi pr) q mem b.
Proof.
  intros Hq. revert t mem. induction Hq as [|p q Hp _ IH]; intros t mem Hf; simpl.
  { eexists _, _. split; [done|]. done. }
  apply Forall_cons_1 in Hf as [Hf1 Hf2].
  destruct (read_piov_ok iofuel t (pi pr) mem p Hp Hf1) as (r & t1 & m1 & -> & Hr & Hm).
  rewrite (proj2 (Z.ltb_ge _ _)) by lia. simpl.
  destruct (IH t1 m1 Hf2) as (t2 & m2 & -> & Hm2).
  eexists _, _. split; [done|]. intros b. rewrite Hm2. by apply queue_mem_ext.
Qed.

(** a level's queue is well formed and small enough for the fuel *)
Definition queue_ok (iofuel : nat) (pr : page_read) : Prop :=
  Forall piov_ok (async pr) /\
  Forall (fun p => (Z.to_nat (end_ p - from p) <= iofuel)%nat) (async pr).

Fixpoint chain_mem (chain : list page_read) (mem : Z -> Z) : Z -> Z :=
  match chain with
  | [] => mem
  | pr :: up => chain_mem up (queue_mem (pi pr) (async pr) mem)
  end.

Lemma chain_mem_ext c m1 m2 b :
  (forall b, m1 b = m2 b) -> chain_mem c m1 b = chain_mem c m2 b.
Proof.
  revert m1 m2. induction c as [|p q IH]; intros m1 m2 H; simpl; [done|].
  apply IH. intros b'. by apply queue_mem_ext.
Qed.

Lemma process_async_ok iofuel chain t mem :
  Forall (queue_ok iofuel) chain ->
  exists t' mem', process_async_reads false false None iofuel chain t mem =
      Done (0, (t', mem', (fun pr => set_async pr []) <$> chain)) /\
    forall b, mem' b = chain_mem chain mem b.
Proof.
  intros Hc. revert t mem. induction Hc as [|pr c [Hq1 Hq2] _ IH]; intros t mem; simpl.
  { by eexists _, _. }
  destruct (process_queue_ok iofuel (async pr) t mem pr Hq1 Hq2) as (t1 & m1 & -> & Hm). simpl.
  destruct (IH t1 m1) as (t2 & m2 & -> & Hm2). eexists _, _. split; [done|].
  intros b. rewrite Hm2. by apply chain_mem_ext.
Qed.
End Async.

Lemma last_split {A} (l : list A) x :
  list.last l = Some x -> l = take (length l - 1) l ++ [x].
Proof.
  intros [l' ->]%list.last_Some. rewrite length_app. simpl.
  replace (length l' + 1 - 1)%nat with (length l') by lia. by rewrite take_app_length.
Qed.

Lemma queue_mem_snoc f q p mem b :
  queue_mem f (q ++ [p]) mem b = fill f (to p) (from p) (queue_mem f q mem) b.
Proof. unfold queue_mem. by rewrite foldl_app. Qed.

Lemma blit_fill f mem buf len off b :
  fill f [mk_iovec buf len] off mem b = blit mem buf f off len b.
Proof. unfold fill, blit. simpl. by destruct ((buf <=? b) && (b <? buf + len)). Qed.

Lemma enqueue_ok {K : ReadKernel} pr t buf len q r t' q' :
  Forall piov_ok q -> 0 < len ->
  pagemap_enqueue_iovec pr t buf len q = (r, t', q') ->
  Forall piov_ok q' /\
  (r = 0 /\ (forall f mem b, queue_mem f q' mem b =
                             blit (queue_mem f q mem) buf f (pi_off pr) len b) \/
   r = -1 /\ q' = q).
Proof.
  intros Hq Hlen.
  assert (Hnew : enqueue_async_iov pr t buf len q = (r, t', q') ->
    Forall piov_ok q' /\
    (r = 0 /\ (forall f mem b, queue_mem f q' mem b =
                             blit (queue_mem f q mem) buf f (pi_off pr) len b) \/
     r = -1 /\ q' = q)).
  { unfold enqueue_async_iov. intros H. repeat case_match; simplify_eq; [by auto..|].
    split.
    - apply Forall_snoc. split; [done|]. split_and!; simpl; [done|repeat constructor; done|lia].
    - left. split; [done|]. intros f mem b. rewrite queue_mem_snoc. simpl. apply blit_fill. }
  unfold pagemap_enqueue_iovec. destruct (list.last q) as [cur|] eqn:El; [|done].
  destruct (Z.eqb_spec (pi_off pr) (end_ cur)) as [Hoff|]; [|done]. cbn [negb].
  pose proof (last_split _ _ El) as Hq'. set (rest := take (length q - 1) q) in *. clearbody rest.
  rewrite Hq' in Hq. apply Forall_snoc in Hq as [Hrest (Hne & Hpos & Hend)].
  destruct (list.last (to cur)) as [iov|] eqn:Ei.
  2: { by apply list.last_None in Ei. }
  pose proof (last_split _ _ Ei) as Hto. set (init := take (length (to cur) - 1) (to cur)) in *. clearbody init.
  destruct (Z.eqb_spec (iov_base iov + iov_len iov) buf) as [Hb|Hb].
  - intros [= <- <- <-]. rewrite Hto in Hpos, Hend. apply Forall_snoc in Hpos as [Hp1 Hp2].
    rewrite bytes_of_app in Hend. simpl in Hend. split.
    + apply Forall_snoc. split; [done|]. split_and!; simpl.
      * apply not_eq_sym, app_cons_not_nil.
      * apply Forall_snoc. split; [done|]. simpl. lia.
      * rewrite bytes_of_app. simpl. lia.
    + left. split; [done|]. intros f mem b. unfold blit. rewrite Hq', !queue_mem_snoc. unfold fill. simpl.
      rewrite Hto, !target_off_snoc. simpl.
      destruct ((buf <=? b) && (b <? buf + len)) eqn:E1;
      destruct ((iov_base iov <=? b) && (b <? iov_base iov + (iov_len iov + len))) eqn:E2;
      destruct ((iov_base iov <=? b) && (b <? iov_base iov + iov_len iov)) eqn:E3; try lia; try done.
      f_equal. lia.
  - destruct (IOV_MAX <=? _); [done|]. destruct (k_xmalloc t); intros [= <- <- <-].
    2: { split; [|by right]. rewrite Hq'. by apply Forall_snoc. }
    split.
    + apply Forall_snoc. split; [done|]. split_and!; simpl.
      * apply not_eq_sym, app_cons_not_nil.
      * by apply Forall_snoc.
      * rewrite bytes_of_app. simpl. lia.
    + left. split; [done|]. intros f mem b. unfold blit. rewrite Hq', !queue_mem_snoc. unfold fill. simpl.
      rewrite target_off_snoc. simpl.
      destruct ((buf <=? b) && (b <? buf + len)); [|done]. f_equal. lia.
Qed.

(** ** Reading delivers the reference bytes, at once or when the queues are processed

    Requests of both kinds may alternate.  [T] is what the memory is to hold in the end where a
    request is pending; [S], for a level, is where. *)
Definition same_data (pr pr' : page_read) : Prop := pmes pr' = pmes pr /\ pi pr' = pi pr.
Definition drained (pr pr' : page_read) : Prop := async pr' = async pr \/ async pr' = [].

#[export] Instance same_data_refl : Reflexive same_data.
Proof. by intros pr. Qed.
#[export] Instance same_data_trans : Transitive same_data.
Proof. intros a b c (?&?) (?&?). unfold same_data. split; congruence. Qed.
#[export] Instance drained_refl : Reflexive drained.
Proof. intros pr. by left. Qed.
#[export] Instance drained_trans : Transitive drained.
Proof. intros a b c [?|?] [?|?]; unfold drained; (right; congruence) || (left; congruence). Qed.

Lemma Forall2_refl {A} (R : A -> A -> Prop) `{!Reflexive R} l : Forall2 R l l.
Proof. induction l; by constructor. Qed.
Lemma Forall2_trans {A} (R : A -> A -> Prop) `{!Transitive R} l1 l2 l3 :
  Forall2 R l1 l2 -> Forall2 R l2 l3 -> Forall2 R l1 l3.
Proof.
  intros H. revert l3. induction H; intros l3 H'; inversion H'; subst; constructor; [by etrans|auto].
Qed.

Lemma ref_byte_data c c' a : Forall2 same_data c c' -> ref_byte c' a = ref_byte c a.
Proof.
  induction 1 as [|pr pr' c c' (H1 & H2) _ IH]; [done|]. simpl. rewrite H1, H2.
  destruct (find_entry _ _ _) as [[e off]|]; [|done]. by rewrite IH.
Qed.

Definition is_async (fl : Z) : bool := Z.land fl (Z.lor PR_ASYNC PR_ASAP) =? PR_ASYNC.

(** a request lies within the pages image *)
Definition piov_in (pr : page_read) (p : page_read_iov) : Prop :=
  piov_ok p /\ 0 <= from p /\ end_ p <= pages_off (pmes pr).

Definition pending (T : Z -> Z) (S : Z -> bool) (pr : page_read) : Prop :=
  forall mem b, queue_mem (pi pr) (async pr) mem b = if S b then T b else mem b.

Definition somewhere (Ss : list (Z -> bool)) (b : Z) : bool := existsb (fun S => S b) Ss.
(** the memory once nothing is pending *)
Definition due (T : Z -> Z) (Ss : list (Z -> bool)) (mem : Z -> Z) (b : Z) : Z :=
  if somewhere Ss b then T b else mem b.

Lemma chain_mem_due T Ss chain mem b :
  Forall2 (pending T) Ss chain -> chain_mem chain mem b = due T Ss mem b.
Proof.
  intros H. revert mem. induction H as [|S pr Ss c Hp _ IH]; intros mem; [done|]. simpl. rewrite IH.
  unfold due. simpl. rewrite (Hp mem b). by destruct (S b), (somewhere Ss b).
Qed.

Lemma enqueue_in {K : ReadKernel} pr t buf len q :
  (forall t, k_xmalloc t = true) -> Forall (piov_in pr) q -> 0 < len ->
  0 <= pi_off pr -> pi_off pr + len <= pages_off (pmes pr) ->
  exists t' q', pagemap_enqueue_iovec pr t buf len q = (0, t', q') /\ Forall (piov_in pr) q' /\
    forall f mem b, queue_mem f q' mem b = blit (queue_mem f q mem) buf f (pi_off pr) len b.
Proof.
  intros Hal Hq Hlen Ho Ho'. destruct (pagemap_enqueue_iovec pr t buf len q) as [[r t'] q'] eqn:E.
  destruct (enqueue_ok pr t buf len q r t' q') as (Hok & Hr); [eapply Forall_impl; [|exact Hq]; by intros ? (?&?)|done..|].
  assert (Hnew : forall t' q', enqueue_async_iov pr t buf len q = (r, t', q') ->
            r = 0 /\ Forall (fun p => 0 <= from p /\ end_ p <= pages_off (pmes pr)) q').
  { unfold enqueue_async_iov. rewrite !Hal. intros ? ? [= <- <- <-]. split; [done|]. apply Forall_snoc.
    split; [eapply Forall_impl; [|exact Hq]; by intros ? (?&?)|]. done. }
  assert (Hres : r = 0 /\ Forall (fun p => 0 <= from p /\ end_ p <= pages_off (pmes pr)) q').
  { revert E. unfold pagemap_enqueue_iovec. destruct (list.last q) as [cur|] eqn:El; [|apply Hnew].
    destruct (Z.eqb_spec (pi_off pr) (end_ cur)) as [Hoff|]; [|apply Hnew]. cbn [negb].
    pose proof (last_split _ _ El) as Hq'. set (rest := take (length q - 1) q) in *. clearbody rest.
    pose proof Hq as Hq2. rewrite Hq' in Hq2. apply Forall_snoc in Hq2 as [Hrest ((Hne & _) & Hf & He)].
    assert (Hrest' : Forall (fun p => 0 <= from p /\ end_ p <= pages_off (pmes pr)) rest)
      by (eapply Forall_impl; [|exact Hrest]; by intros ? (?&?)).
    destruct (list.last (to cur)) as [iov|] eqn:Ei; [|by apply list.last_None in Ei].
    destruct (_ =? buf); [intros [= <- <- <-]; split; [done|]; apply Forall_snoc; split; [done|]; cbn; lia|].
    destruct (IOV_MAX <=? _); [apply Hnew|]. rewrite Hal. intros [= <- <- <-]. split; [done|].
    apply Forall_snoc. split; [done|]. cbn. lia. }
  destruct Hres as [-> Hin]. destruct Hr as [[_ Hr]|[? _]]; [|done].
  exists t', q'. split; [done|]. split; [|done]. apply list.Forall_forall. intros p Hp.
  rewrite list.Forall_forall in Hok, Hin. split; [by apply Hok|by apply Hin].
Qed.

Section Requests.
Context {K : ReadKernel} `{!ReadKernelOk K} `{!ReadKernelLive K}.
(** [pp]: FI_PARTIAL_PAGES; [fl]: the flags of the requests *)
Variables (pp : bool) (fl : Z) (iofuel : nat) (T : Z -> Z).
Hypothesis Hasync : is_async fl = true -> pp = false /\ forall t, k_xmalloc t = true.

(** a level that can serve requests from [va] on *)
Definition level_q (va : Z) (pr : page_read) : Prop :=
  pm_ok pr /\ pos_ok pr /\ cvaddr pr <= va /\
  (async pr = [] \/ pp = false /\ Forall (piov_in pr) (async pr)) /\
  (async pr = [] /\ is_async fl = false \/ (Z.to_nat (pages_off (pmes pr)) <= iofuel)%nat).

(** where the bytes are to go *)
Definition target (Ss : list (Z -> bool)) (chain : list page_read) (va len buf : Z) : Prop :=
  forall a, va <= a < va + len ->
    if is_async fl then ref_byte chain a = Some (T (buf + (a - va)))
    else somewhere Ss (buf + (a - va)) = false.

Definition post_q (Ss Ss' : list (Z -> bool)) (chain chain' : list page_read) (mem mem' : Z -> Z)
    (va len buf : Z) : Prop :=
  Forall2 same_data chain chain' /\
  (is_async fl = false -> Forall2 drained chain chain') /\
  (forall b, somewhere Ss' b = true -> somewhere Ss b = true \/ is_async fl = true /\ buf <= b < buf + len) /\
  Forall (level_q (va + len)) chain' /\ Forall2 (pending T) Ss' chain' /\
  (forall a, va <= a < va + len -> ref_byte chain a = Some (due T Ss' mem' (buf + (a - va)))) /\
  (forall b, ~ (buf <= b < buf + len) -> due T Ss' mem' b = due T Ss mem b).

Lemma level_q_mono va va' pr : va <= va' -> level_q va pr -> level_q va' pr.
Proof. intros ? (?&?&?&?&?). unfold level_q. split_and!; try done. lia. Qed.

Lemma level_q_queue va pr : pp = false -> level_q va pr -> queue_ok iofuel pr.
Proof.
  intros _ (Hok & _ & _ & Hq & Hf). unfold queue_ok. destruct Hq as [Hq|[_ Hq]]; [by rewrite Hq|].
  destruct Hf as [[-> _]|Hf]; [done|]. split; (eapply Forall_impl; [|exact Hq]); intros p (Hp & H1 & H2); [done|].
  destruct Hp as (_ & Hpos & He). pose proof (bytes_nonneg _ Hpos). lia.
Qed.

(** what is queued at the levels of [chain] is read, from the first level on *)
Lemma sync_level_q va Ss chain t mem :
  Forall (level_q va) chain -> Forall2 (pending T) Ss chain ->
  exists t' mem', process_async_reads false pp None iofuel chain t mem =
      Done (0, (t', mem', (fun pr => set_async pr []) <$> chain)) /\
    forall b, mem' b = due T Ss mem b.
Proof.
  intros Hl HS.
  assert (Hcase : pp = false \/ Forall (fun pr => async pr = []) chain).
  { destruct pp eqn:E; [right|by left]. eapply Forall_impl; [|exact Hl]. intros pr (_&_&_&[?|[? _]]&_); congruence. }
  destruct Hcase as [->|Hid].
  - destruct (process_async_ok iofuel chain t mem) as (t' & mem' & -> & Hm).
    { eapply Forall_impl; [|exact Hl]. intros pr. by apply (level_q_queue va). }
    eexists _, _. split; [done|]. intros b. rewrite Hm. by apply chain_mem_due.
  - rewrite process_async_idle by done. exists t, mem. split.
    + do 3 f_equal. clear -Hid. induction Hid as [|pr c Ha _ IH]; [done|]. rewrite fmap_cons, <-IH. f_equal.
      destruct pr. cbn in *. by subst.
    + intros b. rewrite <-(chain_mem_due T Ss chain) by done. clear -Hid. revert mem.
      induction Hid as [|pr c Ha _ IH]; intros mem; [done|]. simpl. rewrite Ha. apply IH.
Qed.

Definition nothing : Z -> bool := fun _ => false.

Lemma pending_nothing pr : async pr = [] -> pending T nothing pr.
Proof. intros H mem b. by rewrite H. Qed.

Lemma somewhere_nothing n b : somewhere (replicate n nothing) b = false.
Proof. by induction n. Qed.

Lemma pending_idle (chain : list page_read) : Forall (fun pr => async pr = []) chain ->
  Forall2 (pending T) (replicate (length chain) nothing) chain.
Proof. induction 1; constructor; [by apply pending_nothing|done]. Qed.

Lemma level_q_sync va pr : level_q va pr -> level_q va (set_async pr []).
Proof.
  intros (H1 & H2 & H3 & H4 & H5). unfold level_q. split_and!; try done; [by left|].
  destruct H5 as [[_ ?]|?]; [by left|by right].
Qed.

(** a level at its entry after [n] bytes of it are read, with the queue [q] *)
Lemma level_q_read pr k e va n q :
  level_q va pr -> at_entry pr k e -> cvaddr pr = va -> 0 <= va -> 0 <= n -> va + n <= pe_end e ->
  (q = [] \/ pp = false /\ Forall (piov_in pr) q) ->
  (q = [] /\ is_async fl = false \/ (Z.to_nat (pages_off (pmes pr)) <= iofuel)%nat) ->
  level_q (va + n) (set_pos (set_async pr q) (pe pr) (u64 (cvaddr pr + n))
                      (pi_off pr + (if pagemap_present e then n else 0)) (curr_pme pr)).
Proof.
  intros ((Hf & Hs) & _) Hat Hcv H0 Hn Hend Hq Hio.
  assert (He : pe_ok e) by (destruct Hat as (_ & Hk & _); by eapply Forall_lookup_1).
  destruct He as (_ & _ & _ & He & _). unfold level_q. split_and!; try done.
  - pose proof (at_entry_read pr k e va n Hat Hcv Hn Hend He H0) as Hx. right. exists k, e. exact Hx.
  - simpl. rewrite u64_id; lia.
Qed.

Lemma ref_byte_at pr up k e va a :
  pm_ok pr -> at_entry pr k e -> cvaddr pr = va -> va <= a < pe_end e -> pagemap_in_parent e = false ->
  pagemap_present e = true -> ref_byte (pr :: up) a = Some (pi pr (pi_off pr + (a - va))).
Proof.
  intros [Hf Hs] (_ & Hk & _ & [Hc1 _] & Hoff) Hcv Ha Hp Hpres. simpl.
  rewrite (find_entry_at _ k e 0 a Hf Hs Hk) by (unfold covers; lia). rewrite Hp, Hpres in *. do 2 f_equal. lia.
Qed.

(** the two ways to read from the level itself; the address is advanced by the caller *)
Lemma maybe_read_q va nr buf t mem Ss pr up k e :
  Forall (level_q va) (pr :: up) -> Forall2 (pending T) Ss (pr :: up) -> at_entry pr k e -> cvaddr pr = va ->
  0 <= va -> 0 < nr < 2 ^ 31 -> va + nr * PAGE_SIZE <= pe_end e -> pagemap_in_parent e = false ->
  pagemap_present e = true -> (is_async fl = false -> (Z.to_nat (nr * PAGE_SIZE) <= iofuel)%nat) ->
  target Ss (pr :: up) va (nr * PAGE_SIZE) buf ->
  exists r t' mem' pr' up' Ss',
    maybe_read_page_local false pp None iofuel va nr buf fl (t, mem, pr :: up) =
      Done (r, (t', mem', pr' :: up')) /\ 0 <= r /\ pe pr' = pe pr /\ curr_pme pr' = curr_pme pr /\ cvaddr pr' = va /\
    post_q Ss Ss' (pr :: up) (set_pos pr' (pe pr') (u64 (cvaddr pr' + nr * PAGE_SIZE)) (pi_off pr') (curr_pme pr') :: up')
           mem mem' va (nr * PAGE_SIZE) buf.
Proof.
  intros Hl HS Hat Hcv Hva Hnr Hend Hp Hpres Hio Htgt. unfold maybe_read_page_local.
  pose proof Hl as Hl2. apply Forall_cons_1 in Hl2 as [Hl1 Hlu]. pose proof Hl1 as ((Hf & Hsrt) & Hpos & Hcva & Hq & Hfu).
  pose proof (fun a Ha => ref_byte_at pr up k e va a (conj Hf Hsrt) Hat Hcv Ha Hp Hpres) as Href.
  rewrite u64_id by plia. fold (is_async fl).
  assert (Hup : Forall (level_q (va + nr * PAGE_SIZE)) up).
  { eapply Forall_impl; [|exact Hlu]. intros x. apply level_q_mono. plia. }
  assert (Hnext : forall q, (q = [] \/ pp = false /\ Forall (piov_in pr) q) ->
    (q = [] /\ is_async fl = false \/ (Z.to_nat (pages_off (pmes pr)) <= iofuel)%nat) ->
    level_q (va + nr * PAGE_SIZE) (set_pos (set_async pr q) (pe pr) (u64 (cvaddr pr + nr * PAGE_SIZE)) (pi_off pr + nr * PAGE_SIZE) (curr_pme pr))).
  { intros q. pose proof (level_q_read pr k e va (nr * PAGE_SIZE) q Hl1 Hat Hcv Hva ltac:(plia) Hend) as Hx. by rewrite Hpres in Hx. }
  case_eq (is_async fl); intros Ea.
  - destruct (Hasync Ea) as [Hpp Hal]. destruct Hfu as [[_ ?]|Hfu]; [congruence|].
    destruct Hat as (_ & Hk & _ & Hin & Hoff). rewrite Hpres in Hoff.
    pose proof (pages_off_take _ _ _ Hf Hk) as Hot. unfold present_bytes in Hot. rewrite Hpres in Hot.
    pose proof (pages_off_nonneg (take k (pmes pr)) (Forall_take _ _ _ Hf)).
    assert (Hq' : Forall (piov_in pr) (async pr)) by (destruct Hq as [->|[_ ?]]; [by constructor|done]).
    destruct (enqueue_in pr t buf (nr * PAGE_SIZE) (async pr) Hal Hq') as (t' & q' & -> & Hin' & Hmem);
      [plia|lia|unfold pe_end in *; plia|].
    inversion HS as [|S0 ? Ss0 ? Hp0 HSu]; subst.
    set (S1 := fun b => S0 b || ((buf <=? b) && (b <? buf + nr * PAGE_SIZE))).
    exists 0, t', mem, (add_pi_off (set_async pr q') (nr * PAGE_SIZE)), up, (S1 :: Ss0).
    do 5 (split; [done|]).
    assert (HT : forall b, buf <= b < buf + nr * PAGE_SIZE -> pi pr (pi_off pr + (b - buf)) = T b).
    { intros b Hb. specialize (Htgt (cvaddr pr + (b - buf)) ltac:(lia)). rewrite Ea, Href in Htgt by lia.
      replace (cvaddr pr + (b - buf) - cvaddr pr) with (b - buf) in Htgt by lia.
      replace (buf + (b - buf)) with b in Htgt by lia. congruence. }
    unfold post_q. split_and!.
    + constructor; [done|apply Forall2_refl, _].
    + congruence.
    + intros b. unfold somewhere. cbn [existsb]. unfold S1. rewrite !orb_true_iff. intros [[?|Hb]|?]; [by left; left|right|by left; right].
      split; [done|lia].
    + constructor; [|done]. apply Hnext; by right.
    + constructor; [|done]. intros m b. cbn [pi async set_pos add_pi_off set_async]. rewrite Hmem. unfold blit, S1. rewrite (Hp0 m b).
      destruct ((buf <=? b) && (b <? buf + nr * PAGE_SIZE)) eqn:Eb; [|by rewrite orb_false_r].
      rewrite orb_true_r. apply HT. lia.
    + intros a Ha. rewrite Href by lia. f_equal. unfold due, somewhere. cbn [existsb].
      assert (E1 : S1 (buf + (a - cvaddr pr)) = true).
      { unfold S1. rewrite (proj2 (andb_true_iff _ _)) by lia. by rewrite orb_true_r. }
      rewrite E1. cbn [orb]. rewrite <-HT by lia. f_equal. lia.
    + intros b Hb. unfold due, somewhere. cbn [existsb]. unfold S1.
      rewrite (proj2 (andb_false_iff (buf <=? b) _)) by lia. by rewrite orb_false_r.
  - unfold read_local_page. destruct (sync_level_q va Ss (pr :: up) t mem Hl HS) as (t1 & m1 & -> & Hm1). cbn [negb Z.eqb]. rewrite fmap_cons.
    destruct (pread_loop_ok iofuel t1 (pi pr) m1 buf (pi_off pr) (nr * PAGE_SIZE) 0)
      as (r & t' & mem' & Hrun & Hr & Hmi & Hmo); [plia|rewrite Z.sub_0_r; auto|].
    cbn [pi pi_off set_async]. rewrite Hrun, (proj2 (Z.ltb_ge _ _)) by lia.
    eexists 0, t', mem', _, _, (replicate (length (pr :: up)) nothing). do 5 (split; [done|]).
    assert (Hlen : forall b, somewhere (replicate (length (pr :: up)) nothing) b = false) by (intros; apply somewhere_nothing).
    unfold post_q, due. split_and!.
    + constructor; [done|]. clear. induction up; by constructor.
    + intros _. constructor; [by right|]. clear; induction up; constructor; [by right|done].
    + intros b. by rewrite Hlen.
    + constructor; [|].
      * apply Hnext; [by left|by left].
      * apply Forall_fmap. eapply Forall_impl; [|exact Hup]. intros x. apply level_q_sync.
    + constructor; [by apply pending_nothing|].
      pose proof (pending_idle ((fun pr => set_async pr []) <$> up)) as Hx. rewrite length_fmap in Hx.
      apply Hx, Forall_fmap. by apply Forall_true.
    + intros a Ha. rewrite Href, Hlen by lia. f_equal. rewrite (Hmi (a - va)) by lia. done.
    + intros b Hb. rewrite Hlen, Hmo by lia. apply Hm1.
Qed.

(** the top level after a request *)
Definition head_at (pr : page_read) (chain' : list page_read) (va : Z) : Prop :=
  exists pr' up', chain' = pr' :: up' /\ pe pr' = pe pr /\ curr_pme pr' = curr_pme pr /\ cvaddr pr' = va.

(** what the parents do for one request *)
Definition rd_spec (depth : nat) (rd : Z -> Z -> Z -> M rstate Z) : Prop :=
  forall t mem Ss pr up va nr buf k e,
    Forall (level_q va) (pr :: up) -> Forall2 (pending T) Ss (pr :: up) ->
    at_entry pr k e -> cvaddr pr = va -> 0 <= va -> aligned va ->
    0 < nr < 2 ^ 31 -> va + nr * PAGE_SIZE <= pe_end e ->
    resolvable (pr :: up) va (nr * PAGE_SIZE) ->
    (length (pr :: up) <= depth)%nat -> (is_async fl = false -> (Z.to_nat (nr * PAGE_SIZE) <= iofuel)%nat) ->
    target Ss (pr :: up) va (nr * PAGE_SIZE) buf ->
    exists t' mem' chain' Ss',
      rd va nr buf (t, mem, pr :: up) = Done (1, (t', mem', chain')) /\
      post_q Ss Ss' (pr :: up) chain' mem mem' va (nr * PAGE_SIZE) buf /\ head_at pr chain' (va + nr * PAGE_SIZE).

Lemma target_sub Ss c va len buf off n :
  0 <= off -> off + n <= len -> target Ss c va len buf -> target Ss c (va + off) n (buf + off).
Proof.
  intros Ho Hn H a Ha. specialize (H a ltac:(lia)). by replace (buf + off + (a - (va + off))) with (buf + (a - va)) by lia.
Qed.

Lemma target_after Ss Ss' c c' va len buf (lo hi : Z) :
  Forall2 same_data c c' ->
  (forall b, somewhere Ss' b = true -> somewhere Ss b = true \/ is_async fl = true /\ lo <= b < hi) ->
  target Ss c va len buf -> target Ss' c' va len buf.
Proof.
  intros Hd Hs H a Ha. specialize (H a Ha). destruct (is_async fl) eqn:Ea; [by rewrite (ref_byte_data c)|].
  specialize (Hs (buf + (a - va))). destruct (somewhere Ss' _); [|done]. destruct Hs as [Hs|[? _]]; [done| |done]. by rewrite Hs in H.
Qed.

Lemma post_q_app Ss Ss1 Ss2 c c1 c2 mem m1 m2 va n1 n2 buf :
  0 <= n1 -> 0 <= n2 ->
  post_q Ss Ss1 c c1 mem m1 va n1 buf -> post_q Ss1 Ss2 c1 c2 m1 m2 (va + n1) n2 (buf + n1) ->
  post_q Ss Ss2 c c2 mem m2 va (n1 + n2) buf.
Proof.
  intros H1 H2 (A1 & A1' & A1s & A2 & A2' & A3 & A4) (B1 & B1' & B1s & B2 & B2' & B3 & B4). unfold post_q. split_and!; try done.
  - by eapply Forall2_trans; [apply _|..].
  - intros Ea. by eapply Forall2_trans; [apply _|apply A1'|apply B1'].
  - intros b Hb. destruct (B1s b Hb) as [Hb1|[? ?]]; [|right; split; [done|lia]].
    destruct (A1s b Hb1) as [?|[? ?]]; [by left|right; split; [done|lia]].
  - by rewrite Z.add_assoc.
  - intros a Ha. destruct (Z.lt_ge_cases a (va + n1)).
    + rewrite A3 by lia. f_equal. symmetry. apply B4. lia.
    + rewrite <-(ref_byte_data c c1 a A1), B3 by lia. do 2 f_equal. lia.
  - intros b Hb. rewrite B4, A4 by lia. done.
Qed.

Lemma post_q_from Ss Ss' c c0 c' mem mem' va len buf :
  Forall2 same_data c c0 -> Forall2 drained c c0 -> post_q Ss Ss' c0 c' mem mem' va len buf ->
  post_q Ss Ss' c c' mem mem' va len buf.
Proof.
  intros Hd Hdr (P1 & P2 & P2s & P3 & P4 & P5 & P6). unfold post_q. split_and!; try done.
  - by eapply Forall2_trans; [apply _|..].
  - intros Ea. by eapply Forall2_trans; [apply _|exact Hdr|apply P2].
  - intros a Ha. rewrite <-(ref_byte_data c c0 a Hd). by apply P5.
Qed.

(** the part of a request that the entry at [va] covers *)
Lemma parent_part e va nr :
  pe_ok e -> covers e va -> aligned va -> 0 < nr < 2 ^ 31 ->
  let p := Z.min (s32 (nr_pages e - u64 (va - vaddr e) / PAGE_SIZE)) nr in
  0 < p <= nr /\ va + p * PAGE_SIZE <= pe_end e.
Proof.
  intros (He1 & He2 & He3 & He4 & He5) [Hc1 Hc2] Hal Hnr. cbv zeta. rewrite (u64_id (va - vaddr e)) by lia.
  rewrite s32_id by (unfold pe_end in *; pdiv). unfold pe_end in *. pdiv.
Qed.

Lemma parent_loop_ok depth rd fuel : rd_spec depth rd -> forall t mem Ss pr up va nr buf,
  Forall (level_q va) (pr :: up) -> Forall2 (pending T) Ss (pr :: up) ->
  0 <= va -> aligned va -> 0 < nr < 2 ^ 31 ->
  va + nr * PAGE_SIZE < 2 ^ 63 -> resolvable (pr :: up) va (nr * PAGE_SIZE) ->
  (Z.to_nat nr <= fuel)%nat -> (length (pr :: up) <= depth)%nat ->
  (is_async fl = false -> (Z.to_nat (nr * PAGE_SIZE) <= iofuel)%nat) ->
  target Ss (pr :: up) va (nr * PAGE_SIZE) buf ->
  exists t' mem' chain' Ss',
    parent_loop fuel rd va nr buf (t, mem, pr :: up) = Done (0, (t', mem', chain')) /\
    post_q Ss Ss' (pr :: up) chain' mem mem' va (nr * PAGE_SIZE) buf.
Proof.
  intros Hrd. induction fuel as [|fuel IH]; intros t mem Ss pr up va nr buf Hl HS Hva Hal Hnr Hlim Hres Hfuel Hd Hio Htg;
    [lia|]. simpl.
  pose proof Hl as Hl'. apply Forall_cons_1 in Hl' as [(Hok & Hpos & Hcv & Has) Hup].
  destruct (seek_ok pr va Hok Hpos ltac:(plia)) as (r & pr1 & -> & Hsame & Hpos1 & _ & Hr).
  destruct r.
  2: { exfalso. destruct (resolvable_covers pr up va) as (d & Hdm & Hc).
       { apply Hres. plia. }
       by apply (passed_not_covered pr pr1 va Hok Hr d Hdm). }
  destruct Hr as (k & e & Hat & Hcov & Hcv1).
  pose proof Hat as (Hpe & Hk & _). rewrite Hpe.
  destruct Hsame as (Hs1 & Hs2 & Hs3).
  assert (Hok1 : pm_ok pr1) by (unfold pm_ok; by rewrite Hs1).
  assert (He : pe_ok e) by (destruct Hok1 as [Hf _]; by eapply Forall_lookup_1).
  pose proof (parent_part e va nr He Hcov Hal Hnr) as Hpp. cbv zeta in Hpp.
  set (p := Z.min _ nr) in *. destruct Hpp as [Hp Hpend].
  assert (Hl1 : Forall (level_q va) (pr1 :: up)).
  { apply Forall_cons_2; [|done]. unfold level_q, piov_in. rewrite Hs1, Hs3. split_and!; [done|done|lia|apply Has..]. }
  assert (Hsame : Forall2 same_data (pr :: up) (pr1 :: up)).
  { constructor; [done|]. apply Forall2_refl, _. }
  assert (Hdr : Forall2 drained (pr :: up) (pr1 :: up)).
  { constructor; [by left|]. apply Forall2_refl, _. }
  assert (HS1 : Forall2 (pending T) Ss (pr1 :: up)).
  { inversion HS; subst. constructor; [|done]. unfold pending. by rewrite Hs2, Hs3. }
  destruct (Hrd t mem Ss pr1 up va p buf k e) as (t2 & m2 & c2 & Ss2 & -> & Hpost & _); try done; try lia.
  { intros a Ha. rewrite (ref_byte_data _ _ a Hsame). apply Hres. plia. }
  { intros Ea. specialize (Hio Ea). plia. }
  { apply (target_after Ss Ss (pr :: up) _ _ _ _ 0 0); [done|auto|]. rewrite <-(Z.add_0_r va), <-(Z.add_0_r buf).
    apply (target_sub _ _ _ (nr * PAGE_SIZE)); [lia|plia|done]. }
  change (1 =? -1) with false. cbv iota. apply (post_q_from _ _ (pr :: up)) in Hpost; [|done..].
  destruct (Z.eqb_spec (nr - p) 0) as [Hz|Hz].
  - eexists _, _, _, _. split; [done|]. by replace nr with p by lia.
  - pose proof Hpost as (P1 & P1' & P1s & P2 & P2' & P3 & P4). inversion P1 as [|? pr2 ? up2 Hx1 Hx2]; subst c2.
    rewrite u64_id by plia.
    destruct (IH t2 m2 Ss2 pr2 up2 (va + p * PAGE_SIZE) (nr - p) (buf + p * PAGE_SIZE))
      as (t3 & m3 & c3 & Ss3 & Hrun & Hpost3); try done; try plia.
    + apply aligned_add; [done|apply aligned_mul].
    + intros a Ha. rewrite (ref_byte_data _ _ a P1). apply Hres. plia.
    + apply Forall2_length in P1. simpl in *. lia.
    + intros Ea. specialize (Hio Ea). plia.
    + eapply (target_after Ss _ (pr :: up)); [done|exact P1s|].
      apply (target_sub _ _ _ (nr * PAGE_SIZE)); [plia|plia|done].
    + exists t3, m3, c3, Ss3. split; [exact Hrun|].
      replace (nr * PAGE_SIZE) with (p * PAGE_SIZE + (nr - p) * PAGE_SIZE) by lia.
      eapply post_q_app; [plia|plia|exact Hpost|exact Hpost3].
Qed.

Lemma bound_check_ok e va nr :
  pe_ok e -> vaddr e <= va -> aligned va -> 0 < nr < 2 ^ 31 -> va + nr * PAGE_SIZE <= pe_end e ->
  pagemap_bound_check e va nr = true.
Proof.
  intros (He1 & He2 & He3 & He4 & He5) Hv Hal Hnr Hend. unfold pagemap_bound_check. rewrite (u64_id (va - vaddr e)) by plia.
  rewrite u64_id by (unfold pe_end in *; pdiv). rewrite negb_true_iff, orb_false_iff.
  split; [lia|]. apply Z.ltb_ge. unfold pe_end in *. pdiv.
Qed.

(** a level whose bytes were read by its parents *)
Lemma post_q_up S0 Ss Ss' pr up chain' mem mem' va n buf k e :
  level_q va pr -> pending T S0 pr -> at_entry pr k e -> cvaddr pr = va -> 0 <= va -> 0 <= n ->
  va + n <= pe_end e -> pagemap_in_parent e = true -> (is_async fl = false -> forall a, va <= a < va + n -> S0 (buf + (a - va)) = false) ->
  (is_async fl = true -> forall a, va <= a < va + n -> ref_byte up a = Some (T (buf + (a - va)))) ->
  post_q Ss Ss' up chain' mem mem' va n buf ->
  post_q (S0 :: Ss) (S0 :: Ss') (pr :: up) (set_pos pr (pe pr) (u64 (cvaddr pr + n)) (pi_off pr) (curr_pme pr) :: chain')
    mem mem' va n buf.
Proof.
  intros Hl HS0 Hat Hcv Hva Hn Hend Hp Hs Hs' (P1 & P2 & P2s & P3 & P4 & P5 & P6).
  pose proof Hl as ((Hf & Hsrt) & _ & _ & Hq & Hfu). pose proof Hat as (_ & Hk & _ & Hin & _).
  assert (He : pe_ok e) by (by eapply Forall_lookup_1). destruct He as (_ & _ & _ & _ & He5). specialize (He5 Hp).
  unfold post_q. split_and!.
  - by constructor.
  - intros Ea. constructor; [by left|by apply P2].
  - intros b. cbn. rewrite !orb_true_iff. intros [?|Hb]; [by left; left|]. destruct (P2s b Hb); [by left; right|by right].
  - constructor; [|done]. pose proof (level_q_read pr k e va n (async pr) Hl Hat Hcv Hva Hn Hend Hq Hfu) as Hx.
    rewrite He5, Z.add_0_r in Hx. by destruct pr.
  - constructor; [done|done].
  - intros a Ha. simpl. rewrite (find_entry_at _ k e 0 a Hf Hsrt Hk) by (unfold covers; lia). rewrite Hp, P5 by done.
    unfold due. cbn [somewhere existsb]. fold (somewhere Ss' (buf + (a - va))). case_eq (is_async fl); intros Ea.
    + specialize (Hs' Ea a Ha). rewrite P5 in Hs' by done. injection Hs' as Hs'. unfold due in Hs'.
      destruct (S0 (buf + (a - va))); [by rewrite Hs'|done].
    + by rewrite (Hs Ea a Ha).
  - intros b Hb. specialize (P6 b Hb). unfold due in *. cbn [somewhere existsb]. fold (somewhere Ss' b) (somewhere Ss b).
    by destruct (S0 b).
Qed.

Lemma read_pagemap_page_q depth : rd_spec depth (read_pagemap_page false pp None depth iofuel fl).
Proof.
  induction depth as [|depth IH];
    intros t mem Ss pr up va nr buf k e Hl HS Hat Hcv Hva Hal Hnr Hend Hres Hd Hio Htg; [simpl in Hd; lia|].
  pose proof Hat as (Hpe & Hk & _ & Hin & _). pose proof Hl as Hl'.
  apply Forall_cons_1 in Hl' as [Hlv Hup]. pose proof Hlv as (Hok & Hpos & Hrest).
  assert (He : pe_ok e) by (destruct Hok as [Hf _]; by eapply Forall_lookup_1).
  cbn [read_pagemap_page]. rewrite Hpe, bound_check_ok by (done || lia). cbn [negb].
  assert (Hcover : forall a, va <= a < va + nr * PAGE_SIZE ->
            find_entry (pmes pr) 0 a = Some (e, 0 + pages_off (take k (pmes pr)))).
  { intros a Ha. destruct Hok. apply find_entry_at; try done. unfold covers. lia. }
  destruct (pagemap_in_parent e) eqn:Hp.
  - assert (Hup2 : forall a, va <= a < va + nr * PAGE_SIZE -> ref_byte (pr :: up) a = ref_byte up a).
    { intros a Ha. simpl. by rewrite (Hcover a Ha), Hp. }
    assert (Hres' : resolvable up va (nr * PAGE_SIZE)).
    { intros a Ha. rewrite <-Hup2 by done. by apply Hres. }
    destruct up as [|ppr up].
    { exfalso. destruct (Hres' va) as [? ?]; [plia|done]. }
    inversion HS as [|S0 ? Ss0 ? HS0 HSu]; subst.
    assert (Htg' : target Ss0 (ppr :: up) (cvaddr pr) (nr * PAGE_SIZE) buf).
    { intros a Ha. specialize (Htg a Ha). rewrite Hup2 in Htg by done. destruct (is_async fl); [done|].
      cbn in Htg. by apply orb_false_iff in Htg as [_ ?]. }
    destruct He as (He1 & He2 & He3 & He4 & He5).
    destruct (parent_loop_ok depth _ (S (Z.to_nat nr)) IH t mem Ss0 ppr up (cvaddr pr) nr buf)
      as (t' & mem' & c' & Ss' & -> & HP); try done; try plia.
    { simpl in *. lia. }
    eexists _, _, _, (S0 :: Ss'). split; [done|]. split.
    2: { eexists _, _. split; [done|]. cbn. rewrite Hpe, u64_id by plia. done. }
    apply (post_q_up S0 Ss0 Ss' pr (ppr :: up) c' mem mem' (cvaddr pr) (nr * PAGE_SIZE) buf k e); try done; try plia.
    + intros Ea a Ha. specialize (Htg a Ha). rewrite Ea in Htg. cbn in Htg. by apply orb_false_iff in Htg as [? _].
    + intros Ea a Ha. specialize (Htg' a Ha). by rewrite Ea in Htg'.
  - assert (Hpres : pagemap_present e = true).
    { destruct (Hres va) as [x Hx]; [plia|]. simpl in Hx. rewrite Hcover in Hx by plia.
      rewrite Hp in Hx. by destruct (pagemap_present e). }
    destruct (maybe_read_q va nr buf t mem Ss pr up k e)
      as (r & t' & mem' & pr' & up' & Ss' & -> & Hr & R1 & R2 & R3 & HP); try done.
    rewrite (proj2 (Z.ltb_ge _ _)) by lia. eexists _, _, _, Ss'. split; [done|]. split; [done|].
    destruct He as (_ & _ & _ & ? & _). eexists _, _. split; [done|]. cbn. rewrite R3, u64_id by plia. done.
Qed.

(** ... is still in its entry *)
Lemma head_at_entry pr k e pr' va len :
  pm_ok pr -> at_entry pr k e -> same_data pr pr' -> level_q (va + len) pr' -> pe pr' = pe pr -> at_entry pr' k e.
Proof.
  intros [Hf Hs] (A1 & A2 & _) (D1 & D2) (_ & Hpos & _) Hpe.
  destruct Hpos as [(Hn & _)|(k' & e' & Hat')]; [congruence|]. pose proof Hat' as (B1 & B2 & _).
  rewrite D1 in B2. assert (e' = e) as -> by congruence. by rewrite (pm_sorted_lookup_inj _ k k' e Hf Hs A2 B2).
Qed.
End Requests.

(** ** Synchronous requests on an idle reader *)

Section Reading2.
Context {K : ReadKernel} `{!ReadKernelOk K} `{!ReadKernelLive K}.

Lemma level_q_idle pp fl iofuel va pr : is_async fl = false -> level_ok va pr -> level_q pp fl iofuel va pr.
Proof. intros Ha (?&?&Hq&?). unfold level_q. split_and!; try done; by left. Qed.

Lemma same_data_idle c c' :
  Forall (fun pr => async pr = []) c -> Forall2 same_data c c' -> Forall2 drained c c' -> Forall2 same_img c c'.
Proof.
  intros Hc Hd. revert Hc. induction Hd as [|pr pr' c c' (?&?) _ IH]; intros Hc Hdr; [constructor|].
  inversion Hdr as [|? ? ? ? Hx Hdr']; subst. apply Forall_cons_1 in Hc as [? ?].
  constructor; [|auto]. unfold same_img. split_and!; [done|done|]. destruct Hx; congruence.
Qed.

Lemma read_pagemap_page_ok pp fl depth iofuel (Hfl : Z.land fl (Z.lor PR_ASYNC PR_ASAP) <> PR_ASYNC)
    t mem pr up va nr buf k e :
  Forall (level_ok va) (pr :: up) -> at_entry pr k e -> cvaddr pr = va -> 0 <= va -> aligned va ->
  0 < nr < 2 ^ 31 -> va + nr * PAGE_SIZE <= pe_end e ->
  resolvable (pr :: up) va (nr * PAGE_SIZE) ->
  (length (pr :: up) <= depth)%nat -> (Z.to_nat (nr * PAGE_SIZE) <= iofuel)%nat ->
  exists t' mem' chain',
    read_pagemap_page false pp None depth iofuel fl va nr buf (t, mem, pr :: up) =
      Done (1, (t', mem', chain')) /\
    read_post (pr :: up) chain' mem mem' va (nr * PAGE_SIZE) buf.
Proof.
  intros Hl Hat Hcv Hva Hal Hnr Hend Hres Hd Hio.
  assert (Ha : is_async fl = false) by (by apply Z.eqb_neq).
  assert (Hid : Forall (fun pr => async pr = []) (pr :: up)) by (eapply Forall_impl; [|exact Hl]; by intros ? (_&_&?&_)).
  set (T := fun _ : Z => 0). set (Ss := replicate (length (pr :: up)) nothing).
  destruct (read_pagemap_page_q pp fl iofuel T ltac:(congruence) depth t mem Ss pr up va nr buf k e)
    as (t' & mem' & c' & Ss' & Hrun & (P1 & P2 & Hs & P3 & P4 & P5 & P6) & _); try done.
  - eapply Forall_impl; [|exact Hl]. intros ?. by apply level_q_idle.
  - by apply pending_idle.
  - intros a Ha'. rewrite Ha. apply somewhere_nothing.
  - pose proof (same_data_idle _ _ Hid P1 (P2 Ha)) as Hsame.
    assert (Hdue : forall b, due T Ss' mem' b = mem' b).
    { intros b. unfold due. destruct (somewhere Ss' b) eqn:E; [|done]. apply Hs in E as [E|[? _]]; [|congruence]. unfold Ss in E. by rewrite somewhere_nothing in E. }
    exists t', mem', c'. split; [done|]. split_and!; [done| | |].
    + clear -P3 Hsame Hid. revert P3. induction Hsame as [|x y ? ? (?&?&Hxy) _ IH]; intros P3; [constructor|].
      apply Forall_cons_1 in Hid as [? ?], P3 as [(?&?&?&?) ?]. constructor; [|auto].
      unfold level_ok. split_and!; try done. congruence.
    + intros a Ha'. by rewrite P5, Hdue by done.
    + intros b Hb. rewrite <-Hdue, P6 by done. unfold due, Ss. by rewrite somewhere_nothing.
Qed.
End Reading2.


Lemma close_page_read_ok {K : ReadKernel} t c :
  Forall (fun p => async p = []) c -> exists t' c', close_page_read t c = Done (t', c').
Proof.
  intros H. revert t. induction H as [|p c Hp _ IH]; intros t; cbn [close_page_read]; [eauto|].
  rewrite bool_decide_true by done. cbn [negb]. assert (Hph : exists r t1 p1, (if 0 <? iov_len (bunch p) then punch_hole 0 0 true (t, p)
                                   else Done (0, (t, p))) = Done (r, (t1, p1))).
  { case_match; [|eauto]. unfold punch_hole. repeat (case_match; eauto). }
  destruct Hph as (r & t1 & p1 & ->). case_match; [eauto|].
  destruct (IH t1) as (t' & c' & ->). eauto.
Qed.

(** everything the entries describe can be read *)
Definition all_resolvable (chain : list page_read) : Prop :=
  match chain with [] => True | pr :: _ => forall e, e ∈ pmes pr -> resolvable chain (vaddr e) (nr_pages e * PAGE_SIZE) end.

Lemma present_resolvable pr up :
  pm_ok pr -> Forall (fun e => pagemap_in_parent e = false /\ pagemap_present e = true) (pmes pr) -> all_resolvable (pr :: up).
Proof.
  intros [Hf Hs] Hp e He a Ha. apply list_elem_of_lookup in He as [k Hk].
  destruct (Forall_lookup_1 _ _ _ _ Hp Hk) as [H1 H2]. cbn [ref_byte].
  rewrite (find_entry_at _ k e) by (try done; unfold covers, pe_end; lia). rewrite H1, H2. eauto.
Qed.

(** ** Deduplication punches what it should *)

(** the pages image once the pending bunch is punched as well *)
Definition flushed (pr : page_read) : Z -> Z :=
  punch (pi pr) (iov_base (bunch pr)) (iov_len (bunch pr)).

Definition bunch_ok (pr : page_read) : Prop :=
  0 <= iov_base (bunch pr) /\ 0 <= iov_len (bunch pr) /\
  iov_base (bunch pr) + iov_len (bunch pr) < 2 ^ 63.

(** the place in the pages image of the byte at address [a], if this snapshot has it *)
Definition local_off (l : list PagemapEntry) (a : Z) : option Z :=
  match find_entry l 0 a with
  | Some (e, o) => if pagemap_in_parent e then None else Some (o + (a - vaddr e))
  | None => None
  end.

(** [pr'] differs from [pr] by the zeroed bytes of the addresses [lo, hi) *)
Definition zeroed (pr pr' : page_read) (lo hi : Z) : Prop :=
  forall i,
    ((exists a, lo <= a < hi /\ local_off (pmes pr) a = Some i) -> flushed pr' i = 0) /\
    ((forall a, lo <= a < hi -> local_off (pmes pr) a <> Some i) -> flushed pr' i = flushed pr i).

Lemma punch_hole_ok {K : ReadKernel} t pr off len :
  (forall t, k_fallocate t = 0) -> bunch_ok pr -> 0 <= off -> 0 <= len -> off + len < 2 ^ 63 ->
  exists t' pr', punch_hole off len false (t, pr) = Done (0, (t', pr')) /\
    (pe pr' = pe pr /\ cvaddr pr' = cvaddr pr /\ pi_off pr' = pi_off pr /\ pmes pr' = pmes pr /\
     curr_pme pr' = curr_pme pr) /\ bunch_ok pr' /\
    forall i, flushed pr' i = if (off <=? i) && (i <? off + len) then 0 else flushed pr i.
Proof.
  intros Hk (Hb1 & Hb2 & Hb3) Ho Hl Hlim. unfold punch_hole. cbn [negb andb].
  unfold can_extend_bunch. rewrite u64_id by lia.
  destruct ((iov_base (bunch pr) + iov_len (bunch pr) =? off) && _) eqn:E.
  - apply andb_true_iff in E as [E _]. eexists _, _. split; [done|]. split; [done|].
    unfold bunch_ok, flushed, punch. simpl. rewrite u64_id by lia. split; [lia|].
    intros i. destruct ((off <=? i) && (i <? off + len)) eqn:E1.
    + rewrite (proj2 (andb_true_iff _ _)) by lia. done.
    + destruct ((iov_base (bunch pr) <=? i) && (i <? iov_base (bunch pr) + iov_len (bunch pr))) eqn:E2.
      * rewrite (proj2 (andb_true_iff _ _)) by lia. done.
      * rewrite (proj2 (andb_false_iff _ _)) by lia. done.
  - destruct (Z.ltb_spec 0 (iov_len (bunch pr))).
    + rewrite Hk. simpl. eexists _, _. split; [done|]. split; [done|]. unfold bunch_ok, flushed. simpl.
      split; [lia|]. intros i. done.
    + eexists _, _. split; [done|]. split; [done|]. unfold bunch_ok, flushed. simpl.
      split; [lia|]. intros i. unfold punch at 1.
      destruct ((off <=? i) && (i <? off + len)); [done|].
      unfold punch. rewrite (proj2 (andb_false_iff _ _)) by lia. done.
Qed.

Lemma find_entry_none l off a : (forall d, d ∈ l -> ~ covers d a) -> find_entry l off a = None.
Proof.
  revert off. induction l as [|e l IH]; intros off H; [done|]. simpl.
  destruct ((vaddr e <=? a) && (a <? pe_end e)) eqn:E.
  - exfalso. apply (H e); [apply list_elem_of_here|]. unfold covers. lia.
  - apply IH. intros d Hd. apply H. by apply list_elem_of_further.
Qed.

Lemma zeroed_nothing pr pr' lo hi :
  (forall a, lo <= a < hi -> local_off (pmes pr) a = None) -> flushed pr' = flushed pr ->
  zeroed pr pr' lo hi.
Proof.
  intros H Hf i. split.
  - intros (a & Ha & Hx). by rewrite (H a Ha) in Hx.
  - by rewrite Hf.
Qed.

Definition ending_after (off : Z) (l : list PagemapEntry) : list PagemapEntry :=
  filter (fun d => off < pe_end d) l.

Lemma filter_end_lt l e off off' :
  e ∈ l -> off < pe_end e <= off' ->
  (length (ending_after off' l) < length (ending_after off l))%nat.
Proof.
  intros He Ho.
  unfold ending_after.
  assert (Hle : forall k, (length (ending_after off' k) <= length (ending_after off k))%nat).
  { unfold ending_after. induction k as [|d k IH]; [done|]. rewrite !filter_cons. repeat case_decide; simpl; lia. }
  induction l as [|d l IH]; [by apply elem_of_nil in He|].
  rewrite !filter_cons. apply elem_of_cons in He as [<-|He].
  - rewrite decide_False, decide_True by lia. specialize (Hle l). unfold ending_after in Hle. simpl. lia.
  - specialize (IH He). repeat case_decide; simpl; lia.
Qed.

Lemma seek_flushed pr pr' : pi pr' = pi pr -> bunch pr' = bunch pr -> flushed pr' = flushed pr.
Proof. intros H1 H2. unfold flushed. by rewrite H1, H2. Qed.

(** where the seek of the loop leaves the reader *)
Lemma dedup_position pr pr1 (r : bool) off iov_end :
  pm_ok pr -> pmes pr1 = pmes pr -> 0 <= off < iov_end ->
  (if r then exists k e, at_entry pr1 k e /\ covers e off /\ cvaddr pr1 = off
   else (pe pr1 = None /\ pmes pr = []) \/
        exists k e, at_entry pr1 k e /\ pmes pr1 = pmes pr /\ passed pr pr1 k e off) ->
  pos_ok pr1 ->
  (exists k e, at_entry pr1 k e /\ off <= cvaddr pr1 < iov_end /\ covers e (cvaddr pr1) /\
     (if r then off else cvaddr pr1) = cvaddr pr1 /\
     negb r && negb ((off <? cvaddr pr1) && (cvaddr pr1 <? iov_end)) = false /\
     forall a, off <= a < cvaddr pr1 -> local_off (pmes pr) a = None) \/
  (negb r && negb ((off <? cvaddr pr1) && (cvaddr pr1 <? iov_end)) = true /\
   forall a, off <= a < iov_end -> local_off (pmes pr) a = None).
Proof.
  intros Hok Hp Hoff Hr Hpos. destruct r.
  { left. destruct Hr as (k & e & Hat & Hc & Hcv). exists k, e. rewrite Hcv.
    split_and!; try done; try lia. }
  assert (Hnone : forall a, (forall d, d ∈ pmes pr -> ~ covers d a) -> local_off (pmes pr) a = None)
    by (intros a H; unfold local_off; by rewrite find_entry_none).
  destruct Hr as [[Hpe Hnil]|(k & e & Hat & _ & [(H1 & H2 & H3)|H])].
  - right. destruct Hpos as [(_ & -> & _)|(k & e & (He & _))]; [|congruence].
    rewrite (proj2 (Z.ltb_ge _ _)) by lia. split; [done|]. intros a _. apply Hnone.
    rewrite Hnil. intros d Hd. by apply elem_of_nil in Hd.
  - pose proof Hat as (_ & Hk & _). rewrite Hp in Hk. destruct Hok as [Hf Hs].
    assert (He : pe_ok e) by (by eapply Forall_lookup_1). pose proof (pe_ok_lt e He).
    assert (Hgap : forall a, off <= a < cvaddr pr1 -> local_off (pmes pr) a = None).
    { intros a Ha. apply Hnone. intros d [j Hj]%list_elem_of_lookup [Hc1 Hc2].
      destruct (decide (j < k)%nat) as [Hlt|].
      - specialize (H3 j d Hlt Hj). lia.
      - destruct (decide (j = k)) as [->|]; [simplify_eq; lia|].
        pose proof (pm_sorted_before _ k j _ _ Hf Hs ltac:(lia) Hk Hj). lia. }
    rewrite (proj2 (Z.ltb_lt off _)) by lia. destruct (Z.ltb_spec (cvaddr pr1) iov_end).
    + left. exists k, e. split_and!; try done; try lia; unfold covers; lia.
    + right. split; [done|]. intros a Ha. apply Hgap. lia.
  - right. destruct Hat as (_ & Hk & _ & Hcv & _). rewrite Hp in Hk.
    assert (cvaddr pr1 <= off).
    { specialize (H e ltac:(apply list_elem_of_lookup; by exists k)). lia. }
    rewrite (proj2 (Z.ltb_ge off _)) by lia. split; [done|].
    intros a Ha. apply Hnone. intros d Hd [_ Hc]. specialize (H d Hd). lia.
Qed.

Lemma dedup_step {K : ReadKernel} t pr k e cv len :
  (forall t, k_fallocate t = 0) -> pm_ok pr -> pages_off (pmes pr) < 2 ^ 62 ->
  pagemap_in_parent e = negb (pagemap_present e) ->
  bunch_ok pr -> at_entry pr k e -> cvaddr pr = cv -> 0 <= len -> cv + len <= pe_end e ->
  exists t2 pr2,
    (if pagemap_in_parent e then Done (0, (t, pr)) else punch_hole (pi_off pr) len false (t, pr))
      = Done (0, (t2, pr2)) /\
    (pe pr2 = pe pr /\ cvaddr pr2 = cvaddr pr /\ pi_off pr2 = pi_off pr /\ pmes pr2 = pmes pr /\
     curr_pme pr2 = curr_pme pr) /\ bunch_ok pr2 /\ zeroed pr pr2 cv (cv + len).
Proof.
  intros Hk [Hf Hs] Hsz Hpar Hbu (Hpe & Hke & _ & Hcv & Hpi) <- Hl Hend.
  assert (He : pe_ok e) by (by eapply Forall_lookup_1). pose proof He as (?&?&?&?&?).
  assert (Hloc : forall a, cvaddr pr <= a < cvaddr pr + len ->
    local_off (pmes pr) a = if pagemap_in_parent e then None
                            else Some (pages_off (take k (pmes pr)) + (a - vaddr e))).
  { intros a Ha. unfold local_off. rewrite (find_entry_at _ k e 0 a Hf Hs Hke) by (unfold covers; lia).
    by rewrite Z.add_0_l. }
  destruct (pagemap_in_parent e) eqn:Hp.
  { exists t, pr. split; [done|]. split; [done|]. split; [done|]. by apply zeroed_nothing. }
  assert (Hpres : pagemap_present e = true) by (destruct (pagemap_present e); done).
  rewrite Hpres in Hpi.
  pose proof (pages_off_take _ k e Hf Hke) as Htk. unfold present_bytes in Htk. rewrite Hpres in Htk.
  pose proof (pages_off_nonneg (take k (pmes pr)) ltac:(by apply Forall_take)).
  destruct (punch_hole_ok t pr (pi_off pr) len Hk Hbu) as (t2 & pr2 & Hrun & HQ & Hbu2 & Hfl);
    [unfold pe_end in *; plia..|].
  exists t2, pr2. split; [done|]. split; [done|]. split; [done|]. intros i. rewrite Hfl. split.
  - intros (a & Ha & Hi). rewrite (Hloc a Ha) in Hi. simplify_eq.
    rewrite (proj2 (andb_true_iff _ _)) by lia. done.
  - intros Hno. destruct ((pi_off pr <=? i) && (i <? pi_off pr + len)) eqn:E; [|done].
    exfalso. apply (Hno (i - pi_off pr + cvaddr pr)); [lia|]. rewrite Hloc by lia. f_equal. lia.
Qed.

(** one pass over the entries of a snapshot without a parent *)
Lemma dedup_loop_ok {K : ReadKernel} up fuel t pr off iov_end :
  (forall t, k_fallocate t = 0) -> pm_ok pr -> pages_off (pmes pr) < 2 ^ 62 ->
  Forall (fun e => pagemap_in_parent e = negb (pagemap_present e)) (pmes pr) ->
  pos_ok pr -> bunch_ok pr -> cvaddr pr <= off -> 0 <= off < iov_end -> iov_end < 2 ^ 62 ->
  (length (ending_after off (pmes pr)) < fuel)%nat ->
  exists t' pr', dedup_loop fuel up off iov_end t pr [] = Done (0, (t', [pr'])) /\
    pmes pr' = pmes pr /\ pos_ok pr' /\ bunch_ok pr' /\ zeroed pr pr' off iov_end.
Proof.
  intros Hk Hok Hsz Hx. revert t pr off Hok Hsz Hx.
  induction fuel as [|fuel IH]; intros t pr off Hok Hsz Hx Hpos Hbu Hcv Hoff Hlim Hfuel; [lia|].
  cbn [dedup_loop]. destruct (seek_ok pr off Hok Hpos ltac:(lia))
    as (r & pr1 & -> & (Hs1 & Hs2 & _) & Hpos1 & Hs4 & Hr).
  pose proof (seek_flushed pr pr1 Hs2 Hs4) as Hfl.
  assert (Hbu1 : bunch_ok pr1) by (unfold bunch_ok in *; by rewrite Hs4).
  (* the entry the reader is on, when part of the range lies in it *)
  assert (Hcase :
    (exists k e, at_entry pr1 k e /\ off <= cvaddr pr1 < iov_end /\ covers e (cvaddr pr1) /\
       (if r then off else cvaddr pr1) = cvaddr pr1 /\
       negb r && negb ((off <? cvaddr pr1) && (cvaddr pr1 <? iov_end)) = false /\
       forall a, off <= a < cvaddr pr1 -> local_off (pmes pr) a = None) \/
    (negb r && negb ((off <? cvaddr pr1) && (cvaddr pr1 <? iov_end)) = true /\
     forall a, off <= a < iov_end -> local_off (pmes pr) a = None)).
  { by apply dedup_position. }
  destruct Hcase as [(k & e & Hat & Hrange & Hcov & Hoff1 & Hb & Hgap)|[Hb Hnone]]; rewrite Hb.
  2: { exists t, pr1. split; [done|]. split_and!; try done. by apply zeroed_nothing. }
  rewrite Hoff1. pose proof Hat as (Hpe & Hke & _ & _ & Hpi). rewrite Hpe.
  assert (Hok1 : pm_ok pr1) by (unfold pm_ok; by rewrite Hs1).
  assert (He : pe_ok e) by (destruct Hok1 as [Hf _]; by eapply Forall_lookup_1).
  rewrite (pagemap_end_ok e He). destruct Hcov as [Hc1 Hc2].
  pose proof He as (? & ? & ? & ? & ?). set (cv := cvaddr pr1) in *.
  rewrite u64_id by lia. set (len := Z.min (pe_end e) iov_end - cv).
  assert (Hpar : pagemap_in_parent e = negb (pagemap_present e))
    by (rewrite <-Hs1 in Hx; by apply (Forall_lookup_1 _ _ _ _ Hx Hke)).
  (* the step on this entry *)
  assert (Hstep : exists t2 pr2,
    (if pagemap_in_parent e then Done (0, (t, pr1)) else punch_hole (pi_off pr1) len false (t, pr1))
      = Done (0, (t2, pr2)) /\
    (pe pr2 = pe pr1 /\ cvaddr pr2 = cvaddr pr1 /\ pi_off pr2 = pi_off pr1 /\ pmes pr2 = pmes pr1 /\
     curr_pme pr2 = curr_pme pr1) /\ bunch_ok pr2 /\ zeroed pr1 pr2 cv (cv + len)).
  { apply (dedup_step t pr1 k e cv len); try done; try lia. by rewrite Hs1. }
  destruct Hstep as (t2 & pr2 & -> & (Q1 & Q2 & Q3 & Q4 & Q5) & Hbu2 & Hz). cbn [Z.eqb negb].
  assert (Hz' : zeroed pr pr2 off (cv + len)).
  { intros i. rewrite <-Hs1. destruct (Hz i) as [Hz1 Hz2]. rewrite <-Hfl. split.
    - intros (a & Ha & Hl). apply Hz1. exists a. split; [|done].
      destruct (Z.lt_ge_cases a cv); [|lia]. by rewrite Hs1, Hgap in Hl by lia.
    - intros Hno. apply Hz2. intros a Ha. apply Hno. lia. }
  assert (Hpos2 : pos_ok pr2).
  { right. exists k, e. unfold at_entry in *. rewrite Q1, Q2, Q3, Q4, Q5. done. }
  destruct (Z.ltb_spec (pe_end e) iov_end) as [Hmore|Hdone].
  - destruct (IH t2 pr2 (pe_end e)) as (t3 & pr3 & -> & HA & HB & HC & HD); try lia.
    + unfold pm_ok. by rewrite Q4.
    + rewrite Q4, Hs1. done.
    + rewrite Q4, Hs1. done.
    + done.
    + done.
    + assert (Hel : e ∈ pmes pr) by (apply list_elem_of_lookup; exists k; by rewrite <-Hs1).
      pose proof (filter_end_lt (pmes pr) e off (pe_end e) Hel ltac:(lia)). rewrite Q4, Hs1. lia.
    + eexists _, _. split; [done|]. split_and!; [congruence|done|done|].
      intros i. specialize (HD i). rewrite Q4, Hs1 in HD. destruct HD as [HD1 HD2], (Hz' i) as [Hz1 Hz2].
      replace (cv + len) with (pe_end e) in * by lia. split.
      * intros (a & Ha & Hl). destruct (Z.lt_ge_cases a (pe_end e)) as [Hlt|Hge].
        -- destruct (decide (flushed pr3 i = 0)); [done|]. rewrite HD2.
           ++ apply Hz1. exists a. split; [lia|done].
           ++ intros a' Ha' Hl'. apply n. apply HD1. by exists a'.
        -- apply HD1. exists a. split; [lia|done].
      * intros Hno. rewrite HD2, Hz2; [done|..]; intros a Ha; apply Hno; lia.
  - exists t2, pr2. split; [done|]. split_and!; try congruence; try done.
    by replace iov_end with (cv + len) by lia.
Qed.


(** ** Opening *)
Lemma init_loop_ok {K : ReadKernel} l acc cap step t :
  1 <= step -> Z.of_nat (length acc) < cap ->
  exists o t', init_loop l acc cap step t = Done (o, t') /\
    (o = Some (acc ++ (init_compat_pagemap_entry <$> l)) \/ o = None).
Proof.
  intros Hs. revert acc cap t. induction l as [|e l IH]; intros acc cap t Hc; simpl;
    rewrite (proj2 (Z.leb_gt _ _)) by lia.
  - eexists _, _. split; [done|]. left. by rewrite app_nil_r.
  - set (acc' := acc ++ [init_compat_pagemap_entry e]).
    assert (Hl : Z.of_nat (length acc') = Z.of_nat (length acc) + 1)
      by (unfold acc'; rewrite length_app; simpl; lia).
    assert (Hacc : forall k, acc' ++ k = acc ++ init_compat_pagemap_entry e :: k)
      by (intros; unfold acc'; by rewrite <-app_assoc).
    destruct (Z.leb_spec cap (Z.of_nat (length acc'))).
    + destruct (k_xmalloc t); [|eexists _, _; split; [done|by right]].
      destruct (IH acc' (cap + step) (S t)) as (o & t' & -> & Ho); [lia|].
      eexists _, _. split; [done|]. by rewrite Hacc in Ho.
    + destruct (IH acc' cap t) as (o & t' & -> & Ho); [lia|].
      eexists _, _. split; [done|]. by rewrite Hacc in Ho.
Qed.

(** ** A concrete chain: a full snapshot and, on top of it, an incremental one *)
Definition demo_read_kernel : ReadKernel := {|
  k_fallocate := fun _ => 0;
  k_pread := fun t n => if Nat.even t then n else Z.min n 3000;
  k_preadv := fun t n => if Nat.even t then n else Z.min n 3000;
  k_xmalloc := fun _ => true;
|}.

#[export] Instance demo_read_kernel_ok : ReadKernelOk demo_read_kernel.
Proof. constructor; intros t n; simpl; destruct (Nat.even t); lia. Qed.
#[export] Instance demo_read_kernel_live : ReadKernelLive demo_read_kernel.
Proof. constructor; intros t n H; simpl; destruct (Nat.even t); lia. Qed.

Definition page (va nr fl : Z) : PagemapEntry := mk_pe (va * PAGE_SIZE) nr false false true fl.

Definition demo_parent : page_read :=
  mk_pr None 0 0 (mk_iovec 0 0) [page 3 3 PE_PRESENT; page 11 6 PE_PRESENT; page 24 4 PE_PRESENT] (-1) []
        (fun i => 1000000 + i) 1 7.
(** stands on its first entry, two pages that are in the parent *)
Definition demo_top : page_read :=
  mk_pr (Some (page 3 2 PE_PARENT)) (3 * PAGE_SIZE) 0 (mk_iovec 0 0)
        [page 3 2 PE_PARENT; page 5 1 PE_PRESENT; page 11 4 PE_PARENT; page 15 3 PE_PRESENT] 0 []
        (fun i => i) 2 7.

Lemma demo_parent_ok va : 0 <= va -> level_ok va demo_parent.
Proof.
  intros. unfold level_ok, demo_parent. split_and!; simpl; try done.
  - split; simpl; [|repeat constructor; vm_compute; congruence].
    repeat apply Forall_cons_2; try apply Forall_nil_2; unfold pe_ok; split_and!; vm_compute; congruence.
  - left. simpl. split_and!; try done. by left.
Qed.

Lemma demo_top_ok : level_ok (3 * PAGE_SIZE) demo_top /\ at_entry demo_top 0 (page 3 2 PE_PARENT).
Proof.
  assert (Hat : at_entry demo_top 0 (page 3 2 PE_PARENT)).
  { unfold at_entry. split_and!; try done; try (by left); vm_compute; congruence. }
  split; [|done]. unfold level_ok. split_and!; try done; [|by eapply at_entry_pos].
  split; simpl; [|repeat constructor; vm_compute; congruence].
  repeat apply Forall_cons_2; try apply Forall_nil_2; unfold pe_ok; split_and!; vm_compute; congruence.
Qed.

(** ** The properties *)

(** C29: from a consistent position, seeking forward ends, keeps the position consistent (the
    offset in the pages image is that of the page at the current address) and finds the address
    exactly when an entry of the pagemap covers it. *)
Theorem seek_pagemap_spec pr va :
  pm_ok pr -> pos_ok pr -> cvaddr pr <= va < 2 ^ 63 ->
  exists r pr', seek_pagemap pr va = Done (r, pr') /\ same_img pr pr' /\ pos_ok pr' /\
    if r then exists k e, at_entry pr' k e /\ covers e va /\ cvaddr pr' = va
    else forall d, d ∈ pmes pr -> ~ covers d va.
Proof.
  intros Hok Hpos Hva. destruct (seek_ok pr va Hok Hpos Hva) as (r & pr' & H1 & H2 & H3 & _ & Hr).
  exists r, pr'. split_and!; try done. destruct r; [done|].
  by apply (passed_not_covered pr pr' va).
Qed.

Lemma seek_pagemap_witness :
  exists r pr', seek_pagemap demo_parent (12 * PAGE_SIZE) = Done (r, pr') /\ same_img demo_parent pr' /\
    pos_ok pr' /\
    if r then exists k e, at_entry pr' k e /\ covers e (12 * PAGE_SIZE) /\ cvaddr pr' = 12 * PAGE_SIZE
    else forall d, d ∈ pmes demo_parent -> ~ covers d (12 * PAGE_SIZE).
Proof.
  destruct (demo_parent_ok (12 * PAGE_SIZE) ltac:(vm_compute; congruence)) as (Hok & Hpos & _ & Hcv).
  apply (seek_pagemap_spec demo_parent (12 * PAGE_SIZE)); [exact Hok|exact Hpos|].
  split; [exact Hcv|vm_compute; reflexivity].
Defined.

(** C25: reading pages through a chain of incremental snapshots delivers, whatever sizes the
    kernel's reads come in, exactly the reference bytes: each one from the first snapshot of the chain
    that holds the page; no other memory is written, and every level of the chain is left
    consistently positioned for the next read. *)
Theorem read_pagemap_page_spec {K : ReadKernel} `{!ReadKernelOk K} `{!ReadKernelLive K}
    pp fl depth iofuel t mem pr up va nr buf k e :
  Z.land fl (Z.lor PR_ASYNC PR_ASAP) <> PR_ASYNC ->
  Forall (level_ok va) (pr :: up) -> at_entry pr k e -> cvaddr pr = va -> 0 <= va -> aligned va ->
  0 < nr < 2 ^ 31 -> va + nr * PAGE_SIZE <= pe_end e ->
  resolvable (pr :: up) va (nr * PAGE_SIZE) ->
  (length (pr :: up) <= depth)%nat -> (Z.to_nat (nr * PAGE_SIZE) <= iofuel)%nat ->
  exists t' mem' chain',
    read_pagemap_page false pp None depth iofuel fl va nr buf (t, mem, pr :: up) =
      Done (1, (t', mem', chain')) /\
    read_post (pr :: up) chain' mem mem' va (nr * PAGE_SIZE) buf.
Proof. intros Hfl. intros. by eapply (read_pagemap_page_ok pp fl depth iofuel Hfl). Qed.

Lemma read_pagemap_page_witness :
  exists t' mem' chain',
    @read_pagemap_page demo_read_kernel false false None 2 (Z.to_nat 10000) 0 (3 * PAGE_SIZE) 2 500000
        (0%nat, fun _ => 0, [demo_top; demo_parent]) = Done (1, (t', mem', chain')) /\
    read_post [demo_top; demo_parent] chain' (fun _ => 0) mem' (3 * PAGE_SIZE) (2 * PAGE_SIZE) 500000.
Proof.
  destruct demo_top_ok as [Hl Hat].
  apply (@read_pagemap_page_spec demo_read_kernel _ _ false 0 2 (Z.to_nat 10000) 0%nat (fun _ => 0)
           demo_top [demo_parent] (3 * PAGE_SIZE) 2 500000 0 (page 3 2 PE_PARENT)).
  - vm_compute. congruence.
  - apply Forall_cons_2; [exact Hl|]. apply Forall_cons_2; [|apply Forall_nil_2].
    apply demo_parent_ok. vm_compute. congruence.
  - exact Hat.
  - reflexivity.
  - vm_compute. congruence.
  - reflexivity.
  - lia.
  - vm_compute. congruence.
  - intros a Ha. unfold PAGE_SIZE in Ha. simpl.
    rewrite (proj2 (andb_true_iff _ _)) by (unfold pe_end, page, PAGE_SIZE; simpl; lia).
    change (pagemap_in_parent (page 3 2 PE_PARENT)) with true.
    rewrite (proj2 (andb_true_iff _ _)) by (unfold pe_end, page, PAGE_SIZE; simpl; lia).
    change (pagemap_in_parent (page 3 3 PE_PRESENT)) with false.
    change (pagemap_present (page 3 3 PE_PRESENT)) with true. eauto.
  - simpl. lia.
  - apply Nat.leb_le. vm_compute. reflexivity.
Defined.

(** a queued asynchronous request means the read it stands for: whether it extends the last
    iovec, adds one to the last request or starts a new request, performing the queue afterwards
    is performing the old queue and then reading [len] bytes at [pi_off] into [buf]. *)
Theorem pagemap_enqueue_iovec_spec {K : ReadKernel} pr t buf len q r t' q' :
  Forall piov_ok q -> 0 < len ->
  pagemap_enqueue_iovec pr t buf len q = (r, t', q') ->
  Forall piov_ok q' /\
  (r = 0 /\ (forall f mem b, queue_mem f q' mem b =
                             blit (queue_mem f q mem) buf f (pi_off pr) len b) \/
   r = -1 /\ q' = q).
Proof. intros. by eapply enqueue_ok. Qed.

Definition demo_queue : list page_read_iov := [mk_piov (-8192) 0 [mk_iovec 100 8192]].

Lemma demo_queue_ok : Forall piov_ok demo_queue.
Proof.
  apply Forall_cons_2; [|apply Forall_nil_2]. unfold piov_ok. simpl.
  split_and!; [done|repeat constructor|reflexivity].
Qed.

Lemma pagemap_enqueue_iovec_witness :
  Forall piov_ok [mk_piov (-8192) 4096 [mk_iovec 100 12288]] /\
  (0 = 0 /\ (forall f mem b,
      queue_mem f [mk_piov (-8192) 4096 [mk_iovec 100 12288]] mem b =
      blit (queue_mem f demo_queue mem) 8292 f (pi_off demo_top) 4096 b) \/
   0 = -1 /\ [mk_piov (-8192) 4096 [mk_iovec 100 12288]] = demo_queue).
Proof.
  apply (@pagemap_enqueue_iovec_spec demo_read_kernel demo_top 0%nat 8292 4096 demo_queue 0 0%nat
           [mk_piov (-8192) 4096 [mk_iovec 100 12288]]).
  - exact demo_queue_ok.
  - lia.
  - vm_compute. reflexivity.
Defined.

(** processing the queues of all levels performs every queued read completely, however the
    kernel cuts the reads up (partial reads advance the iovecs and continue), and empties them. *)
Theorem process_async_reads_spec {K : ReadKernel} `{!ReadKernelOk K} `{!ReadKernelLive K}
    iofuel chain t mem :
  Forall (queue_ok iofuel) chain ->
  exists t' mem', process_async_reads false false None iofuel chain t mem =
      Done (0, (t', mem', (fun pr => set_async pr []) <$> chain)) /\
    forall b, mem' b = chain_mem chain mem b.
Proof. intros. by apply process_async_ok. Qed.

Lemma process_async_reads_witness :
  exists t' mem', @process_async_reads demo_read_kernel false false None (Z.to_nat 9000)
      [set_async demo_top demo_queue] 1%nat (fun _ => 7) =
      Done (0, (t', mem', [set_async (set_async demo_top demo_queue) []])) /\
    forall b, mem' b = chain_mem [set_async demo_top demo_queue] (fun _ => 7) b.
Proof.
  apply (@process_async_reads_spec demo_read_kernel _ _ (Z.to_nat 9000) [set_async demo_top demo_queue] 1%nat (fun _ => 7)).
  apply Forall_cons_2; [|apply Forall_nil_2]. split; [exact demo_queue_ok|].
  apply Forall_cons_2; [|apply Forall_nil_2]. apply Nat.leb_le. vm_compute. reflexivity.
Defined.

(** a pages image that is too short makes [process_async_reads] spin: when preadv keeps
    returning 0 (end of file) the request is retried for ever, with any number of tries. *)
Theorem truncated_image_spins {K : ReadKernel} fuel t f mem p :
  (forall t n, k_preadv t n = 0) -> from p < end_ p ->
  read_piov false fuel t f mem p = NoFuel.
Proof.
  intros Hk. revert t mem p. induction fuel as [|fuel IH]; intros t mem p Hp; [done|]. simpl.
  rewrite Hk. rewrite (proj2 (Z.eqb_neq _ _)) by lia. simpl.
  unfold advance_piov. destruct (to p) eqn:Ht; simpl; apply IH; simpl; lia.
Qed.

Lemma truncated_image_spins_witness :
  @read_piov (Build_ReadKernel (fun _ => 0) (fun _ _ => 0) (fun _ _ => 0) (fun _ => true)) false 1000 0%nat
    (fun i => i) (fun _ => 0) (mk_piov 0 4096 [mk_iovec 65536 4096]) = NoFuel.
Proof. apply truncated_image_spins; [intros; reflexivity|simpl; lia]. Defined.

(** deduplicating a range against a snapshot without a parent zeroes, in its pages image (once
    the pending bunch is flushed), exactly the bytes of the pages of the range that the snapshot
    holds, and no other byte. *)
Theorem dedup_one_iovec_spec {K : ReadKernel} depth t pr off len :
  (forall t, k_fallocate t = 0) -> pm_ok pr -> pages_off (pmes pr) < 2 ^ 62 ->
  Forall (fun e => pagemap_in_parent e = negb (pagemap_present e)) (pmes pr) ->
  pos_ok pr -> bunch_ok pr -> cvaddr pr <= off -> 0 <= off -> 0 < len -> off + len < 2 ^ 62 ->
  exists t' pr', dedup_one_iovec (S depth) off len (t, [pr]) = Done (0, (t', [pr'])) /\
    pmes pr' = pmes pr /\ pos_ok pr' /\ bunch_ok pr' /\ zeroed pr pr' off (off + len).
Proof.
  intros. cbn [dedup_one_iovec]. rewrite u64_id by lia. apply dedup_loop_ok; try done; try lia.
  unfold seek_fuel, ending_after. pose proof (length_filter (fun d => off < pe_end d) (pmes pr)). lia.
Qed.

Lemma dedup_one_iovec_witness :
  exists t' pr', @dedup_one_iovec demo_read_kernel 1 (4 * PAGE_SIZE) (10 * PAGE_SIZE) (0%nat, [demo_parent]) =
      Done (0, (t', [pr'])) /\
    pmes pr' = pmes demo_parent /\ pos_ok pr' /\ bunch_ok pr' /\
    zeroed demo_parent pr' (4 * PAGE_SIZE) (4 * PAGE_SIZE + 10 * PAGE_SIZE).
Proof.
  destruct (demo_parent_ok (4 * PAGE_SIZE) ltac:(vm_compute; congruence)) as (Hok & Hpos & _ & Hcv).
  apply (@dedup_one_iovec_spec demo_read_kernel 0 0%nat demo_parent).
  - reflexivity.
  - exact Hok.
  - vm_compute. reflexivity.
  - repeat apply Forall_cons_2; try apply Forall_nil_2; reflexivity.
  - exact Hpos.
  - unfold bunch_ok. simpl. lia.
  - exact Hcv.
  - vm_compute. congruence.
  - vm_compute. reflexivity.
  - vm_compute. reflexivity.
Defined.

(** loading a pagemap image of at least 16 bytes never writes outside the array of entries,
    however many entries it has: the result is all of them, converted, or an allocation failure. *)
Theorem init_pagemaps_spec {K : ReadKernel} fsize l t :
  PAGEMAP_ENTRY_SIZE_ESTIMATE <= fsize ->
  exists o t', init_pagemaps fsize l t = Done (o, t') /\
    (o = Some (init_compat_pagemap_entry <$> l) \/ o = None).
Proof.
  intros H. unfold init_pagemaps, PAGEMAP_ENTRY_SIZE_ESTIMATE in *.
  rewrite (proj2 (Z.ltb_ge _ _)) by lia.
  destruct (k_xmalloc t); [|eexists _, _; split; [done|by right]]. cbn [negb].
  assert (1 <= fsize / 16) by (apply Z.div_le_lower_bound; lia).
  apply (init_loop_ok l []); simpl; [apply Z.div_le_lower_bound; lia|lia].
Qed.

Lemma init_pagemaps_witness :
  exists o t', @init_pagemaps demo_read_kernel 16 (pmes demo_top) 0%nat = Done (o, t') /\
    (o = Some (init_compat_pagemap_entry <$> pmes demo_top) \/ o = None).
Proof. apply init_pagemaps_spec. vm_compute. congruence. Defined.

End Pagemap.
