(* ===== verification/MemRestore.v ===== *)
(** * Restoring the private memory of a task (criu/mem.c)

    The areas of a task are read from its images, matched with those of its parent from which it may have inherited
    pages, mapped one after the other in a temporary place (unless their contents can be read later, in place), and
    filled from the pages images.  The restorer ([Restorer]) moves them to their addresses. *)
From S2P Require Import Prelude.
From S2P Require Import Bitmap.
From S2P Require Import Vma.
From S2P Require Import AddrSpace.
From S2P Require Import Pagemap.

Module MemRestore.
Export Bitmap AddrSpace Pagemap.

(** ** Data *)

Definition VMA_FILE_SHARED : Z := Z.shiftl 1 7.
Definition VMA_AREA_SOCKET : Z := Z.shiftl 1 11.
Definition VMA_CLOSE : Z := Z.shiftl 1 28.
Definition VMA_NO_PROT_WRITE : Z := Z.shiftl 1 29.
Definition VMA_PREMMAPED : Z := Z.shiftl 1 30.

(** [vma->pvma]: an area of the parent is given by its place in the parent's list *)
Inductive pvma_ref := NoPvma | VMA_COW_ROOT | ParentArea (i : nat).

#[global] Instance pvma_ref_eq_dec : EqDecision pvma_ref.
Proof. solve_decision. Defined.

(** [vm_open]: whether the callback is set *)
Record vma_area := mk_varea {
  va_e : VmaEntry;
  pvma : pvma_ref;
  page_bitmap : option (list Z);
  premmaped_addr : Z;
  vm_open : bool;
}.

Definition set_e (v : vma_area) (e : VmaEntry) : vma_area :=
  mk_varea e (pvma v) (page_bitmap v) (premmaped_addr v) (vm_open v).
Definition set_pvma (v : vma_area) (p : pvma_ref) : vma_area :=
  mk_varea (va_e v) p (page_bitmap v) (premmaped_addr v) (vm_open v).
Definition set_bitmap (v : vma_area) (b : list Z) : vma_area :=
  mk_varea (va_e v) (pvma v) (Some b) (premmaped_addr v) (vm_open v).

Definition set_start (e : VmaEntry) (x : Z) : VmaEntry :=
  mk_vma x (v_end e) (v_pgoff e) (v_shmid e) (v_prot e) (v_flags e) (v_status e).
Definition add_status (e : VmaEntry) (s : Z) : VmaEntry :=
  mk_vma (v_start e) (v_end e) (v_pgoff e) (v_shmid e) (v_prot e) (v_flags e) (Z.lor (v_status e) s).
Definition set_shmid (e : VmaEntry) (x : Z) : VmaEntry :=
  mk_vma (v_start e) (v_end e) (v_pgoff e) x (v_prot e) (v_flags e) (v_status e).

(** [struct vm_area_list], the fields of a restore *)
Record vm_area_list := mk_vml { h : list vma_area; vml_nr : Z; rst_priv_size : Z }.

(** [kdat.task_size], [kdat.stack_guard_gap_hidden], [opts.lazy_pages] *)
Record rst_env := mk_env { task_size : Z; stack_guard_gap_hidden : bool; lazy_pages : bool }.

Definition vma_area_is (v : vma_area) (s : Z) : bool := vma_entry_is (va_e v) s.
Definition vma_area_len (v : vma_area) : Z := vma_entry_len (va_e v).
Definition vma_area_is_private (v : vma_area) (task_size : Z) : bool := vma_entry_is_private (va_e v) task_size.
Definition vma_has_guard_gap_hidden (env : rst_env) (v : vma_area) : bool :=
  stack_guard_gap_hidden env && has (v_flags (va_e v)) MAP_GROWSDOWN.
Definition vma_inherited (v : vma_area) : bool := match pvma v with ParentArea _ => true | _ => false end.

(** ** Reading the list of areas *)

(** [last]: what the last pb_read_one_eof of an old image returned, 0 at its end, negative on an error *)
Inductive vma_source := InMm (l : list VmaEntry) | OldImage (l : list VmaEntry) (last : Z).

Section ReadMm.
Context {RK : ReadKernel}.
Variable env : rst_env.
(** what [collect_shmem], [collect_filemap] and [collect_socket_map] return *)
Variable collect : clock -> VmaEntry -> Z.

Definition add_vma (l : vm_area_list) (v : vma_area) : vm_area_list :=
  let l := mk_vml (h l ++ [v]) (vml_nr l) (rst_priv_size l) in
  if vma_area_is_private v (task_size env) then
    let sz := u64 (rst_priv_size l + vma_area_len v) in
    mk_vml (h l) (vml_nr l) (if vma_has_guard_gap_hidden env v then u64 (sz + PAGE_SIZE) else sz)
  else l.

Definition has_callback (e : VmaEntry) : bool :=
  vma_entry_is e VMA_ANON_SHARED || vma_entry_is e VMA_FILE_PRIVATE || vma_entry_is e VMA_FILE_SHARED ||
  vma_entry_is e VMA_AREA_SOCKET.

(** [last] is [None] when the entries are those of the mm image *)
Fixpoint mm_loop (src : list VmaEntry) (last : option Z) (t : clock) (l : vm_area_list) : Z * clock * vm_area_list :=
  match src, last with
  | [], None => (0, t, l)
  | _, _ =>
    if negb (k_xmalloc t) then (-1, S t, l)
    else
      let l := mk_vml (h l) (u32 (vml_nr l + 1)) (rst_priv_size l) in
      match src with
      | [] => (default 0 last, S t, l)
      | e :: src =>
        let l := add_vma l (mk_varea e NoPvma None 0 (has_callback e)) in
        let r := if has_callback e then collect (S t) e else 0 in
        if negb (r =? 0) then (r, S (S t), l) else mm_loop src last (S (S t)) l
      end
  end.

(** [mm]: [None] when the image cannot be opened, a result when it cannot be read; [exe]: whether the file of the
    executable is known; [old]: the areas of the image of old versions, when there is one *)
Definition prepare_mm_pid (mm : option (Z + list VmaEntry)) (exe : bool) (old : option (list VmaEntry * Z))
    (t : clock) (l : vm_area_list) : Z * clock * vm_area_list :=
  match mm with
  | None => (-1, t, l)
  | Some (inl r) => (r, t, l)
  | Some (inr vmas) =>
    if negb exe then (-1, t, l)
    else
      match vmas with
      | [] => match old with
              | None => (-1, t, l)
              | Some (l0, last) => mm_loop l0 (Some last) t l
              end
      | _ => mm_loop vmas None t l
      end
  end.
End ReadMm.

(** ** Areas that may share pages with the parent *)

Definition check_cow_vmas (env : rst_env) (v p : vma_area) : bool :=
  if negb (v_end (va_e v) =? v_end (va_e p)) then false
  else if negb (vma_area_is_private v (task_size env)) then false
  else if negb (vma_area_is_private p (task_size env)) then false
  else if has (Z.lxor (v_flags (va_e v)) (v_flags (va_e p))) (Z.lor MAP_GROWSDOWN MAP_ANONYMOUS) then false
  else if negb (has (v_flags (va_e v)) MAP_ANONYMOUS) && negb (v_shmid (va_e v) =? v_shmid (va_e p)) then false
  else true.

(** the first of [l], which starts at place [i], that does not satisfy [f] *)
Fixpoint skip_while (f : vma_area -> bool) (l : list vma_area) (i : nat) : option nat :=
  match l with
  | [] => None
  | v :: l => if f v then skip_while f l (S i) else Some i
  end.

Definition pair_areas (env : rst_env) (vmas pvmas : list vma_area) (i j : nat) (v p : vma_area)
  : list vma_area * list vma_area :=
  if (v_start (va_e v) =? v_start (va_e p)) && check_cow_vmas env v p then
    (<[i := set_pvma v (ParentArea j)]> vmas,
     match pvma p with NoPvma => <[j := set_pvma p VMA_COW_ROOT]> pvmas | _ => pvmas end)
  else (vmas, pvmas).

(** Each turn moves at least one of the two positions on. *)
Fixpoint cow_loop (fuel : nat) (env : rst_env) (vmas pvmas : list vma_area) (i j : nat)
  : res (list vma_area * list vma_area) :=
  match fuel with
  | O => NoFuel
  | S fuel =>
    let* v := deref (vmas !! i) in
    let* p := deref (pvmas !! j) in
    let '(vmas, pvmas) := pair_areas env vmas pvmas i j v p in
    match skip_while (fun x => v_start (va_e x) <=? v_start (va_e p)) (drop i vmas) i with
    | None => Done (vmas, pvmas)
    | Some i =>
      let* v := deref (vmas !! i) in
      match skip_while (fun x => v_start (va_e x) <? v_start (va_e v)) (drop j pvmas) j with
      | None => Done (vmas, pvmas)
      | Some j => cow_loop fuel env vmas pvmas i j
      end
    end
  end.

Definition prepare_cow_vmas_for (env : rst_env) (vmas pvmas : list vma_area) : res (list vma_area * list vma_area) :=
  cow_loop (length vmas + length pvmas + 1) env vmas pvmas 0 0.

(** a task of the tree: the place of its parent, its areas, its executable *)
Record pstree_item := mk_item { parent_of : option nat; it_vmas : vm_area_list; exe_file_id : Z }.

Definition set_areas (it : pstree_item) (l : list vma_area) : pstree_item :=
  mk_item (parent_of it) (mk_vml l (vml_nr (it_vmas it)) (rst_priv_size (it_vmas it))) (exe_file_id it).

Fixpoint cow_items (env : rst_env) (order : list nat) (items : list pstree_item) : res (list pstree_item) :=
  match order with
  | [] => Done items
  | n :: order =>
    let* it := deref (items !! n) in
    match parent_of it with
    | None => cow_items env order items
    | Some pn =>
      let* pit := deref (items !! pn) in
      if vml_nr (it_vmas it) =? 0 then cow_items env order items
      else if vml_nr (it_vmas pit) =? 0 then cow_items env order items
      else if negb (exe_file_id it =? exe_file_id pit) then cow_items env order items
      else
        let* (vmas, pvmas) := prepare_cow_vmas_for env (h (it_vmas it)) (h (it_vmas pit)) in
        cow_items env order (<[pn := set_areas pit pvmas]> (<[n := set_areas it vmas]> items))
    end
  end.

(** [for_each_pstree_item]: the items in the order of the list *)
Definition prepare_cow_vmas (env : rst_env) (items : list pstree_item) : res (list pstree_item) :=
  cow_items env (seq 0 (length items)) items.

(** ** Mapping the private areas one after the other *)
Section Premap.
Context {RK : ReadKernel} {MK : MmKernel}.
Variable env : rst_env.
(** what [vma->vm_open] returns *)
Variable open_area : clock -> Z.

(** the area is not in the parent: a new mapping at [tgt]; [None] on failure *)
Definition map_new_area (v : vma_area) (size tgt : Z) (st : astate) : res (option Z * astate) :=
  let (t, s) := st in
  let aio := vma_entry_is (va_e v) VMA_AREA_AIORING in
  let flag := if aio then MAP_ANONYMOUS else 0 in
  let opens := negb aio && vma_area_is v VMA_FILE_PRIVATE in
  if opens && negb (vm_open v) then Bug
  else if opens && (open_area t <? 0) then Done (None, (S t, s))
  else
    let (a, st) := mmap tgt size (Z.lor (v_prot (va_e v)) PROT_WRITE) (Z.lor (Z.lor (v_flags (va_e v)) MAP_FIXED) flag)
                        (if opens then S t else t, s) in
    Done (if a =? MAP_FAILED then None else Some a, st).

(** the area is the parent's area [p], which is moved *)
Definition map_inherited_area (p : vma_area) (guard : bool) (size tgt : Z) (st : astate) : option Z * astate :=
  let paddr := if guard then u64 (premmaped_addr p - PAGE_SIZE) else premmaped_addr p in
  let (a, st) := sys_mremap paddr size tgt st in
  (if negb (a =? tgt) then None else Some a, st).

(** the area is mapped at [tgt]; the areas of the parent are [pvmas] *)
Definition premap_private_vma (pvmas : list vma_area) (v : vma_area) (tgt : Z) (t : clock) (s : aspace)
  : res (Z * vma_area * Z * astate) :=
  let nr := vma_entry_len (va_e v) / PAGE_SIZE in
  if negb (k_xmalloc t) then Done (-1, v, tgt, (S t, s))
  else
    let v := set_bitmap v (replicate (Z.to_nat (BITS_TO_LONGS nr)) 0) in
    let guard := vma_has_guard_gap_hidden env v in
    let v := if guard then set_e v (set_start (va_e v) (u64 (v_start (va_e v) - PAGE_SIZE))) else v in
    let size := vma_entry_len (va_e v) in
    let* (r, st) :=
      match pvma v with
      | ParentArea j => let* p := deref (pvmas !! j) in Done (map_inherited_area p guard size tgt (S t, s))
      | _ => map_new_area v size tgt (S t, s)
      end in
    match r with
    | None => Done (-1, v, tgt, st)
    | Some a =>
      let e := add_status (va_e v) VMA_PREMMAPED in
      let e := if guard then set_start e (u64 (v_start e + PAGE_SIZE)) else e in
      Done (0, mk_varea e (pvma v) (page_bitmap v) (if guard then u64 (a + PAGE_SIZE) else a)
                        (if vma_entry_is e VMA_FILE_PRIVATE then false else vm_open v),
            u64 (tgt + size), st)
    end.

(** [prev]: the end of the area before it in the list *)
Definition vma_force_premap (v : vma_area) (prev : option Z) : bool :=
  has (v_flags (va_e v)) MAP_GROWSDOWN &&
  match prev with None => false | Some e => e =? v_start (va_e v) end.

(** x86: every area is below the task size *)
Definition task_size_check (e : VmaEntry) : Z := 0.

(** the search for the first entry that does not end before the area *)
Fixpoint no_prot_write_loop (fuel : nat) (pr : page_read) (e : VmaEntry) : res (VmaEntry * page_read) :=
  match fuel with
  | O => NoFuel
  | S fuel =>
    let* p := deref (pe pr) in
    if u64 (vaddr p + pagemap_len p) <=? v_start e then
      let (more, pr) := advance pr in
      if more then no_prot_write_loop fuel pr e else Done (e, pr)
    else if v_end e <? vaddr p then Done (add_status e VMA_NO_PROT_WRITE, pr)
    else Done (e, pr)
  end.

(** [pr->pieok]: a local reader without parents, and no lazy pages *)
Definition pieok (stream : bool) (chain : list page_read) : bool :=
  negb stream && match chain with [_] => true | _ => false end && negb (lazy_pages env).

(** [ok]: [pr->pieok]; the processed areas, those still to come, the end of the last one *)
Fixpoint premap_loop (ok : bool) (pvmas acc vmas : list vma_area) (prev : option Z) (pstart tgt : Z) (pr : page_read)
    (st : astate) : res (Z * list vma_area * Z * page_read * astate) :=
  match vmas with
  | [] => Done (0, acc, tgt, pr, st)
  | v :: rest =>
    let prev' := Some (v_end (va_e v)) in
    if negb (task_size_check (va_e v) =? 0) then Done (-1, acc ++ v :: rest, tgt, pr, st)
    else if v_start (va_e v) <? pstart then Done (-1, acc ++ v :: rest, tgt, pr, st)
    else
      let pstart := v_start (va_e v) in
      if negb (vma_area_is_private v (task_size env))
      then premap_loop ok pvmas (acc ++ [v]) rest prev' pstart tgt pr st
      else if bool_decide (pvma v = NoPvma) && ok && negb (vma_force_premap v prev) then
        let* (e, pr) := no_prot_write_loop (S (length (pmes pr))) pr (va_e v) in
        premap_loop ok pvmas (acc ++ [set_e v e]) rest prev' pstart tgt pr st
      else
        let* (r, v, tgt, st) := premap_private_vma pvmas v tgt (fst st) (snd st) in
        if r <? 0 then Done (r, acc ++ v :: rest, tgt, pr, st)
        else premap_loop ok pvmas (acc ++ [v]) rest prev' pstart tgt pr st
  end.

Definition premap_priv_vmas (ok : bool) (pvmas vmas : list vma_area) (at_ : Z) (pr : page_read) (st : astate)
  : res (Z * list vma_area * Z * page_read * astate) :=
  premap_loop ok pvmas [] vmas None 0 at_ pr st.
End Premap.

(** ** Filling the areas *)

(** [va], [off]: addresses and pages of the task; [area]: the current area *)
Record content_state := mk_cs {
  cs_t : clock;
  cs_mem : Z -> Z;
  cs_chain : list page_read;
  cs_vmas : list vma_area;
  cs_pvmas : list vma_area;
  cs_area : nat;
  cs_io : list page_read_iov;        (* rsti(t)->vma_io *)
  nr_restored : Z;
  nr_shared : Z;
  nr_dropped : Z;
  nr_compared : Z;
  nr_lazy : Z;
}.

Definition upd_areas (cs : content_state) (vmas pvmas : list vma_area) : content_state :=
  mk_cs (cs_t cs) (cs_mem cs) (cs_chain cs) vmas pvmas (cs_area cs) (cs_io cs)
        (nr_restored cs) (nr_shared cs) (nr_dropped cs) (nr_compared cs) (nr_lazy cs).
Definition upd_area (cs : content_state) (i : nat) : content_state :=
  mk_cs (cs_t cs) (cs_mem cs) (cs_chain cs) (cs_vmas cs) (cs_pvmas cs) i (cs_io cs)
        (nr_restored cs) (nr_shared cs) (nr_dropped cs) (nr_compared cs) (nr_lazy cs).
Definition upd_reader (cs : content_state) (t : clock) (mem : Z -> Z) (chain : list page_read) : content_state :=
  mk_cs t mem chain (cs_vmas cs) (cs_pvmas cs) (cs_area cs) (cs_io cs)
        (nr_restored cs) (nr_shared cs) (nr_dropped cs) (nr_compared cs) (nr_lazy cs).
Definition upd_io (cs : content_state) (io : list page_read_iov) : content_state :=
  mk_cs (cs_t cs) (cs_mem cs) (cs_chain cs) (cs_vmas cs) (cs_pvmas cs) (cs_area cs) io
        (nr_restored cs) (nr_shared cs) (nr_dropped cs) (nr_compared cs) (nr_lazy cs).
(** the counters are [unsigned int] *)
Definition count (cs : content_state) (restored shared dropped compared lazy : Z) : content_state :=
  mk_cs (cs_t cs) (cs_mem cs) (cs_chain cs) (cs_vmas cs) (cs_pvmas cs) (cs_area cs) (cs_io cs)
        (u32 (nr_restored cs + restored)) (u32 (nr_shared cs + shared)) (u32 (nr_dropped cs + dropped))
        (u32 (nr_compared cs + compared)) (u32 (nr_lazy cs + lazy)).

(** an operation on the bit map of area [i] *)
Definition on_bitmap (l : list vma_area) (i : nat) (f : list Z -> res (list Z)) : res (list vma_area) :=
  let* v := deref (l !! i) in
  let* b := deref (page_bitmap v) in
  let* b := f b in
  Done (<[i := set_bitmap v b]> l).

Definition memcmp_page (mem : Z -> Z) (p q : Z) : bool :=
  forallb (fun i => mem (p + Z.of_nat i) =? mem (q + Z.of_nat i)) (seq 0 (Z.to_nat PAGE_SIZE)).

(** how the loop over the pages of an entry goes on: err_read and err_addr are labels of the source *)
Inductive page_out := Next (i va : Z) | ErrRead (r : Z) | ErrAddr | Fail.

Section Content.
Context {RK : ReadKernel} {MK : MmKernel}.
Variable env : rst_env.
Variables (auto_dedup partial_pages : bool).
(** [buf]: the page on the stack; the fuel of reads; the length of the chain *)
Variables (buf : Z) (iofuel : nat).

Definition read_pages (fl va nr p : Z) (cs : content_state) : res (Z * content_state) :=
  let* (r, (t, mem, chain)) :=
    read_pagemap_page auto_dedup partial_pages None (length (cs_chain cs)) iofuel fl va nr p
                      (cs_t cs, cs_mem cs, cs_chain cs) in
  Done (r, upd_reader cs t mem chain).

Definition skip_pages (len : Z) (cs : content_state) : res content_state :=
  match cs_chain cs with
  | [] => Bug
  | pr :: up => let* pr := skip_pagemap_pages pr len in Done (upd_reader cs (cs_t cs) (cs_mem cs) (pr :: up))
  end.

(** the area is not mapped yet: the restorer will read it in place *)
Definition enqueue_pages (v : vma_area) (i nr va : Z) (cs : content_state) : res (page_out * content_state) :=
  let len := Z.min (u64 ((nr - i) * PAGE_SIZE)) (u64 (v_end (va_e v) - va)) in
  if has (v_status (va_e v)) VMA_NO_PROT_WRITE then Bug
  else
    match cs_chain cs with
    | [] => Bug
    | pr :: _ =>
      let '(r, t, io) := pagemap_enqueue_iovec pr (cs_t cs) va len (cs_io cs) in
      let cs := upd_io (upd_reader cs t (cs_mem cs) (cs_chain cs)) io in
      if negb (r =? 0) then Done (Fail, cs)
      else
        let* cs := skip_pages len cs in
        let n := Z.shiftr len PAGE_SHIFT in
        Done (Next (i + (n - 1) + 1) (u64 (va + len)), count cs n 0 0 0 0)
    end.

(** a page that the parent may have: it is kept when the contents are the same *)
Definition compare_page (j : nat) (off i va p : Z) (cs : content_state) : res (page_out * content_state) :=
  let* pvmas := on_bitmap (cs_pvmas cs) j (fun b => deref (clear_bit off b)) in
  let* (r, cs) := read_pages 0 va 1 buf (upd_areas cs (cs_vmas cs) pvmas) in
  if r <? 0 then Done (ErrRead r, cs)
  else
    let va := u64 (va + PAGE_SIZE) in
    let cs := count cs 0 0 0 1 0 in
    if memcmp_page (cs_mem cs) p buf then Done (Next (i + 1) va, count cs 0 1 0 0 0)
    else Done (Next (i + 1) va, count (upd_reader cs (cs_t cs) (blit (cs_mem cs) p (cs_mem cs) buf PAGE_SIZE) (cs_chain cs)) 1 0 0 0 0).

(** as many pages as the entry and the area have *)
Definition read_run (v : vma_area) (off i nr va p : Z) (cs : content_state) : res (page_out * content_state) :=
  let n := Z.min (s32 (nr - i)) (s32 (u64 (v_end (va_e v) - va) / PAGE_SIZE)) in
  let* (r, cs) := read_pages PR_ASYNC va n p cs in
  if r <? 0 then Done (ErrRead r, cs)
  else
    let cs := count cs n 0 0 0 0 in
    let* vmas := on_bitmap (cs_vmas cs) (cs_area cs) (fun b => bitmap_set b (off + 1) (n - 1)) in
    Done (Next (i + (n - 1) + 1) (u64 (va + n * PAGE_SIZE)), upd_areas cs vmas (cs_pvmas cs)).

(** one turn of the loop over the pages of an entry *)
Definition restore_pages (i nr va : Z) (cs : content_state) : res (page_out * content_state) :=
  match skip_while (fun v => v_end (va_e v) <=? va) (drop (cs_area cs) (cs_vmas cs)) (cs_area cs) with
  | None => Done (ErrAddr, cs)
  | Some ix =>
    let cs := upd_area cs ix in
    let* v := deref (cs_vmas cs !! ix) in
    if va <? v_start (va_e v) then Done (ErrAddr, cs)
    else if negb (vma_area_is_private v (task_size env)) then Done (ErrAddr, cs)
    else if negb (vma_area_is v VMA_PREMMAPED) then enqueue_pages v i nr va cs
    else
      let off := u64 (va - v_start (va_e v)) / PAGE_SIZE in
      let p := u64 (off * PAGE_SIZE + premmaped_addr v) in
      let* vmas := on_bitmap (cs_vmas cs) ix (fun b => deref (set_bit off b)) in
      let cs := upd_areas cs vmas (cs_pvmas cs) in
      match pvma v with
      | ParentArea j => compare_page j off i va p cs
      | _ => read_run v off i nr va p cs
      end
  end.

(** Each turn restores a page at least. *)
Fixpoint pages_loop (fuel : nat) (i nr va : Z) (cs : content_state) : res (page_out * content_state) :=
  match fuel with
  | O => NoFuel
  | S fuel =>
    if i <? nr then
      let* (out, cs) := restore_pages i nr va cs in
      match out with
      | Next i va => pages_loop fuel i nr va cs
      | _ => Done (out, cs)
      end
    else Done (Next i va, cs)
  end.

(** the loop over the entries; [None]: the end of the pagemap *)
Fixpoint entries_loop (fuel : nat) (cs : content_state) : res (page_out * content_state) :=
  match fuel with
  | O => NoFuel
  | S fuel =>
    match cs_chain cs with
    | [] => Bug
    | pr :: up =>
      let (more, pr) := advance pr in
      let cs := upd_reader cs (cs_t cs) (cs_mem cs) (pr :: up) in
      if negb more then Done (ErrRead 0, cs)       (* break: on to the code at err_read, with ret = 0 *)
      else
        let* e := deref (pe pr) in
        if lazy_pages env && pagemap_lazy e then
          let* cs := skip_pages (u64 (nr_pages e * PAGE_SIZE)) cs in
          entries_loop fuel (count cs 0 0 0 0 (nr_pages e))
        else
          let* (out, cs) := pages_loop (S (Z.to_nat (nr_pages e))) 0 (nr_pages e) (vaddr e) cs in
          match out with
          | Next _ _ => entries_loop fuel cs
          | _ => Done (out, cs)
          end
    end
  end.

(** the pages of the parent's area that the child does not have *)
Fixpoint drop_loop (fuel : nat) (bm : list Z) (addr size i : Z) (st : astate) (n : Z) : res (Z * astate * Z) :=
  match fuel with
  | O => NoFuel
  | S fuel =>
    let* i := find_next_bit bm size i in
    if size <=? i then Done (0, st, n)
    else
      let (r, st) := madvise_dontneed (u64 (addr + PAGE_SIZE * i)) st in
      if r <? 0 then Done (-1, st, n) else drop_loop fuel bm addr size (i + 1) st (n + 1)
  end.

Fixpoint drop_pages (pvmas vmas : list vma_area) (st : astate) (n : Z) : res (Z * astate * Z) :=
  match vmas with
  | [] => Done (0, st, n)
  | v :: vmas =>
    match pvma v with
    | ParentArea j =>
      let size := vma_entry_len (va_e v) / PAGE_SIZE in
      let* p := deref (pvmas !! j) in
      let* bm := deref (page_bitmap p) in
      let* (r, st, n) := drop_loop (S (Z.to_nat size)) bm (premmaped_addr v) size 0 st n in
      if r <? 0 then Done (-1, st, n) else drop_pages pvmas vmas st n
    | _ => drop_pages pvmas vmas st n
    end
  end.

(** the result, the address space and the rest of the state *)
Definition restore_priv_vma_content (chain : list page_read) (vmas pvmas : list vma_area) (io : list page_read_iov)
    (st : astate) : res (Z * aspace * content_state) :=
  let (t, s) := st in
  match vmas, chain with
  | [], _ | _, [] => Bug
  | _, pr :: _ =>
    let cs := mk_cs t (as_mem s) chain vmas pvmas 0 io 0 0 0 0 0 in
    let* (out, cs) := entries_loop (S (length (pmes pr))) cs in
    match out with
    | ErrAddr | Fail | Next _ _ => Done (-1, set_mem s (cs_mem cs), cs)
    | ErrRead r =>
      let* (sr, (t, mem, chain)) := process_async_reads auto_dedup partial_pages None iofuel (cs_chain cs) (cs_t cs) (cs_mem cs) in
      let cs := upd_reader cs t mem chain in
      if negb (sr =? 0) then Done (-1, set_mem s mem, cs)
      else
        let* (t, chain) := close_page_read t chain in
        let cs := upd_reader cs t mem chain in
        if r <? 0 then Done (r, set_mem s mem, cs)
        else
          let* (r, (t, s), n) := drop_pages (cs_pvmas cs) (cs_vmas cs) (t, set_mem s mem) 0 in
          Done (r, s, count (upd_reader cs t (as_mem s) chain) 0 0 n 0 0)
    end
  end.
End Content.

(** ** The whole of it *)

(** [rsti(t)] *)
Record rst_info := mk_ri {
  ri_vmas : vm_area_list;
  ri_premmapped_addr : Z;
  ri_premmapped_len : Z;
  ri_vma_io : list page_read_iov;
  ri_has_thp_enabled : bool;
}.

Definition ri_areas (ri : rst_info) (l : list vma_area) : rst_info :=
  mk_ri (mk_vml l (vml_nr (ri_vmas ri)) (rst_priv_size (ri_vmas ri))) (ri_premmapped_addr ri) (ri_premmapped_len ri)
        (ri_vma_io ri) (ri_has_thp_enabled ri).
Definition ri_premmapped (ri : rst_info) (addr len : Z) : rst_info :=
  mk_ri (ri_vmas ri) addr len (ri_vma_io ri) (ri_has_thp_enabled ri).
Definition ri_io (ri : rst_info) (io : list page_read_iov) : rst_info :=
  mk_ri (ri_vmas ri) (ri_premmapped_addr ri) (ri_premmapped_len ri) io (ri_has_thp_enabled ri).
Definition ri_thp (ri : rst_info) (b : bool) : rst_info :=
  mk_ri (ri_vmas ri) (ri_premmapped_addr ri) (ri_premmapped_len ri) (ri_vma_io ri) b.

Section Mappings.
Context {RK : ReadKernel} {MK : MmKernel}.
Variable env : rst_env.
Variables (auto_dedup partial_pages : bool) (open_area : clock -> Z) (prctl : clock -> Z).
Variables (buf : Z) (iofuel : nat).
(** the images of the task and of its parents; [opts.stream]; [mm->thp_disabled] *)
Variables (dirs : list imgdir) (stream thp_disabled : bool) (img ids : Z).

Definition maybe_disable_thp (chain : list page_read) (ri : rst_info) (t : clock) : Z * rst_info * clock :=
  let has_parent := match chain with _ :: _ :: _ => true | _ => false end in
  if negb (lazy_pages env && has_parent) then (0, ri, t)
  else if negb (prctl t =? 0) then (-1, ri, S t)
  else (0, if negb thp_disabled then ri_thp ri true else ri, S t).

(** what is left to do once the contents are there: the old reservation and the unused tail of the new one; [addr]: the
    end of what was used *)
Definition release_reserved (old_addr old_len addr : Z) (ri : rst_info) (st : astate) : Z * rst_info * astate :=
  let (r, st) := if negb (old_addr =? 0) then sys_munmap old_addr old_len st else (0, st) in
  let used := u64 (addr - ri_premmapped_addr ri) in
  if used <? ri_premmapped_len ri then
    let (r, st) := sys_munmap addr (ri_premmapped_len ri - used) st in
    (r, ri_premmapped ri (ri_premmapped_addr ri) used, st)
  else (r, ri, st).

(** the areas of the parent, as the child has them, are part of the result *)
Definition prepare_mappings (pvmas : list vma_area) (ri : rst_info) (st : astate)
  : res (Z * rst_info * list vma_area * astate) :=
  let vmas := ri_vmas ri in
  if vml_nr vmas =? 0 then Done (0, ri, pvmas, st)
  else
    let (addr, st) := mmap 0 (rst_priv_size vmas) PROT_NONE (Z.lor MAP_PRIVATE MAP_ANONYMOUS) st in
    if addr =? MAP_FAILED then Done (-1, ri, pvmas, st)
    else
      let (old_addr, old_len) := (ri_premmapped_addr ri, ri_premmapped_len ri) in
      let ri := ri_premmapped ri addr (rst_priv_size vmas) in
      let* (r, chain, _, t) := open_page_read_at stream dirs img ids (fst st) in
      if r <=? 0 then Done (-1, ri, pvmas, (t, snd st))
      else
        let '(r, ri, t) := maybe_disable_thp chain ri t in
        if negb (r =? 0) then Done (-1, ri, pvmas, (t, snd st))
        else
          match chain with
          | [] => Bug
          | pr :: up =>
            let pr := snd (advance pr) in
            let* (r, l, addr, pr, st) :=
              premap_priv_vmas env open_area (pieok env stream chain) pvmas (h vmas) addr pr (t, snd st) in
            let ri := ri_areas ri l in
            if r <? 0 then Done (r, ri, pvmas, st)
            else
              let chain := reset_pagemap (pr :: up) in
              let* (r, s, cs) := restore_priv_vma_content env auto_dedup partial_pages buf iofuel chain l pvmas (ri_vma_io ri) st in
              let ri := ri_io (ri_areas ri (cs_vmas cs)) (cs_io cs) in
              if r <? 0 then Done (r, ri, cs_pvmas cs, (cs_t cs, s))
              else
                let '(r, ri, st) := release_reserved old_addr old_len addr ri (cs_t cs, s) in
                Done (r, ri, cs_pvmas cs, st)
          end.

(** ** Guard pages, files, and what is handed to the restorer *)

Fixpoint unmap_guards (vmas : list vma_area) (st : astate) : Z * astate :=
  match vmas with
  | [] => (0, st)
  | v :: vmas =>
    if negb (vma_area_is v VMA_PREMMAPED) then unmap_guards vmas st
    else if has (v_flags (va_e v)) MAP_GROWSDOWN then
      let (r, st) := sys_munmap (u64 (premmaped_addr v - PAGE_SIZE)) PAGE_SIZE st in
      if negb (r =? 0) then (-1, st) else unmap_guards vmas st
    else unmap_guards vmas st
  end.

Definition unmap_guard_pages (vmas : list vma_area) (st : astate) : Z * astate :=
  if negb (stack_guard_gap_hidden env) then (0, st) else unmap_guards vmas st.

Fixpoint open_vmas (vmas : list vma_area) (t : clock) : Z * list vma_area * clock :=
  match vmas with
  | [] => (0, [], t)
  | v :: vmas =>
    if negb (vma_area_is v VMA_AREA_REGULAR) || negb (vm_open v) then
      let '(r, l, t) := open_vmas vmas t in (r, v :: l, t)
    else if negb (open_area t =? 0) then (-1, v :: vmas, S t)
    else
      let v := if negb (vma_area_is v VMA_FILE_PRIVATE || vma_area_is v VMA_FILE_SHARED)
               then set_e v (add_status (va_e v) VMA_CLOSE) else v in
      let '(r, l, t) := open_vmas vmas (S t) in (r, v :: l, t)
  end.
End Mappings.

(** [struct restore_vma_io]; [rst_mem_alloc] may fail *)
Record restore_vma_io := mk_rio { rio_off : Z; rio_iovs : list iovec }.

Section Handover.
Variables (rst_mem_alloc : clock -> bool) (open_pages : clock -> bool).

Fixpoint pagemap_render_iovec (from_ : list page_read_iov) (t : clock) : Z * list restore_vma_io * clock :=
  match from_ with
  | [] => (0, [], t)
  | p :: from_ =>
    if negb (rst_mem_alloc t) then (-1, [], S t)
    else
      let '(r, l, t) := pagemap_render_iovec from_ (S t) in (r, mk_rio (from p) (to p) :: l, t)
  end.

(** the descriptor of the pages image: -1 when there is nothing to read *)
Definition prepare_vma_ios (io : list page_read_iov) (t : clock) : Z * list restore_vma_io * clock :=
  match io with
  | [] => (0, [], t)
  | _ => if negb (open_pages t) then (-1, [], S t) else pagemap_render_iovec io (S t)
  end.

(** the number of areas that the restorer is given is that of the list, [vmas->nr] *)
Fixpoint copy_vmas (vmas : list vma_area) (t : clock) : bool * list VmaEntry * clock :=
  match vmas with
  | [] => (true, [], t)
  | v :: vmas =>
    if negb (rst_mem_alloc t) then (false, [], S t)
    else
      let e := if vma_area_is v VMA_PREMMAPED then set_shmid (va_e v) (premmaped_addr v) else va_e v in
      let '(ok, l, t) := copy_vmas vmas (S t) in (ok, e :: l, t)
  end.

Record task_restore_args := mk_ta { ta_vmas : list VmaEntry; ta_vmas_n : Z; ta_vma_ios : list restore_vma_io }.

Definition prepare_vmas (l : vm_area_list) (io : list page_read_iov) (t : clock) : Z * task_restore_args * clock :=
  let '(ok, es, t) := copy_vmas (h l) t in
  if negb ok then (-1, mk_ta es (vml_nr l) [], t)
  else let '(r, ios, t) := prepare_vma_ios io t in (r, mk_ta es (vml_nr l) ios, t).
End Handover.

(** ** The loops over areas *)
Lemma skip_while_some f l i k : skip_while f l i = Some k ->
  (i <= k)%nat /\ (exists v, l !! (k - i)%nat = Some v /\ f v = false) /\
  forall n v, (n < k - i)%nat -> l !! n = Some v -> f v = true.
Proof.
  revert i. induction l as [|w l IH]; intros i; cbn [skip_while]; [done|]. destruct (f w) eqn:E.
  - intros (H1 & (v & H2 & H3) & H4)%IH. split; [lia|]. split.
    + exists v. split; [|done]. by replace (k - i)%nat with (S (k - S i)) by lia.
    + intros [|n] u Hn Hu; [by simplify_eq/=|]. apply (H4 n); [lia|done].
  - intros [= <-]. split; [lia|]. rewrite Nat.sub_diag. split; [by exists w|]. lia.
Qed.

Lemma skip_while_none f l i : skip_while f l i = None -> forall v, v ∈ l -> f v = true.
Proof.
  revert i. induction l as [|w l IH]; intros i; cbn [skip_while]; [by intros _ v ?%elem_of_nil|].
  destruct (f w) eqn:E; [|done]. intros H v [->|Hv]%elem_of_cons; [done|]. by eapply IH.
Qed.

(** in the list itself *)
Lemma skip_drop f l i k : skip_while f (drop i l) i = Some k ->
  (i <= k)%nat /\ (exists v, l !! k = Some v /\ f v = false) /\
  forall n v, (i <= n < k)%nat -> l !! n = Some v -> f v = true.
Proof.
  intros (H1 & (v & H2 & H3) & H4)%skip_while_some. rewrite lookup_drop in H2. replace (i + (k - i))%nat with k in H2 by lia.
  split; [done|]. split; [eauto|]. intros n u Hn Hu. apply (H4 (n - i)%nat); [lia|]. rewrite lookup_drop. by replace (i + (n - i))%nat with n by lia.
Qed.

Lemma skip_drop_none f l i n v : skip_while f (drop i l) i = None -> (i <= n)%nat -> l !! n = Some v -> f v = true.
Proof.
  intros H Hn Hv. eapply skip_while_none; [exact H|]. apply list_elem_of_lookup. exists (n - i)%nat.
  rewrite lookup_drop. by replace (i + (n - i))%nat with n by lia.
Qed.
End MemRestore.
