(* ===== verification/CowVmas.v ===== *)
(** * Areas shared with the parent: what [prepare_cow_vmas_for] (criu/mem.c) finds

    The matching terminates, pairs only areas that may share pages, and marks the parent's side of each pair, so that
    both are mapped before the child is forked.  It is complete when the child has no area that the parent lacks; with one
    more area in the child it may miss a pair. *)
From S2P Require Import Prelude.
From S2P Require Import Vma.
From S2P Require Import MemRestore.

Module CowVmas.
Export MemRestore.

Abbreviation vstart v := (v_start (va_e v)) (only parsing).

(** the two areas may share pages *)
Definition cow_pair (env : rst_env) (v p : vma_area) : bool := (vstart v =? vstart p) && check_cow_vmas env v p.

Definition starts_sorted (l : list vma_area) : Prop :=
  forall i j v w, (i < j)%nat -> l !! i = Some v -> l !! j = Some w -> vstart v < vstart w.

Section Cow.
Variable env : rst_env.
(** the lists before the matching *)
Variables vmas pvmas : list vma_area.

(** [v'] is [v], matched or not *)
Definition v_matched (pc : list vma_area) (v v' : vma_area) : Prop :=
  v' = v \/ exists j p p', pvmas !! j = Some p /\ cow_pair env v p = true /\ v' = set_pvma v (ParentArea j) /\
    pc !! j = Some p' /\ pvma p' <> NoPvma.
Definition p_matched (p p' : vma_area) : Prop := p' = p \/ pvma p = NoPvma /\ p' = set_pvma p VMA_COW_ROOT.

Definition matched (vc pc : list vma_area) : Prop := Forall2 (v_matched pc) vmas vc /\ Forall2 p_matched pvmas pc.

Lemma p_matched_e p p' : p_matched p p' -> va_e p' = va_e p.
Proof. by intros [->|[_ ->]]. Qed.
Lemma v_matched_e pc v v' : v_matched pc v v' -> va_e v' = va_e v.
Proof. by intros [->|(?&?&?&_&_&->&_)]. Qed.

Lemma check_cow_e v v' p p' : va_e v' = va_e v -> va_e p' = va_e p -> check_cow_vmas env v' p' = check_cow_vmas env v p.
Proof. unfold check_cow_vmas, vma_area_is_private. by intros -> ->. Qed.

Lemma Forall2_pvma_le pc pc' : (forall j p, pc !! j = Some p -> pvma p <> NoPvma -> exists p', pc' !! j = Some p' /\ pvma p' <> NoPvma) ->
  forall l l', Forall2 (v_matched pc) l l' -> Forall2 (v_matched pc') l l'.
Proof.
  intros Hle l l'. apply Forall2_impl. intros v v' [->|(j & p & p' & H1 & H2 & H3 & H4 & H5)]; [by left|right].
  destruct (Hle j p' H4 H5) as (q & ? & ?). by exists j, p, q.
Qed.

Lemma pair_areas_matched vc pc i j v p :
  matched vc pc -> vc !! i = Some v -> pc !! j = Some p -> let '(vc', pc') := pair_areas env vc pc i j v p in matched vc' pc'.
Proof.
  intros [HV HP] Hi Hj. unfold pair_areas.
  destruct ((vstart v =? vstart p) && check_cow_vmas env v p) eqn:E; [|done].
  destruct (Forall2_lookup_r _ _ _ _ _ HV Hi) as (v0 & Hv0 & Hvm). destruct (Forall2_lookup_r _ _ _ _ _ HP Hj) as (p0 & Hp0 & Hpm).
  set (pc' := match pvma p with NoPvma => <[j := set_pvma p VMA_COW_ROOT]> pc | _ => pc end).
  assert (Hjlt : (j < length pc)%nat) by (by eapply lookup_lt_Some).
  assert (Hpc : Forall2 p_matched pvmas pc' /\ exists p', pc' !! j = Some p' /\ pvma p' <> NoPvma).
  { subst pc'. destruct (pvma p) eqn:Ep; [|split; [done|exists p; split; [done|by rewrite Ep]]..].
    split; [|exists (set_pvma p VMA_COW_ROOT); by rewrite list_lookup_insert_eq].
    rewrite <-(list_insert_id pvmas j p0) by done. apply Forall2_insert; [done|]. right.
    destruct Hpm as [->|[_ ->]]; [done|by cbn in Ep]. }
  destruct Hpc as [Hpc (p' & Hp' & Hne)]. split; [|done].
  assert (Hle : Forall2 (v_matched pc') vmas vc).
  { eapply Forall2_pvma_le; [|exact HV]. intros k q Hk Hq. subst pc'. destruct (pvma p) eqn:Ep; [|by exists q..].
    destruct (decide (k = j)) as [->|]; [|exists q; by rewrite list_lookup_insert_ne].
    exists (set_pvma p VMA_COW_ROOT). by rewrite list_lookup_insert_eq. }
  rewrite <-(list_insert_id vmas i v0) by done. apply Forall2_insert; [done|]. right. exists j, p0, p'.
  split_and!; try done.
  - unfold cow_pair. rewrite <-(p_matched_e p0 p Hpm), <-(v_matched_e pc v0 v Hvm).
    by rewrite <-(check_cow_e v0 v p0 p (v_matched_e _ _ _ Hvm) (p_matched_e _ _ Hpm)).
  - unfold set_pvma. destruct Hvm as [->|(?&?&?&_&_&->&_)]; done.
Qed.

(** every turn moves on in the parent's list *)
Lemma cow_loop_ok fuel : forall vc pc i j, matched vc pc -> (i < length vc)%nat -> (j < length pc)%nat ->
  (length pc - j < fuel)%nat -> exists vc' pc', cow_loop fuel env vc pc i j = Done (vc', pc') /\ matched vc' pc'.
Proof.
  induction fuel as [|fuel IH]; intros vc pc i j Hm Hi Hj Hf; [lia|]. cbn [cow_loop].
  destruct (lookup_lt_is_Some_2 vc i Hi) as [v Hv]. destruct (lookup_lt_is_Some_2 pc j Hj) as [p Hp].
  rewrite Hv, Hp. cbn [deref rbind].
  pose proof (pair_areas_matched vc pc i j v p Hm Hv Hp) as Hm1. destruct (pair_areas env vc pc i j v p) as [vc1 pc1] eqn:E1.
  assert (Hl : length pc1 = length pc).
  { destruct Hm as [_ H2], Hm1 as [_ H4]. apply list.Forall2_length in H2, H4. lia. }
  assert (Hps : exists q, pc1 !! j = Some q /\ va_e q = va_e p).
  { revert E1. unfold pair_areas. destruct (_ && _); [|intros [= <- <-]; eauto]. destruct (pvma p); intros [= <- <-]; [|eauto..].
    exists (set_pvma p VMA_COW_ROOT). by rewrite list_lookup_insert_eq. }
  destruct (skip_while _ (drop i vc1) i) as [i'|] eqn:Es; [|eauto].
  apply skip_drop in Es as (_ & (w & Hw & Hlt%Z.leb_gt) & _). rewrite Hw. cbn [deref rbind].
  destruct (skip_while _ (drop j pc1) j) as [j'|] eqn:Es2; [|eauto].
  apply skip_drop in Es2 as (Hjj & (q & Hq & Hge%Z.ltb_ge) & _). destruct Hps as (q0 & Hq0 & Hqe).
  apply IH; [done|by eapply lookup_lt_Some|by eapply lookup_lt_Some|].
  assert (j <> j') by (intros <-; rewrite Hq0 in Hq; injection Hq as <-; rewrite Hqe in Hge; lia). lia.
Qed.

(** ** Completeness *)

(** every area of the child has a counterpart at its address *)
Definition starts_covered : Prop := forall i v, vmas !! i = Some v -> exists j p, pvmas !! j = Some p /\ vstart p = vstart v.

(** the area at place [i] is paired if it can be *)
Definition done_at (vc : list vma_area) (i : nat) : Prop :=
  forall v j p, vmas !! i = Some v -> pvmas !! j = Some p -> cow_pair env v p = true -> vc !! i = Some (set_pvma v (ParentArea j)).

Lemma pair_areas_lookup vc pc i j v p k : k <> i -> fst (pair_areas env vc pc i j v p) !! k = vc !! k.
Proof. intros Hk. unfold pair_areas. destruct (_ && _); [|done]. cbn. by rewrite list_lookup_insert_ne. Qed.

Lemma pair_areas_starts vc pc i j v p : vc !! i = Some v -> pc !! j = Some p ->
  let '(vc', pc') := pair_areas env vc pc i j v p in
  (va_e <$> vc') = (va_e <$> vc) /\ (va_e <$> pc') = (va_e <$> pc).
Proof.
  intros Hi Hj. unfold pair_areas. destruct (_ && _); [|done]. split.
  - rewrite list_fmap_insert. apply list_insert_id. by rewrite list_lookup_fmap, Hi.
  - destruct (pvma p); [|done..]. rewrite list_fmap_insert. apply list_insert_id. by rewrite list_lookup_fmap, Hj.
Qed.

Lemma e_lookup (l l' : list vma_area) i v : (va_e <$> l) = (va_e <$> l') -> l !! i = Some v -> exists v', l' !! i = Some v' /\ va_e v' = va_e v.
Proof.
  intros He Hi. assert (H : (va_e <$> l') !! i = Some (va_e v)) by (by rewrite <-He, list_lookup_fmap, Hi).
  apply list_lookup_fmap_Some in H as (v' & ? & ?). eauto.
Qed.

Lemma cow_loop_complete fuel : starts_sorted vmas -> starts_sorted pvmas -> starts_covered -> forall vc pc i j vc' pc',
  (va_e <$> vc) = (va_e <$> vmas) -> (va_e <$> pc) = (va_e <$> pvmas) ->
  (forall k v, (i <= k)%nat -> vc !! k = Some v -> exists v0, vmas !! k = Some v0 /\ v = v0) ->
  (forall k, (k < i)%nat -> done_at vc k) ->
  (forall k p v, (k < j)%nat -> pvmas !! k = Some p -> vmas !! i = Some v -> vstart p < vstart v) ->
  cow_loop fuel env vc pc i j = Done (vc', pc') -> forall k, (k < length vmas)%nat -> done_at vc' k.
Proof.
  intros Sv Sp Hcov. induction fuel as [|fuel IH]; intros vc pc i j vc' pc' He1 He2 Hsame Hdone Hbelow; [done|]. cbn [cow_loop].
  destruct (vc !! i) as [v|] eqn:Hv; [|done]. destruct (pc !! j) as [p|] eqn:Hp; [|done]. cbn [deref rbind].
  destruct (Hsame i v ltac:(lia) Hv) as (v0 & Hv0 & ->).
  destruct (e_lookup _ _ _ _ He2 Hp) as (p0 & Hp0 & Hpe).
  (* the counterpart of [v0] is at [j] or after *)
  destruct (Hcov i v0 Hv0) as (js & ps & Hps & Hpss).
  assert (Hle : vstart p0 <= vstart v0).
  { destruct (Nat.lt_total js j) as [Hlt|[->|Hgt]].
    - specialize (Hbelow js ps v0 Hlt Hps Hv0). lia.
    - rewrite Hp0 in Hps. injection Hps as ->. lia.
    - specialize (Sp j js p0 ps Hgt Hp0 Hps). lia. }
  pose proof (pair_areas_starts vc pc i j v0 p Hv Hp) as Hst. pose proof (pair_areas_lookup vc pc i j v0 p) as Hoth.
  assert (Hi1 : vstart p0 = vstart v0 -> done_at (fst (pair_areas env vc pc i j v0 p)) i).
  { intros Heq x jx px Hx Hjx Hpair. rewrite Hv0 in Hx. injection Hx as <-.
    assert (Hst2 : vstart px = vstart p0) by (unfold cow_pair in Hpair; lia).
    assert (jx = j) as -> by (destruct (Nat.lt_total jx j) as [Hl|[?|Hl]]; [specialize (Sp _ _ _ _ Hl Hjx Hp0); lia|done|specialize (Sp _ _ _ _ Hl Hp0 Hjx); lia]).
    rewrite Hp0 in Hjx. injection Hjx as <-. unfold pair_areas. rewrite <-Hpe, (check_cow_e v0 v0 p0 p) by done.
    unfold cow_pair in Hpair. rewrite Hpair. cbn. rewrite list_lookup_insert_eq; [done|by eapply lookup_lt_Some]. }
  destruct (pair_areas env vc pc i j v0 p) as [vc1 pc1] eqn:E1. cbn [fst] in *. destruct Hst as [Hst1 Hst2].
  assert (Hdone1 : forall k, (k < i)%nat -> done_at vc1 k).
  { intros k Hk x jx px Hx Hjx Hpr. rewrite Hoth by lia. by apply (Hdone k Hk x jx px). }
  rewrite <-Hpe.
  destruct (skip_while _ (drop i vc1) i) as [i'|] eqn:Es.
  - apply skip_drop in Es as (Hii & (w & Hw & Hlt%Z.leb_gt) & Hbetw).
    (* one step at most *)
    assert (Hstep : i' = i \/ i' = S i /\ vstart p0 = vstart v0).
    { destruct (decide (i' = i)) as [|Hne]; [by left|right]. destruct (e_lookup vc1 vc i' w Hst1 Hw) as (w1 & Hw1 & Hwe).
      assert (Hvi : exists x, vc1 !! i = Some x /\ va_e x = va_e v0) by (apply (e_lookup vc vc1); [done|done]).
      destruct Hvi as (x & Hx & Hxe). pose proof (Hbetw i x ltac:(lia) Hx) as Hb%Z.leb_le. rewrite Hxe in Hb. split; [|lia].
      destruct (decide (i' = S i)) as [|Hne2]; [done|]. exfalso.
      destruct (lookup_lt_is_Some_2 vc1 (S i)) as [y Hy]; [apply lookup_lt_Some in Hw; lia|].
      pose proof (Hbetw (S i) y ltac:(lia) Hy) as Hb2%Z.leb_le.
      destruct (e_lookup vc1 vmas (S i) y) as (y0 & Hy0 & Hye); [congruence|done|].
      specialize (Sv i (S i) v0 y0 ltac:(lia) Hv0 Hy0). rewrite Hye in Sv. lia. }
    rewrite Hw. cbn [deref rbind].
    assert (Hdone2 : forall k, (k < i')%nat -> done_at vc1 k).
    { intros k Hk. destruct (decide (k < i)%nat); [by apply Hdone1|]. destruct Hstep as [->|[-> Heq]]; [lia|].
      replace k with i by lia. by apply Hi1. }
    destruct (e_lookup vc1 vmas i' w) as (w0 & Hw0 & Hwe0); [congruence|done|].
    destruct (skip_while _ (drop j pc1) j) as [j'|] eqn:Es2.
    + apply skip_drop in Es2 as (Hjj & (q & Hq & Hge%Z.ltb_ge) & Hbetw2). intros Hrun. eapply (IH vc1 pc1 i' j'); [congruence|congruence| |done| |exact Hrun].
      * intros k x Hk Hx. destruct (decide (k = i)) as [->|].
        { destruct Hstep as [->|[-> _]]; [|lia].
          assert (vc1 = vc) as ->.
          { revert E1. unfold pair_areas. destruct (Z.eqb_spec (vstart v0) (vstart p)) as [Heq|]; [|by intros [= <- <-]].
            exfalso. rewrite Hw in Hx. simplify_eq. destruct (e_lookup vc1 vmas i x) as (y & Hy & Hye); [congruence|done|].
            rewrite Hv0 in Hy. injection Hy as <-. rewrite <-Hye in Hlt. rewrite Hpe in Hlt. lia. }
          by apply Hsame. }
        rewrite Hoth in Hx by done. apply Hsame; [lia|done].
      * intros k q0 x Hk Hq0 Hx. rewrite Hw0 in Hx. injection Hx as <-. rewrite Hwe0.
        destruct (decide (k < j)%nat).
        { specialize (Hbelow k q0 v0 ltac:(done) Hq0 Hv0). assert (vstart v0 <= vstart w); [|lia].
          rewrite <-Hwe0. destruct Hstep as [->|[-> _]]; [rewrite Hv0 in Hw0; by injection Hw0 as ->|].
          specialize (Sv i (S i) v0 w0 ltac:(lia) Hv0 Hw0). lia. }
        destruct (e_lookup pvmas pc1 k q0) as (q1 & Hq1 & Hqe); [congruence|done|].
        pose proof (Hbetw2 k q1 ltac:(lia) Hq1) as Hb%Z.ltb_lt. rewrite Hqe in Hb. lia.
    + exfalso. destruct (Hcov i' w0 Hw0) as (jc & pc0 & Hjc & Hjs). destruct (e_lookup pvmas pc1 jc pc0) as (q1 & Hq1 & Hqe); [congruence|done|].
      destruct (decide (j <= jc)%nat).
      * pose proof (skip_drop_none _ _ _ _ _ Es2 ltac:(done) Hq1) as Hb%Z.ltb_lt. rewrite Hqe, Hjs, Hwe0 in Hb. lia.
      * specialize (Hbelow jc pc0 v0 ltac:(lia) Hjc Hv0). assert (vstart v0 <= vstart w0); [|lia].
        destruct Hstep as [->|[-> _]]; [rewrite Hv0 in Hw0; by injection Hw0 as ->|]. specialize (Sv i (S i) v0 w0 ltac:(lia) Hv0 Hw0). lia.
  - intros [= <- <-] k Hk. destruct (decide (k < i)%nat); [by apply Hdone1|].
    assert (Hall : forall n x, (i <= n)%nat -> vmas !! n = Some x -> vstart x <= vstart p0).
    { intros m x Hn Hx. destruct (e_lookup vmas vc1 m x) as (y & Hy & Hye); [congruence|done|].
      pose proof (skip_drop_none _ _ _ _ _ Es Hn Hy) as Hb%Z.leb_le. rewrite Hye in Hb. lia. }
    pose proof (Hall i v0 ltac:(lia) Hv0).
    destruct (decide (k = i)) as [->|]; [apply Hi1; lia|]. exfalso.
    destruct (lookup_lt_is_Some_2 vmas k Hk) as [x Hx]. pose proof (Hall k x ltac:(lia) Hx).
    specialize (Sv i k v0 x ltac:(lia) Hv0 Hx). lia.
Qed.
End Cow.

(** the matching of a child's areas with its parent's ends with a result; an area is only ever tied to one of the
    parent's with the same bounds, kind and file, and the parent's area is then marked too, so that it is premapped; and
    when every area of the child starts where one of the parent does, no pair is missed. *)
Theorem prepare_cow_vmas_for_spec env vmas pvmas :
  vmas <> [] -> pvmas <> [] ->
  exists vmas' pvmas', prepare_cow_vmas_for env vmas pvmas = Done (vmas', pvmas') /\
    matched env vmas pvmas vmas' pvmas' /\
    (starts_sorted vmas -> starts_sorted pvmas -> starts_covered vmas pvmas ->
     forall i v j p, vmas !! i = Some v -> pvmas !! j = Some p -> cow_pair env v p = true ->
       vmas' !! i = Some (set_pvma v (ParentArea j))).
Proof.
  intros Hv Hp. unfold prepare_cow_vmas_for.
  destruct (cow_loop_ok env vmas pvmas (length vmas + length pvmas + 1) vmas pvmas 0 0) as (v' & p' & Hrun & Hm).
  - split; [apply Forall2_same_length_lookup_2; [done|]|apply Forall2_same_length_lookup_2; [done|]];
      intros i x y Hx Hy; rewrite Hx in Hy; injection Hy as <-; by left.
  - destruct vmas; [done|cbn; lia].
  - destruct pvmas; [done|cbn; lia].
  - lia.
  - exists v', p'. split; [done|]. split; [done|]. intros Sv Sp Hc i v j p Hi Hj Hpair.
    apply (cow_loop_complete env vmas pvmas _ Sv Sp Hc vmas pvmas 0 0 v' p'
             eq_refl eq_refl ltac:(eauto) ltac:(lia) ltac:(lia) Hrun i ltac:(by eapply lookup_lt_Some) v j p Hi Hj Hpair).
Qed.

Definition demo_area (start end_ : Z) : vma_area :=
  mk_varea (mk_vma (start * PAGE_SIZE) (end_ * PAGE_SIZE) 0 0 3 (Z.lor MAP_PRIVATE MAP_ANONYMOUS)
              (Z.lor VMA_AREA_REGULAR VMA_ANON_PRIVATE)) NoPvma None 0 false.
Definition demo_env : rst_env := mk_env (2 ^ 47 - PAGE_SIZE) false false.

Lemma prepare_cow_vmas_for_witness :
  exists vmas' pvmas', prepare_cow_vmas_for demo_env [demo_area 1 3; demo_area 5 6] [demo_area 1 3; demo_area 4 5; demo_area 5 6] =
      Done (vmas', pvmas') /\
    matched demo_env [demo_area 1 3; demo_area 5 6] [demo_area 1 3; demo_area 4 5; demo_area 5 6] vmas' pvmas' /\
    vmas' !! 1%nat = Some (set_pvma (demo_area 5 6) (ParentArea 2)).
Proof.
  destruct (prepare_cow_vmas_for_spec demo_env [demo_area 1 3; demo_area 5 6] [demo_area 1 3; demo_area 4 5; demo_area 5 6])
    as (v' & p' & H1 & H2 & H3); [done|done|].
  exists v', p'. split; [exact H1|]. split; [exact H2|].
  apply (fun a b c => H3 a b c 1%nat (demo_area 5 6) 2%nat (demo_area 5 6)); try reflexivity.
  - intros i j v w Hij. destruct i as [|[|[|]]], j as [|[|[|]]]; try lia; cbn; intros; simplify_eq/=; (lia || done).
  - intros i j v w Hij. destruct i as [|[|[|]]], j as [|[|[|]]]; try lia; cbn; intros; simplify_eq/=; (lia || done).
  - intros i v. destruct i as [|[|]]; intros [= <-]; [by exists 0%nat, (demo_area 1 3)|by exists 2%nat, (demo_area 5 6)].
Defined.

(** a pair is missed when the child has an area of its own in a gap of the parent's, right before the area they
    share: the loop that moves on past the child's area also moves past the shared one, which is then mapped and read
    again instead of being inherited. *)
Theorem cow_pair_missed :
  cow_pair demo_env (demo_area 5 6) (demo_area 5 6) = true /\
  prepare_cow_vmas_for demo_env [demo_area 2 3; demo_area 5 6] [demo_area 0 1; demo_area 5 6] =
    Done ([demo_area 2 3; demo_area 5 6], [demo_area 0 1; demo_area 5 6]).
Proof. split; reflexivity. Qed.
End CowVmas.
