(* ===== verification/Premap.v ===== *)
(** * The temporary layout of private memory: what [premap_priv_vmas] (criu/mem.c) does

    The areas that are premapped lie one after the other from the reserved address on, within the size that was
    reserved; an area that is left to the restorer is marked as one that needs no write permission only when no entry of the
    pagemap touches it, which is what the BUG() in the restore of contents relies on. *)
From S2P Require Import Prelude.
From S2P Require Import Vma.
From S2P Require Import AddrSpace.
From S2P Require Import Pagemap.
From S2P Require Import MemRestore.

Module Premap.
Export MemRestore.

(** ** The search in the pagemap *)

(** where the reader stands: at entry [k] *)
Definition stands (pr : page_read) (k : nat) (p : PagemapEntry) : Prop :=
  pe pr = Some p /\ pmes pr !! k = Some p /\
  (curr_pme pr = Z.of_nat k \/ k = (length (pmes pr) - 1)%nat /\ Z.of_nat (length (pmes pr)) <= curr_pme pr).

Definition before_all (pr : page_read) (k : nat) (a : Z) : Prop :=
  forall i p, (i < k)%nat -> pmes pr !! i = Some p -> pe_end p <= a.

(** no entry of the pagemap touches the area *)
Definition untouched (pr : page_read) (e : VmaEntry) : Prop :=
  forall p, p ∈ pmes pr -> pe_end p <= v_start e \/ v_end e <= vaddr p.

Lemma no_prot_write_ok fuel : forall pr k p e,
  pm_ok pr -> stands pr k p -> before_all pr k (v_start e) -> (length (pmes pr) - k < fuel)%nat ->
  exists e' pr' k' p', no_prot_write_loop fuel pr e = Done (e', pr') /\ same_img pr pr' /\ stands pr' k' p' /\
    before_all pr' k' (v_start e) /\ (e' = e \/ e' = add_status e VMA_NO_PROT_WRITE /\ untouched pr e).
Proof.
  induction fuel as [|fuel IH]; intros pr k p e Hok Hst Hb Hf; [lia|]. pose proof Hok as [Hfa Hs]. cbn [no_prot_write_loop].
  pose proof Hst as (Hpe & Hk & Hcur). rewrite Hpe. cbn [deref rbind].
  assert (Hp : pe_ok p) by (by eapply Forall_lookup_1). rewrite pagemap_end_ok by done.
  destruct (Z.leb_spec (pe_end p) (v_start e)) as [Hle|Hgt].
  - unfold advance. pose proof (lookup_lt_Some _ _ _ Hk) as Hlt.
    destruct (Z.leb_spec (Z.of_nat (length (pmes pr))) (curr_pme pr + 1)) as [Hend|Hmore].
    + eexists e, _, k, p. split; [done|]. split; [done|]. split; [|split; [done|by left]].
      unfold stands. cbn. split_and!; try done. right. split; [|lia]. destruct Hcur as [?|[? ?]]; lia.
    + destruct Hcur as [Hcur|[? ?]]; [|lia]. replace (Z.to_nat (curr_pme pr + 1)) with (S k) by lia.
      destruct (lookup_lt_is_Some_2 (pmes pr) (S k)) as [q Hq]; [lia|]. rewrite Hq.
      set (pr1 := set_pos pr (Some q) (vaddr q) (pi_off pr) (curr_pme pr + 1)).
      destruct (IH pr1 (S k) q e) as (e' & pr' & k' & p' & Hrun & Hsame & Hst' & Hb' & He'); try done.
      * unfold stands, pr1. cbn. split_and!; try done. left. lia.
      * intros i x Hi Hx. cbn in Hx. destruct (decide (i = k)) as [->|]; [by simplify_eq|]. apply (Hb i); [lia|done].
      * unfold pr1. cbn. lia.
      * exists e', pr', k', p'. by split_and!.
  - destruct (Z.ltb_spec (v_end e) (vaddr p)) as [Hlt|Hge].
    + eexists _, pr, k, p. split; [done|]. split; [done|]. split; [done|]. split; [done|]. right. split; [done|].
      intros q Hq. apply list_elem_of_lookup in Hq as [i Hi]. destruct (decide (i < k)%nat); [left; by eapply Hb|right].
      destruct (decide (i = k)) as [->|]; [simplify_eq; lia|].
      pose proof (pm_sorted_before (pmes pr) k i p q Hfa Hs ltac:(lia) Hk Hi). pose proof (pe_ok_lt p Hp). lia.
    + eexists e, pr, k, p. split; [done|]. split; [done|]. split; [done|]. split; [done|]. by left.
Qed.

(** ** The layout *)

Section Layout.
Variable env : rst_env.
(** [pr->pieok] *)
Variable ok : bool.

Definition guard (v : vma_area) : Z := if vma_has_guard_gap_hidden env v then PAGE_SIZE else 0.
(** what an area takes of the reserved place *)
Definition slot (v : vma_area) : Z := v_end (va_e v) - v_start (va_e v) + guard v.

(** [prev]: the end of the area before *)
Definition premaps (prev : option Z) (v : vma_area) : bool :=
  vma_area_is_private v (task_size env) &&
  negb (bool_decide (pvma v = NoPvma) && ok && negb (vma_force_premap v prev)).

Definition zero_bitmap (v : vma_area) : list Z :=
  replicate (Z.to_nat (BITS_TO_LONGS ((v_end (va_e v) - v_start (va_e v)) / PAGE_SIZE))) 0.

Definition premapped_at (v : vma_area) (tgt : Z) : vma_area :=
  mk_varea (add_status (va_e v) VMA_PREMMAPED) (pvma v) (Some (zero_bitmap v)) (tgt + guard v)
           (if vma_entry_is (add_status (va_e v) VMA_PREMMAPED) VMA_FILE_PRIVATE then false else vm_open v).

(** [l] are the areas [vmas] after the premapping from [tgt] on *)
Fixpoint laid_out (pr : page_read) (prev : option Z) (tgt : Z) (vmas l : list vma_area) : Prop :=
  match vmas, l with
  | [], [] => True
  | v :: vmas, v' :: l =>
    (if premaps prev v then v' = premapped_at v tgt
     else v' = v \/ v' = set_e v (add_status (va_e v) VMA_NO_PROT_WRITE) /\ untouched pr (va_e v)) /\
    laid_out pr (Some (v_end (va_e v))) (if premaps prev v then tgt + slot v else tgt) vmas l
  | _, _ => False
  end.

(** the place that is taken *)
Fixpoint taken (prev : option Z) (vmas : list vma_area) : Z :=
  match vmas with
  | [] => 0
  | v :: vmas => (if premaps prev v then slot v else 0) + taken (Some (v_end (va_e v))) vmas
  end.

Definition entry_ok (e : VmaEntry) : Prop :=
  0 <= v_start e /\ v_start e < v_end e /\ v_end e < TASK_SIZE /\ aligned (v_start e) /\ aligned (v_end e).
Definition area_ok (v : vma_area) : Prop := entry_ok (va_e v) /\ guard v <= v_start (va_e v).

(** in the order of their addresses *)
Fixpoint ascending (lo : Z) (vmas : list vma_area) : Prop :=
  match vmas with
  | [] => True
  | v :: vmas => lo <= v_start (va_e v) /\ area_ok v /\ ascending (v_end (va_e v)) vmas
  end.

Lemma slot_pos v : area_ok v -> 0 < slot v.
Proof. intros ((?&?&?&?&?)&?). unfold slot, guard in *. destruct (vma_has_guard_gap_hidden env v); plia. Qed.

Lemma taken_nonneg lo prev vmas : ascending lo vmas -> 0 <= taken prev vmas.
Proof.
  revert lo prev. induction vmas as [|v vmas IH]; intros lo prev; cbn; [done|]. intros (_ & Hv & Ha).
  specialize (IH _ (Some (v_end (va_e v))) Ha). pose proof (slot_pos v Hv). destruct (premaps prev v); lia.
Qed.
End Layout.

(** ** One area *)
Section One.
Context {RK : ReadKernel} {MK : MmKernel} `{!MmKernelOk MK} `{!MmKernelLive MK}.
Hypothesis Hmalloc : forall t, k_xmalloc t = true.
Variable env : rst_env.
Variable open_area : clock -> Z.
Hypothesis Hopen : forall t, 0 <= open_area t.
Variable pvmas : list vma_area.

(** where the pages of an inherited area are *)
Definition source (v : vma_area) : option Z :=
  match pvma v with
  | ParentArea j => (fun p => premmaped_addr p - guard env v) <$> pvmas !! j
  | _ => None
  end.

Definition map_flags (v : vma_area) : Z :=
  Z.lor (Z.lor (v_flags (va_e v)) MAP_FIXED) (if vma_entry_is (va_e v) VMA_AREA_AIORING then MAP_ANONYMOUS else 0).

(** what is at [tgt] after [v] was mapped there, when the address space was [s0] *)
Definition placed (s0 s : aspace) (v : vma_area) (tgt : Z) : Prop :=
  match source v with
  | Some a => forall i, 0 <= i < slot env v ->
      as_mem s (tgt + i) = as_mem s0 (a + i) /\ as_prot s (tgt + i) = as_prot s0 (a + i)
  | None => exists t, forall i, 0 <= i < slot env v ->
      as_mem s (tgt + i) = k_content t (map_flags v) i /\ as_prot s (tgt + i) = Some (Z.lor (v_prot (va_e v)) PROT_WRITE)
  end.

(** an area can be mapped at [tgt]: its file can be opened, or the parent's area is there and elsewhere *)
Definition mappable (s : aspace) (v : vma_area) (lo hi : Z) : Prop :=
  match pvma v with
  | ParentArea _ => exists a, source v = Some a /\ 0 <= a /\ a + slot env v <= TASK_SIZE /\ mapped s a (slot env v) /\
      (a + slot env v <= lo \/ hi <= a)
  | _ => vma_area_is v VMA_FILE_PRIVATE = true -> vm_open v = true
  end.

Definition in_source (v : vma_area) (a : Z) : Prop :=
  match source v with Some b => b <= a < b + slot env v | None => False end.

Lemma has_fixed f g : has (Z.lor (Z.lor f MAP_FIXED) g) MAP_FIXED = true.
Proof. change MAP_FIXED with (Z.shiftl 1 4). rewrite has_bit by lia. rewrite !Z.lor_spec. change (Z.testbit (Z.shiftl 1 4) 4) with true. by rewrite orb_true_r. Qed.

Lemma not_err a : 0 <= a < TASK_SIZE -> IS_ERR a = false /\ (a =? MAP_FAILED) = false.
Proof. unfold IS_ERR, TASK_SIZE, MAP_FAILED. intros. split; [apply Z.leb_gt; lia|apply Z.eqb_neq; lia]. Qed.

Lemma mmap_fixed_run tgt len prot f g t s :
  0 <= tgt < TASK_SIZE -> tgt + len <= TASK_SIZE ->
  mmap tgt len prot (Z.lor (Z.lor f MAP_FIXED) g) (t, s) =
    (tgt, (S t, map_at s tgt len prot (k_content t (Z.lor (Z.lor f MAP_FIXED) g)))).
Proof.
  intros H1 H2. unfold mmap, sys_mmap. rewrite mmap_fixed_ok by (apply has_fixed || lia). by rewrite (proj1 (not_err tgt H1)).
Qed.

Lemma premap_size v : area_ok env v ->
  vma_entry_len (va_e (if vma_has_guard_gap_hidden env v then set_e v (set_start (va_e v) (u64 (v_start (va_e v) - PAGE_SIZE))) else v)) = slot env v.
Proof.
  intros ((H1&H2&H3&H4&H5)&H6). unfold slot, guard in *. unfold TASK_SIZE in *. destruct (vma_has_guard_gap_hidden env v).
  - unfold vma_entry_len. cbn. rewrite (u64_id (_ - PAGE_SIZE)), u64_id; plia.
  - unfold vma_entry_len. rewrite u64_id; lia.
Qed.

Lemma area_bits v : area_ok env v -> vma_entry_len (va_e v) = v_end (va_e v) - v_start (va_e v).
Proof. intros ((H1&H2&H3&H4&H5)&H6). unfold vma_entry_len, TASK_SIZE in *. apply u64_id. lia. Qed.

(** the record that is left, once the area is at [tgt] *)
Lemma premapped_record v tgt :
  area_ok env v -> 0 <= tgt -> tgt + slot env v <= TASK_SIZE ->
  let g := vma_has_guard_gap_hidden env v in
  let b := set_bitmap v (zero_bitmap v) in
  let v1 := if g then set_e b (set_start (va_e b) (u64 (v_start (va_e b) - PAGE_SIZE))) else b in
  let e := add_status (va_e v1) VMA_PREMMAPED in
  let e := if g then set_start e (u64 (v_start e + PAGE_SIZE)) else e in
  mk_varea e (pvma v1) (page_bitmap v1) (if g then u64 (tgt + PAGE_SIZE) else tgt)
           (if vma_entry_is e VMA_FILE_PRIVATE then false else vm_open v1) = premapped_at env v tgt.
Proof.
  intros ((H1&H2&H3&H4&H5)&H6) Ht Hs. cbv zeta. unfold premapped_at, slot, guard in *. unfold TASK_SIZE in *.
  destruct (vma_has_guard_gap_hidden env v); cbn.
  - rewrite (u64_id (v_start (va_e v) - PAGE_SIZE)) by plia. rewrite (u64_id (v_start (va_e v) - PAGE_SIZE + PAGE_SIZE)), (u64_id (tgt + PAGE_SIZE)) by plia.
    replace (v_start (va_e v) - PAGE_SIZE + PAGE_SIZE) with (v_start (va_e v)) by lia. by destruct v as [[] ? ? ? ?].
  - by rewrite Z.add_0_r.
Qed.

(** what the mapping leaves as it is *)
Definition framed (s s' : aspace) (v : vma_area) (tgt : Z) : Prop :=
  forall a, ~ (tgt <= a < tgt + slot env v) ->
    as_mem s' a = as_mem s a /\ (~ in_source v a -> as_prot s' a = as_prot s a).

(** [v1]: the area while it is mapped, with its guard page *)
Definition same_kind (v1 v : vma_area) : Prop :=
  v_prot (va_e v1) = v_prot (va_e v) /\ v_flags (va_e v1) = v_flags (va_e v) /\
  v_status (va_e v1) = v_status (va_e v) /\ vm_open v1 = vm_open v.

Lemma map_new_ok s v v1 tgt t :
  same_kind v1 v -> 0 <= tgt < TASK_SIZE -> tgt + slot env v <= TASK_SIZE -> source v = None ->
  (vma_area_is v VMA_FILE_PRIVATE = true -> vm_open v = true) ->
  exists t' s', map_new_area open_area v1 (slot env v) tgt (t, s) = Done (Some tgt, (t', s')) /\
    placed s s' v tgt /\ framed s s' v tgt.
Proof.
  intros (E1 & E2 & E3 & E4) Ht Hs Hsrc Hop. unfold map_new_area, vma_area_is, vma_entry_is in *. rewrite E1, E2, E3, E4.
  set (ops := negb _ && _). assert (Ho : ops && negb (vm_open v) = false).
  { subst ops. destruct (vm_open v); [by rewrite andb_false_r|].
    destruct (Z.land (v_status (va_e v)) VMA_FILE_PRIVATE =? VMA_FILE_PRIVATE); [by specialize (Hop eq_refl)|].
    by rewrite andb_false_r. }
  rewrite Ho, (proj2 (Z.ltb_ge _ _)), andb_false_r, mmap_fixed_run by (lia || apply Hopen).
  rewrite (proj2 (not_err tgt ltac:(lia))). eexists _, _. split; [done|]. split.
  - unfold placed. rewrite Hsrc. eexists. intros i Hi. cbn. rewrite (proj2 (within_true _ _ _)) by lia.
    split; [f_equal; lia|done].
  - intros a Ha. cbn. by rewrite (proj2 (within_false _ _ _)).
Qed.

Lemma map_inherited_ok s v j p tgt t :
  pvma v = ParentArea j -> pvmas !! j = Some p -> 0 < slot env v -> 0 <= tgt < TASK_SIZE -> mappable s v tgt (tgt + slot env v) ->
  exists t' s', map_inherited_area p (vma_has_guard_gap_hidden env v) (slot env v) tgt (t, s) = (Some tgt, (t', s')) /\
    placed s s' v tgt /\ framed s s' v tgt.
Proof.
  intros Ev Hp Hpos Ht Hm. unfold mappable in Hm. rewrite Ev in Hm. destruct Hm as (a & Hsrc & Ha0 & Hal & Hmap & Hdis).
  pose proof Hsrc as Hsrc'. unfold source in Hsrc'. rewrite Ev, Hp in Hsrc'. injection Hsrc' as Hpa. unfold map_inherited_area.
  assert (Hpad : (if vma_has_guard_gap_hidden env v then u64 (premmaped_addr p - PAGE_SIZE) else premmaped_addr p) = a).
  { unfold guard in Hpa. destruct (vma_has_guard_gap_hidden env v); [rewrite u64_id; [done|]|lia].
    unfold TASK_SIZE in *. lia. }
  rewrite Hpad. unfold sys_mremap. rewrite mremap_ok by (done || lia). rewrite (proj1 (not_err tgt ltac:(lia))), Z.eqb_refl.
  cbn [negb]. eexists _, _. split; [done|]. split.
  - unfold placed. rewrite Hsrc. intros i Hi. cbn. rewrite (proj2 (within_true _ _ _)) by lia.
    by replace (a + (tgt + i - tgt)) with (a + i) by lia.
  - intros c Hc. cbn. rewrite (proj2 (within_false tgt _ _)) by done. split; [done|]. unfold in_source. rewrite Hsrc. intros Hin.
    by rewrite (proj2 (within_false a _ _)).
Qed.

Lemma premap_one s v tgt t :
  area_ok env v -> 0 <= tgt -> tgt + slot env v <= TASK_SIZE -> mappable s v tgt (tgt + slot env v) ->
  exists t' s', premap_private_vma env open_area pvmas v tgt t s = Done (0, premapped_at env v tgt, tgt + slot env v, (t', s')) /\
    placed s s' v tgt /\ framed s s' v tgt.
Proof.
  intros Hv Ht Hs Hm. pose proof (slot_pos env v Hv) as Hpos. unfold premap_private_vma. rewrite Hmalloc. cbn [negb].
  rewrite (area_bits v Hv). fold (zero_bitmap v). set (b := set_bitmap v (zero_bitmap v)).
  change (vma_has_guard_gap_hidden env b) with (vma_has_guard_gap_hidden env v).
  pose proof (premap_size b Hv) as Hsz.
  change (vma_has_guard_gap_hidden env b) with (vma_has_guard_gap_hidden env v) in Hsz. rewrite Hsz.
  pose proof (premapped_record v tgt Hv Ht Hs) as Hrec. cbv zeta in Hrec. fold b in Hrec.
  set (v1 := if vma_has_guard_gap_hidden env v then _ else b) in *. change (slot env b) with (slot env v).
  assert (E : pvma v1 = pvma v /\ same_kind v1 v) by (unfold same_kind; subst v1; by destruct (vma_has_guard_gap_hidden env v)).
  destruct E as [E1 Ek]. assert (Hu : u64 (tgt + slot env v) = tgt + slot env v) by (apply u64_id; unfold TASK_SIZE in *; lia).
  assert (Hend : exists t' s', match pvma v1 with
      | ParentArea j => let* p := deref (pvmas !! j) in Done (map_inherited_area p (vma_has_guard_gap_hidden env v) (slot env v) tgt (S t, s))
      | _ => map_new_area open_area v1 (slot env v) tgt (S t, s)
      end = Done (Some tgt, (t', s')) /\ placed s s' v tgt /\ framed s s' v tgt).
  { rewrite E1. pose proof Hm as Hm'. unfold mappable in Hm'. destruct (pvma v) as [| |j] eqn:Ev.
    1,2: apply map_new_ok; try done; try lia; unfold source; by rewrite Ev.
    destruct Hm' as (a & Hsrc & _). unfold source in Hsrc. rewrite Ev in Hsrc. destruct (pvmas !! j) as [p|] eqn:Hp; [|done].
    cbn [deref rbind]. destruct (map_inherited_ok s v j p tgt (S t)) as (t' & s' & -> & ?); try done; [lia|]. by exists t', s'. }
  destruct Hend as (t' & s' & -> & Hpl & Hfr). cbn [rbind]. exists t', s'. by rewrite Hrec, Hu.
Qed.

(** ** All the areas *)
Variable ok : bool.

Fixpoint all_placed (s0 s : aspace) (prev : option Z) (tgt : Z) (vmas : list vma_area) : Prop :=
  match vmas with
  | [] => True
  | v :: vmas =>
    (premaps env ok prev v = true -> placed s0 s v tgt) /\
    all_placed s0 s (Some (v_end (va_e v))) (if premaps env ok prev v then tgt + slot env v else tgt) vmas
  end.

(** what is to be mapped can be, in [lo, hi) *)
Fixpoint sources_ok (s : aspace) (prev : option Z) (lo hi : Z) (vmas : list vma_area) : Prop :=
  match vmas with
  | [] => True
  | v :: vmas =>
    (premaps env ok prev v = true -> mappable s v lo hi /\ forall w a, w ∈ vmas -> in_source v a -> ~ in_source w a) /\
    sources_ok s (Some (v_end (va_e v))) lo hi vmas
  end.

Lemma mappable_mono s v lo hi lo' hi' : lo <= lo' -> hi' <= hi -> mappable s v lo hi -> mappable s v lo' hi'.
Proof. unfold mappable. destruct (pvma v); [done|done|]. intros ? ? (a & ? & ? & ? & ? & ?). exists a. split_and!; try done. lia. Qed.

Lemma mappable_outside s v lo hi a : mappable s v lo hi -> in_source v a -> a < lo \/ hi <= a.
Proof.
  unfold mappable, in_source, source. destruct (pvma v); [done|done|]. intros (b & -> & _ & _ & _ & ?) ?. lia.
Qed.

Lemma sources_ok_ext s s1 prev lo hi vmas :
  (forall w a, w ∈ vmas -> in_source w a -> a < lo \/ hi <= a -> as_prot s1 a = as_prot s a) ->
  sources_ok s prev lo hi vmas -> sources_ok s1 prev lo hi vmas.
Proof.
  revert prev. induction vmas as [|v vmas IH]; intros prev Hx; cbn; [done|]. intros [H1 H2]. split.
  - intros Hp. destruct (H1 Hp) as [Hm Hd]. split; [|done]. pose proof (mappable_outside s v lo hi) as Hout.
    unfold mappable, in_source in *. destruct (pvma v) eqn:Ev; [done|done|].
    destruct Hm as (a & Hs & Ha1 & Ha2 & Hmp & Hd'). exists a. split_and!; try done.
    intros b Hb. rewrite (Hx v b); [by apply Hmp|apply list_elem_of_here|by rewrite Hs|lia].
  - apply IH; [|done]. intros w a Hw. apply Hx. by apply list_elem_of_further.
Qed.

Lemma placed_ext s s1 s' v tgt :
  (forall a, in_source v a -> as_mem s1 a = as_mem s a /\ as_prot s1 a = as_prot s a) -> placed s1 s' v tgt -> placed s s' v tgt.
Proof.
  unfold placed, in_source. destruct (source v) as [b|]; [|done]. intros Hx Hp i Hi. destruct (Hx (b + i) ltac:(lia)) as [<- <-]. by apply Hp.
Qed.

Lemma placed_after s0 s s' v tgt :
  (forall a, tgt <= a < tgt + slot env v -> as_mem s' a = as_mem s a /\ as_prot s' a = as_prot s a) -> placed s0 s v tgt -> placed s0 s' v tgt.
Proof.
  unfold placed. intros Hx Hp. destruct (source v) as [b|].
  - intros i Hi. destruct (Hx (tgt + i) ltac:(lia)) as [-> ->]. by apply Hp.
  - destruct Hp as [t Hp]. exists t. intros i Hi. destruct (Hx (tgt + i) ltac:(lia)) as [-> ->]. by apply Hp.
Qed.

Lemma all_placed_ext s s1 s' prev lo hi tgt vmas :
  (forall w a, w ∈ vmas -> in_source w a -> a < lo \/ hi <= a -> as_mem s1 a = as_mem s a /\ as_prot s1 a = as_prot s a) ->
  sources_ok s1 prev lo hi vmas -> all_placed s1 s' prev tgt vmas -> all_placed s s' prev tgt vmas.
Proof.
  revert prev tgt. induction vmas as [|v vmas IH]; intros prev tgt Hx; cbn; [done|]. intros [S1 S2] [H1 H2]. split.
  - intros Hp. eapply placed_ext; [|by apply H1]. intros a Ha. eapply Hx; [apply list_elem_of_here|done|].
    eapply mappable_outside; [by apply S1|done].
  - eapply IH; [|done|done]. intros w a Hw. apply Hx. by apply list_elem_of_further.
Qed.

Lemma sources_outside s prev lo hi v vmas a :
  sources_ok s prev lo hi vmas -> v ∈ vmas -> (forall w, w ∈ vmas -> vma_inherited w = true -> vma_area_is_private w (task_size env) = true) ->
  in_source v a -> a < lo \/ hi <= a.
Proof.
  revert prev. induction vmas as [|w vmas IH]; intros prev Hs Hv Hpr Ha; [by apply elem_of_nil in Hv|]. destruct Hs as [H1 H2].
  apply elem_of_cons in Hv as [->|Hv]; [|eapply IH; [done|done|intros ? ?; apply Hpr; by apply list_elem_of_further|done]].
  eapply mappable_outside; [|done]. apply H1. unfold premaps. specialize (Hpr w ltac:(apply list_elem_of_here)).
  unfold vma_inherited in Hpr. unfold in_source, source in Ha. destruct (pvma w) eqn:Ew; [done|done|]. rewrite (Hpr eq_refl).
  by rewrite bool_decide_false.
Qed.

(** what the mapping of all of them leaves as it is *)
Definition frame (s s' : aspace) (lo hi : Z) (vmas : list vma_area) : Prop :=
  forall a, ~ (lo <= a < hi) ->
    as_mem s' a = as_mem s a /\ ((forall v, v ∈ vmas -> ~ in_source v a) -> as_prot s' a = as_prot s a).

Definition reader_ready (pr : page_read) (a : Z) : Prop :=
  pm_ok pr /\ (ok = true -> exists k p, stands pr k p /\ before_all pr k a).

Lemma ascending_private_prev lo vmas : ascending env lo vmas -> forall lo', lo' <= lo -> ascending env lo' vmas.
Proof. destruct vmas as [|v vmas]; [done|]. intros (H1 & H2 & H3) lo' Hl. cbn. split_and!; try done; lia. Qed.

Lemma before_all_mono pr k a b : a <= b -> before_all pr k a -> before_all pr k b.
Proof. intros Hab H i p Hi Hp. specialize (H i p Hi Hp). lia. Qed.

Lemma laid_out_same pr pr' prev tgt vmas l : pmes pr' = pmes pr -> laid_out env ok pr' prev tgt vmas l -> laid_out env ok pr prev tgt vmas l.
Proof.
  intros Hp. revert prev tgt l. induction vmas as [|v vmas IH]; intros prev tgt [|v' l]; cbn; try done.
  intros [H1 H2]. split; [|by apply IH]. destruct (premaps env ok prev v); [done|]. unfold untouched in *. by rewrite Hp in H1.
Qed.

Definition loop_post (acc vmas : list vma_area) (prev : option Z) (tgt : Z) (pr : page_read) (s : aspace)
    (out : res (Z * list vma_area * Z * page_read * astate)) : Prop :=
  exists l pr' t' s',
    out = Done (0, acc ++ l, tgt + taken env ok prev vmas, pr', (t', s')) /\
    laid_out env ok pr prev tgt vmas l /\ same_img pr pr' /\ all_placed s s' prev tgt vmas /\
    frame s s' tgt (tgt + taken env ok prev vmas) vmas.

(** an area that is not premapped *)
Lemma loop_post_skip acc v v' vmas prev tgt pr pr1 s out :
  premaps env ok prev v = false -> same_img pr pr1 ->
  v' = v \/ v' = set_e v (add_status (va_e v) VMA_NO_PROT_WRITE) /\ untouched pr (va_e v) ->
  loop_post (acc ++ [v']) vmas (Some (v_end (va_e v))) tgt pr1 s out -> loop_post acc (v :: vmas) prev tgt pr s out.
Proof.
  intros Hp Hsame Hv' (l & pr' & t' & s' & -> & H1 & H2 & H3 & H4). exists (v' :: l), pr', t', s'.
  cbn [taken laid_out all_placed]. rewrite Hp, <-app_assoc, Z.add_0_l. split_and!; try done.
  - eapply laid_out_same; [|done]. apply Hsame.
  - by etrans.
  - intros a Ha. destruct (H4 a Ha) as [Hm Hpr]. split; [done|]. intros Hn. apply Hpr. intros w Hw. apply Hn. by apply list_elem_of_further.
Qed.

(** an area that is, with what comes after it *)
Lemma loop_post_premap acc v vmas prev tgt hi pr s s1 out :
  premaps env ok prev v = true -> 0 < slot env v -> 0 <= taken env ok (Some (v_end (va_e v))) vmas ->
  tgt + slot env v + taken env ok (Some (v_end (va_e v))) vmas <= hi ->
  placed s s1 v tgt -> framed s s1 v tgt -> sources_ok s prev tgt hi (v :: vmas) ->
  (forall w, w ∈ v :: vmas -> vma_inherited w = true -> vma_area_is_private w (task_size env) = true) ->
  loop_post (acc ++ [premapped_at env v tgt]) vmas (Some (v_end (va_e v))) (tgt + slot env v) pr s1 out ->
  loop_post acc (v :: vmas) prev tgt pr s out.
Proof.
  intros Hp Hpos Htn Hhi Hpl Hfr Hsrc Hinh (l & pr' & t' & s' & -> & H1 & H2 & H3 & H4).
  pose proof (fun w a Hw => sources_outside s prev tgt hi w (v :: vmas) a Hsrc Hw Hinh) as Hout.
  destruct Hsrc as [Hs1 Hs2]. destruct (Hs1 Hp) as [Hm Hdis].
  assert (Hmid : forall w a, w ∈ vmas -> in_source w a -> a < tgt \/ hi <= a -> as_mem s1 a = as_mem s a /\ as_prot s1 a = as_prot s a).
  { intros w a Hw Hin Ha. destruct (Hfr a ltac:(lia)) as [Hm1 Hp1]. split; [done|]. apply Hp1. intros Hv. by apply (Hdis w a). }
  exists (premapped_at env v tgt :: l), pr', t', s'.
  cbn [taken laid_out all_placed]. rewrite Hp, <-app_assoc, Z.add_assoc. split_and!; try done.
  - intros _. eapply placed_after; [|exact Hpl]. intros a Ha. destruct (H4 a ltac:(lia)) as [Hm' Hp']. split; [done|]. apply Hp'.
    intros w Hw Hin. specialize (Hout w a ltac:(by apply list_elem_of_further) Hin). lia.
  - eapply all_placed_ext; [|eapply sources_ok_ext; [|exact Hs2]|exact H3]; [exact Hmid|]. intros w a Hw Hin Ha. by apply (Hmid w a).
  - intros a Ha. destruct (Hfr a ltac:(lia)) as [F1 F2]. destruct (H4 a ltac:(lia)) as [G1 G2]. rewrite G1, F1. split; [done|].
    intros Hn. rewrite G2, F2; [done|apply Hn, list_elem_of_here|]. intros w Hw. apply Hn. by apply list_elem_of_further.
Qed.

Lemma sources_step s s1 prev v vmas tgt hi :
  premaps env ok prev v = true -> 0 <= slot env v -> tgt + slot env v <= hi -> framed s s1 v tgt -> sources_ok s prev tgt hi (v :: vmas) ->
  sources_ok s1 (Some (v_end (va_e v))) (tgt + slot env v) hi vmas.
Proof.
  intros Hp Hpos Hhi Hfr [Hs1 Hs2]. destruct (Hs1 Hp) as [Hm Hdis].
  assert (Hs : sources_ok s1 (Some (v_end (va_e v))) tgt hi vmas).
  { eapply sources_ok_ext; [|exact Hs2]. intros w a Hw Hin Ha. destruct (Hfr a ltac:(lia)) as [_ ->]; [done|]. intros Hv. by apply (Hdis w a). }
  revert Hs. generalize (Some (v_end (va_e v))). clear -Hpos Hhi. induction vmas as [|w vmas IH]; intros p; cbn; [done|].
  intros [H1 H2]. split; [|by apply IH]. intros Hp. destruct (H1 Hp) as [Hm Hd]. split; [|done]. eapply mappable_mono; [|done|exact Hm]. lia.
Qed.

Lemma premap_loop_ok vmas : forall acc prev pstart lo tgt pr t s hi,
  ascending env lo vmas -> pstart <= lo -> 0 <= tgt -> tgt + taken env ok prev vmas <= hi -> hi <= TASK_SIZE ->
  sources_ok s prev tgt hi vmas -> reader_ready pr lo ->
  (forall w, w ∈ vmas -> vma_inherited w = true -> vma_area_is_private w (task_size env) = true) ->
  loop_post acc vmas prev tgt pr s (premap_loop env open_area ok pvmas acc vmas prev pstart tgt pr (t, s)).
Proof.
  induction vmas as [|v vmas IH]; intros acc prev pstart lo tgt pr t s hi Hasc Hps Ht Htk Hhi Hsrc Hrd Hinh; cbn [premap_loop].
  { exists [], pr, t, s. cbn. rewrite app_nil_r, Z.add_0_r. split_and!; try done. }
  destruct Hasc as (Hlo & Hv & Hasc). cbn [taken] in Htk.
  pose proof Hv as ((V1 & V2 & V3 & V4 & V5) & V6). pose proof (taken_nonneg env ok _ (Some (v_end (va_e v))) vmas Hasc) as Htn.
  change (task_size_check (va_e v) =? 0) with true. cbn [negb]. rewrite (proj2 (Z.ltb_ge _ _)) by lia.
  assert (Hinh' : forall w, w ∈ vmas -> vma_inherited w = true -> vma_area_is_private w (task_size env) = true)
    by (intros w Hw; apply Hinh; by apply list_elem_of_further).
  assert (Hrd' : forall pr1, same_img pr pr1 -> (ok = true -> exists k p, stands pr1 k p /\ before_all pr1 k (v_start (va_e v))) ->
            reader_ready pr1 (v_end (va_e v))).
  { intros pr1 (Hs1 & _) Hst. destruct Hrd as [Hok _]. split; [unfold pm_ok; by rewrite Hs1|]. intros Hk.
    destruct (Hst Hk) as (k & p & ? & ?). exists k, p. split; [done|]. eapply before_all_mono; [|done]. lia. }
  assert (Hst0 : ok = true -> exists k p, stands pr k p /\ before_all pr k (v_start (va_e v))).
  { intros Hk. destruct Hrd as [_ Hst]. destruct (Hst Hk) as (k & p & ? & ?). exists k, p. split; [done|]. eapply before_all_mono; [|done]; lia. }
  destruct (premaps env ok prev v) eqn:Epm.
  - pose proof (slot_pos env v Hv) as Hpos. pose proof Epm as Epm'. unfold premaps in Epm'.
    apply andb_true_iff in Epm' as [-> Epm'%negb_true_iff]. cbn [negb]. rewrite Epm'.
    pose proof Hsrc as [Hs1 _]. destruct (Hs1 Epm) as [Hm _].
    destruct (premap_one s v tgt t) as (t1 & s1 & Hrun & Hpl & Hfr); [done|done|lia|eapply mappable_mono; [| |exact Hm]; lia|].
    cbn [fst snd]. rewrite Hrun. cbn [rbind]. change (0 <? 0) with false. cbn iota.
    eapply loop_post_premap; [done|done|done| |exact Hpl|exact Hfr|exact Hsrc|done|]; [lia|].
    eapply (IH _ _ _ (v_end (va_e v)) _ _ _ _ hi); try done; try lia; [|by apply Hrd'].
    eapply sources_step; [done|lia| |done|done]. lia.
  - destruct Hsrc as [_ Hs2]. unfold premaps in Epm. destruct (vma_area_is_private v (task_size env)) eqn:Epr; cbn [negb andb] in *.
    + apply negb_false_iff in Epm as Ep0. rewrite Ep0. pose proof Epm as Ep. clear Epm. rename Ep0 into Epm. apply andb_true_iff in Epm as [Epm _]. apply andb_true_iff in Epm as [_ Hk].
      destruct (Hst0 Hk) as (k & p & Hst & Hba). destruct Hrd as [Hok _].
      destruct (no_prot_write_ok (S (length (pmes pr))) pr k p (va_e v) Hok Hst Hba ltac:(lia)) as (e' & pr1 & k1 & p1 & -> & Hsame & Hst1 & Hb1 & He').
      cbn [rbind]. eapply (loop_post_skip _ _ (set_e v e')); [|exact Hsame| |].
      * unfold premaps. by rewrite Epr, Ep.
      * destruct He' as [->|[-> Hu]]; [left; by destruct v|by right].
      * eapply (IH _ _ _ (v_end (va_e v)) _ _ _ _ hi); try done; try lia. apply Hrd'; [done|]. eauto.
    + eapply (loop_post_skip _ _ v); [by unfold premaps; rewrite Epr|done|by left|].
      eapply (IH _ _ _ (v_end (va_e v)) _ _ _ _ hi); try done; try lia. by apply Hrd'.
Qed.
End One.

(** ** By place in the list *)
Section Places.
Variable env : rst_env.
Variable ok : bool.

Fixpoint prev_end (prev : option Z) (vmas : list vma_area) (i : nat) : option Z :=
  match vmas, i with
  | v :: vmas, S i => prev_end (Some (v_end (va_e v))) vmas i
  | _, _ => prev
  end.

(** where the area at place [i] is mapped *)
Definition place (prev : option Z) (tgt : Z) (vmas : list vma_area) (i : nat) : Z := tgt + taken env ok prev (take i vmas).

Lemma place_S prev tgt v vmas i :
  place prev tgt (v :: vmas) (S i) =
  place (Some (v_end (va_e v))) (if premaps env ok prev v then tgt + slot env v else tgt) vmas i.
Proof. unfold place. cbn. destruct (premaps env ok prev v); lia. Qed.

Lemma laid_out_lookup pr vmas : forall prev tgt l i v,
  laid_out env ok pr prev tgt vmas l -> vmas !! i = Some v ->
  exists v', l !! i = Some v' /\
    if premaps env ok (prev_end prev vmas i) v then v' = premapped_at env v (place prev tgt vmas i)
    else v' = v \/ v' = set_e v (add_status (va_e v) VMA_NO_PROT_WRITE) /\ untouched pr (va_e v).
Proof.
  induction vmas as [|w vmas IH]; intros prev tgt [|w' l] i v; cbn [laid_out]; try done. intros [H1 H2] Hi.
  destruct i as [|i]; cbn [prev_end] in *.
  - injection Hi as ->. exists w'. split; [done|]. unfold place. cbn. rewrite Z.add_0_r. exact H1.
  - destruct (IH _ _ _ i v H2 Hi) as (v' & ? & ?). exists v'. split; [done|]. by rewrite place_S.
Qed.

Lemma laid_out_length pr prev tgt vmas l : laid_out env ok pr prev tgt vmas l -> length l = length vmas.
Proof. revert prev tgt l. induction vmas as [|w vmas IH]; intros prev tgt [|w' l]; cbn; try done. intros [_ H]. f_equal. by eapply IH. Qed.

Lemma all_placed_lookup {MK : MmKernel} pvmas s0 s vmas : forall prev tgt i v,
  all_placed env pvmas ok s0 s prev tgt vmas -> vmas !! i = Some v -> premaps env ok (prev_end prev vmas i) v = true ->
  placed env pvmas s0 s v (place prev tgt vmas i).
Proof.
  induction vmas as [|w vmas IH]; intros prev tgt i v; cbn [all_placed]; [done|]. intros [H1 H2] Hi Hp.
  destruct i as [|i]; cbn [prev_end] in *.
  - injection Hi as ->. unfold place. cbn. rewrite Z.add_0_r. by apply H1.
  - rewrite place_S. by eapply IH.
Qed.

(** the places do not overlap, and end where the reserved memory is used up to *)
Lemma place_before vmas : forall prev tgt lo i j v,
  ascending env lo vmas -> (i < j)%nat -> vmas !! i = Some v -> premaps env ok (prev_end prev vmas i) v = true ->
  place prev tgt vmas i + slot env v <= place prev tgt vmas j.
Proof.
  induction vmas as [|w vmas IH]; intros prev tgt lo i j v Ha Hij Hi Hp; [done|]. destruct Ha as (_ & Hw & Ha).
  destruct j as [|j]; [lia|]. destruct i as [|i]; cbn in Hi, Hp.
  - injection Hi as ->. rewrite place_S, Hp. unfold place. cbn.
    assert (0 <= taken env ok (Some (v_end (va_e v))) (take j vmas)); [|lia]. clear -Ha.
    revert Ha. generalize (v_end (va_e v)) at 1. generalize (Some (v_end (va_e v))). revert j. induction vmas as [|u vmas IH]; intros [|j] p lo Ha; cbn; try done.
    destruct Ha as (_ & Hu & Ha). pose proof (slot_pos env u Hu). specialize (IH j (Some (v_end (va_e u))) _ Ha). destruct (premaps env ok p u); lia.
  - rewrite !place_S. eapply IH; [done|lia|done|done].
Qed.

Lemma place_in vmas : forall prev tgt lo i v,
  ascending env lo vmas -> vmas !! i = Some v -> premaps env ok (prev_end prev vmas i) v = true ->
  tgt <= place prev tgt vmas i /\ place prev tgt vmas i + slot env v <= tgt + taken env ok prev vmas.
Proof.
  induction vmas as [|w vmas IH]; intros prev tgt lo i v Ha Hi Hp; [done|]. destruct Ha as (_ & Hw & Ha).
  pose proof (slot_pos env w Hw). pose proof (taken_nonneg env ok _ (Some (v_end (va_e w))) vmas Ha). destruct i as [|i]; cbn in Hi, Hp.
  - injection Hi as ->. unfold place. cbn. rewrite Hp. lia.
  - rewrite place_S. cbn. specialize (IH _ (if premaps env ok prev w then tgt + slot env w else tgt) _ i v Ha Hi Hp). destruct (premaps env ok prev w); lia.
Qed.

(** the places fill what is taken *)
Lemma place_packed vmas : forall prev tgt lo a,
  ascending env lo vmas -> tgt <= a < tgt + taken env ok prev vmas ->
  exists i v, vmas !! i = Some v /\ premaps env ok (prev_end prev vmas i) v = true /\ place prev tgt vmas i <= a < place prev tgt vmas i + slot env v.
Proof.
  induction vmas as [|w vmas IH]; intros prev tgt lo a Ha Ht; cbn [taken] in Ht; [lia|]. destruct Ha as (_ & Hw & Ha).
  destruct (premaps env ok prev w) eqn:Ep.
  - destruct (Z.lt_ge_cases a (tgt + slot env w)) as [Hlt|Hge].
    + exists 0%nat, w. split; [done|]. split; [done|]. unfold place. cbn. lia.
    + destruct (IH (Some (v_end (va_e w))) (tgt + slot env w) _ a Ha ltac:(lia)) as (i & v & Hi & Hp & Hpl).
      exists (S i), v. split; [done|]. split; [done|]. rewrite place_S, Ep. done.
  - destruct (IH (Some (v_end (va_e w))) tgt _ a Ha ltac:(lia)) as (i & v & Hi & Hp & Hpl).
    exists (S i), v. split; [done|]. split; [done|]. rewrite place_S, Ep. done.
Qed.

(** an area that grows down has a page to itself below it, when the kernel hides that page *)
Fixpoint gapped (lo : Z) (vmas : list vma_area) : Prop :=
  match vmas with
  | [] => True
  | v :: vmas => lo + guard env v <= v_start (va_e v) /\ gapped (v_end (va_e v)) vmas
  end.

(** then the places are not further apart than the addresses *)
Lemma place_bound vmas : forall prev tgt lo i v,
  ascending env lo vmas -> gapped lo vmas -> vmas !! i = Some v ->
  place prev tgt vmas i - tgt <= v_start (va_e v) - guard env v - lo.
Proof.
  induction vmas as [|w vmas IH]; intros prev tgt lo i v Ha Hg Hi; [done|]. destruct Ha as (_ & Hw & Ha), Hg as [Hg1 Hg2].
  destruct i as [|i].
  - injection Hi as ->. unfold place. cbn. lia.
  - rewrite place_S. specialize (IH (Some (v_end (va_e w))) (if premaps env ok prev w then tgt + slot env w else tgt) _ i v Ha Hg2 Hi).
    destruct Hw as ((?&?&_)&_). assert (0 <= guard env w) by (unfold guard; destruct (vma_has_guard_gap_hidden env w); plia).
    unfold slot in *. destruct (premaps env ok prev w); lia.
Qed.

Lemma place_shift vmas : forall prev tgt lo i j v w,
  ascending env lo vmas -> gapped lo vmas -> (i < j)%nat -> vmas !! i = Some v -> vmas !! j = Some w ->
  premaps env ok (prev_end prev vmas i) v = true ->
  place prev tgt vmas j + guard env w - (place prev tgt vmas i + guard env v) <= v_start (va_e w) - v_start (va_e v).
Proof.
  induction vmas as [|u vmas IH]; intros prev tgt lo i j v w Ha Hg Hij Hi Hj Hp; [done|]. destruct Ha as (_ & Hw & Ha), Hg as [Hg1 Hg2].
  destruct j as [|j]; [lia|]. destruct i as [|i]; cbn in Hi, Hj, Hp.
  - injection Hi as ->. rewrite place_S, Hp. pose proof (place_bound vmas (Some (v_end (va_e v))) (tgt + slot env v) _ j w Ha Hg2 Hj).
    unfold place at 2. cbn. unfold slot in *. lia.
  - rewrite !place_S. eapply IH; [done|done|lia|done..].
Qed.

(** ** What is reserved *)
Fixpoint private_size (vmas : list vma_area) : Z :=
  match vmas with
  | [] => 0
  | v :: vmas => (if vma_area_is_private v (task_size env) then slot env v else 0) + private_size vmas
  end.

Lemma private_size_nonneg lo vmas : ascending env lo vmas -> 0 <= private_size vmas.
Proof.
  revert lo. induction vmas as [|v vmas IH]; intros lo; cbn; [done|]. intros (_ & Hv & Ha). specialize (IH _ Ha).
  pose proof (slot_pos env v Hv). destruct (vma_area_is_private _ _); lia.
Qed.

Lemma taken_le lo prev vmas : ascending env lo vmas -> taken env ok prev vmas <= private_size vmas.
Proof.
  revert lo prev. induction vmas as [|v vmas IH]; intros lo prev; cbn; [done|]. intros (_ & Hv & Ha). specialize (IH _ (Some (v_end (va_e v))) Ha).
  pose proof (slot_pos env v Hv). unfold premaps. destruct (vma_area_is_private v (task_size env)); cbn [andb]; [|lia]. case_match; lia.
Qed.
End Places.

(** ** Reading the areas *)
Section Areas.
Context {RK : ReadKernel}.
Variable env : rst_env.
Variable collect : clock -> VmaEntry -> Z.
Hypothesis Hmalloc : forall t, k_xmalloc t = true.
Hypothesis Hcollect : forall t e, collect t e = 0.

Definition fresh_area (e : VmaEntry) : vma_area := mk_varea e NoPvma None 0 (has_callback e).

Lemma add_vma_ok l v : area_ok env v -> 0 <= rst_priv_size l -> rst_priv_size l + slot env v < 2 ^ 64 ->
  add_vma env l v = mk_vml (h l ++ [v]) (vml_nr l)
    (rst_priv_size l + if vma_area_is_private v (task_size env) then slot env v else 0).
Proof.
  intros ((H1&H2&H3&H4&H5)&H6) Hs Hlt. unfold add_vma, vma_area_len, vma_entry_len, slot, guard, TASK_SIZE in *. cbn.
  destruct (vma_area_is_private v (task_size env)); [|by rewrite Z.add_0_r].
  destruct (vma_has_guard_gap_hidden env v); do 2 f_equal.
  - rewrite (u64_id (v_end (va_e v) - v_start (va_e v))) by lia. rewrite (u64_id (rst_priv_size l + _)), u64_id; plia.
  - rewrite (u64_id (v_end (va_e v) - v_start (va_e v))), u64_id; lia.
Qed.

(** [lo]: where the areas before ended *)
Lemma mm_loop_ok es last : forall lo t l,
  ascending env lo (fresh_area <$> es) -> 0 <= rst_priv_size l ->
  rst_priv_size l + private_size env (fresh_area <$> es) < 2 ^ 48 -> 0 <= vml_nr l -> vml_nr l + Z.of_nat (length es) < 2 ^ 32 - 1 ->
  exists t', mm_loop env collect es last t l =
    (default 0 last, t', mk_vml (h l ++ (fresh_area <$> es))
       (vml_nr l + Z.of_nat (length es) + match last with Some _ => 1 | None => 0 end)
       (rst_priv_size l + private_size env (fresh_area <$> es))).
Proof.
  induction es as [|e es IH]; intros lo t l Ha Hs Hlt Hn Hnl.
  - destruct l as [hl n sz]. cbn in *. rewrite Hmalloc, app_nil_r. cbn [negb]. destruct last; cbn; eexists.
    + by rewrite u32_id, !Z.add_0_r by lia.
    + by rewrite !Z.add_0_r.
  - cbn [mm_loop]. rewrite Hmalloc. cbn [negb]. rewrite fmap_cons in *. destruct Ha as (_ & Hv & Ha). cbn [private_size] in Hlt.
    pose proof (slot_pos env _ Hv). pose proof (private_size_nonneg env _ _ Ha).
    assert (Hslot : slot env (fresh_area e) < 2 ^ 48).
    { destruct Hv as ((?&?&?&?&?)&?). unfold slot, guard, TASK_SIZE in *. destruct (vma_has_guard_gap_hidden env (fresh_area e)); plia. }
    assert (Hr : (if has_callback e then collect (S t) e else 0) = 0) by (destruct (has_callback e); [apply Hcollect|done]).
    rewrite Hr. change (negb (0 =? 0)) with false. cbn [length] in Hnl. fold (fresh_area e).
    assert (Hbnd : rst_priv_size l < 2 ^ 48) by (destruct (vma_area_is_private (fresh_area e) (task_size env)); lia).
    rewrite add_vma_ok by (cbn; done || lia). cbn [h vml_nr rst_priv_size]. rewrite u32_id by lia.
    destruct (IH (v_end (va_e (fresh_area e))) (S (S t)) (mk_vml (h l ++ [fresh_area e]) (vml_nr l + 1)
       (rst_priv_size l + (if vma_area_is_private (fresh_area e) (task_size env) then slot env (fresh_area e) else 0)))) as (t' & Hrun);
      cbn [h vml_nr rst_priv_size]; try done; try lia.
    { destruct (vma_area_is_private (fresh_area e) (task_size env)); lia. }
    assert (Hrun' : mm_loop env collect es last (S (S t)) (mk_vml (h l ++ [fresh_area e]) (vml_nr l + 1)
       (rst_priv_size l + (if vma_area_is_private (fresh_area e) (task_size env) then slot env (fresh_area e) else 0))) =
       (default 0 last, t', mk_vml (h l ++ fresh_area e :: (fresh_area <$> es))
         (vml_nr l + Z.of_nat (length (e :: es)) + match last with Some _ => 1 | None => 0 end)
         (rst_priv_size l + private_size env (fresh_area e :: (fresh_area <$> es))))).
    { rewrite Hrun. cbn [h vml_nr rst_priv_size private_size length]. rewrite <-app_assoc. cbn [app]. do 2 f_equal; lia. }
    exists t'. destruct last; exact Hrun'.
Qed.
End Areas.

Definition empty_list : vm_area_list := mk_vml [] 0 0.

Lemma prepare_mm_pid_ok {RK : ReadKernel} env collect es t :
  (forall t, k_xmalloc t = true) -> (forall t e, collect t e = 0) -> es <> [] ->
  ascending env 0 (fresh_area <$> es) -> private_size env (fresh_area <$> es) < 2 ^ 48 -> Z.of_nat (length es) < 2 ^ 32 - 1 ->
  exists t' l, prepare_mm_pid env collect (Some (inr es)) true None t empty_list = (0, t', l) /\
    h l = fresh_area <$> es /\ vml_nr l = Z.of_nat (length (h l)) /\ rst_priv_size l = private_size env (h l) /\
    forall ok prev, taken env ok prev (h l) <= rst_priv_size l.
Proof.
  intros Hm Hc Hne Ha Hs Hn. unfold prepare_mm_pid. cbn [negb]. destruct es as [|e es]; [done|].
  destruct (mm_loop_ok env collect Hm Hc (e :: es) None 0 t empty_list Ha ltac:(done) Hs ltac:(done) Hn) as (t' & ->).
  eexists _, _. split; [done|]. cbn [h vml_nr rst_priv_size empty_list app]. rewrite !Z.add_0_l, Z.add_0_r, length_fmap.
  split_and!; [done..|]. intros ok prev. by eapply taken_le.
Qed.


(** after the areas of a task were read from its mm image, their number and the memory to reserve for the private
    ones (with a page for each hidden guard) are right, and the premapping never needs more than that. *)
Theorem prepare_mm_pid_spec {RK : ReadKernel} env collect es t :
  (forall t, k_xmalloc t = true) -> (forall t e, collect t e = 0) -> es <> [] ->
  ascending env 0 (fresh_area <$> es) -> private_size env (fresh_area <$> es) < 2 ^ 48 -> Z.of_nat (length es) < 2 ^ 32 - 1 ->
  exists t' l, prepare_mm_pid env collect (Some (inr es)) true None t empty_list = (0, t', l) /\
    h l = fresh_area <$> es /\ vml_nr l = Z.of_nat (length (h l)) /\ rst_priv_size l = private_size env (h l) /\
    forall ok prev, taken env ok prev (h l) <= rst_priv_size l.
Proof. apply prepare_mm_pid_ok. Qed.

Definition demo_entry (start end_ flags : Z) : VmaEntry :=
  mk_vma (start * PAGE_SIZE) (end_ * PAGE_SIZE) 0 0 3 flags (Z.lor VMA_AREA_REGULAR VMA_ANON_PRIVATE).
Definition demo_env : rst_env := mk_env (2 ^ 47 - PAGE_SIZE) true false.
Definition demo_es : list VmaEntry := [demo_entry 3 5 0x22; demo_entry 10 12 0x122; demo_entry 20 21 0x22].

Lemma demo_ascending : ascending demo_env 0 (fresh_area <$> demo_es).
Proof. cbn. unfold area_ok, entry_ok, aligned, guard, TASK_SIZE, PAGE_SIZE. cbn. split_and!; (lia || done). Qed.

Lemma prepare_mm_pid_witness :
  exists t' l, @prepare_mm_pid demo_read_kernel demo_env (fun _ _ => 0) (Some (inr demo_es)) true None 0%nat empty_list = (0, t', l) /\
    h l = fresh_area <$> demo_es /\ vml_nr l = Z.of_nat (length (h l)) /\ rst_priv_size l = private_size demo_env (h l) /\
    forall ok prev, taken demo_env ok prev (h l) <= rst_priv_size l.
Proof.
  apply (@prepare_mm_pid_spec demo_read_kernel); [done|done|done|apply demo_ascending|vm_compute; reflexivity|vm_compute; reflexivity].
Defined.

(** the areas of an image of the old format are counted one too many, because the counter is incremented before the
    end of the image is noticed; the restorer is then told of one more area than there are. *)
Theorem old_image_counts_one_more {RK : ReadKernel} env collect es t rst_alloc :
  (forall t, k_xmalloc t = true) -> (forall t e, collect t e = 0) -> (forall t, rst_alloc t = true) ->
  ascending env 0 (fresh_area <$> es) -> private_size env (fresh_area <$> es) < 2 ^ 48 -> Z.of_nat (length es) < 2 ^ 32 - 1 ->
  exists t' l ta t2, prepare_mm_pid env collect (Some (inr [])) true (Some (es, 0)) t empty_list = (0, t', l) /\
    prepare_vmas rst_alloc (fun _ => true) l [] t' = (0, ta, t2) /\
    length (ta_vmas ta) = length es /\ ta_vmas_n ta = Z.of_nat (length es) + 1.
Proof.
  intros Hm Hc Hr Ha Hs Hn. unfold prepare_mm_pid. cbn [negb].
  destruct (mm_loop_ok env collect Hm Hc es (Some 0) 0 t empty_list Ha ltac:(done) Hs ltac:(done) Hn) as (t' & ->).
  assert (Hcopy : forall l t, exists es' t2, copy_vmas rst_alloc l t = (true, es', t2) /\ length es' = length l).
  { induction l as [|v l IH]; intros t0; cbn; [by eexists _, _|]. rewrite Hr. cbn [negb].
    destruct (IH (S t0)) as (es' & t2 & -> & Hl). eexists _, _. split; [done|]. cbn. by rewrite Hl. }
  destruct (Hcopy (fresh_area <$> es) t') as (es' & t2 & Hrun & Hl). eexists t', _, _, t2. split; [done|].
  unfold prepare_vmas. cbn [h empty_list app]. rewrite Hrun. cbn [negb prepare_vma_ios ta_vmas ta_vmas_n vml_nr]. split; [done|]. cbn [ta_vmas ta_vmas_n]. split; [by rewrite Hl, length_fmap|done].
Qed.

Lemma old_image_counts_one_more_witness :
  exists t' l ta t2,
    @prepare_mm_pid demo_read_kernel demo_env (fun _ _ => 0) (Some (inr [])) true (Some (demo_es, 0)) 0%nat empty_list = (0, t', l) /\
    prepare_vmas (fun _ => true) (fun _ => true) l [] t' = (0, ta, t2) /\
    length (ta_vmas ta) = 3%nat /\ ta_vmas_n ta = 4.
Proof.
  apply (@old_image_counts_one_more demo_read_kernel demo_env (fun _ _ => 0) demo_es 0%nat (fun _ => true));
    [done|done|done|apply demo_ascending|vm_compute; reflexivity|vm_compute; reflexivity].
Defined.

Lemma premap_priv_vmas_ok {RK : ReadKernel} {MK : MmKernel} `{!MmKernelOk MK} `{!MmKernelLive MK}
    env open_area pvmas ok vmas at_ hi pr t s :
  (forall t, k_xmalloc t = true) -> (forall t, 0 <= open_area t) ->
  ascending env 0 vmas -> 0 <= at_ -> at_ + taken env ok None vmas <= hi -> hi <= TASK_SIZE ->
  sources_ok env pvmas ok s None at_ hi vmas -> reader_ready ok pr 0 ->
  (forall w, w ∈ vmas -> vma_inherited w = true -> vma_area_is_private w (task_size env) = true) ->
  exists l pr' t' s',
    premap_priv_vmas env open_area ok pvmas vmas at_ pr (t, s) = Done (0, l, at_ + taken env ok None vmas, pr', (t', s')) /\
    length l = length vmas /\ same_img pr pr' /\
    (forall i v, vmas !! i = Some v -> exists v', l !! i = Some v' /\
       if premaps env ok (prev_end None vmas i) v
       then v' = premapped_at env v (place env ok None at_ vmas i) /\ placed env pvmas s s' v (place env ok None at_ vmas i) /\
            at_ <= place env ok None at_ vmas i /\ place env ok None at_ vmas i + slot env v <= at_ + taken env ok None vmas /\
            (forall j, (i < j)%nat -> place env ok None at_ vmas i + slot env v <= place env ok None at_ vmas j)
       else v' = v \/ v' = set_e v (add_status (va_e v) VMA_NO_PROT_WRITE) /\ untouched pr (va_e v)) /\
    frame env pvmas s s' at_ (at_ + taken env ok None vmas) vmas.
Proof.
  intros Hm Ho Ha Hat Htk Hhi Hs Hr Hi.
  destruct (premap_loop_ok Hm env open_area Ho pvmas ok vmas [] None 0 0 at_ pr t s hi) as (l & pr' & t' & s' & Hrun & H1 & H2 & H3 & H4); try done.
  exists l, pr', t', s'. split; [exact Hrun|]. split; [by eapply laid_out_length|]. split; [done|]. split; [|done].
  intros i v Hv. destruct (laid_out_lookup env ok pr vmas None at_ l i v H1 Hv) as (v' & Hv' & Hc). exists v'. split; [done|].
  destruct (premaps env ok (prev_end None vmas i) v) eqn:Ep; [|done]. split; [done|].
  split; [by eapply all_placed_lookup|]. destruct (place_in env ok vmas None at_ 0 i v Ha Hv Ep). split; [done|]. split; [done|].
  intros j Hj. by eapply place_before.
Qed.

(** C27: the premapping of a task's private areas succeeds; each premapped area gets a bit map of its pages and a place in the
    reserved memory, in order and without overlap (with its guard page, where the kernel hides one), where it holds what a
    new mapping holds, or what the parent's area held; the others are left in place, and one of them loses the write
    permission only if no entry of the pagemap touches it; the rest of memory stays as it was. *)
Theorem premap_priv_vmas_spec {RK : ReadKernel} {MK : MmKernel} `{!MmKernelOk MK} `{!MmKernelLive MK}
    env open_area pvmas ok vmas at_ hi pr t s :
  (forall t, k_xmalloc t = true) -> (forall t, 0 <= open_area t) ->
  ascending env 0 vmas -> 0 <= at_ -> at_ + taken env ok None vmas <= hi -> hi <= TASK_SIZE ->
  sources_ok env pvmas ok s None at_ hi vmas -> reader_ready ok pr 0 ->
  (forall w, w ∈ vmas -> vma_inherited w = true -> vma_area_is_private w (task_size env) = true) ->
  exists l pr' t' s',
    premap_priv_vmas env open_area ok pvmas vmas at_ pr (t, s) = Done (0, l, at_ + taken env ok None vmas, pr', (t', s')) /\
    length l = length vmas /\ same_img pr pr' /\
    (forall i v, vmas !! i = Some v -> exists v', l !! i = Some v' /\
       if premaps env ok (prev_end None vmas i) v
       then v' = premapped_at env v (place env ok None at_ vmas i) /\ placed env pvmas s s' v (place env ok None at_ vmas i) /\
            at_ <= place env ok None at_ vmas i /\ place env ok None at_ vmas i + slot env v <= at_ + taken env ok None vmas /\
            (forall j, (i < j)%nat -> place env ok None at_ vmas i + slot env v <= place env ok None at_ vmas j)
       else v' = v \/ v' = set_e v (add_status (va_e v) VMA_NO_PROT_WRITE) /\ untouched pr (va_e v)) /\
    frame env pvmas s s' at_ (at_ + taken env ok None vmas) vmas.
Proof. apply premap_priv_vmas_ok. Qed.

(** an area, a stack right after it, and one that the pagemap does not touch *)
Definition demo_vmas : list vma_area :=
  fresh_area <$> [demo_entry 3 5 0x22; demo_entry 5 7 0x122; demo_entry 20 21 0x22].
Definition demo_reader : page_read :=
  snd (advance (mk_pr None 0 0 (mk_iovec 0 0) [page 4 3 PE_PRESENT; page 30 1 PE_PRESENT] (-1) [] (fun i => i mod 256) 1 1)).
Definition demo_space : aspace := mk_as (fun _ => 0) (fun _ => None).

Lemma demo_reader_ready : reader_ready true demo_reader 0.
Proof.
  split.
  - split; [|by repeat constructor].
    repeat constructor; unfold pe_end; cbn; unfold PAGE_SIZE; (lia || done).
  - intros _. exists 0%nat, (page 4 3 PE_PRESENT). split; [by split_and!; try left|]. intros i p Hi. lia.
Qed.

Lemma premap_priv_vmas_witness :
  exists l pr' t' s',
    @premap_priv_vmas demo_read_kernel demo_mm_kernel demo_env (fun _ => 0) true [] demo_vmas 0x100000 demo_reader (0%nat, demo_space) =
      Done (0, l, 0x100000 + 3 * PAGE_SIZE, pr', (t', s')) /\
    l !! 0%nat = demo_vmas !! 0%nat /\ (premmaped_addr <$> l !! 1%nat) = Some (0x100000 + PAGE_SIZE) /\
    untouched demo_reader (demo_entry 20 21 0x22).
Proof.
  destruct (@premap_priv_vmas_spec demo_read_kernel demo_mm_kernel _ _ demo_env (fun _ => 0) [] true demo_vmas 0x100000 (0x100000 + 3 * PAGE_SIZE)
              demo_reader 0%nat demo_space) as (l & pr' & t' & s' & Hrun & Hlen & _ & Hl & _).
  - done.
  - done.
  - cbn. unfold area_ok, entry_ok, aligned, guard, TASK_SIZE, PAGE_SIZE. cbn. split_and!; (lia || done).
  - lia.
  - vm_compute. congruence.
  - vm_compute. congruence.
  - cbn. split_and!; try done; intros _; (split; [by intros ?|]); intros w a Hw Hin; by cbn in Hin.
  - apply demo_reader_ready.
  - intros w Hw. unfold demo_vmas in Hw. apply list_elem_of_fmap in Hw as (e & -> & _). done.
  - exists l, pr', t', s'. split; [exact Hrun|].
    destruct (Hl 0%nat _ eq_refl) as (v0 & H0 & Hv0). destruct (Hl 1%nat _ eq_refl) as (v1 & H1 & Hv1). rewrite H0, H1.
    change (premaps demo_env true (prev_end None demo_vmas 0) (fresh_area (demo_entry 3 5 0x22))) with false in Hv0.
    change (premaps demo_env true (prev_end None demo_vmas 1) (fresh_area (demo_entry 5 7 0x122))) with true in Hv1. cbn iota in Hv0, Hv1.
    split; [|split].
    + destruct Hv0 as [->|[_ Hu]]; [done|]. exfalso. destruct (Hu (page 4 3 PE_PRESENT)) as [Hx|Hx]; [apply list_elem_of_here|by vm_compute in Hx..].
    + destruct Hv1 as [-> _]. vm_compute. reflexivity.
    + intros p Hp. cbn in Hp. apply elem_of_cons in Hp as [->|Hp]; [left; by vm_compute|].
      apply elem_of_cons in Hp as [->|Hp]; [right; by vm_compute|by apply elem_of_nil in Hp].
Defined.
End Premap.
