(* ===== verification/Content.v ===== *)
(** * The contents of private memory: what [restore_priv_vma_content] (criu/mem.c) does

    Every page that the pagemap has ends up with the bytes of the first snapshot that has it: read at once, queued and
    read at the end, left to the restorer, or found to be what the parent already has.  Pages of the parent that the child
    does not have are dropped. *)
From S2P Require Import Prelude.
From S2P Require Import Bitmap.
From S2P Require Import Vma.
From S2P Require Import AddrSpace.
From S2P Require Import Pagemap.
From S2P Require Import MemRestore.

Module Content.
Export MemRestore.

Abbreviation vstart v := (v_start (va_e v)) (only parsing).
Abbreviation vend v := (v_end (va_e v)) (only parsing).

Definition pages_of (v : vma_area) : Z := (vend v - vstart v) / PAGE_SIZE.
Definition in_area (v : vma_area) (a : Z) : Prop := vstart v <= a < vend v.
Definition premapped (v : vma_area) : bool := vma_area_is v VMA_PREMMAPED.

(** where the byte at address [a] of a premapped area is *)
Definition tmp_addr (v : vma_area) (a : Z) : Z := premmaped_addr v + (a - vstart v).
Definition in_tmp (v : vma_area) (b : Z) : Prop := premmaped_addr v <= b < premmaped_addr v + (vend v - vstart v).

Definition entry_ok (e : VmaEntry) : Prop :=
  0 <= v_start e /\ v_start e < v_end e /\ v_end e < TASK_SIZE /\ aligned (v_start e) /\ aligned (v_end e) /\
  (v_end e - v_start e) / PAGE_SIZE < 2 ^ 31.

(** a bit map for [n] pages *)
Definition bitmap_for (n : Z) (b : list Z) : Prop := words_ok b /\ n <= BITS_PER_LONG * Z.of_nat (length b).

Section Setting.
Variable env : rst_env.
(** the areas, those of the parent, the reader, the page on the stack *)
Variables (vs pvs : list vma_area) (chain : list page_read) (buf : Z).

Record setting : Prop := {
  st_entry : forall v, v ∈ vs -> entry_ok (va_e v);
  st_order : forall i j v w, (i < j)%nat -> vs !! i = Some v -> vs !! j = Some w -> vend v <= vstart w;
  st_tmp : forall v, v ∈ vs -> premapped v = true ->
    0 <= premmaped_addr v /\ premmaped_addr v + (vend v - vstart v) <= TASK_SIZE /\
    exists b, page_bitmap v = Some b /\ bitmap_for (pages_of v) b;
  st_disjoint : forall i j v w b, vs !! i = Some v -> vs !! j = Some w -> premapped v = true -> premapped w = true ->
    in_tmp v b -> in_tmp w b -> i = j;
  st_buf : forall v b, v ∈ vs -> premapped v = true -> in_tmp v b -> ~ (buf <= b < buf + PAGE_SIZE);
  st_parent : forall v j, v ∈ vs -> pvma v = ParentArea j -> premapped v = true ->
    exists p b, pvs !! j = Some p /\ page_bitmap p = Some b /\ bitmap_for (pages_of v) b;
  st_inherited : forall v, v ∈ vs -> vma_inherited v = true -> premapped v = true;
  st_inherit : forall i i' v w j, vs !! i = Some v -> vs !! i' = Some w -> premapped v = true -> premapped w = true ->
    pvma v = ParentArea j -> pvma w = ParentArea j -> i = i';
}.

(** what the entry describes is restored now, and can be: each byte is in a private area, which is premapped or can be read in
    place by the restorer *)
Definition skipped (e : PagemapEntry) : bool := lazy_pages env && pagemap_lazy e.
Definition restorable (e : PagemapEntry) : Prop :=
  resolvable chain (vaddr e) (nr_pages e * PAGE_SIZE) /\
  forall a, covers e a -> exists v, v ∈ vs /\ in_area v a /\ vma_area_is_private v (task_size env) = true /\
    (premapped v = true \/ has (v_status (va_e v)) VMA_NO_PROT_WRITE = false /\ exists pr, chain = [pr]).

(** *** The memory to come *)
Definition ref (a : Z) : Z := default 0 (ref_byte chain a).

(** what is to be at [b] in the temporary place, once the page is read *)
Fixpoint tmp_find (l : list vma_area) (b : Z) : Z :=
  match l with
  | [] => 0
  | v :: l => if premapped v && within (premmaped_addr v) (vend v - vstart v) b
              then ref (vstart v + (b - premmaped_addr v)) else tmp_find l b
  end.
Definition tmp_mem : Z -> Z := tmp_find vs.

Lemma tmp_find_at l v a :
  (forall i j v w b, l !! i = Some v -> l !! j = Some w -> premapped v = true -> premapped w = true ->
    in_tmp v b -> in_tmp w b -> i = j) ->
  v ∈ l -> premapped v = true -> in_area v a -> tmp_find l (tmp_addr v a) = ref a.
Proof.
  intros Hd Hv Hp Ha. assert (Hin : in_tmp v (tmp_addr v a)) by (unfold in_tmp, tmp_addr, in_area in *; lia).
  apply list_elem_of_lookup in Hv as [i Hi]. revert i Hi Hd. induction l as [|w l IH]; intros i Hi Hd; [done|]. cbn.
  destruct (premapped w && within (premmaped_addr w) (vend w - vstart w) (tmp_addr v a)) eqn:E.
  - apply andb_true_iff in E as [E1 E2%within_true]. assert (i = 0%nat) as ->.
    { apply (Hd i 0%nat v w (tmp_addr v a)); try done. }
    injection Hi as ->. f_equal. unfold tmp_addr. lia.
  - destruct i as [|i]; [exfalso|].
    + injection Hi as ->. rewrite Hp in E. cbn in E. apply within_false in E. unfold in_tmp in Hin. lia.
    + apply (IH i Hi). intros i1 j1 x y b Hx Hy Hpx Hpy Hbx Hby. pose proof (Hd (S i1) (S j1) x y b Hx Hy Hpx Hpy Hbx Hby). lia.
Qed.

Lemma tmp_mem_at v a : setting -> v ∈ vs -> premapped v = true -> in_area v a -> tmp_mem (tmp_addr v a) = ref a.
Proof. intros Hs. apply tmp_find_at, (st_disjoint Hs). Qed.

Lemma area_unique i j v w a : setting -> vs !! i = Some v -> vs !! j = Some w -> in_area v a -> in_area w a -> i = j.
Proof.
  intros Hs Hi Hj Hv Hw. unfold in_area in *. destruct (Nat.lt_total i j) as [H|[H|H]]; [|done|].
  - pose proof (st_order Hs i j v w H Hi Hj). lia.
  - pose proof (st_order Hs j i w v H Hj Hi). lia.
Qed.

(** ** The invariant *)

(** an area is as it was, but for its bit map *)
Definition area_of (v0 v : vma_area) (b : list Z) : Prop :=
  va_e v = va_e v0 /\ pvma v = pvma v0 /\ premmaped_addr v = premmaped_addr v0 /\ vm_open v = vm_open v0 /\
  page_bitmap v = Some b.

Definition same_area (v0 v : vma_area) : Prop :=
  va_e v = va_e v0 /\ pvma v = pvma v0 /\ premmaped_addr v = premmaped_addr v0 /\ vm_open v = vm_open v0.

(** the bytes in [D] are restored; [mem0] is the memory before *)
Record inv (mem0 : Z -> Z) (D : Z -> bool) (Ss : list (Z -> bool)) (cs : content_state) : Prop := {
  iv_data : Forall2 same_data chain (cs_chain cs);
  iv_pend : Forall2 (pending tmp_mem) Ss (cs_chain cs);
  iv_queue : Forall (fun pr => Forall (piov_in pr) (async pr)) (cs_chain cs);
  iv_mem : forall v a, v ∈ vs -> premapped v = true -> in_area v a ->
    due tmp_mem Ss (cs_mem cs) (tmp_addr v a) = if D a then ref a else mem0 (tmp_addr v a);
  iv_frame : forall b, (forall v, v ∈ vs -> premapped v = true -> ~ in_tmp v b) -> ~ (buf <= b < buf + PAGE_SIZE) ->
    due tmp_mem Ss (cs_mem cs) b = mem0 b;
  iv_due : forall b, somewhere Ss b = true ->
    exists v, v ∈ vs /\ premapped v = true /\ in_tmp v b /\ D (vstart v + (b - premmaped_addr v)) = true;
  iv_areas : Forall2 same_area vs (cs_vmas cs);
  iv_bits : forall i v b, vs !! i = Some v -> premapped v = true -> page_bitmap v = Some b -> exists v' b',
    cs_vmas cs !! i = Some v' /\ page_bitmap v' = Some b' /\ bitmap_for (pages_of v) b' /\
    forall n, 0 <= n < pages_of v -> bit b' n = bit b n || D (vstart v + n * PAGE_SIZE);
  iv_parents : forall v j p b, v ∈ vs -> premapped v = true -> pvma v = ParentArea j -> pvs !! j = Some p -> page_bitmap p = Some b ->
    exists p' b', cs_pvmas cs !! j = Some p' /\ page_bitmap p' = Some b' /\ bitmap_for (pages_of v) b' /\
    forall n, 0 <= n < pages_of v -> bit b' n = bit b n && negb (D (vstart v + n * PAGE_SIZE));
  iv_io : forall pr, head chain = Some pr ->
    Forall (piov_in pr) (cs_io cs) /\ exists S : Z -> bool, (forall m b, queue_mem (pi pr) (cs_io cs) m b = if S b then ref b else m b) /\
    forall b, S b = true <-> D b = true /\ exists v, v ∈ vs /\ in_area v b /\ premapped v = false;
}.
End Setting.

(** ** One turn of the loop over pages *)
Section Turns.
Context {RK : ReadKernel} `{!ReadKernelOk RK} `{!ReadKernelLive RK}.
Hypothesis Hmalloc : forall t, k_xmalloc t = true.
Variable env : rst_env.
Variables (vs pvs : list vma_area) (chain : list page_read) (buf : Z) (iofuel : nat) (mem0 : Z -> Z).
Hypothesis Hset : setting vs pvs buf.
Hypothesis Hio : Forall (fun pr => (Z.to_nat (pages_off (pmes pr)) <= iofuel)%nat) chain.
Hypothesis Hpage : (Z.to_nat PAGE_SIZE <= iofuel)%nat.

Abbreviation T := (tmp_mem vs chain).
Abbreviation Inv := (inv vs pvs chain buf mem0).

(** the reader is in entry [k], at [va] *)
Definition reader_at (k : nat) (e : PagemapEntry) (va : Z) (c : list page_read) : Prop :=
  exists pr up, c = pr :: up /\ at_entry pr k e /\ cvaddr pr = va /\
    Forall (fun p => pm_ok p /\ pos_ok p /\ cvaddr p <= va) c.

Definition grow (D : Z -> bool) (va len : Z) : Z -> bool := fun a => D a || within va len a.

(** the part of the invariant that is about the reader *)
Definition reader_inv (Ss : list (Z -> bool)) (c : list page_read) : Prop :=
  Forall2 same_data chain c /\ Forall2 (pending T) Ss c /\ Forall (fun pr => Forall (piov_in pr) (async pr)) c.

Lemma inv_reader D Ss cs : Inv D Ss cs -> reader_inv Ss (cs_chain cs).
Proof. by intros []. Qed.

Lemma levels_ok fl Ss c k e va : reader_inv Ss c -> reader_at k e va c -> Forall (level_q false fl iofuel va) c.
Proof.
  intros (Hd & _ & Hq) (pr & up & _ & _ & _ & Hl). clear pr up. revert Hl Hq Hio. induction Hd as [|x y c1 c2 (H1 & H2) _ IH]; intros Hl Hq Hf; [done|].
  apply Forall_cons_1 in Hl as [(?&?&?) ?], Hq as [? ?], Hf as [? ?]. constructor; [|auto]. unfold level_q. rewrite H1.
  split_and!; try done; [right; by split|by right].
Qed.

(** what a request does, in terms of the memory to come *)
Lemma read_turn fl n p Ss k e va cs :
  reader_inv Ss (cs_chain cs) -> reader_at k e va (cs_chain cs) -> 0 <= va -> aligned va -> 0 < n < 2 ^ 31 -> va + n * PAGE_SIZE <= pe_end e ->
  resolvable chain va (n * PAGE_SIZE) -> (is_async fl = false -> n = 1) ->
  (forall a, va <= a < va + n * PAGE_SIZE ->
     if is_async fl then T (p + (a - va)) = ref chain a else somewhere Ss (p + (a - va)) = false) ->
  exists t' mem' c' Ss', read_pages false false iofuel fl va n p cs = Done (1, upd_reader cs t' mem' c') /\
    reader_inv Ss' c' /\
    (forall b, somewhere Ss' b = true -> somewhere Ss b = true \/ is_async fl = true /\ p <= b < p + n * PAGE_SIZE) /\
    (forall a, va <= a < va + n * PAGE_SIZE -> due T Ss' mem' (p + (a - va)) = ref chain a) /\
    (forall b, ~ (p <= b < p + n * PAGE_SIZE) -> due T Ss' mem' b = due T Ss (cs_mem cs) b) /\
    reader_at k e (va + n * PAGE_SIZE) c'.
Proof.
  intros Hi Hr Hva Hal Hn Hend Hres Hone Htg. pose proof (levels_ok fl Ss _ k e va Hi Hr) as Hl.
  destruct Hr as (pr & up & Hc & Hat & Hcv & Hlv). unfold read_pages. destruct Hi as (Hd & Hp & _). rewrite Hc in *.
  pose proof (fun a => ref_byte_data _ _ a Hd) as Href.
  assert (Hsome : forall a, va <= a < va + n * PAGE_SIZE -> ref_byte chain a = Some (ref chain a)).
  { intros a Ha. unfold ref. by destruct (Hres a Ha) as [x ->]. }
  destruct (read_pagemap_page_q false fl iofuel T (fun _ => conj eq_refl Hmalloc) (length (pr :: up)) (cs_t cs) (cs_mem cs) Ss pr up va n p k e)
    as (t' & mem' & c' & Ss' & -> & (P1 & P2 & P2s & P3 & P4 & P5 & P6) & Hh); try done.
  { intros a Ha. rewrite Href. by apply Hres. }
  { intros Ea. rewrite (Hone Ea). by rewrite Z.mul_1_l. }
  { intros a Ha. specialize (Htg a Ha). destruct (is_async fl); [|done]. by rewrite Href, Htg, Hsome. }
  cbn [rbind]. eexists t', mem', c', Ss'. split; [done|]. split; [split_and!|split_and!]; try done.
  - by eapply Forall2_trans; [apply _|..].
  - eapply Forall_impl; [|exact P3]. intros x (_ & _ & _ & Hq & _). destruct Hq as [->|[_ ?]]; [constructor|done].
  - intros a Ha. specialize (P5 a Ha). rewrite Href, Hsome in P5 by done. congruence.
  - destruct Hh as (pr' & up' & -> & H1 & H2 & H3). exists pr', up'. split; [done|].
    inversion P1 as [|? ? ? ? D1 _]; subst. inversion P3 as [|? ? L1 L2]; subst. apply Forall_cons_1 in Hlv as [(Hpm & _) _].
    split; [by eapply head_at_entry|]. split; [done|]. eapply Forall_impl; [|exact P3]. by intros x (?&?&?&_).
Qed.

(** the pages from [va] on of the area at place [ix] *)
Definition page_run (ix : nat) (v : vma_area) (off n va : Z) : Prop :=
  vs !! ix = Some v /\ premapped v = true /\ va = vstart v + off * PAGE_SIZE /\ 0 <= off /\ 0 < n /\ off + n <= pages_of v.

Lemma pages_of_bound v : v ∈ vs -> pages_of v * PAGE_SIZE = vend v - vstart v /\ 0 < pages_of v < 2 ^ 31.
Proof using Hset. clear -Hset. intros Hv. destruct (st_entry _ _ _ Hset v Hv) as (?&?&?&?&?&?). unfold pages_of in *. pdiv. Qed.

Lemma run_in_area ix v off n va a : page_run ix v off n va -> va <= a < va + n * PAGE_SIZE -> in_area v a.
Proof.
  intros (Hv & _ & -> & H1 & H2 & H3) Ha. apply list_elem_of_lookup_2 in Hv. destruct (pages_of_bound v Hv). unfold in_area. plia.
Qed.

(** an address of another area is not in the run *)
Lemma run_other ix v off n va i w a : page_run ix v off n va -> vs !! i = Some w -> i <> ix -> in_area w a -> within va (n * PAGE_SIZE) a = false.
Proof.
  intros Hr Hi Hne Ha. apply within_false. intros Hx. apply Hne. pose proof (run_in_area _ _ _ _ _ _ Hr Hx) as Hv.
  destruct Hr as (Hix & _). by eapply (area_unique vs pvs buf).
Qed.

Lemma page_in_area v n : v ∈ vs -> 0 <= n < pages_of v -> in_area v (vstart v + n * PAGE_SIZE).
Proof. intros Hv Hn. destruct (pages_of_bound v Hv). unfold in_area. plia. Qed.

Lemma run_page ix v off n va m : page_run ix v off n va -> within va (n * PAGE_SIZE) (vstart v + m * PAGE_SIZE) = ((off <=? m) && (m <? off + n)).
Proof.
  intros (_ & _ & -> & H1 & H2 & H3). apply Bool.eq_iff_eq_true. rewrite within_true, andb_true_iff, Z.leb_le, Z.ltb_lt. plia.
Qed.

(** what is to be shown after a run of pages was restored *)
Lemma inv_grow D Ss Ss' cs cs' ix v0 off n va :
  Inv D Ss cs -> page_run ix v0 off n va -> (forall a, va <= a -> D a = false) ->
  reader_inv Ss' (cs_chain cs') ->
  (forall b, somewhere Ss' b = true -> somewhere Ss b = true \/ tmp_addr v0 va <= b < tmp_addr v0 va + n * PAGE_SIZE) ->
  (forall a, va <= a < va + n * PAGE_SIZE -> due T Ss' (cs_mem cs') (tmp_addr v0 a) = ref chain a) ->
  (forall b, ~ (tmp_addr v0 va <= b < tmp_addr v0 va + n * PAGE_SIZE) -> ~ (buf <= b < buf + PAGE_SIZE) ->
     due T Ss' (cs_mem cs') b = due T Ss (cs_mem cs) b) ->
  (exists v b b', cs_vmas cs !! ix = Some v /\ page_bitmap v = Some b /\ cs_vmas cs' = <[ix := set_bitmap v b']> (cs_vmas cs) /\
     (bitmap_for (pages_of v0) b -> bitmap_for (pages_of v0) b') /\
     forall m, 0 <= m -> bit b' m = bit b m || ((off <=? m) && (m <? off + n))) ->
  match pvma v0 with
  | ParentArea j => exists p b b', cs_pvmas cs !! j = Some p /\ page_bitmap p = Some b /\
      cs_pvmas cs' = <[j := set_bitmap p b']> (cs_pvmas cs) /\ (bitmap_for (pages_of v0) b -> bitmap_for (pages_of v0) b') /\
      forall m, 0 <= m -> bit b' m = bit b m && negb ((off <=? m) && (m <? off + n))
  | _ => cs_pvmas cs' = cs_pvmas cs
  end ->
  cs_io cs' = cs_io cs -> Inv (grow D va (n * PAGE_SIZE)) Ss' cs'.
Proof.
  intros Hi Hrun HD (Hd & Hp & Hq) Hsw Hin Hout Hb Hpar Hiocs. pose proof Hrun as (Hix & Hpre & Hva & Hoff & Hn & Hpg).
  assert (Hv0 : v0 ∈ vs) by (by eapply list_elem_of_lookup_2). destruct (pages_of_bound v0 Hv0) as [Hlen _].
  assert (Htmp : forall v a, v ∈ vs -> premapped v = true -> in_area v a -> within va (n * PAGE_SIZE) a = false ->
            ~ (tmp_addr v0 va <= tmp_addr v a < tmp_addr v0 va + n * PAGE_SIZE)).
  { intros v a Hv Hpv Ha Hw%within_false Hx. apply list_elem_of_lookup in Hv as [i Hiv].
    assert (i = ix) as ->.
    { eapply (st_disjoint _ _ _ Hset i ix v v0 (tmp_addr v a)); try done; unfold in_tmp, tmp_addr, in_area in *; plia. }
    assert (v = v0) as -> by congruence. unfold tmp_addr in Hx. lia. }
  split.
  - done.
  - done.
  - done.
  - intros v a Hv Hpv Ha. unfold grow. destruct (within va (n * PAGE_SIZE) a) eqn:Ew.
    + rewrite orb_true_r. apply within_true in Ew. apply list_elem_of_lookup in Hv as [i Hiv].
      assert (v = v0) as ->; [|by apply Hin].
      assert (i = ix) as ->; [|congruence]. eapply (area_unique vs pvs buf); [done|exact Hiv|exact Hix|exact Ha|by eapply run_in_area].
    + rewrite orb_false_r, Hout; [by apply (iv_mem _ _ _ _ _ _ _ _ Hi)|by apply Htmp|].
      intros Hx. eapply (st_buf _ _ _ Hset v (tmp_addr v a)); [done|done| |done]. unfold in_tmp, tmp_addr, in_area in *. lia.
  - intros b Hb1 Hb2. rewrite Hout; [by apply (iv_frame _ _ _ _ _ _ _ _ Hi)| |done]. intros Hx. apply (Hb1 v0 Hv0 Hpre).
    unfold in_tmp, tmp_addr in *. plia.
  - intros b Hs. destruct (Hsw b Hs) as [Hs'|Hx].
    + destruct (iv_due _ _ _ _ _ _ _ _ Hi b Hs') as (v & ? & ? & ? & HDv). exists v. split_and!; try done. unfold grow. by rewrite HDv.
    + exists v0. split_and!; try done; [unfold in_tmp, tmp_addr in *; plia|]. unfold grow. rewrite (proj2 (within_true _ _ _)), orb_true_r; [done|].
      unfold tmp_addr in Hx. lia.
  - destruct Hb as (v & b & b' & Hv & _ & -> & _). pose proof (iv_areas _ _ _ _ _ _ _ _ Hi) as Ha.
    rewrite <-(list_insert_id vs ix v0) by done. apply Forall2_insert; [done|].
    destruct (Forall2_lookup_r _ _ _ _ _ Ha Hv) as (x & Hx & Hsm). rewrite Hix in Hx. injection Hx as <-. done.
  - intros i v b0 Hiv Hpv Hb0. destruct Hb as (vx & bx & bx' & Hvx & Hbx & -> & Hfx & Hbits).
    destruct (iv_bits _ _ _ _ _ _ _ _ Hi i v b0 Hiv Hpv Hb0) as (v' & b' & Hv' & Hb' & Hf' & Hbb).
    destruct (Nat.eq_dec i ix) as [->|Hne].
    + assert (v = v0) as -> by congruence. assert (v' = vx) as -> by congruence. assert (b' = bx) as -> by congruence.
      exists (set_bitmap vx bx'), bx'. rewrite list_lookup_insert_eq by (by eapply lookup_lt_Some). split_and!; try done; [by apply Hfx|].
      intros m Hm. rewrite Hbits, Hbb by lia. unfold grow. rewrite (run_page _ _ _ _ _ _ Hrun). by rewrite orb_assoc.
    + exists v', b'. rewrite list_lookup_insert_ne by done. split_and!; try done. intros m Hm. rewrite Hbb by done. unfold grow.
      rewrite (run_other ix v0 off n va i v _ Hrun Hiv Hne); [by rewrite orb_false_r|]. apply page_in_area; [by eapply list_elem_of_lookup_2|done].
  - intros v j p b0 Hv Hpv Hj Hpj Hpb. destruct (iv_parents _ _ _ _ _ _ _ _ Hi v j p b0 Hv Hpv Hj Hpj Hpb) as (p' & b' & Hp' & Hb' & Hf' & Hbb).
    apply list_elem_of_lookup in Hv as [i Hiv]. assert (Hvv : v ∈ vs) by (by eapply list_elem_of_lookup_2).
    destruct (Nat.eq_dec i ix) as [->|Hne].
    + assert (v = v0) as -> by congruence. rewrite Hj in Hpar. destruct Hpar as (px & bx & bx' & Hpx & Hbx & -> & Hfx & Hbits).
      assert (px = p') as -> by congruence. assert (bx = b') as -> by congruence. exists (set_bitmap p' bx'), bx'.
      rewrite list_lookup_insert_eq by (by eapply lookup_lt_Some). split_and!; try done; [by apply Hfx|].
      intros m Hm. rewrite Hbits, Hbb by lia. unfold grow. rewrite (run_page _ _ _ _ _ _ Hrun), negb_orb. by rewrite andb_assoc.
    + assert (Hkeep : cs_pvmas cs' !! j = cs_pvmas cs !! j).
      { destruct (pvma v0) as [| |j0] eqn:Ej; [by rewrite Hpar|by rewrite Hpar|]. destruct Hpar as (px & bx & bx' & _ & _ & -> & _).
        apply list_lookup_insert_ne. intros ->. apply Hne. by eapply (st_inherit _ _ _ Hset i ix v v0 j). }
      exists p', b'. rewrite Hkeep. split_and!; try done. intros m Hm. rewrite Hbb by done. unfold grow.
      rewrite (run_other ix v0 off n va i v _ Hrun Hiv Hne); [by rewrite orb_false_r|]. by apply page_in_area.
  - intros pr Hpr. rewrite Hiocs. destruct (iv_io _ _ _ _ _ _ _ _ Hi pr Hpr) as (Hpi & Sx & HS1 & HS2). split; [done|]. exists Sx. split; [done|].
    intros b. rewrite HS2. unfold grow. split; intros (HDb & w & Hw & Hwa & Hwp).
    + split; [by rewrite HDb|eauto].
    + split; [|eauto]. destruct (within va (n * PAGE_SIZE) b) eqn:Ew; [|by rewrite orb_false_r in HDb]. exfalso.
      apply within_true in Ew. apply list_elem_of_lookup in Hw as [i Hiw].
      assert (i = ix) as -> by (eapply (area_unique vs pvs buf); [done|exact Hiw|exact Hix|exact Hwa|by eapply run_in_area]). congruence.
Qed.

(** the areas before the current one end at or before [va] *)
Definition areas_passed (cs : content_state) (va : Z) : Prop :=
  forall i v, (i < cs_area cs)%nat -> vs !! i = Some v -> vend v <= va.

Lemma locate cs va v0 :
  Forall2 same_area vs (cs_vmas cs) -> areas_passed cs va -> v0 ∈ vs -> in_area v0 va ->
  exists ix v, skip_while (fun v => v_end (va_e v) <=? va) (drop (cs_area cs) (cs_vmas cs)) (cs_area cs) = Some ix /\
    vs !! ix = Some v0 /\ cs_vmas cs !! ix = Some v /\ same_area v0 v /\ areas_passed (upd_area cs ix) va.
Proof.
  intros Hsm Hpass Hv Ha. apply list_elem_of_lookup in Hv as [i0 Hi0]. unfold in_area in Ha.
  destruct (Forall2_lookup_l _ _ _ _ _ Hsm Hi0) as (v & Hv & Hs0).
  assert (Hge : (cs_area cs <= i0)%nat).
  { destruct (decide (cs_area cs <= i0)%nat); [done|]. specialize (Hpass i0 v0 ltac:(lia) Hi0). lia. }
  destruct (skip_while _ _ _) as [ix|] eqn:E.
  2: { exfalso. pose proof (skip_drop_none _ _ _ _ _ E Hge Hv) as Hx%Z.leb_le. destruct Hs0 as (Hse & _). rewrite Hse in Hx. lia. }
  apply skip_drop in E as (H1 & (w & Hw & Hf%Z.leb_gt) & Hbetw).
  destruct (Forall2_lookup_r _ _ _ _ _ Hsm Hw) as (w0 & Hw0 & Hsw).
  assert (ix = i0) as ->.
  { destruct (Nat.lt_total ix i0) as [Hl|[?|Hg]]; [|done|].
    - pose proof (st_order _ _ _ Hset ix i0 w0 v0 Hl Hw0 Hi0). destruct Hsw as (Hwe & _). rewrite Hwe in Hf. lia.
    - pose proof (Hbetw i0 v ltac:(lia) Hv) as Hx%Z.leb_le. destruct Hs0 as (Hse & _). rewrite Hse in Hx. lia. }
  exists i0, v. split_and!; try done. intros i x Hi Hx. cbn in Hi. pose proof (st_order _ _ _ Hset i i0 x v0 Hi Hx Hi0). lia.
Qed.

(** what a turn achieves *)
Definition turn_post (D : Z -> bool) (k : nat) (e : PagemapEntry) (i nr va : Z) (out : res (page_out * content_state)) : Prop :=
  exists n Ss' cs', out = Done (Next (i + n) (va + n * PAGE_SIZE), cs') /\ 0 < n <= nr - i /\
    Inv (grow D va (n * PAGE_SIZE)) Ss' cs' /\ reader_at k e (va + n * PAGE_SIZE) (cs_chain cs') /\
    areas_passed cs' (va + n * PAGE_SIZE).

(** a turn starts at page [i] of the entry, whose address is [va] *)
Definition turn_pre (D : Z -> bool) (Ss : list (Z -> bool)) (k : nat) (e : PagemapEntry) (i va : Z) (cs : content_state) : Prop :=
  Inv D Ss cs /\ reader_at k e va (cs_chain cs) /\ areas_passed cs va /\ pe_ok e /\ 0 <= i < nr_pages e /\
  va = vaddr e + i * PAGE_SIZE /\ (forall a, va <= a -> D a = false) /\ restorable env vs chain e.

(** the pages of the entry from [va] on, in the area *)
Definition run_len (v : vma_area) (e : PagemapEntry) (i va : Z) : Z := Z.min (nr_pages e - i) ((vend v - va) / PAGE_SIZE).

Lemma run_ok ix v e i va :
  vs !! ix = Some v -> premapped v = true -> in_area v va -> aligned va -> 0 <= i < nr_pages e -> va = vaddr e + i * PAGE_SIZE -> pe_ok e ->
  page_run ix v ((va - vstart v) / PAGE_SIZE) (run_len v e i va) va /\ va + run_len v e i va * PAGE_SIZE <= pe_end e /\
  0 < run_len v e i va <= nr_pages e - i.
Proof.
  intros Hix Hpre Ha Hal Hi Hva (E1 & E2 & E3 & E4 & _). assert (Hv : v ∈ vs) by (by eapply list_elem_of_lookup_2).
  destruct (st_entry _ _ _ Hset v Hv) as (V1 & V2 & V3 & V4 & V5 & V6). unfold in_area, page_run, run_len, pages_of, pe_end in *.
  assert (1 <= (vend v - va) / PAGE_SIZE) by pdiv. split_and!; try done; try lia; try pdiv.
Qed.

Lemma turn_aligned D Ss k e i va cs : turn_pre D Ss k e i va cs -> 0 <= va /\ aligned va /\ va + PAGE_SIZE <= pe_end e /\ pe_end e < 2 ^ 63.
Proof. intros (_ & _ & _ & (E1 & E2 & E3 & E4 & _) & Hi & -> & _). unfold pe_end in *. split_and!; try plia. apply aligned_add; [done|apply aligned_mul]. Qed.

Lemma passed_after ix v cs va len : vs !! ix = Some v -> va + len <= vend v -> 0 <= len -> areas_passed (upd_area cs ix) va ->
  areas_passed (upd_area cs ix) (va + len).
Proof. intros Hix Hle Hl Hp j w Hj Hw. specialize (Hp j w Hj Hw). lia. Qed.

(** *** A run that is read in one request *)
Lemma read_run_turn D Ss k e i va cs ix v0 v :
  turn_pre D Ss k e i va cs -> vs !! ix = Some v0 -> cs_vmas cs !! ix = Some v -> same_area v0 v -> in_area v0 va ->
  areas_passed (upd_area cs ix) va -> premapped v0 = true -> vma_inherited v0 = false ->
  turn_post D k e i (nr_pages e) va
    (let off := u64 (va - v_start (va_e v)) / PAGE_SIZE in
     let p := u64 (off * PAGE_SIZE + premmaped_addr v) in
     let* vmas := on_bitmap (cs_vmas (upd_area cs ix)) ix (fun b => deref (set_bit off b)) in
     read_run false false iofuel v off i (nr_pages e) va p (upd_areas (upd_area cs ix) vmas (cs_pvmas (upd_area cs ix)))).
Proof.
  intros Hpre Hix Hv (Sv1 & Sv2 & Sv3 & _) Ha Hpass Hpm Hinh. pose proof (turn_aligned _ _ _ _ _ _ _ Hpre) as (Hva & Hal & Hpg & Hlim).
  destruct Hpre as (Hi & Hr & _ & He & Hii & Hvi & HD & Hres & _).
  assert (Hv0 : v0 ∈ vs) by (by eapply list_elem_of_lookup_2). destruct (pages_of_bound v0 Hv0) as [Hpl Hpb].
  destruct (st_entry _ _ _ Hset v0 Hv0) as (V1 & V2 & V3 & V4 & V5 & V6).
  destruct (st_tmp _ _ _ Hset v0 Hv0 Hpm) as (T1 & T2 & b0 & Hb0 & _).
  destruct (run_ok ix v0 e i va Hix Hpm Ha Hal Hii Hvi He) as (Hrun & Hrend & Hrl). pose proof Hrun as (_ & _ & Hoffva & Ho0 & _ & Hoff).
  set (off := (va - vstart v0) / PAGE_SIZE) in *. set (n := run_len v0 e i va) in *.
  destruct (iv_bits _ _ _ _ _ _ _ _ Hi ix v0 b0 Hix Hpm Hb0) as (v' & b & Hv' & Hb & (Hw & Hbl) & _). assert (v' = v) as -> by congruence.
  unfold in_area, TASK_SIZE in *. cbv zeta. rewrite Sv1, Sv3. rewrite (u64_id (va - vstart v0)) by lia. fold off.
  rewrite u64_id by (subst off; pdiv).
  replace (off * PAGE_SIZE + premmaped_addr v0) with (tmp_addr v0 va) by (unfold tmp_addr; lia).
  destruct (set_bit_ok off b) as (b1 & Hb1 & Hl1 & Hbit1); [lia|lia|].
  unfold on_bitmap at 1. cbn [cs_vmas cs_pvmas upd_area]. rewrite Hv. cbn [deref rbind]. rewrite Hb. cbn [deref rbind]. rewrite Hb1. cbn [deref rbind].
  set (cs1 := upd_areas (upd_area cs ix) _ _). unfold read_run. rewrite Sv1.
  assert (He3 : nr_pages e < 2 ^ 31) by (destruct He as (_ & _ & ? & _); lia).
  rewrite (s32_id (nr_pages e - i)) by lia. rewrite (u64_id (vend v0 - va)) by lia.
  rewrite s32_id by (unfold pages_of in *; pdiv). fold (run_len v0 e i va). fold n.
  destruct (read_turn PR_ASYNC n (tmp_addr v0 va) Ss k e va cs1) as (t' & mem' & c' & Ss' & -> & Hri & Hs1 & Hm1 & Hm2 & Hr'); try done; try lia.
  { exact (inv_reader D Ss cs Hi). }
  { intros a Haa. apply Hres. unfold pe_end in *. plia. }
  { intros a Haa. change (is_async PR_ASYNC) with true. cbn iota.
    replace (tmp_addr v0 va + (a - va)) with (tmp_addr v0 a) by (unfold tmp_addr; lia).
    apply (tmp_mem_at vs pvs chain buf); try done. by eapply run_in_area. }
  cbn [rbind]. change (1 <? 0) with false. cbn iota. cbn [cs_vmas cs_pvmas cs_area count upd_reader cs1 upd_areas upd_area].
  unfold on_bitmap. rewrite list_lookup_insert_eq by (by eapply lookup_lt_Some). cbn [deref rbind page_bitmap set_bitmap].
  destruct (bitmap_set_ok b1 (off + 1) (n - 1)) as (b2 & Hb2 & Hl2 & Hbit2); [lia|lia|rewrite Hl1; lia|]. rewrite Hb2. cbn [rbind].
  rewrite u64_id by (unfold pe_end in *; plia). eexists n, Ss', _. split; [do 3 f_equal; lia|]. split; [done|]. split; [|split].
  - eapply (inv_grow D Ss Ss' cs _ ix v0 off n va); try done.
    + intros b' Hb'. destruct (Hs1 b' Hb') as [?|[_ ?]]; [by left|by right].
    + intros a Haa. cbn. rewrite <-(Hm1 a Haa). f_equal. unfold tmp_addr. lia.
    + intros b' Hb' _. cbn. by apply Hm2.
    + exists v, b, b2. cbn [cs_vmas upd_areas]. rewrite list_insert_insert_eq. split_and!; try done.
      * intros _. split; [|rewrite Hl2, Hl1; lia]. eapply bitmap_range_words; [apply fits_lor| |exact Hb2]. by eapply set_bit_words.
      * intros m Hm. rewrite Hbit2, Hbit1 by done. rewrite <-orb_assoc. f_equal. apply Bool.eq_iff_eq_true.
        rewrite orb_true_iff, !andb_true_iff, Z.eqb_eq, !Z.leb_le, !Z.ltb_lt. lia.
    + unfold vma_inherited in Hinh. by destruct (pvma v0).
  - done.
  - apply (passed_after ix v0 cs va (n * PAGE_SIZE)); [done| |plia|done]. plia.
Qed.

(** *** A page that is compared with the parent's *)
Lemma memcmp_page_true mem p q : memcmp_page mem p q = true -> forall i, 0 <= i < PAGE_SIZE -> mem (p + i) = mem (q + i).
Proof.
  unfold memcmp_page. rewrite forallb_forall. intros H i Hi. specialize (H (Z.to_nat i)). rewrite Z2Nat.id in H by lia.
  apply Z.eqb_eq, H, in_seq. lia.
Qed.

Lemma pending_not_buf D Ss cs b : Inv D Ss cs -> buf <= b < buf + PAGE_SIZE -> somewhere Ss b = false.
Proof.
  intros Hi Hb. destruct (somewhere Ss b) eqn:E; [|done]. destruct (iv_due _ _ _ _ _ _ _ _ Hi b E) as (v & Hv & Hp & Ht & _).
  by destruct (st_buf _ _ _ Hset v b Hv Hp Ht).
Qed.

Lemma pending_not_new D Ss cs ix v a : Inv D Ss cs -> vs !! ix = Some v -> premapped v = true -> in_area v a -> D a = false ->
  somewhere Ss (tmp_addr v a) = false.
Proof.
  intros Hi Hix Hp Ha HD. destruct (somewhere Ss (tmp_addr v a)) eqn:E; [|done].
  destruct (iv_due _ _ _ _ _ _ _ _ Hi _ E) as (w & Hw & Hpw & Ht & HDw). apply list_elem_of_lookup in Hw as [j Hj].
  assert (j = ix) as ->.
  { eapply (st_disjoint _ _ _ Hset j ix w v); try done. unfold in_tmp, tmp_addr, in_area in *. lia. }
  assert (w = v) as -> by congruence. unfold tmp_addr in HDw. replace (vstart v + (premmaped_addr v + (a - vstart v) - premmaped_addr v)) with a in HDw by lia.
  congruence.
Qed.

(** the page is there after the comparison, copied or not *)
Lemma compare_memory D Ss Ss' cs ix v0 va mem' :
  Inv D Ss cs -> page_run ix v0 ((va - vstart v0) / PAGE_SIZE) 1 va -> (forall a, va <= a -> D a = false) ->
  (forall b, somewhere Ss' b = true -> somewhere Ss b = true) ->
  (forall a, va <= a < va + PAGE_SIZE -> due T Ss' mem' (buf + (a - va)) = ref chain a) ->
  (forall b, ~ (buf <= b < buf + PAGE_SIZE) -> due T Ss' mem' b = due T Ss (cs_mem cs) b) ->
  let p := tmp_addr v0 va in
  let mem2 := if memcmp_page mem' p buf then mem' else blit mem' p mem' buf PAGE_SIZE in
  (forall a, va <= a < va + PAGE_SIZE -> due T Ss' mem2 (tmp_addr v0 a) = ref chain a) /\
  (forall b, ~ (p <= b < p + PAGE_SIZE) -> ~ (buf <= b < buf + PAGE_SIZE) -> due T Ss' mem2 b = due T Ss (cs_mem cs) b).
Proof.
  intros Hi Hrun HD Hsub Hb Ho p mem2. pose proof Hrun as (Hix & Hpm & _).
  assert (Hnb : forall a, va <= a < va + PAGE_SIZE -> mem' (buf + (a - va)) = ref chain a).
  { intros a Ha. rewrite <-(Hb a Ha). unfold due. destruct (somewhere Ss' _) eqn:E; [|done]. apply Hsub in E.
    rewrite (pending_not_buf D Ss cs) in E by (done || lia). done. }
  assert (Hnp : forall a, va <= a < va + PAGE_SIZE -> somewhere Ss' (tmp_addr v0 a) = false).
  { intros a Ha. destruct (somewhere Ss' (tmp_addr v0 a)) eqn:E; [|done]. apply Hsub in E.
    rewrite (pending_not_new D Ss cs ix v0 a) in E; try done; [eapply run_in_area; [done|lia]|apply HD; lia]. }
  unfold mem2. destruct (memcmp_page mem' p buf) eqn:Ec; split.
  - intros a Ha. unfold due. rewrite Hnp by done. rewrite <-Hnb by done.
    replace (tmp_addr v0 a) with (p + (a - va)) by (unfold p, tmp_addr; lia). apply memcmp_page_true; [done|lia].
  - intros b _ Hbb. by apply Ho.
  - intros a Ha. unfold due. rewrite Hnp by done. rewrite <-Hnb by done. unfold blit.
    replace (tmp_addr v0 a) with (p + (a - va)) by (unfold p, tmp_addr; lia). rewrite (proj2 (andb_true_iff _ _)) by lia. f_equal. lia.
  - intros b Hp Hbb. rewrite <-Ho by done. unfold due, blit. rewrite (proj2 (andb_false_iff (p <=? b) _)) by lia. done.
Qed.

Lemma compare_turn D Ss k e i va cs ix v0 v j :
  turn_pre D Ss k e i va cs -> vs !! ix = Some v0 -> cs_vmas cs !! ix = Some v -> same_area v0 v -> in_area v0 va ->
  areas_passed (upd_area cs ix) va -> premapped v0 = true -> pvma v0 = ParentArea j ->
  turn_post D k e i (nr_pages e) va
    (let off := u64 (va - v_start (va_e v)) / PAGE_SIZE in
     let p := u64 (off * PAGE_SIZE + premmaped_addr v) in
     let* vmas := on_bitmap (cs_vmas (upd_area cs ix)) ix (fun b => deref (set_bit off b)) in
     compare_page false false buf iofuel j off i va p (upd_areas (upd_area cs ix) vmas (cs_pvmas (upd_area cs ix)))).
Proof.
  intros Hpre Hix Hv (Sv1 & Sv2 & Sv3 & _) Ha Hpass Hpm Hj. pose proof (turn_aligned _ _ _ _ _ _ _ Hpre) as (Hva & Hal & Hpg & Hlim).
  destruct Hpre as (Hi & Hr & _ & He & Hii & Hvi & HD & Hres & _).
  assert (Hv0 : v0 ∈ vs) by (by eapply list_elem_of_lookup_2). destruct (pages_of_bound v0 Hv0) as [Hpl Hpb].
  destruct (st_entry _ _ _ Hset v0 Hv0) as (V1 & V2 & V3 & V4 & V5 & V6).
  destruct (st_tmp _ _ _ Hset v0 Hv0 Hpm) as (T1 & T2 & b0 & Hb0 & _).
  destruct (st_parent _ _ _ Hset v0 j Hv0 Hj Hpm) as (p0 & pb0 & Hp0 & Hpb0 & _).
  destruct (run_ok ix v0 e i va Hix Hpm Ha Hal Hii Hvi He) as ((_ & _ & Hoffva & Ho0 & _ & Hoff) & Hrend & Hrl).
  assert (Hrun : page_run ix v0 ((va - vstart v0) / PAGE_SIZE) 1 va) by (unfold page_run; split_and!; try done; lia).
  set (off := (va - vstart v0) / PAGE_SIZE) in *.
  destruct (iv_bits _ _ _ _ _ _ _ _ Hi ix v0 b0 Hix Hpm Hb0) as (v' & b & Hv' & Hb & (Hw & Hbl) & _). assert (v' = v) as -> by congruence.
  destruct (iv_parents _ _ _ _ _ _ _ _ Hi v0 j p0 pb0 Hv0 Hpm Hj Hp0 Hpb0) as (p' & pb & Hp' & Hpb' & (Hpw & Hpbl) & _).
  unfold in_area, TASK_SIZE in *. cbv zeta. rewrite Sv1, Sv3. rewrite (u64_id (va - vstart v0)) by lia. fold off.
  rewrite u64_id by (subst off; pdiv).
  replace (off * PAGE_SIZE + premmaped_addr v0) with (tmp_addr v0 va) by (unfold tmp_addr; lia).
  destruct (set_bit_ok off b) as (b1 & Hb1 & Hl1 & Hbit1); [lia|lia|].
  destruct (clear_bit_ok off pb) as (pb1 & Hpb1 & Hpl1 & Hpbit1); [lia|lia|].
  unfold on_bitmap. cbn [cs_vmas cs_pvmas upd_area]. rewrite Hv. cbn [deref rbind]. rewrite Hb. cbn [deref rbind]. rewrite Hb1. cbn [deref rbind].
  unfold compare_page, on_bitmap. cbn [cs_vmas cs_pvmas upd_areas upd_area]. rewrite Hp'. cbn [deref rbind]. rewrite Hpb'. cbn [deref rbind]. rewrite Hpb1. cbn [deref rbind].
  set (cs1 := upd_areas (upd_areas (upd_area cs ix) _ _) _ _).
  destruct (read_turn 0 1 buf Ss k e va cs1) as (t' & mem' & c' & Ss' & -> & Hri & Hs1 & Hm1 & Hm2 & Hr'); try done; try lia.
  { exact (inv_reader D Ss cs Hi). }
  { intros a Haa. apply Hres. unfold pe_end in *. plia. }
  { intros a Haa. apply (pending_not_buf D Ss cs); [done|lia]. }
  rewrite Z.mul_1_l in *. cbn [rbind]. change (1 <? 0) with false. cbn iota. rewrite u64_id by plia.
  destruct (compare_memory D Ss Ss' cs ix v0 va mem' Hi Hrun HD) as [Hc1 Hc2]; [intros b' Hb'; by destruct (Hs1 b' Hb') as [?|[? _]]|done|done|].
  assert (Hgrow : forall cs', cs_chain cs' = c' -> cs_vmas cs' = <[ix := set_bitmap v b1]> (cs_vmas cs) ->
     cs_pvmas cs' = <[j := set_bitmap p' pb1]> (cs_pvmas cs) -> cs_io cs' = cs_io cs -> cs_area cs' = ix ->
     cs_mem cs' = (if memcmp_page mem' (tmp_addr v0 va) buf then mem' else blit mem' (tmp_addr v0 va) mem' buf PAGE_SIZE) ->
     turn_post D k e i (nr_pages e) va (Done (Next (i + 1) (va + PAGE_SIZE), cs'))).
  { intros cs' C1 C2 C3 C4 C5 C6. exists 1, Ss', cs'. rewrite Z.mul_1_l. split; [done|]. split; [lia|]. rewrite C1. split; [|split; [done|]].
    - rewrite <-(Z.mul_1_l PAGE_SIZE). eapply (inv_grow D Ss Ss' cs cs' ix v0 off 1 va); try done.
      + by rewrite C1.
      + intros b' Hb'. destruct (Hs1 b' Hb') as [?|[? _]]; [by left|done].
      + intros a Haa. rewrite C6. apply Hc1. lia.
      + intros b' Hb' Hb''. rewrite C6. apply Hc2; [lia|done].
      + exists v, b, b1. split_and!; try done.
        * intros _. split; [by eapply set_bit_words|rewrite Hl1; lia].
        * intros m Hm. rewrite Hbit1 by done. f_equal. apply Bool.eq_iff_eq_true. rewrite andb_true_iff, Z.eqb_eq, Z.leb_le, Z.ltb_lt. lia.
      + rewrite Hj. exists p', pb, pb1. split_and!; try done.
        * intros _. split; [by eapply clear_bit_words|rewrite Hpl1; lia].
        * intros m Hm. rewrite Hpbit1 by done. do 2 f_equal. apply Bool.eq_iff_eq_true. rewrite andb_true_iff, Z.eqb_eq, Z.leb_le, Z.ltb_lt. lia.
    - intros i' w Hi' Hw'. rewrite C5 in Hi'. specialize (Hpass i' w Hi' Hw'). plia. }
  cbn [cs_mem upd_reader count cs1]. destruct (memcmp_page mem' (tmp_addr v0 va) buf); apply Hgrow; done.
Qed.

(** *** Pages that the restorer will read in place *)
Lemma inv_enqueue D Ss cs cs' ix v0 pr0 va len :
  Inv D Ss cs -> vs !! ix = Some v0 -> premapped v0 = false -> (forall a, va <= a < va + len -> in_area v0 a) ->
  head chain = Some pr0 ->
  reader_inv Ss (cs_chain cs') -> cs_mem cs' = cs_mem cs -> cs_vmas cs' = cs_vmas cs -> cs_pvmas cs' = cs_pvmas cs ->
  Forall (piov_in pr0) (cs_io cs') ->
  (forall m b, queue_mem (pi pr0) (cs_io cs') m b = if within va len b then ref chain b else queue_mem (pi pr0) (cs_io cs) m b) ->
  Inv (grow D va len) Ss cs'.
Proof.
  intros Hi Hix Hnp Hin Hh (R1 & R2 & R3) Hm Hv Hpv Hpi Hq.
  assert (Hoth : forall v a, v ∈ vs -> premapped v = true -> in_area v a -> grow D va len a = D a).
  { intros v a Hvv Hpr Ha. unfold grow. destruct (within va len a) eqn:E; [|by rewrite orb_false_r]. apply within_true in E.
    apply list_elem_of_lookup in Hvv as [j Hj]. assert (j = ix) as -> by (eapply (area_unique vs pvs buf); [done|exact Hj|exact Hix|exact Ha|by apply Hin]).
    congruence. }
  destruct Hi as [I1 I2 I3 I4 I5 I6 I7 I8 I9 I10]. split.
  - done.
  - done.
  - done.
  - intros v a Hvv Hpr Ha. rewrite Hm, (Hoth v a) by done. by apply I4.
  - rewrite Hm. exact I5.
  - intros b Hb. destruct (I6 b Hb) as (v & Hvv & Hpr & Ht & HD). exists v. split_and!; try done. unfold grow. by rewrite HD.
  - by rewrite Hv.
  - intros i v b Hiv Hpr Hb. assert (Hvv : v ∈ vs) by (by eapply list_elem_of_lookup_2).
    destruct (I8 i v b Hiv Hpr Hb) as (v' & b' & H1 & H2 & H3 & H4). exists v', b'. rewrite Hv. split_and!; try done.
    intros n Hn. rewrite H4 by done. by rewrite (Hoth v _ Hvv Hpr (page_in_area v n Hvv Hn)).
  - intros v j p b Hvv Hpr Hj Hp Hb. destruct (I9 v j p b Hvv Hpr Hj Hp Hb) as (p' & b' & H1 & H2 & H3 & H4). exists p', b'. rewrite Hpv.
    split_and!; try done. intros n Hn. rewrite H4 by done. by rewrite (Hoth v _ Hvv Hpr (page_in_area v n Hvv Hn)).
  - intros pr Hpr. rewrite Hh in Hpr. injection Hpr as <-. destruct (I10 pr0 Hh) as (_ & Sx & HS1 & HS2). split; [done|].
    exists (fun b => Sx b || within va len b). split.
    + intros m b. rewrite Hq, HS1. destruct (within va len b); [by rewrite orb_true_r|by rewrite orb_false_r].
    + intros b. unfold grow. rewrite !orb_true_iff, HS2, within_true. split.
      * intros [[HD Hex]|Hb]; [by split; [left|]|]. split; [by right|]. exists v0. split; [by eapply list_elem_of_lookup_2|]. split; [by apply Hin|done].
      * intros [[HD|Hb] Hex]; [by left|by right].
Qed.

Lemma enqueue_turn D Ss k e i va cs ix v0 v pr0 :
  turn_pre D Ss k e i va cs -> vs !! ix = Some v0 -> cs_vmas cs !! ix = Some v -> same_area v0 v -> in_area v0 va ->
  areas_passed (upd_area cs ix) va -> premapped v0 = false -> has (v_status (va_e v0)) VMA_NO_PROT_WRITE = false -> chain = [pr0] ->
  turn_post D k e i (nr_pages e) va (enqueue_pages v i (nr_pages e) va (upd_area cs ix)).
Proof.
  intros Hpre Hix Hv (Sv1 & Sv2 & Sv3 & _) Ha Hpass Hnp Hnw Hch. pose proof (turn_aligned _ _ _ _ _ _ _ Hpre) as (Hva & Hal & Hpg & Hlim).
  destruct Hpre as (Hi & Hr & _ & He & Hii & Hvi & HD & Hres & _).
  assert (Hv0 : v0 ∈ vs) by (by eapply list_elem_of_lookup_2). destruct (st_entry _ _ _ Hset v0 Hv0) as (V1 & V2 & V3 & V4 & V5 & V6).
  pose proof He as (E1 & E2 & E3 & E4 & _). set (n := run_len v0 e i va).
  assert (Hn : 0 < n <= nr_pages e - i /\ va + n * PAGE_SIZE <= vend v0 /\ va + n * PAGE_SIZE <= pe_end e).
  { unfold n, run_len, in_area, pe_end in *. assert (1 <= (vend v0 - va) / PAGE_SIZE) by pdiv. pdiv. }
  assert (Hlen : Z.min (u64 ((nr_pages e - i) * PAGE_SIZE)) (u64 (vend v0 - va)) = n * PAGE_SIZE).
  { unfold in_area, TASK_SIZE in *. rewrite !u64_id by plia. unfold n, run_len.
    assert ((vend v0 - va) / PAGE_SIZE * PAGE_SIZE = vend v0 - va) by pdiv. destruct (Z.min_spec (nr_pages e - i) ((vend v0 - va) / PAGE_SIZE)) as [[? ->]|[? ->]]; plia. }
  unfold enqueue_pages. rewrite Sv1, Hlen, Hnw. pose proof Hi as Hinv. destruct Hr as (pr & up & Hc & Hat & Hcv & Hlv).
  destruct (inv_reader D Ss cs Hi) as (Rd & Rp & Rq). rewrite Hc, Hch in Rd. inversion Rd as [|? ? ? ? [D1 D2] Rd']; subst. inversion Rd'; subst. clear Rd'.
  rewrite Hc in Hlv. apply Forall_cons_1 in Hlv as [(Hpm & Hpos & _) _]. pose proof Hpm as [Hf Hs].
  assert (Href : forall a, ref_byte [pr] a = ref_byte chain a) by (intros a; rewrite Hch; apply ref_byte_data; by constructor).
  assert (Hpp : pagemap_in_parent e = false /\ pagemap_present e = true).
  { destruct (Hres (cvaddr pr)) as [x Hx]; [unfold pe_end in *; plia|]. rewrite <-Href in Hx. cbn in Hx.
    destruct Hat as (_ & Hk & _). rewrite (find_entry_at _ k e 0 (cvaddr pr) Hf Hs Hk) in Hx by (unfold covers; plia).
    destruct (pagemap_in_parent e); [done|]. by destruct (pagemap_present e). }
  destruct Hpp as [Hpar Hpres].
  assert (Hbyte : forall a, cvaddr pr <= a < cvaddr pr + n * PAGE_SIZE -> pi pr0 (pi_off pr + (a - cvaddr pr)) = ref chain a).
  { intros a Haa. unfold ref. rewrite <-Href, (ref_byte_at pr [] k e (cvaddr pr) a Hpm Hat eq_refl ltac:(lia) Hpar Hpres). by rewrite D2. }
  pose proof Hat as (Hpe & Hk & Hcur & Hcvb & Hoff). rewrite Hpres in Hoff.
  pose proof (pages_off_take _ _ _ Hf Hk) as Hpt. unfold present_bytes in Hpt. rewrite Hpres in Hpt.
  pose proof (pages_off_nonneg (take k (pmes pr)) (Forall_take _ _ _ Hf)) as Hpn.
  assert (Hhd : head chain = Some pr0) by (by rewrite Hch).
  destruct (iv_io _ _ _ _ _ _ _ _ Hi pr0 Hhd) as (Hpi & Sx & HS1 & HS2).
  assert (Hpi' : Forall (piov_in pr) (cs_io cs)) by (unfold piov_in in *; by rewrite D1).
  destruct (enqueue_in pr (cs_t cs) (cvaddr pr) (n * PAGE_SIZE) (cs_io cs) Hmalloc Hpi') as (t' & q' & Hq & Hqi & Hqm); [plia|lia|unfold pe_end in *; lia|].
  cbn [cs_chain cs_t cs_io upd_area]. rewrite Hc, Hq. change (negb (0 =? 0)) with false. cbn iota.
  unfold skip_pages. cbn [cs_chain upd_io upd_reader upd_area]. unfold skip_pagemap_pages. rewrite (proj2 (Z.eqb_neq _ _)) by plia. rewrite Hpe, Hpres.
  cbn [rbind]. rewrite Z.shiftr_div_pow2 by done. change (2 ^ PAGE_SHIFT) with PAGE_SIZE. rewrite Z.div_mul by done.
  rewrite (u64_id (cvaddr pr + n * PAGE_SIZE)) by plia.
  eexists n, Ss, _. split; [do 3 f_equal; lia|]. split; [lia|]. split; [|split].
  - eapply (inv_enqueue D Ss cs _ ix v0 pr0); try done.
    + intros a Haa. unfold in_area in *. lia.
    + cbn. split_and!; [rewrite Hch; constructor; [done|constructor]| |].
      * rewrite Hc in Rp. inversion Rp as [|S0 ? S1 ? Rp0 Rp1]; subst. constructor; [exact Rp0|done].
      * rewrite Hc in Rq. apply Forall_cons_1 in Rq as [Rq _]. constructor; [exact Rq|constructor].
    + cbn. unfold piov_in in *. by rewrite D1 in Hqi.
    + intros m b. cbn [cs_io count upd_reader upd_io]. rewrite Hqm. unfold blit. fold (within (cvaddr pr) (n * PAGE_SIZE) b).
      destruct (within (cvaddr pr) (n * PAGE_SIZE) b) eqn:Ew; [|done]. apply Hbyte. by apply within_true.
  - eexists _, []. split; [done|]. cbn. split; [|split; [done|]].
    + pose proof (at_entry_read pr k e (cvaddr pr) (n * PAGE_SIZE) Hat eq_refl ltac:(plia) ltac:(lia) ltac:(lia) Hva) as Hx.
      cbn zeta in Hx. rewrite Hpres, Hpe, u64_id in Hx by plia. exact Hx.
    + constructor; [|constructor]. split; [done|]. split; [|cbn; lia].
      pose proof (at_entry_read pr k e (cvaddr pr) (n * PAGE_SIZE) Hat eq_refl ltac:(plia) ltac:(lia) ltac:(lia) Hva) as Hx.
      cbn zeta in Hx. rewrite Hpres, Hpe, u64_id in Hx by plia. by eapply at_entry_pos.
  - apply (passed_after ix v0 cs _ (n * PAGE_SIZE)); [done|lia|plia|done].
Qed.

(** *** A turn *)
Lemma restore_pages_turn D Ss k e i va cs :
  turn_pre D Ss k e i va cs ->
  turn_post D k e i (nr_pages e) va (restore_pages env false false buf iofuel i (nr_pages e) va cs).
Proof.
  intros Hpre. pose proof Hpre as (Hi & _ & Hpass & He & Hii & Hvi & _ & _ & Hcov).
  destruct (Hcov va) as (v0 & Hv0 & Ha & Hpriv & Hkind).
  { destruct (turn_aligned _ _ _ _ _ _ _ Hpre) as (_ & _ & Hend & _). unfold covers. plia. }
  destruct (locate cs va v0 (iv_areas _ _ _ _ _ _ _ _ Hi) Hpass Hv0 Ha) as (ix & v & Hsk & Hix & Hv & Hsame & Hpass').
  unfold restore_pages. rewrite Hsk. cbn [cs_vmas upd_area]. rewrite Hv. cbn [deref rbind]. pose proof Hsame as (Se & Sp & _ & _).
  assert (Hve : (va <? v_start (va_e v)) = false) by (rewrite Se; unfold in_area in Ha; lia). rewrite Hve.
  unfold vma_area_is_private, vma_area_is in *. rewrite Se, Hpriv. cbn [negb]. fold (vma_area_is v0 VMA_PREMMAPED). fold (premapped v0).
  destruct (premapped v0) eqn:Epm; cbn [negb].
  - rewrite Sp. destruct (pvma v0) as [| |j] eqn:Ej.
    1,2: pose proof (read_run_turn D Ss k e i va cs ix v0 v Hpre Hix Hv Hsame Ha Hpass' Epm) as HT; unfold vma_inherited in HT; rewrite Ej in HT;
         specialize (HT eq_refl); rewrite Se in HT; exact HT.
    pose proof (compare_turn D Ss k e i va cs ix v0 v j Hpre Hix Hv Hsame Ha Hpass' Epm Ej) as HT. rewrite Se in HT. exact HT.
  - destruct Hkind as [?|[Hnw [pr0 Hch]]]; [congruence|]. by eapply (enqueue_turn D Ss k e i va cs ix v0 v pr0).
Qed.

(** ** All the pages of an entry *)
Lemma inv_ext D D' Ss cs : (forall a, D a = D' a) -> Inv D Ss cs -> Inv D' Ss cs.
Proof.
  intros HD [I1 I2 I3 I4 I5 I6 I7 I8 I9 I10]. split; try done.
  - intros v a. rewrite <-HD. apply I4.
  - intros b Hb. destruct (I6 b Hb) as (v & ? & ? & ? & Hx). exists v. by rewrite <-HD.
  - intros i v b H1 H2 H3. destruct (I8 i v b H1 H2 H3) as (v' & b' & ? & ? & ? & Hx). exists v', b'. split_and!; try done.
    intros n Hn. rewrite <-HD. by apply Hx.
  - intros v j p b H1 H2 H3 H4 H5. destruct (I9 v j p b H1 H2 H3 H4 H5) as (v' & b' & ? & ? & ? & Hx). exists v', b'. split_and!; try done.
    intros n Hn. rewrite <-HD. by apply Hx.
  - intros pr Hpr. destruct (I10 pr Hpr) as (? & Sx & ? & Hx). split; [done|]. exists Sx. split; [done|]. intros b. rewrite <-HD. apply Hx.
Qed.

Lemma grow_grow D va n m a : 0 <= n -> 0 <= m -> grow (grow D va n) (va + n) m a = grow D va (n + m) a.
Proof.
  intros Hn Hm. unfold grow. rewrite <-orb_assoc. f_equal. apply Bool.eq_iff_eq_true. rewrite orb_true_iff, !within_true. lia.
Qed.

Lemma pages_loop_ok fuel : forall D Ss k e i va cs,
  Inv D Ss cs -> reader_at k e va (cs_chain cs) -> areas_passed cs va -> pe_ok e -> 0 <= i <= nr_pages e ->
  va = vaddr e + i * PAGE_SIZE -> (forall a, va <= a -> D a = false) -> restorable env vs chain e ->
  (Z.to_nat (nr_pages e - i) < fuel)%nat ->
  exists Ss' cs', pages_loop env false false buf iofuel fuel i (nr_pages e) va cs = Done (Next (nr_pages e) (pe_end e), cs') /\
    Inv (grow D va ((nr_pages e - i) * PAGE_SIZE)) Ss' cs' /\ reader_at k e (pe_end e) (cs_chain cs') /\ areas_passed cs' (pe_end e).
Proof.
  induction fuel as [|fuel IH]; intros D Ss k e i va cs Hi Hr Hp He Hii Hva HD Hres Hf; [lia|]. cbn [pages_loop].
  destruct (Z.ltb_spec i (nr_pages e)) as [Hlt|Hge].
  - destruct (restore_pages_turn D Ss k e i va cs) as (n & Ss1 & cs1 & -> & Hn & Hi1 & Hr1 & Hp1); [unfold turn_pre; split_and!; (done || lia)|].
    cbn [rbind].
    destruct (IH (grow D va (n * PAGE_SIZE)) Ss1 k e (i + n) (va + n * PAGE_SIZE) cs1) as (Ss2 & cs2 & -> & Hi2 & Hr2 & Hp2); try done; try lia.
    { intros a Ha. unfold grow. rewrite HD by plia. apply within_false. lia. }
    exists Ss2, cs2. split; [done|]. split; [|done]. eapply inv_ext; [|exact Hi2]. intros a. rewrite grow_grow by plia.
    f_equal. lia.
  - assert (i = nr_pages e) as -> by lia. assert (va = pe_end e) as -> by done.
    exists Ss, cs. split; [done|]. split; [|done]. eapply inv_ext; [|exact Hi]. intros a. unfold grow.
    rewrite (proj2 (within_false _ _ _)) by lia. by rewrite orb_false_r.
Qed.

(** ** All the entries *)
Variable pm : list PagemapEntry.
Hypothesis Hpm : Forall pe_ok pm /\ pm_sorted pm.
Hypothesis Hhead : pmes <$> head chain = Some pm.
Hypothesis Hrest : forall e, e ∈ pm -> skipped env e = false -> restorable env vs chain e.

(** the bytes that the first [k] entries bring *)
Definition brought (l : list PagemapEntry) (a : Z) : bool :=
  existsb (fun e => negb (skipped env e) && ((vaddr e <=? a) && (a <? pe_end e))) l.

(** the reader is about to move on to entry [k]; the parents are at or before [lo] *)
Definition reader_before (k : nat) (lo : Z) (c : list page_read) : Prop :=
  exists pr up, c = pr :: up /\ pmes pr = pm /\
    (curr_pme pr = Z.of_nat k - 1 \/ (length pm <= k)%nat /\ Z.of_nat k - 1 <= curr_pme pr) /\
    pi_off pr = pages_off (take k pm) /\ Forall (fun p => pm_ok p /\ pos_ok p /\ cvaddr p <= lo) up.

Lemma reader_after k e c : pm !! k = Some e -> reader_at k e (pe_end e) c -> Forall2 same_data chain c -> reader_before (S k) (pe_end e) c.
Proof.
  intros Hk (pr & up & -> & Hat & Hcv & Hl) Hd. exists pr, up. apply Forall_cons_1 in Hl as [_ Hl].
  assert (Hpp : pmes pr = pm).
  { apply Forall2_cons_inv_r in Hd as (p0 & c0 & [D1 _] & _ & Heq). rewrite Heq in Hhead. cbn in Hhead. congruence. }
  destruct Hat as (_ & _ & Hc & _ & Ho). rewrite Hpp in *. pose proof (lookup_lt_Some _ _ _ Hk).
  split; [done|]. split; [done|]. split; [destruct Hc as [?|[? ?]]; [left; lia|right; lia]|]. split; [|done].
  rewrite Ho, (pages_off_snoc _ _ _ Hk), Hcv. unfold present_bytes, pe_end. destruct (pagemap_present e); lia.
Qed.

(** moving on changes nothing but the position *)
Lemma inv_reader_move D Ss cs c : Inv D Ss cs -> Forall2 (fun p p' => same_data p p' /\ async p' = async p) (cs_chain cs) c ->
  Inv D Ss (upd_reader cs (cs_t cs) (cs_mem cs) c).
Proof.
  intros [I1 I2 I3 I4 I5 I6 I7 I8 I9 I10] Hc. split; try done; cbn.
  - eapply Forall2_trans; [apply _|exact I1|]. eapply Forall2_impl; [|exact Hc]. by intros ? ? [? ?].
  - clear -I2 Hc. revert I2. generalize Ss. induction Hc as [|p p' c1 c2 [[H1 H2] H3] _ IH]; intros S0 HS; inversion HS; subst; constructor; [|by apply IH].
    intros m b. rewrite H2, H3. by match goal with H : pending _ _ _ |- _ => apply H end.
  - clear -I3 Hc. revert I3. induction Hc as [|p p' c1 c2 [[H1 H2] H3] _ IH]; intros HF; [constructor|]. apply Forall_cons_1 in HF as [HF1 HF2].
    constructor; [|by apply IH]. unfold piov_in in *. by rewrite H1, H3.
Qed.

Lemma move_head (pr pr' : page_read) up : same_data pr pr' -> async pr' = async pr ->
  Forall2 (fun p p' => same_data p p' /\ async p' = async p) (pr :: up) (pr' :: up).
Proof. intros H1 H2. constructor; [done|]. clear. induction up; by constructor. Qed.

Lemma advance_before k lo cs D Ss :
  Inv D Ss cs -> reader_before k lo (cs_chain cs) -> (forall e, pm !! k = Some e -> lo <= vaddr e) ->
  exists pr up pr', cs_chain cs = pr :: up /\
    match pm !! k with
    | Some e => advance pr = (true, pr') /\ pe pr' = Some e /\ reader_at k e (vaddr e) (pr' :: up)
    | None => advance pr = (false, pr')
    end /\ Inv D Ss (upd_reader cs (cs_t cs) (cs_mem cs) (pr' :: up)).
Proof.
  intros Hi (pr & up & Hc & Hp & Hcur & Ho & Hup) Hlo. exists pr, up.
  destruct (pm !! k) as [e|] eqn:Ek.
  - pose proof (lookup_lt_Some _ _ _ Ek). destruct Hcur as [Hcur|[? _]]; [|lia]. unfold advance. rewrite Hp, Hcur, (proj2 (Z.leb_gt _ _)) by lia.
    replace (Z.to_nat (Z.of_nat k - 1 + 1)) with k by lia. rewrite Ek. eexists. split; [done|]. split; [split; [done|split; [done|]]|].
    + assert (He : pe_ok e) by (destruct Hpm; by eapply Forall_lookup_1). pose proof (pe_ok_lt e He).
      assert (Hat : at_entry (set_pos pr (Some e) (vaddr e) (pi_off pr) (Z.of_nat k - 1 + 1)) k e).
      { unfold at_entry. cbn. rewrite Hp. split_and!; try done; try lia. rewrite Ho. destruct (pagemap_present e); lia. }
      eexists _, up. split; [done|]. split; [done|]. split; [done|]. constructor.
      * split; [unfold pm_ok; cbn; by rewrite Hp|]. split; [by eapply at_entry_pos|done].
      * eapply Forall_impl; [|exact Hup]. intros p (?&?&?). split_and!; try done. specialize (Hlo e eq_refl). lia.
    + apply inv_reader_move; [done|]. rewrite Hc. by apply move_head.
  - apply lookup_ge_None in Ek. unfold advance. rewrite Hp, (proj2 (Z.leb_le _ _)) by (destruct Hcur as [?|[? ?]]; lia).
    eexists. split; [done|]. split; [done|]. apply inv_reader_move; [done|]. rewrite Hc. by apply move_head.
Qed.

Lemma brought_snoc k e a : pm !! k = Some e ->
  brought (take (S k) pm) a = brought (take k pm) a || (negb (skipped env e) && within (vaddr e) (nr_pages e * PAGE_SIZE) a).
Proof.
  intros Hk. rewrite (take_S_r _ _ _ Hk). unfold brought. rewrite existsb_app. cbn. by rewrite orb_false_r.
Qed.

Lemma brought_before k e a : pm !! k = Some e -> vaddr e <= a -> brought (take k pm) a = false.
Proof.
  intros Hk Ha. destruct (brought (take k pm) a) eqn:E; [|done]. unfold brought in E. apply existsb_exists in E as (d & Hd & Hc).
  apply list_elem_of_In, list_elem_of_lookup in Hd as [j Hj]. apply lookup_take_Some in Hj as [Hj Hjk].
  apply andb_true_iff in Hc as [_ Hc]. destruct Hpm as [Hf Hs]. pose proof (pm_sorted_before pm j k d e Hf Hs Hjk Hj Hk). lia.
Qed.

Lemma skip_entry k e cs D Ss : pm !! k = Some e -> Inv D Ss cs -> reader_at k e (vaddr e) (cs_chain cs) ->
  exists cs', skip_pages (u64 (nr_pages e * PAGE_SIZE)) cs = Done cs' /\ Inv D Ss cs' /\ reader_before (S k) (pe_end e) (cs_chain cs') /\
    cs_area cs' = cs_area cs.
Proof.
  intros Hk Hi (pr & up & Hc & Hat & Hcv & Hl). assert (He : pe_ok e) by (destruct Hpm; by eapply Forall_lookup_1).
  pose proof He as (E1 & E2 & E3 & E4 & _). unfold skip_pages. rewrite Hc. unfold skip_pagemap_pages. rewrite (u64_id (nr_pages e * PAGE_SIZE)) by plia.
  rewrite (proj2 (Z.eqb_neq _ _)) by plia. pose proof Hat as (Hpe & _). rewrite Hpe. cbn [rbind]. eexists. split; [done|].
  set (pr' := set_pos pr _ _ _ _).
  assert (Hi' : Inv D Ss (upd_reader cs (cs_t cs) (cs_mem cs) (pr' :: up))).
  { apply inv_reader_move; [done|]. rewrite Hc. by apply move_head. }
  split; [done|]. split; [|done]. cbn [cs_chain upd_reader]. eapply reader_after; [done| |apply (iv_data _ _ _ _ _ _ _ _ Hi')].
  exists pr', up. split; [done|].
  pose proof (at_entry_read pr k e (vaddr e) (nr_pages e * PAGE_SIZE) Hat Hcv ltac:(plia) ltac:(unfold pe_end; lia) ltac:(lia) E1) as Hx. cbn zeta in Hx.
  assert (Hpr' : pr' = set_pos pr (pe pr) (u64 (cvaddr pr + nr_pages e * PAGE_SIZE)) (pi_off pr + (if pagemap_present e then nr_pages e * PAGE_SIZE else 0)) (curr_pme pr)).
  { unfold pr'. rewrite Hpe. f_equal. destruct (pagemap_present e); lia. }
  rewrite <-Hpr' in Hx. split; [done|]. split; [unfold pr'; cbn; rewrite Hcv, u64_id by (unfold pe_end in *; plia); done|].
  rewrite Hc in Hl. apply Forall_cons_1 in Hl as [(L1 & L2 & L3) Hl]. constructor.
  - split; [done|]. split; [by eapply at_entry_pos|]. unfold pr'. cbn. rewrite Hcv, u64_id by (unfold pe_end in *; plia). unfold pe_end. lia.
  - eapply Forall_impl; [|exact Hl]. intros p (?&?&?). split_and!; try done. pose proof (pe_ok_lt e He). lia.
Qed.

Lemma inv_count D Ss cs a b c d f : Inv D Ss cs -> Inv D Ss (count cs a b c d f).
Proof. by intros []. Qed.

Lemma entries_loop_ok n : forall k lo Ss cs, n = (length pm - k)%nat -> (k <= length pm)%nat ->
  Inv (brought (take k pm)) Ss cs -> reader_before k lo (cs_chain cs) -> (forall e, pm !! k = Some e -> lo <= vaddr e) ->
  areas_passed cs lo -> 
  exists Ss' cs', entries_loop env false false buf iofuel (S n) cs = Done (ErrRead 0, cs') /\ Inv (brought pm) Ss' cs'.
Proof.
  induction n as [|n IH]; intros k lo Ss cs Hn Hk Hi Hb Hlo Hpass; cbn [entries_loop].
  - destruct (advance_before k lo cs _ Ss Hi Hb Hlo) as (pr & up & pr' & -> & Hadv & Hi'). rewrite lookup_ge_None_2 in Hadv by lia.
    rewrite Hadv. cbn [negb]. exists Ss. eexists. split; [done|]. by rewrite take_ge in Hi' by lia.
  - destruct (advance_before k lo cs _ Ss Hi Hb Hlo) as (pr & up & pr' & -> & Hadv & Hi').
    destruct (lookup_lt_is_Some_2 pm k) as [e Ek]; [lia|]. rewrite Ek in Hadv. destruct Hadv as (-> & Hpe & Hr). cbn [negb]. rewrite Hpe. cbn [deref rbind].
    assert (He : pe_ok e) by (destruct Hpm; by eapply Forall_lookup_1). pose proof He as (E1 & E2 & E3 & E4 & _). specialize (Hlo e Ek).
    assert (Hnext : forall d, pm !! S k = Some d -> pe_end e <= vaddr d).
    { intros d Hd. destruct Hpm as [Hf Hs]. by apply (pm_sorted_before pm k (S k) e d Hf Hs ltac:(lia) Ek Hd). }
    assert (Hpassed : forall cs', cs_area cs' = cs_area cs -> areas_passed cs' (vaddr e)).
    { intros cs' Ha i v Hiv Hv. rewrite Ha in Hiv. specialize (Hpass i v Hiv Hv). lia. }
    fold (skipped env e). destruct (skipped env e) eqn:Es.
    + destruct (skip_entry k e _ _ Ss Ek Hi' Hr) as (cs1 & -> & Hi1 & Hb1 & Ha1). cbn [rbind].
      apply (IH (S k) (pe_end e) Ss); try done; try lia.
      * apply inv_count. eapply inv_ext; [|exact Hi1]. intros a. rewrite (brought_snoc _ _ _ Ek), Es. by rewrite orb_false_r.
      * pose proof (pe_ok_lt e He). intros i v Hiv Hv. cbn in Hiv. rewrite Ha1 in Hiv. specialize (Hpass i v Hiv Hv). lia.
    + destruct (pages_loop_ok (S (Z.to_nat (nr_pages e))) (brought (take k pm)) Ss k e 0 (vaddr e) _ Hi' Hr) as (Ss1 & cs1 & -> & Hi1 & Hr1 & Hp1);
        try done; try lia; [by apply Hpassed|by intros a Ha; eapply brought_before|apply Hrest; [by eapply list_elem_of_lookup_2|done]|].
      cbn [rbind]. rewrite Z.sub_0_r in Hi1. apply (IH (S k) (pe_end e) Ss1); try done; try lia.
      * eapply inv_ext; [|exact Hi1]. intros a. by rewrite (brought_snoc _ _ _ Ek), Es.
      * eapply reader_after; [done|done|apply (iv_data _ _ _ _ _ _ _ _ Hi1)].
Qed.
End Turns.
(** ** The pages that the child does not have *)
Section Drop.
Context {MK : MmKernel} `{!MmKernelLive MK}.

(** a page from [lo] to [hi] of an area at [addr], whose bit is set *)
Definition is_dropped (bm : list Z) (addr lo hi b : Z) : bool :=
  (addr + lo * PAGE_SIZE <=? b) && (b <? addr + hi * PAGE_SIZE) && bit bm ((b - addr) / PAGE_SIZE).

(** [mem'] is [mem] but for the dropped pages *)
Definition drops (f : Z -> bool) (s s' : aspace) : Prop :=
  as_prot s' = as_prot s /\ forall b, if f b then exists t, as_mem s' b = k_dropped t b else as_mem s' b = as_mem s b.

Lemma is_dropped_skip bm addr lo mid hi b : lo <= mid <= hi -> (forall n, lo <= n < mid -> bit bm n = false) ->
  is_dropped bm addr lo hi b = is_dropped bm addr mid hi b.
Proof.
  intros Hl Hz. unfold is_dropped. destruct (Z.lt_ge_cases b (addr + mid * PAGE_SIZE)) as [Hlt|Hge].
  - rewrite (proj2 (Z.leb_gt (addr + mid * PAGE_SIZE) b)) by lia. cbn. destruct (Z.leb_spec (addr + lo * PAGE_SIZE) b); [|done].
    rewrite Hz by (unfold PAGE_SIZE in *; Z.div_mod_to_equations; lia). by rewrite !andb_false_r.
  - rewrite !(proj2 (Z.leb_le _ b)) by plia. done.
Qed.

Lemma drop_loop_ok bm addr size fuel : words_ok bm -> size <= BITS_PER_LONG * Z.of_nat (length bm) ->
  0 <= addr -> addr + size * PAGE_SIZE < 2 ^ 64 -> forall i t s n,
  0 <= i <= size -> (Z.to_nat (size - i) < fuel)%nat ->
  exists t' s' n', drop_loop fuel bm addr size i (t, s) n = Done (0, (t', s'), n') /\ drops (is_dropped bm addr i size) s s'.
Proof.
  intros Hw Hsz Ha Hal. induction fuel as [|fuel IH]; intros i t s n Hi Hf; [lia|]. cbn [drop_loop].
  destruct (find_next_bit_ok bm size i Hw ltac:(lia) ltac:(lia)) as (r & -> & Hr). rewrite (proj2 (Z.leb_le i size)) in Hr by lia.
  destruct Hr as (Hr1 & Hr2 & Hr3). cbn [rbind]. destruct (Z.leb_spec size r) as [Hge|Hlt].
  - eexists _, _, _. split; [done|]. split; [done|]. intros b. rewrite (is_dropped_skip bm addr i size size b) by (lia || (intros; apply Hr2; lia)).
    unfold is_dropped. by destruct (Z.leb_spec (addr + size * PAGE_SIZE) b), (Z.ltb_spec b (addr + size * PAGE_SIZE)); cbn; try lia.
  - unfold madvise_dontneed. rewrite madvise_ok, (u64_id (addr + PAGE_SIZE * r)) by plia. change (0 <? 0) with false. change (0 =? 0) with true. cbn iota.
    destruct (IH (r + 1) (S t) (set_mem s (fun a => if within (addr + PAGE_SIZE * r) PAGE_SIZE a then k_dropped t a else as_mem s a)) (n + 1))
      as (t' & s' & n' & -> & Hp & Hd); [lia|lia|]. eexists _, _, _. split; [done|]. split; [done|]. intros b. specialize (Hd b).
    rewrite (is_dropped_skip bm addr i r size b) by (lia || (intros; apply Hr2; lia)). cbn in Hd.
    destruct (within (addr + PAGE_SIZE * r) PAGE_SIZE b) eqn:Ew.
    + apply within_true in Ew. assert (E : is_dropped bm addr r size b = true).
      { unfold is_dropped. rewrite (proj2 (Z.leb_le _ b)), (proj2 (Z.ltb_lt b _)) by plia. cbn.
        replace ((b - addr) / PAGE_SIZE) with r by pdiv. apply Hr3. lia. }
      rewrite E. destruct (is_dropped bm addr (r + 1) size b); [done|]. eauto.
    + apply within_false in Ew. assert (E : is_dropped bm addr r size b = is_dropped bm addr (r + 1) size b).
      { unfold is_dropped. do 2 f_equal. apply Bool.eq_iff_eq_true. rewrite !Z.leb_le. plia. }
      by rewrite E.
Qed.

(** the bit map of the parent's area *)
Definition parent_bitmap (pvs : list vma_area) (v : vma_area) : option (list Z) :=
  match pvma v with ParentArea j => p ← pvs !! j; page_bitmap p | _ => None end.

Definition dropped_of (pvs : list vma_area) (v : vma_area) (b : Z) : bool :=
  match parent_bitmap pvs v with Some bm => is_dropped bm (premmaped_addr v) 0 (pages_of v) b | None => false end.

Lemma drop_pages_ok pvs l : forall t s n,
  (forall v, v ∈ l -> vma_inherited v = true -> entry_ok (va_e v) /\ 0 <= premmaped_addr v /\ premmaped_addr v + (vend v - vstart v) <= TASK_SIZE /\
     exists bm, parent_bitmap pvs v = Some bm /\ bitmap_for (pages_of v) bm) ->
  exists t' s' n', drop_pages pvs l (t, s) n = Done (0, (t', s'), n') /\
    drops (fun b => existsb (fun v => dropped_of pvs v b) l) s s'.
Proof.
  induction l as [|v l IH]; intros t s n Hl; cbn [drop_pages existsb].
  { eexists _, _, _. split; [done|]. by split. }
  assert (Hl' : forall t s n, exists t' s' n', drop_pages pvs l (t, s) n = Done (0, (t', s'), n') /\
    drops (fun b => existsb (fun v => dropped_of pvs v b) l) s s').
  { intros ? ? ?. apply IH. intros w Hw. apply Hl. by apply list_elem_of_further. }
  assert (Hv : dropped_of pvs v = (fun b => false) \/ vma_inherited v = true).
  { unfold dropped_of, parent_bitmap, vma_inherited. destruct (pvma v); auto. }
  destruct (pvma v) as [| |j] eqn:Ej.
  1,2: destruct (Hl' t s n) as (t' & s' & n' & -> & Hp & Hd); eexists _, _, _; split; [done|]; split; [done|];
       intros b; unfold dropped_of at 1; unfold parent_bitmap; rewrite Ej; apply Hd.
  clear Hv. assert (Hinh : vma_inherited v = true) by (unfold vma_inherited; by rewrite Ej).
  destruct (Hl v ltac:(apply list_elem_of_here) Hinh) as ((V1 & V2 & V3 & V4 & V5 & V6) & A1 & A2 & bm & Hbm & Hw & Hn). unfold parent_bitmap in Hbm. rewrite Ej in Hbm.
  destruct (pvs !! j) as [p|] eqn:Hp; [|done]. cbn in Hbm. cbn [deref rbind]. rewrite Hbm. cbn [deref rbind].
  unfold vma_entry_len. rewrite u64_id by (unfold TASK_SIZE in *; lia). fold (pages_of v).
  assert (Hpl : pages_of v * PAGE_SIZE = vend v - vstart v /\ 0 <= pages_of v) by (unfold pages_of; pdiv). unfold TASK_SIZE in *.
  destruct (drop_loop_ok bm (premmaped_addr v) (pages_of v) (S (Z.to_nat (pages_of v))) Hw Hn A1 ltac:(lia) 0 t s n ltac:(lia) ltac:(lia))
    as (t1 & s1 & n1 & -> & Hpr1 & Hd1). cbn [rbind]. change (0 <? 0) with false. cbn iota.
  destruct (Hl' t1 s1 n1) as (t' & s' & n' & -> & Hpr & Hd). eexists _, _, _. split; [done|]. split; [congruence|].
  intros b. specialize (Hd b). specialize (Hd1 b). unfold dropped_of at 1. unfold parent_bitmap. rewrite Ej, Hp. cbn. rewrite Hbm.
  destruct (existsb _ l); [by rewrite orb_true_r|]. rewrite orb_false_r. destruct (is_dropped _ _ _ _ _); [|congruence].
  destruct Hd1 as [t0 ?]. exists t0. congruence.
Qed.
End Drop.

(** ** The whole *)

(** the reader after [reset] *)
Definition reader_reset (pr : page_read) : Prop :=
  pm_ok pr /\ pe pr = None /\ cvaddr pr = 0 /\ pi_off pr = 0 /\ curr_pme pr = -1 /\ async pr = [].

Definition parent_has (pvs : list vma_area) (v : vma_area) (n : Z) : bool :=
  match parent_bitmap pvs v with Some bm => bit bm n | None => false end.

(** [mem'] is the memory [mem] with what the pagemap [D] brings, and without what the parent had and the child has not *)
Definition contents_restored {MK : MmKernel} (vs pvs : list vma_area) (chain : list page_read) (buf : Z) (D : Z -> bool) (mem mem' : Z -> Z) : Prop :=
  (forall v a, v ∈ vs -> premapped v = true -> in_area v a ->
     if D a then ref_byte chain a = Some (mem' (tmp_addr v a))
     else if parent_has pvs v ((a - vstart v) / PAGE_SIZE) then exists t, mem' (tmp_addr v a) = k_dropped t (tmp_addr v a)
     else mem' (tmp_addr v a) = mem (tmp_addr v a)) /\
  (forall b, (forall v, v ∈ vs -> premapped v = true -> ~ in_tmp v b) -> ~ (buf <= b < buf + PAGE_SIZE) -> mem' b = mem b).

(** the requests left to the restorer bring the rest *)
Definition requests_left (vs : list vma_area) (chain : list page_read) (D : Z -> bool) (io : list page_read_iov) : Prop :=
  forall pr, head chain = Some pr -> Forall (piov_in pr) io /\
    forall m b, (D b = true /\ (exists v, v ∈ vs /\ in_area v b /\ premapped v = false) -> ref_byte chain b = Some (queue_mem (pi pr) io m b)) /\
      (~ (D b = true /\ exists v, v ∈ vs /\ in_area v b /\ premapped v = false) -> queue_mem (pi pr) io m b = m b).

(** the bit maps say which pages are there, for the children to come *)
Definition bitmaps_ok (vs vs' : list vma_area) (D : Z -> bool) : Prop :=
  Forall2 same_area vs vs' /\
  forall i v b, vs !! i = Some v -> premapped v = true -> page_bitmap v = Some b -> exists v' b',
    vs' !! i = Some v' /\ page_bitmap v' = Some b' /\ bitmap_for (pages_of v) b' /\
    forall n, 0 <= n < pages_of v -> bit b' n = bit b n || D (vstart v + n * PAGE_SIZE).

Lemma brought_aligned env l x a : Forall pe_ok l -> x <= a < x + PAGE_SIZE -> aligned x -> brought env l x = brought env l a.
Proof.
  intros Hf Hx Hal. unfold brought. induction Hf as [|e l (E1 & E2 & _) _ IH]; [done|]. cbn [existsb]. rewrite IH. f_equal. f_equal.
  unfold pe_end. apply Bool.eq_iff_eq_true. rewrite !andb_true_iff, !Z.leb_le, !Z.ltb_lt. pdiv.
Qed.

Lemma queues_ok iofuel c0 c : Forall2 same_data c0 c -> Forall (fun p => Forall (piov_in p) (async p)) c ->
  Forall (fun p => (Z.to_nat (pages_off (pmes p)) <= iofuel)%nat) c0 -> Forall (queue_ok iofuel) c.
Proof.
  induction 1 as [|x y c1 c2 [H1 H2] _ IH]; intros Hq Hf; [constructor|].
  apply Forall_cons_1 in Hq as [Hq ?], Hf as [Hf ?]. constructor; [|auto]. split; (eapply Forall_impl; [|exact Hq]); intros p (Hp & P1 & P2); [done|].
  rewrite H1 in P2. destruct Hp as (_ & Hpos & He). pose proof (bytes_nonneg _ Hpos). lia.
Qed.

Section Whole.
Context {RK : ReadKernel} `{!ReadKernelOk RK} `{!ReadKernelLive RK} {MK : MmKernel} `{!MmKernelLive MK}.
Hypothesis Hmalloc : forall t, k_xmalloc t = true.
Variable env : rst_env.
Variables (vs pvs : list vma_area) (pr : page_read) (up : list page_read) (buf : Z) (iofuel : nat).
Hypothesis Hset : setting vs pvs buf.
Hypothesis Hio : Forall (fun pr => (Z.to_nat (pages_off (pmes pr)) <= iofuel)%nat) (pr :: up).
Hypothesis Hpage : (Z.to_nat PAGE_SIZE <= iofuel)%nat.
Hypothesis Hreset : Forall reader_reset (pr :: up).
Hypothesis Hrest : forall e, e ∈ pmes pr -> skipped env e = false -> restorable env vs (pr :: up) e.

Abbreviation chain := (pr :: up).
Abbreviation D := (brought env (pmes pr)).

Lemma chain_idle : Forall (fun p => async p = []) chain.
Proof. eapply Forall_impl; [|exact Hreset]. by intros p (_&_&_&_&_&?). Qed.

Lemma inv_start t mem : inv vs pvs chain buf mem (brought env (take 0 (pmes pr))) (replicate (length chain) nothing)
  (mk_cs t mem chain vs pvs 0 [] 0 0 0 0 0).
Proof.
  assert (Hd : forall b, due (tmp_mem vs chain) (replicate (length chain) nothing) mem b = mem b) by (intros b; unfold due; by rewrite somewhere_nothing).
  split.
  - apply Forall2_refl, _.
  - apply pending_idle, chain_idle.
  - eapply Forall_impl; [|exact chain_idle]. by intros p ->.
  - intros v a _ _ _. by rewrite Hd.
  - intros b _ _. apply Hd.
  - intros b. by rewrite somewhere_nothing.
  - apply Forall2_refl. by intros v.
  - intros i v b Hi Hp Hb. destruct (st_tmp _ _ _ Hset v ltac:(by eapply list_elem_of_lookup_2) Hp) as (_ & _ & b' & Hb' & Hf).
    exists v, b. assert (b' = b) as -> by congruence. split_and!; try done. intros n Hn. by rewrite orb_false_r.
  - intros v j p b Hv Hp Hj Hpj Hb. destruct (st_parent _ _ _ Hset v j Hv Hj Hp) as (p' & b' & Hp' & Hb' & Hf).
    exists p, b. assert (b' = b) as -> by congruence. split_and!; try done. intros n Hn. by rewrite andb_true_r.
  - intros p _. split; [constructor|]. exists nothing. split; [done|]. intros b. split; [done|by intros [? _]].
Qed.

Lemma inv_sync mem Ss cs : inv vs pvs chain buf mem D Ss cs ->
  exists t' mem', process_async_reads false false None iofuel (cs_chain cs) (cs_t cs) (cs_mem cs) =
      Done (0, (t', mem', (fun p => set_async p []) <$> cs_chain cs)) /\
    forall b, mem' b = due (tmp_mem vs chain) Ss (cs_mem cs) b.
Proof.
  intros [I1 I2 I3 _ _ _ _ _ _ _]. destruct (process_async_ok iofuel (cs_chain cs) (cs_t cs) (cs_mem cs)) as (t' & mem' & Hrun & Hm).
  - by eapply queues_ok.
  - exists t', mem'. split; [done|]. intros b. rewrite Hm. by apply chain_mem_due.
Qed.

(** the pagemap brings whole pages *)
Lemma brought_page v a : v ∈ vs -> in_area v a -> D (vstart v + (a - vstart v) / PAGE_SIZE * PAGE_SIZE) = D a.
Proof.
  intros Hv Ha. destruct (st_entry _ _ _ Hset v Hv) as (V1 & V2 & V3 & V4 & V5 & V6).
  apply Forall_cons_1 in Hreset as [((Hf & _) & _) _]. unfold in_area in Ha.
  apply brought_aligned; [done|pdiv|]. unfold aligned in *. rewrite Z.add_mod, V4, Z.mod_mul by done. done.
Qed.

Lemma dropped_here mem Ss cs v a :
  inv vs pvs chain buf mem D Ss cs -> v ∈ vs -> premapped v = true -> in_area v a ->
  existsb (fun w => dropped_of (cs_pvmas cs) w (tmp_addr v a)) (cs_vmas cs) = parent_has pvs v ((a - vstart v) / PAGE_SIZE) && negb (D a).
Proof.
  intros Hi Hv Hp Ha. pose proof (iv_areas _ _ _ _ _ _ _ _ Hi) as Hsm. destruct (pages_of_bound vs pvs buf Hset v Hv) as [Hpl Hpb].
  pose proof Hv as Hv'. apply list_elem_of_lookup in Hv' as [i Hiv]. destruct (Forall2_lookup_l _ _ _ _ _ Hsm Hiv) as (v' & Hv' & S1 & S2 & S3 & _).
  assert (Hself : dropped_of (cs_pvmas cs) v' (tmp_addr v a) = parent_has pvs v ((a - vstart v) / PAGE_SIZE) && negb (D a)).
  { unfold dropped_of, parent_has, parent_bitmap. rewrite S2. destruct (pvma v) as [| |j] eqn:Ej; [done|done|].
    destruct (st_parent _ _ _ Hset v j Hv Ej Hp) as (p & b & Hpj & Hb & _).
    destruct (iv_parents _ _ _ _ _ _ _ _ Hi v j p b Hv Hp Ej Hpj Hb) as (p' & b' & Hp' & Hb' & _ & Hbits).
    rewrite Hp', Hpj. cbn. rewrite Hb', Hb. unfold is_dropped, pages_of, tmp_addr in *. rewrite S1, S3. unfold in_area in Ha.
    rewrite (proj2 (Z.leb_le _ _)), (proj2 (Z.ltb_lt _ _)) by lia. cbn.
    replace ((premmaped_addr v + (a - vstart v) - premmaped_addr v) / PAGE_SIZE) with ((a - vstart v) / PAGE_SIZE) by (f_equal; lia).
    rewrite Hbits by pdiv. by rewrite (brought_page v a Hv Ha). }
  apply Bool.eq_iff_eq_true. rewrite existsb_exists, <-Hself. split.
  - intros (w & Hw & Hd). apply list_elem_of_In, list_elem_of_lookup in Hw as [i' Hw]. destruct (Forall2_lookup_r _ _ _ _ _ Hsm Hw) as (w0 & Hw0 & W1 & W2 & W3 & _).
    assert (i' = i) as ->; [|by assert (w = v') as -> by congruence].
    assert (Hpw : premapped w0 = true).
    { apply (st_inherited _ _ _ Hset); [by eapply list_elem_of_lookup_2|]. unfold dropped_of, parent_bitmap in Hd. rewrite W2 in Hd. unfold vma_inherited. by destruct (pvma w0). }
    eapply (st_disjoint _ _ _ Hset i' i w0 v (tmp_addr v a)); try done.
    + unfold dropped_of in Hd. destruct (parent_bitmap _ _) as [bm|]; [|done]. unfold is_dropped, pages_of in Hd. rewrite W1, W3 in Hd.
      assert (Hw0v : w0 ∈ vs) by (by eapply list_elem_of_lookup_2). destruct (pages_of_bound vs pvs buf Hset w0 Hw0v). unfold pages_of, in_tmp in *. lia.
    + unfold in_tmp, tmp_addr, in_area in *. lia.
  - intros Hd. exists v'. split; [|done]. apply list_elem_of_In. by eapply list_elem_of_lookup_2.
Qed.

Lemma restore_priv_vma_content_ok t s : vs <> [] ->
  exists s' cs', restore_priv_vma_content env false false buf iofuel chain vs pvs [] (t, s) = Done (0, s', cs') /\
    as_prot s' = as_prot s /\ contents_restored vs pvs chain buf D (as_mem s) (as_mem s') /\
    requests_left vs chain D (cs_io cs') /\ bitmaps_ok vs (cs_vmas cs') D.
Proof.
  intros Hne. unfold restore_priv_vma_content.
  assert (Hv : forall A (x y : A), match vs with [] => x | _ :: _ => y end = y) by (intros; by destruct vs). rewrite Hv. clear Hne Hv.
  pose proof Hreset as Hr0. apply Forall_cons_1 in Hr0 as [(Hpm & R1 & R2 & R3 & R4 & R5) Hru].
  destruct (entries_loop_ok Hmalloc env vs pvs chain buf iofuel (as_mem s) Hset Hio Hpage (pmes pr) Hpm eq_refl Hrest
              (length (pmes pr)) 0 0 (replicate (length chain) nothing) (mk_cs t (as_mem s) chain vs pvs 0 [] 0 0 0 0 0))
    as (Ss & cs & -> & Hi).
  { lia. }
  { lia. }
  { apply inv_start. }
  { exists pr, up. split_and!; try done; [left; lia|]. eapply Forall_impl; [|exact Hru]. intros p (P1 & P2 & P3 & P4 & P5 & P6).
    split; [done|]. split; [|lia]. left. split_and!; try done. by left. }
  { intros e He. destruct Hpm as [Hf _]. by destruct (Forall_lookup_1 _ _ _ _ Hf He) as (? & _). }
  { intros i v Hx. cbn in Hx. lia. }
  cbn [rbind]. destruct (inv_sync (as_mem s) Ss cs Hi) as (t1 & m1 & -> & Hm1). cbn [rbind]. change (negb (0 =? 0)) with false. cbn iota.
  destruct (close_page_read_ok t1 ((fun p => set_async p []) <$> cs_chain cs)) as (t2 & c2 & ->); [apply Forall_fmap, Forall_true; done|].
  cbn [rbind]. change (0 <? 0) with false. cbn iota. cbn [cs_pvmas cs_vmas upd_reader].
  destruct (drop_pages_ok (cs_pvmas cs) (cs_vmas cs) t2 (set_mem s m1) 0) as (t3 & s3 & n3 & -> & Hp3 & Hd3).
  { intros v Hv Hinh. apply list_elem_of_lookup in Hv as [i Hiv].
    destruct (Forall2_lookup_r _ _ _ _ _ (iv_areas _ _ _ _ _ _ _ _ Hi) Hiv) as (v0 & Hv0 & S1 & S2 & S3 & _).
    assert (Hvv : v0 ∈ vs) by (by eapply list_elem_of_lookup_2). unfold vma_inherited in Hinh. rewrite S2 in Hinh.
    destruct (pvma v0) as [| |j] eqn:Ej; [done|done|]. assert (Hpre : premapped v0 = true) by (apply (st_inherited _ _ _ Hset); [done|unfold vma_inherited; by rewrite Ej]).
    destruct (st_tmp _ _ _ Hset v0 Hvv Hpre) as (T1 & T2 & _). destruct (st_parent _ _ _ Hset v0 j Hvv Ej Hpre) as (p & b & Hp & Hb & _).
    destruct (iv_parents _ _ _ _ _ _ _ _ Hi v0 j p b Hvv Hpre Ej Hp Hb) as (p' & b' & Hp' & Hb' & Hf & _).
    unfold pages_of, parent_bitmap in *. rewrite S1, S2, S3, Hp'. split; [by apply (st_entry _ _ _ Hset)|]. split; [done|]. split; [done|]. by exists b'. }
  cbn [rbind]. eexists s3, _. split; [done|]. split; [by rewrite Hp3|]. split; [split|split].
  - intros v a Hv Hpv Ha. specialize (Hd3 (tmp_addr v a)). rewrite (dropped_here (as_mem s) Ss cs v a Hi Hv Hpv Ha) in Hd3. cbn [as_mem set_mem] in Hd3.
    rewrite Hm1, (iv_mem _ _ _ _ _ _ _ _ Hi v a Hv Hpv Ha) in Hd3. destruct (D a) eqn:Ed.
    + rewrite andb_false_r in Hd3. rewrite Hd3. unfold ref. unfold brought in Ed. apply existsb_exists in Ed as (e & He & Hc).
      apply list_elem_of_In in He. apply andb_true_iff in Hc as [Hsk%negb_true_iff Hc].
      destruct (Hrest e He Hsk) as [Hres _]. destruct (Hres a) as [x ->]; [unfold pe_end in Hc; lia|done].
    + rewrite andb_true_r in Hd3. by destruct (parent_has _ _ _).
  - intros b Hb1 Hb2. specialize (Hd3 b). destruct (existsb _ _) eqn:Ex.
    + exfalso. apply existsb_exists in Ex as (w & Hw & Hd). apply list_elem_of_In, list_elem_of_lookup in Hw as [i Hw].
      destruct (Forall2_lookup_r _ _ _ _ _ (iv_areas _ _ _ _ _ _ _ _ Hi) Hw) as (w0 & Hw0 & W1 & W2 & W3 & _).
      assert (Hwv : w0 ∈ vs) by (by eapply list_elem_of_lookup_2). apply (Hb1 w0 Hwv).
      * apply (st_inherited _ _ _ Hset); [done|]. unfold dropped_of, parent_bitmap in Hd. rewrite W2 in Hd. unfold vma_inherited. by destruct (pvma w0).
      * unfold dropped_of in Hd. destruct (parent_bitmap _ _) as [bm|]; [|done]. unfold is_dropped, pages_of in Hd. rewrite W1, W3 in Hd.
        destruct (pages_of_bound vs pvs buf Hset w0 Hwv). unfold pages_of, in_tmp in *. lia.
    + rewrite Hd3. cbn. rewrite Hm1. by apply (iv_frame _ _ _ _ _ _ _ _ Hi).
  - intros p Hp. destruct (iv_io _ _ _ _ _ _ _ _ Hi p Hp) as (Hpi & Sx & HS1 & HS2). split; [done|]. intros m b. cbn [cs_io count upd_reader]. rewrite HS1.
    specialize (HS2 b). destruct (Sx b).
    + assert (Hx : D b = true /\ exists v, v ∈ vs /\ in_area v b /\ premapped v = false) by (by apply HS2). split; [|by intros []].
      intros _. destruct Hx as [Ed _]. unfold brought in Ed. apply existsb_exists in Ed as (e & He & Hc).
      apply list_elem_of_In in He. apply andb_true_iff in Hc as [Hsk%negb_true_iff Hc].
      destruct (Hrest e He Hsk) as [Hres _]. unfold ref. destruct (Hres b) as [x ->]; [unfold pe_end in Hc; lia|done].
    + split; [|done]. intros Hx. by apply HS2 in Hx.
  - split; [apply (iv_areas _ _ _ _ _ _ _ _ Hi)|apply (iv_bits _ _ _ _ _ _ _ _ Hi)].
Qed.
End Whole.


(** an area in its temporary place and one that is read in place *)
Definition demo_area (start end_ status addr : Z) : vma_area :=
  mk_varea (mk_vma (start * PAGE_SIZE) (end_ * PAGE_SIZE) 0 0 3 0x22 (Z.lor (Z.lor VMA_AREA_REGULAR VMA_ANON_PRIVATE) status))
           NoPvma (Some [0]) addr false.
Definition demo_areas : list vma_area := [demo_area 3 5 VMA_PREMMAPED 0x100000; demo_area 20 22 0 0].
Definition demo_env : rst_env := mk_env (2 ^ 47 - PAGE_SIZE) false false.
Definition demo_reset : page_read :=
  mk_pr None 0 0 (mk_iovec 0 0) [page 4 1 PE_PRESENT; page 20 2 PE_PRESENT] (-1) [] (fun i => i mod 256) 1 1.
Definition demo_space : aspace := mk_as (fun _ => 0) (fun _ => None).

Lemma demo_areas_case v : v ∈ demo_areas -> v = demo_area 3 5 VMA_PREMMAPED 0x100000 \/ v = demo_area 20 22 0 0.
Proof. unfold demo_areas. rewrite !elem_of_cons. intros [?|[?|[]%elem_of_nil]]; auto. Qed.

Lemma demo_areas_premapped i v : demo_areas !! i = Some v -> premapped v = true -> i = 0%nat /\ v = demo_area 3 5 VMA_PREMMAPED 0x100000.
Proof. destruct i as [|[|]]; intros [= <-]; done. Qed.

Lemma demo_setting : setting demo_areas [] 0x200000.
Proof.
  split.
  - intros v [->| ->]%demo_areas_case; vm_compute; split_and!; congruence.
  - intros [|[|]] [|[|]] v w Hij; try lia; intros [= <-] [= <-]. vm_compute. congruence.
  - intros v [->| ->]%demo_areas_case Hp; [|done]. split; [done|]. split; [vm_compute; congruence|]. exists [0]. split; [done|].
    split; [by repeat constructor|vm_compute; congruence].
  - intros i j v w b Hi Hj Hpv Hpw _ _. destruct (demo_areas_premapped i v Hi Hpv) as [-> _]. by destruct (demo_areas_premapped j w Hj Hpw) as [-> _].
  - intros v b [->| ->]%demo_areas_case Hp; [|done]. unfold in_tmp. cbn. unfold PAGE_SIZE. lia.
  - intros v j [->| ->]%demo_areas_case; done.
  - intros v [->| ->]%demo_areas_case; done.
  - intros i i' v w j Hi Hj Hpv Hpw. destruct (demo_areas_premapped i v Hi Hpv) as [-> _]. by destruct (demo_areas_premapped i' w Hj Hpw) as [-> _].
Qed.

Lemma demo_reset_ok : pm_ok demo_reset.
Proof. split; [|by repeat constructor]. repeat constructor; unfold pe_end; cbn; unfold PAGE_SIZE; (lia || done). Qed.

End Content.
