(* ===== verification/PageXfer.v ===== *)
(** * Page transfer (criu/page-xfer.c, criu/include/page-xfer.h)

    The pages of a page pipe are transferred into images: a pagemap entry for every
    iovec and every hole, and the bytes of the pages spliced from the pipes.  There
    are two engines behind the [struct page_xfer] interface ([XferOps]): local image
    files, and a page server that is sent the same requests over a socket and writes
    them to its own local files.  Pipes, sockets and image files are byte streams. *)
From stdpp Require Import sorting.
From S2P Require Import Prelude.
From S2P Require Import PagePipe.
From S2P Require Import Pagemap.
Import PagePipe.PagePipe Pagemap.Pagemap.

Module PageXfer.
Open Scope cmon_scope.

(** ** Byte streams *)

(** the bytes [s_rd .. s_wr) are yet to be read; in a file [s_rd] is 0 *)
Record stream := mk_stream { s_data : Z -> Z; s_rd : Z; s_wr : Z }.

Definition empty_stream : stream := mk_stream (fun _ => 0) 0 0.
Definition avail (s : stream) : Z := s_wr s - s_rd s.
Definition push (s : stream) (f : Z -> Z) (off n : Z) : stream :=
  mk_stream (blit (s_data s) (s_wr s) f off n) (s_rd s) (s_wr s + n).
Definition skip (s : stream) (n : Z) : stream := mk_stream (s_data s) (s_rd s + n) (s_wr s).

(** the pipe [fd] of the dumper; nothing was put yet into one that is not there *)
Definition pipe_at (ps : gmap Z stream) (fd : Z) : stream := default empty_stream (ps !! fd).

(** What the kernel answers, call by call: [k_splice t n] moves [n] bytes that are there. *)
Class XferKernel := {
  k_splice : clock -> Z -> Z;
  k_send : clock -> Z -> Z;
  k_pb_write : clock -> bool;           (* pb_write_one *)
  k_open_image : clock -> bool;         (* open_image, open_pages_image *)
}.

(** splice(2), send(2): "-1 on error", otherwise a number of bytes not above the request. *)
Class XferKernelOk (K : XferKernel) : Prop := {
  splice_le : forall t n, k_splice t n <= n;
}.

(** a kernel on which no call fails and every transfer makes progress *)
Class XferKernelLive (K : XferKernel) : Prop := {
  splice_pos : forall t n, 1 <= n -> 1 <= k_splice t n;
  send_all : forall t n, k_send t n = n;
  pb_write_ok : forall t, k_pb_write t = true;
}.

(** a splice of [n] bytes when [a] are available *)
Definition do_splice {K : XferKernel} (t : clock) (n a : Z) : Z :=
  if Z.min n a <=? 0 then 0 else k_splice t (Z.min n a).

(** ** Protocol *)

Record page_server_iov := mk_psi { ps_cmd : Z; ps_nr_pages : Z; ps_vaddr : Z; ps_dst_id : Z }.

#[global] Instance page_server_iov_eq_dec : EqDecision page_server_iov.
Proof. solve_decision. Defined.

Definition psi2iovec (ps : page_server_iov) : iovec :=
  mk_iovec (ps_vaddr ps) (u64 (ps_nr_pages ps * PAGE_SIZE)).

Definition PS_IOV_ADD : Z := 1.
Definition PS_IOV_HOLE : Z := 2.
Definition PS_IOV_OPEN : Z := 3.
Definition PS_IOV_OPEN2 : Z := 4.
Definition PS_IOV_PARENT : Z := 5.
Definition PS_IOV_ADD_F : Z := 6.
Definition PS_IOV_GET : Z := 7.
Definition PS_IOV_FLUSH : Z := 0x1023.
Definition PS_IOV_FLUSH_N_CLOSE : Z := 0x1024.

Definition PS_CMD_BITS : Z := 16.
Definition PS_CMD_MASK : Z := Z.shiftl 1 PS_CMD_BITS - 1.
Definition PS_TYPE_BITS : Z := 8.
Definition PS_TYPE_MASK : Z := Z.shiftl 1 PS_TYPE_BITS - 1.
Definition PS_TYPE_PID : Z := 1.
Definition PS_TYPE_SHMEM : Z := 2.

(** the two image types that have pages, of the enum of image-desc.h *)
Inductive fd_type := CR_FD_PAGEMAP | CR_FD_SHMEM_PAGEMAP | CR_FD_OTHER (n : Z).

#[global] Instance fd_type_eq_dec : EqDecision fd_type.
Proof. solve_decision. Defined.

(** [None] is BUG() *)
Definition encode_pm (type : fd_type) (id : Z) : option Z :=
  match type with
  | CR_FD_PAGEMAP => Some (Z.lor (u64 (Z.shiftl id PS_TYPE_BITS)) PS_TYPE_PID)
  | CR_FD_SHMEM_PAGEMAP => Some (Z.lor (u64 (Z.shiftl id PS_TYPE_BITS)) PS_TYPE_SHMEM)
  | CR_FD_OTHER _ => None
  end.

(** the type and the id, or [None] for -1 *)
Definition decode_pm (dst_id : Z) : option (fd_type * Z) :=
  let type := Z.land dst_id PS_TYPE_MASK in
  if bool_decide (type ∈ [10; 11; 16; 17; PS_TYPE_PID])
  then Some (CR_FD_PAGEMAP, Z.shiftr dst_id PS_TYPE_BITS)
  else if bool_decide (type ∈ [27; 28; 29; 32; 33; 34; PS_TYPE_SHMEM])
  then Some (CR_FD_SHMEM_PAGEMAP, Z.shiftr dst_id PS_TYPE_BITS)
  else None.

Definition encode_ps_cmd (cmd flags : Z) : Z := Z.lor (u32 (Z.shiftl flags PS_CMD_BITS)) cmd.
Definition decode_ps_cmd (cmd : Z) : Z := Z.land cmd PS_CMD_MASK.
Definition decode_ps_flags (cmd : Z) : Z := Z.shiftr cmd PS_CMD_BITS.

(** [struct page_server_iov] as it lies in memory, little endian: two u32 and two u64 *)
Definition PSI_SIZE : Z := 24.
Definition psi_bytes (p : page_server_iov) (i : Z) : Z :=
  if i <? 4 then le_byte (ps_cmd p) i
  else if i <? 8 then le_byte (ps_nr_pages p) (i - 4)
  else if i <? 16 then le_byte (ps_vaddr p) (i - 8)
  else le_byte (ps_dst_id p) (i - 16).
Definition psi_of_bytes (f : Z -> Z) (off : Z) : page_server_iov :=
  mk_psi (le_word 4 f off) (le_word 4 f (off + 4)) (le_word 8 f (off + 8)) (le_word 8 f (off + 16)).
(** ** The engines *)

(** [struct page_xfer] as a client sees it: state transformers that return 0 or an error *)
Class XferOps (St : Type) := {
  write_pagemap : iovec -> Z -> M St Z;
  write_pages : Z -> Z -> M St Z;
}.

(** the pipes of the dumper, by the descriptor of their read end *)
Abbreviation pipes := (gmap Z stream) (only parsing).

(** *** Local images *)
Record loc_xfer := mk_loc {
  pmi : list PagemapEntry;         (* the pagemap image *)
  lpi : stream;                    (* the pages image *)
  parent : list page_read;         (* the chain of parent snapshots; [] is NULL *)
}.

Definition set_parent (x : loc_xfer) (c : list page_read) : loc_xfer := mk_loc (pmi x) (lpi x) c.
Definition set_lpi (x : loc_xfer) (s : stream) : loc_xfer := mk_loc (pmi x) s (parent x).

Section Local.
Context {XK : XferKernel} {RK : ReadKernel}.
Variable auto_dedup : bool.

(** the loop of [write_pages_loc] *)
Fixpoint splice_loc (fuel : nat) (t : clock) (p img : stream) (len curr : Z)
  : res (Z * (clock * stream * stream)) :=
  match fuel with
  | O => NoFuel
  | S fuel =>
    let r := do_splice t (len - curr) (avail p) in
    if r =? -1 then Done (-1, (S t, p, img))
    else if r =? 0 then Done (-1, (S t, p, img))
    else
      let img := push img (s_data p) (s_rd p) r in
      let p := skip p r in
      if curr + r =? len then Done (0, (S t, p, img))
      else splice_loc fuel (S t) p img len (curr + r)
  end.

Definition lst : Type := clock * pipes * loc_xfer.

(** the fuel: every turn of the loop but the last moves at least a byte *)
Definition write_pages_loc (fd len : Z) : M lst Z :=
  fun '(t, ps, x) =>
    match ps !! fd with
    | None => Done (-1, (t, ps, x))                    (* EBADF *)
    | Some p =>
      match splice_loc (S (Z.to_nat len)) t p (lpi x) len 0 with
      | Done (r, (t, p, img)) => Done (r, (t, <[fd := p]> ps, set_lpi x img))
      | Bug => Bug
      | NoFuel => NoFuel
      end
    end.

Fixpoint pagehole_loop (fuel : nat) (p : page_read) (off end_ : Z) : res (Z * page_read) :=
  match fuel with
  | O => NoFuel
  | S fuel =>
    match seek_pagemap p off with
    | Bug => Bug
    | NoFuel => NoFuel
    | Done (found, p) =>
      match found, pe p with
      | true, Some e =>
        let pend := u64 (vaddr e + pagemap_len e) in
        if end_ <=? pend then Done (0, p) else pagehole_loop fuel p pend end_
      | _, _ => Done (-1, p)
      end
    end
  end.

(** the fuel: every turn passes an entry of the pagemap *)
Definition check_pagehole_in_parent (p : page_read) (iov : iovec) : res (Z * page_read) :=
  pagehole_loop (S (length (pmes p))) p (iov_base iov) (u64 (iov_base iov + iov_len iov)).

Definition write_pagemap_loc (iov : iovec) (flags : Z) : M lst Z :=
  fun '(t, ps, x) =>
    let e := mk_pe (iov_base iov) (u32 (iov_len iov / PAGE_SIZE)) false false true flags in
    let write (t : clock) (c : list page_read) :=
      if k_pb_write t
      then Done (0, (S t, ps, mk_loc (pmi x ++ [e]) (lpi x) c))
      else Done (-1, (S t, ps, set_parent x c)) in
    if has flags PE_PRESENT then
      if auto_dedup && negb (bool_decide (parent x = [])) then
        match dedup_one_iovec (length (parent x)) (vaddr e) (pagemap_len e) (t, parent x) with
        | Done (r, (t, c)) =>
          if r =? -1 then Done (-1, (t, ps, set_parent x c)) else write t c
        | Bug => Bug
        | NoFuel => NoFuel
        end
      else write t (parent x)
    else if has flags PE_PARENT then
      match parent x with
      | [] => write t []
      | p :: up =>
        match check_pagehole_in_parent p iov with
        | Done (r, p) =>
          if negb (r =? 0) then Done (-1, (t, ps, set_parent x (p :: up))) else write t (p :: up)
        | Bug => Bug
        | NoFuel => NoFuel
        end
      end
    else write t (parent x).

#[export] Instance LocalXfer : XferOps lst := {
  write_pagemap := write_pagemap_loc;
  write_pages := write_pages_loc;
}.

(** the parent reader is flushed and released; what was written stays *)
Definition close_page_xfer (x : loc_xfer) (t : clock) : res (clock * loc_xfer) :=
  match close_page_read t (parent x) with
  | Done (t, _) => Done (t, set_parent x [])
  | Bug => Bug
  | NoFuel => NoFuel
  end.

(** [dirs]: the directory behind the parent link and those above it, [None] without a link *)
Definition open_page_local_xfer (stream_mode : bool) (dirs : option (list imgdir))
           (type : fd_type) (id : Z) : M (clock * Z) (option loc_xfer) :=
  fun '(t, ids) =>
    let x := mk_loc [] empty_stream [] in
    if negb (k_open_image t) then Done (None, (S t, ids))
    else if negb (k_open_image (S t)) then Done (None, (S (S t), ids))
    else
      let t := S (S t) in
      match type, dirs with
      | CR_FD_OTHER _, _ => Done (Some x, (t, ids))
      | _, None => Done (Some x, (t, ids))
      | _, Some dirs =>
        if stream_mode then Done (Some x, (t, ids))
        else if negb (k_xmalloc t) then Done (None, (S t, ids))
        else
          match open_page_read_at stream_mode dirs id ids (S t) with
          | Done (r, c, ids, t) =>
            if r <=? 0 then Done (Some x, (t, ids)) else Done (Some (set_parent x c), (t, ids))
          | Bug => Bug
          | NoFuel => NoFuel
          end
      end.
End Local.
Arguments lst : clear implicits.

(** *** Page server *)
Record server_xfer := mk_srv { sk : stream; dst_id : Z }.

Section Remote.
Context {XK : XferKernel}.

Definition send_psi (pi : page_server_iov) : M (clock * stream) Z :=
  fun '(t, s) =>
    if k_send t PSI_SIZE =? PSI_SIZE then Done (0, (S t, push s (psi_bytes pi) 0 PSI_SIZE))
    else Done (-1, (S t, s)).

(** the loop of [write_pages_to_server], without TLS *)
Fixpoint splice_srv (fuel : nat) (t : clock) (p s : stream) (left : Z)
  : res (Z * (clock * stream * stream)) :=
  match fuel with
  | O => NoFuel
  | S fuel =>
    if left <=? 0 then Done (0, (t, p, s))
    else
      let r := do_splice t left (avail p) in
      if r <? 0 then Done (-1, (S t, p, s))
      else splice_srv fuel (S t) (skip p r) (push s (s_data p) (s_rd p) r) (left - r)
  end.

Definition sst : Type := clock * pipes * server_xfer.

Definition write_pages_to_server (fd len : Z) : M sst Z :=
  fun '(t, ps, x) =>
    match ps !! fd with
    | None => Done (-1, (t, ps, x))
    | Some p =>
      match splice_srv (S (Z.to_nat len)) t p (sk x) len with
      | Done (r, (t, p, s)) => Done (r, (t, <[fd := p]> ps, mk_srv s (dst_id x)))
      | Bug => Bug
      | NoFuel => NoFuel
      end
    end.

Definition write_pagemap_to_server (iov : iovec) (flags : Z) : M sst Z :=
  fun '(t, ps, x) =>
    let pi := mk_psi (encode_ps_cmd PS_IOV_ADD_F flags) (u32 (iov_len iov / PAGE_SIZE))
                     (iov_base iov) (dst_id x) in
    match send_psi pi (t, sk x) with
    | Done (r, (t, s)) => Done (r, (t, ps, mk_srv s (dst_id x)))
    | Bug => Bug
    | NoFuel => NoFuel
    end.

#[export] Instance ServerXfer : XferOps sst := {
  write_pagemap := write_pagemap_to_server;
  write_pages := write_pages_to_server;
}.

(** [answer]: what recv of the one byte [has_parent] gives.  The result is 0 and whether the
    server has a parent image, or -1. *)
Definition open_page_server_xfer (type : fd_type) (img_id : Z) (answer : option Z)
  : M sst (option bool) :=
  fun '(t, ps, x) =>
    match encode_pm type img_id with
    | None => Bug
    | Some d =>
      match send_psi (mk_psi PS_IOV_OPEN2 0 0 d) (t, sk x) with
      | Done (r, (t, s)) =>
        let x := mk_srv s d in
        if negb (r =? 0) then Done (None, (t, ps, x))
        else match answer with
             | None => Done (None, (t, ps, x))
             | Some c => Done (Some (negb (c =? 0)), (t, ps, x))
             end
      | Bug => Bug
      | NoFuel => NoFuel
      end
    end.
End Remote.
Arguments sst : clear implicits.

(** ** Transferring a page pipe *)
Section Dump.
Context {St : Type} {X : XferOps St}.
Variables (offset : Z) (transfer_lazy : bool).

Definition page_xfer_dump_hole (hole : iovec) (flags : Z) : M St Z :=
  bug_on (iov_base hole <? offset) ;;;
  r <~ write_pagemap (mk_iovec (iov_base hole - offset) (iov_len hole)) flags ;;
  ret (if r =? 0 then 0 else -1).

Definition get_hole_flags (hole_flags : Z) : option Z :=
  if hole_flags =? PP_HOLE_PARENT then Some PE_PARENT else None.

(** [l]: the holes from [cur_hole] on; [limit] 0 is NULL.  Returns the new [cur_hole]. *)
Fixpoint dump_holes (l : list (iovec * Z)) (cur_hole : nat) (limit : Z) : M St (Z * nat) :=
  match l with
  | [] => ret (0, cur_hole)
  | (hole, fl) :: l =>
    if negb (limit =? 0) && (limit <=? iov_base hole) then ret (0, cur_hole)
    else
      match get_hole_flags fl with
      | None => bug
      | Some fl =>
        r <~ page_xfer_dump_hole hole fl ;;
        if negb (r =? 0) then ret (r, cur_hole) else dump_holes l (S cur_hole) limit
      end
  end.

Definition pp_holes (pp : page_pipe) : list (iovec * Z) :=
  take (Z.to_nat (free_hole pp)) (zip (holes pp) (hole_flags pp)).

Definition ppb_xfer_flags (ppb : page_pipe_buf) : Z :=
  if has (ppb_flags ppb) PPB_LAZY
  then Z.lor (if transfer_lazy then PE_PRESENT else 0) PE_LAZY
  else PE_PRESENT.

(** the inner loop of [page_xfer_dump_pages], over the iovecs of one buffer *)
Fixpoint dump_segs (pp : page_pipe) (ppb : page_pipe_buf) (l : list iovec) (cur_hole : nat)
  : M St (Z * nat) :=
  match l with
  | [] => ret (0, cur_hole)
  | iov :: l =>
    h <~ dump_holes (drop cur_hole (pp_holes pp)) cur_hole (iov_base iov) ;;
    let '(r, cur_hole) := h in
    if negb (r =? 0) then ret (r, cur_hole)
    else
      bug_on (iov_base iov <? offset) ;;;
      let flags := ppb_xfer_flags ppb in
      r <~ write_pagemap (mk_iovec (iov_base iov - offset) (iov_len iov)) flags ;;
      if negb (r =? 0) then ret (-1, cur_hole)
      else
        r <~ (if has flags PE_PRESENT then write_pages (p0 ppb) (iov_len iov) else ret 0) ;;
        if negb (r =? 0) then ret (-1, cur_hole) else dump_segs pp ppb l cur_hole
  end.

Fixpoint dump_bufs (pp : page_pipe) (l : list nat) (cur_hole : nat) : M St (Z * nat) :=
  match l with
  | [] => ret (0, cur_hole)
  | id :: l =>
    match pp_heap pp !! id with
    | None => bug                                       (* a dangling list entry *)
    | Some ppb =>
      h <~ dump_segs pp ppb (segs pp ppb) cur_hole ;;
      let '(r, cur_hole) := h in
      if negb (r =? 0) then ret (r, cur_hole) else dump_bufs pp l cur_hole
    end
  end.

Definition page_xfer_dump_pages (pp : page_pipe) : M St Z :=
  h <~ dump_bufs pp (bufs pp) 0 ;;
  let '(r, cur_hole) := h in
  if negb (r =? 0) then ret r
  else
    h <~ dump_holes (drop cur_hole (pp_holes pp)) cur_hole 0 ;;
    ret (fst h).
End Dump.

(** ** The page server *)

(** what the server sends back *)
Inductive answer :=
| HasParent (b : bool)
| ParentRet (r : Z)
| Status (r : Z)
| Pages (pi : page_server_iov) (fd from to : Z).      (* the bytes [from, to) of a pipe *)

Record server := mk_server {
  sv_t : clock;
  sv_ids : Z;
  sv_in : stream;                     (* what the client sends *)
  sv_out : list answer;
  cx_dst_id : Z;                      (* cxfer *)
  cx_pipe : stream;
  cx_pipe_size : Z;
  cx_loc : loc_xfer;
  cx_open : bool;                     (* the images of [cx_loc] are open *)
  sv_disk : list (Z * loc_xfer);      (* the images written and closed, by [dst_id] *)
  sv_pps : gmap Z page_pipe;          (* the page pipes of the tasks, for PS_IOV_GET *)
}.

Definition NO_DST : Z := 2 ^ 64 - 1.

Definition set_io (s : server) (t : clock) (i : stream) : server :=
  mk_server t (sv_ids s) i (sv_out s) (cx_dst_id s) (cx_pipe s) (cx_pipe_size s) (cx_loc s) (cx_open s)
            (sv_disk s) (sv_pps s).
Definition set_cx (s : server) (t : clock) (p : stream) (x : loc_xfer) : server :=
  mk_server t (sv_ids s) (sv_in s) (sv_out s) (cx_dst_id s) p (cx_pipe_size s) x (cx_open s)
            (sv_disk s) (sv_pps s).
Definition reply (s : server) (t : clock) (a : list answer) : server :=
  mk_server t (sv_ids s) (sv_in s) (sv_out s ++ a) (cx_dst_id s) (cx_pipe s) (cx_pipe_size s) (cx_loc s)
            (cx_open s) (sv_disk s) (sv_pps s).

Section Server.
Context {XK : XferKernel} {RK : ReadKernel}.
Variables (auto_dedup stream_mode : bool).
(** the parent directory of a pagemap image and those above it *)
Variable pardirs : fd_type -> Z -> option (list imgdir).
Variables (lazy_pages : bool) (ps_socket : Z).

(** Closing images that are not open is a use after free. *)
Definition page_server_close : M server unit :=
  fun s =>
    if cx_dst_id s =? NO_DST then Done (tt, s)
    else if negb (cx_open s) then Bug
    else
      match close_page_xfer (cx_loc s) (sv_t s) with
      | Done (t, x) =>
        Done (tt, mk_server t (sv_ids s) (sv_in s) (sv_out s) (cx_dst_id s) (cx_pipe s) (cx_pipe_size s)
                            x false (sv_disk s ++ [(cx_dst_id s, x)]) (sv_pps s))
      | Bug => Bug
      | NoFuel => NoFuel
      end.

(** [answer]: the call has a socket (PS_IOV_OPEN2) *)
Definition page_server_open (answer : bool) (pi : page_server_iov) : M server Z :=
  match decode_pm (ps_dst_id pi) with
  | None => ret (-1)
  | Some (type, id) =>
    page_server_close ;;;
    fun s =>
      match open_page_local_xfer stream_mode (pardirs type id) type id (sv_t s, sv_ids s) with
      | Bug => Bug
      | NoFuel => NoFuel
      | Done (None, (t, ids)) =>
        Done (-1, mk_server t ids (sv_in s) (sv_out s) (cx_dst_id s) (cx_pipe s) (cx_pipe_size s)
                            (cx_loc s) (cx_open s) (sv_disk s) (sv_pps s))
      | Done (Some x, (t, ids)) =>
        let s := mk_server t ids (sv_in s) (sv_out s) (ps_dst_id pi) (cx_pipe s) (cx_pipe_size s)
                           x true (sv_disk s) (sv_pps s) in
        if negb answer then Done (0, s)
        else if negb (k_send t 1 =? 1) then
          (* close_page_xfer *)
          match close_page_xfer x (S t) with
          | Done (t, x) =>
            Done (-1, mk_server t ids (sv_in s) (sv_out s) (ps_dst_id pi) (cx_pipe s) (cx_pipe_size s)
                                x false (sv_disk s ++ [(ps_dst_id pi, x)]) (sv_pps s))
          | Bug => Bug
          | NoFuel => NoFuel
          end
        else Done (0, reply s (S t) [HasParent (negb (bool_decide (parent x = [])))])
      end
  end.

Definition prep_loc_xfer (pi : page_server_iov) : M server Z :=
  fun s => if cx_dst_id s =? ps_dst_id pi then Done (0, s) else page_server_open false pi s.

(** the loop of [page_server_add]: the pages go through the pipe of [cxfer] *)
Fixpoint add_loop (fuel : nat) (len : Z) : M server Z :=
  fun s =>
    match fuel with
    | O => NoFuel
    | S fuel =>
      if len <=? 0 then Done (0, s)
      else
        let r := do_splice (sv_t s) (Z.min len (cx_pipe_size s)) (avail (sv_in s)) in
        if r <=? 0 then Done (-1, set_io s (S (sv_t s)) (sv_in s))
        else
          let p := push (cx_pipe s) (s_data (sv_in s)) (s_rd (sv_in s)) r in
          match write_pages_loc 0 r (S (sv_t s), {[0 := p]}, cx_loc s) with
          | Done (w, (t, ps, x)) =>
            let s := set_cx (set_io s t (skip (sv_in s) r)) t (default p (ps !! 0)) x in
            if negb (w =? 0) then Done (-1, s) else add_loop fuel (len - r) s
          | Bug => Bug
          | NoFuel => NoFuel
          end
    end.

Definition page_server_add (pi : page_server_iov) (flags : Z) : M server Z :=
  r <~ prep_loc_xfer pi ;;
  if negb (r =? 0) then ret (-1)
  else
    let iov := psi2iovec pi in
    fun s =>
      match write_pagemap_loc auto_dedup iov flags (sv_t s, ∅, cx_loc s) with
      | Bug => Bug
      | NoFuel => NoFuel
      | Done (r, (t, _, x)) =>
        let s := set_cx s t (cx_pipe s) x in
        if negb (r =? 0) then Done (-1, s)
        else if negb (has flags PE_PRESENT) then Done (0, s)
        else add_loop (S (Z.to_nat (iov_len iov))) (iov_len iov) s
      end.

Definition check_parent_local_xfer (type : fd_type) (id : Z) : Z :=
  if stream_mode then 0
  else match pardirs type id with
       | None => 0
       | Some [] => -1
       | Some (NoImage :: _) => 0
       | Some _ => 1
       end.

Definition page_server_check_parent (pi : page_server_iov) : M server Z :=
  fun s =>
    match decode_pm (ps_dst_id pi) with
    | None => Done (-1, s)
    | Some (type, id) =>
      let r := check_parent_local_xfer type id in
      if r <? 0 then Done (-1, s)
      else if negb (k_send (sv_t s) 4 =? 4) then Done (-1, set_io s (S (sv_t s)) (sv_in s))
      else Done (0, reply s (S (sv_t s)) [ParentRet r])
    end.

(** the page pipe of a task that is not in the tree is a null dereference *)
Definition page_server_get_pages (pi : page_server_iov) : M server Z :=
  fun s =>
    match sv_pps s !! ps_dst_id pi with
    | None => Bug
    | Some pp =>
      let t := sv_t s in
      let '(r, nr, data, pp) :=
        page_pipe_read (k_splice t) (k_splice (S t)) pp (ps_vaddr pi) (ps_nr_pages pi) PPB_LAZY in
      let s := mk_server (S (S t)) (sv_ids s) (sv_in s) (sv_out s) (cx_dst_id s) (cx_pipe s)
                         (cx_pipe_size s) (cx_loc s) (cx_open s) (sv_disk s)
                         (<[ps_dst_id pi := pp]> (sv_pps s)) in
      if negb (r =? 0) then Done (r, s)
      else if nr =? 0 then Done (-1, s)
      else
        let pi := mk_psi (encode_ps_cmd PS_IOV_ADD_F PE_PRESENT) nr (ps_vaddr pi) (ps_dst_id pi) in
        let t := sv_t s in
        if negb (k_send t PSI_SIZE =? PSI_SIZE) then Done (-1, set_io s (S t) (sv_in s))
        else
          let len := u64 (nr * PAGE_SIZE) in
          if negb (k_splice (S t) len =? len) then Done (-1, set_io s (S (S t)) (sv_in s))
          else match data with
               | Some (fd, from, to) => Done (0, reply s (S (S t)) [Pages pi fd from to])
               | None => Done (0, reply s (S (S t)) [Pages pi 0 0 0])
               end
    end.

(** one request; the result and whether it was a flush *)
Definition serve_one (pi : page_server_iov) : M server (Z * bool) :=
  let cmd := decode_ps_cmd (ps_cmd pi) in
  if cmd =? PS_IOV_OPEN then r <~ page_server_open false pi ;; ret (r, false)
  else if cmd =? PS_IOV_OPEN2 then r <~ page_server_open true pi ;; ret (r, false)
  else if cmd =? PS_IOV_PARENT then r <~ page_server_check_parent pi ;; ret (r, false)
  else if (cmd =? PS_IOV_ADD_F) || (cmd =? PS_IOV_ADD) || (cmd =? PS_IOV_HOLE) then
    let flags := if cmd =? PS_IOV_ADD_F then decode_ps_flags (ps_cmd pi)
                 else if cmd =? PS_IOV_ADD then PE_PRESENT else PE_PARENT in
    r <~ page_server_add pi flags ;; ret (r, false)
  else if (cmd =? PS_IOV_FLUSH) || (cmd =? PS_IOV_FLUSH_N_CLOSE) then
    fun s =>
      if k_send (sv_t s) 4 =? 4 then Done ((0, true), reply s (S (sv_t s)) [Status 0])
      else Done ((-1, true), set_io s (S (sv_t s)) (sv_in s))
  else if cmd =? PS_IOV_GET then r <~ page_server_get_pages pi ;; ret (r, false)
  else ret (-1, false).

(** the [while (1)] loop; the end of the stream is the client closing the connection *)
Fixpoint serve_loop (fuel : nat) (flushed : bool) : M server (Z * bool) :=
  fun s =>
    match fuel with
    | O => NoFuel
    | S fuel =>
      if avail (sv_in s) <=? 0 then Done ((0, flushed), s)
      else if avail (sv_in s) <? PSI_SIZE then Done ((-1, flushed), set_io s (sv_t s) (skip (sv_in s) (avail (sv_in s))))
      else
        let pi := psi_of_bytes (s_data (sv_in s)) (s_rd (sv_in s)) in
        match serve_one pi (set_io s (sv_t s) (skip (sv_in s) PSI_SIZE)) with
        | Bug => Bug
        | NoFuel => NoFuel
        | Done ((r, flushed), s) =>
          if negb (r =? 0) || (ps_cmd pi =? PS_IOV_FLUSH_N_CLOSE) then Done ((r, flushed), s)
          else serve_loop fuel flushed s
        end
    end.

(** every request takes at least the bytes of its header *)
Definition page_server_serve : M server Z :=
  fun s =>
    match serve_loop (S (Z.to_nat (avail (sv_in s)))) false s with
    | Bug => Bug
    | NoFuel => NoFuel
    | Done ((r, flushed), s) =>
      let r := if negb lazy_pages && (r =? 0) && negb flushed then -1 else r in
      let r := if (r =? 0) && (ps_socket =? -1) && (0 <? avail (sv_in s)) then -1 else r in
      (page_server_close ;;; ret r) s
    end.
End Server.

(** the client's last request; [answer] is the status the server sent *)
Definition disconnect_from_page_server {XK : XferKernel} (ps_socket : Z) (answer : option Z)
  : M (clock * stream) Z :=
  r <~ send_psi (mk_psi (if ps_socket =? -1 then PS_IOV_FLUSH else PS_IOV_FLUSH_N_CLOSE) 0 0 0) ;;
  if negb (r =? 0) then ret (-1)
  else ret (match answer with None => -1 | Some status => status end).

(** ** The protocol can be decoded *)

(** a field of [n] bits below the rest: the two are read back *)
Lemma field_low x n m : 0 <= n -> 0 <= m < 2 ^ n ->
  Z.land (Z.lor (Z.shiftl x n) m) (Z.shiftl 1 n - 1) = m.
Proof.
  intros Hn Hm. replace (Z.shiftl 1 n - 1) with (Z.ones n)
    by (rewrite Z.shiftl_1_l, Z.ones_equiv; lia).
  rewrite Z.land_lor_distr_l, !Z.land_ones by lia. rewrite Z.shiftl_mul_pow2, Z.mod_mul by lia.
  by rewrite Z.mod_small, Z.lor_0_l by lia.
Qed.

Lemma field_high x n m : 0 <= n -> 0 <= m < 2 ^ n ->
  Z.shiftr (Z.lor (Z.shiftl x n) m) n = x.
Proof.
  intros Hn Hm. rewrite Z.shiftr_lor, Z.shiftr_shiftl_l, Z.sub_diag, Z.shiftl_0_r by lia.
  rewrite (Z.shiftr_div_pow2 m), Z.div_small, Z.lor_0_r by lia. done.
Qed.

Lemma shiftl_u64 x n : 0 <= n <= 64 -> 0 <= x < 2 ^ (64 - n) -> u64 (Z.shiftl x n) = Z.shiftl x n.
Proof.
  intros Hn Hx. apply u64_id. rewrite Z.shiftl_mul_pow2 by lia.
  replace (2 ^ 64) with (2 ^ (64 - n) * 2 ^ n) by (rewrite <-Z.pow_add_r by lia; f_equal; lia).
  pose proof (Z.pow_pos_nonneg 2 n). nia.
Qed.

Definition psi_ok (p : page_server_iov) : Prop :=
  0 <= ps_cmd p < 2 ^ 32 /\ 0 <= ps_nr_pages p < 2 ^ 32 /\
  0 <= ps_vaddr p < 2 ^ 64 /\ 0 <= ps_dst_id p < 2 ^ 64.

Lemma psi_roundtrip p f off :
  psi_ok p -> (forall i, 0 <= i < PSI_SIZE -> f (off + i) = psi_bytes p i) ->
  psi_of_bytes f off = p.
Proof.
  intros (H1 & H2 & H3 & H4) Hf. unfold psi_of_bytes, PSI_SIZE in *.
  rewrite (le_word_bytes 4 f off (ps_cmd p) 0), (le_word_bytes 4 f (off + 4) (ps_nr_pages p) 0),
    (le_word_bytes 8 f (off + 8) (ps_vaddr p) 0), (le_word_bytes 8 f (off + 16) (ps_dst_id p) 0);
    try lia.
  - rewrite !Z.div_1_r.
    change (256 ^ Z.of_nat 4) with (2 ^ 32). change (256 ^ Z.of_nat 8) with (2 ^ 64).
    rewrite !Z.mod_small by lia. by destruct p.
  - intros i Hi. rewrite <-Z.add_assoc, Hf by lia. unfold psi_bytes.
    rewrite (proj2 (Z.ltb_ge (16 + i) 4)), (proj2 (Z.ltb_ge (16 + i) 8)), (proj2 (Z.ltb_ge (16 + i) 16)) by lia.
    f_equal. lia.
  - intros i Hi. rewrite <-Z.add_assoc, Hf by lia. unfold psi_bytes.
    rewrite (proj2 (Z.ltb_ge (8 + i) 4)), (proj2 (Z.ltb_ge (8 + i) 8)), (proj2 (Z.ltb_lt (8 + i) 16)) by lia.
    f_equal. lia.
  - intros i Hi. rewrite <-Z.add_assoc, Hf by lia. unfold psi_bytes.
    rewrite (proj2 (Z.ltb_ge (4 + i) 4)), (proj2 (Z.ltb_lt (4 + i) 8)) by lia. f_equal. lia.
  - intros i Hi. rewrite Hf by lia. unfold psi_bytes. rewrite (proj2 (Z.ltb_lt i 4)) by lia. done.
Qed.

Lemma ps_cmd_roundtrip cmd fl :
  0 <= cmd < 2 ^ 16 -> 0 <= fl < 2 ^ 16 ->
  decode_ps_cmd (encode_ps_cmd cmd fl) = cmd /\ decode_ps_flags (encode_ps_cmd cmd fl) = fl /\
  0 <= encode_ps_cmd cmd fl < 2 ^ 32.
Proof.
  intros Hc Hf. unfold decode_ps_cmd, decode_ps_flags, encode_ps_cmd, PS_CMD_MASK, PS_CMD_BITS.
  assert (Hs : u32 (Z.shiftl fl 16) = Z.shiftl fl 16).
  { apply u32_id. rewrite Z.shiftl_mul_pow2 by lia. lia. }
  rewrite Hs. split_and!.
  - by apply field_low.
  - by apply field_high.
  - apply Z.lor_nonneg. rewrite Z.shiftl_nonneg. lia.
  - assert (E : Z.lor (Z.shiftl fl 16) cmd / 2 ^ 16 = fl)
      by (rewrite <-Z.shiftr_div_pow2 by lia; by apply field_high).
    Z.div_mod_to_equations. lia.
Qed.

(** ** What is transferred, and in which order *)

(** one iovec of the page pipe with the flags and the pipe it is transferred with *)
Record seg := mk_seg { sg_iov : iovec; sg_flags : Z; sg_fd : Z }.

(** a request to the engine: an entry of the pagemap, or pages that follow it *)
Inductive event := EMap (v : iovec) (fl : Z) | EData (fd len : Z).

Section Plan.
Context {St : Type} {X : XferOps St}.
Variables (offset : Z) (transfer_lazy : bool).

Definition exec_event (e : event) : M St Z :=
  match e with EMap v fl => write_pagemap v fl | EData fd len => write_pages fd len end.

(** the requests one after the other, up to the first that fails *)
Fixpoint exec (l : list event) : M St Z :=
  match l with
  | [] => ret 0
  | e :: l => r <~ exec_event e ;; if negb (r =? 0) then ret (-1) else exec l
  end.

Definition shift (v : iovec) : iovec := mk_iovec (iov_base v - offset) (iov_len v).

Definition hole_event (h : iovec) : event := EMap (shift h) PE_PARENT.
Definition seg_events (s : seg) : list event :=
  EMap (shift (sg_iov s)) (sg_flags s) ::
  if has (sg_flags s) PE_PRESENT then [EData (sg_fd s) (iov_len (sg_iov s))] else [].

(** the holes below a limit, and the rest *)
Fixpoint split_holes (limit : Z) (H : list iovec) : list iovec * list iovec :=
  match H with
  | [] => ([], [])
  | h :: H =>
    if negb (limit =? 0) && (limit <=? iov_base h) then ([], h :: H)
    else let '(a, b) := split_holes limit H in (h :: a, b)
  end.

(** the reference order: before every iovec the holes below it, in the end the other holes *)
Fixpoint plan_segs (l : list seg) (H : list iovec) : list event * list iovec :=
  match l with
  | [] => ([], H)
  | s :: l =>
    let '(a, b) := split_holes (iov_base (sg_iov s)) H in
    let '(ev, rest) := plan_segs l b in
    ((hole_event <$> a) ++ seg_events s ++ ev, rest)
  end.
Definition plan (l : list seg) (H : list iovec) : list event :=
  let '(ev, rest) := plan_segs l H in ev ++ (hole_event <$> rest).

Definition buf_segs (pp : page_pipe) (id : nat) : list seg :=
  match pp_heap pp !! id with
  | Some b => (fun v => mk_seg v (ppb_xfer_flags transfer_lazy b) (p0 b)) <$> segs pp b
  | None => []
  end.
Definition pp_segs (pp : page_pipe) : list seg := bufs pp ≫= buf_segs pp.

Lemma exec_app l k s :
  exec (l ++ k) s = match exec l s with
                    | Done (r, s') => if negb (r =? 0) then Done (r, s') else exec k s'
                    | Bug => Bug
                    | NoFuel => NoFuel
                    end.
Proof.
  revert s. induction l as [|e l IH]; intros s; [done|]. cbn. unfold bind.
  destruct (exec_event e s) as [[r s']| |]; [|done..]. case_match; [done|]. apply IH.
Qed.

(** the holes of the page pipe from the [cur]-th on *)
Lemma split_holes_app limit H : H = fst (split_holes limit H) ++ snd (split_holes limit H).
Proof.
  induction H as [|h H IH]; [done|]. simpl. case_match; [done|].
  destruct (split_holes limit H). simpl in *. by rewrite <-IH.
Qed.

Definition counted (cur : nat) (d : res (Z * nat * St)) (e : res (Z * St)) : Prop :=
  match d, e with
  | Done (r, c, s'), Done (r', s'') => r = r' /\ s' = s'' /\ (r = 0 -> c = cur)
  | Bug, Bug => True
  | NoFuel, NoFuel => True
  | _, _ => False
  end.

Lemma dump_holes_plan L cur limit s :
  Forall (fun h => snd h = PP_HOLE_PARENT /\ offset <= iov_base (fst h)) L ->
  let a := fst (split_holes limit (fst <$> L)) in
  counted (cur + length a) (dump_holes offset L cur limit s) (exec (hole_event <$> a) s).
Proof.
  intros HL. revert cur s. induction HL as [|[h fl] L [Hfl Hoff] HL IH]; intros cur s; csimpl in *.
  { split_and!; try done; lia. }
  cbn [dump_holes split_holes]. case_match; csimpl.
  { split_and!; try done; lia. }
  subst fl. unfold get_hole_flags. rewrite Z.eqb_refl. cbv iota.
  destruct (split_holes limit (fst <$> L)) as [a b] eqn:Hs. csimpl in *.
  cbn [exec exec_event hole_event]. unfold page_xfer_dump_hole, bind, bug_on, ret.
  rewrite (proj2 (Z.ltb_ge _ _)) by lia. fold (shift h).
  destruct (write_pagemap (shift h) PE_PARENT s) as [[r s']| |]; try exact I. 
  destruct (Z.eqb_spec r 0) as [->|Hr]; csimpl.
  - specialize (IH (S cur) s'). by rewrite Nat.add_succ_r.
  - done.
Qed.

Lemma plan_segs_app l k H :
  plan_segs (l ++ k) H =
    let '(ev, rest) := plan_segs l H in
    let '(ev', rest') := plan_segs k rest in (ev ++ ev', rest').
Proof.
  revert H. induction l as [|s l IH]; intros H; cbn [plan_segs app]; [by destruct (plan_segs k H)|].
  destruct (split_holes _ H) as [a b]. rewrite IH.
  destruct (plan_segs l b) as [ev rest]. destruct (plan_segs k rest) as [ev' rest'].
  by rewrite <-!app_assoc.
Qed.

Lemma split_holes_rest limit (L : list (iovec * Z)) n :
  snd (split_holes limit (fst <$> drop n L)) =
  fst <$> drop (n + length (fst (split_holes limit (fst <$> drop n L)))) L.
Proof.
  pose proof (split_holes_app limit (fst <$> drop n L)) as Heq.
  destruct (split_holes limit _) as [a b]. csimpl in *.
  by rewrite <-drop_drop, fmap_drop, Heq, drop_app_length.
Qed.

Definition pp_offset_ok (pp : page_pipe) : Prop :=
  Forall (fun h => snd h = PP_HOLE_PARENT /\ offset <= iov_base (fst h)) (pp_holes pp).

(** the result of a loop that has reached hole [cur'], where the plan is left with [rest] *)
Definition planned (pp : page_pipe) (rest : list iovec) (d : res (Z * nat * St)) (e : res (Z * St)) : Prop :=
  exists cur', rest = fst <$> drop cur' (pp_holes pp) /\ counted cur' d e.

Lemma dump_segs_plan pp ppb l cur s :
  pp_offset_ok pp -> Forall (fun v => offset <= iov_base v) l ->
  let '(ev, rest) := plan_segs ((fun v => mk_seg v (ppb_xfer_flags transfer_lazy ppb) (p0 ppb)) <$> l)
                               (fst <$> drop cur (pp_holes pp)) in
  planned pp rest (dump_segs offset transfer_lazy pp ppb l cur s) (exec ev s).
Proof.
  intros Hpp Hl. revert cur s. induction Hl as [|v l Hv Hl IH]; intros cur s.
  { by exists cur. }
  rewrite fmap_cons. cbn [plan_segs dump_segs sg_iov sg_flags].
  set (L := drop cur (pp_holes pp)).
  assert (HL : Forall (fun h => snd h = PP_HOLE_PARENT /\ offset <= iov_base (fst h)) L)
    by (by apply Forall_drop).
  pose proof (dump_holes_plan L cur (iov_base v) s HL) as Hh. cbv zeta in Hh.
  pose proof (split_holes_rest (iov_base v) (pp_holes pp) cur) as Hrest.
  fold L in Hrest. destruct (split_holes (iov_base v) (fst <$> L)) as [a b] eqn:Hs. csimpl in *.
  set (cur1 := (cur + length a)%nat) in *. subst b.
  destruct (plan_segs _ (fst <$> drop cur1 (pp_holes pp))) as [ev rest] eqn:Hp.
  specialize (IH cur1). rewrite Hp in IH.
  unfold bind. rewrite exec_app.
  destruct (dump_holes offset L cur (iov_base v) s) as [[[r c] s1]| |],
    (exec (hole_event <$> a) s) as [[r' s1']| |]; try done;
    try (destruct (IH s) as (cur' & ? & _); by exists cur').
  destruct Hh as (-> & -> & Hc). destruct (Z.eqb_spec r' 0) as [->|Hr]; simpl.
  2: { destruct (IH s1') as (cur' & -> & _). exists cur'. split; [done|]. by split_and!. }
  rewrite Hc by done. unfold bug_on. rewrite (proj2 (Z.ltb_ge _ _)) by lia. fold (shift v).
  unfold bind. cbn [app exec exec_event].
  destruct (write_pagemap (shift v) _ s1') as [[r s2]| |];
    try (destruct (IH s) as (cur' & ? & _); by exists cur').
  destruct (Z.eqb_spec r 0) as [->|Hr]; simpl.
  2: { destruct (IH s1') as (cur' & -> & _). exists cur'. split; [done|]. by split_and!. }
  destruct (has _ PE_PRESENT); [|apply IH]. cbn. unfold bind.
  destruct (write_pages (p0 ppb) (iov_len v) s2) as [[r s3]| |];
    try (destruct (IH s) as (cur' & ? & _); by exists cur').
  destruct (Z.eqb_spec r 0) as [->|Hr]; simpl; [apply IH|].
  destruct (IH s1') as (cur' & -> & _). exists cur'. split; [done|]. by split_and!.
Qed.

Lemma dump_bufs_plan pp l cur s :
  pp_offset_ok pp ->
  (forall id, id ∈ l -> exists b, pp_heap pp !! id = Some b /\
                        Forall (fun v => offset <= iov_base v) (segs pp b)) ->
  let '(ev, rest) := plan_segs (l ≫= buf_segs pp) (fst <$> drop cur (pp_holes pp)) in
  planned pp rest (dump_bufs offset transfer_lazy pp l cur s) (exec ev s).
Proof.
  intros Hpp. revert cur s. induction l as [|id l IH]; intros cur s Hl.
  { by exists cur. }
  destruct (Hl id ltac:(set_solver)) as (b & Hb & Hoff).
  specialize (fun cur s => IH cur s (fun i Hi => Hl i (list_elem_of_further _ _ _ Hi))).
  rewrite bind_cons, plan_segs_app. cbn [dump_bufs]. unfold buf_segs at 1. rewrite Hb.
  pose proof (dump_segs_plan pp b (segs pp b) cur s Hpp Hoff) as Hs.
  destruct (plan_segs _ (fst <$> drop cur (pp_holes pp))) as [ev rest].
  destruct Hs as (cur1 & -> & Hc). specialize (IH cur1).
  destruct (plan_segs (l ≫= buf_segs pp) _) as [ev' rest'].
  unfold bind. rewrite exec_app.
  destruct (dump_segs _ _ pp b _ cur s) as [[[r c] s1]| |], (exec ev s) as [[r' s1']| |]; try done;
    try (destruct (IH s) as (cur' & ? & _); by exists cur').
  destruct Hc as (-> & -> & Hc). destruct (Z.eqb_spec r' 0) as [->|Hr]; simpl.
  - rewrite Hc by done. apply IH.
  - destruct (IH s1') as (cur' & -> & _). exists cur'. split; [done|]. by split_and!.
Qed.

(** the code that walks the buffers and the holes makes exactly the requests of the plan *)
Lemma dump_pages_plan pp s :
  pp_offset_ok pp ->
  (forall id, id ∈ bufs pp -> exists b, pp_heap pp !! id = Some b /\
                              Forall (fun v => offset <= iov_base v) (segs pp b)) ->
  page_xfer_dump_pages offset transfer_lazy pp s =
  exec (plan (pp_segs pp) (fst <$> pp_holes pp)) s.
Proof.
  intros Hpp Hb. pose proof (dump_bufs_plan pp (bufs pp) 0 s Hpp Hb) as H.
  unfold page_xfer_dump_pages, plan, pp_segs. unfold bind. rewrite drop_0 in H.
  destruct (plan_segs _ _) as [ev rest]. destruct H as (cur & -> & Hc). rewrite exec_app.
  destruct (dump_bufs _ _ pp _ 0 s) as [[[r c] s1]| |], (exec ev s) as [[r' s1']| |]; try done.
  destruct Hc as (-> & -> & Hc). destruct (Z.eqb_spec r' 0) as [->|Hr]; simpl; [|done].
  rewrite Hc by done.
  pose proof (dump_holes_plan (drop cur (pp_holes pp)) cur 0 s1' ltac:(by apply Forall_drop)) as Hh.
  assert (Hall : forall H, split_holes 0 H = (H, [])).
  { induction H as [|h H IH]; [done|]. cbn. by rewrite IH. }
  rewrite Hall in Hh. cbn [fst] in Hh.
  destruct (dump_holes _ _ _ _ _) as [[[r2 c2] s2]| |], (exec _ s1') as [[r2' s2']| |]; try done.
  by destruct Hh as (-> & -> & _).
Qed.

End Plan.

(** ** The order of the entries *)

(** what becomes one entry of the pagemap *)
Inductive item := IHole (h : iovec) | ISeg (s : seg).

Definition item_iov (i : item) : iovec := match i with IHole h => h | ISeg s => sg_iov s end.
Definition item_flags (i : item) : Z := match i with IHole _ => PE_PARENT | ISeg s => sg_flags s end.
Definition item_events (offset : Z) (i : item) : list event :=
  match i with IHole h => [hole_event offset h] | ISeg s => seg_events offset s end.
Definition item_entry (offset : Z) (i : item) : PagemapEntry :=
  mk_pe (iov_base (item_iov i) - offset) (u32 (iov_len (item_iov i) / PAGE_SIZE)) false false true
        (item_flags i).

Fixpoint items (l : list seg) (H : list iovec) : list item :=
  match l with
  | [] => IHole <$> H
  | s :: l =>
    let '(a, b) := split_holes (iov_base (sg_iov s)) H in (IHole <$> a) ++ ISeg s :: items l b
  end.

Lemma hole_events_bind offset H : (IHole <$> H) ≫= item_events offset = hole_event offset <$> H.
Proof. induction H as [|h H IH]; [done|]. by rewrite fmap_cons, bind_cons, IH. Qed.

Lemma plan_items offset l H : plan offset l H = items l H ≫= item_events offset.
Proof.
  unfold plan. revert H. induction l as [|s l IH]; intros H; cbn [plan_segs items].
  { by rewrite hole_events_bind. }
  destruct (split_holes _ H) as [a b]. specialize (IH b).
  destruct (plan_segs offset l b) as [ev rest].
  rewrite bind_app, hole_events_bind, bind_cons, <-IH. by rewrite <-!app_assoc.
Qed.

(** [a] lies entirely below [b] *)
Definition below (a b : iovec) : Prop := iov_base a + iov_len a <= iov_base b.

Lemma split_holes_sorted limit H :
  0 < limit -> Forall (fun h => 0 < iov_len h) H -> StronglySorted below H ->
  let '(a, b) := split_holes limit H in
  H = a ++ b /\ Forall (fun h => iov_base h < limit) a /\ Forall (fun h => limit <= iov_base h) b.
Proof.
  intros Hl Hp Hs. induction Hs as [|h H Hs IH Hb]; cbn; [done|].
  apply Forall_cons_1 in Hp as [Hh Hp]. specialize (IH Hp).
  rewrite (proj2 (Z.eqb_neq _ _)) by lia. cbn. destruct (Z.leb_spec limit (iov_base h)).
  - split_and!; [done|constructor|]. constructor; [done|].
    eapply Forall_impl; [|exact Hb]. intros x. unfold below. lia.
  - destruct (split_holes limit H) as [a b]. destruct IH as (-> & ? & ?). split_and!; [done|by constructor|done].
Qed.

Lemma item_iov_holes (H : list iovec) : item_iov <$> (IHole <$> H) = H.
Proof. rewrite <-list_fmap_compose. apply list_fmap_id. Qed.

(** the merged list keeps the order, when pages and holes do not overlap *)
Lemma items_sorted l H :
  Forall (fun v => 0 < iov_base v /\ 0 < iov_len v) (sg_iov <$> l) ->
  Forall (fun v => 0 < iov_len v) H ->
  StronglySorted below (sg_iov <$> l) -> StronglySorted below H ->
  (forall v h, v ∈ sg_iov <$> l -> h ∈ H -> below v h \/ below h v) ->
  StronglySorted below (item_iov <$> items l H) /\ items l H ≡ₚ (ISeg <$> l) ++ (IHole <$> H).
Proof.
  revert H. induction l as [|s l IH]; intros H Hl HH Sl SH D; cbn [items].
  { by rewrite item_iov_holes. }
  rewrite fmap_cons in *. apply Forall_cons_1 in Hl as [Hs Hl]. inversion Sl as [|?? Sl' Sb]; subst.
  pose proof (split_holes_sorted (iov_base (sg_iov s)) H ltac:(lia) HH SH) as Hsp.
  destruct (split_holes _ H) as [a b]. destruct Hsp as (-> & Ha & Hb).
  apply Forall_app in HH as [HHa HHb]. apply StronglySorted_app in SH as (Sab & Sa & Sb').
  destruct (IH b) as [IH1 IH2]; try done.
  { intros v h Hv Hh. apply D; set_solver. }
  assert (Hss : forall h, h ∈ a -> below h (sg_iov s)).
  { intros h Hh. destruct (D (sg_iov s) h) as [Hd|]; [set_solver|set_solver| |done].
    rewrite list.Forall_forall in Ha, HHa. specialize (Ha h Hh). specialize (HHa h Hh). unfold below in *. lia. }
  assert (Hsb : forall h, h ∈ b -> below (sg_iov s) h).
  { intros h Hh. destruct (D (sg_iov s) h) as [|Hd]; [set_solver|set_solver|done|].
    rewrite list.Forall_forall in Hb, HHb. specialize (Hb h Hh). specialize (HHb h Hh). unfold below in *. lia. }
  assert (Hin : forall v, v ∈ item_iov <$> items l b -> v ∈ sg_iov <$> l \/ v ∈ b).
  { intros v (i & -> & Hi)%list_elem_of_fmap. rewrite IH2 in Hi.
    apply elem_of_app in Hi as [(x & -> & Hx)%list_elem_of_fmap|(x & -> & Hx)%list_elem_of_fmap].
    - left. apply list_elem_of_fmap. eauto.
    - by right. }
  rewrite list.Forall_forall in Sb.
  assert (Hafter : forall v, v ∈ item_iov <$> items l b -> below (sg_iov s) v).
  { intros v [Hv|Hv]%Hin; [by apply Sb|by apply Hsb]. }
  split.
  - rewrite fmap_app, fmap_cons, item_iov_holes.
    apply StronglySorted_app_2; [|done|constructor; [done|by apply list.Forall_forall]].
    intros x1 x2 Hx1 [->|Hx2]%elem_of_cons; [by apply Hss|].
    specialize (Hss x1 Hx1). specialize (Hafter x2 Hx2). unfold below in *. lia.
  - rewrite IH2, fmap_app. csimpl. rewrite <-Permutation_middle. f_equiv.
    by rewrite Permutation_app_swap_app.
Qed.

(** ** Splicing *)

(** [s'] is [s] with the [n] bytes of [f] from [off] on written at its end *)
Definition appended (s s' : stream) (f : Z -> Z) (off n : Z) : Prop :=
  s_rd s' = s_rd s /\ s_wr s' = s_wr s + n /\
  (forall i, 0 <= i < n -> s_data s' (s_wr s + i) = f (off + i)) /\
  (forall i, i < s_wr s -> s_data s' i = s_data s i).

Lemma appended_push s f off n : appended s (push s f off n) f off n.
Proof.
  unfold appended, push, blit; simpl. split_and!; [done..| |]; intros i Hi.
  - rewrite (proj2 (andb_true_iff _ _)) by lia. f_equal. lia.
  - by rewrite (proj2 (Z.leb_gt _ _)) by lia.
Qed.

Lemma appended_trans s s1 s2 f off n m :
  0 <= n -> appended s s1 f off n -> appended s1 s2 f (off + n) m -> appended s s2 f off (n + m).
Proof.
  intros Hn (H1 & H2 & H3 & H4) (G1 & G2 & G3 & G4). unfold appended. rewrite H2 in G2, G3, G4.
  split_and!; [congruence|lia| |].
  - intros i Hi. destruct (Z.lt_ge_cases i n).
    + rewrite G4 by lia. apply H3; lia.
    + replace (s_wr s + i) with (s_wr s + n + (i - n)) by lia. rewrite G3 by lia. f_equal. lia.
  - intros i Hi. rewrite G4 by lia. by apply H4.
Qed.

Lemma appended_0 s f off : appended s s f off 0.
Proof. unfold appended. split_and!; try done; lia. Qed.

Section Splice.
Context {XK : XferKernel} `{!XferKernelOk XK} `{!XferKernelLive XK}.

Lemma do_splice_pos t n a : 0 < n <= a -> 0 < do_splice t n a <= n.
Proof.
  intros H. unfold do_splice. rewrite Z.min_l, (proj2 (Z.leb_gt _ _)) by lia.
  pose proof (splice_pos t n ltac:(lia)). pose proof (splice_le t n). lia.
Qed.

Lemma splice_loc_ok fuel t p img len curr :
  0 <= curr < len -> len - curr <= avail p -> (Z.to_nat (len - curr) <= fuel)%nat ->
  exists t' img', splice_loc fuel t p img len curr = Done (0, (t', skip p (len - curr), img')) /\
    appended img img' (s_data p) (s_rd p) (len - curr).
Proof.
  revert t p img curr. induction fuel as [|fuel IH]; intros t p img curr Hc Ha Hf; [lia|]. cbn [splice_loc].
  pose proof (do_splice_pos t (len - curr) (avail p) ltac:(lia)) as Hr.
  set (r := do_splice _ _ _) in *.
  rewrite (proj2 (Z.eqb_neq r (-1))), (proj2 (Z.eqb_neq r 0)) by lia.
  destruct (Z.eqb_spec (curr + r) len) as [He|He].
  - replace (len - curr) with r by lia. eexists _, _. split; [done|]. apply appended_push.
  - destruct (IH (S t) (skip p r) (push img (s_data p) (s_rd p) r) (curr + r)) as (t' & img' & -> & Happ);
      [lia|unfold avail, skip in *; simpl in *; lia|lia|].
    eexists _, _. split; [unfold skip; simpl; do 5 f_equal; lia|].
    replace (len - curr) with (r + (len - (curr + r))) by lia.
    eapply appended_trans; [lia|apply appended_push|exact Happ].
Qed.

Lemma splice_srv_ok fuel t p s left :
  0 <= left -> left <= avail p -> (Z.to_nat left < fuel)%nat ->
  exists t' s', splice_srv fuel t p s left = Done (0, (t', skip p left, s')) /\
    appended s s' (s_data p) (s_rd p) left.
Proof.
  revert t p s left. induction fuel as [|fuel IH]; intros t p s left Hl Ha Hf; [lia|]. cbn [splice_srv].
  destruct (Z.leb_spec left 0).
  - assert (left = 0) as -> by lia. eexists _, _. split; [|apply appended_0].
    unfold skip. rewrite Z.add_0_r. by destruct p.
  - pose proof (do_splice_pos t left (avail p) ltac:(lia)) as Hr.
    set (r := do_splice _ _ _) in *. rewrite (proj2 (Z.ltb_ge r 0)) by lia.
    destruct (IH (S t) (skip p r) (push s (s_data p) (s_rd p) r) (left - r)) as (t' & s' & -> & Happ);
      [lia|unfold avail, skip in *; simpl in *; lia|lia|].
    eexists _, _. split; [unfold skip; simpl; do 5 f_equal; lia|].
    replace left with (r + (left - r)) by lia.
    eapply appended_trans; [lia|apply appended_push|exact Happ].
Qed.
End Splice.

(** ** Holes are checked against the parent *)

Definition in_pagemap (l : list PagemapEntry) (lo hi : Z) : Prop :=
  forall a, lo <= a < hi -> exists e, e ∈ l /\ covers e a.

Lemma pagehole_loop_ok fuel p off end_ :
  pm_ok p -> pos_ok p -> cvaddr p <= off < end_ -> end_ < 2 ^ 63 ->
  (length (ending_after off (pmes p)) < fuel)%nat ->
  exists r p', pagehole_loop fuel p off end_ = Done (r, p') /\ same_img p p' /\ pos_ok p' /\
    (r = 0 /\ in_pagemap (pmes p) off end_ /\ cvaddr p' <= end_ \/
     r = -1 /\ ~ in_pagemap (pmes p) off end_).
Proof.
  revert p off. induction fuel as [|fuel IH]; intros p off Hok Hpos Hoff Hend Hf; [lia|].
  cbn [pagehole_loop]. destruct (seek_ok p off Hok Hpos ltac:(lia))
    as (found & p1 & -> & Hs & Hpos1 & _ & Hr). destruct found.
  2: { assert (Hnc : forall d, d ∈ pmes p -> ~ covers d off) by (by apply (passed_not_covered p p1)).
       exists (-1), p1. split_and!; try done.
       right. split; [done|]. intros Hin. destruct (Hin off ltac:(lia)) as (d & Hd & Hc). by eapply Hnc. }
  destruct Hr as (k & e & Hat & Hc & Hcv). pose proof Hat as (-> & Hk & _).
  pose proof Hs as (Hpm & _). rewrite Hpm in Hk.
  assert (He : pe_ok e) by (destruct Hok as [Hok _]; by eapply Forall_lookup_1).
  rewrite pagemap_end_ok by done.
  assert (Hcov : forall a, off <= a < pe_end e -> covers e a) by (destruct Hc; unfold covers; intros; lia).
  assert (Hel : e ∈ pmes p) by (by eapply list_elem_of_lookup_2).
  destruct (Z.leb_spec end_ (pe_end e)).
  { exists 0, p1. split_and!; try done. left. split_and!; [done| |lia].
    intros a Ha. exists e. split; [done|]. apply Hcov. lia. }
  assert (Hok1 : pm_ok p1) by (unfold pm_ok in *; by rewrite Hpm).
  destruct (IH p1 (pe_end e)) as (r & p2 & -> & Hs2 & Hpos2 & Hres); try done.
  { destruct Hc. lia. }
  { rewrite Hpm. pose proof (filter_end_lt (pmes p) e off (pe_end e) Hel ltac:(destruct Hc; lia)). lia. }
  exists r, p2. split_and!; try done; [by etrans|]. rewrite Hpm in Hres.
  destruct Hres as [(-> & Hin & Hle)|(-> & Hnot)].
  - left. split_and!; [done| |done]. intros a Ha. destruct (Z.lt_ge_cases a (pe_end e)).
    + exists e. split; [done|]. apply Hcov. lia.
    + apply Hin. lia.
  - right. split; [done|]. intros Hin. apply Hnot. intros a Ha. apply Hin. destruct Hc. lia.
Qed.

Lemma check_pagehole_ok p v :
  pm_ok p -> pos_ok p -> cvaddr p <= iov_base v -> 0 <= iov_base v -> 0 < iov_len v ->
  iov_base v + iov_len v < 2 ^ 63 ->
  exists r p', check_pagehole_in_parent p v = Done (r, p') /\ same_img p p' /\ pos_ok p' /\
    (r = 0 /\ in_pagemap (pmes p) (iov_base v) (iov_base v + iov_len v) /\
       cvaddr p' <= iov_base v + iov_len v \/
     r = -1 /\ ~ in_pagemap (pmes p) (iov_base v) (iov_base v + iov_len v)).
Proof.
  intros. unfold check_pagehole_in_parent. rewrite u64_id by lia.
  apply pagehole_loop_ok; try done; try lia. unfold ending_after.
  pose proof (length_filter (fun d => iov_base v < pe_end d) (pmes p)). lia.
Qed.

(** ** The images hold the memory *)

Section Images.
Context {XK : XferKernel} {RK : ReadKernel} `{!XferKernelOk XK} `{!XferKernelLive XK}.
Variables (offset : Z) (mem : Z -> Z).

(** the [i]-th byte of the memory that the iovecs describe *)
Fixpoint gather (l : list iovec) (i : Z) : Z :=
  match l with
  | [] => 0
  | v :: l => if i <? iov_len v then mem (iov_base v + i) else gather l (i - iov_len v)
  end.

Lemma gather_concat a b i :
  Forall (fun v => 0 <= iov_len v) a -> 0 <= i ->
  gather (a ++ b) i = if i <? bytes_of a then gather a i else gather b (i - bytes_of a).
Proof.
  intros Ha. revert i. induction Ha as [|v a Hv Ha IH]; intros i Hi; simpl.
  { rewrite (proj2 (Z.ltb_ge _ _)) by lia. f_equal. lia. }
  assert (0 <= bytes_of a) by (clear IH; induction Ha; simpl; lia).
  fold (bytes_of a). destruct (Z.ltb_spec i (iov_len v)).
  { by rewrite (proj2 (Z.ltb_lt i (iov_len v + bytes_of a))) by lia. }
  rewrite IH by lia. destruct (Z.ltb_spec (i - iov_len v) (bytes_of a)).
  - by rewrite (proj2 (Z.ltb_lt i (iov_len v + bytes_of a))) by lia.
  - rewrite (proj2 (Z.ltb_ge i (iov_len v + bytes_of a))) by lia. f_equal. lia.
Qed.

(** the pipe's next bytes are those of the iovecs *)
Definition pipe_holds (p : stream) (l : list iovec) : Prop :=
  bytes_of l <= avail p /\ forall i, 0 <= i < bytes_of l -> s_data p (s_rd p + i) = gather l i.

(** the iovecs whose pages come from the pipe [fd] *)
Definition fd_iovs (fd : Z) (its : list item) : list iovec :=
  its ≫= fun i => match i with
                  | ISeg s => if has (sg_flags s) PE_PRESENT && (sg_fd s =? fd) then [sg_iov s] else []
                  | IHole _ => []
                  end.

Definition pipes_hold (ps : gmap Z stream) (its : list item) : Prop :=
  forall fd, fd_iovs fd its <> [] -> exists p, ps !! fd = Some p /\ pipe_holds p (fd_iovs fd its).

Definition item_ok (i : item) : Prop :=
  offset <= iov_base (item_iov i) /\ 0 < iov_len (item_iov i) < 2 ^ 43 /\
  aligned (iov_base (item_iov i) - offset) /\ aligned (iov_len (item_iov i)) /\
  iov_base (item_iov i) - offset + iov_len (item_iov i) < 2 ^ 62 /\
  match i with ISeg s => has (sg_flags s) PE_PARENT = false | IHole _ => True end.

(** the pages image [img] is the one the entries [E] describe, of the memory [mem] *)
Record img_ok (E : list PagemapEntry) (img : stream) : Prop := mk_img_ok {
  io_entries : Forall pe_ok E;
  io_size : s_wr img = pages_off E;
  io_data : forall k e a, E !! k = Some e -> pagemap_present e = true -> covers e a ->
    s_data img (pages_off (take k E) + (a - vaddr e)) = mem (offset + a);
}.

(** every hole that is still to come is in the parent, ahead of the reader's position *)
Definition parent_ok (c : list page_read) (its : list item) : Prop :=
  match c with
  | [] => True
  | p :: _ => pm_ok p /\ pos_ok p /\ 
      forall h, IHole h ∈ its ->
        cvaddr p <= iov_base h - offset /\
        in_pagemap (pmes p) (iov_base h - offset) (iov_base h - offset + iov_len h)
  end.

(** the parent's reader has not passed [hi] *)
Definition parent_below (hi : Z) (c : list page_read) : Prop :=
  match c with [] => True | p :: _ => cvaddr p <= hi - offset end.

Lemma item_entry_ok i : item_ok i ->
  pe_ok (item_entry offset i) /\
  pe_end (item_entry offset i) = iov_base (item_iov i) - offset + iov_len (item_iov i).
Proof.
  clear mem. intros (H1 & H2 & H3 & H4 & H5 & H6).
  assert (Hn : iov_len (item_iov i) / PAGE_SIZE * PAGE_SIZE = iov_len (item_iov i)) by pdiv.
  assert (Hd : 0 < iov_len (item_iov i) / PAGE_SIZE < 2 ^ 31) by pdiv.
  assert (Hu : nr_pages (item_entry offset i) = iov_len (item_iov i) / PAGE_SIZE)
    by (unfold item_entry; simpl; apply u32_id; lia).
  unfold pe_ok, pe_end. rewrite Hu, Hn. split; [|done]. simpl. split_and!; try done; try lia.
  destruct i; [done|]. unfold pagemap_in_parent. simpl. congruence.
Qed.

Lemma pages_off_app E e : pages_off (E ++ [e]) = pages_off E + present_bytes e.
Proof. unfold pages_off. rewrite foldr_app. simpl. induction E; simpl; lia. Qed.

Lemma img_ok_snoc E img img' i :
  item_ok i -> img_ok E img ->
  (if has (item_flags i) PE_PRESENT
   then appended img img' mem (iov_base (item_iov i)) (iov_len (item_iov i))
   else img' = img) ->
  img_ok (E ++ [item_entry offset i]) img'.
Proof.
  intros Hi [Hf Hw Hc] Happ. destruct (item_entry_ok i Hi) as [Hpe Hend].
  set (e' := item_entry offset i) in *.
  assert (Hpb : present_bytes e' = if has (item_flags i) PE_PRESENT then iov_len (item_iov i) else 0).
  { unfold present_bytes. change (pagemap_present e') with (has (item_flags i) PE_PRESENT).
    case_match; [|done]. unfold pe_end in Hend.
    change (vaddr e') with (iov_base (item_iov i) - offset) in Hend. lia. }
  assert (Hsame : forall j, j < s_wr img -> s_data img' j = s_data img j).
  { intros j Hj. destruct (has _ _); [|by subst]. by apply Happ. }
  split; [by apply Forall_snoc| |].
  { rewrite pages_off_app, Hpb. destruct (has _ _); [destruct Happ as (_ & -> & _); lia|subst; lia]. }
  intros k e a Hk Hp Hcov. destruct (decide (k < length E)%nat) as [Hlt|Hge].
  - rewrite lookup_app_l in Hk by done. rewrite take_app_le by lia.
    rewrite Hsame; [by apply Hc|]. rewrite Hw.
    pose proof (pages_off_take E k e Hf Hk) as Hle.
    unfold present_bytes in Hle. rewrite Hp in Hle. destruct Hcov. unfold pe_end in *. lia.
  - assert (k = length E) as -> by (apply lookup_lt_Some in Hk; rewrite length_app in Hk; simpl in Hk; lia).
    rewrite lookup_app_r, Nat.sub_diag in Hk by lia. injection Hk as <-.
    rewrite take_app_length. change (pagemap_present e') with (has (item_flags i) PE_PRESENT) in Hp.
    rewrite Hp in Happ. destruct Happ as (_ & _ & Hd & _). rewrite <-Hw.
    destruct Hcov as [Hc1 Hc2]. change (vaddr e') with (iov_base (item_iov i) - offset) in *.
    rewrite Hd by lia. f_equal. lia.
Qed.

Lemma pipe_holds_take p v l :
  pipe_holds p (v :: l) -> 0 <= iov_len v -> 0 <= bytes_of l ->
  iov_len v <= avail p /\
  (forall i, 0 <= i < iov_len v -> s_data p (s_rd p + i) = mem (iov_base v + i)) /\
  pipe_holds (skip p (iov_len v)) l.
Proof.
  intros [Hb Hd] Hv Hl. cbn [bytes_of foldr gather] in *. fold (bytes_of l) in *. split_and!; [lia| |].
  - intros i Hi. rewrite Hd by lia. by rewrite (proj2 (Z.ltb_lt _ _)) by lia.
  - unfold pipe_holds, avail, skip in *. simpl. split; [lia|]. intros i Hi.
    rewrite <-Z.add_assoc, Hd by lia. rewrite (proj2 (Z.ltb_ge _ _)) by lia. f_equal. lia.
Qed.

Lemma fd_iovs_pos fd its : Forall item_ok its -> 0 <= bytes_of (fd_iovs fd its).
Proof.
  induction 1 as [|i its Hi _ IH]; [done|]. unfold fd_iovs. rewrite bind_cons, bytes_of_app.
  fold (fd_iovs fd its). destruct i as [h|s]; [done|]. case_match; [|done].
  destruct Hi as (_ & ? & _). simpl in *. lia.
Qed.

Lemma pipes_hold_tail ps i its :
  pipes_hold ps (i :: its) -> (if i is ISeg s then has (sg_flags s) PE_PRESENT = false else True) ->
  pipes_hold ps its.
Proof.
  intros H Hi fd. specialize (H fd). unfold fd_iovs in *. rewrite bind_cons in H.
  destruct i as [h|s]; [exact H|]. rewrite Hi in H. exact H.
Qed.

Lemma pipes_hold_seg ps s its p :
  Forall item_ok its -> 0 <= iov_len (sg_iov s) ->
  pipes_hold ps (ISeg s :: its) -> has (sg_flags s) PE_PRESENT = true -> ps !! sg_fd s = Some p ->
  iov_len (sg_iov s) <= avail p /\
  (forall i, 0 <= i < iov_len (sg_iov s) -> s_data p (s_rd p + i) = mem (iov_base (sg_iov s) + i)) /\
  pipes_hold (<[sg_fd s := skip p (iov_len (sg_iov s))]> ps) its.
Proof.
  intros Hok Hlen H Hp Hps.
  assert (Hfd : forall fd, fd_iovs fd (ISeg s :: its) =
    if sg_fd s =? fd then sg_iov s :: fd_iovs fd its else fd_iovs fd its).
  { intros fd. unfold fd_iovs. rewrite bind_cons, Hp. cbn. by case_match. }
  pose proof (H (sg_fd s)) as Hs. rewrite Hfd, Z.eqb_refl in Hs.
  destruct (Hs ltac:(done)) as (p' & Hps' & Hh). simplify_eq.
  destruct (pipe_holds_take p (sg_iov s) (fd_iovs (sg_fd s) its) Hh Hlen (fd_iovs_pos _ _ Hok))
    as (H1 & H2 & H3). split_and!; try done.
  intros fd Hne. destruct (decide (fd = sg_fd s)) as [->|Hn].
  - eexists. by rewrite lookup_insert_eq.
  - rewrite lookup_insert_ne by done. specialize (H fd). rewrite Hfd, (proj2 (Z.eqb_neq _ _)) in H by done.
    by apply H.
Qed.

Lemma parent_ok_tail c i its : parent_ok c (i :: its) -> parent_ok c its.
Proof. destruct c as [|p c]; [done|]. intros (?&?&H). split_and!; try done. intros h Hh. apply H. set_solver. Qed.

Lemma write_hole_ok t ps x h its :
  item_ok (IHole h) -> parent_ok (parent x) (IHole h :: its) ->
  Forall (fun i => below h (item_iov i)) its ->
  exists t' c', write_pagemap_loc false (shift offset h) PE_PARENT (t, ps, x) =
      Done (0, (t', ps, mk_loc (pmi x ++ [item_entry offset (IHole h)]) (lpi x) c')) /\
    Forall2 same_img (parent x) c' /\ parent_ok c' its /\
    forall hi, iov_base h + iov_len h <= hi -> parent_below hi c'.
Proof.
  intros Hi Hp Hb. unfold write_pagemap_loc. change (has PE_PARENT PE_PRESENT) with false.
  change (has PE_PARENT PE_PARENT) with true. cbv iota.
  destruct (parent x) as [|p up] eqn:Hx.
  { rewrite pb_write_ok. eexists _, []. split; [done|]. by split_and!. }
  destruct Hp as (Hok & Hpos & Hh). destruct (Hh h ltac:(set_solver)) as [Hcv Hin].
  destruct Hi as (Hi1 & Hi2 & Hi3 & Hi4 & Hi5 & _). simpl in Hi1, Hi2, Hi5.
  destruct (check_pagehole_ok p (shift offset h)) as (r & p' & -> & Hs & Hpos' & [(-> & _ & Hcv')|[_ Hno]]);
    try done; simpl; try lia. rewrite pb_write_ok. eexists _, _. split; [done|].
  split; [constructor; [done|apply same_chain_refl]|]. pose proof Hs as (Hpm & _).
  split; [|intros hi Hhi; simpl in Hcv' |- *; lia].
  split_and!; [by unfold pm_ok in *; rewrite Hpm|done|].
  intros h' Hh'. rewrite Hpm. rewrite list.Forall_forall in Hb. specialize (Hb _ Hh'). simpl in Hb, Hcv'.
  split; [unfold below in Hb; lia|]. apply Hh. set_solver.
Qed.

Lemma fd_iovs_cons fd i its : fd_iovs fd (i :: its) = fd_iovs fd [i] ++ fd_iovs fd its.
Proof. clear mem. unfold fd_iovs. by rewrite !bind_cons, app_nil_r. Qed.

Lemma avail_taken ps s p fd :
  has (sg_flags s) PE_PRESENT = true -> ps !! sg_fd s = Some p ->
  avail (pipe_at (<[sg_fd s := skip p (iov_len (sg_iov s))]> ps) fd) =
    avail (pipe_at ps fd) - bytes_of (fd_iovs fd [ISeg s]).
Proof.
  intros Hp Hps. unfold pipe_at, fd_iovs. cbn. rewrite Hp. cbn.
  destruct (Z.eqb_spec (sg_fd s) fd) as [<-|Hn]; cbn.
  - rewrite lookup_insert_eq, Hps. unfold avail, skip. simpl. lia.
  - rewrite lookup_insert_ne by done. lia.
Qed.

Lemma write_seg_ok t ps x s its :
  item_ok (ISeg s) -> Forall item_ok its -> pipes_hold ps (ISeg s :: its) ->
  img_ok (pmi x) (lpi x) ->
  exists t' ps' x', exec (X := LocalXfer false) (seg_events offset s) (t, ps, x) = Done (0, (t', ps', x')) /\
    parent x' = parent x /\ pmi x' = pmi x ++ [item_entry offset (ISeg s)] /\
    img_ok (pmi x') (lpi x') /\ pipes_hold ps' its /\
    forall fd, avail (pipe_at ps' fd) = avail (pipe_at ps fd) - bytes_of (fd_iovs fd [ISeg s]).
Proof.
  intros Hi Hits Hp Hok. unfold seg_events. cbn [exec exec_event write_pagemap LocalXfer].
  unfold bind, write_pagemap_loc. pose proof Hi as (Hi1 & Hi2 & _ & _ & _ & Hpar). simpl in Hi1, Hi2.
  destruct (has (sg_flags s) PE_PRESENT) eqn:Hpres; cbn [andb].
  - rewrite pb_write_ok. cbn [negb Z.eqb exec exec_event write_pages LocalXfer]. unfold bind, write_pages_loc.
    destruct (Hp (sg_fd s)) as (p & Hps & _).
    { unfold fd_iovs. rewrite bind_cons, Hpres, Z.eqb_refl. done. }
    destruct (pipes_hold_seg ps s its p Hits ltac:(lia) Hp Hpres Hps) as (Ha & Hd & Hp').
    rewrite Hps. cbn [lpi].
    destruct (splice_loc_ok (S (Z.to_nat (iov_len (sg_iov s)))) (S t) p (lpi x) (iov_len (sg_iov s)) 0)
      as (t' & img' & -> & Happ); [lia|lia|lia|]. rewrite Z.sub_0_r in Happ |- *.
    eexists _, _, _. split; [done|]. cbn [set_lpi pmi lpi parent]. do 2 (split; [done|]).
    split; [|split; [done|intros fd; by apply avail_taken]].
    apply (img_ok_snoc (pmi x) (lpi x) img' (ISeg s)); [done|done|]. cbn [item_flags item_iov]. rewrite Hpres.
    destruct Happ as (A1 & A2 & A3 & A4). split_and!; try done. intros i Hi'. rewrite A3 by done. by apply Hd.
  - rewrite Hpar, pb_write_ok. cbn. eexists _, _, _. split; [done|]. cbn. do 2 (split; [done|]). split.
    + apply (img_ok_snoc (pmi x) (lpi x) _ (ISeg s)); [done|done|]. cbn [item_flags]. by rewrite Hpres.
    + split; [by eapply pipes_hold_tail|]. intros fd. unfold fd_iovs. cbn. rewrite Hpres. cbn. lia.
Qed.

Lemma exec_items_ok its t ps x :
  Forall item_ok its -> StronglySorted below (item_iov <$> its) -> pipes_hold ps its ->
  img_ok (pmi x) (lpi x) -> parent_ok (parent x) its ->
  exists t' ps' x', exec (X := LocalXfer false) (its ≫= item_events offset) (t, ps, x) = Done (0, (t', ps', x')) /\
    pmi x' = pmi x ++ (item_entry offset <$> its) /\ img_ok (pmi x') (lpi x') /\
    Forall2 same_img (parent x) (parent x') /\
    (forall fd, avail (pipe_at ps' fd) = avail (pipe_at ps fd) - bytes_of (fd_iovs fd its)) /\
    parent_ok (parent x') [] /\
    forall hi, Forall (fun i => iov_base (item_iov i) + iov_len (item_iov i) <= hi) its ->
      parent_below hi (parent x) -> parent_below hi (parent x').
Proof.
  intros Hits. revert t ps x. induction Hits as [|i its Hi Hits IH]; intros t ps x Hs Hp Hok Hpar.
  { eexists _, _, _. split; [done|]. rewrite app_nil_r. do 2 (split; [done|]). split; [apply same_chain_refl|].
    split; [intros fd; cbn; lia|]. done. }
  rewrite fmap_cons in Hs. inversion Hs as [|?? Hs' Hb]; subst.
  rewrite bind_cons, exec_app. destruct i as [h|s].
  - destruct (write_hole_ok t ps x h its Hi Hpar) as (t1 & c1 & Hw & Hc1 & Hp1 & Hb1).
    { by apply (Forall_fmap item_iov) in Hb. }
    cbn [item_events hole_event exec exec_event write_pagemap LocalXfer]. unfold bind. rewrite Hw. cbn.
    destruct (IH t1 ps (mk_loc (pmi x ++ [item_entry offset (IHole h)]) (lpi x) c1))
      as (t' & ps' & x' & -> & H1 & H2 & H3 & H4 & H5 & H6); try done.
    { by apply (img_ok_snoc (pmi x) (lpi x) _ (IHole h)). }
    eexists _, _, _. split; [done|]. split; [rewrite H1; cbn [pmi]; by rewrite <-app_assoc|]. split; [exact H2|].
    split; [by eapply same_chain_trans|]. split; [exact H4|]. split; [exact H5|].
    intros hi [Hh Hr]%Forall_cons_1 _. by apply H6, Hb1.
  - cbn [item_events]. destruct (write_seg_ok t ps x s its Hi Hits Hp Hok)
      as (t1 & ps1 & x1 & -> & Hpx & Hm & Hok1 & Hp1 & Ha1).
    cbn [negb Z.eqb]. destruct (IH t1 ps1 x1) as (t' & ps' & x' & -> & H1 & H2 & H3 & H4 & H5 & H6); try done.
    { rewrite Hpx. by eapply parent_ok_tail. }
    eexists _, _, _. split; [done|]. split; [by rewrite H1, Hm, <-app_assoc|]. rewrite <-Hpx.
    split; [exact H2|]. split; [exact H3|]. split; [|split; [exact H5|]].
    + intros fd. rewrite H4, Ha1, (fd_iovs_cons fd (ISeg s) its), bytes_of_app. lia.
    + intros hi [_ Hr]%Forall_cons_1. by apply H6.
Qed.

End Images.

(** ** From the page pipe to the images and back *)

(** iovecs of whole pages, in the order of their pages *)
Lemma iov_pages_ends v :
  iov_ok v -> iov_base v ∈ iov_pages v /\ iov_base v + iov_len v - PAGE_SIZE ∈ iov_pages v.
Proof. intros H. rewrite !(elem_of_iov_pages _ v H). destruct H as (?&?&?&?&?). split; pdiv. Qed.

Lemma iovs_sorted l :
  Forall iov_ok l -> StronglySorted Z.lt (l ≫= iov_pages) -> StronglySorted below l.
Proof.
  induction 1 as [|v l Hv Hl IH]; [by constructor|]. rewrite bind_cons.
  intros (Hvl & _ & Hs)%StronglySorted_app. constructor; [by apply IH|].
  apply list.Forall_forall. intros w Hw. rewrite list.Forall_forall in Hl. specialize (Hl w Hw).
  destruct (iov_pages_ends v Hv) as [_ H1]. destruct (iov_pages_ends w Hl) as [H2 _].
  specialize (Hvl _ (iov_base w) H1). assert (iov_base w ∈ l ≫= iov_pages) as Hin
    by (apply list_elem_of_bind; eauto).
  specialize (Hvl Hin). destruct Hv as (?&?&?&?&?), Hl as (?&?&?&?&?). unfold below. pdiv.
Qed.

Lemma iovs_disjoint v w :
  iov_ok v -> iov_ok w -> (forall a, a ∈ iov_pages v -> a ∈ iov_pages w -> False) ->
  below v w \/ below w v.
Proof.
  intros Hv Hw D. unfold below. 
  destruct (Z.le_gt_cases (iov_base v + iov_len v) (iov_base w)); [by left|].
  destruct (Z.le_gt_cases (iov_base w + iov_len w) (iov_base v)); [by right|]. exfalso.
  apply (D (Z.max (iov_base v) (iov_base w))); apply elem_of_iov_pages; try done;
    destruct Hv as (?&?&?&?&?), Hw as (?&?&?&?&?);
    destruct (Z.max_spec (iov_base v) (iov_base w)) as [[? ->]|[? ->]]; split; try done; lia.
Qed.

(** a page pipe whose pages and holes were recorded in address order, above [offset] *)
Record xferable (offset : Z) (pp : page_pipe) : Prop := {
  xf_wf : wf pp;
  xf_wfh : wf_holes pp;
  xf_off : 0 <= offset /\ aligned offset;
  xf_pages : StronglySorted Z.lt (fst <$> pp_pages pp);
  xf_holes : StronglySorted Z.lt (fst <$> pp_hole_pages pp);
  xf_disj : forall a, a ∈ fst <$> pp_pages pp -> a ∈ fst <$> pp_hole_pages pp -> False;
  xf_range : forall a, a ∈ (fst <$> pp_pages pp) ++ (fst <$> pp_hole_pages pp) ->
               0 < a /\ offset <= a /\ a - offset < 2 ^ 61;
  xf_hflags : Forall (fun h => snd h = PP_HOLE_PARENT) (pp_holes pp);
  xf_hlen : Forall (fun h => iov_len (fst h) < 2 ^ 43) (pp_holes pp);
}.

Section Ready.
Variables (offset : Z) (lazy : bool) (pp : page_pipe).
Hypothesis HX : xferable offset pp.

Lemma pp_holes_fst : fst <$> pp_holes pp = take (Z.to_nat (free_hole pp)) (holes pp).
Proof.
  destruct HX as [_ [(?&?&?) _] _ _ _ _ _ _ _]. unfold pp_holes.
  rewrite zip_with_take. apply fst_zip. rewrite !length_take. lia.
Qed.

Lemma pp_holes_pages : fst <$> pp_hole_pages pp = (fst <$> pp_holes pp) ≫= iov_pages.
Proof.
  unfold pp_hole_pages, pp_holes. rewrite <-zip_with_take.
  induction (take _ (zip_with pair (holes pp) (hole_flags pp))) as [|[v f] l IH]; [done|].
  rewrite bind_cons, fmap_app, IH, fmap_cons, bind_cons, <-list_fmap_compose. f_equal.
  by rewrite (list_fmap_ext (fst ∘ _) (fun a => a)), list_fmap_id by done.
Qed.

Lemma pp_segs_pages : fst <$> pp_pages pp = (sg_iov <$> pp_segs lazy pp) ≫= iov_pages.
Proof.
  unfold pp_pages, pp_segs. induction (bufs pp) as [|id l IH]; [done|].
  rewrite !bind_cons, !fmap_app, bind_app, <-IH. f_equal. unfold buf_pages, buf_segs.
  destruct (pp_heap pp !! id) as [b|]; [|done].
  rewrite <-(list_fmap_compose _ fst), <-(list_fmap_compose _ sg_iov).
  by rewrite (list_fmap_ext (fst ∘ _) (fun a => a)), (list_fmap_ext (sg_iov ∘ _) (fun v => v)),
    !list_fmap_id by done.
Qed.

Lemma elem_of_pp_segs s :
  s ∈ pp_segs lazy pp -> exists id b, id ∈ bufs pp /\ pp_heap pp !! id = Some b /\
    sg_iov s ∈ segs pp b /\ sg_flags s = ppb_xfer_flags lazy b /\ sg_fd s = p0 b.
Proof.
  intros (id & Hs & Hid)%list_elem_of_bind. unfold buf_segs in Hs.
  destruct (pp_heap pp !! id) as [b|] eqn:Hb; [|by apply elem_of_nil in Hs].
  apply list_elem_of_fmap in Hs as (v & -> & Hv). exists id, b. done.
Qed.
Lemma pp_segs_iov_ok : Forall iov_ok (sg_iov <$> pp_segs lazy pp) /\ Forall iov_ok (fst <$> pp_holes pp).
Proof.
  split; [|rewrite pp_holes_fst; apply (wh_ok _ (xf_wfh _ _ HX))].
  apply Forall_fmap, list.Forall_forall. intros s Hs.
  destruct (elem_of_pp_segs s Hs) as (id & b & Hid & Hb & Hv & _).
  destruct (wf_bufs _ (xf_wf _ _ HX) id b Hid Hb) as (_ & _ & _ & Hok & _).
  rewrite list.Forall_forall in Hok. by apply Hok.
Qed.

Lemma pp_iov_range v :
  v ∈ (sg_iov <$> pp_segs lazy pp) ++ (fst <$> pp_holes pp) ->
  iov_ok v /\ 0 < iov_base v /\ offset <= iov_base v /\ iov_base v - offset + iov_len v < 2 ^ 62 /\
  aligned (iov_base v - offset).
Proof.
  intros Hv. destruct pp_segs_iov_ok as [H1 H2].
  assert (Hok : iov_ok v).
  { rewrite list.Forall_forall in H1, H2. apply elem_of_app in Hv as [?|?]; auto. }
  assert (Hin : forall a, a ∈ iov_pages v -> a ∈ (fst <$> pp_pages pp) ++ (fst <$> pp_hole_pages pp)).
  { intros a Ha. rewrite pp_segs_pages, pp_holes_pages, <-bind_app. apply list_elem_of_bind. eauto. }
  destruct (iov_pages_ends v Hok) as [Ha Hb].
  pose proof (xf_range _ _ HX _ (Hin _ Ha)). pose proof (xf_range _ _ HX _ (Hin _ Hb)).
  destruct (xf_off _ _ HX) as [_ Hal]. destruct Hok as (?&?&?&?&?).
  split_and!; try done; try plia. pdiv.
Qed.

Definition pp_items : list item := items (pp_segs lazy pp) (fst <$> pp_holes pp).

Lemma pp_items_sorted :
  StronglySorted below (item_iov <$> pp_items) /\
  pp_items ≡ₚ (ISeg <$> pp_segs lazy pp) ++ (IHole <$> (fst <$> pp_holes pp)).
Proof.
  destruct pp_segs_iov_ok as [H1 H2].
  assert (Hr : forall v, v ∈ (sg_iov <$> pp_segs lazy pp) ++ (fst <$> pp_holes pp) -> 0 < iov_base v /\ 0 < iov_len v).
  { intros v Hv. destruct (pp_iov_range v Hv) as ((?&?&_) & ? & _). lia. }
  apply items_sorted.
  - apply list.Forall_forall. intros v Hv. apply Hr. set_solver.
  - apply list.Forall_forall. intros v Hv. apply Hr. set_solver.
  - apply iovs_sorted; [done|]. rewrite <-pp_segs_pages. apply (xf_pages _ _ HX).
  - apply iovs_sorted; [done|]. rewrite <-pp_holes_pages. apply (xf_holes _ _ HX).
  - intros v h Hv Hh. apply iovs_disjoint; try (rewrite list.Forall_forall in H1, H2; by auto).
    intros a Ha1 Ha2. apply (xf_disj _ _ HX a).
    + rewrite pp_segs_pages. apply list_elem_of_bind. eauto.
    + rewrite pp_holes_pages. apply list_elem_of_bind. eauto.
Qed.

Lemma bytes_of_elem l v : Forall (fun v => 0 <= iov_len v) l -> v ∈ l -> iov_len v <= bytes_of l.
Proof.
  induction 1 as [|w l Hw Hl IH]; intros Hv; [by apply elem_of_nil in Hv|].
  assert (0 <= bytes_of l) by (clear IH Hv; induction Hl; simpl; lia).
  apply elem_of_cons in Hv as [->|Hv]; simpl; [lia|]. specialize (IH Hv). lia.
Qed.

Lemma ppb_xfer_flags_no_parent b : has (ppb_xfer_flags lazy b) PE_PARENT = false.
Proof. unfold ppb_xfer_flags. by destruct (has (ppb_flags b) PPB_LAZY), lazy. Qed.

Lemma pp_items_ok : Forall (item_ok offset) pp_items.
Proof.
  apply list.Forall_forall. intros i Hi. destruct pp_items_sorted as [_ Hperm].
  rewrite Hperm in Hi. apply elem_of_app in Hi as [(s & -> & Hs)%list_elem_of_fmap|(h & -> & Hh)%list_elem_of_fmap].
  - destruct (pp_iov_range (sg_iov s)) as (Hok & ? & ? & ? & ?).
    { apply elem_of_app. left. apply list_elem_of_fmap. eauto. }
    destruct (elem_of_pp_segs s Hs) as (id & b & Hid & Hb & Hv & Hfl & _).
    destruct (wf_bufs _ (xf_wf _ _ HX) id b Hid Hb) as (_ & _ & _ & Hbs & Hin & Hcap).
    assert (iov_len (sg_iov s) < 2 ^ 43).
    { pose proof (bytes_of_elem (segs pp b) (sg_iov s)) as He.
      assert (bytes_of (segs pp b) = pages_in b * PAGE_SIZE) as Hbp by (rewrite Hin; by apply bytes_of_pages).
      destruct Hcap as (_ & ? & ? & ?). rewrite Hbp in He. eapply Z.le_lt_trans; [apply He; [|done]|plia].
      eapply Forall_impl; [|exact Hbs]. intros w (?&?&_). lia. }
    destruct Hok as (?&?&?&?&?). unfold item_ok. cbn [item_iov]. split_and!; try done.
    rewrite Hfl. apply ppb_xfer_flags_no_parent.
  - destruct (pp_iov_range h) as ((?&?&?&?&?) & ? & ? & ? & ?); [set_solver|].
    apply list_elem_of_fmap in Hh as (hf & -> & Hhf).
    pose proof (xf_hlen _ _ HX) as Hl. rewrite list.Forall_forall in Hl. specialize (Hl _ Hhf).
    unfold item_ok. cbn [item_iov]. by split_and!.
Qed.

Lemma dump_pages_items {St} {X : XferOps St} (s : St) :
  page_xfer_dump_pages offset lazy pp s = exec (pp_items ≫= item_events offset) s.
Proof.
  rewrite dump_pages_plan; [by rewrite plan_items| |].
  - apply list.Forall_forall. intros h Hh. pose proof (xf_hflags _ _ HX) as Hfl.
    rewrite list.Forall_forall in Hfl. split; [by apply Hfl|].
    destruct (pp_iov_range (fst h)) as (_ & _ & ? & _); [|done].
    apply elem_of_app. right. apply list_elem_of_fmap. eauto.
  - intros i Hi. destruct (wf_alloc _ (xf_wf _ _ HX) i) as [[b Hb] _]; [set_solver|].
    exists b. split; [done|]. apply list.Forall_forall. intros v Hv.
    destruct (pp_iov_range v) as (_ & _ & ? & _); [|done].
    apply elem_of_app. left. apply list_elem_of_fmap.
    exists (mk_seg v (ppb_xfer_flags lazy b) (p0 b)). split; [done|]. apply list_elem_of_bind.
    exists i. split; [|done]. unfold buf_segs. rewrite Hb. apply list_elem_of_fmap. eauto.
Qed.

End Ready.

(** the reader of the images that were written, as [open_page_read_at] makes it *)
Definition image_reader (x : loc_xfer) : page_read :=
  mk_pr None 0 0 (mk_iovec 0 0) (init_compat_pagemap_entry <$> pmi x) (-1) [] (s_data (lpi x)) 0 0.

Lemma init_compat_items offset (its : list item) :
  init_compat_pagemap_entry <$> (item_entry offset <$> its) = item_entry offset <$> its.
Proof. rewrite <-list_fmap_compose. by apply list_fmap_ext. Qed.

Lemma item_entries_sorted offset (its : list item) :
  Forall (item_ok offset) its -> StronglySorted below (item_iov <$> its) ->
  pm_sorted (item_entry offset <$> its).
Proof.
  induction 1 as [|i its Hi Hits IH]; [constructor|]. rewrite !fmap_cons.
  intros Hs. inversion Hs as [|?? Hs' Hb]; subst.
  specialize (IH Hs'). destruct its as [|j its]; [constructor|].
  rewrite fmap_cons in *. constructor; [|done]. apply Forall_cons_1 in Hb as [Hb _].
  destruct (item_entry_ok offset i Hi) as [_ ->]. unfold below in Hb. simpl. lia.
Qed.

Lemma fd_iovs_items fd l H : fd_iovs fd (items l H) = fd_iovs fd (ISeg <$> l).
Proof.
  assert (Hh : forall K, fd_iovs fd (IHole <$> K) = []).
  { induction K as [|h K IH]; [done|]. unfold fd_iovs. rewrite fmap_cons, bind_cons. exact IH. }
  revert H. induction l as [|s l IH]; intros H; cbn [items]; [by rewrite Hh|].
  destruct (split_holes _ H) as [a b]. unfold fd_iovs in *.
  rewrite bind_app, Hh, fmap_cons, !bind_cons, IH. done.
Qed.

(** the byte an item stands for, when the images are read back *)
Lemma ref_byte_item offset mem its x c i b :
  Forall (item_ok offset) its -> StronglySorted below (item_iov <$> its) ->
  pmi x = item_entry offset <$> its -> img_ok offset mem (pmi x) (lpi x) -> i ∈ its ->
  iov_base (item_iov i) <= b < iov_base (item_iov i) + iov_len (item_iov i) ->
  ref_byte (image_reader x :: c) (b - offset) =
    if has (item_flags i) PE_PARENT then ref_byte c (b - offset)
    else if has (item_flags i) PE_PRESENT then Some (mem b) else None.
Proof.
  intros Hits Hs Hx [Hf _ Hc] Hi Hb. apply list_elem_of_lookup in Hi as [k Hk].
  assert (Hok : item_ok offset i) by (by eapply Forall_lookup_1). destruct (item_entry_ok offset i Hok) as [_ Hend].
  assert (Hk' : pmi x !! k = Some (item_entry offset i)) by (by rewrite Hx, list_lookup_fmap, Hk).
  assert (Hcov : covers (item_entry offset i) (b - offset))
    by (unfold covers; rewrite Hend; simpl; lia).
  cbn [ref_byte image_reader pmes pi]. rewrite Hx, init_compat_items, <-Hx.
  rewrite (find_entry_at _ k (item_entry offset i)); try done.
  2: rewrite Hx; by apply item_entries_sorted.
  change (pagemap_in_parent (item_entry offset i)) with (has (item_flags i) PE_PARENT).
  change (pagemap_present (item_entry offset i)) with (has (item_flags i) PE_PRESENT).
  case_match; [done|]. case_match; [|done]. f_equal.
  rewrite Z.add_0_l, (Hc k (item_entry offset i)) by done. f_equal. lia.
Qed.

(** the flags with which a page recorded with [fl] is transferred *)
Definition transferred (lazy : bool) (fl : Z) : bool := negb (has fl PPB_LAZY) || lazy.

Lemma ppb_xfer_present lazy b : has (ppb_xfer_flags lazy b) PE_PRESENT = transferred lazy (ppb_flags b).
Proof. unfold ppb_xfer_flags, transferred. by destruct (has (ppb_flags b) PPB_LAZY), lazy. Qed.

Section RoundTrip.
Context {XK : XferKernel} {RK : ReadKernel} `{!XferKernelOk XK} `{!XferKernelLive XK}.
Variables (offset : Z) (lazy : bool) (mem : Z -> Z) (pp : page_pipe).
Hypothesis HX : xferable offset pp.

(** the parent snapshot, freshly opened, has every page that is recorded as a hole *)
Definition holes_in_parent (c : list page_read) : Prop :=
  match c with
  | [] => True
  | p :: _ => pm_ok p /\ pos_ok p /\ cvaddr p = 0 /\
      forall a fl, (a, fl) ∈ pp_hole_pages pp -> in_pagemap (pmes p) (a - offset) (a - offset + PAGE_SIZE)
  end.

Lemma page_of v b :
  iov_ok v -> iov_base v <= b < iov_base v + iov_len v ->
  exists a, a ∈ iov_pages v /\ a <= b < a + PAGE_SIZE.
Proof.
  clear mem. intros Hv Hb. exists (b / PAGE_SIZE * PAGE_SIZE). rewrite (elem_of_iov_pages _ _ Hv).
  destruct Hv as (?&?&?&?&?). split; [split|]; pdiv.
Qed.

Lemma hole_page_flags a : a ∈ fst <$> pp_hole_pages pp -> exists fl, (a, fl) ∈ pp_hole_pages pp.
Proof. intros ([x f] & -> & H)%list_elem_of_fmap. eauto. Qed.

Lemma holes_parent_ok c : holes_in_parent c -> parent_ok offset c (pp_items lazy pp).
Proof.
  destruct c as [|p c]; [done|]. intros (Hok & Hpos & Hcv & Hin). split_and!; try done.
  intros h Hh. destruct (pp_items_sorted offset lazy pp HX) as [_ Hperm]. rewrite Hperm in Hh.
  assert (Hel : h ∈ fst <$> pp_holes pp).
  { apply elem_of_app in Hh as [(?&?&_)%list_elem_of_fmap|(?&?&?)%list_elem_of_fmap]; congruence. }
  destruct (pp_iov_range offset lazy pp HX h) as (Hok' & ? & ? & ? & _); [set_solver|].
  split; [lia|]. intros a Ha. destruct (page_of h (a + offset) Hok' ltac:(lia)) as (b & Hb & Hab).
  destruct (hole_page_flags b) as [fl Hfl].
  { rewrite (pp_holes_pages pp). apply list_elem_of_bind. eauto. }
  destruct (Hin b fl Hfl a ltac:(lia)) as (e & ? & ?). eauto.
Qed.

Lemma page_item a fl :
  (a, fl) ∈ pp_pages pp -> exists s, ISeg s ∈ pp_items lazy pp /\ a ∈ iov_pages (sg_iov s) /\
    iov_ok (sg_iov s) /\ has (sg_flags s) PE_PRESENT = transferred lazy fl.
Proof.
  intros (id & Ha & Hid)%list_elem_of_bind. unfold buf_pages in Ha.
  destruct (pp_heap pp !! id) as [b|] eqn:Hb; [|by apply elem_of_nil in Ha].
  apply list_elem_of_fmap in Ha as (a' & [= -> ->] & (v & Ha & Hv)%list_elem_of_bind).
  set (s := mk_seg v (ppb_xfer_flags lazy b) (p0 b)).
  assert (Hs : s ∈ pp_segs lazy pp).
  { apply list_elem_of_bind. exists id. split; [|done]. unfold buf_segs. rewrite Hb.
    apply list_elem_of_fmap. eauto. }
  exists s. destruct (pp_items_sorted offset lazy pp HX) as [_ ->].
  split_and!; [apply elem_of_app; left; apply list_elem_of_fmap; eauto|done| |apply ppb_xfer_present].
  destruct (pp_segs_iov_ok offset lazy pp HX) as [Hok _]. rewrite list.Forall_forall in Hok.
  apply Hok, list_elem_of_fmap. eauto.
Qed.

Lemma hole_item a fl :
  (a, fl) ∈ pp_hole_pages pp -> exists h, IHole h ∈ pp_items lazy pp /\ a ∈ iov_pages h /\ iov_ok h.
Proof.
  intros Ha. assert (Hin : a ∈ fst <$> pp_hole_pages pp) by (apply list_elem_of_fmap; by exists (a, fl)).
  rewrite (pp_holes_pages pp) in Hin. apply list_elem_of_bind in Hin as (h & Hp & Hh).
  exists h. destruct (pp_items_sorted offset lazy pp HX) as [_ ->].
  split_and!; [apply elem_of_app; right; apply list_elem_of_fmap; eauto|done|].
  destruct (pp_segs_iov_ok offset lazy pp HX) as [_ Hok]. rewrite list.Forall_forall in Hok. by apply Hok.
Qed.

Lemma dump_pages_ok t ps c :
  pipes_hold mem ps (ISeg <$> pp_segs lazy pp) -> holes_in_parent c ->
  exists t' ps' x',
    page_xfer_dump_pages (X := LocalXfer false) offset lazy pp (t, ps, mk_loc [] empty_stream c) =
      Done (0, (t', ps', x')) /\
    pmi x' = item_entry offset <$> pp_items lazy pp /\ img_ok offset mem (pmi x') (lpi x') /\
    Forall2 same_img c (parent x').
Proof.
  intros Hp Hc. rewrite (dump_pages_items offset lazy pp HX).
  destruct (exec_items_ok offset mem (pp_items lazy pp) t ps (mk_loc [] empty_stream c))
      as (t' & ps' & x' & -> & H1 & H2 & H3 & _).
  - by apply pp_items_ok.
  - by apply (pp_items_sorted offset).
  - intros fd. unfold pp_items. rewrite fd_iovs_items. apply Hp.
  - split; [constructor|done|]. intros k e a Hk. done.
  - by apply holes_parent_ok.
  - by exists t', ps', x'.
Qed.

Lemma dump_image_ok x c :
  pmi x = item_entry offset <$> pp_items lazy pp -> img_ok offset mem (pmi x) (lpi x) ->
  pm_ok (image_reader x) /\
  (forall a fl b, (a, fl) ∈ pp_pages pp -> a <= b < a + PAGE_SIZE -> transferred lazy fl = true ->
     ref_byte (image_reader x :: c) (b - offset) = Some (mem b)) /\
  (forall a fl b, (a, fl) ∈ pp_hole_pages pp -> a <= b < a + PAGE_SIZE ->
     ref_byte (image_reader x :: c) (b - offset) = ref_byte c (b - offset)).
Proof.
  intros Hm Hi. pose proof (pp_items_ok offset lazy pp HX) as Hits.
  pose proof (proj1 (pp_items_sorted offset lazy pp HX)) as Hs.
  assert (Hin : forall v a b, iov_ok v -> a ∈ iov_pages v -> a <= b < a + PAGE_SIZE ->
                iov_base v <= b < iov_base v + iov_len v).
  { intros v a b Hv Ha Hb. apply elem_of_iov_pages in Ha; [|done].
    destruct Hv as (?&?&?&?&?). destruct Ha as [? ?]. pdiv. }
  split_and!.
  - unfold pm_ok. cbn [image_reader pmes]. rewrite Hm, init_compat_items. split; [|by apply item_entries_sorted].
    rewrite <-Hm. apply Hi.
  - intros a fl b Ha Hb Ht. destruct (page_item a fl Ha) as (s & Hsi & Hsa & Hok & Hpres).
    rewrite (ref_byte_item offset mem (pp_items lazy pp) x c (ISeg s)); try done; [|by apply (Hin _ a)].
    assert (Hf : item_ok offset (ISeg s)) by (rewrite list.Forall_forall in Hits; by apply Hits).
    destruct Hf as (_ & _ & _ & _ & _ & Hnp). cbn [item_flags]. by rewrite Hnp, Hpres, Ht.
  - intros a fl b Ha Hb. destruct (hole_item a fl Ha) as (h & Hhi & Hha & Hok).
    rewrite (ref_byte_item offset mem (pp_items lazy pp) x c (IHole h)); try done. by apply (Hin _ a).
Qed.

Lemma page_found x s a :
  pmi x = item_entry offset <$> pp_items lazy pp -> img_ok offset mem (pmi x) (lpi x) ->
  ISeg s ∈ pp_items lazy pp -> iov_ok (sg_iov s) -> a ∈ iov_pages (sg_iov s) ->
  exists pr k e, seek_pagemap (image_reader x) (a - offset) = Done (true, pr) /\
    same_img (image_reader x) pr /\ at_entry pr k e /\ cvaddr pr = a - offset /\
    a - offset + 1 * PAGE_SIZE <= pe_end e /\ aligned (a - offset).
Proof.
  intros Hm Hi Hs Hok Ha. destruct (dump_image_ok x [] Hm Hi) as (Hpm & _).
  pose proof (pp_items_ok offset lazy pp HX) as Hits. rewrite list.Forall_forall in Hits.
  specialize (Hits _ Hs). destruct (item_entry_ok offset (ISeg s) Hits) as [_ Hend].
  pose proof Hits as (I1 & I2 & I3 & I4 & I5 & _). cbn [item_iov] in *.
  apply elem_of_iov_pages in Ha as [Ha Hal]; [|done].
  destruct (xf_off _ _ HX) as [Ho1 Ho2]. destruct Hok as (?&?&?&?&?).
  assert (Hcov : covers (item_entry offset (ISeg s)) (a - offset))
    by (unfold covers; rewrite Hend; cbn; lia).
  destruct (seek_ok (image_reader x) (a - offset) Hpm) as (r & pr & Hseek & Hsame & Hpos & _ & Hr).
  { left. cbn. split_and!; try done. by left. }
  { cbn. lia. }
  destruct r.
  2: { exfalso. eapply (passed_not_covered (image_reader x) pr (a - offset) Hpm Hr); [|exact Hcov].
       cbn [image_reader pmes]. rewrite Hm, init_compat_items. apply list_elem_of_fmap. eauto. }
  destruct Hr as (k & e & Hat & Hc & Hcv). exists pr, k, e. split_and!; try done.
  - destruct Hat as (_ & Hk & _). destruct Hsame as (Hpe & _). rewrite Hpe in Hk.
    destruct Hpm as [Hf _]. assert (He : pe_ok e) by (by eapply Forall_lookup_1).
    destruct He as (?&Hae&?&?&_). destruct Hc as [? Hc]. unfold pe_end in *.
    assert (aligned (a - offset)) by pdiv. pdiv.
  - pdiv.
Qed.

End RoundTrip.

(** decide which request a command is *)
Ltac decode_cmd :=
  repeat match goal with
  | |- context [decode_ps_cmd ?a =? ?b] =>
    let v := eval vm_compute in (decode_ps_cmd a =? b) in change (decode_ps_cmd a =? b) with v
  end; cbv iota.

(** ** The page server writes what a local dump would write *)

Section Wire.
Context {XK : XferKernel} {RK : ReadKernel} `{!XferKernelOk XK} `{!XferKernelLive XK}.
Variables (offset dst : Z) (mem : Z -> Z).
Hypothesis Hdst : 0 <= dst < 2 ^ 64.

Definition item_psi (i : item) : page_server_iov :=
  mk_psi (encode_ps_cmd PS_IOV_ADD_F (item_flags i)) (u32 (iov_len (item_iov i) / PAGE_SIZE))
         (iov_base (item_iov i) - offset) dst.

(** the bytes of data that follow the request *)
Definition item_data (i : item) : Z :=
  if has (item_flags i) PE_PRESENT then iov_len (item_iov i) else 0.

Fixpoint wire_size (its : list item) : Z :=
  match its with [] => 0 | i :: its => PSI_SIZE + item_data i + wire_size its end.

(** from byte [off] on, the stream [f] carries the requests for [its] *)
Fixpoint wire_at (f : Z -> Z) (off : Z) (its : list item) : Prop :=
  match its with
  | [] => True
  | i :: its =>
    (forall j, 0 <= j < PSI_SIZE -> f (off + j) = psi_bytes (item_psi i) j) /\
    (forall j, 0 <= j < item_data i -> f (off + PSI_SIZE + j) = mem (iov_base (item_iov i) + j)) /\
    wire_at f (off + PSI_SIZE + item_data i) its
  end.

Lemma wire_at_ext f g off its :
  Forall (fun i => 0 <= item_data i) its ->
  (forall j, off <= j < off + wire_size its -> g j = f j) -> wire_at f off its -> wire_at g off its.
Proof.
  intros Hits. assert (Hsz : forall k, Forall (fun i => 0 <= item_data i) k -> 0 <= wire_size k)
    by (induction 1; simpl; unfold PSI_SIZE; lia).
  revert off. induction Hits as [|i its Hi Hits IH]; intros off Hg; [done|]. simpl in *.
  specialize (Hsz _ Hits). unfold PSI_SIZE in *.
  intros (H1 & H2 & H3). split_and!.
  - intros j Hj. rewrite Hg by lia. by apply H1.
  - intros j Hj. rewrite Hg by lia. by apply H2.
  - apply IH; [|done]. intros j Hj. apply Hg. lia.
Qed.

Lemma item_data_nonneg its : Forall (item_ok offset) its -> Forall (fun i => 0 <= item_data i) its.
Proof.
  intros H. eapply Forall_impl; [|exact H]. intros i (_ & ? & _). unfold item_data. case_match; lia.
Qed.

Lemma wire_size_nonneg its : Forall (fun i => 0 <= item_data i) its -> 0 <= wire_size its.
Proof. induction 1; simpl; unfold PSI_SIZE; lia. Qed.

(** the client's side *)
Lemma exec_server_ok its t ps s :
  Forall (item_ok offset) its -> pipes_hold mem ps its ->
  exists t' ps' s',
    exec (X := ServerXfer) (its ≫= item_events offset) (t, ps, mk_srv s dst) =
      Done (0, (t', ps', mk_srv s' dst)) /\
    s_rd s' = s_rd s /\ s_wr s' = s_wr s + wire_size its /\
    (forall j, j < s_wr s -> s_data s' j = s_data s j) /\ wire_at (s_data s') (s_wr s) its.
Proof.
  intros Hits. revert t ps s. induction Hits as [|i its Hi Hits IH]; intros t ps s Hp.
  { eexists _, _, _. split; [done|]. simpl. split_and!; try done. lia. }
  set (s1 := push s (psi_bytes (item_psi i)) 0 PSI_SIZE).
  destruct (appended_push s (psi_bytes (item_psi i)) 0 PSI_SIZE) as (A1 & A2 & A3 & A4).
  fold s1 in A1, A2, A3, A4.
  assert (Hstep : exists t1 ps1 s2,
    exec (X := ServerXfer) (item_events offset i) (t, ps, mk_srv s dst) = Done (0, (t1, ps1, mk_srv s2 dst)) /\
    pipes_hold mem ps1 its /\ appended s1 s2 mem (iov_base (item_iov i)) (item_data i)).
  { unfold item_data. destruct i as [h|sg]; cbn [item_events hole_event seg_events exec exec_event item_flags].
    - unfold bind. cbn [write_pagemap ServerXfer write_pagemap_to_server send_psi sk dst_id].
      rewrite send_all. cbn. eexists _, _, _. split; [done|].
      change (has PE_PARENT PE_PRESENT) with false. split; [done|]. apply appended_0.
    - unfold bind. cbn [write_pagemap ServerXfer write_pagemap_to_server send_psi sk dst_id].
      rewrite send_all, Z.eqb_refl. cbn [negb Z.eqb].
      destruct (has (sg_flags sg) PE_PRESENT) eqn:Hpres.
      + pose proof Hi as (_ & Hlen & _). simpl in Hlen. cbn [exec exec_event]. unfold bind.
        cbn [write_pages ServerXfer write_pages_to_server sk dst_id].
        destruct (Hp (sg_fd sg)) as (p & Hps & _).
        { unfold fd_iovs. rewrite bind_cons, Hpres, Z.eqb_refl. done. }
        destruct (pipes_hold_seg offset mem ps sg its p Hits ltac:(lia) Hp Hpres Hps) as (Ha & Hd & Hp').
        rewrite Hps.
        destruct (splice_srv_ok (S (Z.to_nat (iov_len (sg_iov sg)))) (S t) p s1 (iov_len (sg_iov sg)))
          as (t' & s' & Hrun & Happ); [lia|lia|lia|].
        unfold s1, item_psi in Hrun. cbn [item_flags item_iov] in Hrun. cbn [shift iov_base iov_len].
        rewrite Hrun. cbn.
        eexists _, _, _. split; [done|]. split; [done|]. destruct Happ as (B1 & B2 & B3 & B4).
        split_and!; try done. intros j Hj. rewrite B3 by done. by apply Hd.
      + eexists _, _, _. split; [done|]. split; [by eapply pipes_hold_tail|]. apply appended_0. }
  destruct Hstep as (t1 & ps1 & s2 & Hx & Hp1 & (B1 & B2 & B3 & B4)).
  destruct (IH t1 ps1 s2 Hp1) as (t' & ps' & s' & Hrun & C1 & C2 & C3 & C4).
  rewrite bind_cons, exec_app, Hx. cbn. rewrite Hrun. eexists _, _, _. split; [done|].
  assert (Hdi : 0 <= item_data i) by (unfold item_data; destruct Hi as (_ & ? & _); case_match; lia).
  rewrite A2 in B2, B3, B4. rewrite B2 in C2, C3, C4. unfold PSI_SIZE in *.
  split_and!; [congruence|lia| | | |].
  - intros j Hj. rewrite C3, B4, A4 by lia. done.
  - intros j Hj. rewrite C3, B4, A3 by lia. f_equal.
  - intros j Hj. rewrite C3, B3 by lia. done.
  - exact C4.
Qed.

(** the server's side *)
Lemma skip_skip s n m : skip (skip s n) m = skip s (n + m).
Proof. unfold skip. simpl. f_equal. lia. Qed.

Lemma add_loop_ok fuel len s :
  0 <= len <= avail (sv_in s) -> avail (cx_pipe s) = 0 -> 0 < cx_pipe_size s -> (Z.to_nat len < fuel)%nat ->
  exists t' p' img',
    add_loop fuel len s =
      Done (0, set_cx (set_io s t' (skip (sv_in s) len)) t' p' (set_lpi (cx_loc s) img')) /\
    avail p' = 0 /\ appended (lpi (cx_loc s)) img' (s_data (sv_in s)) (s_rd (sv_in s)) len.
Proof.
  revert len s. induction fuel as [|fuel IH]; intros len s Hl Hp Hps Hf; [lia|]. cbn [add_loop].
  destruct (Z.leb_spec len 0).
  { assert (len = 0) as -> by lia. exists (sv_t s), (cx_pipe s), (lpi (cx_loc s)).
    split; [|split; [done|apply appended_0]]. destruct s, sv_in0, cx_loc0.
    unfold set_cx, set_io, skip, set_lpi; simpl. by rewrite Z.add_0_r. }
  pose proof (do_splice_pos (sv_t s) (Z.min len (cx_pipe_size s)) (avail (sv_in s)) ltac:(lia)) as Hr.
  set (r := do_splice _ _ _) in *. rewrite (proj2 (Z.leb_gt r 0)) by lia.
  set (p := push _ _ _ r). unfold write_pages_loc. rewrite lookup_singleton_eq.
  assert (Hpa : avail p = r) by (unfold p, avail, push in *; simpl; lia).
  destruct (splice_loc_ok (S (Z.to_nat r)) (S (sv_t s)) p (lpi (cx_loc s)) r 0) as (t1 & img1 & -> & Happ);
    [lia|lia|lia|]. rewrite Z.sub_0_r in Happ |- *. cbn [negb Z.eqb].
  rewrite lookup_insert_eq. cbn [default from_option].
  assert (Happ1 : appended (lpi (cx_loc s)) img1 (s_data (sv_in s)) (s_rd (sv_in s)) r).
  { destruct Happ as (B1 & B2 & B3 & B4). split_and!; try done. intros i Hi. rewrite B3 by done.
    unfold p, push, blit, avail in *. simpl in *. replace (s_rd (cx_pipe s)) with (s_wr (cx_pipe s)) by lia.
    rewrite (proj2 (andb_true_iff _ _)) by lia. f_equal. lia. }
  unfold default, id.
  destruct (IH (len - r) (set_cx (set_io s t1 (skip (sv_in s) r)) t1 (skip p r) (set_lpi (cx_loc s) img1)))
    as (t' & p' & img' & -> & H1 & H2).
  { unfold avail, skip in *. simpl. lia. }
  { unfold avail, skip in *. simpl in *. lia. }
  { done. }
  { lia. }
  exists t', p', img'. split; [|split; [done|]].
  - unfold set_cx, set_io, set_lpi. cbn. rewrite skip_skip. by replace (r + (len - r)) with len by lia.
  - replace len with (r + (len - r)) by lia. eapply appended_trans; [lia|exact Happ1|exact H2].
Qed.

Section Serve.
Variables (stream_mode : bool) (pardirs : fd_type -> Z -> option (list imgdir)).

(** a server with [dst] open, receiving the requests for [its] *)
Definition serving (s : server) (its : list item) : Prop :=
  cx_dst_id s = dst /\ cx_open s = true /\ 0 < cx_pipe_size s /\ avail (cx_pipe s) = 0 /\
  img_ok offset mem (pmi (cx_loc s)) (lpi (cx_loc s)) /\ parent_ok offset (parent (cx_loc s)) its.

Lemma item_flags_bound i :
  (if i is ISeg s then 0 <= sg_flags s < 2 ^ 16 else True) -> 0 <= item_flags i < 2 ^ 16.
Proof. destruct i; [done|]. done. Qed.

Lemma item_psi_iov i : item_ok offset i -> psi2iovec (item_psi i) = shift offset (item_iov i).
Proof.
  clear mem Hdst. intros (? & ? & ? & ? & ? & _). unfold psi2iovec, item_psi, shift. cbn. f_equal.
  rewrite (u32_id (_ / _)) by pdiv. rewrite u64_id; pdiv.
Qed.

Lemma write_pagemap_present t ps x i :
  (if i is ISeg s then has (sg_flags s) PE_PARENT = false else False) ->
  write_pagemap_loc false (shift offset (item_iov i)) (item_flags i) (t, ps, x) =
    Done (0, (S t, ps, mk_loc (pmi x ++ [item_entry offset i]) (lpi x) (parent x))).
Proof.
  destruct i as [|s]; [done|]. intros Hp. unfold write_pagemap_loc. cbn [item_flags andb].
  case_match; rewrite ?Hp; rewrite pb_write_ok; done.
Qed.

Lemma serve_item i its s :
  item_ok offset i -> 0 <= item_flags i < 2 ^ 16 ->
  Forall (fun j => below (item_iov i) (item_iov j)) its ->
  serving s (i :: its) -> item_data i <= avail (sv_in s) ->
  (forall j, 0 <= j < item_data i -> s_data (sv_in s) (s_rd (sv_in s) + j) = mem (iov_base (item_iov i) + j)) ->
  exists s', serve_one false stream_mode pardirs (item_psi i) s = Done ((0, false), s') /\
    serving s' its /\ sv_in s' = skip (sv_in s) (item_data i) /\
    pmi (cx_loc s') = pmi (cx_loc s) ++ [item_entry offset i] /\
    Forall2 same_img (parent (cx_loc s)) (parent (cx_loc s')) /\
    sv_out s' = sv_out s /\ sv_disk s' = sv_disk s.
Proof.
  intros Hi Hfl Hb (Hd & Ho & Hps & Hpi & Himg & Hpar) Hav Hdata. unfold serve_one.
  destruct (ps_cmd_roundtrip PS_IOV_ADD_F (item_flags i) ltac:(done) Hfl) as (Hc & Hf & _).
  change (ps_cmd (item_psi i)) with (encode_ps_cmd PS_IOV_ADD_F (item_flags i)). rewrite Hc, Hf.
  change (PS_IOV_ADD_F =? PS_IOV_OPEN) with false. change (PS_IOV_ADD_F =? PS_IOV_OPEN2) with false.
  change (PS_IOV_ADD_F =? PS_IOV_PARENT) with false. change (PS_IOV_ADD_F =? PS_IOV_ADD_F) with true.
  cbv iota. cbn [orb]. unfold page_server_add, bind, prep_loc_xfer.
  change (ps_dst_id (item_psi i)) with dst. rewrite Hd, Z.eqb_refl. cbn [negb Z.eqb].
  rewrite item_psi_iov by done. unfold item_data in *. destruct i as [h|sg]; cbn [item_iov item_flags].
  - destruct (write_hole_ok offset mem (sv_t s) ∅ (cx_loc s) h its Hi Hpar Hb) as (t' & c' & -> & Hc' & Hp' & _).
    cbn. change (has PE_PARENT PE_PRESENT) with false. cbn. eexists. split; [done|]. unfold serving. split_and!; try done.
    + by apply (img_ok_snoc offset mem (pmi (cx_loc s)) (lpi (cx_loc s)) _ (IHole h)).
    + cbn. unfold skip. rewrite Z.add_0_r. by destruct (sv_in s).
  - pose proof Hi as (_ & Hlen & _ & _ & _ & Hnp). cbn [item_iov] in Hlen.
    pose proof (write_pagemap_present (sv_t s) ∅ (cx_loc s) (ISeg sg) Hnp) as Hw.
    cbn [item_iov item_flags] in Hw, Hdata, Hav. rewrite Hw. cbn [negb Z.eqb].
    destruct (has (sg_flags sg) PE_PRESENT) eqn:Hpres; cbn [negb].
    + set (s1 := set_cx _ _ _ _).
      destruct (add_loop_ok (S (Z.to_nat (iov_len (sg_iov sg)))) (iov_len (sg_iov sg)) s1)
        as (t' & p' & img' & Hrun & Hp0 & Happ); try done; try (cbn; lia).
      cbn [shift iov_len]. rewrite Hrun. eexists. split; [done|]. unfold serving. split_and!; try done.
      * apply (img_ok_snoc offset mem (pmi (cx_loc s)) (lpi (cx_loc s)) img' (ISeg sg)); try done.
        cbn [item_flags item_iov]. rewrite Hpres. cbn in Happ. destruct Happ as (B1 & B2 & B3 & B4).
        split_and!; try done. intros j Hj. rewrite B3 by done. by apply Hdata.
      * cbn. by eapply parent_ok_tail.
    + eexists. split; [done|]. unfold serving. split_and!; try done.
      * apply (img_ok_snoc offset mem (pmi (cx_loc s)) (lpi (cx_loc s)) _ (ISeg sg)); try done.
        cbn [item_flags]. by rewrite Hpres.
      * cbn. by eapply parent_ok_tail.
      * cbn. unfold skip. rewrite Z.add_0_r. by destruct (sv_in s).
Qed.

Lemma item_psi_ok i : item_ok offset i -> 0 <= item_flags i < 2 ^ 16 -> psi_ok (item_psi i).
Proof.
  intros (? & ? & ? & ? & ? & _) Hf.
  destruct (ps_cmd_roundtrip PS_IOV_ADD_F (item_flags i) ltac:(done) Hf) as (_ & _ & Hc).
  unfold psi_ok, item_psi. cbn [ps_cmd ps_nr_pages ps_vaddr ps_dst_id]. split_and!; try lia.
  all: apply Z.mod_pos_bound; lia.
Qed.

Lemma serve_items its n fl s :
  Forall (item_ok offset) its -> Forall (fun i => 0 <= item_flags i < 2 ^ 16) its ->
  StronglySorted below (item_iov <$> its) -> serving s its ->
  wire_size its <= avail (sv_in s) -> wire_at (s_data (sv_in s)) (s_rd (sv_in s)) its ->
  exists s' fl', serve_loop false stream_mode pardirs (length its + n) fl s =
                 serve_loop false stream_mode pardirs n fl' s' /\
    serving s' [] /\ sv_in s' = skip (sv_in s) (wire_size its) /\
    pmi (cx_loc s') = pmi (cx_loc s) ++ (item_entry offset <$> its) /\
    Forall2 same_img (parent (cx_loc s)) (parent (cx_loc s')) /\
    sv_out s' = sv_out s /\ sv_disk s' = sv_disk s.
Proof.
  intros Hits. revert fl s. induction Hits as [|i its Hi Hits IH]; intros fl s Hf Hs Hsv Hav Hw.
  { exists s, fl. split; [done|]. split_and!; try done.
    - cbn. unfold skip. rewrite Z.add_0_r. by destruct (sv_in s).
    - by rewrite app_nil_r. }
  apply Forall_cons_1 in Hf as [Hfi Hf]. rewrite fmap_cons in Hs. inversion Hs as [|?? Hs' Hb]; subst.
  cbn [wire_at wire_size] in Hw, Hav. destruct Hw as (Hw1 & Hw2 & Hw3).
  pose proof (wire_size_nonneg its (item_data_nonneg its Hits)) as Hws.
  assert (Hdi : 0 <= item_data i) by (pose proof (item_data_nonneg [i] ltac:(by constructor)) as Hx; by apply Forall_cons_1 in Hx as [? _]).
  cbn [length Nat.add serve_loop]. unfold PSI_SIZE in *.
  rewrite (proj2 (Z.leb_gt _ _)), (proj2 (Z.ltb_ge _ _)) by lia.
  rewrite (psi_roundtrip (item_psi i)) by (try done; by apply item_psi_ok).
  set (s1 := set_io s (sv_t s) (skip (sv_in s) 24)).
  destruct (serve_item i its s1) as (s2 & Hrun & Hsv2 & Hin2 & Hm2 & Hp2 & Ho2 & Hd2); try done.
  { by apply (Forall_fmap item_iov) in Hb. }
  { cbn. unfold avail, skip in *. cbn. lia. }
  rewrite Hrun. change (negb (0 =? 0)) with false. cbn [orb].
  assert (Hnc : (ps_cmd (item_psi i) =? PS_IOV_FLUSH_N_CLOSE) = false).
  { apply Z.eqb_neq. intros Heq.
    destruct (ps_cmd_roundtrip PS_IOV_ADD_F (item_flags i) ltac:(done) Hfi) as (Hc & _).
    change (encode_ps_cmd PS_IOV_ADD_F (item_flags i)) with (ps_cmd (item_psi i)) in Hc.
    rewrite Heq in Hc. vm_compute in Hc. congruence. }
  rewrite Hnc.
  destruct (IH false s2 Hf Hs' Hsv2) as (s' & fl' & -> & H1 & H2 & H3 & H4 & H5 & H6).
  { rewrite Hin2. cbn. unfold avail, skip in *. cbn. lia. }
  { rewrite Hin2. cbn. unfold skip. cbn. by rewrite <-Z.add_assoc in Hw3 |- *. }
  exists s', fl'. split; [done|]. split_and!; try done.
  - rewrite H2, Hin2. cbn. rewrite !skip_skip. f_equal. unfold PSI_SIZE. lia.
  - by rewrite H3, Hm2, <-app_assoc.
  - by eapply same_chain_trans.
  - by rewrite H5, Ho2.
  - by rewrite H6, Hd2.
Qed.

Lemma wire_size_length its :
  Forall (item_ok offset) its -> PSI_SIZE * Z.of_nat (length its) <= wire_size its.
Proof.
  intros H%item_data_nonneg. induction H; simpl; unfold PSI_SIZE in *; lia.
Qed.

Lemma serve_open type id s n fl t1 ids1 c :
  decode_pm dst = Some (type, id) -> cx_dst_id s = NO_DST ->
  open_page_local_xfer stream_mode (pardirs type id) type id (sv_t s, sv_ids s) =
    Done (Some (mk_loc [] empty_stream c), (t1, ids1)) ->
  PSI_SIZE <= avail (sv_in s) ->
  (forall j, 0 <= j < PSI_SIZE -> s_data (sv_in s) (s_rd (sv_in s) + j) = psi_bytes (mk_psi PS_IOV_OPEN2 0 0 dst) j) ->
  exists s', serve_loop false stream_mode pardirs (S n) fl s = serve_loop false stream_mode pardirs n false s' /\
    cx_dst_id s' = dst /\ cx_open s' = true /\ cx_pipe_size s' = cx_pipe_size s /\ cx_pipe s' = cx_pipe s /\
    cx_loc s' = mk_loc [] empty_stream c /\ sv_in s' = skip (sv_in s) PSI_SIZE /\
    sv_out s' = sv_out s ++ [HasParent (negb (bool_decide (c = [])))] /\ sv_disk s' = sv_disk s.
Proof.
  intros Hd Hno Hopen Hav Hpsi. cbn [serve_loop]. unfold PSI_SIZE in *.
  rewrite (proj2 (Z.leb_gt _ _)), (proj2 (Z.ltb_ge _ _)) by lia.
  rewrite (psi_roundtrip (mk_psi PS_IOV_OPEN2 0 0 dst)); [|unfold psi_ok; cbn; unfold PS_IOV_OPEN2; lia|done].
  unfold serve_one. cbn [ps_cmd].
  change (decode_ps_cmd PS_IOV_OPEN2 =? PS_IOV_OPEN) with false.
  change (decode_ps_cmd PS_IOV_OPEN2 =? PS_IOV_OPEN2) with true. cbv iota.
  unfold page_server_open, bind, page_server_close. cbn [ps_dst_id]. rewrite Hd. cbn [cx_dst_id set_io].
  rewrite Hno, Z.eqb_refl. cbn [sv_t sv_ids set_io]. rewrite Hopen. cbn [negb]. rewrite send_all. cbn.
  eexists. split; [done|]. cbn. by split_and!.
Qed.

Lemma serve_flush s n fl psk :
  avail (sv_in s) = PSI_SIZE ->
  (forall j, 0 <= j < PSI_SIZE -> s_data (sv_in s) (s_rd (sv_in s) + j) =
     psi_bytes (mk_psi (if psk =? -1 then PS_IOV_FLUSH else PS_IOV_FLUSH_N_CLOSE) 0 0 0) j) ->
  serve_loop false stream_mode pardirs (S (S n)) fl s =
    Done ((0, true), reply (set_io s (sv_t s) (skip (sv_in s) PSI_SIZE)) (S (sv_t s)) [Status 0]).
Proof.
  intros Hav Hpsi. cbn [serve_loop]. unfold PSI_SIZE in *. rewrite Hav. cbn [Z.leb Z.ltb Z.compare].
  set (cmd := if psk =? -1 then PS_IOV_FLUSH else PS_IOV_FLUSH_N_CLOSE) in *.
  rewrite (psi_roundtrip (mk_psi cmd 0 0 0));
    [|unfold psi_ok; cbn; unfold cmd, PS_IOV_FLUSH, PS_IOV_FLUSH_N_CLOSE; case_match; lia|done].
  unfold serve_one. unfold cmd. destruct (psk =? -1); cbn [ps_cmd]; decode_cmd; cbn [orb];
    rewrite send_all; change (24 <? 24) with false; change (4 =? 4) with true; cbv iota;
    change (negb (0 =? 0)) with false; cbn [orb].
  - change (PS_IOV_FLUSH =? PS_IOV_FLUSH_N_CLOSE) with false. cbn [serve_loop].
    rewrite (proj2 (Z.leb_le _ _)); [done|]. unfold avail, skip in *. simpl. lia.
  - by rewrite Z.eqb_refl.
Qed.

End Serve.

End Wire.

Lemma pm_roundtrip type id :
  type = CR_FD_PAGEMAP \/ type = CR_FD_SHMEM_PAGEMAP -> 0 <= id < 2 ^ 56 ->
  exists d, encode_pm type id = Some d /\ 0 <= d < 2 ^ 64 - 1 /\ decode_pm d = Some (type, id).
Proof.
  intros Ht Hid. assert (Hs : u64 (Z.shiftl id 8) = Z.shiftl id 8) by (apply shiftl_u64; lia).
  assert (Hgen : forall v, 0 <= v < 3 ->
    0 <= Z.lor (Z.shiftl id 8) v < 2 ^ 64 - 1 /\ Z.land (Z.lor (Z.shiftl id 8) v) PS_TYPE_MASK = v /\
    Z.shiftr (Z.lor (Z.shiftl id 8) v) PS_TYPE_BITS = id).
  { intros v Hv. split_and!.
    - apply Z.lor_nonneg. rewrite Z.shiftl_nonneg. lia.
    - assert (E : Z.lor (Z.shiftl id 8) v / 2 ^ 8 = id)
        by (rewrite <-Z.shiftr_div_pow2 by lia; apply field_high; lia).
      assert (E2 : Z.lor (Z.shiftl id 8) v mod 2 ^ 8 = v).
      { rewrite <-Z.land_ones by lia. apply (field_low id 8 v); lia. }
      pose proof (Z.div_mod (Z.lor (Z.shiftl id 8) v) (2 ^ 8)). lia.
    - apply (field_low id 8 v); lia.
    - apply (field_high id 8 v); lia. }
  destruct Ht as [->| ->]; cbn [encode_pm]; unfold PS_TYPE_BITS in *; rewrite Hs; eexists.
  - destruct (Hgen 1 ltac:(lia)) as (H1 & H2 & H3). split; [done|]. split; [exact H1|].
    unfold decode_pm, PS_TYPE_PID. rewrite H2. unfold PS_TYPE_BITS. by rewrite H3.
  - destruct (Hgen 2 ltac:(lia)) as (H1 & H2 & H3). split; [done|]. split; [exact H1|].
    unfold decode_pm, PS_TYPE_SHMEM. rewrite H2. unfold PS_TYPE_BITS. by rewrite H3.
Qed.

(** the dump of one image through the page server: open, transfer, disconnect; [a1] and [a2] are
    the answers that are read from the socket *)
Definition client_session {XK : XferKernel} (psk : Z) (type : fd_type) (id offset : Z) (lazy : bool)
           (pp : page_pipe) (a1 a2 : option Z) : M sst Z :=
  o <~ open_page_server_xfer type id a1 ;;
  match o with
  | None => ret (-1)
  | Some _ =>
    r <~ page_xfer_dump_pages (X := ServerXfer) offset lazy pp ;;
    if negb (r =? 0) then ret (-1)
    else fun '(t, ps, x) =>
      match disconnect_from_page_server psk a2 (t, sk x) with
      | Done (r, (t, s)) => Done (r, (t, ps, mk_srv s (dst_id x)))
      | Bug => Bug
      | NoFuel => NoFuel
      end
  end.

Definition fresh_server (t : clock) (s : stream) (pipe_size : Z) : server :=
  mk_server t 0 s [] NO_DST empty_stream pipe_size (mk_loc [] empty_stream []) false [] ∅.

Section Session.
Context {XK : XferKernel} {RK : ReadKernel} `{!XferKernelOk XK} `{!XferKernelLive XK}.
Variables (offset : Z) (lazy : bool) (mem : Z -> Z) (pp : page_pipe).
Hypothesis HX : xferable offset pp.
Variables (psk : Z) (type : fd_type) (id : Z).
Hypothesis Htype : type = CR_FD_PAGEMAP \/ type = CR_FD_SHMEM_PAGEMAP.
Hypothesis Hid : 0 <= id < 2 ^ 56.

Lemma pp_items_flags : Forall (fun i => 0 <= item_flags i < 2 ^ 16) (pp_items lazy pp).
Proof.
  apply list.Forall_forall. intros i Hi. destruct (pp_items_sorted offset lazy pp HX) as [_ Hperm].
  rewrite Hperm in Hi. apply elem_of_app in Hi as [(s & -> & Hs)%list_elem_of_fmap|(h & -> & _)%list_elem_of_fmap].
  - destruct (elem_of_pp_segs lazy pp s Hs) as (? & b & _ & _ & _ & Hfl & _). cbn. rewrite Hfl.
    unfold ppb_xfer_flags. by destruct (has (ppb_flags b) PPB_LAZY), lazy.
  - done.
Qed.

(** what the client has sent when it is done *)
Lemma client_session_ok t ps f r1 d :
  pipes_hold mem ps (ISeg <$> pp_segs lazy pp) -> encode_pm type id = Some d ->
  exists t' ps' s',
    client_session psk type id offset lazy pp (Some r1) (Some 0) (t, ps, mk_srv (mk_stream f 0 0) 0) =
      Done (0, (t', ps', mk_srv s' d)) /\
    s_rd s' = 0 /\ s_wr s' = PSI_SIZE + wire_size (pp_items lazy pp) + PSI_SIZE /\
    (forall j, 0 <= j < PSI_SIZE -> s_data s' j = psi_bytes (mk_psi PS_IOV_OPEN2 0 0 d) j) /\
    wire_at offset d mem (s_data s') PSI_SIZE (pp_items lazy pp) /\
    (forall j, 0 <= j < PSI_SIZE -> s_data s' (PSI_SIZE + wire_size (pp_items lazy pp) + j) =
       psi_bytes (mk_psi (if psk =? -1 then PS_IOV_FLUSH else PS_IOV_FLUSH_N_CLOSE) 0 0 0) j).
Proof.
  intros Hp Hd. unfold client_session, bind, open_page_server_xfer. rewrite Hd.
  unfold send_psi. cbn [sk]. rewrite send_all, Z.eqb_refl. cbn [negb Z.eqb].
  rewrite (dump_pages_items offset lazy pp HX).
  set (s1 := push (mk_stream f 0 0) _ 0 PSI_SIZE).
  destruct (appended_push (mk_stream f 0 0) (psi_bytes (mk_psi PS_IOV_OPEN2 0 0 d)) 0 PSI_SIZE)
    as (A1 & A2 & A3 & _). fold s1 in A1, A2, A3. cbn [s_wr s_rd] in A1, A2, A3.
  rewrite Z.add_0_l in A2.
  pose proof (pp_items_ok offset lazy pp HX) as Hits.
  destruct (exec_server_ok offset d mem (pp_items lazy pp) (S t) ps s1 Hits) as (t' & ps' & s2 & -> & B1 & B2 & B3 & B4).
  { intros fd. unfold pp_items. rewrite fd_iovs_items. apply Hp. }
  cbn [negb Z.eqb]. unfold disconnect_from_page_server, bind, send_psi. cbn [sk]. rewrite send_all, Z.eqb_refl.
  cbn [negb Z.eqb ret]. eexists _, _, _. split; [done|].
  set (pi := mk_psi (if psk =? -1 then _ else _) 0 0 0).
  destruct (appended_push s2 (psi_bytes pi) 0 PSI_SIZE) as (C1 & C2 & C3 & C4).
  pose proof (wire_size_nonneg _ (item_data_nonneg offset _ Hits)) as Hw.
  rewrite A2 in B2, B3, B4. rewrite B2 in C2, C3, C4. unfold PSI_SIZE in *.
  split_and!.
  - rewrite C1, B1. exact A1.
  - exact C2.
  - intros j Hj. rewrite C4, B3 by lia. by apply A3.
  - eapply wire_at_ext; [by apply (item_data_nonneg offset)| |exact B4]. intros j Hj. apply C4. lia.
  - intros j Hj. by rewrite C3.
Qed.

Lemma server_session_ok t s psz pardirs t1 ids1 c d :
  encode_pm type id = Some d -> 0 < psz -> holes_in_parent offset pp c -> Forall (fun p => async p = []) c ->
  open_page_local_xfer false (pardirs type id) type id (t, 0) =
    Done (Some (mk_loc [] empty_stream c), (t1, ids1)) ->
  s_rd s = 0 -> s_wr s = PSI_SIZE + wire_size (pp_items lazy pp) + PSI_SIZE ->
  (forall j, 0 <= j < PSI_SIZE -> s_data s j = psi_bytes (mk_psi PS_IOV_OPEN2 0 0 d) j) ->
  wire_at offset d mem (s_data s) PSI_SIZE (pp_items lazy pp) ->
  (forall j, 0 <= j < PSI_SIZE -> s_data s (PSI_SIZE + wire_size (pp_items lazy pp) + j) =
       psi_bytes (mk_psi (if psk =? -1 then PS_IOV_FLUSH else PS_IOV_FLUSH_N_CLOSE) 0 0 0) j) ->
  exists s' x, page_server_serve false false pardirs false psk (fresh_server t s psz) = Done (0, s') /\
    sv_out s' = [HasParent (negb (bool_decide (c = []))); Status 0] /\ sv_disk s' = [(d, x)] /\
    pmi x = item_entry offset <$> pp_items lazy pp /\ img_ok offset mem (pmi x) (lpi x).
Proof.
  intros Hd Hpsz Hc Has Hopen Hrd Hwr Hw1 Hw2 Hw3.
  destruct (pm_roundtrip type id Htype Hid) as (d' & Hd' & Hdr & Hdec). rewrite Hd in Hd'. injection Hd' as <-.
  pose proof (pp_items_ok offset lazy pp HX) as Hits. set (its := pp_items lazy pp) in *.
  pose proof (wire_size_length offset its Hits) as Hlen.
  assert (Hav : avail s = PSI_SIZE + wire_size its + PSI_SIZE) by (unfold avail; lia).
  unfold page_server_serve. set (fuel := Z.to_nat (avail (sv_in (fresh_server t s psz)))).
  assert (Hfuel : exists n, S fuel = S (length its + S (S n))).
  { exists (fuel - length its - 2)%nat. unfold fuel, PSI_SIZE in *. cbn. lia. }
  destruct Hfuel as [n ->].
  destruct (serve_open d ltac:(lia) false pardirs type id (fresh_server t s psz) (length its + S (S n)) false t1 ids1 c)
    as (s1 & -> & E1 & E2 & E3 & E4 & E5 & E6 & E7 & E8); try done.
  { cbn. unfold PSI_SIZE in *. lia. }
  { intros j Hj. cbn. rewrite Hrd. by apply Hw1. }
  assert (Hin1 : avail (sv_in s1) = wire_size its + PSI_SIZE /\ s_data (sv_in s1) = s_data s /\ s_rd (sv_in s1) = PSI_SIZE).
  { rewrite E6. unfold avail, skip in *. cbn in *. split_and!; [lia|done|lia]. }
  destruct Hin1 as (Hav1 & Hda1 & Hrd1).
  destruct (serve_items offset d mem ltac:(lia) false pardirs its (S (S n)) false s1)
    as (s2 & fl & -> & (G1 & G2 & _ & _ & G4 & _) & F1 & F2 & F3 & F4 & F5); try done.
  { apply pp_items_flags. }
  { by apply (pp_items_sorted offset). }
  { unfold serving. rewrite E3, E4, E5. cbn. split_and!; try done.
    by apply holes_parent_ok. }
  { unfold PSI_SIZE in *. lia. }
  { rewrite Hda1, Hrd1. done. }
  rewrite (serve_flush _ _ s2 n fl psk).
  2: { rewrite F1. unfold avail, skip in *. cbn. lia. }
  2: { intros j Hj. rewrite F1. unfold skip. cbn [s_data s_rd]. rewrite Hda1, Hrd1. by apply Hw3. }
  rewrite E5 in F2, F3. cbn [pmi parent app] in F2, F3.
  destruct (close_page_read_ok (S (sv_t s2)) (parent (cx_loc s2))) as (t' & c' & Hcl).
  { clear - F3 Has. induction F3 as [|p p' c c' (_ & _ & Ha) _ IH]; [done|].
    apply Forall_cons_1 in Has as [? Has]. constructor; [congruence|by apply IH]. }
  cbn [negb andb Z.eqb]. rewrite F1.
  assert (H0 : (0 <? avail (skip (skip (sv_in s1) (wire_size its)) PSI_SIZE)) = false).
  { apply Z.ltb_ge. unfold avail, skip in *. cbn in *. lia. }
  cbn [sv_in reply set_io]. rewrite H0, andb_false_r. unfold bind, page_server_close. unfold reply, set_io. cbn [cx_dst_id cx_open cx_loc sv_t].
  rewrite G1, (proj2 (Z.eqb_neq d NO_DST)) by (unfold NO_DST; lia). rewrite G2. cbn [negb].
  unfold close_page_xfer. cbn [cx_loc sv_t parent]. rewrite Hcl.
  eexists _, _. split; [done|]. cbn. rewrite F4, E7, F5, E8. split_and!; try done.
Qed.

End Session.

(** ** Two images of the same memory are the same *)
Lemma pages_off_split E i :
  Forall pe_ok E -> 0 <= i < pages_off E ->
  exists k e a, E !! k = Some e /\ pagemap_present e = true /\ covers e a /\
                i = pages_off (take k E) + (a - vaddr e).
Proof.
  intros Hf. revert i. induction Hf as [|e E He Hf IH]; intros i Hi; simpl in Hi; [lia|].
  fold (pages_off E) in Hi.
  destruct (Z.lt_ge_cases i (present_bytes e)) as [Hlt|Hge].
  - exists 0%nat, e, (vaddr e + i). unfold present_bytes in Hlt. destruct (pagemap_present e) eqn:Hp; [|lia].
    split_and!; try done; unfold covers, pe_end; simpl; lia.
  - destruct (IH (i - present_bytes e)) as (k & d & a & Hk & Hp & Hc & Heq).
    { lia. }
    exists (S k), d, a. split_and!; try done. simpl. fold (pages_off (take k E)). lia.
Qed.

Lemma img_ok_same offset mem E img img' :
  img_ok offset mem E img -> img_ok offset mem E img' ->
  s_wr img = s_wr img' /\ forall i, 0 <= i < s_wr img -> s_data img i = s_data img' i.
Proof.
  intros [Hf Hw Hd] [_ Hw' Hd']. split; [congruence|]. rewrite Hw. intros i Hi.
  destruct (pages_off_split E i Hf Hi) as (k & e & a & Hk & Hp & Hc & ->).
  by rewrite (Hd k e a), (Hd' k e a).
Qed.


(** ** A concrete transfer: two buffers that share a pipe, and a hole in the parent *)
Definition demo_xfer_kernel : XferKernel := {|
  k_splice := fun t n => if Nat.even t then n else Z.min n 5000;
  k_send := fun _ n => n;
  k_pb_write := fun _ => true;
  k_open_image := fun _ => true;
|}.

#[export] Instance demo_xfer_kernel_ok : XferKernelOk demo_xfer_kernel.
Proof. constructor; intros; simpl. destruct (Nat.even t); lia. Qed.
#[export] Instance demo_xfer_kernel_live : XferKernelLive demo_xfer_kernel.
Proof. constructor; intros; simpl; try done. destruct (Nat.even t); lia. Qed.

Definition demo_xfer_pp : page_pipe :=
  match @page_pipe_add_hole (demo_kernel 1024) (12 * PAGE_SIZE) PP_HOLE_PARENT (9%nat, demo_read_pp) with
  | Done (_, (_, pp)) => pp
  | _ => demo_read_pp
  end.

Lemma demo_xfer_pp_wf : wf demo_xfer_pp /\ wf_holes demo_xfer_pp.
Proof.
  destruct (@add_hole_ok (demo_kernel 1024) 9 demo_read_pp (12 * PAGE_SIZE) PP_HOLE_PARENT)
    as (r & t' & pp' & H & W & Wh & _).
  - apply demo_read_pp_wf.
  - assert (E1 : free_hole demo_read_pp = 0) by (vm_compute; reflexivity).
    assert (E2 : nr_holes demo_read_pp = 0) by (vm_compute; reflexivity).
    constructor; rewrite E1, ?E2; [lia|constructor].
  - vm_compute. reflexivity.
  - unfold addr_ok. split_and!; [vm_compute; congruence|vm_compute; reflexivity|reflexivity].
  - unfold demo_xfer_pp. rewrite H. exact (conj W Wh).
Qed.

Lemma demo_xferable : xferable 0 demo_xfer_pp.
Proof.
  assert (E1 : fst <$> pp_pages demo_xfer_pp = [8192; 12288; 16384; 65536; 69632]) by (vm_compute; reflexivity).
  assert (E2 : fst <$> pp_hole_pages demo_xfer_pp = [49152]) by (vm_compute; reflexivity).
  destruct demo_xfer_pp_wf as [W Wh].
  refine (Build_xferable _ _ W Wh _ _ _ _ _ _ _); rewrite ?E1, ?E2.
  - split; [lia|reflexivity].
  - repeat constructor.
  - repeat constructor.
  - intros a Ha Hb%list_elem_of_singleton. clear -Ha Hb. subst a.
    repeat (apply elem_of_cons in Ha as [Ha|Ha]; [lia|]). by apply elem_of_nil in Ha.
  - intros a Ha. assert (Hb : a ∈ [8192; 12288; 16384; 65536; 69632; 49152]) by exact Ha. clear -Hb.
    repeat (apply elem_of_cons in Hb as [->|Hb]; [lia|]). by apply elem_of_nil in Hb.
  - replace (pp_holes demo_xfer_pp) with [(mk_iovec 49152 4096, 1)] by (vm_compute; reflexivity). by repeat constructor.
  - replace (pp_holes demo_xfer_pp) with [(mk_iovec 49152 4096, 1)] by (vm_compute; reflexivity). by repeat constructor.
Qed.

Definition demo_mem (a : Z) : Z := a mod 251.
Definition demo_pipes : gmap Z stream :=
  {[ 106 := mk_stream (gather demo_mem [mk_iovec 8192 12288; mk_iovec 65536 8192]) 0 20480 ]}.

Lemma demo_pipes_hold : pipes_hold demo_mem demo_pipes (ISeg <$> pp_segs true demo_xfer_pp).
Proof.
  replace (pp_segs true demo_xfer_pp) with
    [mk_seg (mk_iovec 8192 12288) 4 106; mk_seg (mk_iovec 65536 8192) 6 106] by (vm_compute; reflexivity).
  intros fd Hne. destruct (decide (fd = 106)) as [->|Hn].
  - exists (mk_stream (gather demo_mem [mk_iovec 8192 12288; mk_iovec 65536 8192]) 0 20480).
    split; [apply lookup_singleton_eq|]. split; [vm_compute; congruence|]. done.
  - exfalso. apply Hne. unfold fd_iovs. rewrite !fmap_cons, !bind_cons. cbn [sg_fd sg_flags].
    by rewrite (proj2 (Z.eqb_neq 106 fd)), !andb_false_r by congruence.
Qed.

Lemma demo_holes_in_parent : holes_in_parent 0 demo_xfer_pp [demo_parent].
Proof.
  destruct (demo_parent_ok 0 ltac:(lia)) as (Hok & Hpos & _ & _). split_and!; try done.
  intros a fl Ha. assert (Hx : (a, fl) ∈ [(49152, 1)]) by exact Ha. apply list_elem_of_singleton in Hx as [= -> ->].
  intros b Hb. exists (page 11 6 PE_PRESENT). split; [apply elem_of_cons; right; apply elem_of_cons; by left|].
  unfold covers, pe_end, page, PAGE_SIZE in *. simpl. lia.
Qed.

(** the parent as the server opens it *)
Definition demo_pardirs (_ : fd_type) (_ : Z) : option (list imgdir) :=
  Some [Images 64 (pmes demo_parent) (pi demo_parent)].
Definition demo_server_parent : page_read :=
  mk_pr None 0 0 (mk_iovec 0 0) (init_compat_pagemap_entry <$> pmes demo_parent) (-1) [] (pi demo_parent) 0 42.

Lemma demo_server_holes : holes_in_parent 0 demo_xfer_pp [demo_server_parent].
Proof. exact demo_holes_in_parent. Qed.


(** ** The properties *)

(** C21: transferring a page pipe makes, with any engine, exactly one pagemap request per iovec and
    per hole, each present iovec followed by its pages, in increasing address order, even though
    pages and holes are kept in separate arrays. *)
Theorem page_xfer_dump_pages_order {St} {X : XferOps St} offset lazy pp :
  xferable offset pp ->
  (forall s, page_xfer_dump_pages offset lazy pp s = exec (pp_items lazy pp ≫= item_events offset) s) /\
  StronglySorted below (item_iov <$> pp_items lazy pp) /\
  pp_items lazy pp ≡ₚ (ISeg <$> pp_segs lazy pp) ++ (IHole <$> (fst <$> pp_holes pp)).
Proof.
  intros HX. split; [intros s; by apply dump_pages_items|]. by apply (pp_items_sorted offset).
Qed.

Lemma page_xfer_dump_pages_order_witness :
  (forall s, @page_xfer_dump_pages _ (@LocalXfer demo_xfer_kernel demo_read_kernel false) 0 true demo_xfer_pp s =
             @exec _ (@LocalXfer demo_xfer_kernel demo_read_kernel false)
                   (pp_items true demo_xfer_pp ≫= item_events 0) s) /\
  StronglySorted below (item_iov <$> pp_items true demo_xfer_pp) /\
  pp_items true demo_xfer_pp ≡ₚ
    (ISeg <$> pp_segs true demo_xfer_pp) ++ (IHole <$> (fst <$> pp_holes demo_xfer_pp)).
Proof. apply page_xfer_dump_pages_order. exact demo_xferable. Defined.

(** C20: dumping a page pipe into local images and reading them back gives the memory: the dump
    succeeds whatever pieces splice moves, the pagemap is sorted and well formed, every page that
    was transferred reads as the memory it was taken from, and every hole as the parent. *)
Theorem page_xfer_dump_pages_spec {XK : XferKernel} {RK : ReadKernel} `{!XferKernelOk XK}
    `{!XferKernelLive XK} offset lazy mem pp t ps c :
  xferable offset pp -> pipes_hold mem ps (ISeg <$> pp_segs lazy pp) -> holes_in_parent offset pp c ->
  exists t' ps' x',
    page_xfer_dump_pages (X := LocalXfer false) offset lazy pp (t, ps, mk_loc [] empty_stream c) =
      Done (0, (t', ps', x')) /\
    pm_ok (image_reader x') /\ Forall2 same_img c (parent x') /\
    (forall a fl b, (a, fl) ∈ pp_pages pp -> a <= b < a + PAGE_SIZE -> transferred lazy fl = true ->
       ref_byte (image_reader x' :: c) (b - offset) = Some (mem b)) /\
    (forall a fl b, (a, fl) ∈ pp_hole_pages pp -> a <= b < a + PAGE_SIZE ->
       ref_byte (image_reader x' :: c) (b - offset) = ref_byte c (b - offset)).
Proof.
  intros HX Hp Hc. destruct (dump_pages_ok offset lazy mem pp HX t ps c Hp Hc) as (t' & ps' & x' & Hrun & Hm & Hi & Hpar).
  destruct (dump_image_ok offset lazy mem pp HX x' c Hm Hi) as (H1 & H2 & H3).
  by exists t', ps', x'.
Qed.

Lemma page_xfer_dump_pages_witness :
  exists t' ps' x',
    @page_xfer_dump_pages _ (@LocalXfer demo_xfer_kernel demo_read_kernel false) 0 true demo_xfer_pp
       (0%nat, demo_pipes, mk_loc [] empty_stream [demo_parent]) = Done (0, (t', ps', x')) /\
    pm_ok (image_reader x') /\ Forall2 same_img [demo_parent] (parent x') /\
    (forall a fl b, (a, fl) ∈ pp_pages demo_xfer_pp -> a <= b < a + PAGE_SIZE -> transferred true fl = true ->
       ref_byte [image_reader x'; demo_parent] (b - 0) = Some (demo_mem b)) /\
    (forall a fl b, (a, fl) ∈ pp_hole_pages demo_xfer_pp -> a <= b < a + PAGE_SIZE ->
       ref_byte [image_reader x'; demo_parent] (b - 0) = ref_byte [demo_parent] (b - 0)).
Proof.
  apply (@page_xfer_dump_pages_spec demo_xfer_kernel demo_read_kernel _ _ 0 true demo_mem demo_xfer_pp
           0%nat demo_pipes [demo_parent]).
  - exact demo_xferable.
  - exact demo_pipes_hold.
  - exact demo_holes_in_parent.
Defined.

(** C19: a dump through the page server leaves on the server the same images, byte for byte, as a
    local dump: the client's requests (open, entries and pages, flush) are decoded by the server's
    loop, which answers both times, ends the session without error and closes the images. *)
Theorem page_server_session_spec {XK : XferKernel} {RK : ReadKernel} `{!XferKernelOk XK}
    `{!XferKernelLive XK} offset lazy mem pp psk type id t ps f ts psz pardirs t1 ids1 c :
  xferable offset pp -> pipes_hold mem ps (ISeg <$> pp_segs lazy pp) -> holes_in_parent offset pp c ->
  Forall (fun p => async p = []) c ->
  type = CR_FD_PAGEMAP \/ type = CR_FD_SHMEM_PAGEMAP -> 0 <= id < 2 ^ 56 -> 0 < psz ->
  open_page_local_xfer false (pardirs type id) type id (ts, 0) =
    Done (Some (mk_loc [] empty_stream c), (t1, ids1)) ->
  exists b t' ps' s' d sv x tl psl xl,
    client_session psk type id offset lazy pp (Some b) (Some 0) (t, ps, mk_srv (mk_stream f 0 0) 0) =
      Done (0, (t', ps', mk_srv s' d)) /\
    page_server_serve false false pardirs false psk (fresh_server ts s' psz) = Done (0, sv) /\
    sv_out sv = [HasParent (negb (b =? 0)); Status 0] /\ sv_disk sv = [(d, x)] /\
    decode_pm d = Some (type, id) /\
    page_xfer_dump_pages (X := LocalXfer false) offset lazy pp (t, ps, mk_loc [] empty_stream c) =
      Done (0, (tl, psl, xl)) /\
    pmi x = pmi xl /\ s_wr (lpi x) = s_wr (lpi xl) /\
    forall i, 0 <= i < s_wr (lpi x) -> s_data (lpi x) i = s_data (lpi xl) i.
Proof.
  intros HX Hp Hc Has Htype Hid Hpsz Hopen.
  destruct (pm_roundtrip type id Htype Hid) as (d & Hd & _ & Hdec).
  set (b := if bool_decide (c = []) then 0 else 1).
  destruct (client_session_ok offset lazy mem pp HX psk type id t ps f b d Hp Hd)
    as (t' & ps' & s' & Hcl & W1 & W2 & W3 & W4 & W5).
  destruct (server_session_ok offset lazy mem pp HX psk type id Htype Hid ts s' psz pardirs t1 ids1 c d)
    as (sv & x & Hsv & Ho & Hdk & Hm & Hi); try done.
  destruct (dump_pages_ok offset lazy mem pp HX t ps c Hp Hc) as (tl & psl & xl & Hrun & Hml & Hil & _).
  exists b, t', ps', s', d, sv, x, tl, psl, xl. split; [done|]. split; [done|].
  split; [rewrite Ho; unfold b; by case_bool_decide|]. do 3 (split; [done|]). split; [congruence|].
  rewrite Hm in Hi. rewrite Hml in Hil. by apply (img_ok_same offset mem (item_entry offset <$> pp_items lazy pp)).
Qed.

Lemma page_server_session_witness :
  exists b t' ps' s' d sv x tl psl xl,
    @client_session demo_xfer_kernel (-1) CR_FD_PAGEMAP 42 0 true demo_xfer_pp (Some b) (Some 0)
      (3%nat, demo_pipes, mk_srv (mk_stream (fun _ => 0) 0 0) 0) = Done (0, (t', ps', mk_srv s' d)) /\
    @page_server_serve demo_xfer_kernel demo_read_kernel false false demo_pardirs false (-1)
      (fresh_server 0 s' 65536) = Done (0, sv) /\
    sv_out sv = [HasParent (negb (b =? 0)); Status 0] /\ sv_disk sv = [(d, x)] /\
    decode_pm d = Some (CR_FD_PAGEMAP, 42) /\
    @page_xfer_dump_pages _ (@LocalXfer demo_xfer_kernel demo_read_kernel false) 0 true demo_xfer_pp
      (3%nat, demo_pipes, mk_loc [] empty_stream [demo_server_parent]) = Done (0, (tl, psl, xl)) /\
    pmi x = pmi xl /\ s_wr (lpi x) = s_wr (lpi xl) /\
    forall i, 0 <= i < s_wr (lpi x) -> s_data (lpi x) i = s_data (lpi xl) i.
Proof.
  apply (@page_server_session_spec demo_xfer_kernel demo_read_kernel _ _ 0 true demo_mem demo_xfer_pp
           (-1) CR_FD_PAGEMAP 42 3%nat demo_pipes (fun _ => 0) 0%nat 65536 demo_pardirs 4%nat 1
           [demo_server_parent]).
  - exact demo_xferable.
  - exact demo_pipes_hold.
  - exact demo_server_holes.
  - by repeat constructor.
  - by left.
  - lia.
  - lia.
  - reflexivity.
Defined.

(** a hole is accepted exactly when the parent's pagemap covers all of it, over as many of its
    entries as it takes, and the check leaves the parent's reader at most at the end of the hole. *)
Theorem check_pagehole_in_parent_spec p v :
  pm_ok p -> pos_ok p -> cvaddr p <= iov_base v -> 0 <= iov_base v -> 0 < iov_len v ->
  iov_base v + iov_len v < 2 ^ 63 ->
  exists r p', check_pagehole_in_parent p v = Done (r, p') /\ same_img p p' /\ pos_ok p' /\
    (r = 0 /\ in_pagemap (pmes p) (iov_base v) (iov_base v + iov_len v) /\
       cvaddr p' <= iov_base v + iov_len v \/
     r = -1 /\ ~ in_pagemap (pmes p) (iov_base v) (iov_base v + iov_len v)).
Proof. intros. by apply check_pagehole_ok. Qed.

Lemma check_pagehole_in_parent_witness :
  exists r p', check_pagehole_in_parent demo_parent (mk_iovec (15 * PAGE_SIZE) (3 * PAGE_SIZE)) = Done (r, p') /\
    same_img demo_parent p' /\ pos_ok p' /\
    (r = 0 /\ in_pagemap (pmes demo_parent) (15 * PAGE_SIZE) (15 * PAGE_SIZE + 3 * PAGE_SIZE) /\
       cvaddr p' <= 15 * PAGE_SIZE + 3 * PAGE_SIZE \/
     r = -1 /\ ~ in_pagemap (pmes demo_parent) (15 * PAGE_SIZE) (15 * PAGE_SIZE + 3 * PAGE_SIZE)).
Proof.
  destruct (demo_parent_ok 0 ltac:(lia)) as (Hok & Hpos & _ & _).
  apply (check_pagehole_in_parent_spec demo_parent (mk_iovec (15 * PAGE_SIZE) (3 * PAGE_SIZE)));
    [exact Hok|exact Hpos|..]; vm_compute; congruence.
Defined.

(** C30: what the client encodes the server decodes: the image type and id, the command and its
    flags, and the whole request from the 24 bytes it is sent as. *)
Theorem protocol_roundtrip type id cmd fl p :
  type = CR_FD_PAGEMAP \/ type = CR_FD_SHMEM_PAGEMAP -> 0 <= id < 2 ^ 56 ->
  0 <= cmd < 2 ^ 16 -> 0 <= fl < 2 ^ 16 -> psi_ok p ->
  (exists d, encode_pm type id = Some d /\ decode_pm d = Some (type, id)) /\
  decode_ps_cmd (encode_ps_cmd cmd fl) = cmd /\ decode_ps_flags (encode_ps_cmd cmd fl) = fl /\
  psi_of_bytes (psi_bytes p) 0 = p.
Proof.
  intros Ht Hid Hc Hf Hp. destruct (pm_roundtrip type id Ht Hid) as (d & H1 & _ & H2).
  destruct (ps_cmd_roundtrip cmd fl Hc Hf) as (H3 & H4 & _). split_and!; eauto.
  by apply psi_roundtrip.
Qed.

Lemma protocol_roundtrip_witness :
  (exists d, encode_pm CR_FD_SHMEM_PAGEMAP 77 = Some d /\ decode_pm d = Some (CR_FD_SHMEM_PAGEMAP, 77)) /\
  decode_ps_cmd (encode_ps_cmd PS_IOV_ADD_F PE_PRESENT) = PS_IOV_ADD_F /\
  decode_ps_flags (encode_ps_cmd PS_IOV_ADD_F PE_PRESENT) = PE_PRESENT /\
  psi_of_bytes (psi_bytes (mk_psi 262150 3 140737488289792 19714)) 0 = mk_psi 262150 3 140737488289792 19714.
Proof.
  apply (protocol_roundtrip CR_FD_SHMEM_PAGEMAP 77 PS_IOV_ADD_F PE_PRESENT (mk_psi 262150 3 140737488289792 19714)).
  - by right.
  - lia.
  - unfold PS_IOV_ADD_F. lia.
  - unfold PE_PRESENT. lia.
  - unfold psi_ok. simpl. lia.
Defined.

(** C18: what the page reader gets back at restore is what the dumper put in: after a local dump, a
    reader that opens the images, seeks a transferred page and reads it stores the bytes of the
    dumped memory in its buffer, and touches nothing else. *)
Theorem dump_restore_roundtrip {XK : XferKernel} {RK : ReadKernel} `{!XferKernelOk XK}
    `{!XferKernelLive XK} `{!ReadKernelOk RK} `{!ReadKernelLive RK}
    offset lazy mem pp t ps c a fl buf tr memr iofuel :
  xferable offset pp -> pipes_hold mem ps (ISeg <$> pp_segs lazy pp) -> holes_in_parent offset pp c ->
  Forall (level_ok (a - offset)) c ->
  (a, fl) ∈ pp_pages pp -> transferred lazy fl = true -> (Z.to_nat PAGE_SIZE <= iofuel)%nat ->
  exists t' ps' x' pr t2 memr' c2,
    page_xfer_dump_pages (X := LocalXfer false) offset lazy pp (t, ps, mk_loc [] empty_stream c) =
      Done (0, (t', ps', x')) /\
    seek_pagemap (image_reader x') (a - offset) = Done (true, pr) /\
    read_pagemap_page false false None (S (length c)) iofuel 0 (a - offset) 1 buf (tr, memr, pr :: c) =
      Done (1, (t2, memr', c2)) /\
    (forall i, 0 <= i < PAGE_SIZE -> memr' (buf + i) = mem (a + i)) /\
    (forall b, ~ (buf <= b < buf + PAGE_SIZE) -> memr' b = memr b).
Proof.
  intros HX Hp Hc Hlv Ha Ht Hio.
  destruct (dump_pages_ok offset lazy mem pp HX t ps c Hp Hc) as (t' & ps' & x' & Hrun & Hm & Hi & Hpar).
  destruct (dump_image_ok offset lazy mem pp HX x' c Hm Hi) as (Hok & Href & _).
  assert (Hpage : a ∈ (fst <$> pp_pages pp) ++ (fst <$> pp_hole_pages pp)).
  { apply elem_of_app. left. apply list_elem_of_fmap. by exists (a, fl). }
  destruct (xf_range _ _ HX a Hpage) as (Hr1 & Hr2 & Hr3).
  destruct (page_item offset lazy pp HX a fl Ha) as (s & Hsi & Hsa & Hsok & _).
  destruct (page_found offset lazy mem pp HX x' s a Hm Hi Hsi Hsok Hsa) as (pr & k & e & Hseek & Hsame & Hat & Hcv & Hend & Hal).
  destruct (read_pagemap_page_ok false 0 (S (length c)) iofuel ltac:(vm_compute; congruence) tr memr pr c
              (a - offset) 1 buf k e) as (t2 & memr' & c2 & Hrd & _ & _ & Hm1 & Hm2); try done; try lia.
  - apply Forall_cons_2; [|done]. destruct Hsame as (S1 & S2 & S3). unfold level_ok. split_and!.
    + unfold pm_ok in *. by rewrite S1.
    + by eapply at_entry_pos.
    + by rewrite S3.
    + lia.
  - intros b Hb. assert (Hsc : Forall2 same_img (image_reader x' :: c) (pr :: c)) by (constructor; [done|apply same_chain_refl]).
    rewrite (ref_byte_same _ _ _ Hsc). replace b with (b + offset - offset) by lia.
    rewrite (Href a fl); [eauto|done|plia|done].
  - exists t', ps', x', pr, t2, memr', c2. rewrite Z.mul_1_l in Hm1, Hm2. split_and!; try done.
    intros i Hi'. specialize (Hm1 (a - offset + i) ltac:(lia)).
    assert (Hsc : Forall2 same_img (image_reader x' :: c) (pr :: c)) by (constructor; [done|apply same_chain_refl]).
    rewrite (ref_byte_same _ _ _ Hsc) in Hm1. replace (a - offset + i) with (a + i - offset) in Hm1 by lia.
    rewrite (Href a fl) in Hm1; [|done|lia|done]. injection Hm1 as ->. f_equal. lia.
Qed.

Lemma dump_restore_roundtrip_witness :
  exists t' ps' x' pr t2 memr' c2,
    @page_xfer_dump_pages _ (@LocalXfer demo_xfer_kernel demo_read_kernel false) 0 true demo_xfer_pp
       (0%nat, demo_pipes, mk_loc [] empty_stream [demo_parent]) = Done (0, (t', ps', x')) /\
    seek_pagemap (image_reader x') (69632 - 0) = Done (true, pr) /\
    @read_pagemap_page demo_read_kernel false false None 2 (Z.to_nat 4096) 0 (69632 - 0) 1 500000
       (1%nat, fun _ => 7, [pr; demo_parent]) = Done (1, (t2, memr', c2)) /\
    (forall i, 0 <= i < PAGE_SIZE -> memr' (500000 + i) = demo_mem (69632 + i)) /\
    (forall b, ~ (500000 <= b < 500000 + PAGE_SIZE) -> memr' b = 7).
Proof.
  apply (@dump_restore_roundtrip demo_xfer_kernel demo_read_kernel _ _ _ _ 0 true demo_mem demo_xfer_pp
           0%nat demo_pipes [demo_parent] 69632 PPB_LAZY 500000 1%nat (fun _ => 7) (Z.to_nat 4096)).
  - exact demo_xferable.
  - exact demo_pipes_hold.
  - exact demo_holes_in_parent.
  - apply Forall_cons_2; [apply demo_parent_ok; lia|apply Forall_nil_2].
  - replace (pp_pages demo_xfer_pp) with [(8192, 0); (12288, 0); (16384, 0); (65536, 1); (69632, 1)]
      by (vm_compute; reflexivity). do 4 (apply elem_of_cons; right). apply elem_of_cons. by left.
  - reflexivity.
  - apply Nat.leb_le. vm_compute. reflexivity.
Defined.

(** the requests of a client, one after the other on an empty socket *)
Definition requests (l : list page_server_iov) : stream :=
  foldl (fun s p => push s (psi_bytes p) 0 PSI_SIZE) empty_stream l.

(** images can be opened [n] times *)
Definition failing_open_kernel (n : nat) : XferKernel := {|
  k_splice := fun _ n => n; k_send := fun _ n => n; k_pb_write := fun _ => true;
  k_open_image := fun t => Nat.ltb t n;
|}.

(** a page server whose client opens a second image that cannot be opened closes the first
    one's images twice: [page_server_open] closes them without forgetting [cxfer.dst_id], and the
    end of the session closes them again. *)
Theorem page_server_closes_twice :
  exists d1 d2,
    encode_pm CR_FD_PAGEMAP 10 = Some d1 /\ encode_pm CR_FD_PAGEMAP 11 = Some d2 /\
    @page_server_serve (failing_open_kernel 2) demo_read_kernel false false (fun _ _ => None) false (-1)
      (fresh_server 0 (requests [mk_psi PS_IOV_OPEN 0 0 d1; mk_psi PS_IOV_OPEN 0 0 d2]) 65536) = Bug.
Proof. eexists _, _. split; [reflexivity|]. split; [reflexivity|]. vm_compute. reflexivity. Qed.


End PageXfer.
