(* ===== verification/Predump.v ===== *)
(** * Pre-dump in read mode (criu/page-xfer.c, from [handle_faulty_iov] to
    [page_xfer_predump_pages])

    The task runs on while its memory is read with process_vm_readv, so that pages
    that were recorded in the page pipe may have gone: the iovecs that could really
    be read are collected in [aux_iov], which then drives the pagemap. *)
From S2P Require Import Prelude.
From S2P Require Import PagePipe.
From S2P Require Import Pagemap.
From S2P Require Import PageXfer.
Import PagePipe.PagePipe Pagemap.Pagemap PageXfer.PageXfer.

Module Predump.
Open Scope cmon_scope.

Definition ESRCH : Z := 3.
Definition BUFFER_SIZE : Z := Z.shiftl PIPE_MAX_SIZE PAGE_SHIFT.

(** process_vm_readv: an error (and whether it is ESRCH), or the number of bytes read *)
Inductive vmres := VmErr (esrch : bool) | VmRead (n : Z).

(** [k_vmread t len l]: reading the remote iovecs [l] into a buffer of [len] bytes *)
Class VmKernel := {
  k_vmread : clock -> Z -> list iovec -> vmres;
  k_vmsplice : clock -> Z -> Z;
}.

(** "the number of bytes read", which stops at the first page that is not there *)
Class VmKernelOk (K : VmKernel) : Prop := {
  vmread_ok : forall t len l n, k_vmread t len l = VmRead n ->
                0 < n /\ n <= len /\ n <= bytes_of l /\ aligned n;
}.

(** the user buffer: [u_left] is bufvec->iov_len, [u_cnt] the change of CNT_PAGES_WRITTEN *)
Record ust := mk_ust {
  u_t : clock;
  u_buf : stream;
  u_left : Z;
  u_aux : list iovec;
  u_cnt : Z;
}.

Section Ops.
Context {K : VmKernel}.
Variable mem : Z -> Z.                  (* the memory of the task *)

Definition set_aux (s : ust) (a : list iovec) : ust := mk_ust (u_t s) (u_buf s) (u_left s) a (u_cnt s).
Definition tick (s : ust) : ust := mk_ust (S (u_t s)) (u_buf s) (u_left s) (u_aux s) (u_cnt s).
Definition cnt_sub (s : ust) : ust := mk_ust (u_t s) (u_buf s) (u_left s) (u_aux s) (u_cnt s - 1).
(** [n] bytes read from [l] are stored and the buffer advanced *)
Definition take_bytes (s : ust) (l : list iovec) (n : Z) : ust :=
  mk_ust (u_t s) (push (u_buf s) (gather mem l) 0 n) (u_left s - n) (u_aux s) (u_cnt s).

(** [aux_iov[*aux_len]] with the array of [page_xfer_predump_pages]: PIPE_MAX_SIZE entries *)
Definition push_aux (v : iovec) : M ust unit :=
  fun s => if Z.of_nat (length (u_aux s)) <? PIPE_MAX_SIZE
           then Done (tt, set_aux s (u_aux s ++ [v])) else Bug.

(** The last entry of [aux_iov], read and extended by [n] when it ends at [base]; without entries
    the index is -1 *)
Definition merge_aux (base n : Z) : M ust unit :=
  fun s =>
    match list.last (u_aux s) with
    | None => Bug
    | Some v =>
      if iov_base v + iov_len v =? base
      then Done (tt, set_aux s (removelast (u_aux s) ++ [mk_iovec (iov_base v) (iov_len v + n)]))
      else push_aux (mk_iovec base n) s
    end.

Fixpoint faulty_loop (fuel : nat) (dummy : iovec) (final : Z) : M ust Z :=
  fun s =>
    match fuel with
    | O => NoFuel
    | S fuel =>
      if iov_len dummy =? 0 then Done (final, s)
      else
        match k_vmread (u_t s) (u_left s) [dummy] with
        | VmErr _ =>
          faulty_loop fuel (mk_iovec (iov_base dummy + PAGE_SIZE) (u64 (iov_len dummy - PAGE_SIZE)))
                      final (cnt_sub (tick s))
        | VmRead n =>
          (merge_aux (iov_base dummy) n ;;;
           fun s => faulty_loop fuel (mk_iovec (iov_base dummy + n) (u64 (iov_len dummy - n))) (final + n)
                                (take_bytes s [dummy] n)) (tick s)
        end
    end.

(** every turn of the loop drops at least a page of [v] *)
Definition handle_faulty_iov (v : iovec) (partial : Z) : M ust Z :=
  fun s =>
    if iov_len v =? PAGE_SIZE then Done (0, cnt_sub s)
    else
      let offset := if partial =? 0 then PAGE_SIZE else partial in
      let dummy := mk_iovec (iov_base v + offset) (u64 (iov_len v - offset)) in
      faulty_loop (S (Z.to_nat (iov_len v))) dummy 0 (if partial =? 0 then cnt_sub s else s).

(** the loop of [analyze_iov]; [l]: the iovecs from [*index] on *)
Fixpoint analyze_loop (l : list iovec) (index : nat) (processed bytes_read : Z) : M ust (Z * nat) :=
  if bytes_read <=? processed then
    let over := processed - bytes_read in
    if over =? 0 then ret (0, index)
    else ret (over, (index - 1)%nat)
  else
    match l with
    | [] => bug
    | v :: l => push_aux v ;;; analyze_loop l (S index) (processed + iov_len v) bytes_read
    end.

(** partial_read_bytes and the new [*index] *)
Definition analyze_iov (bytes_read : Z) (riov : list iovec) (index : nat) : M ust (Z * nat) :=
  r <~ analyze_loop (drop index riov) index 0 bytes_read ;;
  let '(over, index) := r in
  if over =? 0 then ret (0, index)
  else
    match riov !! index with
    | None => bug
    | Some v =>
      fun s =>
        match list.last (u_aux s) with
        | None => Bug
        | Some w =>
          Done ((iov_len v - over, index),
                set_aux s (removelast (u_aux s) ++ [mk_iovec (iov_base w) (iov_len v - over)]))
        end
    end.

Fixpoint fill_loop (fuel : nat) (riov : list iovec) (start : nat) (total : Z) : M ust Z :=
  fun s =>
    match fuel with
    | O => NoFuel
    | S fuel =>
      match riov !! start with
      | None => Done (total, s)
      | Some v =>
        let next (partial : Z) (start : nat) (total : Z) : M ust Z :=
          match riov !! start with
          | None => fill_loop fuel riov (S start) total
          | Some w => n <~ handle_faulty_iov w partial ;; fill_loop fuel riov (S start) (total + n)
          end in
        match k_vmread (u_t s) (u_left s) (drop start riov) with
        | VmErr esrch =>
          if iov_len v =? PAGE_SIZE then fill_loop fuel riov (S start) total (cnt_sub (tick s))
          else if esrch then Done (ESRCH, tick s)
          else next 0 start total (tick s)
        | VmRead n =>
          (a <~ analyze_iov n riov start ;;
           let '(partial, start') := a in
           fun s => next partial start' (total + n) (take_bytes s (drop start riov) n)) (tick s)
        end
      end
    end.

(** every turn of the loop passes an iovec *)
Definition fill_userbuf (riov : list iovec) : M ust Z := fill_loop (S (length riov)) riov 0 0.

End Ops.
(** the pipe of a buffer is filled with vmsplice *)
Class VmSplice (St : Type) := { vmsplice : Z -> (Z -> Z) -> Z -> M St Z }.

#[export] Instance pipes_vmsplice {K : VmKernel} (B : Type) : VmSplice (clock * gmap Z stream * B) := {
  vmsplice := fun fd f n '(t, ps, x) =>
    match ps !! fd with
    | None => Done (-1, (t, ps, x))
    | Some p =>
      let r := k_vmsplice t n in
      Done (r, (S t, if 0 <? r then <[fd := push p f 0 r]> ps else ps, x))
    end;
}.

Section PredumpPages.
Context {K : VmKernel} {St : Type} {X : XferOps St} {V : VmSplice St}.
Variables (offset : Z) (transfer_lazy : bool) (mem : Z -> Z).

(** the loop that generates the pagemap of one buffer *)
Fixpoint predump_aux (pp : page_pipe) (ppb : page_pipe_buf) (l : list iovec) (cur_hole : nat)
  : M St (Z * nat) :=
  match l with
  | [] => ret (0, cur_hole)
  | iov :: l =>
    h <~ dump_holes offset (drop cur_hole (pp_holes pp)) cur_hole (iov_base iov) ;;
    let '(r, cur_hole) := h in
    if negb (r =? 0) then ret (r, cur_hole)
    else
      bug_on (iov_base iov <? offset) ;;;
      r <~ write_pagemap (mk_iovec (iov_base iov - offset) (iov_len iov))
                         (ppb_xfer_flags transfer_lazy ppb) ;;
      if negb (r =? 0) then ret (-1, cur_hole)
      else
        r <~ write_pages (p0 ppb) (iov_len iov) ;;
        if negb (r =? 0) then ret (-1, cur_hole) else predump_aux pp ppb l cur_hole
  end.

Fixpoint predump_bufs (pp : page_pipe) (l : list nat) (cur_hole : nat) : M (clock * St) (Z * nat) :=
  fun '(t, s) =>
    match l with
    | [] => Done ((0, cur_hole), (t, s))
    | id :: l =>
      match pp_heap pp !! id with
      | None => Bug
      | Some ppb =>
        match fill_userbuf mem (segs pp ppb) (mk_ust t empty_stream BUFFER_SIZE [] 0) with
        | Bug => Bug
        | NoFuel => NoFuel
        | Done (bytes_read, u) =>
          if bytes_read =? ESRCH then Done ((-1, cur_hole), (u_t u, s))
          else
            match vmsplice (p0 ppb) (s_data (u_buf u)) bytes_read s with
            | Bug => Bug
            | NoFuel => NoFuel
            | Done (r, s) =>
              if negb (r =? bytes_read) then Done ((-1, cur_hole), (u_t u, s))
              else
                match predump_aux pp ppb (u_aux u) cur_hole s with
                | Bug => Bug
                | NoFuel => NoFuel
                | Done ((r, cur_hole), s) =>
                  if negb (r =? 0) then Done ((r, cur_hole), (u_t u, s))
                  else predump_bufs pp l cur_hole (u_t u, s)
                end
            end
        end
      end
    end.

Definition page_xfer_predump_pages (pp : page_pipe) : M (clock * St) Z :=
  fun ts =>
    match predump_bufs pp (bufs pp) 0 ts with
    | Bug => Bug
    | NoFuel => NoFuel
    | Done ((r, cur_hole), (t, s)) =>
      if negb (r =? 0) then Done (r, (t, s))
      else match dump_holes offset (drop cur_hole (pp_holes pp)) cur_hole 0 s with
           | Done ((r, _), s) => Done (r, (t, s))
           | Bug => Bug
           | NoFuel => NoFuel
           end
    end.

(** the pagemap of a pre-dump is made as that of a dump, for the iovecs that were read *)
Lemma predump_aux_dump_segs pp ppb l cur_hole s :
  has (ppb_xfer_flags transfer_lazy ppb) PE_PRESENT = true ->
  predump_aux pp ppb l cur_hole s = dump_segs offset transfer_lazy pp ppb l cur_hole s.
Proof.
  intros Hp. revert cur_hole s. induction l as [|v l IH]; intros cur_hole s; [done|].
  cbn [predump_aux dump_segs]. unfold bind. rewrite Hp.
  destruct (dump_holes _ _ _ _ s) as [[[r c] s1]| |]; try done. destruct (negb (r =? 0)); [done|].
  unfold bug_on. destruct (iov_base v <? offset); [done|].
  destruct (write_pagemap _ _ s1) as [[r1 s2]| |]; try done. destruct (negb (r1 =? 0)); [done|].
  destruct (write_pages _ _ s2) as [[r2 s3]| |]; try done. destruct (negb (r2 =? 0)); [done|]. apply IH.
Qed.
End PredumpPages.


(** ** The buffer holds the memory of [aux_iov] *)

Definition whole_pages (v : iovec) : Prop := 0 < iov_len v /\ aligned (iov_len v).

Section Spec.
Context {K : VmKernel} `{!VmKernelOk K}.
Variable mem : Z -> Z.

Record described (s : ust) : Prop := {
  de_pages : Forall whole_pages (u_aux s);
  de_size : s_wr (u_buf s) = bytes_of (u_aux s);
  de_data : forall i, 0 <= i < bytes_of (u_aux s) -> s_data (u_buf s) i = gather mem (u_aux s) i;
}.

Lemma gather_app a b i :
  Forall whole_pages a -> 0 <= i ->
  gather mem (a ++ b) i = if i <? bytes_of a then gather mem a i else gather mem b (i - bytes_of a).
Proof.
  intros Ha. apply gather_concat. eapply Forall_impl; [|exact Ha]. intros v [? _]. lia.
Qed.

Lemma pages_bytes a :
  Forall whole_pages a -> Z.of_nat (length a) * PAGE_SIZE <= bytes_of a /\ aligned (bytes_of a).
Proof.
  induction 1 as [|v a [Hv Hal] Ha [IH1 IH2]]; simpl; [done|]. fold (bytes_of a). split; pdiv.
Qed.

(** [aux'] is [aux] followed by the [n] bytes that were read *)
Lemma described_take s aux' l n :
  described s -> 0 <= n -> Forall whole_pages aux' -> bytes_of aux' = bytes_of (u_aux s) + n ->
  (forall i, 0 <= i < bytes_of (u_aux s) -> gather mem aux' i = gather mem (u_aux s) i) ->
  (forall i, 0 <= i < n -> gather mem aux' (bytes_of (u_aux s) + i) = gather mem l i) ->
  described (take_bytes mem (set_aux s aux') l n).
Proof.
  intros [H1 H2 H3] Hn Hp Hb Hold Hnew. split; cbn [u_aux u_buf take_bytes set_aux].
  - done.
  - unfold push. cbn. lia.
  - intros i Hi. unfold push, blit. cbn. destruct (Z.lt_ge_cases i (bytes_of (u_aux s))).
    + rewrite (proj2 (Z.leb_gt _ _)) by lia. cbn. rewrite H3, Hold by lia. done.
    + rewrite (proj2 (andb_true_iff _ _)) by lia.
      replace i with (bytes_of (u_aux s) + (i - bytes_of (u_aux s))) at 2 by lia.
      rewrite Hnew by lia. f_equal. lia.
Qed.

Lemma push_aux_ok v s n :
  Forall whole_pages (u_aux s) -> PAGE_SIZE <= n -> bytes_of (u_aux s) + n <= PIPE_MAX_SIZE * PAGE_SIZE ->
  push_aux v s = Done (tt, set_aux s (u_aux s ++ [v])).
Proof.
  intros H1 Hn Hb. unfold push_aux. rewrite (proj2 (Z.ltb_lt _ _)); [done|].
  destruct (pages_bytes _ H1) as [Hl _]. revert Hl Hn Hb. rewrite pp_page_max. unfold PAGE_SIZE. lia.
Qed.

Lemma removelast_split {A} (l : list A) v : list.last l = Some v -> l = removelast l ++ [v].
Proof.
  intros H. rewrite list.last_Some in H. destruct H as [k ->]. by rewrite removelast_last.
Qed.

Lemma merge_aux_ok base n s :
  described s -> u_aux s <> [] -> 0 < n -> aligned n ->
  bytes_of (u_aux s) + n <= PIPE_MAX_SIZE * PAGE_SIZE ->
  exists aux', merge_aux base n s = Done (tt, set_aux s aux') /\ aux' <> [] /\
    described (take_bytes mem (set_aux s aux') [mk_iovec base n] n) /\
    bytes_of aux' = bytes_of (u_aux s) + n.
Proof.
  intros D Hne Hn Hal Hb. pose proof D as [H1 _ _]. unfold merge_aux.
  destruct (list.last (u_aux s)) as [v|] eqn:Hl; [|by apply list.last_None in Hl].
  apply removelast_split in Hl. set (a := removelast (u_aux s)) in *.
  assert (Hnp : PAGE_SIZE <= n) by pdiv.
  rewrite Hl in H1. apply Forall_snoc in H1 as [Ha [Hv1 Hv2]].
  assert (Hba : bytes_of (u_aux s) = bytes_of a + iov_len v).
  { rewrite Hl, bytes_of_app. simpl. lia. }
  assert (Hb0 : 0 <= bytes_of a) by (destruct (pages_bytes _ Ha); plia).
  destruct (Z.eqb_spec (iov_base v + iov_len v) base) as [He|He].
  - eexists. split; [done|]. split; [by destruct a|]. split; [|rewrite bytes_of_app; simpl; lia].
    apply described_take; try done; try lia.
    + apply Forall_snoc. split; [done|]. split; simpl; [lia|]. by apply aligned_add.
    + rewrite bytes_of_app. simpl. lia.
    + intros i Hi. rewrite Hl, !gather_app by (done || lia). case_match; [done|]. simpl.
      rewrite !(proj2 (Z.ltb_lt _ _)) by lia. done.
    + intros i Hi. rewrite gather_app by (done || lia). rewrite (proj2 (Z.ltb_ge _ _)) by lia. simpl.
      rewrite !(proj2 (Z.ltb_lt _ _)) by lia. f_equal. lia.
  - rewrite (push_aux_ok _ s n (de_pages _ D)) by lia. eexists. split; [done|]. split; [by destruct (u_aux s)|].
    split; [|rewrite bytes_of_app; simpl; lia]. pose proof D as [D1 _ _].
    apply described_take; try done; try lia.
    + apply Forall_snoc. split; [done|]. by split.
    + rewrite bytes_of_app. simpl. lia.
    + intros i Hi. rewrite gather_app by (done || lia). by rewrite (proj2 (Z.ltb_lt _ _)) by lia.
    + intros i Hi. rewrite gather_app by (done || lia). rewrite (proj2 (Z.ltb_ge _ _)) by lia.
      f_equal. lia.
Qed.

Lemma described_state s t left cnt :
  described s -> described (mk_ust t (u_buf s) left (u_aux s) cnt).
Proof. intros [? ? ?]. by split. Qed.

Lemma faulty_loop_ok fuel dummy final s :
  described s -> u_aux s <> [] -> 0 <= iov_len dummy < 2 ^ 63 -> aligned (iov_len dummy) ->
  bytes_of (u_aux s) + iov_len dummy <= PIPE_MAX_SIZE * PAGE_SIZE ->
  (Z.to_nat (iov_len dummy) < fuel)%nat ->
  exists s', faulty_loop mem fuel dummy final s = Done (final + (bytes_of (u_aux s') - bytes_of (u_aux s)), s') /\
    described s' /\ u_aux s' <> [] /\
    bytes_of (u_aux s) <= bytes_of (u_aux s') <= bytes_of (u_aux s) + iov_len dummy.
Proof.
  revert dummy final s. induction fuel as [|fuel IH]; intros dummy final s D Hne Hd Hal Hb Hf; [lia|].
  cbn [faulty_loop]. destruct (Z.eqb_spec (iov_len dummy) 0) as [H0|H0].
  { exists s. split; [do 2 f_equal; lia|]. split_and!; try done; lia. }
  assert (Hpg : PAGE_SIZE <= iov_len dummy) by pdiv.
  destruct (k_vmread (u_t s) (u_left s) [dummy]) as [e|n] eqn:Hk.
  - rewrite u64_id by plia.
    destruct (IH (mk_iovec (iov_base dummy + PAGE_SIZE) (iov_len dummy - PAGE_SIZE)) final (cnt_sub (tick s)))
      as (s' & -> & D' & Hne' & Hb'); cbn [iov_len iov_base u_aux cnt_sub tick take_bytes set_aux]; try done; try plia.
    + exact (described_state s _ _ _ D).
    + pdiv.
    + exists s'. cbn [iov_len iov_base u_aux cnt_sub tick take_bytes set_aux] in *. split; [done|]. split_and!; try done; plia.
  - destruct (vmread_ok _ _ _ _ Hk) as (Hn1 & _ & Hn2 & Hn3). unfold bytes_of in Hn2; cbn [foldr] in Hn2.
    unfold bind. destruct (merge_aux_ok (iov_base dummy) n (tick s)) as (aux' & -> & Hna & D' & Hba);
      [exact (described_state s _ _ _ D)|done|done|done|cbn [u_aux tick]; lia|].
    rewrite u64_id by lia. cbn [u_aux tick] in Hba.
    destruct (IH (mk_iovec (iov_base dummy + n) (iov_len dummy - n)) (final + n)
                 (take_bytes mem (set_aux (tick s) aux') [dummy] n))
      as (s' & -> & D'' & Hne' & Hb'); cbn [iov_len iov_base u_aux cnt_sub tick take_bytes set_aux]; try done; try lia.
    + pose proof D' as [E1 E2 E3]. split; [done|done|]. cbn in *. intros i Hi. rewrite <-E3 by done.
      unfold blit. case_match; [|done]. 
      match goal with H : _ && _ = true |- _ => apply andb_true_iff in H as [Hx Hy] end.
      rewrite !(proj2 (Z.ltb_lt _ _)) by lia. done.
    + pdiv.
    + exists s'. cbn [iov_len iov_base u_aux cnt_sub tick take_bytes set_aux] in *. split; [do 2 f_equal; lia|]. split_and!; try done; lia.
Qed.

Lemma handle_faulty_ok w partial rest s :
  described s -> whole_pages w -> iov_len w < 2 ^ 63 -> 0 <= partial < iov_len w -> aligned partial ->
  u_aux s <> [] ->
  bytes_of (u_aux s) + (iov_len w - partial) + rest <= PIPE_MAX_SIZE * PAGE_SIZE -> 0 <= rest ->
  exists s', handle_faulty_iov mem w partial s = Done (bytes_of (u_aux s') - bytes_of (u_aux s), s') /\
    described s' /\ u_aux s' <> [] /\ bytes_of (u_aux s') + rest <= PIPE_MAX_SIZE * PAGE_SIZE.
Proof.
  intros D [Hw1 Hw2] Hw Hp Hpa Hne Hb Hr. unfold handle_faulty_iov.
  destruct (Z.eqb_spec (iov_len w) PAGE_SIZE) as [He|He].
  { exists (cnt_sub s). cbn [u_aux cnt_sub]. split; [do 2 f_equal; lia|].
    split_and!; [exact (described_state s _ _ _ D)|done|lia]. }
  set (off := if partial =? 0 then PAGE_SIZE else partial).
  assert (Hoff : partial <= off <= iov_len w /\ aligned off /\ 0 < off).
  { unfold off. destruct (Z.eqb_spec partial 0); split_and!; try done; try lia; try pdiv. }
  rewrite u64_id by lia. set (s0 := if partial =? 0 then cnt_sub s else s).
  assert (D0 : described s0 /\ u_aux s0 = u_aux s).
  { unfold s0. case_match; [|done]. split; [exact (described_state s _ _ _ D)|done]. }
  destruct D0 as [D0 E0].
  destruct (faulty_loop_ok (S (Z.to_nat (iov_len w))) (mk_iovec (iov_base w + off) (iov_len w - off)) 0 s0)
    as (s' & -> & D' & Hne' & Hb'); rewrite ?E0; cbn [iov_len]; try done; try lia.
  { pdiv. }
  exists s'. rewrite E0 in *. cbn [iov_len] in Hb'. split; [done|]. split_and!; try done. lia.
Qed.

Lemma analyze_loop_ok l index processed bytes s :
  Forall whole_pages (u_aux s) -> Forall whole_pages l -> processed <= bytes <= processed + bytes_of l ->
  bytes_of (u_aux s) + bytes_of l <= PIPE_MAX_SIZE * PAGE_SIZE ->
  exists j over,
    analyze_loop l index processed bytes s =
      Done ((over, if over =? 0 then (index + j)%nat else (index + j - 1)%nat),
            set_aux s (u_aux s ++ take j l)) /\
    (j <= length l)%nat /\ bytes_of (take j l) = bytes - processed + over /\ 0 <= over /\
    (processed < bytes -> j <> 0%nat) /\
    (over <> 0 -> exists v, l !! (j - 1)%nat = Some v /\ j <> 0%nat /\ over < iov_len v).
Proof.
  intros Ha Hl. revert index processed s Ha. induction Hl as [|v l [Hv Hal] Hl IH]; intros index processed s Ha Hp Hb.
  - simpl in Hp. exists 0%nat, 0. cbn [analyze_loop]. rewrite (proj2 (Z.leb_le _ _)) by lia.
    replace (processed - bytes) with 0 by lia. cbn. rewrite app_nil_r, Nat.add_0_r.
    split; [by destruct s|]. split_and!; try done; lia.
  - cbn [bytes_of foldr] in Hp, Hb. fold (bytes_of l) in Hp, Hb. cbn [analyze_loop].
    destruct (pages_bytes _ Hl) as [Hl0 _].
    destruct (Z.leb_spec bytes processed).
    + exists 0%nat, 0. replace (processed - bytes) with 0 by lia. cbn. rewrite app_nil_r, Nat.add_0_r.
      split; [by destruct s|]. split_and!; try done; lia.
    + unfold bind. rewrite (push_aux_ok v s (iov_len v)); [|done|pdiv|plia].
      destruct (Z.le_gt_cases bytes (processed + iov_len v)) as [Hlast|Hmore].
      * exists 1%nat, (processed + iov_len v - bytes). assert (Hrun : forall s', analyze_loop l (S index) (processed + iov_len v) bytes s' =
          Done ((processed + iov_len v - bytes, if processed + iov_len v - bytes =? 0 then S index else (S index - 1)%nat), s')).
        { intros s'. destruct l; cbn [analyze_loop]; rewrite (proj2 (Z.leb_le _ _)) by lia;
            case_match; unfold ret; do 2 f_equal; f_equal; lia. }
        rewrite Hrun. cbn [take]. rewrite Nat.add_1_r. split; [done|]. split; [simpl; lia|]. split; [simpl; lia|].
        split; [lia|]. split; [done|]. intros _. exists v. split_and!; [done|done|lia].
      * destruct (IH (S index) (processed + iov_len v) (set_aux s (u_aux s ++ [v]))) as (j & over & -> & Hj & Hbj & Ho & _ & Hov).
        { apply Forall_snoc. by split. }
        { lia. }
        { cbn [u_aux set_aux]. rewrite bytes_of_app. simpl. lia. }
        exists (S j), over. cbn [take u_aux set_aux]. rewrite <-app_assoc. split.
        { replace (S index + j)%nat with (index + S j)%nat by lia. done. }
        split_and!; [simpl; lia|simpl; fold (bytes_of (take j l)); lia|done|done|].
        intros Hne. destruct (Hov Hne) as (w & Hw & Hj0 & Hw2). exists w. split_and!; [|done|done].
        destruct j as [|j]; [done|]. simpl in *. by rewrite Nat.sub_0_r in Hw.
Qed.

Lemma gather_take l j i : Forall whole_pages l -> 0 <= i < bytes_of (take j l) -> gather mem (take j l) i = gather mem l i.
Proof.
  intros Hl Hi. rewrite <-(take_drop j l) at 2. rewrite gather_app; [|by apply Forall_take|lia].
  by rewrite (proj2 (Z.ltb_lt _ _)) by lia.
Qed.

Lemma gather_cut l k v m i :
  Forall whole_pages l -> l !! k = Some v -> m <= iov_len v -> 0 <= i < bytes_of (take k l) + m ->
  gather mem (take k l ++ [mk_iovec (iov_base v) m]) i = gather mem l i.
Proof.
  intros Hl Hk Hm Hi. rewrite <-(take_drop_middle l k v Hk) at 2.
  rewrite !gather_app by (try apply Forall_take; done || lia). case_match; [done|]. simpl.
  by rewrite !(proj2 (Z.ltb_lt _ _)) by lia.
Qed.

Lemma bytes_drop l k v : l !! k = Some v -> bytes_of (drop k l) = iov_len v + bytes_of (drop (S k) l).
Proof. intros H. by rewrite (drop_S _ _ _ H). Qed.

Lemma bytes_take_drop j l : bytes_of l = bytes_of (take j l) + bytes_of (drop j l).
Proof. by rewrite <-bytes_of_app, take_drop. Qed.

Lemma analyze_iov_ok n riov start s :
  described s -> Forall whole_pages riov -> 0 < n <= bytes_of (drop start riov) -> aligned n ->
  bytes_of (u_aux s) + bytes_of (drop start riov) <= PIPE_MAX_SIZE * PAGE_SIZE ->
  exists partial start' aux',
    analyze_iov n riov start s = Done ((partial, start'), set_aux s aux') /\
    described (take_bytes mem (set_aux s aux') (drop start riov) n) /\ aux' <> [] /\
    bytes_of aux' = bytes_of (u_aux s) + n /\ aligned partial /\ (start <= start')%nat /\
    (partial = 0 /\ n + bytes_of (drop start' riov) = bytes_of (drop start riov) \/
     exists w, riov !! start' = Some w /\ 0 < partial < iov_len w /\
       n + (iov_len w - partial) + bytes_of (drop (S start') riov) = bytes_of (drop start riov)).
Proof.
  intros D Hr Hn Hal Hb. unfold analyze_iov, bind. set (l := drop start riov) in *.
  assert (Hl : Forall whole_pages l) by (by apply Forall_drop). pose proof D as [D1 _ _].
  assert (Hb0 : 0 <= bytes_of (u_aux s)) by (destruct (pages_bytes _ D1); plia).
  destruct (analyze_loop_ok l start 0 n s D1 Hl) as (j & over & -> & Hj & Hbj & Ho & Hj0 & Hov); [lia|done|].
  specialize (Hj0 ltac:(lia)). rewrite Z.sub_0_r in Hbj. destruct (Z.eqb_spec over 0) as [->|Hne].
  - exists 0, (start + j)%nat, (u_aux s ++ take j l). split; [done|].
    assert (Ht : Forall whole_pages (take j l)) by (by apply Forall_take).
    split_and!; try done; try lia.
    + apply described_take; try done; [lia|by apply Forall_app|rewrite bytes_of_app; lia| |].
      * intros i Hi. rewrite gather_app by (done || lia). by rewrite (proj2 (Z.ltb_lt _ _)) by lia.
      * intros i Hi. rewrite gather_app by (done || lia). rewrite (proj2 (Z.ltb_ge _ _)) by lia.
        replace (bytes_of (u_aux s) + i - bytes_of (u_aux s)) with i by lia. apply gather_take; [done|lia].
    + intros [_ E]%app_eq_nil. rewrite E in Hbj. simpl in Hbj. lia.
    + rewrite bytes_of_app. lia.
    + left. split; [done|]. rewrite <-drop_drop. fold l. rewrite (bytes_take_drop j l). lia.
  - destruct (Hov Hne) as (v & Hv & Hj1 & Hvo). clear Hov.
    assert (Hidx : riov !! (start + j - 1)%nat = Some v).
    { unfold l in Hv. rewrite lookup_drop in Hv. by replace (start + j - 1)%nat with (start + (j - 1))%nat by lia. }
    rewrite Hidx. cbn [u_aux set_aux].
    assert (Htk : take j l = take (j - 1) l ++ [v]).
    { rewrite <-(take_S_r _ _ _ Hv). by replace (S (j - 1)) with j by lia. }
    rewrite Htk, app_assoc, list.last_snoc, removelast_last.
    assert (Hbt : bytes_of (take (j - 1) l) + iov_len v = n + over).
    { rewrite Htk, bytes_of_app in Hbj. simpl in Hbj. lia. }
    assert (Hpa : aligned (iov_len v - over)).
    { destruct (pages_bytes (take (j - 1) l) ltac:(by apply Forall_take)) as [_ Hx]. pdiv. }
    exists (iov_len v - over), (start + j - 1)%nat, (u_aux s ++ take (j - 1) l ++ [mk_iovec (iov_base v) (iov_len v - over)]).
    split; [by rewrite app_assoc|].
    assert (Ht : Forall whole_pages (take (j - 1) l ++ [mk_iovec (iov_base v) (iov_len v - over)])).
    { apply Forall_snoc. split; [by apply Forall_take|]. split; [simpl; lia|done]. }
    assert (Hbc : bytes_of (take (j - 1) l ++ [mk_iovec (iov_base v) (iov_len v - over)]) = n)
      by (rewrite bytes_of_app; simpl; lia).
    split_and!; try done; try lia.
    + apply described_take; try done; [lia|by apply Forall_app|rewrite bytes_of_app; lia| |].
      * intros i Hi. rewrite gather_app by (done || lia). by rewrite (proj2 (Z.ltb_lt _ _)) by lia.
      * intros i Hi. rewrite gather_app by (done || lia). rewrite (proj2 (Z.ltb_ge _ _)) by lia.
        replace (bytes_of (u_aux s) + i - bytes_of (u_aux s)) with i by lia.
        apply gather_cut; try done; lia.
    + intros [_ E]%app_eq_nil. rewrite E in Hbc. simpl in Hbc. lia.
    + rewrite bytes_of_app. lia.
    + right. exists v. split_and!; try done; try lia.
      rewrite (bytes_take_drop (j - 1) l), (bytes_drop l (j - 1) v Hv).
      unfold l at 2. rewrite drop_drop. replace (start + S (j - 1))%nat with (S (start + j - 1)) by lia. lia.
Qed.

Lemma described_tick s : described s -> described (tick s) /\ described (cnt_sub (tick s)).
Proof. intros D. split; exact (described_state s _ _ _ D). Qed.

(** the part of a turn after the read: the iovec that could not be read is gone through *)
Lemma fill_rest riov start partial total s :
  described s -> u_aux s <> [] -> total = bytes_of (u_aux s) -> Forall whole_pages riov ->
  Forall (fun v => iov_len v < 2 ^ 63) riov -> aligned partial ->
  (partial = 0 /\ bytes_of (u_aux s) + bytes_of (drop start riov) <= PIPE_MAX_SIZE * PAGE_SIZE \/
   exists w, riov !! start = Some w /\ 0 < partial < iov_len w /\
     bytes_of (u_aux s) + (iov_len w - partial) + bytes_of (drop (S start) riov) <= PIPE_MAX_SIZE * PAGE_SIZE) ->
  exists s', described s' /\ u_aux s' <> [] /\
    bytes_of (u_aux s') + bytes_of (drop (S start) riov) <= PIPE_MAX_SIZE * PAGE_SIZE /\
    match riov !! start with
    | None => s' = s
    | Some w => handle_faulty_iov mem w partial s = Done (bytes_of (u_aux s') - total, s')
    end.
Proof.
  intros D Hne Ht Hr Hlim Hpa Hb. subst total.
  assert (Hd : forall k, 0 <= bytes_of (drop k riov))
    by (intros k; destruct (pages_bytes (drop k riov) ltac:(by apply Forall_drop)); plia).
  destruct (riov !! start) as [w|] eqn:Hw.
  - assert (whole_pages w) by (by eapply Forall_lookup_1). assert (iov_len w < 2 ^ 63) by (by eapply Forall_lookup_1 in Hlim).
    destruct (handle_faulty_ok w partial (bytes_of (drop (S start) riov)) s) as (s' & H1 & H2 & H3 & H4); try done.
    + destruct Hb as [[-> _]|(w' & [= <-] & ? & _)]; [|lia]. match goal with H : whole_pages w |- _ => destruct H end. lia.
    + destruct Hb as [[-> Hb]|(w' & [= <-] & _ & Hb)]; [|lia]. rewrite (bytes_drop _ _ _ Hw) in Hb. lia.
    + by exists s'.
  - exists s. split_and!; try done. destruct Hb as [[_ Hb]|(? & ? & _)]; [|done].
    apply lookup_ge_None_1 in Hw. rewrite drop_ge in Hb by lia. rewrite drop_ge by lia. done.
Qed.

Lemma fill_loop_ok fuel riov start total s :
  described s -> total = bytes_of (u_aux s) -> Forall whole_pages riov ->
  Forall (fun v => iov_len v < 2 ^ 63) riov ->
  bytes_of (u_aux s) + bytes_of (drop start riov) <= PIPE_MAX_SIZE * PAGE_SIZE ->
  (length riov - start < fuel)%nat ->
  u_aux s <> [] \/ (exists n, k_vmread (u_t s) (u_left s) (drop start riov) = VmRead n) ->
  exists r s', fill_loop mem fuel riov start total s = Done (r, s') /\
    (r = ESRCH \/ r = bytes_of (u_aux s') /\ described s').
Proof.
  revert start total s. induction fuel as [|fuel IH]; intros start total s D Ht Hr Hlim Hb Hf Hfirst; [lia|].
  cbn [fill_loop]. destruct (riov !! start) as [v|] eqn:Hv.
  2: { exists total, s. split; [done|]. right. by split. }
  pose proof (lookup_lt_Some _ _ _ Hv) as Hlt. pose proof (described_tick s D) as [Dt Dc].
  assert (Hcont : forall s2 start2 partial, described s2 -> u_aux s2 <> [] -> aligned partial -> (start <= start2)%nat ->
    (partial = 0 /\ bytes_of (u_aux s2) + bytes_of (drop start2 riov) <= PIPE_MAX_SIZE * PAGE_SIZE \/
     exists w, riov !! start2 = Some w /\ 0 < partial < iov_len w /\
       bytes_of (u_aux s2) + (iov_len w - partial) + bytes_of (drop (S start2) riov) <= PIPE_MAX_SIZE * PAGE_SIZE) ->
    exists r s', match riov !! start2 with
          | None => fill_loop mem fuel riov (S start2) (bytes_of (u_aux s2))
          | Some w => n <~ handle_faulty_iov mem w partial ;; fill_loop mem fuel riov (S start2) (bytes_of (u_aux s2) + n)
          end s2 = Done (r, s') /\ (r = ESRCH \/ r = bytes_of (u_aux s') /\ described s')).
  { intros s2 start2 partial D2 Hne2 Hpa Hle Hb2.
    destruct (fill_rest riov start2 partial _ s2 D2 Hne2 eq_refl Hr Hlim Hpa Hb2) as (s3 & D3 & Hne3 & Hb3 & Hrun).
    destruct (riov !! start2) as [w|] eqn:Hw.
    - unfold bind. rewrite Hrun.
      replace (bytes_of (u_aux s2) + (bytes_of (u_aux s3) - bytes_of (u_aux s2))) with (bytes_of (u_aux s3)) by lia.
      apply IH; try done; [lia|by left].
    - subst s3. apply IH; try done; [lia|by left]. }
  destruct (k_vmread (u_t s) (u_left s) (drop start riov)) as [esrch|n] eqn:Hk.
  - assert (Hne : u_aux s <> []) by (destruct Hfirst as [?|[? ?]]; done).
    destruct (Z.eqb_spec (iov_len v) PAGE_SIZE).
    + apply IH; try done; [|lia|by left]. cbn [u_aux cnt_sub tick]. rewrite (bytes_drop _ _ _ Hv) in Hb.
      assert (0 < iov_len v) by (rewrite list.Forall_forall in Hr; apply Hr; by eapply list_elem_of_lookup_2). lia.
    + destruct esrch; [by eexists _, _; split; [done|left]|]. rewrite Ht.
      specialize (Hcont (tick s) start 0 Dt Hne eq_refl ltac:(done)). rewrite Hv in Hcont. apply Hcont. by left.
  - destruct (vmread_ok _ _ _ _ Hk) as (Hn1 & _ & Hn2 & Hn3). unfold bind.
    destruct (analyze_iov_ok n riov start (tick s)) as (partial & start' & aux' & -> & D' & Hne' & Hba & Hpa & Hle & Hcase); try done.
    cbn [u_aux tick] in Hba. rewrite Ht. replace (bytes_of (u_aux s) + n) with (bytes_of aux') by lia.
    apply (Hcont (take_bytes mem (set_aux (tick s) aux') (drop start riov) n) start' partial); try done.
    cbn [u_aux take_bytes set_aux]. destruct Hcase as [[-> Hc]|(w & Hw & Hp & Hc)].
    + left. split; [done|]. lia.
    + right. exists w. split_and!; try done; lia.
Qed.

End Spec.

(** ** A task whose first page is there and whose third page is gone *)
Definition demo_vm_kernel (gone : Z) : VmKernel := {|
  k_vmread := fun _ len l =>
    match l with
    | v :: _ =>
      let n := if iov_base v + iov_len v <=? gone then iov_len v
               else if gone <? iov_base v then iov_len v else gone - iov_base v in
      if (0 <? n) && (n <=? len) && (n <=? bytes_of l) && (n mod PAGE_SIZE =? 0) then VmRead n else VmErr false
    | [] => VmErr false
    end;
  k_vmsplice := fun _ n => n;
|}.

#[export] Instance demo_vm_kernel_ok gone : VmKernelOk (demo_vm_kernel gone).
Proof.
  constructor. intros t len l n. simpl. destruct l as [|v l]; [done|].
  case_match eqn:Hc; [|done]. intros [= <-]. rewrite !andb_true_iff in Hc. unfold aligned.
  destruct Hc as (((?&?)&?)&?). split_and!; lia.
Qed.

(** ** The properties *)

(** filling the user buffer of a pre-dump ends, within the bounds of [aux_iov], and [aux_iov]
    describes the buffer: whatever pages have gone in the meantime, the bytes in the buffer are
    those of the memory at the iovecs of [aux_iov], one after the other; or the task is gone. *)
Theorem fill_userbuf_spec {K : VmKernel} `{!VmKernelOk K} mem riov t n :
  Forall iov_ok riov -> bytes_of riov <= BUFFER_SIZE ->
  k_vmread t BUFFER_SIZE riov = VmRead n ->
  exists r u, fill_userbuf mem riov (mk_ust t empty_stream BUFFER_SIZE [] 0) = Done (r, u) /\
    (r = ESRCH \/
     r = bytes_of (u_aux u) /\ s_wr (u_buf u) = r /\ Forall whole_pages (u_aux u) /\
     forall i, 0 <= i < r -> s_data (u_buf u) i = gather mem (u_aux u) i).
Proof.
  intros Hr Hb Hk.
  assert (Hw : Forall whole_pages riov) by (eapply Forall_impl; [|exact Hr]; intros v (?&?&?&?&?); by split).
  destruct (fill_loop_ok mem (S (length riov)) riov 0 0 (mk_ust t empty_stream BUFFER_SIZE [] 0))
    as (r & u & Hrun & Hres); try done.
  - rewrite list.Forall_forall in Hr |- *. intros v Hv. destruct (Hr v Hv) as (?&?&?&?&?).
    pose proof (bytes_of_elem riov v) as He. eapply Z.le_lt_trans; [apply He; [|done]|].
    + eapply Forall_impl; [|exact Hw]. intros w [? _]. lia.
    + eapply Z.le_lt_trans; [exact Hb|]. vm_compute. reflexivity.
  - cbn. lia.
  - right. by exists n.
  - exists r, u. split; [done|]. destruct Hres as [->|[-> [D1 D2 D3]]]; [by left|right]. by split_and!.
Qed.

Lemma fill_userbuf_witness :
  exists r u, @fill_userbuf (demo_vm_kernel 16384) demo_mem [mk_iovec 8192 16384; mk_iovec 65536 4096]
                (mk_ust 0 empty_stream BUFFER_SIZE [] 0) = Done (r, u) /\
    (r = ESRCH \/
     r = bytes_of (u_aux u) /\ s_wr (u_buf u) = r /\ Forall whole_pages (u_aux u) /\
     forall i, 0 <= i < r -> s_data (u_buf u) i = gather demo_mem (u_aux u) i).
Proof.
  apply (@fill_userbuf_spec (demo_vm_kernel 16384) _ demo_mem _ 0%nat 8192).
  - repeat apply Forall_cons_2; try apply Forall_nil_2; unfold iov_ok; split_and!; vm_compute; congruence.
  - vm_compute. congruence.
  - vm_compute. reflexivity.
Defined.

(** the page that is gone is dropped, the pages around it are kept *)
Example fill_userbuf_skips :
  match @fill_userbuf (demo_vm_kernel 16384) demo_mem [mk_iovec 8192 16384; mk_iovec 65536 4096]
          (mk_ust 0 empty_stream BUFFER_SIZE [] 0) with
  | Done (r, u) => r = 16384 /\ u_aux u = [mk_iovec 8192 8192; mk_iovec 20480 4096; mk_iovec 65536 4096] /\ u_cnt u = -1
  | _ => False
  end.
Proof. vm_compute. repeat split. Qed.

(** when the first page of the first iovec is gone and that iovec has more pages, the next page
    that is read makes the code look at the entry of [aux_iov] before the first one: the array is
    still empty. *)
Theorem first_page_gone_out_of_bounds {K : VmKernel} mem v riov t n :
  PAGE_SIZE < iov_len v < 2 ^ 63 ->
  k_vmread t BUFFER_SIZE (v :: riov) = VmErr false ->
  k_vmread (S t) BUFFER_SIZE [mk_iovec (iov_base v + PAGE_SIZE) (iov_len v - PAGE_SIZE)] = VmRead n ->
  fill_userbuf mem (v :: riov) (mk_ust t empty_stream BUFFER_SIZE [] 0) = Bug.
Proof.
  intros Hlen Hk1 Hk2. unfold fill_userbuf. cbn [fill_loop lookup list_lookup length u_t u_left].
  change (drop 0 (v :: riov)) with (v :: riov). rewrite Hk1.
  rewrite (proj2 (Z.eqb_neq _ _)) by lia. unfold bind, handle_faulty_iov.
  rewrite (proj2 (Z.eqb_neq _ _)) by lia. change (0 =? 0) with true. cbv iota. rewrite u64_id by plia.
  cbn [faulty_loop iov_len u_t u_left cnt_sub tick iov_base]. rewrite (proj2 (Z.eqb_neq _ _)) by lia.
  rewrite Hk2. reflexivity.
Qed.

Lemma first_page_gone_witness :
  @fill_userbuf (demo_vm_kernel 8192) demo_mem [mk_iovec 8192 16384] (mk_ust 0 empty_stream BUFFER_SIZE [] 0) = Bug.
Proof.
  apply (@first_page_gone_out_of_bounds (demo_vm_kernel 8192) demo_mem (mk_iovec 8192 16384) [] 0%nat 12288).
  - vm_compute. split; reflexivity.
  - vm_compute. reflexivity.
  - vm_compute. reflexivity.
Defined.

(** the pagemap of a pre-dump is generated exactly as the pagemap of a dump would be from the
    iovecs that could be read, in the mode in which lazy pages are transferred. *)
Theorem predump_pagemap_as_dump {St} {X : XferOps St} offset pp ppb l cur_hole s :
  predump_aux offset true pp ppb l cur_hole s = dump_segs offset true pp ppb l cur_hole s.
Proof.
  apply predump_aux_dump_segs. unfold ppb_xfer_flags. by destruct (has (ppb_flags ppb) PPB_LAZY).
Qed.


End Predump.
