(* ===== verification/PagemapCache.v ===== *)
(** * The pagemap cache (criu/pagemap-cache.c, criu/include/pagemap-cache.h)

    The dumper reads a task's /proc/pid/pagemap for one area at a time, or for a
    2 MB window of small neighbouring areas at once, into one buffer. *)
From S2P Require Import Prelude.

Module PagemapCache.
Open Scope cmon_scope.

Definition PMC_SHIFT : Z := 21.
Definition PMC_SIZE : Z := Z.shiftl 1 PMC_SHIFT.
Definition PMC_MASK : Z := Z.lnot (PMC_SIZE - 1).
Definition PMC_SIZE_GAP : Z := PMC_SIZE / 4.

Definition PAGE_PFN (addr : Z) : Z := addr / PAGE_SIZE.
Definition PAGEMAP_LEN (addr : Z) : Z := PAGE_PFN addr * 8.
Definition PAGEMAP_PFN_OFF (addr : Z) : Z := PAGE_PFN addr * 8.

(** the bounds of an area, all that the cache looks at *)
Record area := mk_area { a_start : Z; a_end : Z }.
Definition vma_len (v : area) : Z := a_end v - a_start v.

Record pmc_t := mk_pmc {
  start : Z;
  end_ : Z;
  map : Z -> Z;             (* the local buffer, in entries *)
  map_len : Z;              (* in bytes *)
  fd : Z;
}.

(** [k_pmap t off n]: the number of bytes a pread of [n] bytes at [off] of the pagemap returns *)
Class PmKernel := {
  k_pmap : clock -> Z -> Z -> Z;
  k_pmc_malloc : clock -> bool;
  k_open_pagemap : clock -> Z;
}.

Section Ops.
Context {K : PmKernel}.
Variables (cache_disabled pm_disabled : bool) (task_size : Z).
Variable pagemap : Z -> Z.       (* the entry of every page of the task *)

Definition pmc_reset : pmc_t := mk_pmc 0 0 (fun _ => 0) 0 (-1).
Definition pmc_zap (p : pmc_t) : pmc_t := mk_pmc 0 0 (map p) (map_len p) (fd p).
Definition pmc_fini (_ : pmc_t) : pmc_t := pmc_reset.

Definition pmc_init (size : Z) (t : clock) : Z * clock * pmc_t :=
  let map_size := Z.max size PMC_SIZE in
  let len := PAGEMAP_LEN map_size in
  if negb (k_pmc_malloc t) then (-1, S t, pmc_reset)
  else if pm_disabled then (-1, S t, pmc_reset)
  else
    let f := k_open_pagemap (S t) in
    if f <? 0 then (-1, S (S t), pmc_reset)
    else (0, S (S t), mk_pmc 0 0 (fun _ => 0) len f).

(** the index in [map] of the entry of [addr] *)
Definition __pmc_get_map (p : pmc_t) (addr : Z) : Z := PAGE_PFN (addr - start p).

(** the areas that follow, as far as they fit the window; whether there is one *)
Fixpoint window (low high : Z) (rest : list area) : res bool :=
  match rest with
  | [] => Done false
  | v :: rest =>
    if (high <? a_start v) || (high <? a_end v) then Done false
    else if a_start v <? low then Bug
    else match window low high rest with Done _ => Done true | Bug => Bug | NoFuel => NoFuel end
  end.

(** [rest]: the areas after [v] in the list *)
Definition pmc_fill_cache (v : area) (rest : list area) : M (clock * pmc_t) Z :=
  fun '(t, p) =>
    let low := Z.land (a_start v) PMC_MASK in
    let high := low + PMC_SIZE in
    let high := if task_size <? high then task_size else high in
    let len := vma_len v in
    match (if negb cache_disabled && (len <? PMC_SIZE) && (a_start v - low <? PMC_SIZE_GAP)
           then window low high rest else Done false) with
    | Bug => Bug
    | NoFuel => NoFuel
    | Done more =>
      let e := if more then high else a_end v in
      let size_map := PAGEMAP_LEN (e - a_start v) in
      if map_len p <? size_map then Bug
      else if fd p <? 0 then Bug
      else
        let p := mk_pmc (a_start v) e (map p) (map_len p) (fd p) in
        if negb (k_pmap t (PAGEMAP_PFN_OFF (start p)) size_map =? size_map)
        then Done (-1, (S t, pmc_zap p))
        else
          let m i := if (0 <=? i) && (i <? size_map / 8) then pagemap (PAGE_PFN (start p) + i) else map p i in
          Done (0, (S t, mk_pmc (start p) (end_ p) m (map_len p) (fd p)))
    end.

Definition pmc_get_map (v : area) (rest : list area) : M (clock * pmc_t) (option Z) :=
  fun '(t, p) =>
    if (start p <=? a_start v) && (a_end v <=? end_ p)
    then Done (Some (__pmc_get_map p (a_start v)), (t, p))
    else
      match pmc_fill_cache v rest (t, p) with
      | Bug => Bug
      | NoFuel => NoFuel
      | Done (r, (t, p)) =>
        if negb (r =? 0) then Done (None, (t, p))
        else Done (Some (__pmc_get_map p (a_start v)), (t, p))
      end.

(** ** The cache holds the pagemap *)

(** every entry of the cached window is the task's, and the buffer is large enough for the
    window and for areas of up to [size] bytes *)
Record pmc_ok (size : Z) (p : pmc_t) : Prop := {
  po_bounds : start p <= end_ p /\ aligned (start p);
  po_len : PAGEMAP_LEN (Z.max size PMC_SIZE) <= map_len p;
  po_fd : 0 <= fd p;
  po_map : forall i, 0 <= i < PAGE_PFN (end_ p - start p) -> map p i = pagemap (PAGE_PFN (start p) + i);
}.

(** an area of whole pages that the cache was sized for *)
Definition area_ok (size : Z) (v : area) : Prop :=
  0 <= a_start v < a_end v /\ aligned (a_start v) /\ aligned (a_end v) /\ a_end v <= task_size /\ vma_len v <= size.

Lemma window_ok low high lo rest :
  low <= lo -> Forall (fun w => lo <= a_start w < a_end w) rest ->
  exists b, window low high rest = Done b /\ (b = true -> lo < high).
Proof.
  intros Hlo. induction 1 as [|w rest Hw _ (b & IH & _)]; [by exists false|]. simpl.
  destruct ((high <? a_start w) || (high <? a_end w)) eqn:E; [by exists false|].
  apply orb_false_iff in E. rewrite (proj2 (Z.ltb_ge _ _)), IH by lia. exists true. split; [done|]. lia.
Qed.

Lemma pfn_mono x y : x <= y -> PAGEMAP_LEN x <= PAGEMAP_LEN y.
Proof. unfold PAGEMAP_LEN, PAGE_PFN. intros. assert (x / PAGE_SIZE <= y / PAGE_SIZE) by (apply Z.div_le_mono; done). lia. Qed.

Lemma low_ok x : 0 <= x -> Z.land x PMC_MASK <= x < Z.land x PMC_MASK + PMC_SIZE.
Proof.
  intros Hx. unfold PMC_MASK. change (PMC_SIZE - 1) with (Z.ones 21).
  rewrite <-Z.ldiff_land, Z.ldiff_ones_r, Z.shiftr_div_pow2, Z.shiftl_mul_pow2 by lia.
  change PMC_SIZE with (2 ^ 21). Z.div_mod_to_equations; lia.
Qed.

Lemma fill_cache_ok size v rest t p :
  pmc_ok size p -> area_ok size v -> Forall (fun w => a_end v <= a_start w < a_end w) rest ->
  exists r t' p', pmc_fill_cache v rest (t, p) = Done (r, (t', p')) /\ pmc_ok size p' /\
    (r = 0 /\ start p' = a_start v /\ a_end v <= end_ p' \/ r = -1).
Proof.
  intros [_ P2 P3 P4] (V1 & V2 & V3 & V4 & V5) Hrest. unfold pmc_fill_cache.
  pose proof (low_ok (a_start v) ltac:(lia)) as Hlow. set (low := Z.land (a_start v) PMC_MASK) in *.
  set (high := if task_size <? low + PMC_SIZE then task_size else low + PMC_SIZE).
  assert (Hhigh : high <= low + PMC_SIZE) by (unfold high; destruct (Z.ltb_spec task_size (low + PMC_SIZE)); lia).
  destruct (window_ok low high (a_end v) rest ltac:(lia) Hrest) as (b & Hw & Hb).
  set (use := negb cache_disabled && (vma_len v <? PMC_SIZE) && (a_start v - low <? PMC_SIZE_GAP)).
  assert (Hc : exists more, (if use then window low high rest else Done false) = Done more /\
            (more = true -> a_end v < high)).
  { destruct use; [by exists b|by exists false]. }
  destruct Hc as (more & -> & Hmore). set (e := if more then high else a_end v).
  assert (He : a_end v <= e /\ e - a_start v <= Z.max size PMC_SIZE).
  { unfold e, vma_len in *. destruct more; [specialize (Hmore eq_refl); lia|lia]. }
  pose proof (pfn_mono (e - a_start v) (Z.max size PMC_SIZE) ltac:(lia)) as Hm.
  rewrite (proj2 (Z.ltb_ge (map_len p) _)), (proj2 (Z.ltb_ge (fd p) 0)) by lia. cbn [start end_ map map_len fd].
  case_match.
  - eexists _, _, _. split; [done|]. split; [|by right].
    split; cbn [start end_ map map_len fd pmc_zap]; try done. intros i Hi. change (PAGE_PFN (0 - 0)) with 0 in Hi. lia.
  - eexists _, _, _. split; [done|]. split; [|left; cbn [start end_]; split_and!; [done|done|apply He]].
    split; cbn [start end_ map map_len fd]; try done; [split; [lia|done]|].
    intros i Hi. unfold PAGEMAP_LEN. rewrite Z.div_mul by done.
    by rewrite (proj2 (andb_true_iff _ _)) by lia.
Qed.

Lemma get_map_ok size v rest t p :
  pmc_ok size p -> area_ok size v -> Forall (fun w => a_end v <= a_start w < a_end w) rest ->
  exists o t' p', pmc_get_map v rest (t, p) = Done (o, (t', p')) /\ pmc_ok size p' /\
    match o with
    | None => True
    | Some k => forall i, 0 <= i < vma_len v / PAGE_SIZE -> map p' (k + i) = pagemap (PAGE_PFN (a_start v) + i)
    end.
Proof.
  intros P V Hrest. unfold pmc_get_map.
  assert (Hhit : forall q, pmc_ok size q -> start q <= a_start v -> a_end v <= end_ q ->
    forall i, 0 <= i < vma_len v / PAGE_SIZE ->
      map q (__pmc_get_map q (a_start v) + i) = pagemap (PAGE_PFN (a_start v) + i)).
  { intros q [[Q1 Q2] _ _ Q4] Hs He i Hi. destruct V as (V1 & V2 & V3 & _). unfold __pmc_get_map, PAGE_PFN, vma_len in *.
    rewrite Q4; [f_equal; pdiv|]. pdiv. }
  destruct ((start p <=? a_start v) && (a_end v <=? end_ p)) eqn:E.
  - apply andb_true_iff in E. eexists _, _, _. split; [done|]. split; [done|]. apply Hhit; [done|lia|lia].
  - destruct (fill_cache_ok size v rest t p P V Hrest) as (r & t' & p' & -> & P' & [(-> & H1 & H2)| ->]).
    + eexists _, _, _. split; [done|]. split; [done|]. apply Hhit; [done|lia|done].
    + eexists _, _, _. split; [done|]. by split.
Qed.

Lemma pmc_init_ok size t t' p : pmc_init size t = (0, t', p) -> pmc_ok size p.
Proof.
  unfold pmc_init. repeat (case_match; [done|]). intros [= <- <-]. split; cbn [start end_ map map_len fd]; try done; try lia.
  intros i Hi. change (PAGE_PFN (0 - 0)) with 0 in Hi. lia.
Qed.
End Ops.

(** ** A task of four areas *)
Definition demo_pm_kernel : PmKernel := {|
  k_pmap := fun _ _ n => n; k_pmc_malloc := fun _ => true; k_open_pagemap := fun _ => 5;
|}.
Definition demo_area (i n : Z) : area := mk_area (i * PAGE_SIZE) ((i + n) * PAGE_SIZE).
Definition demo_pmc : pmc_t := snd (@pmc_init demo_pm_kernel false (100 * PAGE_SIZE) 0%nat).

(** ** The properties *)

(** the entries that the cache hands out for an area are the task's pagemap entries of the pages
    of that area, whether they were cached, read for this area alone or read for a window of
    neighbouring areas, and reading them never overruns the buffer; the cache stays correct. *)
Theorem pmc_get_map_spec {K : PmKernel} cache_disabled task_size pagemap size v rest t p :
  pmc_ok pagemap size p -> area_ok task_size size v ->
  Forall (fun w => a_end v <= a_start w < a_end w) rest ->
  exists o t' p', pmc_get_map cache_disabled task_size pagemap v rest (t, p) = Done (o, (t', p')) /\
    pmc_ok pagemap size p' /\
    match o with
    | None => True
    | Some k => forall i, 0 <= i < vma_len v / PAGE_SIZE -> map p' (k + i) = pagemap (PAGE_PFN (a_start v) + i)
    end.
Proof. intros. by apply get_map_ok. Qed.

Lemma pmc_get_map_witness :
  exists o t' p', @pmc_get_map demo_pm_kernel false (2 ^ 47) (fun n => n + 7) (demo_area 4 3)
      [demo_area 9 1; demo_area 20 60] (2%nat, demo_pmc) = Done (o, (t', p')) /\
    pmc_ok (fun n => n + 7) (100 * PAGE_SIZE) p' /\
    match o with
    | None => True
    | Some k => forall i, 0 <= i < vma_len (demo_area 4 3) / PAGE_SIZE ->
                  map p' (k + i) = (fun n => n + 7) (PAGE_PFN (a_start (demo_area 4 3)) + i)
    end.
Proof.
  apply (@pmc_get_map_spec demo_pm_kernel false (2 ^ 47) (fun n => n + 7) (100 * PAGE_SIZE)).
  - apply (@pmc_init_ok demo_pm_kernel false (fun n => n + 7) (100 * PAGE_SIZE) 0%nat 2%nat). vm_compute. reflexivity.
  - unfold area_ok. split_and!; vm_compute; congruence.
  - repeat apply Forall_cons_2; try apply Forall_nil_2; split; vm_compute; congruence.
Defined.

End PagemapCache.
