(* ===== verification/AsyncRead.v ===== *)
(** * Receiving pages from a page server (criu/page-xfer.c, from [struct ps_async_read])

    A client that needs lazy pages sends PS_IOV_GET requests and reads the replies,
    a header ([page_server_iov]) and the pages, which may arrive in any number of
    pieces: at once ([page_server_start_sync_read]) or when the socket is polled
    ([page_server_async_read], which serves the oldest request first). *)
From S2P Require Import Prelude.
From S2P Require Import PagePipe.
From S2P Require Import Pagemap.
From S2P Require Import PageXfer.
Import PagePipe.PagePipe Pagemap.Pagemap PageXfer.PageXfer.

Module AsyncRead.
Open Scope cmon_scope.

(** recv: an error, EAGAIN or EINTR, or a number of bytes (0: the peer closed) *)
Inductive rres := RErr | RAgain | RN (n : Z).

Class RecvKernel := { k_recv : clock -> Z -> rres }.
(** recv(2): at most the bytes requested *)
Class RecvKernelOk (K : RecvKernel) : Prop := {
  recv_le : forall t n m, 0 <= n -> k_recv t n = RN m -> 0 <= m <= n;
}.
(** data arrives *)
Class RecvKernelLive (K : RecvKernel) : Prop := {
  recv_pos : forall t n, 1 <= n -> exists m, k_recv t n = RN m /\ 1 <= m;
}.

Record ps_async_read := mk_ar {
  rb : Z;
  goal : Z;
  ar_nr_pages : Z;
  ar_pi : Z -> Z;          (* the bytes of the header *)
  ar_pages : Z;            (* the buffer for the pages *)
}.

Definition async_read_set_goal (ar : ps_async_read) (nr : Z) : ps_async_read :=
  mk_ar (rb ar) (PSI_SIZE + nr * PAGE_SIZE) nr (ar_pi ar) (ar_pages ar).

Definition init_ps_async_read (buf nr : Z) : ps_async_read :=
  async_read_set_goal (mk_ar 0 0 0 (fun _ => 0) buf) nr.

Section Ops.
Context {K : RecvKernel}.
Variable complete : Z -> Z -> Z -> Z.             (* img_id, vaddr, nr_pages *)

(** the clock, the socket and the memory *)
Definition ast : Type := clock * stream * (Z -> Z).

(** 1: more is to come; [dontwait] is the flag MSG_DONTWAIT *)
Definition page_server_read (dontwait : bool) (ar : ps_async_read) : M ast (Z * ps_async_read) :=
  fun '(t, s, mem) =>
    let header := rb ar <? PSI_SIZE in
    let hdr := psi_of_bytes (ar_pi ar) 0 in
    let ar := if header then ar
              else if ps_nr_pages hdr <? ar_nr_pages ar then async_read_set_goal ar (ps_nr_pages hdr)
              else ar in
    let need := s32 (if header then PSI_SIZE - rb ar else goal ar - rb ar) in
    match k_recv t need with
    | RErr => Done ((-1, ar), (S t, s, mem))
    | RAgain => if dontwait then Done ((if rb ar <? goal ar then 1 else complete (s32 (ps_dst_id hdr)) (ps_vaddr hdr) (s32 (ps_nr_pages hdr)), ar), (S t, s, mem))
                else Done ((-1, ar), (S t, s, mem))
    | RN n =>
      let n := Z.min n (avail s) in
      let pi := if header then blit (ar_pi ar) (rb ar) (s_data s) (s_rd s) n else ar_pi ar in
      let mem := if header then mem
                 else blit mem (ar_pages ar + (rb ar - PSI_SIZE)) (s_data s) (s_rd s) n in
      let ar := mk_ar (rb ar + n) (goal ar) (ar_nr_pages ar) pi (ar_pages ar) in
      let s := skip s n in
      if rb ar <? goal ar then Done ((1, ar), (S t, s, mem))
      else if goal ar <? rb ar then Bug
      else
        let hdr := psi_of_bytes pi 0 in
        Done ((complete (s32 (ps_dst_id hdr)) (ps_vaddr hdr) (s32 (ps_nr_pages hdr)), ar), (S t, s, mem))
    end.

Fixpoint sync_loop (fuel : nat) (ar : ps_async_read) : M ast Z :=
  fun st =>
    match fuel with
    | O => NoFuel
    | S fuel =>
      match page_server_read false ar st with
      | Bug => Bug
      | NoFuel => NoFuel
      | Done ((r, ar), st) => if r =? 1 then sync_loop fuel ar st else Done (r, st)
      end
    end.

Definition page_server_start_sync_read (fuel : nat) (buf nr : Z) : M ast Z :=
  sync_loop fuel (init_ps_async_read buf nr).

(** a request is queued; the reply is read when the socket is polled *)
Definition page_server_start_async_read (malloc : bool) (buf nr : Z) (q : list ps_async_read)
  : Z * list ps_async_read :=
  if malloc then (0, q ++ [init_ps_async_read buf nr]) else (-1, q).

(** one poll event, for the first request of the queue *)
Definition page_server_async_read : M (ast * list ps_async_read) Z :=
  fun '(st, q) =>
    match q with
    | [] => Bug
    | ar :: q =>
      match page_server_read true ar st with
      | Bug => Bug
      | NoFuel => NoFuel
      | Done ((r, ar), st) =>
        if 0 <? r then Done (0, (st, ar :: q))
        else if r =? 0 then Done (0, (st, q))
        else Done (r, (st, ar :: q))
      end
    end.

End Ops.

(** request_remote_pages: the request for the pages of a task *)
Definition request_remote_pages {XK : XferKernel} (img_id addr nr : Z) : M (clock * stream) Z :=
  send_psi (mk_psi PS_IOV_GET (u32 nr) addr img_id).

(** ** A reply is read completely *)
Section Spec.
Context {K : RecvKernel} `{!RecvKernelOk K}.
Variable complete : Z -> Z -> Z -> Z.
Variables (f : Z -> Z) (o w : Z) (p : page_server_iov) (buf req : Z) (mem0 : Z -> Z).
Hypothesis Hp : psi_ok p.
(** the reply, from byte [o] of the stream on, has between one page and the pages requested *)
Hypothesis Hhdr : forall j, 0 <= j < PSI_SIZE -> f (o + j) = psi_bytes p j.
Hypothesis Hnr : 1 <= ps_nr_pages p <= req.
Hypothesis Hreq : req < 2 ^ 18.

Definition reply_size : Z := PSI_SIZE + ps_nr_pages p * PAGE_SIZE.

(** [ar] has taken the first [rb ar] bytes of the reply *)
Record taken (ar : ps_async_read) (s : stream) (mem : Z -> Z) : Prop := {
  tk_stream : s_data s = f /\ s_rd s = o + rb ar /\ s_wr s = w /\ reply_size - rb ar <= avail s;
  tk_rb : 0 <= rb ar < reply_size;
  tk_nr : ar_nr_pages ar = req \/ (PSI_SIZE <= rb ar /\ ar_nr_pages ar = ps_nr_pages p);
  tk_goal : goal ar = PSI_SIZE + ar_nr_pages ar * PAGE_SIZE;
  tk_buf : ar_pages ar = buf;
  tk_pi : forall j, 0 <= j < Z.min (rb ar) PSI_SIZE -> ar_pi ar j = f (o + j);
  tk_mem : forall b, mem b = if (buf <=? b) && (b <? buf + (rb ar - PSI_SIZE))
                             then f (o + PSI_SIZE + (b - buf)) else mem0 b;
}.

(** the memory once the pages have been read *)
Definition filled (mem : Z -> Z) : Prop :=
  forall b, mem b = if (buf <=? b) && (b <? buf + ps_nr_pages p * PAGE_SIZE)
                    then f (o + PSI_SIZE + (b - buf)) else mem0 b.

Lemma header_of ar s mem : taken ar s mem -> PSI_SIZE <= rb ar -> psi_of_bytes (ar_pi ar) 0 = p.
Proof.
  intros T Hr. apply psi_roundtrip; [done|]. intros j Hj. rewrite <-Hhdr by done.
  apply (tk_pi _ _ _ T). lia.
Qed.

Lemma read_step dontwait ar t s mem n :
  taken ar s mem ->
  (forall need, 1 <= need -> k_recv t need = RN (n need) /\ 1 <= n need) ->
  (exists ar' s' mem', page_server_read complete dontwait ar (t, s, mem) = Done ((1, ar'), (S t, s', mem')) /\
     taken ar' s' mem' /\ rb ar < rb ar') \/
  (exists ar' s' mem', page_server_read complete dontwait ar (t, s, mem) =
     Done ((complete (s32 (ps_dst_id p)) (ps_vaddr p) (ps_nr_pages p), ar'), (S t, s', mem')) /\
     filled mem' /\ s_data s' = f /\ s_rd s' = o + reply_size /\ s_wr s' = w).
Proof.
  intros T Hk. pose proof T as [(T1 & T2 & Tw & T3) T4 T5 T6 T7 T8 T9]. unfold page_server_read.
  unfold reply_size, PSI_SIZE in *. destruct (Z.ltb_spec (rb ar) 24) as [Hh|Hh].
  - rewrite (s32_id (24 - rb ar)) by lia. destruct (Hk (24 - rb ar) ltac:(lia)) as [Hr Hn]. rewrite Hr.
    pose proof (recv_le t (24 - rb ar) _ ltac:(lia) Hr) as Hle. rewrite Z.min_l by plia. cbn [rb goal ar_nr_pages ar_pages].
    destruct T5 as [T5|[? _]]; [|lia]. rewrite (proj2 (Z.ltb_lt _ _)) by plia.
    left. eexists _, _, _. split; [done|]. split; [|cbn; lia]. split; cbn; try done.
    + unfold reply_size, PSI_SIZE, avail, skip in *. cbn. split_and!; [done|lia|done|lia].
    + unfold reply_size, PSI_SIZE. plia.
    + by left.
    + intros j Hj. unfold blit. rewrite T1, T2. case_match eqn:Hc.
      * f_equal. lia.
      * apply T8. unfold PSI_SIZE. lia.
    + intros b. rewrite T9. unfold PSI_SIZE. 
      rewrite !(proj2 (andb_false_iff _ _)) by lia. done.
  - rewrite (header_of ar s mem T Hh). set (ar1 := if ps_nr_pages p <? ar_nr_pages ar then _ else ar).
    assert (E : goal ar1 = 24 + ps_nr_pages p * PAGE_SIZE /\ ar_nr_pages ar1 = ps_nr_pages p /\ rb ar1 = rb ar /\
                ar_pi ar1 = ar_pi ar /\ ar_pages ar1 = ar_pages ar).
    { unfold ar1. destruct (Z.ltb_spec (ps_nr_pages p) (ar_nr_pages ar)) as [Hlt|Hge]; [done|].
      assert (ar_nr_pages ar = ps_nr_pages p) as Heq by (destruct T5 as [T5|[_ T5]]; lia).
      rewrite T6, Heq. done. }
    destruct E as (E1 & E2 & E3 & E4 & E5). rewrite E1, E3, E4, E5.
    rewrite s32_id by plia. set (need := 24 + ps_nr_pages p * PAGE_SIZE - rb ar).
    destruct (Hk need ltac:(unfold need; lia)) as [Hr Hn]. rewrite Hr.
    pose proof (recv_le t need _ ltac:(unfold need; lia) Hr) as Hle. unfold need in Hle. rewrite Z.min_l by (unfold need; lia).
    fold need in Hle. set (m := n need) in *.
    assert (Hmem : forall b, blit mem (ar_pages ar + (rb ar - 24)) (s_data s) (s_rd s) m b =
      if (buf <=? b) && (b <? buf + (rb ar + m - 24)) then f (o + 24 + (b - buf)) else mem0 b).
    { intros b. unfold blit. rewrite T1, T2, T7. case_match eqn:Hc.
      - apply andb_true_iff in Hc. rewrite (proj2 (andb_true_iff _ _)) by lia. f_equal. lia.
      - apply andb_false_iff in Hc. rewrite T9. unfold PSI_SIZE. 
        destruct ((buf <=? b) && (b <? buf + (rb ar - 24))) eqn:Hd.
        + apply andb_true_iff in Hd. rewrite (proj2 (andb_true_iff _ _)) by lia. done.
        + apply andb_false_iff in Hd. rewrite (proj2 (andb_false_iff _ _)) by lia. done. }
    cbn [rb goal]. destruct (Z.ltb_spec (rb ar + m) (24 + ps_nr_pages p * PAGE_SIZE)) as [Hlt|Hge].
    + left. eexists _, _, _. split; [done|]. split; [|cbn; lia]. split; cbn; try done.
      * unfold reply_size, PSI_SIZE, avail, skip in *. cbn. split_and!; [done|lia|done|lia].
      * unfold reply_size, PSI_SIZE. lia.
      * right. unfold PSI_SIZE. lia.
      * rewrite E2. done.
      * intros j Hj. apply T8. unfold PSI_SIZE in *. lia.
    + rewrite (proj2 (Z.ltb_ge _ _)) by lia. right. rewrite (header_of ar s mem T Hh).
      destruct Hp as (_ & Hp2 & _). rewrite (s32_id (ps_nr_pages p)) by lia.
      eexists _, _, _. split; [done|]. cbn. split_and!; try done; [|lia].
      intros b. rewrite Hmem. unfold PSI_SIZE. replace (rb ar + m - 24) with (ps_nr_pages p * PAGE_SIZE) by lia. done.
Qed.

Lemma taken_init s :
  s_data s = f -> s_rd s = o -> s_wr s = w -> reply_size <= avail s -> taken (init_ps_async_read buf req) s mem0.
Proof.
  intros H1 H2 Hw H3. unfold reply_size, PSI_SIZE in *. split; cbn; try done.
  - unfold reply_size, PSI_SIZE. split_and!; try done; lia.
  - unfold reply_size, PSI_SIZE. plia.
  - by left.
  - intros j Hj. lia.
  - intros b. unfold PSI_SIZE. rewrite (proj2 (andb_false_iff _ _)) by lia. done.
Qed.

Context `{!RecvKernelLive K}.

(** how many bytes a live kernel delivers *)
Definition got (t : clock) (need : Z) : Z := match k_recv t need with RN m => m | _ => 0 end.

Lemma got_ok t need : 1 <= need -> k_recv t need = RN (got t need) /\ 1 <= got t need.
Proof. intros H. destruct (recv_pos t need H) as (m & Hm & ?). unfold got. by rewrite Hm. Qed.

Definition reply_done (s' : stream) (mem' : Z -> Z) : Prop :=
  filled mem' /\ s_data s' = f /\ s_rd s' = o + reply_size /\ s_wr s' = w.

Lemma sync_loop_ok fuel ar t s mem :
  complete (s32 (ps_dst_id p)) (ps_vaddr p) (ps_nr_pages p) <> 1 ->
  taken ar s mem -> (Z.to_nat (reply_size - rb ar) <= fuel)%nat ->
  exists t' s' mem', sync_loop complete fuel ar (t, s, mem) =
      Done (complete (s32 (ps_dst_id p)) (ps_vaddr p) (ps_nr_pages p), (t', s', mem')) /\
    reply_done s' mem'.
Proof.
  intros Hc1. revert ar t s mem. induction fuel as [|fuel IH]; intros ar t s mem T Hf.
  { destruct T as [_ ? _ _ _ _ _]. lia. }
  cbn [sync_loop].
  destruct (read_step false ar t s mem (got t) T (got_ok t))
    as [(ar' & s' & mem' & -> & T' & Hlt)|(ar' & s' & mem' & -> & Hd)].
  - rewrite Z.eqb_refl. destruct (IH ar' (S t) s' mem' T') as (t2 & s2 & mem2 & -> & D).
    { lia. }
    by eexists _, _, _.
  - rewrite (proj2 (Z.eqb_neq _ _)) by done. by eexists _, _, _.
Qed.

(** [k] poll events, as long as none fails *)
Fixpoint poll (k : nat) : M (ast * list ps_async_read) Z :=
  match k with
  | O => ret 0
  | S k => r <~ page_server_async_read complete ;; if r =? 0 then poll k else ret r
  end.

Lemma poll_ok fuel ar q t s mem :
  complete (s32 (ps_dst_id p)) (ps_vaddr p) (ps_nr_pages p) = 0 ->
  taken ar s mem -> (Z.to_nat (reply_size - rb ar) <= fuel)%nat ->
  exists k t' s' mem', (k <= fuel)%nat /\ poll k ((t, s, mem), ar :: q) = Done (0, ((t', s', mem'), q)) /\
    reply_done s' mem'.
Proof.
  intros Hc1. revert ar t s mem. induction fuel as [|fuel IH]; intros ar t s mem T Hf.
  { destruct T as [_ ? _ _ _ _ _]. lia. }
  destruct (read_step true ar t s mem (got t) T (got_ok t))
    as [(ar' & s' & mem' & Hrun & T' & Hlt)|(ar' & s' & mem' & Hrun & Hd)].
  - destruct (IH ar' (S t) s' mem' T') as (k & t2 & s2 & mem2 & Hk & Hp2 & D).
    { lia. }
    exists (S k), t2, s2, mem2. split; [lia|]. split; [|done]. cbn [poll]. unfold bind, page_server_async_read.
    rewrite Hrun. cbn. exact Hp2.
  - exists 1%nat, (S t), s', mem'. split; [lia|]. split; [|done]. cbn [poll]. unfold bind, page_server_async_read.
    rewrite Hrun, Hc1. done.
Qed.

End Spec.

(** ** A reply of two pages to a request for three, received in pieces of at most 3000 bytes *)
Definition demo_recv_kernel : RecvKernel := {| k_recv := fun t n => RN (if Nat.even t then Z.min n 3000 else Z.min n 7) |}.

#[export] Instance demo_recv_kernel_ok : RecvKernelOk demo_recv_kernel.
Proof. constructor. simpl. intros t n m Hn. destruct (Nat.even t); intros [= <-]; lia. Qed.
#[export] Instance demo_recv_kernel_live : RecvKernelLive demo_recv_kernel.
Proof. constructor. simpl. intros t n Hn. eexists. split; [done|]. destruct (Nat.even t); lia. Qed.

Definition demo_reply : page_server_iov := mk_psi (encode_ps_cmd PS_IOV_ADD_F PE_PRESENT) 2 65536 42.
Definition demo_reply_data (i : Z) : Z := if i <? 24 then psi_bytes demo_reply i else i mod 251.

Lemma demo_reply_ok : psi_ok demo_reply.
Proof. unfold psi_ok. split_and!; vm_compute; congruence. Qed.

(** ** The properties *)

(** a synchronous read of remote pages ends and delivers the reply: the pages the server
    returned, which may be fewer than requested, are stored at the buffer whatever pieces they
    arrive in, nothing else is written, exactly the reply is consumed from the socket, and the
    completion callback is called with what the header says. *)
Theorem page_server_start_sync_read_spec {K : RecvKernel} `{!RecvKernelOk K} `{!RecvKernelLive K}
    complete f o w p buf req mem t fuel :
  psi_ok p -> (forall j, 0 <= j < PSI_SIZE -> f (o + j) = psi_bytes p j) ->
  1 <= ps_nr_pages p <= req -> req < 2 ^ 18 ->
  complete (s32 (ps_dst_id p)) (ps_vaddr p) (ps_nr_pages p) <> 1 ->
  o + reply_size p <= w -> (Z.to_nat (reply_size p) <= fuel)%nat ->
  exists t' s' mem',
    page_server_start_sync_read complete fuel buf req (t, mk_stream f o w, mem) =
      Done (complete (s32 (ps_dst_id p)) (ps_vaddr p) (ps_nr_pages p), (t', s', mem')) /\
    filled f o p buf mem mem' /\ s_rd s' = o + reply_size p /\ s_wr s' = w.
Proof.
  intros Hp Hh Hn Hr Hc Hw Hf.
  destruct (sync_loop_ok complete f o w p buf req mem Hp Hh Hn Hr fuel (init_ps_async_read buf req) t
              (mk_stream f o w) mem Hc) as (t' & s' & mem' & H1 & H2 & _ & H3 & H4).
  - apply taken_init; try done. unfold avail. simpl. lia.
  - cbn. rewrite Z.sub_0_r. done.
  - by exists t', s', mem'.
Qed.

Lemma page_server_start_sync_read_witness :
  exists t' s' mem',
    @page_server_start_sync_read demo_recv_kernel (fun _ _ _ => 0) (Z.to_nat 9000) 500000 3
      (0%nat, mk_stream demo_reply_data 0 20000, fun _ => 7) =
      Done (0, (t', s', mem')) /\
    filled demo_reply_data 0 demo_reply 500000 (fun _ => 7) mem' /\
    s_rd s' = 0 + reply_size demo_reply /\ s_wr s' = 20000.
Proof.
  apply (@page_server_start_sync_read_spec demo_recv_kernel _ _ (fun _ _ _ => 0) demo_reply_data 0 20000
           demo_reply 500000 3 (fun _ => 7) 0%nat (Z.to_nat 9000)).
  - exact demo_reply_ok.
  - intros j Hj. unfold demo_reply_data. rewrite (proj2 (Z.ltb_lt _ _)) by (unfold PSI_SIZE in Hj; lia). done.
  - simpl. lia.
  - lia.
  - lia.
  - vm_compute. congruence.
  - apply Nat.leb_le. vm_compute. reflexivity.
Defined.

(** asynchronous requests are answered in the order in which they were queued: after some poll
    events the first request of the queue has its pages, and the next one is the first. *)
Theorem page_server_async_read_spec {K : RecvKernel} `{!RecvKernelOk K} `{!RecvKernelLive K}
    complete f o w p buf req mem t q :
  psi_ok p -> (forall j, 0 <= j < PSI_SIZE -> f (o + j) = psi_bytes p j) ->
  1 <= ps_nr_pages p <= req -> req < 2 ^ 18 ->
  complete (s32 (ps_dst_id p)) (ps_vaddr p) (ps_nr_pages p) = 0 -> o + reply_size p <= w ->
  exists k t' s' mem', (k <= Z.to_nat (reply_size p))%nat /\
    poll complete k ((t, mk_stream f o w, mem), init_ps_async_read buf req :: q) = Done (0, ((t', s', mem'), q)) /\
    filled f o p buf mem mem' /\ s_data s' = f /\ s_rd s' = o + reply_size p /\ s_wr s' = w.
Proof.
  intros Hp Hh Hn Hr Hc Hw.
  destruct (poll_ok complete f o w p buf req mem Hp Hh Hn Hr (Z.to_nat (reply_size p)) (init_ps_async_read buf req)
              q t (mk_stream f o w) mem Hc) as (k & t' & s' & mem' & Hk & H1 & H2).
  - apply taken_init; try done. unfold avail. simpl. lia.
  - cbn. rewrite Z.sub_0_r. done.
  - by exists k, t', s', mem'.
Qed.

Lemma page_server_async_read_witness :
  exists k t' s' mem', (k <= Z.to_nat (reply_size demo_reply))%nat /\
    @poll demo_recv_kernel (fun _ _ _ => 0) k
      ((0%nat, mk_stream demo_reply_data 0 20000, fun _ => 7), [init_ps_async_read 500000 3; init_ps_async_read 600000 1]) =
      Done (0, ((t', s', mem'), [init_ps_async_read 600000 1])) /\
    filled demo_reply_data 0 demo_reply 500000 (fun _ => 7) mem' /\ s_data s' = demo_reply_data /\
    s_rd s' = 0 + reply_size demo_reply /\ s_wr s' = 20000.
Proof.
  apply (@page_server_async_read_spec demo_recv_kernel _ _ (fun _ _ _ => 0) demo_reply_data 0 20000
           demo_reply 500000 3 (fun _ => 7) 0%nat [init_ps_async_read 600000 1]).
  - exact demo_reply_ok.
  - intros j Hj. unfold demo_reply_data. rewrite (proj2 (Z.ltb_lt _ _)) by (unfold PSI_SIZE in Hj; lia). done.
  - simpl. lia.
  - lia.
  - reflexivity.
  - vm_compute. congruence.
Defined.

(** a synchronous read from a page server that has closed the connection never ends: recv
    returns 0, the request is never complete, and it is tried again. *)
Theorem closed_connection_spins {K : RecvKernel} complete fuel ar t s mem :
  (forall t n, k_recv t n = RN 0) -> rb ar < goal ar -> rb ar < PSI_SIZE -> 0 <= avail s ->
  sync_loop complete fuel ar (t, s, mem) = NoFuel.
Proof.
  intros Hk. revert ar t s mem. induction fuel as [|fuel IH]; intros ar t s mem Hg Hh Ha; [done|].
  cbn [sync_loop]. unfold page_server_read. rewrite Hk, Z.min_l by lia.
  rewrite (proj2 (Z.ltb_lt (rb ar) PSI_SIZE)) by lia. cbn [rb goal].
  rewrite (proj2 (Z.ltb_lt _ _)) by lia. rewrite Z.eqb_refl. apply IH; cbn; try lia.
  unfold avail, skip in *. cbn. lia.
Qed.

Lemma closed_connection_spins_witness :
  @sync_loop {| k_recv := fun _ _ => RN 0 |} (fun _ _ _ => 0) 100 (init_ps_async_read 4096 1)
    (0%nat, empty_stream, fun _ => 0) = NoFuel.
Proof.
  apply closed_connection_spins; [reflexivity|vm_compute; reflexivity|vm_compute; reflexivity|vm_compute; congruence].
Defined.

End AsyncRead.
