(* ===== verification/Drain.v ===== *)
(** * Getting the pages into the pipes (criu/pie/parasite.c [dump_pages], criu/mem.c
    [drain_pages], criu/shmem.c [dump_pages])

    The iovecs of a page pipe only name pages.  The pages of another task are put
    into the pipes by the parasite, which vmsplices the iovecs of one buffer after the
    other, at most UIO_MAXIOV at a time, from the array it shares with the dumper; the
    dumper vmsplices the pages of a shared memory segment, which it maps, itself. *)
From S2P Require Import Prelude.
From S2P Require Import PagePipe.
From S2P Require Import Pagemap.
From S2P Require Import PageXfer.
Import PagePipe.PagePipe Pagemap.Pagemap PageXfer.PageXfer.

Module Drain.
Open Scope cmon_scope.

Definition UIO_MAXIOV : Z := 1024.

(** [k_vmsplice t n bytes]: what vmsplice of [n] iovecs of [bytes] bytes answers;
    [k_rpc t]: a call over the control socket of the parasite succeeds *)
Class SpliceKernel := {
  k_vmsplice : clock -> Z -> Z -> Z;
  k_rpc : clock -> bool;
}.
(** vmsplice(2): -1, or a number of bytes not above those described *)
Class SpliceKernelOk (K : SpliceKernel) : Prop := {
  vmsplice_le : forall t n b, 0 <= b -> k_vmsplice t n b <= b;
}.
(** a kernel that has room in the pipes, and a parasite that is alive *)
Class SpliceKernelLive (K : SpliceKernel) : Prop := {
  vmsplice_all : forall t n b, n <= UIO_MAXIOV -> k_vmsplice t n b = b;
  rpc_ok : forall t, k_rpc t = true;
}.

(** [struct parasite_dump_pages_args] with the iovecs that follow it ([pargs_iovs]) *)
Record dump_pages_args := mk_args {
  da_off : Z;
  da_nr_segs : Z;
  da_nr_pages : Z;
  da_iovs : list iovec;
}.

(** [n] iovecs from the [i]-th on, if the array has them *)
Definition iov_slice (l : list iovec) (i n : Z) : option (list iovec) :=
  if (0 <=? i) && (0 <=? n) && (i + n <=? Z.of_nat (length l))
  then Some (take (Z.to_nat n) (drop (Z.to_nat i) l)) else None.

Section Splice.
Context {K : SpliceKernel}.
Variable mem : Z -> Z.            (* the memory the iovecs point into *)

(** the pipe is named by its read end; a failed call returns a negative number *)
Definition do_vmsplice (fd : Z) (l : list iovec) : M (clock * gmap Z stream) Z :=
  fun '(t, ps) =>
    let r := k_vmsplice t (Z.of_nat (length l)) (bytes_of l) in
    if r <? 0 then Done (-1, (S t, ps))
    else Done (r, (S t, <[fd := push (pipe_at ps fd) (gather mem l) 0 r]> ps)).

(** the [while (1)] of the parasite's [dump_pages] *)
Fixpoint vms_loop (fuel : nat) (args : dump_pages_args) (p off nr_segs spliced_bytes : Z)
  : M (clock * gmap Z stream) Z :=
  match fuel with
  | O => fun _ => NoFuel
  | S fuel =>
    match iov_slice (da_iovs args) (da_off args + off) nr_segs with
    | None => bug
    | Some l =>
      r <~ do_vmsplice p l ;;
      if r <? 0 then ret (-1)
      else
        let spliced_bytes := u64 (spliced_bytes + r) in
        let off := off + nr_segs in
        if off =? da_nr_segs args then
          ret (if spliced_bytes =? u64 (da_nr_pages args * PAGE_SIZE) then 0 else -1)
        else
          let nr_segs := if da_nr_segs args <? off + nr_segs then da_nr_segs args - off else nr_segs in
          vms_loop fuel args p off nr_segs spliced_bytes
    end
  end.

(** [dump_pages] of the parasite; [p]: the descriptor that was sent.  The fuel: every turn
    but the last takes an iovec. *)
Definition parasite_dump_pages (args : dump_pages_args) (p : Z) : M (clock * gmap Z stream) Z :=
  fun '(t, ps) =>
    if negb (k_rpc t) then Done (-1, (S t, ps))
    else
      let nr_segs := s32 (da_nr_segs args) in
      let nr_segs := if UIO_MAXIOV <? nr_segs then UIO_MAXIOV else nr_segs in
      vms_loop (S (Z.to_nat (da_nr_segs args))) args p 0 nr_segs 0 (S t, ps).

(** the loop of [drain_pages]; the parasite shares [args] with the dumper.  [ppb->p[1]] is the
    other end of the pipe whose read end is [p0]. *)
Fixpoint drain_loop (pp : page_pipe) (l : list nat) (args : dump_pages_args)
  : M (clock * gmap Z stream) (Z * dump_pages_args) :=
  match l with
  | [] => ret (0, args)
  | id :: l =>
    match pp_heap pp !! id with
    | None => bug
    | Some ppb =>
      fun '(t, ps) =>
        let args := mk_args (da_off args) (nr_segs ppb) (pages_in ppb) (da_iovs args) in
        if negb (k_rpc t) then Done ((-1, args), (S t, ps))
        else if negb (k_rpc (S t)) then Done ((-1, args), (S (S t), ps))
        else
          (r <~ parasite_dump_pages args (p0 ppb) ;;
           if r <? 0 then ret (-1, args)
           else drain_loop pp l (mk_args (u32 (da_off args + da_nr_segs args)) (da_nr_segs args)
                                         (da_nr_pages args) (da_iovs args))) (S (S t), ps)
    end
  end.

Definition drain_pages (pp : page_pipe) (args : dump_pages_args)
  : M (clock * gmap Z stream) (Z * dump_pages_args) :=
  drain_loop pp (bufs pp) args.

(** the loop of [dump_pages] of shmem.c *)
Fixpoint shmem_splice (pp : page_pipe) (l : list nat) : M (clock * gmap Z stream) Z :=
  match l with
  | [] => ret 0
  | id :: l =>
    match pp_heap pp !! id with
    | None => bug
    | Some ppb =>
      match iov_slice (iovs pp) (ppb_iov ppb) (nr_segs ppb) with
      | None => bug
      | Some v =>
        r <~ do_vmsplice (p0 ppb) v ;;
        if negb (u64 r =? u64 (pages_in ppb * PAGE_SIZE)) then ret (-1) else shmem_splice pp l
      end
    end
  end.
End Splice.

(** ** A buffer's pages end up in its pipe *)

Lemma appended_ext s s' f g off off' n :
  appended s s' f off n -> (forall i, 0 <= i < n -> f (off + i) = g (off' + i)) -> appended s s' g off' n.
Proof.
  intros (H1 & H2 & H3 & H4) Hx. split_and!; try done. intros i Hi. rewrite H3 by done. by apply Hx.
Qed.

Lemma pipe_at_insert ps fd p fd' : pipe_at (<[fd := p]> ps) fd' = if fd =? fd' then p else pipe_at ps fd'.
Proof.
  unfold pipe_at. destruct (Z.eqb_spec fd fd') as [<-|]; [by rewrite lookup_insert_eq|].
  by rewrite lookup_insert_ne.
Qed.

Lemma bytes_nonneg_of l : Forall (fun v => 0 <= iov_len v) l -> 0 <= bytes_of l.
Proof. induction 1; simpl; lia. Qed.

(** the pipes other than [fd] are as before *)
Definition only_pipe (fd : Z) (ps ps' : gmap Z stream) : Prop :=
  forall fd', fd' <> fd -> pipe_at ps' fd' = pipe_at ps fd'.

Lemma iov_slice_sub l i n j m L :
  iov_slice l i n = Some L -> 0 <= j -> 0 <= m -> j + m <= n ->
  iov_slice l (i + j) m = Some (take (Z.to_nat m) (drop (Z.to_nat j) L)).
Proof.
  unfold iov_slice. intros H Hj Hm Hn.
  destruct (_ && _) eqn:E in H; [|done]. injection H as <-.
  rewrite (proj2 (andb_true_iff _ _)); [|split; [apply andb_true_iff|]; lia]. f_equal.
  replace (Z.to_nat n) with (Z.to_nat j + Z.to_nat (n - j))%nat by lia.
  rewrite <-take_drop_commute, take_take, drop_drop. do 2 f_equal; lia.
Qed.

Lemma iov_slice_length l i n L : iov_slice l i n = Some L -> Z.of_nat (length L) = n /\ 0 <= n.
Proof.
  unfold iov_slice. intros H. destruct (_ && _) eqn:E in H; [|done]. injection H as <-.
  rewrite length_take, length_drop. lia.
Qed.

Section SpliceOk.
Context {K : SpliceKernel} `{!SpliceKernelOk K}.
Variable mem : Z -> Z.

(** [spliced] bytes of the first [off] iovecs of [L] were moved: all of them, and they follow
    what the pipe [base] held, or fewer *)
Definition moved (base : stream) (L : list iovec) (off : Z) (spliced : Z) (p : stream) : Prop :=
  (spliced = bytes_of (take (Z.to_nat off) L) /\
   appended base p (gather mem L) 0 (bytes_of (take (Z.to_nat off) L))) \/
  0 <= spliced < bytes_of (take (Z.to_nat off) L).

Lemma moved_step base L off k spliced p r :
  Forall (fun v => 0 <= iov_len v) L -> 0 <= off -> 0 <= k ->
  moved base L off spliced p ->
  let S := take (Z.to_nat k) (drop (Z.to_nat off) L) in
  0 <= r <= bytes_of S -> moved base L (off + k) (spliced + r) (push p (gather mem S) 0 r).
Proof.
  intros HL Ho Hk Hm S Hr. unfold moved in *.
  assert (Ht : take (Z.to_nat (off + k)) L = take (Z.to_nat off) L ++ S).
  { unfold S. rewrite Z2Nat.inj_add by lia. by rewrite take_take_drop. }
  rewrite Ht, bytes_of_app. set (n := bytes_of (take (Z.to_nat off) L)) in *.
  assert (0 <= n) by (apply bytes_nonneg_of; by apply Forall_take).
  destruct Hm as [[-> Ha]|Hm]; [|right; lia].
  destruct (Z.eq_dec r (bytes_of S)) as [->|]; [|right; lia].
  left. split; [done|]. eapply appended_trans; [done|exact Ha|].
  eapply appended_ext; [apply appended_push|]. intros i Hi. rewrite !Z.add_0_l.
  rewrite <-(take_drop (Z.to_nat off) L) at 1. rewrite gather_concat; [|by apply Forall_take|lia].
  fold n. rewrite (proj2 (Z.ltb_ge _ _)) by lia. replace (n + i - n) with i by lia.
  rewrite <-(take_drop (Z.to_nat k) (drop (Z.to_nat off) L)). fold S.
  rewrite gather_concat; [|by apply Forall_take, Forall_drop|lia].
  by rewrite (proj2 (Z.ltb_lt _ _)) by lia.
Qed.

(** what [dump_pages] may return: an error, or 0 with all the pages of [L] in the pipe *)
Definition spliced_all (fd : Z) (L : list iovec) (ps : gmap Z stream) (r : Z) (ps' : gmap Z stream) : Prop :=
  only_pipe fd ps ps' /\
  (r = -1 \/ r = 0 /\ appended (pipe_at ps fd) (pipe_at ps' fd) (gather mem L) 0 (bytes_of L)).

Lemma vms_loop_ok fuel args fd base ps0 off k spliced t ps L :
  iov_slice (da_iovs args) (da_off args) (da_nr_segs args) = Some L ->
  Forall (fun v => 0 <= iov_len v) L -> bytes_of L = da_nr_pages args * PAGE_SIZE -> bytes_of L < 2 ^ 63 ->
  0 <= off -> 0 <= k -> off + k <= da_nr_segs args -> (0 < k \/ off + k = da_nr_segs args) ->
  (Z.to_nat (da_nr_segs args - off) < fuel)%nat ->
  moved base L off spliced (pipe_at ps fd) -> base = pipe_at ps0 fd -> only_pipe fd ps0 ps ->
  exists r t' ps', vms_loop mem fuel args fd off k spliced (t, ps) = Done (r, (t', ps')) /\
    spliced_all fd L ps0 r ps'.
Proof.
  intros HL Hpos Hbytes Hlim. revert off k spliced t ps.
  induction fuel as [|fuel IH]; intros off k spliced t ps Ho Hk Hok Hor Hf Hm Hb Honly; [lia|].
  cbn [vms_loop]. rewrite (iov_slice_sub _ _ _ off k L HL) by lia.
  set (S := take (Z.to_nat k) (drop (Z.to_nat off) L)).
  assert (HS : Forall (fun v => 0 <= iov_len v) S) by (by apply Forall_take, Forall_drop).
  assert (Hle : bytes_of (take (Z.to_nat (off + k)) L) <= bytes_of L).
  { rewrite <-(take_drop (Z.to_nat (off + k)) L) at 2. rewrite bytes_of_app.
    pose proof (bytes_nonneg_of _ (Forall_drop _ (Z.to_nat (off + k)) _ Hpos)). lia. }
  unfold bind, do_vmsplice. pose proof (vmsplice_le t (Z.of_nat (length S)) (bytes_of S) (bytes_nonneg_of _ HS)).
  set (r := k_vmsplice _ _ _) in *. destruct (Z.ltb_spec r 0) as [Hr|Hr]; cbn [Z.ltb].
  { eexists _, _, _. split; [done|]. split; [done|]. by left. }
  rewrite (proj2 (Z.ltb_ge r 0)) by lia.
  pose proof (moved_step base L off k spliced (pipe_at ps fd) r Hpos Ho Hk Hm ltac:(fold S; lia)) as Hm'.
  fold S in Hm'.
  assert (Honly' : only_pipe fd ps0 (<[fd := push (pipe_at ps fd) (gather mem S) 0 r]> ps)).
  { intros fd' Hn. rewrite pipe_at_insert, (proj2 (Z.eqb_neq _ _)) by done. by apply Honly. }
  assert (Hsp : u64 (spliced + r) = spliced + r).
  { apply u64_id. pose proof (bytes_nonneg_of _ (Forall_take _ (Z.to_nat off) _ Hpos)).
    unfold moved in Hm, Hm'. cbv zeta in Hm, Hm'. lia. }
  rewrite Hsp. destruct (Z.eqb_spec (off + k) (da_nr_segs args)) as [He|Hne].
  - eexists _, _, _. split; [done|]. split; [done|].
    rewrite u64_id by (pose proof (bytes_nonneg_of _ Hpos); lia). rewrite <-Hbytes.
    assert (Hall : take (Z.to_nat (off + k)) L = L).
    { apply take_ge. destruct (iov_slice_length _ _ _ _ HL). lia. }
    unfold moved in Hm'. rewrite Hall in Hm'. destruct Hm' as [[-> Ha]|Hm']; [|left].
    + rewrite Z.eqb_refl. right. split; [done|]. by rewrite pipe_at_insert, Z.eqb_refl, <-Hb.
    + by rewrite (proj2 (Z.eqb_neq _ _)) by lia.
  - apply IH; try done; try lia.
    + case_match; lia.
    + case_match; lia.
    + destruct (Z.ltb_spec (da_nr_segs args) (off + k + k)); lia.
    + by rewrite pipe_at_insert, Z.eqb_refl.
Qed.

Lemma parasite_dump_pages_ok args fd t ps L :
  iov_slice (da_iovs args) (da_off args) (da_nr_segs args) = Some L ->
  Forall (fun v => 0 <= iov_len v) L -> bytes_of L = da_nr_pages args * PAGE_SIZE -> bytes_of L < 2 ^ 63 ->
  da_nr_segs args < 2 ^ 31 ->
  exists r t' ps', parasite_dump_pages mem args fd (t, ps) = Done (r, (t', ps')) /\ spliced_all fd L ps r ps'.
Proof.
  intros HL Hpos Hb Hlim Hn. unfold parasite_dump_pages.
  destruct (iov_slice_length _ _ _ _ HL) as [_ Hn0].
  destruct (k_rpc t); cbn [negb].
  2: { eexists _, _, _. split; [done|]. split; [done|by left]. }
  rewrite s32_id by lia. eapply (vms_loop_ok _ args fd (pipe_at ps fd) ps); try done; try lia.
  - case_match; unfold UIO_MAXIOV; lia.
  - unfold UIO_MAXIOV. case_match; lia.
  - unfold UIO_MAXIOV. destruct (Z.ltb_spec 1024 (da_nr_segs args)); lia.
  - left. split; [done|]. apply appended_0.
Qed.

Lemma vms_loop_live `{!SpliceKernelLive K} fuel args fd off k spliced t ps L :
  iov_slice (da_iovs args) (da_off args) (da_nr_segs args) = Some L ->
  Forall (fun v => 0 <= iov_len v) L -> bytes_of L = da_nr_pages args * PAGE_SIZE -> bytes_of L < 2 ^ 63 ->
  0 <= off -> 0 <= k <= UIO_MAXIOV -> off + k <= da_nr_segs args -> (0 < k \/ off + k = da_nr_segs args) ->
  (Z.to_nat (da_nr_segs args - off) < fuel)%nat -> spliced = bytes_of (take (Z.to_nat off) L) ->
  exists t' ps', vms_loop mem fuel args fd off k spliced (t, ps) = Done (0, (t', ps')).
Proof.
  intros HL Hpos Hbytes Hlim. revert off k spliced t ps.
  induction fuel as [|fuel IH]; intros off k spliced t ps Ho Hk Hok Hor Hf Hsp; [lia|].
  cbn [vms_loop]. rewrite (iov_slice_sub _ _ _ off k L HL) by lia.
  set (S := take (Z.to_nat k) (drop (Z.to_nat off) L)).
  assert (HS : 0 <= bytes_of S) by (by apply bytes_nonneg_of, Forall_take, Forall_drop).
  assert (Ht : bytes_of (take (Z.to_nat (off + k)) L) = spliced + bytes_of S).
  { rewrite Z2Nat.inj_add, <-take_take_drop, bytes_of_app by lia. unfold S. lia. }
  assert (Hle : bytes_of (take (Z.to_nat (off + k)) L) <= bytes_of L).
  { rewrite <-(take_drop (Z.to_nat (off + k)) L) at 2. rewrite bytes_of_app.
    pose proof (bytes_nonneg_of _ (Forall_drop _ (Z.to_nat (off + k)) _ Hpos)). lia. }
  assert (0 <= spliced) by (subst; by apply bytes_nonneg_of, Forall_take).
  unfold bind, do_vmsplice. rewrite vmsplice_all.
  2: { unfold S. rewrite length_take. lia. }
  rewrite (proj2 (Z.ltb_ge _ 0)) by lia. rewrite (proj2 (Z.ltb_ge _ 0)) by lia. rewrite u64_id by lia.
  destruct (Z.eqb_spec (off + k) (da_nr_segs args)) as [He|Hne].
  - rewrite u64_id by (pose proof (bytes_nonneg_of _ Hpos); lia).
    rewrite take_ge in Ht by (destruct (iov_slice_length _ _ _ _ HL); lia).
    rewrite (proj2 (Z.eqb_eq _ _)) by lia. by eexists _, _.
  - apply IH; try done; try lia.
    + case_match; lia.
    + case_match; lia.
    + destruct (Z.ltb_spec (da_nr_segs args) (off + k + k)); lia.
Qed.

Lemma parasite_dump_pages_live `{!SpliceKernelLive K} args fd t ps L :
  iov_slice (da_iovs args) (da_off args) (da_nr_segs args) = Some L ->
  Forall (fun v => 0 <= iov_len v) L -> bytes_of L = da_nr_pages args * PAGE_SIZE -> bytes_of L < 2 ^ 63 ->
  da_nr_segs args < 2 ^ 31 ->
  exists t' ps', parasite_dump_pages mem args fd (t, ps) = Done (0, (t', ps')).
Proof.
  intros HL Hpos Hb Hlim Hn. unfold parasite_dump_pages.
  destruct (iov_slice_length _ _ _ _ HL) as [_ Hn0]. rewrite rpc_ok. cbn [negb].
  rewrite s32_id by lia. eapply vms_loop_live; try done; try lia;
    unfold UIO_MAXIOV; destruct (Z.ltb_spec 1024 (da_nr_segs args)); lia.
Qed.

(** ** A whole page pipe *)

Lemma appended_gather s s1 s2 L1 L2 :
  Forall (fun v => 0 <= iov_len v) L1 ->
  appended s s1 (gather mem L1) 0 (bytes_of L1) -> appended s1 s2 (gather mem L2) 0 (bytes_of L2) ->
  appended s s2 (gather mem (L1 ++ L2)) 0 (bytes_of (L1 ++ L2)).
Proof.
  intros H1 A1 A2. rewrite bytes_of_app. pose proof (bytes_nonneg_of _ H1).
  eapply appended_trans; [done| |].
  - eapply appended_ext; [exact A1|]. intros i Hi. rewrite gather_concat by (done || lia).
    by rewrite (proj2 (Z.ltb_lt _ _)) by lia.
  - eapply appended_ext; [exact A2|]. intros i Hi. rewrite gather_concat by (done || lia).
    rewrite (proj2 (Z.ltb_ge _ _)) by lia. f_equal. lia.
Qed.

(** the iovecs of the buffers [l] whose pages go to the pipe [fd] *)
Definition bufs_iovs (pp : page_pipe) (fd : Z) (l : list nat) : list iovec :=
  l ≫= fun id => match pp_heap pp !! id with
                 | Some b => if p0 b =? fd then segs pp b else []
                 | None => []
                 end.

Lemma segs_le_pages l : Forall iov_ok l -> (length l <= length (l ≫= iov_pages))%nat.
Proof.
  clear mem. induction 1 as [|v l Hv _ IH]; [done|]. csimpl. rewrite length_app.
  destruct Hv as (?&?&?&?&?). pose proof (iov_pages_length v ltac:(lia) ltac:(done)). unfold PAGE_SIZE in *. lia.
Qed.

Lemma buf_slice pp id b :
  wf pp -> id ∈ bufs pp -> pp_heap pp !! id = Some b ->
  iov_slice (iovs pp) (ppb_iov b) (nr_segs b) = Some (segs pp b) /\
  Forall (fun v => 0 <= iov_len v) (segs pp b) /\ bytes_of (segs pp b) = pages_in b * PAGE_SIZE /\
  bytes_of (segs pp b) < 2 ^ 63 /\ nr_segs b < 2 ^ 31 /\ ppb_iov b + nr_segs b < 2 ^ 32.
Proof.
  clear mem. intros W Hid Hb. destruct (wf_bufs pp W id b Hid Hb) as (H1 & H2 & H3 & Hok & Hpg & (H4 & H5 & H6 & H7)).
  destruct (wf_len pp W) as (Hl & Hf & Hm).
  assert (Hby : bytes_of (segs pp b) = pages_in b * PAGE_SIZE) by (rewrite Hpg; by apply bytes_of_pages).
  assert (Hlen : Z.of_nat (length (segs pp b)) = nr_segs b)
    by (unfold segs; rewrite length_take, length_drop; lia).
  pose proof (segs_le_pages _ Hok).
  split_and!; [|eapply Forall_impl; [|exact Hok]; intros v (?&?&_); lia|done|plia|lia|lia].
  unfold iov_slice. rewrite (proj2 (andb_true_iff _ _)); [done|]. split; [apply andb_true_iff|]; lia.
Qed.

Lemma bufs_iovs_pos pp fd l :
  wf pp -> (forall id, id ∈ l -> id ∈ bufs pp) -> Forall (fun v => 0 <= iov_len v) (bufs_iovs pp fd l).
Proof.
  clear mem. intros W Hl. apply list.Forall_forall. intros v (id & Hv & Hid)%list_elem_of_bind.
  destruct (pp_heap pp !! id) as [b|] eqn:Hb; [|by apply elem_of_nil in Hv].
  destruct (p0 b =? fd); [|by apply elem_of_nil in Hv].
  destruct (buf_slice pp id b W (Hl _ Hid) Hb) as (_ & Hp & _). rewrite list.Forall_forall in Hp. by apply Hp.
Qed.

(** every pipe got the pages of its buffers, in order *)
Definition drained (pp : page_pipe) (l : list nat) (ps ps' : gmap Z stream) : Prop :=
  forall fd, appended (pipe_at ps fd) (pipe_at ps' fd) (gather mem (bufs_iovs pp fd l)) 0 (bytes_of (bufs_iovs pp fd l)).

Lemma drained_cons pp id b l ps ps1 ps2 :
  wf pp -> id ∈ bufs pp -> pp_heap pp !! id = Some b ->
  only_pipe (p0 b) ps ps1 ->
  appended (pipe_at ps (p0 b)) (pipe_at ps1 (p0 b)) (gather mem (segs pp b)) 0 (bytes_of (segs pp b)) ->
  drained pp l ps1 ps2 -> drained pp (id :: l) ps ps2.
Proof.
  intros W Hid Hb Ho Ha Hd fd. specialize (Hd fd). unfold bufs_iovs in *. rewrite bind_cons, Hb.
  destruct (Z.eqb_spec (p0 b) fd) as [<-|Hn].
  - destruct (buf_slice pp id b W Hid Hb) as (_ & Hp & _). by eapply appended_gather.
  - rewrite (Ho fd) in Hd by done. exact Hd.
Qed.
Lemma drain_loop_ok pp l args t ps e :
  wf pp -> (forall id, id ∈ l -> id ∈ bufs pp) -> da_iovs args = iovs pp ->
  layout (pp_heap pp) l (da_off args) = Some e ->
  exists r args' t' ps', drain_loop mem pp l args (t, ps) = Done ((r, args'), (t', ps')) /\
    (r = -1 \/ r = 0 /\ da_off args' = e /\ da_iovs args' = iovs pp /\ drained pp l ps ps') /\
    (SpliceKernelLive K -> r = 0).
Proof.
  intros W. revert args t ps. induction l as [|id l IH]; intros args t ps Hl Hi He.
  { cbn in He |- *. injection He as He. eexists _, _, _, _. split; [done|]. split; [|done].
    right. split_and!; try done. intros fd. apply appended_0. }
  cbn [drain_loop layout] in *. destruct (pp_heap pp !! id) as [b|] eqn:Hb; [|done].
  destruct (Z.eqb_spec (ppb_iov b) (da_off args)) as [Ho|]; [|done].
  assert (Hid : id ∈ bufs pp) by (apply Hl, list_elem_of_here).
  destruct (buf_slice pp id b W Hid Hb) as (HS & Hp & Hby & Hlim & Hn & Hfi).
  destruct (k_rpc t) eqn:R1; cbn [negb].
  2: { eexists _, _, _, _. split; [done|]. split; [by left|]. intros [_ Hr]. congruence. }
  destruct (k_rpc (S t)) eqn:R2; cbn [negb].
  2: { eexists _, _, _, _. split; [done|]. split; [by left|]. intros [_ Hr]. congruence. }
  set (a := mk_args (da_off args) (nr_segs b) (pages_in b) (da_iovs args)).
  destruct (parasite_dump_pages_ok a (p0 b) (S (S t)) ps (segs pp b)) as (r & t1 & ps1 & Hd & Hall);
    try done; [cbn; by rewrite Hi, <-Ho|].
  rewrite (bind_Done _ _ _ _ _ Hd). destruct Hall as [Honly [->|[-> Happ]]]; cbn [Z.ltb Z.compare].
  { eexists _, _, _, _. split; [done|]. split; [by left|]. intros Hlive.
    destruct (parasite_dump_pages_live a (p0 b) (S (S t)) ps (segs pp b)) as (t2 & ps2 & Hd2);
      try done; [cbn; by rewrite Hi, <-Ho|]. congruence. }
  destruct (wf_bufs pp W id b Hid Hb) as (H1 & H2 & _).
  destruct (IH (mk_args (u32 (da_off a + da_nr_segs a)) (da_nr_segs a) (da_nr_pages a) (da_iovs a)) t1 ps1)
    as (r & args' & t' & ps' & -> & Hr & Hlive); [|done| |].
  { intros i Hi'. apply Hl. by apply list_elem_of_further. }
  { cbn. rewrite u32_id by lia. exact He. }
  eexists _, _, _, _. split; [done|]. split; [|exact Hlive].
  destruct Hr as [->|(-> & E1 & E2 & E3)]; [by left|]. right. split_and!; try done.
  by eapply drained_cons.
Qed.

Lemma drain_pages_ok pp args t ps :
  wf pp -> da_iovs args = iovs pp -> packed (da_off args) pp ->
  exists r args' t' ps', drain_pages mem pp args (t, ps) = Done ((r, args'), (t', ps')) /\
    (r = -1 \/ r = 0 /\ da_off args' = free_iov pp /\ da_iovs args' = iovs pp /\ drained pp (bufs pp) ps ps') /\
    (SpliceKernelLive K -> r = 0).
Proof. intros W Hi Hp. by apply drain_loop_ok. Qed.

Lemma shmem_splice_ok pp l t ps :
  wf pp -> (forall id, id ∈ l -> id ∈ bufs pp) ->
  exists r t' ps', shmem_splice mem pp l (t, ps) = Done (r, (t', ps')) /\
    (r = -1 \/ r = 0 /\ drained pp l ps ps') /\
    (SpliceKernelLive K -> (forall id b, id ∈ l -> pp_heap pp !! id = Some b -> nr_segs b <= UIO_MAXIOV) -> r = 0).
Proof.
  intros W. revert t ps. induction l as [|id l IH]; intros t ps Hl.
  { cbn. eexists _, _, _. split; [done|]. split; [|done]. right. split; [done|]. intros fd. apply appended_0. }
  cbn [shmem_splice].
  assert (Hid : id ∈ bufs pp) by (apply Hl, list_elem_of_here).
  destruct (wf_alloc pp W id) as [[b Hb] _]; [apply elem_of_app; by left|]. rewrite Hb.
  destruct (buf_slice pp id b W Hid Hb) as (HS & Hp & Hby & Hlim & _). rewrite HS.
  destruct (wf_bufs pp W id b Hid Hb) as (_ & _ & _ & _ & _ & (? & _)).
  unfold bind, do_vmsplice. pose proof (vmsplice_le t (Z.of_nat (length (segs pp b))) (bytes_of (segs pp b))
    (bytes_nonneg_of _ Hp)) as Hle.
  destruct (iov_slice_length _ _ _ _ HS) as [Hsl _].
  set (r := k_vmsplice _ _ _) in *. rewrite (u64_id (pages_in b * PAGE_SIZE)) by plia.
  destruct (Z.ltb_spec r 0) as [Hr|Hr].
  { rewrite (proj2 (Z.eqb_neq _ _)) by (change (u64 (-1)) with (2 ^ 64 - 1); plia).
    eexists _, _, _. split; [done|]. split; [by left|]. intros Hlive Hs.
    specialize (Hs id b (list_elem_of_here _ _) Hb). unfold r in Hr. rewrite vmsplice_all in Hr by lia. plia. }
  rewrite u64_id by lia. destruct (Z.eqb_spec r (pages_in b * PAGE_SIZE)) as [Hr'|Hr']; cbn [negb].
  2: { eexists _, _, _. split; [done|]. split; [by left|]. intros Hlive Hs.
       specialize (Hs id b (list_elem_of_here _ _) Hb). unfold r in Hr'. rewrite vmsplice_all in Hr' by lia. lia. }
  destruct (IH (S t) (<[p0 b := push (pipe_at ps (p0 b)) (gather mem (segs pp b)) 0 r]> ps))
    as (q & t' & ps' & -> & Hq & Hlive).
  { intros i Hi. apply Hl. by apply list_elem_of_further. }
  eexists _, _, _. split; [done|]. split.
  - destruct Hq as [->|[-> Hd]]; [by left|right]. split; [done|].
    eapply (drained_cons pp id b l ps); [done|done|done| | |exact Hd].
    + intros fd Hn. rewrite pipe_at_insert. by rewrite (proj2 (Z.eqb_neq _ _)).
    + rewrite pipe_at_insert, Z.eqb_refl, Hby, <-Hr'. apply appended_push.
  - intros HL Hs. apply Hlive; [done|]. intros i c Hi. apply Hs. by apply list_elem_of_further.
Qed.

(** *** The pipes then hold what the transfer expects *)
Lemma bufs_iovs_segs pp fd :
  fd_iovs fd (ISeg <$> pp_segs true pp) = bufs_iovs pp fd (bufs pp).
Proof.
  clear mem. unfold pp_segs, bufs_iovs, fd_iovs. induction (bufs pp) as [|id l IH]; [done|].
  rewrite !bind_cons, fmap_app, bind_app, IH. f_equal. unfold buf_segs.
  destruct (pp_heap pp !! id) as [b|]; [|done].
  assert (Hpr : has (ppb_xfer_flags true b) PE_PRESENT = true).
  { rewrite ppb_xfer_present. unfold transferred. by destruct (has _ _). }
  induction (segs pp b) as [|v s IHs]; [by destruct (p0 b =? fd)|].
  rewrite !fmap_cons, bind_cons, IHs. cbn. rewrite Hpr. cbn. by destruct (p0 b =? fd).
Qed.

Lemma drained_hold pp ps ps' :
  wf pp -> (forall fd, avail (pipe_at ps fd) = 0) -> drained pp (bufs pp) ps ps' ->
  pipes_hold mem ps' (ISeg <$> pp_segs true pp) /\
  forall fd, avail (pipe_at ps' fd) = bytes_of (fd_iovs fd (ISeg <$> pp_segs true pp)).
Proof.
  intros W Hz Hd.
  assert (Ha : forall fd, avail (pipe_at ps' fd) = bytes_of (fd_iovs fd (ISeg <$> pp_segs true pp))).
  { intros fd. rewrite bufs_iovs_segs. destruct (Hd fd) as (D1 & D2 & _). specialize (Hz fd). unfold avail in *. lia. }
  split; [|exact Ha]. intros fd Hne. specialize (Ha fd). rewrite bufs_iovs_segs in *.
  destruct (Hd fd) as (D1 & D2 & D3 & _).
  assert (Hpos : 0 < bytes_of (bufs_iovs pp fd (bufs pp))).
  { destruct (bufs_iovs pp fd (bufs pp)) as [|v L] eqn:E; [done|].
    assert (Hin : v ∈ bufs_iovs pp fd (bufs pp)) by (rewrite E; apply list_elem_of_here).
    pose proof (bufs_iovs_pos pp fd (bufs pp) W (fun _ H => H)) as Hp. rewrite E in Hp.
    apply Forall_cons_1 in Hp as [_ Hp]. pose proof (bytes_nonneg_of _ Hp).
    apply list_elem_of_bind in Hin as (id & Hv & Hid). destruct (pp_heap pp !! id) as [b|] eqn:Hb; [|by apply elem_of_nil in Hv].
    destruct (p0 b =? fd); [|by apply elem_of_nil in Hv].
    destruct (wf_bufs pp W id b Hid Hb) as (_ & _ & _ & Hok & _). rewrite list.Forall_forall in Hok.
    destruct (Hok v Hv) as (_ & ? & _). cbn. fold (bytes_of L). lia. }
  unfold pipe_at in *. destruct (ps' !! fd) as [p|] eqn:Hp; [|change (0 = bytes_of (bufs_iovs pp fd (bufs pp))) in Ha; lia].
  exists p. split; [done|]. change (default empty_stream (Some p)) with p in *. split; [lia|]. intros i Hi. specialize (Hz fd). unfold avail in Hz.
  rewrite D1. replace (s_rd _) with (s_wr (default empty_stream (ps !! fd))) by lia. by rewrite D3.
Qed.
End SpliceOk.

(** draining the pages of a page pipe whose pipes are empty returns; when it returns 0 every
    pipe holds the memory of its buffers' iovecs, in their order, ready for the transfer and
    nothing more, and the next buffers use the iovecs after these; with room in the pipes and a
    parasite that answers it returns 0, also when a buffer has more iovecs than one vmsplice(2) takes. *)
Theorem drain_pages_spec {K : SpliceKernel} `{!SpliceKernelOk K} (mem : Z -> Z) pp args t ps :
  wf pp -> da_iovs args = iovs pp -> packed (da_off args) pp -> (forall fd, avail (pipe_at ps fd) = 0) ->
  exists r args' t' ps', drain_pages mem pp args (t, ps) = Done ((r, args'), (t', ps')) /\
    (r = -1 \/
     r = 0 /\ da_off args' = free_iov pp /\ da_iovs args' = iovs pp /\
     pipes_hold mem ps' (ISeg <$> pp_segs true pp) /\
     forall fd, avail (pipe_at ps' fd) = bytes_of (fd_iovs fd (ISeg <$> pp_segs true pp))) /\
    (SpliceKernelLive K -> r = 0).
Proof.
  intros W Hi Hp Hz. destruct (drain_pages_ok mem pp args t ps W Hi Hp) as (r & args' & t' & ps' & E & Hr & Hl).
  exists r, args', t', ps'. split_and!; [done| |done].
  destruct Hr as [->|(-> & H1 & H2 & H3)]; [by left|right]. destruct (drained_hold mem pp ps ps' W Hz H3). done.
Qed.

Definition demo_splice_kernel : SpliceKernel := {| k_vmsplice := fun _ _ b => b; k_rpc := fun _ => true |}.
#[export] Instance demo_splice_ok : SpliceKernelOk demo_splice_kernel.
Proof. constructor. intros. cbn. lia. Qed.
#[export] Instance demo_splice_live : SpliceKernelLive demo_splice_kernel.
Proof. constructor; done. Qed.

Lemma drain_pages_witness :
  exists r args' t' ps',
    @drain_pages demo_splice_kernel demo_mem demo_xfer_pp (mk_args 0 0 0 (iovs demo_xfer_pp)) (0%nat, ∅) = Done ((r, args'), (t', ps')) /\
    (r = -1 \/
     r = 0 /\ da_off args' = free_iov demo_xfer_pp /\ da_iovs args' = iovs demo_xfer_pp /\
     pipes_hold demo_mem ps' (ISeg <$> pp_segs true demo_xfer_pp) /\
     forall fd, avail (pipe_at ps' fd) = bytes_of (fd_iovs fd (ISeg <$> pp_segs true demo_xfer_pp))) /\
    (SpliceKernelLive demo_splice_kernel -> r = 0).
Proof.
  apply (@drain_pages_spec demo_splice_kernel demo_splice_ok demo_mem demo_xfer_pp (mk_args 0 0 0 (iovs demo_xfer_pp)) 0%nat ∅).
  - apply demo_xfer_pp_wf.
  - reflexivity.
  - vm_compute. reflexivity.
  - intros fd. reflexivity.
Defined.
End Drain.
