(* ===== verification/LazyIovs.v ===== *)
(** * The lists of ranges of the lazy-pages daemon (criu/uffd.c)

    The daemon keeps, for every task that it serves, the ranges of memory that are still to be filled: [start] and [end]
    are where a range is now, [img_start] where it was when it was dumped.  The task may unmap, move and inherit
    memory while it is served, so that ranges are split, dropped, moved and copied. *)
From stdpp Require Import sorting.
From S2P Require Import Prelude.
From S2P Require Import Pagemap.
Import Pagemap.Pagemap.

Module LazyIovs.

Record lazy_iov := mk_li { li_start : Z; li_end : Z; li_img : Z }.

Definition li_len (v : lazy_iov) : Z := li_end v - li_start v.
Definition set_li_end (v : lazy_iov) (e : Z) : lazy_iov := mk_li (li_start v) e (li_img v).

Section Ops.
Context {K : ReadKernel}.

(** the index of the range *)
Fixpoint find_iov (l : list lazy_iov) (addr : Z) : option nat :=
  match l with
  | [] => None
  | v :: l => if (li_start v <=? addr) && (addr <? li_end v) then Some O else S <$> find_iov l addr
  end.

(** the range, cut at [addr], and the new one after it *)
Definition split_iov (v : lazy_iov) (addr : Z) (t : clock) : option (lazy_iov * lazy_iov) * clock :=
  if negb (k_xmalloc t) then (None, S t)
  else (Some (set_li_end v addr, mk_li addr (li_end v) (u64 (li_img v + addr - li_start v))), S t).

(** [None] when the list was left as it is *)
Fixpoint insert_loop (new : lazy_iov) (dst : list lazy_iov) : option (list lazy_iov) :=
  match dst with
  | [] => None
  | v :: rest =>
    if li_start new <? li_start v then Some (new :: dst)
    else
      match rest with
      | [] => if li_start v <? li_start new then Some [v; new] else None
      | _ => cons v <$> insert_loop new rest
      end
  end.
Definition iov_list_insert (new : lazy_iov) (dst : list lazy_iov) : option (list lazy_iov) :=
  match dst with [] => Some [new] | _ => insert_loop new dst end.

(** what stays in [src], and [dst] *)
Fixpoint merge_iov_lists (src dst : list lazy_iov) : list lazy_iov * list lazy_iov :=
  match src with
  | [] => ([], dst)
  | v :: src =>
    match iov_list_insert v dst with
    | Some dst => merge_iov_lists src dst
    | None => let (s, dst) := merge_iov_lists src dst in (v :: s, dst)
    end
  end.

Fixpoint copy_iov_list (src : list lazy_iov) (t : clock) : Z * list lazy_iov * clock :=
  match src with
  | [] => (0, [], t)
  | v :: src =>
    if negb (k_xmalloc t) then (-1, [], S t)
    else let '(r, l, t) := copy_iov_list src (S t) in (r, v :: l, t)
  end.

(** [__drop_iovs]; [len] is an [int] *)
Fixpoint drop_loop (l : list lazy_iov) (addr len : Z) (t : clock) : Z * list lazy_iov * clock :=
  match l with
  | [] => (0, [], t)
  | v :: rest =>
    if (len <=? 0) || (u64 (addr + len) <? li_start v) then (0, l, t)
    else if li_end v <=? addr then let '(r, rest, t) := drop_loop rest addr len t in (r, v :: rest, t)
    else
      let len := if addr <? li_start v then s32 (len - (li_start v - addr)) else len in
      let addr := Z.max addr (li_start v) in
      if u64 (addr + len) <? li_end v then
        if addr =? li_start v then (0, mk_li (u64 (li_start v + len)) (li_end v) (u64 (li_img v + len)) :: rest, t)
        else
          match split_iov v (u64 (addr + len)) t with
          | (None, t) => (-1, l, t)
          | (Some (v1, v2), t) => (0, set_li_end v1 addr :: v2 :: rest, t)
          end
      else
        let '(r, rest, t) := drop_loop rest (li_end v) (s32 (len - (li_end v - addr))) t in
        (r, if addr =? li_start v then rest else set_li_end v addr :: rest, t)
  end.

(** the index of the range in the list; the index of the extracted one *)
Definition extract_range (l : list lazy_iov) (i : nat) (start end_ : Z) (t : clock) : option nat * list lazy_iov * clock :=
  match l !! i with
  | None => (None, l, t)
  | Some v =>
    let '(ok, v, tail, t) :=
      if end_ <? li_end v then
        match split_iov v end_ t with
        | (Some (v1, v2), t) => (true, v1, [v2], t)
        | (None, t) => (false, v, [], t)
        end
      else (true, v, [], t) in
    if negb ok then (None, l, t)
    else if start =? li_start v then (Some i, take i l ++ [v] ++ tail ++ drop (S i) l, t)
    else
      match split_iov v start t with
      | (Some (v1, v2), t) => (Some (S i), take i l ++ [v1; v2] ++ tail ++ drop (S i) l, t)
      | (None, t) => (None, take i l ++ [v] ++ tail ++ drop (S i) l, t)
      end
  end.

(** [__remap_iovs]: the ranges that stay, and those that move *)
Fixpoint remap_loop (fuel : nat) (l : list lazy_iov) (from len off : Z) (remaps : list lazy_iov) (t : clock)
  : res (Z * list lazy_iov * list lazy_iov * clock) :=
  match l with
  | [] => Done (0, [], remaps, t)
  | v :: rest =>
    match fuel with
    | O => NoFuel
    | S fuel =>
      if li_end v <=? from then
        let* (r, kept, remaps, t) := remap_loop fuel rest from len off remaps t in Done (r, v :: kept, remaps, t)
      else if (len <=? 0) || (u64 (from + len) <=? li_start v) then Done (0, l, remaps, t)
      else
        let len := if from <? li_start v then u64 (len - (li_start v - from)) else len in
        let from := Z.max from (li_start v) in
        if li_start v <? from then
          match split_iov v from t with
          | (None, t) => Done (-1, l, remaps, t)
          | (Some (v1, v2), t) =>
            let* (r, kept, remaps, t) := remap_loop fuel (v2 :: rest) from len off remaps t in Done (r, v1 :: kept, remaps, t)
          end
        else
          let '(ok, v, tail, t) :=
            if u64 (from + len) <? li_end v then
              match split_iov v (u64 (from + len)) t with
              | (Some (v1, v2), t) => (true, v1, [v2], t)
              | (None, t) => (false, v, [], t)
              end
            else (true, v, [], t) in
          if negb ok then Done (-1, l, remaps, t)
          else
            remap_loop fuel (tail ++ rest) (li_end v) (u64 (len - li_len v)) off
              (remaps ++ [mk_li (u64 (li_start v + off)) (u64 (li_end v + off)) (li_img v)]) t
    end
  end.

Definition remap_one (l : list lazy_iov) (from to len : Z) (t : clock) : res (Z * list lazy_iov * clock) :=
  let* (r, kept, remaps, t) := remap_loop (2 * length l + 2) l from len (u64 (to - from)) [] t in
  if negb (r =? 0) then Done (r, kept, t) else Done (0, snd (merge_iov_lists remaps kept), t).
End Ops.

(** ** What the ranges say *)
(** byte [a] of the task is still to be filled, with byte [i] of the dumped memory *)
Definition here (v : lazy_iov) (a i : Z) : Prop := li_start v <= a < li_end v /\ i = li_img v + (a - li_start v).
Definition holds (l : list lazy_iov) (a i : Z) : Prop := exists v, v ∈ l /\ here v a i.

Definition LIMIT : Z := 2 ^ 62.
Definition li_ok (v : lazy_iov) : Prop :=
  0 <= li_start v < li_end v /\ li_end v <= LIMIT /\ 0 <= li_img v /\ li_img v + li_len v <= LIMIT /\
  aligned (li_start v) /\ aligned (li_end v) /\ aligned (li_img v).
Definition below (v w : lazy_iov) : Prop := li_end v <= li_start w.
(** in the order of their addresses, apart *)
Definition wf (l : list lazy_iov) : Prop := Forall li_ok l /\ StronglySorted below l.

(** [v] is a part of [w] *)
Definition part (v w : lazy_iov) : Prop :=
  li_start w <= li_start v /\ li_end v <= li_end w /\ li_img v = li_img w + (li_start v - li_start w).
(** every range of [l'] is a part of one of [l] *)
Definition inside (l' l : list lazy_iov) : Prop := forall v, v ∈ l' -> exists w, w ∈ l /\ part v w.

Lemma holds_nil a i : holds [] a i <-> False.
Proof. split; [|done]. by intros (v & ?%elem_of_nil & _). Qed.
Lemma holds_cons v l a i : holds (v :: l) a i <-> here v a i \/ holds l a i.
Proof.
  unfold holds. split.
  - intros (w & [->|Hw]%elem_of_cons & H); [by left|right; by exists w].
  - intros [H|(w & Hw & H)]; [exists v|exists w]; (split; [|done]); [apply list_elem_of_here|by apply list_elem_of_further].
Qed.
Lemma holds_app l k a i : holds (l ++ k) a i <-> holds l a i \/ holds k a i.
Proof.
  induction l as [|v l IH]; cbn [app]; [rewrite holds_nil; tauto|]. rewrite !holds_cons, IH. tauto.
Qed.
Lemma holds_perm l k a i : l ≡ₚ k -> holds l a i <-> holds k a i.
Proof. intros H. split; intros (v & Hv & ?); exists v; (split; [|done]); [by rewrite <-H|by rewrite H]. Qed.

Lemma wf_cons v l : wf (v :: l) <-> li_ok v /\ Forall (below v) l /\ wf l.
Proof.
  unfold wf. rewrite list.Forall_cons. split.
  - intros [[H1 H2] H3]. apply StronglySorted_inv in H3 as [H3 H4]. done.
  - intros (H1 & H2 & H3 & H4). split; [done|]. by constructor.
Qed.
Lemma wf_nil : wf [].
Proof. split; constructor. Qed.

Lemma inside_below v l l' : inside l' l -> Forall (below v) l -> Forall (below v) l'.
Proof.
  intros Hin Hb. apply list.Forall_forall. intros w Hw. destruct (Hin w Hw) as (u & Hu & H1 & _).
  rewrite list.Forall_forall in Hb. specialize (Hb u Hu). unfold below in *. lia.
Qed.
Lemma inside_refl l : inside l l.
Proof. intros v Hv. exists v. split; [done|unfold part; lia]. Qed.
Lemma inside_more l' l v : inside l' l -> inside l' (v :: l).
Proof. intros H w Hw. destruct (H w Hw) as (u & Hu & ?). exists u. split; [by apply list_elem_of_further|done]. Qed.
Lemma inside_cons v' l' v l : part v' v -> inside l' (v :: l) -> inside (v' :: l') (v :: l).
Proof. intros H1 H w [->|Hw]%elem_of_cons; [|by apply H]. exists v. split; [apply list_elem_of_here|done]. Qed.
Lemma part_refl v : part v v.
Proof. unfold part. lia. Qed.
Lemma part_trans u v w : part u v -> part v w -> part u w.
Proof. unfold part. lia. Qed.
Lemma inside_trans l1 l2 l3 : inside l1 l2 -> inside l2 l3 -> inside l1 l3.
Proof.
  intros H1 H2 v Hv. destruct (H1 v Hv) as (w & Hw & P1). destruct (H2 w Hw) as (u & Hu & P2). exists u. split; [done|by eapply part_trans].
Qed.

Lemma holds_in_order v l a i : Forall (below v) l -> Forall li_ok l -> holds l a i -> li_end v <= a.
Proof.
  intros Hb Hf (w & Hw & [Ha _]). rewrite list.Forall_forall in Hb. specialize (Hb w Hw). unfold below in Hb. lia.
Qed.

(** in a well-formed list a byte is to be filled with one byte only *)
Lemma holds_unique l a i j : wf l -> holds l a i -> holds l a j -> i = j.
Proof.
  induction l as [|v l IH]; [by rewrite holds_nil|]. intros (Hv & Hb & Hw)%wf_cons. rewrite !holds_cons.
  intros [[Hi ->]|Hi] [[Hj ->]|Hj]; [done| | |by apply IH].
  - pose proof (holds_in_order v l a j Hb (proj1 Hw) Hj). lia.
  - pose proof (holds_in_order v l a i Hb (proj1 Hw) Hi). lia.
Qed.

Lemma find_iov_ok l a : match find_iov l a with
  | Some i => exists v, l !! i = Some v /\ li_start v <= a < li_end v
  | None => forall i, ~ holds l a i
  end.
Proof.
  induction l as [|v l IH]; cbn [find_iov]; [by intros i ?%holds_nil|].
  destruct ((li_start v <=? a) && (a <? li_end v)) eqn:E.
  - apply andb_true_iff in E as [?%Z.leb_le ?%Z.ltb_lt]. by exists v.
  - destruct (find_iov l a) as [i|]; cbn; [done|]. intros i. rewrite holds_cons. intros [[? _]|?]; [|by apply (IH i)].
    rewrite (proj2 (Z.leb_le _ _)), (proj2 (Z.ltb_lt _ _)) in E by lia. done.
Qed.

(** ** Splitting and dropping *)
Section Specs.
Context {K : ReadKernel}.

Lemma split_ok v addr t : li_ok v -> li_start v < addr < li_end v -> aligned addr -> exists t',
  split_iov v addr t = (None, t') /\ k_xmalloc t = false \/
  exists v2, split_iov v addr t = (Some (set_li_end v addr, v2), t') /\ k_xmalloc t = true /\
    li_ok (set_li_end v addr) /\ li_ok v2 /\ li_start v2 = addr /\ li_end v2 = li_end v /\
    (forall a i, here v a i <-> here (set_li_end v addr) a i \/ here v2 a i) /\ li_img v2 = li_img v + (addr - li_start v).
Proof.
  intros (H1 & H2 & H3 & H4 & H5 & H6 & H7) Ha Hal. unfold split_iov. destruct (k_xmalloc t); cbn [negb]; eexists; [right|by left].
  assert (Hu : u64 (li_img v + addr - li_start v) = li_img v + (addr - li_start v)).
  { unfold LIMIT, li_len in *. rewrite u64_id; lia. }
  eexists. split; [reflexivity|]. rewrite Hu. unfold li_ok, set_li_end, li_len, here in *. cbn.
  assert (Ha' : aligned (li_img v + (addr - li_start v))) by (unfold aligned in *; pdiv).
  split_and!; try done; try lia.
Qed.

Definition in_range (addr len a : Z) : Prop := addr <= a < addr + len.

Lemma drop_iov_loop_ok l : forall addr len t, wf l -> 0 <= addr -> 0 <= len < 2 ^ 31 -> addr + len <= LIMIT -> aligned addr -> aligned len ->
  exists r l' t', drop_loop l addr len t = (r, l', t') /\
    (r = -1 /\ (exists t, k_xmalloc t = false) \/
     r = 0 /\ wf l' /\ inside l' l /\ forall a i, holds l' a i <-> holds l a i /\ ~ in_range addr len a).
Proof.
  induction l as [|v l IH]; intros addr len t Hwf Ha Hl Hal Haa Hla; cbn [drop_loop].
  { eexists _, _, _. split; [done|]. right. split_and!; [done|done|apply inside_refl|]. intros a i. rewrite holds_nil. tauto. }
  pose proof Hwf as (Hv & Hb & Hwl)%wf_cons. pose proof Hv as (V1 & V2 & V3 & V4 & V5 & V6 & V7).
  assert (Hlim : LIMIT < 2 ^ 63) by done. rewrite (u64_id (addr + len)) by lia.
  destruct (Z.leb_spec len 0) as [Hz|Hnz]; cbn [orb].
  { eexists _, _, _. split; [done|]. right. split_and!; [done|done|apply inside_refl|]. intros a i. unfold in_range. split; [intros ?; split; [done|lia]|tauto]. }
  destruct (Z.ltb_spec (addr + len) (li_start v)) as [Hbf|Hbf].
  { eexists _, _, _. split; [done|]. right. split_and!; [done|done|apply inside_refl|]. intros a i. split; [|tauto]. intros Hh. split; [done|].
    rewrite holds_cons in Hh. destruct Hh as [[Hx _]|Hh]; [unfold in_range; lia|].
    pose proof (holds_in_order v l a i Hb (proj1 Hwl) Hh). unfold in_range. lia. }
  destruct (Z.leb_spec (li_end v) addr) as [Haf|Haf].
  { destruct (IH addr len t Hwl Ha Hl Hal Haa Hla) as (r & l' & t' & -> & Hr). eexists _, _, _. split; [done|].
    destruct Hr as [?|(-> & H1 & H2 & H3)]; [by left|right]. split_and!; [done| | |].
    - apply wf_cons. split; [done|]. split; [by eapply inside_below|done].
    - apply inside_cons; [apply part_refl|by apply inside_more].
    - intros a i. rewrite !holds_cons, H3. unfold here, in_range. split; [|tauto]. intros [H|H]; [|tauto]. split; [by left|lia]. }
  assert (Hs32 : s32 (len - (li_start v - addr)) = len - (li_start v - addr) \/ li_start v <= addr) by (unfold s32; destruct (Z.le_gt_cases (li_start v) addr); [by right|left; rewrite Z.mod_small; lia]).
  set (A := Z.max addr (li_start v)). set (L := if addr <? li_start v then s32 (len - (li_start v - addr)) else len).
  assert (HAL : A + L = addr + len /\ 0 <= L <= len /\ li_start v <= A < li_end v /\ (addr < li_start v /\ A = li_start v \/ li_start v <= addr /\ A = addr) /\ aligned A /\ aligned L).
  { unfold A, L. destruct (Z.ltb_spec addr (li_start v)); [destruct Hs32 as [->|]; [|lia]|]; unfold aligned in *; split_and!; try lia; pdiv. }
  clearbody A L. destruct HAL as (E1 & E2 & E3 & E4 & E5 & E6). clear Hs32. cbn zeta. rewrite E1, (u64_id (addr + len)) by lia.
  assert (Hrest : forall a i, holds l a i -> li_end v <= a) by (intros a i; by apply holds_in_order; [|apply Hwl]).
  destruct (Z.ltb_spec (addr + len) (li_end v)) as [Hin|Hout].
  - destruct (Z.eqb_spec A (li_start v)) as [HA|HA].
    + eexists _, _, _. split; [done|]. right. split; [done|]. unfold LIMIT, li_len in *. rewrite !u64_id by lia.
      set (v' := mk_li _ _ _). assert (Hv' : li_ok v') by (unfold li_ok, v', li_len, LIMIT; cbn; unfold aligned in *; split_and!; (lia || pdiv)).
      split; [by apply wf_cons|]. split; [apply inside_cons; [unfold part; cbn; lia|by apply inside_more, inside_refl]|].
      intros a i. rewrite !holds_cons. unfold here, in_range, v'. cbn. split.
      * intros [H|H]; [split; [left|]; lia|split; [by right|]; specialize (Hrest a i H); lia].
      * intros [[H|H] Hn]; [left; lia|by right].
    + destruct (split_ok v (addr + len) t Hv ltac:(lia) ltac:(unfold aligned in *; pdiv)) as (t' & [[-> Hm]|(v2 & -> & _ & W1 & W2 & W3 & W4 & W5 & W6)]).
      { eexists _, _, _. split; [done|]. left. split; [done|by exists t]. }
      eexists _, _, _. split; [done|]. right. split; [done|].
      assert (HA' : A = addr) by lia. subst A. set (v1 := set_li_end (set_li_end v (addr + len)) addr).
      assert (Hv1 : li_ok v1) by (unfold li_ok, v1, li_len in *; cbn; unfold LIMIT in *; split_and!; (lia || done)).
      split; [|split].
      * assert (Hbw : forall w, li_end w <= li_end v -> Forall (below w) l) by (intros w Hw; eapply Forall_impl; [|exact Hb]; unfold below; intros; lia).
        apply wf_cons. split; [done|]. split; [constructor; [unfold below; cbn; lia|apply Hbw; cbn; lia]|].
        apply wf_cons. split; [done|]. split; [apply Hbw; lia|done].
      * apply inside_cons; [unfold part; cbn; lia|]. apply inside_cons; [unfold part; lia|by apply inside_more, inside_refl].
      * intros a i. rewrite !holds_cons, W5. unfold in_range. assert (Hv1' : here v1 a i <-> here (set_li_end v (addr + len)) a i /\ a < addr) by (unfold here, v1; cbn; lia).
        assert (H2 : here v2 a i -> addr + len <= a) by (unfold here; lia). assert (H1 : here (set_li_end v (addr + len)) a i -> a < addr + len) by (unfold here; cbn; lia).
        rewrite Hv1'. split.
        -- intros [[H Hlt]|[H|H]]; [split; [tauto|lia]|split; [tauto|specialize (H2 H); lia]|split; [tauto|specialize (Hrest a i H); lia]].
        -- intros [[[H|H]|H] Hn]; [left; split; [done|specialize (H1 H); lia]|tauto|tauto].
  - assert (Hs : s32 (L - (li_end v - A)) = addr + len - li_end v) by (unfold s32; rewrite Z.mod_small; lia). rewrite Hs.
    destruct (IH (li_end v) (addr + len - li_end v) t Hwl ltac:(lia) ltac:(lia) ltac:(lia) V6 ltac:(unfold aligned in *; pdiv)) as (r & l' & t' & -> & Hr).
    eexists _, _, _. split; [done|]. destruct Hr as [?|(-> & H1 & H2 & H3)]; [by left|right]. split; [done|].
    assert (Hin : forall a i, holds l' a i <-> holds l a i /\ ~ in_range addr len a).
    { intros a i. rewrite H3. unfold in_range. split; [intros [H Hn]; split; [done|]; specialize (Hrest a i H); lia|intros [H Hn]; split; [done|lia]]. }
    destruct (Z.eqb_spec A (li_start v)) as [HA|HA].
    + split; [done|]. split; [by apply inside_more|]. intros a i. rewrite holds_cons, Hin. unfold here, in_range. split; [tauto|].
      intros [[H|H] Hn]; [lia|done].
    + assert (HA' : A = addr) by lia. subst A.
      assert (Hv1 : li_ok (set_li_end v addr)) by (unfold li_ok, li_len in *; cbn; unfold LIMIT in *; split_and!; (lia || done)).
      split; [|split].
      * apply wf_cons. split; [done|]. split; [|done]. eapply inside_below; [done|]. eapply Forall_impl; [|exact Hb]. intros w. unfold below. cbn. lia.
      * apply inside_cons; [unfold part; cbn; lia|by apply inside_more].
      * intros a i. rewrite !holds_cons, Hin. unfold here, in_range. cbn. split; [intros [H|H]; [split; [left|]; lia|tauto]|].
        intros [[H|H] Hn]; [left; lia|tauto].
Qed.

(** ** Inserting and merging *)
Definition apart (v w : lazy_iov) : Prop := li_end v <= li_start w \/ li_end w <= li_start v.

Lemma insert_loop_ok new dst : wf dst -> li_ok new -> dst <> [] -> (forall v, v ∈ dst -> apart new v) ->
  exists dst', insert_loop new dst = Some dst' /\ wf dst' /\ dst' ≡ₚ new :: dst.
Proof.
  intros Hwf Hn. assert (Hpos : li_start new < li_end new) by (destruct Hn; lia).
  induction dst as [|v rest IH]; intros Hne Hap; [done|]. pose proof Hwf as (Hv & Hb & Hr)%wf_cons. cbn [insert_loop].
  assert (Hvp : li_start v < li_end v) by (destruct Hv; lia). pose proof (Hap v (list_elem_of_here _ _)) as Hnv.
  destruct (Z.ltb_spec (li_start new) (li_start v)) as [Hlt|Hge].
  - assert (Hbv : below new v) by (unfold below; destruct Hnv; lia). eexists. split; [done|]. split; [|done].
    apply wf_cons. split; [done|]. split; [|done]. constructor; [done|]. eapply Forall_impl; [|exact Hb]. unfold below in *. intros; lia.
  - assert (Hbv : below v new) by (unfold below; destruct Hnv; lia). destruct rest as [|w rest].
    + rewrite (proj2 (Z.ltb_lt _ _)) by (unfold below in *; lia). eexists. split; [done|]. split; [|constructor].
      apply wf_cons. split; [done|]. split; [by constructor|]. apply wf_cons. split; [done|]. split; [constructor|apply wf_nil].
    + destruct (IH Hr) as (d & -> & Hd & Hp); [done|intros u Hu; apply Hap; by apply list_elem_of_further|].
      eexists. split; [done|]. split; [|rewrite Hp; constructor].
      apply wf_cons. split; [done|]. split; [|done]. rewrite Hp. by constructor.
Qed.

Lemma iov_list_insert_ok new dst : wf dst -> li_ok new -> (forall v, v ∈ dst -> apart new v) ->
  exists dst', iov_list_insert new dst = Some dst' /\ wf dst' /\ dst' ≡ₚ new :: dst.
Proof.
  intros Hwf Hn Hap. destruct dst as [|v rest].
  - eexists. split; [done|]. split; [|done]. apply wf_cons. split; [done|]. split; [constructor|apply wf_nil].
  - by apply insert_loop_ok.
Qed.

Lemma apart_sym v w : apart v w -> apart w v.
Proof. unfold apart. tauto. Qed.
Lemma below_apart v l : Forall (below v) l -> forall w, w ∈ l -> apart v w.
Proof. intros Hb w Hw. rewrite list.Forall_forall in Hb. left. by apply Hb. Qed.

Lemma merge_iov_lists_ok src : forall dst, wf dst -> wf src -> (forall v w, v ∈ src -> w ∈ dst -> apart v w) ->
  exists dst', merge_iov_lists src dst = ([], dst') /\ wf dst' /\ dst' ≡ₚ src ++ dst.
Proof.
  induction src as [|v src IH]; intros dst Hd Hs Hap; [by exists dst|]. apply wf_cons in Hs as (Hv & Hb & Hs). cbn [merge_iov_lists].
  destruct (iov_list_insert_ok v dst Hd Hv) as (d1 & -> & Hd1 & Hp1); [intros w Hw; apply Hap; [apply list_elem_of_here|done]|].
  destruct (IH d1 Hd1 Hs) as (d2 & -> & Hd2 & Hp2).
  { intros u w Hu Hw. rewrite Hp1 in Hw. apply elem_of_cons in Hw as [->|Hw]; [apply apart_sym; by eapply below_apart|].
    apply Hap; [by apply list_elem_of_further|done]. }
  exists d2. split; [done|]. split; [done|]. rewrite Hp2, Hp1. cbn. by rewrite Permutation_middle.
Qed.

Lemma copy_iov_list_ok l : forall t, exists r l' t', copy_iov_list l t = (r, l', t') /\
  (r = -1 /\ (exists t, k_xmalloc t = false) \/ r = 0 /\ l' = l).
Proof.
  induction l as [|v l IH]; intros t; cbn [copy_iov_list]; [by exists 0, [], t; split; [|right]|].
  destruct (k_xmalloc t) eqn:E; cbn [negb]; [|eexists _, _, _; split; [done|left; split; [done|by exists t]]].
  destruct (IH (S t)) as (r & l' & t' & -> & Hr). eexists _, _, _. split; [done|]. destruct Hr as [?|[-> ->]]; [by left|by right].
Qed.

(** ** Moving *)
Definition straddles (v : lazy_iov) (a : Z) : Prop := li_start v < a < li_end v.

(** where a range that moved by [d] was *)
Definition shifted (d : Z) (v : lazy_iov) : lazy_iov := mk_li (li_start v - d) (li_end v - d) (li_img v).

(** what [__remap_iovs] takes out of [l] for its second loop: [kept] stay, [moved] are [d] further *)
Record taken_out (l kept moved : list lazy_iov) (from len d : Z) : Prop := {
  to_wf : wf kept /\ inside kept l;
  to_kept : forall a i, holds kept a i <-> holds l a i /\ ~ in_range from len a;
  to_moved_wf : wf moved;
  to_moved_in : forall v, v ∈ moved -> from + d <= li_start v /\ li_end v <= from + len + d;
  to_moved : forall a i, holds moved a i <-> holds l (a - d) i /\ in_range from len (a - d);
  to_src : inside (shifted d <$> moved) l;
}.

Lemma none_taken l from len d : wf l -> (forall a i, holds l a i -> ~ in_range from len a) -> taken_out l l [] from len d.
Proof.
  intros Hw Hn. split.
  - split; [done|apply inside_refl].
  - intros a i. split; [intros H; split; [done|by eapply Hn]|tauto].
  - apply wf_nil.
  - by intros v ?%elem_of_nil.
  - intros a i. rewrite holds_nil. split; [done|]. intros [H1 H2]. by eapply Hn.
  - by intros v ?%elem_of_nil.
Qed.

Lemma taken_skip v l kept moved from len d : li_ok v -> Forall (below v) l -> (forall a, in_range from len a -> ~ li_start v <= a < li_end v) ->
  taken_out l kept moved from len d -> taken_out (v :: l) (v :: kept) moved from len d.
Proof.
  intros Hv Hb Hout [[T1 T1'] T2 T3 T4 T5 T6]. split; [| |done|done| |by apply inside_more].
  - split; [apply wf_cons; split; [done|]; split; [by eapply inside_below|done]|]. apply inside_cons; [apply part_refl|by apply inside_more].
  - intros a i. rewrite !holds_cons, T2. unfold here. split; [|tauto]. intros [H|H]; [|tauto]. split; [by left|]. intros Hr. exact (Hout a Hr (proj1 H)).
  - intros a i. rewrite T5, holds_cons. unfold here. split; [tauto|]. intros [[[H _]|H] Hr]; [|done]. by destruct (Hout _ Hr).
Qed.

(** [v] moves, [l] comes after *)
Lemma taken_move v l kept moved from len d :
  li_ok v -> Forall (below v) l -> wf l -> li_start v = from -> li_end v <= from + len -> 0 <= from + d -> from + len + d <= LIMIT -> aligned d ->
  taken_out l kept moved (li_end v) (from + len - li_end v) d ->
  taken_out (v :: l) kept (mk_li (li_start v + d) (li_end v + d) (li_img v) :: moved) from len d.
Proof.
  intros Hv Hb Hl Hs He H1 H2 Hd [[T1 T1'] T2 T3 T4 T5 T6]. pose proof Hv as (V1 & V2 & V3 & V4 & V5 & V6 & V7). unfold li_len in *.
  assert (Hrest : forall a i, holds l a i -> li_end v <= a) by (intros a i; by apply holds_in_order; [|apply Hl]).
  split.
  - split; [done|by apply inside_more].
  - intros a i. rewrite T2, holds_cons. unfold here, in_range. split.
    + intros [H Hn]. specialize (Hrest a i H). split; [by right|lia].
    + intros [[H|H] Hn]; [lia|]. split; [done|]. lia.
  - apply wf_cons. split; [unfold li_ok, li_len; cbn; unfold aligned in *; split_and!; (lia || pdiv)|]. split; [|done].
    apply list.Forall_forall. intros w Hw. destruct (T4 w Hw). unfold below. cbn. lia.
  - intros w [->|Hw]%elem_of_cons; cbn; [lia|]. destruct (T4 w Hw). lia.
  - intros a i. rewrite !holds_cons, T5. unfold here, in_range. cbn. split.
    + intros [H|[H Hr]]; [split; [left|]; lia|]. split; [by right|lia].
    + intros [[H|H] Hr]; [left; lia|]. specialize (Hrest _ i H). right. split; [done|lia].
  - rewrite fmap_cons. apply inside_cons; [unfold part, shifted; cbn; lia|by apply inside_more].
Qed.

(** a list whose first range is cut *)
Lemma cut_wf v v1 v2 l : li_ok v1 -> li_ok v2 -> li_end v1 = li_start v2 -> li_end v2 = li_end v -> Forall (below v) l -> wf l ->
  wf (v2 :: l) /\ Forall (below v1) (v2 :: l).
Proof.
  intros H1 H2 He E Hb Hl. assert (Hb2 : Forall (below v2) l) by (eapply Forall_impl; [|exact Hb]; unfold below; intros; lia).
  split; [by apply wf_cons|]. constructor; [unfold below; lia|]. eapply Forall_impl; [|exact Hb2]. unfold below. destruct H2. intros; lia.
Qed.

Lemma taken_cut l k l' kept moved from len d : (forall a i, holds l a i <-> holds l' a i) -> (forall k, inside k l' -> inside k l) ->
  taken_out l' kept moved from len d -> k = kept -> taken_out l k moved from len d.
Proof.
  intros Hh Hi [[T1 T1'] T2 T3 T4 T5 T6] ->. split; try done.
  - split; [done|by apply Hi].
  - intros a i. by rewrite T2, Hh.
  - intros a i. by rewrite T5, Hh.
  - by apply Hi.
Qed.

Lemma inside_cut v v1 v2 l k : part v1 v -> part v2 v -> inside k (v1 :: v2 :: l) -> inside k (v :: l).
Proof.
  intros H1 H2 H w Hw. destruct (H w Hw) as (u & Hu & Hs). rewrite !elem_of_cons in Hu.
  destruct Hu as [->|[->|Hu]]; [exists v; split; [apply list_elem_of_here|by eapply part_trans]..|exists u; split; [by apply list_elem_of_further|done]].
Qed.

Lemma taken_from l kept moved from len F L d : taken_out l kept moved F L d -> from <= F -> F + L = from + len ->
  (forall a i, holds l a i -> F <= a) -> taken_out l kept moved from len d.
Proof.
  intros [T1 T2 T3 T4 T5 T6] H1 H2 Hh. split; [done| |done| | |done].
  - intros a i. rewrite T2. unfold in_range. split; intros [H Hn]; (split; [done|]); [specialize (Hh a i H)|]; lia.
  - intros v Hv. destruct (T4 v Hv). lia.
  - intros a i. rewrite T5. unfold in_range. split; intros [H Hn]; (split; [done|]); [|specialize (Hh _ i H)]; lia.
Qed.

(** [s] and [z]: whether a range may have to be cut at [from] and at the end *)
Lemma remap_loop_ok d fuel : forall l from len remaps t s z,
  wf l -> 0 <= from -> 0 <= len -> from + len <= LIMIT -> 0 <= from + d -> from + len + d <= LIMIT ->
  aligned from -> aligned len -> aligned d ->
  (s = 0%nat -> forall v, v ∈ l -> ~ straddles v from) -> (z = 0%nat -> len = 0) -> (length l + s + z <= fuel)%nat ->
  exists r kept moved t', remap_loop fuel l from len (u64 d) remaps t = Done (r, kept, remaps ++ moved, t') /\
    (r = -1 /\ (exists t, k_xmalloc t = false) \/ r = 0 /\ taken_out l kept moved from len d).
Proof.
  assert (Hlim : LIMIT < 2 ^ 63) by done.
  induction fuel as [|fuel IH]; intros l from len remaps t s z Hwf Hf Hl Hfl Hd1 Hd2 Haf Hal Had Hs Hz Hfuel.
  { destruct l as [|v l]; [|cbn in Hfuel; lia]. exists 0, [], [], t. rewrite app_nil_r. split; [done|]. right. split; [done|].
    apply none_taken; [apply wf_nil|]. by intros a i ?%holds_nil. }
  destruct l as [|v l].
  { exists 0, [], [], t. rewrite app_nil_r. split; [done|]. right. split; [done|]. apply none_taken; [apply wf_nil|]. by intros a i ?%holds_nil. }
  cbn [remap_loop]. cbn [length] in Hfuel. pose proof Hwf as (Hv & Hb & Hw)%wf_cons. pose proof Hv as (V1 & V2 & V3 & V4 & V5 & V6 & V7).
  assert (Hrest : forall a i, holds l a i -> li_end v <= a) by (intros a i; by apply holds_in_order; [|apply Hw]).
  assert (Hns : forall w a, w ∈ l -> a <= li_end v -> ~ straddles w a).
  { intros w a Hin Ha. rewrite list.Forall_forall in Hb. specialize (Hb w Hin). unfold below, straddles in *. lia. }
  destruct (Z.leb_spec (li_end v) from) as [Haf'|Haf'].
  { destruct (IH l from len remaps t s z) as (r & kept & moved & t' & -> & Hr); try done; [|lia|].
    { intros Hs0 w Hin. apply Hs; [done|by apply list_elem_of_further]. }
    cbn [rbind]. exists r, (v :: kept), moved, t'. split; [done|]. destruct Hr as [?|[-> HT]]; [by left|right]. split; [done|].
    apply taken_skip; try done. unfold in_range. intros a. lia. }
  rewrite (u64_id (from + len)) by lia.
  destruct (Z.leb_spec len 0) as [Hz0|Hnz]; [|destruct (Z.leb_spec (from + len) (li_start v)) as [Hbf|Hbf]]; cbn [orb].
  { exists 0, (v :: l), [], t. rewrite app_nil_r. split; [done|]. right. split; [done|]. apply none_taken; [done|]. unfold in_range. intros; lia. }
  { exists 0, (v :: l), [], t. rewrite app_nil_r. split; [done|]. right. split; [done|]. apply none_taken; [done|]. intros a i. rewrite holds_cons.
    intros [[? _]|?%Hrest]; unfold in_range; lia. }
  set (F := Z.max from (li_start v)). set (L := if from <? li_start v then u64 (len - (li_start v - from)) else len).
  assert (HFL : F + L = from + len /\ 0 <= L <= len /\ li_start v <= F < li_end v /\
                (from < li_start v /\ F = li_start v \/ li_start v <= from /\ F = from /\ L = len) /\ aligned F /\ aligned L).
  { unfold F, L. destruct (Z.ltb_spec from (li_start v)); [rewrite u64_id by lia|]; unfold aligned in *; split_and!; try lia; pdiv. }
  clearbody F L. destruct HFL as (E1 & E2 & E3 & E4 & E5 & E6). cbn zeta. rewrite E1, (u64_id (from + len)) by lia.
  destruct (Z.ltb_spec (li_start v) F) as [Hcut|Hat].
  - assert (HF : F = from /\ L = len) by (destruct E4 as [?|?]; lia). destruct HF as [-> ->].
    destruct (split_ok v from t Hv ltac:(lia) Haf) as (t1 & [[-> Hm]|(v2 & -> & _ & W1 & W2 & W3 & W4 & W5 & W6)]).
    { exists (-1), (v :: l), [], t1. rewrite app_nil_r. split; [done|]. left. split; [done|by exists t]. }
    destruct s as [|s]; [exfalso; apply (Hs eq_refl v (list_elem_of_here _ _)); unfold straddles; lia|].
    destruct (cut_wf v (set_li_end v from) v2 l W1 W2 ltac:(done) W4 Hb Hw) as [C1 C2].
    destruct (IH (v2 :: l) from len remaps t1 0%nat z) as (r & kept & moved & t' & -> & Hr); try done.
    { intros _ w [->|Hin]%elem_of_cons; [unfold straddles; lia|apply Hns; [done|lia]]. }
    { cbn. lia. }
    cbn [rbind]. exists r, (set_li_end v from :: kept), moved, t'. split; [done|]. destruct Hr as [?|[-> HT]]; [by left|right]. split; [done|].
    eapply (taken_cut (v :: l) _ (set_li_end v from :: v2 :: l)); [| |apply taken_skip; [done|done| |exact HT]|done].
    + intros a i. rewrite !holds_cons, W5. tauto.
    + intros k. apply inside_cut; unfold part; cbn; lia.
    + unfold in_range. cbn. intros a. lia.
  - assert (HF : F = li_start v) by lia. subst F.
    assert (Hge : forall a i, holds (v :: l) a i -> li_start v <= a) by (intros a i; rewrite holds_cons; intros [[? _]|?%Hrest]; lia).
    assert (Hoff : forall x, 0 <= x + d < 2 ^ 64 -> u64 (x + u64 d) = x + d) by (intros x Hx; unfold u64 in *; rewrite Zplus_mod_idemp_r, Z.mod_small; lia).
    destruct (Z.ltb_spec (from + len) (li_end v)) as [Hin|Hout].
    + destruct (split_ok v (from + len) t Hv ltac:(lia) ltac:(unfold aligned in *; pdiv)) as (t1 & [[-> Hm]|(v2 & -> & _ & W1 & W2 & W3 & W4 & W5 & W6)]).
      { exists (-1), (v :: l), [], t1. rewrite app_nil_r. cbn [negb]. split; [done|]. left. split; [done|by exists t]. }
      cbn [negb app]. set (v1 := set_li_end v (from + len)) in *. assert (Hv1 : li_start v1 = li_start v /\ li_end v1 = from + len /\ li_img v1 = li_img v) by done. destruct Hv1 as (S1 & S2 & S3).
      unfold li_len. rewrite S1, S2, !Hoff by lia. replace (L - (from + len - li_start v)) with 0 by lia. change (u64 0) with 0.
      destruct z as [|z]; [specialize (Hz eq_refl); lia|].
      destruct (cut_wf v v1 v2 l W1 W2 ltac:(lia) W4 Hb Hw) as [C1 C2].
      destruct (IH (v2 :: l) (from + len) 0 (remaps ++ [mk_li (li_start v + d) (from + len + d) (li_img v1)]) t1 0%nat 0%nat)
        as (r & kept & moved & t' & -> & Hr); try done; try lia; [unfold aligned in *; pdiv| |cbn; lia|].
      { intros _ w [->|Hin']%elem_of_cons; [unfold straddles; lia|apply Hns; [done|lia]]. }
      rewrite <-app_assoc. cbn [app]. eexists r, kept, _, t'. split; [done|]. destruct Hr as [?|[-> HT]]; [by left|right]. split; [done|].
      eapply (taken_from _ _ _ _ _ (li_start v) L); [|lia|lia|done].
      eapply (taken_cut (v :: l) _ (v1 :: v2 :: l)); [| | |done].
      * intros a i. rewrite !holds_cons, W5. tauto.
      * intros k. apply inside_cut; unfold part; lia.
      * rewrite <-S1, <-S2. apply taken_move; try done; try lia. rewrite S1, S2. replace (li_start v + L - (from + len)) with 0 by lia. done.
    + cbn [negb app]. unfold li_len. rewrite !Hoff by lia. rewrite (u64_id (L - _)) by lia.
      destruct (IH l (li_end v) (L - (li_end v - li_start v)) (remaps ++ [mk_li (li_start v + d) (li_end v + d) (li_img v)]) t 0%nat z)
        as (r & kept & moved & t' & -> & Hr); try done; try lia; [unfold aligned in *; pdiv|intros _ w Hin'; by apply Hns|].
      rewrite <-app_assoc. cbn [app]. eexists r, kept, _, t'. split; [done|]. destruct Hr as [?|[-> HT]]; [by left|right]. split; [done|].
      eapply (taken_from _ _ _ _ _ (li_start v) L); [|lia|lia|done]. apply taken_move; try done; try lia.
      by replace (li_start v + L - li_end v) with (L - (li_end v - li_start v)) by lia.
Qed.

(** the ranges that move are apart from those that stay, when the place that they move to is free *)
Lemma moved_apart l kept moved from to len : taken_out l kept moved from len (to - from) ->
  (forall a i, holds l a i -> in_range to len a -> in_range from len a) -> forall v w, v ∈ moved -> w ∈ kept -> apart v w.
Proof.
  intros HT Hfree v w Hv Hw. destruct (to_moved_in _ _ _ _ _ _ HT v Hv) as [B1 B2]. destruct (to_wf _ _ _ _ _ _ HT) as [[Hwk _] _].
  rewrite list.Forall_forall in Hwk. destruct (Hwk w Hw) as (W1 & _). destruct (to_moved_wf _ _ _ _ _ _ HT) as [Hwm _].
  rewrite list.Forall_forall in Hwm. destruct (Hwm v Hv) as (U1 & _). unfold apart.
  destruct (Z.le_gt_cases (li_end v) (li_start w)); [by left|]. destruct (Z.le_gt_cases (li_end w) (li_start v)); [by right|].
  set (a := Z.max (li_start v) (li_start w)).
  assert (Hk : holds kept a (li_img w + (a - li_start w))) by (exists w; split; [done|split; [unfold a; lia|done]]).
  apply (to_kept _ _ _ _ _ _ HT) in Hk as [Hl Hn]. exfalso. apply Hn, (Hfree _ _ Hl). unfold in_range, a. lia.
Qed.

Lemma remap_one_ok l from to len t : wf l -> 0 <= from -> 0 <= len -> from + len <= LIMIT -> 0 <= to -> to + len <= LIMIT ->
  aligned from -> aligned to -> aligned len -> (forall a i, holds l a i -> in_range to len a -> in_range from len a) ->
  exists r l' t', remap_one l from to len t = Done (r, l', t') /\
    (r = -1 /\ (exists t, k_xmalloc t = false) \/
     r = 0 /\ wf l' /\ (forall v, v ∈ l' -> exists w, w ∈ l /\ (part v w \/ part (shifted (to - from) v) w)) /\
     forall a i, holds l' a i <-> holds l a i /\ ~ in_range from len a \/ holds l (a - (to - from)) i /\ in_range to len a).
Proof.
  intros Hwf H1 H2 H3 H4 H5 Ha1 Ha2 Ha3 Hfree. unfold remap_one.
  destruct (remap_loop_ok (to - from) (2 * length l + 2) l from len [] t 1%nat 1%nat) as (r & kept & moved & t' & -> & Hr);
    try done; try lia; [unfold aligned in *; pdiv|]. cbn [rbind app].
  destruct Hr as [[-> Hm]|[-> HT]].
  { eexists _, _, _. split; [done|]. by left. }
  change (negb (0 =? 0)) with false. cbn iota.
  destruct (merge_iov_lists_ok moved kept) as (l' & -> & Hwl & Hp); [apply (to_wf _ _ _ _ _ _ HT)|apply (to_moved_wf _ _ _ _ _ _ HT)|by eapply moved_apart|].
  eexists _, _, _. split; [done|]. right. split; [done|]. split; [done|]. split.
  { intros v Hv. rewrite Hp in Hv. apply elem_of_app in Hv as [Hv|Hv].
    - destruct (to_src _ _ _ _ _ _ HT (shifted (to - from) v)) as (w & Hw & HP); [apply list_elem_of_fmap; by exists v|]. exists w. split; [done|by right].
    - destruct (to_wf _ _ _ _ _ _ HT) as [_ Hin]. destruct (Hin v Hv) as (w & Hw & HP). exists w. split; [done|by left]. }
  intros a i. rewrite (holds_perm l' (moved ++ kept)), holds_app, (to_kept _ _ _ _ _ _ HT), (to_moved _ _ _ _ _ _ HT) by done.
  assert (Hin : in_range from len (a - (to - from)) <-> in_range to len a) by (unfold in_range; lia). rewrite Hin. tauto.
Qed.

(** ** Taking a part of a range out *)
Lemma wf_app l1 l2 : wf (l1 ++ l2) <-> wf l1 /\ wf l2 /\ forall v w, v ∈ l1 -> w ∈ l2 -> below v w.
Proof.
  induction l1 as [|u l1 IH]; cbn [app].
  { split; [intros H; split_and!; [apply wf_nil|done|by intros v w ?%elem_of_nil]|tauto]. }
  rewrite !wf_cons, IH, list.Forall_app, !list.Forall_forall. setoid_rewrite elem_of_cons. split.
  - intros (H1 & [H2 H3] & H4 & H5 & H6). split_and!; try done. intros v w [->|Hv] Hw; [by apply H3|by apply H6].
  - intros ((H1 & H2 & H3) & H4 & H5). split_and!; try done; [|].
    + intros w Hw. apply H5; [by left|done].
    + intros v w Hv Hw. apply H5; [by right|done].
Qed.

(** the pieces of a range in its place *)
Lemma wf_replace l1 v mids l2 : wf (l1 ++ v :: l2) -> wf mids -> (forall w, w ∈ mids -> li_start v <= li_start w /\ li_end w <= li_end v) ->
  wf (l1 ++ mids ++ l2).
Proof.
  rewrite !wf_app, wf_cons, list.Forall_forall. intros (H1 & (H2 & H3 & H4) & H5) Hm Hin. split_and!; try done.
  - intros u w Hu Hw. destruct (Hin u Hu). specialize (H3 w Hw). unfold below in *. lia.
  - intros u w Hu [Hw|Hw]%elem_of_app; [|apply H5; [done|by apply list_elem_of_further]].
    destruct (Hin w Hw). specialize (H5 u v Hu (list_elem_of_here _ _)). unfold below in *. lia.
Qed.

Lemma holds_replace l1 v mids l2 a i : (here v a i <-> holds mids a i) -> holds (l1 ++ mids ++ l2) a i <-> holds (l1 ++ v :: l2) a i.
Proof. intros H. rewrite !holds_app, holds_cons, H. tauto. Qed.

Lemma inside_replace l1 v mids l2 : (forall w, w ∈ mids -> part w v) -> inside (l1 ++ mids ++ l2) (l1 ++ v :: l2).
Proof.
  intros H w. rewrite !elem_of_app. intros [Hw|[Hw|Hw]].
  - exists w. split; [apply elem_of_app; by left|apply part_refl].
  - exists v. split; [apply elem_of_app; right; apply list_elem_of_here|by apply H].
  - exists w. split; [apply elem_of_app; right; by apply list_elem_of_further|apply part_refl].
Qed.

(** the tail is cut off, if there is one *)
Lemma cut_tail v e t : li_ok v -> li_start v < e <= li_end v -> aligned e -> exists t',
  (if e <? li_end v then match split_iov v e t with (Some (v1, v2), t) => (true, v1, [v2], t) | (None, t) => (false, v, [], t) end
   else (true, v, [], t)) = (false, v, [], t') /\ k_xmalloc t = false \/
  exists tail, (if e <? li_end v then match split_iov v e t with (Some (v1, v2), t) => (true, v1, [v2], t) | (None, t) => (false, v, [], t) end
   else (true, v, [], t)) = (true, set_li_end v e, tail, t') /\
    li_ok (set_li_end v e) /\ wf (set_li_end v e :: tail) /\ (forall w, w ∈ tail -> e <= li_start w /\ li_end w <= li_end v /\ part w v) /\
    forall a i, here v a i <-> here (set_li_end v e) a i \/ holds tail a i.
Proof.
  intros Hv He Hal. destruct (Z.ltb_spec e (li_end v)) as [Hlt|Hge].
  - destruct (split_ok v e t Hv ltac:(lia) Hal) as (t1 & [[-> Hm]|(v2 & -> & _ & W1 & W2 & W3 & W4 & W5 & W6)]); [exists t1; by left|].
    exists t1. right. exists [v2]. split; [done|]. split; [done|]. split; [|split].
    + apply wf_cons. split; [done|]. split; [constructor; [unfold below; cbn; lia|constructor]|]. apply wf_cons. split; [done|]. split; [constructor|apply wf_nil].
    + intros w ->%list_elem_of_singleton. unfold part. lia.
    + intros a i. rewrite W5, holds_cons, holds_nil. tauto.
  - exists t. right. exists []. assert (Hve : set_li_end v e = v) by (unfold set_li_end; destruct v; cbn in *; f_equal; lia). rewrite Hve.
    split; [done|]. split; [done|]. split; [|split].
    + apply wf_cons. split; [done|]. split; [constructor|apply wf_nil].
    + by intros w ?%elem_of_nil.
    + intros a i. rewrite holds_nil. tauto.
Qed.

Lemma extract_range_ok l i v s e t : wf l -> l !! i = Some v -> li_start v <= s < e -> e <= li_end v -> aligned s -> aligned e ->
  exists o l' t', extract_range l i s e t = (o, l', t') /\
    (o = None /\ (exists t, k_xmalloc t = false) \/
     exists j v', o = Some j /\ l' !! j = Some v' /\ li_start v' = s /\ li_end v' = e /\ li_img v' = li_img v + (s - li_start v) /\
       wf l' /\ inside l' l /\ forall a i, holds l' a i <-> holds l a i).
Proof.
  intros Hwf Hi Hs He Has Hae. pose proof (take_drop_middle l i v Hi) as Hl. unfold extract_range. rewrite Hi.
  assert (Hlen : length (take i l) = i) by (apply length_take_le; apply lookup_lt_Some in Hi; lia).
  set (l1 := take i l) in *. set (l2 := drop (S i) l) in *. clearbody l1 l2. subst l. clear Hi.
  assert (Hv : li_ok v) by (destruct Hwf as [Hf _]; by apply list.Forall_app in Hf as [_ [? _]%list.Forall_cons]).
  destruct (cut_tail v e t Hv ltac:(lia) Hae) as (t1 & [[-> Hm]|(tail & -> & W1 & W2 & W3 & W4)]).
  { eexists _, _, _. cbn [negb]. split; [done|]. left. split; [done|by exists t]. }
  cbn [negb]. set (v0 := set_li_end v e) in *. assert (Hv0 : li_start v0 = li_start v /\ li_end v0 = e /\ li_img v0 = li_img v) by done. destruct Hv0 as (S1 & S2 & S3).
  rewrite S1. destruct (Z.eqb_spec s (li_start v)) as [->|Hne].
  - eexists _, _, t1. split; [done|]. right. exists i, v0. change ([v0] ++ tail ++ l2) with ((v0 :: tail) ++ l2). split; [done|].
    rewrite lookup_app_r, Hlen, Nat.sub_diag by lia. split_and!; try done; try lia.
    + apply (wf_replace l1 v); [done|done|]. intros w [->|Hw]%elem_of_cons; [lia|]. destruct (W3 w Hw) as (? & ? & _). lia.
    + change (inside (l1 ++ (v0 :: tail) ++ l2) (l1 ++ v :: l2)). apply inside_replace. intros w [->|Hw]%elem_of_cons; [unfold part; lia|]. by apply W3.
    + intros a j. apply holds_replace. by rewrite holds_cons.
  - destruct (split_ok v0 s t1 W1 ltac:(lia) Has) as (t2 & [[-> Hm]|(v2 & -> & _ & X1 & X2 & X3 & X4 & X5 & X6)]).
    { eexists _, _, t2. split; [done|]. left. split; [done|by exists t1]. }
    set (va := set_li_end v0 s) in *. eexists _, _, t2. split; [done|]. right. exists (S i), v2.
    change ([va; v2] ++ tail ++ l2) with ((va :: v2 :: tail) ++ l2). split; [done|]. apply wf_cons in W2 as (_ & W2 & W2').
    destruct (cut_wf v0 va v2 tail X1 X2 ltac:(done) X4 W2 W2') as [C1 C2].
    rewrite lookup_app_r, Hlen by lia. replace (S i - i)%nat with 1%nat by lia.
    assert (Him : li_img v2 = li_img v + (s - li_start v)).
    { destruct (proj2 (X5 s (li_img v2))) as [_ Hx]; [right; split; [lia|lia]|]. lia. }
    split_and!; try done; try lia.
    + apply (wf_replace l1 v); [done|by apply wf_cons|]. intros w [->|[->|Hw]%elem_of_cons]%elem_of_cons; [cbn; lia|lia|]. destruct (W3 w Hw) as (? & ? & _). lia.
    + apply inside_replace. intros w [->|[->|Hw]%elem_of_cons]%elem_of_cons; [unfold part; cbn; lia|unfold part; lia|]. by apply W3.
    + intros a j. apply holds_replace. rewrite !holds_cons, W4, X5. tauto.
Qed.
End Specs.
End LazyIovs.
