(* ===== verification/LazyPages.v ===== *)
(** * The lazy-pages daemon (criu/uffd.c)

    A task that is restored lazily starts without some of its pages.  The kernel tells the daemon, through a userfaultfd,
    of every access to a page that is missing, and of every change of the memory that is watched; the daemon fills the
    page that was accessed, and in the background all the others. *)
From S2P Require Import Prelude.
From S2P Require Import Vma.
From S2P Require Import Pagemap.
From S2P Require Import LazyIovs.
Import Vma.Vma Pagemap.Pagemap LazyIovs.LazyIovs.

Module LazyPages.

Definition DEFAULT_XFER_LEN : Z := Z.shiftl 64 10.
Definition MAX_XFER_LEN : Z := Z.shiftl 4 20.

(** [struct lazy_pages_info], but for its links to other tasks and its descriptors *)
Record lazy_pages_info := mk_lpi {
  exited : bool;
  iovs : list lazy_iov;
  reqs : list lazy_iov;
  xfer_len : Z;
  total_pages : Z;
  copied_pages : Z;
  buf_size : Z;
}.

Definition set_lists (p : lazy_pages_info) (i r : list lazy_iov) : lazy_pages_info :=
  mk_lpi (exited p) i r (xfer_len p) (total_pages p) (copied_pages p) (buf_size p).
Definition set_xfer_len (p : lazy_pages_info) (n : Z) : lazy_pages_info :=
  mk_lpi (exited p) (iovs p) (reqs p) n (total_pages p) (copied_pages p) (buf_size p).
Definition set_copied (p : lazy_pages_info) (n : Z) : lazy_pages_info :=
  mk_lpi (exited p) (iovs p) (reqs p) (xfer_len p) (total_pages p) n (buf_size p).

Definition set_buf_size (p : lazy_pages_info) (n : Z) : lazy_pages_info :=
  mk_lpi (exited p) (iovs p) (reqs p) (xfer_len p) (total_pages p) (copied_pages p) n.
Definition set_total (p : lazy_pages_info) (n : Z) : lazy_pages_info :=
  mk_lpi (exited p) (iovs p) (reqs p) (xfer_len p) n (copied_pages p) (buf_size p).

Definition lpi_init : lazy_pages_info := mk_lpi false [] [] DEFAULT_XFER_LEN 0 0 0.

Inductive uffd_errno := U_EAGAIN | U_ENOENT | U_EEXIST | U_ENOSPC | U_ESRCH | U_ENOMEM | U_OTHER.
(** an ioctl succeeds, or fails with [errno] and the number of bytes done (or a negated errno) *)
Inductive uffd_result := UOk | UErr (e : uffd_errno) (rc : Z).

(** the answers to UFFDIO_COPY, UFFDIO_ZEROPAGE and UFFDIO_UNREGISTER, to posix_memalign(3) and to epoll_ctl(2) for the removal and the addition of a descriptor *)
Class UffdKernel := {
  k_copy : clock -> Z -> Z -> uffd_result;
  k_zero : clock -> Z -> uffd_result;
  k_unregister : clock -> option uffd_errno;
  k_memalign : clock -> Z -> bool;
  k_epoll_del : clock -> bool;
  k_epoll_add : clock -> bool;
}.

(** The state of the daemon for a task: [mem] is the memory of the task, [dmem] that of the daemon, where [lpi->buf] is at
    [buf]; [chain] is [lpi->pr]; [wire] are the requests that a page server has not answered. *)
Record lp_state := mk_lps {
  lpi : lazy_pages_info;
  chain : list page_read;
  dmem : Z -> Z;
  mem : Z -> Z;
  wire : list (Z * Z);
  now : clock;
}.
Definition set_lpi (s : lp_state) (p : lazy_pages_info) : lp_state := mk_lps p (chain s) (dmem s) (mem s) (wire s) (now s).
Definition set_now (s : lp_state) (t : clock) : lp_state := mk_lps (lpi s) (chain s) (dmem s) (mem s) (wire s) t.
Definition set_task_mem (s : lp_state) (m : Z -> Z) : lp_state := mk_lps (lpi s) (chain s) (dmem s) m (wire s) (now s).

Section Ops.
Context {K : ReadKernel} {U : UffdKernel}.
Variable buf : Z.

Definition free_iovs (p : lazy_pages_info) : lazy_pages_info := set_lists p [] [].

Definition copy_iovs (src : lazy_pages_info) (t : clock) : Z * lazy_pages_info * clock :=
  let dst := lpi_init in
  let '(r, i, t) := copy_iov_list (iovs src) t in
  if negb (r =? 0) then (-1, free_iovs dst, t)
  else
    let '(r, q, t) := copy_iov_list (reqs src) t in
    if negb (r =? 0) then (-1, free_iovs dst, t)
    else
      let (q, i) := merge_iov_lists q i in
      let dst := mk_lpi (exited dst) i q (xfer_len dst) (total_pages dst) (copied_pages dst) (buf_size src) in
      if negb (k_memalign t (buf_size dst)) then (-1, free_iovs dst, S t) else (0, dst, S t).

(** the parameter [len] is an [int] *)
Definition drop_iovs (p : lazy_pages_info) (addr len : Z) (t : clock) : Z * lazy_pages_info * clock :=
  let len := s32 len in
  let '(r, i, t) := drop_loop (iovs p) addr len t in
  if negb (r =? 0) then (-1, set_lists p i (reqs p), t)
  else
    let '(r, q, t) := drop_loop (reqs p) addr len t in
    (if negb (r =? 0) then -1 else 0, set_lists p i q, t).

Definition remap_iovs (p : lazy_pages_info) (from to len : Z) (t : clock) : res (Z * lazy_pages_info * clock) :=
  let* (r, i, t) := remap_one (iovs p) from to len t in
  if negb (r =? 0) then Done (-1, set_lists p i (reqs p), t)
  else
    let* (r, q, t) := remap_one (reqs p) from to len t in
    Done (if negb (r =? 0) then -1 else 0, set_lists p i q, t).

(** ** The start

    [collect_iovs]: the inner loop of the areas, the entry being what is left of a lazy entry of the pagemap.  The result
    is the areas that are left, or none when memory runs out, the list and the longest range so far, an [int]. *)
Fixpoint collect_entry (vmas : list VmaEntry) (start end_ : Z) (l : list lazy_iov) (max_iov_len : Z) (t : clock)
  : option (list VmaEntry) * list lazy_iov * Z * clock :=
  match vmas with
  | [] => (Some [], l, max_iov_len, t)
  | vma :: rest =>
    if v_end vma <=? start then collect_entry rest start end_ l max_iov_len t
    else if negb (k_xmalloc t) then (None, l, max_iov_len, S t)
    else
      let len := u64 (Z.min end_ (v_end vma) - start) in
      let l := l ++ [mk_li start (u64 (start + len)) start] in
      let max_iov_len := if u64 max_iov_len <? len then s32 len else max_iov_len in
      if end_ <=? v_end vma then (Some vmas, l, max_iov_len, S t) else collect_entry rest (v_end vma) end_ l max_iov_len (S t)
  end.

(** the loop over the entries of the pagemap; none when memory runs out *)
Fixpoint collect_loop (fuel : nat) (pr : page_read) (vmas : list VmaEntry) (l : list lazy_iov) (nr_pages max_iov_len : Z) (t : clock)
  : res (option (Z * Z) * page_read * list lazy_iov * clock) :=
  match fuel with
  | O => NoFuel
  | S fuel =>
    match advance pr with
    | (false, pr) => Done (Some (nr_pages, max_iov_len), pr, l, t)
    | (true, pr) =>
      match pe pr with
      | None => Bug
      | Some e =>
        if negb (pagemap_lazy e) then collect_loop fuel pr vmas l nr_pages max_iov_len t
        else
          match collect_entry vmas (vaddr e) (u64 (vaddr e + pagemap_len e)) l max_iov_len t with
          | (None, l, max_iov_len, t) => Done (None, pr, l, t)
          | (Some vmas, l, max_iov_len, t) => collect_loop fuel pr vmas l (s32 (nr_pages + Pagemap.nr_pages e)) max_iov_len t
          end
      end
    end
  end.

(** [mm]: what [init_mm_entry] reads *)
Definition collect_iovs (s : lp_state) (mm : option (list VmaEntry)) : res (Z * lp_state) :=
  match mm, chain s with
  | None, _ => Done (-1, s)
  | Some _, [] => Bug
  | Some vmas, pr :: up =>
    let* (o, pr, l, t) := collect_loop (S (length (pmes pr) + Z.to_nat (- curr_pme pr))) pr vmas (iovs (lpi s)) 0 0 (now s) in
    let s := mk_lps (set_lists (lpi s) l (reqs (lpi s))) (pr :: up) (dmem s) (mem s) (wire s) t in
    match o with
    | None => Done (-1, set_lpi s (free_iovs (lpi s)))
    | Some (nr_pages, max_iov_len) =>
      let s := set_now (set_lpi s (set_buf_size (lpi s) (u64 max_iov_len))) (S t) in
      if negb (k_memalign t (buf_size (lpi s))) then Done (-1, set_lpi s (free_iovs (lpi s))) else Done (nr_pages, s)
    end
  end.

(** [ud_open]: [pid] is the pid that is received, if one is, [fd] whether a descriptor is, and [opened] what opening the
    images gives; the result and the state of the task, none for a task that is dead *)
Definition ud_open (pid : option Z) (fd : bool) (opened : Z * list page_read) (mm : option (list VmaEntry)) (dm m : Z -> Z) (t : clock)
  : res (Z * option lp_state * clock) :=
  if negb (k_xmalloc t) then Done (-1, None, S t)
  else
    match pid with
    | None => Done (-1, None, S t)
    | Some pid =>
      if pid <? 0 then Done (0, None, S t)
      else if negb fd then Done (-1, None, S t)
      else
        let (r, c) := opened in
        if r <=? 0 then Done (-1, None, S t)
        else
          let* (r, s) := collect_iovs (mk_lps lpi_init c dm m [] (S t)) mm in
          if r <? 0 then Done (-1, None, now s)
          else Done (0, Some (set_lpi s (set_total (lpi s) (u64 r))), now s)
    end.

(** ** Copying *)
Definition handle_exit (s : lp_state) : Z * lp_state :=
  if negb (k_epoll_del (now s)) then (-1, set_now s (S (now s)))
  else
    let p := free_iovs (lpi s) in
    (0, set_now (set_lpi s (mk_lpi true (iovs p) (reqs p) (xfer_len p) (total_pages p) (copied_pages p) (buf_size p))) (S (now s))).

Definition uffd_recoverable_error (e : uffd_errno) (rc : Z) : bool :=
  match e with U_EAGAIN | U_ENOENT | U_EEXIST => true | _ => false end || (rc =? -2) || (rc =? -17).

(** the result and the number of pages; what [handle_exit] returns is not looked at *)
Definition uffd_check_op_error (s : lp_state) (nr : Z) (e : uffd_errno) (rc : Z) : Z * Z * lp_state :=
  match e with
  | U_ENOSPC | U_ESRCH => (0, nr, snd (handle_exit s))
  | _ =>
    if negb (uffd_recoverable_error e rc) then (-1, nr, s)
    else (0, if rc <=? 0 then 0 else s32 (rc / PAGE_SIZE), s)
  end.

(** [len] bytes of the buffer are in the task's memory at [dst] *)
Definition filled (s : lp_state) (dst len : Z) : lp_state :=
  set_task_mem s (fun a => if (dst <=? a) && (a <? dst + len) then dmem s (buf + (a - dst)) else mem s a).

Definition uffd_copy (s : lp_state) (address nr : Z) : Z * Z * lp_state :=
  let len := nr * PAGE_SIZE in
  let '(r, nr, s) :=
    match k_copy (now s) address len with
    | UOk => (0, nr, set_now (filled s address len) (S (now s)))
    | UErr e rc => uffd_check_op_error (set_now (filled s address (Z.max 0 rc)) (S (now s))) nr e rc
    end in
  if negb (r =? 0) then (-1, nr, s) else (0, nr, set_lpi s (set_copied (lpi s) (u64 (copied_pages (lpi s) + nr)))).

Fixpoint find_req (l : list lazy_iov) (img_addr : Z) : option nat :=
  match l with
  | [] => None
  | v :: l => if li_img v =? img_addr then Some O else S <$> find_req l img_addr
  end.

Definition uffd_io_complete (s : lp_state) (img_addr nr : Z) : Z * lp_state :=
  let p := lpi s in
  if exited p then (0, s)
  else
    match find_req (reqs p) img_addr with
    | None => (0, s)
    | Some i =>
      match reqs p !! i with
      | None => (0, s)
      | Some req =>
        let addr := li_start req in
        if addr =? 0 then (0, s)
        else
          let nr := Z.min nr (s32 ((li_end req - li_start req) / PAGE_SIZE)) in
          let '(r, nr, s) := uffd_copy s addr nr in
          if r <? 0 then (r, s)
          else if exited (lpi s) then (0, s)
          else
            let p := match iov_list_insert req (iovs (lpi s)) with
                     | Some l => set_lists (lpi s) l (delete i (reqs (lpi s)))
                     | None => lpi s
                     end in
            let '(r, p, t) := drop_iovs p addr (nr * PAGE_SIZE) (now s) in
            (r, set_now (set_lpi s p) t)
      end
    end.

Definition uffd_zero (s : lp_state) (address : Z) : Z * lp_state :=
  match k_zero (now s) address with
  | UOk => (0, set_now (set_task_mem s (fun a => if (address <=? a) && (a <? address + PAGE_SIZE) then 0 else mem s a)) (S (now s)))
  | UErr e rc => let '(r, _, s) := uffd_check_op_error (set_now s (S (now s))) 1 e rc in (if negb (r =? 0) then -1 else 0, s)
  end.

(** ** Requests

    [uffd_handle_pages], for images that are here and for those that a page server has. *)
Variable iofuel : nat.

(** the pages are read at once, and [io_complete] is called at the end of the read, unless they are read by a parent's
    reader *)
Definition local_handle_pages (s : lp_state) (address nr : Z) : res (Z * lp_state) :=
  match reset_pagemap (chain s) with
  | [] => Bug
  | pr :: up =>
    let* (found, pr) := seek_pagemap pr address in
    if negb found then Done (-1, mk_lps (lpi s) (pr :: up) (dmem s) (mem s) (wire s) (now s))
    else
      let* (r, (t, m, c)) := read_pagemap_page false false None (S (length up)) iofuel (Z.lor PR_ASYNC PR_ASAP) address nr buf (now s, dmem s, pr :: up) in
      let s := mk_lps (lpi s) c m (mem s) (wire s) t in
      if r <=? 0 then Done (r, s)
      else if match pe pr with Some e => pagemap_in_parent e | None => false end then Done (0, s)
      else let (r, s) := uffd_io_complete s address nr in Done (if r <? 0 then -1 else 0, s)
  end.

(** the request is sent; [send] may fail *)
Definition remote_handle_pages (send : clock -> bool) (s : lp_state) (address nr : Z) : res (Z * lp_state) :=
  match reset_pagemap (chain s) with
  | [] => Bug
  | pr :: up =>
    let* (found, pr) := seek_pagemap pr address in
    let s := mk_lps (lpi s) (pr :: up) (dmem s) (mem s) (wire s) (now s) in
    if negb found then Done (-1, s)
    else if negb (send (now s)) then Done (-1, set_now s (S (now s)))
    else Done (0, mk_lps (lpi s) (chain s) (dmem s) (mem s) (wire s ++ [(address, nr)]) (S (now s)))
  end.

Variable uffd_handle_pages : lp_state -> Z -> Z -> res (Z * lp_state).

Definition update_xfer_len (p : lazy_pages_info) (pf : bool) : lazy_pages_info :=
  let n := if pf then DEFAULT_XFER_LEN else xfer_len p + DEFAULT_XFER_LEN in
  set_xfer_len p (if MAX_XFER_LEN <? n then MAX_XFER_LEN else n).

(** the range from [start] to [end_] of the [i]-th one becomes a request *)
Definition request_range (s : lp_state) (i : nat) (start end_ : Z) (pf : bool) (nr : lazy_iov -> Z) : res (Z * lp_state) :=
  let '(o, l, t) := extract_range (iovs (lpi s)) i start end_ (now s) in
  match o with
  | None => Done (-1, set_now (set_lpi s (set_lists (lpi s) l (reqs (lpi s)))) t)
  | Some j =>
    match l !! j with
    | None => Bug
    | Some v =>
      let p := update_xfer_len (set_lists (lpi s) (delete j l) (v :: reqs (lpi s))) pf in
      let* (r, s) := uffd_handle_pages (set_now (set_lpi s p) t) (li_img v) (nr v) in
      Done (if r <? 0 then -1 else 0, s)
    end
  end.

Definition xfer_pages (s : lp_state) : res (Z * lp_state) :=
  match iovs (lpi s) with
  | [] => Bug
  | v :: _ =>
    let len := Z.min (li_end v - li_start v) (xfer_len (lpi s)) in
    request_range s 0 (li_start v) (u64 (li_start v + len)) false (fun v => u32 ((li_end v - li_start v) / PAGE_SIZE))
  end.

Definition is_page_queued (p : lazy_pages_info) (addr : Z) : bool :=
  existsb (fun v => (li_start v <=? addr) && (addr <? li_end v)) (reqs p).

(** ** Events *)
Definition handle_page_fault (s : lp_state) (addr : Z) : res (Z * lp_state) :=
  let address := addr - addr mod PAGE_SIZE in
  if is_page_queued (lpi s) address then Done (0, s)
  else
    match find_iov (iovs (lpi s)) address with
    | None => Done (uffd_zero s address)
    | Some i => request_range s i address (u64 (address + PAGE_SIZE)) true (fun _ => 1)
    end.

Definition handle_remove (s : lp_state) (is_remove : bool) (start end_ : Z) : Z * lp_state :=
  let len := u64 (end_ - start) in
  let drop s :=
    let '(r, p, t) := drop_iovs (lpi s) start len (now s) in (r, set_now (set_lpi s p) t) in
  if is_remove then
    match k_unregister (now s) with
    | Some U_ENOMEM => (0, snd (handle_exit (set_now s (S (now s)))))
    | Some _ => (-1, set_now s (S (now s)))
    | None => drop (set_now s (S (now s)))
    end
  else drop s.

Definition handle_remap (s : lp_state) (from to len : Z) : res (Z * lp_state) :=
  let* (r, p, t) := remap_iovs (lpi s) from to len (now s) in Done (r, set_now (set_lpi s p) t).

(** The child's state; [root] is the state of the task that opened the images.  The copy shares the parent snapshots with the
    original; every read begins with a reset of all of them, so that the child is given its own. *)
Definition handle_fork (s root : lp_state) : Z * option lp_state * clock :=
  if negb (k_xmalloc (now s)) then (-1, None, S (now s))
  else
    let '(r, p, t) := copy_iovs (lpi s) (S (now s)) in
    if negb (r =? 0) then (-1, None, t)
    else
      let p := mk_lpi (exited p) (iovs p) (reqs p) (xfer_len p) (total_pages (lpi root)) (copied_pages (lpi root)) (buf_size p) in
      let '(c, _, _) := dup_page_read (chain root) 0 in
      (1, Some (mk_lps p c (dmem s) (mem s) [] t), t).

Inductive uffd_msg :=
| EventPagefault (address : Z)
| EventRemove (start end_ : Z)
| EventUnmap (start end_ : Z)
| EventRemap (from to len : Z)
| EventFork (ufd : nat)
| EventOther.
(** what read(2) gives: a message, the end, or less than a message *)
Inductive uffd_read := RMsg (m : uffd_msg) | REof | RAgain | RFail.

(** the result, the state, and the child that a fork made *)
Definition handle_uffd_event (s root : lp_state) (m : uffd_read) : res (Z * lp_state * option lp_state) :=
  let alone (x : Z * lp_state) := Done (fst x, snd x, None) in
  match m with
  | REof => alone (1, s)
  | RAgain => alone (0, s)
  | RFail => alone (-1, s)
  | RMsg (EventPagefault a) => let* x := handle_page_fault s a in alone x
  | RMsg (EventRemove a b) => alone (handle_remove s true a b)
  | RMsg (EventUnmap a b) => alone (handle_remove s false a b)
  | RMsg (EventRemap f d n) => let* x := handle_remap s f d n in alone x
  | RMsg (EventFork _) => let '(r, c, t) := handle_fork s root in Done (r, set_now s t, c)
  | RMsg EventOther => alone (-1, s)
  end.

End Ops.
End LazyPages.
