(* ===== verification/LazyOpen.v ===== *)
(** * What the lazy-pages daemon starts from

    The ranges that the daemon collects are the lazy entries of the pagemap, cut at the ends of the areas of the task. *)
From Stdlib Require Import Sorted.
From S2P Require Import Prelude.
From S2P Require Import Vma.
From S2P Require Import Pagemap.
From S2P Require Import LazyIovs.
From S2P Require Import LazyPages.
Import Vma.Vma Pagemap.Pagemap LazyIovs.LazyIovs LazyPages.LazyPages.

Module LazyOpen.

(** ** The areas *)
Definition in_area (v : VmaEntry) (a : Z) : Prop := v_start v <= a < v_end v.
Definition area_ok (v : VmaEntry) : Prop := 0 <= v_start v < v_end v /\ v_end v <= LIMIT /\ aligned (v_start v) /\ aligned (v_end v).
Definition in_areas (vmas : list VmaEntry) (a : Z) : Prop := exists v, v ∈ vmas /\ in_area v a.
Definition areas_in_order (vmas : list VmaEntry) : Prop := Forall area_ok vmas /\ StronglySorted (fun v w => v_end v <= v_start w) vmas.

Lemma areas_cons v l : areas_in_order (v :: l) -> area_ok v /\ areas_in_order l /\ forall a, in_areas l a -> v_end v <= a.
Proof.
  intros [[H1 H2]%list.Forall_cons [H3 H4]%StronglySorted_inv]. split_and!; try done. intros a (w & Hw & Ha).
  rewrite list.Forall_forall in H4. specialize (H4 w Hw). destruct Ha. lia.
Qed.

Lemma in_areas_cons v l a : in_areas (v :: l) a <-> in_area v a \/ in_areas l a.
Proof.
  split.
  - intros (w & [->|Hw]%elem_of_cons & Ha); [by left|right; by exists w].
  - intros [H|(w & Hw & Ha)]; [exists v; split; [left|done]|exists w; split; [by right|done]].
Qed.

(** [new] is the range from [start] to [end_], cut at the ends of the areas *)
Record cut_at_areas (vmas : list VmaEntry) (start end_ : Z) (new : list lazy_iov) : Prop := {
  ca_wf : wf new;
  ca_within : forall v, v ∈ new -> start <= li_start v /\ li_end v <= end_;
  ca_holds : forall a i, holds new a i <-> i = a /\ start <= a < end_;
  ca_area : forall v, v ∈ new -> li_img v = li_start v /\ exists w, w ∈ vmas /\ v_start w <= li_start v /\ li_end v <= v_end w;
}.

Lemma cut_weaken vmas vmas' start end_ new : (forall w, w ∈ vmas -> w ∈ vmas') -> cut_at_areas vmas start end_ new -> cut_at_areas vmas' start end_ new.
Proof.
  intros Hin [H1 H2 H3 H4]. split; try done. intros v Hv. destruct (H4 v Hv) as (Hi & w & Hw & ?). split; [done|]. exists w. split; [by apply Hin|done].
Qed.

Definition same_range (s e : Z) : lazy_iov := mk_li s e s.
Lemma same_range_ok s e : 0 <= s < e -> e <= LIMIT -> aligned s -> aligned e -> li_ok (same_range s e).
Proof. intros ????. unfold li_ok, li_len, same_range. cbn. split_and!; try done; lia. Qed.

Lemma here_same s e a i : here (same_range s e) a i <-> i = a /\ s <= a < e.
Proof. unfold here, same_range. cbn. lia. Qed.

Lemma cut_cons w vmas start mid end_ new : area_ok w -> w ∈ vmas -> v_start w <= start < mid -> mid <= v_end w -> mid <= end_ -> aligned start -> aligned mid -> 0 <= start ->
  cut_at_areas vmas mid end_ new -> cut_at_areas vmas start end_ (same_range start mid :: new).
Proof.
  intros (W1 & W2 & W3 & W4) Hw H1 H2 H3 Ha Hb H0 [C1 C2 C3 C4]. split.
  - apply wf_cons. split; [apply same_range_ok; try done; lia|]. split; [|done]. apply list.Forall_forall. intros v Hv. unfold below. cbn. destruct (C2 v Hv). lia.
  - intros v [->|Hv]%elem_of_cons; [cbn; lia|]. destruct (C2 v Hv). lia.
  - intros a i. rewrite holds_cons, here_same, C3. lia.
  - intros v [->|Hv]%elem_of_cons; [|by apply C4]. split; [done|]. exists w. split; [done|]. cbn. lia.
Qed.

Lemma cut_nil vmas e : cut_at_areas vmas e e [].
Proof.
  split; [apply wf_nil|by intros v Hv%elem_of_nil| |by intros v Hv%elem_of_nil]. intros a i. rewrite holds_nil. split; [done|lia].
Qed.

(** ** The pagemap *)
Definition lazy_at (es : list PagemapEntry) (a : Z) : Prop := exists e, e ∈ es /\ pagemap_lazy e = true /\ covers e a.
Fixpoint lazy_pages_of (es : list PagemapEntry) : Z :=
  match es with [] => 0 | e :: es => (if pagemap_lazy e then nr_pages e else 0) + lazy_pages_of es end.

Lemma lazy_at_cons e es a : lazy_at (e :: es) a <-> pagemap_lazy e = true /\ covers e a \/ lazy_at es a.
Proof.
  split.
  - intros (d & [->|Hd]%elem_of_cons & H); [by left|right; by exists d].
  - intros [H|(d & Hd & H)]; [exists e; split; [left|done]|exists d; split; [by right|done]].
Qed.

Lemma pm_sorted_cons e es : Forall pe_ok (e :: es) -> pm_sorted (e :: es) -> pm_sorted es /\ forall d, d ∈ es -> pe_end e <= vaddr d.
Proof.
  intros Hf Hs. split; [by inversion Hs; [constructor|]|]. intros d [j Hj]%list_elem_of_lookup.
  by apply (pm_sorted_before (e :: es) 0 (S j) e d Hf Hs ltac:(lia)).
Qed.

Lemma lazy_pages_nonneg es : Forall pe_ok es -> 0 <= lazy_pages_of es.
Proof. induction 1 as [|e es (_ & _ & H & _) _ IH]; cbn [lazy_pages_of]; [done|]. destruct (pagemap_lazy e); lia. Qed.

(** [new] is what the lazy entries [es] of a pagemap say, [m] the length of the longest range *)
Record collected (vmas : list VmaEntry) (es : list PagemapEntry) (new : list lazy_iov) (m : Z) : Prop := {
  co_wf : wf new;
  co_holds : forall a i, holds new a i <-> i = a /\ lazy_at es a;
  co_iov : forall v, v ∈ new -> li_len v <= m /\ li_img v = li_start v /\ (exists w, w ∈ vmas /\ v_start w <= li_start v /\ li_end v <= v_end w) /\
    exists e, e ∈ es /\ pagemap_lazy e = true /\ vaddr e <= li_start v /\ li_end v <= pe_end e;
}.

Lemma collected_skip vmas e es new m : pagemap_lazy e = false -> collected vmas es new m -> collected vmas (e :: es) new m.
Proof.
  intros He [H1 H2 H3]. split; [done| |].
  - intros a i. rewrite H2, lazy_at_cons, He. naive_solver.
  - intros v Hv. destruct (H3 v Hv) as (? & ? & ? & d & Hd & ?). split_and!; try done. exists d. split; [by right|done].
Qed.

Lemma collected_cons vmas vmas' e es n1 n2 m1 m : Forall pe_ok (e :: es) -> pm_sorted (e :: es) -> pagemap_lazy e = true ->
  cut_at_areas vmas (vaddr e) (pe_end e) n1 -> (forall v, v ∈ n1 -> li_len v <= m1) -> m1 <= m -> (forall w, w ∈ vmas' -> w ∈ vmas) ->
  collected vmas' es n2 m -> collected vmas (e :: es) (n1 ++ n2) m.
Proof.
  intros Hf Hs He [C1 C2 C3 C4] Hm1 Hm Hin [H1 H2 H3]. destruct (pm_sorted_cons e es Hf Hs) as [Hs' Hafter]. split.
  - apply wf_app. split_and!; try done. intros v w Hv Hw. destruct (H3 w Hw) as (_ & _ & _ & d & Hd & _ & Hd1 & _). destruct (C2 v Hv).
    specialize (Hafter d Hd). unfold below. lia.
  - intros a i. rewrite holds_app, C3, H2, lazy_at_cons. unfold covers. rewrite He. naive_solver.
  - intros v [Hv|Hv]%elem_of_app.
    + destruct (C4 v Hv). specialize (Hm1 v Hv). destruct (C2 v Hv). split_and!; try done; try lia. exists e. split; [left|done].
    + destruct (H3 v Hv) as (? & ? & (w & Hw & ?) & d & Hd & ?). split_and!; try done; [exists w; split; [by apply Hin|done]|]. exists d. split; [by right|done].
Qed.

Section Collect.
Context {K : ReadKernel}.

Lemma collect_entry_ok vmas : forall start end_ l m t, areas_in_order vmas -> 0 <= start < end_ -> end_ <= LIMIT -> aligned start -> aligned end_ ->
  end_ - start < 2 ^ 31 -> 0 <= m < 2 ^ 31 -> (forall a, start <= a < end_ -> in_areas vmas a) ->
  exists o l' m' t', collect_entry vmas start end_ l m t = (o, l', m', t') /\
    (o = None /\ (exists t, k_xmalloc t = false) \/
     exists vmas' new, o = Some vmas' /\ l' = l ++ new /\ cut_at_areas vmas start end_ new /\ areas_in_order vmas' /\ m <= m' < 2 ^ 31 /\
       (forall v, v ∈ new -> li_len v <= m') /\ (forall w, w ∈ vmas' -> w ∈ vmas) /\ forall a, end_ <= a -> in_areas vmas a -> in_areas vmas' a).
Proof.
  induction vmas as [|vma vmas IH]; intros start end_ l m t Hv Hs He Ha Hb Hlen Hm Hin.
  { exfalso. destruct (Hin start ltac:(lia)) as (w & Hw%elem_of_nil & _). done. }
  pose proof (areas_cons _ _ Hv) as (Hvma & Hrest & Hafter). pose proof Hvma as (V1 & V2 & V3 & V4). cbn [collect_entry].
  assert (Hlim : LIMIT < 2 ^ 63) by done.
  destruct (Z.leb_spec (v_end vma) start) as [Hskip|Hnow].
  - assert (Hno : forall a, start <= a -> ~ in_area vma a) by (unfold in_area; lia).
    destruct (IH start end_ l m t) as (o & l' & m' & t' & -> & Hr); try done.
    { intros a Hra. destruct (proj1 (in_areas_cons _ _ _) (Hin a Hra)) as [H|H]; [|done]. by destruct (Hno a (proj1 Hra)). }
    exists o, l', m', t'. split; [done|]. destruct Hr as [?|(vmas' & new & -> & -> & R1 & R2 & R3 & R4 & R5 & R6)]; [by left|right].
    exists vmas', new. split_and!; try done; try lia.
    + eapply cut_weaken; [|done]. intros w Hw. by right.
    + intros w Hw. right. by apply R5.
    + intros a Hra [H|H]%in_areas_cons; [by destruct (Hno a ltac:(lia))|by apply R6].
  - destruct (k_xmalloc t) eqn:Hx; cbn [negb]; [|eexists _, _, _, _; split; [done|]; left; split; [done|by exists t]].
    assert (Hst : v_start vma <= start).
    { destruct (proj1 (in_areas_cons _ _ _) (Hin start ltac:(lia))) as [[? _]|H]; [done|]. specialize (Hafter _ H). lia. }
    set (e := Z.min end_ (v_end vma)) in *. assert (Hmid : start < e <= end_ /\ e <= v_end vma) by lia.
    assert (Hae : aligned e) by (unfold e; destruct (Z.min_spec end_ (v_end vma)) as [[_ ->]|[_ ->]]; done).
    rewrite (u64_id (e - start)), (u64_id m) by lia. replace (start + (e - start)) with e by lia. rewrite (u64_id e) by lia.
    rewrite (s32_id (e - start)) by lia. set (m1 := if m <? e - start then e - start else m).
    assert (Hm1 : m <= m1 < 2 ^ 31 /\ e - start <= m1) by (unfold m1; destruct (Z.ltb_spec m (e - start)); lia).
    change (mk_li start e start) with (same_range start e). destruct (Z.leb_spec end_ (v_end vma)) as [Hlast|Hmore].
    + eexists _, _, _, _. split; [done|]. right. exists (vma :: vmas), [same_range start e]. split_and!; try done; try lia.
      * replace e with end_ by lia. apply (cut_cons vma); try done; try lia; [left|apply cut_nil].
      * intros v ->%list_elem_of_singleton. unfold li_len, same_range. cbn. lia.
    + replace e with (v_end vma) in * by lia.
      destruct (IH (v_end vma) end_ (l ++ [same_range start (v_end vma)]) m1 (S t)) as (o & l' & m' & t' & -> & Hr); try done; try lia.
      { intros a Hra. destruct (proj1 (in_areas_cons _ _ _) (Hin a ltac:(lia))) as [[? ?]|H]; [lia|done]. }
      exists o, l', m', t'. split; [done|]. destruct Hr as [?|(vmas' & new & -> & -> & R1 & R2 & R3 & R4 & R5 & R6)]; [by left|right].
      exists vmas', (same_range start (v_end vma) :: new). split_and!; try done; try lia.
      * by rewrite <-app_assoc.
      * apply (cut_cons vma); try done; try lia; [left|]. eapply cut_weaken; [|done]. intros w Hw. by right.
      * intros v [->|Hnv]%elem_of_cons; [unfold li_len, same_range; cbn; lia|by apply R4].
      * intros w Hw. right. by apply R5.
      * intros a Hra [[? ?]|H]%in_areas_cons; [lia|by apply R6].
Qed.
Lemma collect_loop_ok es : forall fuel pr k vmas l nr m t, pm_ok pr -> drop k (pmes pr) = es -> curr_pme pr = Z.of_nat k - 1 -> (k <= length (pmes pr))%nat ->
  (length es < fuel)%nat -> areas_in_order vmas -> Forall pe_ok es -> pm_sorted es ->
  (forall e, e ∈ es -> pagemap_lazy e = true -> pe_end e <= LIMIT /\ pe_end e - vaddr e < 2 ^ 31) -> (forall a, lazy_at es a -> in_areas vmas a) ->
  0 <= m < 2 ^ 31 -> 0 <= nr -> nr + lazy_pages_of es < 2 ^ 31 ->
  exists o pr' l' t', collect_loop fuel pr vmas l nr m t = Done (o, pr', l', t') /\ same_img pr pr' /\
    (o = None /\ (exists t, k_xmalloc t = false) \/
     exists new m', o = Some (nr + lazy_pages_of es, m') /\ l' = l ++ new /\ collected vmas es new m' /\ m <= m' < 2 ^ 31).
Proof.
  induction es as [|e es IH]; intros fuel pr k vmas l nr m t Hok Hd Hc Hk Hfuel Hv Hf Hs Hlim Hin Hm Hnr Hsum; (destruct fuel as [|fuel]; [cbn in Hfuel; lia|]); cbn [collect_loop]; unfold advance; rewrite Hc.
  - pose proof (f_equal length Hd) as Hl. rewrite length_drop in Hl. cbn in Hl. rewrite (proj2 (Z.leb_le _ _)) by lia.
    eexists _, _, _, _. split; [done|]. split; [done|]. right. exists [], m. rewrite Z.add_0_r, app_nil_r. split_and!; try done; try lia. split; [apply wf_nil| |by intros v Hv'%elem_of_nil].
    intros a i. rewrite holds_nil. split; [done|]. intros [_ (d & Hd'%elem_of_nil & _)]. done.
  - assert (Hke : pmes pr !! k = Some e) by (rewrite <-(Nat.add_0_r k), <-lookup_drop, Hd; done). pose proof (lookup_lt_Some _ _ _ Hke) as Hlt.
    rewrite (proj2 (Z.leb_gt _ _)) by lia. replace (Z.to_nat (Z.of_nat k - 1 + 1)) with k by lia. rewrite Hke. cbn [pe set_pos].
    pose proof Hf as [Hpe Hfes]%list.Forall_cons. destruct (pm_sorted_cons e es Hf Hs) as [Hses _].
    set (pr1 := set_pos pr (Some e) (vaddr e) (pi_off pr) (Z.of_nat k - 1 + 1)).
    assert (Hd1 : drop (S k) (pmes pr1) = es) by (cbn; by rewrite (drop_S _ _ _ Hke) in Hd; simplify_eq).
    cbn [length] in Hfuel. assert (Hlater : forall a, lazy_at es a -> in_areas vmas a) by (intros a H; apply Hin, lazy_at_cons; by right).
    destruct (pagemap_lazy e) eqn:He; cbn [negb].
    + rewrite pagemap_end_ok by done. destruct (Hlim e (list_elem_of_here _ _) He) as [L1 L2]. pose proof (pe_ok_lt e Hpe) as Hlt'.
      pose proof Hpe as (P1 & P2 & P3 & P4 & _). assert (Hae : aligned (pe_end e)) by (unfold pe_end in *; pdiv).
      destruct (collect_entry_ok vmas (vaddr e) (pe_end e) l m t) as (o & l' & m' & t' & -> & Hr); try done.
      { intros a Ha. apply Hin, lazy_at_cons. by left. }
      cbn in Hsum. rewrite He in Hsum. pose proof (lazy_pages_nonneg es Hfes) as Hnn.
      destruct Hr as [[-> Hno]|(vmas' & new & -> & -> & R1 & R2 & R3 & R4 & R5 & R6)].
      { eexists _, _, _, _. split; [done|]. split; [done|]. by left. }
      rewrite s32_id by lia. destruct (IH fuel pr1 (S k) vmas' (l ++ new) (nr + nr_pages e) m' t') as (o2 & pr2 & l2 & t2 & -> & S2 & Hr2); try done; try lia; cbn; try lia.
      { intros d Hd'. apply Hlim. by right. }
      { intros a Ha. apply R6; [|by apply Hlater]. destruct Ha as (d & Hd' & _ & Hcov). pose proof (proj2 (pm_sorted_cons e es Hf Hs) d Hd'). destruct Hcov. lia. }
      eexists _, _, _, _. split; [done|]. split; [by etrans|]. destruct Hr2 as [?|(n2 & m2 & -> & -> & Hco & Hm2)]; [by left|right].
      exists (new ++ n2), m2. cbn. rewrite He, app_assoc, Z.add_assoc. split_and!; try done; try lia. apply (collected_cons vmas vmas' e es new n2 m' m2); try done; lia.
    + cbn in Hsum. rewrite He in Hsum. destruct (IH fuel pr1 (S k) vmas l nr m t) as (o2 & pr2 & l2 & t2 & -> & S2 & Hr2); try done; try lia; cbn; try lia.
      { intros d Hd'. apply Hlim. by right. }
      eexists _, _, _, _. split; [done|]. split; [by etrans|]. destruct Hr2 as [?|(n2 & m2 & -> & -> & Hco & Hm2)]; [by left|right].
      exists n2, m2. cbn. rewrite He. split_and!; try done; try lia. by apply collected_skip.
Qed.

Lemma collect_iovs_ok `{!UffdKernel} s pr up vmas : chain s = pr :: up -> pm_ok pr -> curr_pme pr = -1 -> iovs (lpi s) = [] -> areas_in_order vmas ->
  (forall e, e ∈ pmes pr -> pagemap_lazy e = true -> pe_end e <= LIMIT /\ pe_end e - vaddr e < 2 ^ 31) -> (forall a, lazy_at (pmes pr) a -> in_areas vmas a) ->
  lazy_pages_of (pmes pr) < 2 ^ 31 ->
  exists r s', collect_iovs s (Some vmas) = Done (r, s') /\
    (r = -1 /\ (exists t, k_xmalloc t = false \/ exists n, k_memalign t n = false) \/
     r = lazy_pages_of (pmes pr) /\ collected vmas (pmes pr) (iovs (lpi s')) (buf_size (lpi s')) /\ Forall2 same_img (chain s) (chain s') /\ mem s' = mem s /\
     exited (lpi s') = exited (lpi s) /\ reqs (lpi s') = reqs (lpi s) /\ xfer_len (lpi s') = xfer_len (lpi s)).
Proof.
  intros Hc Hok Hcur Hi Hv Hlim Hin Hsum. unfold collect_iovs. rewrite Hc. destruct Hok as [Hf Hs].
  destruct (collect_loop_ok (pmes pr) (S (length (pmes pr) + Z.to_nat (- curr_pme pr))) pr 0 vmas (iovs (lpi s)) 0 0 (now s))
    as (o & pr' & l' & t' & -> & Hsame & Hr); try done; try lia.
  cbn [rbind]. destruct Hr as [[-> [tm Hm]]|(new & m & -> & -> & Hco & Hm)]; [eexists _, _; split; [done|]; left; split; [done|]; exists tm; by left|].
  cbn [buf_size lpi set_now set_lpi set_buf_size]. rewrite u64_id by lia. destruct (k_memalign t' m) eqn:E; cbn [negb].
  2:{ eexists _, _. split; [done|]. left. split; [done|]. exists t'. right. by exists m. }
  eexists _, _. split; [done|]. right. cbn. rewrite Hi. split_and!; try done. constructor; [done|apply same_chain_refl].
Qed.
End Collect.
End LazyOpen.
