(* ===== verification/LazyLocal.v ===== *)
(** * The lazy-pages daemon with local images

    When the images are on the daemon's machine a request is served at once.  Whatever the task does to its memory in the
    meantime, every page that it started without is then either still in the daemon's lists or filled with what it held
    when it was dumped. *)
From S2P Require Import Prelude.
From S2P Require Import Pagemap.
From S2P Require Import LazyIovs.
From S2P Require Import LazyPages.
Import Pagemap.Pagemap LazyIovs.LazyIovs.

Module LazyLocal.
Export LazyPages.

(** ** The kernel *)
(** a failed copy has not copied everything; a registered descriptor can be removed *)
Class UffdKernelOk (U : UffdKernel) : Prop := {
  copy_part : forall t dst len e rc, 0 <= len -> k_copy t dst len = UErr e rc -> rc < len;
  epoll_del_ok : forall t, k_epoll_del t = true;
}.
(** a kernel that fills what it is asked to fill *)
Class UffdKernelLive (U : UffdKernel) : Prop := {
  copy_ok : forall t dst len, k_copy t dst len = UOk;
  memalign_ok : forall t n, k_memalign t n = true;
  epoll_add_ok : forall t, k_epoll_add t = true;
}.

(** one of them, for examples *)
Definition demo_uffd_kernel : UffdKernel := {|
  k_copy := fun _ _ _ => UOk; k_zero := fun _ _ => UOk; k_unregister := fun _ => None; k_memalign := fun _ _ => true; k_epoll_del := fun _ => true;
  k_epoll_add := fun _ => true |}.
#[export] Instance demo_uffd_kernel_ok : UffdKernelOk demo_uffd_kernel.
Proof. by split. Qed.

(** ** Lists *)
Lemma wf_delete l j v : wf l -> l !! j = Some v -> wf (delete j l) /\ (forall w, w ∈ delete j l -> apart v w) /\ li_ok v /\ l ≡ₚ v :: delete j l.
Proof.
  intros Hw Hj. pose proof (take_drop_middle l j v Hj) as Hl. assert (Hd : delete j l = take j l ++ drop (S j) l) by (by rewrite list.delete_take_drop).
  pose proof Hw as Hw'. rewrite <-Hl in Hw'. apply wf_app in Hw' as (H1 & (H2 & H3 & H4)%wf_cons & H5). rewrite Hd. split_and!; [| |done|].
  - apply wf_app. split_and!; try done. intros u w Hu Hx. apply H5; [done|by apply list_elem_of_further].
  - intros w [Hx|Hx]%elem_of_app; [right; apply (H5 w v Hx (list_elem_of_here _ _))|]. rewrite list.Forall_forall in H3. left. by apply H3.
  - rewrite <-Hd. by apply delete_Permutation.
Qed.

Lemma covers_unique l e e' a : Forall pe_ok l -> pm_sorted l -> e ∈ l -> e' ∈ l -> covers e a -> covers e' a -> e = e'.
Proof.
  intros Hf Hs [i Hi]%list_elem_of_lookup [j Hj]%list_elem_of_lookup [A1 A2] [B1 B2]. destruct (Nat.lt_total i j) as [H|[->|H]]; [|congruence|].
  - pose proof (pm_sorted_before l i j e e' Hf Hs H Hi Hj). lia.
  - pose proof (pm_sorted_before l j i e' e Hf Hs H Hj Hi). lia.
Qed.

(** The length of the range that an unmap event reports goes through an [int]: when 2 GiB are unmapped nothing is taken out
    of the lists, and the daemon goes on to fill memory that the task no longer has. *)
Theorem large_unmap_is_ignored {K : ReadKernel} {U : UffdKernel} s start : exists s', handle_remove s false start (start + 2 ^ 31) = (0, s') /\ lpi s' = lpi s.
Proof.
  unfold handle_remove. rewrite (u64_id (start + 2 ^ 31 - start)) by lia. unfold drop_iovs.
  replace (start + 2 ^ 31 - start) with (2 ^ 31) by lia.
  change (s32 (2 ^ 31)) with (- 2 ^ 31). assert (Hd : forall l t, drop_loop l start (- 2 ^ 31) t = (0, l, t)) by (by intros [|]).
  rewrite !Hd. change (negb (0 =? 0)) with false. cbn iota. eexists. split; [done|]. by destruct s as [[] ? ? ? ? ?].
Qed.

(** C37: When the beginning of a range is unmapped while the request for the range is on its way, the request is trimmed and
    the reply, which is for the old beginning, no longer finds it: the reply is dropped, the request is never completed, and
    accesses to the rest of the range are never answered. *)
Theorem trimmed_request_is_stuck {K : ReadKernel} {U : UffdKernel} buf handle_pages s v len :
  iovs (lpi s) = [] -> reqs (lpi s) = [v] -> exited (lpi s) = false -> li_ok v -> aligned len -> 0 < len < li_len v -> len < 2 ^ 31 ->
  exists s', handle_remove s false (li_start v) (li_start v + len) = (0, s') /\
    reqs (lpi s') = [mk_li (li_start v + len) (li_end v) (li_img v + len)] /\
    (forall nr, uffd_io_complete buf s' (li_img v) nr = (0, s')) /\
    forall addr, li_start v + len <= addr < li_end v -> handle_page_fault handle_pages s' addr = Done (0, s').
Proof.
  intros Hi Hr Hex (V1 & V2 & V3 & V4 & V5 & V6 & V7) Hal Hlen H31. unfold li_len in *. assert (Hlim : LIMIT < 2 ^ 63) by done.
  unfold handle_remove. rewrite (u64_id (li_start v + len - li_start v)) by lia. unfold drop_iovs. rewrite Hi, Hr.
  replace (li_start v + len - li_start v) with len by lia. rewrite s32_id by lia. cbn [drop_loop]. change (negb (0 =? 0)) with false. cbn iota.
  rewrite !(u64_id (li_start v + len)) by lia. rewrite (proj2 (Z.leb_gt len 0)), (proj2 (Z.ltb_ge (li_start v + len) (li_start v))), (proj2 (Z.leb_gt (li_end v) (li_start v))) by lia. cbn [orb].
  rewrite Z.max_id, Z.ltb_irrefl, Z.eqb_refl, !(u64_id (li_start v + len)), (u64_id (li_img v + len)), (proj2 (Z.ltb_lt (li_start v + len) (li_end v))) by lia.
  change (negb (0 =? 0)) with false. cbn iota. eexists. split; [reflexivity|]. cbn [lpi set_now set_lpi set_lists reqs]. split; [done|]. split.
  - intros nr. unfold uffd_io_complete. cbn [lpi set_now set_lpi set_lists exited reqs]. rewrite Hex. cbn [find_req li_img].
    by rewrite (proj2 (Z.eqb_neq (li_img v + len) (li_img v))) by lia.
  - intros addr Ha. unfold handle_page_fault, is_page_queued. cbn [lpi set_now set_lpi set_lists reqs existsb li_start li_end].
    rewrite (proj2 (Z.leb_le _ _)), (proj2 (Z.ltb_lt _ _)); [done|pdiv|unfold aligned in *; pdiv].
Qed.

(** sixteen pages are on their way when the first is unmapped *)
Lemma trimmed_request_is_stuck_witness :
  let s := mk_lps (mk_lpi false [] [mk_li 0x10000 0x20000 0x10000] DEFAULT_XFER_LEN 16 0 0x10000) [] (fun _ => 0) (fun _ => 0) [(0x10000, 16)] 0%nat in
  exists s', @handle_remove demo_read_kernel demo_uffd_kernel s false 0x10000 0x11000 = (0, s') /\ reqs (lpi s') = [mk_li 0x11000 0x20000 0x11000] /\
    (forall nr, @uffd_io_complete demo_read_kernel demo_uffd_kernel 0x200000 s' 0x10000 nr = (0, s')) /\
    forall addr, 0x11000 <= addr < 0x20000 -> @handle_page_fault demo_read_kernel demo_uffd_kernel (remote_handle_pages (fun _ => true)) s' addr = Done (0, s').
Proof.
  apply (@trimmed_request_is_stuck demo_read_kernel demo_uffd_kernel 0x200000 (remote_handle_pages (fun _ => true)) _ (mk_li 0x10000 0x20000 0x10000) 0x1000); by vm_compute.
Defined.

Section Local.
Context {K : ReadKernel} `{!ReadKernelOk K} `{!ReadKernelLive K} {U : UffdKernel} `{!UffdKernelOk U}.
Variables (buf : Z) (iofuel : nat) (pr0 : page_read) (up0 : list page_read).
Abbreviation chain0 := (pr0 :: up0).
Hypothesis Hchain : Forall (fun pr => pm_ok pr /\ async pr = []) chain0.

(** ** Reading *)
(** [len] bytes from [img] on are in one entry of the images, which is no hole left to the parent *)
Definition readable (img len : Z) : Prop :=
  exists e, e ∈ pmes pr0 /\ pagemap_in_parent e = false /\ vaddr e <= img /\ img + len <= pe_end e /\ resolvable chain0 img len.

Lemma reset_level c va : Forall2 same_img chain0 c -> 0 <= va -> Forall (level_ok va) (reset_pagemap c) /\ Forall2 same_img chain0 (reset_pagemap c).
Proof using Hchain.
  intros Hc Hva. revert Hc Hchain. generalize chain0. intros c0 Hc Hf. induction Hc as [|p q c0 c (H1 & H2 & H3) Hc IH]; [by split|].
  apply list.Forall_cons in Hf as [[[Hp1 Hp2] Hp3] Hf]. destruct (IH Hf) as [IH1 IH2]. unfold reset_pagemap. rewrite fmap_cons. split; constructor; try done.
  unfold level_ok, pm_ok, pos_ok. cbn. rewrite H1, H3. split_and!; try done. left. by split_and!; [..|left].
Qed.

Lemma local_read s img nr : Forall2 same_img chain0 (chain s) -> readable img (nr * PAGE_SIZE) -> 0 <= img -> aligned img -> 0 < nr < 2 ^ 31 ->
  (Z.to_nat (nr * PAGE_SIZE) <= iofuel)%nat ->
  exists s1, local_handle_pages buf iofuel s img nr = (let (r, s2) := uffd_io_complete buf s1 img nr in Done (if r <? 0 then -1 else 0, s2)) /\
    lpi s1 = lpi s /\ mem s1 = mem s /\ Forall2 same_img chain0 (chain s1) /\
    forall k, 0 <= k < nr * PAGE_SIZE -> ref_byte chain0 (img + k) = Some (dmem s1 (buf + k)).
Proof using All.
  intros Hc (e & He & Hpar & He1 & He2 & Hres) Himg Hal Hnr Hio. unfold local_handle_pages.
  destruct (reset_level (chain s) img Hc Himg) as [Hlev Hsame]. destruct (reset_pagemap (chain s)) as [|pr up]; [by inversion Hsame|].
  pose proof Hlev as [(Hok & Hpos & Has & Hcv) Hup]%list.Forall_cons. apply Forall2_cons_1 in Hsame as [Hs0 Hsu].
  assert (Hpe : pe_ok e) by (pose proof Hchain as [[[Hf _] _] _]%list.Forall_cons; rewrite list.Forall_forall in Hf; by apply Hf).
  pose proof (pe_ok_lt e Hpe) as Hlt. pose proof Hpe as (_ & _ & _ & Hend & _).
  assert (Hpos' : 0 < nr * PAGE_SIZE) by (unfold PAGE_SIZE; lia).
  destruct (seek_ok pr img Hok Hpos) as (r & pr1 & Hseek & Hs1 & Hpos1 & _ & Hr); [lia|]. rewrite Hseek. cbn [rbind].
  assert (Hmes : pmes pr = pmes pr0) by (by destruct Hs0).
  destruct r.
  2:{ exfalso. assert (Hno : forall d, d ∈ pmes pr -> ~ covers d img) by (by apply (passed_not_covered pr pr1 img)).
      apply (Hno e); [by rewrite Hmes|unfold covers; lia]. }
  destruct Hr as (k & e' & Hat & Hcov & Hcv1). cbn [negb].
  assert (Hee : e' = e).
  { destruct Hat as (_ & Hk & _). destruct Hs1 as [Hm1 _]. rewrite Hm1, Hmes in Hk. pose proof Hchain as [[[Hf Hso] _] _]%list.Forall_cons.
    apply (covers_unique (pmes pr0) e' e img Hf Hso); [by eapply list_elem_of_lookup_2|done|done|unfold covers; lia]. }
  subst e'. assert (Hsame1 : Forall2 same_img chain0 (pr1 :: up)) by (constructor; [by etrans|done]).
  assert (Hlev1 : Forall (level_ok img) (pr1 :: up)).
  { constructor; [|done]. destruct Hs1 as (M1 & M2 & M3). unfold level_ok, pm_ok. rewrite M1, M3. split_and!; try done; [apply Hok..|lia]. }
  assert (Hres1 : resolvable (pr1 :: up) img (nr * PAGE_SIZE)).
  { intros a Ha. rewrite (ref_byte_same chain0 (pr1 :: up)) by done. by apply Hres. }
  assert (Hfl : Z.land (Z.lor PR_ASYNC PR_ASAP) (Z.lor PR_ASYNC PR_ASAP) <> PR_ASYNC) by done.
  destruct (read_pagemap_page_ok false (Z.lor PR_ASYNC PR_ASAP) (S (length up)) iofuel Hfl (now s) (dmem s) pr1 up img nr buf k e)
    as (t' & m' & c' & -> & (P1 & P2 & P3 & P4)); try done.
  cbn [rbind]. change (1 <=? 0) with false. cbn iota. destruct Hat as [-> _]. rewrite Hpar.
  eexists. split; [reflexivity|]. cbn [lpi mem chain dmem]. split; [done|]. split; [done|]. split.
  - clear -Hsame1 P1. revert c' P1. induction Hsame1 as [|a b c d Hab _ IH]; intros c' P1; [by inversion P1|].
    inversion P1; subst. constructor; [by etrans|by apply IH].
  - intros j Hj. rewrite <-(ref_byte_same chain0 (pr1 :: up)) by done. rewrite P3 by lia. by replace (buf + (img + j - img)) with (buf + j) by lia.
Qed.

(** ** Completing a request *)
(** the kernel does what it is asked, and memory does not run out *)
Definition obliging : Prop := UffdKernelLive U /\ forall t, k_xmalloc t = true.
(** a kernel that never fills anything, because there is no memory at the address *)
Definition refusing : Prop := forall t dst len, k_copy t dst len = UErr U_ENOENT (-2).
(** either way, the daemon reports no error *)
Definition mild : Prop := (UffdKernelLive U \/ refusing) /\ forall t, k_xmalloc t = true.
Lemma obliging_mild : obliging -> mild.
Proof using Type. intros [H1 H2]. split; [by left|done]. Qed.
Definition gone (s : lp_state) : Prop := exited (lpi s) = true /\ iovs (lpi s) = [] /\ reqs (lpi s) = [] /\ Forall2 same_img chain0 (chain s).

(** the first [n] bytes of the requested range [v] are filled, the rest is in the list [l] again *)
Record completed (l : list lazy_iov) (v : lazy_iov) (n : Z) (s s' : lp_state) : Prop := {
  cp_lists : reqs (lpi s') = [] /\ wf (iovs (lpi s'));
  cp_holds : forall a i, holds (iovs (lpi s')) a i <-> holds l a i \/ here v a i /\ li_start v + n <= a;
  cp_filled : forall a, li_start v <= a < li_start v + n -> ref_byte chain0 (li_img v + (a - li_start v)) = Some (mem s' a);
  cp_rest : forall a, ~ li_start v <= a < li_end v -> mem s' a = mem s a;
  cp_inside : inside (iovs (lpi s')) (v :: l);
  cp_kept : chain s' = chain s /\ exited (lpi s') = false /\ xfer_len (lpi s') = xfer_len (lpi s) /\ buf_size (lpi s') = buf_size (lpi s) /\
            total_pages (lpi s') = total_pages (lpi s);
}.

(** a copy fills [n] pages, more than that of the last one perhaps *)
Lemma uffd_copy_ok s address nr : 0 <= nr < 2 ^ 31 -> Forall2 same_img chain0 (chain s) -> exists r n s1, uffd_copy buf s address nr = (r, n, s1) /\
  (r = -1 /\ ~ (UffdKernelLive U \/ refusing) \/ r = 0 /\ (gone s1 /\ ~ (UffdKernelLive U \/ refusing) \/
     0 <= n <= nr /\ (UffdKernelLive U -> n = nr) /\ (refusing -> n = 0) /\ iovs (lpi s1) = iovs (lpi s) /\ reqs (lpi s1) = reqs (lpi s) /\ exited (lpi s1) = exited (lpi s) /\
     chain s1 = chain s /\ xfer_len (lpi s1) = xfer_len (lpi s) /\ buf_size (lpi s1) = buf_size (lpi s) /\ total_pages (lpi s1) = total_pages (lpi s) /\
     (forall a, address <= a < address + n * PAGE_SIZE -> mem s1 a = dmem s (buf + (a - address))) /\
     (forall a, ~ address <= a < address + nr * PAGE_SIZE -> mem s1 a = mem s a))).
Proof using UffdKernelOk0.
  intros Hnr Hch. unfold uffd_copy. destruct (k_copy (now s) address (nr * PAGE_SIZE)) as [|e rc] eqn:E.
  - change (negb (0 =? 0)) with false. cbn iota. eexists _, _, _. split; [reflexivity|]. right. split; [done|]. right.
    split; [lia|]. split; [done|]. split; [intros Hrf; by rewrite Hrf in E|]. do 7 (split; [done|]). cbn. split; intros a Ha.
    + by rewrite (proj2 (Z.leb_le _ _)), (proj2 (Z.ltb_lt _ _)) by lia.
    + destruct ((address <=? a) && (a <? address + nr * PAGE_SIZE)) eqn:Ea; [|done]. apply andb_true_iff in Ea as [?%Z.leb_le ?%Z.ltb_lt]. lia.
  - assert (Hl0 : 0 <= nr * PAGE_SIZE) by (unfold PAGE_SIZE; lia). pose proof (copy_part _ _ _ _ _ Hl0 E) as Hrc.
    assert (Hlive : ~ UffdKernelLive U) by (intros HL; rewrite (copy_ok (UffdKernelLive := HL)) in E; done).
    assert (Href : refusing -> e = U_ENOENT /\ rc = -2) by (intros Hrf; rewrite Hrf in E; by simplify_eq).
    assert (Hex : forall s0 n0, chain s0 = chain s -> exists r n s1, (let '(r, nr, s) := (0, n0, snd (handle_exit s0)) in
      if negb (r =? 0) then (-1, nr, s) else (0, nr, set_lpi s (set_copied (lpi s) (u64 (copied_pages (lpi s) + nr))))) = (r, n, s1) /\ r = 0 /\ gone s1).
    { intros s0 n0 Hs0. unfold handle_exit. rewrite epoll_del_ok. cbn [negb]. change (negb (0 =? 0)) with false. cbn iota. eexists _, _, _. split; [reflexivity|]. unfold gone. cbn. split_and!; try done. by rewrite Hs0. }
    set (s0 := set_now (filled buf s address (Z.max 0 rc)) (S (now s))).
    assert (Hrec : forall e', (match e' with U_ENOSPC | U_ESRCH => False | _ => True end) -> exists r n s1,
      (let '(r, nr0, s) := if negb (uffd_recoverable_error e' rc) then (-1, nr, s0) else (0, if rc <=? 0 then 0 else s32 (rc / PAGE_SIZE), s0) in
       if negb (r =? 0) then (-1, nr0, s) else (0, nr0, set_lpi s (set_copied (lpi s) (u64 (copied_pages (lpi s) + nr0))))) = (r, n, s1) /\
      (r = -1 /\ e' <> U_ENOENT \/ r = 0 /\ 0 <= n <= nr /\ (0 < rc -> n * PAGE_SIZE <= rc) /\ (rc <= 0 -> n = 0) /\ mem s1 = mem s0 /\
         lpi s1 = set_copied (lpi s0) (u64 (copied_pages (lpi s0) + n)) /\ chain s1 = chain s0)).
    { intros e' _. destruct (uffd_recoverable_error e' rc) eqn:Erec; cbn [negb]; [change (negb (0 =? 0)) with false|change (negb (-1 =? 0)) with true]; cbn iota;
        (eexists _, _, _; split; [reflexivity|]); [right|left; split; [done|by intros ->]]. split; [done|].
      destruct (Z.leb_spec rc 0) as [Hle|Hgt]; [split; [lia|]; split; [lia|]; by split|].
      assert (Hs : s32 (rc / PAGE_SIZE) = rc / PAGE_SIZE) by (unfold s32; rewrite Z.mod_small; pdiv). rewrite Hs.
      split; [pdiv|]. split; [intros _; pdiv|]. split; [lia|done]. }
    assert (Hfin : exists r n s1, (let '(r, nr, s) := uffd_check_op_error s0 nr e rc in
       if negb (r =? 0) then (-1, nr, s) else (0, nr, set_lpi s (set_copied (lpi s) (u64 (copied_pages (lpi s) + nr))))) = (r, n, s1) /\
       (r = -1 /\ e <> U_ENOENT \/ r = 0 /\ (gone s1 /\ e <> U_ENOENT \/ 0 <= n <= nr /\ (0 < rc -> n * PAGE_SIZE <= rc) /\ (rc <= 0 -> n = 0) /\ mem s1 = mem s0 /\
         lpi s1 = set_copied (lpi s0) (u64 (copied_pages (lpi s0) + n)) /\ chain s1 = chain s0))).
    { unfold uffd_check_op_error. destruct e; try (destruct (Hex s0 nr eq_refl) as (r & n & s1 & -> & -> & Hg); exists 0, n, s1; split; [done|]; right; split; [done|left; by split]).
      all: match goal with |- context [uffd_recoverable_error ?e' _] => destruct (Hrec e' I) as (r & n & s1 & -> & Hr) end.
      all: exists r, n, s1; split; [done|]; destruct Hr as [?|(-> & Hr)]; [by left|right; split; [done|by right]]. }
    destruct Hfin as (r & n & s1 & -> & Hr). exists r, n, s1. split; [done|]. assert (Hno : e <> U_ENOENT -> ~ (UffdKernelLive U \/ refusing)) by (intros Hne [?|Hrf]; [done|by destruct (Href Hrf)]).
    destruct Hr as [[? ?]|(-> & [[Hg ?]|(N1 & N2 & N3 & Hm & Hl & Hc)])]; [left; split; [done|by apply Hno]|right; split; [done|left; split; [done|by apply Hno]]|].
    right. split; [done|]. right. split; [done|]. split; [by intros ?%Hlive|]. split; [intros Hrf; destruct (Href Hrf); apply N3; lia|]. rewrite Hl, Hc, Hm. do 7 (split; [done|]). cbn. split; intros a Ha.
    + destruct (Z.le_gt_cases rc 0) as [Hz|Hz]; [rewrite (N3 Hz) in Ha; lia|]. specialize (N2 ltac:(lia)).
      by rewrite (proj2 (Z.leb_le _ _)), (proj2 (Z.ltb_lt _ _)) by lia.
    + destruct ((address <=? a) && (a <? address + Z.max 0 rc)) eqn:Ea; [|done]. apply andb_true_iff in Ea as [?%Z.leb_le ?%Z.ltb_lt]. lia.
Qed.

Lemma page_len v : li_ok v -> (li_end v - li_start v) / PAGE_SIZE * PAGE_SIZE = li_len v.
Proof using Type. intros (H1 & _ & _ & _ & H5 & H6 & _). unfold li_len, aligned in *. pdiv. Qed.

Lemma complete_ok s l v nr : Forall2 same_img chain0 (chain s) ->
  exited (lpi s) = false -> iovs (lpi s) = l -> reqs (lpi s) = [v] -> wf l -> li_ok v -> 0 < li_start v -> (forall w, w ∈ l -> apart v w) ->
  li_len v = nr * PAGE_SIZE -> 0 < nr -> nr * PAGE_SIZE < 2 ^ 31 ->
  (forall k, 0 <= k < nr * PAGE_SIZE -> ref_byte chain0 (li_img v + k) = Some (dmem s (buf + k))) ->
  exists r s', uffd_io_complete buf s (li_img v) nr = (r, s') /\
    (r = -1 /\ ~ mild \/ r = 0 /\ (gone s' /\ ~ mild \/ exists n, 0 <= n <= nr /\ (UffdKernelLive U -> n = nr) /\ (refusing -> n = 0) /\ completed l v (n * PAGE_SIZE) s s')).
Proof using UffdKernelOk0.
  intros Hch Hex Hl Hr Hwf Hv Hpos Hap Hlen Hnr Hnr2 Hdata. unfold uffd_io_complete. rewrite Hex, Hr. cbn [find_req]. rewrite Z.eqb_refl. cbn [lookup list_lookup].
  rewrite (proj2 (Z.eqb_neq (li_start v) 0)) by lia. pose proof Hv as (V1 & V2 & V3 & V4 & V5 & V6 & V7).
  assert (Hlim : LIMIT < 2 ^ 63) by done. unfold li_len in Hlen.
  assert (Hreq : s32 ((li_end v - li_start v) / PAGE_SIZE) = nr) by (rewrite Hlen; unfold PAGE_SIZE in *; rewrite Z.div_mul by lia; unfold s32; rewrite Z.mod_small; lia).
  rewrite Hreq, Z.min_id. destruct (uffd_copy_ok s (li_start v) nr ltac:(unfold PAGE_SIZE in *; lia) Hch) as (r & n & s1 & -> & Hc).
  destruct Hc as [[-> Hnl]|(-> & [[Hg Hnl]|(N1 & N2 & N3 & C1 & C2 & C3 & C4 & C5 & C6 & C7 & C8 & C9)])].
  { eexists _, _. split; [done|]. left. split; [done|]. by intros [? _]. }
  { destruct Hg as (G1 & G2 & G3 & G4). change (0 <? 0) with false. rewrite G1. cbn iota. eexists _, _. split; [done|]. right. split; [done|]. left.
    split; [done|]. by intros [? _]. }
  change (0 <? 0) with false. rewrite C3, Hex. cbn iota. rewrite C1, Hl.
  destruct (iov_list_insert_ok v l Hwf Hv Hap) as (l' & -> & Hwf' & Hp). rewrite C2, Hr. cbn [delete list_delete].
  unfold drop_iovs. cbn [iovs reqs set_lists]. assert (Hs : s32 (n * PAGE_SIZE) = n * PAGE_SIZE) by (unfold s32, PAGE_SIZE in *; rewrite Z.mod_small; lia). rewrite Hs.
  destruct (drop_iov_loop_ok l' (li_start v) (n * PAGE_SIZE) (now s1) Hwf') as (r & l2 & t2 & -> & Hr2); [lia|unfold PAGE_SIZE in *; lia|unfold PAGE_SIZE, LIMIT in *; lia|done|unfold aligned, PAGE_SIZE; apply Z_mod_mult|].
  destruct Hr2 as [[-> [tm Hm]]|(-> & W2 & W3 & W4)].
  { change (negb (-1 =? 0)) with true. cbn iota. eexists _, _. split; [done|]. left. split; [done|]. intros [_ Ha]. by rewrite Ha in Hm. }
  change (negb (0 =? 0)) with false. cbn iota. cbn [drop_loop]. change (negb (0 =? 0)) with false. cbn iota.
  eexists _, _. split; [done|]. right. split; [done|]. right. exists n. split; [done|]. split; [done|]. split; [done|].
  assert (Hrest : forall a i, holds l a i -> ~ li_start v <= a < li_end v).
  { intros a i (w & Hw & [Ha _]) Hb. destruct (Hap w Hw); lia. }
  split; cbn [lpi iovs reqs set_lists set_now set_lpi mem chain exited xfer_len buf_size total_pages]; try done.
  - intros a i. rewrite W4, (holds_perm l' (v :: l)), holds_cons by done. unfold in_range. split.
    + intros [[H|H] Hn]; [right|by left]. split; [done|]. destruct H. lia.
    + intros [H|[H Hn]]; [|split; [by left|lia]]. split; [by right|]. specialize (Hrest a i H). unfold PAGE_SIZE in *. lia.
  - intros a Ha. rewrite Hdata by (unfold PAGE_SIZE in *; lia). by rewrite C8.
  - intros a Ha. apply C9. by rewrite <-Hlen, Z.add_sub_assoc, Z.add_simpl_l.
  - intros w Hw. destruct (W3 w Hw) as (u & Hu & ?). exists u. by rewrite Hp in Hu.
  - split_and!; congruence.
Qed.

(** ** The invariant *)
(** [origin a = Some i]: byte [a] of the task was byte [i] when it was dumped, and the task started without it *)
Record serving (origin : Z -> option Z) (s : lp_state) : Prop := {
  sv_alive : exited (lpi s) = false;
  sv_lists : wf (iovs (lpi s)) /\ reqs (lpi s) = [];
  sv_chain : Forall2 same_img chain0 (chain s);
  sv_iov : forall v, v ∈ iovs (lpi s) -> readable (li_img v) (li_len v) /\ li_len v <= buf_size (lpi s);
  sv_pos : forall v, v ∈ iovs (lpi s) -> 0 < li_start v;
  sv_xfer : PAGE_SIZE <= xfer_len (lpi s) <= MAX_XFER_LEN /\ aligned (xfer_len (lpi s));
  sv_origin : forall a i, holds (iovs (lpi s)) a i -> origin a = Some i;
  sv_filled : forall a i, origin a = Some i -> holds (iovs (lpi s)) a i \/ ref_byte chain0 i = Some (mem s a);
}.

Lemma readable_part v w : part w v -> readable (li_img v) (li_len v) -> readable (li_img w) (li_len w).
Proof using Type.
  intros (H1 & H2 & H3) (e & E1 & E2 & E3 & E4 & E5). exists e. unfold li_len in *. split_and!; try done; try lia.
  intros a Ha. apply E5. lia.
Qed.

(** parts of ranges that were fine are fine *)
Lemma serving_parts origin s l : serving origin s -> inside l (iovs (lpi s)) ->
  (forall v, v ∈ l -> readable (li_img v) (li_len v) /\ li_len v <= buf_size (lpi s)) /\ forall v, v ∈ l -> 0 < li_start v.
Proof using Type.
  intros Hs Hin. split; intros v Hv; destruct (Hin v Hv) as (w & Hw & HP).
  - destruct (sv_iov _ _ Hs w Hw) as [H1 H2]. split; [by eapply readable_part|]. destruct HP. unfold li_len in *. lia.
  - pose proof (sv_pos _ _ Hs w Hw). destruct HP. lia.
Qed.

(** what a request does when it succeeds *)
Record requested (origin : Z -> option Z) (s s' : lp_state) (st e : Z) : Prop := {
  rq_serving : serving origin s';
  rq_less : forall a i, holds (iovs (lpi s')) a i -> holds (iovs (lpi s)) a i;
  rq_done : UffdKernelLive U -> forall a i, holds (iovs (lpi s')) a i <-> holds (iovs (lpi s)) a i /\ ~ st <= a < e;
  rq_refused : refusing -> forall a i, holds (iovs (lpi s')) a i <-> holds (iovs (lpi s)) a i;
}.

Lemma completed_serving origin s s1 s' l v n st e : serving origin s ->
  (forall a i, holds (v :: l) a i <-> holds (iovs (lpi s)) a i) -> inside (v :: l) (iovs (lpi s)) -> (forall w, w ∈ l -> apart v w) ->
  Forall2 same_img chain0 (chain s1) -> mem s1 = mem s -> buf_size (lpi s1) = buf_size (lpi s) ->
  PAGE_SIZE <= xfer_len (lpi s1) <= MAX_XFER_LEN /\ aligned (xfer_len (lpi s1)) ->
  li_start v = st -> li_end v = e -> 0 <= n <= li_len v -> (UffdKernelLive U -> n = li_len v) -> (refusing -> n = 0) ->
  completed l v n s1 s' -> requested origin s s' st e.
Proof using Type.
  intros Hs Hh Hin Hap Hc Hm Hbs Hx <- <- Hn Hlive Hrefuse [[C1 C1'] C2 C3 C4 C5 (C6 & C7 & C8 & C9 & _)].
  assert (Hless : forall a i, holds (iovs (lpi s')) a i -> holds (iovs (lpi s)) a i).
  { intros a i H. apply C2 in H. apply Hh, holds_cons. tauto. }
  destruct (serving_parts origin s _ Hs (inside_trans _ _ _ C5 Hin)) as [P1 P2].
  assert (Hout : forall a i, holds l a i -> ~ li_start v <= a < li_end v) by (intros a i (w & Hw & [Ha _]) Hb; destruct (Hap w Hw); lia).
  split; [split|done| |].
  - done.
  - done.
  - by rewrite C6.
  - intros w Hw. rewrite C9, Hbs. by apply P1.
  - done.
  - by rewrite C8.
  - intros a i H. by apply (sv_origin _ _ Hs), Hless.
  - intros a i Ho. assert (Hcase : holds (v :: l) a i \/ ref_byte chain0 i = Some (mem s a) /\ ~ li_start v <= a < li_end v).
    { destruct (decide (li_start v <= a < li_end v)) as [Ha|Ha].
      - left. assert (Hx' : holds (v :: l) a (li_img v + (a - li_start v))) by (apply holds_cons; left; by split).
        pose proof (sv_origin _ _ Hs _ _ (proj1 (Hh _ _) Hx')). congruence.
      - destruct (sv_filled _ _ Hs a i Ho) as [H|H]; [left; by apply Hh|by right]. }
    destruct Hcase as [[[Ha ->]|H]%holds_cons|[H Ha]].
    + destruct (decide (li_start v + n <= a)) as [Hna|Hna]; [left; apply C2; right; by split|]. right. apply C3. lia.
    + left. apply C2. by left.
    + right. by rewrite (C4 a Ha), Hm.
  - intros HL a i. specialize (Hlive HL). subst n. rewrite C2, <-Hh, holds_cons. unfold li_len. split.
    + intros [H|[[H1 H2] H3]]; [split; [by right|by eapply Hout]|lia].
    + intros [[[H1 _]|H] Hn']; [done|by left].
  - intros HR a i. specialize (Hrefuse HR). subst n. rewrite C2, <-Hh, holds_cons. split; [intros [H|[H _]]; [by right|by left]|].
    intros [H|H]; [right; split; [done|destruct H; lia]|by left].
Qed.
Lemma updated_len p pf : PAGE_SIZE <= xfer_len p <= MAX_XFER_LEN /\ aligned (xfer_len p) ->
  PAGE_SIZE <= xfer_len (update_xfer_len p pf) <= MAX_XFER_LEN /\ aligned (xfer_len (update_xfer_len p pf)).
Proof using Type.
  intros [H1 H2]. unfold update_xfer_len. cbn. change DEFAULT_XFER_LEN with 65536. change MAX_XFER_LEN with 4194304 in *. unfold aligned, PAGE_SIZE in *.
  match goal with |- context [?x <? ?y] => destruct (Z.ltb_spec x y) end; destruct pf; split; try lia; pdiv.
Qed.

Lemma uffd_zero_ok s a : Forall2 same_img chain0 (chain s) -> (exists s', uffd_zero s a = (-1, s')) \/ exists s', uffd_zero s a = (0, s') /\ (gone s' \/
  lpi s' = lpi s /\ chain s' = chain s /\ forall b, ~ a <= b < a + PAGE_SIZE -> mem s' b = mem s b).
Proof using UffdKernelOk0.
  intros Hch. unfold uffd_zero. destruct (k_zero (now s) a) as [|e rc].
  - right. eexists. split; [done|]. right. split; [done|]. split; [done|]. intros b Hb. cbn.
    destruct ((a <=? b) && (b <? a + PAGE_SIZE)) eqn:E; [|done]. apply andb_true_iff in E as [?%Z.leb_le ?%Z.ltb_lt]. lia.
  - set (s0 := set_now s (S (now s))). assert (Hexit : gone (snd (handle_exit s0))) by (unfold handle_exit; by rewrite epoll_del_ok).
    unfold uffd_check_op_error. destruct e; cbn iota; try (right; eexists; split; [done|by left]).
    all: match goal with |- context [uffd_recoverable_error ?e' _] => destruct (uffd_recoverable_error e' rc) end; cbn [negb];
      [right; eexists; split; [done|by right]|left; by eexists].
Qed.

Lemma not_queued s a : reqs (lpi s) = [] -> is_page_queued (lpi s) a = false.
Proof using Type. intros H. unfold is_page_queued. by rewrite H. Qed.

Lemma page_in v a : li_ok v -> li_start v <= a < li_end v -> aligned a -> a + PAGE_SIZE <= li_end v.
Proof using Type. intros (_ & _ & _ & _ & _ & H & _) Ha Hal. unfold aligned in *. pdiv. Qed.

Hypothesis Hfuel : (Z.to_nat MAX_XFER_LEN <= iofuel)%nat.

Lemma request_range_ok origin s i v st e pf nrf :
  serving origin s -> iovs (lpi s) !! i = Some v -> li_start v <= st < e -> e <= li_end v -> aligned st -> aligned e -> e - st <= MAX_XFER_LEN ->
  (forall w, li_start w = st -> li_end w = e -> nrf w = (e - st) / PAGE_SIZE) ->
  exists r s', request_range (local_handle_pages buf iofuel) s i st e pf nrf = Done (r, s') /\
    (r = -1 /\ ~ mild \/ r = 0 /\ (gone s' /\ ~ mild \/ requested origin s s' st e)).
Proof using All.
  intros Hs Hi H1 H2 Ha1 Ha2 Hmax Hnr. destruct (sv_lists _ _ Hs) as [Hwf Hreq]. unfold request_range.
  destruct (extract_range_ok (iovs (lpi s)) i v st e (now s) Hwf Hi H1 H2 Ha1 Ha2) as (o & l' & t' & -> & [[-> [tm Hm]]|(j & v' & -> & Hj & S1 & S2 & S3 & Hwf' & Hin & Hh)]).
  { eexists _, _. split; [done|]. left. split; [done|]. intros [_ Hma]. by rewrite Hma in Hm. }
  rewrite Hj. destruct (wf_delete l' j v' Hwf' Hj) as (Hwd & Hap & Hv' & Hp). set (l := delete j l') in *. rewrite Hreq.
  set (p := update_xfer_len (set_lists (lpi s) l [v']) pf). set (s0 := set_now (set_lpi s p) t').
  assert (Hin' : inside (v' :: l) (iovs (lpi s))) by (intros w Hw; apply Hin; by rewrite Hp).
  destruct (serving_parts origin s _ Hs Hin') as [Hp1 Hp2]. pose proof (Hp2 v' (list_elem_of_here _ _)) as Hpos.
  destruct (Hp1 v' (list_elem_of_here _ _)) as [Hrd _]. pose proof Hv' as (V1 & V2 & V3 & V4 & V5 & V6 & V7).
  rewrite (Hnr v' S1 S2). set (nr := (e - st) / PAGE_SIZE).
  assert (Hlen : li_len v' = nr * PAGE_SIZE) by (unfold nr; rewrite <-S1, <-S2; symmetry; by apply page_len).
  assert (Hnr2 : 0 < nr /\ nr * PAGE_SIZE <= MAX_XFER_LEN) by (unfold li_len in Hlen; split; [unfold PAGE_SIZE in *; lia|lia]).
  change MAX_XFER_LEN with 4194304 in Hnr2. rewrite Hlen in Hrd.
  destruct (local_read s0 (li_img v') nr) as (s1 & -> & L1 & L2 & L3 & L4); try done; [apply (sv_chain _ _ Hs)|unfold PAGE_SIZE in *; lia|change MAX_XFER_LEN with 4194304 in Hfuel; lia|].
  destruct (complete_ok s1 l v' nr) as (r & s2 & -> & Hr); rewrite ?L1; try done; [apply (sv_alive _ _ Hs)|lia|lia|].
  cbn [rbind]. eexists _, s2. split; [reflexivity|]. destruct Hr as [[-> Hno]|(-> & [Hg|(n & N1 & N2 & N3 & HC)])]; [by left|right; split; [done|by left]|right].
  split; [done|]. right. assert (Hx : PAGE_SIZE <= xfer_len p <= MAX_XFER_LEN /\ aligned (xfer_len p)) by (apply updated_len, (sv_xfer _ _ Hs)).
  apply (completed_serving origin s s1 s2 l v' (n * PAGE_SIZE) st e); try done.
  - intros a k. rewrite <-(holds_perm l' (v' :: l)) by done. apply Hh.
  - by rewrite L1.
  - by rewrite L1.
  - unfold PAGE_SIZE in *. lia.
  - intros HL. rewrite (N2 HL). done.
  - intros HR. by rewrite (N3 HR).
Qed.

(** ** Background transfers and page faults *)
Lemma xfer_pages_ok origin s : serving origin s -> iovs (lpi s) <> [] -> exists v r s',
  head (iovs (lpi s)) = Some v /\ xfer_pages (local_handle_pages buf iofuel) s = Done (r, s') /\
  (r = -1 /\ ~ mild \/ r = 0 /\ (gone s' /\ ~ mild \/
     requested origin s s' (li_start v) (li_start v + Z.min (li_len v) (xfer_len (lpi s))))).
Proof using All.
  intros Hs Hne. unfold xfer_pages. destruct (iovs (lpi s)) as [|v l] eqn:E; [done|]. exists v.
  destruct (sv_lists _ _ Hs) as [Hwf _]. rewrite E in Hwf. apply wf_cons in Hwf as (Hv & _). pose proof Hv as (V1 & V2 & V3 & V4 & V5 & V6 & V7).
  destruct (sv_xfer _ _ Hs) as [X1 X2]. assert (Hlim : LIMIT < 2 ^ 63) by done. change (li_end v - li_start v) with (li_len v).
  assert (Hl : 0 < li_len v) by (unfold li_len; lia). assert (Hps : PAGE_SIZE = 4096) by done.
  rewrite u64_id by (unfold li_len in *; lia).
  destruct (request_range_ok origin s 0 v (li_start v) (li_start v + Z.min (li_len v) (xfer_len (lpi s))) false (fun v => u32 ((li_end v - li_start v) / PAGE_SIZE)))
    as (r & s' & Hrun & Hr).
  - done.
  - by rewrite E.
  - lia.
  - unfold li_len. lia.
  - done.
  - assert (Hal : aligned (li_len v)) by (unfold li_len, aligned in *; pdiv). destruct (Z.min_spec (li_len v) (xfer_len (lpi s))) as [[_ ->]|[_ ->]]; unfold aligned in *; pdiv.
  - lia.
  - intros w -> ->. apply u32_id. change MAX_XFER_LEN with 4194304 in *. rewrite Z.add_simpl_l. pdiv.
  - exists r, s'. split; [done|]. by split.
Qed.

(** a page that is missing is still to be filled, or is none that the task started without *)
Definition missing (origin : Z -> option Z) (s : lp_state) (page : Z) : Prop :=
  forall b i, page <= b < page + PAGE_SIZE -> origin b = Some i -> holds (iovs (lpi s)) b i.

Lemma page_fault_ok origin s addr : serving origin s -> 0 <= addr < LIMIT -> let page := addr - addr mod PAGE_SIZE in missing origin s page ->
  exists r s', handle_page_fault (local_handle_pages buf iofuel) s addr = Done (r, s') /\
    (r = -1 \/ r = 0 /\ (gone s' \/ serving origin s' /\ forall a i, holds (iovs (lpi s')) a i -> holds (iovs (lpi s)) a i)).
Proof using All.
  intros Hs Haddr page Hmiss. unfold handle_page_fault. fold page. destruct (sv_lists _ _ Hs) as [Hwf Hreq]. rewrite not_queued by done.
  assert (Hpg : aligned page /\ 0 <= page <= addr) by (unfold page, aligned; split; pdiv). assert (Hlim : LIMIT < 2 ^ 62 + 1) by done.
  rewrite (u64_id (page + PAGE_SIZE)) by (unfold PAGE_SIZE; lia).
  pose proof (find_iov_ok (iovs (lpi s)) page) as Hf. destruct (find_iov (iovs (lpi s)) page) as [i|].
  - destruct Hf as (v & Hv & Hin). assert (Hok : li_ok v) by (destruct Hwf as [Hfa _]; rewrite list.Forall_forall in Hfa; by eapply Hfa, list_elem_of_lookup_2).
    pose proof (page_in v page Hok Hin (proj1 Hpg)) as Hend.
    destruct (request_range_ok origin s i v page (page + PAGE_SIZE) true (fun _ => 1)) as (r & s' & Hrun & Hr); try done; try (unfold PAGE_SIZE; lia).
    + apply Hpg.
    + destruct Hpg as [Hpa _]. clearbody page. unfold aligned, PAGE_SIZE in *. pdiv.
    + change MAX_XFER_LEN with 4194304. unfold PAGE_SIZE. lia.
    + intros. by rewrite Z.add_simpl_l.
    + exists r, s'. split; [done|]. destruct Hr as [[-> _]|(-> & [[Hg _]|[H1 H2 _ _]])]; [by left|right; split; [done|by left]|right; split; [done|by right]].
  - destruct (uffd_zero_ok s page (sv_chain _ _ Hs)) as [[s' ->]|(s' & -> & Hz)]; [exists (-1), s'; split; [done|by left]|].
    exists 0, s'. split; [done|]. right. split; [done|]. destruct Hz as [Hg|(Hl & Hc & Hm)]; [by left|right]. rewrite Hl. split; [|done].
    destruct Hs as [S1 S2 S3 S4 S5 S6 S7 S8]. split; rewrite ?Hl, ?Hc; try done.
    intros b j Ho. destruct (decide (page <= b < page + PAGE_SIZE)) as [Hb|Hb]; [left; by apply Hmiss|].
    rewrite (Hm b Hb). by apply S8.
Qed.

(** ** Changes of the memory *)
Definition without (origin : Z -> option Z) (start len a : Z) : option Z :=
  if (start <=? a) && (a <? start + len) then None else origin a.
Definition moved_to (origin : Z -> option Z) (from to len a : Z) : option Z :=
  if (to <=? a) && (a <? to + len) then origin (a - (to - from)) else without origin from len a.

Lemma without_some o start len a i : without o start len a = Some i <-> o a = Some i /\ ~ in_range start len a.
Proof using Type.
  clear. unfold without, in_range. destruct ((start <=? a) && (a <? start + len)) eqn:E; [apply andb_true_iff in E as [?%Z.leb_le ?%Z.ltb_lt]|apply andb_false_iff in E as [?%Z.leb_gt|?%Z.ltb_ge]].
  - split; [done|lia].
  - split; [intros; split; [done|lia]|by intros []].
  - split; [intros; split; [done|lia]|by intros []].
Qed.

Lemma drop_serving origin s m start len : serving origin s -> 0 <= start -> 0 <= len < 2 ^ 31 -> start + len <= LIMIT -> aligned start -> aligned len ->
  (forall a, ~ in_range start len a -> m a = mem s a) ->
  exists r p t, drop_iovs (lpi s) start len (now s) = (r, p, t) /\
    (r = -1 \/ r = 0 /\ serving (without origin start len) (set_now (set_lpi (set_task_mem s m) p) t)).
Proof using Type.
  clear Hfuel. intros Hs H1 H2 H3 Ha1 Ha2 Hm. destruct Hs as [S1 [S2 S2'] S3 S4 S5 S6 S7 S8]. unfold drop_iovs. rewrite S2'.
  assert (Hs32 : s32 len = len) by (unfold s32; rewrite Z.mod_small; lia). rewrite Hs32.
  destruct (drop_iov_loop_ok (iovs (lpi s)) start len (now s) S2 H1 H2 H3 Ha1 Ha2) as (r & l & t & -> & [[-> _]|(-> & W1 & W2 & W3)]).
  { eexists _, _, _. split; [done|]. by left. }
  change (negb (0 =? 0)) with false. cbn iota. cbn [drop_loop]. change (negb (0 =? 0)) with false. cbn iota.
  eexists _, _, _. split; [done|]. right. split; [done|]. split; cbn; try done.
  - intros v Hv. destruct (W2 v Hv) as (w & Hw & HP). destruct (S4 w Hw). split; [by eapply readable_part|]. destruct HP. unfold li_len in *. lia.
  - intros v Hv. destruct (W2 v Hv) as (w & Hw & HP). specialize (S5 w Hw). destruct HP. lia.
  - intros a i [Hh Hn]%W3. apply without_some. split; [by apply S7|done].
  - intros a i [Ho Hn]%without_some. destruct (S8 a i Ho) as [Hh|Hf]; [left; by apply W3|right]. by rewrite (Hm a Hn).
Qed.

Lemma remove_ok origin s m is_remove start end_ : serving origin s -> 0 <= start <= end_ -> end_ <= LIMIT -> end_ - start < 2 ^ 31 -> aligned start -> aligned end_ ->
  (forall a, ~ in_range start (end_ - start) a -> m a = mem s a) ->
  exists r s', handle_remove (set_task_mem s m) is_remove start end_ = (r, s') /\
    (r = -1 \/ r = 0 /\ (gone s' \/ serving (without origin start (end_ - start)) s')).
Proof using UffdKernelOk0.
  clear Hfuel. intros Hs H1 H2 H3 Ha1 Ha2 Hm. unfold handle_remove. assert (Hlim : LIMIT < 2 ^ 63) by done. rewrite u64_id by lia.
  assert (Hal : aligned (end_ - start)) by (unfold aligned in *; pdiv).
  assert (Hdrop : forall t, exists r s', (let '(r, p, t) := drop_iovs (lpi (set_now (set_task_mem s m) t)) start (end_ - start) (now (set_now (set_task_mem s m) t)) in
     (r, set_now (set_lpi (set_now (set_task_mem s m) t) p) t)) = (r, s') /\ (r = -1 \/ r = 0 /\ (gone s' \/ serving (without origin start (end_ - start)) s'))).
  { intros t. assert (Hst : serving origin (set_now s t)) by (destruct Hs; by split).
    destruct (drop_serving origin (set_now s t) m start (end_ - start)) as (r & p & t2 & E & Hr); try done; try lia.
    cbn in E. change (lpi (set_now (set_task_mem s m) t)) with (lpi s). change (now (set_now (set_task_mem s m) t)) with t. rewrite E. eexists _, _. split; [done|].
    destruct Hr as [?|[-> Hsv]]; [by left|right; split; [done|by right]]. }
  destruct is_remove.
  - destruct (k_unregister (now (set_task_mem s m))) as [[]|].
    1,2,3,4,5,7: eexists _, _; split; [done|]; by left.
    + eexists _, _. split; [done|]. right. split; [done|]. left. unfold handle_exit. rewrite epoll_del_ok. split_and!; try done. apply (sv_chain _ _ Hs).
    + apply Hdrop.
  - apply (Hdrop (now s)).
Qed.

Lemma remap_ok origin s m from to len : serving origin s -> 0 <= from -> 0 <= len -> from + len <= LIMIT -> 0 < to -> to + len <= LIMIT ->
  aligned from -> aligned to -> aligned len -> (forall a, in_range to len a -> ~ in_range from len a -> origin a = None) ->
  (forall a, in_range to len a -> m a = mem s (a - (to - from))) -> (forall a, ~ in_range to len a -> ~ in_range from len a -> m a = mem s a) ->
  exists r s', handle_remap (set_task_mem s m) from to len = Done (r, s') /\ (r = -1 \/ r = 0 /\ serving (moved_to origin from to len) s').
Proof using Type.
  clear Hfuel. intros [S1 [S2 S2'] S3 S4 S5 S6 S7 S8] H1 H2 H3 H4 H5 Ha1 Ha2 Ha3 Hfree Hm1 Hm2. unfold handle_remap, remap_iovs. cbn [lpi set_task_mem now].
  destruct (remap_one_ok (iovs (lpi s)) from to len (now s)) as (r & l & t & -> & Hr); try done; try lia.
  { intros a i Hh Hto. destruct (decide (from <= a < from + len)) as [Hin|Hin]; [done|]. specialize (S7 a i Hh). rewrite (Hfree a Hto Hin) in S7. done. }
  destruct Hr as [[-> _]|(-> & W1 & W2 & W3)]; cbn [rbind].
  { change (negb (-1 =? 0)) with true. cbn iota. eexists _, _. split; [done|]. by left. }
  change (negb (0 =? 0)) with false. cbn iota. rewrite S2'. cbn -[Z.eqb]. change (negb (0 =? 0)) with false. cbn iota.
  eexists _, _. split; [done|]. right. split; [done|].
  assert (Hmv : forall a i, moved_to origin from to len a = Some i <-> in_range to len a /\ origin (a - (to - from)) = Some i \/
                            ~ in_range to len a /\ ~ in_range from len a /\ origin a = Some i).
  { intros a i. unfold moved_to, in_range at 1 2. destruct ((to <=? a) && (a <? to + len)) eqn:E.
    - apply andb_true_iff in E as [?%Z.leb_le ?%Z.ltb_lt]. split; [intros; left; split; [lia|done]|]. intros [[_ ?]|[? _]]; [done|lia].
    - rewrite without_some. assert (~ to <= a < to + len) by (apply andb_false_iff in E as [?%Z.leb_gt|?%Z.ltb_ge]; lia). tauto. }
  assert (Hshift : forall a, in_range from len (a - (to - from)) <-> in_range to len a) by (unfold in_range; lia).
  split; cbn; try done.
  - intros v Hv. destruct (W2 v Hv) as (w & Hw & HP). destruct (S4 w Hw) as [R1 R2].
    destruct HP as [HP|HP]; (split; [apply (readable_part w _ HP R1)|]) || idtac.
    + destruct HP. unfold li_len in *. lia.
    + assert (Hl : li_len v = li_len (shifted (to - from) v)) by (unfold li_len, shifted; cbn; lia). rewrite Hl.
      split; [apply (readable_part w _ HP R1)|]. destruct HP. unfold li_len, shifted in *. cbn in *. lia.
  - intros v Hv. assert (Hvok : li_ok v) by (destruct W1 as [Hf _]; rewrite list.Forall_forall in Hf; by apply Hf).
    assert (Hh : holds l (li_start v) (li_img v)) by (exists v; split; [done|split; [destruct Hvok; lia|lia]]).
    apply W3 in Hh as [[(w & Hw & [Ha _]) _]|[_ Hto]]; [specialize (S5 w Hw); lia|unfold in_range in Hto; lia].
  - intros a i Hh. apply Hmv. apply W3 in Hh as [[Hh Hn]|[Hh Hto]].
    + right. pose proof (S7 a i Hh) as Ho. split; [|done]. intros Hto. rewrite (Hfree a Hto Hn) in Ho. done.
    + left. split; [done|by apply S7].
  - intros a i Ho. apply Hmv in Ho as [[Hto Ho]|(Hto & Hfrom & Ho)].
    + destruct (S8 _ i Ho) as [Hh|Hf]; [left; apply W3; by right|right]. by rewrite Hm1.
    + destruct (S8 a i Ho) as [Hh|Hf]; [left; apply W3; by left|right]. by rewrite Hm2.
Qed.
End Local.
End LazyLocal.
