(* ===== verification/LazyServe.v ===== *)
(** * A task served by the lazy-pages daemon

    The steps of a task and of the daemon that serves it, one at a time: the daemon transfers ranges and handles the
    events, the task writes, unmaps, moves and forks.  The pages that the task started without are never lost. *)
From stdpp Require Import relations.
From S2P Require Import Prelude.
From S2P Require Import Vma.
From S2P Require Import Pagemap.
From S2P Require Import LazyIovs.
From S2P Require Import LazyPages.
From S2P Require Import LazyOpen.
From S2P Require Import LazyLocal.
Import Pagemap.Pagemap LazyIovs.LazyIovs LazyOpen.LazyOpen LazyLocal.LazyLocal.

Module LazyServe.

(** the bytes that the task starts without, which are where they were when it was dumped *)
Definition lazy_origin (es : list PagemapEntry) (a : Z) : option Z :=
  if existsb (fun e => pagemap_lazy e && ((vaddr e <=? a) && (a <? pe_end e))) es then Some a else None.

Lemma lazy_origin_some es a i : lazy_origin es a = Some i <-> i = a /\ lazy_at es a.
Proof.
  assert (Hb : existsb (fun e => pagemap_lazy e && ((vaddr e <=? a) && (a <? pe_end e))) es = true <-> lazy_at es a).
  { rewrite existsb_exists. unfold lazy_at, covers. split; intros (e & He & H); exists e.
    - apply andb_true_iff in H as [? [?%Z.leb_le ?%Z.ltb_lt]%andb_true_iff]. split; [by apply list_elem_of_In|done].
    - split; [by apply list_elem_of_In|]. destruct H as (-> & ? & ?). apply andb_true_iff. split; [done|]. apply andb_true_iff. by rewrite Z.leb_le, Z.ltb_lt. }
  unfold lazy_origin. destruct (existsb _ es); [|naive_solver]. split; [intros [= <-]; naive_solver|by intros [-> _]].
Qed.

Section Serve.
Context {K : ReadKernel} `{!ReadKernelOk K} `{!ReadKernelLive K} {U : UffdKernel} `{!UffdKernelOk U}.
Variables (buf : Z) (iofuel : nat) (pr0 : page_read) (up0 : list page_read).
Abbreviation chain0 := (pr0 :: up0).
Hypothesis Hchain : Forall (fun pr => pm_ok pr /\ async pr = []) chain0.
Abbreviation serving := (serving pr0 up0).
Abbreviation gone := (gone pr0 up0).

(** ** The start *)
(** what the images must be: the lazy entries are in the areas of the task, and their pages are here *)
Record lazy_images (vmas : list Vma.VmaEntry) : Prop := {
  lz_areas : areas_in_order vmas;
  lz_cover : forall a, lazy_at (pmes pr0) a -> in_areas vmas a;
  lz_entry : forall e, e ∈ pmes pr0 -> pagemap_lazy e = true ->
    pagemap_in_parent e = false /\ 0 < vaddr e /\ pe_end e <= LIMIT /\ pe_end e - vaddr e < 2 ^ 31 /\ resolvable chain0 (vaddr e) (pe_end e - vaddr e);
  lz_count : lazy_pages_of (pmes pr0) < 2 ^ 31;
  lz_fresh : curr_pme pr0 = -1;
}.

Lemma ud_open_ok pid vmas dm m t : 0 <= pid -> lazy_images vmas -> exists r o t',
  ud_open (Some pid) true (1, chain0) (Some vmas) dm m t = Done (r, o, t') /\
  (r = -1 /\ o = None /\ ~ obliging \/ r = 0 /\ exists s, o = Some s /\ serving (lazy_origin (pmes pr0)) s /\ mem s = m).
Proof using Hchain.
  intros Hpid [L1 L2 L3 L4 L5]. unfold ud_open. destruct (k_xmalloc t) eqn:Ex; cbn [negb].
  2:{ eexists _, _, _. split; [done|]. left. split_and!; try done. intros [_ H]. by rewrite H in Ex. }
  rewrite (proj2 (Z.ltb_ge pid 0)) by done. change (1 <=? 0) with false. cbn iota.
  pose proof Hchain as [[Hok Has] Hup]%list.Forall_cons.
  destruct (collect_iovs_ok (mk_lps lpi_init chain0 dm m [] (S t)) pr0 up0 vmas) as (r & s & -> & Hr); try done.
  { intros e He Hl. destruct (L3 e He Hl) as (_ & _ & ? & ? & _). done. }
  cbn [rbind]. destruct Hr as [[-> [tm Hm]]|(-> & [C1 C2 C3] & Hsame & Hmem & Hex & Hrq & Hx)].
  { eexists _, _, _. split; [done|]. left. split_and!; try done. intros [HL H]. destruct Hm as [Hm|[n Hm]]; [by rewrite H in Hm|].
    rewrite (memalign_ok (UffdKernelLive := HL)) in Hm. done. }
  pose proof (lazy_pages_nonneg (pmes pr0) (proj1 Hok)). rewrite (proj2 (Z.ltb_ge _ 0)) by lia.
  eexists _, _, _. split; [done|]. right. split; [done|]. eexists. split; [done|]. split; [|done].
  split; cbn; try done.
  - intros v Hv. destruct (C3 v Hv) as (Hlen & Himg & _ & e & He & Hl & E1 & E2). destruct (L3 e He Hl) as (P1 & P2 & P3 & P4 & P5).
    split; [|done]. exists e. unfold li_len in *. rewrite Himg. split_and!; try done; try lia. intros a Ha. apply P5. lia.
  - intros v Hv. destruct (C3 v Hv) as (_ & _ & _ & e & He & Hl & E1 & E2). destruct (L3 e He Hl). lia.
  - rewrite Hx. cbn. split; [|done]. split; done.
  - intros a i [-> Ha]%C2. by apply lazy_origin_some.
  - intros a i Ha%lazy_origin_some. left. by apply C2.
Qed.

(** ** Forks *)
Lemma copy_iovs_ok p t : reqs p = [] -> exists r p' t', copy_iovs p t = (r, p', t') /\
  (r = -1 /\ ~ obliging \/ r = 0 /\ exited p' = false /\ iovs p' = iovs p /\ reqs p' = [] /\ xfer_len p' = DEFAULT_XFER_LEN /\ buf_size p' = buf_size p).
Proof using Type.
  intros Hr. unfold copy_iovs. destruct (copy_iov_list_ok (iovs p) t) as (r & l & t1 & -> & [[-> [tm Hm]]|[-> ->]]).
  { change (negb (-1 =? 0)) with true. cbn iota. eexists _, _, _. split; [done|]. left. split; [done|]. intros [_ H]. by rewrite H in Hm. }
  change (negb (0 =? 0)) with false. cbn iota. rewrite Hr. cbn [copy_iov_list]. change (negb (0 =? 0)) with false. cbn iota. cbn [merge_iov_lists buf_size].
  destruct (k_memalign t1 (buf_size p)) eqn:E; cbn [negb]; (eexists _, _, _; split; [done|]); [right; done|left; split; [done|]].
  intros [HL _]. by rewrite (memalign_ok (UffdKernelLive := HL)) in E.
Qed.

(** a child starts with what its parent has, wherever the images were opened *)
Lemma handle_fork_ok origin s root : serving origin s -> Forall2 same_img chain0 (chain root) -> exists r o t',
  handle_fork s root = (r, o, t') /\
  (r = -1 /\ o = None /\ ~ obliging \/ r = 1 /\ exists c, o = Some c /\ serving origin c /\ mem c = mem s).
Proof using Hchain.
  intros [S1 [S2 S2'] S3 S4 S5 S6 S7 S8] Hroot. unfold handle_fork. destruct (k_xmalloc (now s)) eqn:Ex; cbn [negb].
  2:{ eexists _, _, _. split; [done|]. left. split_and!; try done. intros [_ H]. by rewrite H in Ex. }
  destruct (copy_iovs_ok (lpi s) (S (now s)) S2') as (r & p & t' & -> & [[-> Hno]|(-> & P1 & P2 & P3 & P4 & P5)]).
  { change (negb (-1 =? 0)) with true. cbn iota. eexists _, _, _. split; [done|]. by left. }
  change (negb (0 =? 0)) with false. cbn iota. destruct (chain root) as [|src parents] eqn:Er; [by inversion Hroot|]. cbn [dup_page_read].
  eexists _, _, _. split; [done|]. right. split; [done|]. eexists. split; [done|]. split; [|done].
  split; cbn; rewrite ?P1, ?P2, ?P3, ?P4, ?P5; try done.
  apply Forall2_cons_1 in Hroot as [(Hm & Hpi & Ha) Hp]. pose proof Hchain as [[Hok Has] Hup]%list.Forall_cons. constructor.
  - unfold same_img. cbn. by rewrite Has.
  - clear -Hp Hup. revert Hup. induction Hp as [|a b c d (H1 & H2 & H3) Hp IH]; intros Hup; [constructor|].
    apply list.Forall_cons in Hup as [[_ Hb] Hup]. cbn. constructor; [|by apply IH]. done.
Qed.
(** ** Steps *)
Hypothesis Hfuel : (Z.to_nat MAX_XFER_LEN <= iofuel)%nat.
Abbreviation handle_pages := (local_handle_pages buf iofuel).

(** where the bytes that the task started without come from, and the state *)
Definition conf : Type := (Z -> option Z) * lp_state.

(** What the task has done when the daemon reads message [m]: it accessed a missing page, dropped or unmapped a range, moved
    one to where nothing is to be filled, or forked.  The kernel has changed its memory accordingly. *)
Inductive happened : uffd_msg -> conf -> conf -> Prop :=
| did_access o s addr : 0 <= addr < LIMIT -> missing o s (addr - addr mod PAGE_SIZE) -> happened (EventPagefault addr) (o, s) (o, s)
| did_drop o s msg start end_ m : msg = EventRemove start end_ \/ msg = EventUnmap start end_ ->
    0 <= start <= end_ -> end_ <= LIMIT -> end_ - start < 2 ^ 31 -> aligned start -> aligned end_ -> (forall a, ~ in_range start (end_ - start) a -> m a = mem s a) ->
    happened msg (o, s) (without o start (end_ - start), set_task_mem s m)
| did_move o s from to len m : 0 <= from -> 0 <= len -> from + len <= LIMIT -> 0 < to -> to + len <= LIMIT -> aligned from -> aligned to -> aligned len ->
    (forall a, in_range to len a -> ~ in_range from len a -> o a = None) ->
    (forall a, in_range to len a -> m a = mem s (a - (to - from))) -> (forall a, ~ in_range to len a -> ~ in_range from len a -> m a = mem s a) ->
    happened (EventRemap from to len) (o, s) (moved_to o from to len, set_task_mem s m)
| did_fork o s ufd : happened (EventFork ufd) (o, s) (o, s).

(** A handler that succeeds ends a step.  A task may write where nothing is to be filled; what it writes is its own.  Other
    tasks are served in the meantime. *)
Inductive lstep : conf -> conf -> Prop :=
| step_xfer o s r s' : exited (lpi s) = false -> iovs (lpi s) <> [] -> xfer_pages handle_pages s = Done (r, s') -> 0 <= r -> lstep (o, s) (o, s')
| step_event m o s o1 s1 root r s' c : exited (lpi s) = false -> happened m (o, s) (o1, s1) -> Forall2 same_img chain0 (chain root) ->
    handle_uffd_event handle_pages s1 root (RMsg m) = Done (r, s', c) -> 0 <= r -> lstep (o, s) (o1, s')
| step_child m o s o1 s1 root r s' c : exited (lpi s) = false -> happened m (o, s) (o1, s1) -> Forall2 same_img chain0 (chain root) ->
    handle_uffd_event handle_pages s1 root (RMsg m) = Done (r, s', Some c) -> 0 <= r -> lstep (o, s) (o1, c)
| step_write o s start len m : exited (lpi s) = false -> (forall a i, in_range start len a -> ~ holds (iovs (lpi s)) a i) -> (forall a, ~ in_range start len a -> m a = mem s a) ->
    lstep (o, s) (without o start len, set_task_mem s m)
| step_others o s t : lstep (o, s) (o, set_now s t).

Lemma serving_now o s t : serving o s -> serving o (set_now s t).
Proof using Type. intros []. by split. Qed.

Lemma event_ok m c c1 root : serving (fst c) (snd c) -> happened m c c1 -> Forall2 same_img chain0 (chain root) ->
  exists r s' d, handle_uffd_event handle_pages (snd c1) root (RMsg m) = Done (r, s', d) /\
    (r = -1 \/ 0 <= r /\ (gone s' \/ serving (fst c1) s') /\ forall child, d = Some child -> serving (fst c1) child).
Proof using All.
  intros Hs Hh Hroot. destruct Hh as [o s addr Ha Hm|o s msg st e m Hmsg H1 H2 H3 H4 H5 H6|o s from to len m H1 H2 H3 H4 H5 H6 H7 H8 H9 H10 H11|o s ufd]; cbn [fst snd] in *.
  - destruct (page_fault_ok buf iofuel pr0 up0 Hchain Hfuel o s addr) as (r & s' & E & Hr); try done. cbn [handle_uffd_event]. rewrite E.
    eexists _, _, _. split; [done|]. destruct Hr as [?|(-> & [Hg|[Hsv _]])]; [by left|right|right]; (split; [done|]; split; [|done]); [by left|by right].
  - assert (Hrun : exists b, forall x, handle_remove (set_task_mem s m) b st e = x -> handle_uffd_event handle_pages (set_task_mem s m) root (RMsg msg) = Done (fst x, snd x, None)).
    { destruct Hmsg as [->| ->]; [exists true|exists false]; by intros x <-. }
    destruct Hrun as [b Hrun]. destruct (remove_ok pr0 up0 o s m b st e) as (r & s' & E & Hr); try done. rewrite (Hrun _ E).
    eexists _, _, _. split; [done|]. cbn. destruct Hr as [?|(-> & Hr)]; [by left|right]. by split.
  - destruct (remap_ok pr0 up0 o s m from to len) as (r & s' & E & Hr); try done. cbn [handle_uffd_event]. rewrite E.
    eexists _, _, _. split; [done|]. cbn. destruct Hr as [?|(-> & Hr)]; [by left|right]. split; [done|]. split; [by right|done].
  - cbn [handle_uffd_event]. destruct (handle_fork_ok o s root Hs Hroot) as (r & c & t' & -> & Hr).
    eexists _, _, _. split; [done|]. destruct Hr as [[-> _]|(-> & c' & -> & Hc & _)]; [by left|right]. split; [done|].
    split; [right; by apply serving_now|]. by intros child [= <-].
Qed.

Lemma write_ok o s start len m : serving o s -> (forall a i, in_range start len a -> ~ holds (iovs (lpi s)) a i) ->
  (forall a, ~ in_range start len a -> m a = mem s a) -> serving (without o start len) (set_task_mem s m).
Proof using Type.
  intros [S1 S2 S3 S4 S5 S6 S7 S8] Hfree Hm. split; cbn; try done.
  - intros a i Hh. apply without_some. split; [by apply S7|]. intros Hr. by apply (Hfree a i).
  - intros a i [Ho Hn]%without_some. destruct (S8 a i Ho) as [H|H]; [by left|right]. by rewrite (Hm a Hn).
Qed.

Definition safe (c : conf) : Prop := gone (snd c) \/ serving (fst c) (snd c).

Lemma lstep_safe c c' : safe c -> lstep c c' -> safe c'.
Proof using All.
  intros Hs Hstep. destruct Hstep as [o s r s' He Hi Hx Hr|m o s o1 s1 root r s' c He Hh Hroot Hx Hr|m o s o1 s1 root r s' c He Hh Hroot Hx Hr|o s start len m He Hf Hm|o s t];
    destruct Hs as [Hg|Hs]; cbn [fst snd] in *; try (destruct Hg as [Hg _]; congruence).
  - destruct (xfer_pages_ok buf iofuel pr0 up0 Hchain Hfuel o s Hs Hi) as (v & r1 & s2 & _ & E & Hres). rewrite E in Hx. injection Hx as <- <-.
    destruct Hres as [[-> _]|(_ & [[Hg _]|[Hsv _ _ _]])]; [lia|by left|by right].
  - destruct (event_ok m (o, s) (o1, s1) root Hs Hh Hroot) as (r1 & s2 & c2 & E & Hres). cbn [snd fst] in *. rewrite E in Hx. injection Hx as <- <- <-. destruct Hres as [->|(_ & H & _)]; [lia|done].
  - destruct (event_ok m (o, s) (o1, s1) root Hs Hh Hroot) as (r1 & s2 & c2 & E & Hres). cbn [snd fst] in *. rewrite E in Hx. injection Hx as <- <- ->. destruct Hres as [->|(_ & _ & H)]; [lia|]. right. by apply H.
  - right. by apply write_ok.
  - by left.
  - right. by apply serving_now.
Qed.

Lemma lsteps_safe c c' : rtc lstep c c' -> safe c -> safe c'.
Proof using All. induction 1 as [|c1 c2 c3 H12 _ IH]; [done|]. intros Hs. apply IH. by eapply lstep_safe. Qed.

End Serve.
(** ** An example *)
(** sixteen pages that are filled lazily, in two areas *)
Definition demo_lazy_entry : PagemapEntry := mk_pe 0x10000 16 false false true (Z.lor PE_LAZY PE_PRESENT).
Definition demo_lazy_reader : page_read := mk_pr None 0 0 (mk_iovec 0 0) [demo_lazy_entry] (-1) [] (fun x => x) 1 7.
Definition demo_lazy_areas : list Vma.VmaEntry :=
  [Vma.mk_vma 0x10000 0x18000 0 (-1) 3 0x22 (Z.shiftl 1 9); Vma.mk_vma 0x18000 0x20000 0 (-1) 3 0x22 (Z.shiftl 1 9)].
Lemma demo_lazy_chain : Forall (fun pr => pm_ok pr /\ async pr = []) [demo_lazy_reader].
Proof. constructor; [|constructor]. split; [|done]. split; [|constructor]. constructor; [|constructor]. by split. Qed.

Lemma demo_lazy_images : lazy_images demo_lazy_reader [] demo_lazy_areas.
Proof.
  split.
  - split; [repeat constructor; try done|]. repeat constructor. done.
  - intros a (e & ->%list_elem_of_singleton & _ & Ha). unfold covers, pe_end in Ha. cbn in Ha.
    destruct (decide (a < 0x18000)); [exists (Vma.mk_vma 0x10000 0x18000 0 (-1) 3 0x22 (Z.shiftl 1 9)); split; [left|]|exists (Vma.mk_vma 0x18000 0x20000 0 (-1) 3 0x22 (Z.shiftl 1 9)); split; [right; left|]];
      unfold in_area, PAGE_SIZE in *; cbn; lia.
  - intros e ->%list_elem_of_singleton _. split_and!; try done. intros a Ha. change (pe_end demo_lazy_entry - vaddr demo_lazy_entry) with 0x10000 in Ha.
    change (vaddr demo_lazy_entry) with 0x10000 in Ha.
    pose proof demo_lazy_chain as [[[Hf Hs] _] _]%list.Forall_cons. cbn [ref_byte].
    rewrite (find_entry_at (pmes demo_lazy_reader) 0 demo_lazy_entry 0 a) by (try done; unfold covers, pe_end; cbn; unfold PAGE_SIZE; lia). by eexists.
  - done.
  - done.
Qed.

Definition demo_opened : lp_state :=
  match @ud_open demo_read_kernel demo_uffd_kernel (Some 42) true (1, [demo_lazy_reader]) (Some demo_lazy_areas) (fun _ => 0) (fun _ => 0) 0%nat with
  | Done (_, Some s, _) => s
  | _ => mk_lps lpi_init [] (fun _ => 0) (fun _ => 0) [] 0%nat
  end.
(** two pages in the middle of the first area are unmapped *)
Definition demo_unmapped : lp_state := snd (@handle_remove demo_read_kernel demo_uffd_kernel (set_task_mem demo_opened (fun _ => 0)) false 0x12000 0x14000).

End LazyServe.
