(* ===== verification/LazyDaemon.v ===== *)
(** * The loop of the lazy-pages daemon (criu/uffd.c, and the epoll loop of criu/util.c)

    The daemon polls the descriptors of the tasks and the socket to the restorer.  Between the events it transfers ranges
    to the first task that waits for some; a task that needs nothing more is let go. *)
From stdpp Require Import gmap.
From S2P Require Import Prelude.
From S2P Require Import Vma.
From S2P Require Import Pagemap.
From S2P Require Import LazyIovs.
From S2P Require Import LazyPages.
Import Pagemap.Pagemap LazyIovs.LazyIovs LazyPages.LazyPages.

Module LazyDaemon.

(** A task is known by its userfaultfd.  [t_parent] is the task that opened the images, for a child of it. *)
Record task := mk_task { t_parent : option nat; t_refs : Z; t_state : lp_state }.

(** The globals of uffd.c; [tasks] are the [lazy_pages_info] that are allocated, [served] is the memory of the tasks that were
    let go, as it was then. *)
Record daemon := mk_daemon {
  tasks : gmap nat task;
  lpis : list nat;
  pending_lpis : list nat;
  restore_finished : bool;
  nr_fds : Z;
  clk : clock;
  served : gmap nat (Z -> Z);
}.
Definition drop_id (id : nat) (l : list nat) : list nat := filter (fun i => i <> id) l.
Definition set_tasks (d : daemon) (ts : gmap nat task) : daemon := mk_daemon ts (lpis d) (pending_lpis d) (restore_finished d) (nr_fds d) (clk d) (served d).
Definition set_lpis (d : daemon) (l p : list nat) : daemon := mk_daemon (tasks d) l p (restore_finished d) (nr_fds d) (clk d) (served d).
Definition set_clk (d : daemon) (t : clock) : daemon := mk_daemon (tasks d) (lpis d) (pending_lpis d) (restore_finished d) (nr_fds d) t (served d).
Definition set_finished (d : daemon) : daemon := mk_daemon (tasks d) (lpis d) (pending_lpis d) true (nr_fds d) (clk d) (served d).
Definition set_nr_fds (d : daemon) (n : Z) : daemon := mk_daemon (tasks d) (lpis d) (pending_lpis d) (restore_finished d) n (clk d) (served d).
Definition let_go (d : daemon) (id : nat) (m : Z -> Z) : daemon := mk_daemon (tasks d) (drop_id id (lpis d)) (pending_lpis d) (restore_finished d) (nr_fds d) (clk d) (<[id := m]> (served d)).

Definition set_state (t : task) (s : lp_state) : task := mk_task (t_parent t) (t_refs t) s.
Definition set_refs (t : task) (n : Z) : task := mk_task (t_parent t) n (t_state t).

(** a message on the socket to the restorer *)
Inductive sock_msg := SkFinished | SkOther | SkShort | SkEof.
(** what epoll_wait(2) reports of a descriptor: what can be read from it, if something can, and whether it is hung up *)
Inductive epoll_event :=
| TaskEvent (id : nat) (msg : option uffd_read) (hup : bool)
| SockEvent (msg : option sock_msg) (hup : bool).
Inductive epoll_answer := EpollFails | EpollTimeout | EpollEvents (l : list epoll_event).

(** [lpi_put] and [lpi_fini]: the images stay open as long as a task refers to them *)
Fixpoint lpi_put (fuel : nat) (ts : gmap nat task) (id : nat) : res (gmap nat task) :=
  match fuel with
  | O => NoFuel
  | S fuel =>
    match ts !! id with
    | None => Bug
    | Some t =>
      let n := u32 (t_refs t - 1) in
      let ts := <[id := set_refs t n]> ts in
      if negb (n =? 0) then Done ts
      else
        let* ts := match t_parent t with Some p => lpi_put fuel ts p | None => Done ts end in
        Done (delete id ts)
    end
  end.

Section Ops.
Context {K : ReadKernel} {U : UffdKernel}.
Variable uffd_handle_pages : lp_state -> Z -> Z -> res (Z * lp_state).

(** [s] is the new state of task [id]; [handle_exit] moves a task to the end of [lpis] *)
Definition put_state (d : daemon) (id : nat) (t : task) (s : lp_state) : daemon :=
  let d := set_clk (set_tasks d (<[id := set_state t s]> (tasks d))) (now s) in
  if exited (lpi s) && negb (exited (lpi (t_state t))) then set_lpis d (drop_id id (lpis d) ++ [id]) (drop_id id (pending_lpis d)) else d.

(** [handle_uffd_event] for the task [id]; a task that is not allocated would be a use after free *)
Definition task_event (d : daemon) (id : nat) (m : uffd_read) : res (Z * daemon) :=
  match tasks d !! id with
  | None => Bug
  | Some t =>
    let root := default id (t_parent t) in
    match tasks d !! root with
    | None => Bug
    | Some rt =>
      let* (r, s, child) := handle_uffd_event uffd_handle_pages (set_now (t_state t) (clk d)) (t_state rt) m in
      let d := put_state d id t s in
      match m, child with
      | RMsg (EventFork ufd), Some c =>
        let ts := <[ufd := mk_task (Some root) 1 c]> (tasks d) in
        match ts !! root with
        | None => Bug
        | Some rt => Done (r, set_lpis (set_tasks d (<[root := set_refs rt (u32 (t_refs rt + 1))]> ts)) (lpis d) (pending_lpis d ++ [ufd]))
        end
      | _, _ => Done (r, d)
      end
    end
  end.

Definition lazy_sk_read_event (d : daemon) (m : sock_msg) : Z * daemon :=
  match m with
  | SkEof => (0, d)
  | SkFinished => (1, set_finished d)
  | _ => (-1, d)
  end.

Definition lazy_sk_hangup_event (d : daemon) : Z := if negb (restore_finished d) then -1 else 0.

(** a task has no hangup handler *)
Definition epoll_hangup_event (d : daemon) (e : epoll_event) : Z * daemon :=
  let ret := match e with SockEvent _ _ => lazy_sk_hangup_event d | _ => 0 end in
  if ret <? 0 then (ret, d)
  else if negb (k_epoll_del (clk d)) then (-1, set_clk d (S (clk d)))
  else (ret, set_clk d (S (clk d))).

Definition read_event (d : daemon) (e : epoll_event) : res (Z * daemon) :=
  match e with
  | TaskEvent id (Some m) _ => task_event d id m
  | SockEvent (Some m) _ => Done (lazy_sk_read_event d m)
  | _ => Done (0, d)
  end.

(** the loop over the events of one epoll_wait: [ret], [have_a_break] and whether it got to the end *)
Fixpoint events_loop (d : daemon) (l : list epoll_event) (have_a_break : bool) : res (Z * bool * daemon) :=
  match l with
  | [] => Done (0, have_a_break, d)
  | e :: l =>
    let* (r, d) := read_event d e in
    if r <? 0 then Done (r, have_a_break, d)
    else
      let have_a_break := have_a_break || (0 <? r) in
      let hup := match e with TaskEvent _ _ h | SockEvent _ h => h end in
      if hup then
        let (r, d) := epoll_hangup_event d e in
        if r <? 0 then Done (r, have_a_break, d) else events_loop d l (have_a_break || (0 <? r))
      else events_loop d l have_a_break
  end.

(** The answers of epoll_wait are given; when they are used up it times out, which it does not without a timeout. *)
Fixpoint epoll_run_rfds (d : daemon) (answers : list epoll_answer) (timeout : Z) : res (Z * daemon * list epoll_answer) :=
  match answers with
  | [] => if timeout <? 0 then NoFuel else Done (0, d, [])
  | EpollFails :: rest => Done (-1, d, rest)
  | EpollTimeout :: rest => if timeout <? 0 then NoFuel else Done (0, d, rest)
  | EpollEvents l :: rest =>
    let* (r, have_a_break, d) := events_loop d l false in
    if r <? 0 then Done (r, d, rest)
    else if have_a_break then Done (1, d, rest)
    else epoll_run_rfds d rest timeout
  end.

(** [list_for_each_entry_safe] over [pending_lpis] *)
Fixpoint forks_loop (d : daemon) (l : list nat) : Z * daemon :=
  match l with
  | [] => (0, d)
  | id :: l =>
    if negb (k_epoll_add (clk d)) then (-1, set_clk d (S (clk d)))
    else forks_loop (set_clk (set_lpis d (lpis d ++ [id]) (drop_id id (pending_lpis d))) (S (clk d))) l
  end.

Definition complete_forks (d : daemon) : Z * daemon :=
  match pending_lpis d with
  | [] => (1, d)
  | l =>
    let d := set_nr_fds d (s32 (nr_fds d + Z.of_nat (length l))) in
    if negb (k_xmalloc (clk d)) then (-1, set_clk d (S (clk d))) else forks_loop (set_clk d (S (clk d))) l
  end.

(** the loop over the tasks: a transfer ends it; [n] is the task after the current one when it began *)
Fixpoint transfer_loop (d : daemon) (l : list nat) : res (Z * daemon) :=
  match l with
  | [] => Done (0, d)
  | id :: l =>
    match tasks d !! id with
    | None => Bug
    | Some t =>
      match iovs (lpi (t_state t)), reqs (lpi (t_state t)) with
      | _ :: _, [] =>
        let* (r, s) := xfer_pages uffd_handle_pages (set_now (t_state t) (clk d)) in
        Done (r, put_state d id t s)
      | [], [] =>
        let* ts := lpi_put (S (size (tasks d))) (tasks d) id in
        transfer_loop (set_tasks (let_go d id (mem (t_state t))) ts) l
      | _, _ => transfer_loop d l
      end
    end
  end.

Fixpoint handle_requests (fuel : nat) (d : daemon) (answers : list epoll_answer) (poll_timeout : Z) : res (Z * daemon) :=
  match fuel with
  | O => NoFuel
  | S fuel =>
    let* (r, d, answers) := epoll_run_rfds d answers poll_timeout in
    if r <? 0 then Done (r, d)
    else
      let transfer d poll_timeout :=
        let* (r, d) := transfer_loop d (lpis d) in
        if r <? 0 then Done (r, d)
        else match lpis d with [] => Done (r, d) | _ => handle_requests fuel d answers poll_timeout end in
      if 0 <? r then
        let (r, d) := complete_forks d in
        if r <? 0 then Done (r, d)
        else
          let poll_timeout := if restore_finished d then 0 else poll_timeout in
          if negb (restore_finished d) || (r =? 0) then handle_requests fuel d answers poll_timeout
          else transfer d poll_timeout
      else transfer d poll_timeout
  end.

(** ** The start of the daemon *)
(** what the restorer sends for a task, its pid and its userfaultfd, and what the images of the task are *)
Record client := mk_client {
  c_pid : option Z;
  c_fd : option nat;
  c_images : Z * list page_read;
  c_mm : option (list Vma.Vma.VmaEntry);
  c_mem : Z -> Z;
  c_buf : Z -> Z;
}.

Definition add_task (d : daemon) (id : nat) (s : lp_state) : daemon :=
  set_lpis (set_tasks d (<[id := mk_task None 1 s]> (tasks d))) (lpis d ++ [id]) (pending_lpis d).

(** the loop of [prepare_uffds] over the tasks *)
Fixpoint uffds_loop (d : daemon) (l : list client) : res (Z * daemon) :=
  match l with
  | [] => Done (0, d)
  | c :: l =>
    let fd := match c_fd c with Some _ => true | None => false end in
    let* (r, o, t) := ud_open (c_pid c) fd (c_images c) (c_mm c) (c_buf c) (c_mem c) (clk d) in
    let d := set_clk d t in
    if negb (r =? 0) then Done (-1, d)
    else
      match o, c_fd c with
      | Some s, Some id =>
        let d := add_task d id s in
        if negb (k_epoll_add (clk d)) then Done (-1, set_clk d (S (clk d))) else uffds_loop (set_clk d (S (clk d))) l
      | _, _ => uffds_loop d l
      end
  end.

(** [prepare_uffds] after accept(2): the last descriptor is the socket to the restorer *)
Definition prepare_uffds (d : daemon) (l : list client) : res (Z * daemon) :=
  let* (r, d) := uffds_loop d l in
  if negb (r =? 0) then Done (-1, d)
  else if negb (k_epoll_add (clk d)) then Done (-1, set_clk d (S (clk d)))
  else Done (0, set_clk d (S (clk d))).

(** [cr_lazy_pages] with the images on this machine, after the socket and the epoll descriptor are made *)
Definition cr_lazy_pages (fuel : nat) (l : list client) (answers : list epoll_answer) : res (Z * daemon) :=
  let* (r, d) := prepare_uffds (mk_daemon ∅ [] [] false (Z.of_nat (length l) + 1) O ∅) l in
  if negb (r =? 0) then Done (-1, d) else handle_requests fuel d answers (-1).
End Ops.

(** ** Reference counts

    A task has a reference from the list it is in and one from each of its children. *)
Definition children (ts : gmap nat task) (p : nat) : Z := Z.of_nat (size (filter (fun x => t_parent (snd x) = Some p) ts)).

Record refs_ok (ts : gmap nat task) (alive : list nat) : Prop := {
  ro_alive : NoDup alive /\ forall id, id ∈ alive -> is_Some (ts !! id);
  ro_count : forall id t, ts !! id = Some t -> t_refs t = (if decide (id ∈ alive) then 1 else 0) + children ts id /\ 0 < t_refs t < 2 ^ 32;
  ro_parent : forall id t p, ts !! id = Some t -> t_parent t = Some p -> exists tp, ts !! p = Some tp /\ t_parent tp = None;
}.

Lemma children_insert_same ts id t t' p : ts !! id = Some t -> t_parent t' = t_parent t -> children (<[id := t']> ts) p = children ts p.
Proof.
  intros Ht Hp. unfold children. f_equal. destruct (decide (t_parent t = Some p)) as [H|H].
  - rewrite map_filter_insert_True by (cbn; congruence). rewrite map_size_insert_Some; [done|]. exists t. by apply map_lookup_filter_Some.
  - rewrite map_filter_insert_False by (cbn; congruence). rewrite map_filter_delete, delete_id; [done|]. apply map_lookup_filter_None. right. intros x Hx. cbn. congruence.
Qed.

Lemma children_delete ts id t p : ts !! id = Some t -> children (delete id ts) p = children ts p - if decide (t_parent t = Some p) then 1 else 0.
Proof.
  intros Ht. unfold children. rewrite map_filter_delete. destruct (decide (t_parent t = Some p)) as [H|H].
  - assert (Hl : filter (fun x => t_parent (snd x) = Some p) ts !! id = Some t) by (by apply map_lookup_filter_Some).
    rewrite map_size_delete_Some by done. assert (size (filter (fun x => t_parent (snd x) = Some p) ts) <> 0%nat) by (intros E%map_size_empty_iff; by rewrite E, lookup_empty in Hl). lia.
  - rewrite delete_id; [lia|]. apply map_lookup_filter_None. right. intros x Hx. cbn. congruence.
Qed.

Lemma no_children ts p id t : children ts p = 0 -> ts !! id = Some t -> t_parent t <> Some p.
Proof.
  intros Hc Ht Hp. unfold children in Hc. assert (E : size (filter (fun x => t_parent (snd x) = Some p) ts) = 0%nat) by lia.
  apply map_size_empty_iff in E. assert (Hl : filter (fun x => t_parent (snd x) = Some p) ts !! id = Some t) by (by apply map_lookup_filter_Some).
  by rewrite E, lookup_empty in Hl.
Qed.

Lemma children_nonneg ts p : 0 <= children ts p.
Proof. unfold children. lia. Qed.

Lemma elem_of_drop id x l : x ∈ drop_id id l <-> x <> id /\ x ∈ l.
Proof. unfold drop_id. by rewrite list_elem_of_filter. Qed.

Lemma nodup_drop id l : NoDup l -> NoDup (drop_id id l).
Proof. apply list.NoDup_filter. Qed.

Lemma u32_pred n : 0 < n < 2 ^ 32 -> u32 (n - 1) = n - 1.
Proof. intros H. apply u32_id. lia. Qed.

(** a task that is referred to otherwise loses the reference of its list *)
Lemma refs_unlisted ts alive id t : refs_ok ts alive -> id ∈ alive -> ts !! id = Some t -> t_refs t <> 1 ->
  refs_ok (<[id := set_refs t (t_refs t - 1)]> ts) (drop_id id alive).
Proof.
  intros [[H1 H1'] H2 H3] Hid Ht Hn. pose proof (H2 id t Ht) as [Hc Hb]. rewrite decide_True in Hc by done. split.
  - split; [by apply nodup_drop|]. intros x [Hx Hx']%elem_of_drop. rewrite lookup_insert_ne by done. by apply H1'.
  - intros x t' [[<- <-]|[Hx Hx']]%lookup_insert_Some; rewrite (children_insert_same ts id t) by done.
    + cbn. rewrite decide_False by (intros [? _]%elem_of_drop; done). lia.
    + destruct (H2 x t' Hx') as [-> ?]. split; [|done]. destruct (decide (x ∈ alive)) as [Ha|Ha]; [rewrite decide_True by (by apply elem_of_drop)|rewrite decide_False by (intros [_ ?]%elem_of_drop; done)]; done.
  - intros x t' p Hx Hp. assert (Hx' : exists t0, ts !! x = Some t0 /\ t_parent t0 = Some p) by (apply lookup_insert_Some in Hx as [[<- <-]|[_ Hx]]; by eexists).
    destruct Hx' as (t0 & Hx0 & Hp0). destruct (H3 x t0 p Hx0 Hp0) as (tp & Htp & Hn').
    destruct (decide (p = id)) as [->|Hpi]; [rewrite lookup_insert_eq; eexists; split; [done|]; cbn; congruence|]. rewrite lookup_insert_ne by done. by exists tp.
Qed.

(** what is left when the last reference to [id] goes; [p] has lost a child that it still counts *)
Lemma refs_freed ts alive id t : refs_ok ts alive -> id ∈ alive -> ts !! id = Some t -> t_refs t = 1 -> let ts' := delete id ts in
  (NoDup (drop_id id alive) /\ forall x, x ∈ drop_id id alive -> is_Some (ts' !! x)) /\
  (forall x t', ts' !! x = Some t' -> t_refs t' = (if decide (x ∈ drop_id id alive) then 1 else 0) + children ts' x + (if decide (t_parent t = Some x) then 1 else 0) /\ 0 < t_refs t' < 2 ^ 32) /\
  (forall x t' p, ts' !! x = Some t' -> t_parent t' = Some p -> exists tp, ts' !! p = Some tp /\ t_parent tp = None).
Proof.
  intros [[H1 H1'] H2 H3] Hid Ht Hn ts'. pose proof (H2 id t Ht) as [Hc Hb]. rewrite decide_True in Hc by done. assert (Hc0 : children ts id = 0) by lia. split_and!.
  - by apply nodup_drop.
  - intros x [Hx Hx']%elem_of_drop. unfold ts'. rewrite lookup_delete_ne by done. by apply H1'.
  - intros x t' [Hx Hx']%lookup_delete_Some. unfold ts'. rewrite (children_delete ts id t) by done. destruct (H2 x t' Hx') as [-> ?]. split; [|done].
    destruct (decide (x ∈ alive)) as [Ha|Ha]; [rewrite (decide_True (P := x ∈ drop_id _ _)) by (by apply elem_of_drop)|rewrite (decide_False (P := x ∈ drop_id _ _)) by (intros [_ ?]%elem_of_drop; done)]; lia.
  - intros x t' p [Hx Hx']%lookup_delete_Some Hp. destruct (H3 x t' p Hx' Hp) as (tp & Htp & Hn'). exists tp. split; [|done].
    apply lookup_delete_Some. split; [|done]. intros ->. by apply (no_children ts p x t').
Qed.

Lemma refs_parent_counts ts alive p tp : (NoDup alive /\ forall x, x ∈ alive -> is_Some (ts !! x)) ->
  (forall x t', ts !! x = Some t' -> t_refs t' = (if decide (x ∈ alive) then 1 else 0) + children ts x + (if decide (Some p = Some x) then 1 else 0) /\ 0 < t_refs t' < 2 ^ 32) ->
  (forall x t' q, ts !! x = Some t' -> t_parent t' = Some q -> exists tp, ts !! q = Some tp /\ t_parent tp = None) ->
  ts !! p = Some tp -> t_parent tp = None ->
  if t_refs tp =? 1 then refs_ok (delete p ts) alive else refs_ok (<[p := set_refs tp (t_refs tp - 1)]> ts) alive.
Proof.
  intros [H1 H1'] H2 H3 Hp Hpar. pose proof (H2 p tp Hp) as [Hc Hb]. rewrite (decide_True (P := Some p = Some p)) in Hc by done. pose proof (children_nonneg ts p) as Hnn.
  destruct (Z.eqb_spec (t_refs tp) 1) as [E|E].
  - assert (Hpa : p ∉ alive) by (intros Ha; rewrite decide_True in Hc by done; lia). rewrite decide_False in Hc by done. assert (Hc0 : children ts p = 0) by lia. split.
    + split; [done|]. intros x Hx. rewrite lookup_delete_ne by (intros ->; done). by apply H1'.
    + intros x t' [Hx Hx']%lookup_delete_Some. rewrite (children_delete ts p tp) by done. rewrite Hpar, (decide_False (P := None = Some x)) by done.
      destruct (H2 x t' Hx') as [-> ?]. split; [|done]. rewrite (decide_False (P := Some p = Some x)) by congruence. lia.
    + intros x t' q [Hx Hx']%lookup_delete_Some Hq. destruct (H3 x t' q Hx' Hq) as (tq & Htq & ?). exists tq. split; [|done]. apply lookup_delete_Some.
      split; [|done]. intros ->. by apply (no_children ts q x t').
  - split.
    + split; [done|]. intros x Hx. destruct (decide (x = p)) as [->|]; [by rewrite lookup_insert_eq|]. rewrite lookup_insert_ne by done. by apply H1'.
    + intros x t' [[<- <-]|[Hx Hx']]%lookup_insert_Some; rewrite (children_insert_same ts p tp) by done; [cbn; lia|].
      destruct (H2 x t' Hx') as [-> ?]. split; [|done]. rewrite (decide_False (P := Some p = Some x)) by congruence. lia.
    + intros x t' q Hx Hq. assert (Hx' : exists t0, ts !! x = Some t0 /\ t_parent t0 = Some q) by (apply lookup_insert_Some in Hx as [[<- <-]|[_ Hx]]; by eexists).
      destruct Hx' as (t0 & Hx0 & Hq0). destruct (H3 x t0 q Hx0 Hq0) as (tq & Htq & ?).
      destruct (decide (q = p)) as [->|]; [rewrite lookup_insert_eq; by eexists|rewrite lookup_insert_ne by done; by exists tq].
Qed.

(** letting a task go frees it when no child needs its images, and its parent when it was the last child of a task that is gone *)
Lemma lpi_put_ok ts alive id : refs_ok ts alive -> id ∈ alive -> exists ts', lpi_put (S (size ts)) ts id = Done ts' /\ refs_ok ts' (drop_id id alive) /\
  forall x t, x ∈ drop_id id alive -> ts !! x = Some t -> exists t', ts' !! x = Some t' /\ t_state t' = t_state t /\ t_parent t' = t_parent t.
Proof.
  intros Hok Hid. destruct Hok as [[H1 H1'] H2 H3] eqn:E; clear E. destruct (H1' id Hid) as [t Ht]. destruct (H2 id t Ht) as [Hc Hb].
  cbn [lpi_put]. rewrite Ht, u32_pred by done. pose proof (refs_freed ts alive id t Hok Hid Ht) as Hfr.
  destruct (Z.eqb_spec (t_refs t - 1) 0) as [En|En]; cbn [negb].
  2:{ eexists. split; [done|]. split; [apply refs_unlisted; try done; lia|]. intros x tx [Hx _]%elem_of_drop Htx. exists tx. by rewrite lookup_insert_ne. }
  destruct (Hfr ltac:(lia)) as (F1 & F2 & F3). destruct (t_parent t) as [p|] eqn:Ep; cbn [rbind].
  2:{ eexists. split; [done|]. rewrite delete_insert_eq. split.
      - split; [done| |done]. intros x t' Hx. destruct (F2 x t' Hx) as [-> ?]. split; [|done]. rewrite (decide_False (P := None = Some x)) by done. lia.
      - intros x tx [Hx _]%elem_of_drop Htx. exists tx. by rewrite lookup_delete_ne. }
  destruct (H3 id t p Ht Ep) as (tp & Htp & Hpn). assert (Hpi : id <> p) by congruence.
  destruct (H2 p tp Htp) as [_ Hbp]. assert (Htp' : delete id ts !! p = Some tp) by (by rewrite lookup_delete_ne).
  pose proof (refs_parent_counts (delete id ts) (drop_id id alive) p tp F1 F2 F3 Htp' Hpn) as Hfin.
  assert (Hsz : exists n, size ts = S n) by (destruct (size ts) eqn:Es; [apply map_size_empty_iff in Es; by rewrite Es, lookup_empty in Ht|by eexists]).
  destruct Hsz as [n ->]. cbn [lpi_put]. rewrite lookup_insert_ne, Htp, u32_pred by done.
  replace (t_refs tp - 1 =? 0) with (t_refs tp =? 1) by (apply eq_bool_prop_intro; rewrite !Is_true_true, !Z.eqb_eq; lia).
  destruct (t_refs tp =? 1) eqn:E1; cbn [negb].
  - rewrite Hpn. cbn [rbind]. eexists. split; [done|]. rewrite delete_insert_eq, (delete_insert_ne _ p id) by done.
    rewrite delete_insert_eq, (delete_delete _ id p). split; [done|]. intros x tx Hx Htx.
    destruct Hfin as [[_ Ha] _ _]. destruct (Ha x Hx) as [t' Ht']. exists t'. split; [done|]. apply lookup_delete_Some in Ht' as [_ [_ Ht']%lookup_delete_Some]. by simplify_eq.
  - cbn [rbind]. eexists. split; [done|]. rewrite delete_insert_ne by done. rewrite delete_insert_eq. split; [done|].
    intros x tx [Hx _]%elem_of_drop Htx. destruct (decide (x = p)) as [->|]; [rewrite lookup_insert_eq|rewrite lookup_insert_ne, lookup_delete_ne by done]; [|by exists tx].
    simplify_eq. by eexists.
Qed.
End LazyDaemon.
