(* ===== verification/LazyRun.v ===== *)
(** * The lazy-pages daemon runs to its end

    When the restore is finished and the tasks no longer cause events, the daemon transfers everything that is left, lets
    every task go with all of its pages, and frees what it allocated. *)
From stdpp Require Import gmap.
From S2P Require Import Prelude.
From S2P Require Import Pagemap.
From S2P Require Import LazyIovs.
From S2P Require Import LazyPages.
From S2P Require Import LazyLocal.
From S2P Require Import LazyServe.
From S2P Require Import LazyDaemon.
Import Pagemap.Pagemap LazyIovs.LazyIovs LazyLocal.LazyLocal LazyDaemon.LazyDaemon.

Module LazyRun.

(** ** What is left to do *)
Definition iov_pages (v : lazy_iov) : list Z := (fun k => li_start v + k * PAGE_SIZE) <$> seqZ 0 (li_len v / PAGE_SIZE).
Definition pages_left (l : list lazy_iov) : gset Z := list_to_set (l ≫= iov_pages).

Lemma elem_of_range_pages v a : li_ok v -> a ∈ iov_pages v <-> aligned a /\ li_start v <= a < li_end v.
Proof.
  intros (V1 & V2 & V3 & V4 & V5 & V6 & V7). unfold iov_pages, li_len. rewrite list_elem_of_fmap. split.
  - intros (k & -> & Hk%elem_of_seqZ). unfold aligned in *. split; pdiv.
  - intros [Ha Hr]. exists ((a - li_start v) / PAGE_SIZE). split; [unfold aligned in *; pdiv|]. apply elem_of_seqZ. unfold aligned in *. pdiv.
Qed.

Lemma elem_of_pages_left l a : wf l -> a ∈ pages_left l <-> aligned a /\ exists i, holds l a i.
Proof.
  intros [Hf _]. rewrite list.Forall_forall in Hf. unfold pages_left. rewrite elem_of_list_to_set, list_elem_of_bind. split.
  - intros (v & Ha & Hv). apply elem_of_range_pages in Ha as [Hal Hr]; [|by apply Hf]. split; [done|]. exists (li_img v + (a - li_start v)), v. split; [done|]. by split.
  - intros (Hal & i & v & Hv & Hr & _). exists v. split; [|done]. apply elem_of_range_pages; [by apply Hf|done].
Qed.

Definition task_left (t : task) : nat := size (pages_left (iovs (lpi (t_state t)))).
Fixpoint todo (ts : gmap nat task) (l : list nat) : nat :=
  match l with [] => O | id :: l => (match ts !! id with Some t => task_left t | None => O end + todo ts l)%nat end.

Lemma todo_same ts ts' l : (forall x t, x ∈ l -> ts !! x = Some t -> exists t', ts' !! x = Some t' /\ t_state t' = t_state t) -> (forall x, x ∈ l -> is_Some (ts !! x)) -> todo ts' l = todo ts l.
Proof.
  induction l as [|id l IH]; intros H1 H2; [done|]. cbn [todo]. destruct (H2 id (list_elem_of_here _ _)) as [t Ht].
  destruct (H1 id t (list_elem_of_here _ _) Ht) as (t' & Ht' & E). rewrite Ht, Ht'. unfold task_left. rewrite E. f_equal.
  apply IH; [intros x tx Hx; apply H1|intros x Hx; apply H2]; by right.
Qed.

Lemma drop_absent id l : id ∉ l -> drop_id id l = l.
Proof.
  induction l as [|x l IH]; intros Hn; [done|]. apply not_elem_of_cons in Hn as [Hx Hn]. unfold drop_id in *.
  by rewrite filter_cons_True, IH.
Qed.

Lemma drop_head id l : NoDup (id :: l) -> drop_id id (id :: l) = l.
Proof.
  intros [Hn _]%list.NoDup_cons. unfold drop_id. rewrite filter_cons_False by (by intros ?). by apply drop_absent.
Qed.

Lemma no_task_left ts : refs_ok ts [] -> ts = ∅.
Proof.
  intros [_ H2 H3]. apply map_empty. intros id. destruct (ts !! id) as [t|] eqn:E; [|done]. exfalso.
  assert (Hchild : forall p tp, ts !! p = Some tp -> exists c tc, ts !! c = Some tc /\ t_parent tc = Some p).
  { intros p tp Hp. destruct (H2 p tp Hp) as [Hc Hb]. rewrite decide_False in Hc by (by intros ?%elem_of_nil).
    destruct (map_choose (filter (fun x => t_parent (snd x) = Some p) ts)) as (c & tc & [Hl Hpc]%map_lookup_filter_Some); [|by exists c, tc].
    intros Hemp. unfold children in Hc. rewrite Hemp, map_size_empty in Hc. lia. }
  destruct (Hchild id t E) as (c & tc & Hc & Hpc). destruct (Hchild c tc Hc) as (c2 & tc2 & Hc2 & Hpc2).
  destruct (H3 c2 tc2 c Hc2 Hpc2) as (tp & Htp & Hn). congruence.
Qed.

Section Run.
Context {K : ReadKernel} `{!ReadKernelOk K} `{!ReadKernelLive K} {U : UffdKernel} `{!UffdKernelOk U}.
Variables (buf : Z) (iofuel : nat).
(** the images of a task, and where the bytes that it started without come from *)
Variable img : nat -> page_read * list page_read.
Variable origin : nat -> Z -> option Z.
Abbreviation images id := (fst (img id) :: snd (img id)).
Hypothesis Himg : forall id, Forall (fun pr => pm_ok pr /\ async pr = []) (images id).
Hypothesis Hfuel : (Z.to_nat MAX_XFER_LEN <= iofuel)%nat.
Abbreviation handle_pages := (local_handle_pages buf iofuel).

(** memory [m] is complete for task [id] *)
Definition complete (id : nat) (m : Z -> Z) : Prop := forall a i, origin id a = Some i -> ref_byte (images id) i = Some (m a).

Record ready (d : daemon) : Prop := {
  rd_refs : refs_ok (tasks d) (lpis d);
  rd_pending : pending_lpis d = [];
  rd_tasks : forall id t, id ∈ lpis d -> tasks d !! id = Some t -> serving (fst (img id)) (snd (img id)) (origin id) (t_state t);
}.

Definition accounted (ids : list nat) (d : daemon) : Prop :=
  forall id, id ∈ ids -> id ∈ lpis d \/ exists m, served d !! id = Some m /\ complete id m.

Lemma transfer_one d id l t : mild -> ready d -> lpis d = id :: l -> tasks d !! id = Some t -> iovs (lpi (t_state t)) <> [] -> exists s v,
  xfer_pages handle_pages (set_now (t_state t) (clk d)) = Done (0, s) /\ ready (put_state d id t s) /\ lpis (put_state d id t s) = lpis d /\
  restore_finished (put_state d id t s) = restore_finished d /\ served (put_state d id t s) = served d /\ tasks (put_state d id t s) = <[id := set_state t s]> (tasks d) /\
  v ∈ iovs (lpi (t_state t)) /\ li_start v < li_start v + Z.min (li_len v) (xfer_len (lpi (t_state t))) /\
  requested (fst (img id)) (snd (img id)) (origin id) (set_now (t_state t) (clk d)) s (li_start v) (li_start v + Z.min (li_len v) (xfer_len (lpi (t_state t)))).
Proof using Himg Hfuel ReadKernelOk0 ReadKernelLive0 UffdKernelOk0.
  intros Hmild [R1 R2 R3] Hl Ht Hne. assert (Hid : id ∈ lpis d) by (rewrite Hl; left). pose proof (R3 id t Hid Ht) as Hs.
  pose proof (LazyServe.LazyServe.serving_now _ _ (origin id) _ (clk d) Hs) as Hsn.
  destruct (xfer_pages_ok buf iofuel _ _ (Himg id) Hfuel _ _ Hsn Hne) as (v & r & s & Hv & E & Hr).
  destruct Hr as [[_ []]|(-> & [[_ []]|Hreq])]; [done|done|]. exists s, v. split; [done|].
  pose proof (rq_serving _ _ _ _ _ _ _ Hreq) as Hs'. unfold put_state. rewrite (sv_alive _ _ _ _ Hs'). cbn [andb lpis tasks set_clk set_tasks restore_finished served].
  assert (Hv' : v ∈ iovs (lpi (t_state t))) by (cbn [set_now lpi] in Hv; destruct (iovs (lpi (t_state t))); [done|injection Hv as ->; left]).
  assert (Hpos : li_start v < li_start v + Z.min (li_len v) (xfer_len (lpi (t_state t)))).
  { destruct (sv_lists _ _ _ _ Hs) as [[Hf _] _], (sv_xfer _ _ _ _ Hs). rewrite list.Forall_forall in Hf. destruct (Hf v Hv') as (? & _). unfold li_len, PAGE_SIZE in *. lia. }
  destruct R1 as [[N1 N2] N3 N4]. split_and!; try done. split; cbn; try done.
  - split.
    + split; [done|]. intros x Hx. destruct (decide (x = id)) as [->|]; [by rewrite lookup_insert_eq|]. rewrite lookup_insert_ne by done. by apply N2.
    + intros x tx [[<- <-]|[Hx Hx']]%lookup_insert_Some; rewrite (children_insert_same _ id t) by done; [by apply (N3 id t Ht)|by apply N3].
    + intros x tx p Hx Hp. assert (Hx' : exists t0, tasks d !! x = Some t0 /\ t_parent t0 = Some p) by (apply lookup_insert_Some in Hx as [[<- <-]|[_ Hx]]; by eexists).
      destruct Hx' as (t0 & Hx0 & Hp0). destruct (N4 x t0 p Hx0 Hp0) as (tp & Htp & ?).
      destruct (decide (p = id)) as [->|]; [rewrite lookup_insert_eq; eexists; split; [done|]; cbn; congruence|rewrite lookup_insert_ne by done; by exists tp].
  - intros x tx Hx [[<- <-]|[Hx' Htx]]%lookup_insert_Some; [done|by apply R3].
Qed.

(** C38: When the kernel refuses a copy with ENOENT because the task has no memory there, the range is put back and the same
    transfer is tried for ever: the daemon never ends, and no other task is served. *)
Theorem refused_copy_never_ends fuel d id l t : refusing -> (forall t, k_xmalloc t = true) -> ready d -> lpis d = id :: l -> tasks d !! id = Some t ->
  iovs (lpi (t_state t)) <> [] -> handle_requests handle_pages fuel d [] 0 = NoFuel.
Proof using Himg Hfuel ReadKernelOk0 ReadKernelLive0 UffdKernelOk0.
  intros Href Hx. assert (Hm : mild) by (split; [by right|done]). revert d t. induction fuel as [|fuel IH]; intros d t Hd Hl Ht Hne; [done|].
  cbn [handle_requests epoll_run_rfds]. change (0 <? 0) with false. cbn iota. cbn [rbind]. change (0 <? 0) with false. cbn iota.
  destruct (transfer_one d id l t Hm Hd Hl Ht Hne) as (s & v & E & Hr & Hl' & _ & _ & Hts & Hv & Hlt & Hreq).
  assert (Hs : serving (fst (img id)) (snd (img id)) (origin id) (t_state t)) by (apply (rd_tasks _ Hd); [rewrite Hl; left|done]).
  rewrite Hl. cbn [transfer_loop]. rewrite Ht, (proj2 (sv_lists _ _ _ _ Hs)), E. destruct (iovs (lpi (t_state t))) as [|v0 ivs] eqn:Ei; [done|].
  cbn [rbind]. change (0 <? 0) with false. cbn iota. rewrite Hl', Hl.
  apply (IH _ (set_state t s)); [done|by rewrite Hl'|by rewrite Hts, lookup_insert_eq|]. cbn [t_state set_state].
  destruct (sv_lists _ _ _ _ Hs) as [[Hok _] _]. rewrite list.Forall_forall, Ei in Hok. destruct (Hok v Hv) as (W1 & _).
  assert (Hh : holds (iovs (lpi s)) (li_start v) (li_img v)).
  { apply (rq_refused _ _ _ _ _ _ _ Hreq Href). cbn [set_now lpi]. rewrite Ei. exists v. split; [done|]. split; lia. }
  intros E0. rewrite E0 in Hh. by apply holds_nil in Hh.
Qed.

Hypothesis Hoblige : obliging.

Lemma xfer_shrinks o s pr up s' st e : serving pr up o s -> requested pr up o s s' st e -> st < e -> (exists i, holds (iovs (lpi s)) st i) -> aligned st ->
  (size (pages_left (iovs (lpi s'))) < size (pages_left (iovs (lpi s))))%nat.
Proof using Hoblige.
  clear Hfuel. intros Hs [Hs' _ Hd _] Hlt [i Hi] Hal. apply subset_size. destruct (sv_lists _ _ _ _ Hs) as [Hw _], (sv_lists _ _ _ _ Hs') as [Hw' _].
  specialize (Hd (proj1 Hoblige)). split.
  - intros a. rewrite !elem_of_pages_left by done. intros (Ha & j & Hj). split; [done|]. exists j. by apply Hd.
  - intros Hsub. assert (Hst : st ∈ pages_left (iovs (lpi s'))) by (apply Hsub, elem_of_pages_left; [done|]; split; [done|by exists i]).
    apply elem_of_pages_left in Hst as (_ & j & [_ Hn]%Hd); [lia|done].
Qed.

Lemma todo_shrinks d id l t s : ready d -> lpis d = id :: l -> tasks d !! id = Some t -> (task_left (set_state t s) < task_left t)%nat ->
  (todo (<[id := set_state t s]> (tasks d)) (lpis d) < todo (tasks d) (lpis d))%nat.
Proof using Type.
  clear Hfuel Hoblige. intros [[[N1 N2] _ _] _ _] Hl Ht Hlt. rewrite Hl in *. apply list.NoDup_cons in N1 as [Hni N1]. cbn [todo]. rewrite lookup_insert_eq, Ht.
  rewrite (todo_same (tasks d)); [lia| |].
  - intros x tx Hx Htx. rewrite lookup_insert_ne by (intros ->; done). by exists tx.
  - intros x Hx. apply N2. by right.
Qed.

Lemma let_go_one d id l t : ready d -> lpis d = id :: l -> tasks d !! id = Some t -> iovs (lpi (t_state t)) = [] -> exists ts,
  lpi_put (S (size (tasks d))) (tasks d) id = Done ts /\ let d' := set_tasks (let_go d id (mem (t_state t))) ts in
  ready d' /\ lpis d' = l /\ todo (tasks d') l = todo (tasks d) (lpis d) /\ restore_finished d' = restore_finished d /\
  forall ids, accounted ids d -> accounted ids d'.
Proof using Type.
  intros [R1 R2 R3] Hl Ht He. assert (Hid : id ∈ lpis d) by (rewrite Hl; left). pose proof (R3 id t Hid Ht) as Hs.
  destruct (lpi_put_ok (tasks d) (lpis d) id R1 Hid) as (ts & E & Hok & Hkeep). exists ts. split; [done|].
  assert (Hdrop : drop_id id (lpis d) = l) by (rewrite Hl; apply drop_head; rewrite <-Hl; apply R1). rewrite Hdrop in *.
  cbn [lpis tasks set_tasks let_go restore_finished]. rewrite Hdrop. assert (Hsub : forall x, x ∈ l -> x ∈ lpis d) by (intros x Hx; rewrite Hl; by right).
  split_and!; try done; [split; cbn; rewrite ?Hdrop; try done| |].
  - intros x tx Hx Htx. destruct (proj2 (ro_alive _ _ R1) x (Hsub x Hx)) as [t0 Ht0]. destruct (Hkeep x t0 Hx Ht0) as (t1 & Ht1 & E1 & _). simplify_eq. rewrite E1. by apply R3; [apply Hsub|].
  - rewrite Hl. cbn [todo]. rewrite Ht. unfold task_left. rewrite He. change (size (pages_left [])) with O. cbn.
    apply todo_same; [|intros x Hx; by apply (ro_alive _ _ R1), Hsub]. intros x tx Hx Htx. destruct (Hkeep x tx Hx Htx) as (t' & ? & ? & _). by exists t'.
  - intros ids Hacc x Hx. cbn. rewrite Hdrop. destruct (decide (x = id)) as [->|Hn].
    + right. exists (mem (t_state t)). rewrite lookup_insert_eq. split; [done|]. intros a i Ho.
      destruct (sv_filled _ _ _ _ Hs a i Ho) as [Hh|Hf]; [|done]. rewrite He in Hh. by apply holds_nil in Hh.
    + destruct (Hacc x Hx) as [Ha|Hm]; [left|right; by rewrite lookup_insert_ne]. rewrite Hl in Ha. by apply elem_of_cons in Ha as [?|?].
Qed.

Lemma transfer_loop_ok l : forall d, ready d -> lpis d = l -> exists d', transfer_loop handle_pages d l = Done (0, d') /\
  ready d' /\ (lpis d' = [] \/ (todo (tasks d') (lpis d') < todo (tasks d) (lpis d))%nat) /\ restore_finished d' = restore_finished d /\
  forall ids, accounted ids d -> accounted ids d'.
Proof using All.
  induction l as [|id l IH]; intros d Hd Hl; cbn [transfer_loop].
  { exists d. split; [done|]. split; [done|]. split; [by left|done]. }
  destruct (proj2 (ro_alive _ _ (rd_refs _ Hd)) id) as [t Ht]; [rewrite Hl; left|]. rewrite Ht.
  assert (Hs : serving (fst (img id)) (snd (img id)) (origin id) (t_state t)) by (apply (rd_tasks _ Hd); [rewrite Hl; left|done]).
  rewrite (proj2 (sv_lists _ _ _ _ Hs)). destruct (iovs (lpi (t_state t))) as [|v ivs] eqn:Ei.
  - destruct (let_go_one d id l t Hd Hl Ht Ei) as (ts & -> & Hr & Hl' & Ht' & Hf & Hacc). cbn [rbind].
    destruct (IH _ Hr Hl') as (d' & -> & H1 & H2 & H3 & H4). exists d'. split; [done|]. split; [done|].
    split; [by rewrite Hl', Ht' in H2|]. split; [congruence|]. intros ids Ha. by apply H4, Hacc.
  - destruct (transfer_one d id l t (obliging_mild Hoblige) Hd Hl Ht) as (s & w & -> & Hr & Hl' & Hf & Hsv & Hts & Hw & Hlt & Hreq); [by rewrite Ei|]. cbn [rbind].
    eexists. split; [done|]. split; [done|]. split; [right; rewrite Hl', Hts; apply (todo_shrinks d id l); try done|].
    { pose proof (LazyServe.LazyServe.serving_now _ _ (origin id) _ (clk d) Hs) as Hsn. unfold task_left. cbn [t_state set_state].
      destruct (sv_lists _ _ _ _ Hs) as [[Hok _] _]. rewrite list.Forall_forall in Hok. destruct (Hok w Hw) as (W1 & _ & _ & _ & W5 & _).
      apply (xfer_shrinks _ _ _ _ _ _ _ Hsn Hreq Hlt); [|done]. exists (li_img w), w. split; [done|]. split; lia. }
    split; [done|]. intros ids Ha x Hx. rewrite Hl', Hsv. by apply Ha.
Qed.

Lemma requests_ok fuel : forall d ids, ready d -> accounted ids d -> (todo (tasks d) (lpis d) < fuel)%nat -> exists d',
  handle_requests handle_pages fuel d [] 0 = Done (0, d') /\ ready d' /\ lpis d' = [] /\ accounted ids d'.
Proof using All.
  induction fuel as [|fuel IH]; intros d ids Hd Ha Hlt; [lia|]. cbn [handle_requests epoll_run_rfds]. change (0 <? 0) with false. cbn [rbind].
  destruct (transfer_loop_ok (lpis d) d Hd eq_refl) as (d' & -> & H1 & H2 & H3 & H4). cbn [rbind]. change (0 <? 0) with false. cbn iota.
  destruct (lpis d') as [|id l] eqn:El; [exists d'; split; [done|]; split; [done|]; split; [done|by apply H4]|].
  destruct H2 as [H2|H2]; [done|]. rewrite <-El in H2. apply IH; [done|by apply H4|lia].
Qed.

(** When the restorer reports its end and no more events come, the daemon ends without an error: it transfers every range
    that is left, lets every task go when all of its pages hold what they held at the dump, and frees all. *)
Lemma daemon_ends fuel d : ready d -> (S (todo (tasks d) (lpis d)) < fuel)%nat -> exists d',
  handle_requests handle_pages fuel d [EpollEvents [SockEvent (Some SkFinished) false]] (-1) = Done (0, d') /\
  lpis d' = [] /\ tasks d' = ∅ /\ forall id, id ∈ lpis d -> exists m, served d' !! id = Some m /\ complete id m.
Proof using All.
  intros Hd Hlt. destruct fuel as [|fuel]; [lia|]. cbn [handle_requests epoll_run_rfds events_loop read_event lazy_sk_read_event rbind].
  change (1 <? 0) with false. change (false || (0 <? 1)) with true. cbn iota. cbn [events_loop rbind]. change (0 <? 0) with false. cbn iota. cbn [rbind].
  change (1 <? 0) with false. change (0 <? 1) with true. cbn iota. unfold complete_forks. cbn [pending_lpis set_finished]. rewrite (rd_pending _ Hd).
  change (1 <? 0) with false. cbn [restore_finished set_finished negb orb]. change (1 =? 0) with false. cbn iota.
  change (lpis (set_finished d)) with (lpis d).   assert (Hd0 : ready (set_finished d)) by (destruct Hd; by split).
  destruct (transfer_loop_ok (lpis d) (set_finished d) Hd0 eq_refl) as (d1 & -> & H1 & H2 & H3 & H4). cbn [rbind]. change (0 <? 0) with false. cbn iota.
  assert (Ha : accounted (lpis d) d1) by (apply H4; intros x Hx; by left).
  assert (Hend : forall d', ready d' -> lpis d' = [] -> accounted (lpis d) d' -> lpis d' = [] /\ tasks d' = ∅ /\ forall id, id ∈ lpis d -> exists m, served d' !! id = Some m /\ complete id m).
  { intros d' [Hr _ _] Hl Hacc. split; [done|]. split; [apply no_task_left; by rewrite Hl in Hr|]. intros id Hid. destruct (Hacc id Hid) as [Hx|?]; [|done].
    rewrite Hl in Hx. by apply elem_of_nil in Hx. }
  destruct (lpis d1) as [|id l] eqn:El; [exists d1; split; [done|by apply Hend]|].
  destruct H2 as [H2|H2]; [done|]. rewrite <-El in H2. destruct (requests_ok fuel d1 (lpis d) H1 Ha) as (d' & E & R1 & R2 & R3); [cbn in H2; lia|].
  exists d'. split; [done|]. by apply Hend.
Qed.

(** ** From the start *)
(** the tasks that the restorer sends, with their images *)
Definition client_ok (c : client) : Prop := exists pid id vmas,
  c_pid c = Some pid /\ 0 <= pid /\ c_fd c = Some id /\ c_images c = (1, images id) /\ c_mm c = Some vmas /\
  LazyServe.LazyServe.lazy_images (fst (img id)) (snd (img id)) vmas /\ origin id = LazyServe.LazyServe.lazy_origin (pmes (fst (img id))).

Definition fresh (d : daemon) (id : nat) : Prop := tasks d !! id = None.
Definition roots (d : daemon) : Prop := forall id t, tasks d !! id = Some t -> id ∈ lpis d /\ t_parent t = None.

Lemma no_parents ts x : (forall id t, ts !! id = Some t -> t_parent t = None) -> children ts x = 0.
Proof using Type.
  intros H. unfold children. assert (E : filter (fun y => t_parent (snd y) = Some x) ts = ∅); [|by rewrite E].
  apply map_empty. intros c. apply map_lookup_filter_None. destruct (ts !! c) as [t|] eqn:Ec; [right|by left]. intros t' Ht'. cbn. rewrite (H c t' ltac:(congruence)). done.
Qed.

Lemma add_task_ready d id s : ready d -> roots d -> fresh d id -> serving (fst (img id)) (snd (img id)) (origin id) s -> ready (add_task d id s) /\ roots (add_task d id s).
Proof using Type.
  clear Hfuel. intros [[[N1 N2] N3 N4] R2 R3] Hr Hf Hs. assert (Hn : id ∉ lpis d) by (intros Hi; destruct (N2 id Hi) as [t Ht]; by rewrite Hf in Ht).
  assert (Hroots : roots (add_task d id s)).
  { intros x t. cbn. intros [[<- <-]|[_ Hx]]%lookup_insert_Some; [split; [apply elem_of_app; right; by left|done]|].
    destruct (Hr x t Hx). split; [apply elem_of_app; by left|done]. }
  assert (Hch : forall x, children (<[id := mk_task None 1 s]> (tasks d)) x = 0).
  { intros x. apply no_parents. intros c tc Hc. by destruct (Hroots c tc Hc). }
  split; [|done]. split; cbn; [|done|].
  - split.
    + split; [apply list.NoDup_app; split_and!; [done| |apply list.NoDup_singleton]; intros x Hx ->%list_elem_of_singleton; done|].
      intros x [Hx| ->%list_elem_of_singleton]%elem_of_app; [|by rewrite lookup_insert_eq].
      destruct (decide (x = id)) as [->|]; [by rewrite lookup_insert_eq|]. rewrite lookup_insert_ne by done. by apply N2.
    + intros x t Hx. rewrite Hch. destruct (Hroots x t Hx) as [Hi _]. cbn in Hi. rewrite decide_True by done.
      apply lookup_insert_Some in Hx as [[<- <-]|[Hne Hx]]; [done|]. destruct (N3 x t Hx) as [Hc Hb]. destruct (Hr x t Hx) as [Hix _]. rewrite decide_True in Hc by done.
      rewrite (no_parents (tasks d) x) in Hc by (intros c tc Hc'; by destruct (Hr c tc Hc')). lia.
    + intros x t p Hx Hp. destruct (Hroots x t Hx). congruence.
  - intros x t [Hx| ->%list_elem_of_singleton]%elem_of_app [[? <-]|[Hne Ht]]%lookup_insert_Some; subst; try done. by apply R3.
Qed.

Lemma uffds_loop_ok l : forall d, ready d -> roots d -> Forall client_ok l -> NoDup (c_fd <$> l) -> (forall id, Some id ∈ c_fd <$> l -> fresh d id) ->
  exists d', uffds_loop d l = Done (0, d') /\ ready d' /\ forall id, Some id ∈ c_fd <$> l \/ id ∈ lpis d -> id ∈ lpis d'.
Proof using Himg Hoblige.
  clear Hfuel. induction l as [|c l IH]; intros d Hd Hr Hl Hnd Hfr; cbn [uffds_loop].
  { exists d. split; [done|]. split; [done|]. intros id [Hx|?]; [by apply elem_of_nil in Hx|done]. }
  apply list.Forall_cons in Hl as [(pid & id & vmas & C1 & C2 & C3 & C4 & C5 & C6 & C7) Hl]. rewrite fmap_cons in *. apply list.NoDup_cons in Hnd as [Hni Hnd].
  rewrite C1, C3, C4, C5. destruct (LazyServe.LazyServe.ud_open_ok (fst (img id)) (snd (img id)) (Himg id) pid vmas (c_buf c) (c_mem c) (clk d) C2 C6) as (r & o & t & -> & Hu).
  destruct Hu as [(_ & _ & ?)|(-> & s & -> & Hs & _)]; [done|]. cbn [rbind]. change (negb (0 =? 0)) with false. cbn iota. rewrite <-C7 in Hs.
  rewrite (epoll_add_ok (UffdKernelLive := proj1 Hoblige)). cbn [negb].
  destruct (add_task_ready (set_clk d t) id s) as [Ha Hra]; [destruct Hd; by split|done| |done|]; [apply (Hfr id); rewrite C3; left|].
  destruct (IH (set_clk (add_task (set_clk d t) id s) (S (clk (add_task (set_clk d t) id s))))) as (d' & E & R & Hin); try done.
  - destruct Ha; by split.
  - intros x Hx. unfold fresh. cbn. rewrite lookup_insert_ne; [apply Hfr; by right|]. intros ->. rewrite C3 in Hni. done.
  - exists d'. split; [done|]. split; [done|]. intros x Hx. apply Hin. cbn. destruct Hx as [[[= ->]|Hx]%elem_of_cons|Hx].
    + right. apply elem_of_app. right. by left.
    + by left.
    + right. apply elem_of_app. by left.
Qed.

Lemma empty_ready n : ready (mk_daemon ∅ [] [] false n O ∅).
Proof using Type.
  split; [split; [split; [by constructor|]|..]|done|].
  - intros id Hid. by apply elem_of_nil in Hid.
  - intros id t. cbn. by rewrite lookup_empty.
  - intros id t p. cbn. by rewrite lookup_empty.
  - intros id t Hid. by apply elem_of_nil in Hid.
Qed.

End Run.

(** ** An example *)
Import LazyServe.LazyServe.

#[export] Instance demo_uffd_kernel_live : UffdKernelLive demo_uffd_kernel.
Proof. by split. Qed.

(** a task with pid 42 and the userfaultfd 7, and one with pid 43 and the userfaultfd 9 *)
Definition demo_client (pid : Z) (fd : nat) : client :=
  mk_client (Some pid) (Some fd) (1, [demo_lazy_reader]) (Some demo_lazy_areas) (fun _ => 0) (fun _ => 0).
Definition demo_clients : list client := [demo_client 42 7; demo_client 43 9].
Definition demo_img (id : nat) : page_read * list page_read := (demo_lazy_reader, []).
Definition demo_origin (id : nat) : Z -> option Z := lazy_origin [demo_lazy_entry].

Lemma demo_client_ok pid fd : 0 <= pid -> client_ok demo_img demo_origin (demo_client pid fd).
Proof. intros H. exists pid, fd, demo_lazy_areas. split_and!; try done. apply demo_lazy_images. Qed.

Lemma demo_obliging : @obliging demo_read_kernel demo_uffd_kernel.
Proof. split; [apply _|done]. Qed.

Lemma demo_fds : NoDup (c_fd <$> demo_clients).
Proof. apply (bool_decide_unpack _). by vm_compute. Qed.


(** the same tasks, with a kernel that finds no memory where the pages are to go *)
Definition demo_refusing_kernel : UffdKernel := {|
  k_copy := fun _ _ _ => UErr U_ENOENT (-2); k_zero := fun _ _ => UOk; k_unregister := fun _ => None; k_memalign := fun _ _ => true; k_epoll_del := fun _ => true;
  k_epoll_add := fun _ => true |}.
#[export] Instance demo_refusing_kernel_ok : UffdKernelOk demo_refusing_kernel.
Proof. split; [|done]. intros t dst len e rc Hlen. cbn. intros [= <- <-]. lia. Qed.

Definition demo_daemon : daemon :=
  match @prepare_uffds demo_read_kernel demo_uffd_kernel (mk_daemon ∅ [] [] false 3 0%nat ∅) demo_clients with Done (_, d) => d | _ => mk_daemon ∅ [] [] false 3 0%nat ∅ end.
Definition demo_task : task := default (mk_task None 0 (mk_lps lpi_init [] (fun _ => 0) (fun _ => 0) [] 0%nat)) (tasks demo_daemon !! 7%nat).

Lemma demo_tasks_ready : ready demo_img demo_origin demo_daemon.
Proof.
  destruct (@uffds_loop_ok demo_read_kernel demo_uffd_kernel demo_img demo_origin (fun _ => demo_lazy_chain) demo_obliging demo_clients (mk_daemon ∅ [] [] false 3 0%nat ∅))
    as (d & E & [R1 R2 R3] & _).
  - apply empty_ready.
  - intros id t. cbn. by rewrite lookup_empty.
  - repeat constructor; by apply demo_client_ok.
  - apply demo_fds.
  - done.
  - unfold demo_daemon, prepare_uffds. unfold demo_clients in *. rewrite E. by split.
Qed.

Lemma refused_copy_never_ends_witness : tasks demo_daemon !! 7%nat = Some demo_task /\
  @handle_requests demo_read_kernel demo_refusing_kernel (@local_handle_pages demo_read_kernel demo_refusing_kernel 0x200000 (Z.to_nat MAX_XFER_LEN)) 1000 demo_daemon [] 0 = NoFuel.
Proof.
  assert (Ht : tasks demo_daemon !! 7%nat = Some demo_task) by by vm_compute. split; [done|].
  apply (@refused_copy_never_ends demo_read_kernel _ _ demo_refusing_kernel _ 0x200000 (Z.to_nat MAX_XFER_LEN) demo_img demo_origin (fun _ => demo_lazy_chain) (le_n _) 1000 demo_daemon 7 [9%nat] demo_task);
    [by intros ???|done|apply demo_tasks_ready|by vm_compute|done|by vm_compute].
Defined.
End LazyRun.
