(* ===== verification/Chunk.v ===== *)
(** * Dumping through a page pipe, portion by portion

    The invariant that the two users of a page pipe in chunk mode share (criu/mem.c for the
    private memory of a task, criu/shmem.c for a shared segment): what was already written to
    the images, what waits in the page pipe, and that transferring the page pipe moves the
    latter to the former. *)
From stdpp Require Import sorting.
From S2P Require Import Prelude.
From S2P Require Import PagePipe.
From S2P Require Import Pagemap.
From S2P Require Import PageXfer.
From S2P Require Import Drain.
Import PagePipe.PagePipe Pagemap.Pagemap PageXfer.PageXfer Drain.Drain.

Module Chunk.
Open Scope cmon_scope.

(** ** The state of a dump: the clock, the page pipe, the pipes and the transfer engine *)
Definition dst (X : Type) : Type := clock * page_pipe * gmap Z stream * X.

Definition on_pp {X A} (m : M (clock * page_pipe) A) : M (dst X) A :=
  fun '(t, pp, ps, x) =>
    match m (t, pp) with
    | Done (a, (t, pp)) => Done (a, (t, pp, ps, x))
    | Bug => Bug
    | NoFuel => NoFuel
    end.

Definition on_ps {X A} (m : page_pipe -> M (clock * gmap Z stream) A) : M (dst X) A :=
  fun '(t, pp, ps, x) =>
    match m pp (t, ps) with
    | Done (a, (t, ps)) => Done (a, (t, pp, ps, x))
    | Bug => Bug
    | NoFuel => NoFuel
    end.

Definition on_xfer {X A} (m : page_pipe -> M (clock * gmap Z stream * X) A) : M (dst X) A :=
  fun '(t, pp, ps, x) =>
    match m pp (t, ps, x) with
    | Done (a, (t, ps, x)) => Done (a, (t, pp, ps, x))
    | Bug => Bug
    | NoFuel => NoFuel
    end.

(** ** What waits in the page pipe *)

(** the pages [P] and the holes [H], in address order, from [lo] up to [hi] *)
Record pending (offset lo hi : Z) (P H : list Z) (pp : page_pipe) : Prop := {
  pd_wf : wf pp;
  pd_wfh : wf_holes pp;
  pd_bufs : bufs pp <> [];
  pd_pages : fst <$> pp_pages pp = P;
  pd_holes : fst <$> pp_hole_pages pp = H;
  pd_hflags : Forall (fun h => snd h = PP_HOLE_PARENT) (pp_hole_pages pp);
  pd_sorted : StronglySorted Z.lt P;
  pd_hsorted : StronglySorted Z.lt H;
  pd_disj : forall a, a ∈ P -> a ∈ H -> False;
  pd_range : Forall (fun a => lo <= a /\ a + PAGE_SIZE <= hi) (P ++ H);
  pd_len : Z.of_nat (length H) < 2 ^ 31;
}.

(** the addresses a dump may record *)
Definition window (offset lo hi : Z) : Prop :=
  0 <= offset <= lo /\ aligned offset /\ 0 < lo <= hi /\ hi - offset < 2 ^ 61 /\ hi < 2 ^ 63.

Lemma StronglySorted_snoc_lt l a :
  StronglySorted Z.lt l -> Forall (fun b => b < a) l -> StronglySorted Z.lt (l ++ [a]).
Proof.
  induction 1 as [|x l Hs IH Hx]; intros Hl; simpl.
  - repeat constructor.
  - apply Forall_cons_1 in Hl as [H1 H2]. constructor; [by apply IH|]. apply Forall_snoc. by split.
Qed.

Lemma pending_flags offset lo hi P H pp :
  pending offset lo hi P H pp ->
  Forall (fun h => snd h = PP_HOLE_PARENT) (pp_holes pp) /\
  Forall (fun h => iov_len (fst h) < 2 ^ 43) (pp_holes pp).
Proof.
  intros D. pose proof (pd_hflags _ _ _ _ _ _ D) as Hf. pose proof (pd_wfh _ _ _ _ _ _ D) as [Hl Hok].
  pose proof (pd_len _ _ _ _ _ _ D) as Hlen. rewrite <-(pd_holes _ _ _ _ _ _ D), length_fmap in Hlen.
  assert (Hin : forall h f, (h, f) ∈ pp_holes pp -> iov_ok h /\
            forall a, a ∈ iov_pages h -> (a, f) ∈ pp_hole_pages pp).
  { intros h f Hh. unfold pp_holes in Hh. rewrite zip_with_take in Hh. split.
    - rewrite list.Forall_forall in Hok. apply Hok.
      apply list_elem_of_lookup in Hh as [k Hk]. apply list_elem_of_lookup. exists k.
      apply lookup_zip_with_Some in Hk as (x & y & [= -> ->] & Hx & _). done.
    - intros a Ha. unfold pp_hole_pages. apply list_elem_of_bind. exists (h, f). split; [|done].
      apply list_elem_of_fmap. eauto. }
  rewrite list.Forall_forall in Hf. split; apply list.Forall_forall; intros [h f] Hh; destruct (Hin h f Hh) as [Hiov Hp].
  - pose proof Hiov as (?&?&_). destruct (iov_pages_ends h Hiov) as [Ha _]. apply (Hf _ (Hp _ Ha)).
  - assert (Hsub : (length (iov_pages h) <= length (pp_hole_pages pp))%nat).
    { rewrite <-(length_fmap (fun a => (a, f)) (iov_pages h)). apply submseteq_length.
      unfold pp_holes in Hh. rewrite zip_with_take in Hh. unfold pp_hole_pages.
      apply list_elem_of_split in Hh as (l1 & l2 & ->). rewrite bind_app, bind_cons.
      apply submseteq_inserts_l, submseteq_inserts_r. done. }
    pose proof Hiov as (?&?&?&?&?). pose proof (iov_pages_length h ltac:(lia) ltac:(done)). simpl. plia.
Qed.

Lemma pending_xferable offset lo hi P H pp :
  window offset lo hi -> pending offset lo hi P H pp -> xferable offset pp.
Proof.
  intros (W1 & W2 & W3 & W4 & W5) D. destruct (pending_flags _ _ _ _ _ _ D) as [F1 F2].
  destruct D as [D1 D2 D3 <- <- D6 D7 D8 D9 D10 D11]. constructor; try done.
  - split; [lia|done].
  - intros a Ha. rewrite list.Forall_forall in D10. specialize (D10 a Ha). plia.
Qed.
Lemma empty_pending offset lo pp : empty_contents pp -> pending offset lo lo [] [] pp.
Proof.
  intros (W & Wh & Hb & HP & HH). constructor; rewrite ?HP, ?HH; try done;
    first [apply Forall_nil_2|apply Sorted.SSorted_nil|intros a Ha; by apply elem_of_nil in Ha].
Qed.

(** ** Recording a page or a hole *)

(** what every step keeps; [n]: the iovecs and [m]: the hole slots it may take *)
Record kept (n m : Z) (pp pp' : page_pipe) : Prop := {
  kp_iovs : nr_iovs pp' = nr_iovs pp;
  kp_free : free_iov pp' <= free_iov pp + n;
  kp_holes : nr_holes pp' <= nr_holes pp + m;
  kp_flags : pp_flags pp' = pp_flags pp;
  kp_grow : forall off, grow_out_ok off pp pp';
}.

Lemma kept_refl pp : kept 0 0 pp pp.
Proof. by constructor; try done; try lia. Qed.

Lemma kept_trans n m n' m' pp1 pp2 pp3 : kept n m pp1 pp2 -> kept n' m' pp2 pp3 -> kept (n + n') (m + m') pp1 pp3.
Proof.
  intros [] []. constructor; try congruence; try lia. intros off. by eapply grow_out_ok_trans.
Qed.

Lemma kept_weaken n m n' m' pp pp' : n <= n' -> m <= m' -> kept n m pp pp' -> kept n' m' pp pp'.
Proof. intros ?? []. constructor; try done; lia. Qed.

Lemma window_addr offset lo hi hi' a :
  window offset lo hi' -> lo <= hi -> hi <= a -> a + PAGE_SIZE <= hi' -> aligned a -> addr_ok a.
Proof. intros (?&?&?&?&?) ????. unfold addr_ok. split_and!; [plia|plia|done]. Qed.

Lemma range_below offset lo hi P H pp a :
  pending offset lo hi P H pp -> hi <= a -> Forall (fun b => b < a) P /\ Forall (fun b => b < a) H.
Proof.
  intros D Ha. apply Forall_app. eapply Forall_impl; [|exact (pd_range _ _ _ _ _ _ D)].
  intros b Hb. cbv beta in Hb. plia.
Qed.

Lemma range_widen lo hi hi' (l : list Z) :
  hi <= hi' -> Forall (fun a => lo <= a /\ a + PAGE_SIZE <= hi) l -> Forall (fun a => lo <= a /\ a + PAGE_SIZE <= hi') l.
Proof. intros Hh. apply Forall_impl. intros a. cbv beta. lia. Qed.

Lemma pending_widen offset lo hi hi' P H pp :
  hi <= hi' -> pending offset lo hi P H pp -> pending offset lo hi' P H pp.
Proof. intros Hh []. constructor; try done. by eapply range_widen. Qed.

Lemma hole_pages_ext pp pp' : keeps_holes pp pp' -> pp_hole_pages pp' = pp_hole_pages pp.
Proof. intros (H1 & H2 & H3 & H4 & _). unfold pp_hole_pages. by rewrite H2, H3, H4. Qed.

Section Record.
Context {PK : PipeKernel} `{!PipeKernelOk PK}.

(** the outcome of recording page [a] *)
Definition page_recorded (offset lo hi : Z) (P H : list Z) (a r : Z) (pp pp' : page_pipe) : Prop :=
  (r = 0 /\ pending offset lo (a + PAGE_SIZE) (P ++ [a]) H pp' \/
   (r = -1 \/ r = - EAGAIN) /\ pending offset lo hi P H pp' /\ kept 0 0 pp pp') /\
  kept 1 0 pp pp' /\
  (chunk_ok pp -> r = - EAGAIN -> (2 <= length (bufs pp'))%nat) /\ (free_bufs pp <> [] -> r = 0).

Lemma pending_page lazy offset lo hi hi' P H t pp a fl :
  window offset lo hi' -> lo <= hi -> hi <= a -> a + PAGE_SIZE <= hi' -> aligned a ->
  pending offset lo hi P H pp -> free_iov pp < nr_iovs pp ->
  exists r t' pp', page_pipe_add_page lazy a fl (t, pp) = Done (r, (t', pp')) /\
    page_recorded offset lo hi P H a r pp pp'.
Proof.
  intros W Hlo Hhi Ha Hal D Hf. pose proof (window_addr _ _ _ _ _ W Hlo Hhi Ha Hal) as Hok.
  pose proof D as [D1 D2 D3 D4 D5 D6 D7 D8 D9 D10 D11].
  destruct (add_page_ok lazy t pp a fl D1 D3 Hok Hf) as (r & t' & pp' & Hadd & W' & Hb & Hn & Hfi & Hr).
  pose proof (add_page_frame _ _ _ _ _ _ _ _ Hadd) as HK. pose proof (hole_pages_ext _ _ HK) as Hh.
  assert (Hwh : wf_holes pp') by (destruct HK as (K1 & K2 & K3 & K4 & _), D2 as [L1 L2]; constructor; by rewrite ?K1, ?K2, ?K3, ?K4).
  assert (Hkept : forall n, free_iov pp' <= free_iov pp + n -> kept n 0 pp pp').
  { intros n Hle. destruct HK as (K1 & K2 & K3 & K4 & K5). constructor; try done; try lia.
    intros off. by destruct (add_page_packed lazy off _ _ _ _ _ _ _ D1 D3 Hok Hf Hadd). }
  exists r, t', pp'. split; [done|]. split; [|split].
  - destruct (range_below _ _ _ _ _ _ a D Hhi) as [B1 B2].
    destruct Hr as [[-> HP]|[Hr HP]]; [left|right]; (split; [done|]).
    + constructor; try done; rewrite ?Hh; try done.
      * by rewrite HP, fmap_app, D4.
      * by apply StronglySorted_snoc_lt.
      * intros b [Hb1|Hb1%list_elem_of_singleton]%elem_of_app Hb2; [by eapply D9|].
        rewrite list.Forall_forall in B2. specialize (B2 b Hb2). lia.
      * apply Forall_app. apply Forall_app in D10 as [E1 E2].
        split; [apply Forall_snoc; split|]; [|cbv beta; plia|]; eapply range_widen; [|done| |done]; plia.
    + split; [constructor; try done; rewrite ?Hh; try done; by rewrite HP|].
      apply Hkept. rewrite (add_page_err_iov lazy _ _ _ _ _ _ _ D1 D3 Hok Hf Hadd); [lia|].
      unfold EAGAIN in Hr. lia.
  - by apply Hkept.
  - destruct (add_page_packed lazy 0 _ _ _ _ _ _ _ D1 D3 Hok Hf Hadd) as (_ & ? & ?). done.
Qed.

Definition hole_recorded (offset lo hi : Z) (P H : list Z) (a r : Z) (pp pp' : page_pipe) : Prop :=
  (r = 0 /\ pending offset lo (a + PAGE_SIZE) P (H ++ [a]) pp' \/ r = -1 /\ pending offset lo hi P H pp') /\
  kept 0 PP_HOLES_BATCH pp pp'.

Lemma pending_hole offset lo hi hi' P H t pp a :
  window offset lo hi' -> lo <= hi -> hi <= a -> a + PAGE_SIZE <= hi' -> aligned a ->
  pending offset lo hi P H pp -> nr_holes pp + PP_HOLES_BATCH < 2 ^ 32 -> Z.of_nat (length H) + 1 < 2 ^ 31 ->
  exists r t' pp', page_pipe_add_hole a PP_HOLE_PARENT (t, pp) = Done (r, (t', pp')) /\
    hole_recorded offset lo hi P H a r pp pp'.
Proof.
  intros W Hlo Hhi Ha Hal D Hn Hlen. pose proof (window_addr _ _ _ _ _ W Hlo Hhi Ha Hal) as Hok.
  pose proof D as [D1 D2 D3 D4 D5 D6 D7 D8 D9 D10 D11].
  destruct (add_hole_ok t pp a PP_HOLE_PARENT D1 D2 Hn Hok) as (r & t' & pp' & Hadd & W' & Hwh & HP & Hr).
  destruct (add_hole_frame _ _ _ _ _ _ _ Hadd) as [(K1 & K2 & K3 & K4 & K5 & _ & K6 & K7) Hnr].
  destruct D2 as [(L1 & L2) _].
  exists r, t', pp'. split; [done|]. split.
  - destruct (range_below _ _ _ _ _ _ a D Hhi) as [B1 B2].
    destruct Hr as [[-> HH]|[-> HH]]; [left|right]; (split; [done|]).
    + constructor; try done; rewrite ?K2, ?HP, ?HH; try done.
      * by rewrite fmap_app, D5.
      * by apply Forall_snoc.
      * by apply StronglySorted_snoc_lt.
      * intros b Hb1 [Hb2|Hb2%list_elem_of_singleton]%elem_of_app; [by eapply D9|].
        rewrite list.Forall_forall in B1. specialize (B1 b Hb1). lia.
      * apply Forall_app. apply Forall_app in D10 as [E1 E2].
        split; [|apply Forall_snoc; split]; [| |cbv beta; plia]; eapply range_widen; [|done| |done]; plia.
      * rewrite length_app. simpl. lia.
    + constructor; try done; rewrite ?K2, ?HP, ?HH; done.
  - constructor; try done; try lia.
    + rewrite u32_id in Hnr by (unfold PP_HOLES_BATCH in *; lia). unfold PP_HOLES_BATCH in *. lia.
    + intros off. by eapply add_hole_packed.
Qed.
End Record.
(** ** What was written *)
Section Flush.
Context {XK : XferKernel} {RK : ReadKernel} `{!XferKernelOk XK} `{!XferKernelLive XK}.
Variables (offset : Z) (mem : Z -> Z) (c : list page_read).

Definition item_end (i : item) : Z := iov_base (item_iov i) + iov_len (item_iov i).

(** the images hold the pages [P] and name the holes [H], all below [hi] *)
Record imaged (its : list item) (P H : list Z) (hi : Z) (x : loc_xfer) : Prop := {
  im_ok : Forall (item_ok offset) its;
  im_sorted : StronglySorted below (item_iov <$> its);
  im_below : Forall (fun i => item_end i <= hi) its;
  im_pmi : pmi x = item_entry offset <$> its;
  im_img : img_ok offset mem (pmi x) (lpi x);
  im_pages : forall a, a ∈ P -> exists s, ISeg s ∈ its /\ has (sg_flags s) PE_PRESENT = true /\
               iov_ok (sg_iov s) /\ a ∈ iov_pages (sg_iov s);
  im_holes : forall a, a ∈ H -> exists h, IHole h ∈ its /\ iov_ok h /\ a ∈ iov_pages h;
  im_only : forall i a, i ∈ its -> a ∈ iov_pages (item_iov i) -> a ∈ P ++ H;
  im_parent : Forall2 same_img c (parent x);
  im_parent_ok : parent_ok offset (parent x) [];
  im_parent_below : parent_below offset hi (parent x);
}.

(** the parent snapshot has the pages [H] *)
Definition parent_has (p : list page_read) (H : list Z) : Prop :=
  match p with
  | [] => True
  | p :: _ => forall a, a ∈ H -> in_pagemap (pmes p) (a - offset) (a - offset + PAGE_SIZE)
  end.

Lemma parent_has_app H H' : parent_has c (H ++ H') <-> parent_has c H /\ parent_has c H'.
Proof. clear - c. destruct c; [done|]. unfold parent_has. setoid_rewrite elem_of_app. naive_solver. Qed.

(** the parent snapshot, freshly opened *)
Definition parent_ready (p : list page_read) : Prop :=
  Forall (fun p => async p = []) p /\
  match p with [] => True | p :: _ => pm_ok p /\ pos_ok p /\ cvaddr p = 0 end.

Lemma imaged_nil lo : offset <= lo -> parent_ready c -> imaged [] [] [] lo (mk_loc [] empty_stream c).
Proof.
  intros Hlo [_ Hr]. constructor; try done; try (intros ? Hx; by apply elem_of_nil in Hx); try (intros ? ? Hx; by apply elem_of_nil in Hx).
  all: try apply Forall_nil_2; try apply Sorted.SSorted_nil.
  - cbn. destruct c as [|p c']; [done|]. destruct Hr as (?&?&?). split_and!; try done.
    intros h' Hh'. by apply elem_of_nil in Hh'.
  - cbn. destruct c as [|p c']; [done|]. destruct Hr as (_&_&Hcv). cbn. rewrite Hcv. lia.
Qed.

Lemma parent_has_same p H : Forall2 same_img c p -> parent_has c H -> parent_has p H.
Proof.
  intros Hs. destruct c as [|q c'], p as [|p p']; inversion Hs as [|???? Hq]; subst; try done.
  unfold parent_has. destruct Hq as (Hq & _). by rewrite Hq.
Qed.

Lemma pending_parent_ok lo hi P H pp p :
  window offset lo hi -> pending offset lo hi P H pp -> parent_ok offset p [] -> parent_below offset lo p ->
  parent_has p H -> parent_ok offset p (pp_items true pp).
Proof.
  intros W D. pose proof (pending_xferable _ _ _ _ _ _ W D) as HX.
  destruct p as [|q p]; [done|]. intros (Hok & Hpos & _) Hb Hin. split_and!; try done.
  intros h Hh. destruct (pp_items_sorted offset true pp HX) as [_ Hperm]. rewrite Hperm in Hh.
  assert (Hel : h ∈ fst <$> pp_holes pp).
  { apply elem_of_app in Hh as [(?&?&_)%list_elem_of_fmap|(?&?&?)%list_elem_of_fmap]; congruence. }
  destruct (pp_iov_range offset true pp HX h) as (Hok' & _); [apply elem_of_app; by right|].
  assert (Hpg : forall b, b ∈ iov_pages h -> b ∈ H).
  { intros b Hb'. rewrite <-(pd_holes _ _ _ _ _ _ D), (pp_holes_pages pp). apply list_elem_of_bind. eauto. }
  split.
  - destruct (iov_pages_ends h Hok') as [Ha _]. specialize (Hpg _ Ha).
    pose proof (pd_range _ _ _ _ _ _ D) as Hr. rewrite list.Forall_forall in Hr.
    destruct (Hr (iov_base h)) as [? _]; [apply elem_of_app; by right|]. cbn in Hb. lia.
  - intros a Ha. destruct (page_of h (a + offset) Hok' ltac:(lia)) as (b & Hb' & Hab).
    destruct (Hin b (Hpg b Hb') a ltac:(lia)) as (e & ? & ?). eauto.
Qed.

Lemma pending_items lo hi P H pp i :
  window offset lo hi -> pending offset lo hi P H pp -> i ∈ pp_items true pp ->
  lo <= iov_base (item_iov i) /\ item_end i <= hi /\ forall a, a ∈ iov_pages (item_iov i) -> a ∈ P ++ H.
Proof.
  intros W D Hi. pose proof (pending_xferable _ _ _ _ _ _ W D) as HX.
  destruct (pp_items_sorted offset true pp HX) as [_ Hperm]. rewrite Hperm in Hi.
  assert (Hv : item_iov i ∈ (sg_iov <$> pp_segs true pp) ++ (fst <$> pp_holes pp)).
  { apply elem_of_app in Hi as [(s & -> & Hs)%list_elem_of_fmap|(h & -> & Hh)%list_elem_of_fmap];
      apply elem_of_app; [left|by right]. apply list_elem_of_fmap. eauto. }
  destruct (pp_iov_range offset true pp HX _ Hv) as (Hok & _).
  assert (Hpg : forall a, a ∈ iov_pages (item_iov i) -> a ∈ P ++ H).
  { intros a Ha. rewrite <-(pd_holes _ _ _ _ _ _ D), <-(pd_pages _ _ _ _ _ _ D), (pp_holes_pages pp), (pp_segs_pages true pp).
    rewrite <-bind_app. apply list_elem_of_bind. eauto. }
  destruct (iov_pages_ends _ Hok) as [Ha Hb]. pose proof (pd_range _ _ _ _ _ _ D) as Hr.
  rewrite list.Forall_forall in Hr. pose proof (Hr _ (Hpg _ Ha)). pose proof (Hr _ (Hpg _ Hb)).
  unfold item_end. split_and!; [plia|plia|done].
Qed.

Lemma StronglySorted_below_app its its' lo :
  StronglySorted below (item_iov <$> its) -> StronglySorted below (item_iov <$> its') ->
  Forall (fun i => item_end i <= lo) its -> Forall (fun i => lo <= iov_base (item_iov i)) its' ->
  StronglySorted below (item_iov <$> its ++ its').
Proof.
  intros H1 H2 H3 H4. induction its as [|i its IH]; [done|]. simpl in *.
  inversion H1 as [|?? Hs Hb]; subst. apply Forall_cons_1 in H3 as [H3 H3'].
  constructor; [by apply IH|]. rewrite fmap_app. apply Forall_app. split; [done|].
  apply Forall_fmap. eapply Forall_impl; [|exact H4]. intros j Hj. unfold below, item_end in *. simpl. lia.
Qed.

Lemma flush_ok its P0 H0 lo hi P H pp t ps x :
  window offset lo hi -> pending offset lo hi P H pp -> imaged its P0 H0 lo x ->
  parent_has c H -> pipes_hold mem ps (ISeg <$> pp_segs true pp) ->
  (forall fd, avail (pipe_at ps fd) = bytes_of (fd_iovs fd (ISeg <$> pp_segs true pp))) ->
  exists t' ps' x', page_xfer_dump_pages (X := LocalXfer false) offset true pp (t, ps, x) = Done (0, (t', ps', x')) /\
    imaged (its ++ pp_items true pp) (P0 ++ P) (H0 ++ H) hi x' /\ forall fd, avail (pipe_at ps' fd) = 0.
Proof.
  intros W D I Hpar Hps Hav. pose proof (pending_xferable _ _ _ _ _ _ W D) as HX.
  pose proof I as [I1 I2 I3 I4 I5 I6 I7 I8 I9 I10 I11].
  assert (Hfd : forall fd, fd_iovs fd (pp_items true pp) = fd_iovs fd (ISeg <$> pp_segs true pp))
    by (intros fd; apply fd_iovs_items).
  rewrite (dump_pages_items offset true pp HX).
  destruct (exec_items_ok offset mem (pp_items true pp) t ps x)
    as (t' & ps' & x' & -> & E1 & E2 & E3 & E4 & E5 & E6).
  - by apply pp_items_ok.
  - by apply (pp_items_sorted offset).
  - intros fd. rewrite Hfd. apply Hps.
  - done.
  - eapply pending_parent_ok; try done. by eapply parent_has_same.
  - exists t', ps', x'. split; [done|].
    assert (Hits : Forall (fun i => lo <= iov_base (item_iov i) /\ item_end i <= hi) (pp_items true pp)).
    { apply list.Forall_forall. intros i Hi. destruct (pending_items lo hi P H pp i W D Hi) as (?&?&_). done. }
    split.
    + assert (Hlh : lo <= hi) by (destruct W as (_&_&?&_); lia).
      constructor.
      * apply Forall_app. split; [done|by apply pp_items_ok].
      * eapply StronglySorted_below_app; [done|by apply (pp_items_sorted offset)|exact I3|].
        eapply Forall_impl; [|exact Hits]. by intros i [? _].
      * apply Forall_app. split; [eapply Forall_impl; [|exact I3]; intros i; cbv beta; lia|].
        eapply Forall_impl; [|exact Hits]. by intros i [_ ?].
      * by rewrite E1, I4, fmap_app.
      * done.
      * intros a [Ha|Ha]%elem_of_app.
        -- destruct (I6 a Ha) as (s & ? & ? & ? & ?). exists s. rewrite elem_of_app. auto.
        -- rewrite <-(pd_pages _ _ _ _ _ _ D) in Ha. apply list_elem_of_fmap in Ha as ([b fl] & -> & Ha).
           destruct (page_item offset true pp HX b fl Ha) as (s & ? & ? & ? & Hpr). exists s.
           rewrite elem_of_app, Hpr. split_and!; auto. unfold transferred. by destruct (has fl PPB_LAZY).
      * intros a [Ha|Ha]%elem_of_app.
        -- destruct (I7 a Ha) as (h & ? & ? & ?). exists h. rewrite elem_of_app. auto.
        -- rewrite <-(pd_holes _ _ _ _ _ _ D) in Ha. apply list_elem_of_fmap in Ha as ([b fl] & -> & Ha).
           destruct (hole_item offset true pp HX b fl Ha) as (h & ? & ? & ?). exists h. rewrite elem_of_app. auto.
      * intros i a [Hi|Hi]%elem_of_app Ha.
        -- specialize (I8 i a Hi Ha). rewrite !elem_of_app in *. tauto.
        -- destruct (pending_items lo hi P H pp i W D Hi) as (_ & _ & Hpg). specialize (Hpg a Ha).
           rewrite !elem_of_app in *. tauto.
      * by eapply same_chain_trans.
      * done.
      * apply E6; [eapply Forall_impl; [|exact Hits]; by intros i [_ ?]|].
        unfold parent_below in *. destruct (parent x); [done|]. lia.
    + intros fd. rewrite E4, Hav, Hfd. lia.
Qed.

(** reading the images back *)
Lemma imaged_read its P H hi x :
  imaged its P H hi x ->
  pm_ok (image_reader x) /\
  (forall a b, a ∈ P -> a <= b < a + PAGE_SIZE -> ref_byte (image_reader x :: c) (b - offset) = Some (mem b)) /\
  (forall a b, a ∈ H -> a <= b < a + PAGE_SIZE ->
     ref_byte (image_reader x :: c) (b - offset) = ref_byte c (b - offset)).
Proof.
  intros [I1 I2 I3 I4 I5 I6 I7 I8 I9 I10 I11].
  assert (Hin : forall v a b, iov_ok v -> a ∈ iov_pages v -> a <= b < a + PAGE_SIZE ->
                iov_base v <= b < iov_base v + iov_len v).
  { intros v a b Hv Ha Hb. apply elem_of_iov_pages in Ha; [|done].
    destruct Hv as (?&?&?&?&?). destruct Ha as [? ?]. pdiv. }
  split_and!.
  - unfold pm_ok. cbn [image_reader pmes]. rewrite I4, init_compat_items. split; [|by apply item_entries_sorted].
    rewrite <-I4. apply I5.
  - intros a b Ha Hb. destruct (I6 a Ha) as (s & Hs & Hpr & Hok & Hp).
    rewrite (ref_byte_item offset mem its x c (ISeg s)); try done; [|by apply (Hin _ a)].
    assert (Hf : item_ok offset (ISeg s)) by (rewrite list.Forall_forall in I1; by apply I1).
    destruct Hf as (_ & _ & _ & _ & _ & Hnp). cbn [item_flags]. by rewrite Hnp, Hpr.
  - intros a b Ha Hb. destruct (I7 a Ha) as (h & Hh & Hok & Hp).
    rewrite (ref_byte_item offset mem its x c (IHole h)); try done. by apply (Hin _ a).
Qed.

(** a page that was neither dumped nor left to the parent is not in the images *)
Lemma imaged_absent its P H hi x a b :
  0 <= offset < 2 ^ 62 -> aligned offset ->
  imaged its P H hi x -> aligned a -> a ∉ P ++ H -> a <= b < a + PAGE_SIZE ->
  ref_byte (image_reader x :: c) (b - offset) = None.
Proof.
  intros Ho Hao [I1 I2 I3 I4 I5 I6 I7 I8 I9 I10 I11] Ha Hn Hb. cbn [ref_byte image_reader pmes]. rewrite I4, init_compat_items.
  rewrite find_entry_none; [done|]. intros e (i & -> & Hi)%list_elem_of_fmap Hcov.
  rewrite list.Forall_forall in I1. pose proof (I1 i Hi) as Hok. destruct (item_entry_ok offset i Hok) as [_ Hend].
  unfold covers in Hcov. rewrite Hend in Hcov. cbn in Hcov. destruct Hok as (K1 & K2 & K3 & K4 & K5 & _).
  assert (Hbase : aligned (iov_base (item_iov i))) by pdiv.
  apply Hn, (I8 i a Hi). apply elem_of_iov_pages; [split_and!; [lia|lia|lia|done|done]|]. split; [pdiv|done].
Qed.
End Flush.
End Chunk.
