(* ===== verification/Shmem.v ===== *)
(** * Shared memory (criu/shmem.c, the dump side)

    Segments of shared memory are collected while the areas of the tasks are dumped: a
    hash table of [shmem_info] by id, each with two bits of state per page gathered from
    the pagemaps of all the areas that map the segment.  A segment is then mapped by the
    dumper and its pages are put through a page pipe in chunk mode. *)
From S2P Require Import Prelude.
From S2P Require Import Bitmap.
From S2P Require Import Vma.
From S2P Require Import PagePipe.
From S2P Require Import Pagemap.
From S2P Require Import PageXfer.
From S2P Require Import Drain.
Import Bitmap.Bitmap Vma.Vma PagePipe.PagePipe Pagemap.Pagemap PageXfer.PageXfer Drain.Drain.

Module Shmem.
Open Scope cmon_scope.

(** ** Page states: two bits per page in an array of 64-bit words *)
Definition PST_DONT_DUMP : Z := 0.
Definition PST_DUMP : Z := 1.
Definition PST_ZERO : Z := 2.
Definition PST_DIRTY : Z := 3.
Definition PST_BITS : Z := 2.
Definition PST_BIT0_IX (pfn : Z) : Z := pfn * PST_BITS.
Definition PST_BIT1_IX (pfn : Z) : Z := PST_BIT0_IX pfn + 1.

Definition get_pstate (pstate_map : list Z) (pfn : Z) : option Z :=
  b0 ← test_bit (PST_BIT0_IX pfn) pstate_map;
  b1 ← test_bit (PST_BIT1_IX pfn) pstate_map;
  Some (Z.lor (Z.shiftl (Z.b2z b1) 1) (Z.b2z b0)).

Definition set_pstate (pstate_map : list Z) (pfn pstate : Z) : option (list Z) :=
  m ← (if has pstate 1 then set_bit (PST_BIT0_IX pfn) pstate_map else Some pstate_map);
  if has pstate 2 then set_bit (PST_BIT1_IX pfn) m else Some m.

(** ** The table of segments *)
Record shmem_info := mk_si {
  shmid : Z;
  si_pid : Z;
  size : Z;
  si_start : Z;
  si_end : Z;
  pstate_map : list Z;        (* [] is NULL *)
}.

Definition SHMEM_HASH_SIZE : Z := 32.
Definition SYSVIPC_SHMEM_PID : Z := -1.

(** [shmems_hash]: the chains, most recent entry first *)
Abbreviation shmems := (list (list shmem_info)) (only parsing).

Definition shmem_chain (id : Z) : nat := Z.to_nat (id mod SHMEM_HASH_SIZE).

Definition shmem_hash_add (h : shmems) (si : shmem_info) : shmems :=
  alter (cons si) (shmem_chain (shmid si)) h.

Fixpoint chain_find (l : list shmem_info) (id : Z) : option shmem_info :=
  match l with
  | [] => None
  | si :: l => if shmid si =? id then Some si else chain_find l id
  end.

Definition shmem_find (h : shmems) (id : Z) : option shmem_info :=
  l ← h !! shmem_chain id; chain_find l id.

(** the entry that [shmem_find] returned is changed in place *)
Fixpoint chain_store (l : list shmem_info) (si : shmem_info) : list shmem_info :=
  match l with
  | [] => []
  | x :: l => if shmid x =? shmid si then si :: l else x :: chain_store l si
  end.
Definition shmem_store (h : shmems) (si : shmem_info) : shmems :=
  alter (fun l => chain_store l si) (shmem_chain (shmid si)) h.

Definition set_size (si : shmem_info) (n : Z) : shmem_info :=
  mk_si (shmid si) (si_pid si) n (si_start si) (si_end si) (pstate_map si).
Definition set_pstate_map (si : shmem_info) (m : list Z) : shmem_info :=
  mk_si (shmid si) (si_pid si) (size si) (si_start si) (si_end si) m.

(** the words of the state map of a segment of [n] bytes *)
Definition map_items (n : Z) : Z := BITS_TO_LONGS (DIV_ROUND_UP n PAGE_SIZE * PST_BITS).

Section Table.
Context {K : PipeKernel}.
Variable env : page_env.
Variable tracking : bool.           (* [is_shmem_tracking_en()] *)

Definition expand_shmem (si : shmem_info) (new_size : Z) (t : clock) : res (Z * clock * shmem_info) :=
  let old_size := size si in
  let si := set_size si new_size in
  if negb tracking then Done (0, t, si)
  else
    let nr_map_items := map_items old_size in
    let nr_new_map_items := map_items new_size in
    if nr_new_map_items <? nr_map_items then Bug
    else if negb (k_malloc t) then Done (-1, S t, si)
    else
      let grown := take (Z.to_nat nr_map_items) (pstate_map si) ++
                   replicate (Z.to_nat nr_new_map_items - Z.to_nat nr_map_items) 0 in
      Done (0, S t, set_pstate_map si grown).

(** the state a page of an area contributes *)
Definition page_pstate (pme : Z) : Z :=
  if has pme PME_SOFT_DIRTY then PST_DIRTY
  else if page_is_zero env pme then PST_ZERO else PST_DUMP.

(** [map i]: the [i]-th entry of the area's pagemap, while inside the buffer *)
Fixpoint pmaps_loop (n : nat) (vma : VmaEntry) (map : Z -> option Z) (vma_pfn : Z) (m : list Z)
  : option (list Z) :=
  match n with
  | O => Some m
  | S n =>
    pme ← map vma_pfn;
    if negb (should_dump_page env vma pme) then pmaps_loop n vma map (vma_pfn + 1) m
    else
      let shmem_pfn := vma_pfn + DIV_ROUND_UP (v_pgoff vma) PAGE_SIZE in
      m ← set_pstate m shmem_pfn (page_pstate pme);
      pmaps_loop n vma map (vma_pfn + 1) m
  end.

Definition update_shmem_pmaps (si : shmem_info) (map : Z -> option Z) (vma : VmaEntry) : res shmem_info :=
  if negb tracking then Done si
  else
    let vma_pgcnt := DIV_ROUND_UP (u64 (size si - v_pgoff vma)) PAGE_SIZE in
    match pmaps_loop (Z.to_nat vma_pgcnt) vma map 0 (pstate_map si) with
    | None => Bug
    | Some m => Done (set_pstate_map si m)
    end.

Definition add_shmem_area (pid : Z) (vma : VmaEntry) (map : Z -> option Z) : M (clock * shmems) Z :=
  fun '(t, h) =>
    let sz := u64 (v_pgoff vma + u64 (v_end vma - v_start vma)) in
    let pid := if vma_entry_is vma VMA_AREA_SYSVIPC then SYSVIPC_SHMEM_PID else pid in
    let update (t : clock) (h : shmems) (si : shmem_info) :=
      match update_shmem_pmaps si map vma with
      | Done si => Done (0, (t, shmem_store h si))
      | Bug => Bug
      | NoFuel => NoFuel
      end in
    let expand (t : clock) (h : shmems) (si : shmem_info) :=
      match expand_shmem si sz t with
      | Done (r, t, si) =>
        if negb (r =? 0) then Done (-1, (t, shmem_store h si)) else update t h si
      | Bug => Bug
      | NoFuel => NoFuel
      end in
    match shmem_find h (v_shmid vma) with
    | Some si => if size si <? sz then expand t h si else update t h si
    | None =>
      if negb (k_malloc t) then Done (-1, (S t, h))
      else
        let si := mk_si (v_shmid vma) pid 0 (v_start vma) (v_end vma) [] in
        expand (S t) (shmem_hash_add h si) si
    end.
End Table.


(** ** Bits and page states *)
Lemma word_at_pos m p w : word_at m p = Some w -> 0 <= p /\ m !! Z.to_nat p = Some w.
Proof. unfold word_at. destruct (Z.ltb_spec p 0); [done|]. done. Qed.

Lemma set_bit_some k m : 0 <= k < BITS_PER_LONG * Z.of_nat (length m) -> k < 2 ^ 31 -> exists m', set_bit k m = Some m'.
Proof.
  unfold set_bit, update_word. intros Hk Hk'. rewrite s32_id by lia.
  destruct (word_at_some m (k / BITS_PER_LONG)) as [w ->]; [unfold BITS_PER_LONG in *; Z.div_mod_to_equations; lia|]. cbn. eauto.
Qed.

Lemma set_bit_length k m m' : set_bit k m = Some m' -> length m' = length m.
Proof. unfold set_bit, update_word. destruct (word_at m _); [|done]. cbn. intros [= <-]. apply length_insert. Qed.

Lemma test_set_bit k n m m' :
  0 <= k < 2 ^ 31 -> set_bit k m = Some m' -> test_bit n m' = (b ← test_bit n m; Some (b || (n =? k))).
Proof.
  unfold set_bit, test_bit, update_word. intros Hk. rewrite s32_id by lia.
  destruct (word_at m (k / BITS_PER_LONG)) as [w|] eqn:Hw; [|done]. cbn. intros [= <-]. unfold BITS_PER_LONG in *.
  apply word_at_pos in Hw as [Hp Hw]. unfold word_at. destruct (Z.ltb_spec (n / 64) 0) as [Hn|Hn]; [done|].
  destruct (Z.eq_dec (n / 64) (k / 64)) as [He|Hne].
  - rewrite He, list_lookup_insert_eq, Hw by (by eapply lookup_lt_Some). cbn.
    rewrite !has_bit by (Z.div_mod_to_equations; lia). rewrite Z.lor_spec, Z.shiftl_1_l.
    rewrite Z.pow2_bits_eqb by (Z.div_mod_to_equations; lia). do 2 f_equal.
    apply Bool.eq_iff_eq_true. rewrite !Z.eqb_eq. clear -He Hk Hn. Z.div_mod_to_equations; lia.
  - rewrite list_lookup_insert_ne by (clear -Hne Hp Hn; Z.div_mod_to_equations; lia).
    rewrite (proj2 (Z.eqb_neq n k)) by congruence. destruct (m !! Z.to_nat (n / 64)); cbn; [by rewrite orb_false_r|done].
Qed.

(** the pages the map has room for *)
Definition map_room (m : list Z) : Z := Z.of_nat (length m) * (BITS_PER_LONG / PST_BITS).

Lemma set_pstate_some m pfn s : 0 <= pfn < map_room m -> pfn < 2 ^ 30 -> exists m', set_pstate m pfn s = Some m'.
Proof.
  unfold map_room, set_pstate, PST_BIT0_IX, PST_BIT1_IX, PST_BITS. change (BITS_PER_LONG / 2) with 32. intros Hp Hp'.
  assert (H0 : exists m1, (if has s 1 then set_bit (pfn * 2) m else Some m) = Some m1 /\ length m1 = length m).
  { destruct (has s 1); [|eauto]. destruct (set_bit_some (pfn * 2) m) as [m1 E]; [unfold BITS_PER_LONG; lia|lia|].
    exists m1. split; [done|]. by eapply set_bit_length. }
  destruct H0 as (m1 & -> & Hl). cbn. destruct (has s 2); [|eauto].
  apply set_bit_some; unfold PST_BIT0_IX, PST_BITS, BITS_PER_LONG; lia.
Qed.

Lemma set_pstate_length m pfn s m' : set_pstate m pfn s = Some m' -> length m' = length m.
Proof.
  unfold set_pstate. intros H.
  assert (H0 : forall m1, (if has s 1 then set_bit (PST_BIT0_IX pfn) m else Some m) = Some m1 -> length m1 = length m).
  { intros m1. destruct (has s 1); [apply set_bit_length|congruence]. }
  destruct (if has s 1 then _ else _) as [m1|]; [|done]. cbn in H. rewrite <-(H0 m1 eq_refl).
  destruct (has s 2); [by eapply set_bit_length|congruence].
Qed.

(** what [set_pstate] does to the states: it adds bits, and only to its page *)
Lemma get_set_pstate m pfn s m' q :
  0 <= s < 4 -> 0 <= pfn < 2 ^ 30 -> set_pstate m pfn s = Some m' ->
  get_pstate m' q = (o ← get_pstate m q; Some (if q =? pfn then Z.lor o s else o)).
Proof.
  unfold set_pstate. intros Hs Hpfn H.
  assert (HT : exists m1, (if has s 1 then set_bit (PST_BIT0_IX pfn) m else Some m) = Some m1 /\
     (if has s 2 then set_bit (PST_BIT1_IX pfn) m1 else Some m1) = Some m').
  { destruct (if has s 1 then _ else _) as [m1|]; [|done]. eauto. }
  destruct HT as (m1 & H1 & H2).
  assert (T1 : forall n, test_bit n m1 = (b ← test_bit n m; Some (b || (has s 1 && (n =? PST_BIT0_IX pfn))))).
  { intros n. destruct (has s 1); [apply test_set_bit; [unfold PST_BIT0_IX, PST_BITS; lia|done]|]. injection H1 as <-. destruct (test_bit n m); cbn; by rewrite ?orb_false_r. }
  assert (T2 : forall n, test_bit n m' = (b ← test_bit n m1; Some (b || (has s 2 && (n =? PST_BIT1_IX pfn))))).
  { intros n. destruct (has s 2); [apply test_set_bit; [unfold PST_BIT1_IX, PST_BIT0_IX, PST_BITS; lia|done]|]. injection H2 as <-. destruct (test_bit n m1); cbn; by rewrite ?orb_false_r. }
  unfold get_pstate. rewrite !T2, !T1. unfold PST_BIT0_IX, PST_BIT1_IX, PST_BIT0_IX, PST_BITS.
  rewrite (proj2 (Z.eqb_neq (q * 2) (pfn * 2 + 1))), (proj2 (Z.eqb_neq (q * 2 + 1) (pfn * 2))) by lia.
  replace (q * 2 =? pfn * 2) with (q =? pfn) by (apply Bool.eq_iff_eq_true; rewrite !Z.eqb_eq; lia).
  replace (q * 2 + 1 =? pfn * 2 + 1) with (q =? pfn) by (apply Bool.eq_iff_eq_true; rewrite !Z.eqb_eq; lia).
  rewrite !andb_false_r. destruct (test_bit (q * 2) m) as [b0|]; [|done]. cbn.
  destruct (test_bit (q * 2 + 1) m) as [b1|]; [|done]. cbn. rewrite !orb_false_r.
  destruct (q =? pfn); rewrite ?andb_false_r, ?andb_true_r, ?orb_false_r; [|done].
  assert (s = 0 \/ s = 1 \/ s = 2 \/ s = 3) as Hs' by lia.
  destruct Hs' as [->|[->|[->| ->]]], b0, b1; reflexivity.
Qed.

Lemma page_pstate_range env pme : 0 <= page_pstate env pme < 4.
Proof. unfold page_pstate, PST_DIRTY, PST_ZERO, PST_DUMP. repeat case_match; lia. Qed.

(** the state recorded for a page *)
Definition state_of (si : shmem_info) (pfn : Z) : Z := default 0 (get_pstate (pstate_map si) pfn).

Lemma test_bit_some n m : 0 <= n < BITS_PER_LONG * Z.of_nat (length m) -> is_Some (test_bit n m).
Proof. intros Hn. rewrite test_bit_bit by done. eauto. Qed.

Lemma get_pstate_some m pfn : 0 <= pfn < map_room m -> is_Some (get_pstate m pfn).
Proof.
  unfold map_room, get_pstate, PST_BIT1_IX, PST_BIT0_IX, PST_BITS. change (BITS_PER_LONG / 2) with 32. intros Hp.
  destruct (test_bit_some (pfn * 2) m) as [b ->]; [unfold BITS_PER_LONG; lia|]. cbn.
  destruct (test_bit_some (pfn * 2 + 1) m) as [b' ->]; [unfold BITS_PER_LONG; lia|]. cbn. eauto.
Qed.

(** a map that grows by zero words has the same states *)
Lemma test_bit_grown m k n : default false (test_bit n (m ++ replicate k 0)) = default false (test_bit n m).
Proof.
  unfold test_bit, word_at, BITS_PER_LONG. destruct (Z.ltb_spec (n / 64) 0) as [Hn|Hn]; [done|].
  destruct (decide (Z.to_nat (n / 64) < length m)%nat) as [Hl|Hl].
  - by rewrite lookup_app_l.
  - rewrite lookup_app_r by lia. rewrite (lookup_ge_None_2 m) by lia. cbn.
    destruct (replicate k 0 !! _) as [w|] eqn:E; [|done]. apply lookup_replicate in E as [-> _]. cbn.
    rewrite has_bit by (Z.div_mod_to_equations; lia). apply Z.bits_0.
Qed.

(** the two bits of a page are in the same word *)
Lemma same_word pfn m : is_Some (test_bit (PST_BIT0_IX pfn) m) <-> is_Some (test_bit (PST_BIT1_IX pfn) m).
Proof.
  unfold test_bit, PST_BIT1_IX, PST_BIT0_IX, PST_BITS, BITS_PER_LONG.
  replace ((pfn * 2 + 1) / 64) with (pfn * 2 / 64) by (Z.div_mod_to_equations; lia).
  destruct (word_at m _); cbn; [split; eauto|]. split; by intros [].
Qed.

Lemma get_pstate_bits m pfn :
  default 0 (get_pstate m pfn) =
  Z.lor (Z.shiftl (Z.b2z (default false (test_bit (PST_BIT1_IX pfn) m))) 1) (Z.b2z (default false (test_bit (PST_BIT0_IX pfn) m))).
Proof.
  unfold get_pstate. pose proof (same_word pfn m) as Hw.
  destruct (test_bit (PST_BIT0_IX pfn) m) as [b0|]; cbn.
  - destruct (test_bit (PST_BIT1_IX pfn) m) as [b1|]; [done|]. by destruct (proj1 Hw (mk_is_Some _ b0 eq_refl)).
  - destruct (test_bit (PST_BIT1_IX pfn) m) as [b1|]; [|done]. by destruct (proj2 Hw (mk_is_Some _ b1 eq_refl)).
Qed.

Lemma get_pstate_grown m k pfn : default 0 (get_pstate (m ++ replicate k 0) pfn) = default 0 (get_pstate m pfn).
Proof. by rewrite !get_pstate_bits, !test_bit_grown. Qed.

(** ** The table *)
Lemma DIV_ROUND_UP_page n : 0 <= n < 2 ^ 63 -> DIV_ROUND_UP n PAGE_SIZE = (n + PAGE_SIZE - 1) / PAGE_SIZE.
Proof. intros Hn. unfold DIV_ROUND_UP. by rewrite u64_id by plia. Qed.

Lemma map_items_eq n : 0 <= n < 2 ^ 63 -> map_items n = ((n + PAGE_SIZE - 1) / PAGE_SIZE * 2 + 63) / 64.
Proof.
  intros Hn. unfold map_items, BITS_TO_LONGS. rewrite DIV_ROUND_UP_page by done.
  unfold DIV_ROUND_UP, BITS_PER_LONG, PST_BITS. rewrite u64_id; [f_equal; lia|]. pdiv.
Qed.

Lemma map_items_mono n n' : 0 <= n <= n' -> n' < 2 ^ 63 -> 0 <= map_items n <= map_items n'.
Proof.
  intros Hn Hn'. rewrite !map_items_eq by lia.
  assert ((n + PAGE_SIZE - 1) / PAGE_SIZE <= (n' + PAGE_SIZE - 1) / PAGE_SIZE) by (apply Z.div_le_mono; plia).
  assert (0 <= (n + PAGE_SIZE - 1) / PAGE_SIZE) by (apply Z.div_pos; plia).
  split; [apply Z.div_pos; lia|apply Z.div_le_mono; lia].
Qed.

Record table_ok (h : shmems) : Prop := {
  to_length : length h = Z.to_nat SHMEM_HASH_SIZE;
  to_chains : forall i l, h !! i = Some l -> NoDup (shmid <$> l) /\ Forall (fun si => shmem_chain (shmid si) = i) l;
}.

Lemma shmem_chain_lt id : (shmem_chain id < Z.to_nat SHMEM_HASH_SIZE)%nat.
Proof. unfold shmem_chain, SHMEM_HASH_SIZE. Z.div_mod_to_equations; lia. Qed.

Lemma chain_find_id l id si : chain_find l id = Some si -> shmid si = id /\ si ∈ l.
Proof.
  induction l as [|x l IH]; [done|]. cbn. destruct (Z.eqb_spec (shmid x) id) as [He|He].
  - intros [= <-]. split; [done|apply list_elem_of_here].
  - intros H. destruct (IH H). split; [done|by apply list_elem_of_further].
Qed.

Lemma shmem_find_id h id si : shmem_find h id = Some si -> shmid si = id.
Proof. unfold shmem_find. destruct (h !! _) as [l|]; [|done]. cbn. by intros [? _]%chain_find_id. Qed.

Lemma chain_store_ids l si : shmid <$> chain_store l si = shmid <$> l.
Proof. induction l as [|x l IH]; [done|]. cbn. destruct (Z.eqb_spec (shmid x) (shmid si)) as [He|He]; cbn; congruence. Qed.

Lemma chain_find_store l si id :
  chain_find (chain_store l si) id =
  if id =? shmid si then (_ ← chain_find l id; Some si) else chain_find l id.
Proof.
  induction l as [|x l IH]; cbn; [by destruct (id =? _)|].
  destruct (Z.eqb_spec (shmid x) (shmid si)) as [He|He]; cbn.
  - rewrite He. destruct (Z.eqb_spec (shmid si) id), (Z.eqb_spec id (shmid si)); congruence || done.
  - destruct (Z.eqb_spec (shmid x) id) as [<-|Hne]; [|done]. by rewrite (proj2 (Z.eqb_neq _ _)).
Qed.

(** an alteration of one chain that keeps its ids does not show elsewhere *)
Lemma find_alter (f : list shmem_info -> list shmem_info) h id id' :
  shmem_find (alter f (shmem_chain id) h) id' =
  (l ← h !! shmem_chain id'; chain_find (if decide (shmem_chain id' = shmem_chain id) then f l else l) id').
Proof.
  unfold shmem_find. case_decide as Hd.
  - rewrite Hd, list_lookup_alter_eq. by destruct (h !! _).
  - by rewrite list_lookup_alter_ne.
Qed.

Lemma shmem_find_store h si id :
  shmem_find (shmem_store h si) id = if id =? shmid si then (_ ← shmem_find h id; Some si) else shmem_find h id.
Proof.
  unfold shmem_store. rewrite find_alter. unfold shmem_find. destruct (h !! shmem_chain id) as [l|]; cbn; [|by destruct (id =? _)].
  case_decide as Hd; [apply chain_find_store|]. destruct (Z.eqb_spec id (shmid si)); [congruence|done].
Qed.

Lemma shmem_find_add h si id :
  table_ok h ->
  shmem_find (shmem_hash_add h si) id = if id =? shmid si then Some si else shmem_find h id.
Proof.
  intros [Hl _]. unfold shmem_hash_add. rewrite find_alter. unfold shmem_find.
  destruct (lookup_lt_is_Some_2 h (shmem_chain id)) as [l ->]; [rewrite Hl; apply shmem_chain_lt|]. cbn.
  case_decide as Hd; cbn.
  - rewrite Z.eqb_sym. by destruct (id =? _).
  - destruct (Z.eqb_spec id (shmid si)); [congruence|done].
Qed.

Lemma store_ok h si : table_ok h -> table_ok (shmem_store h si).
Proof.
  intros [Hl Hc]. unfold shmem_store. constructor; [by rewrite length_alter|]. intros i l Hi.
  destruct (decide (i = shmem_chain (shmid si))) as [->|Hne]; [|rewrite list_lookup_alter_ne in Hi by done; by apply Hc].
  rewrite list_lookup_alter_eq in Hi. destruct (h !! _) as [l0|] eqn:E; [|done]. injection Hi as <-.
  destruct (Hc _ _ E) as [H1 H2]. rewrite chain_store_ids. split; [done|].
  assert (Hm : forall l, Forall (fun x => shmem_chain (shmid x) = shmem_chain (shmid si)) l <->
                         Forall (fun n => shmem_chain n = shmem_chain (shmid si)) (shmid <$> l)).
  { intros l. by rewrite Forall_fmap. }
  apply Hm. rewrite chain_store_ids. by apply Hm.
Qed.

Lemma hash_add_ok h si : table_ok h -> shmem_find h (shmid si) = None -> table_ok (shmem_hash_add h si).
Proof.
  intros [Hl Hc] Hn. unfold shmem_hash_add. constructor; [by rewrite length_alter|]. intros i l Hi.
  destruct (decide (i = shmem_chain (shmid si))) as [->|Hne]; [|rewrite list_lookup_alter_ne in Hi by done; by apply Hc].
  rewrite list_lookup_alter_eq in Hi. destruct (h !! _) as [l0|] eqn:E; [|done]. injection Hi as <-.
  destruct (Hc _ _ E) as [H1 H2]. unfold shmem_find in Hn. rewrite E in Hn. cbn in Hn. split; [|by constructor].
  rewrite fmap_cons. apply list.NoDup_cons. split; [|done]. intros (x & Hx & Hin)%list_elem_of_fmap.
  clear -Hn Hx Hin. induction l0 as [|y l IH]; [by apply elem_of_nil in Hin|]. cbn in Hn.
  destruct (Z.eqb_spec (shmid y) (shmid si)); [done|]. apply elem_of_cons in Hin as [->|Hin]; [congruence|auto].
Qed.

(** ** Growing a segment and adding the states of an area *)
Section TableOk.
Context {K : PipeKernel}.
Variables (env : page_env) (tracking : bool).

Definition page_count (n : Z) : Z := (n + PAGE_SIZE - 1) / PAGE_SIZE.

Record seg_ok (si : shmem_info) : Prop := {
  so_size : 0 <= size si <= 2 ^ 42;
  so_map : tracking = true -> Z.of_nat (length (pstate_map si)) = map_items (size si);
}.

(** the entry is the same but for its size and its states *)
Definition same_seg (si si' : shmem_info) : Prop :=
  shmid si' = shmid si /\ si_pid si' = si_pid si /\ si_start si' = si_start si /\ si_end si' = si_end si.

Lemma seg_room si : tracking = true -> seg_ok si -> page_count (size si) <= map_room (pstate_map si).
Proof.
  intros HT [Hs Hm]. unfold map_room. rewrite Hm by done. rewrite map_items_eq by lia. change (BITS_PER_LONG / PST_BITS) with 32.
  fold (page_count (size si)). Z.div_mod_to_equations; lia.
Qed.

Lemma expand_ok si n t :
  seg_ok si -> size si <= n <= 2 ^ 42 ->
  exists r t' si', expand_shmem tracking si n t = Done (r, t', si') /\ same_seg si si' /\ size si' = n /\
    (r = -1 \/ r = 0 /\ seg_ok si' /\ forall p, state_of si' p = state_of si p) /\
    ((forall t, k_malloc t = true) -> r = 0).
Proof.
  intros [Hs Hm] Hn. unfold expand_shmem. destruct tracking eqn:HT; cbn [negb].
  2: { eexists _, _, _. split; [done|]. split_and!; try done. right. split_and!; try done. constructor; cbn; [lia|congruence]. }
  destruct (map_items_mono (size si) n) as [H0 H1]; [lia|lia|]. rewrite (proj2 (Z.ltb_ge _ _)) by lia.
  destruct (k_malloc t) eqn:Hk; cbn [negb].
  2: { eexists _, _, _. split; [done|]. split_and!; try done; [by left|]. intros Hl. by rewrite Hl in Hk. }
  eexists _, _, _. split; [done|]. split_and!; try done. right. split; [done|].
  assert (Hlen : Z.to_nat (map_items (size si)) = length (pstate_map si)) by (specialize (Hm eq_refl); lia).
  cbn [pstate_map set_size]. rewrite Hlen, firstn_all. split.
  - constructor; [cbn; lia|]. intros _. cbn. rewrite length_app, length_replicate. specialize (Hm eq_refl). lia.
  - intros p. unfold state_of. cbn [pstate_map set_pstate_map]. apply get_pstate_grown.
Qed.

(** what an area's pagemap [pm], with [n] entries used, adds to the state of page [p] *)
Definition area_state (vma : VmaEntry) (pm : Z -> Z) (n p : Z) : Z :=
  let i := p - v_pgoff vma / PAGE_SIZE in
  if (0 <=? i) && (i <? n) && should_dump_page env vma (pm i) then page_pstate env (pm i) else 0.

Lemma pmaps_ok n vma map pm i m :
  0 <= i -> 0 <= v_pgoff vma < 2 ^ 62 -> aligned (v_pgoff vma) ->
  (forall j, i <= j < i + Z.of_nat n -> map j = Some (pm j)) ->
  v_pgoff vma / PAGE_SIZE + i + Z.of_nat n <= Z.min (map_room m) (2 ^ 30) ->
  exists m', pmaps_loop env n vma map i m = Some m' /\ length m' = length m /\
    forall p, default 0 (get_pstate m' p) =
      Z.lor (default 0 (get_pstate m p))
        (if i <=? p - v_pgoff vma / PAGE_SIZE then area_state vma pm (i + Z.of_nat n) p else 0).
Proof.
  intros Hi Hp Ha. revert i m Hi. induction n as [|n IH]; intros i m Hi Hmap Hroom; cbn [pmaps_loop].
  { exists m. split_and!; try done. intros p. unfold area_state.
    destruct (Z.leb_spec i (p - v_pgoff vma / PAGE_SIZE)); [|by rewrite Z.lor_0_r].
    rewrite (proj2 (Z.ltb_ge _ (i + Z.of_nat 0))) by lia. by rewrite andb_false_r, Z.lor_0_r. }
  rewrite (Hmap i) by lia. cbn [mbind option_bind].
  assert (Hdiv : DIV_ROUND_UP (v_pgoff vma) PAGE_SIZE = v_pgoff vma / PAGE_SIZE) by (rewrite DIV_ROUND_UP_page by lia; pdiv).
  assert (H0 : 0 <= v_pgoff vma / PAGE_SIZE) by (apply Z.div_pos; plia).
  assert (Hrest : forall j, i + 1 <= j < i + 1 + Z.of_nat n -> map j = Some (pm j)) by (intros; apply Hmap; lia).
  assert (Hsplit : forall p, p <> v_pgoff vma / PAGE_SIZE + i ->
    (if i + 1 <=? p - v_pgoff vma / PAGE_SIZE then area_state vma pm (i + 1 + Z.of_nat n) p else 0) =
    (if i <=? p - v_pgoff vma / PAGE_SIZE then area_state vma pm (i + Z.of_nat (S n)) p else 0)).
  { intros p Hne. replace (i + Z.of_nat (S n)) with (i + 1 + Z.of_nat n) by lia.
    destruct (Z.leb_spec (i + 1) (p - v_pgoff vma / PAGE_SIZE)), (Z.leb_spec i (p - v_pgoff vma / PAGE_SIZE)); lia || done. }
  assert (Hat : forall p, p = v_pgoff vma / PAGE_SIZE + i ->
    area_state vma pm (i + Z.of_nat (S n)) p = if should_dump_page env vma (pm i) then page_pstate env (pm i) else 0).
  { intros p ->. unfold area_state. replace (_ + i - _) with i by lia.
    by rewrite (proj2 (Z.leb_le 0 i)), (proj2 (Z.ltb_lt i _)) by lia. }
  destruct (should_dump_page env vma (pm i)) eqn:Hsd; cbn [negb].
  - rewrite Hdiv. destruct (set_pstate_some m (i + v_pgoff vma / PAGE_SIZE) (page_pstate env (pm i))) as [m1 E1]; [lia|lia|].
    rewrite E1. cbn. pose proof (set_pstate_length _ _ _ _ E1) as Hl1.
    assert (Hpfn : 0 <= i + v_pgoff vma / PAGE_SIZE < 2 ^ 30) by lia.
    destruct (IH (i + 1) m1) as (m' & -> & Hl & Hg); [lia|done|unfold map_room in *; rewrite Hl1; lia|].
    exists m'. split_and!; [done|congruence|]. intros p. rewrite Hg, (get_set_pstate _ _ _ _ p (page_pstate_range _ _) Hpfn E1).
    destruct (Z.eqb_spec p (i + v_pgoff vma / PAGE_SIZE)) as [He|He].
    + destruct (get_pstate_some m p) as [o ->]; [unfold map_room in *; lia|]. cbn [default mbind option_bind].
      rewrite (proj2 (Z.leb_gt (i + 1) _)), (proj2 (Z.leb_le i _)) by lia. rewrite Hat by lia. by rewrite Z.lor_0_r.
    + rewrite <-Hsplit by lia. by destruct (get_pstate m p).
  - destruct (IH (i + 1) m) as (m' & -> & Hl & Hg); [lia|done|lia|].
    exists m'. split_and!; [done|done|]. intros p. rewrite Hg. f_equal.
    destruct (Z.eq_dec p (v_pgoff vma / PAGE_SIZE + i)) as [He|He]; [|by apply Hsplit].
    rewrite (proj2 (Z.leb_gt (i + 1) _)), (proj2 (Z.leb_le i _)) by lia. by rewrite Hat.
Qed.

(** the states after the area [vma] of the segment was added *)
Definition merged (vma : VmaEntry) (pm : Z -> Z) (si si' : shmem_info) : Prop :=
  forall p, state_of si' p = Z.lor (state_of si p)
    (if tracking then area_state vma pm (page_count (size si' - v_pgoff vma)) p else 0).

Lemma update_ok si vma map pm :
  seg_ok si -> 0 <= v_pgoff vma <= size si -> aligned (v_pgoff vma) ->
  (tracking = true -> forall i, 0 <= i < page_count (size si - v_pgoff vma) -> map i = Some (pm i)) ->
  exists si', update_shmem_pmaps env tracking si map vma = Done si' /\ same_seg si si' /\ seg_ok si' /\
    size si' = size si /\ merged vma pm si si'.
Proof.
  intros Hok Hp Ha Hmap. unfold update_shmem_pmaps. destruct tracking eqn:HT; cbn [negb].
  2: { exists si. split_and!; try done. intros p. by rewrite HT, Z.lor_0_r. }
  pose proof Hok as [Hs Hm]. rewrite u64_id by lia. rewrite DIV_ROUND_UP_page by lia. fold (page_count (size si - v_pgoff vma)).
  assert (H0 : 0 <= page_count (size si - v_pgoff vma)) by (unfold page_count; apply Z.div_pos; plia).
  pose proof (seg_room si HT Hok) as Hroom.
  destruct (pmaps_ok (Z.to_nat (page_count (size si - v_pgoff vma))) vma map pm 0 (pstate_map si)) as (m & -> & Hl & Hg);
    [lia|lia|done|intros; apply Hmap; [done|lia]|unfold page_count in *; pdiv|].
  exists (set_pstate_map si m). split_and!; try done.
  - constructor; [done|]. intros _. cbn. rewrite Hl. by apply Hm.
  - intros p. unfold state_of. cbn [pstate_map set_pstate_map size]. rewrite Hg, HT, Z2Nat.id by lia. f_equal. unfold area_state.
    rewrite Z.add_0_l. by destruct (0 <=? _).
Qed.
End TableOk.

(** the table and the segments in it *)
Record shmems_ok (tracking : bool) (h : shmems) : Prop := {
  sh_table : table_ok h;
  sh_segs : forall id si, shmem_find h id = Some si -> seg_ok tracking si;
}.

(** the bytes of its segment that an area reaches *)
Definition area_size (vma : VmaEntry) : Z := v_pgoff vma + (v_end vma - v_start vma).

(** at most 4 TB: the number of a bit is an [int] *)
Definition area_ok (vma : VmaEntry) : Prop :=
  0 <= v_pgoff vma /\ aligned (v_pgoff vma) /\ 0 <= v_start vma < v_end vma /\ v_end vma < 2 ^ 64 /\ area_size vma <= 2 ^ 42.

(** the entry the segment has before an area of it is added *)
Definition seg_before (pid : Z) (vma : VmaEntry) (h : shmems) : shmem_info :=
  default (mk_si (v_shmid vma) (if vma_entry_is vma VMA_AREA_SYSVIPC then SYSVIPC_SHMEM_PID else pid) 0 (v_start vma) (v_end vma) [])
    (shmem_find h (v_shmid vma)).

Lemma shmems_store tracking h si si0 :
  shmems_ok tracking h -> shmem_find h (shmid si) = Some si0 -> seg_ok tracking si -> shmems_ok tracking (shmem_store h si).
Proof.
  intros [Ht Hs] Hf Hok. constructor; [by apply store_ok|]. intros id x. rewrite shmem_find_store.
  destruct (Z.eqb_spec id (shmid si)) as [->|_]; [|apply Hs]. rewrite Hf. cbn. congruence.
Qed.

Lemma add_area_found {K : PipeKernel} env tracking vma (map : Z -> option Z) pm t h si :
  shmems_ok tracking h -> area_ok vma -> shmem_find h (v_shmid vma) = Some si ->
  (tracking = true -> forall i, 0 <= i < page_count (Z.max (size si) (area_size vma) - v_pgoff vma) -> map i = Some (pm i)) ->
  exists r t' si',
    (let update t h si :=
       match update_shmem_pmaps env tracking si map vma with
       | Done si => Done (0, (t, shmem_store h si)) | Bug => Bug | NoFuel => NoFuel end in
     let expand t h si :=
       match expand_shmem tracking si (u64 (v_pgoff vma + u64 (v_end vma - v_start vma))) t with
       | Done (r, t, si) => if negb (r =? 0) then Done (-1, (t, shmem_store h si)) else update t h si
       | Bug => Bug | NoFuel => NoFuel end in
     if size si <? u64 (v_pgoff vma + u64 (v_end vma - v_start vma)) then expand t h si else update t h si) =
       Done (r, (t', shmem_store h si')) /\ same_seg si si' /\ size si' = Z.max (size si) (area_size vma) /\
    (r = -1 \/ r = 0 /\ seg_ok tracking si' /\ merged env tracking vma pm si si') /\
    ((forall t, k_malloc t = true) -> r = 0).
Proof.
  intros [Ht Hs] (A1 & A2 & A3 & A4 & A5) Hf Hmap. pose proof (Hs _ _ Hf) as Hok. pose proof Hok as [Hsz _].
  unfold area_size in *. rewrite (u64_id (v_end vma - v_start vma)), u64_id by lia. cbn zeta.
  destruct (Z.ltb_spec (size si) (v_pgoff vma + (v_end vma - v_start vma))) as [Hlt|Hge].
  - destruct (expand_ok tracking si (v_pgoff vma + (v_end vma - v_start vma)) t Hok) as (r & t' & si1 & -> & Hsame & Hn & Hr & Hl); [lia|].
    destruct Hr as [->|(-> & Hok1 & Hst)]; cbn [negb].
    { change (negb (-1 =? 0)) with true. cbn iota. eexists _, _, si1. split; [done|]. split_and!; [done|lia|by left|done]. }
    change (negb (0 =? 0)) with false. cbn iota.
    destruct (update_ok env tracking si1 vma map pm Hok1) as (si2 & -> & Hs2 & Hok2 & Hn2 & Hm2); [lia|done| |].
    { intros HT i Hi. apply Hmap; [done|]. rewrite Z.max_r by lia. rewrite Hn in Hi. lia. }
    eexists _, _, si2. split; [done|]. split_and!; [|lia| |done].
    + destruct Hsame as (?&?&?&?), Hs2 as (?&?&?&?). repeat split; congruence.
    + right. split_and!; try done. intros p. by rewrite Hm2, Hst.
  - destruct (update_ok env tracking si vma map pm Hok) as (si2 & -> & Hs2 & Hok2 & Hn2 & Hm2); [lia|done| |].
    { intros HT i Hi. apply Hmap; [done|]. rewrite Z.max_l by lia. lia. }
    eexists _, _, si2. split; [done|]. split_and!; [done|lia|by right|done].
Qed.

(** collecting an area of a shared segment keeps the table of segments well formed (32 chains, no id
    twice, each segment in its chain, its map of page states as long as its size needs) and every
    other segment as it was; the segment is as long as the furthest area seen, keeps the owner it
    was first seen with, and with memory tracking the state of each of its pages gains exactly what
    the area's pagemap says; only a failed allocation makes it fail. *)
Theorem add_shmem_area_spec {K : PipeKernel} env tracking pid vma (map : Z -> option Z) pm t h :
  shmems_ok tracking h -> area_ok vma ->
  (tracking = true -> forall i,
     0 <= i < page_count (Z.max (size (seg_before pid vma h)) (area_size vma) - v_pgoff vma) -> map i = Some (pm i)) ->
  exists r t' h', add_shmem_area env tracking pid vma map (t, h) = Done (r, (t', h')) /\
    (forall id, id <> v_shmid vma -> shmem_find h' id = shmem_find h id) /\
    (r = -1 \/
     r = 0 /\ shmems_ok tracking h' /\ exists si', shmem_find h' (v_shmid vma) = Some si' /\
       same_seg (seg_before pid vma h) si' /\
       size si' = Z.max (size (seg_before pid vma h)) (area_size vma) /\
       merged env tracking vma pm (seg_before pid vma h) si') /\
    ((forall t, k_malloc t = true) -> r = 0).
Proof.
  intros Hok Ha. unfold add_shmem_area, seg_before. destruct (shmem_find h (v_shmid vma)) as [si|] eqn:Hf; cbn [default from_option]; unfold id.
  - intros Hmap. pose proof (shmem_find_id _ _ _ Hf) as Hid.
    destruct (add_area_found env tracking vma map pm t h si Hok Ha Hf Hmap) as (r & t' & si' & E & Hs & Hn & Hr & Hl).
    cbv zeta in E |- *. rewrite E. assert (Hid' : shmid si' = v_shmid vma) by (destruct Hs; congruence).
    eexists _, _, _. split; [done|]. split_and!; [| |done].
    + intros id Hne. rewrite shmem_find_store. rewrite (proj2 (Z.eqb_neq _ _)) by congruence. done.
    + destruct Hr as [->|(-> & Hok' & Hm)]; [by left|right]. split; [done|]. split.
      { eapply shmems_store; [done| |done]. rewrite Hid'. exact Hf. }
      exists si'. split_and!; try done. rewrite shmem_find_store, Hid', Z.eqb_refl, Hf. done.
  - intros Hmap. destruct (k_malloc t) eqn:Hk; cbn [negb].
    2: { eexists _, _, _. split; [done|]. split_and!; [done|by left|]. intros Hl. by rewrite Hl in Hk. }
    set (si := mk_si _ _ 0 _ _ _) in *.
    assert (Hok1 : shmems_ok tracking (shmem_hash_add h si)).
    { destruct Hok as [Ht Hs]. constructor; [by apply hash_add_ok|]. intros id x. rewrite shmem_find_add by done.
      destruct (id =? shmid si); [|apply Hs]. intros [= <-]. constructor; cbn; [lia|done]. }
    assert (Hf1 : shmem_find (shmem_hash_add h si) (v_shmid vma) = Some si).
    { rewrite shmem_find_add by apply Hok. by rewrite Z.eqb_refl. }
    destruct (add_area_found env tracking vma map pm (S t) (shmem_hash_add h si) si Hok1 Ha Hf1 Hmap)
      as (r & t' & si' & E & Hs & Hn & Hr & Hl).
    assert (Hlt : (size si <? u64 (v_pgoff vma + u64 (v_end vma - v_start vma))) = true).
    { destruct Ha as (A1 & A2 & A3 & A4 & A5). unfold area_size in *. rewrite (u64_id (v_end vma - v_start vma)), u64_id by lia.
      apply Z.ltb_lt. cbn. lia. }
    rewrite Hlt in E. cbv zeta in E |- *. rewrite E.
    assert (Hid' : shmid si' = v_shmid vma) by (destruct Hs as [Hs _]; by rewrite Hs).
    eexists _, _, _. split; [done|]. split_and!; [| |done].
    + intros id Hne. rewrite shmem_find_store, shmem_find_add by apply Hok.
      rewrite !(proj2 (Z.eqb_neq _ _)) by (cbn; congruence). done.
    + destruct Hr as [->|(-> & Hok' & Hm)]; [by left|right]. split; [done|]. split.
      { eapply shmems_store; [done| |done]. rewrite Hid'. exact Hf1. }
      exists si'. split_and!; try done. rewrite shmem_find_store, Hid', Z.eqb_refl, Hf1. done.
Qed.

(** ** A segment of four pages seen through two areas *)
Definition demo_page_env : page_env := mk_page_env 0 true true.
Definition demo_area (start pgoff n : Z) : VmaEntry :=
  mk_vma (start * PAGE_SIZE) ((start + n) * PAGE_SIZE) (pgoff * PAGE_SIZE) 5 PROT_READ 1 (Z.lor VMA_AREA_REGULAR VMA_ANON_SHARED).
(** the pagemap buffer of an area of [n] pages: present, the second page not changed *)
Definition demo_area_map (n i : Z) : option Z :=
  if (0 <=? i) && (i <? n) then Some (Z.lor (PME_PRESENT + 7) (if i =? 1 then 0 else PME_SOFT_DIRTY)) else None.
Definition demo_table : shmems :=
  match @add_shmem_area (demo_kernel 1024) demo_page_env true 42 (demo_area 16 0 4) (demo_area_map 4) (0%nat, replicate 32 []) with
  | Done (_, (_, h)) => h
  | _ => []
  end.

Lemma empty_shmems_ok tracking : shmems_ok tracking (replicate 32 []).
Proof.
  assert (Hf : forall id, shmem_find (replicate 32 []) id = None).
  { intros id. unfold shmem_find. destruct (replicate 32 [] !! _) eqn:E; [|done]. apply lookup_replicate in E as [-> _]. done. }
  constructor; [|intros id si; by rewrite Hf]. constructor; [done|].
  intros i l [-> _]%lookup_replicate. split; [by apply NoDup_nil_2|done].
Qed.

Lemma add_shmem_area_witness :
  exists r t' h', @add_shmem_area (demo_kernel 1024) demo_page_env true 42 (demo_area 16 0 4) (demo_area_map 4) (0%nat, replicate 32 []) = Done (r, (t', h')) /\
    (forall id, id <> 5 -> shmem_find h' id = shmem_find (replicate 32 []) id) /\
    (r = -1 \/
     r = 0 /\ shmems_ok true h' /\ exists si', shmem_find h' 5 = Some si' /\
       same_seg (seg_before 42 (demo_area 16 0 4) (replicate 32 [])) si' /\
       size si' = Z.max 0 (4 * PAGE_SIZE) /\
       merged demo_page_env true (demo_area 16 0 4) (fun i => default 0 (demo_area_map 4 i))
         (seg_before 42 (demo_area 16 0 4) (replicate 32 [])) si') /\
    ((forall t, @k_malloc (demo_kernel 1024) t = true) -> r = 0).
Proof.
  apply (@add_shmem_area_spec (demo_kernel 1024) demo_page_env true 42 (demo_area 16 0 4) (demo_area_map 4)
    (fun i => default 0 (demo_area_map 4 i)) 0%nat (replicate 32 [])).
  - apply empty_shmems_ok.
  - vm_compute. intuition congruence.
  - intros _ i Hi. change (page_count _) with 4 in Hi. unfold demo_area_map.
    rewrite (proj2 (Z.leb_le 0 i)), (proj2 (Z.ltb_lt i 4)) by lia. reflexivity.
Defined.

(** with memory tracking, an area that maps only the first page of a segment of four makes the
    collection read the area's pagemap beyond its end: the number of pages is taken from the size
    of the segment and not from the length of the area. *)
Theorem short_area_reads_past_pagemap :
  @add_shmem_area (demo_kernel 1024) demo_page_env true 43 (demo_area 64 0 1) (demo_area_map 1) (9%nat, demo_table) = Bug /\
  exists t' h', @add_shmem_area (demo_kernel 1024) demo_page_env true 43 (demo_area 64 0 1) (demo_area_map 4) (9%nat, demo_table) = Done (0, (t', h')).
Proof. split; [vm_compute; reflexivity|]. eexists _, _. vm_compute. reflexivity. Qed.
End Shmem.
