(* ===== verification/Mem.v ===== *)
(** * Dumping the memory of a task (criu/mem.c)

    The pages of the private areas of a task are selected from its pagemap and recorded in a
    page pipe, as pages or, when the parent snapshot has them, as holes; the parasite fills
    the pipes and the pages are transferred to the images.  A full dump does so in chunks: when
    the page pipe has no pipe left, it is drained, transferred and used again from where the
    scan of the area stopped. *)
From S2P Require Import Prelude.
From S2P Require Import Vma.
From S2P Require Import PagePipe.
From S2P Require Import Pagemap.
From S2P Require Import PageXfer.
From S2P Require Import PagemapCache.
From S2P Require Import Drain.
From S2P Require Import Chunk.
From S2P Require Import Shmem.
Import Vma.Vma PagePipe.PagePipe Pagemap.Pagemap PageXfer.PageXfer Drain.Drain Chunk.Chunk.

Module Mem.
Open Scope cmon_scope.

(** what the dump of a task depends on besides its memory *)
Record mem_opts := mk_opts {
  o_page : page_env;              (* kdat.zero_page_pfn, opts.track_mem, opts.img_parent *)
  o_task_size : Z;                (* kdat.task_size *)
  o_lazy_pages : bool;            (* opts.lazy_pages *)
  o_pre_dump_mode : Z;            (* opts.pre_dump_mode *)
  o_thread_sp : list Z;           (* dmpi(item)->thread_sp[] *)
  o_pid : Z;                      (* item->pid->real *)
  o_cache_disabled : bool;        (* pagemap_cache_disabled *)
  o_shmem_tracking : bool;        (* is_shmem_tracking_en() *)
}.

Definition PRE_DUMP_SPLICE : Z := 1.
Definition PRE_DUMP_READ : Z := 2.

(** the sizes of the structures are those of a 64-bit target *)
Definition dump_pages_args_size (nr nr_priv_pages : Z) : Z :=
  20 + nr * 24 + (nr_priv_pages + 1) * 16.

(** ~PAGE_MASK: the offset in the page *)
Definition NOT_PAGE_MASK : Z := PAGE_SIZE - 1.

Section Gen.
Context {PK : PipeKernel}.
Variable o : mem_opts.

Definition is_stack (vaddr : Z) : bool :=
  existsb (fun sp => negb (has (Z.lxor sp vaddr) NOT_PAGE_MASK)) (o_thread_sp o).

(** [pages[3]]: holes, lazy pages, other pages *)
Record counts := mk_counts { n_hole : Z; n_lazy : Z; n_page : Z }.
Definition count_hole (c : counts) : counts := mk_counts (n_hole c + 1) (n_lazy c) (n_page c).
Definition count_page (lazy : bool) (c : counts) : counts :=
  if lazy then mk_counts (n_hole c) (n_lazy c + 1) (n_page c) else mk_counts (n_hole c) (n_lazy c) (n_page c + 1).

Definition page_flags (vma : VmaEntry) (vaddr : Z) : Z :=
  if vma_entry_can_be_lazy vma && negb (is_stack vaddr) then PPB_LAZY else 0.

(** the loop of [generate_iovs]: [n] pages to go, [pfn] done since [off] *)
Fixpoint gen_loop (n : nat) (vma : VmaEntry) (at_ : Z -> Z) (off : Z) (has_parent : bool) (pfn : Z) (pages : counts)
  : M (clock * page_pipe) (Z * Z * counts) :=
  match n with
  | O => ret (0, pfn, pages)
  | S n =>
    if negb (should_dump_page (o_page o) vma (at_ pfn)) then gen_loop n vma at_ off has_parent (pfn + 1) pages
    else
      let vaddr := u64 (v_start vma + off + pfn * PAGE_SIZE) in
      let ppb_flags := page_flags vma vaddr in
      if has_parent && page_in_parent (o_page o) (has (at_ pfn) PME_SOFT_DIRTY) then
        r <~ page_pipe_add_hole vaddr PP_HOLE_PARENT ;;
        if negb (r =? 0) then ret (r, pfn, pages)
        else gen_loop n vma at_ off has_parent (pfn + 1) (count_hole pages)
      else
        r <~ page_pipe_add_page (o_lazy_pages o) vaddr ppb_flags ;;
        if negb (r =? 0) then ret (r, pfn, pages)
        else gen_loop n vma at_ off has_parent (pfn + 1)
                      (count_page (has ppb_flags PPB_LAZY && o_lazy_pages o) pages)
  end.

(** the result, the new [*off], and what is added to the counters: pages scanned, [pages] *)
Definition generate_iovs (vma : VmaEntry) (map : Z -> Z) (off : Z) (has_parent : bool)
  : M (clock * page_pipe) (Z * Z * (Z * counts)) :=
  let at_ i := map (off / PAGE_SIZE + i) in
  let nr_to_scan := u64 (vma_entry_len vma - off) / PAGE_SIZE in
  x <~ gen_loop (Z.to_nat nr_to_scan) vma at_ off has_parent 0 (mk_counts 0 0 0) ;;
  let '(r, pfn, pages) := x in
  ret (r, u64 (off + pfn * PAGE_SIZE), (nr_to_scan, pages)).
End Gen.

(** ** One area *)

(** [args->off]; the array of iovecs of [args] is that of the page pipe *)
Record mst (X : Type) := mk_mst {
  m_d : dst X;
  m_off : Z;
  m_pmc : PagemapCache.pmc_t;
  m_shm : list (list Shmem.shmem_info);
  m_scanned : Z;
  m_counts : counts;
}.
Arguments mk_mst {X}.
Arguments m_d {X}.
Arguments m_off {X}.
Arguments m_pmc {X}.
Arguments m_shm {X}.
Arguments m_scanned {X}.
Arguments m_counts {X}.

Definition area_of (e : VmaEntry) : PagemapCache.area := PagemapCache.mk_area (v_start e) (v_end e).

Section Area.
Context {PK : PipeKernel} {SK : SpliceKernel} {CK : PagemapCache.PmKernel}.
Context {X : Type} {XO : XferOps (clock * gmap Z stream * X)}.
Variables (o : mem_opts) (mem pagemap : Z -> Z) (transfer_lazy : bool).

Definition on_d {A} (m : M (dst X) A) : M (mst X) A :=
  fun s => match m (m_d s) with
           | Done (a, d) => Done (a, mk_mst d (m_off s) (m_pmc s) (m_shm s) (m_scanned s) (m_counts s))
           | Bug => Bug
           | NoFuel => NoFuel
           end.

Definition add_counts (c d : counts) : counts :=
  mk_counts (n_hole c + n_hole d) (n_lazy c + n_lazy d) (n_page c + n_page d).

(** [cnt_add] of the four counters *)
Definition cnt_add (n : Z) (c : counts) : M (mst X) unit :=
  fun s => Done (tt, mk_mst (m_d s) (m_off s) (m_pmc s) (m_shm s) (m_scanned s + n) (add_counts (m_counts s) c)).

Definition drain : M (mst X) Z :=
  fun s =>
    match on_ps (fun pp => drain_pages mem pp (mk_args (m_off s) 0 0 (iovs pp))) (m_d s) with
    | Done ((r, args), d) => Done (r, mk_mst d (da_off args) (m_pmc s) (m_shm s) (m_scanned s) (m_counts s))
    | Bug => Bug
    | NoFuel => NoFuel
    end.

Definition xfer_pages : M (mst X) Z := on_d (on_xfer (page_xfer_dump_pages 0 transfer_lazy)).

Definition drain_xfer : M (mst X) Z := r <~ drain ;; if r =? 0 then xfer_pages else ret r.

(** the label [again]; [map]: the entries of the area.  The fuel: every turn records a page. *)
Fixpoint again_loop (fuel : nat) (vma : VmaEntry) (map : Z -> Z) (off : Z) (has_parent : bool) : M (mst X) Z :=
  match fuel with
  | O => fun _ => NoFuel
  | S fuel =>
    x <~ on_d (on_pp (generate_iovs o vma map off has_parent)) ;;
    let '(r, off, (n, c)) := x in
    cnt_add n c ;;;
    if r =? - EAGAIN then
      fun s =>
        let '(_, pp, _, _) := m_d s in
        if negb (has (pp_flags pp) PP_CHUNK_MODE) then Bug
        else
          (r <~ drain_xfer ;;
           if r =? 0 then
             on_d (on_pp (page_pipe_reinit (o_lazy_pages o))) ;;;
             again_loop fuel vma map off has_parent
           else ret r) s
    else ret r
  end.

(** [generate_vma_iovs] from the lookup of the pagemap on; [rest]: the areas that follow in the list *)
Definition scan_vma (vma : VmaEntry) (rest : list VmaEntry) (has_parent : bool) : M (mst X) Z :=
  fun s =>
    let '(t, pp, ps, x) := m_d s in
    match PagemapCache.pmc_get_map (o_cache_disabled o) (o_task_size o) pagemap (area_of vma) (area_of <$> rest) (t, m_pmc s) with
    | Bug => Bug
    | NoFuel => NoFuel
    | Done (k, (t, pmc)) =>
      let s := mk_mst (t, pp, ps, x) (m_off s) pmc (m_shm s) (m_scanned s) (m_counts s) in
      match k with
      | None => Done (-1, s)
      | Some k =>
        if vma_entry_is vma VMA_ANON_SHARED then
          let get i := if (0 <=? k + i) && (k + i <? PagemapCache.map_len pmc / 8) then Some (PagemapCache.map pmc (k + i)) else None in
          match Shmem.add_shmem_area (o_page o) (o_shmem_tracking o) (o_pid o) vma get (t, m_shm s) with
          | Done (r, (t, h)) => Done (r, mk_mst (t, pp, ps, x) (m_off s) pmc h (m_scanned s) (m_counts s))
          | Bug => Bug
          | NoFuel => NoFuel
          end
        else
          again_loop (S (Z.to_nat (vma_entry_len vma / PAGE_SIZE))) vma
                     (fun i => PagemapCache.map pmc (k + i)) 0 has_parent s
      end
    end.

Definition generate_vma_iovs (vma : VmaEntry) (rest : list VmaEntry) (has_parent pre_dump : bool)
           (parent_predump_mode : Z) : M (mst X) Z :=
  if negb (vma_entry_is_private vma (o_task_size o)) && negb (vma_entry_is vma VMA_ANON_SHARED) then ret 0
  else
    let readable := has (v_prot vma) PROT_READ in
    if negb readable && ((o_pre_dump_mode o =? PRE_DUMP_READ) && pre_dump) then ret 0
    else
      let has_parent :=
        if negb readable && (((parent_predump_mode =? PRE_DUMP_READ) && (o_pre_dump_mode o =? PRE_DUMP_SPLICE)) || negb pre_dump)
        then false else has_parent in
      if vma_entry_is vma VMA_AREA_AIORING && pre_dump then ret 0
      else
        let has_parent := if vma_entry_is vma VMA_AREA_AIORING then false else has_parent in
        scan_vma vma rest has_parent.

Fixpoint generate_all (vmas : list VmaEntry) (has_parent pre_dump : bool) (ppm : Z) : M (mst X) Z :=
  match vmas with
  | [] => ret 0
  | vma :: rest =>
    r <~ generate_vma_iovs vma rest has_parent pre_dump ppm ;;
    if r <? 0 then ret r else generate_all rest has_parent pre_dump ppm
  end.
End Area.

(** ** The whole dump *)

Definition USEC_PER_SEC : Z := 1000000.

(** [parent_uptime]: of the parent inventory; [tps]: sysconf(_SC_CLK_TCK); [start_time]: of the
    task, [None] when /proc/pid/stat cannot be read.  A division by zero kills the dumper. *)
Definition detect_pid_reuse (parent_uptime : option Z) (tps : Z) (start_time : option Z) : res Z :=
  match parent_uptime with
  | None => Done (-1)
  | Some dump_uptime =>
    if u64 tps =? u64 (-1) then Done (-1)
    else
      match start_time with
      | None => Done (-1)
      | Some start_time =>
        if (u64 tps =? 0) || (USEC_PER_SEC / u64 tps =? 0) then Bug
        else
          let dump_ticks := dump_uptime / (USEC_PER_SEC / u64 tps) in
          if dump_ticks <=? start_time then Done 1 else Done 0
      end
  end.

(** clear_refs: [k_refs_open]/[k_refs_write] succeed, are refused for lack of support (EACCES,
    EINVAL), or fail *)
Inductive refs_answer := RefsOk | RefsUnsupported | RefsFailed.
Class RefsKernel := {
  k_refs_open : clock -> refs_answer;
  k_refs_write : clock -> refs_answer;
}.

Definition do_task_reset_dirty_track {K : RefsKernel} (t : clock) : Z * clock :=
  match k_refs_open t with
  | RefsUnsupported => (1, S t)
  | RefsFailed => (-1, S t)
  | RefsOk =>
    match k_refs_write (S t) with
    | RefsUnsupported => (1, S (S t))
    | RefsFailed => (-1, S (S t))
    | RefsOk => (0, S (S t))
    end
  end.

Definition task_reset_dirty_track {K : RefsKernel} (track_mem has_dirty_track : bool) (t : clock) : res (Z * clock) :=
  if negb track_mem then Done (0, t)
  else if negb has_dirty_track then Bug
  else
    let '(r, t) := do_task_reset_dirty_track t in
    if r =? 1 then Bug else Done (r, t).

(** [struct mem_dump_ctl] and the fields of [struct vm_area_list] that are used *)
Record mem_dump_ctl := mk_mdc {
  pre_dump : bool;
  mdc_lazy : bool;
  parent_ie : option (Z * Z);          (* dump_uptime and pre_dump_mode of the parent's inventory *)
  mdc_start_time : option Z;
}.
Record vm_area_list := mk_val {
  val_h : list VmaEntry;
  nr_priv_pages : Z;
  nr_priv_pages_longest : Z;
  nr_shared_pages_longest : Z;
}.

(** what is left of a dump *)
Record dump_result (X : Type) := mk_dump_result {
  d_exit : Z;
  d_t : clock;
  d_ps : gmap Z stream;
  d_x : option X;                      (* the closed transfer engine, if it was opened *)
  d_mem_pp : option page_pipe;         (* dmpi(item)->mem_pp *)
  d_closed : list Z;                   (* the descriptors closed with the page pipe *)
  d_shm : list (list Shmem.shmem_info);
  d_scanned : Z;
  d_counts : counts;
}.
Arguments mk_dump_result {X}.
Arguments d_exit {X}.
Arguments d_t {X}.
Arguments d_ps {X}.
Arguments d_x {X}.
Arguments d_mem_pp {X}.
Arguments d_closed {X}.
Arguments d_shm {X}.
Arguments d_scanned {X}.
Arguments d_counts {X}.

(** the transfer engine of a dump: [open_page_xfer], whether it has a parent,
    [check_parent_page_xfer] and [xfer.close]; [xf_none] stands for the engine of a pre-dump,
    which is not opened *)
Record xfer_engine (X : Type) := mk_engine {
  xf_open : clock -> res (option X * clock);
  xf_parent : X -> bool;
  xf_check : clock -> Z * clock;
  xf_close : X -> clock -> res (clock * X);
  xf_none : X;
}.
Arguments xf_open {X}.
Arguments xf_parent {X}.
Arguments xf_check {X}.
Arguments xf_close {X}.
Arguments xf_none {X}.

Section Seized.
Context {PK : PipeKernel} {SK : SpliceKernel} {CK : PagemapCache.PmKernel} {FK : RefsKernel}.
Context {X : Type} {XO : XferOps (clock * gmap Z stream * X)}.
Variables (o : mem_opts) (mem pagemap : Z -> Z) (E : xfer_engine X).
Variables (pm_disabled has_dirty_track : bool) (tps : Z).

(** steps 1 to 4, up to the label [out_xfer]: [ret] and the exit code *)
Definition seized_body (mdc : mem_dump_ctl) (vmas : list VmaEntry) (has_parent : bool) (ppm : Z)
  : M (mst X) (Z * Z) :=
  let transfer_lazy := negb (mdc_lazy mdc) in
  r <~ generate_all o mem pagemap transfer_lazy vmas has_parent (pre_dump mdc) ppm ;;
  if r <? 0 then ret (r, -1)
  else
    r <~ (if pre_dump mdc then (if o_pre_dump_mode o =? PRE_DUMP_READ then ret 0 else drain mem)
          else drain_xfer mem transfer_lazy) ;;
    if negb (r =? 0) then ret (r, -1)
    else
      fun s =>
        let '(t, pp, ps, x) := m_d s in
        match task_reset_dirty_track (track_mem (o_page o)) has_dirty_track t with
        | Done (r, t) =>
          Done ((r, if r =? 0 then 0 else -1),
                mk_mst (t, pp, ps, x) (m_off s) (m_pmc s) (m_shm s) (m_scanned s) (m_counts s))
        | Bug => Bug
        | NoFuel => NoFuel
        end.

(** from the opened engine to the label [out_xfer]; [ret]: what opening it returned *)
Definition seized_run (mdc : mem_dump_ctl) (vmas : list VmaEntry) (ret_ : Z) (xfer_parent : bool)
  : M (mst X) (Z * Z) :=
  match (if xfer_parent then detect_pid_reuse (fst <$> parent_ie mdc) tps (mdc_start_time mdc) else Done 0) with
  | Bug => bug
  | NoFuel => fun _ => NoFuel
  | Done reuse =>
    if reuse =? -1 then ret (ret_, -1)
    else
      let has_parent := xfer_parent && (reuse =? 0) in
      let ppm := match parent_ie mdc with Some (_, m) => m | None => -1 end in
      seized_body mdc vmas has_parent ppm
  end.

(** the label [out_pp] *)
Definition seized_out_pp (mdc : mem_dump_ctl) (ret_ exit_code : Z) (x : option X) (s : mst X) : res (dump_result X) :=
  let '(t, pp, ps, _) := m_d s in
  if negb (ret_ =? 0) || negb (pre_dump mdc || mdc_lazy mdc) then
    match destroy_page_pipe pp with
    | None => Bug
    | Some fds => Done (mk_dump_result exit_code t ps x None fds (m_shm s) (m_scanned s) (m_counts s))
    end
  else Done (mk_dump_result exit_code t ps x (Some pp) [] (m_shm s) (m_scanned s) (m_counts s)).

Definition __parasite_dump_pages_seized (mdc : mem_dump_ctl) (l : vm_area_list) (t : clock)
           (ps : gmap Z stream) (shm : list (list Shmem.shmem_info)) (sc : Z) (cn : counts) : res (dump_result X) :=
  let pmc_size := Z.max (nr_priv_pages_longest l) (nr_shared_pages_longest l) in
  let fail t := Done (mk_dump_result (-1) t ps None None [] shm sc cn) in
  let '(r, t, pmc) := PagemapCache.pmc_init pm_disabled (pmc_size * PAGE_SIZE) t in
  if negb (r =? 0) then fail t
  else
    let cpp_flags := if negb (pre_dump mdc || mdc_lazy mdc) then PP_CHUNK_MODE else 0 in
    let args_iovs := replicate (Z.to_nat (nr_priv_pages l)) (mk_iovec 0 0) in
    match create_page_pipe (o_lazy_pages o) (nr_priv_pages l) (if mdc_lazy mdc then None else Some args_iovs) cpp_flags t with
    | Bug => Bug
    | NoFuel => NoFuel
    | Done (None, t) => fail t
    | Done (Some pp, t) =>
      let state t x := mk_mst (t, pp, ps, x) 0 pmc shm sc cn in
      if negb (pre_dump mdc) then
        match xf_open E t with
        | Bug => Bug
        | NoFuel => NoFuel
        | Done (None, t) => seized_out_pp mdc (-1) (-1) None (state t (xf_none E))
        | Done (Some x, t) =>
          match seized_run mdc (val_h l) 0 (xf_parent E x) (state t x) with
          | Bug => Bug
          | NoFuel => NoFuel
          | Done ((r, ex), s) =>
            let '(t, pp, ps, x) := m_d s in
            match xf_close E x t with
            | Bug => Bug
            | NoFuel => NoFuel
            | Done (t, x) => seized_out_pp mdc r ex (Some x) (mk_mst (t, pp, ps, x) (m_off s) (m_pmc s) (m_shm s) (m_scanned s) (m_counts s))
            end
          end
        end
      else
        let '(r, t) := xf_check E t in
        if r <? 0 then seized_out_pp mdc r (-1) None (state t (xf_none E))
        else
          match seized_run mdc (val_h l) r (negb (r =? 0)) (state t (xf_none E)) with
          | Bug => Bug
          | NoFuel => NoFuel
          | Done ((r, ex), s) => seized_out_pp mdc r ex None s
          end
    end.
End Seized.

(** ** Making the areas readable for the time of the dump *)

(** [struct parasite_vma_entry] *)
Record parasite_vma_entry := mk_pvma { pv_start : Z; pv_len : Z; pv_prot : Z }.

(** the entries that [prep_dump_pages_args] puts into the arguments of the parasite *)
Definition prep_dump_pages_args (o : mem_opts) (vmas : list VmaEntry) (skip_non_trackable : bool) : list parasite_vma_entry :=
  (fun vma => mk_pvma (v_start vma) (vma_entry_len vma) (v_prot vma)) <$>
  filter (fun vma =>
    vma_entry_is_private vma (o_task_size o) &&
    negb (vma_entry_is vma VMA_AREA_AIORING && skip_non_trackable) &&
    negb (has (v_prot vma) PROT_READ) = true) vmas.

Class MprotectKernel := { k_mprotect : clock -> bool }.

(** the protections of the task's areas, by their start, and the parasite's [mprotect_args] *)
Definition prot_state : Type := clock * gmap Z Z * option (list parasite_vma_entry).

Fixpoint mprotect_loop {K : MprotectKernel} (l : list parasite_vma_entry) (add_prot : Z) : M (clock * gmap Z Z) Z :=
  match l with
  | [] => ret 0
  | v :: l =>
    fun '(t, prots) =>
      if negb (k_mprotect t) then Done (-1, (S t, prots))
      else mprotect_loop l add_prot (S t, <[pv_start v := Z.lor (pv_prot v) add_prot]> prots)
  end.

(** [mprotect_vmas] of the parasite *)
Definition mprotect_vmas {K : MprotectKernel} (l : list parasite_vma_entry) (add_prot : Z) : M prot_state Z :=
  fun '(t, prots, _) =>
    match mprotect_loop l add_prot (t, prots) with
    | Bug => Bug
    | NoFuel => NoFuel
    | Done (r, (t, prots)) => Done (r, (t, prots, if add_prot =? 0 then None else Some l))
    end.

(** [parasite_cleanup]: what the parasite does when it is removed from the task *)
Definition parasite_cleanup {K : MprotectKernel} : M prot_state unit :=
  fun '(t, prots, args) =>
    match args with
    | None => Done (tt, (t, prots, args))
    | Some l => (_ <~ mprotect_vmas l 0 ;; ret tt) (t, prots, args)
    end.

(** the protections while the pages are dumped, with the outcome of the dump, and those in the
    end; [dump]: [__parasite_dump_pages_seized]; [fault]: [fault_injected(FI_DUMP_PAGES)] *)
Definition parasite_dump_pages_seized {K : MprotectKernel} {X : Type} (o : mem_opts) (mdc : mem_dump_ctl) (l : vm_area_list)
    (fault : bool) (dump : clock -> res (dump_result X)) : M prot_state (Z * option (dump_result X * gmap Z Z)) :=
  fun s =>
    let pargs := prep_dump_pages_args o (val_h l) (pre_dump mdc) in
    let unprotect := negb (pre_dump mdc) || (o_pre_dump_mode o =? PRE_DUMP_SPLICE) in
    match (if unprotect then mprotect_vmas pargs PROT_READ s else Done (0, s)) with
    | Bug => Bug
    | NoFuel => NoFuel
    | Done (r, (t, prots1, args)) =>
      if negb (r =? 0) then Done ((r, None), (t, prots1, args))
      else if fault then Done ((-1, None), (t, prots1, args))
      else
        match dump t with
        | Bug => Bug
        | NoFuel => NoFuel
        | Done R =>
          if negb (d_exit R =? 0) then Done ((d_exit R, Some (R, prots1)), (d_t R, prots1, args))
          else
            match (if unprotect then mprotect_vmas pargs 0 (d_t R, prots1, args) else Done (0, (d_t R, prots1, args))) with
            | Bug => Bug
            | NoFuel => NoFuel
            | Done (r, s) => Done ((if r =? 0 then 0 else -1, Some (R, prots1)), s)
            end
        end
    end.

(** ** Which pages are recorded *)
Section Selected.
Variables (o : mem_opts) (vma : VmaEntry) (map : Z -> Z) (has_parent : bool).

(** the page of index [i] of the area *)
Definition page_addr (i : Z) : Z := v_start vma + i * PAGE_SIZE.
Definition selected (i : Z) : bool := should_dump_page (o_page o) vma (map i).
Definition as_hole (i : Z) : bool := has_parent && page_in_parent (o_page o) (has (map i) PME_SOFT_DIRTY).

(** the pages to transfer, and the pages left to the parent, among [n] from the [i]-th on *)
Definition area_pages (i n : Z) : list Z :=
  page_addr <$> filter (fun i => selected i && negb (as_hole i) = true) (seqZ i n).
Definition area_holes (i n : Z) : list Z :=
  page_addr <$> filter (fun i => selected i && as_hole i = true) (seqZ i n).

Lemma area_pages_app i n m : 0 <= n -> 0 <= m -> area_pages i (n + m) = area_pages i n ++ area_pages (i + n) m.
Proof. intros. unfold area_pages. by rewrite seqZ_app, list.filter_app, fmap_app. Qed.
Lemma area_holes_app i n m : 0 <= n -> 0 <= m -> area_holes i (n + m) = area_holes i n ++ area_holes (i + n) m.
Proof. intros. unfold area_holes. by rewrite seqZ_app, list.filter_app, fmap_app. Qed.
Lemma area_pages_1 i : area_pages i 1 = if selected i && negb (as_hole i) then [page_addr i] else [].
Proof. unfold area_pages. change (seqZ i 1) with [0 + i]. rewrite filter_cons, filter_nil, Z.add_0_l. case_decide as H; [by rewrite H|]. by destruct (_ && _). Qed.
Lemma area_holes_1 i : area_holes i 1 = if selected i && as_hole i then [page_addr i] else [].
Proof. unfold area_holes. change (seqZ i 1) with [0 + i]. rewrite filter_cons, filter_nil, Z.add_0_l. case_decide as H; [by rewrite H|]. by destruct (_ && _). Qed.
Lemma area_nil i : area_pages i 0 = [] /\ area_holes i 0 = [].
Proof. done. Qed.

Lemma area_length i n : 0 <= n ->
  Z.of_nat (length (area_pages i n)) + Z.of_nat (length (area_holes i n)) <= n.
Proof.
  intros Hn. unfold area_pages, area_holes. rewrite !length_fmap.
  assert (H : forall l : list Z, (length (filter (fun i => selected i && negb (as_hole i) = true) l) +
            length (filter (fun i => selected i && as_hole i = true) l) <= length l)%nat).
  { induction l as [|x l IH]; [done|]. rewrite !filter_cons. simpl.
    destruct (decide (selected x && negb (as_hole x) = true)), (decide (selected x && as_hole x = true)); simpl; try lia.
    destruct (selected x), (as_hole x); done. }
  specialize (H (seqZ i n)). rewrite length_seqZ in H. lia.
Qed.

Lemma area_range i n a : a ∈ area_pages i n ++ area_holes i n -> page_addr i <= a /\ a + PAGE_SIZE <= page_addr (i + n).
Proof.
  unfold area_pages, area_holes. rewrite elem_of_app, !list_elem_of_fmap.
  assert (H : forall x, x ∈ seqZ i n -> page_addr i <= page_addr x /\ page_addr x + PAGE_SIZE <= page_addr (i + n)).
  { intros x Hx%elem_of_seqZ. unfold page_addr. plia. }
  intros [(x & -> & Hx)|(x & -> & Hx)]; apply list_elem_of_filter in Hx as [_ Hx]; by apply H.
Qed.
End Selected.

Section GenOk.
Context {PK : PipeKernel} `{!PipeKernelOk PK}.
Variables (o : mem_opts) (vma : VmaEntry) (map : Z -> Z) (has_parent : bool).
Hypothesis Hstart : aligned (v_start vma).

(** what a scan of [k] of the [n] pages from index [i] leaves *)
Record scanned (lo i n k r : Z) (P H : list Z) (c c' : counts) (pp pp' : page_pipe) : Prop := {
  sc_pending : pending 0 lo (page_addr vma (i + k)) (P ++ area_pages o vma map has_parent i k)
                 (H ++ area_holes o vma map has_parent i k) pp';
  sc_kept : kept k (k * PP_HOLES_BATCH) pp pp' \/ r = -1;
  sc_iovs : nr_iovs pp' = nr_iovs pp;
  sc_result : r = 0 /\ k = n \/ (r = -1 \/ r = - EAGAIN) /\ k < n;
  sc_again : r = - EAGAIN -> chunk_ok pp -> (2 <= length (bufs pp'))%nat;
  sc_progress : r = - EAGAIN -> free_bufs pp <> [] -> 0 < k;
  sc_counts : n_hole c' = n_hole c + Z.of_nat (length (area_holes o vma map has_parent i k)) /\
    n_lazy c' + n_page c' = n_lazy c + n_page c + Z.of_nat (length (area_pages o vma map has_parent i k));
}.

(** a page that is done, followed by a scan of the rest *)
Lemma scanned_step lo i n k r P H Pn Hn c c1 c' pp pp1 pp' :
  kept 1 PP_HOLES_BATCH pp pp1 -> 0 <= k ->
  Pn = area_pages o vma map has_parent i 1 -> Hn = area_holes o vma map has_parent i 1 ->
  n_hole c1 = n_hole c + Z.of_nat (length Hn) -> n_lazy c1 + n_page c1 = n_lazy c + n_page c + Z.of_nat (length Pn) ->
  scanned lo (i + 1) n k r (P ++ Pn) (H ++ Hn) c1 c' pp1 pp' ->
  scanned lo i (n + 1) (k + 1) r P H c c' pp pp'.
Proof.
  intros Hk Hk0 HPn HHn Hc1 Hc2 [S1 S2 S3 S4 S5 S6 S7]. rewrite HPn, HHn in *.
  assert (Ei : k + 1 = 1 + k) by lia.
  constructor.
  - rewrite Ei, area_pages_app, area_holes_app, !app_assoc by lia. by rewrite Z.add_assoc.
  - destruct S2 as [S2|S2]; [left|by right]. replace (k + 1) with (1 + k) by lia. rewrite Z.mul_add_distr_r, Z.mul_1_l. by eapply kept_trans.
  - destruct Hk. congruence.
  - lia.
  - intros Hr Hc. apply S5; [done|]. by apply (go_chunk 0 pp pp1 (kp_grow _ _ _ _ Hk 0)).
  - lia.
  - rewrite Ei, area_pages_app, area_holes_app, !length_app by lia. lia.
Qed.

Lemma gen_loop_ok n off pfn c t pp lo hi hi' P H :
  aligned off -> 0 <= off -> 0 <= pfn ->
  let i := off / PAGE_SIZE + pfn in
  window 0 lo hi' -> lo <= hi -> hi <= page_addr vma i -> page_addr vma (i + Z.of_nat n) <= hi' ->
  pending 0 lo hi P H pp -> free_iov pp + Z.of_nat n <= nr_iovs pp ->
  nr_holes pp + Z.of_nat n * PP_HOLES_BATCH < 2 ^ 32 -> Z.of_nat (length H) + Z.of_nat n < 2 ^ 31 ->
  exists r k c' t' pp',
    gen_loop o n vma (fun j => map (off / PAGE_SIZE + j)) off has_parent pfn c (t, pp) =
      Done ((r, pfn + k, c'), (t', pp')) /\ 0 <= k /\
    scanned lo i (Z.of_nat n) k r P H c c' pp pp'.
Proof.
  intros Hoff Hoff0. revert pfn c t pp hi P H. induction n as [|n IH]; intros pfn c t pp hi P H Hpfn i W Hlo Hhi Hi D Hf Hh HL.
  { eexists 0, 0, c, t, pp. rewrite Z.add_0_r. split; [done|]. split; [lia|].
    destruct (area_nil o vma map has_parent i) as [E1 E2].
    constructor; rewrite ?E1, ?E2, ?app_nil_r; try done; [|left; by apply kept_refl|by left|cbn; lia].
    rewrite Z.add_0_r. by eapply pending_widen. }
  cbn [gen_loop]. fold i.
  assert (Hv : u64 (v_start vma + off + pfn * PAGE_SIZE) = page_addr vma i /\ aligned (page_addr vma i)).
  { assert (E : v_start vma + off + pfn * PAGE_SIZE = page_addr vma i) by (unfold page_addr, i; pdiv).
    rewrite E. split; [|unfold page_addr; auto with pages]. apply u64_id. destruct W as (_&_&?&_&?). unfold page_addr in *. plia. }
  destruct Hv as [-> Hal].
  assert (Hnext : page_addr vma i + PAGE_SIZE = page_addr vma (i + 1)) by (unfold page_addr; lia).
  assert (Hi1 : page_addr vma (i + 1) <= hi') by (unfold page_addr in *; unfold PAGE_SIZE in *; lia).
  assert (HB : 0 < PP_HOLES_BATCH) by done.
  replace (Z.of_nat (S n)) with (Z.of_nat n + 1) in * by lia.
  (* the rest of the area after this page *)
  assert (Hrest : forall c1 t1 pp1 Pn Hn, kept 1 PP_HOLES_BATCH pp pp1 ->
     Pn = area_pages o vma map has_parent i 1 -> Hn = area_holes o vma map has_parent i 1 ->
     n_hole c1 = n_hole c + Z.of_nat (length Hn) -> n_lazy c1 + n_page c1 = n_lazy c + n_page c + Z.of_nat (length Pn) ->
     pending 0 lo (page_addr vma (i + 1)) (P ++ Pn) (H ++ Hn) pp1 ->
     exists r k c' t' pp', gen_loop o n vma (fun j => map (off / PAGE_SIZE + j)) off has_parent (pfn + 1) c1 (t1, pp1) =
       Done ((r, pfn + k, c'), (t', pp')) /\ 0 <= k /\ scanned lo i (Z.of_nat n + 1) k r P H c c' pp pp').
  { intros c1 t1 pp1 Pn Hn Hk HP HH Hc1 Hc2 D1. pose proof Hk as [K1 K2 K3 K4 _].
    assert (Hlen : (length Hn <= 1)%nat).
    { subst Hn. pose proof (area_length o vma map has_parent i 1 ltac:(lia)). lia. }
    destruct (IH (pfn + 1) c1 t1 pp1 (page_addr vma (i + 1)) (P ++ Pn) (H ++ Hn)) as (r & k & c' & t' & pp' & Hg & Hk0 & Hs);
      try done; try lia; replace (off / PAGE_SIZE + (pfn + 1)) with (i + 1) in * by (unfold i; lia); try done.
    - unfold page_addr in *; unfold PAGE_SIZE in *; lia.
    - by rewrite <-Z.add_assoc, (Z.add_comm 1).
    - rewrite length_app. lia.
    - eexists r, (k + 1), c', t', pp'. split; [rewrite Hg; do 4 f_equal; lia|]. split; [lia|].
      by eapply scanned_step. }
  change (should_dump_page (o_page o) vma (map i)) with (selected o vma map i).
  change (has_parent && page_in_parent (o_page o) (has (map i) PME_SOFT_DIRTY)) with (as_hole o map has_parent i).
  pose proof (area_pages_1 o vma map has_parent i) as EP. pose proof (area_holes_1 o vma map has_parent i) as EH.
  destruct (selected o vma map i) eqn:Es; cbn [negb].
  2: { cbn [andb] in EP, EH. apply (Hrest c t pp [] []); try done; rewrite ?app_nil_r; try (cbn; lia).
       - eapply kept_weaken; [| |apply kept_refl]; lia.
       - eapply pending_widen; [|exact D]. plia. }
  cbn [andb] in EP, EH. destruct (as_hole o map has_parent i) eqn:Eh; cbn [negb] in EP, EH.
  - destruct (pending_hole 0 lo hi hi' P H t pp (page_addr vma i)) as (r & t1 & pp1 & Hadd & Hr & Hk); try done; try lia.
    rewrite (bind_Done _ _ _ _ _ Hadd). destruct Hr as [[-> D1]|[-> D1]]; cbn [negb Z.eqb].
    + rewrite Hnext in D1. apply (Hrest (count_hole c) t1 pp1 [] [page_addr vma i]); try done; rewrite ?app_nil_r; try done; try (cbn; lia).
      eapply kept_weaken; [| |exact Hk]; lia.
    + eexists (-1), 0, c, t1, pp1. rewrite Z.add_0_r. split; [done|]. split; [lia|].
      destruct (area_nil o vma map has_parent i) as [E1 E2].
      constructor; rewrite ?E1, ?E2, ?app_nil_r, ?Z.add_0_r; try done; try (unfold EAGAIN; lia); [by eapply pending_widen|apply Hk].
  - destruct (pending_page (o_lazy_pages o) 0 lo hi hi' P H t pp (page_addr vma i) (page_flags o vma (page_addr vma i)))
      as (r & t1 & pp1 & Hadd & Hr & Hk & Hag & Hfree); try done; try lia.
    rewrite (bind_Done _ _ _ _ _ Hadd). destruct Hr as [[-> D1]|(Hr & D1 & Hk0)]; cbn [negb Z.eqb].
    + rewrite Hnext in D1. set (lz := has (page_flags o vma (page_addr vma i)) PPB_LAZY && o_lazy_pages o).
      apply (Hrest (count_page lz c) t1 pp1 [page_addr vma i] []); try done; rewrite ?app_nil_r; try done.
      * eapply kept_weaken; [| |exact Hk]; lia.
      * by destruct lz; cbn; lia.
      * destruct lz; cbn; lia.
    + rewrite (proj2 (Z.eqb_neq r 0)) by (unfold EAGAIN in Hr; lia). cbn [negb].
      eexists r, 0, c, t1, pp1. rewrite Z.add_0_r. split; [done|]. split; [lia|].
      destruct (area_nil o vma map has_parent i) as [E1 E2].
      constructor; rewrite ?E1, ?E2, ?app_nil_r, ?Z.add_0_r; try done.
      * by eapply pending_widen.
      * left. by rewrite Z.mul_0_l.
      * apply Hk.
      * right. split; [done|lia].
      * intros -> Hc. by apply Hag.
      * intros -> Hne. by specialize (Hfree Hne).
Qed.
End GenOk.

(** ** The dump of an area, chunk after chunk *)
Section AreaOk.
Context {PK : PipeKernel} {SK : SpliceKernel} {CK : PagemapCache.PmKernel} {XK : XferKernel} {RK : ReadKernel}.
Context `{!PipeKernelOk PK} `{!SpliceKernelOk SK} `{!XferKernelOk XK} `{!XferKernelLive XK}.
Variables (o : mem_opts) (mem pagemap : Z -> Z) (c : list page_read).

(** room for [rem] more pages, and nothing in the pipes *)
Record dump_room (rem off : Z) (H : list Z) (pp : page_pipe) (ps : gmap Z stream) : Prop := {
  dr_packed : packed off pp;
  dr_chunk : chunk_ok pp;
  dr_iovs : free_iov pp + rem <= nr_iovs pp;
  dr_nholes : nr_holes pp + rem * PP_HOLES_BATCH < 2 ^ 32;
  dr_holes : Z.of_nat (length H) + rem < 2 ^ 31;
  dr_empty : forall fd, avail (pipe_at ps fd) = 0;
}.

(** the pages [P] and the holes [H], all below [hi], are in the images or wait in the page pipe *)
Record dumped_at (its : list item) (P0 H0 P1 H1 : list Z) (lo hi rem off : Z) (d : dst loc_xfer) : Prop := {
  da_lo : 0 < lo <= hi;
  da_imaged : imaged 0 mem c its P0 H0 lo (snd d);
  da_pending : pending 0 lo hi P1 H1 (snd (fst (fst d)));
  da_room : dump_room rem off H1 (snd (fst (fst d))) (snd (fst d));
}.

Lemma drain_xfer_ok its P0 H0 P1 H1 lo hi rem off t pp ps x pmc h n cn :
  window 0 lo hi -> dumped_at its P0 H0 P1 H1 lo hi rem off (t, pp, ps, x) -> parent_has 0 c H1 ->
  exists r t' ps' x' off',
    drain_xfer (XO := LocalXfer false) mem true (mk_mst (t, pp, ps, x) off pmc h n cn) =
      Done (r, mk_mst (t', pp, ps', x') off' pmc h n cn) /\
    (r = -1 /\ x' = x \/ r = 0 /\ off' = free_iov pp /\ (forall fd, avail (pipe_at ps' fd) = 0) /\
       imaged 0 mem c (its ++ pp_items true pp) (P0 ++ P1) (H0 ++ H1) hi x') /\
    (SpliceKernelLive SK -> r = 0).
Proof.
  intros W [Hlo I D R] Hc. cbn [fst snd] in *. destruct R as [R1 R2 R3 R4 R5 R6].
  unfold drain_xfer, bind, drain, on_ps. cbn [m_d m_off].
  destruct (drain_pages_ok mem pp (mk_args off 0 0 (iovs pp)) t ps (pd_wf _ _ _ _ _ _ D) eq_refl R1)
    as (r & args' & t1 & ps1 & -> & Hr & Hlive).
  destruct Hr as [->|(-> & E1 & E2 & E3)]; cbn [Z.eqb].
  { eexists _, _, _, _, _. split; [done|]. split; [by left|done]. }
  destruct (drained_hold mem pp ps ps1 (pd_wf _ _ _ _ _ _ D) R6 E3) as [Hh Ha].
  unfold xfer_pages, on_d, on_xfer. cbn [m_d].
  destruct (flush_ok 0 mem c its P0 H0 lo hi P1 H1 pp t1 ps1 x W D I Hc Hh Ha) as (t2 & ps2 & x2 & Hd & I2 & A2).
  change (page_xfer_dump_pages 0 true pp (t1, ps1, x)) with (page_xfer_dump_pages (X := LocalXfer false) 0 true pp (t1, ps1, x)).
  rewrite Hd.
  eexists _, _, _, _, _. split; [done|]. split; [|done]. right. by split_and!.
Qed.

Section OneArea.
Variables (vma : VmaEntry) (map : Z -> Z) (has_parent : bool).

(** whole pages, below the bounds of user memory *)
Definition vma_ok : Prop :=
  0 < v_start vma < v_end vma /\ v_end vma < 2 ^ 60 /\ aligned (v_start vma) /\ aligned (v_end vma).
Hypothesis Hvma : vma_ok.

Definition npages : Z := (v_end vma - v_start vma) / PAGE_SIZE.

Lemma npages_len : vma_entry_len vma = npages * PAGE_SIZE /\ 0 < npages.
Proof.
  clear -Hvma. destruct Hvma as (H1 & H2 & H3 & H4). unfold vma_entry_len, npages. rewrite u64_id by lia. split; pdiv.
Qed.

Lemma generate_iovs_ok i t pp lo hi P H :
  0 <= i <= npages -> 0 < lo <= hi -> hi <= page_addr vma i -> pending 0 lo hi P H pp ->
  free_iov pp + (npages - i) <= nr_iovs pp ->
  nr_holes pp + (npages - i) * PP_HOLES_BATCH < 2 ^ 32 -> Z.of_nat (length H) + (npages - i) < 2 ^ 31 ->
  exists r k n cn t' pp',
    generate_iovs o vma map (i * PAGE_SIZE) has_parent (t, pp) =
      Done ((r, (i + k) * PAGE_SIZE, (n, cn)), (t', pp')) /\ 0 <= k /\
    scanned o vma map has_parent lo i (npages - i) k r P H (mk_counts 0 0 0) cn pp pp'.
Proof.
  intros Hi Hlo Hhi D Hf Hh HL. destruct npages_len as [Hlen Hn]. destruct Hvma as (V1 & V2 & V3 & V4).
  unfold generate_iovs. rewrite Hlen.
  assert (Hend : page_addr vma npages = v_end vma) by (unfold page_addr, npages; pdiv).
  assert (Hnp : npages * PAGE_SIZE < 2 ^ 60) by (unfold page_addr in Hend; lia).
  assert (Hscan : u64 (npages * PAGE_SIZE - i * PAGE_SIZE) / PAGE_SIZE = npages - i).
  { rewrite u64_id by plia. rewrite <-Z.mul_sub_distr_r. by apply Z.div_mul. }
  assert (Hdiv : i * PAGE_SIZE / PAGE_SIZE = i) by (by apply Z.div_mul). rewrite Hscan.
  destruct (gen_loop_ok o vma map has_parent V3 (Z.to_nat (npages - i)) (i * PAGE_SIZE) 0 (mk_counts 0 0 0) t pp lo hi (v_end vma) P H)
    as (r & k & cn & t' & pp' & Hg & Hk & Hs); rewrite ?Hdiv, ?Z.add_0_r, ?Z2Nat.id in * by lia; try done; try lia.
  - apply aligned_mul.
  - plia.
  - unfold window. split_and!; try lia; try done. unfold page_addr in *. plia.
  - replace (i + (npages - i)) with npages by lia. lia.
  - rewrite (bind_Done _ _ _ _ _ Hg). cbn [ret]. eexists r, k, _, cn, t', pp'. split; [|by split].
    unfold ret. do 4 f_equal. rewrite Z.add_0_l, u64_id; [lia|].
    assert (k <= npages - i) by (destruct (sc_result _ _ _ _ _ _ _ _ _ _ _ _ _ _ _ Hs); lia). plia.
Qed.
End OneArea.
(** [cb]: the counters at the start of the dump *)
Definition dumped (cb : counts) (P H : list Z) (hi rem : Z) (s : mst loc_xfer) : Prop :=
  exists its P0 H0 P1 H1 lo,
    P = P0 ++ P1 /\ H = H0 ++ H1 /\ dumped_at its P0 H0 P1 H1 lo hi rem (m_off s) (m_d s) /\
    n_hole (m_counts s) = n_hole cb + Z.of_nat (length H) /\
    n_lazy (m_counts s) + n_page (m_counts s) = n_lazy cb + n_page cb + Z.of_nat (length P).

(** enough for the dump to be given up in order *)
Definition alive (s : mst loc_xfer) : Prop :=
  wf (snd (fst (fst (m_d s)))) /\ Forall2 same_img c (parent (snd (m_d s))).

Lemma dumped_alive cb P H hi rem s : dumped cb P H hi rem s -> alive s.
Proof.
  intros (its & P0 & H0 & P1 & H1 & lo & -> & -> & [_ D2 D3 _] & _).
  split; [apply (pd_wf _ _ _ _ _ _ D3)|apply (im_parent _ _ _ _ _ _ _ _ D2)].
Qed.

Definition no_free (s : mst loc_xfer) : Z :=
  let '(_, pp, _, _) := m_d s in if decide (free_bufs pp = []) then 1 else 0.

Lemma counts_add cb (P H P' H' : list Z) (a b : counts) :
  n_hole a = n_hole cb + Z.of_nat (length H) -> n_lazy a + n_page a = n_lazy cb + n_page cb + Z.of_nat (length P) ->
  n_hole b = 0 + Z.of_nat (length H') -> n_lazy b + n_page b = 0 + 0 + Z.of_nat (length P') ->
  n_hole (add_counts a b) = n_hole cb + Z.of_nat (length (H ++ H')) /\
  n_lazy (add_counts a b) + n_page (add_counts a b) = n_lazy cb + n_page cb + Z.of_nat (length (P ++ P')).
Proof. intros. rewrite !length_app. unfold add_counts. simpl. lia. Qed.

Section OneArea2.
Variables (vma : VmaEntry) (map : Z -> Z) (has_parent : bool).
Hypothesis Hvma : vma_ok vma.
Abbreviation N := (npages vma).
Abbreviation pages := (area_pages o vma map has_parent).
Abbreviation holes_ := (area_holes o vma map has_parent).

Lemma again_loop_ok fuel : forall i cb P H hi rem s,
  dumped cb P H hi (N - i + rem) s -> 0 <= rem -> 0 <= i <= N -> hi <= page_addr vma i ->
  parent_has 0 c H -> parent_has 0 c (holes_ i (N - i)) ->
  Z.max 1 (N - i) + no_free s <= Z.of_nat fuel ->
  exists r s', again_loop (XO := LocalXfer false) o mem true fuel vma map (i * PAGE_SIZE) has_parent s = Done (r, s') /\
    m_pmc s' = m_pmc s /\ m_shm s' = m_shm s /\
    (r = -1 /\ alive s' \/ r = 0 /\ dumped cb (P ++ pages i (N - i)) (H ++ holes_ i (N - i)) (page_addr vma N) rem s').
Proof.
  induction fuel as [|fuel IH]; intros i cb P H hi rem s Hd Hrem Hi Hhi Hc1 Hc2 Hfuel.
  { unfold no_free in Hfuel. destruct (m_d s) as [[[? ?] ?] ?]. case_decide; lia. }
  destruct Hd as (its & P0 & H0 & P1 & H1 & lo & -> & -> & DA & Hn1 & Hn2).
  destruct s as [[[[t pp] ps] x] off pmc h n cn]. cbn [m_d m_off m_counts m_pmc m_shm fst snd] in *.
  pose proof DA as [Hlo I D R]. pose proof R as [R1 R2 R3 R4 R5 R6]. cbn [fst snd] in *.
  destruct (npages_len vma Hvma) as [Hlen HN]. assert (HB : 0 < PP_HOLES_BATCH) by done.
  cbn [again_loop]. unfold on_d, on_pp, cnt_add. unfold bind at 1. cbn [m_d].
  destruct (generate_iovs_ok vma map has_parent Hvma i t pp lo hi P1 H1) as (r & k & sn & cn' & t1 & pp1 & -> & Hk & Hs); try done; try lia; try nia.
  unfold bind at 1. cbn [m_d m_off m_counts m_pmc m_shm m_scanned].
  pose proof (sc_result _ _ _ _ _ _ _ _ _ _ _ _ _ _ _ Hs) as Hr. destruct (sc_counts _ _ _ _ _ _ _ _ _ _ _ _ _ _ _ Hs) as [Hs1 Hs2].
  pose proof (sc_pending _ _ _ _ _ _ _ _ _ _ _ _ _ _ _ Hs) as D'.
  destruct (counts_add cb (P0 ++ P1) (H0 ++ H1) (pages i k) (holes_ i k) cn cn' Hn1 Hn2 Hs1 Hs2) as [Hn1' Hn2'].
  assert (Hpos : forall j, page_addr vma i <= page_addr vma (i + Z.max 0 j)) by (intros; unfold page_addr; plia).
  (* the state of the dump with the scanned pages pending *)
  assert (DA' : r <> -1 -> dumped_at its P0 H0 (P1 ++ pages i k) (H1 ++ holes_ i k) lo (page_addr vma (i + k))
            (N - i - k + rem) off (t1, pp1, ps, x)).
  { intros Hne. destruct (sc_kept _ _ _ _ _ _ _ _ _ _ _ _ _ _ _ Hs) as [[K1 K2 K3 K4 K5]|]; [|done].
    pose proof (area_length o vma map has_parent i k Hk).
    constructor; cbn [fst snd]; try done; [specialize (Hpos k); rewrite Z.max_r in Hpos by lia; lia|].
    destruct (K5 off) as [G1 G2].
    constructor; try done; try (by auto); try lia; rewrite ?length_app; nia. }
  destruct (Z.eqb_spec r (- EAGAIN)) as [->|Hne].
  2: { assert (Hr' : r = -1 \/ r = 0 /\ k = N - i) by (destruct Hr as [?|[[?|?] ?]]; [by right|by left|done]).
       eexists _, _. split; [done|]. cbn [m_pmc m_shm]. do 2 (split; [done|]).
       destruct Hr' as [->|[-> ->]]; [left|right]; (split; [done|]).
       { split; cbn; [apply (pd_wf _ _ _ _ _ _ D')|apply (im_parent _ _ _ _ _ _ _ _ I)]. }
       exists its, P0, H0, (P1 ++ pages i (N - i)), (H1 ++ holes_ i (N - i)), lo. rewrite !app_assoc.
       split_and!; try done. cbn [m_off m_d]. specialize (DA' ltac:(lia)).
       replace (i + (N - i)) with N in DA' by lia. by replace (N - i - (N - i) + rem) with rem in DA' by lia. }
  specialize (DA' ltac:(unfold EAGAIN; lia)).
  assert (HkN : k < N - i) by (unfold EAGAIN in Hr; lia).
  pose proof DA' as [Hlo' _ _ R']. pose proof R' as [R1' R2' R3' R4' R5' R6']. cbn [fst snd] in *.
  destruct R2' as (Hch & R2'). cbn beta iota delta [m_d]. rewrite Hch. cbn [negb].
  assert (W' : window 0 lo (page_addr vma (i + k))).
  { destruct Hvma as (V1 & V2 & V3 & V4). unfold window. split_and!; try lia; try done; unfold page_addr, npages in *; pdiv. }
  assert (Hsplit : holes_ i (N - i) = holes_ i k ++ holes_ (i + k) (N - (i + k)))
    by (replace (N - i) with (k + (N - (i + k))) by lia; apply area_holes_app; lia).
  rewrite Hsplit, parent_has_app in Hc2. rewrite parent_has_app in Hc1. destruct Hc1 as [Hc0 Hc1], Hc2 as [Hc2 Hc3].
  destruct (drain_xfer_ok its P0 H0 (P1 ++ pages i k) (H1 ++ holes_ i k) lo (page_addr vma (i + k)) (N - i - k + rem)
              off t1 pp1 ps x pmc h (n + sn) (add_counts cn cn') W' DA') as (r & t2 & ps2 & x2 & off2 & Hdx & Hr2 & _).
  { by apply parent_has_app. }
  unfold bind at 1. rewrite Hdx. destruct Hr2 as [[-> ->]|(-> & -> & A2 & I2)]; cbn [Z.eqb].
  { eexists _, _. split; [done|]. cbn [m_pmc m_shm]. do 2 (split; [done|]). left. split; [done|].
    split; cbn; [apply (pd_wf _ _ _ _ _ _ D')|apply (im_parent _ _ _ _ _ _ _ _ I)]. }
  pose proof D' as [D1' D2' D3' _ _ _ _ _ _ _ _].
  destruct (reinit_ok (o_lazy_pages o) t2 pp1 D1' D2' D3' Hch) as (t3 & pp3 & Hre & HE & Hf3 & Hn3 & Hp3 & Hh3 & Hc4).
  destruct (Hc4 (conj Hch R2')) as [Hch3 Hfr]. specialize (Hfr (sc_again _ _ _ _ _ _ _ _ _ _ _ _ _ _ _ Hs eq_refl R2)).
  unfold bind at 1, on_d, on_pp. cbn [m_d]. rewrite Hre. cbn [m_d m_off m_counts m_pmc m_shm m_scanned].
  destruct (IH (i + k) cb (P0 ++ P1 ++ pages i k) (H0 ++ H1 ++ holes_ i k) (page_addr vma (i + k)) rem
              (mk_mst (t3, pp3, ps2, x2) (free_iov pp1) pmc h (n + sn) (add_counts cn cn')))
    as (r & s' & Hl & E1 & E2 & Hfin); try done; try lia.
  - exists (its ++ pp_items true pp1), (P0 ++ P1 ++ pages i k), (H0 ++ H1 ++ holes_ i k), [], [], (page_addr vma (i + k)).
    rewrite !app_nil_r. cbn [m_off m_d m_counts]. rewrite <-!app_assoc in Hn1', Hn2'. split_and!; try done.
    constructor; cbn [fst snd]; [specialize (Hpos k); rewrite Z.max_r in Hpos by lia; lia|exact I2|by apply empty_pending|].
    rewrite !length_app in R5'.
    constructor; try done; rewrite ?Hf3, ?Hn3, ?Hh3; replace (N - (i + k)) with (N - i - k) by lia; try done; cbn [length]; lia.
  - rewrite !parent_has_app. done.
  - unfold no_free. cbn [m_d]. rewrite decide_False by done.
    destruct (decide (free_bufs pp = [])) as [Hfb|Hfb]; unfold no_free in Hfuel; cbn [m_d] in Hfuel.
    + rewrite decide_True in Hfuel by done. lia.
    + rewrite decide_False in Hfuel by done.
      pose proof (sc_progress _ _ _ _ _ _ _ _ _ _ _ _ _ _ _ Hs eq_refl Hfb). lia.
  - eexists r, s'. split; [exact Hl|]. split; [by rewrite E1|]. split; [by rewrite E2|].
    assert (Hps : pages i (N - i) = pages i k ++ pages (i + k) (N - (i + k)))
      by (replace (N - i) with (k + (N - (i + k))) by lia; apply area_pages_app; lia).
    rewrite Hps, Hsplit, !app_assoc. rewrite !app_assoc in Hfin. exact Hfin.
Qed.
End OneArea2.
(** ** All the areas of a task, in a full dump *)

(** the area's private pages are dumped *)
Definition dump_area (vma : VmaEntry) : bool :=
  vma_entry_is_private vma (o_task_size o) && negb (vma_entry_is vma VMA_ANON_SHARED).
(** whether its unchanged pages may be left to the parent snapshot *)
Definition dump_parent (has_parent : bool) (vma : VmaEntry) : bool :=
  has_parent && has (v_prot vma) PROT_READ && negb (vma_entry_is vma VMA_AREA_AIORING).
(** the entries of the task's pagemap for the pages of the area *)
Definition vma_map (vma : VmaEntry) (i : Z) : Z := pagemap (v_start vma / PAGE_SIZE + i).

Definition vma_pages (hp : bool) (vma : VmaEntry) : list Z :=
  if dump_area vma then area_pages o vma (vma_map vma) (dump_parent hp vma) 0 (npages vma) else [].
Definition vma_holes (hp : bool) (vma : VmaEntry) : list Z :=
  if dump_area vma then area_holes o vma (vma_map vma) (dump_parent hp vma) 0 (npages vma) else [].
Definition priv_pages (vma : VmaEntry) : Z := if dump_area vma then npages vma else 0.

(** areas in address order above [hi], below the end of user memory, none longer than [size] *)
Fixpoint areas_ok (size hi : Z) (vmas : list VmaEntry) : Prop :=
  match vmas with
  | [] => True
  | vma :: rest =>
    vma_ok vma /\ hi <= v_start vma /\ v_end vma <= o_task_size o /\ v_end vma - v_start vma <= size /\
    Forall (fun w => v_end vma <= v_start w < v_end w) rest /\ areas_ok size (v_end vma) rest
  end.

Lemma area_ext vma hp m m' i n :
  (forall j, i <= j < i + n -> m j = m' j) ->
  area_pages o vma m hp i n = area_pages o vma m' hp i n /\ area_holes o vma m hp i n = area_holes o vma m' hp i n.
Proof.
  intros Hm. unfold area_pages, area_holes.
  assert (H : forall l : list Z, (forall j, j ∈ l -> i <= j < i + n) ->
     filter (fun i => selected o vma m i && negb (as_hole o m hp i) = true) l =
     filter (fun i => selected o vma m' i && negb (as_hole o m' hp i) = true) l /\
     filter (fun i => selected o vma m i && as_hole o m hp i = true) l =
     filter (fun i => selected o vma m' i && as_hole o m' hp i = true) l).
  { induction l as [|j l IH]; intros Hl; [done|].
    assert (Hj : m j = m' j) by (apply Hm, Hl, list_elem_of_here).
    destruct IH as [IH1 IH2]; [intros x Hx; apply Hl; by apply list_elem_of_further|].
    rewrite !filter_cons, IH1, IH2. unfold selected, as_hole. by rewrite Hj. }
  destruct (H (seqZ i n)) as [-> ->]; [|done]. intros j Hj%elem_of_seqZ. lia.
Qed.

Lemma shmem_untracked env pid vma get t h :
  exists r t' h', Shmem.add_shmem_area env false pid vma get (t, h) = Done (r, (t', h')) /\ (r = 0 \/ r = -1).
Proof.
  unfold Shmem.add_shmem_area, Shmem.expand_shmem, Shmem.update_shmem_pmaps. cbn [negb].
  repeat case_match; simplify_eq; eexists _, _, _; (split; [done|]); auto.
Qed.

(** what the state of a dump depends on *)
Lemma dumped_ext cb P H hi rem s s' :
  m_off s' = m_off s -> m_counts s' = m_counts s ->
  snd (fst (fst (m_d s'))) = snd (fst (fst (m_d s))) -> snd (fst (m_d s')) = snd (fst (m_d s)) ->
  snd (m_d s') = snd (m_d s) -> dumped cb P H hi rem s -> dumped cb P H hi rem s'.
Proof.
  intros E1 E2 E3 E4 E5 (its & P0 & H0 & P1 & H1 & lo & -> & -> & [D1 D2 D3 D4] & Hn1 & Hn2).
  exists its, P0, H0, P1, H1, lo. rewrite E1, E2. split_and!; try done. by constructor; rewrite ?E3, ?E4, ?E5.
Qed.

Lemma dumped_widen cb P H hi hi' rem s : hi <= hi' -> dumped cb P H hi rem s -> dumped cb P H hi' rem s.
Proof.
  intros Hh (its & P0 & H0 & P1 & H1 & lo & -> & -> & [D1 D2 D3 D4] & Hn1 & Hn2).
  exists its, P0, H0, P1, H1, lo. split_and!; try done. constructor; try done; [lia|by eapply pending_widen].
Qed.

Lemma generate_vma_iovs_ok size cb P H hi rem s vma rest hp ppm :
  o_shmem_tracking o = false -> vma_ok vma -> hi <= v_start vma -> v_end vma <= o_task_size o ->
  v_end vma - v_start vma <= size -> Forall (fun w => v_end vma <= v_start w < v_end w) rest ->
  PagemapCache.pmc_ok pagemap size (m_pmc s) -> 0 <= rem ->
  dumped cb P H hi (priv_pages vma + rem) s -> parent_has 0 c H -> parent_has 0 c (vma_holes hp vma) ->
  exists r s', generate_vma_iovs (XO := LocalXfer false) o mem pagemap true vma rest hp false ppm s = Done (r, s') /\
    (r = -1 /\ alive s' \/ r = 0 /\ PagemapCache.pmc_ok pagemap size (m_pmc s') /\
       dumped cb (P ++ vma_pages hp vma) (H ++ vma_holes hp vma) (v_end vma) rem s').
Proof.
  intros Ht Hv Hhi Hend Hsz Hrest Hpmc Hrem Hd Hc1 Hc2. pose proof Hv as (V1 & V2 & V3 & V4).
  assert (Hg : generate_vma_iovs (XO := LocalXfer false) o mem pagemap true vma rest hp false ppm s =
    if negb (vma_entry_is_private vma (o_task_size o)) && negb (vma_entry_is vma VMA_ANON_SHARED) then Done (0, s)
    else scan_vma (XO := LocalXfer false) o mem pagemap true vma rest (dump_parent hp vma) s).
  { unfold generate_vma_iovs, dump_parent, ret. cbn [negb]. rewrite !andb_false_r, orb_true_r, andb_true_r.
    destruct (_ && _); [done|]. destruct hp, (has (v_prot vma) PROT_READ), (vma_entry_is vma VMA_AREA_AIORING); done. }
  rewrite Hg. clear Hg. unfold vma_pages, vma_holes, priv_pages in *.
  destruct (_ && _) eqn:Eskip.
  { apply andb_true_iff in Eskip as [Ep%negb_true_iff Es]. unfold dump_area. rewrite Ep. cbn [andb].
    eexists _, _. split; [done|]. right. rewrite !app_nil_r. unfold dump_area in Hd. rewrite Ep in Hd.
    split_and!; try done. eapply dumped_widen; [|exact Hd]. lia. }
  unfold scan_vma. destruct s as [[[[t pp] ps] x] off pmc h n cn]. cbn [m_d m_pmc m_off m_shm m_scanned m_counts] in *.
  destruct (PagemapCache.get_map_ok (o_cache_disabled o) (o_task_size o) pagemap size (area_of vma) (area_of <$> rest) t pmc)
    as (k & t1 & pmc1 & -> & Hpmc1 & Hk); [done| |by apply Forall_fmap|].
  { unfold PagemapCache.area_ok, PagemapCache.vma_len. cbn. split_and!; try done; lia. }
  pose proof (dumped_alive _ _ _ _ _ _ Hd) as Hal. unfold alive in Hal. cbn in Hal.
  destruct k as [k|]; [|eexists _, _; split; [done|by left]].
  assert (Hd' : forall h', dumped cb P H hi (priv_pages vma + rem) (mk_mst (t1, pp, ps, x) off pmc1 h' n cn)).
  { intros h'. by eapply dumped_ext; [..|exact Hd]. }
  unfold priv_pages in Hd'.
  destruct (vma_entry_is vma VMA_ANON_SHARED) eqn:Es; unfold dump_area in *; rewrite Es in *; cbn [negb] in *;
    rewrite ?andb_false_r, ?andb_true_r in *.
  - rewrite Ht. cbn [m_shm m_off m_scanned m_counts].
    edestruct (shmem_untracked (o_page o) (o_pid o) vma) as (r & t2 & h2 & -> & Hr).
    eexists _, _. split; [done|]. destruct Hr as [->| ->]; [right|left; by split]. rewrite !app_nil_r.
    split_and!; [done|done|]. eapply dumped_widen; [|eapply dumped_ext; [..|apply (Hd' h2)]]; done || lia.
  - apply negb_false_iff in Eskip. rewrite Eskip in *.
    destruct (npages_len vma Hv) as [Hlen HN]. rewrite Hlen, Z.div_mul by done.
    assert (Hext : forall j, 0 <= j < 0 + npages vma -> PagemapCache.map pmc1 (k + j) = vma_map vma j).
    { intros j Hj. apply Hk. unfold PagemapCache.vma_len, area_of, npages in *. cbn. lia. }
    destruct (area_ext vma (dump_parent hp vma) (fun i => PagemapCache.map pmc1 (k + i)) (vma_map vma) 0 (npages vma) Hext) as [<- E2].
    rewrite <-E2 in *.
    destruct (again_loop_ok vma (fun i => PagemapCache.map pmc1 (k + i)) (dump_parent hp vma) Hv (S (Z.to_nat (npages vma))) 0 cb P H hi rem
      (mk_mst (t1, pp, ps, x) off pmc1 h n cn)) as (r & s' & Hl & E3 & _ & Hr); rewrite ?Z.sub_0_r in *; try done; try lia.
    + unfold page_addr. lia.
    + unfold no_free. cbn [m_d]. case_decide; lia.
    + rewrite Z.mul_0_l in Hl. eexists _, _. split; [exact Hl|]. destruct Hr as [Hr|[-> Hr]]; [by left|right].
      rewrite E3. split_and!; [done|done|].
      assert (Hpe : page_addr vma (npages vma) = v_end vma) by (unfold page_addr, npages; pdiv). by rewrite <-Hpe.
Qed.

Lemma generate_all_ok size vmas : forall cb P H hi rem s hp ppm,
  o_shmem_tracking o = false -> areas_ok size hi vmas -> PagemapCache.pmc_ok pagemap size (m_pmc s) ->
  let total := foldr (fun v n => priv_pages v + n) 0 vmas in
  0 <= rem -> dumped cb P H hi (total + rem) s ->
  parent_has 0 c H -> parent_has 0 c (vmas ≫= vma_holes hp) ->
  exists r s', generate_all (XO := LocalXfer false) o mem pagemap true vmas hp false ppm s = Done (r, s') /\
    (r = -1 /\ alive s' \/ r = 0 /\ exists hi', hi <= hi' /\ (hi < 2 ^ 60 -> hi' < 2 ^ 60) /\ dumped cb (P ++ (vmas ≫= vma_pages hp)) (H ++ (vmas ≫= vma_holes hp)) hi' rem s').
Proof.
  induction vmas as [|vma vmas IH]; intros cb P H hi rem s hp ppm Ht Ha Hp total Hrem Hd Hc1 Hc2.
  { eexists _, _. split; [done|]. right. split; [done|]. exists hi. csimpl. by rewrite !app_nil_r. }
  destruct Ha as (A1 & A2 & A3 & A4 & A5 & A6). rewrite bind_cons in Hc2. apply parent_has_app in Hc2 as [Hc2 Hc3].
  assert (Hpos : forall v, vma_ok v -> 0 <= priv_pages v).
  { intros v Hv. unfold priv_pages. destruct (npages_len v Hv). destruct (dump_area v); lia. }
  assert (Htot : forall l h, areas_ok size h l -> 0 <= foldr (fun v n => priv_pages v + n) 0 l).
  { induction l as [|v l IHl]; intros h Hl; [done|]. destruct Hl as (L1 & _ & _ & _ & _ & L2). simpl.
    specialize (Hpos v L1). specialize (IHl _ L2). lia. }
  set (tl := foldr (fun v n => priv_pages v + n) 0 vmas) in *. pose proof (Htot _ _ A6) as Htl. fold tl in Htl.
  cbn [generate_all].
  destruct (generate_vma_iovs_ok size cb P H hi (tl + rem) s vma vmas hp ppm) as (r & s1 & Hg & Hr); try done; try lia.
  { by rewrite Z.add_assoc. }
  rewrite (bind_Done _ _ _ _ _ Hg). destruct Hr as [[-> Hal]|(-> & Hp1 & Hd1)]; cbn [Z.ltb Z.compare].
  { eexists _, _. split; [done|]. by left. }
  destruct (IH cb (P ++ vma_pages hp vma) (H ++ vma_holes hp vma) (v_end vma) rem s1 hp ppm) as (r & s2 & -> & Hr); try done.
  { by apply parent_has_app. }
  eexists _, _. split; [done|]. destruct Hr as [Hr|(-> & hi' & Hh & Hlt & Hd2)]; [by left|right]. split; [done|].
  exists hi'. rewrite !bind_cons, !app_assoc. destruct A1 as (V1 & V2 & _). split_and!; [lia|intros _; by apply Hlt|done].
Qed.
End AreaOk.

(** ** A full dump into local images *)

(** the engine of a dump that writes local images, as [open_page_xfer] opens it *)
Definition local_engine {XK : XferKernel} {RK : ReadKernel} (stream_mode : bool)
    (pardirs : fd_type -> Z -> option (list imgdir)) (type : fd_type) (id ids : Z) : xfer_engine loc_xfer := {|
  xf_open := fun t =>
    match open_page_local_xfer stream_mode (pardirs type id) type id (t, ids) with
    | Done (x, (t, _)) => Done (x, t)
    | Bug => Bug
    | NoFuel => NoFuel
    end;
  xf_parent := fun x => negb (bool_decide (parent x = []));
  xf_check := fun t => (check_parent_local_xfer stream_mode pardirs type id, t);
  xf_close := fun x t => close_page_xfer x t;
  xf_none := mk_loc [] empty_stream [];
|}.

Section FullDump.
Context {PK : PipeKernel} {SK : SpliceKernel} {CK : PagemapCache.PmKernel} {XK : XferKernel} {RK : ReadKernel} {FK : RefsKernel}.
Context `{!PipeKernelOk PK} `{!SpliceKernelOk SK} `{!XferKernelOk XK} `{!XferKernelLive XK}.
Variables (o : mem_opts) (mem pagemap : Z -> Z) (c : list page_read).

Lemma dumped_start cb n t pp ps pmc h sc :
  empty_contents pp -> packed 0 pp -> chunk_ok pp -> nr_holes pp = 0 -> free_iov pp + n <= nr_iovs pp ->
  n < 2 ^ 27 -> parent_ready c -> (forall fd, avail (pipe_at ps fd) = 0) ->
  dumped mem c cb [] [] PAGE_SIZE n (mk_mst (t, pp, ps, mk_loc [] empty_stream c) 0 pmc h sc cb).
Proof.
  intros He Hp Hc Hh Hf Hn Hr Ha. exists [], [], [], [], [], PAGE_SIZE. cbn [m_off m_d m_counts].
  split_and!; try done; [|cbn; lia|cbn; lia].
  constructor; cbn [fst snd]; [plia| |by apply empty_pending|].
  - apply imaged_nil; [plia|done].
  - constructor; try done; rewrite ?Hh; unfold PP_HOLES_BATCH; cbn; lia.
Qed.

Lemma reset_track_ok tm hdt t : (tm = true -> hdt = true) ->
  (forall t, k_refs_open t <> RefsUnsupported /\ k_refs_write t <> RefsUnsupported) ->
  exists r t', task_reset_dirty_track tm hdt t = Done (r, t') /\ (r = 0 \/ r = -1).
Proof.
  intros Ht Hk. unfold task_reset_dirty_track, do_task_reset_dirty_track.
  destruct tm; cbn [negb]; [|eauto 6]. rewrite (Ht eq_refl). cbn [negb].
  destruct (Hk t) as [H1 _], (Hk (S t)) as [_ H2].
  destruct (k_refs_open t); try done; [|eauto 6]. destruct (k_refs_write (S t)); try done; eauto 6.
Qed.

(** what a dump leaves in the images *)
Definition dump_images (hp : bool) (vmas : list VmaEntry) (x : loc_xfer) : Prop :=
  exists its hi, imaged 0 mem c its (vmas ≫= vma_pages o pagemap hp) (vmas ≫= vma_holes o pagemap hp) hi x.

Lemma seized_body_ok hdt size vmas hp ppm cb s mdc :
  pre_dump mdc = false -> mdc_lazy mdc = false -> o_shmem_tracking o = false ->
  (track_mem (o_page o) = true -> hdt = true) ->
  (forall t, k_refs_open t <> RefsUnsupported /\ k_refs_write t <> RefsUnsupported) ->
  areas_ok o size PAGE_SIZE vmas -> PagemapCache.pmc_ok pagemap size (m_pmc s) ->
  dumped mem c cb [] [] PAGE_SIZE (foldr (fun v n => priv_pages o v + n) 0 vmas) s ->
  parent_has 0 c (vmas ≫= vma_holes o pagemap hp) ->
  exists r ex s', seized_body (XO := LocalXfer false) o mem pagemap hdt mdc vmas hp ppm s = Done ((r, ex), s') /\
    alive c s' /\ (ex = -1 \/ ex = 0 /\ r = 0 /\ dump_images hp vmas (snd (m_d s')) /\
      n_hole (m_counts s') = n_hole cb + Z.of_nat (length (vmas ≫= vma_holes o pagemap hp)) /\
      n_lazy (m_counts s') + n_page (m_counts s') =
        n_lazy cb + n_page cb + Z.of_nat (length (vmas ≫= vma_pages o pagemap hp))).
Proof.
  intros Hpre Hlz Ht Htr Hk Ha Hp Hd Hc. unfold seized_body. rewrite Hpre, Hlz. cbn [negb].
  destruct (generate_all_ok o mem pagemap c size vmas cb [] [] PAGE_SIZE 0 s hp ppm) as (r & s1 & Hg & Hr); try done.
  { by rewrite Z.add_0_r. }
  { by destruct c; [|intros ? Hx; apply elem_of_nil in Hx]. }
  rewrite (bind_Done _ _ _ _ _ Hg). destruct Hr as [[-> Hal]|(-> & hi & Hh & Hlt & Hd1)]; cbn [Z.ltb Z.compare].
  { eexists _, _, _. split; [done|]. split; [done|by left]. }
  cbn [app] in Hd1. destruct Hd1 as (its & P0 & H0 & P1 & H1 & lo & HP & HH & DA & Hn1 & Hn2).
  destruct s1 as [[[[t1 pp1] ps1] x1] off1 pmc1 h1 sc1 cn1]. cbn [m_off m_d m_counts] in *.
  pose proof DA as [Hlo I D R]. cbn [fst snd] in *.
  assert (W : window 0 lo hi).
  { specialize (Hlt ltac:(plia)). unfold window. split_and!; try lia. done. }
  destruct (drain_xfer_ok mem c its P0 H0 P1 H1 lo hi 0 off1 t1 pp1 ps1 x1 pmc1 h1 sc1 cn1 W DA)
    as (r & t2 & ps2 & x2 & off2 & Hdx & Hr & _).
  { rewrite HH in Hc. apply parent_has_app in Hc as [_ Hc]. exact Hc. }
  rewrite (bind_Done _ _ _ _ _ Hdx). destruct Hr as [[-> ->]|(-> & _ & _ & I2)]; cbn [negb Z.eqb].
  { eexists _, _, _. split; [done|]. split; [|by left]. split; cbn; [apply (pd_wf _ _ _ _ _ _ D)|apply (im_parent _ _ _ _ _ _ _ _ I)]. }
  cbn [m_d]. destruct (reset_track_ok (track_mem (o_page o)) hdt t2 Htr Hk) as (r & t3 & -> & Hr).
  eexists _, _, _. split; [done|]. split; [split; cbn; [apply (pd_wf _ _ _ _ _ _ D)|apply (im_parent _ _ _ _ _ _ _ _ I2)]|].
  destruct Hr as [->| ->]; [right|by left]. cbn [m_d m_counts fst snd Z.eqb].
  split_and!; try done. exists (its ++ pp_items true pp1), hi. by rewrite HP, HH.
Qed.
End FullDump.

(** *** Helpers of the top theorem *)
Lemma total_nonneg o size vmas : forall hi, areas_ok o size hi vmas -> 0 <= foldr (fun v n => priv_pages o v + n) 0 vmas.
Proof.
  induction vmas as [|v l IH]; intros hi Hl; [done|]. destruct Hl as (L1 & _ & _ & _ & _ & L2). simpl.
  specialize (IH _ L2). unfold priv_pages at 1. destruct (npages_len v L1). destruct (dump_area o v); lia.
Qed.

Lemma dumped_less mem c cb P H hi n m s : n <= m -> dumped mem c cb P H hi m s -> dumped mem c cb P H hi n s.
Proof.
  intros Hn (its & P0 & H0 & P1 & H1 & lo & -> & -> & [D1 D2 D3 [R1 R2 R3 R4 R5 R6]] & Hn1 & Hn2).
  exists its, P0, H0, P1, H1, lo. split_and!; try done. constructor; try done. unfold PP_HOLES_BATCH in *.
  constructor; try done; unfold PP_HOLES_BATCH; lia.
Qed.

Lemma same_img_async c c' :
  Forall2 same_img c c' -> Forall (fun p => async p = []) c -> Forall (fun p => async p = []) c'.
Proof.
  induction 1 as [|p q c c' (_ & _ & Hq) _ IH]; intros Hc; [done|]. apply Forall_cons_1 in Hc as [H1 H2].
  constructor; [congruence|by apply IH].
Qed.

(** ** A task to run the definitions on: a private area with unchanged, changed and absent pages,
    one that cannot be read, and a shared one *)
Definition demo_refs_kernel : RefsKernel := {| k_refs_open := fun _ => RefsOk; k_refs_write := fun _ => RefsOk |}.

Definition demo_opts : mem_opts :=
  mk_opts (mk_page_env 0 true true) (2 ^ 47) false PRE_DUMP_SPLICE [16 * PAGE_SIZE + 8] 77 false false.
Definition demo_vma (i n prot status : Z) : VmaEntry :=
  mk_vma (i * PAGE_SIZE) ((i + n) * PAGE_SIZE) 0 5 prot (Z.lor MAP_PRIVATE MAP_ANONYMOUS) (Z.lor VMA_AREA_REGULAR status).
Definition demo_vmas : list VmaEntry :=
  [demo_vma 3 6 PROT_READ VMA_ANON_PRIVATE; demo_vma 11 3 0 VMA_ANON_PRIVATE; demo_vma 20 2 PROT_READ VMA_ANON_SHARED].
Definition demo_pagemap (n : Z) : Z :=
  if n =? 6 then 0
  else Z.lor PME_PRESENT (n + (if (n =? 3) || (n =? 5) then 0 else PME_SOFT_DIRTY)).
Definition demo_val : vm_area_list := mk_val demo_vmas 9 6 2.
Definition demo_mdc : mem_dump_ctl := mk_mdc false false (Some (1000000, PRE_DUMP_SPLICE)) (Some 50).
Definition demo_engine : xfer_engine loc_xfer := @local_engine demo_xfer_kernel demo_read_kernel false demo_pardirs CR_FD_PAGEMAP 42 0.

Definition demo_dump : res (dump_result loc_xfer) :=
  @__parasite_dump_pages_seized (demo_kernel 1024) demo_splice_kernel PagemapCache.demo_pm_kernel demo_refs_kernel
    loc_xfer (@LocalXfer demo_xfer_kernel demo_read_kernel false) demo_opts demo_mem demo_pagemap demo_engine
    false true 100 demo_mdc demo_val 0%nat ∅ (replicate 32 []) 0 (mk_counts 0 0 0).

(** two pages are left to the parent snapshot and six are written *)
Example demo_dump_runs :
  match demo_dump with
  | Done R => d_exit R = 0 /\ d_counts R = mk_counts 2 0 6 /\ d_mem_pp R = None
  | _ => False
  end.
Proof. vm_compute. done. Qed.

(** ** The properties *)

Lemma seized_images_ok {PK : PipeKernel} {SK : SpliceKernel} {CK : PagemapCache.PmKernel}
    {XK : XferKernel} {RK : ReadKernel} {FK : RefsKernel}
    `{!PipeKernelOk PK} `{!SpliceKernelOk SK} `{!XferKernelOk XK} `{!XferKernelLive XK}
    o mem pagemap c sm pardirs id ids pmd hdt tps mdc l t ps shm sc cn reuse :
  pre_dump mdc = false -> mdc_lazy mdc = false -> o_shmem_tracking o = false ->
  (track_mem (o_page o) = true -> hdt = true) ->
  (forall t, k_refs_open t <> RefsUnsupported /\ k_refs_write t <> RefsUnsupported) ->
  areas_ok o (Z.max (nr_priv_pages_longest l) (nr_shared_pages_longest l) * PAGE_SIZE) PAGE_SIZE (val_h l) ->
  foldr (fun v n => priv_pages o v + n) 0 (val_h l) <= nr_priv_pages l < 2 ^ 27 ->
  parent_ready c ->
  (forall t, exists t', xf_open (local_engine sm pardirs CR_FD_PAGEMAP id ids) t = Done (Some (mk_loc [] empty_stream c), t')) ->
  (if bool_decide (c = []) then Done 0 else detect_pid_reuse (fst <$> parent_ie mdc) tps (mdc_start_time mdc)) = Done reuse ->
  let hp := negb (bool_decide (c = [])) && (reuse =? 0) in
  parent_has 0 c (val_h l ≫= vma_holes o pagemap hp) -> (forall fd, avail (pipe_at ps fd) = 0) ->
  exists R, __parasite_dump_pages_seized (XO := LocalXfer false) o mem pagemap (local_engine sm pardirs CR_FD_PAGEMAP id ids)
      pmd hdt tps mdc l t ps shm sc cn = Done R /\
    (d_exit R = -1 \/
     d_exit R = 0 /\ d_mem_pp R = None /\ exists x, d_x R = Some (set_parent x []) /\ dump_images o mem pagemap c hp (val_h l) x /\
       n_hole (d_counts R) = n_hole cn + Z.of_nat (length (val_h l ≫= vma_holes o pagemap hp)) /\
       n_lazy (d_counts R) + n_page (d_counts R) =
         n_lazy cn + n_page cn + Z.of_nat (length (val_h l ≫= vma_pages o pagemap hp))).
Proof.
  intros Hpre Hlz Ht Htr Hk Ha Hn Hc Ho Hreuse hp Hpar Hps. unfold __parasite_dump_pages_seized. rewrite Hpre, Hlz.
  set (size := Z.max _ _ * PAGE_SIZE) in *. destruct (PagemapCache.pmc_init pmd size t) as [[r t1] pmc] eqn:Hi.
  destruct (Z.eqb_spec r 0) as [->|]; cbn [negb orb]; [|eexists; split; [done|by left]].
  pose proof (PagemapCache.pmc_init_ok pmd pagemap size t t1 pmc Hi) as Hpmc.
  set (v := Some (replicate (Z.to_nat (nr_priv_pages l)) (mk_iovec 0 0))).
  pose proof (total_nonneg o size (val_h l) PAGE_SIZE Ha) as Htot.
  assert (Hv : forall k, v = Some k -> Z.of_nat (length k) = nr_priv_pages l)
    by (intros k [= <-]; rewrite length_replicate; lia).
  destruct (create_ok (o_lazy_pages o) (nr_priv_pages l) v PP_CHUNK_MODE t1 ltac:(lia) Hv) as (q & t2 & Hcr & Hq).
  rewrite Hcr. destruct q as [pp|]; [|eexists; split; [done|by left]].
  destruct (Hq pp eq_refl) as (He & Hf & Hni). destruct (create_packed (o_lazy_pages o) (nr_priv_pages l) v PP_CHUNK_MODE t1 pp t2 ltac:(lia) Hv Hcr) as (Hpk & Hck & Hnh).
  destruct (Ho t2) as (t3 & ->). cbn [xf_parent local_engine parent]. unfold seized_run.
  replace (if negb (bool_decide (c = [])) then _ else _) with (Done reuse) by (rewrite <-Hreuse; by case_bool_decide).
  pose proof (dumped_start mem c cn (nr_priv_pages l) t3 pp ps pmc shm sc He Hpk (Hck eq_refl) Hnh ltac:(lia) ltac:(lia) Hc Hps) as Hd.
  assert (Hd' : dumped mem c cn [] [] PAGE_SIZE (foldr (fun v n => priv_pages o v + n) 0 (val_h l))
                  (mk_mst (t3, pp, ps, mk_loc [] empty_stream c) 0 pmc shm sc cn)) by (eapply dumped_less; [|exact Hd]; lia).
  assert (Hrun : exists r ex s', (if reuse =? -1 then ret (0, -1) else
      seized_body (XO := LocalXfer false) o mem pagemap hdt mdc (val_h l) (negb (bool_decide (c = [])) && (reuse =? 0))
        match parent_ie mdc with Some (_, m) => m | None => -1 end)
      (mk_mst (t3, pp, ps, mk_loc [] empty_stream c) 0 pmc shm sc cn) = Done ((r, ex), s') /\ alive c s' /\
      (ex = -1 \/ ex = 0 /\ r = 0 /\ dump_images o mem pagemap c hp (val_h l) (snd (m_d s')) /\
      n_hole (m_counts s') = n_hole cn + Z.of_nat (length (val_h l ≫= vma_holes o pagemap hp)) /\
      n_lazy (m_counts s') + n_page (m_counts s') =
        n_lazy cn + n_page cn + Z.of_nat (length (val_h l ≫= vma_pages o pagemap hp)))).
  { destruct (reuse =? -1).
    - eexists _, _, _. split; [done|]. split; [by eapply dumped_alive|by left].
    - by eapply seized_body_ok. }
  destruct Hrun as (r & ex & s' & -> & Hal & Hex). destruct s' as [[[[t4 pp4] ps4] x4] off4 pmc4 h4 sc4 cn4].
  cbn [m_d m_counts fst snd xf_close local_engine] in *. destruct Hal as [Hwf Hsame]. cbn [m_d fst snd] in *.
  unfold close_page_xfer. destruct (close_page_read_ok t4 (parent x4)) as (t5 & c5 & ->).
  { destruct Hc as [Hc _]. eapply same_img_async; [exact Hsame|exact Hc]. }
  unfold seized_out_pp. cbn [m_d]. rewrite Hpre, Hlz. cbn [negb orb]. rewrite orb_true_r.
  destruct (destroy_ok pp4 Hwf) as [fds ->]. eexists. split; [done|]. cbn [d_exit d_mem_pp d_x d_counts].
  destruct Hex as [->|(-> & _ & I & Hn1 & Hn2)]; [by left|right]. do 2 (split; [done|]). by exists x4.
Qed.


Lemma demo_areas_ok : areas_ok demo_opts (Z.max 6 2 * PAGE_SIZE) PAGE_SIZE demo_vmas.
Proof.
  repeat (split; [split_and!; vm_compute; congruence|]; split; [vm_compute; congruence|];
    split; [vm_compute; congruence|]; split; [vm_compute; congruence|];
    split; [repeat apply Forall_cons_2; try apply Forall_nil_2; split; vm_compute; congruence|]).
  exact I.
Qed.

Lemma demo_parent_ready : parent_ready [demo_server_parent].
Proof.
  destruct (demo_parent_ok 0 ltac:(lia)) as (Hok & Hpos & _).
  split; [repeat constructor|]. split_and!; [exact Hok|exact Hpos|done].
Qed.

Lemma demo_parent_has : parent_has 0 [demo_server_parent] (demo_vmas ≫= vma_holes demo_opts demo_pagemap true).
Proof.
  assert (H : demo_vmas ≫= vma_holes demo_opts demo_pagemap true = [3 * PAGE_SIZE; 5 * PAGE_SIZE]) by (vm_compute; reflexivity).
  rewrite H. intros a Ha b Hb. exists (page 3 3 PE_PRESENT).
  split; [vm_compute; apply list_elem_of_here|].
  unfold covers, pe_end, page. cbn. rewrite !elem_of_cons, elem_of_nil in Ha. unfold PAGE_SIZE in *. lia.
Qed.


Lemma NoDup_start_inj (vmas : list VmaEntry) v w :
  NoDup (v_start <$> vmas) -> v ∈ vmas -> w ∈ vmas -> v_start v = v_start w -> v = w.
Proof.
  intros Hnd Hv Hw He. apply list_elem_of_lookup in Hv as [i Hi], Hw as [j Hj].
  assert (i = j) as <-; [|congruence].
  eapply NoDup_lookup; [exact Hnd|by rewrite list_lookup_fmap, Hi|by rewrite list_lookup_fmap, Hj; cbn; f_equal].
Qed.

(** ** Protections *)
Lemma mprotect_loop_ok {K : MprotectKernel} l add t prots :
  NoDup (pv_start <$> l) ->
  exists r t' prots', mprotect_loop l add (t, prots) = Done (r, (t', prots')) /\ (r = 0 \/ r = -1) /\
    (forall a, a ∉ pv_start <$> l -> prots' !! a = prots !! a) /\
    (r = 0 -> forall v, v ∈ l -> prots' !! pv_start v = Some (Z.lor (pv_prot v) add)) /\
    ((forall t, k_mprotect t = true) -> r = 0).
Proof.
  revert t prots. induction l as [|v l IH]; intros t prots Hnd; cbn [mprotect_loop].
  { eexists _, _, _. split; [done|]. split_and!; try done; [by left|]. intros _ v Hv. by apply elem_of_nil in Hv. }
  rewrite fmap_cons in Hnd. apply list.NoDup_cons in Hnd as [Hn Hnd]. destruct (k_mprotect t) eqn:Hk; cbn [negb].
  2: { eexists _, _, _. split; [done|]. split_and!; try done; [by right|]. intros Hl. by rewrite Hl in Hk. }
  destruct (IH (S t) (<[pv_start v := Z.lor (pv_prot v) add]> prots) Hnd) as (r & t' & prots' & -> & Hr & Ho & Hs & Hlive).
  eexists _, _, _. split; [done|]. split_and!; [done| | |done].
  - intros a Ha. rewrite fmap_cons, not_elem_of_cons in Ha. destruct Ha as [Ha1 Ha2]. rewrite Ho by done. by rewrite lookup_insert_ne.
  - intros Hr0 w [->|Hw]%elem_of_cons; [|by apply Hs]. rewrite Ho by done. by rewrite lookup_insert_eq.
Qed.

Lemma prep_args_nodup o vmas skip : NoDup (v_start <$> vmas) -> NoDup (pv_start <$> prep_dump_pages_args o vmas skip).
Proof.
  intros H. unfold prep_dump_pages_args. rewrite <-list_fmap_compose. change (pv_start ∘ _) with v_start.
  induction vmas as [|v l IH]; [done|]. rewrite fmap_cons in H. apply list.NoDup_cons in H as [Hn Hl].
  rewrite filter_cons. case_decide; [|by apply IH]. rewrite fmap_cons. apply list.NoDup_cons. split; [|by apply IH].
  intros (w & Hw & Hin)%list_elem_of_fmap. apply list_elem_of_filter in Hin as [_ Hin]. apply Hn. rewrite Hw.
  apply list_elem_of_fmap. eauto.
Qed.

Lemma elem_of_prep o vmas skip v :
  v ∈ prep_dump_pages_args o vmas skip <->
  exists vma, vma ∈ vmas /\ v = mk_pvma (v_start vma) (vma_entry_len vma) (v_prot vma) /\
    vma_entry_is_private vma (o_task_size o) && negb (vma_entry_is vma VMA_AREA_AIORING && skip) &&
    negb (has (v_prot vma) PROT_READ) = true.
Proof.
  unfold prep_dump_pages_args. rewrite list_elem_of_fmap. setoid_rewrite list_elem_of_filter. naive_solver.
Qed.

(** every private area can be read under these protections *)
Definition all_readable (o : mem_opts) (vmas : list VmaEntry) (prots : gmap Z Z) : Prop :=
  forall vma, vma ∈ vmas -> vma_entry_is_private vma (o_task_size o) = true ->
    exists p, prots !! v_start vma = Some p /\ has p PROT_READ = true.

Definition same_outside (vmas : list VmaEntry) (p p' : gmap Z Z) : Prop :=
  forall a, a ∉ v_start <$> vmas -> p' !! a = p !! a.

Lemma unprotected_readable o vmas (prots p1 : gmap Z Z) :
  NoDup (v_start <$> vmas) ->
  (forall vma, vma ∈ vmas -> prots !! v_start vma = Some (v_prot vma)) ->
  (forall a, a ∉ pv_start <$> prep_dump_pages_args o vmas false -> p1 !! a = prots !! a) ->
  (forall v, v ∈ prep_dump_pages_args o vmas false -> p1 !! pv_start v = Some (Z.lor (pv_prot v) PROT_READ)) ->
  all_readable o vmas p1.
Proof.
  intros Hnd Hp Ho Hs vma Hin Hpriv. destruct (has (v_prot vma) PROT_READ) eqn:Hr.
  - exists (v_prot vma). split; [|done]. rewrite Ho; [by apply Hp|].
    intros (v & Hv & Hin')%list_elem_of_fmap. apply elem_of_prep in Hin' as (w & Hw & -> & Hc). cbn in Hv.
    assert (vma = w) as <- by (eapply NoDup_start_inj; eauto). rewrite Hr in Hc. by rewrite andb_false_r in Hc.
  - exists (Z.lor (v_prot vma) PROT_READ). split.
    + apply (Hs (mk_pvma (v_start vma) (vma_entry_len vma) (v_prot vma))). apply elem_of_prep.
      exists vma. rewrite Hpriv, Hr, andb_false_r. done.
    + unfold has, PROT_READ. rewrite Z.land_lor_distr_l. apply negb_true_iff, Z.eqb_neq. intros Hz%Z.lor_eq_0_iff.
      destruct Hz as [_ Hz]. done.
Qed.

Lemma prep_outside o vmas skip a : a ∉ v_start <$> vmas -> a ∉ pv_start <$> prep_dump_pages_args o vmas skip.
Proof.
  intros Hn (v & -> & Hv)%list_elem_of_fmap. apply elem_of_prep in Hv as (vma & Hin & -> & _).
  apply Hn, list_elem_of_fmap. eauto.
Qed.

(** every entry of the list that may have changed goes back to its own protection *)
Lemma mprotect_back {K : MprotectKernel} l t prots p1 :
  NoDup (pv_start <$> l) -> (forall v, v ∈ l -> prots !! pv_start v = Some (pv_prot v)) ->
  (forall a, a ∉ pv_start <$> l -> p1 !! a = prots !! a) ->
  exists r t' p2, mprotect_loop l 0 (t, p1) = Done (r, (t', p2)) /\
    (forall a, a ∉ pv_start <$> l -> p2 !! a = prots !! a) /\ (r = 0 -> p2 = prots) /\
    ((forall t, k_mprotect t = true) -> r = 0).
Proof.
  intros Hnd Hback Ho1. destruct (mprotect_loop_ok l 0 t p1 Hnd) as (r & t' & p2 & -> & _ & Ho2 & Hs2 & Hl).
  exists r, t', p2. split_and!; try done.
  - intros a Ha. by rewrite Ho2, Ho1.
  - intros ->. specialize (Hs2 eq_refl). apply map_eq. intros a.
    destruct (decide (a ∈ pv_start <$> l)) as [(v & -> & Hv)%list_elem_of_fmap|Hna]; [|by rewrite Ho2, Ho1].
    by rewrite (Hs2 v Hv), Z.lor_0_r, Hback.
Qed.

(** C28: a full dump always returns: while the pages are dumped every private area of the task can be
    read; the protection of nothing but the listed areas is ever changed; when it succeeds all
    protections are as they were.  If no call of mprotect(2) fails, the outcome is that of the dump
    (-1 for an injected fault), and the protections are as they were after the parasite has been
    removed, also when the dump failed. *)
Theorem protections_restored {K : MprotectKernel} {X} o mdc l fault (dump : clock -> res (dump_result X)) t (prots : gmap Z Z) :
  pre_dump mdc = false -> NoDup (v_start <$> val_h l) ->
  (forall vma, vma ∈ val_h l -> prots !! v_start vma = Some (v_prot vma)) ->
  (forall t, exists R, dump t = Done R) ->
  exists q ro t' prots' args',
    parasite_dump_pages_seized o mdc l fault dump (t, prots, None) = Done ((q, ro), (t', prots', args')) /\
    same_outside (val_h l) prots prots' /\
    (q = 0 -> prots' = prots) /\
    match ro with
    | None => q = -1
    | Some (R, prots1) => all_readable o (val_h l) prots1 /\ same_outside (val_h l) prots prots1 /\ (q = 0 -> d_exit R = 0)
    end /\
    ((forall t, k_mprotect t = true) ->
      (if fault then q = -1 else exists R prots1, ro = Some (R, prots1) /\ q = d_exit R) /\
      exists t'', parasite_cleanup (t', prots', args') = Done (tt, (t'', prots, None))).
Proof.
  intros Hpre Hnd Hp Hd. unfold parasite_dump_pages_seized. rewrite Hpre. cbn [negb orb].
  pose proof (prep_args_nodup o (val_h l) false Hnd) as Ha.
  pose proof (fun a => prep_outside o (val_h l) false a) as Hsub.
  pose proof (unprotected_readable o (val_h l) prots) as Hread.
  assert (Hback : forall v, v ∈ prep_dump_pages_args o (val_h l) false -> prots !! pv_start v = Some (pv_prot v)).
  { intros v (vma & Hin & -> & _)%elem_of_prep. cbn. by apply Hp. }
  revert Ha Hsub Hread Hback. generalize (prep_dump_pages_args o (val_h l) false) as args. intros args Ha Hsub Hread Hback.
  destruct (mprotect_loop_ok args PROT_READ t prots Ha) as (r1 & t1 & p1 & E1 & Hr1 & Ho1 & Hs1 & Hl1).
  assert (Hout1 : same_outside (val_h l) prots p1) by (intros a Hna; by apply Ho1, Hsub).
  assert (Hclean : forall t, (forall t, k_mprotect t = true) ->
    exists t'', parasite_cleanup (t, p1, Some args) = Done (tt, (t'', prots, None))).
  { intros t0 Hl. destruct (mprotect_back args t0 prots p1 Ha Hback Ho1) as (r & t' & p2 & E & _ & Hr & Hl').
    rewrite (Hl' Hl) in *. exists t'. unfold parasite_cleanup, bind, mprotect_vmas. rewrite E, Hr; done. }
  unfold mprotect_vmas. rewrite E1. change (PROT_READ =? 0) with false. cbn iota.
  destruct (Z.eqb_spec r1 0) as [->|Hne]; cbn [negb].
  2: { destruct Hr1 as [? | ->]; [done|]. eexists _, _, _, _, _. split; [done|]. split_and!; try done.
       intros Hl. by specialize (Hl1 Hl). }
  destruct fault.
  { eexists _, _, _, _, _. split; [done|]. split_and!; try done. eauto. }
  specialize (Hs1 eq_refl). specialize (Hread p1 Hnd Hp Ho1 Hs1).
  destruct (Hd t1) as [R ->]. destruct (Z.eqb_spec (d_exit R) 0) as [Hex|Hex]; cbn [negb].
  2: { eexists _, _, _, _, _. split; [done|]. split_and!; try done. eauto 6. }
  destruct (mprotect_back args (d_t R) prots p1 Ha Hback Ho1) as (r2 & t2 & p2 & E2 & Ho2 & Hs2 & Hl2). rewrite E2.
  change (0 =? 0) with true. cbn iota. eexists _, _, _, _, _. split; [done|]. split_and!; try done.
  - intros a Hna. by apply Ho2, Hsub.
  - destruct (Z.eqb_spec r2 0); [auto|done].
  - intros Hl. rewrite (Hl2 Hl) in *. rewrite (Hs2 eq_refl). split; [eauto|]. exists t2. reflexivity.
Qed.

Definition demo_prots : gmap Z Z := list_to_map [(3 * PAGE_SIZE, 1); (11 * PAGE_SIZE, 0); (20 * PAGE_SIZE, 1)].

Lemma protections_witness :
  exists q ro t' prots' args',
    @parasite_dump_pages_seized {| k_mprotect := fun _ => true |} unit demo_opts demo_mdc demo_val false
      (fun _ => Done (mk_dump_result 0 1%nat ∅ None None [] [] 0 (mk_counts 0 0 0))) (0%nat, demo_prots, None) =
        Done ((q, ro), (t', prots', args')) /\
    same_outside demo_vmas demo_prots prots' /\
    (q = 0 -> prots' = demo_prots) /\
    match ro with
    | None => q = -1
    | Some (R, prots1) => all_readable demo_opts demo_vmas prots1 /\ same_outside demo_vmas demo_prots prots1 /\ (q = 0 -> d_exit R = 0)
    end /\
    ((forall t : clock, true = true) ->
      (exists R prots1, ro = Some (R, prots1) /\ q = d_exit R) /\
      exists t'', @parasite_cleanup {| k_mprotect := fun _ => true |} (t', prots', args') = Done (tt, (t'', demo_prots, None))).
Proof.
  apply (@protections_restored {| k_mprotect := fun _ => true |} unit demo_opts demo_mdc demo_val false
    (fun _ => Done (mk_dump_result 0 1%nat ∅ None None [] [] 0 (mk_counts 0 0 0))) 0%nat demo_prots).
  - reflexivity.
  - vm_compute. repeat constructor; rewrite ?elem_of_cons, ?elem_of_nil; intuition congruence.
  - intros vma Hv. change (val_h demo_val) with demo_vmas in Hv. unfold demo_vmas in Hv. rewrite !elem_of_cons, elem_of_nil in Hv.
    destruct Hv as [->|[->|[->|[]]]]; vm_compute; reflexivity.
  - intros t. eexists. reflexivity.
Defined.

(** [is_stack] compares the offsets within the page instead of the pages: for the page-aligned
    addresses it is called with, the answer is the same for every page, and is true only when some
    thread's stack pointer is itself page aligned. *)
Theorem is_stack_ignores_page o vaddr :
  aligned vaddr -> is_stack o vaddr = existsb (fun sp => sp mod PAGE_SIZE =? 0) (o_thread_sp o).
Proof.
  intros Ha. unfold is_stack. induction (o_thread_sp o) as [|sp l IH]; [done|]. cbn [existsb]. rewrite IH. f_equal.
  unfold has. rewrite negb_involutive. change NOT_PAGE_MASK with (Z.ones 12).
  assert (Hx : forall a b c, Z.land (Z.lxor a b) c = Z.lxor (Z.land a c) (Z.land b c)).
  { intros a b c. apply Z.bits_inj'. intros n _. rewrite !Z.land_spec, !Z.lxor_spec, !Z.land_spec.
    by destruct (Z.testbit a n), (Z.testbit b n), (Z.testbit c n). }
  rewrite Hx, !Z.land_ones by lia. unfold aligned, PAGE_SIZE in *. change (2 ^ 12) with 4096. by rewrite Ha, Z.lxor_0_r.
Qed.

Lemma is_stack_ignores_page_witness : is_stack demo_opts (16 * PAGE_SIZE) = false.
Proof. rewrite (is_stack_ignores_page demo_opts (16 * PAGE_SIZE)); [vm_compute; reflexivity|vm_compute; reflexivity]. Defined.

End Mem.
