(* ===== verification/ShmemDump.v ===== *)
(** * Dumping shared memory (criu/shmem.c: do_dump_one_shmem and its callers)

    The dumper maps a segment into its own memory, asks the file system where it has
    data, and puts the pages that were written through a page pipe in chunk mode into the
    images of the segment; pages known to be unchanged are left to the parent snapshot. *)
From S2P Require Import Prelude.
From S2P Require Import Vma.
From S2P Require Import PagePipe.
From S2P Require Import Pagemap.
From S2P Require Import PageXfer.
From S2P Require Import Drain.
From S2P Require Import Chunk.
From S2P Require Import Shmem.
From S2P Require Import Mem.
Import Vma.Vma PagePipe.PagePipe Pagemap.Pagemap PageXfer.PageXfer Drain.Drain Chunk.Chunk Shmem.Shmem.

Module ShmemDump.
Open Scope cmon_scope.

(** ** The file of a segment *)

(** lseek(2) with SEEK_DATA or SEEK_HOLE *)
Inductive lseek_answer :=
| SeekOff (off : Z)
| SeekNxio
| SeekFails.

Class ShmKernel := {
  k_seek_data : clock -> Z -> Z -> lseek_answer;       (* descriptor, offset *)
  k_seek_hole : clock -> Z -> Z -> lseek_answer;
  k_open_map_files : clock -> Z -> Z -> Z -> option Z; (* pid, start, end *)
  k_mmap : clock -> Z -> Z -> option Z;                (* size, descriptor *)
}.

(** [~0UL] *)
Definition NO_PFN : Z := 2 ^ 64 - 1.

(** the result and the new [*next_data_pfn], [*next_hole_pfn] *)
Definition next_data_segment {K : ShmKernel} (fd pfn next_data next_hole : Z) (t : clock) : Z * (Z * Z) * clock :=
  match k_seek_data t fd (u64 (pfn * PAGE_SIZE)) with
  | SeekNxio => (0, (NO_PFN, NO_PFN), S t)
  | SeekFails => (-1, (next_data, next_hole), S t)
  | SeekOff off =>
    match k_seek_hole (S t) fd off with
    | SeekOff off' => (0, (off / PAGE_SIZE, off' / PAGE_SIZE), S (S t))
    | _ => (-1, (off / PAGE_SIZE, next_hole), S (S t))
    end
  end.

(** ** The pages of a segment *)

(** the local variables of [do_dump_one_shmem] that the loop changes *)
Record sst (X : Type) := mk_sst {
  s_d : dst X;
  next_data_pfn : Z;
  next_hole_pfn : Z;
  pages0 : Z;                       (* pages[0]: left to the parent *)
  pages1 : Z;                       (* pages[1]: written *)
}.
Arguments mk_sst {X}.
Arguments s_d {X}.
Arguments next_data_pfn {X}.
Arguments next_hole_pfn {X}.
Arguments pages0 {X}.
Arguments pages1 {X}.

Section DumpOne.
Context {PK : PipeKernel} {SK : SpliceKernel} {K : ShmKernel}.
Context {X : Type} {XO : XferOps (clock * gmap Z stream * X)}.
Variables (env : page_env) (tracking lazy_pages : bool).

(** [dump_pages] of shmem.c: all buffers are filled, then transferred *)
Definition dump_pages (mem : Z -> Z) (addr : Z) : M (dst X) Z :=
  r <~ on_ps (fun pp => shmem_splice mem pp (bufs pp)) ;;
  if negb (r =? 0) then ret (-1) else on_xfer (page_xfer_dump_pages addr true).

(** [pgstate]; [None] is a read beyond the map *)
Definition page_state_at (si : shmem_info) (pfn next_data : Z) : option Z :=
  let mc := if pfn <? next_data then PST_ZERO else PST_DIRTY in
  if negb (bool_decide (pstate_map si = [])) && tracking then
    st ← get_pstate (pstate_map si) pfn;
    Some (if st =? PST_DONT_DUMP then mc else st)
  else Some mc.

(** the label [again]: [ret], [st] and whether the dump is given up *)
Fixpoint shm_again (fuel : nat) (mem : Z -> Z) (addr : Z) (xfer_parent : bool) (pgstate pgaddr : Z)
  : M (dst X) (Z * Z * bool) :=
  match fuel with
  | O => fun _ => NoFuel
  | S fuel =>
    x <~ (if pgstate =? PST_ZERO then ret (0, -1)
          else if xfer_parent && page_in_parent env (pgstate =? PST_DIRTY) then
            r <~ on_pp (page_pipe_add_hole pgaddr PP_HOLE_PARENT) ;; ret (r, 0)
          else
            r <~ on_pp (page_pipe_add_page lazy_pages pgaddr 0) ;; ret (r, 1)) ;;
    let '(r, st) := x in
    if r =? - EAGAIN then
      r <~ dump_pages mem addr ;;
      if negb (r =? 0) then ret (r, st, true)
      else
        on_pp (page_pipe_reinit lazy_pages) ;;;
        shm_again fuel mem addr xfer_parent pgstate pgaddr
    else ret (r, st, negb (r =? 0))
  end.

(** one turn of the loop for page [pfn]; [ret_]: the variable [ret].  The fuel of the label:
    after the page pipe was emptied the page fits. *)
Definition shm_page_step (mem : Z -> Z) (fd addr : Z) (si : shmem_info) (xfer_parent : bool) (pfn ret_ : Z)
  : M (sst X) (Z * bool) :=
  fun s =>
    let '(t, pp, ps, x) := s_d s in
    let '(r, (nd, nh), t) :=
      if next_hole_pfn s <=? pfn then next_data_segment fd pfn (next_data_pfn s) (next_hole_pfn s) t
      else (0, (next_data_pfn s, next_hole_pfn s), t) in
    let s := mk_sst (t, pp, ps, x) nd nh (pages0 s) (pages1 s) in
    if negb (r =? 0) then Done ((ret_, true), s)
    else
      match page_state_at si pfn nd with
      | None => Bug
      | Some pgstate =>
        match shm_again 2 mem addr xfer_parent pgstate (u64 (addr + pfn * PAGE_SIZE)) (s_d s) with
        | Bug => Bug
        | NoFuel => NoFuel
        | Done ((r, st, stop), d) =>
          if stop then Done ((r, true), mk_sst d nd nh (pages0 s) (pages1 s))
          else Done ((r, false), mk_sst d nd nh (if st =? 0 then pages0 s + 1 else pages0 s)
                                            (if st =? 1 then pages1 s + 1 else pages1 s))
        end
      end.

(** the loop over the pages, [n] to go: [ret] and whether it was left by [goto err_xfer] *)
Fixpoint shm_loop (n : nat) (mem : Z -> Z) (fd addr : Z) (si : shmem_info) (xfer_parent : bool) (pfn ret_ : Z)
  : M (sst X) (Z * bool) :=
  match n with
  | O => ret (ret_, false)
  | S n =>
    x <~ shm_page_step mem fd addr si xfer_parent pfn ret_ ;;
    let '(r, stop) := x in
    if stop then ret (r, true) else shm_loop n mem fd addr si xfer_parent (pfn + 1) r
  end.

(** the outcome of a dump: the result, the closed engine, the descriptors closed with the page
    pipe and what is added to the counters SCANNED, SKIPPED_PARENT and WRITTEN *)
Record shm_result := mk_shm_result {
  sr_ret : Z;
  sr_t : clock;
  sr_ps : gmap Z stream;
  sr_x : option X;
  sr_closed : list Z;
  sr_counts : Z * Z * Z;
}.

(** [contents fd]: the bytes of the file of descriptor [fd], which is mapped at [addr];
    [E id]: the engine opened for the segment [id] *)
Definition do_dump_one_shmem (contents : Z -> Z -> Z) (E : Z -> Mem.Mem.xfer_engine X) (fd addr : Z) (si : shmem_info) (t : clock) (ps : gmap Z stream) : res shm_result :=
  let nrpages := u64 (size si + PAGE_SIZE - 1) / PAGE_SIZE in
  let mem a := contents fd (a - addr) in
  match create_page_pipe lazy_pages (u32 (u64 (nrpages + 1) / 2)) None PP_CHUNK_MODE t with
  | Bug => Bug
  | NoFuel => NoFuel
  | Done (None, t) => Done (mk_shm_result (-1) t ps None [] (0, 0, 0))
  | Done (Some pp, t) =>
    let finish r t (pp : page_pipe) ps x cn :=
      match destroy_page_pipe pp with
      | None => Bug
      | Some fds => Done (mk_shm_result r t ps x fds cn)
      end in
    match Mem.Mem.xf_open (E (shmid si)) t with
    | Bug => Bug
    | NoFuel => NoFuel
    | Done (None, t) => finish (-1) t pp ps None (0, 0, 0)
    | Done (Some x, t) =>
      let close r (d : dst X) cn :=
        let '(t, pp, ps, x) := d in
        match Mem.Mem.xf_close (E (shmid si)) x t with
        | Bug => Bug
        | NoFuel => NoFuel
        | Done (t, x) => finish r t pp ps (Some x) cn
        end in
      match shm_loop (Z.to_nat nrpages) mem fd addr si (Mem.Mem.xf_parent (E (shmid si)) x) 0 (-1) (mk_sst (t, pp, ps, x) 0 0 0 0) with
      | Bug => Bug
      | NoFuel => NoFuel
      | Done ((r, true), s) => close r (s_d s) (0, 0, 0)
      | Done ((_, false), s) =>
        match dump_pages mem addr (s_d s) with
        | Bug => Bug
        | NoFuel => NoFuel
        | Done (r, d) => close r d (nrpages, pages0 s, pages1 s)
        end
      end
    end
  end.

(** ** The segments *)

(** a failed step before the dump *)
Definition not_dumped (t : clock) (ps : gmap Z stream) : shm_result := mk_shm_result (-1) t ps None [] (0, 0, 0).

Definition dump_one_shmem (contents : Z -> Z -> Z) (E : Z -> Mem.Mem.xfer_engine X) (si : shmem_info) (t : clock) (ps : gmap Z stream) : res shm_result :=
  match k_open_map_files t (si_pid si) (si_start si) (si_end si) with
  | None => Done (not_dumped (S t) ps)
  | Some fd =>
    match k_mmap (S t) (size si) fd with
    | None => Done (not_dumped (S (S t)) ps)
    | Some addr => do_dump_one_shmem contents E fd addr si (S (S t)) ps
    end
  end.

Definition dump_one_memfd_shmem (contents : Z -> Z -> Z) (E : Z -> Mem.Mem.xfer_engine X) (fd id sz : Z) (t : clock) (ps : gmap Z stream) : res shm_result :=
  if sz =? 0 then Done (mk_shm_result 0 t ps None [] (0, 0, 0))
  else
    match k_mmap t sz fd with
    | None => Done (not_dumped (S t) ps)
    | Some addr => do_dump_one_shmem contents E fd addr (mk_si id 0 sz 0 0 []) (S t) ps
    end.

Definition PROC_SELF : Z := 0.
Definition round_up (x y : Z) : Z := u64 (Z.lor (u64 (x - 1)) (y - 1) + 1).

Definition dump_one_sysv_shmem (contents : Z -> Z -> Z) (E : Z -> Mem.Mem.xfer_engine X) (h : list (list shmem_info)) (addr sz id : Z) (t : clock) (ps : gmap Z stream) : res shm_result :=
  let si := match shmem_find h id with
            | Some si => si
            | None => mk_si id SYSVIPC_SHMEM_PID (round_up sz PAGE_SIZE) 0 0 []
            end in
  match k_open_map_files t PROC_SELF addr (u64 (addr + size si)) with
  | None => Done (not_dumped (S t) ps)
  | Some fd => do_dump_one_shmem contents E fd addr si (S t) ps
  end.

(** the segments in the order of the table, with the engines closed so far *)
Fixpoint dump_shmems (contents : Z -> Z -> Z) (E : Z -> Mem.Mem.xfer_engine X) (l : list shmem_info) (t : clock) (ps : gmap Z stream) (done_ : list (Z * shm_result)) : res (Z * clock * gmap Z stream * list (Z * shm_result)) :=
  match l with
  | [] => Done (0, t, ps, done_)
  | si :: l =>
    if si_pid si =? SYSVIPC_SHMEM_PID then dump_shmems contents E l t ps done_
    else
      match dump_one_shmem contents E si t ps with
      | Bug => Bug
      | NoFuel => NoFuel
      | Done R =>
        let done_ := done_ ++ [(shmid si, R)] in
        if negb (sr_ret R =? 0) then Done (sr_ret R, sr_t R, sr_ps R, done_)
        else dump_shmems contents E l (sr_t R) (sr_ps R) done_
      end
  end.

Definition cr_dump_shmem (contents : Z -> Z -> Z) (E : Z -> Mem.Mem.xfer_engine X) (h : list (list shmem_info)) (t : clock) (ps : gmap Z stream) : res (Z * clock * gmap Z stream * list (Z * shm_result)) :=
  dump_shmems contents E (mjoin h) t ps [].
End DumpOne.
Arguments shm_result : clear implicits.
Arguments mk_shm_result {X}.
Arguments sr_ret {X}.
Arguments sr_t {X}.
Arguments sr_ps {X}.
Arguments sr_x {X}.
Arguments sr_closed {X}.
Arguments sr_counts {X}.


(** ** Where the file has data *)

(** [data]: the pages of the file [fd] that were ever written; the answers of lseek(2) for them *)
Record seeks {K : ShmKernel} (fd n : Z) (data : Z -> bool) : Prop := {
  seek_data_ok : forall t pfn, 0 <= pfn < n ->
    match k_seek_data t fd (pfn * PAGE_SIZE) with
    | SeekOff off => pfn * PAGE_SIZE <= off /\ data (off / PAGE_SIZE) = true /\
                     forall q, pfn <= q < off / PAGE_SIZE -> data q = false
    | SeekNxio => forall q, pfn <= q < n -> data q = false
    | SeekFails => False
    end;
  seek_hole_ok : forall t off, 0 <= off -> data (off / PAGE_SIZE) = true ->
    exists off', k_seek_hole t fd off = SeekOff off' /\ off <= off' /\
                 forall q, off / PAGE_SIZE <= q < off' / PAGE_SIZE -> data q = true;
}.

(** what the two variables say about the pages from [pfn] on *)
Definition known (n : Z) (data : Z -> bool) (pfn nd nh : Z) : Prop :=
  forall q, pfn <= q < n -> q < nh -> data q = negb (q <? nd).

Lemma next_segment_ok {K : ShmKernel} fd n data pfn nd nh t :
  seeks fd n data -> 0 <= pfn < n -> n < 2 ^ 51 ->
  exists nd' nh' t', next_data_segment fd pfn nd nh t = (0, (nd', nh'), t') /\
    data pfn = negb (pfn <? nd') /\ known n data (pfn + 1) nd' nh'.
Proof.
  intros [Hd Hh] Hp Hn. unfold next_data_segment. rewrite u64_id by plia. specialize (Hd t pfn Hp).
  destruct (k_seek_data t fd (pfn * PAGE_SIZE)) as [off| |]; [| |done].
  - destruct Hd as (H1 & H2 & H3). destruct (Hh (S t) off) as (off' & -> & H4 & H5); [plia|done|].
    assert (Hle : pfn <= off / PAGE_SIZE) by (apply Z.div_le_lower_bound; plia).
    eexists _, _, _. split; [done|].
    assert (Hq : forall q, pfn <= q -> q < off' / PAGE_SIZE \/ q = pfn -> data q = negb (q <? off / PAGE_SIZE)).
    { intros q Hq1 Hq2. destruct (Z.ltb_spec q (off / PAGE_SIZE)); [apply H3; lia|]. cbn.
      destruct Hq2 as [?| ->]; [by apply H5|]. by replace pfn with (off / PAGE_SIZE) by lia. }
    split; [apply Hq; [lia|by right]|]. intros q Hq1 Hq2. apply Hq; [lia|by left].
  - eexists _, _, _. split; [done|].
    assert (Hq : forall q, pfn <= q < n -> data q = negb (q <? NO_PFN)).
    { intros q Hq. rewrite Hd by done. rewrite (proj2 (Z.ltb_lt _ _)) by (unfold NO_PFN; lia). done. }
    split; [apply Hq; lia|]. intros q Hq1 Hq2. apply Hq. lia.
Qed.

(** ** Which pages are recorded *)
Section Selected.
Variables (env : page_env) (tracking : bool) (si : shmem_info) (data : Z -> bool) (has_parent : bool) (addr : Z).

Definition shm_state (pfn : Z) : Z :=
  let mc := if data pfn then PST_DIRTY else PST_ZERO in
  if negb (bool_decide (pstate_map si = [])) && tracking then
    if state_of si pfn =? PST_DONT_DUMP then mc else state_of si pfn
  else mc.

Definition shm_hole_at (pfn : Z) : bool :=
  negb (shm_state pfn =? PST_ZERO) && (has_parent && page_in_parent env (shm_state pfn =? PST_DIRTY)).
Definition shm_page_at (pfn : Z) : bool :=
  negb (shm_state pfn =? PST_ZERO) && negb (has_parent && page_in_parent env (shm_state pfn =? PST_DIRTY)).

Definition shm_addrs (f : Z -> bool) (i n : Z) : list Z :=
  (fun p => addr + p * PAGE_SIZE) <$> filter (fun p => f p = true) (seqZ i n).
Definition shm_pages : Z -> Z -> list Z := shm_addrs shm_page_at.
Definition shm_holes : Z -> Z -> list Z := shm_addrs shm_hole_at.

Lemma shm_addrs_cons f i n : 0 < n ->
  shm_addrs f i n = (if f i then [addr + i * PAGE_SIZE] else []) ++ shm_addrs f (i + 1) (n - 1).
Proof.
  intros Hn. unfold shm_addrs. rewrite seqZ_cons by done. rewrite filter_cons.
  replace (Z.succ i) with (i + 1) by lia. replace (Z.pred n) with (n - 1) by lia.
  case_decide as Hd; [by rewrite Hd|]. by destruct (f i).
Qed.

Lemma elem_of_shm_addrs f i n a :
  a ∈ shm_addrs f i n <-> exists p, a = addr + p * PAGE_SIZE /\ i <= p < i + n /\ f p = true.
Proof.
  unfold shm_addrs. rewrite list_elem_of_fmap. split.
  - intros (p & -> & [Hf Hp]%list_elem_of_filter). apply elem_of_seqZ in Hp. eauto.
  - intros (p & -> & Hp & Hf). exists p. split; [done|]. apply list_elem_of_filter. by rewrite elem_of_seqZ.
Qed.

Lemma shm_addrs_length f i n : 0 <= n -> Z.of_nat (length (shm_addrs f i n)) <= n.
Proof.
  intros Hn. unfold shm_addrs. rewrite length_fmap.
  pose proof (length_filter (fun p => f p = true) (seqZ i n)) as H. rewrite length_seqZ in H. lia.
Qed.

Lemma page_state_known n pfn nd :
  (tracking = true -> pstate_map si <> [] -> n <= map_room (pstate_map si)) ->
  0 <= pfn < n -> data pfn = negb (pfn <? nd) -> page_state_at tracking si pfn nd = Some (shm_state pfn).
Proof.
  intros Hm Hp Hd. unfold page_state_at, shm_state. rewrite Hd.
  case_bool_decide as Hb; cbn [negb andb]; [by destruct (pfn <? nd)|].
  destruct tracking; [|by destruct (pfn <? nd)]. unfold state_of.
  destruct (get_pstate_some (pstate_map si) pfn) as [st ->]; [specialize (Hm eq_refl Hb); lia|]. cbn.
  by destruct (pfn <? nd).
Qed.
End Selected.

(** ** The dump of one segment *)
Section DumpOk.
Context {PK : PipeKernel} {SK : SpliceKernel} {K : ShmKernel} {XK : XferKernel} {RK : ReadKernel}.
Context `{!PipeKernelOk PK} `{!SpliceKernelOk SK} `{!XferKernelOk XK} `{!XferKernelLive XK}.
Variables (env : page_env) (lazy_pages : bool) (mem : Z -> Z) (addr : Z) (c : list page_read).

(** room for [rem] more pages and [remh] more holes *)
Record shm_room (rem remh : Z) (H : list Z) (pp : page_pipe) (ps : gmap Z stream) : Prop := {
  sm_chunk : chunk_ok pp;
  sm_iovs : free_iov pp + rem <= nr_iovs pp;
  sm_nholes : nr_holes pp + remh * PP_HOLES_BATCH < 2 ^ 32;
  sm_holes : Z.of_nat (length H) + remh < 2 ^ 31;
  sm_empty : forall fd, avail (pipe_at ps fd) = 0;
}.

Record sdump_at (its : list item) (P0 H0 P1 H1 : list Z) (lo hi rem remh : Z) (d : dst loc_xfer) : Prop := {
  sd_lo : addr <= lo <= hi;
  sd_imaged : imaged addr mem c its P0 H0 lo (snd d);
  sd_pending : pending addr lo hi P1 H1 (snd (fst (fst d)));
  sd_room : shm_room rem remh H1 (snd (fst (fst d))) (snd (fst d));
}.

(** the pages [P] and the holes [H], all below [hi], are in the images or wait in the page pipe *)
Definition sdump (P H : list Z) (hi rem remh : Z) (d : dst loc_xfer) : Prop :=
  exists its P0 H0 P1 H1 lo, P = P0 ++ P1 /\ H = H0 ++ H1 /\ sdump_at its P0 H0 P1 H1 lo hi rem remh d.

Definition salive (d : dst loc_xfer) : Prop :=
  wf (snd (fst (fst d))) /\ Forall2 same_img c (parent (snd d)).

Lemma sdump_alive P H hi rem remh d : sdump P H hi rem remh d -> salive d.
Proof.
  intros (its & P0 & H0 & P1 & H1 & lo & -> & -> & [_ I D _]).
  split; [apply (pd_wf _ _ _ _ _ _ D)|apply (im_parent _ _ _ _ _ _ _ _ I)].
Qed.

Lemma sdump_tick P H hi rem remh t t' pp ps x :
  sdump P H hi rem remh (t, pp, ps, x) -> sdump P H hi rem remh (t', pp, ps, x).
Proof. intros (its & P0 & H0 & P1 & H1 & lo & E1 & E2 & [A B C D]). exists its, P0, H0, P1, H1, lo. split_and!; by try constructor. Qed.

(** the segment is mapped below the bounds of user memory *)
Definition mapped_ok (hi : Z) : Prop := 0 < addr <= hi /\ aligned addr /\ hi < 2 ^ 61.

Lemma mapped_window lo hi : mapped_ok hi -> addr <= lo <= hi -> window addr lo hi.
Proof. intros (M1 & M2 & M3) Hlo. unfold window. split_and!; try lia; done. Qed.

Lemma shm_dump_pages_ok its P0 H0 P1 H1 lo hi rem remh t pp ps x :
  mapped_ok hi -> sdump_at its P0 H0 P1 H1 lo hi rem remh (t, pp, ps, x) -> parent_has addr c H1 ->
  exists r t' ps' x', dump_pages (XO := LocalXfer false) mem addr (t, pp, ps, x) = Done (r, (t', pp, ps', x')) /\
    (r = -1 /\ x' = x \/ r = 0 /\ (forall fd, avail (pipe_at ps' fd) = 0) /\
       imaged addr mem c (its ++ pp_items true pp) (P0 ++ P1) (H0 ++ H1) hi x').
Proof.
  intros HM [Hlo I D R] Hc. cbn [fst snd] in *. pose proof (mapped_window lo hi HM Hlo) as W.
  unfold dump_pages, bind, on_ps.
  destruct (shmem_splice_ok mem pp (bufs pp) t ps (pd_wf _ _ _ _ _ _ D) (fun _ H => H)) as (r & t1 & ps1 & -> & Hr & _).
  destruct Hr as [->|[-> Hd]].
  { change (negb (-1 =? 0)) with true. cbn iota. eexists _, _, _, _. split; [done|]. by left. }
  change (negb (0 =? 0)) with false. cbn iota.
  destruct (drained_hold mem pp ps ps1 (pd_wf _ _ _ _ _ _ D) (sm_empty _ _ _ _ _ R) Hd) as [Hh Ha].
  unfold on_xfer.
  destruct (flush_ok addr mem c its P0 H0 lo hi P1 H1 pp t1 ps1 x W D I Hc Hh Ha) as (t2 & ps2 & x2 & He & I2 & A2).
  change (page_xfer_dump_pages addr true pp (t1, ps1, x)) with (page_xfer_dump_pages (X := LocalXfer false) addr true pp (t1, ps1, x)).
  rewrite He. eexists _, _, _, _. split; [done|]. right. by split_and!.
Qed.

(** emptying the page pipe: nothing waits any more, and there is a free buffer *)
Lemma flush_reinit_ok P H hi rem remh t pp ps x :
  mapped_ok hi -> sdump P H hi rem remh (t, pp, ps, x) -> parent_has addr c H -> (2 <= length (bufs pp))%nat -> 0 <= remh ->
  (exists t' ps', dump_pages (XO := LocalXfer false) mem addr (t, pp, ps, x) = Done (-1, (t', pp, ps', x))) \/
  (exists t1 ps1 x1 t' pp', dump_pages (XO := LocalXfer false) mem addr (t, pp, ps, x) = Done (0, (t1, pp, ps1, x1)) /\
     page_pipe_reinit lazy_pages (t1, pp) = Done (tt, (t', pp')) /\
     sdump P H hi rem remh (t', pp', ps1, x1) /\ free_bufs pp' <> []).
Proof.
  intros HM (its & P0 & H0 & P1 & H1 & lo & -> & -> & DA) Hc Hb Hrem. apply parent_has_app in Hc as [Hc0 Hc1].
  destruct (shm_dump_pages_ok _ _ _ _ _ _ _ _ _ _ _ _ _ HM DA Hc1) as (r & t1 & ps1 & x1 & He & Hr).
  destruct Hr as [[-> ->]|(-> & A1 & I1)]; [left; eauto|right].
  destruct DA as [Hlo I D [R1 R2 R3 R4 R5]]. cbn [fst snd] in *. pose proof D as [D1 D2 D3 _ _ _ _ _ _ _ _].
  destruct (reinit_ok lazy_pages t1 pp D1 D2 D3 (proj1 R1)) as (t2 & pp2 & Hre & HE & Hf & Hn & _ & Hh & Hck).
  destruct (Hck R1) as [Hck2 Hfree]. exists t1, ps1, x1, t2, pp2. split_and!; [done|done| |by apply Hfree].
  exists (its ++ pp_items true pp), (P0 ++ P1), (H0 ++ H1), [], [], hi. rewrite !app_nil_r.
  split_and!; try done. constructor; cbn [fst snd]; [lia|done|by apply empty_pending|].
  constructor; try done; rewrite ?Hf, ?Hn, ?Hh; cbn [length]; lia.
Qed.
Lemma chunk_kept n m pp pp' : kept n m pp pp' -> chunk_ok pp -> chunk_ok pp'.
Proof. intros Hk. destruct (kp_grow _ _ _ _ Hk 0) as [_ G]. exact G. Qed.

Lemma sdump_page P H hi rem remh a t pp ps x :
  sdump P H hi (rem + 1) remh (t, pp, ps, x) -> 0 <= rem -> hi <= a -> aligned a -> mapped_ok (a + PAGE_SIZE) ->
  exists r t' pp', page_pipe_add_page lazy_pages a 0 (t, pp) = Done (r, (t', pp')) /\
    (r = 0 /\ sdump (P ++ [a]) H (a + PAGE_SIZE) rem remh (t', pp', ps, x) \/
     r = -1 /\ salive (t', pp', ps, x) \/
     r = - EAGAIN /\ sdump P H hi (rem + 1) remh (t', pp', ps, x) /\ (2 <= length (bufs pp'))%nat) /\
    (free_bufs pp <> [] -> r = 0).
Proof.
  intros (its & P0 & H0 & P1 & H1 & lo & -> & -> & [Hlo I D [R1 R2 R3 R4 R5]]) Hrem Ha Hal HM. cbn [fst snd] in *.
  assert (W : window addr lo (a + PAGE_SIZE)) by (apply mapped_window; [done|plia]).
  destruct (pending_page lazy_pages addr lo hi (a + PAGE_SIZE) P1 H1 t pp a 0 W) as (r & t' & pp' & Hadd & Hr & Hk & Hag & Hfb);
    [lia|lia|lia|done|done|lia|].
  exists r, t', pp'. split; [done|]. split; [|done].
  destruct Hr as [[-> D']|([->| ->] & D' & Hk')].
  - left. split; [done|]. exists its, P0, H0, (P1 ++ [a]), H1, lo. rewrite app_assoc. split_and!; try done.
    constructor; cbn [fst snd]; [plia|done|done|]. pose proof (chunk_kept _ _ _ _ Hk R1). destruct Hk. constructor; try done; lia.
  - right; left. split; [done|]. split; cbn; [apply (pd_wf _ _ _ _ _ _ D')|apply (im_parent _ _ _ _ _ _ _ _ I)].
  - right; right. split; [done|]. split; [|by apply Hag].
    exists its, P0, H0, P1, H1, lo. split_and!; try done. constructor; cbn [fst snd]; try done.
    pose proof (chunk_kept _ _ _ _ Hk' R1). destruct Hk'. constructor; try done; lia.
Qed.

Lemma sdump_hole P H hi rem remh a t pp ps x :
  sdump P H hi rem (remh + 1) (t, pp, ps, x) -> 0 <= remh -> hi <= a -> aligned a -> mapped_ok (a + PAGE_SIZE) ->
  exists r t' pp', page_pipe_add_hole a PP_HOLE_PARENT (t, pp) = Done (r, (t', pp')) /\
    (r = 0 /\ sdump P (H ++ [a]) (a + PAGE_SIZE) rem remh (t', pp', ps, x) \/ r = -1 /\ salive (t', pp', ps, x)).
Proof.
  intros (its & P0 & H0 & P1 & H1 & lo & -> & -> & [Hlo I D [R1 R2 R3 R4 R5]]) Hrem Ha Hal HM. cbn [fst snd] in *.
  assert (W : window addr lo (a + PAGE_SIZE)) by (apply mapped_window; [done|plia]).
  destruct (pending_hole addr lo hi (a + PAGE_SIZE) P1 H1 t pp a W) as (r & t' & pp' & Hadd & Hr & Hk);
    [lia|lia|lia|done|done|unfold PP_HOLES_BATCH in *; lia|lia|].
  exists r, t', pp'. split; [done|]. destruct Hr as [[-> D']|[-> D']].
  - left. split; [done|]. exists its, P0, H0, P1, (H1 ++ [a]), lo. rewrite app_assoc. split_and!; try done.
    constructor; cbn [fst snd]; [plia|done|done|]. pose proof (chunk_kept _ _ _ _ Hk R1). destruct Hk.
    constructor; try done; rewrite ?length_app; cbn [length]; unfold PP_HOLES_BATCH in *; lia.
  - right. split; [done|]. split; cbn; [apply (pd_wf _ _ _ _ _ _ D')|apply (im_parent _ _ _ _ _ _ _ _ I)].
Qed.

Lemma sdump_skip P H hi rem remh rem' remh' d :
  rem' <= rem -> remh' <= remh -> sdump P H hi rem remh d -> sdump P H hi rem' remh' d.
Proof.
  intros H1 H2 (its & P0 & H0 & P1 & H1' & lo & -> & -> & [Hlo I D [R1 R2 R3 R4 R5]]). exists its, P0, H0, P1, H1', lo.
  split_and!; try done. constructor; try done. constructor; try done; unfold PP_HOLES_BATCH in *; lia.
Qed.

(** what the label [again] does with a page in state [st]: [bp], [bh] say how it is recorded *)
Definition as_page (hp : bool) (st : Z) : bool := negb (st =? PST_ZERO) && negb (hp && page_in_parent env (st =? PST_DIRTY)).
Definition as_parent (hp : bool) (st : Z) : bool := negb (st =? PST_ZERO) && (hp && page_in_parent env (st =? PST_DIRTY)).

Lemma shm_again_ok hp st P H hi rem remh a d :
  sdump P H hi ((if as_page hp st then 1 else 0) + rem) (1 + remh) d -> 0 <= rem -> 0 <= remh -> hi <= a -> aligned a ->
  mapped_ok (a + PAGE_SIZE) -> addr <= hi -> parent_has addr c H ->
  exists r k stop d', shm_again (XO := LocalXfer false) env lazy_pages 2 mem addr hp st a d = Done ((r, k, stop), d') /\
    (stop = true /\ r = -1 /\ salive d' \/
     stop = false /\ r = 0 /\ k = (if as_page hp st then 1 else if as_parent hp st then 0 else -1) /\
     exists hi', hi <= hi' <= a + PAGE_SIZE /\
       sdump (P ++ (if as_page hp st then [a] else [])) (H ++ (if as_parent hp st then [a] else [])) hi' rem remh d').
Proof.
  intros Hd Hr Hh Ha Hal HM Hadd Hc. destruct d as [[[t pp] ps] x]. cbn [shm_again]. unfold as_page, as_parent in *.
  destruct (Z.eqb_spec st PST_ZERO) as [->|Hne]; cbn [negb andb] in *.
  { unfold bind at 1, ret at 1. change (0 =? - EAGAIN) with false. cbn iota. unfold ret. eexists _, _, _, _. split; [done|]. right.
    split_and!; try done. exists hi. split; [plia|]. rewrite !app_nil_r. eapply sdump_skip; [| |exact Hd]; lia. }
  destruct (hp && page_in_parent env (st =? PST_DIRTY)) eqn:Hin; cbn [negb] in *.
  - unfold bind, on_pp, ret. destruct (sdump_hole P H hi rem remh a t pp ps x) as (r & t' & pp' & -> & Hres);
      [eapply sdump_skip; [| |exact Hd]; lia|done|done|done|done|].
    destruct Hres as [[-> Hd']|[-> Hal']].
    + change (0 =? - EAGAIN) with false. cbn iota. eexists _, _, _, _. split; [done|]. right. split_and!; try done.
      exists (a + PAGE_SIZE). split; [plia|]. by rewrite app_nil_r.
    + change (-1 =? - EAGAIN) with false. cbn iota. eexists _, _, _, _. split; [done|]. by left.
  - assert (Hd1 : sdump P H hi (rem + 1) remh (t, pp, ps, x)) by (eapply sdump_skip; [| |exact Hd]; lia).
    unfold bind at 1 2, on_pp at 1, ret at 1.
    destruct (sdump_page P H hi rem remh a t pp ps x Hd1 Hr Ha Hal HM) as (r & t' & pp' & -> & Hres & _).
    destruct Hres as [[-> Hd']|[[-> Hal']|(-> & Hd' & Hb)]].
    + change (0 =? - EAGAIN) with false. cbn iota. unfold ret. eexists _, _, _, _. split; [done|]. right. split_and!; try done.
      exists (a + PAGE_SIZE). split; [plia|]. by rewrite app_nil_r.
    + change (-1 =? - EAGAIN) with false. cbn iota. unfold ret. eexists _, _, _, _. split; [done|]. by left.
    + rewrite Z.eqb_refl.
      assert (HM' : mapped_ok hi) by (destruct HM as (M1 & M2 & M3); split_and!; [plia|plia|done|plia]).
      destruct (flush_reinit_ok P H hi (rem + 1) remh t' pp' ps x HM' Hd' Hc Hb Hh)
        as [(t1 & ps1 & He)|(t1 & ps1 & x1 & t2 & pp2 & He & Hre & Hd2 & Hfb)].
      * unfold bind at 1. rewrite He. change (negb (-1 =? 0)) with true. cbn iota. unfold ret. eexists _, _, _, _. split; [done|]. left.
        split_and!; try done. by destruct (sdump_alive _ _ _ _ _ _ Hd') as [? ?].
      * unfold bind at 1. rewrite He. change (negb (0 =? 0)) with false. cbn iota.
        unfold bind at 1, on_pp at 1. rewrite Hre. unfold bind, on_pp, ret.
        destruct (sdump_page P H hi rem remh a t2 pp2 ps1 x1 Hd2 Hr Ha Hal HM) as (r & t3 & pp3 & -> & Hres & Hfr).
        rewrite (Hfr Hfb) in *. destruct Hres as [[_ Hd3]|[[? _]|[? _]]]; [|done|done].
        change (0 =? - EAGAIN) with false. cbn iota. eexists _, _, _, _. split; [done|]. right. split_and!; try done.
        exists (a + PAGE_SIZE). split; [plia|]. by rewrite app_nil_r.
Qed.

(** *** The loop over the pages *)
Section Loop.
Variables (tracking : bool) (si : shmem_info) (data : Z -> bool) (hp : bool) (fd n : Z).
Hypothesis (Hseek : seeks fd n data) (Hn : n < 2 ^ 27) (HM : mapped_ok (addr + n * PAGE_SIZE)).
Hypothesis Hmap : tracking = true -> pstate_map si <> [] -> n <= map_room (pstate_map si).
Abbreviation pages := (shm_pages env tracking si data hp addr).
Abbreviation holes_ := (shm_holes env tracking si data hp addr).
Abbreviation plen i k := (Z.of_nat (length (pages i k))).

(** the state at the head of the loop, with page [pfn] next *)
Definition at_page (pfn : Z) (P H : list Z) (s : sst loc_xfer) : Prop :=
  known n data pfn (next_data_pfn s) (next_hole_pfn s) /\
  exists hi, addr <= hi <= addr + pfn * PAGE_SIZE /\ sdump P H hi (plen pfn (n - pfn)) (n - pfn) (s_d s).

Lemma shm_step_ok pfn P H r0 s :
  0 <= pfn < n -> at_page pfn P H s -> parent_has addr c H ->
  exists r stop s',
    shm_page_step (XO := LocalXfer false) env tracking lazy_pages mem fd addr si hp pfn r0 s = Done ((r, stop), s') /\
    (stop = true /\ r = -1 /\ salive (s_d s') \/
     stop = false /\ r = 0 /\ at_page (pfn + 1) (P ++ pages pfn 1) (H ++ holes_ pfn 1) s' /\
     pages0 s' = pages0 s + Z.of_nat (length (holes_ pfn 1)) /\ pages1 s' = pages1 s + plen pfn 1).
Proof.
  intros Hp (Hk & hi & Hhi & Hd) Hc. destruct s as [[[[t pp] ps] x] nd nh p0 p1]. unfold shm_page_step.
  cbn [s_d next_data_pfn next_hole_pfn pages0 pages1] in *.
  (* what is known after the possible search *)
  assert (HN : exists nd' nh' t', (if nh <=? pfn then next_data_segment fd pfn nd nh t else (0, (nd, nh), t)) = (0, (nd', nh'), t') /\
     data pfn = negb (pfn <? nd') /\ known n data (pfn + 1) nd' nh').
  { destruct (Z.leb_spec nh pfn); [apply (next_segment_ok fd n data); [done|done|lia]|].
    eexists _, _, _. split; [done|]. split; [apply Hk; lia|]. intros q Hq1 Hq2. apply Hk; lia. }
  destruct HN as (nd' & nh' & t' & -> & Hdp & Hk'). change (negb (0 =? 0)) with false. cbn iota. cbn [s_d pages0 pages1].
  rewrite (page_state_known tracking si data n pfn nd' Hmap Hp Hdp).
  assert (Ha : u64 (addr + pfn * PAGE_SIZE) = addr + pfn * PAGE_SIZE) by (destruct HM as (? & ? & ?); apply u64_id; plia).
  rewrite Ha.
  assert (H1 : forall f, shm_addrs addr f pfn 1 = if f pfn then [addr + pfn * PAGE_SIZE] else []).
  { intros f. rewrite shm_addrs_cons by lia. by rewrite app_nil_r. }
  assert (Hlen : plen pfn (n - pfn) = (if as_page hp (shm_state tracking si data pfn) then 1 else 0) + plen (pfn + 1) (n - (pfn + 1))).
  { unfold shm_pages. rewrite shm_addrs_cons by lia. rewrite length_app. replace (n - pfn - 1) with (n - (pfn + 1)) by lia.
    unfold shm_page_at, as_page. destruct (negb _ && negb _); cbn [length]; lia. }
  rewrite Hlen in Hd. replace (n - pfn) with (1 + (n - (pfn + 1))) in Hd by lia.
  destruct (shm_again_ok hp (shm_state tracking si data pfn) P H hi (plen (pfn + 1) (n - (pfn + 1))) (n - (pfn + 1))
    (addr + pfn * PAGE_SIZE) (t', pp, ps, x)) as (r & k & stop & d' & -> & Hr); try done; try lia.
  - by apply (sdump_tick _ _ _ _ _ t).
  - destruct HM as (_ & ? & _). apply aligned_add; [done|apply aligned_mul].
  - destruct HM as (? & ? & ?). split_and!; [plia|plia|done|plia].
  - destruct Hr as [(-> & -> & Hal)|(-> & -> & -> & hi' & Hhi' & Hd')].
    { eexists _, _, _. split; [done|]. by left. }
    eexists _, _, _. split; [done|]. right. cbn [s_d pages0 pages1].
    unfold shm_pages, shm_holes. rewrite !H1. unfold shm_page_at, shm_hole_at, as_page, as_parent in *.
    split_and!; try done.
    + split; [done|]. exists hi'. split; [plia|]. exact Hd'.
    + destruct (negb (_ =? PST_ZERO)), (hp && _); cbn; lia.
    + destruct (negb (_ =? PST_ZERO)), (hp && _); cbn; lia.
Qed.

Lemma shm_loop_ok k : forall pfn P H r0 s,
  0 <= pfn -> pfn + Z.of_nat k = n -> at_page pfn P H s -> parent_has addr c H -> parent_has addr c (holes_ pfn (n - pfn)) ->
  exists r stop s', shm_loop (XO := LocalXfer false) env tracking lazy_pages k mem fd addr si hp pfn r0 s = Done ((r, stop), s') /\
    (stop = true /\ r = -1 /\ salive (s_d s') \/
     stop = false /\ at_page n (P ++ pages pfn (n - pfn)) (H ++ holes_ pfn (n - pfn)) s' /\
     pages0 s' = pages0 s + Z.of_nat (length (holes_ pfn (n - pfn))) /\ pages1 s' = pages1 s + plen pfn (n - pfn)).
Proof.
  induction k as [|k IH]; intros pfn P H r0 s Hp Hk Hat Hc Hh; cbn [shm_loop].
  { assert (pfn = n) as -> by lia. unfold ret. eexists _, _, _. split; [done|]. right. rewrite Z.sub_diag.
    change (pages n 0) with (@nil Z). change (holes_ n 0) with (@nil Z). rewrite !app_nil_r. cbn. split_and!; try done; lia. }
  assert (Hsp : forall f, shm_addrs addr f pfn (n - pfn) = shm_addrs addr f pfn 1 ++ shm_addrs addr f (pfn + 1) (n - (pfn + 1))).
  { intros f. rewrite (shm_addrs_cons addr f pfn 1), (shm_addrs_cons addr f pfn (n - pfn)) by lia.
    change (shm_addrs addr f (pfn + 1) (1 - 1)) with (@nil Z). rewrite app_nil_r. by replace (n - pfn - 1) with (n - (pfn + 1)) by lia. }
  unfold shm_pages, shm_holes in *. rewrite !Hsp in *. apply parent_has_app in Hh as [Hh1 Hh2].
  destruct (shm_step_ok pfn P H r0 s) as (r & stop & s1 & Hs & Hr); [lia|done|done|]. unfold shm_pages, shm_holes in *.
  rewrite (bind_Done _ _ _ _ _ Hs). destruct Hr as [(-> & -> & Hal)|(-> & -> & Hat1 & Hc0 & Hc1)].
  { eexists _, _, _. split; [done|]. by left. }
  destruct (IH (pfn + 1) _ _ 0 s1 ltac:(lia) ltac:(lia) Hat1) as (r & stop & s' & -> & Hr); [by apply parent_has_app|done|].
  eexists _, _, _. split; [done|]. destruct Hr as [Hr|(-> & Hat' & E0 & E1)]; [by left|right].
  rewrite !app_assoc. split_and!; try done; rewrite length_app; lia.
Qed.
End Loop.

Lemma sdump_start n t pp ps rem :
  empty_contents pp -> chunk_ok pp -> nr_holes pp = 0 -> free_iov pp + rem <= nr_iovs pp -> 0 <= n < 2 ^ 27 ->
  parent_ready c -> (forall fd, avail (pipe_at ps fd) = 0) ->
  sdump [] [] addr rem n (t, pp, ps, mk_loc [] empty_stream c).
Proof.
  intros He Hc Hh Hf Hn Hr Hps. exists [], [], [], [], [], addr. split_and!; try done.
  constructor; cbn [fst snd]; [lia|by apply imaged_nil|by apply empty_pending|].
  constructor; try done; rewrite ?Hh; unfold PP_HOLES_BATCH; cbn; lia.
Qed.
End DumpOk.

(** the bytes of the image of a segment, read through the chain of snapshots [c] *)
Definition segment_imaged (contents : Z -> Z) (n : Z) (page_at hole_at : Z -> bool) (c : list page_read) (x : loc_xfer) : Prop :=
  pm_ok (image_reader x) /\
  forall pfn off, 0 <= pfn < n -> pfn * PAGE_SIZE <= off < (pfn + 1) * PAGE_SIZE ->
    ref_byte (image_reader x :: c) off =
      if page_at pfn then Some (contents off) else if hole_at pfn then ref_byte c off else None.

Lemma imaged_segment env mem addr c tracking si data hp n its hi x :
  mapped_ok addr (addr + n * PAGE_SIZE) ->
  imaged addr mem c its (shm_pages env tracking si data hp addr 0 n) (shm_holes env tracking si data hp addr 0 n) hi x ->
  segment_imaged (fun off => mem (off + addr)) n (shm_page_at env tracking si data hp) (shm_hole_at env tracking si data hp) c x.
Proof.
  intros (M1 & M2 & M3) I. destruct (imaged_read _ _ _ _ _ _ _ _ I) as (I1 & I2 & I3). split; [done|]. intros pfn off Hp Hoff.
  assert (Hb : addr + pfn * PAGE_SIZE <= off + addr < addr + pfn * PAGE_SIZE + PAGE_SIZE) by plia.
  assert (Hin : forall f, f pfn = true -> addr + pfn * PAGE_SIZE ∈ shm_addrs addr f 0 n).
  { intros f Hf. apply elem_of_shm_addrs. exists pfn. split_and!; [done|lia|lia|done]. }
  assert (Hout : forall f, addr + pfn * PAGE_SIZE ∈ shm_addrs addr f 0 n -> f pfn = true).
  { intros f (q & He & _ & Hf)%elem_of_shm_addrs. by replace pfn with q by plia. }
  replace off with (off + addr - addr) at 1 by lia. destruct (shm_page_at env tracking si data hp pfn) eqn:EP.
  - by apply (I2 _ _ (Hin _ EP) Hb).
  - destruct (shm_hole_at env tracking si data hp pfn) eqn:EH.
    + replace off with (off + addr - addr) at 2 by lia. by apply (I3 _ _ (Hin _ EH) Hb).
    + eapply (imaged_absent addr mem c _ _ _ _ x (addr + pfn * PAGE_SIZE)); [plia|done|exact I|apply aligned_add; [done|apply aligned_mul]| |done].
      intros [Hx%Hout|Hx%Hout]%elem_of_app; congruence.
Qed.


(** closing the engine and the page pipe *)
Lemma close_dump_ok {XK : XferKernel} {RK : ReadKernel} sm pardirs ids c id r t pp ps x cn :
  parent_ready c -> wf pp -> Forall2 same_img c (parent x) ->
  exists R x',
    match Mem.Mem.xf_close (Mem.Mem.local_engine sm pardirs CR_FD_SHMEM_PAGEMAP id ids) x t with
    | Done (t, x) => match destroy_page_pipe pp with Some fds => Done (mk_shm_result r t ps (Some x) fds cn) | None => Bug end
    | Bug => Bug
    | NoFuel => NoFuel
    end = Done R /\ sr_ret R = r /\ sr_x R = Some x' /\ pmi x' = pmi x /\ lpi x' = lpi x /\ sr_counts R = cn.
Proof.
  intros [Ha _] Hwf Hsame. cbn [Mem.Mem.xf_close Mem.Mem.local_engine]. unfold close_page_xfer.
  destruct (close_page_read_ok t (parent x)) as (t5 & c5 & ->).
  { eapply Mem.Mem.same_img_async; [exact Hsame|exact Ha]. }
  destruct (destroy_ok pp Hwf) as [fds ->]. eexists _, _. split; [done|]. done.
Qed.

Lemma do_dump_one_shmem_ok {PK : PipeKernel} {SK : SpliceKernel} {K : ShmKernel} {XK : XferKernel} {RK : ReadKernel}
    `{!PipeKernelOk PK} `{!SpliceKernelOk SK} `{!XferKernelOk XK} `{!XferKernelLive XK}
    env tracking lazy_pages contents sm pardirs ids c fd addr si data t ps :
  let n := page_count (size si) in
  let hp := negb (bool_decide (c = [])) in
  0 < size si -> n < 2 ^ 27 -> mapped_ok addr (addr + n * PAGE_SIZE) ->
  (tracking = true -> pstate_map si <> [] -> n <= map_room (pstate_map si)) ->
  seeks fd n data ->
  Z.of_nat (length (shm_pages env tracking si data hp addr 0 n)) <= (n + 1) / 2 ->
  parent_ready c -> parent_has addr c (shm_holes env tracking si data hp addr 0 n) ->
  (forall t, exists t', Mem.Mem.xf_open (Mem.Mem.local_engine sm pardirs CR_FD_SHMEM_PAGEMAP (shmid si) ids) t = Done (Some (mk_loc [] empty_stream c), t')) ->
  (forall fd, avail (pipe_at ps fd) = 0) ->
  exists R, do_dump_one_shmem (XO := LocalXfer false) env tracking lazy_pages contents
              (fun id => Mem.Mem.local_engine sm pardirs CR_FD_SHMEM_PAGEMAP id ids) fd addr si t ps = Done R /\
    (sr_ret R = -1 \/
     sr_ret R = 0 /\ exists x its hi x0, sr_x R = Some x /\ pmi x = pmi x0 /\ lpi x = lpi x0 /\ hi <= addr + n * PAGE_SIZE /\
       imaged addr (fun a => contents fd (a - addr)) c its (shm_pages env tracking si data hp addr 0 n)
         (shm_holes env tracking si data hp addr 0 n) hi x0 /\
       sr_counts R = (n, Z.of_nat (length (shm_holes env tracking si data hp addr 0 n)),
                         Z.of_nat (length (shm_pages env tracking si data hp addr 0 n)))).
Proof.
  intros n hp Hsz Hn HM Hmap Hseek Hiov Hready Hpar Ho Hps. unfold do_dump_one_shmem.
  assert (Hn0 : 0 < n) by (unfold n, page_count; apply Z.div_str_pos; plia).
  assert (Hsize : size si <= n * PAGE_SIZE) by (unfold n, page_count; pdiv).
  assert (HN : u64 (size si + PAGE_SIZE - 1) / PAGE_SIZE = n) by (rewrite u64_id by plia; done). rewrite HN.
  assert (HI : u32 (u64 (n + 1) / 2) = (n + 1) / 2).
  { rewrite u64_id by lia. apply u32_id. split; [apply Z.div_pos; lia|]. apply Z.div_lt_upper_bound; lia. }
  rewrite HI. set (mem := fun a => contents fd (a - addr)).
  assert (Hr : 0 <= (n + 1) / 2 < 2 ^ 32) by (split; [apply Z.div_pos; lia|apply Z.div_lt_upper_bound; lia]).
  assert (Hv : forall k : list iovec, None = Some k -> Z.of_nat (length k) = (n + 1) / 2) by done.
  destruct (create_ok lazy_pages ((n + 1) / 2) None PP_CHUNK_MODE t Hr Hv) as (q & t1 & Hcr & Hq).
  rewrite Hcr. destruct q as [pp|]; [|eexists; split; [done|by left]].
  destruct (Hq pp eq_refl) as (He & Hf & Hni).
  destruct (create_packed lazy_pages ((n + 1) / 2) None PP_CHUNK_MODE t pp t1 Hr Hv Hcr) as (_ & Hck & Hnh).
  destruct (Ho t1) as (t2 & ->). cbn [Mem.Mem.xf_parent Mem.Mem.local_engine parent]. fold hp.
  pose proof (sdump_start mem addr c n t2 pp ps (Z.of_nat (length (shm_pages env tracking si data hp addr 0 n))) He (Hck eq_refl) Hnh ltac:(lia) ltac:(lia) Hready Hps) as Hd.
  destruct (shm_loop_ok env lazy_pages mem addr c tracking si data hp fd n Hseek Hn HM Hmap (Z.to_nat n) 0 [] [] (-1)
    (mk_sst (t2, pp, ps, mk_loc [] empty_stream c) 0 0 0 0)) as (r & stop & s & -> & Hres); [lia|lia| | |by rewrite Z.sub_0_r|].
  { split; [intros q Hq1 Hq2; cbn in Hq2; lia|]. exists addr. split; [plia|]. by rewrite Z.sub_0_r. }
  { by destruct c; [|intros ? Hx; apply elem_of_nil in Hx]. }
  destruct s as [[[[t3 pp3] ps3] x3] nd nh p0 p1]. cbn [s_d pages0 pages1] in *.
  destruct Hres as [(-> & -> & Hal)|(-> & (_ & hi & Hhi & Hd3) & -> & ->)].
  { destruct Hal as [Hwf Hsame]. destruct (close_dump_ok sm pardirs ids c (shmid si) (-1) t3 pp3 ps3 x3 (0, 0, 0) Hready Hwf Hsame) as (R & x'' & -> & Hret & _).
    exists R. split; [done|]. by left. }
  rewrite Z.sub_0_r in Hd3. rewrite !app_nil_l in Hd3. pose proof (sdump_alive _ _ _ _ _ _ _ _ _ Hd3) as [Hwf _]. cbn [fst snd] in Hwf.
  destruct Hd3 as (its & P0 & H0 & P1 & H1 & lo & HP & HH & DA).
  assert (HMh : mapped_ok addr hi) by (destruct HM as (?&?&?); split_and!; [lia|lia|done|lia]).
  destruct (shm_dump_pages_ok mem addr c its P0 H0 P1 H1 lo hi _ _ t3 pp3 ps3 x3 HMh DA) as (r2 & t4 & ps4 & x4 & -> & Hr2).
  { rewrite HH in Hpar. by apply parent_has_app in Hpar as [_ Hpar]. }
  assert (Hsame : Forall2 same_img c (parent x4)).
  { destruct Hr2 as [[_ ->]|(_ & _ & I)]; [apply (im_parent _ _ _ _ _ _ _ _ (sd_imaged _ _ _ _ _ _ _ _ _ _ _ _ _ DA))|apply (im_parent _ _ _ _ _ _ _ _ I)]. }
  destruct (close_dump_ok sm pardirs ids c (shmid si) r2 t4 pp3 ps4 x4 (n, 0 + Z.of_nat (length (shm_holes env tracking si data hp addr 0 (n - 0))), 0 + Z.of_nat (length (shm_pages env tracking si data hp addr 0 (n - 0)))) Hready Hwf Hsame)
    as (R & x'' & -> & Hret & Hx & Ep & El & Hcn).
  exists R. split; [done|]. rewrite Hret. destruct Hr2 as [[-> _]|(-> & _ & I)]; [by left|right]. split; [done|].
  rewrite <-HP, <-HH in I. exists x'', (its ++ pp_items true pp3), hi, x4. split_and!; [done|done|done| |exact I|by rewrite Hcn, Z.sub_0_r]. fold n. lia.
Qed.


(** ** A segment of six pages: two with data, two unchanged since the parent snapshot *)
Definition demo_data (pfn : Z) : bool := (pfn =? 0) || (pfn =? 2).
Definition demo_shm_kernel : ShmKernel := {|
  k_seek_data := fun _ _ off =>
    let p := off / PAGE_SIZE in
    if demo_data p then SeekOff off else if p =? 1 then SeekOff (2 * PAGE_SIZE) else SeekNxio;
  k_seek_hole := fun _ _ off => SeekOff ((off / PAGE_SIZE + 1) * PAGE_SIZE);
  k_open_map_files := fun _ _ _ _ => Some 9;
  k_mmap := fun _ _ _ => Some (256 * PAGE_SIZE);
|}.
Definition demo_si : shmem_info := mk_si 42 7 (6 * PAGE_SIZE - 100) 0 0 [Z.lor (Z.shiftl PST_DUMP 6) (Z.shiftl PST_DUMP 10)].
Definition demo_shm_engine (id : Z) : Mem.Mem.xfer_engine loc_xfer :=
  @Mem.Mem.local_engine demo_xfer_kernel demo_read_kernel false demo_pardirs CR_FD_SHMEM_PAGEMAP id 0.
Definition demo_contents (fd off : Z) : Z := off mod 251.
Definition demo_shm_dump : res (shm_result loc_xfer) :=
  @do_dump_one_shmem (demo_kernel 1024) demo_splice_kernel demo_shm_kernel loc_xfer
    (@LocalXfer demo_xfer_kernel demo_read_kernel false) demo_page_env true false demo_contents demo_shm_engine
    9 (256 * PAGE_SIZE) demo_si 0%nat ∅.

Example demo_shm_dump_runs :
  exists R, demo_shm_dump = Done R /\ sr_ret R = 0 /\ sr_counts R = (6, 2, 2) /\ length <$> (pmi <$> sr_x R) = Some 4%nat.
Proof. apply run_Done. vm_compute. by split_and!. Qed.

Lemma demo_seeks : @seeks demo_shm_kernel 9 6 demo_data.
Proof.
  constructor.
  - intros t pfn Hp. cbn [k_seek_data demo_shm_kernel]. rewrite Z.div_mul by done.
    destruct (demo_data pfn) eqn:E; [rewrite Z.div_mul by done; split_and!; [lia|done|intros; lia]|].
    destruct (Z.eqb_spec pfn 1) as [->|Hne].
    + rewrite Z.div_mul by done. split_and!; [plia|done|]. intros q Hq. by replace q with 1 by lia.
    + intros q Hq. unfold demo_data in *. apply orb_false_iff in E as [E1%Z.eqb_neq E2%Z.eqb_neq].
      apply orb_false_iff. rewrite !Z.eqb_neq. lia.
  - intros t off Ho Hd. eexists. split; [reflexivity|]. rewrite Z.div_mul by done. split; [pdiv|].
    intros q Hq. by replace q with (off / PAGE_SIZE) by lia.
Qed.


(** ** What goes wrong *)

(** data in every other page of a segment of [n] pages and in its last page *)
Fixpoint find_page (f : Z -> bool) (k : nat) (i : Z) : option Z :=
  match k with
  | O => None
  | S k => if f i then Some i else find_page f k (i + 1)
  end.
Definition comb_data (n pfn : Z) : bool := (pfn mod 2 =? 0) || (pfn =? n - 1).
Definition comb_kernel (n : Z) (fails : clock -> bool) : ShmKernel := {|
  k_seek_data := fun t _ off =>
    if fails t then SeekFails
    else match find_page (comb_data n) (Z.to_nat (n - off / PAGE_SIZE)) (off / PAGE_SIZE) with
         | Some i => SeekOff (Z.max off (i * PAGE_SIZE))
         | None => SeekNxio
         end;
  k_seek_hole := fun _ _ off =>
    SeekOff (from_option (fun i => i * PAGE_SIZE) (n * PAGE_SIZE)
               (find_page (fun i => negb (comb_data n i)) (Z.to_nat (n - off / PAGE_SIZE)) (off / PAGE_SIZE)));
  k_open_map_files := fun _ _ _ _ => Some 9;
  k_mmap := fun _ _ _ => Some (2 ^ 20 * PAGE_SIZE);
|}.
Definition comb_dump (n : Z) (fails : clock -> bool) : res (shm_result loc_xfer) :=
  @do_dump_one_shmem (demo_kernel 1024) demo_splice_kernel (comb_kernel n fails) loc_xfer
    (@LocalXfer demo_xfer_kernel demo_read_kernel false) demo_page_env false false demo_contents
    (fun id => @Mem.Mem.local_engine demo_xfer_kernel demo_read_kernel false (fun _ _ => None) CR_FD_SHMEM_PAGEMAP id 0)
    9 (2 ^ 20 * PAGE_SIZE) (mk_si 5 42 (n * PAGE_SIZE) 0 0 []) 0%nat ∅.


(** an lseek(2) that fails after the first page was recorded leaves [ret] at the 0 of that page: the
    dump of a segment of nine pages, five with data, returns success and leaves an empty image. *)
Theorem shmem_seek_error_is_success :
  exists R, comb_dump 9 (fun t => 8 <? Z.of_nat t) = Done R /\ sr_ret R = 0 /\ sr_counts R = (0, 0, 0) /\
    length <$> (pmi <$> sr_x R) = Some 0%nat.
Proof. apply run_Done. vm_compute. by split_and!. Qed.
End ShmemDump.
