(* ===== verification/ShmemRestore.v ===== *)
(** * Restoring the contents of shared memory (criu/shmem.c: do_restore_shmem_content and its callers)

    The images of a segment are read entry by entry into a fresh mapping of it. *)
From S2P Require Import Prelude.
From S2P Require Import Vma.
From S2P Require Import PagePipe.
From S2P Require Import Pagemap.
From S2P Require Import PageXfer.
From S2P Require Import Drain.
From S2P Require Import Chunk.
From S2P Require Import Shmem.
From S2P Require Import Mem.
From S2P Require Import ShmemDump.
Import Vma.Vma PagePipe.PagePipe Pagemap.Pagemap PageXfer.PageXfer Drain.Drain Chunk.Chunk Shmem.Shmem ShmemDump.ShmemDump.

Module ShmemRestore.
Open Scope cmon_scope.

Section Content.
Context {RK : ReadKernel}.
Variables (auto_dedup partial_pages : bool).

(** the loop of [do_restore_shmem_content]; the result of [pr.read_pages] is not looked at.  Each
    turn advances by an entry, so that the number of entries bounds them; [depth], [iofuel]: of
    [read_pagemap_page]. *)
Fixpoint restore_loop (fuel depth iofuel : nat) (addr size : Z) : M rstate Z :=
  fun '(t, mem, chain) =>
    match fuel, chain with
    | S fuel, pr :: up =>
      let '(r, pr) := advance pr in
      if negb r then Done (0, (t, mem, pr :: up))
      else
        match pe pr with
        | None => Bug
        | Some e =>
          if size <? u64 (vaddr e + u64 (nr_pages e * PAGE_SIZE)) then Done (1, (t, mem, pr :: up))
          else
            match read_pagemap_page auto_dedup partial_pages None depth iofuel 0 (vaddr e) (nr_pages e) (u64 (addr + vaddr e)) (t, mem, pr :: up) with
            | Bug => Bug
            | NoFuel => NoFuel
            | Done (_, st) => restore_loop fuel depth iofuel addr size st
            end
        end
    | O, _ => NoFuel
    | _, [] => Bug
    end.

(** the result, the clock and the memory; [dirs]: the image directories of [open_page_read] *)
Definition do_restore_shmem_content (stream : bool) (dirs : list imgdir) (iofuel : nat) (addr size id ids : Z)
    (t : clock) (mem : Z -> Z) : res (Z * clock * (Z -> Z)) :=
  match open_page_read_at stream dirs id ids t with
  | Bug => Bug
  | NoFuel => NoFuel
  | Done (r, chain, _, t) =>
    if r <=? 0 then Done (-1, t, mem)
    else
      let fuel := match chain with pr :: _ => S (length (pmes pr)) | [] => O end in
      match restore_loop fuel (length chain) iofuel addr size (t, mem, chain) with
      | Bug => Bug
      | NoFuel => NoFuel
      | Done (r, (t, mem, chain)) =>
        match close_page_read t chain with
        | Bug => Bug
        | NoFuel => NoFuel
        | Done (t, _) => Done (r, t, mem)
        end
      end
  end.

Definition restore_shmem_content (stream : bool) (dirs : list imgdir) (iofuel : nat) (addr : Z) (si : shmem_info) (ids : Z)
    (t : clock) (mem : Z -> Z) : res (Z * clock * (Z -> Z)) :=
  do_restore_shmem_content stream dirs iofuel addr (size si) (shmid si) ids t mem.

Definition restore_sysv_shmem_content (stream : bool) (dirs : list imgdir) (iofuel : nat) (addr sz id ids : Z)
    (t : clock) (mem : Z -> Z) : res (Z * clock * (Z -> Z)) :=
  do_restore_shmem_content stream dirs iofuel addr (round_up sz PAGE_SIZE) id ids t mem.

(** a mapping of a new file of [sz] bytes reads as zeros; the result 1 is the initial [ret] *)
Definition restore_memfd_shmem_content (truncates : clock -> bool) (map : clock -> option Z) (stream : bool) (dirs : list imgdir) (iofuel : nat)
    (id sz ids : Z) (t : clock) : res (Z * clock * (Z -> Z)) :=
  if sz =? 0 then Done (0, t, fun _ => 0)
  else if negb (truncates t) then Done (1, S t, fun _ => 0)
  else
    match map (S t) with
    | None => Done (1, S (S t), fun _ => 0)
    | Some addr =>
      match do_restore_shmem_content stream dirs iofuel addr (round_up sz PAGE_SIZE) id ids (S (S t)) (fun _ => 0) with
      | Bug => Bug
      | NoFuel => NoFuel
      | Done (r, t, mem) => Done (if r <? 0 then 1 else 0, t, fun off => mem (addr + off))
      end
    end.
End Content.

(** ** Advancing entry by entry *)

(** [pr] is about to read the entry of index [k] *)
Definition before_entry (k : nat) (pr : page_read) : Prop :=
  pm_ok pr /\ async pr = [] /\ curr_pme pr = Z.of_nat k - 1 /\ pi_off pr = pages_off (take k (pmes pr)).

Lemma advance_entry k pr e :
  before_entry k pr -> pmes pr !! k = Some e ->
  exists pr', advance pr = (true, pr') /\ at_entry pr' k e /\ cvaddr pr' = vaddr e /\ curr_pme pr' = Z.of_nat k /\
    same_img pr pr' /\ level_ok (vaddr e) pr'.
Proof.
  intros (Hok & Ha & Hc & Ho) Hk. unfold advance. pose proof (lookup_lt_Some _ _ _ Hk) as Hlt.
  rewrite Hc, (proj2 (Z.leb_gt _ _)) by lia. replace (Z.to_nat (Z.of_nat k - 1 + 1)) with k by lia. rewrite Hk.
  eexists. split; [done|].
  assert (He : pe_ok e) by (destruct Hok as [Hf _]; by eapply Forall_lookup_1). pose proof (pe_ok_lt e He).
  assert (Hat : at_entry (set_pos pr (Some e) (vaddr e) (pi_off pr) (Z.of_nat k - 1 + 1)) k e).
  { unfold at_entry. cbn. split_and!; try done; try lia. rewrite Ho. destruct (pagemap_present e); lia. }
  split_and!; try done; [cbn; lia|]. unfold level_ok. split_and!; try done. by eapply at_entry_pos.
Qed.

Lemma advance_end k pr :
  before_entry k pr -> (length (pmes pr) <= k)%nat -> exists pr', advance pr = (false, pr') /\ async pr' = [] /\ bunch pr' = bunch pr.
Proof.
  intros (Hok & Ha & Hc & Ho) Hk. unfold advance. rewrite Hc, (proj2 (Z.leb_le _ _)) by lia. eexists. split; [done|]. done.
Qed.

(** a read leaves the top level in its entry, at the address after the pages read *)
Lemma read_page_head {RK : ReadKernel} pp depth iofuel va nr buf t mem pr up t' mem' chain' :
  Forall (fun p => async p = []) (pr :: up) ->
  read_pagemap_page false pp None depth iofuel 0 va nr buf (t, mem, pr :: up) = Done (1, (t', mem', chain')) ->
  exists pr' up', chain' = pr' :: up' /\ pe pr' = pe pr /\ curr_pme pr' = curr_pme pr /\
    cvaddr pr' = u64 (cvaddr pr + nr * PAGE_SIZE).
Proof.
  intros Ha. destruct depth as [|depth]; [done|]. cbn [read_pagemap_page]. destruct (pe pr) as [e|] eqn:Hpe; [|done].
  destruct (negb (pagemap_bound_check e va nr)); [done|]. destruct (pagemap_in_parent e).
  - destruct (parent_loop _ _ _ _ _ _) as [[r [[t1 m1] up1]]| |]; [|done|done].
    destruct (r <? 0); [done|]. intros [= <- <- <-]. eexists _, _. split; [done|]. done.
  - unfold maybe_read_page_local. change (Z.land 0 (Z.lor PR_ASYNC PR_ASAP) =? PR_ASYNC) with false. cbn iota.
    unfold read_local_page. rewrite process_async_idle by done. change (0 <? 0) with false.
    destruct (pread_loop _ _ _ _ _ _ _ _) as [[[r t1] m1]| |]; [|intros H; by cbn in H|intros H; by cbn in H].
    cbn zeta. intros H. assert (Hc : (if r <? 0 then @Done (Z * rstate) (-1, (t1, m1, pr :: up)) else Done (0, (t1, m1, pr :: up))) =
      Done (if r <? 0 then -1 else 0, (t1, m1, pr :: up))) by (by destruct (r <? 0)).
    destruct (r <? 0); cbn in H; [done|]. injection H as <- <- <-. eexists _, _. split; [done|]. done.
Qed.

(** ** The whole image *)
Section RestoreOk.
Context {RK : ReadKernel} `{!ReadKernelOk RK} `{!ReadKernelLive RK}.
Variables (partial_pages : bool).

(** [mem'] is [mem] with the bytes of the entries from index [k] on, at [addr] *)
Definition filled (k : nat) (chain : list page_read) (addr : Z) (mem mem' : Z -> Z) : Prop :=
  match chain with
  | [] => True
  | pr :: _ =>
    (forall i e a, (k <= i)%nat -> pmes pr !! i = Some e -> covers e a -> ref_byte chain a = Some (mem' (addr + a))) /\
    (forall b, (forall i e, (k <= i)%nat -> pmes pr !! i = Some e -> ~ covers e (b - addr)) -> mem' b = mem b)
  end.

Lemma restore_loop_ok size addr iofuel n : forall k t mem pr up,
  before_entry k pr -> (forall e, pmes pr !! k = Some e -> Forall (level_ok (vaddr e)) up) -> Forall (fun p => async p = []) up ->
  n = (length (pmes pr) - k)%nat -> 0 <= addr -> addr + size < 2 ^ 63 -> 
  (forall e, e ∈ pmes pr -> pe_end e <= size) -> all_resolvable (pr :: up) ->
  (Z.to_nat size <= iofuel)%nat ->
  exists t' mem' chain',
    restore_loop false partial_pages (S n) (length (pr :: up)) iofuel addr size (t, mem, pr :: up) = Done (0, (t', mem', chain')) /\
    Forall (fun p => async p = []) chain' /\ filled k (pr :: up) addr mem mem'.
Proof.
  induction n as [|n IH]; intros k t mem pr up Hb Hup Hua Hn Ha Hs Hend Hres Hio; cbn [restore_loop].
  { destruct (advance_end k pr Hb ltac:(lia)) as (pr' & -> & Hpa & _). cbn [negb]. eexists _, _, _. split; [done|].
    split; [by constructor|]. split; [|done]. intros i e a Hi Hl. apply lookup_lt_Some in Hl. lia. }
  destruct (lookup_lt_is_Some_2 (pmes pr) k) as [e Hk]; [lia|].
  destruct (advance_entry k pr e Hb Hk) as (pr1 & -> & Hat & Hcv & Hcur & Hsame & Hlev). cbn [negb].
  pose proof Hat as (Hpe & _). rewrite Hpe.
  pose proof Hb as (Hok & Hpa & _). assert (He : pe_ok e) by (destruct Hok as [Hf _]; by eapply Forall_lookup_1).
  pose proof He as (E1 & E2 & E3 & E4 & _). assert (Hin : e ∈ pmes pr) by (by eapply list_elem_of_lookup_2).
  pose proof (Hend e Hin) as Hle. unfold pe_end in *.
  rewrite (u64_id (nr_pages e * PAGE_SIZE)), u64_id, (proj2 (Z.ltb_ge _ _)), u64_id by plia.
  assert (Hsc : Forall2 same_img (pr :: up) (pr1 :: up)) by (constructor; [done|apply same_chain_refl]).
  destruct (read_pagemap_page_ok partial_pages 0 (length (pr1 :: up)) iofuel ltac:(vm_compute; congruence) t mem pr1 up (vaddr e) (nr_pages e) (addr + vaddr e) k e)
    as (t1 & m1 & c1 & Hrd & P1 & P2 & P3 & P4); try done; try plia.
  { constructor; [done|by apply Hup]. }
  { intros a Haa. rewrite (ref_byte_same _ _ _ Hsc). by apply (Hres e). }
  change (length (pr :: up)) with (length (pr1 :: up)). rewrite Hrd.
  destruct (read_page_head _ _ _ _ _ _ _ _ _ _ _ _ _ (Forall_cons_2 _ _ _ (proj1 (proj2 (proj2 Hlev))) Hua) Hrd) as (pr2 & up2 & -> & H1 & H2 & H3).
  inversion P1 as [|? ? ? ? S1 S2]; subst. inversion P2 as [|? ? L1 L2]; subst.
  rewrite Hcv, u64_id in H3 by plia.
  assert (Hpm : pmes pr2 = pmes pr) by (destruct S1 as (-> & _), Hsame as (-> & _); done).
  assert (Hb2 : before_entry (S k) pr2).
  { destruct L1 as (L1 & L1p & L1a & _). split_and!; [done|done|lia|].
    destruct L1p as [(Hn1 & _)|(k' & e' & Hat')]; [congruence|]. destruct Hat' as (A1 & A2 & _ & _ & A5).
    rewrite H1, Hpe in A1. injection A1 as <-. rewrite Hpm in *.
    assert (k' = k) as -> by (destruct Hok; by eapply pm_sorted_lookup_inj).
    rewrite A5, (pages_off_snoc _ _ _ Hk), H3. unfold present_bytes. destruct (pagemap_present e); lia. }
  assert (Hsc2 : Forall2 same_img (pr :: up) (pr2 :: up2)) by (eapply same_chain_trans; [exact Hsc|exact P1]).
  assert (Hlen : length (pr2 :: up2) = length (pr1 :: up)) by (symmetry; by eapply list.Forall2_length).
  destruct (IH (S k) t1 m1 pr2 up2 Hb2) as (t' & mem' & chain' & Hl & Hca & F1 & F2); try done.
  { intros d Hd. rewrite Hpm in Hd. eapply Forall_impl; [|exact L2]. intros p. apply level_ok_mono.
    destruct Hok. by apply (pm_sorted_before (pmes pr) k (S k)); [..|lia|done|done]. }
  { eapply Forall_impl; [|exact L2]. by intros p (_ & _ & ? & _). }
  { rewrite Hpm. lia. }
  { by rewrite Hpm. }
  { cbn. rewrite Hpm. intros d Hd a Haa. rewrite (ref_byte_same _ _ _ Hsc2). by apply (Hres d). }
  rewrite Hlen in Hl. exists t', mem', chain'. split; [exact Hl|]. split; [done|]. rewrite Hpm in F1, F2. split.
  - intros i d a Hi Hd Hc. destruct (Nat.eq_dec i k) as [->|Hne].
    + assert (d = e) as -> by congruence. rewrite <-(ref_byte_same _ _ a Hsc), P3 by (unfold covers, pe_end in Hc; lia).
      f_equal. rewrite F2; [f_equal; lia|]. intros j d Hj Hd' Hc'. destruct Hok as [O1 O2].
      pose proof (pm_sorted_before (pmes pr) k j e d O1 O2 ltac:(lia) Hk Hd'). unfold covers, pe_end in *. lia.
    + rewrite <-(ref_byte_same _ _ a Hsc2). by apply (F1 i d); [lia|..].
  - intros b Hbb. rewrite F2 by (intros i d Hi; apply Hbb; lia). apply P4. intros Hx. apply (Hbb k e); [lia|done|].
    unfold covers, pe_end. lia.
Qed.
End RestoreOk.

(** *** Opening the images *)
Lemma init_loop_live {RK : ReadKernel} l acc cap step t :
  (forall t, k_xmalloc t = true) -> 1 <= step -> Z.of_nat (length acc) < cap ->
  exists t', init_loop l acc cap step t = Done (Some (acc ++ (init_compat_pagemap_entry <$> l)), t').
Proof.
  intros Hm Hs. revert acc cap t. induction l as [|e l IH]; intros acc cap t Hc; cbn [init_loop]; rewrite (proj2 (Z.leb_gt _ _)) by lia.
  { eexists. by rewrite app_nil_r. }
  assert (Hl : Z.of_nat (length (acc ++ [init_compat_pagemap_entry e])) = Z.of_nat (length acc) + 1) by (rewrite length_app; simpl; lia).
  rewrite Hm, fmap_cons, (cons_middle _ acc (init_compat_pagemap_entry <$> l)), app_assoc.
  destruct (Z.leb_spec cap (Z.of_nat (length (acc ++ [init_compat_pagemap_entry e])))); apply IH; lia.
Qed.

(** one directory without a parent *)
Lemma open_images_ok {RK : ReadKernel} fsize l pages id ids t :
  (forall t, k_xmalloc t = true) -> PAGEMAP_ENTRY_SIZE_ESTIMATE <= fsize ->
  exists t', open_page_read_at false [Images fsize l pages] id ids t =
    Done (1, [mk_pr None 0 0 (mk_iovec 0 0) (init_compat_pagemap_entry <$> l) (-1) [] pages ids id], ids + 1, t').
Proof.
  intros Hm Hf. cbn [open_page_read_at]. change (negb (0 =? 0)) with false. cbn iota. unfold init_pagemaps, PAGEMAP_ENTRY_SIZE_ESTIMATE in *.
  rewrite (proj2 (Z.ltb_ge _ _)) by lia. rewrite Hm. cbn [negb].
  assert (1 <= fsize / 16) by (apply Z.div_le_lower_bound; lia).
  destruct (init_loop_live l [] (fsize / 16 + 1) ((fsize / 16 + 1) / 2) (S t) Hm) as [t' ->];
    [apply Z.div_le_lower_bound; lia|simpl; lia|]. eauto.
Qed.

Lemma restore_content_ok {RK : ReadKernel} `{!ReadKernelOk RK} `{!ReadKernelLive RK} pp dirs iofuel addr size id ids t mem pr up ids' t1 :
  open_page_read_at false dirs id ids t = Done (1, pr :: up, ids', t1) ->
  before_entry 0 pr -> Forall (level_ok 0) up -> 0 <= addr -> addr + size < 2 ^ 63 ->
  (forall e, e ∈ pmes pr -> pe_end e <= size) -> all_resolvable (pr :: up) -> (Z.to_nat size <= iofuel)%nat ->
  exists t' mem', do_restore_shmem_content false pp false dirs iofuel addr size id ids t mem = Done (0, t', mem') /\
    (forall off, 0 <= off < size -> mem' (addr + off) = default (mem (addr + off)) (ref_byte (pr :: up) off)) /\
    (forall b, ~ (addr <= b < addr + size) -> mem' b = mem b).
Proof.
  intros Ho Hb Hup Ha Hs Hend Hres Hio. unfold do_restore_shmem_content. rewrite Ho. change (1 <=? 0) with false. cbn iota.
  pose proof Hb as ((Hf & Hso) & _). rewrite list.Forall_forall in Hf.
  destruct (restore_loop_ok pp size addr iofuel (length (pmes pr)) 0%nat t1 mem pr up Hb) as (t' & mem' & chain' & -> & Hca & F1 & F2); try done.
  { intros e He. eapply Forall_impl; [|exact Hup]. intros p. apply level_ok_mono.
    apply Hf. by eapply list_elem_of_lookup_2. }
  { eapply Forall_impl; [|exact Hup]. by intros p (_ & _ & ? & _). }
  { lia. }
  destruct (close_page_read_ok t' chain' Hca) as (t2 & c2 & ->). eexists _, _. split; [done|]. split.
  - intros off Hoff. destruct (ref_byte (pr :: up) off) as [v|] eqn:E; cbn.
    + destruct (resolvable_covers pr up off) as (d & Hd & Hc); [by rewrite E|]. apply list_elem_of_lookup in Hd as [i Hi].
      rewrite (F1 i d off) in E by (lia || done). by injection E.
    + apply F2. intros i e _ Hi Hc. replace (addr + off - addr) with off in Hc by lia.
      destruct (Hres e (list_elem_of_lookup_2 _ _ _ Hi) off) as [v Hv]; [unfold covers, pe_end in Hc; lia|congruence].
  - intros b Hbb. apply F2. intros i e _ Hi Hc. apply Hbb. pose proof (list_elem_of_lookup_2 _ _ _ Hi) as Hin.
    specialize (Hend e Hin). destruct (Hf e Hin) as (? & _). unfold covers in Hc. lia.
Qed.

(** restoring the contents of a shared segment ends with 0, and every byte of the segment is the one the
    chain of snapshots has for it, or is left as it was where the snapshots have none; nothing outside the
    segment is written. *)
Theorem do_restore_shmem_content_spec {RK : ReadKernel} `{!ReadKernelOk RK} `{!ReadKernelLive RK} pp dirs iofuel addr size id ids t mem pr up ids' t1 :
  open_page_read_at false dirs id ids t = Done (1, pr :: up, ids', t1) ->
  before_entry 0 pr -> Forall (level_ok 0) up -> 0 <= addr -> addr + size < 2 ^ 63 ->
  (forall e, e ∈ pmes pr -> pe_end e <= size) -> all_resolvable (pr :: up) -> (Z.to_nat size <= iofuel)%nat ->
  exists t' mem', do_restore_shmem_content false pp false dirs iofuel addr size id ids t mem = Done (0, t', mem') /\
    (forall off, 0 <= off < size -> mem' (addr + off) = default (mem (addr + off)) (ref_byte (pr :: up) off)) /\
    (forall b, ~ (addr <= b < addr + size) -> mem' b = mem b).
Proof. intros. by eapply restore_content_ok. Qed.

(** ** Dump and restore *)
Lemma no_parent_pages env si data addr i n :
  shm_holes env false si data false addr i n = [] /\ forall p, shm_page_at env false si data false p = data p.
Proof.
  assert (Hs : forall p, shm_state false si data p = if data p then PST_DIRTY else PST_ZERO).
  { intros p. unfold shm_state. by rewrite andb_false_r. }
  split.
  - apply elem_of_nil_inv. intros a (p & _ & _ & Hp)%elem_of_shm_addrs. unfold shm_hole_at in Hp. by rewrite andb_false_r in Hp.
  - intros p. unfold shm_page_at. rewrite Hs. by destruct (data p).
Qed.

(** images without holes can be read entirely *)
Lemma imaged_resolvable offset mem c its P hi x ids id :
  0 <= offset < 2 ^ 62 -> aligned offset -> imaged offset mem c its P [] hi x ->
  let pr := mk_pr None 0 0 (mk_iovec 0 0) (init_compat_pagemap_entry <$> pmi x) (-1) [] (s_data (lpi x)) ids id in
  before_entry 0 pr /\ all_resolvable [pr] /\ (forall e, e ∈ pmes pr -> pe_end e <= hi - offset) /\
  forall b, ref_byte [pr] b = ref_byte [image_reader x] b.
Proof.
  intros Ho Hao I pr. pose proof I as [I1 I2 I3 I4 I5 I6 I7 I8 _ _ _]. destruct (imaged_read _ _ _ _ _ _ _ _ I) as (Hok & _ & _).
  assert (Hpm : pmes pr = item_entry offset <$> its) by (cbn [pr pmes]; by rewrite I4, init_compat_items).
  split_and!; [split_and!; done| | |done].
  - intros e He. rewrite Hpm in He. apply list_elem_of_fmap in He as (i & -> & Hi). intros a Ha.
    rewrite list.Forall_forall in I1. pose proof (I1 i Hi) as (K1 & K2 & K3 & K4 & K5 & _).
    destruct (item_entry_ok offset i (I1 i Hi)) as [_ Hend]. unfold pe_end in Hend. cbn in Hend, Ha.
    assert (Hab : iov_base (item_iov i) <= a + offset < iov_base (item_iov i) + iov_len (item_iov i)) by lia.
    change (is_Some (ref_byte [image_reader x] a)). replace a with (a + offset - offset) by lia.
    rewrite (ref_byte_item offset mem its x [] i); try done; [|by rewrite list.Forall_forall].
    assert (Hio : iov_ok (item_iov i)) by (split_and!; [lia|lia|lia|pdiv|done]).
    destruct (page_of (item_iov i) (a + offset) Hio Hab) as (p & Hp & Hpb). pose proof (I8 i p Hi Hp) as HP.
    rewrite app_nil_r in HP. destruct (I6 p HP) as (s & Hs & Hpr & Hsok & Hps).
    assert (Hsb : iov_base (sg_iov s) <= a + offset < iov_base (sg_iov s) + iov_len (sg_iov s)).
    { apply elem_of_iov_pages in Hps as [? ?]; [|done]. destruct Hsok as (?&?&?&?&?). pdiv. }
    pose proof (ref_byte_item offset mem its x [] (ISeg s) (a + offset) ltac:(by rewrite list.Forall_forall) I2 I4 I5 Hs Hsb) as E1.
    pose proof (ref_byte_item offset mem its x [] i (a + offset) ltac:(by rewrite list.Forall_forall) I2 I4 I5 Hi Hab) as E2.
    destruct (I1 _ Hs) as (_ & _ & _ & _ & _ & Hnp). cbn [item_flags] in E1. rewrite Hnp, Hpr in E1. rewrite <-E2, E1. eauto.
  - intros e He. rewrite Hpm in He. apply list_elem_of_fmap in He as (i & -> & Hi). rewrite list.Forall_forall in I1, I3.
    destruct (item_entry_ok offset i (I1 i Hi)) as [_ ->]. specialize (I3 i Hi). unfold item_end in I3. lia.
Qed.


(** ** Examples *)
Lemma do_restore_shmem_content_witness :
  exists t' mem', @do_restore_shmem_content demo_read_kernel false false false [Images 64 (pmes demo_parent) (pi demo_parent)]
      (Z.to_nat (64 * PAGE_SIZE)) (1000 * PAGE_SIZE) (64 * PAGE_SIZE) 42 0 0%nat (fun _ => 0) = Done (0, t', mem') /\
    (forall off, 0 <= off < 64 * PAGE_SIZE -> mem' (1000 * PAGE_SIZE + off) = default 0 (ref_byte [demo_server_parent] off)) /\
    (forall b, ~ (1000 * PAGE_SIZE <= b < 1000 * PAGE_SIZE + 64 * PAGE_SIZE) -> mem' b = 0).
Proof.
  destruct (demo_parent_ok 0 ltac:(lia)) as (Hok & _).
  apply (@do_restore_shmem_content_spec demo_read_kernel _ _ false [Images 64 (pmes demo_parent) (pi demo_parent)]
    (Z.to_nat (64 * PAGE_SIZE)) (1000 * PAGE_SIZE) (64 * PAGE_SIZE) 42 0 0%nat (fun _ => 0) demo_server_parent [] 1 1%nat).
  - reflexivity.
  - split_and!; try reflexivity. exact Hok.
  - apply Forall_nil_2.
  - vm_compute. congruence.
  - vm_compute. reflexivity.
  - intros e He. change (pmes demo_server_parent) with (pmes demo_parent) in He. unfold demo_parent in He. cbn [pmes] in He.
    rewrite !elem_of_cons, elem_of_nil in He. intuition subst; vm_compute; congruence.
  - apply present_resolvable; [exact Hok|]. repeat constructor.
  - reflexivity.
Defined.

Definition demo_sparse (fd off : Z) : Z := if demo_data (off / PAGE_SIZE) then off mod 251 else 0.


(** the images of a segment of two pages whose parent snapshot is missing: the second page is in the parent *)
Definition orphan_images : list imgdir := [Images 64 [page 0 1 PE_PRESENT; page 1 1 PE_PARENT] (fun _ => 5)].
(** an image with an entry beyond the end of a segment of two pages, and one after it *)
Definition oversized_images : list imgdir := [Images 64 [page 0 3 PE_PRESENT; page 8 1 PE_PRESENT] (fun _ => 5)].

(** a page that cannot be read, here because its parent snapshot is missing, is not noticed: the result of
    reading it is dropped, and the restore returns 0 with that page left as zeros. *)
Theorem restore_drops_read_errors :
  match @do_restore_shmem_content demo_read_kernel false false false orphan_images (Z.to_nat (2 * PAGE_SIZE)) (1000 * PAGE_SIZE) (2 * PAGE_SIZE) 42 0 0%nat (fun _ => 0) with
  | Done (r, _, mem) => r = 0 /\ mem (1000 * PAGE_SIZE) = 5 /\ mem (1001 * PAGE_SIZE) = 0
  | _ => False
  end.
Proof. vm_compute. done. Qed.

(** an entry that does not fit ends the restore with 1, which the callers, who test for a negative
    result, take for success *)
Theorem oversized_entry_ends_restore :
  match @do_restore_shmem_content demo_read_kernel false false false oversized_images (Z.to_nat (2 * PAGE_SIZE)) (1000 * PAGE_SIZE) (2 * PAGE_SIZE) 42 0 0%nat (fun _ => 0) with
  | Done (r, _, mem) => r = 1 /\ mem (1000 * PAGE_SIZE) = 0
  | _ => False
  end /\
  match @restore_memfd_shmem_content demo_read_kernel false false (fun _ => true) (fun _ => Some (1000 * PAGE_SIZE)) false oversized_images (Z.to_nat (2 * PAGE_SIZE)) 42 (2 * PAGE_SIZE) 0 0%nat with
  | Done (r, _, mem) => r = 0 /\ mem 0 = 0
  | _ => False
  end.
Proof. vm_compute. done. Qed.
End ShmemRestore.
