(* ===== verification/Restorer.v ===== *)
(** * The restorer: private memory at its final place (criu/pie/restorer.c)

    What [__export_restore_task] does with memory: everything but the restorer and the temporary places of the private
    areas is unmapped; the areas are moved to their addresses, first those that go down, then those that go up; the other
    areas are mapped; the contents left to be read are read; the protections are set. *)
From S2P Require Import Prelude.
From S2P Require Import Vma.
From S2P Require Import AddrSpace.
From S2P Require Import Pagemap.
From S2P Require Import MemRestore.

Module Restorer.
Export MemRestore.

(** ** Data *)

(** an entry with the descriptor that [vm_open] gave it *)
Record rst_vma := mk_rv { rv_e : VmaEntry; rv_fd : Z }.

Definition vma_premmaped_start (e : VmaEntry) : Z := v_shmid e.

(** [struct task_restore_args], the fields that are used here *)
Record restore_args := mk_ra {
  ra_uffd : Z;
  ra_has_thp_enabled : bool;
  ra_vmas : list rst_vma;
  ra_vmas_n : nat;
  ra_vma_ios : list restore_vma_io;
  ra_task_size : Z;
  ra_premmapped_addr : Z;
  ra_premmapped_len : Z;
  ra_bootstrap_start : Z;
  ra_bootstrap_len : Z;
  ra_auto_dedup : bool;
}.

Definition PROT_EXEC : Z := 4.
Definition SHM_RDONLY : Z := 0x1000.
Definition SYSV_SHMEM_SKIP_FD : Z := 0x7fffffff.

(** The other system calls: UFFDIO_REGISTER, shmat(2) (its answer, the length of the segment and its contents), prctl(2),
    preadv(2) into memory, fallocate(2) *)
Class RstKernel := {
  k_uffd_register : clock -> Z;
  k_shmat : clock -> aspace -> Z -> Z -> Z -> Z;
  k_shm_len : Z -> Z;
  k_shm_content : clock -> Z -> Z -> Z;
  k_prctl : clock -> Z;
  k_read_into : clock -> aspace -> list iovec -> Z;
  k_punch : clock -> Z;
}.

Section Ops.
Context {MK : MmKernel} {RK : RstKernel}.

(** ** Making room *)
Definition unmap_old_vmas (premmapped_addr premmapped_len bootstrap_start bootstrap_len task_size : Z) (st : astate) : Z * astate :=
  let '(p1, s1, p2, s2) :=
    if premmapped_addr <? bootstrap_start then (premmapped_addr, premmapped_len, bootstrap_start, bootstrap_len)
    else (bootstrap_start, bootstrap_len, premmapped_addr, premmapped_len) in
  let (r, st) := sys_munmap 0 p1 st in
  if negb (r =? 0) then (-1, st)
  else
    let (r, st) := sys_munmap (u64 (p1 + s1)) (u64 (p2 - u64 (p1 + s1))) st in
    if negb (r =? 0) then (-1, st)
    else
      let (r, st) := sys_munmap (u64 (p2 + s2)) (u64 (task_size - u64 (p2 + s2))) st in
      if negb (r =? 0) then (-1, st) else (0, st).

(** ** Moving an area *)
Definition enable_uffd (uffd : Z) (t : clock) : Z * clock :=
  if uffd =? -1 then (0, t)
  else if negb (k_uffd_register t =? 0) then (-1, S t) else (0, S t).

(** the move itself, and the registration of the pages to come *)
Definition remap_final (e : VmaEntry) (uffd src dst len : Z) (st : astate) : Z * astate :=
  let (tmp, st) := sys_mremap src len dst st in
  if negb (tmp =? dst) then (-1, st)
  else if vma_entry_can_be_lazy e then
    let (r, t) := enable_uffd uffd (fst st) in (if negb (r =? 0) then -1 else 0, (t, snd st))
  else (0, st).

Definition vma_remap (e : VmaEntry) (uffd : Z) (st : astate) : Z * astate :=
  let src := vma_premmaped_start e in
  let dst := v_start e in
  let len := vma_entry_len e in
  let guard := if u64 (src - dst) <? len then dst
               else if u64 (dst - src) <? len then u64 (dst + len - PAGE_SIZE) else 0 in
  if src =? dst then (0, st)
  else if negb (guard =? 0) then
    let (tmp, st) := sys_mmap guard PAGE_SIZE PROT_NONE (Z.lor MAP_PRIVATE MAP_ANONYMOUS) st in
    if negb (tmp =? guard) then (-1, st)
    else
      let (addr, st) := sys_mmap 0 len PROT_NONE (Z.lor MAP_PRIVATE MAP_ANONYMOUS) st in
      if addr =? MAP_FAILED then (-1, st)
      else
        let (tmp, st) := sys_mremap src len addr st in
        if negb (tmp =? addr) then (-1, st) else remap_final e uffd addr dst len st
  else remap_final e uffd src dst len st.

(** ** Moving all areas *)

(** [n] areas from the area [i] on *)
Fixpoint shift_left (n i : nat) (args : restore_args) (st : astate) : res (Z * astate) :=
  match n with
  | O => Done (0, st)
  | S n =>
    let* v := deref (ra_vmas args !! i) in
    let e := rv_e v in
    if negb (vma_entry_is e VMA_PREMMAPED) then shift_left n (S i) args st
    else if ra_task_size args <=? v_end e then shift_left n (S i) args st
    else if v_shmid e <? v_start e then Done (0, st)
    else
      let (r, st) := vma_remap e (ra_uffd args) st in
      if negb (r =? 0) then Done (-1, st) else shift_left n (S i) args st
  end.

(** from the area [n - 1] down *)
Fixpoint shift_right (n : nat) (args : restore_args) (st : astate) : res (Z * astate) :=
  match n with
  | O => Done (0, st)
  | S n =>
    let* v := deref (ra_vmas args !! n) in
    let e := rv_e v in
    if negb (vma_entry_is e VMA_PREMMAPED) then shift_right n args st
    else if ra_task_size args <? v_start e then shift_right n args st
    else if v_start e <? v_shmid e then Done (0, st)
    else
      let (r, st) := vma_remap e (ra_uffd args) st in
      if negb (r =? 0) then Done (-1, st) else shift_right n args st
  end.

(** ** Mapping the other areas *)
Definition sys_shmat (fd addr flags : Z) (st : astate) : Z * astate :=
  let (t, s) := st in
  let r := k_shmat t s fd addr flags in
  (r, (S t, if IS_ERR r then s
            else map_at s r (k_shm_len fd) (if has flags SHM_RDONLY then PROT_READ else Z.lor PROT_READ PROT_WRITE) (k_shm_content t fd))).

Definition set_prot (v : rst_vma) (p : Z) : rst_vma :=
  let e := rv_e v in
  mk_rv (mk_vma (v_start e) (v_end e) (v_pgoff e) (v_shmid e) p (v_flags e) (v_status e)) (rv_fd v).

(** the flags and the protection of the mapping *)
Definition mapping_flags (v : rst_vma) : Z :=
  let e := rv_e v in
  let flags := Z.lor (v_flags e) MAP_FIXED in
  let flags := if vma_entry_is e VMA_ANON_SHARED && negb (rv_fd v =? -1) then Z.ldiff flags MAP_ANONYMOUS else flags in
  if vma_entry_is e VMA_AREA_AIORING then Z.lor flags MAP_ANONYMOUS else flags.
Definition mapping_prot (v : rst_vma) : Z :=
  let e := rv_e v in
  if ((rv_fd v =? -1) || negb (has (v_flags e) MAP_SHARED)) && negb (has (v_status e) VMA_NO_PROT_WRITE)
  then Z.lor (v_prot e) PROT_WRITE else v_prot e.

Definition restore_mapping (v : rst_vma) (st : astate) : Z * rst_vma * astate :=
  let e := rv_e v in
  if vma_entry_is e VMA_AREA_SYSVIPC then
    if rv_fd v =? SYSV_SHMEM_SKIP_FD then (v_start e, v, st)
    else
      let '(att_flags, v) := if has (v_prot e) PROT_EXEC then (0, set_prot v (Z.ldiff (v_prot e) PROT_EXEC)) else (SHM_RDONLY, v) in
      let (a, st) := sys_shmat (rv_fd v) (v_start e) att_flags st in (a, v, st)
  else
    let (a, st) := sys_mmap (v_start e) (vma_entry_len e) (mapping_prot v) (mapping_flags v) st in (a, v, st).

(** the entries [i] to [i + n - 1]; the entries are part of the result *)
Fixpoint map_areas (n i : nat) (vmas : list rst_vma) (st : astate) : res (Z * list rst_vma * astate) :=
  match n with
  | O => Done (0, vmas, st)
  | S n =>
    let* v := deref (vmas !! i) in
    let e := rv_e v in
    if negb (vma_entry_is e VMA_AREA_REGULAR) && negb (vma_entry_is e VMA_AREA_AIORING) then map_areas n (S i) vmas st
    else if vma_entry_is e VMA_PREMMAPED then map_areas n (S i) vmas st
    else
      let '(va, v, st) := restore_mapping v st in
      let vmas := <[i := v]> vmas in
      if negb (va =? v_start (rv_e v)) then Done (-1, vmas, st) else map_areas n (S i) vmas st
  end.

(** ** Reading what was left to be read *)

(** the iovecs that remain after [r] bytes *)
Fixpoint rio_advance (l : list iovec) (r : Z) : list iovec :=
  match l with
  | [] => []
  | v :: l => if iov_len v <=? r then rio_advance l (r - iov_len v) else mk_iovec (iov_base v + r) (iov_len v - r) :: l
  end.

(** [pages]: the image; the fuel: a turn per read *)
Fixpoint read_rio (fuel : nat) (dedup : bool) (iovs : list iovec) (off : Z) (pages : Z -> Z) (st : astate) : res (Z * (Z -> Z) * astate) :=
  match iovs with
  | [] => Done (0, pages, st)
  | _ =>
    match fuel with
    | O => NoFuel
    | S fuel =>
      let (t, s) := st in
      let r := k_read_into t s iovs in
      if r <? 0 then Done (-1, pages, (S t, s))
      else
        let s := set_mem s (scatter (as_mem s) iovs pages off r) in
        let '(pages, t) := if (0 <? r) && dedup
                           then (if k_punch (S t) <? 0 then pages else fun i => if within off r i then 0 else pages i, S (S t))
                           else (pages, S t) in
        read_rio fuel dedup (rio_advance iovs r) (off + r) pages (t, s)
    end
  end.

Fixpoint read_vma_ios (fuel : nat) (dedup : bool) (ios : list restore_vma_io) (pages : Z -> Z) (st : astate) : res (Z * (Z -> Z) * astate) :=
  match ios with
  | [] => Done (0, pages, st)
  | rio :: ios =>
    let* (r, pages, st) := read_rio fuel dedup (rio_iovs rio) (rio_off rio) pages st in
    if r <? 0 then Done (-1, pages, st) else read_vma_ios fuel dedup ios pages st
  end.

(** ** Protections and advice *)
Fixpoint drop_prot_write (vmas : list rst_vma) (st : astate) : astate :=
  match vmas with
  | [] => st
  | v :: vmas =>
    let e := rv_e v in
    if negb (vma_entry_is e VMA_AREA_REGULAR) then drop_prot_write vmas st
    else if has (v_prot e) PROT_WRITE || has (v_status e) VMA_NO_PROT_WRITE then drop_prot_write vmas st
    else drop_prot_write vmas (snd (sys_mprotect (v_start e) (vma_entry_len e) (v_prot e) st))
  end.

(** ** The memory part of the restorer

    The vdso is mapped before and changed after the areas are restored. *)
Variables (map_vdso vdso_proxify : astate -> Z * astate).

Definition restore_areas (fuel : nat) (args : restore_args) (pages : Z -> Z) (st : astate) : res (Z * list rst_vma * (Z -> Z) * astate) :=
  let* (r, st) := shift_left (ra_vmas_n args) 0 args st in
  if negb (r =? 0) then Done (-1, ra_vmas args, pages, st)
  else
    let* (r, st) := shift_right (ra_vmas_n args) args st in
    if negb (r =? 0) then Done (-1, ra_vmas args, pages, st)
    else
      let thp := (-1 <? ra_uffd args) && ra_has_thp_enabled args in
      if thp && negb (k_prctl (fst st) =? 0) then Done (-1, ra_vmas args, pages, (S (fst st), snd st))
      else
        let* (r, vmas, st) := map_areas (ra_vmas_n args) 0 (ra_vmas args) (if thp then S (fst st) else fst st, snd st) in
        if negb (r =? 0) then Done (-1, vmas, pages, st)
        else
          let* (r, pages, st) := read_vma_ios fuel (ra_auto_dedup args) (ra_vma_ios args) pages st in
          Done (r, vmas, pages, st).

Definition restore_memory (fuel : nat) (can_map_vdso : bool) (args : restore_args) (pages : Z -> Z) (st : astate)
  : res (Z * list rst_vma * (Z -> Z) * astate) :=
  let (r, st) := unmap_old_vmas (ra_premmapped_addr args) (ra_premmapped_len args) (ra_bootstrap_start args) (ra_bootstrap_len args)
                                (ra_task_size args) st in
  if negb (r =? 0) then Done (-1, ra_vmas args, pages, st)
  else
    let (r, st) := if can_map_vdso then map_vdso st else (0, st) in
    if r <? 0 then Done (-1, ra_vmas args, pages, st)
    else
      let* (r, vmas, pages, st) := restore_areas fuel args pages st in
      if negb (r =? 0) then Done (-1, vmas, pages, st)
      else
        let (r, st) := vdso_proxify st in
        if negb (r =? 0) then Done (-1, vmas, pages, st)
        else Done (0, vmas, pages, drop_prot_write (take (ra_vmas_n args) vmas) st).
End Ops.

(** ** One area *)
Section Remap.
Context {MK : MmKernel} `{!MmKernelOk MK} `{!MmKernelLive MK} {RK : RstKernel}.

(** userfaultfd is not used, or areas can be registered with it *)
Definition uffd_fine (uffd : Z) : Prop := uffd = -1 \/ forall t, k_uffd_register t = 0.

(** [s'] is [s] with the area at [src] moved to [dst] *)
Definition moved (s s' : aspace) (src dst len : Z) : Prop :=
  (forall i, 0 <= i < len -> as_mem s' (dst + i) = as_mem s (src + i) /\ as_prot s' (dst + i) = as_prot s (src + i)) /\
  (forall a, ~ (dst <= a < dst + len) ->
     as_prot s' a = (if within src len a then None else as_prot s a) /\ (is_Some (as_prot s' a) -> as_mem s' a = as_mem s a)).

Lemma below_not_err a : a < TASK_SIZE -> IS_ERR a = false.
Proof. unfold IS_ERR, TASK_SIZE. intros. apply Z.leb_gt. lia. Qed.

Lemma enable_uffd_ok uffd t : uffd_fine uffd -> exists t', enable_uffd uffd t = (0, t').
Proof.
  unfold enable_uffd. intros Hu. destruct (Z.eqb_spec uffd (-1)); [eauto|]. destruct Hu as [?|Hu]; [done|]. rewrite Hu. cbn. eauto.
Qed.

Lemma remap_final_ok e uffd src dst len t s :
  uffd_fine uffd -> dst < TASK_SIZE -> mapped s src len -> (src + len <= dst \/ dst + len <= src) ->
  exists t', remap_final e uffd src dst len (t, s) = (0, (t', move_at s src dst len)).
Proof.
  intros Hu Hd Hm Hdis. unfold remap_final, sys_mremap. rewrite mremap_ok by done. rewrite below_not_err, Z.eqb_refl by done. cbn [negb].
  destruct (vma_entry_can_be_lazy e); [|eauto]. cbn [fst snd]. destruct (enable_uffd_ok uffd (S t) Hu) as [t' ->]. cbn. eauto.
Qed.

Lemma moved_direct s src dst len : (src + len <= dst \/ dst + len <= src) -> moved s (move_at s src dst len) src dst len.
Proof.
  intros Hd. split.
  - intros i Hi. cbn. rewrite (proj2 (within_true dst len _)) by lia. by replace (src + (dst + i - dst)) with (src + i) by lia.
  - intros a Ha. cbn. by rewrite (proj2 (within_false dst len a) Ha).
Qed.

(** a mapping and a hole do not meet *)
Lemma free_mapped s a la b lb : free s a la -> mapped s b lb -> 0 < la -> 0 < lb -> a + la <= b \/ b + lb <= a.
Proof.
  intros Hf Hm Ha Hb. destruct (Z.le_gt_cases (a + la) b); [by left|]. destruct (Z.le_gt_cases (b + lb) a); [by right|].
  exfalso. destruct (Hm (Z.max a b)) as [x Hx]; [lia|]. rewrite (Hf (Z.max a b)) in Hx by lia. done.
Qed.

Lemma map_at_in s a l p c x : within a l x = true -> as_prot (map_at s a l p c) x = Some p.
Proof. intros H. cbn. by rewrite H. Qed.
Lemma map_at_out s a l p c x : within a l x = false ->
  as_prot (map_at s a l p c) x = as_prot s x /\ as_mem (map_at s a l p c) x = as_mem s x.
Proof. intros H. cbn. by rewrite H. Qed.

(** the move by way of another place, once the page [g] of the target is taken *)
Lemma moved_twice s src dst len g p0 c0 addr p1 c1 :
  0 < len -> dst <= g -> g + PAGE_SIZE <= dst + len -> (src + len <= g \/ g + PAGE_SIZE <= src) ->
  (src + len <= addr \/ addr + len <= src) -> (addr + len <= dst \/ dst + len <= addr) -> free s addr len ->
  moved s (move_at (move_at (map_at (map_at s g PAGE_SIZE p0 c0) addr len p1 c1) src addr len) addr dst len) src dst len.
Proof.
  intros Hl Hg1 Hg2 Hgs Hsa Had Hf. split.
  - intros i Hi. cbn. rewrite (proj2 (within_true dst len _)) by lia. rewrite (proj2 (within_true addr len _)) by lia.
    replace (src + (addr + (dst + i - dst) - addr)) with (src + i) by lia.
    by rewrite (proj2 (within_false addr len _)), (proj2 (within_false g PAGE_SIZE _)) by lia.
  - intros a Ha. cbn. rewrite (proj2 (within_false dst len a)), (proj2 (within_false g PAGE_SIZE a)) by lia.
    destruct (within addr len a) eqn:Ea; [|done]. apply within_true in Ea. rewrite (Hf a Ea). rewrite (proj2 (within_false src len a)) by lia.
    split; [done|]. by intros [].
Qed.

Lemma remap_overlapping e uffd src dst len g t s :
  uffd_fine uffd -> 0 < len <= TASK_SIZE -> dst + len <= TASK_SIZE -> 0 < g -> aligned g -> dst <= g -> g + PAGE_SIZE <= dst + len ->
  (src + len <= g \/ g + PAGE_SIZE <= src) -> bounded s -> free s g PAGE_SIZE -> mapped s src len ->
  (forall addr, free s addr len -> addr + len <= g \/ g + PAGE_SIZE <= addr -> addr + len <= dst \/ dst + len <= addr) ->
  exists t' s',
    (let (tmp, st) := sys_mmap g PAGE_SIZE PROT_NONE (Z.lor MAP_PRIVATE MAP_ANONYMOUS) (t, s) in
     if negb (tmp =? g) then (-1, st)
     else
       let (addr, st) := sys_mmap 0 len PROT_NONE (Z.lor MAP_PRIVATE MAP_ANONYMOUS) st in
       if addr =? MAP_FAILED then (-1, st)
       else
         let (tmp, st) := sys_mremap src len addr st in
         if negb (tmp =? addr) then (-1, st) else remap_final e uffd addr dst len st) = (0, (t', s')) /\
    moved s s' src dst len.
Proof.
  intros Hu Hl Hd Hg Hga Hg1 Hg2 Hgs Hb Hf Hm Hplace.
  assert (Hps : 0 < PAGE_SIZE) by done.
  assert (E1 : k_mmap t s g PAGE_SIZE PROT_NONE (Z.lor MAP_PRIVATE MAP_ANONYMOUS) = g) by (apply mmap_hint_ok; try done; lia).
  unfold sys_mmap at 1. rewrite E1, below_not_err, Z.eqb_refl by lia. cbn [negb].
  set (s1 := map_at s g PAGE_SIZE PROT_NONE _).
  assert (Hb1 : bounded s1).
  { intros a. unfold s1. cbn. destruct (within g PAGE_SIZE a) eqn:Ea; [|apply Hb]. apply within_true in Ea. intros _. lia. }
  unfold sys_mmap. set (addr := k_mmap (S t) s1 0 len PROT_NONE (Z.lor MAP_PRIVATE MAP_ANONYMOUS)).
  assert (Herr : IS_ERR addr = false) by (apply mmap_any_ok; [done|done|lia]).
  destruct (mmap_free (S t) s1 0 len PROT_NONE (Z.lor MAP_PRIVATE MAP_ANONYMOUS) eq_refl Herr) as [Hp Hfa]. fold addr in Hp, Hfa.
  rewrite Herr. assert (Hnf : (addr =? MAP_FAILED) = false).
  { apply Z.eqb_neq. intros ->. done. }
  rewrite Hnf. set (s2 := map_at s1 addr len PROT_NONE _).
  assert (Hag : addr + len <= g \/ g + PAGE_SIZE <= addr).
  { apply (free_mapped s1); [done| |lia|done]. intros a Ha. unfold s1. cbn. rewrite (proj2 (within_true g PAGE_SIZE a)) by lia. eauto. }
  assert (Hfs : free s addr len).
  { intros a Ha. rewrite <-(Hfa a Ha). unfold s1. cbn. by rewrite (proj2 (within_false g PAGE_SIZE a)) by lia. }
  assert (Hsa : addr + len <= src \/ src + len <= addr) by (apply (free_mapped s); [done|done|lia|lia]).
  destruct (Hplace addr Hfs Hag) as [Hpl|Hpl].
  all: assert (Hm2 : mapped s2 src len) by
    (intros a Ha; unfold s2, s1; cbn; rewrite (proj2 (within_false addr len a)), (proj2 (within_false g PAGE_SIZE a)) by lia; by apply Hm).
  all: unfold sys_mremap at 1; rewrite mremap_ok by (done || lia); rewrite Herr, Z.eqb_refl; cbn [negb].
  all: destruct (remap_final_ok e uffd addr dst len (S (S (S t))) (move_at s2 src addr len)) as [t' ->]; [done|lia| |lia|].
  1,3: intros a Ha; cbn [as_prot move_at]; rewrite (proj2 (within_true addr len a)) by lia; apply Hm2; lia.
  all: eexists _, _; split; [done|]; apply moved_twice; try done; lia.
Qed.

(** the area and its temporary place *)
Definition len_of (e : VmaEntry) : Z := v_end e - v_start e.
Definition in_dst (e : VmaEntry) (a : Z) : Prop := v_start e <= a < v_end e.
Definition in_src (e : VmaEntry) (a : Z) : Prop := v_shmid e <= a < v_shmid e + len_of e.

Record movable (e : VmaEntry) : Prop := {
  mv_src : 0 <= v_shmid e /\ v_shmid e + len_of e <= TASK_SIZE;
  mv_dst : 0 < v_start e < v_end e /\ v_end e <= TASK_SIZE;
  mv_aligned : aligned (v_shmid e) /\ aligned (v_start e) /\ aligned (v_end e);
}.

Lemma wrapped_lt x len : - TASK_SIZE <= x <= TASK_SIZE -> len <= TASK_SIZE -> (u64 x <? len) = (0 <=? x) && (x <? len).
Proof.
  unfold TASK_SIZE, u64. intros Hx Hl. destruct (Z.leb_spec 0 x).
  - rewrite Z.mod_small by lia. done.
  - cbn. apply Z.ltb_ge. replace (x mod 2 ^ 64) with (x + 2 ^ 64); [lia|]. apply (Z.mod_unique_pos _ _ (-1)); lia.
Qed.

Lemma vma_remap_ok e uffd t s :
  uffd_fine uffd -> movable e -> bounded s -> mapped s (v_shmid e) (len_of e) ->
  (forall a, in_dst e a -> ~ in_src e a -> as_prot s a = None) ->
  exists t' s', vma_remap e uffd (t, s) = (0, (t', s')) /\ moved s s' (v_shmid e) (v_start e) (len_of e).
Proof.
  intros Hu [[Hs1 Hs2] [Hd1 Hd2] (Ha1 & Ha2 & Ha3)] Hb Hm Hfree. unfold in_dst, in_src in Hfree.
  assert (Hlen : vma_entry_len e = len_of e) by (apply u64_id; unfold len_of, TASK_SIZE in *; lia).
  unfold vma_remap, vma_premmaped_start. rewrite Hlen. set (src := v_shmid e) in *. set (dst := v_start e) in *.
  assert (Hld : dst + len_of e = v_end e) by (unfold len_of, dst; lia). assert (Hpos : 0 < len_of e) by (unfold len_of; lia).
  assert (Hal : aligned (len_of e)) by (unfold aligned, len_of in *; pdiv).
  rewrite !wrapped_lt by (unfold TASK_SIZE in *; lia).
  destruct (Z.eqb_spec src dst) as [He|Hne].
  { eexists _, _. split; [done|]. rewrite He. split; [done|]. intros a Ha. by rewrite (proj2 (within_false _ _ _)). }
  destruct ((0 <=? src - dst) && (src - dst <? len_of e)) eqn:E1; [|destruct ((0 <=? dst - src) && (dst - src <? len_of e)) eqn:E2].
  - assert (Hgap : dst + PAGE_SIZE <= src) by (unfold aligned in *; pdiv).
    rewrite (proj2 (Z.eqb_neq dst 0)) by lia. cbn [negb]. apply remap_overlapping; try done; try lia.
    + intros a Ha. apply Hfree; lia.
    + intros addr Hf Hg. destruct (free_mapped s addr (len_of e) src (len_of e) Hf Hm Hpos Hpos); plia.
  - assert (Hgap : src + PAGE_SIZE <= dst) by (unfold aligned in *; pdiv).
    assert (Hlp : PAGE_SIZE <= len_of e) by (unfold aligned in *; pdiv).
    rewrite u64_id by (unfold TASK_SIZE in *; plia). rewrite (proj2 (Z.eqb_neq _ 0)) by lia. cbn [negb].
    apply remap_overlapping; try done; try plia.
    + unfold aligned in *. pdiv.
    + intros a Ha. apply Hfree; lia.
    + intros addr Hf Hg. destruct (free_mapped s addr (len_of e) src (len_of e) Hf Hm Hpos Hpos); plia.
  - change (negb (0 =? 0)) with false. cbn iota.
    assert (Hdis : src + len_of e <= dst \/ dst + len_of e <= src) by lia.
    destruct (remap_final_ok e uffd src dst (len_of e) t s) as [t' ->]; [done|lia|done|done|].
    eexists _, _. split; [done|]. by apply moved_direct.
Qed.
End Remap.

(** moving an area to its address succeeds also when the area and its place overlap, on either side: the area is then
    at its address, with its contents and protection, nothing is left behind or in the place used in between, and nothing
    else changes. *)
Theorem vma_remap_spec {MK : MmKernel} `{!MmKernelOk MK} `{!MmKernelLive MK} {RK : RstKernel} e uffd t s :
  uffd_fine uffd -> movable e -> bounded s -> mapped s (v_shmid e) (len_of e) ->
  (forall a, in_dst e a -> ~ in_src e a -> as_prot s a = None) ->
  exists t' s', vma_remap e uffd (t, s) = (0, (t', s')) /\
    (forall i, 0 <= i < len_of e -> as_mem s' (v_start e + i) = as_mem s (v_shmid e + i) /\
       as_prot s' (v_start e + i) = as_prot s (v_shmid e + i)) /\
    (forall a, ~ in_dst e a -> as_prot s' a = (if within (v_shmid e) (len_of e) a then None else as_prot s a) /\
       (is_Some (as_prot s' a) -> as_mem s' a = as_mem s a)).
Proof.
  intros Hu Hm Hb Hs Hf. destruct (vma_remap_ok e uffd t s Hu Hm Hb Hs Hf) as (t' & s' & Hrun & H1 & H2).
  exists t', s'. split; [done|]. split; [done|]. intros a Ha. apply H2. unfold in_dst, len_of in *. lia.
Qed.

Definition demo_entry : VmaEntry :=
  mk_vma (255 * PAGE_SIZE) (258 * PAGE_SIZE) 0 (256 * PAGE_SIZE) 3 0x22 (Z.lor (Z.lor VMA_AREA_REGULAR VMA_ANON_PRIVATE) VMA_PREMMAPED).
Definition demo_tmp_space : aspace := mk_as (fun a => a mod 251) (fun a => if within (256 * PAGE_SIZE) (3 * PAGE_SIZE) a then Some 3 else None).
Definition demo_uffd_kernel : RstKernel := {|
  k_uffd_register _ := 0; k_shmat _ _ _ a _ := a; k_shm_len _ := PAGE_SIZE; k_shm_content _ _ _ := 0; k_prctl _ := 0;
  k_read_into _ _ _ := 0; k_punch _ := 0 |}.

Lemma vma_remap_witness :
  exists t' s', @vma_remap demo_mm_kernel demo_uffd_kernel demo_entry 9 (0%nat, demo_tmp_space) = (0, (t', s')) /\
    (forall i, 0 <= i < 3 * PAGE_SIZE -> as_mem s' (255 * PAGE_SIZE + i) = (256 * PAGE_SIZE + i) mod 251 /\
       as_prot s' (255 * PAGE_SIZE + i) = as_prot demo_tmp_space (256 * PAGE_SIZE + i)) /\
    (forall a, ~ in_dst demo_entry a -> as_prot s' a = (if within (256 * PAGE_SIZE) (3 * PAGE_SIZE) a then None else as_prot demo_tmp_space a) /\
       (is_Some (as_prot s' a) -> as_mem s' a = a mod 251)).
Proof.
  apply (@vma_remap_spec demo_mm_kernel _ _ demo_uffd_kernel demo_entry 9 0%nat demo_tmp_space).
  - by right.
  - split; vm_compute; intuition congruence.
  - intros a. cbn. destruct (within _ _ a) eqn:E; [|by intros []]. apply within_true in E. intros _. unfold PAGE_SIZE, TASK_SIZE in *. lia.
  - intros a Ha. cbn. unfold len_of in Ha. cbn in Ha. rewrite (proj2 (within_true _ _ a)) by lia. eauto.
  - intros a Hd Hs. cbn. rewrite (proj2 (within_false _ _ a)); [done|]. unfold in_src, len_of in Hs. cbn in Hs. lia.
Defined.

(** ** All areas *)

(** area [i] is in its temporary place *)
Definition premap_at (es : list rst_vma) (i : nat) (e : VmaEntry) : Prop :=
  exists v, es !! i = Some v /\ rv_e v = e /\ vma_entry_is e VMA_PREMMAPED = true.

(** The areas before they are moved: in the same order in both places; whatever is mapped where an area goes is the
    temporary place of an area; and once an area goes up those after it do not go down. *)
Record layout (task_size : Z) (es : list rst_vma) (s0 : aspace) : Prop := {
  lo_movable : forall i e, premap_at es i e -> movable e /\ v_end e < task_size;
  lo_dst : forall i j e f, (i < j)%nat -> premap_at es i e -> premap_at es j f -> v_end e <= v_start f;
  lo_src : forall i j e f, (i < j)%nat -> premap_at es i e -> premap_at es j f -> v_shmid e + len_of e <= v_shmid f;
  lo_sign : forall i j e f, (i < j)%nat -> premap_at es i e -> premap_at es j f -> v_shmid e < v_start e -> v_shmid f <= v_start f;
  lo_mapped : forall i e, premap_at es i e -> mapped s0 (v_shmid e) (len_of e);
  lo_room : forall i e a, premap_at es i e -> in_dst e a -> is_Some (as_prot s0 a) -> exists j f, premap_at es j f /\ in_src f a;
  lo_bounded : bounded s0;
}.

Section Shift.
Context {MK : MmKernel} `{!MmKernelOk MK} `{!MmKernelLive MK} {RK : RstKernel}.
Variables (args : restore_args) (s0 : aspace).
Abbreviation es := (ra_vmas args).
Abbreviation pm := (premap_at es).
Hypothesis Huffd : uffd_fine (ra_uffd args).
Hypothesis Hlay : layout (ra_task_size args) es s0.

Lemma pm_dec (P : nat -> VmaEntry -> bool) :
  (exists i e, pm i e /\ P i e = true) \/ (forall i e, pm i e -> P i e = false).
Proof.
  clear Hlay Huffd. revert P. induction es as [|v l IH]; intros P; [right; by intros i e (v & ? & _)|].
  destruct (vma_entry_is (rv_e v) VMA_PREMMAPED && P 0%nat (rv_e v)) eqn:E.
  - apply andb_true_iff in E as [E1 E2]. left. exists 0%nat, (rv_e v). split; [by exists v|done].
  - destruct (IH (fun i => P (S i))) as [(i & e & (w & H1 & H2 & H3) & H4)|H].
    + left. exists (S i), e. split; [by exists w|done].
    + right. intros [|i] e (w & H1 & H2 & H3); [|apply H; by exists w]. injection H1 as ->. subst e. rewrite H3 in E. done.
Qed.

Lemma pm_inj i e f : pm i e -> pm i f -> e = f.
Proof. intros (v & ? & ? & _) (w & ? & ? & _). congruence. Qed.

Lemma pm_src_mapped i e x : pm i e -> 0 <= x < len_of e -> is_Some (as_prot s0 (v_shmid e + x)).
Proof using Hlay. intros Hp Hx. apply (lo_mapped _ _ _ Hlay i e Hp). lia. Qed.

Lemma dst_disjoint i j e f a : i <> j -> pm i e -> pm j f -> in_dst e a -> ~ in_dst f a.
Proof using Hlay.
  unfold in_dst. intros Hne Hi Hj Ha. destruct (Nat.lt_total i j) as [H|[H|H]]; [|done|].
  - pose proof (lo_dst _ _ _ Hlay i j e f H Hi Hj). lia.
  - pose proof (lo_dst _ _ _ Hlay j i f e H Hj Hi). lia.
Qed.

Lemma src_disjoint i j e f a : i <> j -> pm i e -> pm j f -> in_src e a -> ~ in_src f a.
Proof using Hlay.
  unfold in_src. intros Hne Hi Hj Ha. destruct (Nat.lt_total i j) as [H|[H|H]]; [|done|].
  - pose proof (lo_src _ _ _ Hlay i j e f H Hi Hj). lia.
  - pose proof (lo_src _ _ _ Hlay j i f e H Hj Hi). lia.
Qed.

(** the address space after the areas [mv] were moved *)
Record shifted (mv : nat -> bool) (s : aspace) : Prop := {
  sh_moved : forall i e x, pm i e -> mv i = true -> 0 <= x < len_of e ->
    as_mem s (v_start e + x) = as_mem s0 (v_shmid e + x) /\ as_prot s (v_start e + x) = as_prot s0 (v_shmid e + x);
  sh_still : forall i e x, pm i e -> mv i = false -> 0 <= x < len_of e ->
    as_mem s (v_shmid e + x) = as_mem s0 (v_shmid e + x) /\ as_prot s (v_shmid e + x) = as_prot s0 (v_shmid e + x);
  sh_left : forall a, (forall i e, pm i e -> mv i = true -> ~ in_dst e a) -> (forall i e, pm i e -> mv i = false -> ~ in_src e a) ->
    (exists i e, pm i e /\ in_src e a) -> as_prot s a = None;
  sh_else : forall a, (forall i e, pm i e -> mv i = true -> ~ in_dst e a) -> (forall i e, pm i e -> ~ in_src e a) ->
    as_prot s a = as_prot s0 a /\ (is_Some (as_prot s a) -> as_mem s a = as_mem s0 a);
  sh_apart : forall i j e f a, pm i e -> pm j f -> mv i = true -> mv j = false -> in_dst e a -> ~ in_src f a;
}.

Lemma shifted_ext mv mv' s : (forall i e, pm i e -> mv i = mv' i) -> shifted mv s -> shifted mv' s.
Proof.
  intros Hx [H1 H2 H3 H4 H5]. split.
  - intros i e x Hp Hm. apply (H1 i); [done|]. by rewrite (Hx i e Hp).
  - intros i e x Hp Hm. apply (H2 i); [done|]. by rewrite (Hx i e Hp).
  - intros a Ha Hb. apply H3; intros i e Hp; rewrite (Hx i e Hp); eauto.
  - intros a Ha. apply H4; intros i e Hp; rewrite (Hx i e Hp); eauto.
  - intros i j e f a Hp Hq Hm Hn. apply (H5 i j e f a Hp Hq); [by rewrite (Hx i e Hp)|by rewrite (Hx j f Hq)].
Qed.

Lemma shifted_none : shifted (fun _ => false) s0.
Proof. split; try done. intros a _ Hb (i & e & Hp & Ha). by destruct (Hb i e Hp eq_refl). Qed.

(** inside of an area or outside of all *)
Lemma moved_dec mv a : (exists i e, pm i e /\ mv i = true /\ in_dst e a) \/ (forall i e, pm i e -> mv i = true -> ~ in_dst e a).
Proof.
  destruct (pm_dec (fun i e => mv i && within (v_start e) (len_of e) a)) as [(i & e & Hp & H)|H].
  - left. apply andb_true_iff in H as [H1 H2%within_true]. exists i, e. unfold in_dst, len_of in *. split_and!; try done; lia.
  - right. intros i e Hp Hm Ha. specialize (H i e Hp). rewrite Hm in H. apply within_false in H. unfold in_dst, len_of in *. lia.
Qed.
Lemma src_dec a : (exists i e, pm i e /\ in_src e a) \/ (forall i e, pm i e -> ~ in_src e a).
Proof.
  destruct (pm_dec (fun i e => within (v_shmid e) (len_of e) a)) as [(i & e & Hp & H%within_true)|H].
  - left. by exists i, e.
  - right. intros i e Hp Ha. by apply within_true in Ha; rewrite (H i e Hp) in Ha.
Qed.

Lemma shifted_bounded mv s : shifted mv s -> bounded s.
Proof using Hlay.
  intros Hs a Ha. destruct (moved_dec mv a) as [(i & e & Hp & _ & Hd)|Hd].
  - destruct (lo_movable _ _ _ Hlay i e Hp) as [[_ ? _] _]. unfold in_dst in Hd. lia.
  - destruct (src_dec a) as [(i & e & Hp & Hx)|Hx].
    + destruct (lo_movable _ _ _ Hlay i e Hp) as [[? _ _] _]. unfold in_src in Hx. lia.
    + destruct (sh_else _ _ Hs a Hd Hx) as [He _]. rewrite He in Ha. by apply (lo_bounded _ _ _ Hlay).
Qed.

(** where area [k] goes there is nothing in the way *)
Lemma target_clear mv s k e a : shifted mv s -> pm k e -> mv k = false ->
  (forall j f a, pm j f -> mv j = false -> j <> k -> in_dst e a -> ~ in_src f a) ->
  in_dst e a -> ~ in_src e a -> as_prot s a = None.
Proof using Hlay.
  intros Hs Hk Hm Hclr Hd Hns.
  assert (Hout : forall i f, pm i f -> mv i = true -> ~ in_dst f a).
  { intros i f Hi Hi' Hf. apply (dst_disjoint k i e f a); try done. congruence. }
  destruct (src_dec a) as [(i & f & Hi & Hx)|Hx].
  - apply (sh_left _ _ Hs); [done| |eauto]. intros j g Hj Hj' Hg. destruct (decide (j = k)) as [->|Hne].
    + by rewrite (pm_inj _ _ _ Hj Hk) in Hg.
    + by apply (Hclr j g a).
  - destruct (sh_else _ _ Hs a Hout Hx) as [-> _]. destruct (as_prot s0 a) eqn:E; [|done].
    destruct (lo_room _ _ _ Hlay k e a Hk Hd ltac:(by rewrite E)) as (j & f & Hj & Hf). by destruct (Hx j f Hj).
Qed.

Lemma shift_one mv s k e t : shifted mv s -> pm k e -> mv k = false ->
  (forall j f a, pm j f -> mv j = false -> j <> k -> in_dst e a -> ~ in_src f a) ->
  exists t' s', vma_remap e (ra_uffd args) (t, s) = (0, (t', s')) /\ shifted (fun i => mv i || (i =? k)%nat) s'.
Proof using Hlay Huffd MmKernelOk0 MmKernelLive0.
  intros Hs Hk Hm Hclr. pose proof (shifted_bounded _ _ Hs) as Hbnd. pose proof (target_clear mv s k e) as Hfree.
  destruct (lo_movable _ _ _ Hlay k e Hk) as [Hmov _].
  destruct (vma_remap_ok e (ra_uffd args) t s Huffd Hmov Hbnd) as (t' & s' & Hrun & Hm1 & Hm2).
  { intros a Ha. replace a with (v_shmid e + (a - v_shmid e)) by lia.
    rewrite (proj2 (sh_still _ _ Hs k e (a - v_shmid e) Hk Hm ltac:(lia))). apply (pm_src_mapped k); [done|lia]. }
  { intros a. by apply Hfree. }
  exists t', s'. split; [done|]. clear Hrun Hfree Hbnd t t'.
  assert (Hld : v_start e + len_of e = v_end e) by (unfold len_of; lia). rewrite Hld in Hm2.
  assert (Hsplit : forall i, mv i || (i =? k)%nat = true -> i = k \/ mv i = true /\ i <> k).
  { intros i [H|H%Nat.eqb_eq]%orb_true_iff; [|by left]. right. split; [done|]. congruence. }
  assert (Hrest : forall i, mv i || (i =? k)%nat = false -> mv i = false /\ i <> k).
  { intros i [? ?%Nat.eqb_neq]%orb_false_iff. done. }
  assert (Hsame : forall a, ~ in_dst e a -> ~ in_src e a -> as_prot s' a = as_prot s a /\ (is_Some (as_prot s' a) -> as_mem s' a = as_mem s a)).
  { intros a Ha Hb. specialize (Hm2 a Ha). by rewrite (proj2 (within_false _ _ _) Hb) in Hm2. }
  split.
  - intros i f x Hi Hmv Hx. destruct (Hsplit i Hmv) as [->|[Hmi Hne]].
    + rewrite (pm_inj _ _ _ Hi Hk) in *. destruct (Hm1 x Hx) as [-> ->]. by apply (sh_still _ _ Hs k).
    + assert (Hin : in_dst f (v_start f + x)) by (unfold in_dst, len_of in *; lia).
      destruct (Hsame (v_start f + x)) as [H1 H2]; [by eapply dst_disjoint|by eapply (sh_apart _ _ Hs i k)|].
      destruct (sh_moved _ _ Hs i f x Hi Hmi Hx) as [H3 H4]. rewrite H1, H4 in H2 |- *. split; [|done]. rewrite H2; [done|]. by eapply pm_src_mapped.
  - intros i f x Hi Hmv Hx. destruct (Hrest i Hmv) as [Hmi Hne].
    assert (Hin : in_src f (v_shmid f + x)) by (unfold in_src; lia).
    destruct (Hsame (v_shmid f + x)) as [H1 H2]; [intros Hd; by apply (Hclr i f (v_shmid f + x) Hi Hmi Hne Hd)|by eapply src_disjoint|].
    destruct (sh_still _ _ Hs i f x Hi Hmi Hx) as [H3 H4]. rewrite H1, H4 in H2 |- *. split; [|done]. rewrite H2; [done|]. by eapply pm_src_mapped.
  - intros a Ha Hb Hc. assert (Hd : ~ in_dst e a) by (apply (Ha k); [done|]; by rewrite Nat.eqb_refl, orb_true_r).
    destruct (Hm2 a Hd) as [-> _]. destruct (within (v_shmid e) (len_of e) a) eqn:Ew; [done|]. apply within_false in Ew.
    apply (sh_left _ _ Hs); [| |done].
    + intros i f Hi Hmi. apply (Ha i f Hi). by rewrite Hmi.
    + intros i f Hi Hmi. destruct (decide (i = k)) as [->|Hne]; [by rewrite (pm_inj _ _ _ Hi Hk)|]. apply (Hb i f Hi).
      by rewrite Hmi, (proj2 (Nat.eqb_neq i k)).
  - intros a Ha Hb. assert (Hd : ~ in_dst e a) by (apply (Ha k); [done|]; by rewrite Nat.eqb_refl, orb_true_r).
    destruct (Hsame a Hd (Hb k e Hk)) as [H1 H2]. destruct (sh_else _ _ Hs a) as [H3 H4]; [|done|].
    + intros i f Hi Hmi. apply (Ha i f Hi). by rewrite Hmi.
    + rewrite H1, H3 in *. split; [done|]. intros Hx. rewrite (H2 Hx). by apply H4.
  - intros i j f g a Hi Hj Hmi Hmj. destruct (Hrest j Hmj) as [Hmj' Hne]. destruct (Hsplit i Hmi) as [->|[Hmi' _]].
    + rewrite (pm_inj _ _ _ Hi Hk). by apply (Hclr j g a).
    + by apply (sh_apart _ _ Hs i j).
Qed.

(** *** The two loops *)
Lemma pm_entry i v : es !! i = Some v -> vma_entry_is (rv_e v) VMA_PREMMAPED = true -> pm i (rv_e v).
Proof. intros. by exists v. Qed.

(** the areas before [i] do not go up *)
Definition go_down (i : nat) : Prop := forall j e, (j < i)%nat -> pm j e -> v_start e <= v_shmid e.

Lemma shift_left_ok n : forall i t s, (i + n = length es)%nat -> go_down i -> shifted (fun j => (j <? i)%nat) s ->
  exists m t' s', shift_left n i args (t, s) = Done (0, (t', s')) /\ go_down m /\ shifted (fun j => (j <? m)%nat) s' /\
    (m <= length es)%nat /\ (m = length es \/ exists e, pm m e /\ v_shmid e < v_start e).
Proof using Hlay Huffd MmKernelOk0 MmKernelLive0.
  induction n as [|n IH]; intros i t s Hn Hd Hs; cbn [shift_left].
  { exists i, t, s. split; [done|]. split; [done|]. split; [done|]. split; [lia|]. left. lia. }
  destruct (lookup_lt_is_Some_2 es i) as [v Hv]; [lia|]. rewrite Hv. cbn [deref rbind].
  assert (Hstep : forall j e, pm j e -> (j <? i)%nat || (j =? i)%nat = (j <? S i)%nat).
  { intros j e _. apply Bool.eq_iff_eq_true. rewrite orb_true_iff, !Nat.ltb_lt, Nat.eqb_eq. lia. }
  destruct (vma_entry_is (rv_e v) VMA_PREMMAPED) eqn:Ep; cbn [negb].
  2: { apply IH; [lia| |].
    - intros j e Hj Hp. destruct (decide (j = i)) as [->|]; [|apply (Hd j); [lia|done]]. destruct Hp as (w & Hw & <- & Hx). congruence.
    - eapply shifted_ext; [|exact Hs]. intros j e (w & Hw & <- & Hx). apply Bool.eq_iff_eq_true. rewrite !Nat.ltb_lt.
      destruct (decide (j = i)) as [->|]; [congruence|lia]. }
  pose proof (pm_entry i v Hv Ep) as Hp. destruct (lo_movable _ _ _ Hlay i _ Hp) as [Hmov Hts].
  rewrite (proj2 (Z.leb_gt _ _)) by lia. destruct (Z.ltb_spec (v_shmid (rv_e v)) (v_start (rv_e v))) as [Hlt|Hge].
  { exists i, t, s. split; [done|]. split; [done|]. split; [done|]. split; [lia|]. right. eauto. }
  destruct (shift_one (fun j => (j <? i)%nat) s i (rv_e v) t Hs Hp ltac:(apply Nat.ltb_irrefl)) as (t' & s' & -> & Hs').
  { intros j f a Hj Hm Hne Ha Hb. apply Nat.ltb_ge in Hm. pose proof (lo_src _ _ _ Hlay i j (rv_e v) f ltac:(lia) Hp Hj).
    unfold in_dst, in_src, len_of in *. lia. }
  cbn [negb]. change (negb (0 =? 0)) with false. cbn iota. apply IH; [lia| |].
  - intros j e Hj He. destruct (decide (j = i)) as [->|]; [by rewrite (pm_inj _ _ _ He Hp)|apply (Hd j); [lia|done]].
  - eapply shifted_ext; [|exact Hs']. by apply Hstep.
Qed.

Lemma shift_right_ok m : go_down m -> (forall j e, (m <= j)%nat -> pm j e -> v_shmid e <= v_start e) ->
  forall n t s, (n <= length es)%nat -> shifted (fun j => (j <? m)%nat || (n <=? j)%nat) s ->
  exists t' s', shift_right n args (t, s) = Done (0, (t', s')) /\ shifted (fun _ => true) s'.
Proof using Hlay Huffd MmKernelOk0 MmKernelLive0.
  intros Hdown Hup. induction n as [|n IH]; intros t s Hn Hs; cbn [shift_right].
  { exists t, s. split; [done|]. eapply shifted_ext; [|exact Hs]. intros j e _. apply orb_true_iff. right. apply Nat.leb_le. lia. }
  destruct (lookup_lt_is_Some_2 es n) as [v Hv]; [lia|]. rewrite Hv. cbn [deref rbind].
  destruct (vma_entry_is (rv_e v) VMA_PREMMAPED) eqn:Ep; cbn [negb].
  2: { apply IH; [lia|]. eapply shifted_ext; [|exact Hs]. intros j e (w & Hw & <- & Hx). f_equal. apply Bool.eq_iff_eq_true.
    rewrite !Nat.leb_le. destruct (decide (j = n)) as [->|]; [congruence|lia]. }
  pose proof (pm_entry n v Hv Ep) as Hp. destruct (lo_movable _ _ _ Hlay n _ Hp) as [Hmov Hts]. pose proof (mv_dst _ Hmov) as [Hd _].
  rewrite (proj2 (Z.ltb_ge _ _)) by lia. destruct (decide (n < m)%nat) as [Hnm|Hnm].
  - assert (Hs1 : shifted (fun j => (j <? m)%nat || (n <=? j)%nat) s).
    { eapply shifted_ext; [|exact Hs]. intros j e _. apply Bool.eq_iff_eq_true. rewrite !orb_true_iff, !Nat.ltb_lt, !Nat.leb_le. lia. }
    pose proof (Hdown n _ Hnm Hp) as Hle. destruct (Z.ltb_spec (v_start (rv_e v)) (v_shmid (rv_e v))) as [Hlt|Hge].
    + exists t, s. split; [done|]. eapply shifted_ext; [|exact Hs]. intros j e _. apply orb_true_iff. rewrite Nat.ltb_lt, Nat.leb_le. lia.
    + unfold vma_remap, vma_premmaped_start. rewrite (proj2 (Z.eqb_eq (v_shmid _) _)) by lia. change (negb (0 =? 0)) with false. cbn iota.
      apply IH; [lia|done].
  - rewrite (proj2 (Z.ltb_ge _ _)) by (apply (Hup n); [lia|done]).
    destruct (shift_one (fun j => (j <? m)%nat || (S n <=? j)%nat) s n (rv_e v) t Hs Hp) as (t' & s' & -> & Hs').
    { apply orb_false_iff. rewrite Nat.ltb_ge, Nat.leb_gt. lia. }
    { intros j f a Hj Hm Hne Ha Hb. apply orb_false_iff in Hm as [Hm1%Nat.ltb_ge Hm2%Nat.leb_gt].
      pose proof (lo_src _ _ _ Hlay j n f (rv_e v) ltac:(lia) Hj Hp). pose proof (Hup n _ ltac:(lia) Hp). unfold in_dst, in_src, len_of in *. lia. }
    change (negb (0 =? 0)) with false. cbn iota. apply IH; [lia|]. eapply shifted_ext; [|exact Hs'].
    intros j e _. apply Bool.eq_iff_eq_true. rewrite !orb_true_iff, !Nat.ltb_lt, !Nat.leb_le, Nat.eqb_eq. lia.
Qed.

Lemma shift_ok t : exists t1 s1 t2 s2,
  shift_left (length es) 0 args (t, s0) = Done (0, (t1, s1)) /\ shift_right (length es) args (t1, s1) = Done (0, (t2, s2)) /\
  shifted (fun _ => true) s2.
Proof using Hlay Huffd MmKernelOk0 MmKernelLive0.
  destruct (shift_left_ok (length es) 0 t s0) as (m & t1 & s1 & H1 & Hd & Hs & Hm & Hend); [done|intros ? ? ?; lia| |].
  { eapply shifted_ext; [|apply shifted_none]. done. }
  destruct (shift_right_ok m Hd) with (n := length es) (t := t1) (s := s1) as (t2 & s2 & H2 & Hs2).
  - intros j e Hj Hp. destruct Hend as [->|(f & Hf & Hlt)].
    + destruct Hp as (v & Hv & _). apply lookup_lt_Some in Hv. lia.
    + destruct (decide (j = m)) as [->|]; [rewrite (pm_inj _ _ _ Hp Hf); lia|]. apply (lo_sign _ _ _ Hlay m j f e); [lia|done..].
  - done.
  - eapply shifted_ext; [|exact Hs]. intros j e (v & Hv & _). apply lookup_lt_Some in Hv.
    rewrite (proj2 (Nat.leb_gt _ _)) by lia. by rewrite orb_false_r.
  - by exists t1, s1, t2, s2.
Qed.
End Shift.

(** an area that is in its place already is not registered with userfaultfd: pages that were left to the lazy-pages daemon
    are never asked for *)
Lemma in_place_not_registered {MK : MmKernel} {RK : RstKernel} e uffd st : v_shmid e = v_start e -> vma_remap e uffd st = (0, st).
Proof. intros He. unfold vma_remap, vma_premmaped_start. by rewrite He, Z.eqb_refl. Qed.
End Restorer.
