(* ===== verification/Restored.v ===== *)
(** * The memory of the restored task (criu/pie/restorer.c)

    What the memory part of the restorer achieves: the premapped areas are at their addresses with what they held, the others
    are mapped and filled with what was left to be read, and the protections are those of the image. *)
From S2P Require Import Prelude.
From S2P Require Import Vma.
From S2P Require Import AddrSpace.
From S2P Require Import Pagemap.
From S2P Require Import MemRestore.
From S2P Require Import Restorer.

Module Restored.
Export Restorer.

(** ** What is relied on of the other system calls *)
Definition writable (s : aspace) (a : Z) : Prop := exists p, as_prot s a = Some p /\ has p PROT_WRITE = true.

(** preadv(2) reads at most what it is asked for, and something when the memory can be written *)
Class RstKernelOk (K : RstKernel) : Prop := {
  read_into_le : forall t s l, k_read_into t s l <= bytes_of l;
}.
Class RstKernelLive (K : RstKernel) : Prop := {
  read_into_pos : forall t s l, l <> [] -> Forall (fun v => 0 < iov_len v) l ->
    (forall v a, v ∈ l -> iov_base v <= a < iov_base v + iov_len v -> writable s a) -> 1 <= k_read_into t s l;
  prctl_ok : forall t, k_prctl t = 0;
}.

(** ** The areas that are mapped in place *)
Definition mapped_here (v : rst_vma) : bool :=
  (vma_entry_is (rv_e v) VMA_AREA_REGULAR || vma_entry_is (rv_e v) VMA_AREA_AIORING) && negb (vma_entry_is (rv_e v) VMA_PREMMAPED).

Definition good_entry (e : VmaEntry) : Prop :=
  0 < v_start e < v_end e /\ v_end e <= TASK_SIZE /\ aligned (v_start e) /\ aligned (v_end e).

(** in the order of their addresses, without overlap *)
Definition in_order (es : list rst_vma) : Prop :=
  forall i j v w, (i < j)%nat -> es !! i = Some v -> es !! j = Some w -> v_end (rv_e v) <= v_start (rv_e w).

(** a new mapping of [v] is there *)
Definition new_at {MK : MmKernel} (s : aspace) (v : rst_vma) : Prop := exists t, forall a, in_dst (rv_e v) a ->
  as_mem s a = k_content t (mapping_flags v) (a - v_start (rv_e v)) /\ as_prot s a = Some (mapping_prot v).

Definition same_at (s s' : aspace) (a : Z) : Prop := as_prot s' a = as_prot s a /\ as_mem s' a = as_mem s a.

Lemma order_apart es i j v w a : in_order es -> i <> j -> es !! i = Some v -> es !! j = Some w -> in_dst (rv_e v) a -> ~ in_dst (rv_e w) a.
Proof.
  unfold in_dst. intros Ho Hne Hi Hj Ha. destruct (Nat.lt_total i j) as [H|[H|H]]; [|done|].
  - specialize (Ho i j v w H Hi Hj). lia.
  - specialize (Ho j i w v H Hj Hi). lia.
Qed.

Section Map.
Context {MK : MmKernel} `{!MmKernelOk MK} `{!MmKernelLive MK} {RK : RstKernel}.
Variable es : list rst_vma.
Hypothesis Horder : in_order es.
Hypothesis Hgood : forall v, v ∈ es -> good_entry (rv_e v).
Hypothesis Hsysv : forall v, v ∈ es -> mapped_here v = true -> vma_entry_is (rv_e v) VMA_AREA_SYSVIPC = false.

Lemma mapping_fixed v : has (mapping_flags v) MAP_FIXED = true.
Proof.
  unfold mapping_flags. change MAP_FIXED with (Z.shiftl 1 4). rewrite has_bit by lia.
  assert (H : forall x, Z.testbit (Z.lor x (Z.shiftl 1 4)) 4 = true).
  { intros x. rewrite Z.lor_spec. change (Z.testbit (Z.shiftl 1 4) 4) with true. by rewrite orb_true_r. }
  destruct (_ && _); destruct (vma_entry_is _ _).
  1,3: rewrite Z.lor_spec; change (Z.testbit MAP_ANONYMOUS 4) with false; rewrite orb_false_r.
  all: rewrite ?Z.ldiff_spec, H; done.
Qed.

Lemma restore_mapping_ok v t s : v ∈ es -> mapped_here v = true ->
  exists t' s', restore_mapping v (t, s) = (v_start (rv_e v), v, (t', s')) /\ new_at s' v /\
    forall a, ~ in_dst (rv_e v) a -> same_at s s' a.
Proof using All.
  intros Hv Hm. destruct (Hgood v Hv) as (H1 & H2 & H3 & H4). unfold restore_mapping. rewrite Hsysv by done.
  assert (Hlen : vma_entry_len (rv_e v) = v_end (rv_e v) - v_start (rv_e v)) by (apply u64_id; unfold TASK_SIZE in *; lia).
  unfold sys_mmap. rewrite Hlen, mmap_fixed_ok, below_not_err by (apply mapping_fixed || lia).
  eexists _, _. split; [done|]. split.
  - exists t. intros a Ha. unfold in_dst in Ha. cbn. by rewrite (proj2 (within_true _ _ a)) by lia.
  - intros a Ha. unfold in_dst in Ha. unfold same_at. cbn. by rewrite (proj2 (within_false _ _ a)) by lia.
Qed.

Lemma map_areas_ok n : forall i t s, (i + n = length es)%nat ->
  exists t' s', map_areas n i es (t, s) = Done (0, es, (t', s')) /\
    (forall j v, (i <= j)%nat -> es !! j = Some v -> mapped_here v = true -> new_at s' v) /\
    (forall a, (forall j v, (i <= j)%nat -> es !! j = Some v -> mapped_here v = true -> ~ in_dst (rv_e v) a) -> same_at s s' a).
Proof using All.
  induction n as [|n IH]; intros i t s Hn; cbn [map_areas].
  { exists t, s. split; [done|]. split; [|done]. intros j v Hj Hv%lookup_lt_Some. lia. }
  destruct (lookup_lt_is_Some_2 es i) as [v Hv]; [lia|]. rewrite Hv. cbn [deref rbind].
  assert (Hin : v ∈ es) by (by eapply list_elem_of_lookup_2).
  assert (Hskip : mapped_here v = false -> exists t' s', map_areas n (S i) es (t, s) = Done (0, es, (t', s')) /\
    (forall j v, (i <= j)%nat -> es !! j = Some v -> mapped_here v = true -> new_at s' v) /\
    (forall a, (forall j v, (i <= j)%nat -> es !! j = Some v -> mapped_here v = true -> ~ in_dst (rv_e v) a) -> same_at s s' a)).
  { intros Hno. destruct (IH (S i) t s) as (t' & s' & Hrun & H1 & H2); [lia|]. exists t', s'. split; [done|]. split.
    - intros j w Hj Hw Hm. destruct (decide (j = i)) as [->|]; [congruence|]. apply (H1 j); [lia|done..].
    - intros a Ha. apply H2. intros j w Hj. apply Ha. lia. }
  destruct (mapped_here v) eqn:Em.
  2: { unfold mapped_here in Em. destruct (vma_entry_is (rv_e v) VMA_AREA_REGULAR), (vma_entry_is (rv_e v) VMA_AREA_AIORING),
       (vma_entry_is (rv_e v) VMA_PREMMAPED); cbn in Em |- *; try done; by apply Hskip. }
  assert (Hb : negb (vma_entry_is (rv_e v) VMA_AREA_REGULAR) && negb (vma_entry_is (rv_e v) VMA_AREA_AIORING) = false /\
               vma_entry_is (rv_e v) VMA_PREMMAPED = false).
  { unfold mapped_here in Em. by destruct (vma_entry_is (rv_e v) VMA_AREA_REGULAR), (vma_entry_is (rv_e v) VMA_AREA_AIORING), (vma_entry_is (rv_e v) VMA_PREMMAPED). }
  destruct Hb as [-> ->]. destruct (restore_mapping_ok v t s Hin Em) as (t1 & s1 & -> & Hnew & Hold).
  rewrite Z.eqb_refl. cbn [negb]. rewrite list_insert_id by done.
  destruct (IH (S i) t1 s1) as (t' & s' & -> & H1 & H2); [lia|]. exists t', s'. split; [done|]. split.
  - intros j w Hj Hw Hm. destruct (decide (j = i)) as [->|]; [|apply (H1 j); [lia|done..]].
    rewrite Hw in Hv. injection Hv as ->. destruct Hnew as [t0 Hnew]. exists t0. intros a Ha.
    destruct (H2 a) as [-> ->]; [|by apply Hnew]. intros j u Hju Hu _. apply (order_apart es i j v u a); [done|lia|done..].
  - intros a Ha. destruct (H2 a) as [E1 E2]; [intros j w Hj; apply Ha; lia|].
    destruct (Hold a) as [E3 E4]; [by apply (Ha i)|]. split; congruence.
Qed.
End Map.

(** ** What was left to be read *)
Lemma rio_advance_ok l r l' : Forall (fun v => 0 < iov_len v) l -> 0 < r -> advance_iovs l r = Some l' -> rio_advance l r = l'.
Proof.
  intros Hl. revert r. induction Hl as [|v l Hv Hl IH]; intros r Hr; simpl.
  - by rewrite (proj2 (Z.eqb_neq r 0)) by lia.
  - rewrite (proj2 (Z.eqb_neq r 0)) by lia. destruct (Z.leb_spec (iov_len v) r); [|by intros [= <-]].
    destruct (Z.eq_dec (r - iov_len v) 0) as [He|]; [|apply IH; lia].
    rewrite He. destruct l as [|w l]; simpl; intros [= <-]; [done|]. apply Forall_cons_1 in Hl as [Hw _].
    rewrite (proj2 (Z.leb_gt _ _)) by lia. rewrite Z.add_0_r, Z.sub_0_r. by destruct w.
Qed.

Lemma advance_all l : Forall (fun v => 0 < iov_len v) l -> rio_advance l (bytes_of l) = [].
Proof.
  induction 1 as [|v l Hv Hl IH]; [done|]. pose proof (bytes_nonneg l Hl). simpl. fold (bytes_of l).
  rewrite (proj2 (Z.leb_le _ _)) by lia. by replace (iov_len v + bytes_of l - iov_len v) with (bytes_of l) by lia.
Qed.

Definition in_iovs (l : list iovec) (a : Z) : Prop := exists v, v ∈ l /\ iov_base v <= a < iov_base v + iov_len v.

Lemma advance_in l r l' a : Forall (fun v => 0 < iov_len v) l -> 0 <= r -> advance_iovs l r = Some l' -> in_iovs l' a -> in_iovs l a.
Proof.
  intros Hl. revert r. induction Hl as [|v l Hv Hl IH]; intros r Hr; simpl.
  - destruct (r =? 0); [by intros [= <-]|done].
  - destruct (r =? 0); [by intros [= <-]|]. destruct (Z.leb_spec (iov_len v) r).
    + intros Ha Hi. destruct (IH (r - iov_len v) ltac:(lia) Ha Hi) as (w & Hw & ?). exists w. split; [by apply list_elem_of_further|done].
    + intros [= <-] (w & [->|Hw]%elem_of_cons & Hb); cbn in Hb; [exists v; split; [apply list_elem_of_here|lia]|].
      exists w. split; [by apply list_elem_of_further|done].
Qed.

Definition piov_of (o : restore_vma_io) : page_read_iov := mk_piov (rio_off o) (rio_off o + bytes_of (rio_iovs o)) (rio_iovs o).

Lemma fill_pointwise f l off m1 m2 b : m1 b = m2 b -> fill f l off m1 b = fill f l off m2 b.
Proof. unfold fill. intros ->. done. Qed.
Lemma queue_pointwise f q m1 m2 b : m1 b = m2 b -> queue_mem f q m1 b = queue_mem f q m2 b.
Proof. revert m1 m2. induction q as [|p q IH]; intros m1 m2 H; [done|]. apply IH. by apply fill_pointwise. Qed.

Section Read.
Context {K : RstKernel} `{!RstKernelOk K} `{!RstKernelLive K}.

Lemma read_rio_ok fuel : forall l off pages t s,
  Forall (fun v => 0 < iov_len v) l -> (Z.to_nat (bytes_of l) <= fuel)%nat -> (forall a, in_iovs l a -> writable s a) ->
  exists t' s', read_rio fuel false l off pages (t, s) = Done (0, pages, (t', s')) /\ as_prot s' = as_prot s /\
    forall b, as_mem s' b = fill pages l off (as_mem s) b.
Proof using All.
  induction fuel as [|fuel IH]; intros l off pages t s Hl Hf Hw.
  { destruct l as [|v l]; [by exists t, s|]. pose proof (bytes_pos (v :: l) ltac:(done) Hl). lia. }
  destruct l as [|v l]; [by exists t, s|]. pose proof (bytes_pos (v :: l) ltac:(done) Hl) as Hpos.
  set (L := v :: l) in *. assert (Hne : L <> []) by done. clearbody L. clear v l.
  assert (H1 : 1 <= k_read_into t s L) by (apply read_into_pos; [done|done|]; intros v a Hv Ha; apply Hw; by exists v).
  pose proof (read_into_le t s L) as H2. destruct L as [|v l]; [done|]. cbn [read_rio]. set (L := v :: l) in *.
  set (r := k_read_into t s L) in *. rewrite (proj2 (Z.ltb_ge r 0)), andb_false_r by lia.
  destruct (Z.eq_dec r (bytes_of L)) as [Hr|Hr].
  - rewrite Hr, advance_all by done. cbn [read_rio]. destruct fuel; cbn [read_rio].
    all: eexists _, _; split; [done|]; split; [done|]; intros b; cbn [as_mem set_mem]; by apply scatter_all.
  - destruct (advance_iovs_ok L r Hl ltac:(lia)) as (l' & Hadv & Hne' & Hl' & Hb').
    rewrite (rio_advance_ok L r l') by (done || lia).
    destruct (IH l' (off + r) pages (S t) (set_mem s (scatter (as_mem s) L pages off r))) as (t' & s' & -> & Hp & Hm); [done|lia| |].
    { intros a Ha. apply Hw. by eapply (advance_in L r l'); [done|lia|..]. }
    eexists _, _. split; [done|]. split; [done|]. intros b. rewrite Hm. cbn [as_mem set_mem]. apply scatter_advance; try done; lia.
Qed.

Lemma read_vma_ios_ok fuel pages ios : forall t s,
  Forall (fun o => Forall (fun v => 0 < iov_len v) (rio_iovs o) /\ (Z.to_nat (bytes_of (rio_iovs o)) <= fuel)%nat) ios ->
  (forall o a, o ∈ ios -> in_iovs (rio_iovs o) a -> writable s a) ->
  exists t' s', read_vma_ios fuel false ios pages (t, s) = Done (0, pages, (t', s')) /\ as_prot s' = as_prot s /\
    forall b, as_mem s' b = queue_mem pages (piov_of <$> ios) (as_mem s) b.
Proof using All.
  induction ios as [|o ios IH]; intros t s Hl Hw; cbn [read_vma_ios].
  { by exists t, s. }
  apply Forall_cons_1 in Hl as [[Hl Hf] Hrest].
  destruct (read_rio_ok fuel (rio_iovs o) (rio_off o) pages t s Hl Hf) as (t1 & s1 & -> & Hp1 & Hm1).
  { intros a Ha. apply (Hw o); [apply list_elem_of_here|done]. }
  cbn [rbind]. change (0 <? 0) with false. cbn iota.
  destruct (IH t1 s1 Hrest) as (t2 & s2 & -> & Hp2 & Hm2).
  { intros o' a Ho Ha. unfold writable. rewrite Hp1. apply (Hw o'); [by apply list_elem_of_further|done]. }
  exists t2, s2. split; [done|]. split; [congruence|]. intros b. rewrite Hm2. cbn. apply queue_mem_ext. done.
Qed.
End Read.

(** outside of the iovecs nothing changes *)
Lemma fill_miss f l off m b : ~ in_iovs l b -> fill f l off m b = m b.
Proof.
  intros H. unfold fill. assert (Ht : forall off, target_off l off b = None); [|by rewrite Ht].
  clear off. revert H. induction l as [|v l IH]; intros H off; [done|]. cbn. rewrite IH.
  - destruct ((iov_base v <=? b) && (b <? iov_base v + iov_len v)) eqn:E; [|done]. exfalso. apply H. exists v. split; [apply list_elem_of_here|lia].
  - intros (w & Hw & Hb). apply H. exists w. split; [by apply list_elem_of_further|done].
Qed.

Lemma queue_miss f q m b : (forall p, p ∈ q -> ~ in_iovs (to p) b) -> queue_mem f q m b = m b.
Proof.
  revert m. induction q as [|p q IH]; intros m H; [done|]. cbn. fold (queue_mem f q (fill f (to p) (from p) m)).
  rewrite IH by (intros p' Hp'; apply H; by apply list_elem_of_further). apply fill_miss, H, list_elem_of_here.
Qed.

(** ** Protections *)
Definition drops (v : rst_vma) : bool :=
  vma_entry_is (rv_e v) VMA_AREA_REGULAR && negb (has (v_prot (rv_e v)) PROT_WRITE) && negb (has (v_status (rv_e v)) VMA_NO_PROT_WRITE).

(** the protection that is left *)
Definition final_prot (v : rst_vma) (p : option Z) : option Z := if drops v then (fun _ => v_prot (rv_e v)) <$> p else p.

Section Protect.
Context {MK : MmKernel} `{!MmKernelLive MK}.

Lemma drop_prot_write_ok es : forall t s, in_order es -> (forall v, v ∈ es -> good_entry (rv_e v)) ->
  as_mem (snd (drop_prot_write es (t, s))) = as_mem s /\
  (forall i v a, es !! i = Some v -> in_dst (rv_e v) a -> as_prot (snd (drop_prot_write es (t, s))) a = final_prot v (as_prot s a)) /\
  (forall a, (forall v, v ∈ es -> ~ in_dst (rv_e v) a) -> as_prot (snd (drop_prot_write es (t, s))) a = as_prot s a).
Proof using MmKernelLive0.
  induction es as [|v es IH]; intros t s Ho Hg; [split; [done|]; split; [intros i v a; by rewrite lookup_nil|done]|].
  cbn [drop_prot_write].
  assert (Ho' : in_order es) by (intros i j x y Hij Hx Hy; apply (Ho (S i) (S j)); [lia|done..]).
  assert (Hg' : forall w, w ∈ es -> good_entry (rv_e w)) by (intros w Hw; apply Hg; by apply list_elem_of_further).
  destruct (Hg v (list_elem_of_here _ _)) as (G1 & G2 & _).
  assert (Hapart : forall i w a, es !! i = Some w -> in_dst (rv_e w) a -> ~ in_dst (rv_e v) a).
  { intros i w a Hw Ha Hv. by apply (order_apart (v :: es) 0 (S i) v w a Ho). }
  assert (Hrec : forall t1 s1, as_mem s1 = as_mem s -> (forall a, ~ in_dst (rv_e v) a -> as_prot s1 a = as_prot s a) ->
    (forall a, in_dst (rv_e v) a -> as_prot s1 a = final_prot v (as_prot s a)) ->
    let s' := snd (drop_prot_write es (t1, s1)) in
    as_mem s' = as_mem s /\
    (forall i w a, (v :: es) !! i = Some w -> in_dst (rv_e w) a -> as_prot s' a = final_prot w (as_prot s a)) /\
    (forall a, (forall w, w ∈ v :: es -> ~ in_dst (rv_e w) a) -> as_prot s' a = as_prot s a)).
  { intros t1 s1 Hm Hout Hin. destruct (IH t1 s1 Ho' Hg') as (H1 & H2 & H3). cbn zeta. split; [congruence|]. split.
    - intros [|i] w a Hw Ha.
      + injection Hw as <-. rewrite H3; [by apply Hin|]. intros u (i & Hu)%list_elem_of_lookup Hua. by eapply Hapart.
      + rewrite (H2 i w a Hw Ha). f_equal. apply Hout. by eapply Hapart.
    - intros a Ha. rewrite H3 by (intros w Hw; apply Ha; by apply list_elem_of_further). apply Hout, Ha, list_elem_of_here. }
  destruct (drops v) eqn:Ed.
  - pose proof Ed as Hd. unfold drops in Ed. apply andb_true_iff in Ed as [[E1 E2%negb_true_iff]%andb_true_iff E3%negb_true_iff].
    rewrite E1, E2, E3. cbn [negb orb]. unfold sys_mprotect. rewrite mprotect_ok. change (0 =? 0) with true. cbn iota. cbn [snd].
    assert (Hlen : vma_entry_len (rv_e v) = v_end (rv_e v) - v_start (rv_e v)) by (apply u64_id; unfold TASK_SIZE in *; lia).
    rewrite Hlen. unfold in_dst, final_prot in *. rewrite Hd in Hrec. apply Hrec; [done|..]; intros a Ha; cbn.
    + by rewrite (proj2 (within_false _ _ a)) by lia.
    + by rewrite (proj2 (within_true _ _ a)) by lia.
  - pose proof Ed as Hd. unfold drops in Ed.
    destruct (vma_entry_is (rv_e v) VMA_AREA_REGULAR), (has (v_prot (rv_e v)) PROT_WRITE), (has (v_status (rv_e v)) VMA_NO_PROT_WRITE);
      cbn [negb andb orb] in Ed |- *; try done; apply Hrec; intros; try done; unfold final_prot; by rewrite Hd.
Qed.
End Protect.

(** ** The whole *)
Section Task.
Context {MK : MmKernel} `{!MmKernelOk MK} `{!MmKernelLive MK} {RK : RstKernel} `{!RstKernelOk RK} `{!RstKernelLive RK}.
Variable args : restore_args.
Abbreviation es := (ra_vmas args).
Abbreviation pm := (premap_at es).

Definition in_boot (a : Z) : Prop := ra_bootstrap_start args <= a < ra_bootstrap_start args + ra_bootstrap_len args.
Definition in_premap (a : Z) : Prop := ra_premmapped_addr args <= a < ra_premmapped_addr args + ra_premmapped_len args.
Definition is_vdso (v : rst_vma) : bool := vma_entry_is (rv_e v) VMA_AREA_VDSO || vma_entry_is (rv_e v) VMA_AREA_VVAR.

(** what the restorer is given: its own place and that of the premapped areas, apart; the areas in order, none where the
    restorer is; the premapped ones in the same order in their place, where nothing else is mapped. *)
Record ready (s : aspace) : Prop := {
  rd_task : 0 <= ra_task_size args <= TASK_SIZE;
  rd_boot : 0 < ra_bootstrap_start args /\ 0 <= ra_bootstrap_len args /\ ra_bootstrap_start args + ra_bootstrap_len args < ra_task_size args;
  rd_premap : 0 < ra_premmapped_addr args /\ 0 <= ra_premmapped_len args /\ ra_premmapped_addr args + ra_premmapped_len args < ra_task_size args;
  rd_apart : ra_premmapped_addr args + ra_premmapped_len args < ra_bootstrap_start args \/
             ra_bootstrap_start args + ra_bootstrap_len args < ra_premmapped_addr args;
  rd_count : ra_vmas_n args = length es;
  rd_order : in_order es;
  rd_good : forall v, v ∈ es -> good_entry (rv_e v) /\ v_end (rv_e v) < ra_task_size args;
  rd_clear : forall v a, v ∈ es -> in_dst (rv_e v) a -> ~ in_boot a;
  rd_src : forall i e, pm i e -> aligned (v_shmid e) /\ ra_premmapped_addr args <= v_shmid e /\
    v_shmid e + len_of e <= ra_premmapped_addr args + ra_premmapped_len args;
  rd_src_order : forall i j e f, (i < j)%nat -> pm i e -> pm j f -> v_shmid e + len_of e <= v_shmid f;
  rd_sign : forall i j e f, (i < j)%nat -> pm i e -> pm j f -> v_shmid e < v_start e -> v_shmid f <= v_start f;
  rd_mapped : forall i e, pm i e -> mapped s (v_shmid e) (len_of e);
  rd_only : forall a, in_premap a -> is_Some (as_prot s a) -> exists i e, pm i e /\ in_src e a;
  rd_bounded : bounded s;
}.

(** [s1] is [s] without what is neither the restorer's nor premapped *)
Definition cleared (s s1 : aspace) : Prop :=
  (forall a, ~ in_boot a -> in_premap a -> same_at s s1 a) /\
  (forall a, ~ in_boot a -> ~ in_premap a -> 0 <= a < ra_task_size args -> as_prot s1 a = None) /\ bounded s1.

Lemma unmap_old_ok s t : ready s -> exists t' s1,
  unmap_old_vmas (ra_premmapped_addr args) (ra_premmapped_len args) (ra_bootstrap_start args) (ra_bootstrap_len args)
    (ra_task_size args) (t, s) = (0, (t', s1)) /\ cleared s s1.
Proof using MmKernelLive0.
  intros [T1 (B1 & B2 & B3) (P1 & P2 & P3) Hap _ _ _ _ _ _ _ _ _ Hb]. unfold unmap_old_vmas, TASK_SIZE in *.
  set (A := ra_premmapped_addr args) in *. set (L := ra_premmapped_len args) in *.
  set (B := ra_bootstrap_start args) in *. set (N := ra_bootstrap_len args) in *. set (T := ra_task_size args) in *.
  destruct (Z.ltb_spec A B) as [Hlt|Hge].
  all: rewrite !(u64_id (_ + _)) by lia; rewrite !u64_id by lia; unfold sys_munmap; rewrite !munmap_ok by lia;
    change (0 =? 0) with true; cbn [negb]; eexists _, _; split; [done|]; unfold cleared, in_boot, in_premap; fold A L B N T; split_and!.
  1,4: intros a H1 H2; unfold same_at; cbn; rewrite !(proj2 (within_false _ _ a)) by lia; done.
  1,3: intros a H1 H2 H3; cbn;
    repeat match goal with |- context [within ?x ?y a] => let E := fresh in destruct (within x y a) eqn:E; [done|apply within_false in E] end; lia.
  all: intros a Ha; apply Hb; revert Ha; cbn; repeat case_match; try done; by intros [].
Qed.

(** what [map_vdso] and [vdso_proxify] may change *)
Definition boot_only (f : astate -> Z * astate) : Prop := forall t s, exists t' s', f (t, s) = (0, (t', s')) /\
  forall a, ~ in_boot a -> same_at s s' a.
Definition vdso_only (f : astate -> Z * astate) : Prop := forall t s, exists t' s', f (t, s) = (0, (t', s')) /\
  forall a, ~ in_boot a -> (forall v, v ∈ es -> is_vdso v = true -> ~ in_dst (rv_e v) a) -> same_at s s' a.

Lemma cleared_boot s s1 s2 : ready s -> (forall a, ~ in_boot a -> same_at s1 s2 a) -> cleared s s1 -> cleared s s2.
Proof using Type.
  intros Hr Hx (H1 & H2 & H3). split_and!.
  - intros a Hb Hp. destruct (Hx a Hb), (H1 a Hb Hp). split; congruence.
  - intros a Hb Hp Ha. destruct (Hx a Hb) as [-> _]. by apply H2.
  - intros a Ha. destruct (decide (ra_bootstrap_start args <= a < ra_bootstrap_start args + ra_bootstrap_len args)) as [Hb|Hb].
    + destruct (rd_boot _ Hr) as (?&?&?). pose proof (rd_task _ Hr). lia.
    + destruct (Hx a Hb) as [Hp _]. rewrite Hp in Ha. by apply H3.
Qed.

Lemma premap_not_boot s a : ready s -> in_premap a -> ~ in_boot a.
Proof using Type. intros Hr. destruct (rd_apart _ Hr); unfold in_premap, in_boot; lia. Qed.

Lemma src_in_premap s i e x : ready s -> pm i e -> 0 <= x < len_of e -> in_premap (v_shmid e + x).
Proof using Type. intros Hr Hp Hx. destruct (rd_src _ Hr i e Hp) as (_ & ? & ?). unfold in_premap. lia. Qed.

Lemma pm_in i e : pm i e -> exists v, es !! i = Some v /\ v ∈ es /\ rv_e v = e.
Proof using Type. intros (v & Hv & He & _). exists v. split; [done|]. split; [by eapply list_elem_of_lookup_2|done]. Qed.

Lemma cleared_layout s s1 : ready s -> cleared s s1 -> layout (ra_task_size args) es s1.
Proof using Type.
  intros Hr (H1 & H2 & H3). pose proof (rd_task _ Hr) as Ht. destruct (rd_premap _ Hr) as (P1 & P2 & P3). split.
  - intros i e Hp. destruct (pm_in i e Hp) as (v & _ & Hv & <-). destruct (rd_good _ Hr v Hv) as [(G1 & G2 & G3 & G4) G5].
    destruct (rd_src _ Hr i _ Hp) as (S1 & S2 & S3). split; [|done]. split; [unfold TASK_SIZE in *; lia|done|done].
  - intros i j e f Hij (v & Hv & <- & _) (w & Hw & <- & _). by apply (rd_order _ Hr i j).
  - apply (rd_src_order _ Hr).
  - apply (rd_sign _ Hr).
  - intros i e Hp a Ha. assert (Hin : in_premap a) by (replace a with (v_shmid e + (a - v_shmid e)) by lia; eapply src_in_premap; [done..|lia]).
    destruct (H1 a) as [-> _]; [by eapply premap_not_boot|done|]. by apply (rd_mapped _ Hr i e Hp).
  - intros i e a Hp Ha Hs. destruct (pm_in i e Hp) as (v & _ & Hv & <-). pose proof (rd_clear _ Hr v a Hv Ha) as Hnb.
    destruct (decide (ra_premmapped_addr args <= a < ra_premmapped_addr args + ra_premmapped_len args)) as [Hin|Hin].
    + apply (rd_only _ Hr a Hin). by destruct (H1 a Hnb Hin) as [<- _].
    + rewrite (H2 a) in Hs; [by destruct Hs|done|done|]. destruct (rd_good _ Hr v Hv) as [(G1 & _) ?]. unfold in_dst in Ha. lia.
  - done.
Qed.

(** what is left to be read goes to areas that are mapped in place and can be written *)
Record ios_ok (fuel : nat) : Prop := {
  io_shape : Forall (fun o => Forall (fun v => 0 < iov_len v) (rio_iovs o) /\ (Z.to_nat (bytes_of (rio_iovs o)) <= fuel)%nat) (ra_vma_ios args);
  io_areas : forall o a, o ∈ ra_vma_ios args -> in_iovs (rio_iovs o) a ->
    exists v, v ∈ es /\ mapped_here v = true /\ in_dst (rv_e v) a /\ has (mapping_prot v) PROT_WRITE = true;
}.

Abbreviation ios := (piov_of <$> ra_vma_ios args).

(** the areas in [s'], when the temporary places were as in [s] *)
Record restored (pages : Z -> Z) (s s' : aspace) (prot : rst_vma -> option Z -> option Z) (keep : rst_vma -> Prop) : Prop := {
  re_premapped : forall i v x, es !! i = Some v -> vma_entry_is (rv_e v) VMA_PREMMAPED = true -> keep v -> 0 <= x < len_of (rv_e v) ->
    as_mem s' (v_start (rv_e v) + x) = as_mem s (v_shmid (rv_e v) + x) /\
    as_prot s' (v_start (rv_e v) + x) = prot v (as_prot s (v_shmid (rv_e v) + x));
  re_mapped : forall i v, es !! i = Some v -> mapped_here v = true -> keep v -> exists t, forall a, in_dst (rv_e v) a ->
    as_mem s' a = queue_mem pages ios (fun b => k_content t (mapping_flags v) (b - v_start (rv_e v))) a /\
    as_prot s' a = prot v (Some (mapping_prot v));
  re_gone : forall a, 0 <= a < ra_task_size args -> ~ in_boot a ->
    (forall v, v ∈ es -> vma_entry_is (rv_e v) VMA_PREMMAPED = true \/ mapped_here v = true \/ is_vdso v = true -> ~ in_dst (rv_e v) a) ->
    as_prot s' a = None;
}.

Lemma mapped_not_premapped v : mapped_here v = true -> vma_entry_is (rv_e v) VMA_PREMMAPED = false.
Proof. unfold mapped_here. rewrite andb_true_iff, negb_true_iff. by intros []. Qed.

(** an address of one entry is not in another *)
Lemma entry_unique s v w a : ready s -> v ∈ es -> w ∈ es -> in_dst (rv_e v) a -> in_dst (rv_e w) a -> v = w.
Proof using Type.
  intros Hr [i Hi]%list_elem_of_lookup [j Hj]%list_elem_of_lookup Ha Hb.
  destruct (decide (i = j)) as [->|Hne]; [congruence|]. by destruct (order_apart es i j v w a (rd_order _ Hr) Hne Hi Hj Ha).
Qed.

Lemma io_not_premapped fuel s v a p : ready s -> ios_ok fuel -> v ∈ es -> vma_entry_is (rv_e v) VMA_PREMMAPED = true ->
  in_dst (rv_e v) a -> p ∈ ios -> ~ in_iovs (to p) a.
Proof using Type.
  intros Hr Hio Hv Hp Ha (o & -> & Ho)%list_elem_of_fmap Hin. destruct (io_areas _ Hio o a Ho Hin) as (w & Hw & Hm & Hwa & _).
  rewrite (entry_unique s v w a) in Hp by done. by rewrite (mapped_not_premapped w) in Hp.
Qed.

Lemma restore_areas_ok fuel pages t s s1 :
  ready s -> ios_ok fuel -> uffd_fine (ra_uffd args) -> ra_auto_dedup args = false ->
  (forall v, v ∈ es -> mapped_here v = true -> vma_entry_is (rv_e v) VMA_AREA_SYSVIPC = false) -> cleared s s1 ->
  exists t' s', restore_areas fuel args pages (t, s1) = Done (0, es, pages, (t', s')) /\ restored pages s s' (fun _ p => p) (fun _ => True).
Proof using All.
  intros Hr Hio Hu Hdd Hsv Hcl. pose proof (cleared_layout s s1 Hr Hcl) as Hlay. unfold restore_areas. rewrite (rd_count _ Hr).
  destruct (shift_ok args s1 Hu Hlay t) as (t1 & s2 & t2 & s3 & -> & E2 & Hsh). cbn [rbind]. change (negb (0 =? 0)) with false. cbn iota.
  rewrite E2. cbn [rbind fst snd]. change (negb (0 =? 0)) with false. cbn iota. rewrite prctl_ok. rewrite andb_false_r.
  destruct (map_areas_ok es (rd_order _ Hr) (fun v Hv => proj1 (rd_good _ Hr v Hv)) Hsv (length es) 0
              (if (-1 <? ra_uffd args) && ra_has_thp_enabled args then S t2 else t2) s3) as (t3 & s4 & -> & Hnew & Hold); [done|].
  cbn [rbind]. change (negb (0 =? 0)) with false. cbn iota. rewrite Hdd.
  destruct (read_vma_ios_ok fuel pages (ra_vma_ios args) t3 s4 (io_shape _ Hio)) as (t4 & s5 & -> & Hp5 & Hm5).
  { intros o a Ho Ha. destruct (io_areas _ Hio o a Ho Ha) as (v & [i Hv]%list_elem_of_lookup & Hmp & Hd & Hw).
    destruct (Hnew i v ltac:(lia) Hv Hmp) as [t0 Hn]. exists (mapping_prot v). split; [|done]. by apply Hn. }
  cbn [rbind]. exists t4, s5. split; [done|]. destruct Hcl as (C1 & C2 & _).
  assert (Hout : forall a v, v ∈ es -> in_dst (rv_e v) a -> mapped_here v = false -> same_at s3 s4 a).
  { intros a v Hv Ha Hm. apply Hold. intros j w _ Hw Hwm Hwa. apply list_elem_of_lookup_2 in Hw.
    pose proof (entry_unique s v w a Hr Hv Hw Ha Hwa). congruence. }
  split.
  - intros i v x Hv Hp _ Hx. assert (Hin : v ∈ es) by (by eapply list_elem_of_lookup_2).
    assert (Hpm : pm i (rv_e v)) by (by exists v). assert (Hd : in_dst (rv_e v) (v_start (rv_e v) + x)) by (unfold in_dst, len_of in *; lia).
    destruct (Hout _ v Hin Hd) as [Q1 Q2]; [unfold mapped_here; rewrite Hp; apply andb_false_r|].
    destruct (sh_moved _ _ _ _ Hsh i (rv_e v) x Hpm eq_refl Hx) as [M1 M2].
    pose proof (src_in_premap s i _ x Hr Hpm Hx) as Hpa. destruct (C1 _ (premap_not_boot _ _ Hr Hpa) Hpa) as [N1 N2].
    rewrite Hp5, Q1, M2, N1, Hm5, queue_miss, Q2, M1, N2; [done|]. intros p Hpp. by eapply io_not_premapped.
  - intros i v Hv Hmp _. destruct (Hnew i v ltac:(lia) Hv Hmp) as [t0 Hn]. exists t0. intros a Ha. destruct (Hn a Ha) as [N1 N2].
    rewrite Hp5, N2, Hm5. split; [|done]. by apply queue_pointwise.
  - intros a Ha Hnb Hno. rewrite Hp5. destruct (Hold a) as [-> _].
    { intros j w _ Hw Hmp. apply Hno; [by eapply list_elem_of_lookup_2|by right; left]. }
    assert (Hmv : forall i e, pm i e -> true = true -> ~ in_dst e a).
    { intros i e (w & Hw & <- & Hpp) _. apply Hno; [by eapply list_elem_of_lookup_2|by left]. }
    destruct (src_dec args a) as [Hs|Hs]; [apply (sh_left _ _ _ _ Hsh); done|].
    destruct (sh_else _ _ _ _ Hsh a Hmv Hs) as [-> _].
    destruct (decide (ra_premmapped_addr args <= a < ra_premmapped_addr args + ra_premmapped_len args)) as [Hin|Hin]; [|by apply C2].
    destruct (C1 a Hnb Hin) as [-> _]. destruct (as_prot s a) eqn:E; [|done].
    destruct (rd_only _ Hr a Hin ltac:(by rewrite E)) as (i & e & Hpm & Hx). by destruct (Hs i e Hpm).
Qed.

Lemma dst_dec a : (exists i v, es !! i = Some v /\ in_dst (rv_e v) a) \/ (forall v, v ∈ es -> ~ in_dst (rv_e v) a).
Proof using Type.
  clear. induction es as [|w l [(i & v & Hv & Ha)|H]].
  - right. by intros v ?%elem_of_nil.
  - left. by exists (S i), v.
  - destruct (decide (v_start (rv_e w) <= a < v_end (rv_e w))) as [Hw|Hw]; [left; by exists 0%nat, w|].
    right. intros v [->|Hv]%elem_of_cons; [done|by apply H].
Qed.

Lemma restore_memory_ok map_vdso vdso_proxify can_map_vdso fuel pages t s :
  ready s -> ios_ok fuel -> uffd_fine (ra_uffd args) -> ra_auto_dedup args = false ->
  (forall v, v ∈ es -> mapped_here v = true -> vma_entry_is (rv_e v) VMA_AREA_SYSVIPC = false) ->
  boot_only map_vdso -> vdso_only vdso_proxify ->
  exists t' s', restore_memory map_vdso vdso_proxify fuel can_map_vdso args pages (t, s) = Done (0, es, pages, (t', s')) /\
    restored pages s s' final_prot (fun v => is_vdso v = false).
Proof using All.
  intros Hr Hio Hu Hdd Hsv Hmv Hvp. unfold restore_memory.
  destruct (unmap_old_ok s t Hr) as (t1 & s1 & -> & Hcl). change (negb (0 =? 0)) with false. cbn iota.
  set (st2 := if can_map_vdso then _ else _).
  assert (Hv1 : exists t2 s2, st2 = (0, (t2, s2)) /\ cleared s s2).
  { subst st2. destruct can_map_vdso; [|by exists t1, s1]. destruct (Hmv t1 s1) as (t2 & s2 & -> & Hsame). exists t2, s2. split; [done|].
    by eapply cleared_boot. }
  destruct Hv1 as (t2 & s2 & -> & Hcl2). change (0 <? 0) with false. cbn iota.
  destruct (restore_areas_ok fuel pages t2 s s2 Hr Hio Hu Hdd Hsv Hcl2) as (t3 & s3 & -> & [R1 R2 R3]). cbn [rbind].
  change (negb (0 =? 0)) with false. cbn iota. destruct (Hvp t3 s3) as (t4 & s4 & -> & Hsame). change (negb (0 =? 0)) with false. cbn iota.
  rewrite (rd_count _ Hr), take_ge by done.
  destruct (drop_prot_write_ok es t4 s4 (rd_order _ Hr) (fun v Hv => proj1 (rd_good _ Hr v Hv))) as (D1 & D2 & D3).
  destruct (drop_prot_write es (t4, s4)) as [t5 s5]. cbn [snd] in D1, D2, D3. exists t5, s5. split; [done|].
  assert (Hkeep : forall i v a, es !! i = Some v -> is_vdso v = false -> in_dst (rv_e v) a -> same_at s3 s4 a).
  { intros i v a Hv%list_elem_of_lookup_2 Hvd Ha. apply Hsame; [by apply (rd_clear _ Hr v)|]. intros w Hw Hwv Hwa.
    rewrite (entry_unique s v w a Hr Hv Hw Ha Hwa) in Hvd. congruence. }
  split.
  - intros i v x Hv Hp Hvd Hx. assert (Hd : in_dst (rv_e v) (v_start (rv_e v) + x)) by (unfold in_dst, len_of in *; lia).
    destruct (Hkeep i v _ Hv Hvd Hd) as [K1 K2]. destruct (R1 i v x Hv Hp I Hx) as [H1 H2].
    rewrite D1, (D2 i v _ Hv Hd), K1, K2, H1, H2. done.
  - intros i v Hv Hmp Hvd. destruct (R2 i v Hv Hmp I) as [t0 H]. exists t0. intros a Ha. destruct (Hkeep i v a Hv Hvd Ha) as [K1 K2].
    destruct (H a Ha) as [H1 H2]. rewrite D1, (D2 i v a Hv Ha), K1, K2, H1, H2. done.
  - intros a Ha Hnb Hno. assert (Hgone : as_prot s4 a = None).
    { destruct (Hsame a Hnb) as [-> _]; [|by apply R3]. intros v Hv Hvd. apply Hno; [done|by right; right]. }
    destruct (dst_dec a) as [(i & v & Hv & Hd)|Hd].
    + rewrite (D2 i v a Hv Hd), Hgone. unfold final_prot. by destruct (drops v).
    + by rewrite D3.
Qed.
End Task.


(** two areas in their temporary place, one that goes down by a page and one that goes up, and one that is read in place *)
Definition demo_rst_kernel : RstKernel := {|
  k_uffd_register _ := 0; k_shmat _ _ _ a _ := a; k_shm_len _ := PAGE_SIZE; k_shm_content _ _ _ := 0; k_prctl _ := 0;
  k_read_into _ _ l := bytes_of l; k_punch _ := 0 |}.

#[export] Instance demo_rst_kernel_ok : RstKernelOk demo_rst_kernel.
Proof. split. intros. cbn. lia. Qed.
#[export] Instance demo_rst_kernel_live : RstKernelLive demo_rst_kernel.
Proof. split; [|done]. intros t s l Hne Hl _. cbn. pose proof (bytes_pos l Hne Hl). lia. Qed.

Definition demo_rst (start end_ src status : Z) : rst_vma :=
  mk_rv (mk_vma (start * PAGE_SIZE) (end_ * PAGE_SIZE) 0 (src * PAGE_SIZE) 1 0x22 (Z.lor (Z.lor VMA_AREA_REGULAR VMA_ANON_PRIVATE) status)) (-1).
Definition demo_rst_areas : list rst_vma :=
  [demo_rst 255 258 256 VMA_PREMMAPED; demo_rst 300 302 259 VMA_PREMMAPED; demo_rst 310 312 0 0].
Definition demo_rst_args : restore_args :=
  mk_ra (-1) false demo_rst_areas 3 [mk_rio 0 [mk_iovec (310 * PAGE_SIZE) PAGE_SIZE]] (2 ^ 47 - PAGE_SIZE) (256 * PAGE_SIZE) (5 * PAGE_SIZE)
        (400 * PAGE_SIZE) (2 * PAGE_SIZE) false.
Definition demo_rst_space : aspace :=
  mk_as (fun a => a mod 251) (fun a => if within (256 * PAGE_SIZE) (5 * PAGE_SIZE) a || within (400 * PAGE_SIZE) (2 * PAGE_SIZE) a ||
                                         within (50 * PAGE_SIZE) PAGE_SIZE a then Some 3 else None).

Lemma demo_rst_pm i e : premap_at demo_rst_areas i e ->
  (i = 0%nat /\ e = rv_e (demo_rst 255 258 256 VMA_PREMMAPED)) \/ (i = 1%nat /\ e = rv_e (demo_rst 300 302 259 VMA_PREMMAPED)).
Proof. intros (v & Hv & <- & Hp). destruct i as [|[|[|]]]; cbn in Hv; simplify_eq; auto. Qed.

Lemma demo_rst_in v : v ∈ demo_rst_areas -> v = demo_rst 255 258 256 VMA_PREMMAPED \/ v = demo_rst 300 302 259 VMA_PREMMAPED \/ v = demo_rst 310 312 0 0.
Proof. unfold demo_rst_areas. rewrite !elem_of_cons. intros [?|[?|[?|[]%elem_of_nil]]]; auto. Qed.

Lemma demo_rst_mapped a : is_Some (as_prot demo_rst_space a) <->
  256 * PAGE_SIZE <= a < 261 * PAGE_SIZE \/ 400 * PAGE_SIZE <= a < 402 * PAGE_SIZE \/ 50 * PAGE_SIZE <= a < 51 * PAGE_SIZE.
Proof.
  unfold demo_rst_space. cbn. split.
  - destruct (within _ _ a || _ || _) eqn:E; [|by intros []]. intros _.
    apply orb_true_iff in E as [[E|E]%orb_true_iff|E]; apply within_true in E; plia.
  - intros H. assert (E : within (256 * PAGE_SIZE) (5 * PAGE_SIZE) a || within (400 * PAGE_SIZE) (2 * PAGE_SIZE) a || within (50 * PAGE_SIZE) PAGE_SIZE a = true).
    { rewrite !orb_true_iff, !within_true. plia. }
    rewrite E. eauto.
Qed.

Lemma demo_ready : ready demo_rst_args demo_rst_space.
Proof.
  assert (HP : PAGE_SIZE = 4096) by done. split.
  - vm_compute. intuition congruence.
  - vm_compute. intuition congruence.
  - vm_compute. intuition congruence.
  - left. done.
  - done.
  - intros i j v w Hij Hv Hw. destruct i as [|[|[|]]], j as [|[|[|]]]; cbn in Hv, Hw; simplify_eq; try lia; vm_compute; congruence.
  - intros v [->|[->| ->]]%demo_rst_in; vm_compute; intuition congruence.
  - intros v a [->|[->| ->]]%demo_rst_in; unfold in_dst, in_boot; cbn; lia.
  - intros i e [[-> ->]|[-> ->]]%demo_rst_pm; vm_compute; intuition congruence.
  - intros i j e f Hij Hp Hq. apply demo_rst_pm in Hp as [[-> ->]|[-> ->]], Hq as [[-> ->]|[-> ->]]; try lia. vm_compute. congruence.
  - intros i j e f Hij Hp Hq. apply demo_rst_pm in Hp as [[-> ->]|[-> ->]], Hq as [[-> ->]|[-> ->]]; try lia. vm_compute. congruence.
  - intros i e [[-> ->]|[-> ->]]%demo_rst_pm a Ha; apply demo_rst_mapped; unfold len_of in Ha; cbn in Ha; lia.
  - intros a Ha _. unfold in_premap in Ha. cbn in Ha. destruct (Z.lt_ge_cases a (259 * PAGE_SIZE)).
    + exists 0%nat, (rv_e (demo_rst 255 258 256 VMA_PREMMAPED)). split; [by eexists|]. unfold in_src, len_of. cbn. lia.
    + exists 1%nat, (rv_e (demo_rst 300 302 259 VMA_PREMMAPED)). split; [by eexists|]. unfold in_src, len_of. cbn. lia.
  - intros a Ha%demo_rst_mapped. unfold TASK_SIZE. lia.
Qed.


(** an area of a task, readable and writable, and what its child has made of it: it can be executed too *)
Definition demo_cow (prot : Z) : vma_area :=
  mk_varea (mk_vma (300 * PAGE_SIZE) (302 * PAGE_SIZE) 0 0 prot 0x22 (Z.lor VMA_AREA_REGULAR VMA_ANON_PRIVATE)) NoPvma (Some [0]) (256 * PAGE_SIZE) false.

End Restored.
