(* ===== verification/TaskMemory.v ===== *)
(** * A task's private memory, from its images to its addresses

    The stages of a restore put together: [prepare_mappings], [unmap_guard_pages] and [prepare_vmas] (criu/mem.c) in the
    task that is being restored, then the memory part of the restorer (criu/pie/restorer.c). *)
From S2P Require Import Prelude.
From S2P Require Import Bitmap.
From S2P Require Import Vma.
From S2P Require Import AddrSpace.
From S2P Require Import Pagemap.
From S2P Require Import MemRestore.
From S2P Require Import Premap.
From S2P Require Import Content.
From S2P Require Import Restorer.
From S2P Require Import Restored.

Module TaskMemory.
Export Premap.Premap Content.Content Restored.

(** ** Status bits *)
Lemma land_bit w k : 0 <= k -> (Z.land w (Z.shiftl 1 k) =? Z.shiftl 1 k) = Z.testbit w k.
Proof.
  intros Hk. rewrite Z.shiftl_1_l. destruct (Z.testbit w k) eqn:E.
  - apply Z.eqb_eq, Z.bits_inj'. intros n Hn. rewrite Z.land_spec. destruct (Z.eq_dec n k) as [->|Hne].
    + by rewrite E, Z.pow2_bits_true.
    + rewrite Z.pow2_bits_false by lia. apply andb_false_r.
  - apply Z.eqb_neq. intros H. assert (Hb : Z.testbit (Z.land w (2 ^ k)) k = true) by (by rewrite H, Z.pow2_bits_true).
    rewrite Z.land_spec, E in Hb. done.
Qed.

Lemma entry_is_bit e k : 0 <= k -> vma_entry_is e (Z.shiftl 1 k) = Z.testbit (v_status e) k.
Proof. apply land_bit. Qed.

Lemma added_bit e j k : 0 <= k -> vma_entry_is (add_status e (Z.shiftl 1 j)) (Z.shiftl 1 k) = vma_entry_is e (Z.shiftl 1 k) || Z.testbit (Z.shiftl 1 j) k.
Proof. intros Hk. rewrite !entry_is_bit by done. cbn. apply Z.lor_spec. Qed.

(** a status bit that was added is not another one *)
Ltac status_bit := unfold vma_area_is, premapped_at, set_e in *; cbn [va_e] in *; unfold VMA_PREMMAPED, VMA_NO_PROT_WRITE, VMA_CLOSE, VMA_AREA_REGULAR, VMA_ANON_PRIVATE, VMA_FILE_PRIVATE,
  VMA_AREA_AIORING, VMA_AREA_SYSVIPC, VMA_AREA_VDSO, VMA_AREA_VVAR in *;
  rewrite ?added_bit by lia;
  repeat match goal with |- context [Z.testbit (Z.shiftl 1 ?a) ?b] => first [change (Z.testbit (Z.shiftl 1 a) b) with false | change (Z.testbit (Z.shiftl 1 a) b) with true] end;
  rewrite ?orb_false_r, ?orb_true_r.

Lemma private_added e b ts : b = VMA_PREMMAPED \/ b = VMA_NO_PROT_WRITE -> vma_entry_is_private (add_status e b) ts = vma_entry_is_private e ts.
Proof. intros [->| ->]; unfold vma_entry_is_private; status_bit; done. Qed.

(** ** The setting *)
Section Task.
Context {RK : ReadKernel} `{!ReadKernelOk RK} `{!ReadKernelLive RK} {MK : MmKernel} `{!MmKernelOk MK} `{!MmKernelLive MK}.
Variables (env : rst_env) (open_area prctl : clock -> Z).
(** the areas of the task, its images, the page on the stack *)
Variables (vmas : list vma_area) (pr : page_read) (up : list page_read) (buf : Z) (iofuel : nat) (stream : bool).

Abbreviation chain := (pr :: up).
Abbreviation D := (brought env (pmes pr)).
Abbreviation ok := (pieok env stream chain).
Abbreviation private v := (vma_area_is_private v (task_size env)).
Abbreviation premaps_at i v := (premaps env ok (prev_end None vmas i) v).
Abbreviation place_at R i := (place env ok None R vmas i).

(** The task shares no area with its parent; its areas are in order, with room for the hidden guard pages; the pagemap
    describes pages of its private areas, which can be found. *)
Record task_ok : Prop := {
  tk_asc : ascending env 0 vmas;
  tk_gap : gapped env 0 vmas;
  tk_area : forall v, v ∈ vmas -> 0 < vstart v /\ vend v < task_size env /\ pages_of v < 2 ^ 31;
  tk_own : forall v, v ∈ vmas -> vma_inherited v = false;
  tk_new : forall v, v ∈ vmas -> vma_entry_is (va_e v) VMA_PREMMAPED = false /\ vma_entry_is (va_e v) VMA_NO_PROT_WRITE = false;
  tk_file : forall v, v ∈ vmas -> vma_area_is v VMA_FILE_PRIVATE = true -> vm_open v = true;
  tk_kind : forall v, v ∈ vmas -> private v = true -> has (v_flags (va_e v)) MAP_SHARED = false /\ vma_entry_is (va_e v) VMA_ANON_SHARED = false;
  tk_some : vmas <> [];
  tk_size : task_size env <= TASK_SIZE;
  tk_reset : Forall reader_reset chain;
  tk_pages : pmes pr <> [];
  tk_covers : forall e, e ∈ pmes pr -> skipped env e = false -> resolvable chain (vaddr e) (nr_pages e * PAGE_SIZE) /\
    forall a, covers e a -> exists v, v ∈ vmas /\ in_area v a /\ private v = true;
  tk_malloc : forall t, k_xmalloc t = true;
  tk_open : forall t, open_area t = 0;
  tk_prctl : forall t, prctl t = 0;
  tk_fuel : Forall (fun pr => (Z.to_nat (pages_off (pmes pr)) <= iofuel)%nat) chain /\ (Z.to_nat PAGE_SIZE <= iofuel)%nat;
}.
Hypothesis Htask : task_ok.

Lemma own_source pvmas v : v ∈ vmas -> source env pvmas v = None.
Proof using Htask. intros Hv. pose proof (tk_own Htask v Hv) as H. unfold vma_inherited, source in *. by destruct (pvma v). Qed.

Lemma own_sources pvmas s lo hi : sources_ok env pvmas ok s None lo hi vmas.
Proof using Htask.
  assert (H : forall l prev, (forall v, v ∈ l -> v ∈ vmas) -> sources_ok env pvmas ok s prev lo hi l); [|by apply H].
  induction l as [|v l IH]; intros prev Hl; cbn; [done|]. split; [|apply IH; intros w Hw; apply Hl; by apply list_elem_of_further].
  intros _. pose proof (own_source pvmas v (Hl v (list_elem_of_here _ _))) as Hs. split.
  - unfold mappable. pose proof (tk_own Htask v (Hl v (list_elem_of_here _ _))) as Ho. unfold vma_inherited in Ho.
    destruct (pvma v); [| |done]. all: apply (tk_file Htask), Hl, list_elem_of_here.
  - intros w a _ Ha. unfold in_source in Ha. by rewrite Hs in Ha.
Qed.

Lemma area_bounds v : v ∈ vmas -> Premap.area_ok env v /\ Content.entry_ok (va_e v).
Proof using Htask.
  intros Hv. assert (H : forall lo l, ascending env lo l -> v ∈ l -> Premap.area_ok env v).
  { clear. intros lo l. revert lo. induction l as [|w l IH]; intros lo; [by intros _ ?%elem_of_nil|].
    intros (_ & Hw & Ha) [->|Hv]%elem_of_cons; [done|by eapply IH]. }
  pose proof (H 0 vmas (tk_asc Htask) Hv) as Hok. split; [done|]. destruct Hok as ((H1 & H2 & H3 & H4 & H5) & _).
  destruct (tk_area Htask v Hv) as (_ & _ & Hp). unfold pages_of in Hp. by split_and!.
Qed.

Lemma in_order_areas i j v w : (i < j)%nat -> vmas !! i = Some v -> vmas !! j = Some w -> vend v <= vstart w.
Proof using Htask.
  pose proof (tk_asc Htask) as Ha. revert Ha. clear. generalize 0 as lo. revert i j. induction vmas as [|u l IH]; intros i j lo Ha Hij Hi Hj; [done|].
  destruct j as [|j]; [lia|]. destruct Ha as (_ & Hu & Ha). destruct i as [|i]; cbn in Hi, Hj; [|eapply IH; [exact Ha| |done|done]; lia].
  injection Hi as ->. revert Ha Hj. generalize (vend v) as lo'. clear. intros lo'. revert j lo'. induction l as [|u l IH]; intros j lo'; [done|].
  intros (H1 & ((_ & H2 & _) & _) & Ha). destruct j as [|j]; cbn; [intros [= ->]; lia|]. intros Hj. specialize (IH j _ Ha Hj). lia.
Qed.

(** ** The areas in their temporary places *)

(** area [v] of the image after the premapping from [R] on *)
Definition laid_at (R : Z) (i : nat) (v v' : vma_area) : Prop :=
  if premaps_at i v then v' = premapped_at env v (place_at R i)
  else v' = v \/ v' = set_e v (add_status (va_e v) VMA_NO_PROT_WRITE) /\ untouched pr (va_e v).

Record laid (R : Z) (l : list vma_area) : Prop := {
  la_base : 0 < R /\ aligned R /\ R + taken env ok None vmas <= TASK_SIZE;
  la_area : forall i v', l !! i = Some v' -> exists v, vmas !! i = Some v /\ v ∈ vmas /\ laid_at R i v v';
}.

(** what the premapping leaves as it was *)
Definition kept (v v' : vma_area) : Prop :=
  vstart v' = vstart v /\ vend v' = vend v /\ v_prot (va_e v') = v_prot (va_e v) /\ v_flags (va_e v') = v_flags (va_e v) /\
  pvma v' = pvma v /\ private v' = private v.

Lemma laid_kept R i v v' : laid_at R i v v' -> kept v v'.
Proof using Type.
  unfold laid_at, kept. destruct (premaps_at i v).
  - intros ->. unfold vma_area_is_private. cbn. rewrite private_added by auto. done.
  - intros [->|[-> _]]; [done|]. unfold vma_area_is_private. cbn. rewrite private_added by auto. done.
Qed.

Lemma laid_premapped R i v v' : v ∈ vmas -> laid_at R i v v' -> premapped v' = premaps_at i v.
Proof using Htask.
  intros Hv. destruct (tk_new Htask v Hv) as [H1 _]. unfold laid_at, premapped. destruct (premaps_at i v).
  - intros ->. cbn. status_bit. done.
  - intros [->|[-> _]]; [exact H1|]. cbn. status_bit. exact H1.
Qed.

(** the place of a premapped area *)
Lemma laid_place R i v v' : 0 < R -> vmas !! i = Some v -> premaps_at i v = true -> laid_at R i v v' ->
  premmaped_addr v' = place_at R i + guard env v /\ page_bitmap v' = Some (zero_bitmap v) /\
  R <= place_at R i /\ place_at R i + slot env v <= R + taken env ok None vmas.
Proof using Htask.
  intros HR Hi Hp. unfold laid_at. rewrite Hp. intros ->. cbn.
  destruct (place_in env ok vmas None R 0 i v (tk_asc Htask) Hi Hp). done.
Qed.

Lemma guard_nonneg v : 0 <= guard env v.
Proof. unfold guard. destruct (vma_has_guard_gap_hidden env v); plia. Qed.

Lemma zero_bitmap_for v : v ∈ vmas -> bitmap_for (pages_of v) (zero_bitmap v).
Proof using Htask.
  intros Hv. destruct (area_bounds v Hv) as [_ (H1 & H2 & H3 & H4 & H5 & H6)]. unfold bitmap_for, zero_bitmap. split.
  - apply Forall_replicate. lia.
  - fold (pages_of v). assert (0 <= pages_of v) by (unfold pages_of; pdiv). fold (pages_of v) in H6. rewrite length_replicate.
    unfold BITS_TO_LONGS, DIV_ROUND_UP, BITS_PER_LONG. rewrite u64_id by lia. Z.div_mod_to_equations. lia.
Qed.

Lemma places_apart R i j v w b : vmas !! i = Some v -> vmas !! j = Some w -> premaps_at i v = true -> premaps_at j w = true ->
  place_at R i <= b < place_at R i + slot env v -> place_at R j <= b < place_at R j + slot env w -> i = j.
Proof using Htask.
  intros Hi Hj Hp Hq Ha Hb. destruct (Nat.lt_total i j) as [H|[H|H]]; [|done|].
  - pose proof (place_before env ok vmas None R 0 i j v (tk_asc Htask) H Hi Hp). lia.
  - pose proof (place_before env ok vmas None R 0 j i w (tk_asc Htask) H Hj Hq). lia.
Qed.

Lemma laid_tmp R i v v' b : laid_at R i v v' -> premaps_at i v = true -> in_tmp v' b -> place_at R i <= b < place_at R i + slot env v.
Proof using Type.
  intros Hl Hp. pose proof (laid_kept R i v v' Hl) as (K1 & K2 & _). pose proof (guard_nonneg v).
  unfold laid_at in Hl. rewrite Hp in Hl. subst v'. unfold in_tmp, slot. cbn. lia.
Qed.

Lemma laid_setting R l pvmas : laid R l -> (buf + PAGE_SIZE <= R \/ R + taken env ok None vmas <= buf) -> setting l pvmas buf.
Proof using Htask.
  intros [(HR & HRa & HRt) Hl] Hbuf.
  assert (Hin : forall v', v' ∈ l -> exists i v, l !! i = Some v' /\ vmas !! i = Some v /\ v ∈ vmas /\ laid_at R i v v' /\ kept v v').
  { intros v' [i Hi]%list_elem_of_lookup. destruct (Hl i v' Hi) as (v & H1 & H2 & H3). exists i, v. split_and!; try done. by eapply laid_kept. }
  assert (Hown : forall v', v' ∈ l -> vma_inherited v' = false).
  { intros v' Hv'. destruct (Hin v' Hv') as (i & v & _ & _ & Hv & _ & (_ & _ & _ & _ & Kp & _)).
    pose proof (tk_own Htask v Hv). unfold vma_inherited in *. by rewrite Kp. }
  assert (Hnp : forall v' j, v' ∈ l -> pvma v' <> ParentArea j).
  { intros v' j Hv' He. specialize (Hown v' Hv'). unfold vma_inherited in Hown. by rewrite He in Hown. }
  split.
  - intros v' Hv'. destruct (Hin v' Hv') as (i & v & _ & _ & Hv & _ & (K1 & K2 & _)). unfold Content.entry_ok. rewrite K1, K2. by apply area_bounds.
  - intros i j v' w' Hij Hi Hj. destruct (Hl i v' Hi) as (v & Hv & _ & (_ & K2 & _)%laid_kept), (Hl j w' Hj) as (w & Hw & _ & (K1 & _)%laid_kept).
    rewrite K2, K1. by eapply in_order_areas.
  - intros v' Hv' Hpre. destruct (Hin v' Hv') as (i & v & _ & Hi & Hv & Hla & (K1 & K2 & _)). rewrite (laid_premapped R i v v' Hv Hla) in Hpre.
    destruct (laid_place R i v v' HR Hi Hpre Hla) as (-> & Hb & P1 & P2). pose proof (guard_nonneg v). rewrite K1, K2. unfold slot in *.
    split; [lia|]. split; [lia|]. exists (zero_bitmap v). split; [done|]. unfold pages_of. rewrite K1, K2. by apply zero_bitmap_for.
  - intros i j v' w' b Hi Hj Hp Hq Hbv Hbw. destruct (Hl i v' Hi) as (v & Hv & Hvi & Hlv), (Hl j w' Hj) as (w & Hw & Hwi & Hlw).
    rewrite (laid_premapped R i v v' Hvi Hlv) in Hp. rewrite (laid_premapped R j w w' Hwi Hlw) in Hq.
    eapply (places_apart R i j v w b); try done; by eapply laid_tmp.
  - intros v' b Hv' Hp Hb Hbb. destruct (Hin v' Hv') as (i & v & _ & Hi & Hv & Hla & _). rewrite (laid_premapped R i v v' Hv Hla) in Hp.
    destruct (laid_place R i v v' HR Hi Hp Hla) as (_ & _ & P1 & P2). pose proof (laid_tmp R i v v' b Hla Hp Hb). lia.
  - intros v' j Hv' He. by destruct (Hnp v' j Hv').
  - intros v' Hv' He. by rewrite (Hown v' Hv') in He.
  - intros i i' v' w' j Hi _ _ _ He. by destruct (Hnp v' j (list_elem_of_lookup_2 _ _ _ Hi)).
Qed.

(** an area that stays has no page of the pagemap when it is marked as not to be written *)
Lemma laid_write R i v v' e a : v ∈ vmas -> laid_at R i v v' -> e ∈ pmes pr -> covers e a -> in_area v a -> premaps_at i v = false ->
  vma_entry_is (va_e v') VMA_NO_PROT_WRITE = false.
Proof using Htask.
  intros Hv Hla He Hc Ha Hp. unfold laid_at in Hla. rewrite Hp in Hla. destruct Hla as [->|[-> Hu]]; [by apply (tk_new Htask)|].
  exfalso. unfold covers, in_area in *. destruct (Hu e He); lia.
Qed.

Lemma entry_has e k : 0 <= k -> has (v_status e) (Z.shiftl 1 k) = vma_entry_is e (Z.shiftl 1 k).
Proof. intros Hk. by rewrite entry_is_bit, has_bit. Qed.

Lemma not_premapped_ok i v : private v = true -> premaps_at i v = false -> ok = true /\ exists p, chain = [p].
Proof using Type.
  intros Hpr Hp. unfold premaps in Hp. rewrite Hpr in Hp. cbn in Hp. apply negb_false_iff in Hp.
  apply andb_true_iff in Hp as [[_ Ho]%andb_true_iff _]. split; [done|]. unfold pieok in Ho. destruct up; [by exists pr|].
  rewrite andb_false_r in Ho. done.
Qed.

Lemma laid_restorable R l pr1 up1 e : laid R l -> length l = length vmas -> Forall2 same_img chain (pr1 :: up1) -> e ∈ pmes pr1 -> skipped env e = false ->
  restorable env l (pr1 :: up1) e.
Proof using Htask.
  intros Hl Hlen Hs He Hsk. pose proof Hs as Hn%Forall2_length. pose proof Hs as [(Hpm & _) _]%Forall2_cons_1.
  rewrite Hpm in He. destruct (tk_covers Htask e He Hsk) as [Hr Hc]. split.
  - intros a Ha. rewrite (ref_byte_same _ _ a Hs). by apply Hr.
  - intros a Ha. destruct (Hc a Ha) as (v & Hv & Hin & Hpr). pose proof Hv as [i Hi]%list_elem_of_lookup.
    destruct (lookup_lt_is_Some_2 l i) as [v' Hv']; [rewrite Hlen; by eapply lookup_lt_Some|].
    destruct (la_area _ _ Hl i v' Hv') as (w & Hw & _ & Hla). rewrite Hi in Hw. injection Hw as <-.
    pose proof (laid_kept R i v v' Hla) as (K1 & K2 & _ & _ & _ & Kp). exists v'. split; [by eapply list_elem_of_lookup_2|].
    split; [unfold in_area in *; by rewrite K1, K2|]. split; [by rewrite Kp|]. rewrite (laid_premapped R i v v' Hv Hla).
    destruct (premaps_at i v) eqn:Ep; [by left|right]. split.
    + rewrite (entry_has _ 29) by lia. by eapply laid_write.
    + destruct (not_premapped_ok i v Hpr Ep) as [_ [p Hp]]. injection Hp as _ ->. cbn in Hn. destruct up1; [eauto|done].
Qed.

(** ** After [prepare_mappings] *)

(** [s] is the address space, [l] and [io] the areas and the requests left to the restorer; the reserved place begins at [R] *)
Record prepared (R : Z) (s0 s : aspace) (l : list vma_area) (io : list page_read_iov) : Prop := {
  pp_areas : exists l0, laid R l0 /\ length l0 = length vmas /\ Forall2 same_area l0 l /\ requests_left l0 chain D io;
  pp_prot : forall i v a, vmas !! i = Some v -> premaps_at i v = true -> place_at R i <= a < place_at R i + slot env v ->
    as_prot s a = Some (Z.lor (v_prot (va_e v)) PROT_WRITE);
  pp_mem : forall i v a, vmas !! i = Some v -> premaps_at i v = true -> in_area v a ->
    let b := place_at R i + guard env v + (a - vstart v) in
    if D a then ref_byte chain a = Some (as_mem s b)
    else exists t, as_mem s b = k_content t (map_flags v) (guard env v + (a - vstart v));
  pp_rest : forall a, ~ (R <= a < R + taken env ok None vmas) -> as_prot s a = as_prot s0 a;
}.

Lemma first_entry : exists p, stands (snd (advance pr)) 0 p /\ same_img pr (snd (advance pr)).
Proof using Htask.
  pose proof (tk_reset Htask) as Hr. apply Forall_cons_1 in Hr as [(Hok & _ & _ & _ & Hc & _) _]. pose proof (tk_pages Htask) as Hne.
  destruct (pmes pr) as [|p l] eqn:E; [done|]. exists p. unfold advance. rewrite Hc, E. cbn [length].
  rewrite (proj2 (Z.leb_gt _ _)) by lia. change (Z.to_nat (-1 + 1)) with 0%nat. cbn [lookup list_lookup]. cbn [snd]. split.
  - unfold stands. cbn. rewrite E. split; [done|]. split; [done|]. by left.
  - by unfold same_img.
Qed.

Lemma reset_ok pr1 : same_img pr pr1 -> Forall reader_reset (reset_pagemap (pr1 :: up)) /\ Forall2 same_img chain (reset_pagemap (pr1 :: up)) /\
  Forall (fun pr => (Z.to_nat (pages_off (pmes pr)) <= iofuel)%nat) (reset_pagemap (pr1 :: up)).
Proof using Htask.
  intros (H1 & H2 & H3). pose proof (tk_reset Htask) as Hr. destruct (tk_fuel Htask) as [Hf _].
  apply Forall_cons_1 in Hr as [(Hok & _ & _ & _ & _ & Ha) Hu], Hf as [Hf Hfu]. unfold reset_pagemap. rewrite fmap_cons.
  split_and!; constructor.
  - destruct Hok as [Hok1 Hok2]. unfold reader_reset, pm_ok. cbn. rewrite H1, H3. by split_and!.
  - apply Forall_fmap. eapply Forall_impl; [|exact Hu]. intros p (P1 & P2 & P3 & P4 & P5 & P6). cbn. unfold reader_reset. by split_and!.
  - by unfold same_img.
  - clear. induction up as [|p c IH]; [constructor|]. rewrite fmap_cons. constructor; [by unfold same_img|done].
  - cbn. by rewrite H1.
  - apply Forall_fmap. eapply Forall_impl; [|exact Hfu]. intros p Hp. exact Hp.
Qed.

Lemma taken_bound : 0 <= taken env ok None vmas.
Proof using Htask. apply (taken_nonneg env ok 0), (tk_asc Htask). Qed.

(** *** The run *)
Section Prepare.
Variables (dirs : list imgdir) (thp_disabled : bool) (img ids : Z) (pvmas : list vma_area).
Hypothesis Himages : forall t, exists ids' t', open_page_read_at stream dirs img ids t = Done (1, chain, ids', t').

(** the reserved place: with what is left of it once the areas are mapped *)
Lemma premap_stage R size s t pr1 p :
  0 < R -> aligned R -> R + size <= TASK_SIZE -> taken env ok None vmas <= size -> stands pr1 0 p -> same_img pr pr1 ->
  exists l pr2 t' s', premap_priv_vmas env open_area ok pvmas vmas R pr1 (t, s) = Done (0, l, R + taken env ok None vmas, pr2, (t', s')) /\
    same_img pr pr2 /\ laid R l /\ length l = length vmas /\
    (forall i v, vmas !! i = Some v -> premaps_at i v = true -> placed env pvmas s s' v (place_at R i)) /\
    (forall a, ~ (R <= a < R + taken env ok None vmas) -> as_prot s' a = as_prot s a).
Proof using All.
  intros HR HRa Hsz Htk Hst Hs1. pose proof taken_bound as Htb.
  destruct (premap_priv_vmas_ok env open_area pvmas ok vmas R (R + size) pr1 t s) as (l & pr2 & t' & s' & Hrun & Hlen & Hs2 & Hlay & Hfr);
    try done; try lia; try apply Htask; [by intros; rewrite (tk_open Htask)|..].
  - apply own_sources.
  - split; [|intros _; exists 0%nat, p; split; [exact Hst|intros i q Hi; lia]]. destruct Hs1 as (Hp & _).
    pose proof (tk_reset Htask) as [(Hok & _) _]%Forall_cons_1. unfold pm_ok in *. by rewrite Hp.
  - intros w Hw Hi. by rewrite (tk_own Htask w Hw) in Hi.
  - exists l, pr2, t', s'. split; [exact Hrun|]. split; [by etrans|].
    assert (Hla : forall i v, vmas !! i = Some v -> exists v', l !! i = Some v' /\ laid_at R i v v').
    { intros i v Hi. destruct (Hlay i v Hi) as (v' & Hv' & Hc). exists v'. split; [done|]. unfold laid_at. destruct (premaps_at i v); [apply Hc|].
      destruct Hc as [->|[-> Hu]]; [by left|right]. split; [done|]. unfold untouched in *. destruct Hs1 as (Hp & _). by rewrite <-Hp. }
    split; [|split; [done|split]].
    + split; [split_and!; [done|done|lia]|]. intros i v' Hv'. destruct (lookup_lt_is_Some_2 vmas i) as [v Hv]; [rewrite <-Hlen; by eapply lookup_lt_Some|].
      destruct (Hla i v Hv) as (w & Hw & Hl). rewrite Hv' in Hw. injection Hw as <-. exists v. split; [done|]. split; [by eapply list_elem_of_lookup_2|done].
    + intros i v Hi Hp. destruct (Hlay i v Hi) as (v' & _ & Hc). rewrite Hp in Hc. apply Hc.
    + intros a Ha. destruct (Hfr a Ha) as [_ Hpr]. apply Hpr. intros v Hv Hin. unfold in_source in Hin. by rewrite (own_source pvmas v Hv) in Hin.
Qed.

Lemma thp_ok c ri t : exists ri' t', maybe_disable_thp env prctl thp_disabled c ri t = (0, ri', t') /\ ri_vmas ri' = ri_vmas ri /\
  ri_premmapped_addr ri' = ri_premmapped_addr ri /\ ri_premmapped_len ri' = ri_premmapped_len ri /\ ri_vma_io ri' = ri_vma_io ri.
Proof using Htask.
  unfold maybe_disable_thp. destruct (lazy_pages env && _); cbn [negb]; [|by exists ri, t]. rewrite (tk_prctl Htask). change (negb (0 =? 0)) with false.
  cbn iota. destruct (negb thp_disabled); by eexists _, _.
Qed.

(** the unused end of the reserved place is given back *)
Lemma release_ok R size used ri t s :
  0 < R -> R + size <= TASK_SIZE -> 0 <= used <= size -> ri_premmapped_addr ri = R -> ri_premmapped_len ri = size ->
  exists ri' t' s', release_reserved 0 0 (R + used) ri (t, s) = (0, ri', (t', s')) /\ ri_vmas ri' = ri_vmas ri /\ ri_vma_io ri' = ri_vma_io ri /\
    ri_premmapped_addr ri' = R /\ ri_premmapped_len ri' = used /\ as_mem s' = as_mem s /\
    forall a, as_prot s' a = if within (R + used) (size - used) a then None else as_prot s a.
Proof using MmKernelLive0.
  intros HR Hsz Hu Ha Hl. unfold release_reserved. change (negb (0 =? 0)) with false. cbn iota. rewrite Ha, Hl. unfold TASK_SIZE in *.
  replace (u64 (R + used - R)) with used by (rewrite u64_id by lia; lia). destruct (Z.ltb_spec used size) as [Hlt|Hge].
  - unfold sys_munmap. rewrite munmap_ok by lia. change (0 =? 0) with true. cbn iota. by eexists _, _, _.
  - exists ri, t, s. split_and!; try done; [lia|]. intros a. by rewrite (proj2 (within_false _ _ a)) by lia.
Qed.

Lemma contents_stage R l pr2 io0 s t :
  laid R l -> length l = length vmas -> same_img pr pr2 -> (buf + PAGE_SIZE <= R \/ R + taken env ok None vmas <= buf) -> io0 = [] ->
  exists s' cs, restore_priv_vma_content env false false buf iofuel (reset_pagemap (pr2 :: up)) l pvmas io0 (t, s) = Done (0, s', cs) /\
    as_prot s' = as_prot s /\ contents_restored l pvmas chain buf D (as_mem s) (as_mem s') /\
    requests_left l chain D (cs_io cs) /\ Forall2 same_area l (cs_vmas cs).
Proof using Htask ReadKernelOk0 ReadKernelLive0 MmKernelLive0.
  intros Hl Hlen Hs Hbuf ->. destruct (reset_ok pr2 Hs) as (Hr & Hsame & Hf). destruct (tk_fuel Htask) as [_ Hpg].
  unfold reset_pagemap in *. rewrite fmap_cons in *. pose proof Hsame as [(Hpm & Hpi & _) _]%Forall2_cons_1.
  pose proof (fun e => laid_restorable R l (reset_one pr2) (reset_one <$> up) e Hl Hlen Hsame) as Hrest.
  destruct (restore_priv_vma_content_ok (tk_malloc Htask) env l pvmas (reset_one pr2) (reset_one <$> up) buf iofuel
              (laid_setting R l pvmas Hl Hbuf) Hf Hpg Hr Hrest t s) as (s' & cs & Hrun & Hp & Hc & Hq & Hb & _).
  { intros ->. destruct vmas eqn:E; [by apply (tk_some Htask)|done]. }
  rewrite Hpm in *. exists s', cs. split; [exact Hrun|]. split; [done|]. split; [|split; [|done]].
  - destruct Hc as [H1 H2]. split; [|done]. intros v a Hv Hpre Ha. specialize (H1 v a Hv Hpre Ha). by rewrite (ref_byte_same _ _ a Hsame) in H1.
  - intros p [= <-]. destruct (Hq (reset_one pr2) eq_refl) as [Q1 Q2]. rewrite Hpi in Q2. split.
    + unfold piov_in in *. by rewrite Hpm in Q1.
    + intros m b. destruct (Q2 m b) as [Q3 Q4]. by rewrite (ref_byte_same _ _ b Hsame) in Q3.
Qed.

(** what is in the temporary places in the end *)
Lemma contents_at R l s1 s2 m i v a :
  laid R l -> length l = length vmas -> vmas !! i = Some v -> premaps_at i v = true -> in_area v a -> placed env pvmas s1 s2 v (place_at R i) ->
  contents_restored l pvmas chain buf D (as_mem s2) m ->
  let b := place_at R i + guard env v + (a - vstart v) in
  if D a then ref_byte chain a = Some (m b) else exists t, m b = k_content t (map_flags v) (guard env v + (a - vstart v)).
Proof using Htask.
  intros Hl Hlen Hi Hp Ha Hpl [Hc _] b. destruct (lookup_lt_is_Some_2 l i) as [v' Hv']; [rewrite Hlen; by eapply lookup_lt_Some|].
  destruct (la_area _ _ Hl i v' Hv') as (w & Hw & Hwi & Hla). rewrite Hi in Hw. injection Hw as <-.
  pose proof (laid_kept R i v v' Hla) as (K1 & K2 & _ & _ & Kp & _). pose proof (laid_premapped R i v v' Hwi Hla) as Hpre. rewrite Hp in Hpre.
  destruct (la_base _ _ Hl) as (HR & _). destruct (laid_place R i v v' HR Hi Hp Hla) as (Hpa & _).
  specialize (Hc v' a (list_elem_of_lookup_2 _ _ _ Hv') Hpre). unfold in_area, tmp_addr in Hc. rewrite K1, K2, Hpa in Hc. fold b in Hc.
  specialize (Hc Ha). destruct (D a); [done|]. unfold Content.parent_has, parent_bitmap in Hc. rewrite Kp in Hc.
  unfold placed in Hpl. rewrite (own_source pvmas v Hwi) in Hpl. destruct Hpl as [t0 Hpl].
  pose proof (tk_own Htask v Hwi) as Hown. unfold vma_inherited in Hown. exists t0.
  destruct (Hpl (guard env v + (a - vstart v))) as [Hm _].
  { pose proof (guard_nonneg v). unfold slot, in_area in *. lia. }
  rewrite <-Hm. replace (place_at R i + (guard env v + (a - vstart v))) with b by (subst b; lia). by destruct (pvma v).
Qed.

Lemma prepare_mappings_ok ri s t :
  h (ri_vmas ri) = vmas -> vml_nr (ri_vmas ri) <> 0 -> ri_premmapped_addr ri = 0 -> ri_premmapped_len ri = 0 -> ri_vma_io ri = [] ->
  let size := rst_priv_size (ri_vmas ri) in
  let R := k_mmap t s 0 size PROT_NONE (Z.lor MAP_PRIVATE MAP_ANONYMOUS) in
  taken env ok None vmas <= size -> 0 < size -> 0 < R -> aligned R -> R + size <= TASK_SIZE -> mapped s buf PAGE_SIZE ->
  exists ri' pv t' s', prepare_mappings env false false open_area prctl buf iofuel dirs stream thp_disabled img ids pvmas ri (t, s) =
      Done (0, ri', pv, (t', s')) /\
    prepared R s s' (h (ri_vmas ri')) (ri_vma_io ri') /\ vml_nr (ri_vmas ri') = vml_nr (ri_vmas ri) /\
    ri_premmapped_addr ri' = R /\ ri_premmapped_len ri' = taken env ok None vmas.
Proof using All.
  intros Hh Hnr Hoa Hol Hio size R Htk Hpos HR HRa HRs Hbuf. pose proof taken_bound as Htb. unfold prepare_mappings.
  rewrite (proj2 (Z.eqb_neq _ 0)) by done. fold size. unfold mmap, sys_mmap. fold R. rewrite (below_not_err R) by lia.
  assert (Hnf : (R =? MAP_FAILED) = false) by (apply Z.eqb_neq; unfold MAP_FAILED, TASK_SIZE in *; lia). rewrite Hnf, Hoa, Hol.
  set (s1 := map_at s R size PROT_NONE _). cbn [fst snd].
  assert (Hfree : free s R size) by (by apply (mmap_free t s 0 size PROT_NONE (Z.lor MAP_PRIVATE MAP_ANONYMOUS)); [|apply below_not_err; lia]).
  assert (Hbd : buf + PAGE_SIZE <= R \/ R + taken env ok None vmas <= buf).
  { destruct (free_mapped s R size buf PAGE_SIZE Hfree Hbuf Hpos ltac:(done)); lia. }
  destruct (Himages (S t)) as (ids' & t1 & ->). cbn [rbind]. change (1 <=? 0) with false. cbn iota.
  destruct (thp_ok chain (ri_premmapped ri R size) t1) as (ri1 & t2 & -> & E1 & E2 & E3 & E4). change (negb (0 =? 0)) with false. cbn iota.
  destruct first_entry as (p & Hst & Hsame). rewrite Hh.
  destruct (premap_stage R size s1 t2 (snd (advance pr)) p HR HRa HRs Htk Hst Hsame) as (l & pr2 & t3 & s3 & -> & Hs2 & Hl & Hlen & Hpl & Hpr3).
  cbn [rbind]. change (0 <? 0) with false. cbn iota. cbn [ri_vma_io ri_areas]. 
  destruct (contents_stage R l pr2 (ri_vma_io ri1) s3 t3 Hl Hlen Hs2 Hbd) as (s4 & cs & -> & Hp4 & Hc & Hq & Hsa); [by rewrite E4|].
  cbn [rbind]. change (0 <? 0) with false. cbn iota.
  destruct (release_ok R size (taken env ok None vmas) (ri_io (ri_areas (ri_areas ri1 l) (cs_vmas cs)) (cs_io cs)) (cs_t cs) s4)
    as (ri5 & t5 & s5 & Hrel & F1 & F2 & F3 & F4 & F5 & F6); try done; [].
  rewrite Hrel. exists ri5, (cs_pvmas cs), t5, s5. split; [done|]. split.
  - split.
    + exists l. rewrite F1, F2. cbn. by split_and!.
    + intros i v a Hi Hp Ha. rewrite F6, (proj2 (within_false _ _ a)), Hp4.
      * specialize (Hpl i v Hi Hp). unfold placed in Hpl. rewrite (own_source pvmas v) in Hpl by (by eapply list_elem_of_lookup_2).
        destruct Hpl as [t0 Hpl]. destruct (Hpl (a - place_at R i)) as [_ Hx]; [lia|]. rewrite <-Hx. f_equal. lia.
      * destruct (place_in env ok vmas None R 0 i v (tk_asc Htask) Hi Hp). lia.
    + intros i v a Hi Hp Ha. rewrite F5. eapply contents_at; try done. by apply Hpl.
    + intros a Ha. rewrite F6, Hp4. destruct (within (R + taken env ok None vmas) _ a) eqn:Ew.
      * apply within_true in Ew. symmetry. apply Hfree. lia.
      * apply within_false in Ew. rewrite Hpr3 by done. unfold s1. cbn. by rewrite (proj2 (within_false R size a)) by lia.
  - rewrite F1. cbn. by rewrite E1.
Qed.
End Prepare.

(** ** Guard pages *)
Definition guards (l : list vma_area) (a : Z) : bool :=
  existsb (fun v => vma_area_is v VMA_PREMMAPED && has (v_flags (va_e v)) MAP_GROWSDOWN && within (premmaped_addr v - PAGE_SIZE) PAGE_SIZE a) l.

Lemma unmap_guards_ok l : forall t s, (forall v, v ∈ l -> vma_area_is v VMA_PREMMAPED = true -> has (v_flags (va_e v)) MAP_GROWSDOWN = true -> PAGE_SIZE <= premmaped_addr v <= TASK_SIZE) ->
  exists t' s', unmap_guards l (t, s) = (0, (t', s')) /\ as_mem s' = as_mem s /\ forall a, as_prot s' a = if guards l a then None else as_prot s a.
Proof using MmKernelLive0.
  induction l as [|v l IH]; intros t s Hl; cbn [unmap_guards guards existsb].
  { by exists t, s. }
  assert (Hl' : forall w, w ∈ l -> vma_area_is w VMA_PREMMAPED = true -> has (v_flags (va_e w)) MAP_GROWSDOWN = true -> PAGE_SIZE <= premmaped_addr w <= TASK_SIZE)
    by (intros w Hw; apply Hl; by apply list_elem_of_further).
  pose proof (Hl v (list_elem_of_here _ _)) as Hv.
  destruct (vma_area_is v VMA_PREMMAPED); cbn [negb andb orb]; [|by apply IH].
  destruct (has (v_flags (va_e v)) MAP_GROWSDOWN); cbn [negb andb orb]; [|by apply IH].
  specialize (Hv eq_refl eq_refl). unfold sys_munmap. rewrite u64_id by (unfold TASK_SIZE in *; plia). rewrite munmap_ok by done.
  change (0 =? 0) with true. cbn [negb]. destruct (IH (S t) (unmap_at s (premmaped_addr v - PAGE_SIZE) PAGE_SIZE) Hl') as (t' & s' & -> & Hm & Hp).
  exists t', s'. split; [done|]. split; [done|]. intros a. rewrite Hp. cbn [as_prot unmap_at]. fold (guards l a). by destruct (within _ _ a), (guards l a).
Qed.

(** [s]: only the areas themselves are left in the reserved place *)
Record parked (R : Z) (s : aspace) : Prop := {
  pk_prot : forall i v a, vmas !! i = Some v -> premaps_at i v = true -> place_at R i + guard env v <= a < place_at R i + slot env v ->
    as_prot s a = Some (Z.lor (v_prot (va_e v)) PROT_WRITE);
  pk_only : forall a, R <= a < R + taken env ok None vmas -> is_Some (as_prot s a) ->
    exists i v, vmas !! i = Some v /\ premaps_at i v = true /\ place_at R i + guard env v <= a < place_at R i + slot env v;
  pk_mem : forall i v a, vmas !! i = Some v -> premaps_at i v = true -> in_area v a ->
    let b := place_at R i + guard env v + (a - vstart v) in
    if D a then ref_byte chain a = Some (as_mem s b)
    else exists t, as_mem s b = k_content t (map_flags v) (guard env v + (a - vstart v));
}.

(** area [v'] of the list, in its temporary place or not, came from area [v] of the image *)
Lemma prepared_area R s0 s l io i v' : prepared R s0 s l io -> l !! i = Some v' ->
  exists v w, vmas !! i = Some v /\ v ∈ vmas /\ laid_at R i v w /\ same_area w v' /\ 0 < R.
Proof using Type.
  intros [(l0 & Hl & _ & Hsa & _) _ _ _] Hi. destruct (Forall2_lookup_r _ _ _ _ _ Hsa Hi) as (w & Hw & Hs).
  destruct (la_area _ _ Hl i w Hw) as (v & H1 & H2 & H3). exists v, w. split_and!; try done. apply Hl.
Qed.

Lemma same_area_is w v' b : same_area w v' -> vma_area_is v' b = vma_area_is w b.
Proof. intros (He & _). unfold vma_area_is. by rewrite He. Qed.

Lemma hidden_guard v : stack_guard_gap_hidden env = true -> guard env v = if has (v_flags (va_e v)) MAP_GROWSDOWN then PAGE_SIZE else 0.
Proof. intros Hh. unfold guard, vma_has_guard_gap_hidden. by rewrite Hh. Qed.

(** the pages that are unmapped are the guard pages *)
Lemma guards_here R s0 s l io a : prepared R s0 s l io -> stack_guard_gap_hidden env = true -> guards l a = true <->
  exists i v, vmas !! i = Some v /\ premaps_at i v = true /\ place_at R i <= a < place_at R i + guard env v.
Proof using Htask.
  intros Hp Hh. unfold guards. rewrite existsb_exists. split.
  - intros (v' & Hv' & H). apply list_elem_of_In, list_elem_of_lookup in Hv' as [i Hi]. apply andb_true_iff in H as [[H1 H2]%andb_true_iff H3%within_true].
    destruct (prepared_area R s0 s l io i v' Hp Hi) as (v & w & Hv & Hvi & Hla & Hsa & HR). exists i, v. split; [done|].
    rewrite (same_area_is w v' _ Hsa) in H1. fold (premapped w) in H1. rewrite (laid_premapped R i v w Hvi Hla) in H1. split; [done|].
    destruct (laid_place R i v w HR Hv H1 Hla) as (Ha & _). destruct Hsa as (S1 & _ & S3 & _). rewrite S3, Ha in H3. rewrite S1 in H2.
    destruct (laid_kept R i v w Hla) as (_ & _ & _ & K4 & _). rewrite K4 in H2. rewrite (hidden_guard v Hh), H2 in *. lia.
  - intros (i & v & Hv & Hpm & Ha). destruct Hp as [(l0 & Hl & Hlen & Hsa & _) _ _ _].
    destruct (lookup_lt_is_Some_2 l0 i) as [w Hw]; [rewrite Hlen; by eapply lookup_lt_Some|].
    destruct (Forall2_lookup_l _ _ _ _ _ Hsa Hw) as (v' & Hv' & S). destruct (la_area _ _ Hl i w Hw) as (x & Hx & Hxi & Hla).
    rewrite Hv in Hx. injection Hx as <-. exists v'. split; [apply list_elem_of_In; by eapply list_elem_of_lookup_2|].
    rewrite (same_area_is w v' _ S). fold (premapped w). rewrite (laid_premapped R i v w Hxi Hla), Hpm.
    destruct (laid_place R i v w (proj1 (la_base _ _ Hl)) Hv Hpm Hla) as (Had & _). destruct S as (S1 & _ & S3 & _).
    destruct (laid_kept R i v w Hla) as (_ & _ & _ & K4 & _). rewrite (hidden_guard v Hh) in *. rewrite S1, S3, K4, Had.
    destruct (has (v_flags (va_e v)) MAP_GROWSDOWN); [|lia]. cbn. apply within_true. lia.
Qed.

Lemma place_aligned R : aligned R -> forall i, aligned (place_at R i).
Proof using Htask.
  intros HR i. unfold place. apply aligned_add; [done|].
  assert (H : forall prev n, aligned (taken env ok prev (take n vmas))); [|done].
  assert (Hal : forall v, v ∈ vmas -> aligned (slot env v)).
  { intros v Hv. destruct (area_bounds v Hv) as [((_ & _ & _ & H4 & H5) & _) _]. unfold slot, guard, aligned in *.
    destruct (vma_has_guard_gap_hidden env v); pdiv. }
  revert Hal. clear. induction vmas as [|v l IH]; intros Hal prev n; [by rewrite take_nil|]. destruct n as [|n]; [done|]. cbn.
  apply aligned_add; [destruct (premaps _ _ _ _); [apply Hal, list_elem_of_here|done]|]. apply IH. intros w Hw. apply Hal. by apply list_elem_of_further.
Qed.

Lemma parked_ok R s0 s l io t : prepared R s0 s l io -> aligned R -> exists t' s', unmap_guard_pages env l (t, s) = (0, (t', s')) /\ parked R s' /\
  forall a, ~ (R <= a < R + taken env ok None vmas) -> as_prot s' a = as_prot s0 a.
Proof using Htask MmKernelLive0.
  intros Hp HRa. pose proof Hp as [Ha Hpr Hm Hrest]. unfold unmap_guard_pages.
  assert (Hpk : forall s', as_mem s' = as_mem s -> (forall i v a, vmas !! i = Some v -> premaps_at i v = true ->
      place_at R i <= a < place_at R i + slot env v -> as_prot s' a = if (place_at R i + guard env v <=? a) then as_prot s a else None) -> parked R s').
  { intros s' Hm' Hp'. split.
    - intros i v a Hi Hpm Hin. rewrite (Hp' i v a) by (done || pose proof (guard_nonneg v); lia). rewrite (proj2 (Z.leb_le _ _)) by lia.
      apply (Hpr i v); [done..|]. pose proof (guard_nonneg v). lia.
    - intros a Hin Hs. destruct (place_packed env ok vmas None R 0 a (tk_asc Htask) Hin) as (i & v & Hi & Hpm & Hpl).
      exists i, v. split; [done|]. split; [done|]. rewrite (Hp' i v a Hi Hpm Hpl) in Hs. destruct (Z.leb_spec (place_at R i + guard env v) a); [lia|by destruct Hs].
    - intros i v a Hi Hpm Hin. rewrite Hm'. by apply Hm. }
  destruct (stack_guard_gap_hidden env) eqn:Eh; cbn [negb].
  - destruct (unmap_guards_ok l t s) as (t' & s' & -> & Hm' & Hp').
    { intros v' [i Hi]%list_elem_of_lookup H1 H2. destruct (prepared_area R s0 s l io i v' Hp Hi) as (v & w & Hv & Hvi & Hla & Hsa & HR).
      rewrite (same_area_is w v' _ Hsa) in H1. fold (premapped w) in H1. rewrite (laid_premapped R i v w Hvi Hla) in H1.
      destruct (laid_place R i v w HR Hv H1 Hla) as (Had & _ & P1 & P2). destruct Hsa as (S1 & _ & S3 & _). rewrite S3, Had.
      destruct Ha as (l0 & Hl0 & _). destruct (la_base _ _ Hl0) as (_ & _ & Hts). rewrite S1 in H2. pose proof (guard_nonneg v).
      destruct (laid_kept R i v w Hla) as (_ & _ & _ & K4 & _). rewrite K4 in H2. rewrite (hidden_guard v Eh), H2 in *.
      destruct (area_bounds v Hvi) as [((_ & Hlt & _) & _) _]. unfold slot in P2. rewrite (hidden_guard v Eh), H2 in P2. lia. }
    exists t', s'. split; [done|]. split.
    + apply Hpk; [done|]. intros i v a Hi Hpm Hin. rewrite Hp'. destruct (guards l a) eqn:Eg.
      * apply (guards_here R s0 s l io a Hp Eh) in Eg as (j & w & Hj & Hq & Hgj). pose proof (guard_nonneg w).
        assert (Hsj : place_at R j <= a < place_at R j + slot env w).
        { destruct (area_bounds w (list_elem_of_lookup_2 _ _ _ Hj)) as [((_ & Hlt & _) & _) _]. unfold slot. lia. }
        pose proof (places_apart R j i w v a Hj Hi Hq Hpm Hsj Hin) as ->. rewrite Hi in Hj. injection Hj as <-.
        by rewrite (proj2 (Z.leb_gt _ _)) by lia.
      * destruct (Z.leb_spec (place_at R i + guard env v) a); [done|]. exfalso. assert (Hg : guards l a = true); [|congruence].
        apply (guards_here R s0 s l io a Hp Eh). exists i, v. split_and!; try done; lia.
    + intros a Hout. rewrite Hp'. destruct (guards l a) eqn:Eg; [|by apply Hrest]. exfalso.
      apply (guards_here R s0 s l io a Hp Eh) in Eg as (j & w & Hj & Hq & Hgj).
      destruct (place_in env ok vmas None R 0 j w (tk_asc Htask) Hj Hq). pose proof (guard_nonneg w).
      destruct (area_bounds w (list_elem_of_lookup_2 _ _ _ Hj)) as [((_ & Hlt & _) & _) _]. unfold slot in *. lia.
  - exists t, s. split; [done|]. split; [|done]. apply Hpk; [done|]. intros i v a Hi Hpm Hin.
    unfold guard, vma_has_guard_gap_hidden. rewrite Eh. cbn. by rewrite (proj2 (Z.leb_le _ _)) by lia.
Qed.

(** ** What is handed to the restorer *)

(** the callbacks may have their descriptors closed later *)
Definition opened (v v' : vma_area) : Prop := v' = v \/ v' = set_e v (add_status (va_e v) VMA_CLOSE).

Lemma open_vmas_ok l : forall t, exists l' t', open_vmas open_area l t = (0, l', t') /\ Forall2 opened l l'.
Proof using Htask.
  induction l as [|v l IH]; intros t; cbn [open_vmas]; [by exists [], t|].
  destruct (negb (vma_area_is v VMA_AREA_REGULAR) || negb (vm_open v)).
  - destruct (IH t) as (l' & t' & -> & Hl). exists (v :: l'), t'. split; [done|]. constructor; [by left|done].
  - rewrite (tk_open Htask). change (negb (0 =? 0)) with false. cbn iota. destruct (IH (S t)) as (l' & t' & -> & Hl).
    eexists _, t'. split; [done|]. constructor; [|done]. destruct (negb _); [by right|by left].
Qed.

(** the copy of an entry *)
Definition handed (v : vma_area) : VmaEntry := if vma_area_is v VMA_PREMMAPED then set_shmid (va_e v) (premmaped_addr v) else va_e v.

Section Copies.
Variables (rst_mem_alloc open_pages : clock -> bool).
Hypothesis Halloc : forall t, rst_mem_alloc t = true.
Hypothesis Hpages : forall t, open_pages t = true.

Lemma copy_vmas_ok l : forall t, exists t', copy_vmas rst_mem_alloc l t = (true, handed <$> l, t').
Proof using Halloc.
  induction l as [|v l IH]; intros t; cbn [copy_vmas]; [eauto|]. rewrite Halloc. cbn [negb]. destruct (IH (S t)) as [t' ->]. eauto.
Qed.

Definition rio_of (p : page_read_iov) : restore_vma_io := mk_rio (from p) (to p).

Lemma render_ok io : forall t, exists t', pagemap_render_iovec rst_mem_alloc io t = (0, rio_of <$> io, t').
Proof using Halloc.
  induction io as [|p io IH]; intros t; cbn [pagemap_render_iovec]; [eauto|]. rewrite Halloc. cbn [negb]. destruct (IH (S t)) as [t' ->]. eauto.
Qed.

Lemma prepare_vmas_ok l io t : exists t', prepare_vmas rst_mem_alloc open_pages l io t = (0, mk_ta (handed <$> h l) (vml_nr l) (rio_of <$> io), t').
Proof using All.
  unfold prepare_vmas. destruct (copy_vmas_ok (h l) t) as [t1 ->]. cbn [negb]. unfold prepare_vma_ios. destruct io as [|p io]; [by exists t1|].
  rewrite Hpages. cbn [negb]. destruct (render_ok (p :: io) (S t1)) as [t2 ->]. eauto.
Qed.
End Copies.

(** entry [e] of the restorer is area [v] of the image *)
Record given (R : Z) (i : nat) (v : vma_area) (e : VmaEntry) : Prop := {
  gv_bounds : v_start e = vstart v /\ v_end e = vend v;
  gv_kind : v_prot e = v_prot (va_e v) /\ v_flags e = v_flags (va_e v);
  gv_bits : forall k, 0 <= k -> k <> 28 -> k <> 29 -> k <> 30 -> vma_entry_is e (Z.shiftl 1 k) = vma_entry_is (va_e v) (Z.shiftl 1 k);
  gv_premapped : vma_entry_is e VMA_PREMMAPED = premaps_at i v;
  gv_place : premaps_at i v = true -> v_shmid e = place_at R i + guard env v /\ vma_entry_is e VMA_NO_PROT_WRITE = false;
  gv_written : vma_entry_is e VMA_NO_PROT_WRITE = true -> untouched pr (va_e v);
}.

Lemma one_bit_of j k : 0 <= j -> 0 <= k -> Z.testbit (Z.shiftl 1 j) k = (k =? j).
Proof. intros Hj Hk. rewrite Z.shiftl_1_l, Z.pow2_bits_eqb by done. apply Z.eqb_sym. Qed.

Lemma opened_bit v v' k : 0 <= k -> k <> 28 -> opened v v' -> vma_entry_is (va_e v') (Z.shiftl 1 k) = vma_entry_is (va_e v) (Z.shiftl 1 k).
Proof.
  intros Hk Hne [->| ->]; [done|]. cbn [va_e set_e]. unfold VMA_CLOSE. rewrite added_bit by done. rewrite one_bit_of by lia.
  rewrite (proj2 (Z.eqb_neq k 28)) by done. apply orb_false_r.
Qed.

Lemma handed_status v : v_status (handed v) = v_status (va_e v).
Proof. unfold handed. by destruct (vma_area_is v VMA_PREMMAPED). Qed.

Lemma handed_is v s : vma_entry_is (handed v) s = vma_entry_is (va_e v) s.
Proof. unfold vma_entry_is. by rewrite handed_status. Qed.

Lemma given_ok R s0 s l io l2 i e : prepared R s0 s l io -> Forall2 opened l l2 -> (handed <$> l2) !! i = Some e ->
  exists v, vmas !! i = Some v /\ v ∈ vmas /\ given R i v e.
Proof using Htask.
  intros Hp Ho He. apply list_lookup_fmap_Some in He as (v2 & -> & Hv2). destruct (Forall2_lookup_r _ _ _ _ _ Ho Hv2) as (v1 & Hv1 & Hop).
  destruct (prepared_area R s0 s l io i v1 Hp Hv1) as (v & w & Hv & Hvi & Hla & (S1 & S2 & S3 & _) & HR). exists v. split; [done|]. split; [done|].
  destruct (laid_kept R i v w Hla) as (K1 & K2 & K3 & K4 & _). pose proof (laid_premapped R i v w Hvi Hla) as Hpre.
  destruct (tk_new Htask v Hvi) as [N1 N2].
  assert (Hadd : premmaped_addr v2 = premmaped_addr w) by (destruct Hop as [->| ->]; cbn; congruence).
  assert (Hf : v_start (va_e v2) = vstart v /\ v_end (va_e v2) = vend v /\ v_prot (va_e v2) = v_prot (va_e v) /\ v_flags (va_e v2) = v_flags (va_e v)).
  { destruct Hop as [->| ->]; cbn; rewrite S1; by split_and!. }
  assert (Hb : forall k, 0 <= k -> k <> 28 -> vma_entry_is (handed v2) (Z.shiftl 1 k) = vma_entry_is (va_e w) (Z.shiftl 1 k)).
  { intros k Hk Hne. rewrite handed_is, (opened_bit v1 v2) by done. by rewrite S1. }
  pose proof (Hb 30 ltac:(lia) ltac:(lia)) as H30. pose proof (Hb 29 ltac:(lia) ltac:(lia)) as H29. destruct Hf as (F1 & F2 & F3 & F4).
  assert (H30' : vma_area_is v2 VMA_PREMMAPED = premaps_at i v) by (rewrite <-Hpre; unfold vma_area_is, VMA_PREMMAPED; rewrite <-handed_is; exact H30).
  split.
  - unfold handed. by destruct (vma_area_is v2 VMA_PREMMAPED).
  - unfold handed. by destruct (vma_area_is v2 VMA_PREMMAPED).
  - intros k Hk H28 Hk29 Hk30. rewrite Hb by done. unfold laid_at in Hla. destruct (premaps_at i v).
    + subst w. cbn [va_e premapped_at]. unfold VMA_PREMMAPED. rewrite added_bit, one_bit_of by lia. rewrite (proj2 (Z.eqb_neq k 30)) by done. apply orb_false_r.
    + destruct Hla as [->|[-> _]]; [done|]. cbn [va_e set_e]. unfold VMA_NO_PROT_WRITE. rewrite added_bit, one_bit_of by lia.
      rewrite (proj2 (Z.eqb_neq k 29)) by done. apply orb_false_r.
  - change VMA_PREMMAPED with (Z.shiftl 1 30). rewrite H30. exact Hpre.
  - intros Hpm. split.
    + unfold handed. rewrite H30', Hpm. cbn [v_shmid set_shmid]. rewrite Hadd. by destruct (laid_place R i v w HR Hv Hpm Hla) as (-> & _).
    + change VMA_NO_PROT_WRITE with (Z.shiftl 1 29). rewrite H29. unfold laid_at in Hla. rewrite Hpm in Hla. subst w. cbn [va_e premapped_at].
      unfold VMA_PREMMAPED. rewrite added_bit by lia. exact (f_equal2 orb N2 eq_refl).
  - change VMA_NO_PROT_WRITE with (Z.shiftl 1 29). rewrite H29. unfold laid_at in Hla. destruct (premaps_at i v).
    + subst w. cbn [va_e premapped_at]. unfold VMA_PREMMAPED. rewrite added_bit by lia. intros Hx.
      exfalso. revert Hx. unfold VMA_NO_PROT_WRITE in N2. rewrite N2. done.
    + destruct Hla as [->|[_ Hu]]; [|done]. intros Hx. exfalso. unfold VMA_NO_PROT_WRITE in N2. congruence.
Qed.

(** *** What is read in place *)
Lemma queue_touched f q b : (exists p, p ∈ q /\ Forall (fun v => 0 < iov_len v) (to p) /\ in_iovs (to p) b) ->
  forall m1 m2, queue_mem f q m1 b = queue_mem f q m2 b.
Proof using Type.
  intros (p & Hp & Hl & Hin). induction q as [|q1 q IH]; [by apply elem_of_nil in Hp|]. intros m1 m2. cbn.
  apply elem_of_cons in Hp as [<-|Hp]; [|by apply IH]. apply queue_pointwise. unfold fill.
  assert (Hs : is_Some (target_off (to p) (from p) b)); [|by destruct Hs as [o ->]].
  destruct Hin as (v & Hv & Hb). clear -Hv Hb. generalize (from p) as off. induction (to p) as [|w l IH]; intros off; [by apply elem_of_nil in Hv|].
  cbn. apply elem_of_cons in Hv as [<-|Hv].
  - destruct (target_off l _ b); [eauto|]. rewrite (proj2 (Z.leb_le _ _)), (proj2 (Z.ltb_lt _ _)) by lia. eauto.
  - destruct (IH Hv (off + iov_len w)) as [o ->]. eauto.
Qed.

(** the area of the pagemap's byte *)
Lemma brought_covered a : D a = true -> exists e, e ∈ pmes pr /\ skipped env e = false /\ covers e a.
Proof using Type.
  intros (e & He & Hc)%existsb_exists. rewrite !andb_true_iff, negb_true_iff, Z.leb_le, Z.ltb_lt in Hc. exists e.
  split; [by apply list_elem_of_In|]. destruct Hc as (Hs & Hc). by split.
Qed.

Lemma task_area_unique v w a : v ∈ vmas -> w ∈ vmas -> in_area v a -> in_area w a -> v = w.
Proof using Htask.
  intros [i Hi]%list_elem_of_lookup [j Hj]%list_elem_of_lookup [A1 A2] [B1 B2]. destruct (Nat.lt_total i j) as [H|[->|H]]; [|congruence|].
  - pose proof (in_order_areas i j v w H Hi Hj). lia.
  - pose proof (in_order_areas j i w v H Hj Hi). lia.
Qed.

Lemma brought_private v a : v ∈ vmas -> in_area v a -> D a = true -> private v = true.
Proof using Htask.
  intros Hv Ha (e & He & Hs & Hc)%brought_covered. destruct (proj2 (tk_covers Htask e He Hs) a Hc) as (w & Hw & Hwa & Hp).
  by rewrite (task_area_unique v w a).
Qed.

Lemma private_kind v : private v = true -> vma_entry_is (va_e v) VMA_AREA_REGULAR = true \/ vma_entry_is (va_e v) VMA_AREA_AIORING = true.
Proof using Type. unfold vma_area_is_private, vma_entry_is_private. rewrite orb_true_iff, !andb_true_iff. tauto. Qed.

(** a private area that was not premapped is mapped by the restorer *)
Lemma mapped_private R i v rv : given R i v (rv_e rv) -> private v = true -> premaps_at i v = false -> mapped_here rv = true.
Proof using Type.
  intros Hg Hp Hpm. unfold mapped_here. rewrite (gv_premapped _ _ _ _ Hg), Hpm. rewrite andb_true_r, orb_true_iff.
  pose proof (gv_bits _ _ _ _ Hg) as Hb. destruct (private_kind v Hp) as [Hk|Hk]; [left|right]; rewrite <-Hk; unfold VMA_AREA_REGULAR, VMA_AREA_AIORING; apply Hb; lia.
Qed.

Lemma given_private_prot R i v rv : v ∈ vmas -> given R i v (rv_e rv) -> private v = true ->
  mapping_prot rv = if vma_entry_is (rv_e rv) VMA_NO_PROT_WRITE then v_prot (va_e v) else Z.lor (v_prot (va_e v)) PROT_WRITE.
Proof using Htask.
  intros Hv Hg Hp. destruct (gv_kind _ _ _ _ Hg) as [K1 K2]. unfold mapping_prot. rewrite K1, K2. destruct (tk_kind Htask v Hv Hp) as [-> _].
  rewrite orb_true_r. cbn. change VMA_NO_PROT_WRITE with (Z.shiftl 1 29). rewrite (entry_has (rv_e rv) 29) by lia. by destruct (vma_entry_is _ _).
Qed.

Lemma lor_write p : has (Z.lor p PROT_WRITE) PROT_WRITE = true.
Proof using Type. change PROT_WRITE with (Z.shiftl 1 1). rewrite has_bit by lia. rewrite Z.lor_spec. change (Z.testbit (Z.shiftl 1 1) 1) with true. apply orb_true_r. Qed.

(** *** The memory of the task *)
(** what a new mapping of [v] holds at [a] *)
Definition fresh (v : vma_area) (a x : Z) : Prop :=
  if has (v_flags (va_e v)) MAP_ANONYMOUS then x = 0
  else exists t f g, x = k_content t f (g + (a - vstart v)) /\ (g = 0 \/ g = guard env v).

Definition vdso_area (v : vma_area) : bool := vma_area_is v VMA_AREA_VDSO || vma_area_is v VMA_AREA_VVAR.

(** every private area is at its addresses, with its protection; its pages are those of the images, and otherwise those of
    a new mapping *)
Definition memory_back (s : aspace) : Prop :=
  forall v a, v ∈ vmas -> private v = true -> vma_area_is v VMA_AREA_REGULAR = true -> vdso_area v = false -> in_area v a ->
    as_prot s a = Some (v_prot (va_e v)) /\ if D a then ref_byte chain a = Some (as_mem s a) else fresh v a (as_mem s a).

Lemma fresh_content v a t f g : (has (v_flags (va_e v)) MAP_ANONYMOUS = true -> has f MAP_ANONYMOUS = true) -> g = 0 \/ g = guard env v ->
  fresh v a (k_content t f (g + (a - vstart v))).
Proof using MmKernelOk0. intros Hf Hg. unfold fresh. destruct (has _ _); [by apply anonymous_zero, Hf|eauto]. Qed.

Lemma anonymous_kept f g : has f MAP_ANONYMOUS = true -> has (Z.lor f g) MAP_ANONYMOUS = true.
Proof using Type. change MAP_ANONYMOUS with (Z.shiftl 1 5). rewrite !has_bit, Z.lor_spec by lia. by intros ->. Qed.

Lemma map_flags_anonymous v : has (v_flags (va_e v)) MAP_ANONYMOUS = true -> has (map_flags v) MAP_ANONYMOUS = true.
Proof using Type. intros H. unfold map_flags. by do 2 apply anonymous_kept. Qed.

Lemma mapping_flags_anonymous R i v rv : v ∈ vmas -> private v = true -> given R i v (rv_e rv) ->
  has (v_flags (va_e v)) MAP_ANONYMOUS = true -> has (mapping_flags rv) MAP_ANONYMOUS = true.
Proof using Htask.
  intros Hv Hp Hg Ha. destruct (gv_kind _ _ _ _ Hg) as [_ K]. unfold mapping_flags. rewrite K.
  destruct (tk_kind Htask v Hv Hp) as [_ Hs]. pose proof (gv_bits _ _ _ _ Hg) as Hb.
  assert (Hns : vma_entry_is (rv_e rv) VMA_ANON_SHARED = false) by (rewrite <-Hs; unfold VMA_ANON_SHARED; apply Hb; lia).
  rewrite Hns. cbn [andb]. destruct (vma_entry_is _ VMA_AREA_AIORING); repeat apply anonymous_kept; done.
Qed.

Lemma write_back p : has p PROT_WRITE = true -> Z.lor p PROT_WRITE = p.
Proof using Type.
  change PROT_WRITE with (Z.shiftl 1 1). rewrite has_bit by lia. intros H. apply Z.bits_inj'. intros n Hn. rewrite Z.lor_spec, Z.shiftl_1_l.
  destruct (Z.eq_dec n 1) as [->|]; [by rewrite H|]. rewrite Z.pow2_bits_false by lia. apply orb_false_r.
Qed.

Lemma final_given R i v rv : given R i v (rv_e rv) -> vma_area_is v VMA_AREA_REGULAR = true -> vma_entry_is (rv_e rv) VMA_NO_PROT_WRITE = false ->
  final_prot rv (Some (Z.lor (v_prot (va_e v)) PROT_WRITE)) = Some (v_prot (va_e v)).
Proof using Type.
  intros Hg Hr Hn. destruct (gv_kind _ _ _ _ Hg) as [K _]. unfold final_prot, drops. rewrite K.
  assert (Hre : vma_entry_is (rv_e rv) VMA_AREA_REGULAR = true) by (rewrite <-Hr; unfold VMA_AREA_REGULAR; apply (gv_bits _ _ _ _ Hg); lia).
  rewrite Hre. change VMA_NO_PROT_WRITE with (Z.shiftl 1 29). rewrite (entry_has _ 29) by lia. unfold VMA_NO_PROT_WRITE in Hn. rewrite Hn. cbn.
  destruct (has (v_prot (va_e v)) PROT_WRITE) eqn:E; [|done]. cbn. by rewrite write_back.
Qed.

Lemma final_unwritten rv : final_prot rv (Some (v_prot (rv_e rv))) = Some (v_prot (rv_e rv)).
Proof using Type. unfold final_prot. by destruct (drops rv). Qed.

(** ** In the restorer *)
Section Final.
Context {SK : RstKernel}.
Variables (R : Z) (l0 : list vma_area) (io : list page_read_iov) (args : restore_args).
Abbreviation es := (ra_vmas args).
Hypothesis Hl0 : laid R l0.
Hypothesis Hlen0 : length l0 = length vmas.
Hypothesis Hio : requests_left l0 chain D io.

Record given_args : Prop := {
  ga_entry : forall i rv, es !! i = Some rv -> exists v, vmas !! i = Some v /\ v ∈ vmas /\ given R i v (rv_e rv);
  ga_length : length es = length vmas /\ ra_vmas_n args = length es;
  ga_place : ra_premmapped_addr args = R /\ ra_premmapped_len args = taken env ok None vmas;
  ga_task : ra_task_size args = task_size env /\ R + taken env ok None vmas < task_size env;
  ga_ios : ra_vma_ios args = rio_of <$> io;
  ga_boot : 0 < ra_bootstrap_start args /\ 0 <= ra_bootstrap_len args /\ ra_bootstrap_start args + ra_bootstrap_len args < task_size env;
  ga_apart : R + taken env ok None vmas < ra_bootstrap_start args \/ ra_bootstrap_start args + ra_bootstrap_len args < R;
  ga_clear : forall v a, v ∈ vmas -> in_area v a -> ~ in_boot args a;
}.
Hypothesis Hargs : given_args.

Lemma entry_of i v : vmas !! i = Some v -> exists rv, es !! i = Some rv /\ rv ∈ es /\ given R i v (rv_e rv).
Proof using Hargs.
  intros Hi. destruct (ga_length Hargs) as [Hn _]. destruct (lookup_lt_is_Some_2 es i) as [rv Hrv]; [rewrite Hn; by eapply lookup_lt_Some|].
  destruct (ga_entry Hargs i rv Hrv) as (w & Hw & _ & Hg). rewrite Hi in Hw. injection Hw as <-. exists rv. split; [done|]. split; [by eapply list_elem_of_lookup_2|done].
Qed.

Lemma pm_area i e : premap_at es i e -> exists v, vmas !! i = Some v /\ v ∈ vmas /\ premaps_at i v = true /\ given R i v e /\
  v_shmid e = place_at R i + guard env v /\ len_of e = vend v - vstart v.
Proof using Hargs.
  intros (rv & Hrv & <- & Hp). destruct (ga_entry Hargs i rv Hrv) as (v & Hv & Hvi & Hg). exists v.
  rewrite (gv_premapped _ _ _ _ Hg) in Hp. destruct (gv_place _ _ _ _ Hg Hp) as [Hs _]. destruct (gv_bounds _ _ _ _ Hg) as [B1 B2].
  unfold len_of. rewrite B1, B2. by split_and!.
Qed.

Lemma given_ready s4 s5 : parked R s4 -> (forall a, R <= a < R + taken env ok None vmas -> same_at s4 s5 a) -> bounded s5 -> ready args s5.
Proof using Hargs Htask Hl0 Hlen0.
  intros Hpk Hsame Hb. destruct (ga_place Hargs) as [P1 P2]. destruct (ga_task Hargs) as [T1 T2]. destruct (la_base _ _ Hl0) as (HR & HRa & _).
  pose proof taken_bound as Htb. pose proof (tk_size Htask).
  assert (Hslot : forall v, slot env v = vend v - vstart v + guard env v) by done.
  split; rewrite ?P1, ?P2, ?T1.
  - lia.
  - apply (ga_boot Hargs).
  - lia.
  - apply (ga_apart Hargs).
  - apply (ga_length Hargs).
  - intros i j rv rw Hij Hi Hj. destruct (ga_entry Hargs i rv Hi) as (v & Hv & _ & [[_ ->] _ _ _ _ _]).
    destruct (ga_entry Hargs j rw Hj) as (w & Hw & _ & [[-> _] _ _ _ _ _]). by eapply in_order_areas.
  - intros rv [i Hi]%list_elem_of_lookup. destruct (ga_entry Hargs i rv Hi) as (v & _ & Hv & [[B1 B2] _ _ _ _ _]).
    destruct (tk_area Htask v Hv) as (A1 & A2 & _). destruct (area_bounds v Hv) as [_ (E1 & E2 & E3 & E4 & E5 & _)].
    unfold good_entry. rewrite B1, B2. split_and!; try done. lia.
  - intros rv a [i Hi]%list_elem_of_lookup Ha. destruct (ga_entry Hargs i rv Hi) as (v & _ & Hv & [[B1 B2] _ _ _ _ _]).
    apply (ga_clear Hargs v a Hv). unfold in_dst in Ha. unfold in_area. by rewrite B1, B2 in Ha.
  - intros i e (v & Hv & Hvi & Hp & _ & -> & ->)%pm_area. destruct (place_in env ok vmas None R 0 i v (tk_asc Htask) Hv Hp).
    pose proof (guard_nonneg v). split; [|rewrite Hslot in *; lia]. apply aligned_add; [by apply place_aligned|]. unfold guard, aligned. by destruct (vma_has_guard_gap_hidden env v).
  - intros i j e f Hij (v & Hv & Hvi & Hp & _ & -> & ->)%pm_area (w & Hw & Hwi & Hq & _ & -> & _)%pm_area.
    pose proof (place_before env ok vmas None R 0 i j v (tk_asc Htask) Hij Hv Hp). pose proof (guard_nonneg w). rewrite Hslot in *. lia.
  - intros i j e f Hij (v & Hv & Hvi & Hp & [[-> _] _ _ _ _ _] & -> & _)%pm_area (w & Hw & Hwi & Hq & [[-> _] _ _ _ _ _] & -> & _)%pm_area Hlt.
    pose proof (place_shift env ok vmas None R 0 i j v w (tk_asc Htask) (tk_gap Htask) Hij Hv Hw Hp). lia.
  - intros i e (v & Hv & Hvi & Hp & _ & -> & ->)%pm_area a Ha. destruct (place_in env ok vmas None R 0 i v (tk_asc Htask) Hv Hp).
    pose proof (guard_nonneg v). rewrite Hslot in *. destruct (Hsame a) as [-> _]; [lia|]. rewrite (pk_prot _ _ Hpk i v a Hv Hp); [eauto|rewrite Hslot; lia].
  - intros a Ha Hs. unfold in_premap in Ha. rewrite P1, P2 in Ha. destruct (Hsame a Ha) as [E _]. rewrite E in Hs.
    destruct (pk_only _ _ Hpk a Ha Hs) as (i & v & Hv & Hp & Hin). destruct (entry_of i v Hv) as (rv & Hrv & _ & Hg).
    exists i, (rv_e rv). destruct (gv_place _ _ _ _ Hg Hp) as [Hsh _]. destruct (gv_bounds _ _ _ _ Hg) as [B1 B2]. split.
    + exists rv. split; [done|]. split; [done|]. by rewrite (gv_premapped _ _ _ _ Hg).
    + unfold in_src, len_of. rewrite B1, B2, Hsh. rewrite Hslot in Hin. lia.
  - done.
Qed.
Lemma request_in p b : p ∈ io -> in_iovs (to p) b -> D b = true /\ exists i v v', vmas !! i = Some v /\ v ∈ vmas /\ l0 !! i = Some v' /\
  laid_at R i v v' /\ in_area v b /\ premaps_at i v = false.
Proof using Hio Hl0 Htask.
  intros Hp Hin. destruct (Hio pr eq_refl) as [Hall Hq]. assert (Hpi : piov_in pr p) by (apply (proj1 (List.Forall_forall _ _) Hall), list_elem_of_In, Hp).
  set (here := existsb (fun v => (vstart v <=? b) && (b <? vend v) && negb (premapped v)) l0).
  destruct (D b && here) eqn:E.
  - apply andb_true_iff in E as [ED Eh]. split; [done|]. apply existsb_exists in Eh as (v' & Hv' & Hc). apply list_elem_of_In, list_elem_of_lookup in Hv' as [i Hi].
    rewrite !andb_true_iff, Z.leb_le, Z.ltb_lt, negb_true_iff in Hc. destruct Hc as [[Hc1 Hc2] Hnp]. destruct (la_area _ _ Hl0 i v' Hi) as (v & Hv & Hvi & Hla).
    destruct (laid_kept R i v v' Hla) as (K1 & K2 & _). exists i, v, v'. rewrite (laid_premapped R i v v' Hvi Hla) in Hnp. unfold in_area. rewrite <-K1, <-K2. by split_and!.
  - assert (Hno : ~ (D b = true /\ exists v, v ∈ l0 /\ in_area v b /\ premapped v = false)).
    { intros [ED (v & Hv & [Ha1 Ha2] & Hnp)]. rewrite ED in E. cbn in E. apply not_true_iff_false in E. apply E. apply existsb_exists. exists v.
      split; [by apply list_elem_of_In|]. by rewrite Hnp, (proj2 (Z.leb_le _ _)), (proj2 (Z.ltb_lt _ _)). }
    pose proof (proj2 (Hq (fun _ => 0) b) Hno) as H0. pose proof (proj2 (Hq (fun _ => 1) b) Hno) as H1.
    assert (Ht : exists p, p ∈ io /\ Forall (fun v => 0 < iov_len v) (to p) /\ in_iovs (to p) b) by (exists p; split; [done|]; split; [apply Hpi|done]).
    rewrite (queue_touched (pi pr) io b Ht _ (fun _ => 1)), H1 in H0. done.
Qed.

Lemma given_ios : Forall (fun p => Forall (fun v => 0 < iov_len v) (to p) /\ (Z.to_nat (bytes_of (to p)) <= iofuel)%nat) io.
Proof using Hio Hlen0 Htask.
  destruct (Hio pr eq_refl) as [Hall _]. destruct (tk_fuel Htask) as [Hf%Forall_inv _]. eapply Forall_impl; [|exact Hall].
  intros p ((_ & H1 & H2) & H3 & H4). cbn in *. split; [done|]. lia.
Qed.

Lemma given_ios_ok : ios_ok args iofuel.
Proof using Hargs Htask Hl0 Hlen0 Hio.
  split; rewrite (ga_ios Hargs).
  - apply Forall_fmap. eapply Forall_impl; [|exact given_ios]. done.
  - intros o a (p & -> & Hp)%list_elem_of_fmap Ha. destruct (request_in p a Hp Ha) as (HD & i & v & v' & Hv & Hvi & Hv' & Hla & Hin & Hpm).
    destruct (entry_of i v Hv) as (rv & Hrv & Hrvi & Hg). pose proof (brought_private v a Hvi Hin HD) as Hp'. exists rv. split; [done|].
    split; [by eapply mapped_private|]. destruct (gv_bounds _ _ _ _ Hg) as [B1 B2]. split; [unfold in_dst; by rewrite B1, B2|].
    rewrite (given_private_prot R i v rv Hvi Hg Hp'). destruct (vma_entry_is (rv_e rv) VMA_NO_PROT_WRITE) eqn:E; [|apply lor_write].
    exfalso. pose proof (gv_written _ _ _ _ Hg E) as Hu. destruct (brought_covered a HD) as (e & He & _ & [C1 C2]). destruct (Hu e He); destruct Hin; lia.
Qed.

Lemma given_piovs : piov_of <$> ra_vma_ios args = io.
Proof using Hargs Hio.
  rewrite (ga_ios Hargs). destruct (Hio pr eq_refl) as [Hall _]. clear -Hall. induction Hall as [|p q ((_ & _ & H) & _) _ IH]; [done|].
  rewrite !fmap_cons, IH. f_equal. destruct p; cbn in *. unfold piov_of, rio_of. cbn. by rewrite H.
Qed.
Lemma not_vdso i v rv : given R i v (rv_e rv) -> vdso_area v = false -> is_vdso rv = false.
Proof using Type.
  intros Hg. unfold vdso_area, is_vdso. pose proof (gv_bits _ _ _ _ Hg) as Hb. unfold VMA_AREA_VDSO, VMA_AREA_VVAR in *.
  rewrite !Hb by (clear; lia). done.
Qed.

Lemma back_premapped s4 s5 s' i v rv a : parked R s4 -> (forall a, R <= a < R + taken env ok None vmas -> same_at s4 s5 a) ->
  restored args (pi pr) s5 s' final_prot (fun v => is_vdso v = false) ->
  vmas !! i = Some v -> premaps_at i v = true -> es !! i = Some rv -> given R i v (rv_e rv) ->
  vma_area_is v VMA_AREA_REGULAR = true -> vdso_area v = false -> in_area v a ->
  as_prot s' a = Some (v_prot (va_e v)) /\ if D a then ref_byte chain a = Some (as_mem s' a) else fresh v a (as_mem s' a).
Proof using Htask Hl0 Hlen0 MmKernelOk0.
  intros Hpk Hsame Hre Hv Hp Hrv Hg Hk Hnv [A1 A2]. destruct (gv_bounds _ _ _ _ Hg) as [B1 B2].
  destruct (gv_place _ _ _ _ Hg Hp) as [Hsh Hnw]. destruct (place_in env ok vmas None R 0 i v (tk_asc Htask) Hv Hp) as [P1 P2].
  pose proof (guard_nonneg v) as Hgn. assert (Hsl : slot env v = vend v - vstart v + guard env v) by done.
  destruct (re_premapped _ _ _ _ _ _ Hre i rv (a - vstart v) Hrv) as [M1 M2].
  - by rewrite (gv_premapped _ _ _ _ Hg).
  - by eapply not_vdso.
  - unfold len_of. rewrite B1, B2. lia.
  - rewrite B1 in M1, M2. replace (vstart v + (a - vstart v)) with a in M1, M2 by lia. rewrite Hsh in M1, M2.
    destruct (Hsame (place_at R i + guard env v + (a - vstart v))) as [E1 E2]; [lia|]. rewrite E1 in M2. rewrite E2 in M1.
    rewrite (pk_prot _ _ Hpk i v) in M2 by (done || lia). rewrite M2. split; [by eapply final_given|]. rewrite M1.
    pose proof (pk_mem _ _ Hpk i v a Hv Hp (conj A1 A2)) as Hm. cbn in Hm. destruct (D a); [done|]. destruct Hm as [t ->].
    apply fresh_content; [apply map_flags_anonymous|by right].
Qed.

Lemma back_mapped s5 s' i v rv a : restored args (pi pr) s5 s' final_prot (fun v => is_vdso v = false) ->
  vmas !! i = Some v -> v ∈ vmas -> private v = true -> premaps_at i v = false -> es !! i = Some rv -> given R i v (rv_e rv) ->
  vma_area_is v VMA_AREA_REGULAR = true -> vdso_area v = false -> in_area v a ->
  as_prot s' a = Some (v_prot (va_e v)) /\ if D a then ref_byte chain a = Some (as_mem s' a) else fresh v a (as_mem s' a).
Proof using Htask Hl0 Hlen0 Hio Hargs MmKernelOk0.
  intros Hre Hv Hvi Hpv Hp Hrv Hg Hk Hnv Ha. destruct (gv_bounds _ _ _ _ Hg) as [B1 B2].
  destruct (re_mapped _ _ _ _ _ _ Hre i rv Hrv) as [t Hm]; [by eapply mapped_private|by eapply not_vdso|].
  destruct (Hm a) as [M1 M2]; [unfold in_dst; by rewrite B1, B2|]. rewrite M2, (given_private_prot R i v rv) by done. split.
  - destruct (vma_entry_is (rv_e rv) VMA_NO_PROT_WRITE) eqn:En; [|by eapply final_given].
    destruct (gv_kind _ _ _ _ Hg) as [<- _]. apply final_unwritten.
  - rewrite given_piovs in M1. destruct (Hio pr eq_refl) as [_ Hq]. specialize (Hq (fun b => k_content t (mapping_flags rv) (b - v_start (rv_e rv))) a).
    rewrite <-M1 in Hq. destruct Hq as [Q1 Q2].
    destruct (lookup_lt_is_Some_2 l0 i) as [v' Hv']; [rewrite Hlen0; by eapply lookup_lt_Some|].
    destruct (la_area _ _ Hl0 i v' Hv') as (w & Hw & _ & Hla). rewrite Hv in Hw. injection Hw as <-.
    destruct (laid_kept R i v v' Hla) as (K1 & K2 & _). destruct (D a) eqn:ED.
    + apply Q1. split; [done|]. exists v'. split; [by eapply list_elem_of_lookup_2|]. unfold in_area. rewrite K1, K2.
      split; [exact Ha|]. by rewrite (laid_premapped R i v v').
    + rewrite Q2 by (by intros [[=] _]). rewrite B1. apply (fresh_content v a t (mapping_flags rv) 0); [|by left]. by eapply mapping_flags_anonymous.
Qed.

Lemma final_memory s4 s5 s' : parked R s4 -> (forall a, R <= a < R + taken env ok None vmas -> same_at s4 s5 a) ->
  restored args (pi pr) s5 s' final_prot (fun v => is_vdso v = false) -> memory_back s'.
Proof using Htask Hl0 Hlen0 Hio Hargs MmKernelOk0.
  intros Hpk Hsame Hre v a Hv Hp Hk Hnv Ha. pose proof Hv as [i Hi]%list_elem_of_lookup. destruct (entry_of i v Hi) as (rv & Hrv & _ & Hg).
  destruct (premaps_at i v) eqn:Ep; [by eapply back_premapped|by eapply back_mapped].
Qed.
End Final.
(** *** The stages together *)
(** the arguments of the restorer, as the task that is restored has them after [prepare_vmas] *)
Record handed_over {SK : RstKernel} (ri : rst_info) (ta : task_restore_args) (args : restore_args) : Prop := {
  ho_vmas : rv_e <$> ra_vmas args = ta_vmas ta /\ ra_vmas_n args = Z.to_nat (ta_vmas_n ta);
  ho_ios : ra_vma_ios args = ta_vma_ios ta;
  ho_place : ra_premmapped_addr args = ri_premmapped_addr ri /\ ra_premmapped_len args = ri_premmapped_len ri;
  ho_task : ra_task_size args = task_size env /\ ra_premmapped_addr args + ra_premmapped_len args < task_size env;
  ho_boot : 0 < ra_bootstrap_start args /\ 0 <= ra_bootstrap_len args /\ ra_bootstrap_start args + ra_bootstrap_len args < task_size env;
  ho_apart : ra_premmapped_addr args + ra_premmapped_len args < ra_bootstrap_start args \/
             ra_bootstrap_start args + ra_bootstrap_len args < ra_premmapped_addr args;
  ho_clear : forall v a, v ∈ vmas -> in_area v a -> ~ in_boot args a;
  ho_plain : uffd_fine (ra_uffd args) /\ ra_auto_dedup args = false;
}.

Lemma handed_given {SK : RstKernel} R s0 s ri l2 ta args : prepared R s0 s (h (ri_vmas ri)) (ri_vma_io ri) ->
  Forall2 opened (h (ri_vmas ri)) l2 -> ta = mk_ta (handed <$> l2) (Z.of_nat (length vmas)) (rio_of <$> ri_vma_io ri) ->
  ri_premmapped_addr ri = R -> ri_premmapped_len ri = taken env ok None vmas -> handed_over ri ta args ->
  given_args R (ri_vma_io ri) args.
Proof using Htask.
  intros Hp Ho -> HR Hl [[V1 V2] I [P1 P2] [T1 T2] B1 B2 B3 _]. cbn [ta_vmas ta_vmas_n ta_vma_ios] in *.
  rewrite P1, P2, HR, Hl in T2, B2. rewrite HR in P1. rewrite Hl in P2.
  assert (Hlen : length (ra_vmas args) = length vmas).
  { rewrite <-(length_fmap rv_e), V1, length_fmap, <-(Forall2_length Ho). destruct (pp_areas _ _ _ _ _ Hp) as (l0 & _ & <- & Hs & _).
    symmetry. by eapply Forall2_length. }
  split; try done.
  - intros i rv Hi. eapply given_ok; [exact Hp|exact Ho|]. rewrite <-V1, list_lookup_fmap, Hi. done.
  - split; [done|]. rewrite V2, Hlen. lia.
Qed.

(** The stages of the restore succeed one after the other, from the address space [s]: the task maps and fills its areas in
    the reserved place, and in whatever address space that keeps this place the restorer, with the arguments that
    were made, leaves a memory with the property [Back]. *)
Definition stages {SK : RstKernel} (dirs : list imgdir) (img ids : Z) (thp_disabled : bool) (pvmas : list vma_area)
    (rst_mem_alloc open_pages : clock -> bool) (ri : rst_info) (pages : Z -> Z) (s : aspace) (t : clock) (Back : aspace -> Prop) : Prop :=
  let size := rst_priv_size (ri_vmas ri) in
  let R := k_mmap t s 0 size PROT_NONE (Z.lor MAP_PRIVATE MAP_ANONYMOUS) in
  let used := taken env ok None vmas in
  exists ri1 pv t1 s1 t2 s2 l2 t3 ta t4,
    prepare_mappings env false false open_area prctl buf iofuel dirs stream thp_disabled img ids pvmas ri (t, s) =
      Done (0, ri1, pv, (t1, s1)) /\
    unmap_guard_pages env (h (ri_vmas ri1)) (t1, s1) = (0, (t2, s2)) /\
    open_vmas open_area (h (ri_vmas ri1)) t2 = (0, l2, t3) /\
    prepare_vmas rst_mem_alloc open_pages (mk_vml l2 (vml_nr (ri_vmas ri1)) size) (ri_vma_io ri1) t3 = (0, ta, t4) /\
    ri_premmapped_addr ri1 = R /\ ri_premmapped_len ri1 = used /\
    forall args map_vdso vdso_proxify can_map_vdso t5 s5,
      handed_over ri1 ta args -> boot_only args map_vdso -> vdso_only args vdso_proxify -> bounded s5 ->
      (forall a, R <= a < R + used -> same_at s2 s5 a) ->
      exists t6 s6, restore_memory map_vdso vdso_proxify iofuel can_map_vdso args pages (t5, s5) = Done (0, ra_vmas args, pages, (t6, s6)) /\
        Back s6.

Lemma stages_mono {SK : RstKernel} dirs img ids thp_disabled pvmas rst_mem_alloc open_pages ri pages s t (Back Back' : aspace -> Prop) :
  (forall s, Back s -> Back' s) ->
  stages dirs img ids thp_disabled pvmas rst_mem_alloc open_pages ri pages s t Back ->
  stages dirs img ids thp_disabled pvmas rst_mem_alloc open_pages ri pages s t Back'.
Proof using Type.
  intros HB (ri1 & pv & t1 & s1 & t2 & s2 & l2 & t3 & ta & t4 & E1 & E2 & E3 & E4 & E5 & E6 & Hrun).
  exists ri1, pv, t1, s1, t2, s2, l2, t3, ta, t4. split_and!; try done. intros args mv vp cm t5 s5 H1 H2 H3 H4 H5.
  destruct (Hrun args mv vp cm t5 s5) as (t6 & s6 & E & Hb); try done. exists t6, s6. split; [done|]. by apply HB.
Qed.

Lemma private_memory_ok {SK : RstKernel} `{!RstKernelOk SK} `{!RstKernelLive SK} dirs img ids thp_disabled pvmas rst_mem_alloc open_pages ri s t :
  (forall t, exists ids' t', open_page_read_at stream dirs img ids t = Done (1, chain, ids', t')) ->
  (forall t, rst_mem_alloc t = true) -> (forall t, open_pages t = true) ->
  (forall v, v ∈ vmas -> vma_area_is v VMA_AREA_SYSVIPC = false) ->
  h (ri_vmas ri) = vmas -> vml_nr (ri_vmas ri) = Z.of_nat (length vmas) -> ri_premmapped_addr ri = 0 -> ri_premmapped_len ri = 0 -> ri_vma_io ri = [] ->
  let size := rst_priv_size (ri_vmas ri) in
  let R := k_mmap t s 0 size PROT_NONE (Z.lor MAP_PRIVATE MAP_ANONYMOUS) in
  taken env ok None vmas <= size -> 0 < size -> 0 < R -> aligned R -> R + size <= TASK_SIZE -> mapped s buf PAGE_SIZE ->
  stages dirs img ids thp_disabled pvmas rst_mem_alloc open_pages ri (pi pr) s t memory_back.
Proof using All.
  intros Himg Halloc Hpages Hsv Hh Hn Ha Hl Hi size R Htk Hsz HR HRa HRt Hbuf.
  destruct (prepare_mappings_ok dirs thp_disabled img ids pvmas Himg ri s t) as (ri1 & pv & t1 & s1 & E1 & Hp & En & Er & El); try done.
  { rewrite Hn. pose proof (tk_some Htask). by destruct vmas. }
  destruct (parked_ok R s s1 (h (ri_vmas ri1)) (ri_vma_io ri1) t1 Hp HRa) as (t2 & s2 & E2 & Hpk & _).
  destruct (open_vmas_ok (h (ri_vmas ri1)) t2) as (l2 & t3 & E3 & Hop).
  destruct (prepare_vmas_ok rst_mem_alloc open_pages Halloc Hpages (mk_vml l2 (vml_nr (ri_vmas ri1)) size) (ri_vma_io ri1) t3) as (t4 & E4).
  do 10 eexists. split; [exact E1|]. split; [exact E2|]. split; [exact E3|]. split; [exact E4|]. split; [done|]. split; [done|].
  intros args mv vp cm t5 s5 Hho Hmv Hvp Hb Hsame.
  assert (Hargs : given_args R (ri_vma_io ri1) args).
  { eapply handed_given; [exact Hp|exact Hop| |exact Er|exact El|exact Hho]. cbn. by rewrite En, Hn. }
  destruct (pp_areas _ _ _ _ _ Hp) as (l0 & Hl0 & Hlen0 & _ & Hio). destruct (ho_plain _ _ _ Hho) as (Hu & Hd).
  destruct (restore_memory_ok args mv vp cm iofuel (pi pr) t5 s5) as (t6 & s6 & E6 & Hre); try done.
  { by eapply (given_ready R l0). }
  { by eapply (given_ios_ok R l0). }
  { intros rv [i Hrv]%list_elem_of_lookup _. destruct (ga_entry _ _ _ Hargs i rv Hrv) as (v & _ & Hv & Hg). rewrite <-(Hsv v Hv).
    unfold VMA_AREA_SYSVIPC. apply (gv_bits _ _ _ _ Hg); lia. }
  exists t6, s6. split; [done|]. by eapply (final_memory R l0).
Qed.
End Task.

(** an area that is read in place, and a stack on top of it that is premapped *)
Definition demo_task_area (start end_ flags : Z) : vma_area :=
  mk_varea (mk_vma (start * PAGE_SIZE) (end_ * PAGE_SIZE) 0 0 3 flags (Z.lor VMA_AREA_REGULAR VMA_ANON_PRIVATE)) NoPvma None 0 false.
Definition demo_task : list vma_area := [demo_task_area 3 5 0x22; demo_task_area 5 7 0x122].
Definition demo_task_pages : list PagemapEntry := [page 4 1 PE_PRESENT; page 6 1 PE_PRESENT].
Definition demo_task_reader : page_read := mk_pr None 0 0 (mk_iovec 0 0) demo_task_pages (-1) [] (fun i => i mod 256) 1 1.
Definition demo_task_space : aspace := mk_as (fun _ => 7) (fun a => if within 0x200000 PAGE_SIZE a then Some 3 else None).
Definition demo_task_info : rst_info := mk_ri (mk_vml demo_task 2 (3 * PAGE_SIZE)) 0 0 [] false.
(** what the restorer starts from *)
Definition demo_task_kept (s : aspace) : aspace := mk_as (as_mem s) (fun a => if within (2 ^ 46) (2 * PAGE_SIZE) a then as_prot s a else None).
Definition demo_task_args (ri : rst_info) (ta : task_restore_args) : restore_args :=
  mk_ra (-1) false ((fun e => mk_rv e (-1)) <$> ta_vmas ta) (Z.to_nat (ta_vmas_n ta)) (ta_vma_ios ta) (task_size demo_env)
    (ri_premmapped_addr ri) (ri_premmapped_len ri) 0x300000 PAGE_SIZE false.

Lemma demo_task_in v : v ∈ demo_task -> v = demo_task_area 3 5 0x22 \/ v = demo_task_area 5 7 0x122.
Proof. unfold demo_task. rewrite !elem_of_cons. intros [?|[?|[]%elem_of_nil]]; auto. Qed.

Lemma demo_task_reader_ok : pm_ok demo_task_reader.
Proof. split; [|by repeat constructor]. repeat constructor; unfold pe_end; cbn; unfold PAGE_SIZE; (lia || done). Qed.

Lemma demo_task_ok : @task_ok demo_read_kernel demo_env (fun _ => 0) (fun _ => 0) demo_task demo_task_reader [] (Z.to_nat (4 * PAGE_SIZE)).
Proof.
  split.
  - cbn. unfold area_ok, Premap.entry_ok, aligned, guard, TASK_SIZE, PAGE_SIZE. cbn. split_and!; (lia || done).
  - cbn. unfold guard, PAGE_SIZE. cbn. lia.
  - intros v [->| ->]%demo_task_in; vm_compute; split_and!; congruence.
  - intros v [->| ->]%demo_task_in; done.
  - intros v [->| ->]%demo_task_in; done.
  - intros v [->| ->]%demo_task_in; done.
  - intros v [->| ->]%demo_task_in; done.
  - done.
  - vm_compute. congruence.
  - constructor; [|constructor]. split; [apply demo_task_reader_ok|done].
  - done.
  - intros e He _. split.
    + revert e He. apply (present_resolvable demo_task_reader []); [apply demo_task_reader_ok|by repeat constructor].
    + change (pmes demo_task_reader) with demo_task_pages in He. unfold demo_task_pages in He. unfold covers, pe_end. rewrite !elem_of_cons in He. intros a Ha.
      destruct He as [->|[->|[]%elem_of_nil]]; cbn in Ha; unfold PAGE_SIZE in Ha.
      * exists (demo_task_area 3 5 0x22). split; [apply list_elem_of_here|]. split; [unfold in_area; cbn; unfold PAGE_SIZE; lia|done].
      * exists (demo_task_area 5 7 0x122). split; [by apply list_elem_of_further, list_elem_of_here|]. split; [unfold in_area; cbn; unfold PAGE_SIZE; lia|done].
  - done.
  - done.
  - done.
  - split; [constructor; [|constructor]|]; apply Z2Nat.inj_le; vm_compute; congruence.
Qed.
Lemma demo_task_place : @k_mmap demo_mm_kernel 0%nat demo_task_space 0 (rst_priv_size (ri_vmas demo_task_info)) PROT_NONE (Z.lor MAP_PRIVATE MAP_ANONYMOUS) = 2 ^ 46.
Proof. vm_compute. reflexivity. Qed.

Lemma demo_task_kept_same s a : 2 ^ 46 <= a < 2 ^ 46 + 2 * PAGE_SIZE -> same_at s (demo_task_kept s) a.
Proof. intros Ha. apply within_true in Ha. split; [|done]. unfold demo_task_kept. cbn [as_prot]. by rewrite Ha. Qed.

Lemma demo_task_handed ri ta : ri_premmapped_addr ri = 2 ^ 46 -> ri_premmapped_len ri = 2 * PAGE_SIZE ->
  @handed_over demo_env demo_task demo_rst_kernel ri ta (demo_task_args ri ta).
Proof.
  intros Ha Hl. split; cbn; rewrite ?Ha, ?Hl; unfold PAGE_SIZE; try (lia || done).
  - split; [|done]. rewrite <-list_fmap_compose. apply list_fmap_id.
  - intros v a [->| ->]%demo_task_in; unfold in_area, in_boot; cbn; unfold PAGE_SIZE; lia.
  - split; [by left|done].
Qed.

End TaskMemory.
