(* ===== verification/Migration.v ===== *)
(** * The private memory of a task, dumped and restored

    The dump of criu/mem.c and the restore of criu/mem.c and criu/pie/restorer.c put together: what a task's private areas
    hold after the restore is what they held when they were dumped. *)
From S2P Require Import Prelude.
From S2P Require Import Vma.
From S2P Require Import AddrSpace.
From S2P Require Import PagePipe.
From S2P Require Import Pagemap.
From S2P Require Import MemRestore.
From S2P Require Import Premap.
From S2P Require Import Content.
From S2P Require Import PageXfer.
From S2P Require Import PagemapCache.
From S2P Require Import Drain.
From S2P Require Import Chunk.
From S2P Require Import Shmem.
From S2P Require Import Mem.
From S2P Require Import ShmemRestore.
From S2P Require Import Restorer.
From S2P Require Import Restored.
From S2P Require Import TaskMemory.
Import PagePipe.PagePipe PageXfer.PageXfer Drain.Drain Chunk.Chunk Mem.Mem.

Module Migration.
Import TaskMemory.TaskMemory.

(** ** What the images describe *)
Lemma vma_page_in o pagemap hp vma p : vma_ok vma -> p ∈ vma_pages o pagemap hp vma ->
  dump_area o vma = true /\ v_start vma <= p /\ p + PAGE_SIZE <= v_end vma.
Proof.
  intros (H1 & H2 & H3 & H4) Hp. unfold vma_pages in Hp. destruct (dump_area o vma); [|by apply elem_of_nil in Hp]. split; [done|].
  apply list_elem_of_fmap in Hp as (i & -> & Hi). apply list_elem_of_filter in Hi as [_ Hi]. apply elem_of_seqZ in Hi.
  unfold page_addr, npages in *. pdiv.
Qed.

Lemma no_holes o pagemap es : es ≫= vma_holes o pagemap false = [].
Proof.
  induction es as [|e es IH]; [done|]. cbn. rewrite IH, app_nil_r. unfold vma_holes. destruct (dump_area o e); [|done].
  apply elem_of_nil_inv. intros a (i & _ & [Hi _]%list_elem_of_filter)%list_elem_of_fmap. unfold as_hole in Hi.
  apply andb_true_iff in Hi as [_ Hi]. done.
Qed.

(** the reader that a restore opens on the images *)
Definition opened_reader (x : loc_xfer) (ids id : Z) : page_read :=
  mk_pr None 0 0 (mk_iovec 0 0) (init_compat_pagemap_entry <$> pmi x) (-1) [] (s_data (lpi x)) ids id.

(** the entries cover the dumped pages, and nothing else *)
Lemma imaged_covers mem its P hi x ids id b : imaged 0 mem [] its P [] hi x ->
  (exists e, e ∈ pmes (opened_reader x ids id) /\ covers e b) <-> exists p, p ∈ P /\ p <= b < p + PAGE_SIZE.
Proof.
  intros I. pose proof I as [I1 I2 I3 I4 I5 I6 I7 I8 _ _ _].
  assert (Hpm : pmes (opened_reader x ids id) = item_entry 0 <$> its) by (cbn [opened_reader pmes]; by rewrite I4, init_compat_items).
  rewrite list.Forall_forall in I1. rewrite Hpm. split.
  - intros (e & (i & -> & Hi)%list_elem_of_fmap & Hc). destruct (item_entry_ok 0 i (I1 i Hi)) as [_ Hend].
    pose proof (I1 i Hi) as (K1 & K2 & K3 & K4 & K5 & _). unfold covers in Hc. rewrite Hend in Hc. cbn in Hc.
    assert (Hio : iov_ok (item_iov i)) by (split_and!; [lia|lia|lia|pdiv|done]).
    destruct (page_of (item_iov i) b Hio) as (p & Hp & Hpb); [lia|]. exists p. split; [|done].
    pose proof (I8 i p Hi Hp) as HP. by rewrite app_nil_r in HP.
  - intros (p & Hp & Hb). destruct (I6 p Hp) as (s & Hs & _ & Hok & Hps). exists (item_entry 0 (ISeg s)).
    split; [apply list_elem_of_fmap; by exists (ISeg s)|]. destruct (item_entry_ok 0 _ (I1 _ Hs)) as [_ Hend]. unfold covers. rewrite Hend. cbn.
    apply elem_of_iov_pages in Hps as [? ?]; [|done]. destruct Hok as (?&?&?&?&?). pdiv.
Qed.

Lemma imaged_brought env mem its P hi x ids id b : lazy_pages env = false -> imaged 0 mem [] its P [] hi x ->
  brought env (pmes (opened_reader x ids id)) b = true <-> exists p, p ∈ P /\ p <= b < p + PAGE_SIZE.
Proof.
  intros Hlz I. rewrite <-(imaged_covers mem its P hi x ids id b I). unfold brought. rewrite existsb_exists.
  assert (Hsk : forall e, skipped env e = false) by (intros e; unfold skipped; by rewrite Hlz). split.
  - intros (e & He & Hc). exists e. rewrite !andb_true_iff, Z.leb_le, Z.ltb_lt in Hc. split; [by apply list_elem_of_In|]. by destruct Hc.
  - intros (e & He & [H1 H2]). exists e. split; [by apply list_elem_of_In|]. by rewrite Hsk, (proj2 (Z.leb_le _ _)), (proj2 (Z.ltb_lt _ _)).
Qed.

(** ** The task *)
(** the areas can be restored: in order, with room for the hidden guard pages, without the status bits that the restore
    sets, none of SysV shared memory; the private ones are private *)
Record restorable_areas (env : rst_env) (es : list VmaEntry) : Prop := {
  ra_asc : ascending env 0 (fresh_area <$> es);
  ra_gap : gapped env 0 (fresh_area <$> es);
  ra_top : forall e, e ∈ es -> v_end e < task_size env /\ (v_end e - v_start e) / PAGE_SIZE < 2 ^ 31;
  ra_bits : forall e, e ∈ es -> vma_entry_is e VMA_PREMMAPED = false /\ vma_entry_is e VMA_NO_PROT_WRITE = false /\ vma_entry_is e VMA_AREA_SYSVIPC = false;
  ra_kind : forall e, e ∈ es -> vma_entry_is_private e (task_size env) = true -> has (v_flags e) MAP_SHARED = false /\ vma_entry_is e VMA_ANON_SHARED = false;
  ra_env : task_size env <= TASK_SIZE /\ lazy_pages env = false;
  ra_count : private_size env (fresh_area <$> es) < 2 ^ 48 /\ Z.of_nat (length es) < 2 ^ 32 - 1;
}.

Section Task.
Context {RK : ReadKernel} `{!ReadKernelOk RK} `{!ReadKernelLive RK}.
Variables (env : rst_env) (o : mem_opts) (mem pagemap : Z -> Z) (es : list VmaEntry) (size : Z).
Hypothesis Hareas : restorable_areas env es.
Hypothesis Hsame : o_task_size o = task_size env.
Hypothesis Hok : areas_ok o size PAGE_SIZE es.
Hypothesis Hmalloc : forall t, k_xmalloc t = true.

Lemma area_vma_ok e : e ∈ es -> vma_ok e.
Proof using Hok.
  revert Hok. clear. generalize PAGE_SIZE. induction es as [|v l IH]; intros lo; [by intros _ ?%elem_of_nil|].
  intros (H1 & _ & _ & _ & _ & H2) [->|He]%elem_of_cons; [done|by eapply IH].
Qed.

(** a dumped page is one of a private area *)
Lemma page_area p : p ∈ es ≫= vma_pages o pagemap false ->
  exists e, e ∈ es /\ vma_entry_is_private e (task_size env) = true /\ v_start e <= p /\ p + PAGE_SIZE <= v_end e.
Proof using Hok Hsame.
  intros (e & Hp & He)%list_elem_of_bind. destruct (vma_page_in o pagemap false e p (area_vma_ok e He) Hp) as (Hd & H1 & H2).
  exists e. split; [done|]. unfold dump_area in Hd. apply andb_true_iff in Hd as [Hd _]. by rewrite Hsame in Hd.
Qed.

Lemma in_fresh v : v ∈ fresh_area <$> es -> exists e, v = fresh_area e /\ e ∈ es.
Proof using Type. intros (e & -> & He)%list_elem_of_fmap. by exists e. Qed.

Lemma dumped_task_ok open_area prctl iofuel its hi x ids id :
  (forall t, open_area t = 0) -> (forall t, prctl t = 0) ->
  imaged 0 mem [] its (es ≫= vma_pages o pagemap false) [] hi x -> es ≫= vma_pages o pagemap false <> [] ->
  (Z.to_nat (pages_off (pmes (opened_reader x ids id))) <= iofuel)%nat -> (Z.to_nat PAGE_SIZE <= iofuel)%nat ->
  task_ok env open_area prctl (fresh_area <$> es) (opened_reader x ids id) [] iofuel.
Proof using All.
  intros Hoa Hpc I Hne Hf1 Hf2. destruct (ShmemRestore.ShmemRestore.imaged_resolvable 0 mem [] its _ hi x ids id ltac:(lia) ltac:(done) I) as (Hbe & Hres & _).
  change (mk_pr _ _ _ _ _ _ _ _ _ _) with (opened_reader x ids id) in Hbe, Hres.
  pose proof (ra_env _ _ Hareas) as [Ht Hlz]. split; try done.
  - apply (ra_asc _ _ Hareas).
  - apply (ra_gap _ _ Hareas).
  - intros v (e & -> & He)%in_fresh. destruct (area_vma_ok e He) as (H1 & _). destruct (ra_top _ _ Hareas e He). cbn. split_and!; (done || lia).
  - intros v (e & -> & He)%in_fresh. done.
  - intros v (e & -> & He)%in_fresh. destruct (ra_bits _ _ Hareas e He) as (? & ? & _). by split.
  - intros v (e & -> & He)%in_fresh. unfold vma_area_is. cbn. unfold has_callback. intros ->. by rewrite orb_true_r.
  - intros v (e & -> & He)%in_fresh Hp. by apply (ra_kind _ _ Hareas e).
  - intros Hnil. destruct es; [|done]. done.
  - constructor; [|constructor]. split; [|done]. by destruct Hbe.
  - intros Hnil. destruct (es ≫= vma_pages o pagemap false) as [|p P] eqn:EP; [done|].
    destruct (proj2 (imaged_covers mem its (p :: P) hi x ids id p I)) as (e & He & _).
    + exists p. split; [apply list_elem_of_here|]. unfold PAGE_SIZE. lia.
    + rewrite Hnil in He. by apply elem_of_nil in He.
  - intros e He _. split; [by apply Hres|]. intros a Ha.
    destruct (proj1 (imaged_covers mem its _ hi x ids id a I)) as (p & Hp & Hpa); [by exists e|].
    destruct (page_area p Hp) as (w & Hw & Hpw & B1 & B2). exists (fresh_area w). split; [apply list_elem_of_fmap; by exists w|].
    split; [|done]. unfold in_area. cbn. lia.
  - split; [|done]. by constructor.
Qed.

(** ** Dump, then restore *)
(** every private area is back with its protection: the dumped pages hold what the task had there, the others what a new
    mapping holds *)
Definition migrated {MK : MmKernel} (s : aspace) : Prop :=
  forall e a, e ∈ es -> vma_entry_is_private e (task_size env) = true -> vma_entry_is e VMA_AREA_REGULAR = true ->
    vma_entry_is e VMA_AREA_VDSO = false -> vma_entry_is e VMA_AREA_VVAR = false -> v_start e <= a < v_end e ->
    as_prot s a = Some (v_prot e) /\
    ((exists p, p ∈ es ≫= vma_pages o pagemap false /\ p <= a < p + PAGE_SIZE) -> as_mem s a = mem a) /\
    ((forall p, p ∈ es ≫= vma_pages o pagemap false -> ~ (p <= a < p + PAGE_SIZE)) -> fresh env (fresh_area e) a (as_mem s a)).

Lemma back_migrated {MK : MmKernel} its hi x ids id s : imaged 0 mem [] its (es ≫= vma_pages o pagemap false) [] hi x ->
  memory_back env (fresh_area <$> es) (opened_reader x ids id) [] s -> migrated s.
Proof using Hareas.
  intros I Hb e a He Hp Hr H1 H2 Ha. destruct (ra_env _ _ Hareas) as [_ Hlz].
  destruct (Hb (fresh_area e) a) as [Hpr Hm]; [apply list_elem_of_fmap; by exists e|done|done| |done|].
  { unfold vdso_area, vma_area_is. cbn. by rewrite H1, H2. }
  pose proof (imaged_brought env mem its _ hi x ids id a Hlz I) as HD. split; [done|]. split.
  - intros Hpg. rewrite (proj2 HD Hpg) in Hm. destruct Hpg as (p & Hpp & Hpa).
    destruct (imaged_read _ _ _ _ _ _ _ _ I) as (_ & Hrd & _). specialize (Hrd p a Hpp Hpa). rewrite Z.sub_0_r in Hrd.
    change (ref_byte [image_reader x] a = Some (mem a)) in Hrd. change (ref_byte [opened_reader x ids id] a) with (ref_byte [image_reader x] a) in Hm.
    congruence.
  - intros Hno. destruct (brought env (pmes (opened_reader x ids id)) a) eqn:ED; [|done].
    destruct (proj1 HD eq_refl) as (p & Hpp & Hpa). by destruct (Hno p Hpp).
Qed.
End Task.


(** the areas of [demo_vmas], dumped without a parent *)
Definition demo_first : mem_dump_ctl := mk_mdc false false None None.
Definition demo_first_dump : res (dump_result loc_xfer) :=
  @__parasite_dump_pages_seized (demo_kernel 1024) demo_splice_kernel PagemapCache.demo_pm_kernel demo_refs_kernel
    loc_xfer (@LocalXfer demo_xfer_kernel demo_read_kernel false) Mem.Mem.demo_opts PageXfer.PageXfer.demo_mem Mem.Mem.demo_pagemap
    (@local_engine demo_xfer_kernel demo_read_kernel false (fun _ _ => None) CR_FD_PAGEMAP 42 0)
    false true 100 demo_first Mem.Mem.demo_val 0%nat ∅ (replicate 32 []) 0 (mk_counts 0 0 0).
Definition demo_rst_env : rst_env := mk_env (2 ^ 47) false false.

Lemma demo_first_runs : match demo_first_dump with Done R => d_exit R = 0 | _ => False end.
Proof. vm_compute. done. Qed.

Lemma demo_first_areas e : e ∈ Mem.Mem.demo_vmas -> e = Mem.Mem.demo_vma 3 6 PROT_READ VMA_ANON_PRIVATE \/ e = Mem.Mem.demo_vma 11 3 0 VMA_ANON_PRIVATE \/
  e = Mem.Mem.demo_vma 20 2 PROT_READ VMA_ANON_SHARED.
Proof. unfold Mem.Mem.demo_vmas. rewrite !elem_of_cons. intros [?|[?|[?|[]%elem_of_nil]]]; auto. Qed.

Lemma demo_restorable : restorable_areas demo_rst_env Mem.Mem.demo_vmas.
Proof.
  split.
  - cbn. unfold area_ok, Premap.entry_ok, aligned, guard, TASK_SIZE, PAGE_SIZE. cbn. split_and!; (lia || done).
  - cbn. unfold guard, PAGE_SIZE. cbn. lia.
  - intros e [->|[->| ->]]%demo_first_areas; vm_compute; done.
  - intros e [->|[->| ->]]%demo_first_areas; done.
  - intros e [->|[->| ->]]%demo_first_areas; done.
  - split; [vm_compute; congruence|done].
  - by vm_compute.
Qed.

Lemma demo_first_list : @prepare_mm_pid demo_read_kernel demo_rst_env (fun _ _ => 0) (Some (inr Mem.Mem.demo_vmas)) true None 0%nat empty_list =
  (0, 6%nat, mk_vml (fresh_area <$> Mem.Mem.demo_vmas) 3 (9 * PAGE_SIZE)).
Proof. vm_compute. reflexivity. Qed.

Lemma demo_first_place t : @k_mmap demo_mm_kernel t demo_task_space 0 (9 * PAGE_SIZE) PROT_NONE (Z.lor MAP_PRIVATE MAP_ANONYMOUS) = 2 ^ 46.
Proof.
  assert (Hf : is_free demo_task_space (2 ^ 46) (9 * PAGE_SIZE) = true).
  { apply is_free_ok. intros a Ha. cbn. by rewrite (proj2 (within_false _ _ _)) by (unfold PAGE_SIZE; lia). }
  cbn [k_mmap demo_mm_kernel]. change (has _ MAP_FIXED) with false. change (2 ^ 46 + 9 * PAGE_SIZE <? TASK_SIZE) with true.
  change (0 =? 0) with true. rewrite Hf. cbn iota zeta. change (0 <=? 2 ^ 46) with true. cbn [andb]. by rewrite Hf.
Qed.

End Migration.
